(* ===== verification/_CoqProject ===== *)
-Q . S2P
Prelude.v
VarInt.v
PlainBinary.v
Codec.v
CNum.v
RawDateTime.v
VariantType.v
Lob.v
Variant.v
VariantArith.v
Utf8.v
VariantCmp.v
VariantConv.v
ColumnType.v
Like.v
Expr.v
ExprCodec.v
ExprSafe.v
ExprEval.v
ExprTyping.v
ExprSem.v
IndexKeys.v
LruCache.v
StateM.v
Bytes.v
ColumnRecords.v
LinearIndex.v
LinearIndexOps.v
LinearIndexNav.v
LinearIndexMap.v
LinearIndexSpec.v
BlockRegistry.v
BlockRegistrySpec.v
Column.v
ColumnData.v
ColumnBlocks.v
ColumnSpec.v
ColumnText.v
MasterColumn.v
Table.v
ColumnLaws.v
MasterSpec.v
TableSpec.v
TableRefine.v
TableUpdate.v
TableCorrect.v
FileIO.v
EncryptedFile.v
EncryptedFileSpec.v
FileSpec.v
RecordReader.v
CatalogRecords.v
CatalogSpec.v
SystemObjects.v
Users.v
SystemTables.v
Instance.v
InstanceSpec.v
InstanceRefine.v
MemTable.v
InstanceCorrect.v
SystemTablesSpec.v
InstancePersist.v
InstanceKept.v
InstanceKeptUsers.v
InstanceRestart.v
InstanceDurable.v
DataSet.v
DataSetSpec.v
MemScan.v
TableCursor.v
Query.v
QuerySpec.v
Select.v
SelectSpec.v
SelectCorrect.v
Dml.v
DmlCorrect.v
RowCodec.v
SelectWire.v
