(* ===== verification/Prelude.v ===== *)
(** * Siodb: a verification of its values, expressions, storage and queries

    Siodb is a SQL and REST database server in C++.  This library models the
    parts of it that compute: how values are encoded, compared, converted and
    operated on, how expressions are stored and evaluated, how rows are stored
    and found, and what requests answer and change.  Definitions follow the code of the files under [src/]
    that they are named after, and can be evaluated.

    ** The program and the files of this library

    - [common/utils] (base-128 integers, plain binary encoding, UTF-8 strings):
      [VarInt], [PlainBinary], [Codec], [Utf8].
    - [common/data/RawDateTime]: [RawDateTime].
    - [iomgr/shared/dbengine] (values): [VariantType] (types and their promotion),
      [CNum] (C++ integer and floating point arithmetic), [Lob] (LOB streams),
      [Variant] (representation and serialization), [VariantArith] (operators),
      [VariantCmp] (comparisons), [VariantConv] (conversions), [ColumnType].
    - [iomgr/shared/dbengine/parser/expr] (expressions): [Like] (the LIKE
      matcher), [Expr] (trees and deserialization), [ExprCodec] (round trip),
      [ExprSafe] (arbitrary input), [ExprEval] (types, validation, evaluation),
      [ExprTyping], [ExprSem].
    - [common/stl_ext/lru_cache.h] and the caches made from it: [LruCache].
    - [iomgr/lib/dbengine/ikt] and [uli] (the linear index, which maps row numbers
      to record addresses): [IndexKeys] (key types), [LinearIndex] (the code),
      [LinearIndexOps] (what the files mean, program logic, files and caches), [LinearIndexNav] (searches), [LinearIndexMap] (each
      operation), [LinearIndexSpec] (the abstract index and the theorems).
    - [iomgr/lib/dbengine] (columns and tables): [ColumnRecords] (records and
      headers), [BlockRegistry] and [BlockRegistrySpec] (which blocks a column
      has and how they follow each other), [Column] (blocks, their files and
      cache, the choice of a block, rollback), [ColumnData] (writing and reading
      values, LOB chains and LOB streams), [ColumnBlocks] (what the block
      operations do), [ColumnSpec] (columns of fixed-size values), [ColumnText]
      (text and binary columns),
      [MasterColumn] (records of rows, row numbers, the main index), [Table]
      (insert, update, delete, rollback, reading of a row), [ColumnLaws] and
      [MasterSpec] (what columns and the master column promise to the table),
      [TableSpec] (the abstract table), [TableRefine], [TableUpdate]
      (each operation keeps the representation), [TableCorrect] (the theorems).
    - [common/io/FileIO.cpp] and [iomgr/shared/dbengine/io] (files): [FileIO]
      (exact reads and writes over system calls that may be partial or fail),
      [EncryptedFile] (the file interface, plain and encrypted files),
      [EncryptedFileSpec], [FileSpec] (the theorems).
    - [iomgr/lib/dbengine/reg] and [Database_SysTablesIO.cpp] (the catalog):
      [RecordReader] (steps of the deserializers, registries), [CatalogRecords]
      (the records), [CatalogSpec] (the laws of every record), [SystemObjects]
      (the file of the system objects, on any [EncryptedFile.FileOps]).
    - [User*.cpp], [Instance_*.cpp] and [SystemDatabase_*.cpp] (users, access
      keys, tokens, permissions, authentication): [Users] (the user object),
      [SystemTables] (their rows, on the table interface [RowTable]), [Instance]
      (every request on users), [InstanceSpec] (an abstract machine of accounts),
      [InstanceRefine] (requests are its steps), [MemTable] (an instance of the
      table interface), [InstanceCorrect] (the theorems), [SystemTablesSpec],
      [InstancePersist], [InstanceKept], [InstanceKeptUsers]
      (rows stay in step with accounts), [InstanceRestart], [InstanceDurable]
      (restarts).
    - [DataSet], [TableDataSet], [parser/DBExpressionEvaluationContext] and
      [handlers/RequestHandler_DQL.cpp], [_DML.cpp], [_Common.cpp] (requests for
      rows): [DataSet] (bit masks, data sets over the table interface [ScanTable],
      the evaluation context), [DataSetSpec] (the laws [ScanTableLaws],
      [ScanTableChangeLaws] and [ScanTableInsertLaws] of that interface, and what a
      data set promises), [MemScan] (a table in memory as an instance), [TableCursor]
      (the tables of [Table] as an instance, and scans of them), [Query]
      (names, permissions, columns of expressions), [QuerySpec], [Select] (SELECT),
      [SelectSpec] (product, selection, projection of rows), [SelectCorrect] (the
      theorems), [Dml] (UPDATE, DELETE, INSERT), [DmlCorrect] (their theorems).
    - [handlers/VariantOutput.cpp], [SqlClientProtocolRowsetWriter.cpp], the
      typed streams of [common/protobuf], [forwardRowData] of the connection
      worker and [util/RowDecoder.cpp] (rows on their way to a client): [RowCodec],
      for every implementation of the interface [CodedStreams] with its laws;
      [SelectWire] composes it with SELECT.
    - [StateM] and [Bytes] hold the state monad and the lemmas on byte lists of
      the storage components.

    Values flow from the parsers to [Expr] trees, which [ExprEval] evaluates to
    [Variant]s with the operators of [VariantArith], [VariantCmp] and
    [VariantConv].  Constraint expressions and catalog records are stored with
    the codecs of [Codec], [Variant] and [ExprCodec].  A row is found through the
    linear index, whose files are held by an [LruCache]; the index is verified
    against the interface [FileCacheLaws], which the LRU cache implements.  The
    values of a row are in the blocks of its columns, which the column keeps in
    an LRU cache (interface [BlockCacheLaws]) and a block registry.  A table is
    verified for every block cache and every main index with the laws of
    [BlockCacheLaws] and [MainIndexLaws]; the LRU cache and the linear index are
    instances.  A request resolves the names of its expressions to columns of its
    data sets, evaluates them on the current rows, and moves the cursors; it is
    verified for every table with the laws of [ScanTableLaws], and UPDATE and DELETE
    for every table with those of [ScanTableChangeLaws].  [TableCursor] shows that
    the tables of [Table] with fixed-size columns keep both, as long as no row is the
    last one of a file of the linear index (there the search for the next key is
    wrong), no value ends at the end of its block (it cannot be read) and no block is
    evicted from a cache.  INSERT is verified for tables on which an insert either
    stores its row or throws ([ScanTableInsertLaws]); the table in memory is one.

    ** How code is modelled

    A computation has an [outcome]: it returns, throws, or has one of the named
    undefined behaviours.  Stateful components are functions from a state to an
    outcome and a state, so that the state after an exception is known.  Integers
    are [Z] with the width written out ([uw], [sw]); bytes are [Z] below 256;
    buffers are lists, and reading outside one is undefined.  Loops that are not
    structural have fuel: running out of it is [Undef NoProgress], and theorems
    that promise results prove that the given fuel is enough (the number of rows
    of a scan or of a product of tables, the records of a file, the bytes of a
    buffer).

    ** What the theorems show

    - Encodings are read back: integers, strings, values, expressions,
      date-times, column types, record headers; decoders stay inside their
      buffers; an unrolled decoder equals its reference.
    - Operators: integer results are the mathematical ones exactly when no
      overflow occurs; result types are those that are announced; comparisons
      agree with the order of integers and with each other.
    - LIKE matches its reference on code points and ends; reading an expression
      from any bytes ends; a stored expression keeps its value.
    - The LRU cache refines a list of entries by recency.  The linear index
      refines a finite map, keeps its contents when it is reopened, and survives
      a write that fails at any byte, when the file system has unnamed temporary
      files; searches return neighbours, with an exception at file ends that is
      proved too.
    - The block registry refines the documented map from blocks to their state and
      successors, up to two deviations that are proved: the first link of a column
      is lost, and a block that is recorded with its parent is linked backwards.
      A column of fixed-size values refines a list of values laid out in blocks,
      and keeps its objects, files, cache and registry consistent, as long as no
      block is evicted from the cache; short texts are read back.  Runs in which
      the code loses data are in [ColumnText].
    - A table of fixed-size columns refines a map from row numbers to rows under
      every sequence of inserts, updates, deletes and reads that fits into the block
      caches, errors included, and an operation that throws changes no row; a scan
      of it ends and gives its rows in order.
    - An encrypted file refines a plain file of bytes for every block cipher, and
      its contents survive that it is closed and opened again, for system calls whose
      short transfers are together less than half a block: the loops of [FileIO.c]
      end early when a short transfer is at least half of what is asked for.
    - Catalog records are read back, in every version of their format and for
      every order in which hash tables are traversed, reading arbitrary bytes is
      safe, and the system objects that are saved in a file are those that are
      loaded from it.
    - Requests on users take steps of a machine on accounts in which each step
      needs its permission, whatever they throw; so nobody gains a permission that
      nobody could grant, and the super user keeps an active key.  New tokens
      authenticate, signatures need an active key.  After any run of requests that
      end normally a restart gives the same users, keys and tokens.
    - SELECT answers with the selection, OFFSET, LIMIT and projection of the cross
      product of the rows of its tables, in order and completely, with the right
      null mask; a row that fails ends the response.  UPDATE, DELETE and INSERT
      change exactly the rows they should and count them, although the table
      changes below the cursor; they stop at the first row that fails.
    - A row that is written is read back, from a stream and from a buffer; the rows
      of a response pass the connection worker unchanged, up to their end and not
      further, and arrive completely and in order.  So a client of SELECT reads
      exactly the selected and projected rows: the announced columns describe them.
    - Theorems of kind error state deviations that the code has, by general
      statements where possible and otherwise on concrete inputs.

    ** Not modelled

    Parsers (on ANTLR trees of generated code), the handlers of other requests
    (definitions, users, SHOW, REST), the text of messages, HTTP status codes,
    the REST rowset writer, protocol messages, networking, TLS, logging, options, processes and clients are glue
    or pure I/O.  Ciphers come from
    vendored libraries: encrypted files are verified for every cipher that
    decrypts what it encrypts.  [strptime], [strftime],
    [strtod] and the time zone code are parameters.  Locks are not modelled:
    each modelled operation runs under its mutex; the clock is read once per
    request, and random values are a list that the request consumes.  Signatures
    and digests are parameters.  Join types, GROUP BY and ORDER BY are parts of a
    SELECT request that its handler ignores.  The B+ tree index is not used by tables. *)

(** ** This file

    Outcomes, byte buffers, fixed-width integers, shared lemmas and tactics. *)

From Stdlib Require Import ZArith List Lia Bool.
Import ListNotations.

#[global] Set Default Goal Selector "!".

Declare Scope siodb_scope.
Delimit Scope siodb_scope with siodb.
Open Scope Z_scope.

(** ** Outcomes of C++ code

    A C++ operation either returns, throws, or has undefined behaviour.  The
    undefined behaviours the modelled code can run into are named, so that
    their absence is a theorem and their presence a concrete run.  A loop without
    end and the abnormal end of the program are counted with them. *)

Inductive ub : Type :=
| OutOfBounds
| SignedOverflow
| DivisionByZero
| BadShift
| BadFloatCast
| Uninitialized
| Dangling      (** use of an object after its end *)
| NoProgress   (** a loop that does not end *)
| Terminated.  (** an exception leaves a [noexcept] function: [std::terminate] *)

Inductive outcome (E A : Type) : Type :=
| Ok (a : A)
| Throw (e : E)
| Undef (u : ub).
Arguments Ok {E A} a.
Arguments Throw {E A} e.
Arguments Undef {E A} u.

Definition bind {E A B} (c : outcome E A) (k : A -> outcome E B) : outcome E B :=
  match c with
  | Ok a => k a
  | Throw e => Throw e
  | Undef u => Undef u
  end.

Definition outcome_map {E A B} (f : A -> B) (c : outcome E A) : outcome E B :=
  bind c (fun a => Ok (f a)).

Notation "x <- c ;; k" := (bind c (fun x => k))
  (at level 100, c at next level, right associativity) : siodb_scope.
Notation "' pat <- c ;; k" := (bind c (fun pat => k))
  (at level 100, pat pattern, c at next level, right associativity) : siodb_scope.
Notation "c ;;; k" := (bind c (fun _ => k))
  (at level 100, right associativity) : siodb_scope.
Open Scope siodb_scope.

(** [well_defined c]: the computation returns or throws, and never has
    undefined behaviour. *)
Definition well_defined {E A} (c : outcome E A) : Prop :=
  match c with Undef _ => False | _ => True end.

Definition is_undef {E A} (c : outcome E A) : bool := match c with Undef _ => true | _ => false end.

Lemma bind_Ok {E A B} (c : outcome E A) (k : A -> outcome E B) b :
  bind c k = Ok b -> exists a, c = Ok a /\ k a = Ok b.
Proof. destruct c; cbn; intros H; try discriminate. eauto. Qed.

Lemma bind_assoc {E A B C} (c : outcome E A) (f : A -> outcome E B) (g : B -> outcome E C) :
  bind (bind c f) g = bind c (fun a => bind (f a) g).
Proof. destruct c; reflexivity. Qed.

Lemma well_defined_bind {E A B} (c : outcome E A) (k : A -> outcome E B) :
  well_defined c -> (forall a, c = Ok a -> well_defined (k a)) -> well_defined (bind c k).
Proof. destruct c; cbn; auto. Qed.

(** ** Bytes and buffers

    A byte is a [Z] in [0, 256); a buffer is the list of the bytes that may be
    read from a pointer on. *)

Definition byte_ok (b : Z) : Prop := 0 <= b < 256.
Definition bytes_ok (l : list Z) : Prop := Forall byte_ok l.

(** [Z] length of a list. *)
Definition len {A} (l : list A) : Z := Z.of_nat (length l).

(** [rd src i] is the C++ expression [src[i]]: undefined outside the buffer. *)
Definition rd {E} (src : list Z) (i : Z) : outcome E Z :=
  if i <? 0 then Undef OutOfBounds else
  match nth_error src (Z.to_nat i) with
  | Some b => Ok b
  | None => Undef OutOfBounds
  end.

(** [memrd src i n] reads [n] bytes from [src + i], as [memcpy] does. *)
Definition memrd {E} (src : list Z) (i n : Z) : outcome E (list Z) :=
  if (i <? 0) || (n <? 0) then Undef OutOfBounds else
  if i + n <=? len src then Ok (firstn (Z.to_nat n) (skipn (Z.to_nat i) src))
  else Undef OutOfBounds.

(** [memwr mem i l] stores the bytes [l] at [mem + i]. *)
Definition memwr {E} (mem : list Z) (i : Z) (l : list Z) : outcome E (list Z) :=
  if (i <? 0) || (len mem <? i + len l) then Undef OutOfBounds
  else Ok (firstn (Z.to_nat i) mem ++ l ++ skipn (Z.to_nat (i + len l)) mem).

Lemma len_nonneg {A} (l : list A) : 0 <= len l.
Proof. unfold len; lia. Qed.

Lemma len_nil {A} : len (@nil A) = 0.
Proof. reflexivity. Qed.

Lemma len_cons {A} (a : A) l : len (a :: l) = 1 + len l.
Proof. unfold len; cbn [length]; lia. Qed.

Lemma len_app {A} (l1 l2 : list A) : len (l1 ++ l2) = len l1 + len l2.
Proof. unfold len; rewrite length_app; lia. Qed.

Lemma firstn_len {A} (l : list A) : firstn (Z.to_nat (len l)) l = l.
Proof. unfold len. now rewrite Nat2Z.id, firstn_all. Qed.

Lemma bytes_ok_firstn n l : bytes_ok l -> bytes_ok (firstn n l).
Proof. unfold bytes_ok. rewrite <- (firstn_skipn n l) at 1. rewrite Forall_app. tauto. Qed.

Lemma bytes_ok_skipn n l : bytes_ok l -> bytes_ok (skipn n l).
Proof. unfold bytes_ok. rewrite <- (firstn_skipn n l) at 1. rewrite Forall_app. tauto. Qed.

Lemma bytes_ok_app l1 l2 : bytes_ok (l1 ++ l2) <-> bytes_ok l1 /\ bytes_ok l2.
Proof. apply Forall_app. Qed.

Lemma rd_cons_0 {E} b l : @rd E (b :: l) 0 = Ok b.
Proof. reflexivity. Qed.

Lemma rd_cons_S {E} b l i : 0 <= i -> @rd E (b :: l) (1 + i) = rd l i.
Proof.
  intros Hi. unfold rd.
  destruct (Z.ltb_spec (1 + i) 0); [lia|]. destruct (Z.ltb_spec i 0); [lia|].
  replace (Z.to_nat (1 + i)) with (S (Z.to_nat i)) by lia. reflexivity.
Qed.

Lemma rd_app_l {E} l1 l2 i : i < len l1 -> @rd E (l1 ++ l2) i = rd l1 i.
Proof.
  intros Hi. unfold rd. destruct (Z.ltb_spec i 0); [reflexivity|].
  rewrite nth_error_app1; [reflexivity|]. unfold len in Hi; lia.
Qed.

Lemma rd_app_r {E} l1 l2 i : 0 <= i -> @rd E (l1 ++ l2) (len l1 + i) = rd l2 i.
Proof.
  intros Hi. pose proof (len_nonneg l1). unfold rd.
  destruct (Z.ltb_spec (len l1 + i) 0); [lia|]. destruct (Z.ltb_spec i 0); [lia|].
  rewrite nth_error_app2 by (unfold len; lia).
  replace (Z.to_nat (len l1 + i) - length l1)%nat with (Z.to_nat i) by (unfold len; lia).
  reflexivity.
Qed.

Lemma rd_in_range {E} (src : list Z) i :
  0 <= i < len src -> exists b, @rd E src i = Ok b /\ In b src.
Proof.
  intros Hi. unfold rd, len in *. destruct (Z.ltb_spec i 0); [lia|].
  destruct (nth_error src (Z.to_nat i)) as [b|] eqn:Hn.
  - exists b. split; [reflexivity|]. eapply nth_error_In; eassumption.
  - apply nth_error_None in Hn. lia.
Qed.

Lemma rd_oob {E} (src : list Z) i : i < 0 \/ len src <= i -> @rd E src i = Undef OutOfBounds.
Proof.
  intros Hi. unfold rd, len in *. destruct (Z.ltb_spec i 0); [reflexivity|].
  rewrite (proj2 (nth_error_None _ _)) by lia. reflexivity.
Qed.

Lemma rd_byte_ok {E} (src : list Z) i b : bytes_ok src -> @rd E src i = Ok b -> byte_ok b.
Proof.
  intros Hs Hr. unfold rd in Hr. destruct (i <? 0); [discriminate|].
  destruct (nth_error src (Z.to_nat i)) eqn:Hn; [|discriminate].
  injection Hr as <-. eapply Forall_forall; [exact Hs|]. eapply nth_error_In; eassumption.
Qed.

Lemma rd_Ok_range {E} (src : list Z) i b : @rd E src i = Ok b -> 0 <= i < len src.
Proof.
  unfold rd, len. destruct (Z.ltb_spec i 0); [discriminate|].
  destruct (nth_error src (Z.to_nat i)) eqn:Hn; [|discriminate].
  intros _. assert (Z.to_nat i < length src)%nat by (apply nth_error_Some; congruence). lia.
Qed.

Lemma memrd_app {E} l1 l2 l3 : @memrd E (l1 ++ l2 ++ l3) (len l1) (len l2) = Ok l2.
Proof.
  pose proof (len_nonneg l1). pose proof (len_nonneg l2). pose proof (len_nonneg l3).
  unfold memrd. destruct (Z.ltb_spec (len l1) 0); [lia|]. destruct (Z.ltb_spec (len l2) 0); [lia|].
  cbn [orb]. rewrite !len_app. destruct (Z.leb_spec (len l1 + len l2) (len l1 + (len l2 + len l3))); [|lia].
  unfold len. rewrite !Nat2Z.id, skipn_app, skipn_all, Nat.sub_diag. cbn [skipn app].
  rewrite firstn_app, firstn_all, Nat.sub_diag. cbn [firstn]. now rewrite app_nil_r.
Qed.

(** A chunk between two others, by its offset and size. *)
Lemma memrd_mid {E} l1 l2 l3 i n : i = len l1 -> n = len l2 -> @memrd E (l1 ++ l2 ++ l3) i n = Ok l2.
Proof. intros -> ->. apply memrd_app. Qed.

Lemma memrd_head {E} l1 l2 n : n = len l1 -> @memrd E (l1 ++ l2) 0 n = Ok l1.
Proof. intros ->. exact (memrd_app [] l1 l2). Qed.

Lemma memrd_0_app {E} l2 l3 : @memrd E (l2 ++ l3) 0 (len l2) = Ok l2.
Proof. exact (memrd_app [] l2 l3). Qed.

(** ** Fixed-width integers

    [uw n z] reduces [z] to an unsigned [n]-bit integer and [sw n z] to a
    two's complement one, as C++ conversions do. *)

Definition uw (n : Z) (z : Z) : Z := z mod 2 ^ n.
Definition sw (n : Z) (z : Z) : Z := (z + 2 ^ (n - 1)) mod 2 ^ n - 2 ^ (n - 1).
Definition u_ok (n : Z) (z : Z) : Prop := 0 <= z < 2 ^ n.
Definition s_ok (n : Z) (z : Z) : Prop := - 2 ^ (n - 1) <= z < 2 ^ (n - 1).

Lemma pow2_pos n : 0 <= n -> 0 < 2 ^ n.
Proof. intros; apply Z.pow_pos_nonneg; lia. Qed.

Lemma pow2_half n : 0 < n -> 2 ^ n = 2 * 2 ^ (n - 1).
Proof. intros. rewrite <- Z.pow_succ_r by lia. f_equal; lia. Qed.

Lemma uw_range n z : 0 <= n -> u_ok n (uw n z).
Proof. intros. apply Z.mod_pos_bound, pow2_pos; assumption. Qed.

Lemma uw_small n z : u_ok n z -> uw n z = z.
Proof. intros. apply Z.mod_small. assumption. Qed.

Lemma uw_mod_eq n x y : (2 ^ n | x - y) -> uw n x = uw n y.
Proof.
  intros [k Hk]. unfold uw. replace x with (y + k * 2 ^ n) by lia. apply Z_mod_plus_full.
Qed.

Lemma sw_range n z : 0 < n -> s_ok n (sw n z).
Proof.
  intros Hn. unfold s_ok, sw. pose proof (Z.mod_pos_bound (z + 2 ^ (n - 1)) (2 ^ n)
    (pow2_pos n ltac:(lia))). rewrite (pow2_half n) in * by lia. lia.
Qed.

Lemma sw_small n z : 0 < n -> s_ok n z -> sw n z = z.
Proof.
  intros Hn Hz. unfold s_ok, sw in *. rewrite Z.mod_small; [lia|].
  rewrite (pow2_half n) by lia. lia.
Qed.

Lemma sw_uw n z : 0 < n -> sw n (uw n z) = sw n z.
Proof.
  intros Hn. unfold sw, uw. rewrite Zplus_mod_idemp_l. reflexivity.
Qed.

Lemma uw_sw n z : 0 < n -> uw n (sw n z) = uw n z.
Proof.
  intros Hn. unfold sw, uw.
  rewrite Zminus_mod_idemp_l. f_equal. lia.
Qed.

Lemma sw_of_uw_small n z : 0 < n -> s_ok n z -> sw n (uw n z) = z.
Proof. intros. rewrite sw_uw by assumption. apply sw_small; assumption. Qed.

(** ** Bit facts shared by the codecs *)

Lemma shiftl_mul z n : 0 <= n -> Z.shiftl z n = z * 2 ^ n.
Proof. intros. apply Z.shiftl_mul_pow2; assumption. Qed.

Lemma shiftr_div z n : 0 <= n -> Z.shiftr z n = z / 2 ^ n.
Proof. intros. apply Z.shiftr_div_pow2; assumption. Qed.

Lemma land_1 z : Z.land z 1 = z mod 2.
Proof. change 1 with (Z.ones 1). now rewrite Z.land_ones by lia. Qed.

(** Disjoint bit ranges: [lor] is addition. *)
Lemma lor_add_low a b n : 0 <= n -> 0 <= a < 2 ^ n -> Z.lor a (b * 2 ^ n) = a + b * 2 ^ n.
Proof.
  intros Hn Ha. rewrite <- Z.shiftl_mul_pow2 by lia.
  rewrite Z.add_nocarry_lxor.
  - apply Z.bits_inj'; intros i Hi. rewrite Z.lor_spec, Z.lxor_spec.
    destruct (Z.testbit a i) eqn:Ea; [|destruct (Z.testbit _ i); reflexivity].
    destruct (Z.ltb_spec i n) as [Hin|Hin].
    + rewrite Z.shiftl_spec_low by lia. reflexivity.
    + rewrite <- (Z.mod_small a (2 ^ n)), Z.mod_pow2_bits_high in Ea by lia. discriminate.
  - apply Z.bits_inj'; intros i Hi. rewrite Z.land_spec, Z.bits_0.
    destruct (Z.ltb_spec i n) as [Hin|Hin].
    + rewrite Z.shiftl_spec_low by lia. apply andb_false_r.
    + rewrite <- (Z.mod_small a (2 ^ n)), Z.mod_pow2_bits_high by lia. reflexivity.
Qed.

(** The sign bit of a byte. *)
Lemma testbit7 b : byte_ok b -> Z.testbit b 7 = (128 <=? b).
Proof.
  intros Hb. unfold byte_ok in Hb. destruct (Z.leb_spec 128 b).
  - rewrite Z.testbit_true by lia. change (2 ^ 7) with 128.
    assert (b / 128 = 1) as ->; [|reflexivity].
    symmetry. apply Z.div_unique with (b - 128); lia.
  - rewrite Z.testbit_false by lia. change (2 ^ 7) with 128.
    rewrite Z.div_small by lia. reflexivity.
Qed.

(** Case analysis on a [match] of the goal. *)
Ltac case_match :=
  match goal with |- context [match ?x with _ => _ end] => destruct x eqn:? end.

(** Case analysis on the boolean integer comparisons of the code, with the
    corresponding order facts left for [lia]. *)
Ltac zcases :=
  repeat match goal with
  | |- context [?a <? ?b] => destruct (Z.ltb_spec a b)
  | |- context [?a <=? ?b] => destruct (Z.leb_spec a b)
  | |- context [?a =? ?b] => destruct (Z.eqb_spec a b)
  | |- context [?a >? ?b] => rewrite (Z.gtb_ltb a b)
  | |- context [?a >=? ?b] => rewrite (Z.geb_leb a b)
  end; cbn [negb andb orb].

Ltac zcases_in H :=
  repeat match type of H with
  | context [?a <? ?b] => destruct (Z.ltb_spec a b)
  | context [?a <=? ?b] => destruct (Z.leb_spec a b)
  | context [?a =? ?b] => destruct (Z.eqb_spec a b)
  | context [?a >? ?b] => rewrite (Z.gtb_ltb a b) in H
  | context [?a >=? ?b] => rewrite (Z.geb_leb a b) in H
  end; cbn [negb andb orb] in H.

Create HintDb siodb.
Create Rewrite HintDb siodb_len.
#[export] Hint Resolve len_nonneg uw_range sw_range : siodb.
#[export] Hint Rewrite @len_nil @len_cons @len_app : siodb_len.
Ltac len_solve := autorewrite with siodb_len in *;
  repeat match goal with
  | |- context [len ?l] => lazymatch goal with H : 0 <= len l |- _ => fail | _ => pose proof (len_nonneg l) end
  end; try lia.

(** [src[p]] as the head of the rest of the buffer. *)
Lemma rd_skipn {E} (src : list Z) (p : nat) :
  @rd E src (Z.of_nat p) = match skipn p src with b :: _ => Ok b | [] => Undef OutOfBounds end.
Proof.
  unfold rd. destruct (Z.ltb_spec (Z.of_nat p) 0); [lia|]. rewrite Nat2Z.id.
  revert src. induction p as [|p IH]; intros [|b src]; cbn; try reflexivity. apply IH. lia.
Qed.

Lemma skipn_S_tl {A} (p : nat) (l : list A) : skipn (S p) l = tl (skipn p l).
Proof. revert l. induction p as [|p IH]; intros [|a l]; cbn; auto. rewrite <- IH. reflexivity. Qed.

(** Evaluates the closed powers of two of the goal and the context, for [lia]. *)
Ltac pow_norm :=
  repeat match goal with
  | |- context [2 ^ ?e] => let v := eval vm_compute in (2 ^ e) in
      lazymatch v with Zpos _ => change (2 ^ e) with v end
  | H : context [2 ^ ?e] |- _ => let v := eval vm_compute in (2 ^ e) in
      lazymatch v with Zpos _ => change (2 ^ e) with v in H end
  end.
