(* ===== verification/VarInt.v ===== *)
(** * Base-128 variable length integers

    Models [common/utils/Base128VariantEncoding.c], its inline header part and
    [Base128VariantEncodingCxx.cpp]: encoders, sizes and decoders of unsigned and
    signed (zigzag) 16, 32 and 64-bit integers.  An encoder is the list of bytes
    it writes; a decoder takes the readable bytes at [src] and the [size]
    argument separately, so that a read past the readable bytes is
    [Undef OutOfBounds]. *)

From Stdlib Require Import ZArith List Lia Bool.
From S2P Require Import Prelude.
Import ListNotations.
Open Scope Z_scope.

(** Width of the integer type, as in the three copies of each C function. *)
Inductive width : Type := W16 | W32 | W64.

Definition bits (w : width) : Z :=
  match w with W16 => 16 | W32 => 32 | W64 => 64 end.

Definition kMaxSerializedInt16Size := 3.
Definition kMaxSerializedInt32Size := 5.
Definition kMaxSerializedInt64Size := 10.

Definition kMaxSerializedIntSize (w : width) : Z :=
  match w with
  | W16 => kMaxSerializedInt16Size
  | W32 => kMaxSerializedInt32Size
  | W64 => kMaxSerializedInt64Size
  end.

(** ** Encoders

    The loop [while (value >= 0x80) { *dest++ = (uint8_t)(value | 0x80);
    value >>= 7; } *dest = (uint8_t) value;] with at most [n] iterations. *)

Fixpoint encode_loop (n : nat) (value : Z) : list Z :=
  match n with
  | O => [uw 8 value]
  | S n' =>
      if value >=? 0x80
      then uw 8 (Z.lor value 0x80) :: encode_loop n' (Z.shiftr value 7)
      else [uw 8 value]
  end.

(** The same loop counting iterations. *)
Fixpoint size_loop (n : nat) (length : Z) (value : Z) : Z :=
  match n with
  | O => length
  | S n' =>
      if value >=? 0x80 then size_loop n' (length + 1) (Z.shiftr value 7) else length
  end.

(** Iterations after which a [w]-bit value is below 0x80. *)
Definition max_iter (w : width) : nat :=
  match w with W16 => 2 | W32 => 4 | W64 => 9 end%nat.

Definition encodeVarUInt16 (value : Z) : list Z := encode_loop (max_iter W16) value.
Definition encodeVarUInt32 (value : Z) : list Z := encode_loop (max_iter W32) value.
Definition encodeVarUInt64 (value : Z) : list Z := encode_loop (max_iter W64) value.

Definition getVarUInt16Size (value : Z) : Z := size_loop (max_iter W16) 1 value.
Definition getVarUInt32Size (value : Z) : Z := size_loop (max_iter W32) 1 value.
Definition getVarUInt64Size (value : Z) : Z := size_loop (max_iter W64) 1 value.

(** Zigzag: [(value << 1) ^ (value >> (w-1))], converted to the unsigned type.
    16-bit values are promoted to [int] first; the conversion of the argument
    makes the two widths agree. *)
Definition zigzag (w : width) (value : Z) : Z :=
  uw (bits w) (Z.lxor (Z.shiftl value 1) (Z.shiftr value (bits w - 1))).

Definition encodeVarInt16 (value : Z) : list Z := encodeVarUInt16 (zigzag W16 value).
Definition encodeVarInt32 (value : Z) : list Z := encodeVarUInt32 (zigzag W32 value).
Definition encodeVarInt64 (value : Z) : list Z := encodeVarUInt64 (zigzag W64 value).
Definition getVarInt16Size (value : Z) : Z := getVarUInt16Size (zigzag W16 value).
Definition getVarInt32Size (value : Z) : Z := getVarUInt32Size (zigzag W32 value).
Definition getVarInt64Size (value : Z) : Z := getVarUInt64Size (zigzag W64 value).

(** ** Decoders

    The C result is an [int]: the number of bytes consumed, 0 when there is not
    enough data, -1 when the data is corrupt. *)
Inductive decoded : Type :=
| Consumed (n : Z) (value : Z)
| NotEnoughData
| Corrupt.

Definition dec_result : Type := outcome Empty_set decoded.

(** One unrolled step: [b = *p++; result += b << s; if (!(b & 0x80)) goto done;
    result -= 0x80 << s;].  After the last step the data is corrupt. *)
Fixpoint decode_steps (n : Z) (src : list Z) (p : Z) (result : Z) (shifts : list Z) : dec_result :=
  match shifts with
  | [] => Ok Corrupt
  | s :: rest =>
      b <- rd src p ;;
      let result := uw n (result + uw n (Z.shiftl b s)) in
      if negb (Z.testbit b 7) then Ok (Consumed (p + 1) result)
      else decode_steps n src (p + 1) (uw n (result - Z.shiftl 0x80 s)) rest
  end.

(** [size >= kMax || !(src[size - 1] & 0x80)], evaluated left to right. *)
Definition enough_data (src : list Z) (size kMax : Z) : outcome Empty_set bool :=
  if size >=? kMax then Ok true
  else b <- rd src (size - 1) ;; Ok (negb (Z.testbit b 7)).

Definition decodeVarUInt16 (src : list Z) (size : Z) : dec_result :=
  if size >? 0 then
    b0 <- rd src 0 ;;
    if b0 <? 0x80 then Ok (Consumed 1 b0) else
    ok <- enough_data src size kMaxSerializedInt16Size ;;
    if (ok : bool) then decode_steps 16 src 1 (uw 16 (b0 - 0x80)) [7; 14]
    else Ok NotEnoughData
  else Ok NotEnoughData.

Definition decodeVarUInt32 (src : list Z) (size : Z) : dec_result :=
  if size >? 0 then
    b0 <- rd src 0 ;;
    if b0 <? 0x80 then Ok (Consumed 1 b0) else
    ok <- enough_data src size kMaxSerializedInt32Size ;;
    if (ok : bool) then decode_steps 32 src 1 (uw 32 (b0 - 0x80)) [7; 14; 21; 28]
    else Ok NotEnoughData
  else Ok NotEnoughData.

(** The 64-bit decoder accumulates three 32-bit parts. *)
Record parts : Type := mk_parts { part0 : Z; part1 : Z; part2 : Z }.

Definition get_part (ps : parts) (k : Z) : Z :=
  if k =? 0 then part0 ps else if k =? 1 then part1 ps else part2 ps.

Definition set_part (ps : parts) (k v : Z) : parts :=
  if k =? 0 then mk_parts v (part1 ps) (part2 ps)
  else if k =? 1 then mk_parts (part0 ps) v (part2 ps)
  else mk_parts (part0 ps) (part1 ps) v.

(** [*value = part0 | (part1 << 28) | (part2 << 56)] in 64 bits. *)
Definition join_parts (ps : parts) : Z :=
  Z.lor (Z.lor (part0 ps) (uw 64 (Z.shiftl (part1 ps) 28))) (uw 64 (Z.shiftl (part2 ps) 56)).

Fixpoint decode_parts (src : list Z) (p : Z) (ps : parts) (steps : list (Z * Z)) : dec_result :=
  match steps with
  | [] => Ok Corrupt
  | (k, s) :: rest =>
      b <- rd src p ;;
      let v := uw 32 (get_part ps k + uw 32 (Z.shiftl b s)) in
      if negb (Z.testbit b 7) then Ok (Consumed (p + 1) (join_parts (set_part ps k v)))
      else decode_parts src (p + 1) (set_part ps k (uw 32 (v - Z.shiftl 0x80 s))) rest
  end.

Definition decodeVarUInt64 (src : list Z) (size : Z) : dec_result :=
  if size >? 0 then
    b0 <- rd src 0 ;;
    if b0 <? 0x80 then Ok (Consumed 1 b0) else
    ok <- enough_data src size kMaxSerializedInt64Size ;;
    if (ok : bool) then
      decode_parts src 0 (mk_parts 0 0 0)
        [(0, 0); (0, 7); (0, 14); (0, 21); (1, 0); (1, 7); (1, 14); (1, 21); (2, 0); (2, 7)]
    else Ok NotEnoughData
  else Ok NotEnoughData.

(** [(v >> 1) ^ -(v & 1)] converted to the signed type. *)
Definition unzigzag (w : width) (v : Z) : Z :=
  sw (bits w) (Z.lxor (Z.shiftr v 1) (- Z.land v 1)).

Definition decode_signed (w : width) (d : dec_result) : dec_result :=
  r <- d ;;
  match r with
  | Consumed n v => Ok (Consumed n (unzigzag w v))
  | r => Ok r
  end.

Definition decodeVarInt16 (src : list Z) (size : Z) := decode_signed W16 (decodeVarUInt16 src size).
Definition decodeVarInt32 (src : list Z) (size : Z) := decode_signed W32 (decodeVarUInt32 src size).
Definition decodeVarInt64 (src : list Z) (size : Z) := decode_signed W64 (decodeVarUInt64 src size).

(** The C++ overload sets [encodeVarInt], [decodeVarInt], [getVarIntSize]: chosen
    by the width and signedness of the argument. *)
Definition encodeVarInt (sgn : bool) (w : width) (value : Z) : list Z :=
  match sgn, w with
  | true, W16 => encodeVarInt16 value
  | false, W16 => encodeVarUInt16 value
  | true, W32 => encodeVarInt32 value
  | false, W32 => encodeVarUInt32 value
  | true, W64 => encodeVarInt64 value
  | false, W64 => encodeVarUInt64 value
  end.

Definition decodeVarInt (sgn : bool) (w : width) (src : list Z) (size : Z) : dec_result :=
  match sgn, w with
  | true, W16 => decodeVarInt16 src size
  | false, W16 => decodeVarUInt16 src size
  | true, W32 => decodeVarInt32 src size
  | false, W32 => decodeVarUInt32 src size
  | true, W64 => decodeVarInt64 src size
  | false, W64 => decodeVarUInt64 src size
  end.

Definition getVarIntSize (sgn : bool) (w : width) (value : Z) : Z :=
  match sgn, w with
  | true, W16 => getVarInt16Size value
  | false, W16 => getVarUInt16Size value
  | true, W32 => getVarInt32Size value
  | false, W32 => getVarUInt32Size value
  | true, W64 => getVarInt64Size value
  | false, W64 => getVarUInt64Size value
  end.

Definition int_ok (sgn : bool) (w : width) (z : Z) : Prop :=
  if sgn then s_ok (bits w) z else u_ok (bits w) z.

Example enc300 : encodeVarUInt32 300 = [0xAC; 2]. Proof. reflexivity. Qed.
Example dec300 : decodeVarUInt64 [0xAC; 2; 7] 3 = Ok (Consumed 2 300). Proof. reflexivity. Qed.
Example enc_m1 : encodeVarInt64 (-1) = [1]. Proof. reflexivity. Qed.
Example dec_min : decodeVarInt64 (encodeVarInt64 (- 2 ^ 63)) 10 = Ok (Consumed 10 (- 2 ^ 63)).
Proof. reflexivity. Qed.

(** ** Reference semantics *)

(** The value of a group of base-128 digits, least significant first. *)
Fixpoint varint_value (l : list Z) : Z :=
  match l with
  | [] => 0
  | b :: t => b mod 128 + 128 * varint_value t
  end.

(** The first complete group of [l]: continuation bytes and a terminator, at
    most [n] bytes long. *)
Fixpoint take_group (n : nat) (l : list Z) : option (list Z) :=
  match n, l with
  | S n', b :: t =>
      if b <? 128 then Some [b] else option_map (cons b) (take_group n' t)
  | _, _ => None
  end.

(** What the decoders compute on the [size] bytes of [src]: note that a short
    buffer is rejected by its last byte, before looking for a group. *)
Definition spec_decode (w : width) (src : list Z) (size : Z) : decoded :=
  let s := firstn (Z.to_nat size) src in
  match s with
  | [] => NotEnoughData
  | b0 :: _ =>
      if b0 <? 128 then Consumed 1 b0
      else if (size <? kMaxSerializedIntSize w) && (128 <=? last s 0) then NotEnoughData
      else match take_group (Z.to_nat (kMaxSerializedIntSize w)) s with
           | Some g => Consumed (len g) (uw (bits w) (varint_value g))
           | None => Corrupt
           end
  end.

(** ** Arithmetic of one step *)

Lemma lor_0x80 v : 0 <= v -> uw 8 (Z.lor v 0x80) = v mod 128 + 128.
Proof.
  intros Hv. unfold uw. pose proof (Z.mod_pos_bound v (2 ^ 7) ltac:(lia)) as Hm.
  transitivity (Z.lor (v mod 2 ^ 7) (1 * 2 ^ 7)); [|rewrite lor_add_low by lia; reflexivity].
  apply Z.bits_inj'. intros i Hi. change 0x80 with (2 ^ 7). change (1 * 2 ^ 7) with (2 ^ 7).
  rewrite Z.lor_spec, Z.pow2_bits_eqb by lia.
  destruct (Z.ltb_spec i 8).
  - rewrite Z.mod_pow2_bits_low, Z.lor_spec, Z.pow2_bits_eqb by lia.
    destruct (Z.eqb_spec 7 i); [now rewrite !orb_true_r|].
    rewrite Z.mod_pow2_bits_low by lia. reflexivity.
  - rewrite !Z.mod_pow2_bits_high by lia. destruct (Z.eqb_spec 7 i); [lia|reflexivity].
Qed.

Lemma lor_0x80_byte v : 0 <= v -> byte_ok (uw 8 (Z.lor v 0x80)) /\ 128 <= uw 8 (Z.lor v 0x80).
Proof.
  intros Hv. rewrite lor_0x80 by assumption. unfold byte_ok.
  pose proof (Z.mod_pos_bound v 128). lia.
Qed.

(** ** Encoding *)

(** The fuel [n] suffices for a value when [n] iterations bring it below 0x80. *)
Definition fits (n : nat) (v : Z) : Prop := 0 <= v < 128 * 128 ^ Z.of_nat n.

Lemma fits_shiftr n v : fits (S n) v -> fits n (Z.shiftr v 7).
Proof.
  unfold fits. intros [H0 H1]. rewrite shiftr_div by lia. change (2 ^ 7) with 128.
  rewrite Nat2Z.inj_succ, Z.pow_succ_r in H1 by lia. split; [apply Z.div_pos; lia|].
  apply Z.div_lt_upper_bound; lia.
Qed.

Lemma fits_max_iter w v : u_ok (bits w) v -> fits (max_iter w) v.
Proof. unfold u_ok, fits. destruct w; cbn; lia. Qed.

Lemma fits_0 v : fits 0 v -> 0 <= v < 128.
Proof. unfold fits. cbn. lia. Qed.

#[export] Hint Resolve fits_shiftr fits_max_iter : siodb.

(** The bounded loop satisfies the unfolding equation of the C loop: the bound
    is never what stops it. *)
Lemma encode_loop_eq n v : fits n v ->
  encode_loop n v = if v >=? 0x80 then uw 8 (Z.lor v 0x80) :: encode_loop n (Z.shiftr v 7)
                    else [uw 8 v].
Proof.
  revert v. induction n as [|n IH]; intros v Hv.
  - apply fits_0 in Hv. cbn. zcases; [lia|reflexivity].
  - cbn [encode_loop]. destruct (v >=? 0x80); [|reflexivity]. f_equal.
    apply IH. auto with siodb.
Qed.

Lemma encode_loop_bytes n v : fits n v -> bytes_ok (encode_loop n v).
Proof.
  revert v. induction n as [|n IH]; intros v Hv; cbn [encode_loop].
  - repeat constructor; apply (uw_range 8); lia.
  - zcases; [constructor; [|apply IH; auto with siodb]|repeat constructor; apply (uw_range 8); lia].
    apply lor_0x80_byte. apply Hv.
Qed.

Lemma size_loop_shift n l v : size_loop n (l + 1) v = size_loop n l v + 1.
Proof. revert l v. induction n; intros; cbn [size_loop]; zcases; auto. Qed.

Lemma size_loop_encode n v : size_loop n 1 v = len (encode_loop n v).
Proof.
  revert v. induction n as [|n IH]; intros v; cbn [size_loop encode_loop]; [reflexivity|].
  zcases; [|reflexivity]. rewrite len_cons, size_loop_shift, IH. lia.
Qed.

Lemma encode_loop_len n v : 1 <= len (encode_loop n v) <= 1 + Z.of_nat n.
Proof.
  revert v. induction n as [|n IH]; intros v; cbn [encode_loop]; [cbn; lia|].
  zcases; [|cbn; lia]. rewrite len_cons. specialize (IH (Z.shiftr v 7)). lia.
Qed.

(** Encoding, then anything: the group found is exactly what was written, and
    its value is the number encoded. *)
Lemma take_group_encode n m v rest : fits n v -> (S n <= m)%nat ->
  take_group m (encode_loop n v ++ rest) = Some (encode_loop n v).
Proof.
  revert m v. induction n as [|n IH]; intros [|m] v Hv Hm; try lia; cbn [encode_loop].
  - apply fits_0 in Hv. cbn [take_group app]. rewrite uw_small by (unfold u_ok; lia).
    zcases; [reflexivity|lia].
  - destruct (Z.geb_spec v 0x80) as [Hge|Hlt]; cbn [take_group app].
    + destruct (lor_0x80_byte v); [apply Hv|]. zcases; [lia|].
      rewrite IH by (auto with siodb; lia). reflexivity.
    + rewrite uw_small by (destruct Hv; unfold u_ok; lia). zcases; [reflexivity|lia].
Qed.

Lemma varint_value_encode n v : fits n v -> varint_value (encode_loop n v) = v.
Proof.
  revert v. induction n as [|n IH]; intros v Hv; cbn [encode_loop].
  - apply fits_0 in Hv. cbn [varint_value]. rewrite uw_small by (unfold u_ok; lia).
    rewrite Z.mod_small; lia.
  - destruct (Z.geb_spec v 0x80) as [Hge|Hlt]; cbn [varint_value].
    + rewrite IH, lor_0x80, shiftr_div by (auto with siodb; destruct Hv; lia).
      replace (v mod 128 + 128) with (v mod 128 + 1 * 128) by lia.
      rewrite Z.mod_add, Z.mod_mod by lia. pose proof (Z.div_mod v 128). change (2 ^ 7) with 128. lia.
    + rewrite uw_small by (destruct Hv; unfold u_ok; lia). rewrite Z.mod_small by (destruct Hv; lia). lia.
Qed.

(** ** Decoding *)

(** Outcome of an unrolled decoder started at byte [p] with [n] steps left. *)
Definition run_spec (n : nat) (src : list Z) (p : nat) (value : list Z -> Z) : dec_result :=
  match take_group n (skipn p src) with
  | Some g => Ok (Consumed (Z.of_nat p + len g) (value g))
  | None => if (n <=? length (skipn p src))%nat then Ok Corrupt else Undef OutOfBounds
  end.

(** One more byte read in front of a run. *)
Lemma run_spec_step n src p b value :
  @rd Empty_set src (Z.of_nat p) = Ok b ->
  run_spec (S n) src p value =
    if b <? 128 then Ok (Consumed (Z.of_nat p + 1) (value [b]))
    else run_spec n src (S p) (fun g => value (b :: g)).
Proof.
  rewrite rd_skipn. unfold run_spec. rewrite skipn_S_tl.
  destruct (skipn p src) as [|b' t]; [discriminate|]. intros H; injection H as <-.
  cbn [take_group length tl Nat.leb]. destruct (b' <? 128); [reflexivity|].
  destruct (take_group n t); cbn [option_map]; [|reflexivity].
  rewrite len_cons, Nat2Z.inj_succ. do 2 f_equal; lia.
Qed.

Lemma run_spec_oob n src p value :
  @rd Empty_set src (Z.of_nat p) = Undef OutOfBounds -> run_spec (S n) src p value = Undef OutOfBounds.
Proof.
  rewrite rd_skipn. unfold run_spec. destruct (skipn p src); [reflexivity|discriminate].
Qed.

Fixpoint progression (k : nat) (s : Z) : list Z :=
  match k with O => [] | S k' => s :: progression k' (s + 7) end.

Lemma run_spec_ext n src p f g : (forall l, f l = g l) -> run_spec n src p f = run_spec n src p g.
Proof. intros H. unfold run_spec. destruct (take_group _ _); [rewrite H|]; reflexivity. Qed.

Lemma byte_digit b : byte_ok b -> b mod 128 = if b <? 128 then b else b - 128.
Proof.
  unfold byte_ok. intros. zcases; [apply Z.mod_small; lia|].
  symmetry. apply Z.mod_unique with 1; lia.
Qed.

Lemma decode_steps_spec n src : bytes_ok src -> 0 <= n -> forall k p s result, 0 <= s ->
  decode_steps n src (Z.of_nat p) result (progression k s) =
  run_spec k src p (fun g => uw n (result + varint_value g * 2 ^ s)).
Proof.
  intros Hsrc Hn. induction k as [|k IH]; intros p s result Hs.
  - unfold run_spec. destruct (skipn p src); reflexivity.
  - cbn [progression decode_steps].
    destruct (rd src (Z.of_nat p)) as [b|e|u] eqn:Hb; [|destruct e|].
    + pose proof (rd_byte_ok _ _ _ Hsrc Hb) as Hbyte.
      rewrite (run_spec_step _ _ _ _ _ Hb). cbn [bind]. rewrite testbit7 by assumption.
      pose proof (byte_digit b Hbyte) as Hd.
      destruct (Z.leb_spec 128 b); destruct (Z.ltb_spec b 128); try lia; cbn [negb].
      * replace (Z.of_nat p + 1) with (Z.of_nat (S p)) by lia. rewrite IH by lia.
        apply run_spec_ext. intros g. cbn [varint_value]. rewrite Hd.
        rewrite !shiftl_mul by lia. rewrite Z.pow_add_r by lia.
        unfold uw. rewrite Zplus_mod_idemp_r, Zminus_mod_idemp_l, Zplus_mod_idemp_l.
        f_equal. change (2 ^ 7) with 128. lia.
      * do 2 f_equal. cbn [varint_value]. rewrite Hd, shiftl_mul by lia.
        unfold uw. rewrite Zplus_mod_idemp_r. f_equal. lia.
    + rewrite rd_skipn in Hb. cbn [bind]. rewrite run_spec_oob; [|rewrite rd_skipn].
      * destruct (skipn p src); [injection Hb as <-; reflexivity|discriminate].
      * destruct (skipn p src); [reflexivity|discriminate].
Qed.

(** *** The three-part 64-bit accumulator *)

Definition parts_sum (ps : parts) : Z := part0 ps + part1 ps * 2 ^ 28 + part2 ps * 2 ^ 56.

(** Before step [i]: part [i / 4] holds [i mod 4] digits, later parts are 0. *)
Definition parts_inv (i : nat) (ps : parts) : Prop :=
  0 <= part0 ps < 2 ^ (7 * Z.min 4 (Z.of_nat i)) /\
  0 <= part1 ps < 2 ^ (7 * Z.min 4 (Z.max 0 (Z.of_nat i - 4))) /\
  0 <= part2 ps < 2 ^ (7 * Z.max 0 (Z.of_nat i - 8)).

Lemma join_parts_sum ps : 0 <= part0 ps < 2 ^ 28 -> 0 <= part1 ps < 2 ^ 28 -> 0 <= part2 ps ->
  join_parts ps = uw 64 (parts_sum ps).
Proof.
  intros H0 H1 H2. unfold join_parts, parts_sum. rewrite !shiftl_mul by lia.
  rewrite (uw_small 64 (part1 ps * 2 ^ 28)) by (unfold u_ok; lia).
  rewrite lor_add_low by lia.
  assert (uw 64 (part2 ps * 2 ^ 56) = (part2 ps mod 2 ^ 8) * 2 ^ 56) as ->.
  { unfold uw. change (2 ^ 64) with (2 ^ 8 * 2 ^ 56). apply Z.mul_mod_distr_r; lia. }
  rewrite lor_add_low by lia. unfold uw.
  pose proof (Z.mod_pos_bound (part2 ps) (2 ^ 8)). pose proof (Z.div_mod (part2 ps) (2 ^ 8)).
  apply Z.mod_unique with (part2 ps / 2 ^ 8); lia.
Qed.

Definition step_of (i : nat) : Z * Z := (Z.of_nat i / 4, 7 * (Z.of_nat i mod 4)).

(** One step on the parts is one digit on their sum. *)
Lemma parts_step i ps b k s : (i < 10)%nat -> parts_inv i ps -> byte_ok b -> step_of i = (k, s) ->
  let v := uw 32 (get_part ps k + uw 32 (Z.shiftl b s)) in
  if b <? 128 then join_parts (set_part ps k v) = uw 64 (parts_sum ps + b * 2 ^ (7 * Z.of_nat i))
  else let ps' := set_part ps k (uw 32 (v - Z.shiftl 0x80 s)) in
       parts_inv (S i) ps' /\ parts_sum ps' = parts_sum ps + (b - 128) * 2 ^ (7 * Z.of_nat i).
Proof.
  intros Hi Hinv Hb Hst v. subst v. destruct ps as [a0 a1 a2].
  unfold byte_ok in Hb. unfold parts_inv in Hinv. cbn [part0 part1 part2] in Hinv.
  destruct i as [|[|[|[|[|[|[|[|[|[|i]]]]]]]]]]; [..|lia]; vm_compute in Hst; injection Hst as <- <-;
    cbn [get_part set_part part0 part1 part2 Z.eqb Pos.eqb];
    rewrite ?shiftl_mul by lia; unfold parts_inv, parts_sum; cbn [part0 part1 part2];
    pow_norm; rewrite (uw_small 32 (b * _)) by (unfold u_ok; lia);
    rewrite (uw_small 32 (_ + _)) by (unfold u_ok; lia);
    destruct (Z.ltb_spec b 128).
  all: try (rewrite join_parts_sum; unfold parts_sum; cbn [part0 part1 part2]; [f_equal|..]; lia).
  all: rewrite (uw_small 32 (_ - _)) by (unfold u_ok; lia); lia.
Qed.

Lemma decode_parts_spec src : bytes_ok src -> forall m i ps, (i + m = 10)%nat -> parts_inv i ps ->
  decode_parts src (Z.of_nat i) ps (map step_of (seq i m)) =
  run_spec m src i (fun g => uw 64 (parts_sum ps + varint_value g * 2 ^ (7 * Z.of_nat i))).
Proof.
  intros Hsrc. induction m as [|m IH]; intros i ps Him Hinv.
  - unfold run_spec. destruct (skipn i src); reflexivity.
  - cbn [seq map]. destruct (step_of i) as [k s] eqn:Hst. cbn [decode_parts].
    destruct (rd src (Z.of_nat i)) as [b|e|u] eqn:Hb; [|destruct e|].
    + pose proof (rd_byte_ok _ _ _ Hsrc Hb) as Hbyte.
      pose proof (parts_step i ps b k s ltac:(lia) Hinv Hbyte Hst) as Hstep.
      pose proof (byte_digit b Hbyte) as Hd.
      rewrite (run_spec_step _ _ _ _ _ Hb). cbn [bind]. rewrite testbit7 by assumption.
      destruct (Z.leb_spec 128 b); destruct (Z.ltb_spec b 128); try lia; cbn [negb] in *.
      * destruct Hstep as [Hinv' Hsum]. replace (Z.of_nat i + 1) with (Z.of_nat (S i)) by lia.
        rewrite IH by (assumption || lia). apply run_spec_ext. intros g.
        rewrite Hsum. cbn [varint_value]. rewrite Hd. f_equal.
        replace (7 * Z.of_nat (S i)) with (7 * Z.of_nat i + 7) by lia.
        rewrite Z.pow_add_r by lia. change (2 ^ 7) with 128. lia.
      * rewrite Hstep. cbn [varint_value]. rewrite Hd. do 2 f_equal. f_equal. lia.
    + rewrite rd_skipn in Hb. cbn [bind]. rewrite run_spec_oob; [|rewrite rd_skipn].
      * destruct (skipn i src); [injection Hb as <-; reflexivity|discriminate].
      * destruct (skipn i src); [reflexivity|discriminate].
Qed.

(** The unsigned decoder of each width. *)
Definition decodeVarUInt (w : width) : list Z -> Z -> dec_result :=
  match w with W16 => decodeVarUInt16 | W32 => decodeVarUInt32 | W64 => decodeVarUInt64 end.

(** The first two tests of every decoder, and the unrolled steps after them as a
    run over the groups. *)
Lemma decodeVarUInt_shape w src size : bytes_ok src ->
  decodeVarUInt w src size =
    if size >? 0 then
      b0 <- rd src 0 ;;
      if b0 <? 128 then Ok (Consumed 1 b0) else
      ok <- enough_data src size (kMaxSerializedIntSize w) ;;
      if (ok : bool)
      then run_spec (Z.to_nat (kMaxSerializedIntSize w)) src 0 (fun g => uw (bits w) (varint_value g))
      else Ok NotEnoughData
    else Ok NotEnoughData.
Proof.
  intros Hsrc. unfold decodeVarUInt.
  assert (forall n k b0, @rd Empty_set src 0 = Ok b0 -> (b0 <? 128) = false -> 0 <= n ->
    decode_steps n src 1 (uw n (b0 - 128)) (progression k 7) =
    run_spec (S k) src 0 (fun g => uw n (varint_value g))) as Hgen.
  { intros n k b0 Hb0 Hge Hn. change 1 with (Z.of_nat 1). rewrite decode_steps_spec by (assumption || lia).
    rewrite (run_spec_step k src 0 b0 _ Hb0), Hge. apply run_spec_ext. intros g.
    cbn [varint_value]. rewrite (byte_digit b0) by (eapply rd_byte_ok; eassumption).
    rewrite Hge. unfold uw. rewrite Zplus_mod_idemp_l. f_equal. change (2 ^ 7) with 128. lia. }
  destruct w; unfold decodeVarUInt16, decodeVarUInt32, decodeVarUInt64;
    destruct (size >? 0); try reflexivity;
    destruct (rd src 0) as [b0|e|u] eqn:Hb0; try destruct e; try reflexivity; cbn [bind];
    destruct (b0 <? 128) eqn:Hge; try reflexivity;
    destruct (enough_data src size _) as [[|]|e|u]; try destruct e; try reflexivity; cbn [bind].
  - apply (Hgen 16 2%nat b0); auto; lia.
  - apply (Hgen 32 4%nat b0); auto; lia.
  - transitivity (decode_parts src (Z.of_nat 0) (mk_parts 0 0 0) (map step_of (seq 0 10))); [reflexivity|].
    rewrite decode_parts_spec; [|assumption|reflexivity|unfold parts_inv; cbn; lia].
    apply run_spec_ext. intros g. unfold parts_sum; cbn [part0 part1 part2 Z.of_nat]. f_equal. lia.
Qed.

Lemma skipn_0 {A} (l : list A) : skipn 0 l = l.
Proof. reflexivity. Qed.

Lemma take_group_firstn m n l : (m <= n)%nat -> take_group m (firstn n l) = take_group m l.
Proof.
  revert n l. induction m as [|m IH]; intros [|n] [|b l] H; try reflexivity; try lia.
  cbn. destruct (b <? 128); [reflexivity|]. now rewrite IH by lia.
Qed.

(** A buffer with a terminator in it has a group. *)
Lemma take_group_terminated l : l <> [] -> last l 0 < 128 ->
  exists g, forall m, (length l <= m)%nat -> take_group m l = Some g.
Proof.
  induction l as [|b l IH]; [congruence|]. intros _ Hlast.
  destruct (Z.ltb_spec b 128) as [Hb|Hb].
  - exists [b]. intros [|m] Hm; cbn in *; [lia|]. now rewrite (proj2 (Z.ltb_lt _ _) Hb).
  - destruct l as [|b' l]; [cbn in Hlast; lia|].
    destruct IH as [g Hg]; [congruence|exact Hlast|].
    exists (b :: g). intros [|m] Hm; cbn [length] in Hm; [lia|]. cbn [take_group].
    rewrite (proj2 (Z.ltb_ge _ _) Hb), Hg by (cbn; lia). reflexivity.
Qed.

Lemma take_group_app m l r g : take_group m l = Some g -> take_group m (l ++ r) = Some g.
Proof.
  revert l g. induction m as [|m IH]; intros [|b l] g H; try discriminate.
  cbn in *. destruct (b <? 128); [assumption|].
  destruct (take_group m l) eqn:E; [|discriminate]. now rewrite (IH _ _ E).
Qed.

(** A group is a prefix within the step bound. *)
Lemma take_group_len m l g : take_group m l = Some g -> 1 <= len g <= Z.of_nat m /\ len g <= len l.
Proof.
  revert l g. induction m as [|m IH]; intros [|b l] g H; try discriminate.
  cbn in H. destruct (b <? 128); [injection H as <-; len_solve|].
  destruct (take_group m l) eqn:E; [|discriminate]. injection H as <-.
  apply IH in E. rewrite !len_cons in *. lia.
Qed.

(** Case analysis of the three ways a decoder continues after its first byte. *)
Lemma firstn_cons_pos {A} (a : A) l n : 0 < n -> firstn (Z.to_nat n) (a :: l) = a :: firstn (Z.to_nat (n - 1)) l.
Proof. intros. replace (Z.to_nat n) with (S (Z.to_nat (n - 1))) by lia. reflexivity. Qed.

Lemma rd_last {E} (src : list Z) n : 0 < n <= len src ->
  @rd E src (n - 1) = Ok (last (firstn (Z.to_nat n) src) 0).
Proof.
  unfold len. intros [H1 H2].
  rewrite <- (firstn_skipn (Z.to_nat n) src) at 1.
  assert (length (firstn (Z.to_nat n) src) = Z.to_nat n) as Hl by (rewrite length_firstn; lia).
  rewrite rd_app_l by (unfold len; lia).
  destruct (@exists_last _ (firstn (Z.to_nat n) src)) as (l & x & Hx).
  - intros H. rewrite H in Hl. cbn in Hl; lia.
  - rewrite Hx, last_last in *. rewrite length_app in Hl. cbn in Hl.
    replace (n - 1) with (len l + 0) by (unfold len; lia). rewrite rd_app_r by lia. reflexivity.
Qed.

(** The decoders compute the reference, with no read outside the buffer. *)
Lemma decodeVarUInt_spec w src size : bytes_ok src -> size <= len src ->
  decodeVarUInt w src size = Ok (spec_decode w src size).
Proof.
  intros Hsrc Hsize. rewrite decodeVarUInt_shape by assumption.
  rewrite Z.gtb_ltb. unfold spec_decode.
  destruct (Z.ltb_spec 0 size) as [Hpos|Hneg].
  2:{ replace (Z.to_nat size) with 0%nat by lia. reflexivity. }
  destruct src as [|b0 t]; [rewrite len_nil in Hsize; lia|].
  rewrite rd_cons_0. cbn [bind].
  set (s := firstn (Z.to_nat size) (b0 :: t)).
  assert (Hs : s = b0 :: firstn (Z.to_nat (size - 1)) t) by (apply firstn_cons_pos; assumption).
  rewrite Hs at 1. destruct (b0 <? 128); [reflexivity|].
  unfold enough_data. rewrite Z.geb_leb.
  set (k := kMaxSerializedIntSize w). assert (Hk : 3 <= k) by (unfold k; destruct w; vm_compute; discriminate).
  destruct (Z.leb_spec k size) as [Hbig|Hsmall].
  - rewrite (proj2 (Z.ltb_ge size k)) by lia. cbn [bind andb].
    unfold run_spec, s. rewrite skipn_0, take_group_firstn by lia.
    destruct (take_group _ _); [reflexivity|].
    rewrite (proj2 (Nat.leb_le _ _)) by (unfold len in Hsize; lia). reflexivity.
  - rewrite (proj2 (Z.ltb_lt size k)) by lia. cbn [andb].
    rewrite rd_last by lia. fold s. cbn [bind].
    assert (Hlast : byte_ok (last s 0)).
    { eapply (rd_byte_ok (E := Empty_set)); [exact Hsrc|]. apply rd_last. lia. }
    rewrite testbit7 by assumption.
    destruct (Z.leb_spec 128 (last s 0)) as [Hge|Hlt]; cbn [negb]; [reflexivity|].
    destruct (take_group_terminated s) as [g Hg]; [rewrite Hs; discriminate|assumption|].
    assert (Hg' : take_group (Z.to_nat k) s = Some g)
      by (apply Hg; unfold s; rewrite length_firstn; unfold len in Hsize; lia).
    rewrite Hg'. unfold run_spec. rewrite skipn_0.
    rewrite <- (firstn_skipn (Z.to_nat size) (b0 :: t)). fold s.
    rewrite (take_group_app _ _ _ _ Hg'). reflexivity.
Qed.

(** ** Zigzag *)

Lemma shiftr_sign n v : 0 < n -> s_ok n v -> Z.shiftr v (n - 1) = if v <? 0 then -1 else 0.
Proof.
  intros Hn Hv. unfold s_ok in Hv. rewrite shiftr_div by lia. zcases.
  - symmetry. apply Z.div_unique with (v + 2 ^ (n - 1)); lia.
  - apply Z.div_small. lia.
Qed.

Lemma bits_pos w : 0 < bits w.
Proof. destruct w; cbn; lia. Qed.

Lemma zigzag_eq w v : s_ok (bits w) v -> zigzag w v = if v <? 0 then - 2 * v - 1 else 2 * v.
Proof.
  intros Hv. unfold zigzag. pose proof (bits_pos w).
  rewrite shiftr_sign, shiftl_mul by (assumption || lia). change (2 ^ 1) with 2.
  unfold s_ok in Hv. pose proof (pow2_half (bits w) ltac:(lia)).
  destruct (Z.ltb_spec v 0).
  - rewrite Z.lxor_m1_r, Z.lnot_eq_pred_opp. rewrite uw_small; unfold u_ok; lia.
  - rewrite Z.lxor_0_r, uw_small; unfold u_ok; lia.
Qed.

Lemma zigzag_range w v : s_ok (bits w) v -> u_ok (bits w) (zigzag w v).
Proof. intros _. unfold zigzag. apply uw_range. pose proof (bits_pos w); lia. Qed.

Lemma unzigzag_zigzag w v : s_ok (bits w) v -> unzigzag w (zigzag w v) = v.
Proof.
  intros Hv. rewrite zigzag_eq by assumption. unfold unzigzag.
  rewrite shiftr_div by lia. change (2 ^ 1) with 2.
  rewrite land_1.
  destruct (Z.ltb_spec v 0).
  - replace (- 2 * v - 1) with (1 + (- v - 1) * 2) by lia.
    rewrite Z.div_add, Z.mod_add by lia. change (1 mod 2) with 1. change (1 / 2) with 0.
    rewrite Z.lxor_m1_r, Z.lnot_eq_pred_opp. rewrite sw_small; [lia|apply bits_pos|].
    unfold s_ok in *. lia.
  - replace (2 * v) with (0 + v * 2) by lia. rewrite Z.div_add, Z.mod_add by lia.
    change (0 mod 2) with 0. change (0 / 2) with 0. cbn [Z.opp]. rewrite Z.lxor_0_r.
    apply sw_small; [apply bits_pos|assumption].
Qed.

(** ** Round trips *)

Lemma encodeVarUInt_eq w v : encodeVarInt false w v = encode_loop (max_iter w) v.
Proof. destruct w; reflexivity. Qed.

(** The bytes do not depend on the width. *)
Lemma encode_loop_fuel n m v : fits n v -> (n <= m)%nat -> encode_loop m v = encode_loop n v.
Proof.
  revert m v. induction n as [|n IH]; intros [|m] v Hf Hm; try lia; try reflexivity; cbn [encode_loop].
  - apply fits_0 in Hf. rewrite Z.geb_leb, (proj2 (Z.leb_gt 0x80 v)) by lia. reflexivity.
  - destruct (v >=? 0x80); [|reflexivity]. f_equal. apply IH; [now apply fits_shiftr|lia].
Qed.

Lemma encodeVarInt_signed w v : encodeVarInt true w v = encodeVarInt false w (zigzag w v).
Proof. destruct w; reflexivity. Qed.

Lemma decodeVarInt_unsigned w src size : decodeVarInt false w src size = decodeVarUInt w src size.
Proof. destruct w; reflexivity. Qed.

Lemma decodeVarInt_signed w src size :
  decodeVarInt true w src size = decode_signed w (decodeVarInt false w src size).
Proof. destruct w; reflexivity. Qed.

Lemma encodeVarInt_bytes sgn w v : int_ok sgn w v -> bytes_ok (encodeVarInt sgn w v).
Proof.
  destruct sgn; cbn [int_ok]; intros; rewrite ?encodeVarInt_signed, encodeVarUInt_eq;
    apply encode_loop_bytes, fits_max_iter; auto using zigzag_range.
Qed.

Lemma getVarIntSize_len sgn w v : getVarIntSize sgn w v = len (encodeVarInt sgn w v).
Proof. destruct sgn, w; apply size_loop_encode. Qed.

Lemma encodeVarInt_len sgn w v : 1 <= len (encodeVarInt sgn w v) <= kMaxSerializedIntSize w.
Proof.
  destruct sgn, w; cbn [encodeVarInt kMaxSerializedIntSize];
  match goal with |- context [encodeVarInt16 ?v] => pose proof (encode_loop_len 2 (zigzag W16 v))
  | |- context [encodeVarInt32 ?v] => pose proof (encode_loop_len 4 (zigzag W32 v))
  | |- context [encodeVarInt64 ?v] => pose proof (encode_loop_len 9 (zigzag W64 v))
  | |- context [encodeVarUInt16 ?v] => pose proof (encode_loop_len 2 v)
  | |- context [encodeVarUInt32 ?v] => pose proof (encode_loop_len 4 v)
  | |- context [encodeVarUInt64 ?v] => pose proof (encode_loop_len 9 v) end; assumption.
Qed.

#[export] Hint Resolve encodeVarInt_bytes : siodb.

(** Decoding inside the buffer always has a result, within range. *)
Lemma decodeVarInt_total sgn w src size : bytes_ok src -> size <= len src ->
  exists d, decodeVarInt sgn w src size = Ok d /\
    match d with Consumed n v => 1 <= n <= size /\ int_ok sgn w v | _ => True end.
Proof.
  intros Hb Hs.
  assert (Hu : exists d, decodeVarInt false w src size = Ok d /\
    match d with Consumed n v => 1 <= n <= size /\ u_ok (bits w) v | _ => True end).
  { rewrite decodeVarInt_unsigned, decodeVarUInt_spec by assumption. eexists. split; [reflexivity|].
    unfold spec_decode. destruct (firstn (Z.to_nat size) src) as [|b0 t] eqn:Hf; [exact I|].
    assert (Hlen : 1 + len t <= size).
    { rewrite <- (len_cons b0), <- Hf. unfold len in *. rewrite length_firstn.
      destruct (Z.leb_spec 0 size); [lia|]. replace (Z.to_nat size) with 0%nat in Hf by lia. discriminate. }
    pose proof (len_nonneg t).
    assert (Hb0 : byte_ok b0).
    { assert (bytes_ok (b0 :: t)) as Hbt by (rewrite <- Hf; now apply bytes_ok_firstn). now apply Forall_inv in Hbt. }
    unfold byte_ok in Hb0. destruct (Z.ltb_spec b0 128).
    - split; [lia|]. unfold u_ok. destruct w; cbn; lia.
    - destruct (_ && _); [exact I|]. destruct (take_group _ _) as [g|] eqn:Hg; [|exact I].
      apply take_group_len in Hg. rewrite len_cons in Hg. split; [lia|]. apply uw_range. pose proof (bits_pos w). lia. }
  destruct sgn; [|exact Hu]. destruct Hu as (d & Hd & Hr). rewrite decodeVarInt_signed.
  rewrite Hd. destruct d as [n v| |]; cbn [decode_signed bind]; eexists; split; try reflexivity.
  split; [apply Hr|]. cbn [int_ok]. apply sw_range, bits_pos.
Qed.

(** A decoder told of one byte more than there are reads that byte, unless the
    first byte or the buffer size decides before. *)
Lemma decodeVarUInt_overread w src : bytes_ok src -> (exists b t, src = b :: t /\ 128 <= b) ->
  len src + 1 < kMaxSerializedIntSize w -> decodeVarUInt w src (len src + 1) = Undef OutOfBounds.
Proof.
  intros Hb (b & t & -> & Hge) Hl. rewrite decodeVarUInt_shape by assumption.
  pose proof (len_nonneg (b :: t)). rewrite Z.gtb_ltb, (proj2 (Z.ltb_lt 0 _)) by lia.
  rewrite rd_cons_0. cbn [bind]. rewrite (proj2 (Z.ltb_ge b 128)) by lia.
  unfold enough_data. rewrite Z.geb_leb, (proj2 (Z.leb_gt _ _)) by lia.
  rewrite rd_oob by lia. reflexivity.
Qed.

(** What must follow an encoded integer for the decoder to read it back: it has
    one byte, or the buffer holds at least the maximal size, or the buffer ends
    with a byte below 0x80. *)
Definition decodable (w : width) (enc rest : list Z) : Prop :=
  len enc = 1 \/ kMaxSerializedIntSize w <= len (enc ++ rest) \/ last (enc ++ rest) 0 < 128.

Lemma encode_loop_1 n v : fits n v -> len (encode_loop n v) = 1 -> 0 <= v < 128 /\ encode_loop n v = [v].
Proof.
  intros Hf. rewrite encode_loop_eq by assumption. pose proof (encode_loop_len n (Z.shiftr v 7)).
  zcases; intros Hl; [rewrite len_cons in Hl; lia|]. destruct Hf.
  rewrite uw_small by (unfold u_ok; lia). split; [lia|reflexivity].
Qed.

Lemma encode_loop_head n v : fits n v -> 1 < len (encode_loop n v) ->
  exists b t, encode_loop n v = b :: t /\ 128 <= b.
Proof.
  intros Hf. rewrite encode_loop_eq by assumption. zcases; [|cbn; lia].
  intros _. do 2 eexists. split; [reflexivity|]. apply lor_0x80_byte. apply Hf.
Qed.

Lemma encodeVarInt_overread sgn w v : int_ok sgn w v -> 1 < len (encodeVarInt sgn w v) ->
  len (encodeVarInt sgn w v) + 1 < kMaxSerializedIntSize w ->
  decodeVarInt sgn w (encodeVarInt sgn w v) (len (encodeVarInt sgn w v) + 1) = Undef OutOfBounds.
Proof.
  intros Hv H1 Hmax. pose proof (encodeVarInt_bytes sgn w v Hv) as Hb.
  assert (Hhead : exists b t, encodeVarInt sgn w v = b :: t /\ 128 <= b).
  { destruct sgn; [rewrite encodeVarInt_signed in *|]; rewrite encodeVarUInt_eq in *;
      apply encode_loop_head; try assumption; apply fits_max_iter; [now apply zigzag_range|exact Hv]. }
  destruct sgn; rewrite ?decodeVarInt_signed, decodeVarInt_unsigned;
    rewrite decodeVarUInt_overread by assumption; reflexivity.
Qed.

Lemma decodeVarUInt_roundtrip w v rest : u_ok (bits w) v -> bytes_ok rest ->
  decodable w (encodeVarInt false w v) rest ->
  decodeVarInt false w (encodeVarInt false w v ++ rest) (len (encodeVarInt false w v ++ rest)) =
    Ok (Consumed (len (encodeVarInt false w v)) v).
Proof.
  intros Hv Hrest Hd. pose proof (fits_max_iter w v Hv) as Hf.
  pose proof (encodeVarInt_len false w v) as Hlen.
  assert (bytes_ok (encodeVarInt false w v ++ rest)) as Hb.
  { apply Forall_app. split; [|assumption]. apply (encodeVarInt_bytes false). exact Hv. }
  rewrite decodeVarInt_unsigned, decodeVarUInt_spec by (assumption || lia).
  f_equal. unfold spec_decode. rewrite firstn_len.
  rewrite encodeVarUInt_eq in *. unfold decodable in Hd.
  destruct (Z.eq_dec (len (encode_loop (max_iter w) v)) 1) as [H1|H1].
  - destruct (encode_loop_1 _ _ Hf H1) as [Hr ->]. cbn [app].
    rewrite (proj2 (Z.ltb_lt v 128)) by lia. reflexivity.
  - destruct (encode_loop_head _ _ Hf) as (b & t & Hbt & Hge); [lia|].
    rewrite Hbt. cbn [app]. rewrite (proj2 (Z.ltb_ge b 128)) by lia.
    change (b :: t ++ rest) with ((b :: t) ++ rest). rewrite <- Hbt.
    replace ((_ <? _) && (_ <=? _)) with false.
    + rewrite take_group_encode; [|assumption|destruct w; cbn; lia].
      rewrite varint_value_encode, uw_small by assumption. reflexivity.
    + symmetry. apply andb_false_iff. rewrite Z.ltb_ge, Z.leb_gt. lia.
Qed.

Lemma decodeVarInt_encode sgn w v rest : int_ok sgn w v -> bytes_ok rest ->
  decodable w (encodeVarInt sgn w v) rest ->
  decodeVarInt sgn w (encodeVarInt sgn w v ++ rest) (len (encodeVarInt sgn w v ++ rest)) =
    Ok (Consumed (len (encodeVarInt sgn w v)) v).
Proof.
  destruct sgn; cbn [int_ok]; intros Hv Hrest Hd.
  - rewrite decodeVarInt_signed. rewrite encodeVarInt_signed in *.
    rewrite decodeVarUInt_roundtrip by auto using zigzag_range. unfold decode_signed. cbn [bind].
    now rewrite unzigzag_zigzag.
  - now apply decodeVarUInt_roundtrip.
Qed.

(** ** Claims *)

(** C5: every 16, 32 and 64-bit integer, signed or unsigned, is read back by the
    matching decoder from the bytes its encoder wrote, with as many bytes
    consumed as written, when the integer takes one byte, or the buffer holds at
    least the maximal encoded size, or the last byte of the buffer is below
    0x80 (in particular when nothing follows the integer). *)
Theorem varint_roundtrip sgn w v rest : int_ok sgn w v -> bytes_ok rest ->
  decodable w (encodeVarInt sgn w v) rest ->
  let buffer := encodeVarInt sgn w v ++ rest in
  decodeVarInt sgn w buffer (len buffer) = Ok (Consumed (len (encodeVarInt sgn w v)) v).
Proof.
  intros. now apply decodeVarInt_encode.
Qed.

Lemma varint_roundtrip_witness :
  decodeVarInt true W32 (encodeVarInt true W32 (-1000) ++ [7; 0x7F]) 4 = Ok (Consumed 2 (-1000)).
Proof.
  apply (varint_roundtrip true W32 (-1000) [7; 0x7F]); cbn [int_ok].
  - unfold s_ok; cbn; lia.
  - repeat constructor; unfold byte_ok; lia.
  - right; right. reflexivity.
Defined.

(** C38: on every buffer of bytes whose declared size is within what can be read,
    the unrolled decoders (the 64-bit one with its three 32-bit parts) compute
    the reference: the value of the first group of base-128 digits modulo the
    width, [NotEnoughData] for a short buffer ending in a continuation byte and
    [Corrupt] when no group ends within the maximal size.  They never read
    outside the buffer. *)
Theorem decoders_reference w src size : bytes_ok src -> size <= len src ->
  decodeVarInt false w src size = Ok (spec_decode w src size).
Proof. intros. rewrite decodeVarInt_unsigned. now apply decodeVarUInt_spec. Qed.

Lemma decoders_reference_witness :
  decodeVarInt false W64 [0xFF; 0xFF; 0xFF; 0xFF; 0xFF; 0xFF; 0xFF; 0xFF; 0xFF; 0xFF; 1] 11 = Ok Corrupt.
Proof.
  apply (decoders_reference W64 [0xFF; 0xFF; 0xFF; 0xFF; 0xFF; 0xFF; 0xFF; 0xFF; 0xFF; 0xFF; 1] 11).
  - repeat constructor; unfold byte_ok; lia.
  - cbn; lia.
Defined.

(** [getVarIntSize] is the number of bytes the encoder writes, which is
    between 1 and the declared maximum of the width, and a value is encoded in
    one byte exactly when its unsigned (zigzag) form is below 0x80. *)
Theorem varint_size sgn w v : int_ok sgn w v ->
  getVarIntSize sgn w v = len (encodeVarInt sgn w v) /\
  1 <= getVarIntSize sgn w v <= kMaxSerializedIntSize w /\
  (getVarIntSize sgn w v = 1 <-> (if sgn then zigzag w v else v) < 0x80).
Proof.
  intros Hv. rewrite getVarIntSize_len. split; [reflexivity|]. split; [apply encodeVarInt_len|].
  assert (Hf : fits (max_iter w) (if sgn then zigzag w v else v)).
  { apply fits_max_iter. destruct sgn; [now apply zigzag_range|assumption]. }
  assert (He : encodeVarInt sgn w v = encode_loop (max_iter w) (if sgn then zigzag w v else v)).
  { destruct sgn; [rewrite encodeVarInt_signed|]; apply encodeVarUInt_eq. }
  rewrite He. split; intros H.
  - apply encode_loop_1 in H; [lia|assumption].
  - rewrite encode_loop_eq by assumption. rewrite Z.geb_leb, (proj2 (Z.leb_gt _ _)) by assumption.
    reflexivity.
Qed.

Lemma varint_size_witness :
  getVarIntSize true W16 (-64) = 1 /\ 1 <= getVarIntSize true W16 (-64) <= 3.
Proof.
  destruct (varint_size true W16 (-64)) as (H & Hb & _); [cbn; unfold s_ok; cbn; lia|].
  split; [reflexivity|exact Hb].
Defined.

(** a complete two-byte integer followed by one byte with its top bit set is
    rejected with [NotEnoughData] by the 64-bit decoder, although all its bytes
    are there: the test of the last byte of a short buffer looks past the
    integer. *)
Theorem short_buffer_rejected v b : 0x80 <= v < 0x4000 -> 0x80 <= b < 0x100 ->
  decodeVarInt false W64 (encodeVarInt false W64 v ++ [b]) (len (encodeVarInt false W64 v ++ [b])) =
    Ok NotEnoughData.
Proof.
  intros Hv Hb.
  assert (Hu : int_ok false W64 v) by (cbn; unfold u_ok; lia).
  assert (Hf : fits 9 v) by (apply (fits_max_iter W64); exact Hu).
  assert (He : encodeVarInt false W64 v = [uw 8 (Z.lor v 0x80); Z.shiftr v 7]).
  { rewrite encodeVarUInt_eq. cbn [max_iter]. rewrite encode_loop_eq by assumption.
    rewrite Z.geb_leb, (proj2 (Z.leb_le _ _)) by lia. f_equal.
    assert (0 <= Z.shiftr v 7 < 128).
    { rewrite shiftr_div by lia. change (2 ^ 7) with 128. split; [apply Z.div_pos; lia|].
      apply Z.div_lt_upper_bound; lia. }
    cbn [encode_loop]. rewrite Z.geb_leb, (proj2 (Z.leb_gt _ _)) by lia.
    now rewrite uw_small by (unfold u_ok; lia). }
  assert (Hbytes : bytes_ok (encodeVarInt false W64 v ++ [b])).
  { apply Forall_app. split; [now apply encodeVarInt_bytes|]. repeat constructor; lia. }
  rewrite decodeVarInt_unsigned, decodeVarUInt_spec by (assumption || lia).
  rewrite He. f_equal. unfold spec_decode. rewrite firstn_len. cbn [app last].
  destruct (lor_0x80_byte v); [lia|]. rewrite (proj2 (Z.ltb_ge _ _)) by lia.
  now rewrite (proj2 (Z.leb_le 128 b)) by lia.
Qed.

Lemma short_buffer_rejected_witness : decodeVarInt false W64 [0xAC; 2; 0x80] 3 = Ok NotEnoughData.
Proof. apply (short_buffer_rejected 300 0x80); lia. Defined.
