(* ===== verification/PlainBinary.v ===== *)
(** * Plain binary encoding

    Models [common/utils/PlainBinaryEncoding.h] and [.c]: fixed-width integers
    and floating-point bit patterns in little-endian order, and counted strings.
    The header has two implementations of each function, chosen by
    [SIODB_PLATFORM_SUPPORTS_UNALIGNED_DATA_ACCESS]: an unaligned load or store
    (the x86 build; [le_store], [le_load]) and a portable one written with
    shifts (module [Generic]).  Floating-point numbers are kept as their bit
    patterns, which is what the code copies. *)

From Stdlib Require Import ZArith List Lia Bool.
From S2P Require Import Prelude.
Import ListNotations.
Open Scope Z_scope.

(** ** The x86 implementation *)

(** The bytes of an [n]-byte little-endian store. *)
Fixpoint le_store (n : nat) (z : Z) : list Z :=
  match n with
  | O => []
  | S n' => uw 8 z :: le_store n' (Z.shiftr z 8)
  end.

(** The unsigned value of a little-endian load. *)
Fixpoint le_load (l : list Z) : Z :=
  match l with
  | [] => 0
  | b :: t => b + 256 * le_load t
  end.

Definition pbeEncodeInt16 (value : Z) : list Z := le_store 2 value.
Definition pbeEncodeInt32 (value : Z) : list Z := le_store 4 value.
Definition pbeEncodeInt64 (value : Z) : list Z := le_store 8 value.
Definition pbeEncodeUInt16 (value : Z) : list Z := le_store 2 value.
Definition pbeEncodeUInt32 (value : Z) : list Z := le_store 4 value.
Definition pbeEncodeUInt64 (value : Z) : list Z := le_store 8 value.
(** Floats are reinterpreted as unsigned integers of the same size. *)
Definition pbeEncodeFloat (float_bits : Z) : list Z := pbeEncodeUInt32 float_bits.
Definition pbeEncodeDouble (double_bits : Z) : list Z := pbeEncodeUInt64 double_bits.

Section Decode.
Context {E : Type}.

Definition pbeDecodeUInt16 (buffer : list Z) : outcome E Z :=
  l <- memrd buffer 0 2 ;; Ok (le_load l).
Definition pbeDecodeUInt32 (buffer : list Z) : outcome E Z :=
  l <- memrd buffer 0 4 ;; Ok (le_load l).
Definition pbeDecodeUInt64 (buffer : list Z) : outcome E Z :=
  l <- memrd buffer 0 8 ;; Ok (le_load l).
Definition pbeDecodeInt16 (buffer : list Z) : outcome E Z :=
  l <- memrd buffer 0 2 ;; Ok (sw 16 (le_load l)).
Definition pbeDecodeInt32 (buffer : list Z) : outcome E Z :=
  l <- memrd buffer 0 4 ;; Ok (sw 32 (le_load l)).
Definition pbeDecodeInt64 (buffer : list Z) : outcome E Z :=
  l <- memrd buffer 0 8 ;; Ok (sw 64 (le_load l)).
Definition pbeDecodeFloat (buffer : list Z) : outcome E Z := pbeDecodeUInt32 buffer.
Definition pbeDecodeDouble (buffer : list Z) : outcome E Z := pbeDecodeUInt64 buffer.
End Decode.

(** ** The portable implementation *)

Module Generic.
Definition byte_at (v s : Z) : Z := Z.land (Z.shiftr v s) 0xFF.

Definition pbeEncodeInt16_portable (value : Z) : list Z := [Z.land value 0xFF; byte_at value 8].
Definition pbeEncodeInt32_portable (value : Z) : list Z :=
  [Z.land value 0xFF; byte_at value 8; byte_at value 16; byte_at value 24].
(** [int32_t v = value & 0xFFFFFFFF; ... v = (value >> 32) & 0xFFFFFFFF;] *)
Definition pbeEncodeInt64_portable (value : Z) : list Z :=
  pbeEncodeInt32_portable (sw 32 (Z.land value 0xFFFFFFFF)) ++
  pbeEncodeInt32_portable (sw 32 (Z.land (Z.shiftr value 32) 0xFFFFFFFF)).

Section Decode.
Context {E : Type}.
Local Notation "b [[ i ]]" := (@rd E b i) (at level 1).

(** [buffer[0] | buffer[1] << 8] *)
Definition pbeDecodeUInt16_portable (buffer : list Z) : outcome E Z :=
  b0 <- buffer[[0]] ;; b1 <- buffer[[1]] ;;
  Ok (uw 16 (Z.lor b0 (Z.shiftl b1 8))).

(** [buffer[0] | (buffer[1] << 8) | (buffer[2] << 16) | (buffer[3] << 24)], an [int]. *)
Definition word32 (buffer : list Z) (i : Z) : outcome E Z :=
  b0 <- buffer[[i]] ;; b1 <- buffer[[i + 1]] ;; b2 <- buffer[[i + 2]] ;; b3 <- buffer[[i + 3]] ;;
  Ok (sw 32 (Z.lor (Z.lor (Z.lor b0 (Z.shiftl b1 8)) (Z.shiftl b2 16)) (Z.shiftl b3 24))).

Definition pbeDecodeUInt32_portable (buffer : list Z) : outcome E Z :=
  w <- word32 buffer 0 ;; Ok (uw 32 w).

Definition pbeDecodeUInt64_portable (buffer : list Z) : outcome E Z :=
  hi <- word32 buffer 4 ;; lo <- word32 buffer 0 ;;
  Ok (Z.lor (uw 64 (Z.shiftl (uw 32 hi) 32)) (uw 32 lo)).
End Decode.

(** [buffer[i] = 0] on the bytes of an object. *)
Definition set0 (buffer : list Z) (i : nat) : outcome Empty_set (list Z) :=
  if (i <? length buffer)%nat then Ok (firstn i buffer ++ 0 :: skipn (S i) buffer)
  else Undef OutOfBounds.

Definition set_zeros (idx : list nat) (buffer : list Z) : outcome Empty_set (list Z) :=
  fold_left (fun c i => b <- c ;; set0 b i) idx (Ok buffer).

Definition pbeEncodeZero16_portable : list Z -> outcome Empty_set (list Z) := set_zeros [0; 1]%nat.
Definition pbeEncodeZero32_portable : list Z -> outcome Empty_set (list Z) := set_zeros [0; 1; 3; 4]%nat.
Definition pbeEncodeZero64_portable : list Z -> outcome Empty_set (list Z) :=
  set_zeros [0; 1; 3; 4; 5; 6; 7; 8]%nat.
End Generic.

(** ** Counted strings

    The C functions take NUL-terminated strings: [value] is their content and
    [NULL] is [None]. *)

Definition pbeEncodeTinyString (value : list Z) : option (list Z) :=
  if len value >? 0xFF then None else Some (uw 8 (len value) :: value).
Definition pbeEncodeShortString (value : list Z) : option (list Z) :=
  if len value >? 0xFFFF then None else Some (pbeEncodeUInt16 (uw 16 (len value)) ++ value).
Definition pbeEncodeLongString (value : list Z) : option (list Z) :=
  if len value >? 0xFFFFFFFF then None else Some (pbeEncodeUInt32 (uw 32 (len value)) ++ value).

(** The decoded content (without its NUL) and the number of bytes read, or
    [NULL] when the destination of [size] bytes is too small. *)
Definition decode_string (header : Z) (length : outcome Empty_set Z) (buffer : list Z) (size : Z)
  : outcome Empty_set (option (list Z * Z)) :=
  length <- length ;;
  if size =? 0 then Ok None else
  if length >? size - 1 then Ok None else
  value <- memrd buffer header length ;;
  Ok (Some (value, header + length)).

Definition pbeDecodeTinyString (buffer : list Z) (size : Z) :=
  decode_string 1 (rd buffer 0) buffer size.
Definition pbeDecodeShortString (buffer : list Z) (size : Z) :=
  decode_string 2 (pbeDecodeUInt16 buffer) buffer size.
Definition pbeDecodeLongString (buffer : list Z) (size : Z) :=
  decode_string 4 (pbeDecodeUInt32 buffer) buffer size.

Example le1 : pbeEncodeInt32 (-2) = [0xFE; 0xFF; 0xFF; 0xFF]. Proof. reflexivity. Qed.
Example le2 : Generic.pbeEncodeInt64_portable (-2) = pbeEncodeInt64 (-2). Proof. reflexivity. Qed.
Example le3 : pbeDecodeInt16 (E := Empty_set) [0xFE; 0xFF; 3] = Ok (-2). Proof. reflexivity. Qed.

(** ** Little-endian lemmas *)

Lemma len_le_store n z : len (le_store n z) = Z.of_nat n.
Proof. revert z. induction n; intros; cbn [le_store]; [reflexivity|]. rewrite len_cons, IHn. lia. Qed.

Lemma le_store_bytes n z : bytes_ok (le_store n z).
Proof. revert z. induction n; intros; constructor; [apply (uw_range 8); lia|apply IHn]. Qed.

Lemma le_load_store n z : le_load (le_store n z) = z mod 2 ^ (8 * Z.of_nat n).
Proof.
  revert z. induction n as [|n IH]; intros z; cbn [le_store le_load].
  - cbn. now rewrite Z.mod_1_r.
  - rewrite IH, shiftr_div by lia. unfold uw.
    replace (8 * Z.of_nat (S n)) with (8 + 8 * Z.of_nat n) by lia.
    rewrite Z.pow_add_r by lia. change (2 ^ 8) with 256.
    rewrite Z.rem_mul_r by (pose proof (pow2_pos (8 * Z.of_nat n)); lia). lia.
Qed.

Lemma le_load_range l : bytes_ok l -> 0 <= le_load l < 2 ^ (8 * len l).
Proof.
  induction 1 as [|b l Hb Hl IH]; [cbn; lia|]. cbn [le_load]. rewrite len_cons.
  rewrite Z.mul_add_distr_l, Z.pow_add_r by (pose proof (len_nonneg l); lia).
  change (2 ^ (8 * 1)) with 256. unfold byte_ok in Hb. lia.
Qed.

Lemma le_store_load l : bytes_ok l -> le_store (length l) (le_load l) = l.
Proof.
  induction 1 as [|b l Hb Hl IH]; [reflexivity|]. cbn [length le_store le_load]. unfold byte_ok in Hb.
  f_equal.
  - unfold uw. change (2 ^ 8) with 256. rewrite Z.mul_comm, Z_mod_plus_full. apply Z.mod_small; lia.
  - rewrite shiftr_div by lia. change (2 ^ 8) with 256.
    rewrite Z.mul_comm, Z.div_add, Z.div_small, Z.add_0_l by lia. exact IH.
Qed.

Lemma land_255 z : Z.land z 0xFF = z mod 256.
Proof. change 0xFF with (Z.ones 8). now rewrite Z.land_ones by lia. Qed.

Lemma byte_at_eq v s : 0 <= s -> Generic.byte_at v s = uw 8 (Z.shiftr v s).
Proof. intros. unfold Generic.byte_at. now rewrite land_255. Qed.

#[export] Hint Resolve le_store_bytes : siodb.
#[export] Hint Rewrite len_le_store : siodb_len.

Lemma le_store_cong n x y : (2 ^ (8 * Z.of_nat n) | x - y) -> le_store n x = le_store n y.
Proof.
  revert x y. induction n as [|n IH]; intros x y [k Hk]; [reflexivity|]. cbn [le_store].
  replace (8 * Z.of_nat (S n)) with (8 * Z.of_nat n + 8) in Hk by lia.
  rewrite Z.pow_add_r in Hk by lia. change (2 ^ 8) with 256 in Hk. f_equal.
  - apply uw_mod_eq. change (2 ^ 8) with 256. exists (k * 2 ^ (8 * Z.of_nat n)). lia.
  - apply IH. exists k. rewrite !shiftr_div by lia. change (2 ^ 8) with 256.
    replace x with (y + k * 2 ^ (8 * Z.of_nat n) * 256) by lia. rewrite Z.div_add by lia. lia.
Qed.

Lemma le_store_app n k z : le_store (n + k) z = le_store n z ++ le_store k (Z.shiftr z (8 * Z.of_nat n)).
Proof.
  revert z. induction n as [|n IH]; intros z; [now rewrite Z.shiftr_0_r|].
  cbn [Nat.add le_store app]. f_equal. rewrite IH. do 2 f_equal.
  rewrite Z.shiftr_shiftr by lia. f_equal. lia.
Qed.

Lemma generic_32_eq v : Generic.pbeEncodeInt32_portable v = le_store 4 v.
Proof.
  unfold Generic.pbeEncodeInt32_portable. rewrite !byte_at_eq by lia. rewrite land_255.
  cbn [le_store]. rewrite !Z.shiftr_shiftr by lia. reflexivity.
Qed.

Lemma sw_cong n z : 0 < n -> (2 ^ n | sw n z - z).
Proof.
  intros Hn. unfold sw. exists (- ((z + 2 ^ (n - 1)) / 2 ^ n)).
  pose proof (Z.div_mod (z + 2 ^ (n - 1)) (2 ^ n)). pose proof (pow2_pos n ltac:(lia)). lia.
Qed.

Lemma le_store_sw32 z : le_store 4 (sw 32 (Z.land z 0xFFFFFFFF)) = le_store 4 z.
Proof.
  apply le_store_cong. change (8 * Z.of_nat 4) with 32.
  change 0xFFFFFFFF with (Z.ones 32). rewrite Z.land_ones by lia.
  destruct (sw_cong 32 (z mod 2 ^ 32)) as [k Hk]; [lia|].
  exists (k - z / 2 ^ 32). pose proof (Z.div_mod z (2 ^ 32)). lia.
Qed.

(** the portable and the x86 implementation of every integer encoder write
    the same bytes, for any argument (so also for every signed and unsigned
    one). *)
Theorem portable_encoders_agree v :
  Generic.pbeEncodeInt16_portable v = pbeEncodeInt16 v /\
  Generic.pbeEncodeInt32_portable v = pbeEncodeInt32 v /\
  Generic.pbeEncodeInt64_portable v = pbeEncodeInt64 v.
Proof.
  split; [|split].
  - unfold Generic.pbeEncodeInt16_portable. rewrite byte_at_eq by lia. now rewrite land_255.
  - apply generic_32_eq.
  - unfold Generic.pbeEncodeInt64_portable, pbeEncodeInt64. rewrite !generic_32_eq, !le_store_sw32.
    symmetry. exact (le_store_app 4 4 v).
Qed.

Lemma lor_bytes4 b0 b1 b2 b3 : byte_ok b0 -> byte_ok b1 -> byte_ok b2 -> byte_ok b3 ->
  Z.lor (Z.lor (Z.lor b0 (Z.shiftl b1 8)) (Z.shiftl b2 16)) (Z.shiftl b3 24) = le_load [b0; b1; b2; b3].
Proof.
  unfold byte_ok. intros. rewrite !shiftl_mul by lia.
  rewrite (lor_add_low b0) by lia. rewrite (lor_add_low (_ + _)) by lia.
  rewrite (lor_add_low (_ + _)) by lia. cbn [le_load]. lia.
Qed.

(** on every readable buffer of bytes the portable decoders return what the
    unaligned little-endian loads return. *)
Theorem portable_decoders_agree {E} (buffer : list Z) : bytes_ok buffer -> 8 <= len buffer ->
  @Generic.pbeDecodeUInt16_portable E buffer = pbeDecodeUInt16 buffer /\
  @Generic.pbeDecodeUInt32_portable E buffer = pbeDecodeUInt32 buffer /\
  @Generic.pbeDecodeUInt64_portable E buffer = pbeDecodeUInt64 buffer.
Proof.
  intros Hb Hl.
  destruct buffer as [|b0 [|b1 [|b2 [|b3 [|b4 [|b5 [|b6 [|b7 t]]]]]]]];
    try (rewrite ?len_cons, ?len_nil in Hl; lia).
  unfold bytes_ok in Hb. repeat match goal with H : Forall _ (_ :: _) |- _ => apply Forall_cons_iff in H; destruct H end.
  set (buf := b0 :: _) in *.
  assert (Hm : forall n, 0 <= n <= 8 -> @memrd E buf 0 n = Ok (firstn (Z.to_nat n) buf)).
  { intros n Hn. unfold memrd. rewrite (proj2 (Z.ltb_ge n 0)) by lia. cbn [Z.ltb Z.compare orb].
    rewrite (proj2 (Z.leb_le _ _)) by lia. reflexivity. }
  unfold pbeDecodeUInt16, pbeDecodeUInt32, pbeDecodeUInt64. rewrite !Hm by lia.
  unfold Generic.pbeDecodeUInt16_portable, Generic.pbeDecodeUInt32_portable, Generic.pbeDecodeUInt64_portable, Generic.word32.
  subst buf. cbv -[Z.lor Z.shiftl uw sw le_load]. rewrite !lor_bytes4 by assumption.
  assert (Hr : forall a b c d, byte_ok a -> byte_ok b -> byte_ok c -> byte_ok d ->
    uw 32 (sw 32 (le_load [a; b; c; d])) = le_load [a; b; c; d]).
  { intros. rewrite uw_sw by lia. apply uw_small. unfold u_ok, byte_ok in *. cbn [le_load]. pow_norm. lia. }
  rewrite !Hr by assumption. unfold byte_ok in *.
  split; [|split]; f_equal.
  - rewrite shiftl_mul, lor_add_low by lia. rewrite uw_small; cbn [le_load]; unfold u_ok; pow_norm; lia.
  - rewrite shiftl_mul by lia. rewrite uw_small by (unfold u_ok; cbn [le_load]; pow_norm; lia).
    rewrite Z.lor_comm, lor_add_low by (cbn [le_load]; pow_norm; lia).
    cbn [le_load]. pow_norm. lia.
Qed.

Lemma portable_decoders_agree_witness :
  @Generic.pbeDecodeUInt64_portable Empty_set [1; 2; 3; 4; 5; 6; 7; 0xFF] = pbeDecodeUInt64 [1; 2; 3; 4; 5; 6; 7; 0xFF].
Proof.
  apply (portable_decoders_agree [1; 2; 3; 4; 5; 6; 7; 0xFF]); [|cbn; lia].
  repeat constructor; unfold byte_ok; lia.
Defined.

(** ** Round trips *)

Lemma memrd_le_store {E} n z rest : @memrd E (le_store n z ++ rest) 0 (Z.of_nat n) = Ok (le_store n z).
Proof. rewrite <- (len_le_store n z). apply memrd_0_app. Qed.

Lemma pbe_roundtrip_u {E} v rest :
  (u_ok 16 v -> @pbeDecodeUInt16 E (pbeEncodeUInt16 v ++ rest) = Ok v) /\
  (u_ok 32 v -> @pbeDecodeUInt32 E (pbeEncodeUInt32 v ++ rest) = Ok v) /\
  (u_ok 64 v -> @pbeDecodeUInt64 E (pbeEncodeUInt64 v ++ rest) = Ok v).
Proof.
  unfold pbeDecodeUInt16, pbeDecodeUInt32, pbeDecodeUInt64, pbeEncodeUInt16, pbeEncodeUInt32, pbeEncodeUInt64.
  rewrite (memrd_le_store 2), (memrd_le_store 4), (memrd_le_store 8). cbn [bind].
  rewrite !le_load_store. repeat split; intros; f_equal; apply Z.mod_small; assumption.
Qed.

Lemma pbe_roundtrip_s {E} v rest :
  (s_ok 16 v -> @pbeDecodeInt16 E (pbeEncodeInt16 v ++ rest) = Ok v) /\
  (s_ok 32 v -> @pbeDecodeInt32 E (pbeEncodeInt32 v ++ rest) = Ok v) /\
  (s_ok 64 v -> @pbeDecodeInt64 E (pbeEncodeInt64 v ++ rest) = Ok v).
Proof.
  unfold pbeDecodeInt16, pbeDecodeInt32, pbeDecodeInt64, pbeEncodeInt16, pbeEncodeInt32, pbeEncodeInt64.
  rewrite (memrd_le_store 2), (memrd_le_store 4), (memrd_le_store 8). cbn [bind].
  rewrite !le_load_store. repeat split; intros; f_equal; apply sw_of_uw_small; (assumption || lia).
Qed.

Lemma decode_string_ok header length hdr value rest size :
  length = Ok (len value) -> len hdr = header -> len value < size ->
  decode_string header length (hdr ++ value ++ rest) size = Ok (Some (value, header + len value)).
Proof.
  intros -> <- Hs. unfold decode_string. cbn [bind]. pose proof (len_nonneg value).
  rewrite (proj2 (Z.eqb_neq size 0)), Z.gtb_ltb, (proj2 (Z.ltb_ge (size - 1) (len value))) by lia.
  now rewrite memrd_app.
Qed.

(** a string written by the tiny, short or long encoder (each refuses a
    string longer than its length field can hold) is read back whole by the
    matching decoder whenever the destination has room for it and its NUL, and
    the decoder refuses a smaller destination. *)
Theorem pbe_string_roundtrip value rest size : bytes_ok value ->
  let room := if len value <? size then Some (value, len value) else None in
  let shifted h := option_map (fun '(s, n) => (s, h + n)) room in
  0 <= size ->
  match pbeEncodeTinyString value with
  | Some enc => len value <= 0xFF /\ pbeDecodeTinyString (enc ++ rest) size = Ok (shifted 1)
  | None => 0xFF < len value
  end /\
  match pbeEncodeShortString value with
  | Some enc => len value <= 0xFFFF /\ pbeDecodeShortString (enc ++ rest) size = Ok (shifted 2)
  | None => 0xFFFF < len value
  end /\
  match pbeEncodeLongString value with
  | Some enc => len value <= 0xFFFFFFFF /\ pbeDecodeLongString (enc ++ rest) size = Ok (shifted 4)
  | None => 0xFFFFFFFF < len value
  end.
Proof.
  intros Hv room shifted Hsz. pose proof (len_nonneg value) as Hn.
  assert (Hdec : forall h hdr length, length = Ok (len value) -> len hdr = h ->
    decode_string h length (hdr ++ value ++ rest) size = Ok (shifted h)).
  { intros h hdr length Hl Hh. unfold shifted, room. destruct (Z.ltb_spec (len value) size).
    - now apply decode_string_ok.
    - unfold decode_string. rewrite Hl. cbn [bind]. destruct (Z.eqb_spec size 0); [reflexivity|].
      rewrite Z.gtb_ltb, (proj2 (Z.ltb_lt _ _)) by lia. reflexivity. }
  unfold pbeEncodeTinyString, pbeEncodeShortString, pbeEncodeLongString. rewrite !Z.gtb_ltb.
  split; [|split];
    (match goal with |- context [?n <? len value] => destruct (Z.ltb_spec n (len value)) as [|Hle] end;
     [assumption|split; [lia|]]);
    rewrite uw_small by (unfold u_ok; lia).
  - apply (Hdec 1 [len value]); reflexivity.
  - rewrite <- app_assoc. apply Hdec; [|apply len_le_store].
    apply (pbe_roundtrip_u (E := Empty_set)). unfold u_ok; lia.
  - rewrite <- app_assoc. apply Hdec; [|apply len_le_store].
    apply (pbe_roundtrip_u (E := Empty_set)). unfold u_ok; lia.
Qed.

Lemma pbe_string_roundtrip_witness :
  pbeDecodeTinyString ([3; 97; 98; 99] ++ [5]) 4 = Ok (Some ([97; 98; 99], 4)).
Proof.
  refine (proj2 (proj1 (pbe_string_roundtrip [97; 98; 99] [5] 4 _ _))); [|lia].
  repeat constructor; unfold byte_ok; lia.
Defined.

(** the portable [pbeEncodeZero32] skips byte 2: on an object of exactly four
    bytes it writes out of bounds, and on a longer one it leaves byte 2 as it was
    and clears the byte after the object; [pbeEncodeZero64] does the same with
    bytes 2 and 8. *)
Theorem portable_zero_skips_byte2 b0 b1 b2 b3 b4 t :
  Generic.pbeEncodeZero32_portable [b0; b1; b2; b3] = Undef OutOfBounds /\
  Generic.pbeEncodeZero32_portable (b0 :: b1 :: b2 :: b3 :: b4 :: t) = Ok (0 :: 0 :: b2 :: 0 :: 0 :: t) /\
  Generic.pbeEncodeZero64_portable [b0; b1; b2; b3; b4; b0; b1; b2] = Undef OutOfBounds.
Proof. repeat split; reflexivity. Qed.
