(* ===== verification/Codec.v ===== *)
(** * Serialization of strings, binary values and optional objects

    Models [common/utils/Base128VariantEncodingCxx.cpp] and the templates of
    [Base128VariantEncoding.h].  [Codec] is the interface the serialized objects
    of the engine share ([getSerializedSize], [serializeUnchecked],
    [deserializeObject]); [CodecLaws] is what clients may rely on. *)

From Stdlib Require Import ZArith List Lia Bool.
From S2P Require Import Prelude VarInt.
Import ListNotations.
Open Scope Z_scope.

(** [siodb::utils::DeserializationError], by message. *)
Inductive DeserializationError : Type :=
| CorruptLength
| NotEnoughDataForLength (length : Z)
| InvalidLength (required available : Z)
| NotEnoughDataForOptional
| InvalidOptionalFlag.

(** A decoder that only fails by undefined behaviour, used where errors are [E]. *)
Definition lift {E A} (c : outcome Empty_set A) : outcome E A :=
  match c with
  | Ok a => Ok a
  | Throw e => match e with end
  | Undef u => Undef u
  end.

(** ** Strings and binary values: a 64-bit length and the bytes *)

Definition getSerializedSize_string (s : list Z) : Z := getVarIntSize false W64 (len s) + len s.

Definition serializeUnchecked_string (s : list Z) : list Z := encodeVarInt false W64 (len s) ++ s.

Definition deserializeObject_string (buffer : list Z) (length : Z)
  : outcome DeserializationError (list Z * Z) :=
  d <- lift (decodeVarInt false W64 buffer length) ;;
  match d with
  | Corrupt => Throw CorruptLength
  | NotEnoughData => Throw (NotEnoughDataForLength length)
  | Consumed consumed sz =>
      let length := length - consumed in
      if length <? sz then Throw (InvalidLength sz length)
      else s <- memrd buffer consumed sz ;; Ok (s, sz + consumed)
  end.

(** ** The interface *)

Class Codec (E A : Type) : Type := {
  valid : A -> Prop;                  (** representable objects *)
  follows : A -> list Z -> Prop;      (** what may come after the object in the buffer *)
  size_of : A -> Z;
  ser : A -> list Z;
  des : list Z -> Z -> outcome E (A * Z)
}.

Class CodecLaws (E A : Type) {C : Codec E A} : Prop := {
  ser_bytes : forall a, valid a -> bytes_ok (ser a);
  size_of_len : forall a, valid a -> size_of a = len (ser a);
  follows_nil : forall a, valid a -> follows a [];
  des_ser : forall a rest, valid a -> bytes_ok rest -> follows a rest ->
    des (ser a ++ rest) (len (ser a ++ rest)) = Ok (a, len (ser a))
}.

(** Two objects one after the other, as the record serializers write them: the
    second is read from where the first ended. *)
Definition des_pair {E A B} {CA : Codec E A} {CB : Codec E B} (buffer : list Z) (length : Z)
  : outcome E ((A * B) * Z) :=
  '(a, n) <- des buffer length ;;
  '(b, k) <- des (skipn (Z.to_nat n) buffer) (length - n) ;;
  Ok ((a, b), n + k).

#[export] Instance pair_codec {E A B} {CA : Codec E A} {CB : Codec E B} : Codec E (A * B) := {
  valid p := valid (fst p) /\ valid (snd p);
  follows p rest := follows (fst p) (ser (snd p) ++ rest) /\ follows (snd p) rest;
  size_of p := size_of (fst p) + size_of (snd p);
  ser p := ser (fst p) ++ ser (snd p);
  des := des_pair
}.

Lemma skipn_len_app {A} (l r : list A) : skipn (Z.to_nat (len l)) (l ++ r) = r.
Proof. unfold len. rewrite Nat2Z.id, skipn_app, skipn_all, Nat.sub_diag. reflexivity. Qed.

Lemma des_pair_ser {E A B} {CA : Codec E A} {CB : Codec E B} {LA : CodecLaws E A} {LB : CodecLaws E B}
  (a : A) (b : B) rest : valid a -> valid b -> bytes_ok rest ->
  follows a (ser b ++ rest) -> follows b rest ->
  des (ser (a, b) ++ rest) (len (ser (a, b) ++ rest)) = Ok ((a, b), len (ser (a, b))).
Proof.
  intros Ha Hb Hr Hfa Hfb. cbn [des ser pair_codec fst snd]. unfold des_pair.
  assert (bytes_ok (ser b ++ rest)) by (apply Forall_app; split; [now apply ser_bytes|assumption]).
  rewrite <- app_assoc. rewrite (des_ser a) by assumption.
  cbn [bind]. rewrite skipn_len_app. rewrite len_app.
  replace (len (ser a) + len (ser b ++ rest) - len (ser a)) with (len (ser b ++ rest)) by lia.
  rewrite (des_ser b) by assumption. cbn [bind]. now rewrite len_app.
Qed.

(** ** Strings implement the interface *)

#[export] Instance string_codec : Codec DeserializationError (list Z) := {
  valid s := bytes_ok s /\ len s < 2 ^ 64;
  follows _ _ := True;
  size_of := getSerializedSize_string;
  ser := serializeUnchecked_string;
  des := deserializeObject_string
}.

(** The bytes of a string are always enough for the last-byte test. *)
Lemma decodable_length w s rest : len s < 2 ^ bits w ->
  decodable w (encodeVarInt false w (len s)) (s ++ rest).
Proof.
  intros Hs. pose proof (len_nonneg s). pose proof (len_nonneg rest).
  unfold decodable. rewrite !len_app. pose proof (encodeVarInt_len false w (len s)).
  destruct (Z.ltb_spec (len s) 128) as [Hlt|Hge].
  - left. rewrite encodeVarUInt_eq, encode_loop_eq by (apply fits_max_iter; unfold u_ok; lia).
    rewrite Z.geb_leb, (proj2 (Z.leb_gt _ _)) by lia. reflexivity.
  - right; left. unfold kMaxSerializedIntSize in *.
    assert (kMaxSerializedInt16Size <= 10 /\ kMaxSerializedInt32Size <= 10 /\ kMaxSerializedInt64Size <= 10)
      by (repeat split; vm_compute; discriminate). destruct w; lia.
Qed.

Lemma string_ser_len s : getSerializedSize_string s = len (serializeUnchecked_string s).
Proof. unfold getSerializedSize_string, serializeUnchecked_string. now rewrite len_app, getVarIntSize_len. Qed.

Lemma string_des_ser s rest : bytes_ok s -> len s < 2 ^ 64 -> bytes_ok rest ->
  deserializeObject_string (serializeUnchecked_string s ++ rest) (len (serializeUnchecked_string s ++ rest))
  = Ok (s, len (serializeUnchecked_string s)).
Proof.
  intros Hs Hl Hr. pose proof (len_nonneg s). pose proof (len_nonneg rest).
  unfold deserializeObject_string, serializeUnchecked_string. rewrite <- app_assoc.
  rewrite decodeVarUInt_roundtrip; [|cbn; unfold u_ok; lia|now apply Forall_app|now apply decodable_length].
  cbn [lift bind]. rewrite !len_app.
  rewrite (proj2 (Z.ltb_ge _ _)) by lia. rewrite memrd_app. cbn [bind]. do 2 f_equal. lia.
Qed.

#[export] Instance string_codec_laws : CodecLaws DeserializationError (list Z).
Proof.
  split; cbn [valid follows size_of ser des string_codec].
  - intros s [Hs Hl]. apply Forall_app. split; [|assumption].
    apply (encodeVarInt_bytes false). cbn. pose proof (len_nonneg s). unfold u_ok; lia.
  - intros s _. apply string_ser_len.
  - trivial.
  - intros s rest [Hs Hl] Hr _. now apply string_des_ser.
Qed.

(** ** Optional objects: a flag byte, then the object *)

Section Optional.
Context {T : Type} (sz : T -> Z) (enc : T -> list Z).

Definition getSerializedSize_opt (opt : option T) : Z :=
  match opt with Some t => sz t + 1 | None => 1 end.

Definition serializeUnchecked_opt (opt : option T) : list Z :=
  match opt with Some t => 1 :: enc t | None => [0] end.
End Optional.

(** Non-fundamental [T]: the same for an engaged and a disengaged destination. *)
Definition deserializeObject_opt {T} (dec : list Z -> Z -> outcome DeserializationError (T * Z))
    (buffer : list Z) (length : Z) : outcome DeserializationError (option T * Z) :=
  if length <? 1 then Throw NotEnoughDataForOptional else
  flag <- rd buffer 0 ;;
  if flag >? 1 then Throw InvalidOptionalFlag else
  if flag =? 0 then Ok (None, 1) else
  '(t, consumed) <- dec (tl buffer) (length - 1) ;;
  Ok (Some t, consumed + 1).

(** Fundamental [T] (an integer): the destination is updated in place when it is
    engaged.  A decoder result of 0 or -1 is not checked; the result is the
    [size_t] returned. *)
Definition deserializeObject_opt_int (sgn : bool) (w : width) (opt : option Z)
    (buffer : list Z) (length : Z) : outcome DeserializationError (option Z * Z) :=
  if length <? 1 then Throw NotEnoughDataForOptional else
  flag <- rd buffer 0 ;;
  if flag >? 1 then Throw InvalidOptionalFlag else
  if flag =? 0 then Ok (None, 1) else
  d <- lift (decodeVarInt sgn w (tl buffer) (length - 1)) ;;
  let result := match d with Consumed n _ => n | NotEnoughData => 0 | Corrupt => -1 end in
  match opt with
  | Some old =>
      Ok (Some (match d with Consumed _ v => v | _ => old end), uw 64 result)
  | None =>
      Ok (Some (match d with Consumed _ v => v | _ => 0 end), uw 64 (uw 64 result + 1))
  end.

#[export] Instance option_codec {T} {C : Codec DeserializationError T} : Codec DeserializationError (option T) := {
  valid o := match o with Some t => valid t | None => True end;
  follows o rest := match o with Some t => follows t rest | None => True end;
  size_of := getSerializedSize_opt size_of;
  ser := serializeUnchecked_opt ser;
  des := deserializeObject_opt des
}.

#[export] Instance option_codec_laws {T} {C : Codec DeserializationError T}
  {L : CodecLaws DeserializationError T} : CodecLaws DeserializationError (option T).
Proof.
  split; cbn [valid follows size_of ser des option_codec].
  - intros [t|] H; cbn; constructor; try (unfold byte_ok; lia); [now apply ser_bytes|constructor].
  - intros [t|] H; [|reflexivity]. cbn [getSerializedSize_opt serializeUnchecked_opt].
    rewrite size_of_len by assumption. rewrite len_cons. lia.
  - intros [t|] H; [now apply follows_nil|trivial].
  - intros [t|] rest H Hr Hf; unfold deserializeObject_opt; cbn [serializeUnchecked_opt app].
    + rewrite !len_cons. pose proof (len_nonneg (ser t ++ rest)).
      rewrite (proj2 (Z.ltb_ge _ 1)) by lia. rewrite rd_cons_0. cbn [bind Z.gtb Z.eqb Z.compare Pos.compare Pos.compare_cont tl].
      replace (1 + len (ser t ++ rest) - 1) with (len (ser t ++ rest)) by lia.
      rewrite des_ser by assumption. cbn [bind]. do 2 f_equal. lia.
    + rewrite len_cons. pose proof (len_nonneg rest).
      rewrite (proj2 (Z.ltb_ge _ 1)) by lia. reflexivity.
Qed.

(** ** Claims *)

(** strings, and optional strings, are read back from what was written,
    whatever bytes follow them in the buffer, with the announced size consumed. *)
Theorem string_roundtrip (o : option (list Z)) rest : valid o -> bytes_ok rest ->
  deserializeObject_opt deserializeObject_string
    (serializeUnchecked_opt serializeUnchecked_string o ++ rest)
    (len (serializeUnchecked_opt serializeUnchecked_string o ++ rest))
  = Ok (o, getSerializedSize_opt getSerializedSize_string o).
Proof.
  intros Hv Hr. change getSerializedSize_string with (size_of (Codec := string_codec)).
  change (getSerializedSize_opt size_of o) with (size_of o). rewrite size_of_len by assumption.
  apply (des_ser o rest Hv Hr). destruct o; exact I.
Qed.

Lemma string_roundtrip_witness :
  deserializeObject_opt deserializeObject_string [1; 2; 104; 105; 0xFF; 0xFF] 6 = Ok (Some [104; 105], 4).
Proof.
  refine (string_roundtrip (Some [104; 105]) [0xFF; 0xFF] _ _).
  - split; [repeat constructor; unfold byte_ok; lia|reflexivity].
  - repeat constructor; unfold byte_ok; lia.
Defined.

(** every string decoding either throws one of its three errors or returns a
    string of bytes taken from inside the buffer, and never reads outside it,
    when the declared length is within the readable bytes. *)
Theorem string_deserialize_safe buffer length : bytes_ok buffer -> length <= len buffer ->
  match deserializeObject_string buffer length with
  | Ok (s, n) => exists hdr rest, buffer = hdr ++ s ++ rest /\ n = len hdr + len s /\ n <= length
  | Throw CorruptLength => True
  | Throw (NotEnoughDataForLength l) => l = length
  | Throw (InvalidLength required available) => available < required
  | Throw _ => False
  | Undef _ => False
  end.
Proof.
  intros Hb Hl. unfold deserializeObject_string.
  destruct (decodeVarInt_total false W64 buffer length Hb Hl) as (d & -> & Hd). cbn [lift bind].
  destruct d as [n v| |]; [|reflexivity|exact I].
  cbn [int_ok] in Hd. unfold u_ok in Hd.
  destruct (Z.ltb_spec (length - n) v) as [Hlt|Hge]; [assumption|].
  unfold memrd. rewrite (proj2 (Z.ltb_ge n 0)), (proj2 (Z.ltb_ge v 0)) by lia. cbn [orb].
  rewrite (proj2 (Z.leb_le _ _)) by lia. cbn [bind].
  exists (firstn (Z.to_nat n) buffer), (skipn (Z.to_nat v) (skipn (Z.to_nat n) buffer)).
  rewrite !firstn_skipn. split; [reflexivity|].
  unfold len in *. rewrite !length_firstn, length_skipn. lia.
Qed.

Lemma string_deserialize_safe_witness :
  deserializeObject_string [5; 104; 105] 3 = Throw (InvalidLength 5 2) /\ 2 < 5.
Proof.
  split; [reflexivity|].
  refine (string_deserialize_safe [5; 104; 105] 3 _ _).
  - repeat constructor; unfold byte_ok; lia.
  - cbn; lia.
Defined.

(** deserializing an optional integer into an engaged destination returns
    one less than the bytes it used, where a disengaged destination gets the
    right count; both store the same value. *)
Theorem opt_int_engaged_count sgn w v old rest : int_ok sgn w v -> bytes_ok rest ->
  decodable w (encodeVarInt sgn w v) rest ->
  let buffer := serializeUnchecked_opt (encodeVarInt sgn w) (Some v) ++ rest in
  deserializeObject_opt_int sgn w None buffer (len buffer) =
    Ok (Some v, getSerializedSize_opt (getVarIntSize sgn w) (Some v)) /\
  deserializeObject_opt_int sgn w (Some old) buffer (len buffer) =
    Ok (Some v, getSerializedSize_opt (getVarIntSize sgn w) (Some v) - 1).
Proof.
  intros Hv Hr Hd. cbn zeta. cbn [serializeUnchecked_opt getSerializedSize_opt app].
  unfold deserializeObject_opt_int. rewrite len_cons. pose proof (len_nonneg (encodeVarInt sgn w v ++ rest)).
  rewrite (proj2 (Z.ltb_ge _ 1)) by lia. rewrite rd_cons_0.
  cbn [bind tl Z.gtb Z.eqb Z.compare Pos.compare Pos.compare_cont].
  replace (1 + len (encodeVarInt sgn w v ++ rest) - 1) with (len (encodeVarInt sgn w v ++ rest)) by lia.
  assert (Hdec : decodeVarInt sgn w (encodeVarInt sgn w v ++ rest) (len (encodeVarInt sgn w v ++ rest)) =
    Ok (Consumed (len (encodeVarInt sgn w v)) v)) by (now apply decodeVarInt_encode).
  rewrite Hdec. cbn [lift bind]. rewrite getVarIntSize_len.
  pose proof (encodeVarInt_len sgn w v). assert (kMaxSerializedIntSize w <= 10) by (destruct w; vm_compute; discriminate).
  rewrite !(uw_small 64) by (rewrite ?uw_small; unfold u_ok; lia).
  split; [reflexivity|]. do 2 f_equal. lia.
Qed.

Lemma opt_int_engaged_count_witness :
  deserializeObject_opt_int false W32 (Some 7) [1; 0xAC; 2] 3 = Ok (Some 300, 2).
Proof.
  refine (proj2 (opt_int_engaged_count false W32 300 7 [] _ _ _)).
  - cbn; unfold u_ok; cbn; lia.
  - constructor.
  - right; right. reflexivity.
Defined.
