(* ===== verification/CNum.v ===== *)
(** * C++ arithmetic on the fixed-width numeric types

    What the engine's source takes from the language: the eight integer types
    of [<cstdint>] and [float]/[double], integral promotion, the usual
    arithmetic conversions of the LP64 ABI, the built-in operators with their
    undefined behaviours (signed overflow, division by zero, bad shift counts,
    out-of-range conversions of floating-point values) and the bit patterns of
    the IEEE formats.

    Floating-point values are [spec_float]s of the Standard Library: NaNs are
    identified with each other, so the payload of a NaN is not modelled. *)

From Stdlib Require Import ZArith List Lia Bool SpecFloat.
From S2P Require Import Prelude.
Import ListNotations.
Open Scope Z_scope.

(** ** Types *)

Inductive ity : Type := I8 | U8 | I16 | U16 | I32 | U32 | I64 | U64.
Inductive fty : Type := F32 | F64.
Inductive cty : Type := TInt (t : ity) | TFloat (f : fty).

Definition ity_eq_dec (a b : ity) : {a = b} + {a <> b}.
Proof. decide equality. Defined.

Definition signed (t : ity) : bool :=
  match t with I8 | I16 | I32 | I64 => true | _ => false end.

Definition ibits (t : ity) : Z :=
  match t with I8 | U8 => 8 | I16 | U16 => 16 | I32 | U32 => 32 | I64 | U64 => 64 end.

Definition imin (t : ity) : Z := if signed t then - 2 ^ (ibits t - 1) else 0.
Definition imax (t : ity) : Z := if signed t then 2 ^ (ibits t - 1) - 1 else 2 ^ ibits t - 1.

(** The values of a type; decidable and boolean. *)
Definition in_ity (t : ity) (z : Z) : bool := (imin t <=? z) && (z <=? imax t).

Definition prec (f : fty) : Z := match f with F32 => 24 | F64 => 53 end.
Definition emax (f : fty) : Z := match f with F32 => 128 | F64 => 1024 end.

(** Conversion to an integer type ([static_cast]). *)
Definition conv (t : ity) (z : Z) : Z := if signed t then sw (ibits t) z else uw (ibits t) z.

(** Integral promotion and the common type of two promoted types. *)
Definition promote (t : ity) : ity :=
  match t with I8 | U8 | I16 | U16 => I32 | t => t end.

Definition common (a b : ity) : ity :=
  let a := promote a in let b := promote b in
  if ibits b <? ibits a then a
  else if ibits a <? ibits b then b
  else if signed a then b else a.

Definition common_cty (a b : cty) : cty :=
  match a, b with
  | TInt s, TInt t => TInt (common s t)
  | TFloat F64, _ | _, TFloat F64 => TFloat F64
  | _, _ => TFloat F32
  end.

(** ** Values *)

Inductive cnum : Type :=
| CI (t : ity) (z : Z)
| CF (f : fty) (x : spec_float).

Definition type_of_cnum (v : cnum) : cty :=
  match v with CI t _ => TInt t | CF f _ => TFloat f end.

Definition cnum_ok (v : cnum) : bool :=
  match v with CI t z => in_ity t z | CF f x => valid_binary (prec f) (emax f) x end.

(** Integer to floating point: rounded to nearest even. *)
Definition of_int (f : fty) (z : Z) : spec_float := binary_normalize (prec f) (emax f) z 0 false.

(** Between the floating-point types: exact when widening, rounded otherwise. *)
Definition fconv (f : fty) (x : spec_float) : spec_float :=
  match x with
  | S754_finite s m e => binary_round (prec f) (emax f) s m e
  | x => x
  end.

Definition to_float (f : fty) (v : cnum) : spec_float :=
  match v with
  | CI _ z => of_int f z
  | CF F32 x => match f with F32 => x | F64 => fconv F64 x end
  | CF F64 x => match f with F64 => x | F32 => fconv F32 x end
  end.

(** Floating point to integer: truncation, undefined when the truncated value
    does not fit in the type. *)
Definition trunc (x : spec_float) : option Z :=
  match x with
  | S754_zero _ => Some 0
  | S754_finite s m e =>
      let a := if 0 <=? e then Z.pos m * 2 ^ e else Z.pos m / 2 ^ (- e) in
      Some (if s then - a else a)
  | _ => None
  end.

Definition float_to_int {E} (t : ity) (x : spec_float) : outcome E Z :=
  match trunc x with
  | Some z => if in_ity t z then Ok z else Undef BadFloatCast
  | None => Undef BadFloatCast
  end.

(** [static_cast<T>(v)] for an integer [T]. *)
Definition cast_int {E} (t : ity) (v : cnum) : outcome E Z :=
  match v with CI _ z => Ok (conv t z) | CF _ x => float_to_int t x end.

(** ** Operators *)

(** A result of signed arithmetic must fit; unsigned arithmetic wraps. *)
Definition arith {E} (t : ity) (z : Z) : outcome E Z :=
  if signed t then if in_ity t z then Ok z else Undef SignedOverflow
  else Ok (uw (ibits t) z).

Inductive aop : Type := OpAdd | OpSub | OpMul | OpDiv.

Definition int_aop {E} (op : aop) (t : ity) (a b : Z) : outcome E Z :=
  match op with
  | OpAdd => arith t (a + b)
  | OpSub => arith t (a - b)
  | OpMul => arith t (a * b)
  | OpDiv => if b =? 0 then Undef DivisionByZero else arith t (Z.quot a b)
  end.

(** [%] is undefined also where the quotient overflows. *)
Definition int_rem {E} (t : ity) (a b : Z) : outcome E Z :=
  if b =? 0 then Undef DivisionByZero
  else arith t (Z.quot a b) ;;; Ok (Z.rem a b).

Definition float_aop (op : aop) (f : fty) : spec_float -> spec_float -> spec_float :=
  match op with
  | OpAdd => SFadd (prec f) (emax f)
  | OpSub => SFsub (prec f) (emax f)
  | OpMul => SFmul (prec f) (emax f)
  | OpDiv => SFdiv (prec f) (emax f)
  end.

Definition c_aop {E} (op : aop) (a b : cnum) : outcome E cnum :=
  match a, b with
  | CI s x, CI t y =>
      let c := common s t in
      z <- int_aop op c (conv c x) (conv c y) ;; Ok (CI c z)
  | _, _ =>
      let f := match common_cty (type_of_cnum a) (type_of_cnum b) with TFloat f => f | _ => F64 end in
      Ok (CF f (float_aop op f (to_float f a) (to_float f b)))
  end.

Definition c_rem {E} (s t : ity) (x y : Z) : outcome E cnum :=
  let c := common s t in
  z <- int_rem c (conv c x) (conv c y) ;; Ok (CI c z).

Inductive bop : Type := OpOr | OpAnd | OpXor.

Definition c_bop (op : bop) (s t : ity) (x y : Z) : cnum :=
  let c := common s t in
  let f := match op with OpOr => Z.lor | OpAnd => Z.land | OpXor => Z.lxor end in
  CI c (f (conv c x) (conv c y)).

(** Shifts: the operands are promoted separately and the result has the type
    of the left one.  A left shift of a negative value is undefined, and so is
    one whose result does not fit in the unsigned version of the type. *)
Definition c_shl {E} (s t : ity) (x y : Z) : outcome E cnum :=
  let c := promote s in
  if (y <? 0) || (ibits c <=? y) then Undef BadShift
  else if signed c then
    if (x <? 0) || (2 ^ ibits c <=? x * 2 ^ y) then Undef SignedOverflow
    else Ok (CI c (sw (ibits c) (x * 2 ^ y)))
  else Ok (CI c (uw (ibits c) (x * 2 ^ y))).

Definition c_shr {E} (s t : ity) (x y : Z) : outcome E cnum :=
  let c := promote s in
  if (y <? 0) || (ibits c <=? y) then Undef BadShift
  else Ok (CI c (Z.shiftr x y)).

Definition c_neg {E} (v : cnum) : outcome E cnum :=
  match v with
  | CI t z => let c := promote t in r <- arith c (- z) ;; Ok (CI c r)
  | CF f x => Ok (CF f (SFopp x))
  end.

Definition c_compl (t : ity) (z : Z) : cnum :=
  let c := promote t in CI c (conv c (Z.lnot z)).

(** Comparisons, in the common type. *)
Inductive cop : Type := OpEq | OpLt | OpLe | OpGt | OpGe.

Definition int_cop (op : cop) (x y : Z) : bool :=
  match op with
  | OpEq => x =? y | OpLt => x <? y | OpLe => x <=? y | OpGt => y <? x | OpGe => y <=? x
  end.

Definition float_cop (op : cop) (x y : spec_float) : bool :=
  match op with
  | OpEq => SFeqb x y | OpLt => SFltb x y | OpLe => SFleb x y
  | OpGt => SFltb y x | OpGe => SFleb y x
  end.

Definition c_cop (op : cop) (a b : cnum) : bool :=
  match a, b with
  | CI s x, CI t y => let c := common s t in int_cop op (conv c x) (conv c y)
  | _, _ =>
      let f := match common_cty (type_of_cnum a) (type_of_cnum b) with TFloat f => f | _ => F64 end in
      float_cop op (to_float f a) (to_float f b)
  end.

(** ** Bit patterns of floating-point values *)

Definition fbits (f : fty) : Z := match f with F32 => 32 | F64 => 64 end.
Definition mbits (f : fty) : Z := prec f - 1.
Definition min_exp (f : fty) : Z := 3 - emax f - prec f.

Definition float_bits (f : fty) (x : spec_float) : Z :=
  let sign (s : bool) := if s then 2 ^ (fbits f - 1) else 0 in
  let inf := (2 * emax f - 1) * 2 ^ mbits f in
  match x with
  | S754_zero s => sign s
  | S754_infinity s => sign s + inf
  | S754_nan => inf + 2 ^ (mbits f - 1)
  | S754_finite s m e =>
      if Z.pos m <? 2 ^ mbits f then sign s + Z.pos m
      else sign s + (e - min_exp f + 1) * 2 ^ mbits f + (Z.pos m - 2 ^ mbits f)
  end.

Definition bits_float (f : fty) (b : Z) : spec_float :=
  let s := 2 ^ (fbits f - 1) <=? b in
  let be := (b / 2 ^ mbits f) mod (2 * emax f) in
  let m := b mod 2 ^ mbits f in
  if be =? 0 then
    match m with Z.pos p => S754_finite s p (min_exp f) | _ => S754_zero s end
  else if be =? 2 * emax f - 1 then
    (if m =? 0 then S754_infinity s else S754_nan)
  else match m + 2 ^ mbits f with
       | Z.pos p => S754_finite s p (be - 1 + min_exp f)
       | _ => S754_nan
       end.

(** ** Facts about the integer types *)

Lemma ibits_pos t : 0 < ibits t.
Proof. destruct t; reflexivity. Qed.

Lemma in_ity_spec t z : in_ity t z = true <-> (if signed t then s_ok (ibits t) z else u_ok (ibits t) z).
Proof.
  unfold in_ity, imin, imax, s_ok, u_ok. rewrite andb_true_iff, !Z.leb_le.
  destruct (signed t); lia.
Qed.

Lemma conv_in t z : in_ity t (conv t z) = true.
Proof.
  rewrite in_ity_spec. pose proof (ibits_pos t). unfold conv.
  destruct (signed t); [now apply sw_range|apply uw_range; lia].
Qed.

Lemma conv_id t z : in_ity t z = true -> conv t z = z.
Proof.
  rewrite in_ity_spec. pose proof (ibits_pos t). unfold conv.
  destruct (signed t); [now apply sw_small|apply uw_small].
Qed.

Lemma common_comm s t : common s t = common t s.
Proof. destruct s, t; reflexivity. Qed.

Lemma common_promoted s t : common s t = I32 \/ common s t = U32 \/ common s t = I64 \/ common s t = U64.
Proof. destruct s, t; cbn; auto. Qed.

(** [t] holds every value of [s]. *)
Definition fits_in (s t : ity) : bool := (imin t <=? imin s) && (imax s <=? imax t).

Lemma fits_in_ok s t z : fits_in s t = true -> in_ity s z = true -> in_ity t z = true.
Proof. unfold fits_in, in_ity. rewrite !andb_true_iff, !Z.leb_le. lia. Qed.

Lemma promote_fits t : fits_in t (promote t) = true.
Proof. destruct t; reflexivity. Qed.

(** The conversion to the common type loses a value only when it is negative
    and the common type is unsigned. *)
Lemma conv_common s t z : in_ity s z = true -> (0 <= z \/ signed (common s t) = true) ->
  conv (common s t) z = z.
Proof.
  intros Hz Hs. apply conv_id.
  unfold in_ity in *. rewrite andb_true_iff, !Z.leb_le in *.
  destruct s, t; cbn in *; destruct Hs as [Hs|Hs]; try discriminate; lia.
Qed.

Lemma arith_in {E} t z r : @arith E t z = Ok r -> in_ity t r = true.
Proof.
  unfold arith. destruct (signed t) eqn:Hs.
  - destruct (in_ity t z) eqn:Hi; intros [=]; congruence.
  - intros [= <-]. rewrite in_ity_spec, Hs. apply uw_range. pose proof (ibits_pos t); lia.
Qed.

Lemma arith_exact {E} t z : in_ity t z = true -> @arith E t z = Ok z.
Proof.
  intros Hz. unfold arith. destruct (signed t) eqn:Hs; [now rewrite Hz|].
  rewrite in_ity_spec, Hs in Hz. now rewrite uw_small.
Qed.

Lemma arith_unsigned {E} t z : signed t = false -> @arith E t z = Ok (uw (ibits t) z).
Proof. unfold arith. now intros ->. Qed.

Lemma quot_in_unsigned t x y : signed t = false -> in_ity t x = true -> in_ity t y = true -> y <> 0 ->
  in_ity t (Z.quot x y) = true.
Proof.
  intros Hs. rewrite !in_ity_spec, Hs. unfold u_ok. intros Hx Hy Hn.
  pose proof (Z.quot_pos x y). pose proof (Z.quot_le_upper_bound x y (2 ^ ibits t - 1)). nia.
Qed.

Lemma int_aop_in {E} op t a b r : @int_aop E op t a b = Ok r -> in_ity t r = true.
Proof. destruct op; cbn; [..|destruct (b =? 0); [discriminate|]]; apply arith_in. Qed.

Lemma rem_in t a b : in_ity t a = true -> b <> 0 -> in_ity t (Z.rem a b) = true.
Proof.
  intros Ha Hb. assert (Hz : in_ity t 0 = true) by (destruct t; reflexivity).
  pose proof (Z.rem_bound_abs a b Hb). unfold in_ity in *. rewrite !andb_true_iff, !Z.leb_le in *.
  destruct (Z.leb_spec 0 a).
  - pose proof (Z.rem_nonneg a b Hb ltac:(lia)). pose proof (Z.rem_le a b). 
    destruct (Z.lt_total b 0) as [?|[?|?]]; [|lia|].
    + rewrite <- (Z.rem_opp_r' a b) in *. pose proof (Z.rem_le a (- b)). lia.
    + lia.
  - pose proof (Z.rem_nonpos a b Hb ltac:(lia)).
    rewrite <- (Z.opp_involutive a), Z.rem_opp_l' in *.
    destruct (Z.lt_total b 0) as [?|[?|?]]; [|lia|].
    + rewrite <- (Z.rem_opp_r' (- a) b) in *. pose proof (Z.rem_le (- a) (- b)). lia.
    + pose proof (Z.rem_le (- a) b). lia.
Qed.

Lemma int_rem_in {E} t a b r : in_ity t a = true -> @int_rem E t a b = Ok r -> in_ity t r = true.
Proof.
  intros Ha. unfold int_rem. destruct (Z.eqb_spec b 0) as [|Hb]; [discriminate|].
  destruct (arith t (Z.quot a b)); cbn; intros [= <-]. now apply rem_in.
Qed.

(** Ranges as shifts, which the bitwise operators distribute over. *)
Lemma u_ok_shiftr n z : 0 <= n -> u_ok n z <-> Z.shiftr z n = 0.
Proof.
  intros Hn. rewrite shiftr_div by lia. pose proof (pow2_pos n Hn). unfold u_ok. split; intros H0.
  - now apply Z.div_small.
  - pose proof (Z.div_mod z (2 ^ n)). pose proof (Z.mod_pos_bound z (2 ^ n)). lia.
Qed.

Lemma s_ok_shiftr n z : 0 < n -> s_ok n z <-> Z.shiftr z (n - 1) = 0 \/ Z.shiftr z (n - 1) = -1.
Proof.
  intros Hn. rewrite shiftr_div by lia. pose proof (pow2_pos (n - 1) ltac:(lia)).
  pose proof (Z.div_mod z (2 ^ (n - 1))). pose proof (Z.mod_pos_bound z (2 ^ (n - 1))).
  unfold s_ok. nia.
Qed.

Definition bop_fun (op : bop) : Z -> Z -> Z :=
  match op with OpOr => Z.lor | OpAnd => Z.land | OpXor => Z.lxor end.

Lemma shiftr_bop op a b n : Z.shiftr (bop_fun op a b) n = bop_fun op (Z.shiftr a n) (Z.shiftr b n).
Proof. destruct op; [apply Z.shiftr_lor|apply Z.shiftr_land|apply Z.shiftr_lxor]. Qed.

Lemma bop_in op t a b : in_ity t a = true -> in_ity t b = true -> in_ity t (bop_fun op a b) = true.
Proof.
  pose proof (ibits_pos t). rewrite !in_ity_spec. destruct (signed t).
  - rewrite !s_ok_shiftr by lia. rewrite shiftr_bop.
    intros [-> | ->] [-> | ->]; destruct op; cbn; auto.
  - rewrite !u_ok_shiftr by lia. rewrite shiftr_bop. intros -> ->. destruct op; reflexivity.
Qed.

Lemma shiftr_in t z k : in_ity t z = true -> 0 <= k -> in_ity t (Z.shiftr z k) = true.
Proof.
  intros Hz Hk. rewrite shiftr_div by lia. pose proof (pow2_pos k Hk).
  pose proof (Z.div_mod z (2 ^ k)). pose proof (Z.mod_pos_bound z (2 ^ k)).
  assert (imin t <= 0 <= imax t) by (destruct t; cbn; lia).
  unfold in_ity in *. rewrite !andb_true_iff, !Z.leb_le in *. nia.
Qed.

(** The operators produce values of the type they have. *)
Lemma c_rem_ok {E} s t x y r : @c_rem E s t x y = Ok r ->
  cnum_ok r = true /\ type_of_cnum r = TInt (common s t).
Proof.
  unfold c_rem. intros (z & Hz & [= <-])%bind_Ok. split; [|reflexivity].
  cbn. eapply int_rem_in; [apply conv_in|exact Hz].
Qed.

Lemma c_bop_ok op s t x y :
  cnum_ok (c_bop op s t x y) = true /\ type_of_cnum (c_bop op s t x y) = TInt (common s t).
Proof.
  split; [|reflexivity]. unfold c_bop. cbn. change (match op with OpOr => _ | OpAnd => _ | OpXor => _ end) with (bop_fun op).
  apply bop_in; apply conv_in.
Qed.

Lemma c_shl_ok {E} s t x y r : @c_shl E s t x y = Ok r ->
  cnum_ok r = true /\ type_of_cnum r = TInt (promote s).
Proof.
  unfold c_shl. destruct (_ || _); [discriminate|]. destruct (signed (promote s)) eqn:Hs.
  - destruct (_ || _); [discriminate|]. intros [= <-]. split; [|reflexivity].
    cbn. rewrite in_ity_spec, Hs. apply sw_range, ibits_pos.
  - intros [= <-]. split; [|reflexivity]. cbn. rewrite in_ity_spec, Hs.
    apply uw_range. pose proof (ibits_pos (promote s)); lia.
Qed.

Lemma c_shr_ok {E} s t x y r : in_ity s x = true -> @c_shr E s t x y = Ok r ->
  cnum_ok r = true /\ type_of_cnum r = TInt (promote s).
Proof.
  intros Hx. unfold c_shr. destruct (Z.ltb_spec y 0); [discriminate|]. cbn [orb].
  destruct (_ <=? _); [discriminate|]. intros [= <-]. split; [|reflexivity]. cbn.
  apply shiftr_in; [|assumption]. eapply fits_in_ok; [apply promote_fits|assumption].
Qed.

(** ** Bit patterns *)

Lemma digits2_pos_spec m : 2 ^ (Z.pos (digits2_pos m) - 1) <= Z.pos m < 2 ^ Z.pos (digits2_pos m).
Proof.
  induction m as [m IH|m IH|]; cbn [digits2_pos]; [| |cbn; lia].
  all: rewrite Pos2Z.inj_succ, <- Z.add_1_r, Z.add_simpl_r, Z.pow_add_r by lia;
    rewrite (Z.pow_sub_r 2) in IH by lia; 
    rewrite ?(Pos2Z.inj_xI m), ?(Pos2Z.inj_xO m);
    pose proof (Z.pow_pos_nonneg 2 (Z.pos (digits2_pos m)));
    assert (2 ^ Z.pos (digits2_pos m) = 2 * (2 ^ Z.pos (digits2_pos m) / 2 ^ 1))
      by (change (2 ^ 1) with 2; rewrite <- (Z.sub_add 1 (Z.pos (digits2_pos m))), Z.pow_add_r by lia;
          change (2 ^ 1) with 2; rewrite Z.div_mul by lia; lia);
    lia.
Qed.

(** A finite value of the format is subnormal, at the lowest exponent, or has a
    full mantissa. *)
Lemma bounded_cases f m e : bounded (prec f) (emax f) m e = true ->
  min_exp f <= e <= emax f - prec f /\ Z.pos m < 2 ^ prec f /\ (2 ^ mbits f <= Z.pos m \/ e = min_exp f).
Proof.
  unfold bounded, canonical_mantissa, SpecFloat.fexp, SpecFloat.emin. rewrite andb_true_iff, Z.eqb_eq, Z.leb_le.
  intros [Hc He]. pose proof (digits2_pos_spec m) as [Hlo Hhi].
  assert (Hd : Z.pos (digits2_pos m) <= prec f) by lia.
  pose proof (Z.pow_le_mono_r 2 (Z.pos (digits2_pos m)) (prec f)). unfold min_exp, mbits.
  split; [lia|]. split; [lia|].
  destruct (Z.leb_spec (prec f) (Z.pos (digits2_pos m))) as [Hp|Hp].
  - left. replace (Z.pos (digits2_pos m)) with (prec f) in * by lia. lia.
  - right. lia.
Qed.

Lemma fbits_split f : 2 ^ (fbits f - 1) = 2 * emax f * 2 ^ mbits f.
Proof. destruct f; reflexivity. Qed.

(** Sign, biased exponent and mantissa are read back from the pattern. *)
Lemma bits_fields f (s : bool) be m : 0 <= be < 2 * emax f -> 0 <= m < 2 ^ mbits f ->
  let b := (if s then 2 ^ (fbits f - 1) else 0) + be * 2 ^ mbits f + m in
  (2 ^ (fbits f - 1) <=? b) = s /\ (b / 2 ^ mbits f) mod (2 * emax f) = be /\ b mod 2 ^ mbits f = m /\
  0 <= b < 2 ^ fbits f.
Proof.
  intros Hbe Hm b. assert (HP : 0 < 2 ^ mbits f) by (destruct f; reflexivity).
  assert (HE : 0 < emax f) by (destruct f; reflexivity).
  assert (Hb : b = ((if s then 2 * emax f else 0) + be) * 2 ^ mbits f + m)
    by (subst b; rewrite fbits_split; destruct s; lia).
  assert (Hd : b / 2 ^ mbits f = (if s then 2 * emax f else 0) + be)
    by (rewrite Hb, Z.add_comm, Z.div_add, Z.div_small by lia; lia).
  repeat apply conj.
  - rewrite fbits_split. subst b. rewrite fbits_split. destruct s; zcases; nia.
  - rewrite Hd. destruct s; [|apply Z.mod_small; lia].
    rewrite <- (Z.mul_1_l (2 * emax f)) at 1. rewrite Z.add_comm, Z.mod_add, Z.mod_small; lia.
  - rewrite Hb, Z.add_comm, Z.mod_add, Z.mod_small; lia.
  - rewrite Hb. destruct s; nia.
  - rewrite (pow2_half (fbits f)), fbits_split, Hb by (destruct f; reflexivity). destruct s; nia.
Qed.

(** The pattern of a valid value is in range and determines the value. *)
Lemma float_bits_roundtrip f x : valid_binary (prec f) (emax f) x = true ->
  u_ok (fbits f) (float_bits f x) /\ bits_float f (float_bits f x) = x.
Proof.
  assert (HP : 1 < 2 ^ (mbits f - 1) /\ 2 ^ mbits f = 2 * 2 ^ (mbits f - 1)) by (destruct f; split; reflexivity).
  assert (HE : 2 < emax f) by (destruct f; reflexivity).
  assert (Hfields : forall s be m b, 0 <= be < 2 * emax f -> 0 <= m < 2 ^ mbits f ->
    b = (if (s : bool) then 2 ^ (fbits f - 1) else 0) + be * 2 ^ mbits f + m ->
    u_ok (fbits f) b /\ bits_float f b =
      (if be =? 0 then match m with Z.pos p => S754_finite s p (min_exp f) | _ => S754_zero s end
       else if be =? 2 * emax f - 1 then (if m =? 0 then S754_infinity s else S754_nan)
       else match m + 2 ^ mbits f with Z.pos p => S754_finite s p (be - 1 + min_exp f) | _ => S754_nan end)).
  { intros s be m b Hbe Hm ->. destruct (bits_fields f s be m Hbe Hm) as (H1 & H2 & H3 & H4).
    unfold bits_float. rewrite H1, H2, H3. split; [exact H4|reflexivity]. }
  destruct x as [s|s| |s m e]; cbn [valid_binary]; intros Hv; unfold float_bits.
  - destruct (Hfields s 0 0 (if s then 2 ^ (fbits f - 1) else 0)) as [Hu ->]; try lia. auto.
  - destruct (Hfields s (2 * emax f - 1) 0 ((if s then 2 ^ (fbits f - 1) else 0) + (2 * emax f - 1) * 2 ^ mbits f))
      as [Hu ->]; try lia. split; [exact Hu|]. zcases; (reflexivity || lia).
  - destruct (Hfields false (2 * emax f - 1) (2 ^ (mbits f - 1)) ((2 * emax f - 1) * 2 ^ mbits f + 2 ^ (mbits f - 1)))
      as [Hu ->]; try lia. split; [exact Hu|]. zcases; (reflexivity || lia).
  - destruct (bounded_cases f m e Hv) as (He & Hm & Hc).
    assert (Hmp : 2 ^ prec f = 2 * 2 ^ mbits f) by (destruct f; reflexivity).
    destruct (Z.ltb_spec (Z.pos m) (2 ^ mbits f)) as [Hlt|Hge].
    + destruct (Hfields s 0 (Z.pos m) ((if s then 2 ^ (fbits f - 1) else 0) + Z.pos m)) as [Hu ->]; try lia.
      split; [exact Hu|]. cbn. f_equal. lia.
    + assert (0 <= e - min_exp f < 2 * emax f - 2) by (unfold min_exp in *; destruct f; cbn in *; lia).
      destruct (Hfields s (e - min_exp f + 1) (Z.pos m - 2 ^ mbits f)
        ((if s then 2 ^ (fbits f - 1) else 0) + (e - min_exp f + 1) * 2 ^ mbits f + (Z.pos m - 2 ^ mbits f)))
        as [Hu ->]; try lia.
      split; [exact Hu|]. rewrite Z.sub_add. zcases; try lia. f_equal. lia.
Qed.

Lemma digits2_pos_unique m d : 0 <= d -> 2 ^ d <= Z.pos m < 2 ^ (d + 1) -> Z.pos (digits2_pos m) = d + 1.
Proof.
  intros Hd Hm. pose proof (digits2_pos_spec m) as [Hlo Hhi].
  destruct (Z.lt_total (Z.pos (digits2_pos m)) (d + 1)) as [H|[H|H]]; [exfalso|exact H|exfalso].
  - pose proof (Z.pow_le_mono_r 2 (Z.pos (digits2_pos m)) d). lia.
  - pose proof (Z.pow_le_mono_r 2 (d + 1) (Z.pos (digits2_pos m) - 1)). lia.
Qed.

(** Every bit pattern stands for a value of the format. *)
Lemma bits_float_valid f b : valid_binary (prec f) (emax f) (bits_float f b) = true.
Proof.
  unfold bits_float. set (be := (b / 2 ^ mbits f) mod (2 * emax f)). set (m := b mod 2 ^ mbits f).
  assert (HE : 2 < emax f) by (destruct f; reflexivity).
  assert (HP : 0 < 2 ^ mbits f) by (destruct f; reflexivity).
  assert (Hbe : 0 <= be < 2 * emax f) by (apply Z.mod_pos_bound; lia).
  assert (Hm : 0 <= m < 2 ^ mbits f) by (apply Z.mod_pos_bound; lia).
  assert (Hpp : prec f = mbits f + 1 /\ 0 < mbits f) by (destruct f; split; reflexivity).
  destruct (Z.eqb_spec be 0) as [E0|E0]; [|destruct (Z.eqb_spec be (2 * emax f - 1)) as [E1|E1]].
  - destruct m as [|p|p]; [reflexivity| |lia]. cbn [valid_binary].
    unfold bounded, canonical_mantissa, SpecFloat.fexp, SpecFloat.emin, min_exp.
    pose proof (digits2_pos_spec p) as [Hlo Hhi].
    assert (Z.pos (digits2_pos p) <= mbits f).
    { destruct (Z.leb_spec (Z.pos (digits2_pos p)) (mbits f)); [assumption|].
      pose proof (Z.pow_le_mono_r 2 (mbits f) (Z.pos (digits2_pos p) - 1)). lia. }
    apply andb_true_iff. rewrite Z.eqb_eq, Z.leb_le. lia.
  - destruct (m =? 0); reflexivity.
  - destruct (m + 2 ^ mbits f) as [|p|p] eqn:Ep; [reflexivity| |reflexivity]. cbn [valid_binary].
    unfold bounded, canonical_mantissa, SpecFloat.fexp, SpecFloat.emin, min_exp.
    rewrite (digits2_pos_unique p (mbits f)) by (rewrite ?(Z.pow_add_r 2 (mbits f) 1); lia).
    apply andb_true_iff. rewrite Z.eqb_eq, Z.leb_le. lia.
Qed.
