(* ===== verification/RawDateTime.v ===== *)
(** * Dates and times

    Models [common/data/RawDateTime.h] and [RawDateTime.cpp]: the packed
    [RawDate] and [RawTime] structures, their comparisons, the serialized form
    (4 bytes, or 10 with a time part), the day count of [format], the splitting
    of a time point by [parse] and the default text form.

    The structures are bit-fields of a 32-bit and a 64-bit word, laid out from
    the low bit on; the code compares and copies them as words.  The branch of
    the source for platforms with unaligned access is the one modelled, and the
    portable [serialize] beside it.  [date::parse], [date::format] and the
    calendar type [date::year_month_day] belong to a library: the calendar is a
    parameter where it is needed. *)

From Stdlib Require Import ZArith List Lia Bool.
From S2P Require Import Prelude PlainBinary.
Import ListNotations.
Open Scope Z_scope.

(** ** Bit-fields *)

(** Fields as (width, value), lowest first. *)
Fixpoint pack (l : list (Z * Z)) : Z :=
  match l with
  | [] => 0
  | (n, v) :: l => uw n v + 2 ^ n * pack l
  end.

Fixpoint unpack (widths : list Z) (w : Z) : list Z :=
  match widths with
  | [] => []
  | n :: l => uw n w :: unpack l (w / 2 ^ n)
  end.

Definition field (l : list Z) (i : nat) : Z := nth i l 0.

(** ** Data *)

Record RawDate : Type := {
  m_hasTimePart : bool;
  m_dayOfWeek : Z;     (** 0..6, Sunday is 0 *)
  m_dayOfMonth : Z;    (** 0..30 *)
  m_month : Z;         (** 0..11 *)
  m_year : Z
}.

Record RawTime : Type := {
  m_reserved1 : bool;
  m_nanos : Z;
  m_seconds : Z;
  m_minutes : Z;
  m_hours : Z;
  m_reserved2 : Z
}.

Record RawDateTime : Type := { m_timePart : RawTime; m_datePart : RawDate }.

Definition date_widths : list Z := [1; 3; 5; 4; 19].
Definition time_widths : list Z := [1; 30; 6; 6; 5; 16].

(** The structures as the words the code reads and writes. *)
Definition date_word (d : RawDate) : Z :=
  pack (combine date_widths
    [Z.b2z (m_hasTimePart d); m_dayOfWeek d; m_dayOfMonth d; m_month d; m_year d]).

Definition word_date (w : Z) : RawDate :=
  let f := field (unpack date_widths w) in
  {| m_hasTimePart := f 0%nat =? 1; m_dayOfWeek := f 1%nat; m_dayOfMonth := f 2%nat;
     m_month := f 3%nat; m_year := sw 19 (f 4%nat) |}.

Definition time_word (t : RawTime) : Z :=
  pack (combine time_widths
    [Z.b2z (m_reserved1 t); m_nanos t; m_seconds t; m_minutes t; m_hours t; m_reserved2 t]).

Definition word_time (w : Z) : RawTime :=
  let f := field (unpack time_widths w) in
  {| m_reserved1 := f 0%nat =? 1; m_nanos := f 1%nat; m_seconds := f 2%nat; m_minutes := f 3%nat;
     m_hours := f 4%nat; m_reserved2 := sw 16 (f 5%nat) |}.

(** Values the bit-fields can hold. *)
Definition RawDate_ok (d : RawDate) : Prop :=
  u_ok 3 (m_dayOfWeek d) /\ u_ok 5 (m_dayOfMonth d) /\ u_ok 4 (m_month d) /\ s_ok 19 (m_year d).
Definition RawTime_ok (t : RawTime) : Prop :=
  u_ok 30 (m_nanos t) /\ u_ok 6 (m_seconds t) /\ u_ok 6 (m_minutes t) /\ u_ok 5 (m_hours t) /\
  s_ok 16 (m_reserved2 t).
Definition RawDateTime_ok (x : RawDateTime) : Prop := RawTime_ok (m_timePart x) /\ RawDate_ok (m_datePart x).

(** ** Constructors: values are truncated to their fields *)

Definition mkRawDate (year month dayOfMonth dayOfWeek : Z) (hasTimePart : bool) : RawDate :=
  {| m_hasTimePart := hasTimePart; m_dayOfWeek := uw 3 dayOfWeek; m_dayOfMonth := uw 5 dayOfMonth;
     m_month := uw 4 month; m_year := sw 19 year |}.

Definition mkRawTime (hours minutes seconds nanos : Z) : RawTime :=
  {| m_reserved1 := false; m_nanos := uw 30 nanos; m_seconds := uw 6 seconds; m_minutes := uw 6 minutes;
     m_hours := uw 5 hours; m_reserved2 := 0 |}.

Definition kZeroRawTime : RawTime := mkRawTime 0 0 0 0.

(** The fields of [struct tm] the code uses. *)
Record tm : Type := {
  tm_sec : Z; tm_min : Z; tm_hour : Z; tm_mday : Z; tm_mon : Z; tm_year : Z; tm_wday : Z
}.

(** [RawDateTime(std::time_t)], given what [gmtime_r] stored. *)
Definition RawDateTime_of_tm (t : tm) : RawDateTime :=
  {| m_timePart := mkRawTime (tm_hour t) (tm_min t) (tm_sec t) 0;
     m_datePart := mkRawDate (tm_year t + 1900) (tm_mon t) (tm_mday t - 1) (tm_wday t) true |}.

(** ** Comparisons *)

Definition RawDate_eq (a b : RawDate) : bool := date_word a =? date_word b.

Definition RawDate_gt (a b : RawDate) : bool :=
  if m_year a >? m_year b then true else if m_year a <? m_year b then false else
  if m_month a >? m_month b then true else if m_month a <? m_month b then false else
  m_dayOfMonth a >? m_dayOfMonth b.

Definition RawDate_ge (a b : RawDate) : bool :=
  if m_year a >? m_year b then true else if m_year a <? m_year b then false else
  if m_month a >? m_month b then true else if m_month a <? m_month b then false else
  m_dayOfMonth a >=? m_dayOfMonth b.

Definition RawDate_lt (a b : RawDate) : bool := negb (RawDate_ge a b).

Definition RawTime_eq (a b : RawTime) : bool := time_word a =? time_word b.

Definition RawTime_gt (a b : RawTime) : bool :=
  if m_hours a >? m_hours b then true else if m_hours a <? m_hours b then false else
  if m_minutes a >? m_minutes b then true else if m_minutes a <? m_minutes b then false else
  if m_seconds a >? m_seconds b then true else if m_seconds a <? m_seconds b then false else
  m_nanos a >? m_nanos b.

Definition RawTime_ge (a b : RawTime) : bool :=
  if m_hours a >? m_hours b then true else if m_hours a <? m_hours b then false else
  if m_minutes a >? m_minutes b then true else if m_minutes a <? m_minutes b then false else
  if m_seconds a >? m_seconds b then true else if m_seconds a <? m_seconds b then false else
  m_nanos a >=? m_nanos b.

Definition RawDateTime_eq (a b : RawDateTime) : bool :=
  RawDate_eq (m_datePart a) (m_datePart b) &&
  (negb (m_hasTimePart (m_datePart a)) || RawTime_eq (m_timePart a) (m_timePart b)).

Definition RawDateTime_ne (a b : RawDateTime) : bool :=
  negb (date_word (m_datePart a) =? date_word (m_datePart b)) ||
  (m_hasTimePart (m_datePart a) && negb (time_word (m_timePart a) =? time_word (m_timePart b))).

Definition RawDateTime_gt (a b : RawDateTime) : bool :=
  if RawDate_gt (m_datePart a) (m_datePart b) then true
  else if RawDate_lt (m_datePart a) (m_datePart b) then false
  else if m_hasTimePart (m_datePart a) && m_hasTimePart (m_datePart b)
  then RawTime_gt (m_timePart a) (m_timePart b)
  else m_hasTimePart (m_datePart a).

Definition RawDateTime_ge (a b : RawDateTime) : bool :=
  if RawDate_gt (m_datePart a) (m_datePart b) then true
  else if RawDate_lt (m_datePart a) (m_datePart b) then false
  else if m_hasTimePart (m_datePart a) && m_hasTimePart (m_datePart b)
  then RawTime_ge (m_timePart a) (m_timePart b)
  else negb (m_hasTimePart (m_datePart b)).

Definition RawDateTime_lt (a b : RawDateTime) : bool := negb (RawDateTime_ge a b).
Definition RawDateTime_le (a b : RawDateTime) : bool := negb (RawDateTime_gt a b).

(** ** Serialization *)

Definition with_hasTimePart (d : RawDate) (v : bool) : RawDate :=
  {| m_hasTimePart := v; m_dayOfWeek := m_dayOfWeek d; m_dayOfMonth := m_dayOfMonth d;
     m_month := m_month d; m_year := m_year d |}.

Definition getSerializedSize (x : RawDateTime) : Z := if m_hasTimePart (m_datePart x) then 10 else 4.

Definition serialize (x : RawDateTime) : list Z :=
  let timePart := Z.land (time_word (m_timePart x)) 0xFFFFFFFFFFFF in
  let rawDatePart := with_hasTimePart (m_datePart x) (negb (timePart =? 0)) in
  let date_bytes := le_store 4 (date_word rawDatePart) in
  if timePart =? 0 then date_bytes
  else date_bytes ++ le_store 4 timePart ++ le_store 2 (Z.shiftr timePart 32).

(** The branch for other platforms, on a little-endian machine: the flag is set
    but never reset. *)
Definition serialize_portable (x : RawDateTime) : list Z :=
  let timePart := Z.land (time_word (m_timePart x)) 0xFFFFFFFFFFFF in
  let rawDatePart := if negb (timePart =? 0) then with_hasTimePart (m_datePart x) true else m_datePart x in
  let date_bytes := pbeEncodeUInt32 (date_word rawDatePart) in
  if timePart =? 0 then date_bytes
  else date_bytes ++ firstn 6 (pbeEncodeUInt64 timePart).

(** Updates the object [x] in place and returns the number of bytes read, 0 when
    there are not enough. *)
Definition deserialize {E} (x : RawDateTime) (buffer : list Z) (length : Z)
  : outcome E (RawDateTime * Z) :=
  if length <? 4 then Ok (x, 0) else
  d <- memrd buffer 0 4 ;;
  let date := word_date (le_load d) in
  if negb (m_hasTimePart date) then
    Ok ({| m_timePart := word_time 0; m_datePart := date |}, 4)
  else if length <? 10 then Ok ({| m_timePart := m_timePart x; m_datePart := date |}, 0) else
  lo <- memrd buffer 4 4 ;;
  hi <- memrd buffer 8 2 ;;
  Ok ({| m_timePart := word_time (le_load (lo ++ hi ++ [0; 0])); m_datePart := date |}, 10).

Definition deserializeDatePart {E} (x : RawDateTime) (buffer : list Z) : outcome E RawDateTime :=
  d <- memrd buffer 0 4 ;;
  let date := word_date (le_load d) in
  if m_hasTimePart date then Ok {| m_timePart := m_timePart x; m_datePart := date |}
  else Ok {| m_timePart := word_time 0; m_datePart := date |}.

(** ** Calendar: the day count of [format] and the time point of [parse] *)

Definition kNanosecondsPerDay : Z := 86400000000000.
Definition nano_den : Z := 1000000000.
Definition kMinYear : Z := -262144.
Definition kMaxYear : Z := 262143.

(** Days since 1970-01-01 of a civil date; C++ division truncates, and the
    casts to [unsigned] are of non-negative values of less than 32 bits. *)
Definition days_of_date (d : RawDate) : Z :=
  let y := m_year d - Z.b2z (m_month d <=? 1) in
  let era := Z.quot (if y >=? 0 then y else y - 399) 400 in
  let yoe := uw 32 (y - era * 400) in
  let doy := Z.quot (153 * (if m_month d >? 1 then m_month d - 2 else m_month d + 10) + 2) 5
             + m_dayOfMonth d in
  let doe := uw 32 (yoe * 365 + Z.quot yoe 4 - Z.quot yoe 100 + doy) in
  era * 146097 + sw 32 doe - 719468.

(** The nanoseconds since the epoch that [format] hands to the library. *)
Definition format_duration (x : RawDateTime) : Z :=
  let t := m_timePart x in
  days_of_date (m_datePart x) * kNanosecondsPerDay
  + (m_hours t * 3600 + m_minutes t * 60 + m_seconds t) * nano_den + m_nanos t.

Inductive parse_error : Type := EmptyString | InvalidString | YearOutOfRange.

(** [parse] from the point where the library has read the time point [count]
    (nanoseconds since the epoch, [None] when the stream failed); [ymd] and
    [weekday] are the calendar functions of the library on a day number. *)
Definition parse (ymd : Z -> Z * Z * Z) (weekday : Z -> Z) (len : Z) (timePoint : option Z)
  : outcome parse_error RawDateTime :=
  if len =? 0 then Throw EmptyString else
  match timePoint with
  | None => Throw InvalidString
  | Some count =>
      let day := count / kNanosecondsPerDay in
      let '(year, month, dom) := ymd day in
      if (year <? kMinYear) || (year >? kMaxYear) then Throw YearOutOfRange else
      let t0 := Z.rem count kNanosecondsPerDay in
      let t := if t0 <? 0 then t0 + kNanosecondsPerDay else t0 in
      let nanos := t mod nano_den in
      let t := t / nano_den in
      let seconds := t mod 60 in
      let t := t / 60 in
      let minutes := t mod 60 in
      let t := t / 60 in
      let hours := t mod 24 in
      let time := mkRawTime hours minutes seconds nanos in
      let date := mkRawDate year (month - 1) (dom - 1) (weekday day)
        (negb (time_word time =? time_word kZeroRawTime)) in
      Ok {| m_timePart := time; m_datePart := date |}
  end.

(** [RawTime::toEpochTimestamp]. *)
Definition RawTime_toEpochTimestamp (t : RawTime) : Z := m_seconds t + 60 * m_minutes t + 3600 * m_hours t.

(** [convertHours24To12]: the hour on the dial and whether it is PM. *)
Definition convertHours24To12 (hours : Z) : option (Z * bool) :=
  if hours >? 23 then None else
  let second := hours >? 11 in
  let hours := if second then hours - 12 else hours in
  Some (if hours =? 0 then 12 else hours, second).

(** ** The default text form *)

(** Decimal digits, most significant first; [fuel] bounds their number. *)
Fixpoint digits (fuel : nat) (z : Z) (acc : list Z) : list Z :=
  match fuel with
  | O => acc
  | S k => let acc := (48 + z mod 10) :: acc in if z / 10 =? 0 then acc else digits k (z / 10) acc
  end.

(** [%d] and [%02d] of values of less than 64 bits. *)
Definition print_d (z : Z) : list Z := if z <? 0 then 45 :: digits 20 (- z) [] else digits 20 z [].
Definition print_02d (z : Z) : list Z :=
  let s := print_d z in if len s <? 2 then 48 :: s else s.

(** The text [snprintf] is asked for; its length is the [size] it returns. *)
Definition formatDefault_text (x : RawDateTime) : list Z :=
  let d := m_datePart x in let t := m_timePart x in
  let date := print_d (m_year d) ++ 45 :: print_02d (m_month d + 1) ++ 45 :: print_02d (m_dayOfMonth d + 1) in
  if m_hasTimePart d then
    date ++ 32 :: print_02d (m_hours t) ++ 58 :: print_02d (m_minutes t) ++ 58 :: print_02d (m_seconds t)
    ++ 46 :: print_d (m_nanos t)
  else date.

Definition kMaxDateTimeStringLength : Z := 33.
Definition kMaxDateStringLength : Z := 14.

(** [snprintf] stores at most [n - 1] characters and a NUL; the string is then
    built from [size] characters of the 33-byte array, of which those after the
    NUL are not initialized. *)
Definition formatDefault {E} (x : RawDateTime) : outcome E (list Z) :=
  let n := if m_hasTimePart (m_datePart x) then kMaxDateTimeStringLength else kMaxDateStringLength in
  let text := formatDefault_text x in
  let size := len text in
  let stored := firstn (Z.to_nat (n - 1)) text ++ [0] in
  if size <=? len stored then memrd stored 0 size
  else if size <=? kMaxDateTimeStringLength then Undef Uninitialized else Undef OutOfBounds.

(** ** Words and structures *)

Lemma pack_range l : Forall (fun p => 0 <= fst p) l ->
  u_ok (fold_right Z.add 0 (map fst l)) (pack l) /\ 0 <= fold_right Z.add 0 (map fst l).
Proof.
  induction l as [|[n v] l IH]; intros Hw; cbn [pack map fst fold_right]; [unfold u_ok; cbn; lia|].
  inversion Hw as [|? ? Hn Hl]; subst. cbn [fst] in Hn. destruct (IH Hl) as [Hp Hs]. unfold u_ok in *.
  split; [|lia]. pose proof (uw_range n v Hn) as Hu. unfold u_ok in Hu.
  rewrite Z.pow_add_r by lia. nia.
Qed.

Lemma unpack_pack ws vs : Forall (fun n => 0 <= n) ws -> length ws = length vs ->
  unpack ws (pack (combine ws vs)) = map (fun p => uw (fst p) (snd p)) (combine ws vs).
Proof.
  revert vs. induction ws as [|n ws IH]; intros [|v vs] Hw Hl; try discriminate; [reflexivity|].
  cbn [unpack pack map fst snd combine]. inversion Hw as [|? ? Hn Hws]; subst.
  pose proof (uw_range n v Hn) as Hu. unfold u_ok in Hu. pose proof (pow2_pos n Hn). f_equal.
  - unfold uw at 1. rewrite Z.mul_comm, Z_mod_plus_full. now apply Z.mod_small.
  - rewrite Z.mul_comm, Z.div_add, Z.div_small, Z.add_0_l by lia. apply IH; auto.
Qed.

Lemma date_word_range d : u_ok 32 (date_word d).
Proof.
  apply (pack_range (combine date_widths [_; _; _; _; _])). repeat constructor; cbn; lia.
Qed.

Lemma time_word_range t : u_ok 64 (time_word t).
Proof.
  apply (pack_range (combine time_widths [_; _; _; _; _; _])). repeat constructor; cbn; lia.
Qed.

Lemma b2z_eqb_1 b : (uw 1 (Z.b2z b) =? 1) = b.
Proof. destruct b; reflexivity. Qed.

Lemma word_date_word d : RawDate_ok d -> word_date (date_word d) = d.
Proof.
  intros (H1 & H2 & H3 & H4). unfold word_date, date_word.
  rewrite unpack_pack by (reflexivity || (repeat constructor; cbn; lia)).
  cbn [combine date_widths map fst snd field nth]. rewrite b2z_eqb_1, sw_of_uw_small by (assumption || lia).
  rewrite !uw_small by assumption. now destruct d.
Qed.

Lemma word_time_word t : RawTime_ok t -> word_time (time_word t) = t.
Proof.
  intros (H1 & H2 & H3 & H4 & H5). unfold word_time, time_word.
  rewrite unpack_pack by (reflexivity || (repeat constructor; cbn; lia)).
  cbn [combine time_widths map fst snd field nth]. rewrite b2z_eqb_1, sw_of_uw_small by (assumption || lia).
  rewrite !uw_small by assumption. now destruct t.
Qed.

Lemma word_date_ok w : RawDate_ok (word_date w).
Proof.
  unfold RawDate_ok, word_date; cbn [unpack date_widths field nth m_dayOfWeek m_dayOfMonth m_month m_year].
  do 3 (split; [apply uw_range; lia|]). apply sw_range; lia.
Qed.

Lemma word_time_ok w : RawTime_ok (word_time w).
Proof.
  unfold RawTime_ok, word_time; cbn [unpack time_widths field nth m_nanos m_seconds m_minutes m_hours m_reserved2].
  do 4 (split; [apply uw_range; lia|]). apply sw_range; lia.
Qed.

Lemma RawDate_eq_iff a b : RawDate_ok a -> RawDate_ok b -> RawDate_eq a b = true <-> a = b.
Proof.
  intros Ha Hb. unfold RawDate_eq. rewrite Z.eqb_eq. split; [|now intros ->].
  intros H. now rewrite <- (word_date_word a), <- (word_date_word b), H.
Qed.

Lemma RawTime_eq_iff a b : RawTime_ok a -> RawTime_ok b -> RawTime_eq a b = true <-> a = b.
Proof.
  intros Ha Hb. unfold RawTime_eq. rewrite Z.eqb_eq. split; [|now intros ->].
  intros H. now rewrite <- (word_time_word a), <- (word_time_word b), H.
Qed.

(** The low 48 bits of the time word: everything but the upper reserved field. *)
Definition clear_reserved2 (t : RawTime) : RawTime :=
  {| m_reserved1 := m_reserved1 t; m_nanos := m_nanos t; m_seconds := m_seconds t;
     m_minutes := m_minutes t; m_hours := m_hours t; m_reserved2 := 0 |}.

Lemma time_word_low t : Z.land (time_word t) 0xFFFFFFFFFFFF = time_word (clear_reserved2 t).
Proof.
  change 0xFFFFFFFFFFFF with (Z.ones 48). rewrite Z.land_ones by lia.
  assert (Hs : time_word t = time_word (clear_reserved2 t) + uw 16 (m_reserved2 t) * 2 ^ 48).
  { unfold time_word. cbn [combine time_widths pack clear_reserved2
      m_reserved1 m_nanos m_seconds m_minutes m_hours m_reserved2].
    change (uw 16 0) with 0. pow_norm. lia. }
  rewrite Hs, Z_mod_plus_full. apply Z.mod_small.
  pose proof (pack_range [(1, Z.b2z (m_reserved1 t)); (30, m_nanos t); (6, m_seconds t); (6, m_minutes t); (5, m_hours t)]
    ltac:(repeat constructor; cbn; lia)) as [Hr _].
  unfold u_ok in Hr. unfold time_word. cbn [combine time_widths pack clear_reserved2
      m_reserved1 m_nanos m_seconds m_minutes m_hours m_reserved2] in *.
  cbn [map fst fold_right] in Hr. change (uw 16 0) with 0. pow_norm. lia.
Qed.

(** ** Serialization *)

(** What is read back: the flag tells whether there is a time, and the upper
    reserved field is zero. *)
Definition canonical (x : RawDateTime) : RawDateTime :=
  let t := clear_reserved2 (m_timePart x) in
  {| m_timePart := t; m_datePart := with_hasTimePart (m_datePart x) (negb (time_word t =? 0)) |}.

(** Objects whose flag is right already. *)
Definition normal (x : RawDateTime) : Prop :=
  m_reserved2 (m_timePart x) = 0 /\
  m_hasTimePart (m_datePart x) = negb (time_word (m_timePart x) =? 0).

Lemma canonical_normal x : normal x -> canonical x = x.
Proof.
  destruct x as [t d]. unfold normal; cbn [m_timePart m_datePart]. intros [H2 Hf].
  assert (Ht : clear_reserved2 t = t) by (destruct t; cbn in H2; subst; reflexivity).
  unfold canonical; cbn [m_timePart m_datePart]. rewrite Ht, <- Hf. now destruct d.
Qed.

Lemma with_hasTimePart_ok d v : RawDate_ok d -> RawDate_ok (with_hasTimePart d v).
Proof. exact (fun H => H). Qed.

Lemma clear_reserved2_ok t : RawTime_ok t -> RawTime_ok (clear_reserved2 t).
Proof. intros (H1 & H2 & H3 & H4 & H5). repeat split; try apply H1; try apply H2; try apply H3; try apply H4; cbn; lia. Qed.

Lemma time_word_zero t : RawTime_ok t -> time_word t = 0 -> t = word_time 0.
Proof. intros Ht H0. now rewrite <- (word_time_word t Ht), H0. Qed.

Lemma serialize_len x : len (serialize x) = getSerializedSize (canonical x).
Proof.
  unfold serialize, getSerializedSize, canonical. rewrite time_word_low. cbn [m_datePart m_hasTimePart with_hasTimePart].
  destruct (time_word _ =? 0); cbn [negb]; rewrite ?len_app, !len_le_store; reflexivity.
Qed.

Lemma serialize_bytes x : bytes_ok (serialize x).
Proof.
  unfold serialize. destruct (_ =? 0); [apply le_store_bytes|].
  apply bytes_ok_app; split; [apply le_store_bytes|]. apply bytes_ok_app; split; apply le_store_bytes.
Qed.

Lemma clear_reserved2_word_48 t : time_word (clear_reserved2 t) < 2 ^ 48.
Proof.
  rewrite <- time_word_low. change 0xFFFFFFFFFFFF with (Z.ones 48). rewrite Z.land_ones by lia.
  apply Z.mod_pos_bound. lia.
Qed.

(** The six bytes of the time part, and the two zero bytes the reader adds. *)
Lemma time_bytes_load v : 0 <= v < 2 ^ 48 ->
  le_load (le_store 4 v ++ le_store 2 (Z.shiftr v 32) ++ [0; 0]) = v.
Proof.
  intros Hv. rewrite app_assoc. change 32 with (8 * Z.of_nat 4). rewrite <- (le_store_app 4 2 v).
  change [0; 0] with (le_store 2 0).
  assert (H0 : le_store 2 0 = le_store 2 (Z.shiftr v (8 * Z.of_nat 6))).
  { rewrite shiftr_div, Z.div_small by (cbn; lia). reflexivity. }
  rewrite H0. change (4 + 2)%nat with 6%nat. rewrite <- (le_store_app 6 2 v), le_load_store.
  apply Z.mod_small. pow_norm. lia.
Qed.

Lemma date_bytes_load d : RawDate_ok d -> word_date (le_load (le_store 4 (date_word d))) = d.
Proof.
  intros Hd. rewrite le_load_store, Z.mod_small by apply date_word_range. now apply word_date_word.
Qed.

Lemma deserialize_date {E} d old rest : RawDate_ok d -> m_hasTimePart d = false ->
  let buffer := le_store 4 (date_word d) ++ rest in
  @deserialize E old buffer (len buffer) = Ok ({| m_timePart := word_time 0; m_datePart := d |}, 4).
Proof.
  intros Hd Hf buffer. pose proof (len_nonneg rest). unfold deserialize, buffer.
  rewrite len_app, len_le_store, (proj2 (Z.ltb_ge _ 4)) by lia.
  rewrite memrd_head by reflexivity. cbn [bind]. now rewrite date_bytes_load, Hf.
Qed.

Lemma deserialize_both {E} d t old rest : RawDate_ok d -> m_hasTimePart d = true ->
  RawTime_ok t -> time_word t < 2 ^ 48 ->
  let buffer := (le_store 4 (date_word d) ++ le_store 4 (time_word t) ++ le_store 2 (Z.shiftr (time_word t) 32)) ++ rest in
  @deserialize E old buffer (len buffer) = Ok ({| m_timePart := t; m_datePart := d |}, 10).
Proof.
  intros Hd Hf Ht H48 buffer. pose proof (len_nonneg rest). pose proof (time_word_range t) as [H0 _].
  unfold deserialize, buffer. rewrite !len_app, !len_le_store.
  rewrite (proj2 (Z.ltb_ge _ 4)), (proj2 (Z.ltb_ge _ 10)) by lia.
  rewrite <- !app_assoc. rewrite memrd_head, memrd_mid by reflexivity.
  rewrite (app_assoc (le_store 4 (date_word d))), memrd_mid by reflexivity.
  cbn [bind]. rewrite date_bytes_load, Hf, time_bytes_load by (assumption || lia). cbn [negb].
  now rewrite word_time_word.
Qed.

Lemma deserialize_canonical {E} x old rest : RawDateTime_ok x ->
  @deserialize E old (serialize x ++ rest) (len (serialize x ++ rest)) = Ok (canonical x, len (serialize x)).
Proof.
  intros [Ht Hd]. rewrite serialize_len. unfold getSerializedSize, canonical, serialize. rewrite !time_word_low.
  set (t := clear_reserved2 (m_timePart x)). cbn [m_datePart m_hasTimePart with_hasTimePart].
  destruct (Z.eqb_spec (time_word t) 0) as [E0|E0]; cbn [negb].
  - rewrite deserialize_date by (reflexivity || exact Hd).
    now rewrite (time_word_zero t (clear_reserved2_ok _ Ht) E0).
  - apply deserialize_both; [exact Hd|reflexivity|now apply clear_reserved2_ok|apply clear_reserved2_word_48].
Qed.

(** a date-time is read back from what was written, whatever follows it in
    the buffer and whatever object it is read into, up to its flag and reserved
    field being made consistent; a consistent one is read back as it was, and
    the announced size is the size written. *)
Theorem datetime_roundtrip x old rest : RawDateTime_ok x ->
  bytes_ok (serialize x) /\
  @deserialize Empty_set old (serialize x ++ rest) (len (serialize x ++ rest)) =
    Ok (canonical x, len (serialize x)) /\
  (normal x -> canonical x = x /\ len (serialize x) = getSerializedSize x).
Proof.
  intros Hx. split; [apply serialize_bytes|]. split; [now apply deserialize_canonical|].
  intros Hn. rewrite serialize_len, canonical_normal by assumption. auto.
Qed.

Lemma datetime_roundtrip_witness :
  @deserialize Empty_set {| m_timePart := kZeroRawTime; m_datePart := mkRawDate 0 0 0 6 false |}
    [0xCD; 0x83; 0xFC; 0; 10; 0; 0; 0x80; 0x7D; 0xBF; 7] 11
  = Ok ({| m_timePart := mkRawTime 23 59 59 5; m_datePart := mkRawDate 2020 1 28 6 true |}, 10).
Proof.
  refine (proj1 (proj2 (datetime_roundtrip
    {| m_timePart := mkRawTime 23 59 59 5; m_datePart := mkRawDate 2020 1 28 6 true |} _ [7] _))).
  repeat split; vm_compute; discriminate.
Defined.

(** the size announced for a date-time differs from the size written when
    it claims a time part and the time is midnight, which is how
    [RawDateTime(std::time_t)] builds the first second of a day; the portable
    writer then leaves a flag that its reader takes for a missing time part. *)
Theorem datetime_midnight_size t : tm_sec t = 0 -> tm_min t = 0 -> tm_hour t = 0 ->
  let x := RawDateTime_of_tm t in
  getSerializedSize x = 10 /\ len (serialize x) = 4 /\
  forall old, exists y,
    @deserialize Empty_set old (serialize_portable x) (len (serialize_portable x)) = Ok (y, 0).
Proof.
  intros Hs Hm Hh x.
  assert (Ht : m_timePart x = kZeroRawTime) by (cbn; now rewrite Hs, Hm, Hh).
  assert (Hw : Z.land (time_word (m_timePart x)) 0xFFFFFFFFFFFF = 0) by (rewrite Ht; reflexivity).
  assert (Hd : RawDate_ok (m_datePart x)) by (do 3 (split; [apply uw_range; lia|]); apply sw_range; lia).
  split; [reflexivity|]. split.
  - unfold serialize. rewrite Hw. apply len_le_store.
  - intros old. unfold serialize_portable. rewrite Hw. cbn [Z.eqb negb].
    change (pbeEncodeUInt32 (date_word (m_datePart x))) with (le_store 4 (date_word (m_datePart x))).
    unfold deserialize. rewrite len_le_store. change (Z.of_nat 4) with 4. cbn [Z.ltb Z.compare Pos.compare Pos.compare_cont].
    pose proof (@memrd_head Empty_set (le_store 4 (date_word (m_datePart x))) [] 4) as Hrd.
    rewrite app_nil_r, len_le_store in Hrd. rewrite (Hrd eq_refl). cbn [bind]. rewrite date_bytes_load by exact Hd.
    eexists. reflexivity.
Qed.

Lemma datetime_midnight_size_witness :
  let x := RawDateTime_of_tm {| tm_sec := 0; tm_min := 0; tm_hour := 0; tm_mday := 1; tm_mon := 0; tm_year := 100; tm_wday := 6 |} in
  getSerializedSize x = 10 /\ len (serialize x) = 4.
Proof.
  split; [reflexivity|].
  refine (proj1 (proj2 (datetime_midnight_size
    {| tm_sec := 0; tm_min := 0; tm_hour := 0; tm_mday := 1; tm_mon := 0; tm_year := 100; tm_wday := 6 |} _ _ _))); reflexivity.
Defined.

(** ** The order *)

(** Lexicographic comparison of keys; a proper prefix is smaller. *)
Fixpoint lex (a b : list Z) : comparison :=
  match a, b with
  | [], [] => Eq
  | [], _ => Lt
  | _, [] => Gt
  | x :: a, y :: b => match x ?= y with Eq => lex a b | c => c end
  end.

Lemma lex_antisym a b : lex b a = CompOpp (lex a b).
Proof.
  revert b. induction a as [|x a IH]; intros [|y b]; try reflexivity. cbn [lex].
  rewrite (Z.compare_antisym x y), IH. destruct (x ?= y); reflexivity.
Qed.

Lemma lex_refl a : lex a a = Eq.
Proof. induction a as [|x a IH]; [reflexivity|]. cbn [lex]. now rewrite Z.compare_refl. Qed.

Lemma lex_Eq a b : lex a b = Eq -> a = b.
Proof.
  revert b. induction a as [|x a IH]; intros [|y b]; cbn [lex]; try discriminate; [reflexivity|].
  destruct (Z.compare_spec x y); try discriminate. intros H'. subst. f_equal. now apply IH.
Qed.

Lemma lex_Gt_trans a b c : lex a b = Gt -> lex b c = Gt -> lex a c = Gt.
Proof.
  revert b c. induction a as [|x a IH]; intros [|y b] [|z c]; cbn [lex]; try discriminate; auto.
  destruct (Z.compare_spec x y), (Z.compare_spec y z); try discriminate; intros H1 H2; subst;
    rewrite ?Z.compare_refl; try (now apply IH with b);
    rewrite (proj2 (Z.compare_gt_iff _ _)) by lia; reflexivity.
Qed.

(** A date without a time comes before the same date with one. *)
Definition date_key (d : RawDate) : list Z := [m_year d; m_month d; m_dayOfMonth d].
Definition time_key (t : RawTime) : list Z := [m_hours t; m_minutes t; m_seconds t; m_nanos t].
Definition datetime_key (x : RawDateTime) : list Z :=
  date_key (m_datePart x) ++ (if m_hasTimePart (m_datePart x) then 1 :: time_key (m_timePart x) else [0]).

Definition is_gt (c : comparison) : bool := match c with Gt => true | _ => false end.
Definition is_ge (c : comparison) : bool := match c with Lt => false | _ => true end.

Ltac lex_cases :=
  repeat match goal with
  | |- context [?x ?= ?y] => destruct (Z.compare_spec x y); subst
  end; zcases; try lia; reflexivity.

Lemma RawDate_cmp a b :
  RawDate_gt a b = is_gt (lex (date_key a) (date_key b)) /\
  RawDate_ge a b = is_ge (lex (date_key a) (date_key b)).
Proof. unfold RawDate_gt, RawDate_ge, date_key. cbn [lex]. split; lex_cases. Qed.

Lemma RawTime_cmp a b :
  RawTime_gt a b = is_gt (lex (time_key a) (time_key b)) /\
  RawTime_ge a b = is_ge (lex (time_key a) (time_key b)).
Proof. unfold RawTime_gt, RawTime_ge, time_key. cbn [lex]. split; lex_cases. Qed.

Lemma lex_app a1 a2 b1 b2 : length a1 = length b1 ->
  lex (a1 ++ a2) (b1 ++ b2) = match lex a1 b1 with Eq => lex a2 b2 | c => c end.
Proof.
  revert b1. induction a1 as [|x a1 IH]; intros [|y b1] Hl; try discriminate; [reflexivity|].
  cbn [lex app]. destruct (x ?= y); [|reflexivity..]. apply IH. now injection Hl.
Qed.

Lemma RawDateTime_cmp a b :
  RawDateTime_gt a b = is_gt (lex (datetime_key a) (datetime_key b)) /\
  RawDateTime_ge a b = is_ge (lex (datetime_key a) (datetime_key b)).
Proof.
  unfold RawDateTime_gt, RawDateTime_ge, RawDate_lt, datetime_key.
  rewrite !lex_app by reflexivity.
  destruct (RawDate_cmp (m_datePart a) (m_datePart b)) as [-> ->].
  destruct (RawTime_cmp (m_timePart a) (m_timePart b)) as [-> ->].
  destruct (lex (date_key _) _); [|split; reflexivity..].
  destruct (m_hasTimePart (m_datePart a)), (m_hasTimePart (m_datePart b)); split; reflexivity.
Qed.

Lemma RawDateTime_eq_key a b : RawDateTime_ok a -> RawDateTime_ok b ->
  RawDateTime_eq a b = true -> datetime_key a = datetime_key b.
Proof.
  intros [Hta Hda] [Htb Hdb]. unfold RawDateTime_eq. rewrite andb_true_iff, orb_true_iff.
  intros [Hd Ht]. apply RawDate_eq_iff in Hd; [|assumption..].
  unfold datetime_key. rewrite <- Hd. destruct (m_hasTimePart (m_datePart a)); [|reflexivity].
  destruct Ht as [Ht|Ht]; [discriminate|]. apply RawTime_eq_iff in Ht; [|assumption..]. now rewrite Ht.
Qed.

(** the six comparisons of date-times are those of one strict order, the
    lexicographic order of year, month, day, presence of a time, and time:
    [>] and [>=] compute it, [<] and [<=] mirror them, [>] is transitive and
    irreflexive, [==] implies neither is greater, and [!=] negates [==]. *)
Theorem datetime_order a b c : RawDateTime_ok a -> RawDateTime_ok b ->
  RawDateTime_gt a b = is_gt (lex (datetime_key a) (datetime_key b)) /\
  RawDateTime_ge a b = is_ge (lex (datetime_key a) (datetime_key b)) /\
  RawDateTime_lt a b = RawDateTime_gt b a /\
  RawDateTime_le a b = RawDateTime_ge b a /\
  RawDateTime_gt a a = false /\
  (RawDateTime_gt a b = true -> RawDateTime_gt b c = true -> RawDateTime_gt a c = true) /\
  (RawDateTime_eq a b = true -> RawDateTime_ge a b = true /\ RawDateTime_ge b a = true) /\
  RawDateTime_ne a b = negb (RawDateTime_eq a b).
Proof.
  intros Ha Hb. unfold RawDateTime_lt, RawDateTime_le.
  pose proof (RawDateTime_cmp a b) as [Gab Eab]. pose proof (RawDateTime_cmp b a) as [Gba Eba].
  split; [exact Gab|]. split; [exact Eab|].
  split; [rewrite Eab, Gba, (lex_antisym (datetime_key a)); now destruct (lex _ _)|].
  split; [rewrite Gab, Eba, (lex_antisym (datetime_key a)); now destruct (lex _ _)|].
  split; [rewrite (proj1 (RawDateTime_cmp a a)), lex_refl; reflexivity|].
  split; [|split].
  - rewrite Gab, (proj1 (RawDateTime_cmp b c)), (proj1 (RawDateTime_cmp a c)).
    destruct (lex (datetime_key a) (datetime_key b)) eqn:E1; try discriminate.
    destruct (lex (datetime_key b) (datetime_key c)) eqn:E2; try discriminate.
    now rewrite (lex_Gt_trans _ _ _ E1 E2).
  - intros He. rewrite Eab, Eba, (RawDateTime_eq_key a b Ha Hb He), lex_refl. auto.
  - unfold RawDateTime_ne, RawDateTime_eq, RawDate_eq, RawTime_eq.
    now rewrite negb_andb, negb_orb, negb_involutive.
Qed.

Lemma datetime_order_witness :
  let a := {| m_timePart := mkRawTime 0 0 0 1; m_datePart := mkRawDate 2020 1 28 6 true |} in
  let b := {| m_timePart := kZeroRawTime; m_datePart := mkRawDate 2020 1 28 6 false |} in
  RawDateTime_gt a b = true /\ RawDateTime_lt a b = RawDateTime_gt b a.
Proof.
  split; [reflexivity|].
  refine (proj1 (proj2 (proj2 (datetime_order _ _ {| m_timePart := kZeroRawTime; m_datePart := mkRawDate 2020 1 28 6 false |} _ _))));
    repeat split; vm_compute; discriminate.
Defined.

(** ** The calendar *)

(** The proleptic Gregorian calendar, with months and days from 0. *)
Definition leap_year (y : Z) : bool :=
  ((y mod 4 =? 0) && negb (y mod 100 =? 0)) || (y mod 400 =? 0).

Definition days_in_month (y m : Z) : Z :=
  match m with
  | 1 => if leap_year y then 29 else 28
  | 3 | 5 | 8 | 10 => 30
  | _ => 31
  end.

Definition civil_ok (d : RawDate) : Prop :=
  0 <= m_month d < 12 /\ 0 <= m_dayOfMonth d < days_in_month (m_year d) (m_month d) /\ s_ok 19 (m_year d).

Definition next_day (d : RawDate) : RawDate :=
  let w := (m_dayOfWeek d + 1) mod 7 in
  if m_dayOfMonth d + 1 <? days_in_month (m_year d) (m_month d)
  then {| m_hasTimePart := m_hasTimePart d; m_dayOfWeek := w; m_dayOfMonth := m_dayOfMonth d + 1;
          m_month := m_month d; m_year := m_year d |}
  else if m_month d <? 11
  then {| m_hasTimePart := m_hasTimePart d; m_dayOfWeek := w; m_dayOfMonth := 0;
          m_month := m_month d + 1; m_year := m_year d |}
  else {| m_hasTimePart := m_hasTimePart d; m_dayOfWeek := w; m_dayOfMonth := 0;
          m_month := 0; m_year := m_year d + 1 |}.

Lemma days_in_month_bound y m : 28 <= days_in_month y m <= 31.
Proof. unfold days_in_month. repeat case_match; lia. Qed.

(** Days before 1 March of year [y]. *)
Definition year_days (y : Z) : Z := 365 * y + y / 4 - y / 100 + y / 400.

Lemma days_of_date_closed d : civil_ok d ->
  days_of_date d =
    year_days (m_year d - Z.b2z (m_month d <=? 1))
    + (153 * (if m_month d >? 1 then m_month d - 2 else m_month d + 10) + 2) / 5 + m_dayOfMonth d - 719468.
Proof.
  intros (Hm & Hd & Hy). unfold s_ok in Hy. pow_norm.
  assert (Hd' : 0 <= m_dayOfMonth d < 31).
  { pose proof (days_in_month_bound (m_year d) (m_month d)). lia. }
  unfold days_of_date. set (y := m_year d - Z.b2z (m_month d <=? 1)).
  assert (Hyr : -262145 <= y <= 262143) by (subst y; destruct (_ <=? 1); cbn; lia).
  set (mp := if m_month d >? 1 then m_month d - 2 else m_month d + 10).
  assert (Hmp : 0 <= mp < 12) by (subst mp; rewrite Z.gtb_ltb; zcases; lia).
  assert (Hera : Z.quot (if y >=? 0 then y else y - 399) 400 = y / 400).
  { rewrite Z.geb_leb. zcases; Z.to_euclidean_division_equations; lia. }
  rewrite Hera. rewrite (uw_small 32 (y - _)) by (unfold u_ok; pow_norm; Z.to_euclidean_division_equations; lia).
  set (yoe := y - y / 400 * 400).
  assert (Hyoe : 0 <= yoe < 400) by (subst yoe; Z.to_euclidean_division_equations; lia).
  rewrite !(Z.quot_div_nonneg) by lia.
  assert (Hdoe : 0 <= yoe * 365 + yoe / 4 - yoe / 100 + ((153 * mp + 2) / 5 + m_dayOfMonth d) < 146100 + 400)
    by (Z.to_euclidean_division_equations; lia).
  rewrite (uw_small 32), (sw_small 32) by (unfold u_ok, s_ok; pow_norm; lia).
  unfold year_days. subst yoe. Z.to_euclidean_division_equations; lia.
Qed.

Lemma leap_year_days y : year_days y - year_days (y - 1) = 365 + Z.b2z (leap_year y).
Proof.
  unfold year_days, leap_year. zcases; cbn [Z.b2z]; Z.to_euclidean_division_equations; lia.
Qed.

Lemma month_cases m : 0 <= m < 12 ->
  m = 0 \/ m = 1 \/ m = 2 \/ m = 3 \/ m = 4 \/ m = 5 \/ m = 6 \/ m = 7 \/ m = 8 \/ m = 9 \/ m = 10 \/ m = 11.
Proof. lia. Qed.

Lemma next_day_ok d : civil_ok d -> m_year d < kMaxYear -> civil_ok (next_day d).
Proof.
  intros (Hm & Hd & Hy) Hmax. unfold kMaxYear, s_ok in *. unfold civil_ok, next_day, s_ok. pow_norm.
  pose proof (days_in_month_bound (m_year d) (m_month d + 1)).
  pose proof (days_in_month_bound (m_year d + 1) 0).
  zcases; cbn [m_month m_dayOfMonth m_year]; lia.
Qed.

(** the day number that [format] computes is the number of days since
    1970-01-01 in the Gregorian calendar, over the whole range of years of the
    type: it is 0 there and grows by one from each civil date to the next. *)
Theorem day_count d : civil_ok d -> m_year d < kMaxYear ->
  days_of_date (mkRawDate 1970 0 0 4 false) = 0 /\
  days_of_date (next_day d) = days_of_date d + 1.
Proof.
  intros Hd Hmax. split; [reflexivity|].
  rewrite !days_of_date_closed by (assumption || now apply next_day_ok).
  destruct Hd as (Hm & Hdom & Hy). pose proof (leap_year_days (m_year d)) as Hl.
  unfold next_day.
  destruct (Z.ltb_spec (m_dayOfMonth d + 1) (days_in_month (m_year d) (m_month d))) as [Hlt|Hge];
    [cbn [m_month m_dayOfMonth m_year]; lia|].
  destruct (month_cases _ Hm) as [E|[E|[E|[E|[E|[E|[E|[E|[E|[E|[E|E]]]]]]]]]]]; rewrite E in *;
    cbn [Z.ltb Z.compare Pos.compare Pos.compare_cont m_month m_dayOfMonth m_year days_in_month] in *.
  all: try (destruct (leap_year (m_year d)); cbn [Z.b2z] in *).
  all: change (Z.b2z (0 <=? 1)) with 1 in *; change (Z.b2z (1 <=? 1)) with 1 in *;
       cbn [Z.b2z Z.leb Z.gtb Z.compare Pos.compare Pos.compare_cont Z.add Z.sub Z.opp Z.mul Pos.mul Pos.add] in *.
  all: rewrite ?Z.sub_0_r, ?Z.add_simpl_r in *; pose proof Z.div_0_l; cbn; lia.
Qed.

Lemma day_count_witness :
  days_of_date (mkRawDate 2000 2 0 3 false) = days_of_date (mkRawDate 2000 1 28 2 false) + 1.
Proof.
  refine (proj2 (day_count (mkRawDate 2000 1 28 2 false) _ _)); repeat split; vm_compute; (reflexivity || discriminate).
Defined.

(** ** Time points *)

(** The day number of a civil date, months and days from 1. *)
Definition civil_days (y m d : Z) : Z :=
  year_days (if m <=? 2 then y - 1 else y) + (153 * (if m <=? 2 then m + 9 else m - 3) + 2) / 5 + d - 1 - 719468.

(** The library's answer for a day number: the civil date with that number. *)
Definition is_civil_date (y m d day : Z) : Prop :=
  1 <= m <= 12 /\ 1 <= d <= days_in_month y (m - 1) /\ civil_days y m d = day.

Lemma days_of_mkRawDate y m d w f : 1 <= m <= 12 -> 1 <= d <= days_in_month y (m - 1) -> kMinYear <= y <= kMaxYear ->
  days_of_date (mkRawDate y (m - 1) (d - 1) w f) = civil_days y m d.
Proof.
  intros Hm Hd Hy. unfold kMinYear, kMaxYear in Hy. pose proof (days_in_month_bound y (m - 1)).
  assert (Hf : m_month (mkRawDate y (m - 1) (d - 1) w f) = m - 1 /\
    m_dayOfMonth (mkRawDate y (m - 1) (d - 1) w f) = d - 1 /\ m_year (mkRawDate y (m - 1) (d - 1) w f) = y).
  { cbn [mkRawDate m_month m_dayOfMonth m_year].
    rewrite !uw_small, sw_small by (unfold u_ok, s_ok; pow_norm; lia). auto. }
  destruct Hf as (Em & Ed & Ey).
  rewrite days_of_date_closed; [|unfold civil_ok, s_ok; rewrite Em, Ed, Ey; pow_norm; lia].
  rewrite Em, Ed, Ey. unfold civil_days.
  rewrite Z.gtb_ltb. zcases; cbn [Z.b2z]; try lia.
  - replace (m - 1 - 2) with (m - 3) by lia. rewrite Z.sub_0_r. lia.
  - replace (m - 1 + 10) with (m + 9) by lia. lia.
Qed.

(** Splitting the nanoseconds of a day. *)
Lemma split_time t : 0 <= t < kNanosecondsPerDay ->
  let n := t mod nano_den in let s := (t / nano_den) mod 60 in
  let mi := (t / nano_den / 60) mod 60 in let h := (t / nano_den / 60 / 60) mod 24 in
  mkRawTime h mi s n = {| m_reserved1 := false; m_nanos := n; m_seconds := s; m_minutes := mi; m_hours := h; m_reserved2 := 0 |} /\
  (h * 3600 + mi * 60 + s) * nano_den + n = t /\ h < 24 /\ mi < 60 /\ s < 60 /\ n < nano_den.
Proof.
  intros Ht n s mi h. unfold kNanosecondsPerDay, nano_den in *.
  assert (0 <= n < 1000000000 /\ 0 <= s < 60 /\ 0 <= mi < 60 /\ 0 <= h < 24)
    by (repeat split; subst n s mi h; apply Z.mod_pos_bound; lia).
  unfold mkRawTime. rewrite !uw_small by (unfold u_ok; pow_norm; lia).
  split; [reflexivity|]. split; [|lia].
  subst n s mi h. rewrite !Z.div_div by lia. Z.to_euclidean_division_equations; lia.
Qed.

(** parsing a time point that lies within the supported years gives a
    consistent date-time whose fields [format] turns back into the same time
    point, to the nanosecond and also before the epoch, with every time field in
    its calendar range. *)
Theorem parse_format ymd weekday length count year month dom :
  length <> 0 -> ymd (count / kNanosecondsPerDay) = (year, month, dom) ->
  is_civil_date year month dom (count / kNanosecondsPerDay) -> kMinYear <= year <= kMaxYear ->
  exists x, parse ymd weekday length (Some count) = Ok x /\ format_duration x = count /\ normal x /\
    m_hours (m_timePart x) < 24 /\ m_minutes (m_timePart x) < 60 /\ m_seconds (m_timePart x) < 60 /\
    m_nanos (m_timePart x) < nano_den.
Proof.
  intros Hl Hymd (Hm & Hd & Hc) Hy. unfold parse.
  rewrite (proj2 (Z.eqb_neq _ _) Hl), Hymd. rewrite Z.gtb_ltb, !(proj2 (Z.ltb_ge _ _)) by lia. cbn [orb].
  set (t := if Z.rem count kNanosecondsPerDay <? 0 then _ else _).
  assert (Ht : t = count mod kNanosecondsPerDay).
  { subst t. unfold kNanosecondsPerDay. zcases; Z.to_euclidean_division_equations; lia. }
  assert (Hr : 0 <= t < kNanosecondsPerDay) by (rewrite Ht; apply Z.mod_pos_bound; reflexivity).
  destruct (split_time t Hr) as (Emk & Esum & Hh & Hmi & Hs & Hn). cbn zeta in Emk, Esum, Hh, Hmi, Hs, Hn |- *.
  rewrite Emk. eexists. split; [reflexivity|]. unfold format_duration, normal.
  cbn [m_timePart m_datePart m_hours m_minutes m_seconds m_nanos m_reserved2].
  rewrite days_of_mkRawDate, Hc by assumption.
  split; [|repeat split; assumption].
  rewrite <- Z.add_assoc, Esum, Ht, Z.mul_comm. symmetry. apply Z.div_mod. discriminate.
Qed.

Lemma parse_format_witness :
  exists x, parse (fun _ => (1969, 12, 31)) (fun _ => 3) 10 (Some (-1)) = Ok x /\ format_duration x = -1.
Proof.
  destruct (parse_format (fun _ => (1969, 12, 31)) (fun _ => 3) 10 (-1) 1969 12 31) as (x & H1 & H2 & _).
  - discriminate.
  - reflexivity.
  - repeat split; vm_compute; (reflexivity || discriminate).
  - split; discriminate.
  - exists x. split; [exact H1|exact H2].
Defined.

(** ** The default text *)

Lemma len_digits k : forall fuel z acc, (k < fuel)%nat -> 0 <= z < 10 ^ (Z.of_nat k + 1) ->
  1 + len acc <= len (digits fuel z acc) <= Z.of_nat k + 1 + len acc.
Proof.
  induction k as [|k IH]; intros [|fuel] z acc Hf Hz; try lia; cbn [digits].
  - rewrite Z.div_small by (change (10 ^ (Z.of_nat 0 + 1)) with 10 in Hz; lia). cbn [Z.eqb]. rewrite len_cons. lia.
  - destruct (Z.eqb_spec (z / 10) 0); [rewrite len_cons; lia|].
    assert (0 <= z / 10 < 10 ^ (Z.of_nat k + 1)).
    { replace (Z.of_nat (S k) + 1) with (Z.of_nat k + 1 + 1) in Hz by lia. rewrite Z.pow_add_r in Hz by lia.
      split; [apply Z.div_pos; lia|]. apply Z.div_lt_upper_bound; lia. }
    specialize (IH fuel (z / 10) ((48 + z mod 10) :: acc) ltac:(lia) H). rewrite len_cons in IH. lia.
Qed.

Lemma len_print_d k z : (k < 20)%nat -> 0 <= z < 10 ^ (Z.of_nat k + 1) -> 1 <= len (print_d z) <= Z.of_nat k + 1.
Proof.
  intros Hk Hz. unfold print_d. rewrite (proj2 (Z.ltb_ge z 0)) by lia.
  pose proof (len_digits k 20 z [] Hk Hz). rewrite len_nil in *. lia.
Qed.

Lemma len_print_02d z : 0 <= z < 100 -> len (print_02d z) = 2.
Proof.
  intros Hz. pose proof (len_print_d 1 z ltac:(lia) Hz). unfold print_02d. cbn zeta.
  zcases; rewrite ?len_cons; lia.
Qed.

Lemma formatDefault_len x : RawDateTime_ok x ->
  len (formatDefault_text x) <=
    (if m_hasTimePart (m_datePart x) then (if m_nanos (m_timePart x) <? nano_den then 32 else 33) else 13).
Proof.
  intros [(H1 & H2 & H3 & H4 & H5) (D1 & D2 & D3 & D4)]. unfold u_ok, s_ok in *. pow_norm.
  assert (Hy : len (print_d (m_year (m_datePart x))) <= 7).
  { unfold print_d. pose proof (len_digits 5 20 (- m_year (m_datePart x)) [] ltac:(lia)) as Hn.
    pose proof (len_digits 5 20 (m_year (m_datePart x)) [] ltac:(lia)) as Hp.
    change (10 ^ (Z.of_nat 5 + 1)) with 1000000 in *. change (len (@nil Z)) with 0 in *. zcases; rewrite ?len_cons; lia. }
  unfold formatDefault_text.
  destruct (m_hasTimePart (m_datePart x)); repeat rewrite ?len_app, ?len_cons; rewrite !len_print_02d by lia; [|lia].
  destruct (Z.ltb_spec (m_nanos (m_timePart x)) nano_den) as [Hn|Hn].
  - pose proof (len_print_d 8 (m_nanos (m_timePart x)) ltac:(lia)) as Hp.
    change (10 ^ (Z.of_nat 8 + 1)) with nano_den in Hp. lia.
  - pose proof (len_print_d 9 (m_nanos (m_timePart x)) ltac:(lia)) as Hp.
    change (10 ^ (Z.of_nat 9 + 1)) with 10000000000 in Hp. lia.
Qed.

(** the default text form is built without reading past what [snprintf]
    stored, for every value the fields can hold, and is the whole text when
    there are less than 10^9 nanoseconds. *)
Theorem formatDefault_in_buffer x : RawDateTime_ok x ->
  exists s, @formatDefault Empty_set x = Ok s /\ len s = len (formatDefault_text x) /\
    (m_nanos (m_timePart x) < nano_den -> s = formatDefault_text x).
Proof.
  intros Hx. pose proof (formatDefault_len x Hx) as Hlen.
  set (n := if m_hasTimePart (m_datePart x) then kMaxDateTimeStringLength else kMaxDateStringLength).
  assert (Hn : n = 33 /\ len (formatDefault_text x) <= 33 /\ (m_nanos (m_timePart x) < nano_den -> len (formatDefault_text x) <= 32) \/
               n = 14 /\ len (formatDefault_text x) <= 13).
  { subst n. destruct (m_hasTimePart (m_datePart x)); [left|right; split; [reflexivity|lia]].
    revert Hlen. unfold kMaxDateTimeStringLength. zcases; intros; repeat split; intros; lia. }
  unfold formatDefault. fold n. cbn zeta. set (text := formatDefault_text x) in *.
  pose proof (len_nonneg text).
  assert (Hst : len (firstn (Z.to_nat (n - 1)) text ++ [0]) = Z.min (n - 1) (len text) + 1)
    by (rewrite len_app; unfold len; rewrite length_firstn; cbn [length]; lia).
  rewrite Hst, (proj2 (Z.leb_le _ _)) by lia. unfold memrd.
  rewrite (proj2 (Z.ltb_ge (len text) 0)) by lia. cbn [orb Z.ltb Z.compare].
  rewrite Hst, (proj2 (Z.leb_le _ _)) by lia. cbn [skipn Z.to_nat].
  eexists. split; [reflexivity|]. split.
  - unfold len at 1. rewrite length_firstn. unfold len in *. lia.
  - intros Hnan. rewrite (firstn_all2 text) by (unfold len in *; lia).
    rewrite firstn_app, firstn_len. unfold len. rewrite Nat2Z.id, Nat.sub_diag. apply app_nil_r.
Qed.

Lemma formatDefault_in_buffer_witness :
  exists s, @formatDefault Empty_set
    {| m_timePart := mkRawTime 23 59 59 999999999; m_datePart := mkRawDate (-262144) 11 30 5 true |} = Ok s /\ len s = 32.
Proof.
  destruct (formatDefault_in_buffer
    {| m_timePart := mkRawTime 23 59 59 999999999; m_datePart := mkRawDate (-262144) 11 30 5 true |}) as (s & H1 & H2 & _).
  - repeat split; vm_compute; (reflexivity || discriminate).
  - exists s. split; [exact H1|]. rewrite H2. vm_compute. reflexivity.
Defined.
