(* ===== verification/VariantType.v ===== *)
(** * Value types of the engine

    Models [iomgr/shared/dbengine/Variant_Type.h] and [Variant_Type.cpp]. *)

From Stdlib Require Import ZArith List Lia Bool String.
From S2P Require Import Prelude CNum.
Import ListNotations.
Open Scope Z_scope.

Inductive VariantType : Type :=
| kNull | kBool
| kInt8 | kUInt8 | kInt16 | kUInt16 | kInt32 | kUInt32 | kInt64 | kUInt64
| kFloat | kDouble
| kDate | kTime | kDateTime | kTimeWithTZ | kDateTimeWithTZ | kDateInterval | kTimeInterval
| kString | kBinary | kClob | kBlob.

Definition VariantType_eq_dec (a b : VariantType) : {a = b} + {a <> b}.
Proof. decide equality. Defined.

Definition VariantType_eqb (a b : VariantType) : bool := if VariantType_eq_dec a b then true else false.

(** The enumerators, in order; [type_code] is the value of an enumerator. *)
Definition all_types : list VariantType :=
  [kNull; kBool; kInt8; kUInt8; kInt16; kUInt16; kInt32; kUInt32; kInt64; kUInt64; kFloat; kDouble;
   kDate; kTime; kDateTime; kTimeWithTZ; kDateTimeWithTZ; kDateInterval; kTimeInterval;
   kString; kBinary; kClob; kBlob].

Fixpoint index_of (t : VariantType) (l : list VariantType) : Z :=
  match l with
  | [] => 0
  | x :: l => if VariantType_eq_dec t x then 0 else 1 + index_of t l
  end.

Definition type_code (t : VariantType) : Z := index_of t all_types.
Definition kVariantTypeCount : Z := 23.
Definition kFirstNonPrimitiveVariantType : VariantType := kDate.

(** [static_cast<VariantType>(b)] for a byte that names a type. *)
Definition type_of_code (b : Z) : option VariantType :=
  if (b <? 0) || (kVariantTypeCount <=? b) then None else nth_error all_types (Z.to_nat b).

Definition isNullType (t : VariantType) : bool := VariantType_eqb t kNull.
Definition isBoolType (t : VariantType) : bool := VariantType_eqb t kBool.
Definition isStringType (t : VariantType) : bool := VariantType_eqb t kString.
Definition isBinaryType (t : VariantType) : bool := VariantType_eqb t kBinary.
Definition isDateTimeType (t : VariantType) : bool := VariantType_eqb t kDateTime.

Definition isNumericType (t : VariantType) : bool :=
  match t with
  | kInt8 | kUInt8 | kInt16 | kUInt16 | kInt32 | kUInt32 | kInt64 | kUInt64 | kFloat | kDouble => true
  | _ => false
  end.

Definition isIntegerType (t : VariantType) : bool :=
  match t with
  | kInt8 | kUInt8 | kInt16 | kUInt16 | kInt32 | kUInt32 | kInt64 | kUInt64 => true
  | _ => false
  end.

Definition isFloatingPointType (t : VariantType) : bool :=
  match t with kFloat | kDouble => true | _ => false end.

Definition isSignedType (t : VariantType) : bool :=
  match t with kInt8 | kInt16 | kInt32 | kInt64 | kFloat | kDouble => true | _ => false end.

Definition getSignedType (t : VariantType) : VariantType :=
  match t with kUInt8 => kInt8 | kUInt16 => kInt16 | kUInt32 => kInt32 | kUInt64 => kInt64 | t => t end.

Definition isUIntType (t : VariantType) : bool :=
  match t with kUInt8 | kUInt16 | kUInt32 | kUInt64 => true | _ => false end.

Definition getUIntType (t : VariantType) : VariantType :=
  match t with kInt8 => kUInt8 | kInt16 => kUInt16 | kInt32 => kUInt32 | kInt64 => kUInt64 | t => t end.

(** [std::max] on the enumeration: the first argument unless it is smaller. *)
Definition type_max (a b : VariantType) : VariantType := if type_code a <? type_code b then b else a.

Definition getNumericResultType (leftType rightType : VariantType) : VariantType :=
  type_max (type_max leftType rightType) kInt32.

Definition kVariantTypeNames : list string :=
  ["Null"; "Bool"; "Int8"; "UInt8"; "Int16"; "UInt16"; "Int32"; "UInt32"; "Int64"; "UInt64";
   "Float"; "Double"; "Date"; "Time"; "DateTime"; "TimeWithTZ"; "DateTimeWithTZ"; "DateInterval";
   "TimeInterval"; "String"; "Binary"; "Clob"; "Blob"]%string.

(** [array::at], with [None] for the exception it throws. *)
Definition getVariantTypeName (type : Z) : option string :=
  if type <? 0 then None else nth_error kVariantTypeNames (Z.to_nat type).

Definition getVariantTypeName2 (type : Z) : string :=
  match getVariantTypeName type with Some s => s | None => "<Unknown>"%string end.

(** ** The types with a C++ numeric representation *)

Definition vt_of_ity (t : ity) : VariantType :=
  match t with
  | I8 => kInt8 | U8 => kUInt8 | I16 => kInt16 | U16 => kUInt16
  | I32 => kInt32 | U32 => kUInt32 | I64 => kInt64 | U64 => kUInt64
  end.

Definition vt_of_cty (t : cty) : VariantType :=
  match t with TInt t => vt_of_ity t | TFloat F32 => kFloat | TFloat F64 => kDouble end.

(** ** Facts *)

Lemma type_code_roundtrip t : type_of_code (type_code t) = Some t.
Proof. destruct t; reflexivity. Qed.

Lemma type_of_code_inv b t : type_of_code b = Some t -> b = type_code t.
Proof.
  unfold type_of_code. destruct (Z.ltb_spec b 0); [discriminate|]. cbn [orb].
  destruct (Z.leb_spec kVariantTypeCount b) as [|Hb]; [discriminate|]. unfold kVariantTypeCount in Hb.
  intros Ht. rewrite <- (Z2Nat.id b) by lia.
  assert (Hn : (Z.to_nat b < 23)%nat) by lia. revert Hn Ht. generalize (Z.to_nat b) as n. intros n Hn.
  do 23 (destruct n as [|n]; [intros [= <-]; reflexivity|]). lia.
Qed.

Lemma type_code_byte t : 0 <= type_code t < kVariantTypeCount.
Proof. destruct t; vm_compute; split; congruence. Qed.

(** The type an arithmetic expression announces is the C++ type of the result. *)
Lemma numeric_result_type a b : getNumericResultType (vt_of_cty a) (vt_of_cty b) =
  vt_of_cty (match a, b with
             | TInt s, TInt t => TInt (common s t)
             | _, _ => common_cty a b
             end).
Proof. destruct a as [[]|[]], b as [[]|[]]; reflexivity. Qed.

Lemma numeric_type_cty t : isNumericType t = true -> exists c, t = vt_of_cty c.
Proof.
  destruct t; try discriminate; intros _.
  1: exists (TInt I8). 2: exists (TInt U8). 3: exists (TInt I16). 4: exists (TInt U16).
  5: exists (TInt I32). 6: exists (TInt U32). 7: exists (TInt I64). 8: exists (TInt U64).
  9: exists (TFloat F32). 10: exists (TFloat F64). all: reflexivity.
Qed.
