(* ===== verification/Lob.v ===== *)
(** * Large object streams

    Models [iomgr/shared/dbengine/lob]: the [LobStream] interface, the in-memory
    streams ([StringClobStream] and [BinaryValueBlobStream], which have the same
    code on a string and on a byte vector), the wrappers that present a BLOB as
    a CLOB in hexadecimal and a CLOB as a BLOB, and the whole-value reads
    [ClobStream::readAsString] and [BlobStream::readAsBinary].

    [read] gets the memory from the buffer pointer on and the buffer size it is
    told, which may be less than the memory: a write past the size is visible,
    and one past the memory is undefined. *)

From Stdlib Require Import ZArith List Lia Bool.
From S2P Require Import Prelude.
Import ListNotations.
Open Scope Z_scope.

(** ** The interface *)

Class LobStream (S : Type) : Type := {
  getSize : S -> Z;
  getPos : S -> Z;
  read : forall {E}, S -> list Z -> Z -> outcome E (list Z * Z * S);
  rewind : S -> bool * S
}.

Definition getRemainingSize {S} `{LobStream S} (s : S) : Z := uw 32 (getSize s - getPos s).

(** ** In-memory streams *)

Record MemLob : Type := { m_content : list Z; m_size : Z; m_pos : Z }.

Definition newMemLob (content : list Z) : MemLob :=
  {| m_content := content; m_size := uw 32 (len content); m_pos := 0 |}.

(** [clone]: shares the content and starts from the beginning. *)
Definition MemLob_clone (s : MemLob) : MemLob := newMemLob (m_content s).

Definition MemLob_read {E} (s : MemLob) (mem : list Z) (bufferSize : Z) : outcome E (list Z * Z * MemLob) :=
  let remaining := uw 64 (len (m_content s) - m_pos s) in
  let outputSize := Z.min remaining bufferSize in
  if outputSize >? 0 then
    chunk <- memrd (m_content s) (m_pos s) outputSize ;;
    mem <- memwr mem 0 chunk ;;
    Ok (mem, outputSize, {| m_content := m_content s; m_size := m_size s; m_pos := uw 32 (m_pos s + outputSize) |})
  else Ok (mem, outputSize, s).

Definition MemLob_rewind (s : MemLob) : bool * MemLob :=
  (true, {| m_content := m_content s; m_size := m_size s; m_pos := 0 |}).

#[export] Instance MemLob_stream : LobStream MemLob := {
  getSize := m_size; getPos := m_pos; read := @MemLob_read; rewind := MemLob_rewind
}.

(** ** Whole-value reads *)

Inductive lob_error : Type := LobReadError.

(** The loop of both functions: reads until [available] bytes are there or the
    stream ends.  A read that returns neither an error nor zero advances, so
    [available] steps are enough. *)
Fixpoint read_loop {S} `{LobStream S} (fuel : nat) (s : S) (mem : list Z) (pos available : Z)
  : outcome lob_error (list Z * Z * S) :=
  match fuel with
  | O => Ok (mem, pos, s)
  | Datatypes.S k =>
      if pos <? available then
        '(tail, n, s') <- read s (skipn (Z.to_nat pos) mem) (available - pos) ;;
        let mem := firstn (Z.to_nat pos) mem ++ tail in
        if n <? 0 then Throw LobReadError
        else if n =? 0 then Ok (mem, pos, s')
        else read_loop k s' mem (pos + n) available
      else Ok (mem, pos, s)
  end.

(** The characters of a buffer up to the first NUL. *)
Fixpoint c_str (l : list Z) : list Z :=
  match l with
  | [] => []
  | b :: l => if b =? 0 then [] else b :: c_str l
  end.

(** [init] is what a fresh buffer holds. *)
Definition readAsString {S} `{LobStream S} (init : Z -> list Z) (s : S) (length : Z)
  : outcome lob_error (list Z * S) :=
  let available := Z.min length (getRemainingSize s) in
  if available =? 0 then Ok ([], s) else
  '(mem, pos, s') <- read_loop (Z.to_nat available) s (init (available + 1)) 0 available ;;
  mem <- memwr mem pos [0] ;;
  Ok (c_str mem, s').

Definition readAsBinary {S} `{LobStream S} (s : S) (length : Z) : outcome lob_error (list Z * S) :=
  let available := Z.min length (getRemainingSize s) in
  if available =? 0 then Ok ([], s) else
  '(mem, pos, s') <- read_loop (Z.to_nat available) s (repeat 0 (Z.to_nat available)) 0 available ;;
  Ok (if pos <? available then firstn (Z.to_nat pos) mem else mem, s').

(** ** A BLOB as a CLOB in hexadecimal *)

Definition hex_char (d : Z) : Z := if d <? 10 then 48 + d else 87 + d.
Definition hi_char (b : Z) : Z := hex_char (Z.land (Z.shiftr b 4) 0xF).
Definition lo_char (b : Z) : Z := hex_char (Z.land b 0xF).

(** The text the wrapper stands for. *)
Definition hex (l : list Z) : list Z := flat_map (fun b => [hi_char b; lo_char b]) l.

Section BlobWrapperClobStream.
Context {S : Type} `{LobStream S}.

Record BlobWrapper : Type := {
  m_blobStream : S;
  m_initialPos : Z;
  m_pendingChar : Z;   (** 0 when there is none *)
  bw_size : Z;
  bw_pos : Z
}.

Definition newBlobWrapper (s : S) : BlobWrapper :=
  {| m_blobStream := s; m_initialPos := getPos s; m_pendingChar := 0;
     bw_size := uw 32 (getRemainingSize s * 2); bw_pos := 0 |}.

Definition updatePos (w : BlobWrapper) : BlobWrapper :=
  {| m_blobStream := m_blobStream w; m_initialPos := m_initialPos w; m_pendingChar := m_pendingChar w;
     bw_size := bw_size w;
     bw_pos := uw 32 (uw 32 (uw 32 (getPos (m_blobStream w) - m_initialPos w) * 2)
                      + (if m_pendingChar w =? 0 then 0 else 1)) |}.

Definition with_blob (w : BlobWrapper) (s : S) (pending : Z) : BlobWrapper :=
  {| m_blobStream := s; m_initialPos := m_initialPos w; m_pendingChar := pending;
     bw_size := bw_size w; bw_pos := bw_pos w |}.

(** The in-place conversion: [src] and [dest] are offsets in the buffer, [stop]
    is its end.  Returns the memory, [dest] and the pending character. *)
Fixpoint hex_loop {E} (fuel : nat) (mem : list Z) (src dest stop pending : Z)
  : outcome E (list Z * Z * Z) :=
  match fuel with
  | O => Ok (mem, dest, pending)
  | Datatypes.S k =>
      if src <? stop then
        srcByte <- rd mem src ;;
        mem <- memwr mem dest [hi_char srcByte] ;;
        let dest := dest + 1 in
        if dest =? stop then Ok (mem, dest, lo_char srcByte)
        else
          mem <- memwr mem dest [lo_char srcByte] ;;
          hex_loop k mem (src + 1) (dest + 1) stop pending
      else Ok (mem, dest, pending)
  end.

Definition BlobWrapper_read {E} (w : BlobWrapper) (mem : list Z) (bufferSize : Z)
  : outcome E (list Z * Z * BlobWrapper) :=
  if bufferSize =? 0 then Ok (mem, 0, w) else
  let has_pending := negb (m_pendingChar w =? 0) in
  mem <- (if has_pending then memwr mem 0 [m_pendingChar w] else Ok mem) ;;
  let w := with_blob w (m_blobStream w) 0 in
  if has_pending && (bufferSize =? 1) then Ok (mem, 1, updatePos w) else
  let dest := if has_pending then 1 else 0 in
  let requiredInputSize := bufferSize / 2 + 1 in
  let src := bufferSize - requiredInputSize in
  '(tail, actualInputSize, s') <- read (m_blobStream w) (skipn (Z.to_nat src) mem) requiredInputSize ;;
  let mem := firstn (Z.to_nat src) mem ++ tail in
  let w := with_blob w s' 0 in
  if actualInputSize <? 1 then
    let outputSize := bufferSize - dest in
    Ok (mem, (if outputSize >? 0 then outputSize else actualInputSize), updatePos w)
  else
    let shift := requiredInputSize - actualInputSize in
    input <- memrd mem src actualInputSize ;;
    mem <- (if actualInputSize <? requiredInputSize then memwr mem (src + shift) input else Ok mem) ;;
    let src := if actualInputSize <? requiredInputSize then src + shift else src in
    '(mem, dest, pending) <- hex_loop (Z.to_nat requiredInputSize) mem src dest bufferSize 0 ;;
    Ok (mem, dest, updatePos (with_blob w s' pending)).

Definition BlobWrapper_rewind (w : BlobWrapper) : bool * BlobWrapper :=
  let '(r, s') := rewind (m_blobStream w) in
  (r, with_blob w s' (m_pendingChar w)).
End BlobWrapperClobStream.
Arguments BlobWrapper S : clear implicits.

#[export] Instance BlobWrapper_stream {S} `{LobStream S} : LobStream (BlobWrapper S) := {
  getSize := bw_size; getPos := bw_pos; read := @BlobWrapper_read S _; rewind := BlobWrapper_rewind
}.

(** ** A CLOB as a BLOB *)

Section ClobWrapperBlobStream.
Context {S : Type} `{LobStream S}.

Record ClobWrapper : Type := { m_clobStream : S; cw_initialPos : Z; cw_size : Z; cw_pos : Z }.

Definition newClobWrapper (s : S) : ClobWrapper :=
  {| m_clobStream := s; cw_initialPos := getPos s; cw_size := getRemainingSize s; cw_pos := 0 |}.

Definition ClobWrapper_read {E} (w : ClobWrapper) (mem : list Z) (bufferSize : Z)
  : outcome E (list Z * Z * ClobWrapper) :=
  '(mem, res, s') <- read (m_clobStream w) mem bufferSize ;;
  Ok (mem, res, {| m_clobStream := s'; cw_initialPos := cw_initialPos w; cw_size := cw_size w;
                   cw_pos := uw 32 (getPos s' - cw_initialPos w) |}).

Definition ClobWrapper_rewind (w : ClobWrapper) : bool * ClobWrapper :=
  let '(r, s') := rewind (m_clobStream w) in
  (r, {| m_clobStream := s'; cw_initialPos := cw_initialPos w; cw_size := cw_size w; cw_pos := cw_pos w |}).
End ClobWrapperBlobStream.
Arguments ClobWrapper S : clear implicits.

#[export] Instance ClobWrapper_stream {S} `{LobStream S} : LobStream (ClobWrapper S) := {
  getSize := cw_size; getPos := cw_pos; read := @ClobWrapper_read S _; rewind := ClobWrapper_rewind
}.

(** ** Memory *)

Lemma memwr_app {E} a b c b' i : i = len a -> len b' = len b -> @memwr E (a ++ b ++ c) i b' = Ok (a ++ b' ++ c).
Proof.
  intros -> Hb. unfold memwr. pose proof (len_nonneg a). pose proof (len_nonneg c).
  rewrite !len_app. rewrite (proj2 (Z.ltb_ge (len a) 0)), (proj2 (Z.ltb_ge _ _)) by lia. cbn [orb].
  do 2 f_equal.
  - unfold len. rewrite Nat2Z.id, firstn_app, firstn_all, Nat.sub_diag. apply app_nil_r.
  - f_equal. rewrite Hb, app_assoc, <- len_app. unfold len. rewrite Nat2Z.id.
    rewrite skipn_app, skipn_all, Nat.sub_diag. reflexivity.
Qed.

Lemma memwr_head {E} b c b' : len b' = len b -> @memwr E (b ++ c) 0 b' = Ok (b' ++ c).
Proof. exact (memwr_app [] b c b' 0 eq_refl). Qed.

(** Any list splits at any point up to its length. *)
Lemma split_at {A} (l : list A) n : 0 <= n <= len l -> exists a b, l = a ++ b /\ len a = n.
Proof.
  intros Hn. exists (firstn (Z.to_nat n) l), (skipn (Z.to_nat n) l).
  split; [symmetry; apply firstn_skipn|]. unfold len in *. rewrite length_firstn. lia.
Qed.

Lemma firstn_len_app {A} (a b : list A) n : n = len a -> firstn (Z.to_nat n) (a ++ b) = a.
Proof. intros ->. unfold len. rewrite Nat2Z.id, firstn_app, firstn_all, Nat.sub_diag. apply app_nil_r. Qed.

Lemma skipn_len_app' {A} (a b : list A) n : n = len a -> skipn (Z.to_nat n) (a ++ b) = b.
Proof. intros ->. unfold len. rewrite Nat2Z.id, skipn_app, skipn_all, Nat.sub_diag. reflexivity. Qed.

(** ** In-memory streams *)

Definition MemLob_ok (s : MemLob) : Prop :=
  m_size s = len (m_content s) /\ len (m_content s) < 2 ^ 32 /\ 0 <= m_pos s <= len (m_content s).

(** What is left to read. *)
Definition unread (s : MemLob) : list Z := skipn (Z.to_nat (m_pos s)) (m_content s).
Definition advance (s : MemLob) (n : Z) : MemLob :=
  {| m_content := m_content s; m_size := m_size s; m_pos := m_pos s + n |}.

Lemma newMemLob_ok content : len content < 2 ^ 32 -> MemLob_ok (newMemLob content).
Proof.
  intros Hl. pose proof (len_nonneg content). unfold MemLob_ok, newMemLob; cbn [m_size m_content m_pos].
  rewrite uw_small by (unfold u_ok; lia). lia.
Qed.

Lemma unread_len s : MemLob_ok s -> len (unread s) = len (m_content s) - m_pos s.
Proof. intros (_ & _ & Hp). unfold unread, len in *. rewrite length_skipn. lia. Qed.

Lemma remaining_unread s : MemLob_ok s -> getRemainingSize s = len (unread s).
Proof.
  intros Hs. rewrite unread_len by assumption. destruct Hs as (Hsz & Hl & Hp).
  unfold getRemainingSize. cbn [getSize getPos MemLob_stream]. rewrite Hsz. apply uw_small. unfold u_ok. lia.
Qed.

Lemma advance_ok s n : MemLob_ok s -> 0 <= n <= len (unread s) -> MemLob_ok (advance s n).
Proof.
  intros Hs Hn. rewrite unread_len in Hn by assumption. destruct Hs as (Hsz & Hl & Hp).
  unfold MemLob_ok, advance; cbn [m_size m_content m_pos]. lia.
Qed.

Lemma unread_advance s n : MemLob_ok s -> 0 <= n -> unread (advance s n) = skipn (Z.to_nat n) (unread s).
Proof.
  intros (_ & _ & Hp) Hn. unfold unread, advance; cbn [m_content m_pos]. rewrite skipn_skipn. f_equal. lia.
Qed.

(** A read delivers the next bytes, as many as there are and fit. *)
Lemma MemLob_read_ok {E} s chunk rest old post bufferSize : MemLob_ok s ->
  unread s = chunk ++ rest -> len chunk = Z.min (len (unread s)) bufferSize -> len old = len chunk -> 0 <= bufferSize ->
  @MemLob_read E s (old ++ post) bufferSize = Ok (chunk ++ post, len chunk, advance s (len chunk)).
Proof.
  intros Hs Hu Hc Ho Hb. pose proof (unread_len s Hs) as Hul. pose proof (len_nonneg rest).
  assert (Hcr : len (unread s) = len chunk + len rest) by (rewrite Hu; apply len_app).
  pose proof (len_nonneg chunk). destruct Hs as (Hsz & Hl & Hp).
  unfold MemLob_read. rewrite (uw_small 64) by (unfold u_ok; pow_norm; lia).
  replace (Z.min (len (m_content s) - m_pos s) bufferSize) with (len chunk) by lia.
  rewrite Z.gtb_ltb. destruct (Z.ltb_spec 0 (len chunk)) as [Hpos|Hzero].
  - rewrite <- (firstn_skipn (Z.to_nat (m_pos s)) (m_content s)) at 1. fold (unread s). rewrite Hu.
    rewrite memrd_mid; [|unfold len; rewrite length_firstn; unfold len in *; lia|reflexivity].
    cbn [bind]. rewrite memwr_head by lia. cbn [bind]. unfold advance.
    rewrite uw_small by (unfold u_ok; lia). reflexivity.
  - destruct chunk as [|b chunk]; [|rewrite len_cons in *; pose proof (len_nonneg chunk); lia].
    destruct old as [|b old]; [|rewrite len_cons, len_nil in Ho; pose proof (len_nonneg old); lia].
    unfold advance. rewrite len_nil, Z.add_0_r. now destruct s.
Qed.

(** One pass of the loop takes everything that is asked for. *)
Lemma read_loop_mem s chunk rest old post : MemLob_ok s -> unread s = chunk ++ rest ->
  0 < len chunk -> len old = len chunk ->
  read_loop (Z.to_nat (len chunk)) s (old ++ post) 0 (len chunk) =
    Ok (chunk ++ post, len chunk, advance s (len chunk)).
Proof.
  intros Hs Hu Hc Ho. pose proof (len_nonneg rest).
  destruct (Z.to_nat (len chunk)) as [|k] eqn:Hk; [lia|].
  cbn [read_loop]. rewrite (proj2 (Z.ltb_lt 0 _)) by lia.
  cbn [Z.to_nat skipn firstn app read MemLob_stream]. rewrite Z.sub_0_r.
  rewrite (MemLob_read_ok s chunk rest); try assumption; [|rewrite Hu, len_app; lia|lia].
  cbn [bind]. rewrite (proj2 (Z.ltb_ge _ 0)), (proj2 (Z.eqb_neq _ 0)) by lia. rewrite Z.add_0_l.
  destruct k; cbn [read_loop]; [reflexivity|]. now rewrite Z.ltb_irrefl.
Qed.

Lemma c_str_app l post : c_str (l ++ 0 :: post) = c_str l.
Proof. induction l as [|b l IH]; [reflexivity|]. cbn [app c_str]. now rewrite IH. Qed.

Lemma lob_read_whole_lemma s length init : MemLob_ok s -> 0 <= length -> (forall n, 0 <= n -> len (init n) = n) ->
  let n := Z.min length (len (unread s)) in
  let bytes := firstn (Z.to_nat n) (unread s) in
  readAsBinary s length = Ok (bytes, advance s n) /\
  readAsString init s length = Ok (c_str bytes, advance s n).
Proof.
  intros Hs Hl Hinit n bytes. pose proof (len_nonneg (unread s)).
  assert (Hb : len bytes = n) by (subst bytes; unfold len in *; rewrite length_firstn; lia).
  assert (Hu : unread s = bytes ++ skipn (Z.to_nat n) (unread s)) by (symmetry; apply firstn_skipn).
  unfold readAsBinary, readAsString. rewrite remaining_unread by assumption. fold n.
  destruct (Z.eqb_spec n 0) as [E0|E0].
  - replace bytes with (@nil Z) by (subst bytes; rewrite E0; reflexivity).
    unfold advance. rewrite E0, Z.add_0_r. destruct s; auto.
  - rewrite <- Hb. split.
    + rewrite <- (app_nil_r (repeat 0 _)).
      rewrite (read_loop_mem s bytes _ _ []) by (try eassumption; try lia; unfold len; rewrite repeat_length; unfold len in *; lia).
      cbn [bind]. now rewrite Z.ltb_irrefl, app_nil_r.
    + destruct (split_at (init (len bytes + 1)) (len bytes)) as (old & post & Hi & Ho); [rewrite Hinit; lia|].
      assert (Hp : len post = 1) by (pose proof (Hinit (len bytes + 1) ltac:(lia)) as Hn; rewrite Hi, len_app in Hn; lia).
      rewrite Hi, (read_loop_mem s bytes (skipn (Z.to_nat n) (unread s)) old post) by (assumption || lia).
      cbn [bind]. rewrite <- (app_nil_r post), memwr_app by (reflexivity || (rewrite Hp; reflexivity)).
      cbn [bind app]. now rewrite c_str_app.
Qed.

(** The same through the BLOB view of a CLOB. *)
Lemma clob_wrapper_read_whole s length : MemLob_ok s -> 0 <= length ->
  let n := Z.min length (len (unread s)) in
  let bytes := firstn (Z.to_nat n) (unread s) in
  exists w, readAsBinary (newClobWrapper s) length = Ok (bytes, w) /\ m_clobStream w = advance s n.
Proof.
  intros Hs Hl n bytes. pose proof (len_nonneg (unread s)).
  assert (Hb : len bytes = n) by (subst bytes; unfold len in *; rewrite length_firstn; lia).
  assert (Hrem : getRemainingSize (newClobWrapper s) = len (unread s)).
  { unfold getRemainingSize at 1. cbn [getSize getPos ClobWrapper_stream newClobWrapper cw_size cw_pos].
    rewrite Z.sub_0_r, remaining_unread by assumption. apply uw_small.
    pose proof (unread_len s Hs). destruct Hs as (_ & Hlt & Hp). unfold u_ok. lia. }
  unfold readAsBinary. rewrite Hrem. fold n. destruct (Z.eqb_spec n 0) as [E0|E0].
  - exists (newClobWrapper s). replace bytes with (@nil Z) by (subst bytes; rewrite E0; reflexivity).
    split; [reflexivity|]. unfold advance. rewrite E0, Z.add_0_r. now destruct s.
  - destruct (Z.to_nat n) as [|k] eqn:Hk; [lia|]. cbn [read_loop].
    rewrite (proj2 (Z.ltb_lt 0 n)) by lia. cbn [Z.to_nat skipn firstn app read ClobWrapper_stream].
    unfold ClobWrapper_read. cbn [m_clobStream newClobWrapper read MemLob_stream].
    rewrite Z.sub_0_r, <- (app_nil_r (repeat 0 _)).
    rewrite (MemLob_read_ok s bytes (skipn (Z.to_nat n) (unread s))); try assumption.
    + cbn [bind]. rewrite (proj2 (Z.ltb_ge _ 0)), (proj2 (Z.eqb_neq _ 0)), Hb, Z.add_0_l by lia.
      assert (Hstop : forall m (w : ClobWrapper MemLob), read_loop k w m n n = Ok (m, n, w))
        by (intros m w; destruct k; cbn [read_loop]; [reflexivity|now rewrite Z.ltb_irrefl]).
      rewrite Hstop. cbn [bind]. rewrite Z.ltb_irrefl, app_nil_r. eexists. split; reflexivity.
    + symmetry. subst bytes. rewrite Hk, <- Hk. apply firstn_skipn.
    + lia.
    + rewrite Hb. unfold len. rewrite repeat_length. lia.
    + lia.
Qed.

(** reading a whole in-memory object returns the bytes from the current
    position on, as many as asked for and present, and moves past them; as a
    CLOB the text additionally stops at the first NUL character, and a BLOB view
    of a CLOB gives the bytes of the CLOB. *)
Theorem lob_read_whole s length init : MemLob_ok s -> 0 <= length -> (forall n, 0 <= n -> len (init n) = n) ->
  let n := Z.min length (len (unread s)) in
  let bytes := firstn (Z.to_nat n) (unread s) in
  readAsBinary s length = Ok (bytes, advance s n) /\
  readAsString init s length = Ok (c_str bytes, advance s n) /\
  exists w, readAsBinary (newClobWrapper s) length = Ok (bytes, w) /\ m_clobStream w = advance s n.
Proof.
  intros Hs Hl Hinit n bytes.
  destruct (lob_read_whole_lemma s length init Hs Hl Hinit) as [Hb Ht].
  split; [exact Hb|]. split; [exact Ht|]. now apply clob_wrapper_read_whole.
Qed.

Lemma lob_read_whole_witness :
  readAsString (fun n => repeat 0xEE (Z.to_nat n)) (advance (newMemLob [65; 66; 67; 0; 68]) 1) 10 =
    Ok ([66; 67], advance (newMemLob [65; 66; 67; 0; 68]) 5).
Proof.
  refine (proj1 (proj2 (lob_read_whole (advance (newMemLob [65; 66; 67; 0; 68]) 1) 10 (fun n => repeat 0xEE (Z.to_nat n)) _ _ _))).
  - repeat split; vm_compute; (reflexivity || discriminate).
  - lia.
  - intros n Hn. unfold len. rewrite repeat_length. lia.
Defined.

(** ** The hexadecimal wrapper *)

Lemma len_hex l : len (hex l) = 2 * len l.
Proof.
  induction l as [|b l IH]; [reflexivity|]. cbn [hex flat_map app]. fold (hex l). rewrite !len_cons, IH. lia.
Qed.

(** Two characters written over the front of the gap leave a gap one shorter. *)
Lemma gap_step (gap : list Z) b : 1 <= len gap -> exists x y gap', gap ++ [b] = x :: y :: gap' /\ len gap' = len gap - 1.
Proof.
  intros Hg. destruct gap as [|x [|y gap]].
  - rewrite len_nil in Hg. lia.
  - exists x, b, []. split; reflexivity.
  - exists x, y, (gap ++ [b]). split; [reflexivity|]. rewrite len_app, !len_cons, len_nil. lia.
Qed.

(** The conversion is right as long as the input starts at least its own length
    behind the output. *)
Lemma hex_loop_ok {E} input : forall fuel done gap post, (length input <= fuel)%nat -> len input <= len gap ->
  exists gap', len gap' = len gap - len input /\
  @hex_loop E fuel (done ++ gap ++ input ++ post) (len done + len gap) (len done)
      (len done + len gap + len input) 0 =
    Ok (done ++ hex input ++ gap' ++ post, len done + 2 * len input, 0).
Proof.
  induction input as [|b input IH]; intros fuel done gap post Hf Hg.
  - exists gap. rewrite len_nil, Z.add_0_r. split; [lia|].
    destruct fuel; cbn [hex_loop]; [|rewrite Z.ltb_irrefl]; do 3 f_equal; lia.
  - destruct fuel as [|fuel]; [cbn in Hf; lia|]. cbn [hex_loop]. rewrite len_cons in *. pose proof (len_nonneg input).
    rewrite (proj2 (Z.ltb_lt _ _)) by lia.
    assert (Hrd : @rd E (done ++ gap ++ (b :: input) ++ post) (len done + len gap) = Ok b).
    { rewrite (app_assoc done). rewrite <- len_app, <- (Z.add_0_r (len (done ++ gap))).
      rewrite rd_app_r by lia. apply rd_cons_0. }
    rewrite Hrd. cbn [bind].
    destruct (gap_step gap b) as (x & y & gap1 & Hgap & Hg1); [lia|].
    assert (Hm : done ++ gap ++ (b :: input) ++ post = done ++ [x] ++ (y :: gap1 ++ input ++ post)).
    { f_equal. change (b :: input) with ([b] ++ input). rewrite <- app_assoc, (app_assoc gap), Hgap. reflexivity. }
    rewrite Hm, memwr_app by reflexivity. cbn [bind].
    rewrite (proj2 (Z.eqb_neq _ _)) by lia.
    change (y :: gap1 ++ input ++ post) with ([y] ++ gap1 ++ input ++ post).
    rewrite (app_assoc done), memwr_app by (rewrite ?len_app; reflexivity). cbn [bind].
    destruct (IH fuel ((done ++ [hi_char b]) ++ [lo_char b]) gap1 post) as (gap2 & Hg2 & Heq); [cbn in Hf; lia|lia|].
    exists gap2. split; [lia|].
    rewrite !len_app, !len_cons, !len_nil in Heq.
    replace (len done + (1 + 0) + (1 + 0) + len gap1) with (len done + len gap + 1) in Heq by lia.
    replace (len done + (1 + 0) + (1 + 0)) with (len done + 1 + 1) in Heq by lia.
    replace (len done + len gap + 1 + len input) with (len done + len gap + (1 + len input)) in Heq by lia.
    rewrite <- app_assoc in Heq |- *. rewrite <- (app_assoc done) in Heq. cbn [app] in Heq |- *.
    rewrite Heq. do 3 f_equal; [|lia].
    cbn [hex flat_map app]. fold (hex input). rewrite <- !app_assoc. reflexivity.
Qed.

(** A read with room for everything that is left delivers the whole text. *)
Lemma BlobWrapper_read_all {E} s mem : MemLob_ok s -> 0 < len (unread s) -> 2 * len (unread s) <= len mem ->
  exists tail, 2 * len (unread s) + len tail = len mem /\
  @BlobWrapper_read MemLob _ E (newBlobWrapper s) mem (2 * len (unread s)) =
    Ok (hex (unread s) ++ tail, 2 * len (unread s),
        updatePos (with_blob (newBlobWrapper s) (advance s (len (unread s))) 0)).
Proof.
  intros Hs Hr Hm. set (r := len (unread s)) in *. unfold BlobWrapper_read.
  rewrite (proj2 (Z.eqb_neq (2 * r) 0)) by lia.
  change (m_pendingChar (newBlobWrapper s)) with 0. cbn [Z.eqb negb andb bind].
  assert (Hreq : 2 * r / 2 + 1 = r + 1) by (rewrite Z.mul_comm, Z.div_mul; lia). rewrite Hreq.
  replace (2 * r - (r + 1)) with (r - 1) by lia.
  destruct (split_at mem (r - 1)) as (a & m1 & -> & Ha); [lia|]. rewrite len_app in Hm.
  destruct (split_at m1 r) as (old & m2 & -> & Ho); [lia|]. rewrite len_app in Hm.
  destruct (split_at m2 1) as (last & post & -> & Hlast); [lia|].
  rewrite skipn_len_app', firstn_len_app by lia. cbn [read MemLob_stream m_blobStream newBlobWrapper with_blob].
  rewrite (MemLob_read_ok s (unread s) []) by (rewrite ?app_nil_r; assumption || reflexivity || fold r; lia).
  cbn [bind]. fold r. rewrite (proj2 (Z.ltb_ge r 1)) by lia.
  rewrite memrd_mid by (lia || reflexivity). cbn [bind].
  rewrite (proj2 (Z.ltb_lt r (r + 1))) by lia.
  replace (r - 1 + (r + 1 - r)) with r by lia.
  (* [unread s] moves up by one place *)
  destruct (split_at (unread s ++ last) 1) as (u0 & u1 & Hu & Hu0).
  { rewrite len_app. pose proof (len_nonneg last). fold r. lia. }
  assert (Hu1 : len u1 = r) by (pose proof (f_equal len Hu) as Hl; rewrite !len_app in Hl; fold r in Hl; lia).
  rewrite (app_assoc (unread s)), Hu, <- app_assoc, (app_assoc a u0).
  rewrite memwr_app by (rewrite ?len_app; fold r; lia). cbn [bind].
  destruct (@hex_loop_ok E (unread s) (Z.to_nat (r + 1)) [] (a ++ u0) post) as (gap' & Hg' & Heq).
  { subst r. unfold len. lia. }
  { rewrite len_app. fold r. lia. }
  rewrite len_nil, len_app in Heq. cbn [app] in Heq. fold r in Heq, Hg'.
  replace (0 + (len a + len u0)) with r in Heq by lia. replace (r + r) with (2 * r) in Heq by lia.
  rewrite Heq. cbn [bind]. exists (gap' ++ post). split; [|reflexivity].
  rewrite len_app in Hg'. rewrite !len_app. lia.
Qed.

Lemma c_str_nonzero l : Forall (fun b => b <> 0) l -> c_str l = l.
Proof. induction 1 as [|b l Hb Hl IH]; [reflexivity|]. cbn [c_str]. rewrite (proj2 (Z.eqb_neq b 0) Hb). now rewrite IH. Qed.

Lemma hex_char_nonzero d : 0 <= d -> hex_char d <> 0.
Proof. unfold hex_char. zcases; lia. Qed.

Lemma hex_nonzero l : Forall (fun b => b <> 0) (hex l).
Proof.
  induction l as [|b l IH]; [constructor|]. cbn [hex flat_map app]. fold (hex l).
  repeat constructor; try exact IH; apply hex_char_nonzero; apply Z.land_nonneg; lia.
Qed.

(** reading the hexadecimal view of a BLOB as one string gives the two
    lower-case digits of each of its remaining bytes and leaves the BLOB read
    to its end, for every BLOB of less than 2^31 bytes. *)
Theorem blob_as_hex_text s init : MemLob_ok s -> 2 * len (unread s) < 2 ^ 32 ->
  (forall n, 0 <= n -> len (init n) = n) ->
  exists w, readAsString init (newBlobWrapper s) (bw_size (newBlobWrapper s)) = Ok (hex (unread s), w) /\
    (unread s <> [] -> m_blobStream w = advance s (len (unread s))).
Proof.
  intros Hs Hr Hinit. pose proof (len_nonneg (unread s)).
  assert (Hsz : bw_size (newBlobWrapper s) = 2 * len (unread s)).
  { cbn [bw_size newBlobWrapper]. rewrite remaining_unread by assumption.
    rewrite uw_small by (unfold u_ok; lia). lia. }
  assert (Hrem : getRemainingSize (newBlobWrapper s) = 2 * len (unread s)).
  { unfold getRemainingSize. cbn [getSize getPos BlobWrapper_stream]. rewrite Hsz.
    change (bw_pos (newBlobWrapper s)) with 0. rewrite Z.sub_0_r. apply uw_small. unfold u_ok; lia. }
  unfold readAsString. rewrite Hrem, Hsz, Z.min_id.
  set (r := len (unread s)) in *. destruct (Z.eqb_spec (2 * r) 0) as [E0|E0].
  - assert (Hnil : unread s = []) by (destruct (unread s) as [|b l]; [reflexivity|]; subst r; rewrite len_cons in *; pose proof (len_nonneg l); lia).
    rewrite Hnil. eexists. split; [reflexivity|]. congruence.
  - destruct (Z.to_nat (2 * r)) as [|k] eqn:Hk; [lia|]. cbn [read_loop].
    rewrite (proj2 (Z.ltb_lt 0 (2 * r))) by lia. cbn [Z.to_nat skipn firstn app read BlobWrapper_stream].
    rewrite Z.sub_0_r. pose proof (Hinit (2 * r + 1) ltac:(lia)) as Hil.
    destruct (@BlobWrapper_read_all lob_error s (init (2 * r + 1)) Hs) as (tail & Ht & Heq); [fold r; lia..|].
    fold r in Ht, Heq. rewrite Heq. cbn [bind].
    rewrite (proj2 (Z.ltb_ge (2 * r) 0)), (proj2 (Z.eqb_neq (2 * r) 0)), Z.add_0_l by lia.
    assert (Hstop : forall m (w : BlobWrapper MemLob), read_loop k w m (2 * r) (2 * r) = Ok (m, 2 * r, w))
      by (intros m w; destruct k; cbn [read_loop]; [reflexivity|now rewrite Z.ltb_irrefl]).
    rewrite Hstop. cbn [bind].
    rewrite <- (app_nil_r tail), memwr_app by (rewrite ?len_hex; unfold len in *; cbn [length]; lia).
    cbn [bind app]. rewrite c_str_app, c_str_nonzero by apply hex_nonzero.
    eexists. split; [reflexivity|]. intros _. reflexivity.
Qed.

Lemma blob_as_hex_text_witness :
  exists w, readAsString (fun n => repeat 0xEE (Z.to_nat n)) (newBlobWrapper (newMemLob [0x1; 0xAB; 0])) 6
    = Ok ([48; 49; 97; 98; 48; 48], w).
Proof.
  destruct (blob_as_hex_text (newMemLob [0x1; 0xAB; 0]) (fun n => repeat 0xEE (Z.to_nat n))) as (w & Hw & _).
  - repeat split; vm_compute; (reflexivity || discriminate).
  - reflexivity.
  - intros n Hn. unfold len. rewrite repeat_length. lia.
  - exists w. exact Hw.
Defined.

Lemma memwr1_in {E} mem i b : 0 <= i < len mem -> exists mem', @memwr E mem i [b] = Ok mem' /\ len mem' = len mem.
Proof.
  intros Hi. destruct (split_at mem i) as (a & m1 & -> & Ha); [lia|]. rewrite len_app in *.
  destruct (split_at m1 1) as (o & c & -> & Ho); [lia|]. exists (a ++ [b] ++ c).
  split; [apply memwr_app; [lia|rewrite Ho; reflexivity]|]. rewrite !len_app, Ho. reflexivity.
Qed.

(** An output buffer of even size whose input has one byte too many is overrun. *)
Lemma hex_loop_overrun {E} j : forall fuel mem src dest stop pending,
  (j < fuel)%nat -> len mem = stop -> 0 <= dest -> 0 <= src ->
  stop - dest = 2 * Z.of_nat j -> stop - src = Z.of_nat j + 1 ->
  @hex_loop E fuel mem src dest stop pending = Undef OutOfBounds.
Proof.
  induction j as [|j IH]; intros [|fuel] mem src dest stop pending Hf Hm Hd Hs0 Hsd Hss; try lia; cbn [hex_loop];
    rewrite (proj2 (Z.ltb_lt src stop)) by lia;
    destruct (@rd_in_range E mem src) as (b & -> & _); try lia; cbn [bind].
  - unfold memwr. change (len [hi_char b]) with 1. rewrite (proj2 (Z.ltb_lt (len mem) (dest + 1))) by lia.
    now rewrite orb_true_r.
  - destruct (@memwr1_in E mem dest (hi_char b)) as (m1 & -> & H1); [lia|]. cbn [bind].
    rewrite (proj2 (Z.eqb_neq (dest + 1) stop)) by lia.
    destruct (@memwr1_in E m1 (dest + 1) (lo_char b)) as (m2 & -> & H2); [lia|]. cbn [bind].
    apply IH; lia.
Qed.

(** the hexadecimal view must not be read in pieces.  A read into a buffer
    of even size, while more than half that many bytes are left in the BLOB,
    writes past the end of the buffer; a read when none is left reports the whole
    buffer as filled without storing anything in it. *)
Theorem blob_hex_chunked s mem k : MemLob_ok s -> len mem = 2 * Z.of_nat k -> (0 < k)%nat ->
  (Z.of_nat k < len (unread s) ->
    @read (BlobWrapper MemLob) _ Empty_set (newBlobWrapper s) mem (len mem) = Undef OutOfBounds) /\
  (unread s = [] -> exists w,
    @read (BlobWrapper MemLob) _ Empty_set (newBlobWrapper s) mem (len mem) = Ok (mem, len mem, w)).
Proof.
  intros Hs Hm Hk. cbn [read BlobWrapper_stream]. unfold BlobWrapper_read.
  rewrite (proj2 (Z.eqb_neq (len mem) 0)) by lia.
  change (m_pendingChar (newBlobWrapper s)) with 0. cbn [Z.eqb negb andb bind].
  assert (Hreq : len mem / 2 + 1 = Z.of_nat k + 1) by (rewrite Hm, Z.mul_comm, Z.div_mul; lia). rewrite Hreq.
  replace (len mem - (Z.of_nat k + 1)) with (Z.of_nat k - 1) by lia.
  cbn [read MemLob_stream m_blobStream newBlobWrapper with_blob].
  destruct (split_at mem (Z.of_nat k - 1)) as (a & old & -> & Ha); [lia|]. rewrite len_app in Hm.
  rewrite skipn_len_app', firstn_len_app by lia. split.
  - intros Hr. destruct (split_at (unread s) (Z.of_nat k + 1)) as (chunk & rest & Hu & Hc); [lia|].
    rewrite <- (app_nil_r old), (MemLob_read_ok s chunk rest) by (assumption || lia).
    cbn [bind]. rewrite app_nil_r, Hc, (proj2 (Z.ltb_ge (Z.of_nat k + 1) 1)), Z.ltb_irrefl by lia.
    pose proof (@memrd_mid Empty_set a chunk [] (Z.of_nat k - 1) (Z.of_nat k + 1)) as Hrd.
    rewrite app_nil_r in Hrd. rewrite Hrd by lia. cbn [bind].
    rewrite (hex_loop_overrun k); [reflexivity|rewrite ?app_nil_r, ?len_app; lia..].
  - intros Hnil. pose proof (@MemLob_read_ok Empty_set s [] [] [] old (Z.of_nat k + 1) Hs Hnil) as Hread.
    rewrite Hnil, len_nil in Hread. cbn [app] in Hread. rewrite Hread by (reflexivity || lia).
    cbn [bind Z.ltb Z.compare Pos.compare Pos.compare_cont]. rewrite Z.sub_0_r, Z.gtb_ltb, (proj2 (Z.ltb_lt 0 _)) by (rewrite len_app; lia).
    eexists. reflexivity.
Qed.

Lemma blob_hex_chunked_witness :
  @read (BlobWrapper MemLob) _ Empty_set (newBlobWrapper (newMemLob [1; 2; 3])) [0; 0] 2 = Undef OutOfBounds.
Proof.
  refine (proj1 (blob_hex_chunked (newMemLob [1; 2; 3]) [0; 0] 1 _ _ _) _).
  - repeat split; vm_compute; (reflexivity || discriminate).
  - reflexivity.
  - lia.
  - reflexivity.
Defined.
