(* ===== verification/Variant.v ===== *)
(** * Variants: values of the engine

    Models the data of [iomgr/shared/dbengine/Variant.h], the copy and reset
    operations of [Variant_Init.cpp] and [Variant_Common.cpp], and
    [Variant_Serialization.cpp].  A variant is its type and the active member of
    the union; the numeric members are [cnum]s.  The LOB members are in-memory
    streams, which is what deserialization creates. *)

From Stdlib Require Import ZArith List Lia Bool SpecFloat.
From S2P Require Import Prelude VarInt PlainBinary Codec CNum RawDateTime VariantType Lob.
Import ListNotations.
Open Scope Z_scope.

Inductive Variant : Type :=
| VNull
| VBool (b : bool)
| VNum (n : cnum)
| VDateTime (dt : RawDateTime)
| VString (s : list Z)
| VBinary (b : list Z)
| VClob (l : MemLob)
| VBlob (l : MemLob).

Definition getValueType (v : Variant) : VariantType :=
  match v with
  | VNull => kNull
  | VBool _ => kBool
  | VNum n => vt_of_cty (type_of_cnum n)
  | VDateTime _ => kDateTime
  | VString _ => kString
  | VBinary _ => kBinary
  | VClob _ => kClob
  | VBlob _ => kBlob
  end.

Definition isNull (v : Variant) : bool := VariantType_eqb (getValueType v) kNull.
Definition isString (v : Variant) : bool := VariantType_eqb (getValueType v) kString.
Definition isBool (v : Variant) : bool := VariantType_eqb (getValueType v) kBool.
Definition isNumeric (v : Variant) : bool := isNumericType (getValueType v).
Definition isInteger (v : Variant) : bool := isIntegerType (getValueType v).

(** The exceptions of [Variant_Error.h]. *)
Inductive VariantError : Type :=
| VariantTypeCastError (sourceValueType destValueType : VariantType)
| WrongVariantTypeError (sourceValueType : VariantType)
| LobTooLong (size : Z)
| ZeroLength
| InvalidDataType (b : Z)
| CorruptValue (t : VariantType)
| NotEnoughDataForValue (t : VariantType) (length : Z)
| DeserializationNotSupported (t : VariantType)
| ObjectError (e : DeserializationError)
| Utf8Error
| StdInvalidArgument.

(** Values the representation can hold. *)
Definition Variant_ok (v : Variant) : Prop :=
  match v with
  | VNull | VBool _ => True
  | VNum n => cnum_ok n = true
  | VDateTime dt => RawDateTime_ok dt
  | VString s | VBinary s => bytes_ok s /\ len s < 2 ^ 64
  | VClob l | VBlob l => MemLob_ok l /\ bytes_ok (m_content l)
  end.

(** The copy constructor: LOB members are cloned, which rewinds them. *)
Definition copy (v : Variant) : Variant :=
  match v with
  | VClob l => VClob (MemLob_clone l)
  | VBlob l => VBlob (MemLob_clone l)
  | v => v
  end.

Definition clear (v : Variant) : Variant := VNull.

(** The assignment [*this = src] and the move assignment, as the pair of the
    target and the source after them. *)
Definition assign (this src : Variant) : Variant * Variant := (copy src, src).
Definition move_assign (this src : Variant) : Variant * Variant := (src, clear this).

(** ** Serialization *)

Definition kMaxStringValueLength : Z := 0xffff.
Definition kMaxBinaryValueLength : Z := 0xffff.

(** The overload of the integer codecs for a type of 16 bits or more. *)
Definition width_of (t : ity) : width :=
  match t with I8 | U8 | I16 | U16 => W16 | I32 | U32 => W32 | I64 | U64 => W64 end.

Definition lob_serialized_size (limit : Z) (l : MemLob) : Z :=
  if getSize l >? limit then 2 else getVarIntSize false W32 (getSize l) + getSize l + 1.

Definition getSerializedSize (v : Variant) : Z :=
  match v with
  | VBool _ | VNum (CI I8 _) | VNum (CI U8 _) => 2
  | VNum (CI t z) => getVarIntSize (signed t) (width_of t) z + 1
  | VNum (CF F32 _) => 5
  | VNum (CF F64 _) => 9
  | VDateTime dt => RawDateTime.getSerializedSize dt + 1
  | VString s | VBinary s => getSerializedSize_string s + 1
  | VClob l => lob_serialized_size kMaxStringValueLength l
  | VBlob l => lob_serialized_size kMaxBinaryValueLength l
  | VNull => 1
  end.

(** [while (remaining > 0) { actual = read(buffer, remaining); ... }]; a stream
    that stops early would keep the loop going. *)
Fixpoint lob_copy_loop (fuel : nat) (l : MemLob) (remaining : Z) (acc : list Z)
  : outcome VariantError (list Z * MemLob) :=
  if remaining >? 0 then
    match fuel with
    | O => Undef NoProgress
    | S k =>
        '(mem, actual, l') <- read l (repeat 0 (Z.to_nat remaining)) remaining ;;
        lob_copy_loop k l' (remaining - actual) (acc ++ firstn (Z.to_nat actual) mem)
    end
  else Ok (acc, l).

Definition serialize_lob (limit : Z) (l : MemLob) : outcome VariantError (list Z * MemLob) :=
  if getSize l >? limit then Throw (LobTooLong (getSize l)) else
  let l := snd (rewind l) in
  '(content, l') <- lob_copy_loop (Z.to_nat (getSize l) + 1) l (getSize l) [] ;;
  Ok (encodeVarInt false W32 (getSize l) ++ content, snd (rewind l')).

(** The bytes written and the variant after the call: only the position of a LOB
    changes. *)
Definition serializeUnchecked (v : Variant) : outcome VariantError (list Z * Variant) :=
  let tag := type_code (getValueType v) in
  match v with
  | VNull => Ok ([tag], v)
  | VBool b => Ok ([tag; if b then 1 else 0], v)
  | VNum (CI I8 z) | VNum (CI U8 z) => Ok ([tag; uw 8 z], v)
  | VNum (CI t z) => Ok (tag :: encodeVarInt (signed t) (width_of t) z, v)
  | VNum (CF F32 x) => Ok (tag :: pbeEncodeFloat (float_bits F32 x), v)
  | VNum (CF F64 x) => Ok (tag :: pbeEncodeDouble (float_bits F64 x), v)
  | VDateTime dt => Ok (tag :: RawDateTime.serialize dt, v)
  | VString s | VBinary s => Ok (tag :: serializeUnchecked_string s, v)
  | VClob l => '(bytes, l') <- serialize_lob kMaxStringValueLength l ;; Ok (tag :: bytes, VClob l')
  | VBlob l => '(bytes, l') <- serialize_lob kMaxBinaryValueLength l ;; Ok (tag :: bytes, VBlob l')
  end.

(** ** Deserialization *)

Definition map_error {E E' A} (f : E -> E') (c : outcome E A) : outcome E' A :=
  match c with Ok a => Ok a | Throw e => Throw (f e) | Undef u => Undef u end.

(** The six integer cases: [buffer] is past the type byte, [length] is not. *)
Definition deserialize_int (t : ity) (buffer : list Z) (length : Z) : outcome VariantError (Variant * Z) :=
  d <- lift (decodeVarInt (signed t) (width_of t) buffer length) ;;
  match d with
  | Corrupt => Throw (CorruptValue (vt_of_ity t))
  | NotEnoughData => Throw (NotEnoughDataForValue (vt_of_ity t) length)
  | Consumed consumed v => Ok (VNum (CI t v), consumed + 1)
  end.

(** [dt] is the date-time object before it is read, whose fields the default
    constructor leaves as they are. *)
Definition deserialize (dt : RawDateTime) (buffer : list Z) (length : Z) : outcome VariantError (Variant * Z) :=
  if length =? 0 then Throw ZeroLength else
  b <- rd buffer 0 ;;
  let buffer := tl buffer in
  match type_of_code b with
  | None => Throw (InvalidDataType b)
  | Some kNull => Ok (VNull, 1)
  | Some kBool => x <- rd buffer 0 ;; Ok (VBool (negb (x =? 0)), 2)
  | Some kInt8 => x <- rd buffer 0 ;; Ok (VNum (CI I8 (conv I8 x)), 2)
  | Some kUInt8 => x <- rd buffer 0 ;; Ok (VNum (CI U8 x), 2)
  | Some kInt16 => deserialize_int I16 buffer length
  | Some kUInt16 => deserialize_int U16 buffer length
  | Some kInt32 => deserialize_int I32 buffer length
  | Some kUInt32 => deserialize_int U32 buffer length
  | Some kInt64 => deserialize_int I64 buffer length
  | Some kUInt64 => deserialize_int U64 buffer length
  | Some kFloat =>
      if length <? 4 then Throw (NotEnoughDataForValue kFloat length) else
      x <- pbeDecodeFloat buffer ;; Ok (VNum (CF F32 (bits_float F32 x)), 5)
  | Some kDouble =>
      if length <? 8 then Throw (NotEnoughDataForValue kDouble length) else
      x <- pbeDecodeDouble buffer ;; Ok (VNum (CF F64 (bits_float F64 x)), 9)
  | Some kDateTime =>
      '(dt, consumed) <- RawDateTime.deserialize dt buffer length ;;
      if consumed =? 0 then Throw (NotEnoughDataForValue kDateTime length)
      else Ok (VDateTime dt, consumed + 1)
  | Some kString =>
      '(s, consumed) <- map_error ObjectError (deserializeObject_string buffer length) ;; Ok (VString s, consumed + 1)
  | Some kBinary =>
      '(s, consumed) <- map_error ObjectError (deserializeObject_string buffer length) ;; Ok (VBinary s, consumed + 1)
  | Some kClob =>
      '(s, consumed) <- map_error ObjectError (deserializeObject_string buffer length) ;;
      Ok (VClob (newMemLob s), consumed + 1)
  | Some kBlob =>
      '(s, consumed) <- map_error ObjectError (deserializeObject_string buffer length) ;;
      Ok (VBlob (newMemLob s), consumed + 1)
  | Some t => Throw (DeserializationNotSupported t)
  end.

(** ** What is read back *)

Definition rewound (l : MemLob) : MemLob := snd (rewind l).

Definition canon (v : Variant) : Variant :=
  match v with
  | VDateTime dt => VDateTime (canonical dt)
  | VClob l => VClob (rewound l)
  | VBlob l => VBlob (rewound l)
  | v => v
  end.

(** LOBs that may be serialized at all. *)
Definition serializable (v : Variant) : Prop :=
  match v with
  | VClob l => getSize l <= kMaxStringValueLength
  | VBlob l => getSize l <= kMaxBinaryValueLength
  | _ => True
  end.

(** What must follow an integer in the buffer, from [VarInt]. *)
Definition followed_by (v : Variant) (rest : list Z) : Prop :=
  match v with
  | VNum (CI I8 _) | VNum (CI U8 _) => True
  | VNum (CI t z) => decodable (width_of t) (encodeVarInt (signed t) (width_of t) z) rest
  | _ => True
  end.

Lemma rewound_ok l : MemLob_ok l -> MemLob_ok (rewound l) /\ unread (rewound l) = m_content l.
Proof.
  intros (H1 & H2 & H3). split; [|reflexivity]. pose proof (len_nonneg (m_content l)).
  unfold MemLob_ok, rewound; cbn. lia.
Qed.

Lemma rewound_new l : MemLob_ok l -> newMemLob (m_content l) = rewound l.
Proof.
  intros (H1 & H2 & H3). unfold newMemLob, rewound; cbn. pose proof (len_nonneg (m_content l)).
  rewrite uw_small, H1 by (unfold u_ok; lia). reflexivity.
Qed.

Lemma lob_copy_whole l : MemLob_ok l ->
  lob_copy_loop (Z.to_nat (getSize l) + 1) (rewound l) (getSize l) [] =
    Ok (m_content l, advance (rewound l) (len (m_content l))).
Proof.
  intros Hl. destruct (rewound_ok l Hl) as [Hr Hu]. destruct Hl as (Hsz & Hlen & Hpos).
  cbn [getSize MemLob_stream]. rewrite Hsz. rewrite Nat.add_1_r. cbn [lob_copy_loop].
  rewrite Z.gtb_ltb. destruct (Z.ltb_spec 0 (len (m_content l))) as [Hp|Hz].
  - cbn [read MemLob_stream]. rewrite <- (app_nil_r (repeat 0 _)).
    rewrite (MemLob_read_ok (rewound l) (m_content l) []); [|assumption|now rewrite Hu, app_nil_r| | |lia].
    2: now rewrite Hu, Z.min_id.
    2: unfold len; rewrite repeat_length; unfold len in *; lia.
    cbn [bind]. rewrite Z.sub_diag, app_nil_r, firstn_len.
    destruct (Z.to_nat (len (m_content l))); reflexivity.
  - pose proof (len_nonneg (m_content l)). destruct (m_content l) as [|b t] eqn:E.
    + unfold advance, rewound. cbn. now rewrite E.
    + rewrite len_cons in *. pose proof (len_nonneg t). lia.
Qed.

Lemma serialize_lob_ok limit l : MemLob_ok l -> getSize l <= limit ->
  serialize_lob limit l = Ok (serializeUnchecked_string (m_content l), rewound l).
Proof.
  intros Hl Hs. unfold serialize_lob. rewrite Z.gtb_ltb, (proj2 (Z.ltb_ge limit _)) by assumption.
  change (getSize (snd (rewind l))) with (getSize l). change (snd (rewind l)) with (rewound l).
  rewrite lob_copy_whole by assumption. cbn [bind].
  destruct Hl as (Hsz & Hlen & Hpos). pose proof (len_nonneg (m_content l)).
  unfold serializeUnchecked_string. cbn [getSize MemLob_stream]. rewrite Hsz, !encodeVarUInt_eq.
  rewrite (encode_loop_fuel (max_iter W32) (max_iter W64)); [reflexivity| |cbn; lia].
  apply (fits_max_iter W32). unfold u_ok; cbn; lia.
Qed.

Lemma in_ity_int_ok t z : t <> I8 -> t <> U8 -> in_ity t z = true -> int_ok (signed t) (width_of t) z.
Proof. intros H1 H2. rewrite in_ity_spec. destruct t; cbn; try congruence; auto. Qed.

Lemma deserialize_int_ok t z rest : t <> I8 -> t <> U8 -> in_ity t z = true -> bytes_ok rest ->
  decodable (width_of t) (encodeVarInt (signed t) (width_of t) z) rest ->
  let enc := encodeVarInt (signed t) (width_of t) z in
  deserialize_int t (enc ++ rest) (len (enc ++ rest)) = Ok (VNum (CI t z), len enc + 1).
Proof.
  intros H1 H2 Hz Hr Hd enc. unfold deserialize_int, enc.
  rewrite decodeVarInt_encode by (assumption || now apply in_ity_int_ok). reflexivity.
Qed.

Lemma int8_conv t z : t = I8 \/ t = U8 -> in_ity t z = true -> conv t (uw 8 z) = z /\ byte_ok (uw 8 z).
Proof.
  intros Ht Hz. split; [|apply uw_range; lia]. apply in_ity_spec in Hz. destruct Ht; subst t; cbn in *.
  - unfold conv; cbn. now rewrite sw_of_uw_small by (assumption || lia).
  - unfold conv; cbn. now rewrite !uw_small by (rewrite ?uw_small; assumption).
Qed.

Lemma tag_byte v : byte_ok (type_code (getValueType v)).
Proof. pose proof (type_code_byte (getValueType v)). unfold kVariantTypeCount in *. unfold byte_ok. lia. Qed.

(** The common part of every case: the type byte is read and dropped. *)
Lemma deserialize_tag dt t body length : 0 < length ->
  deserialize dt (type_code t :: body) length =
  match t with
  | kNull => Ok (VNull, 1)
  | kBool => x <- rd body 0 ;; Ok (VBool (negb (x =? 0)), 2)
  | kInt8 => x <- rd body 0 ;; Ok (VNum (CI I8 (conv I8 x)), 2)
  | kUInt8 => x <- rd body 0 ;; Ok (VNum (CI U8 x), 2)
  | kInt16 => deserialize_int I16 body length
  | kUInt16 => deserialize_int U16 body length
  | kInt32 => deserialize_int I32 body length
  | kUInt32 => deserialize_int U32 body length
  | kInt64 => deserialize_int I64 body length
  | kUInt64 => deserialize_int U64 body length
  | kFloat =>
      if length <? 4 then Throw (NotEnoughDataForValue kFloat length) else
      x <- pbeDecodeFloat body ;; Ok (VNum (CF F32 (bits_float F32 x)), 5)
  | kDouble =>
      if length <? 8 then Throw (NotEnoughDataForValue kDouble length) else
      x <- pbeDecodeDouble body ;; Ok (VNum (CF F64 (bits_float F64 x)), 9)
  | kDateTime =>
      '(dt, consumed) <- RawDateTime.deserialize dt body length ;;
      if consumed =? 0 then Throw (NotEnoughDataForValue kDateTime length)
      else Ok (VDateTime dt, consumed + 1)
  | kString | kBinary | kClob | kBlob =>
      '(s, consumed) <- map_error ObjectError (deserializeObject_string body length) ;;
      Ok (match t with
          | kString => VString s | kBinary => VBinary s
          | kClob => VClob (newMemLob s) | _ => VBlob (newMemLob s)
          end, consumed + 1)
  | t => Throw (DeserializationNotSupported t)
  end.
Proof.
  intros Hl. unfold deserialize. rewrite (proj2 (Z.eqb_neq length 0)) by lia. rewrite rd_cons_0. cbn [bind tl].
  rewrite type_code_roundtrip. destruct t; reflexivity.
Qed.

(** Strings, binary values and both kinds of LOB share their encoding. *)
Lemma deserialize_bytes_ok s rest : bytes_ok s -> len s < 2 ^ 64 -> bytes_ok rest ->
  map_error ObjectError (deserializeObject_string (serializeUnchecked_string s ++ rest) (len (serializeUnchecked_string s ++ rest))) =
    Ok (s, len (serializeUnchecked_string s)).
Proof. intros Hs Hl Hr. now rewrite string_des_ser. Qed.

Lemma serialize_string_bytes s : bytes_ok s -> len s < 2 ^ 64 -> bytes_ok (serializeUnchecked_string s).
Proof. intros Hs Hl. now apply (ser_bytes (C := string_codec)). Qed.

Lemma lob_content_small l : MemLob_ok l -> len (m_content l) < 2 ^ 64.
Proof. intros (_ & Hl & _). pow_norm. lia. Qed.

Lemma lob_size_ok limit l : MemLob_ok l -> getSize l <= limit ->
  1 + len (serializeUnchecked_string (m_content l)) = lob_serialized_size limit (rewound l).
Proof.
  intros Hl Hs. unfold lob_serialized_size. change (getSize (rewound l)) with (getSize l).
  rewrite Z.gtb_ltb, (proj2 (Z.ltb_ge limit _)), getVarIntSize_len by assumption.
  destruct Hl as (Hsz & Hlen & _). cbn [getSize MemLob_stream] in *. rewrite Hsz.
  unfold serializeUnchecked_string. rewrite len_app, !encodeVarUInt_eq.
  rewrite (encode_loop_fuel (max_iter W32) (max_iter W64)); [lia| |cbn; lia].
  apply (fits_max_iter W32). pose proof (len_nonneg (m_content l)). unfold u_ok; cbn; lia.
Qed.

(** The bytes after the type byte. *)
Definition body (v : Variant) : list Z :=
  match v with
  | VNull => []
  | VBool b => [if b then 1 else 0]
  | VNum (CI I8 z) | VNum (CI U8 z) => [uw 8 z]
  | VNum (CI t z) => encodeVarInt (signed t) (width_of t) z
  | VNum (CF F32 x) => pbeEncodeFloat (float_bits F32 x)
  | VNum (CF F64 x) => pbeEncodeDouble (float_bits F64 x)
  | VDateTime dt => RawDateTime.serialize dt
  | VString s | VBinary s => serializeUnchecked_string s
  | VClob l | VBlob l => serializeUnchecked_string (m_content l)
  end.

(** Serialization succeeds with the announced size. *)
Lemma serialize_body v : Variant_ok v -> serializable v ->
  serializeUnchecked v = Ok (type_code (getValueType v) :: body v, match v with VDateTime _ => v | _ => canon v end).
Proof.
  intros Hv Hs. destruct v as [|b|[[] z|[|] x]|dt|s|s|l|l]; try reflexivity;
    cbn [serializeUnchecked]; rewrite serialize_lob_ok by (apply Hv || exact Hs); reflexivity.
Qed.

Lemma body_bytes v : Variant_ok v -> bytes_ok (body v).
Proof.
  intros Hv. destruct v as [|b|[t z|[|] x]|dt|s|s|l|l]; cbn [body].
  - constructor.
  - repeat constructor; destruct b; cbn; lia.
  - assert (H8 : bytes_ok [uw 8 z]) by (repeat constructor; apply (uw_range 8); lia).
    destruct t; try exact H8; apply encodeVarInt_bytes, in_ity_int_ok; (discriminate || exact Hv).
  - apply le_store_bytes.
  - apply le_store_bytes.
  - apply serialize_bytes.
  - apply serialize_string_bytes; apply Hv.
  - apply serialize_string_bytes; apply Hv.
  - apply serialize_string_bytes; [apply Hv|apply lob_content_small, Hv].
  - apply serialize_string_bytes; [apply Hv|apply lob_content_small, Hv].
Qed.

Lemma body_len v : Variant_ok v -> serializable v -> 1 + len (body v) = getSerializedSize (canon v).
Proof.
  intros Hv Hs. destruct v as [|b|[t z|[|] x]|dt|s|s|l|l]; try reflexivity; cbn [body canon getSerializedSize].
  - destruct t; try reflexivity; rewrite getVarIntSize_len; lia.
  - rewrite <- serialize_len. lia.
  - rewrite string_ser_len. lia.
  - rewrite string_ser_len. lia.
  - apply lob_size_ok; [apply Hv|exact Hs].
  - apply lob_size_ok; [apply Hv|exact Hs].
Qed.

Lemma deserialize_num dt n rest : Variant_ok (VNum n) -> bytes_ok rest -> rest <> [] -> followed_by (VNum n) rest ->
  deserialize dt (type_code (getValueType (VNum n)) :: body (VNum n) ++ rest) (len (body (VNum n) ++ rest)) =
    Ok (VNum n, 1 + len (body (VNum n))).
Proof.
  intros Hv Hr Hne Hf. cbn [Variant_ok] in Hv.
  rewrite deserialize_tag.
  2:{ rewrite len_app. pose proof (len_nonneg (body (VNum n))). pose proof (len_nonneg rest).
      destruct rest as [|r rest]; [congruence|]. rewrite len_cons in *. pose proof (len_nonneg rest). lia. }
  destruct n as [t z|[|] x]; cbn [getValueType type_of_cnum vt_of_cty body].
  - destruct t; cbn [vt_of_ity];
      try (rewrite deserialize_int_ok by (discriminate || assumption); do 2 f_equal; apply Z.add_comm).
    + cbn [app]. rewrite rd_cons_0. cbn [bind]. now rewrite (proj1 (int8_conv I8 z (or_introl eq_refl) Hv)).
    + cbn [app]. rewrite rd_cons_0. cbn [bind].
      apply in_ity_spec in Hv. cbn in Hv. now rewrite uw_small by assumption.
  - destruct (float_bits_roundtrip F32 x Hv) as [Hb Hx].
    rewrite len_app. change (len (pbeEncodeFloat (float_bits F32 x))) with 4. pose proof (len_nonneg rest).
    rewrite (proj2 (Z.ltb_ge _ 4)) by lia. unfold pbeDecodeFloat, pbeEncodeFloat.
    rewrite (proj1 (proj2 (pbe_roundtrip_u _ rest)) Hb). cbn [bind]. now rewrite Hx.
  - destruct (float_bits_roundtrip F64 x Hv) as [Hb Hx].
    rewrite len_app. change (len (pbeEncodeDouble (float_bits F64 x))) with 8. pose proof (len_nonneg rest).
    rewrite (proj2 (Z.ltb_ge _ 8)) by lia. unfold pbeDecodeDouble, pbeEncodeDouble.
    rewrite (proj2 (proj2 (pbe_roundtrip_u _ rest)) Hb). cbn [bind]. now rewrite Hx.
Qed.

(** Everything but the numbers is read back with any bytes after it. *)
Lemma deserialize_body dt v rest : Variant_ok v -> bytes_ok rest -> rest <> [] -> followed_by v rest ->
  deserialize dt (type_code (getValueType v) :: body v ++ rest) (len (body v ++ rest)) = Ok (canon v, 1 + len (body v)).
Proof.
  intros Hv Hr Hne Hf.
  assert (Hpos : 0 < len (body v ++ rest)).
  { rewrite len_app. pose proof (len_nonneg (body v)). destruct rest as [|r rest]; [congruence|].
    rewrite len_cons. pose proof (len_nonneg rest). lia. }
  destruct v as [|b|n|d|s|s|l|l]; try (now apply deserialize_num);
    rewrite deserialize_tag by assumption; cbn [getValueType body canon].
  - reflexivity.
  - destruct b; reflexivity.
  - pose proof (deserialize_canonical (E := VariantError) d dt rest Hv) as Hd. rewrite Hd. cbn [bind].
    pose proof (serialize_len d) as Hl. unfold RawDateTime.getSerializedSize in Hl.
    rewrite (proj2 (Z.eqb_neq _ 0)) by (destruct (m_hasTimePart _) in Hl; lia). do 2 f_equal. lia.
  - rewrite deserialize_bytes_ok by (apply Hv || assumption). cbn [bind]. do 2 f_equal. lia.
  - rewrite deserialize_bytes_ok by (apply Hv || assumption). cbn [bind]. do 2 f_equal. lia.
  - destruct Hv as [Hl Hb]. rewrite deserialize_bytes_ok by (assumption || now apply lob_content_small).
    cbn [bind]. rewrite rewound_new by assumption. do 2 f_equal. lia.
  - destruct Hv as [Hl Hb]. rewrite deserialize_bytes_ok by (assumption || now apply lob_content_small).
    cbn [bind]. rewrite rewound_new by assumption. do 2 f_equal. lia.
Qed.

(** The date-time of a value, if it is one, has the flag of its time part set
    exactly when it is not midnight. *)
Definition normal_value (v : Variant) : Prop := match v with VDateTime dt => normal dt | _ => True end.

Lemma size_canon v : normal_value v -> getSerializedSize (canon v) = getSerializedSize v.
Proof. destruct v; try reflexivity. cbn. intros H. now rewrite canonical_normal. Qed.

(** C6: a variant is read back from what was written: a LOB from its start
    whatever its position was, a date-time with a consistent flag, every other
    value as it was; the size consumed is that of the bytes written, which is the
    announced one unless the value is a midnight date-time whose flag says that it
    has a time.  At least one byte must follow, which the reader is not told of,
    and after an integer the bytes that follow must not make the last-byte test of
    the decoder fail ([followed_by]). *)
Theorem variant_roundtrip v rest dt : Variant_ok v -> serializable v -> bytes_ok rest -> rest <> [] ->
  followed_by v rest ->
  exists bytes v', serializeUnchecked v = Ok (bytes, v') /\ bytes_ok bytes /\
    len bytes = getSerializedSize (canon v) /\ (normal_value v -> len bytes = getSerializedSize v) /\
    deserialize dt (bytes ++ rest) (len (bytes ++ rest) - 1) = Ok (canon v, len bytes).
Proof.
  intros Hv Hs Hr Hne Hf. do 2 eexists. split; [now apply serialize_body|].
  split; [constructor; [apply tag_byte|now apply body_bytes]|].
  cbn [app]. rewrite !len_cons. split; [now apply body_len|]. split; [intros Hn; rewrite <- (size_canon v Hn); now apply body_len|].
  replace (1 + len (body v ++ rest) - 1) with (len (body v ++ rest)) by lia. now apply deserialize_body.
Qed.

Lemma variant_roundtrip_witness :
  exists bytes v', serializeUnchecked (VNum (CI I32 (-100000))) = Ok (bytes, v') /\
    deserialize {| m_timePart := kZeroRawTime; m_datePart := mkRawDate 0 0 0 6 false |} (bytes ++ [0]) (len (bytes ++ [0]) - 1) =
      Ok (VNum (CI I32 (-100000)), 4).
Proof.
  destruct (variant_roundtrip (VNum (CI I32 (-100000))) [0]
    {| m_timePart := kZeroRawTime; m_datePart := mkRawDate 0 0 0 6 false |}) as (bytes & v' & H1 & _ & H3 & _ & H4).
  - reflexivity.
  - exact I.
  - repeat constructor; unfold byte_ok; lia.
  - discriminate.
  - right; right. reflexivity.
  - exists bytes, v'. split; [exact H1|]. rewrite H4. rewrite H3. reflexivity.
Defined.

(** reading a variant from a buffer of exactly its size can read the byte
    after the buffer, because the length still counts the type byte: for an
    integer of two or more bytes below the maximal size, for a float in four
    bytes, and for a type byte alone. *)
Theorem variant_overread dt t z : t <> I8 -> t <> U8 -> in_ity t z = true ->
  1 < len (body (VNum (CI t z))) -> len (body (VNum (CI t z))) + 1 < kMaxSerializedIntSize (width_of t) ->
  (exists bytes, serializeUnchecked (VNum (CI t z)) = Ok (bytes, VNum (CI t z)) /\
    deserialize dt bytes (len bytes) = Undef OutOfBounds) /\
  (forall b0 b1 b2, deserialize dt [type_code kFloat; b0; b1; b2] 4 = Undef OutOfBounds) /\
  deserialize dt [type_code kBool] 1 = Undef OutOfBounds.
Proof.
  intros H1 H2 Hz Hlen Hmax. split; [|split; reflexivity].
  assert (Hbody : body (VNum (CI t z)) = encodeVarInt (signed t) (width_of t) z) by (destruct t; congruence || reflexivity).
  eexists. split; [now apply serialize_body|]. rewrite len_cons, deserialize_tag by lia.
  rewrite Hbody in *. rewrite Z.add_comm.
  pose proof (encodeVarInt_overread (signed t) (width_of t) z (in_ity_int_ok t z H1 H2 Hz) Hlen Hmax) as Hov.
  cbn [getValueType type_of_cnum vt_of_cty].
  destruct t; try congruence; cbn [vt_of_ity]; unfold deserialize_int; rewrite Hov; reflexivity.
Qed.

Lemma variant_overread_witness :
  exists bytes, serializeUnchecked (VNum (CI U64 300)) = Ok (bytes, VNum (CI U64 300)) /\
    deserialize {| m_timePart := kZeroRawTime; m_datePart := mkRawDate 0 0 0 6 false |} bytes (len bytes) = Undef OutOfBounds.
Proof.
  refine (proj1 (variant_overread _ U64 300 _ _ _ _ _)); (discriminate || reflexivity).
Defined.

(** ** Safety on any input *)

Lemma int_ok_in_ity t z : t <> I8 -> t <> U8 -> int_ok (signed t) (width_of t) z -> in_ity t z = true.
Proof. intros H1 H2. rewrite in_ity_spec. destruct t; cbn; try congruence; auto. Qed.

(** The result of a read: an error or a representable value, never undefined. *)
Definition safe_result (c : outcome VariantError (Variant * Z)) : Prop :=
  match c with Ok (v, n) => Variant_ok v | Throw _ => True | Undef _ => False end.

Lemma deserialize_int_safe t body length : t <> I8 -> t <> U8 -> bytes_ok body -> length <= len body ->
  safe_result (deserialize_int t body length).
Proof.
  intros H1 H2 Hb Hl. unfold deserialize_int.
  destruct (decodeVarInt_total (signed t) (width_of t) body length Hb Hl) as (d & -> & Hd). cbn [lift bind].
  destruct d as [n v| |]; cbn; auto. now apply int_ok_in_ity.
Qed.

Lemma memrd_safe {E} src i n : 0 <= i -> 0 <= n -> i + n <= len src ->
  exists l, @memrd E src i n = Ok l /\ len l = n.
Proof.
  intros Hi Hn Hl. unfold memrd. rewrite (proj2 (Z.ltb_ge i 0)), (proj2 (Z.ltb_ge n 0)) by lia. cbn [orb].
  rewrite (proj2 (Z.leb_le _ _)) by lia. eexists. split; [reflexivity|].
  unfold len in *. rewrite length_firstn, length_skipn. lia.
Qed.

Lemma datetime_safe dt body length : RawDateTime_ok dt -> length <= len body ->
  match @RawDateTime.deserialize VariantError dt body length with
  | Ok (x, n) => RawDateTime_ok x
  | _ => False
  end.
Proof.
  intros Hdt Hl. unfold RawDateTime.deserialize. destruct (Z.ltb_spec length 4); [exact Hdt|].
  destruct (@memrd_safe VariantError body 0 4) as (d & -> & _); [lia..|]. cbn [bind].
  destruct (negb _); [split; [apply word_time_ok|apply word_date_ok]|].
  destruct (Z.ltb_spec length 10); [split; [apply Hdt|apply word_date_ok]|].
  destruct (@memrd_safe VariantError body 4 4) as (lo & -> & _); [lia..|]. cbn [bind].
  destruct (@memrd_safe VariantError body 8 2) as (hi & -> & _); [lia..|]. cbn [bind].
  split; [apply word_time_ok|apply word_date_ok].
Qed.

Lemma bytes_safe body length : bytes_ok body -> length <= len body -> length < 2 ^ 32 ->
  match deserializeObject_string body length with
  | Ok (s, n) => bytes_ok s /\ len s < 2 ^ 32
  | Throw _ => True
  | Undef _ => False
  end.
Proof.
  intros Hb Hl H32. unfold deserializeObject_string.
  destruct (decodeVarInt_total false W64 body length Hb Hl) as (d & -> & Hd). cbn [lift bind].
  destruct d as [n v| |]; [|exact I..]. cbn [int_ok] in Hd. unfold u_ok in Hd.
  destruct (Z.ltb_spec (length - n) v); [exact I|]. unfold memrd.
  rewrite (proj2 (Z.ltb_ge n 0)), (proj2 (Z.ltb_ge v 0)) by lia. cbn [orb].
  rewrite (proj2 (Z.leb_le _ _)) by lia. cbn [bind].
  split; [now apply bytes_ok_firstn, bytes_ok_skipn|]. unfold len in *. rewrite length_firstn. lia.
Qed.

(** on any bytes, if at least one more byte than the given length may be
    read, deserializing a variant never has undefined behaviour, and a value it
    returns is well formed. *)
Theorem variant_deserialize_safe dt buffer length : RawDateTime_ok dt -> bytes_ok buffer ->
  0 <= length < 2 ^ 32 -> length + 1 <= len buffer -> safe_result (deserialize dt buffer length).
Proof.
  intros Hdt Hb Hl Hlen. destruct buffer as [|b body]; [rewrite len_nil in Hlen; lia|].
  apply Forall_cons_iff in Hb as [Hb Hbody]. rewrite len_cons in Hlen.
  unfold deserialize. destruct (Z.eqb_spec length 0); [exact I|]. rewrite rd_cons_0. cbn [bind tl].
  destruct (@rd_in_range VariantError body 0) as (x & Hx & Hin); [lia|].
  assert (Hxb : byte_ok x) by (eapply Forall_forall; eassumption).
  pose proof (bytes_safe body length Hbody ltac:(lia) ltac:(lia)) as Hs.
  pose proof (datetime_safe dt body length Hdt ltac:(lia)) as Hd.
  assert (Hi : forall t, t <> I8 -> t <> U8 -> safe_result (deserialize_int t body length))
    by (intros; apply deserialize_int_safe; (assumption || lia)).
  destruct (type_of_code b) as [t|]; [|exact I].
  destruct t; try exact I; try (apply Hi; discriminate); rewrite ?Hx; cbn [bind safe_result].
  - exact I.
  - apply (conv_in I8).
  - apply in_ity_spec. unfold byte_ok in Hxb. unfold u_ok; cbn. lia.
  - destruct (Z.ltb_spec length 4); [exact I|]. unfold pbeDecodeFloat, pbeDecodeUInt32.
    destruct (@memrd_safe VariantError body 0 4) as (l & -> & _); [lia..|]. cbn. apply (bits_float_valid F32).
  - destruct (Z.ltb_spec length 8); [exact I|]. unfold pbeDecodeDouble, pbeDecodeUInt64.
    destruct (@memrd_safe VariantError body 0 8) as (l & -> & _); [lia..|]. cbn. apply (bits_float_valid F64).
  - destruct (RawDateTime.deserialize dt body length) as [[d n']|e|u]; [|contradiction..]. cbn [bind].
    destruct (n' =? 0); [exact I|exact Hd].
  - destruct (deserializeObject_string body length) as [[s k]|e|u]; cbn in *; [|exact I|contradiction].
    split; [apply Hs|]. destruct Hs as [_ Hs]. pow_norm. lia.
  - destruct (deserializeObject_string body length) as [[s k]|e|u]; cbn in *; [|exact I|contradiction].
    split; [apply Hs|]. destruct Hs as [_ Hs]. pow_norm. lia.
  - destruct (deserializeObject_string body length) as [[s k]|e|u]; cbn in *; [|exact I|contradiction].
    split; [now apply newMemLob_ok|apply Hs].
  - destruct (deserializeObject_string body length) as [[s k]|e|u]; cbn in *; [|exact I|contradiction].
    split; [now apply newMemLob_ok|apply Hs].
Qed.

Lemma variant_deserialize_safe_witness :
  safe_result (deserialize {| m_timePart := kZeroRawTime; m_datePart := mkRawDate 0 0 0 6 false |} [8; 0xFF; 0xFF] 2).
Proof.
  refine (variant_deserialize_safe _ [8; 0xFF; 0xFF] 2 _ _ _ _).
  - repeat split; vm_compute; discriminate.
  - repeat constructor; unfold byte_ok; lia.
  - lia.
  - reflexivity || (vm_compute; discriminate).
Defined.
