(* ===== verification/VariantArith.v ===== *)
(** * Arithmetic and bitwise operators of variants

    Models [Variant_Arithmetics.cpp] and [Variant_BitwiseArithmetics.cpp].  Each
    C++ operator is a table with one built-in expression per pair of types; all
    cells of a table have the same expression on the members, so that the C++
    rules for mixed operands ([CNum]) decide the result and its type. *)

From Stdlib Require Import ZArith List Lia Bool SpecFloat.
From S2P Require Import Prelude CNum VariantType Variant.
Import ListNotations.
Open Scope Z_scope.

Definition incompatible {A} (a b : Variant) : outcome VariantError A :=
  Throw (VariantTypeCastError (getValueType a) (getValueType b)).

(** ** Unary operators *)

Definition Variant_negate (v : Variant) : outcome VariantError Variant :=
  match v with
  | VNum n => r <- c_neg n ;; Ok (VNum r)
  | _ => Throw (WrongVariantTypeError (getValueType v))
  end.

(** Unary plus promotes. *)
Definition Variant_plus (v : Variant) : outcome VariantError Variant :=
  match v with
  | VNum (CI t z) => Ok (VNum (CI (promote t) z))
  | VNum (CF f x) => Ok v
  | _ => Throw (WrongVariantTypeError (getValueType v))
  end.

Definition Variant_complement (v : Variant) : outcome VariantError Variant :=
  match v with
  | VNum (CI t z) => Ok (VNum (c_compl t z))
  | _ => Throw (WrongVariantTypeError (getValueType v))
  end.

(** ** Binary operators *)

Definition Variant_add (a b : Variant) : outcome VariantError Variant :=
  match a, b with
  | VNum x, VNum y => r <- c_aop OpAdd x y ;; Ok (VNum r)
  | VString s, VString t => Ok (VString (s ++ t))
  | _, _ => incompatible a b
  end.

Definition Variant_sub (a b : Variant) : outcome VariantError Variant :=
  match a, b with
  | VNum x, VNum y => r <- c_aop OpSub x y ;; Ok (VNum r)
  | _, _ => incompatible a b
  end.

Definition Variant_mul (a b : Variant) : outcome VariantError Variant :=
  match a, b with
  | VNum x, VNum y => r <- c_aop OpMul x y ;; Ok (VNum r)
  | _, _ => incompatible a b
  end.

Definition Variant_div (a b : Variant) : outcome VariantError Variant :=
  match a, b with
  | VNum x, VNum y => r <- c_aop OpDiv x y ;; Ok (VNum r)
  | _, _ => incompatible a b
  end.

Definition Variant_mod (a b : Variant) : outcome VariantError Variant :=
  match a, b with
  | VNum (CI s x), VNum (CI t y) => r <- c_rem s t x y ;; Ok (VNum r)
  | _, _ => incompatible a b
  end.

Definition Variant_or (a b : Variant) : outcome VariantError Variant :=
  match a, b with
  | VNum (CI s x), VNum (CI t y) => Ok (VNum (c_bop OpOr s t x y))
  | _, _ => incompatible a b
  end.

Definition Variant_and (a b : Variant) : outcome VariantError Variant :=
  match a, b with
  | VNum (CI s x), VNum (CI t y) => Ok (VNum (c_bop OpAnd s t x y))
  | _, _ => incompatible a b
  end.

Definition Variant_xor (a b : Variant) : outcome VariantError Variant :=
  match a, b with
  | VNum (CI s x), VNum (CI t y) => Ok (VNum (c_bop OpXor s t x y))
  | _, _ => incompatible a b
  end.

Definition Variant_shl (a b : Variant) : outcome VariantError Variant :=
  match a, b with
  | VNum (CI s x), VNum (CI t y) => r <- c_shl s t x y ;; Ok (VNum r)
  | _, _ => incompatible a b
  end.

Definition Variant_shr (a b : Variant) : outcome VariantError Variant :=
  match a, b with
  | VNum (CI s x), VNum (CI t y) => r <- c_shr s t x y ;; Ok (VNum r)
  | _, _ => incompatible a b
  end.

(** The operators by name. *)
Inductive binop : Type := BAdd | BSub | BMul | BDiv | BMod | BOr | BAnd | BXor | BShl | BShr.

Definition apply_binop (op : binop) : Variant -> Variant -> outcome VariantError Variant :=
  match op with
  | BAdd => Variant_add | BSub => Variant_sub | BMul => Variant_mul | BDiv => Variant_div
  | BMod => Variant_mod | BOr => Variant_or | BAnd => Variant_and | BXor => Variant_xor
  | BShl => Variant_shl | BShr => Variant_shr
  end.

(** ** Types of the results *)

Definition is_aop (op : binop) : bool := match op with BAdd | BSub | BMul | BDiv => true | _ => false end.
Definition is_shift (op : binop) : bool := match op with BShl | BShr => true | _ => false end.

(** The pairs of types an operator is defined on. *)
Definition binop_defined (op : binop) (s t : VariantType) : bool :=
  if is_aop op then
    (isNumericType s && isNumericType t) ||
    (match op with BAdd => isStringType s && isStringType t | _ => false end)
  else isIntegerType s && isIntegerType t.

(** The type of the result. *)
Definition binop_type (op : binop) (s t : VariantType) : VariantType :=
  if is_shift op then getNumericResultType s s
  else if isStringType s then kString
  else getNumericResultType s t.

(** Integer members are in the range of their type. *)
Definition int_ok (v : Variant) : Prop :=
  match v with VNum (CI t z) => in_ity t z = true | _ => True end.

Lemma c_aop_type {E} op a b r : @c_aop E op a b = Ok r ->
  vt_of_cty (type_of_cnum r) = getNumericResultType (vt_of_cty (type_of_cnum a)) (vt_of_cty (type_of_cnum b)) /\
  int_ok (VNum r).
Proof.
  rewrite numeric_result_type. destruct a as [s x|f x], b as [t y|g y]; cbn [c_aop type_of_cnum].
  - intros (z & Hz & [= <-])%bind_Ok. split; [reflexivity|]. cbn. eapply int_aop_in, Hz.
  - intros [= <-]. split; [destruct g; reflexivity|exact I].
  - intros [= <-]. split; [destruct f; reflexivity|exact I].
  - intros [= <-]. split; [destruct f, g; reflexivity|exact I].
Qed.

Lemma promote_result_type s : vt_of_ity (promote s) = getNumericResultType (vt_of_ity s) (vt_of_ity s).
Proof. destruct s; reflexivity. Qed.

Lemma common_result_type s t : vt_of_ity (common s t) = getNumericResultType (vt_of_ity s) (vt_of_ity t).
Proof. symmetry. apply (numeric_result_type (TInt s) (TInt t)). Qed.

Lemma cnum_ok_int n t : cnum_ok n = true -> type_of_cnum n = TInt t ->
  getValueType (VNum n) = vt_of_ity t /\ int_ok (VNum n).
Proof. destruct n; cbn; intros H1 [= ->]. auto. Qed.

(** Every outcome of an operator is one of these. *)
Definition binop_outcome (op : binop) (a b : Variant) : Prop :=
  if binop_defined op (getValueType a) (getValueType b) then
    match apply_binop op a b with
    | Ok r => getValueType r = binop_type op (getValueType a) (getValueType b) /\ int_ok r
    | Throw _ => False
    | Undef _ => True
    end
  else apply_binop op a b = Throw (VariantTypeCastError (getValueType a) (getValueType b)).

Lemma vt_of_cty_numeric c : isNumericType (vt_of_cty c) = true.
Proof. destruct c as [[]|[]]; reflexivity. Qed.
Lemma vt_of_cty_string c : isStringType (vt_of_cty c) = false.
Proof. destruct c as [[]|[]]; reflexivity. Qed.
Lemma vt_of_ity_integer t : isIntegerType (vt_of_ity t) = true.
Proof. destruct t; reflexivity. Qed.
Lemma vt_of_ity_string t : isStringType (vt_of_ity t) = false.
Proof. destruct t; reflexivity. Qed.

(** The four arithmetic operators on two numbers. *)
Lemma aop_outcome (o : aop) (op : binop) x y : is_aop op = true ->
  apply_binop op (VNum x) (VNum y) = (r <- c_aop o x y ;; Ok (VNum r)) ->
  binop_outcome op (VNum x) (VNum y).
Proof.
  intros Ha Hop. unfold binop_outcome, binop_defined, binop_type. rewrite Ha. cbn [getValueType].
  rewrite !vt_of_cty_numeric, vt_of_cty_string. cbn [andb orb]. rewrite Hop.
  assert (Hs : is_shift op = false) by (destruct op; (reflexivity || discriminate)). rewrite Hs.
  destruct (c_aop o x y) as [r|e|u] eqn:Hr; cbn [bind].
  - apply (c_aop_type o x y r Hr).
  - destruct x, y; cbn in Hr; try discriminate.
    destruct o; cbn in Hr; unfold arith in Hr; repeat (case_match; cbn in Hr; try discriminate).
    all: revert Hr; repeat case_match; discriminate.
  - exact I.
Qed.

(** The other six on two integers. *)
Lemma iop_outcome op s t x y : is_aop op = false -> in_ity s x = true ->
  binop_outcome op (VNum (CI s x)) (VNum (CI t y)).
Proof.
  intros Ha Hx. unfold binop_outcome, binop_defined, binop_type. rewrite Ha.
  cbn [getValueType type_of_cnum vt_of_cty]. rewrite !vt_of_ity_integer, vt_of_ity_string. cbn [andb].
  destruct op; try discriminate; cbn [apply_binop is_shift Variant_mod Variant_or Variant_and Variant_xor Variant_shl Variant_shr];
    rewrite <- ?promote_result_type, <- ?common_result_type.
  2-4: match goal with |- context [c_bop ?o ?s ?t ?x ?y] => destruct (c_bop_ok o s t x y) as [H1 H2] end;
       now apply cnum_ok_int.
  - destruct (c_rem s t x y) as [r|e|u] eqn:Hr; cbn [bind]; [|clear -Hr|exact I].
    + destruct (c_rem_ok s t x y r Hr). now apply cnum_ok_int.
    + revert Hr. unfold c_rem, int_rem, arith. repeat case_match; cbn; repeat case_match; discriminate.
  - destruct (c_shl s t x y) as [r|e|u] eqn:Hr; cbn [bind]; [|clear -Hr|exact I].
    + destruct (c_shl_ok s t x y r Hr). now apply cnum_ok_int.
    + revert Hr. unfold c_shl. repeat case_match; discriminate.
  - destruct (c_shr s t x y) as [r|e|u] eqn:Hr; cbn [bind]; [|clear -Hr|exact I].
    + destruct (c_shr_ok s t x y r Hx Hr). now apply cnum_ok_int.
    + revert Hr. unfold c_shr. repeat case_match; discriminate.
Qed.

Lemma binop_outcome_any op a b : int_ok a -> int_ok b -> binop_outcome op a b.
Proof.
  intros Ha Hb.
  destruct (is_aop op) eqn:Hop.
  - destruct a, b; try (destruct op; try discriminate; split; reflexivity || exact I);
      try (destruct op; try discriminate; unfold binop_outcome, binop_defined; cbn [is_aop getValueType];
           rewrite ?vt_of_cty_numeric, ?vt_of_cty_string; reflexivity).
    destruct op; try discriminate; eapply aop_outcome; reflexivity.
  - destruct a as [| |[s x|f x]| | | | |], b as [| |[t y|g y]| | | | |];
      try (apply iop_outcome; assumption).
    all: try (destruct op; try discriminate; reflexivity).
    all: try (destruct op; try discriminate; unfold binop_outcome, binop_defined; cbn [is_aop getValueType type_of_cnum vt_of_cty];
           rewrite ?vt_of_ity_integer; reflexivity).
    all: try (destruct f; destruct op; discriminate || reflexivity).
    all: try (destruct g; destruct op; try discriminate; unfold binop_outcome, binop_defined; cbn [is_aop getValueType type_of_cnum vt_of_cty];
           rewrite ?vt_of_ity_integer, ?andb_false_r; reflexivity).
Qed.

(** typing of the binary operators.  On the operand types of its table an
    operator never throws, and a value it returns has the type the expression
    layer announces, with integers in the range of their type; on all other
    types it throws the cast error that names the two types. *)
Theorem binop_typing op a b : int_ok a -> int_ok b -> binop_outcome op a b.
Proof. apply binop_outcome_any. Qed.

Lemma binop_typing_witness :
  binop_outcome BAdd (VNum (CI U32 4000000000)) (VNum (CI I64 (-1))) /\
  apply_binop BAdd (VNum (CI U32 4000000000)) (VNum (CI I64 (-1))) = Ok (VNum (CI I64 3999999999)).
Proof. split; [apply (binop_typing BAdd); reflexivity|reflexivity]. Defined.

(** ** Values of the integer operators *)

(** The mathematical operation. *)
Definition math_op (op : binop) (x y : Z) : Z :=
  match op with
  | BAdd => x + y | BSub => x - y | BMul => x * y | BDiv => Z.quot x y | BMod => Z.rem x y
  | BOr => Z.lor x y | BAnd => Z.land x y | BXor => Z.lxor x y
  | BShl => x * 2 ^ y | BShr => x / 2 ^ y
  end.

(** The operands after the conversions: shifts promote, the others convert to the
    common type. *)
Definition result_ity (op : binop) (s t : ity) : ity := if is_shift op then promote s else common s t.
Definition operand (op : binop) (s t : ity) (z : Z) : Z := if is_shift op then z else conv (common s t) z.

(** When the behaviour is undefined, on converted operands. *)
Definition arith_ub (op : binop) (c : ity) (x y : Z) : bool :=
  match op with
  | BAdd | BSub | BMul => signed c && negb (in_ity c (math_op op x y))
  | BDiv | BMod => (y =? 0) || (signed c && (x =? imin c) && (y =? -1))
  | BOr | BAnd | BXor => false
  | BShl => (y <? 0) || (ibits c <=? y) || (signed c && ((x <? 0) || (2 ^ ibits c <=? x * 2 ^ y)))
  | BShr => (y <? 0) || (ibits c <=? y)
  end.

Lemma arith_spec {E} c z : @arith E c z =
  if signed c && negb (in_ity c z) then Undef SignedOverflow else Ok (conv c z).
Proof.
  unfold arith. destruct (signed c) eqn:Hs.
  - destruct (in_ity c z) eqn:Hz; [|reflexivity]. cbn. now rewrite conv_id.
  - cbn. unfold conv. now rewrite Hs.
Qed.

(** The only quotient out of range is that of the least value by -1. *)
Lemma quot_range c x y : in_ity c x = true -> y <> 0 ->
  in_ity c (Z.quot x y) = negb ((x =? imin c) && (y =? -1)) \/ signed c = false.
Proof.
  intros Hx Hy. destruct (signed c) eqn:Hs; [left|right; reflexivity].
  unfold in_ity in *. rewrite andb_true_iff, !Z.leb_le in Hx.
  assert (Hb : imin c = - 2 ^ (ibits c - 1) /\ imax c = 2 ^ (ibits c - 1) - 1 /\ 1 < 2 ^ (ibits c - 1))
    by (unfold imin, imax; rewrite Hs; destruct c; try discriminate; cbn; lia).
  destruct Hb as (Hmin & Hmax & Hp). set (h := 2 ^ (ibits c - 1)) in *.
  pose proof (Z.quot_abs x y Hy) as Habs. pose proof (Z.quot_le_upper_bound (Z.abs x) (Z.abs y) (Z.abs x)).
  destruct (Z.eqb_spec y (-1)) as [->|Hm1].
  - replace (Z.quot x (-1)) with (- x) by (change (-1) with (- (1)); rewrite Z.quot_opp_r, Z.quot_1_r; lia).
    zcases; lia || (cbn; lia).
  - rewrite andb_false_r. cbn [negb]. rewrite andb_true_iff, !Z.leb_le.
    destruct (Z.eq_dec y 1) as [->|Hy1]; [rewrite Z.quot_1_r; lia|].
    assert (Z.quot (Z.abs x) (Z.abs y) <= h - 1); [|lia].
    apply Z.lt_succ_r. replace (Z.succ (h - 1)) with h by lia.
    apply Z.quot_lt_upper_bound; [lia|lia|]. nia.
Qed.

Lemma int_div_spec {E} c x y : in_ity c x = true -> in_ity c y = true ->
  is_undef (@int_aop E OpDiv c x y) = arith_ub BDiv c x y /\
  (arith_ub BDiv c x y = false -> @int_aop E OpDiv c x y = Ok (conv c (Z.quot x y))).
Proof.
  intros Hx Hy. cbn [int_aop arith_ub]. destruct (Z.eqb_spec y 0) as [->|Hn]; [split; [reflexivity|discriminate]|].
  cbn [orb]. rewrite arith_spec. destruct (quot_range c x y Hx Hn) as [-> | Hs].
  - rewrite negb_involutive, andb_assoc. destruct (signed c && (x =? imin c) && (y =? -1)); split; (reflexivity || discriminate || auto).
  - rewrite Hs. cbn. auto.
Qed.

Lemma conv_rem c x y : in_ity c x = true -> y <> 0 -> conv c (Z.rem x y) = Z.rem x y.
Proof. intros. now apply conv_id, rem_in. Qed.

(** The spec of an operation that ends in [arith]. *)
Lemma arith_case c z :
  let run := (r <- (r <- @arith VariantError c z ;; Ok (CI c r)) ;; Ok (VNum r)) in
  is_undef run = (signed c && negb (in_ity c z)) /\
  (signed c && negb (in_ity c z) = false -> run = Ok (VNum (CI c (conv c z)))).
Proof.
  cbn zeta. rewrite arith_spec. destruct (signed c && negb (in_ity c z)); cbn; split; (reflexivity || discriminate || auto).
Qed.

Lemma nonshift_spec op s t x y : is_shift op = false ->
  let c := common s t in
  let run := apply_binop op (VNum (CI s x)) (VNum (CI t y)) in
  is_undef run = arith_ub op c (conv c x) (conv c y) /\
  (arith_ub op c (conv c x) (conv c y) = false ->
    run = Ok (VNum (CI c (conv c (math_op op (conv c x) (conv c y)))))).
Proof.
  intros Hop c. pose proof (conv_in c x) as Hx. pose proof (conv_in c y) as Hy.
  assert (Hb : forall o, conv c (bop_fun o (conv c x) (conv c y)) = bop_fun o (conv c x) (conv c y))
    by (intros o; apply conv_id, bop_in; assumption).
  destruct op; try discriminate; cbn zeta.
  1-3: apply arith_case.
  - cbn [apply_binop Variant_div c_aop]. fold c.
    destruct (@int_div_spec VariantError c (conv c x) (conv c y) Hx Hy) as [H1 H2].
    split; [rewrite <- H1; destruct (int_aop _ _ _ _); reflexivity|]. intros H. now rewrite (H2 H).
  - destruct (@int_div_spec VariantError c (conv c x) (conv c y) Hx Hy) as [H1 H2].
    cbn [apply_binop Variant_mod math_op arith_ub]. unfold c_rem, int_rem. fold c.
    cbn [int_aop arith_ub] in H1, H2. destruct (Z.eqb_spec (conv c y) 0) as [E0|E0]; [split; [reflexivity|discriminate]|].
    cbn [orb] in *. destruct (arith c (Z.quot (conv c x) (conv c y))) as [r|e|u]; cbn in *;
      rewrite ?conv_rem by assumption; split; auto; intros H; specialize (H2 H); congruence.
  - split; [reflexivity|]. intros _. change (math_op BOr) with (bop_fun OpOr). now rewrite Hb.
  - split; [reflexivity|]. intros _. change (math_op BAnd) with (bop_fun OpAnd). now rewrite Hb.
  - split; [reflexivity|]. intros _. change (math_op BXor) with (bop_fun OpXor). now rewrite Hb.
Qed.

Lemma shift_spec op s t x y : is_shift op = true -> in_ity s x = true ->
  let c := promote s in
  let run := apply_binop op (VNum (CI s x)) (VNum (CI t y)) in
  is_undef run = arith_ub op c x y /\
  (arith_ub op c x y = false -> run = Ok (VNum (CI c (conv c (math_op op x y))))).
Proof.
  intros Hop Hx c. destruct op; try discriminate; cbn [apply_binop Variant_shl Variant_shr math_op arith_ub] in *.
  - unfold c_shl. fold c. unfold conv. destruct ((y <? 0) || (ibits c <=? y)); [split; [reflexivity|discriminate]|]. cbn [orb].
    destruct (signed c); [|split; reflexivity]. cbn [andb].
    destruct ((x <? 0) || (2 ^ ibits c <=? x * 2 ^ y)); split; (reflexivity || discriminate).
  - unfold c_shr. fold c. destruct (Z.ltb_spec y 0); [split; [reflexivity|discriminate]|]. cbn [orb].
    destruct (ibits c <=? y); split; try (reflexivity || discriminate). intros _. cbn [bind].
    rewrite <- shiftr_div by assumption. rewrite conv_id; [reflexivity|].
    apply shiftr_in; [|assumption]. eapply fits_in_ok; [apply promote_fits|exact Hx].
Qed.

(** C33: integer arithmetic.  An operator on two integers is undefined exactly
    for signed overflow, division by zero, division of the least value by -1 and
    shift counts outside the width (or a left shift of or into the sign);
    otherwise it returns the mathematical result on the converted operands,
    reduced to the result type.  Hence the result is the mathematical one when
    that fits and no operand is both negative and converted to an unsigned type. *)
Theorem int_binop_spec op s t x y : in_ity s x = true -> in_ity t y = true ->
  let c := result_ity op s t in
  let x' := operand op s t x in let y' := operand op s t y in
  is_undef (apply_binop op (VNum (CI s x)) (VNum (CI t y))) = arith_ub op c x' y' /\
  (arith_ub op c x' y' = false ->
    apply_binop op (VNum (CI s x)) (VNum (CI t y)) = Ok (VNum (CI c (conv c (math_op op x' y'))))) /\
  (is_shift op = false -> arith_ub op c x y = false -> in_ity c (math_op op x y) = true ->
   (0 <= x /\ 0 <= y \/ signed c = true) ->
    apply_binop op (VNum (CI s x)) (VNum (CI t y)) = Ok (VNum (CI c (math_op op x y)))).
Proof.
  intros Hx Hy c x' y'. unfold c, x', y', result_ity, operand. destruct (is_shift op) eqn:Hop.
  - destruct (shift_spec op s t x y Hop Hx) as [H1 H2]. split; [exact H1|]. split; [exact H2|discriminate].
  - destruct (nonshift_spec op s t x y Hop) as [H1 H2]. split; [exact H1|]. split; [exact H2|].
    intros _ Hub Hr Hs. cbn zeta in H1, H2.
    rewrite (conv_common s t x), (common_comm s t), (conv_common t s y), (common_comm t s) in H2
      by (assumption || (rewrite ?(common_comm t s); tauto)).
    rewrite (H2 Hub). now rewrite conv_id.
Qed.

Lemma int_binop_spec_witness :
  is_undef (apply_binop BMod (VNum (CI I32 (-2147483648))) (VNum (CI I8 (-1)))) = true /\
  apply_binop BDiv (VNum (CI I64 (-7))) (VNum (CI U8 2)) = Ok (VNum (CI I64 (-3))).
Proof.
  split.
  - exact (proj1 (int_binop_spec BMod I32 I8 (-2147483648) (-1) eq_refl eq_refl)).
  - refine (proj2 (proj2 (int_binop_spec BDiv I64 U8 (-7) 2 eq_refl eq_refl)) eq_refl eq_refl eq_refl (or_intror eq_refl)).
Defined.
