(* ===== verification/Utf8.v ===== *)
(** * Comparison of UTF-8 strings

    Models [common/utils/Utf8String.cpp].  Decoding one code point is
    [utf8::next] of the utf8cpp library: an operation of the [Utf8Decoder] class,
    with [None] for the exception it throws on malformed input. *)

From Stdlib Require Import ZArith List Lia Bool.
From S2P Require Import Prelude RawDateTime.
Import ListNotations.
Open Scope Z_scope.

Class Utf8Decoder : Type := { utf8_next : list Z -> option (Z * list Z) }.

(** [utf8::next] advances the iterator. *)
Class Utf8DecoderLaws {D : Utf8Decoder} : Prop := {
  utf8_next_advances : forall s c rest, utf8_next s = Some (c, rest) -> (length rest < length s)%nat
}.

Section Strcmp.
Context {D : Utf8Decoder} {E : Type} (utf8_error : E).

(** The loop, with one code point of each string per iteration. *)
Fixpoint strcmp_loop (fuel : nat) (s1 s2 : list Z) : outcome E Z :=
  match s1 with
  | [] => Ok (match s2 with [] => 0 | _ => -1 end)
  | _ =>
      match s2 with
      | [] => Ok 1
      | _ =>
          match fuel with
          | O => Undef NoProgress
          | S k =>
              match utf8_next s1 with
              | None => Throw utf8_error
              | Some (symb1, s1) =>
                  match utf8_next s2 with
                  | None => Throw utf8_error
                  | Some (symb2, s2) =>
                      if symb1 <? symb2 then Ok (-1)
                      else if symb1 >? symb2 then Ok 1
                      else strcmp_loop k s1 s2
                  end
              end
          end
      end
  end.

(** Each iteration shortens the first string. *)
Definition utf8_strcmp (s1 s2 : list Z) : outcome E Z := strcmp_loop (length s1) s1 s2.

(** The code points of a string, [None] when it is malformed. *)
Fixpoint code_points (fuel : nat) (s : list Z) : option (list Z) :=
  match s with
  | [] => Some []
  | _ =>
      match fuel with
      | O => None
      | S k =>
          match utf8_next s with
          | None => None
          | Some (c, rest) => option_map (cons c) (code_points k rest)
          end
      end
  end.

Definition decode (s : list Z) : option (list Z) := code_points (length s) s.
End Strcmp.

Definition sign_of (c : comparison) : Z := match c with Eq => 0 | Lt => -1 | Gt => 1 end.

Section Facts.
Context {D : Utf8Decoder} {L : Utf8DecoderLaws}.

Lemma code_points_fuel n : forall m s, (length s <= n)%nat -> (length s <= m)%nat ->
  code_points n s = code_points m s.
Proof.
  induction n as [|n IH]; intros [|m] s Hn Hm; destruct s as [|b s]; cbn in Hn, Hm; try lia; try reflexivity.
  cbn [code_points]. destruct (utf8_next (b :: s)) as [[c rest]|] eqn:Hx; [|reflexivity].
  apply utf8_next_advances in Hx. cbn in Hx. rewrite (IH m rest) by lia. reflexivity.
Qed.

(** The first code point of a well-formed string. *)
Lemma decode_step b s cs : decode (b :: s) = Some cs ->
  exists c cs' rest, cs = c :: cs' /\ utf8_next (b :: s) = Some (c, rest) /\ decode rest = Some cs' /\
    (length rest <= length s)%nat.
Proof.
  unfold decode. cbn [length code_points].
  destruct (utf8_next (b :: s)) as [[c rest]|] eqn:N; [|discriminate].
  destruct (code_points (length s) rest) as [cs'|] eqn:C; [|discriminate]. intros [= <-].
  apply utf8_next_advances in N as Hlt. cbn in Hlt.
  exists c, cs', rest. split; [reflexivity|]. split; [reflexivity|]. split; [|lia].
  rewrite <- C. apply code_points_fuel; lia.
Qed.

Lemma decode_nil : decode [] = Some [].
Proof. reflexivity. Qed.

Lemma strcmp_spec E (err : E) n : forall s1 s2 c1 c2, (length s1 <= n)%nat ->
  decode s1 = Some c1 -> decode s2 = Some c2 ->
  strcmp_loop err n s1 s2 = Ok (sign_of (lex c1 c2)).
Proof.
  induction n as [|n IH]; intros [|b1 s1] [|b2 s2] c1 c2 Hn H1 H2; cbn in Hn; try lia;
    try (apply decode_step in H1 as (d1 & e1 & r1 & -> & N1 & H1 & L1));
    try (apply decode_step in H2 as (d2 & e2 & r2 & -> & N2 & H2 & L2));
    try (injection H1 as <-); try (injection H2 as <-); try reflexivity.
  cbn [strcmp_loop lex]. rewrite N1, N2, Z.gtb_ltb.
  destruct (Z.compare_spec d1 d2) as [->|Hlt|Hgt].
  - rewrite Z.ltb_irrefl. apply IH; (assumption || lia).
  - rewrite (proj2 (Z.ltb_lt d1 d2)) by lia. reflexivity.
  - rewrite (proj2 (Z.ltb_ge d1 d2)), (proj2 (Z.ltb_lt d2 d1)) by lia. reflexivity.
Qed.

Lemma strcmp_terminates E (err : E) n : forall s1 s2, (length s1 <= n)%nat ->
  well_defined (strcmp_loop err n s1 s2).
Proof.
  induction n as [|n IH]; intros [|b1 s1] s2 Hn; cbn [strcmp_loop length] in *; try exact I; try lia.
  destruct s2 as [|b2 s2]; [exact I|].
  destruct (utf8_next (b1 :: s1)) as [[d1 r1]|] eqn:N1; [|exact I]. apply utf8_next_advances in N1. cbn in N1.
  destruct (utf8_next (b2 :: s2)) as [[d2 r2]|]; [|exact I].
  destruct (d1 <? d2); [exact I|]. destruct (d1 >? d2); [exact I|]. apply IH. lia.
Qed.

(** the comparison of two strings ends for all inputs, by a result or by the
    exception of the decoder, and for well-formed strings it is -1, 0 or 1 as
    the first string is before, equal to or after the second in the
    lexicographic order of code points. *)
Theorem utf8_strcmp_order E (err : E) s1 s2 c1 c2 :
  decode s1 = Some c1 -> decode s2 = Some c2 ->
  (forall t1 t2, well_defined (utf8_strcmp err t1 t2)) /\
  utf8_strcmp err s1 s2 = Ok (sign_of (lex c1 c2)).
Proof.
  intros H1 H2. split; [intros; apply strcmp_terminates; lia|]. now apply strcmp_spec.
Qed.
End Facts.

(** ** A decoder

    Code points of one to four bytes, by the leading byte. *)

Definition utf8_tail (n : nat) (c : Z) (s : list Z) : option (Z * list Z) :=
  let fix go n c s :=
    match n with
    | O => Some (c, s)
    | S n =>
        match s with
        | b :: s => if (0x80 <=? b) && (b <? 0xC0) then go n (c * 64 + (b - 0x80)) s else None
        | [] => None
        end
    end in go n c s.

#[export] Instance utf8_decoder : Utf8Decoder := {
  utf8_next s :=
    match s with
    | [] => None
    | b :: s =>
        if b <? 0x80 then Some (b, s)
        else if b <? 0xC0 then None
        else if b <? 0xE0 then utf8_tail 1 (b - 0xC0) s
        else if b <? 0xF0 then utf8_tail 2 (b - 0xE0) s
        else if b <? 0xF8 then utf8_tail 3 (b - 0xF0) s
        else None
    end
}.

Lemma utf8_tail_le n : forall c s c' rest, utf8_tail n c s = Some (c', rest) -> (length rest <= length s)%nat.
Proof.
  unfold utf8_tail. induction n as [|n IH]; intros c s c' rest; cbn; [intros [= _ ->]; lia|].
  destruct s as [|b s]; [discriminate|]. destruct (_ && _); [|discriminate].
  intros H. apply IH in H. cbn. lia.
Qed.

#[export] Instance utf8_decoder_laws : Utf8DecoderLaws.
Proof.
  split. intros s c rest. cbn [utf8_next utf8_decoder]. destruct s as [|b s]; [discriminate|].
  repeat case_match; try discriminate; [intros [= _ ->]; cbn; lia|..];
    intros H'; apply utf8_tail_le in H'; cbn; lia.
Qed.

Lemma utf8_strcmp_order_witness :
  utf8_strcmp tt [0x61; 0xC3; 0xA9] [0x61; 0xE2; 0x82; 0xAC] = Ok (-1).
Proof.
  refine (proj2 (utf8_strcmp_order unit tt [0x61; 0xC3; 0xA9] [0x61; 0xE2; 0x82; 0xAC] [0x61; 0xE9] [0x61; 0x20AC] _ _));
    reflexivity.
Defined.
