(* ===== verification/VariantCmp.v ===== *)
(** * Comparisons of variants

    Models [Variant_Comparisons.cpp]: the operators [==] to [>=], which compare
    values of the same type and otherwise the types, and the [compatible...]
    functions that SQL expressions use, which compare values of different
    numeric types and strings with date-times. *)

From Stdlib Require Import ZArith List Lia Bool SpecFloat.
From S2P Require Import Prelude CNum RawDateTime VariantType Lob Variant Utf8.
Import ListNotations.
Open Scope Z_scope.

(** Where an operand and its LOB stream are in memory: the code compares the
    addresses of the operands, and those of LOB streams of equal size. *)
Record place : Type := { this_at : Z; lob_at : Z }.

Definition same_object (pa pb : place) : bool := this_at pb =? this_at pa.
Definition same_type (a b : Variant) : bool := VariantType_eqb (getValueType a) (getValueType b).

Definition bytes_eqb (a b : list Z) : bool := match lex a b with Eq => true | _ => false end.

(** ** Same-type operators *)

Definition Variant_eq (pa pb : place) (a b : Variant) : bool :=
  if same_object pa pb then true else
  if negb (same_type a b) then false else
  match a, b with
  | VBool x, VBool y => Bool.eqb x y
  | VNum x, VNum y => c_cop OpEq x y
  | VString x, VString y | VBinary x, VBinary y => bytes_eqb x y
  | VClob _, VClob _ | VBlob _, VBlob _ => false
  | _, _ => true
  end.

Definition Variant_ne (pa pb : place) (a b : Variant) : bool :=
  if same_object pa pb then false else
  if negb (same_type a b) then true else
  match a, b with
  | VBool x, VBool y => negb (Bool.eqb x y)
  | VNum x, VNum y => negb (c_cop OpEq x y)
  | VString x, VString y | VBinary x, VBinary y => negb (bytes_eqb x y)
  | VClob _, VClob _ | VBlob _, VBlob _ => true
  | _, _ => false
  end.

Definition type_lt (a b : Variant) : bool := type_code (getValueType a) <? type_code (getValueType b).

Definition lob_lt (pa pb : place) (a b : MemLob) : bool :=
  if getSize a =? getSize b then lob_at pa <? lob_at pb else getSize a <? getSize b.

Definition Variant_lt (pa pb : place) (a b : Variant) : bool :=
  if same_object pa pb then false else
  if negb (same_type a b) then type_lt a b else
  match a, b with
  | VBool x, VBool y => negb x && y
  | VNum x, VNum y => c_cop OpLt x y
  | VString x, VString y | VBinary x, VBinary y => is_gt (lex y x)
  | VClob x, VClob y | VBlob x, VBlob y => lob_lt pa pb x y
  | _, _ => false
  end.

Definition Variant_le (pa pb : place) (a b : Variant) : bool :=
  if same_object pa pb then true else
  if negb (same_type a b) then type_lt a b else
  match a, b with
  | VBool x, VBool y => negb x || y
  | VNum x, VNum y => c_cop OpLe x y
  | VString x, VString y | VBinary x, VBinary y => is_ge (lex y x)
  | VClob x, VClob y | VBlob x, VBlob y => lob_lt pa pb x y
  | _, _ => false
  end.

Definition Variant_gt (pa pb : place) (a b : Variant) : bool :=
  if same_object pa pb then false else
  if negb (same_type a b) then type_lt b a else
  match a, b with
  | VBool x, VBool y => x && negb y
  | VNum x, VNum y => c_cop OpGt x y
  | VString x, VString y | VBinary x, VBinary y => is_gt (lex x y)
  | VClob x, VClob y | VBlob x, VBlob y => lob_lt pb pa y x
  | _, _ => false
  end.

Definition Variant_ge (pa pb : place) (a b : Variant) : bool :=
  if same_object pa pb then true else
  if negb (same_type a b) then type_lt b a else
  match a, b with
  | VBool x, VBool y => x || negb y
  | VNum x, VNum y => c_cop OpGe x y
  | VString x, VString y | VBinary x, VBinary y => is_ge (lex x y)
  | VClob x, VClob y | VBlob x, VBlob y => lob_lt pb pa y x
  | _, _ => false
  end.

(** ** Signs *)

Definition zero_of (n : cnum) : cnum :=
  match n with CI t _ => CI t 0 | CF f _ => CF f (S754_zero false) end.

Definition not_numeric {A} (v : Variant) : outcome VariantError A := Throw (WrongVariantTypeError (getValueType v)).

Definition isNegative (v : Variant) : outcome VariantError bool :=
  match v with
  | VNum (CI t z) => Ok (if signed t then z <? 0 else false)
  | VNum n => Ok (c_cop OpLt n (zero_of n))
  | _ => not_numeric v
  end.
Definition isPositive (v : Variant) : outcome VariantError bool :=
  match v with VNum n => Ok (c_cop OpGt n (zero_of n)) | _ => not_numeric v end.
Definition isZero (v : Variant) : outcome VariantError bool :=
  match v with VNum n => Ok (c_cop OpEq n (zero_of n)) | _ => not_numeric v end.

(** ** Comparisons of compatible values *)

(** The casts in the table of numeric comparisons: [cast_left a b] is what the
    left operand [a] is cast to when compared with [b]. *)
Definition cast_left (a b : cnum) : cnum :=
  match a, b with
  | CI U32 z, CI t _ => if signed t then CI I32 (conv I32 z) else a
  | CI U64 z, CI t _ => if signed t then CI I64 (conv I64 z) else a
  | CF F32 x, CI (I32 | U32 | I64 | U64) _ => CF F64 (fconv F64 x)
  | CF F32 x, CF F64 _ => CF F64 (fconv F64 x)
  | _, _ => a
  end.

Definition cast_right (a b : cnum) : cnum :=
  match b, a with
  | CI U32 z, CI (I8 | I16 | I32) _ => CI I32 (conv I32 z)
  | CI U64 z, CI s _ => if signed s then CI I64 (conv I64 z) else b
  | CF F32 x, CI (I32 | U32 | I64 | U64) _ => CF F64 (fconv F64 x)
  | CF F32 x, CF F64 _ => CF F64 (fconv F64 x)
  | _, _ => b
  end.

Definition num_cop (op : cop) (a b : cnum) : bool := c_cop op (cast_left a b) (cast_right a b).

(** The cast error of the numeric rows names this type first, the others the
    other type first. *)
Definition no_compare {A} (a b : Variant) : outcome VariantError A :=
  if isNumeric a then Throw (VariantTypeCastError (getValueType a) (getValueType b))
  else Throw (VariantTypeCastError (getValueType b) (getValueType a)).

Section Compatible.
(** UTF-8 decoding, and [asDateTime] of a string, which calls the date library. *)
Context {D : Utf8Decoder} (stringAsDateTime : list Z -> outcome VariantError RawDateTime).

Definition strcmp := utf8_strcmp Utf8Error.

Definition compatibleEqual (pa pb : place) (a b : Variant) : outcome VariantError bool :=
  if same_object pa pb then Ok true else
  match a, b with
  | VNull, _ => Ok false
  | VBool x, VBool y => Ok (Bool.eqb x y)
  | VNum x, VNum y => Ok (num_cop OpEq x y)
  | VString x, VString y => r <- strcmp x y ;; Ok (r =? 0)
  | VString x, VDateTime y => d <- stringAsDateTime x ;; Ok (RawDateTime_eq d y)
  | VBinary x, VBinary y => Ok (bytes_eqb x y)
  | VDateTime x, VDateTime y => Ok (RawDateTime_eq x y)
  | VDateTime x, VString y => d <- stringAsDateTime y ;; Ok (RawDateTime_eq x d)
  | _, _ => no_compare a b
  end.

Definition compatibleLess (pa pb : place) (a b : Variant) : outcome VariantError bool :=
  if same_object pa pb then Ok false else
  match a, b with
  | VNum x, VNum y => Ok (num_cop OpLt x y)
  | VString x, VString y => r <- strcmp x y ;; Ok (r <? 0)
  | VString x, VDateTime y => d <- stringAsDateTime x ;; Ok (RawDateTime_lt d y)
  | VBinary x, VBinary y => Ok (is_gt (lex y x))
  | VDateTime x, VDateTime y => Ok (RawDateTime_lt x y)
  | VDateTime x, VString y => d <- stringAsDateTime y ;; Ok (RawDateTime_lt x d)
  | _, _ => no_compare a b
  end.

Definition compatibleLessOrEqual (pa pb : place) (a b : Variant) : outcome VariantError bool :=
  if same_object pa pb then Ok true else
  match a, b with
  | VNum x, VNum y => Ok (num_cop OpLe x y)
  | VString x, VString y => r <- strcmp x y ;; Ok (r <=? 0)
  | VString x, VDateTime y => d <- stringAsDateTime x ;; Ok (RawDateTime_le d y)
  | VBinary x, VBinary y => Ok (is_ge (lex y x))
  | VDateTime x, VDateTime y => Ok (RawDateTime_le x y)
  | VDateTime x, VString y => d <- stringAsDateTime y ;; Ok (RawDateTime_le x d)
  | _, _ => no_compare a b
  end.

Definition compatibleGreater (pa pb : place) (a b : Variant) : outcome VariantError bool :=
  if same_object pa pb then Ok false else
  match a, b with
  | VNum x, VNum y => Ok (num_cop OpGt x y)
  | VString x, VString y => r <- strcmp x y ;; Ok (r >? 0)
  | VString x, VDateTime y => d <- stringAsDateTime x ;; Ok (RawDateTime_gt d y)
  | VBinary x, VBinary y => Ok (is_gt (lex x y))
  | VDateTime x, VDateTime y => Ok (RawDateTime_gt x y)
  | VDateTime x, VString y => d <- stringAsDateTime y ;; Ok (RawDateTime_gt x d)
  | _, _ => no_compare a b
  end.

Definition compatibleGreaterOrEqual (pa pb : place) (a b : Variant) : outcome VariantError bool :=
  if same_object pa pb then Ok true else
  match a, b with
  | VNum x, VNum y => Ok (num_cop OpGe x y)
  | VString x, VString y => r <- strcmp x y ;; Ok (r >=? 0)
  | VString x, VDateTime y => d <- stringAsDateTime x ;; Ok (RawDateTime_ge d y)
  | VBinary x, VBinary y => Ok (is_ge (lex x y))
  | VDateTime x, VDateTime y => Ok (RawDateTime_ge x y)
  | VDateTime x, VString y => d <- stringAsDateTime y ;; Ok (RawDateTime_ge x d)
  | _, _ => no_compare a b
  end.
End Compatible.

(** ** Facts on the comparisons of numbers *)

Lemma float_le_lt_eq x y : float_cop OpLe x y = float_cop OpLt x y || float_cop OpEq x y.
Proof. cbn. unfold SFleb, SFltb, SFeqb. destruct (SFcompare x y) as [[]|]; reflexivity. Qed.

Lemma int_le_lt_eq x y : int_cop OpLe x y = int_cop OpLt x y || int_cop OpEq x y.
Proof. cbn. zcases; lia. Qed.

Lemma c_le_lt_eq a b : c_cop OpLe a b = c_cop OpLt a b || c_cop OpEq a b.
Proof. destruct a, b; cbn [c_cop]; (apply int_le_lt_eq || apply float_le_lt_eq). Qed.

(** On equal types the operators mirror each other. *)
Lemma c_gt_lt a b : type_of_cnum a = type_of_cnum b ->
  c_cop OpGt a b = c_cop OpLt b a /\ c_cop OpGe a b = c_cop OpLe b a.
Proof. destruct a as [s x|f x], b as [t y|g y]; cbn; intros [= ->]; split; reflexivity. Qed.

Lemma lex_is_ge a b : is_ge (lex a b) = is_gt (lex a b) || bytes_eqb a b.
Proof. unfold bytes_eqb. destruct (lex a b); reflexivity. Qed.

Lemma bytes_eqb_sym a b : bytes_eqb a b = bytes_eqb b a.
Proof. unfold bytes_eqb. rewrite (lex_antisym a b). destruct (lex a b); reflexivity. Qed.

Lemma VariantType_eqb_eq a b : VariantType_eqb a b = true <-> a = b.
Proof. unfold VariantType_eqb. destruct (VariantType_eq_dec a b); split; congruence. Qed.

Lemma same_type_num x y : same_type (VNum x) (VNum y) = true -> type_of_cnum x = type_of_cnum y.
Proof.
  unfold same_type. rewrite VariantType_eqb_eq. cbn [getValueType].
  destruct (type_of_cnum x) as [[]|[]], (type_of_cnum y) as [[]|[]]; cbn; intros H; try discriminate; reflexivity.
Qed.

Lemma num_other_type x v : isNumeric v = false -> same_type (VNum x) v = false /\ same_type v (VNum x) = false.
Proof.
  unfold same_type, isNumeric. cbn [getValueType].
  destruct (type_of_cnum x) as [[]|[]], (getValueType v); cbn; try discriminate; auto.
Qed.

Lemma same_type_sym a b : same_type a b = same_type b a.
Proof.
  unfold same_type, VariantType_eqb.
  destruct (VariantType_eq_dec (getValueType a)), (VariantType_eq_dec (getValueType b)); congruence.
Qed.

Lemma same_object_sym pa pb : same_object pa pb = same_object pb pa.
Proof. unfold same_object. apply Z.eqb_sym. Qed.

(** Values with a comparison of their own. *)
Definition has_order (v : Variant) : bool :=
  match v with VNull | VDateTime _ => false | _ => true end.

(** the same-type comparison operators are consistent with each other, on
    all variants: [!=] negates [==], [>] and [>=] are [<] and [<=] with the
    operands exchanged; and on variants other than nulls and date-times [<=] is
    [<] or [==]. *)
Theorem variant_operators_consistent pa pb a b :
  Variant_ne pa pb a b = negb (Variant_eq pa pb a b) /\
  Variant_gt pa pb a b = Variant_lt pb pa b a /\
  Variant_ge pa pb a b = Variant_le pb pa b a /\
  (has_order a = true -> Variant_le pa pb a b = Variant_lt pa pb a b || Variant_eq pa pb a b).
Proof.
  unfold Variant_ne, Variant_eq, Variant_gt, Variant_lt, Variant_ge, Variant_le.
  rewrite !(same_object_sym pb pa), !(same_type_sym b a).
  destruct (same_object pa pb); [repeat split; reflexivity|].
  destruct (same_type a b) eqn:Ht; cbn [negb].
  2:{ repeat split; try reflexivity. intros _. now rewrite orb_false_r. }
  destruct a as [|x|x|x|x|x|x|x], b as [|y|y|y|y|y|y|y]; try discriminate; try (match type of Ht with same_type (VNum ?x) ?v = true => now rewrite (proj1 (num_other_type x v eq_refl)) in Ht
      | same_type ?v (VNum ?x) = true => now rewrite (proj2 (num_other_type x v eq_refl)) in Ht end);
    cbn [has_order];
    try (repeat split; (reflexivity || discriminate || (intros _; symmetry; apply orb_false_r))).
  - destruct x, y; repeat split; reflexivity.
  - destruct (c_gt_lt x y (same_type_num x y Ht)) as [H1 H2].
    repeat split; try assumption. intros _. apply c_le_lt_eq.
  - repeat split. intros _. rewrite (bytes_eqb_sym x y). apply lex_is_ge.
  - repeat split. intros _. rewrite (bytes_eqb_sym x y). apply lex_is_ge.
Qed.

Lemma variant_operators_consistent_witness :
  let p1 := {| this_at := 1; lob_at := 0 |} in let p2 := {| this_at := 2; lob_at := 0 |} in
  Variant_le p1 p2 (VString [97]) (VString [97; 98]) =
    Variant_lt p1 p2 (VString [97]) (VString [97; 98]) || Variant_eq p1 p2 (VString [97]) (VString [97; 98]).
Proof. refine (proj2 (proj2 (proj2 (variant_operators_consistent _ _ (VString [97]) (VString [97; 98])))) _). reflexivity. Defined.

(** two distinct date-time variants always compare equal with [==] and never
    with [<=] or [>=], whatever their values, because the operators have no case
    for them. *)
Theorem datetime_variants_all_equal pa pb d1 d2 : this_at pa <> this_at pb ->
  Variant_eq pa pb (VDateTime d1) (VDateTime d2) = true /\
  Variant_le pa pb (VDateTime d1) (VDateTime d2) = false /\
  Variant_ge pa pb (VDateTime d1) (VDateTime d2) = false.
Proof.
  intros H. unfold Variant_eq, Variant_le, Variant_ge, same_object.
  rewrite (proj2 (Z.eqb_neq _ _)) by congruence. repeat split; reflexivity.
Qed.

Lemma datetime_variants_all_equal_witness :
  Variant_eq {| this_at := 1; lob_at := 0 |} {| this_at := 2; lob_at := 0 |}
    (VDateTime {| m_timePart := kZeroRawTime; m_datePart := mkRawDate 1999 0 0 5 false |})
    (VDateTime {| m_timePart := kZeroRawTime; m_datePart := mkRawDate 2020 1 28 6 false |}) = true.
Proof. refine (proj1 (datetime_variants_all_equal _ _ _ _ _)). discriminate. Defined.

(** ** Compatible comparison of integers *)

(** The values the casts of the table leave. *)
Definition left_value (s t : ity) (x : Z) : Z :=
  match s with
  | U32 => if signed t then sw 32 x else x
  | U64 => if signed t then sw 64 x else x
  | _ => x
  end.

Definition right_value (s t : ity) (y : Z) : Z :=
  match t, s with
  | U32, (I8 | I16 | I32) => sw 32 y
  | U64, (I8 | I16 | I32 | I64) => sw 64 y
  | _, _ => y
  end.

(** A 32 or 64-bit unsigned value that is compared with a signed one and does not
    fit in the signed type of its width. *)
Definition fits_signed (s t : ity) (x : Z) : Prop :=
  signed t = true -> s = U32 \/ s = U64 -> x < 2 ^ (ibits s - 1).

Lemma left_value_id s t x : in_ity s x = true -> fits_signed s t x -> left_value s t x = x.
Proof.
  intros Hx Hf. apply in_ity_spec in Hx. unfold fits_signed in Hf.
  destruct s; try reflexivity; cbn [left_value signed ibits] in *; unfold u_ok in Hx; destruct (signed t); try reflexivity;
    apply sw_small; try lia; unfold s_ok; pose proof (Hf eq_refl ltac:(auto)); cbn in *; lia.
Qed.

Lemma right_value_id s t y : in_ity t y = true -> fits_signed t s y -> right_value s t y = y.
Proof.
  intros Hy Hf. apply in_ity_spec in Hy. unfold fits_signed in Hf.
  destruct t; try reflexivity; cbn [right_value signed ibits] in *; unfold u_ok in Hy; destruct s; try reflexivity;
    apply sw_small; try lia; unfold s_ok; pose proof (Hf eq_refl ltac:(auto)); cbn in *; lia.
Qed.

Lemma c_cop_int op a b x y : in_ity a x = true -> in_ity b y = true ->
  signed (common a b) = true \/ (0 <= x /\ 0 <= y) -> c_cop op (CI a x) (CI b y) = int_cop op x y.
Proof.
  intros Hx Hy Hs. cbn [c_cop]. rewrite (conv_common a b x) by tauto.
  rewrite (common_comm a b), (conv_common b a y) by (rewrite ?(common_comm b a); tauto). reflexivity.
Qed.

Lemma in_ity_nonneg t z : signed t = false -> in_ity t z = true -> 0 <= z.
Proof. intros Hs Hz. apply in_ity_spec in Hz. rewrite Hs in Hz. apply Hz. Qed.

Lemma num_cop_int op s t x y : in_ity s x = true -> in_ity t y = true ->
  num_cop op (CI s x) (CI t y) = int_cop op (left_value s t x) (right_value s t y).
Proof.
  intros Hx Hy. unfold num_cop.
  assert (Hc : forall a b x y, in_ity a x = true -> in_ity b y = true ->
    signed (common a b) || (negb (signed a) && negb (signed b)) = true ->
    c_cop op (CI a x) (CI b y) = int_cop op x y).
  { intros a b x0 y0 Ha Hb Hs. apply c_cop_int; try assumption.
    apply orb_true_iff in Hs as [Hs|Hs]; [now left|right].
    apply andb_true_iff in Hs as [H1 H2]. apply negb_true_iff in H1, H2.
    split; [exact (in_ity_nonneg a x0 H1 Ha)|exact (in_ity_nonneg b y0 H2 Hb)]. }
  destruct s, t; cbn [cast_left cast_right signed left_value right_value];
    apply Hc; try assumption; try reflexivity; apply (conv_in I32) || apply (conv_in I64).
Qed.

(** comparing integers of any two types.  The result is that of comparing
    the integers themselves, unless an unsigned 32 or 64-bit value at or above
    half of its range meets a signed operand. *)
Theorem compatible_integers {D : Utf8Decoder} sdt pa pb s t x y :
  this_at pa <> this_at pb -> in_ity s x = true -> in_ity t y = true ->
  fits_signed s t x -> fits_signed t s y ->
  let a := VNum (CI s x) in let b := VNum (CI t y) in
  compatibleEqual sdt pa pb a b = Ok (x =? y) /\
  compatibleLess sdt pa pb a b = Ok (x <? y) /\
  compatibleLessOrEqual sdt pa pb a b = Ok (x <=? y) /\
  compatibleGreater sdt pa pb a b = Ok (y <? x) /\
  compatibleGreaterOrEqual sdt pa pb a b = Ok (y <=? x).
Proof.
  intros Hp Hx Hy Fx Fy a b.
  assert (Hn : forall op, num_cop op (CI s x) (CI t y) = int_cop op x y).
  { intros op. rewrite num_cop_int, left_value_id, right_value_id by assumption. reflexivity. }
  unfold compatibleEqual, compatibleLess, compatibleLessOrEqual, compatibleGreater, compatibleGreaterOrEqual, same_object.
  rewrite (proj2 (Z.eqb_neq _ _)) by congruence. cbn [a b]. rewrite !Hn. repeat split; reflexivity.
Qed.

Lemma compatible_integers_witness :
  compatibleLess (fun _ => Throw Utf8Error) {| this_at := 1; lob_at := 0 |} {| this_at := 2; lob_at := 0 |}
    (VNum (CI I8 (-5))) (VNum (CI U64 7)) = Ok true.
Proof.
  refine (proj1 (proj2 (compatible_integers (fun _ => Throw Utf8Error) {| this_at := 1; lob_at := 0 |} {| this_at := 2; lob_at := 0 |}
    I8 U64 (-5) 7 _ _ _ _ _))).
  - discriminate.
  - reflexivity.
  - reflexivity.
  - intros _ [|]; discriminate.
  - intros _ _. reflexivity.
Defined.

(** beyond that, comparison is not even symmetric: an unsigned 32-bit value
    with its top bit set differs from the equal 64-bit signed value when it is
    the left operand and equals it when it is the right one, and the 32-bit
    signed value with the same bits, a negative one, compares equal to it. *)
Theorem compatible_not_symmetric {D : Utf8Decoder} sdt pa pb v : this_at pa <> this_at pb -> 2 ^ 31 <= v < 2 ^ 32 ->
  compatibleEqual sdt pa pb (VNum (CI U32 v)) (VNum (CI I64 v)) = Ok false /\
  compatibleEqual sdt pb pa (VNum (CI I64 v)) (VNum (CI U32 v)) = Ok true /\
  compatibleEqual sdt pa pb (VNum (CI U32 v)) (VNum (CI I32 (v - 2 ^ 32))) = Ok true.
Proof.
  intros Hp Hv. pow_norm. unfold compatibleEqual, same_object.
  rewrite !(proj2 (Z.eqb_neq _ _)) by congruence.
  assert (Hsw : sw 32 v = v - 2 ^ 32).
  { unfold sw. pow_norm. rewrite <- (Z_mod_plus_full _ (-1)), Z.mod_small by lia. lia. }
  assert (Hu : in_ity U32 v = true) by (apply in_ity_spec; unfold u_ok; cbn; lia).
  rewrite !num_cop_int; try assumption; try (apply in_ity_spec; unfold s_ok; cbn; lia).
  cbn [left_value right_value signed int_cop]. rewrite Hsw. pow_norm.
  rewrite (proj2 (Z.eqb_neq _ _)), !Z.eqb_refl by lia. repeat split; reflexivity.
Qed.

Lemma compatible_not_symmetric_witness :
  compatibleEqual (fun _ => Throw Utf8Error) {| this_at := 1; lob_at := 0 |} {| this_at := 2; lob_at := 0 |}
    (VNum (CI U32 4294967295)) (VNum (CI I64 4294967295)) = Ok false.
Proof.
  refine (proj1 (compatible_not_symmetric (fun _ => Throw Utf8Error) {| this_at := 1; lob_at := 0 |}
    {| this_at := 2; lob_at := 0 |} 4294967295 _ _)); [discriminate|lia].
Defined.
