(* ===== verification/VariantConv.v ===== *)
(** * Conversions of variants

    Models [Variant_Conversions.cpp] and [Variant::concatenate].  Converting a
    LOB reads it from its current position to its end, so a conversion returns
    the variant after it as well.  Conversions between text and floating-point
    numbers are those of the C library ([stof], [stod], [snprintf]) and dates in
    text those of the date library: parameters. *)

From Stdlib Require Import ZArith List Lia Bool SpecFloat.
From S2P Require Import Prelude PlainBinary CNum RawDateTime VariantType Lob Variant.
Import ListNotations.
Open Scope Z_scope.

(** ** Text to integer: [strtoll] and [strtoull] with base 0 *)

Definition is_space (c : Z) : bool := (c =? 32) || ((9 <=? c) && (c <=? 13)).

Fixpoint skip_space (s : list Z) : list Z :=
  match s with
  | c :: s' => if is_space c then skip_space s' else s
  | [] => []
  end.

Definition digit_value (c : Z) : option Z :=
  if (48 <=? c) && (c <=? 57) then Some (c - 48)
  else if (97 <=? c) && (c <=? 102) then Some (c - 87)
  else if (65 <=? c) && (c <=? 70) then Some (c - 55)
  else None.

Definition digit_in (base c : Z) : option Z :=
  match digit_value c with
  | Some d => if d <? base then Some d else None
  | None => None
  end.

(** The value of the longest run of digits, and the rest; [any] tells whether
    there was a digit. *)
Fixpoint read_digits (base : Z) (s : list Z) (acc : Z) (any : bool) : bool * Z * list Z :=
  match s with
  | c :: s' =>
      match digit_in base c with
      | Some d => read_digits base s' (acc * base + d) true
      | None => (any, acc, s)
      end
  | [] => (any, acc, [])
  end.

(** After the sign: the base by the prefix. *)
Definition read_number (s : list Z) : bool * Z * list Z :=
  match s with
  | 48 :: x :: h :: s' =>
      if (x =? 120) || (x =? 88) then
        match digit_in 16 h with
        | Some _ => read_digits 16 (h :: s') 0 false
        | None => (true, 0, x :: h :: s')
        end
      else read_digits 8 s 0 false
  | 48 :: _ => read_digits 8 s 0 false
  | _ => read_digits 10 s 0 false
  end.

(** Sign, magnitude and rest; [None] when there is no number. *)
Definition strto (s : list Z) : option (bool * Z * list Z) :=
  let s := skip_space s in
  let '(neg, s) := match s with
                   | 45 :: s' => (true, s')
                   | 43 :: s' => (false, s')
                   | _ => (false, s)
                   end in
  let '(any, v, rest) := read_number s in
  if any then Some (neg, v, rest) else None.

Inductive std_error : Type := InvalidArgument | OutOfRange.

(** [std::stoll(s, &pos, 0)] with the test [pos != s.length()] the code makes. *)
Definition stoll (s : list Z) : outcome std_error Z :=
  match strto s with
  | None => Throw InvalidArgument
  | Some (neg, v, rest) =>
      let v := if neg then - v else v in
      if in_ity I64 v then match rest with [] => Ok v | _ => Throw InvalidArgument end
      else Throw OutOfRange
  end.

(** [std::stoull(s, &pos, 0)]: a minus sign negates modulo 2^64. *)
Definition stoull (s : list Z) : outcome std_error Z :=
  match strto s with
  | None => Throw InvalidArgument
  | Some (neg, v, rest) =>
      if v <=? imax U64 then
        match rest with [] => Ok (if neg then uw 64 (- v) else v) | _ => Throw InvalidArgument end
      else Throw OutOfRange
  end.

(** [stringToInt8] to [stringToUInt64]: signed types through [stoll], unsigned
    ones through [stoull], then the range of the type. *)
Definition stringToInt (src : VariantType) (t : ity) (s : list Z) : outcome VariantError Z :=
  match (if signed t then stoll s else stoull s) with
  | Ok v => if in_ity t v then Ok v else Throw (VariantTypeCastError src (vt_of_ity t))
  | Throw _ => Throw (VariantTypeCastError src (vt_of_ity t))
  | Undef u => Undef u
  end.

Definition kTrueString : list Z := [116; 114; 117; 101].
Definition kFalseString : list Z := [102; 97; 108; 115; 101].

Definition bytes_same (a b : list Z) : bool := if list_eq_dec Z.eq_dec a b then true else false.

Definition stringToBool (src : VariantType) (s : list Z) : outcome VariantError bool :=
  if bytes_same s kTrueString then Ok true else
  if bytes_same s kFalseString then Ok false else
  Throw (VariantTypeCastError src kBool).

(** ** Binary values to numbers *)

Definition isize (t : ity) : Z := ibits t / 8.

Definition binaryToBool (src : VariantType) (b : list Z) : outcome VariantError bool :=
  if len b >? 0 then x <- rd b 0 ;; Ok (negb (x =? 0)) else Throw (VariantTypeCastError src kBool).

(** [binaryToInt8] to [binaryToUInt64]: the low bytes, or all of them extended
    with zeros when that is asked for. *)
Definition binaryToInt (src : VariantType) (t : ity) (autoExtend : bool) (b : list Z) : outcome VariantError Z :=
  if len b >? isize t - 1 then l <- memrd b 0 (isize t) ;; Ok (conv t (le_load l))
  else if negb (len b =? 0) && autoExtend then
    Ok (conv t (le_load (b ++ repeat 0 (Z.to_nat (isize t - len b)))))
  else Throw (VariantTypeCastError src (vt_of_ity t)).

(** The error of [binaryToDouble] names the float type too. *)
Definition binaryToFloat (src : VariantType) (b : list Z) : outcome VariantError spec_float :=
  if len b >? 3 then x <- pbeDecodeFloat b ;; Ok (bits_float F32 x)
  else Throw (VariantTypeCastError src kFloat).

Definition binaryToDouble (src : VariantType) (b : list Z) : outcome VariantError spec_float :=
  if len b >? 7 then x <- pbeDecodeDouble b ;; Ok (bits_float F64 x)
  else Throw (VariantTypeCastError src kFloat).

Definition binaryToDateTime (src : VariantType) (uninit : RawDateTime) (b : list Z) : outcome VariantError RawDateTime :=
  if len b <? 4 then Throw (VariantTypeCastError src kDateTime) else
  x <- deserializeDatePart uninit b ;;
  if m_hasTimePart (m_datePart x) then
    if len b <? 10 then Throw (VariantTypeCastError src kDateTime)
    else '(x, _) <- RawDateTime.deserialize x b (len b) ;; Ok x
  else Ok x.

(** [binaryToString]: lower-case hexadecimal digits. *)
Definition binaryToString (src dst : VariantType) (maxOutputLength : Z) (b : list Z) : outcome VariantError (list Z) :=
  if len b =? 0 then Ok [] else
  if len b * 2 >? maxOutputLength then Throw (VariantTypeCastError src dst) else
  Ok (c_str (hex b)).

(** ** LOBs *)

(** [init] is what a fresh buffer holds. *)
Definition readClobAsStringForConversion (init : Z -> list Z) (dst : VariantType) (l : MemLob)
  : outcome VariantError (list Z) * MemLob :=
  let clobSize := getRemainingSize l in
  if clobSize >? kMaxStringValueLength then (Throw (VariantTypeCastError kClob dst), l) else
  match readAsString init l clobSize with
  | Ok (s, l') => (Ok s, l')
  | Throw _ => (Throw (VariantTypeCastError kClob dst), l)
  | Undef u => (Undef u, l)
  end.

Definition readBlobAsBinaryForConversion (dst : VariantType) (l : MemLob)
  : outcome VariantError (list Z) * MemLob :=
  let blobSize := getRemainingSize l in
  if blobSize >? kMaxBinaryValueLength then (Throw (VariantTypeCastError kBlob dst), l) else
  match readAsBinary l blobSize with
  | Ok (s, l') => (Ok s, l')
  | Throw _ => (Throw (VariantTypeCastError kBlob dst), l)
  | Undef u => (Undef u, l)
  end.

(** ** Conversions *)

Definition member_int8 (unsigned_member : bool) (z : Z) : Z := if unsigned_member then uw 8 z else z.

Section Conversions.
Context (init : Z -> list Z).

(** A conversion applied to the text of a CLOB or the bytes of a BLOB. *)
Definition with_clob {A} (dst : VariantType) (l : MemLob) (f : list Z -> outcome VariantError A)
  : outcome VariantError A * Variant :=
  let '(r, l') := readClobAsStringForConversion init dst l in (s <- r ;; f s, VClob l').

Definition with_blob_bytes {A} (dst : VariantType) (l : MemLob) (f : list Z -> outcome VariantError A)
  : outcome VariantError A * Variant :=
  let '(r, l') := readBlobAsBinaryForConversion dst l in (s <- r ;; f s, VBlob l').

Definition asBool (v : Variant) : outcome VariantError bool * Variant :=
  match v with
  | VBool b => (Ok b, v)
  | VNum (CI _ z) => (Ok (negb (z =? 0)), v)
  | VNum (CF f x) => (Ok (negb (SFeqb x (S754_zero false))), v)
  | VString s => (stringToBool kString s, v)
  | VBinary b => (binaryToBool kBinary b, v)
  | VClob l => with_clob kBool l (stringToBool kClob)
  | VBlob l => with_blob_bytes kBool l (binaryToBool kBlob)
  | _ => (Throw (VariantTypeCastError (getValueType v) kBool), v)
  end.

(** The integer conversions: [u8_member] tells whether the case of an [int8]
    value reads the unsigned member of the union. *)
Definition as_integer (t : ity) (u8_member autoExtend : bool) (v : Variant) : outcome VariantError Z * Variant :=
  match v with
  | VBool b => (Ok (if b then 1 else 0), v)
  | VNum (CI I8 z) => (Ok (conv t (member_int8 u8_member z)), v)
  | VNum n => (cast_int t n, v)
  | VString s => (stringToInt kString t s, v)
  | VBinary b => (binaryToInt kBinary t autoExtend b, v)
  | VClob l => with_clob (vt_of_ity t) l (stringToInt kClob t)
  | VBlob l => with_blob_bytes (vt_of_ity t) l (binaryToInt kBlob t autoExtend)
  | _ => (Throw (VariantTypeCastError (getValueType v) (vt_of_ity t)), v)
  end.

Definition asInt8 (v : Variant) := as_integer I8 false false v.
(** Declared to return [std::int8_t]. *)
Definition asUInt8 (v : Variant) : outcome VariantError Z * Variant :=
  let '(r, v') := as_integer U8 true false v in (z <- r ;; Ok (conv I8 z), v').
Definition asInt16 (autoExtend : bool) (v : Variant) := as_integer I16 false autoExtend v.
Definition asUInt16 (autoExtend : bool) (v : Variant) := as_integer U16 true autoExtend v.
Definition asInt32 (autoExtend : bool) (v : Variant) := as_integer I32 true autoExtend v.
Definition asUInt32 (autoExtend : bool) (v : Variant) := as_integer U32 true autoExtend v.
Definition asInt64 (autoExtend : bool) (v : Variant) := as_integer I64 true autoExtend v.
Definition asUInt64 (autoExtend : bool) (v : Variant) := as_integer U64 true autoExtend v.

(** [float] and [double]: the text conversions of the C library, [None] for the
    exceptions and for a number that does not end the string. *)
Context (stof stod : list Z -> option spec_float).

Definition from_text {A} (src dst : VariantType) (f : list Z -> option A) (s : list Z) : outcome VariantError A :=
  match f s with Some x => Ok x | None => Throw (VariantTypeCastError src dst) end.

Definition asFloat (v : Variant) : outcome VariantError spec_float * Variant :=
  match v with
  | VBool b => (Ok (of_int F32 (if b then 1 else 0)), v)
  | VNum (CI I8 z) => (Ok (of_int F32 (uw 8 z)), v)
  | VNum n => (Ok (to_float F32 n), v)
  | VString s => (from_text kString kFloat stof s, v)
  | VBinary b => (binaryToFloat kBinary b, v)
  | VClob l => with_clob kFloat l (from_text kClob kFloat stof)
  | VBlob l => with_blob_bytes kFloat l (binaryToFloat kBlob)
  | _ => (Throw (VariantTypeCastError (getValueType v) kFloat), v)
  end.

Definition asDouble (v : Variant) : outcome VariantError spec_float * Variant :=
  match v with
  | VBool b => (Ok (of_int F64 (if b then 1 else 0)), v)
  | VNum (CI I8 z) => (Ok (of_int F64 (uw 8 z)), v)
  | VNum n => (Ok (to_float F64 n), v)
  | VString s => (from_text kString kDouble stod s, v)
  | VBinary b => (binaryToDouble kBinary b, v)
  | VClob l => with_clob kDouble l (from_text kClob kDouble stod)
  | VBlob l => with_blob_bytes kDouble l (binaryToDouble kBlob)
  | _ => (Throw (VariantTypeCastError (getValueType v) kDouble), v)
  end.

(** Dates: [date_parse] reads a time point in one of the default formats, [ymd]
    and [weekday] are the calendar, [gmtime] is the C library's, [uninit] is the
    memory of a date-time object before it is assigned. *)
Inductive dt_format : Type := DefaultDateTimeFormat | DefaultDateTimeFormatAMPM | DefaultDateFormat.

Definition toupper (c : Z) : Z := if (97 <=? c) && (c <=? 122) then c - 32 else c.

Definition getDateTimeFormat (s : list Z) : outcome VariantError dt_format :=
  if len s =? 0 then Throw StdInvalidArgument else
  if len s >? kMaxDateStringLength then
    last <- rd s (len s - 1) ;;
    if toupper last =? 77 then
      c <- rd s (len s - 2) ;;
      if (toupper c =? 65) || (toupper c =? 80) then Ok DefaultDateTimeFormatAMPM else Ok DefaultDateTimeFormat
    else Ok DefaultDateTimeFormat
  else Ok DefaultDateFormat.

Context (date_parse : dt_format -> list Z -> option Z) (ymd : Z -> Z * Z * Z) (weekday : Z -> Z)
  (gmtime : Z -> option tm) (uninit : RawDateTime).

Definition stringToDateTime (src : VariantType) (format : dt_format) (s : list Z) : outcome VariantError RawDateTime :=
  match parse ymd weekday (len s) (date_parse format s) with
  | Ok d => Ok d
  | Throw _ => Throw (VariantTypeCastError src kDateTime)
  | Undef u => Undef u
  end.

Definition tmToDateTime (src : VariantType) (t : tm) : outcome VariantError RawDateTime :=
  let year := tm_year t + 1900 in
  if (year <? kMinYear) || (year >? kMaxYear) then Throw (VariantTypeCastError src kDateTime) else
  Ok {| m_timePart := {| m_reserved1 := m_reserved1 (m_timePart uninit); m_nanos := 0;
          m_seconds := uw 6 (tm_sec t); m_minutes := uw 6 (tm_min t); m_hours := uw 5 (tm_hour t);
          m_reserved2 := m_reserved2 (m_timePart uninit) |};
        m_datePart := {| m_hasTimePart := m_hasTimePart (m_datePart uninit); m_dayOfWeek := uw 3 (tm_wday t);
          m_dayOfMonth := uw 5 (tm_mday t); m_month := uw 4 (tm_mon t); m_year := year |} |}.

Definition timestampToDateTime (src : VariantType) (timestamp : Z) : outcome VariantError RawDateTime :=
  match gmtime timestamp with
  | None => Throw (VariantTypeCastError src kDateTime)
  | Some t => tmToDateTime src t
  end.

(** [asDateTime] without a format. *)
Definition asDateTime (v : Variant) : outcome VariantError RawDateTime * Variant :=
  let text src s := f <- getDateTimeFormat s ;; stringToDateTime src f s in
  match v with
  | VBool b => (timestampToDateTime kBool (if b then 1 else 0), v)
  | VNum n => (z <- cast_int I64 n ;; timestampToDateTime (getValueType v) z, v)
  | VDateTime d => (Ok d, v)
  | VString s => (text kString s, v)
  | VBinary b => (binaryToDateTime kBinary uninit b, v)
  | VClob l => with_clob kDateTime l (text kClob)
  | VBlob l => with_blob_bytes kDateTime l (binaryToDateTime kBlob uninit)
  | VNull => (Throw (VariantTypeCastError kNull kDateTime), v)
  end.

(** Text: [print_float] is [snprintf] with [%.8f], [date_format] the library's
    formatting of a time point in the default format. *)
Context (print_float : fty -> spec_float -> list Z) (date_format : Z -> list Z).

Definition asString (v : Variant) : outcome VariantError (list Z) * Variant :=
  match v with
  | VBool b => (Ok (if b then kTrueString else kFalseString), v)
  | VNum (CI _ z) => (Ok (print_d z), v)
  | VNum (CF f x) => (Ok (print_float f x), v)
  | VDateTime d => (Ok (date_format (format_duration d)), v)
  | VString s => (Ok s, v)
  | VBinary b => (binaryToString kBinary kString kMaxStringValueLength b, v)
  | VClob l => with_clob kString l (fun s => Ok s)
  | VBlob l => with_blob_bytes kString l (binaryToString kBlob kString kMaxStringValueLength)
  | VNull => (Throw (VariantTypeCastError kNull kString), v)
  end.

(** The case of a [double] encodes the [float] member of the union: the low half
    of its bits. *)
Definition asBinary (v : Variant) : outcome VariantError (list Z) * Variant :=
  match v with
  | VBool b => (Ok [if b then 1 else 0], v)
  | VNum (CI t z) => (Ok (le_store (Z.to_nat (isize t)) z), v)
  | VNum (CF F32 x) => (Ok (pbeEncodeFloat (float_bits F32 x)), v)
  | VNum (CF F64 x) =>
      (Ok (pbeEncodeDouble (float_bits F64 (fconv F64 (bits_float F32 (uw 32 (float_bits F64 x)))))), v)
  | VDateTime d => (Ok (serialize d), v)
  | VString s => (Ok s, v)
  | VBinary b => (Ok b, v)
  | VClob l => with_clob kBinary l (fun s => Ok s)
  | VBlob l => with_blob_bytes kBinary l (fun b => Ok b)
  | VNull => (Throw (VariantTypeCastError kNull kBinary), v)
  end.

(** LOB views: a stream of its own, or a wrapper of the variant's stream. *)
Inductive clob_value : Type := ClobOwn (l : MemLob) | ClobOfBlob (w : BlobWrapper MemLob).
Inductive blob_value : Type := BlobOwn (l : MemLob) | BlobOfClob (w : ClobWrapper MemLob).

Definition asClob (v : Variant) : outcome VariantError clob_value * Variant :=
  match v with
  | VNull => (Throw (VariantTypeCastError kNull kClob), v)
  | VClob l => (Ok (ClobOwn l), v)
  | VBlob l => (Ok (ClobOfBlob (newBlobWrapper l)), v)
  | v => let '(r, v') := asString v in (s <- r ;; Ok (ClobOwn (newMemLob s)), v')
  end.

Definition asBlob (v : Variant) : outcome VariantError blob_value * Variant :=
  match v with
  | VNull => (Throw (VariantTypeCastError kNull kBlob), v)
  | VBlob l => (Ok (BlobOwn l), v)
  | VClob l => (Ok (BlobOfClob (newClobWrapper l)), v)
  | v => let '(r, v') := asBinary v in (s <- r ;; Ok (BlobOwn (newMemLob s)), v')
  end.

(** [Variant::concatenate]: [asString] of a string is the string itself.  The
    operands after it are returned too. *)
Definition concatenate (a b : Variant) : outcome VariantError Variant * Variant * Variant :=
  let '(ra, a') := asString a in
  match ra with
  | Ok s =>
      let '(rb, b') := asString b in
      (t <- rb ;; Ok (VString (s ++ t)), a', b')
  | Throw e => (Throw e, a', b)
  | Undef u => (Undef u, a', b)
  end.
End Conversions.

(** ** Printing and reading integers *)

Lemma digit_in_10 d : 0 <= d < 10 -> digit_in 10 (48 + d) = Some d.
Proof.
  intros Hd. unfold digit_in, digit_value. rewrite (proj2 (Z.leb_le 48 _)), (proj2 (Z.leb_le _ 57)) by lia. cbn [andb].
  rewrite (proj2 (Z.ltb_lt _ 10)) by lia. f_equal. lia.
Qed.

Lemma read_digits_print n : forall z acc any, (0 < n)%nat -> 0 <= z < 10 ^ Z.of_nat n ->
  read_digits 10 (digits n z acc) 0 any = read_digits 10 acc z true.
Proof.
  induction n as [|n IH]; intros z acc any Hn Hz; [lia|]. cbn [digits].
  pose proof (Z.mod_pos_bound z 10 ltac:(lia)) as Hm. pose proof (Z.div_mod z 10 ltac:(lia)) as Hd.
  destruct (Z.eqb_spec (z / 10) 0) as [E0|E0].
  - cbn [read_digits]. rewrite digit_in_10 by assumption. f_equal. lia.
  - assert (Hq : 0 <= z / 10 < 10 ^ Z.of_nat n).
    { rewrite Nat2Z.inj_succ, Z.pow_succ_r in Hz by lia. split; [apply Z.div_pos; lia|apply Z.div_lt_upper_bound; lia]. }
    rewrite IH; [|destruct n; [cbn in Hq; lia|lia]|assumption].
    cbn [read_digits]. rewrite digit_in_10 by assumption. f_equal. lia.
Qed.

(** A positive number starts with a digit other than 0. *)
Lemma digits_head n : forall z acc, 0 < z < 10 ^ Z.of_nat n ->
  exists c rest, digits n z acc = c :: rest /\ 49 <= c <= 57.
Proof.
  induction n as [|n IH]; intros z acc Hz; [cbn in Hz; lia|]. cbn [digits].
  pose proof (Z.mod_pos_bound z 10 ltac:(lia)) as Hm. pose proof (Z.div_mod z 10 ltac:(lia)) as Hd.
  destruct (Z.eqb_spec (z / 10) 0) as [E0|E0].
  - do 2 eexists. split; [reflexivity|]. lia.
  - apply IH. rewrite Nat2Z.inj_succ, Z.pow_succ_r in Hz by lia.
    pose proof (Z.div_pos z 10). split; [lia|]. apply Z.div_lt_upper_bound; lia.
Qed.

Lemma read_number_print z : 0 <= z < 10 ^ 20 -> read_number (digits 20 z []) = (true, z, []).
Proof.
  intros Hz. destruct (Z.eq_dec z 0) as [->|Hn]; [reflexivity|].
  assert (Hr : read_digits 10 (digits 20 z []) 0 false = (true, z, []))
    by (rewrite read_digits_print; [reflexivity|lia|exact Hz]).
  destruct (digits_head 20 z []) as (c & rest & Hd & Hc); [change (Z.of_nat 20) with 20; lia|].
  rewrite Hd in *. rewrite <- Hr.
  assert (Hcases : c = 49 \/ c = 50 \/ c = 51 \/ c = 52 \/ c = 53 \/ c = 54 \/ c = 55 \/ c = 56 \/ c = 57) by lia.
  repeat destruct Hcases as [->|Hcases]; try reflexivity. subst c. reflexivity.
Qed.

Lemma strto_print z : - 10 ^ 20 < z < 10 ^ 20 -> strto (print_d z) = Some (z <? 0, Z.abs z, []).
Proof.
  intros Hz. unfold print_d, strto. destruct (Z.ltb_spec z 0) as [Hn|Hp].
  - cbn [skip_space is_space Z.eqb Pos.eqb orb andb Z.leb Z.compare Pos.compare Pos.compare_cont].
    rewrite read_number_print by lia. f_equal. f_equal. f_equal. lia.
  - destruct (Z.eq_dec z 0) as [->|Hz0]; [reflexivity|].
    destruct (digits_head 20 z []) as (c & rest & Hd & Hc); [change (Z.of_nat 20) with 20; lia|].
    pose proof (read_number_print z ltac:(lia)) as Hr. rewrite Hd in *.
    assert (Hcases : c = 49 \/ c = 50 \/ c = 51 \/ c = 52 \/ c = 53 \/ c = 54 \/ c = 55 \/ c = 56 \/ c = 57) by lia.
    rewrite Z.abs_eq by lia.
    repeat destruct Hcases as [->|Hcases]; try (cbn [skip_space is_space Z.eqb Pos.eqb orb andb Z.leb Z.compare Pos.compare Pos.compare_cont]; rewrite Hr; reflexivity).
    subst c. cbn [skip_space is_space Z.eqb Pos.eqb orb andb Z.leb Z.compare Pos.compare Pos.compare_cont]. rewrite Hr. reflexivity.
Qed.

Lemma in_ity_bound t z : in_ity t z = true -> - 10 ^ 20 < z < 10 ^ 20.
Proof.
  unfold in_ity, imin, imax. rewrite andb_true_iff, !Z.leb_le. change (10 ^ 20) with 100000000000000000000.
  destruct t; cbn [signed ibits]; pow_norm; lia.
Qed.

Lemma stringToInt_print src t z : in_ity t z = true -> stringToInt src t (print_d z) = Ok z.
Proof.
  intros Hz. pose proof (in_ity_bound t z Hz) as Hb.
  assert (Hv : (if signed t then stoll (print_d z) else stoull (print_d z)) = Ok z).
  { destruct (signed t) eqn:Hs.
    - unfold stoll. rewrite strto_print by assumption.
      replace (if z <? 0 then - Z.abs z else Z.abs z) with z by (zcases; lia).
      rewrite (fits_in_ok t I64 z); [reflexivity|destruct t; (reflexivity || discriminate)|assumption].
    - unfold stoull. rewrite strto_print by assumption.
      assert (Hz0 : 0 <= z <= imax U64).
      { unfold in_ity in Hz. rewrite andb_true_iff, !Z.leb_le in Hz. unfold imin, imax in *.
        destruct t; try discriminate; cbn [signed ibits] in *; pow_norm; lia. }
      rewrite Z.abs_eq, (proj2 (Z.leb_le z _)), (proj2 (Z.ltb_ge z 0)) by lia. reflexivity. }
  unfold stringToInt. rewrite Hv, Hz. reflexivity.
Qed.

Lemma le_store_int t z : in_ity t z = true ->
  len (le_store (Z.to_nat (isize t)) z) = isize t /\
  conv t (le_load (le_store (Z.to_nat (isize t)) z)) = z.
Proof.
  intros Hz. assert (Hi : 8 * Z.of_nat (Z.to_nat (isize t)) = ibits t) by (destruct t; reflexivity).
  split; [rewrite len_le_store; destruct t; reflexivity|].
  rewrite le_load_store, Hi. change (z mod 2 ^ ibits t) with (uw (ibits t) z).
  pose proof Hz as Hr. apply in_ity_spec in Hr. unfold conv. destruct (signed t).
  - apply sw_of_uw_small; [apply ibits_pos|exact Hr].
  - now rewrite !uw_small by (rewrite ?uw_small; exact Hr).
Qed.

(** an integer of any type survives conversion to text and back, and to a
    binary value and back. *)
Theorem integer_conversions_roundtrip init print_float date_format t z : in_ity t z = true ->
  (exists s, asString init print_float date_format (VNum (CI t z)) = (Ok s, VNum (CI t z)) /\
    forall u8 ext, as_integer init t u8 ext (VString s) = (Ok z, VString s)) /\
  (exists b, asBinary init (VNum (CI t z)) = (Ok b, VNum (CI t z)) /\
    forall u8 ext, as_integer init t u8 ext (VBinary b) = (Ok z, VBinary b)).
Proof.
  intros Hz. split.
  - exists (print_d z). split; [reflexivity|]. intros u8 ext. cbn [as_integer]. now rewrite stringToInt_print.
  - exists (le_store (Z.to_nat (isize t)) z). split; [reflexivity|]. intros u8 ext. cbn [as_integer]. f_equal.
    destruct (le_store_int t z Hz) as [Hl Hc]. unfold binaryToInt.
    rewrite Hl, Z.gtb_ltb, (proj2 (Z.ltb_lt _ _)) by lia.
    pose proof (@memrd_head VariantError (le_store (Z.to_nat (isize t)) z) [] (isize t) (eq_sym Hl)) as Hrd.
    rewrite app_nil_r in Hrd. rewrite Hrd. cbn [bind]. now rewrite Hc.
Qed.

Lemma integer_conversions_roundtrip_witness :
  as_integer (fun n => repeat 0 (Z.to_nat n)) I64 true false
    (VString [45; 57; 50; 50; 51; 51; 55; 50; 48; 51; 54; 56; 53; 52; 55; 55; 53; 56; 48; 56]) =
  (Ok (-9223372036854775808),
   VString [45; 57; 50; 50; 51; 51; 55; 50; 48; 51; 54; 56; 53; 52; 55; 55; 53; 56; 48; 56]).
Proof.
  destruct (integer_conversions_roundtrip (fun n => repeat 0 (Z.to_nat n)) (fun _ _ => []) (fun _ => []) I64
    (-9223372036854775808) eq_refl) as [(s & Hs & Hr) _].
  cbn in Hs. injection Hs as <-. exact (Hr true false).
Defined.

(** ** Conversions to integers always end well or in a cast error *)

(** Outcomes of a conversion of [v] to the type [dst], with the values of [ok]. *)
Definition conversion_outcome {A} (v : Variant) (dst : VariantType) (ok : A -> Prop) (c : outcome VariantError A) : Prop :=
  match c with
  | Ok a => ok a
  | Throw e => e = VariantTypeCastError (getValueType v) dst
  | Undef _ => False
  end.

Lemma stringToInt_outcome v t s : conversion_outcome v (vt_of_ity t) (fun z => in_ity t z = true)
  (stringToInt (getValueType v) t s).
Proof.
  assert (Hn : is_undef (if signed t then stoll s else stoull s) = false).
  { unfold stoll, stoull. destruct (strto s) as [[[neg m] rest]|]; repeat case_match; reflexivity. }
  unfold stringToInt. destruct (if signed t then stoll s else stoull s) as [z|e|u]; [|reflexivity|discriminate].
  destruct (in_ity t z) eqn:Hz; [exact Hz|reflexivity].
Qed.

Lemma binaryToInt_outcome v t ext b : conversion_outcome v (vt_of_ity t) (fun z => in_ity t z = true)
  (binaryToInt (getValueType v) t ext b).
Proof.
  unfold binaryToInt. rewrite Z.gtb_ltb. destruct (Z.ltb_spec (isize t - 1) (len b)).
  - assert (0 < isize t) by (destruct t; reflexivity).
    destruct (@memrd_safe VariantError b 0 (isize t)) as (l & -> & _); [lia..|]. apply conv_in.
  - destruct (_ && _); [apply conv_in|reflexivity].
Qed.

(** A successful conversion of a LOB reads all of it. *)
Lemma clob_conversion init dst l : MemLob_ok l -> (forall n, 0 <= n -> len (init n) = n) ->
  (getRemainingSize l > kMaxStringValueLength /\
   readClobAsStringForConversion init dst l = (Throw (VariantTypeCastError kClob dst), l)) \/
  readClobAsStringForConversion init dst l = (Ok (c_str (unread l)), advance l (len (unread l))).
Proof.
  intros Hl Hi. unfold readClobAsStringForConversion. rewrite Z.gtb_ltb, remaining_unread by assumption.
  destruct (Z.ltb_spec kMaxStringValueLength (len (unread l))); [left; split; [lia|reflexivity]|right].
  rewrite (proj2 (lob_read_whole_lemma l (len (unread l)) init Hl (len_nonneg _) Hi)).
  now rewrite Z.min_id, firstn_len.
Qed.

Lemma blob_conversion dst l : MemLob_ok l ->
  (getRemainingSize l > kMaxBinaryValueLength /\
   readBlobAsBinaryForConversion dst l = (Throw (VariantTypeCastError kBlob dst), l)) \/
  readBlobAsBinaryForConversion dst l = (Ok (unread l), advance l (len (unread l))).
Proof.
  intros Hl. unfold readBlobAsBinaryForConversion. rewrite Z.gtb_ltb, remaining_unread by assumption.
  destruct (Z.ltb_spec kMaxBinaryValueLength (len (unread l))); [left; split; [lia|reflexivity]|right].
  pose proof (fun n (H : 0 <= n) => eq_trans (f_equal Z.of_nat (repeat_length 0 (Z.to_nat n))) (Z2Nat.id n H)) as Hi.
  rewrite (proj1 (lob_read_whole_lemma l (len (unread l)) (fun n => repeat 0 (Z.to_nat n)) Hl (len_nonneg _) Hi)).
  now rewrite Z.min_id, firstn_len.
Qed.

(** converting a well-formed variant to an integer type returns a value of
    that type or throws the cast error naming the source and destination types;
    only a floating-point value whose truncation is out of range is undefined. *)
Theorem integer_conversion_total init t u8 ext v : Variant_ok v -> (forall n, 0 <= n -> len (init n) = n) ->
  match v with
  | VNum (CF _ x) => match trunc x with Some z => in_ity t z = true | None => False end
  | _ => True
  end ->
  conversion_outcome v (vt_of_ity t) (fun z => in_ity t z = true) (fst (as_integer init t u8 ext v)).
Proof.
  intros Hv Hi Hf. destruct v as [|b|[s z|f x]|d|s|s|l|l]; cbn [as_integer fst].
  - reflexivity.
  - destruct b, t; reflexivity.
  - destruct s; apply conv_in.
  - cbn. unfold float_to_int. destruct (trunc x) as [z|]; [|contradiction]. now rewrite Hf.
  - reflexivity.
  - apply (stringToInt_outcome (VString s)).
  - apply (binaryToInt_outcome (VBinary s)).
  - unfold with_clob. destruct (clob_conversion init (vt_of_ity t) l (proj1 Hv) Hi) as [[_ ->] | ->]; [reflexivity|].
    apply (stringToInt_outcome (VClob l)).
  - unfold with_blob_bytes. destruct (blob_conversion (vt_of_ity t) l (proj1 Hv)) as [[_ ->] | ->]; [reflexivity|].
    apply (binaryToInt_outcome (VBlob l)).
Qed.

Lemma integer_conversion_total_witness :
  conversion_outcome (VClob (newMemLob [52; 50])) kUInt8 (fun z => in_ity U8 z = true)
    (fst (as_integer (fun n => repeat 0 (Z.to_nat n)) U8 true false (VClob (newMemLob [52; 50])))).
Proof.
  refine (integer_conversion_total (fun n => repeat 0 (Z.to_nat n)) U8 true false (VClob (newMemLob [52; 50])) _ _ I).
  - split; [repeat split; vm_compute; (reflexivity || discriminate)|repeat constructor; unfold byte_ok; lia].
  - intros n Hn. unfold len. rewrite repeat_length. lia.
Defined.

(** converting a CLOB reads it to its end and does not rewind it, so that a
    second conversion of the same value sees an empty text. *)
Theorem clob_converted_once init print_float date_format l : MemLob_ok l -> (forall n, 0 <= n -> len (init n) = n) ->
  len (unread l) <= kMaxStringValueLength ->
  exists v', asString init print_float date_format (VClob l) = (Ok (c_str (unread l)), v') /\
    asString init print_float date_format v' = (Ok [], v').
Proof.
  intros Hl Hi Hs. exists (VClob (advance l (len (unread l)))). cbn [asString]. unfold with_clob.
  pose proof (len_nonneg (unread l)) as Hn.
  pose proof (advance_ok l (len (unread l)) Hl ltac:(lia)) as Hl'.
  destruct (clob_conversion init kString l Hl Hi) as [[Hbig _] | ->]; [rewrite remaining_unread in Hbig by assumption; lia|].
  split; [reflexivity|].
  assert (Hu : unread (advance l (len (unread l))) = []).
  { rewrite unread_advance by (assumption || lia). unfold len. rewrite Nat2Z.id. apply skipn_all. }
  destruct (clob_conversion init kString _ Hl' Hi) as [[Hbig _] | ->].
  { rewrite remaining_unread, Hu in Hbig by assumption. cbn in Hbig. unfold kMaxStringValueLength in Hbig. lia. }
  rewrite Hu. cbn. unfold advance. cbn. now rewrite Z.add_0_r.
Qed.

Lemma clob_converted_once_witness :
  exists v', asString (fun n => repeat 0 (Z.to_nat n)) (fun _ _ => []) (fun _ => []) (VClob (newMemLob [104; 105])) =
      (Ok [104; 105], v') /\
    asString (fun n => repeat 0 (Z.to_nat n)) (fun _ _ => []) (fun _ => []) v' = (Ok [], v').
Proof.
  refine (clob_converted_once (fun n => repeat 0 (Z.to_nat n)) (fun _ _ => []) (fun _ => []) (newMemLob [104; 105]) _ _ _).
  - repeat split; vm_compute; (reflexivity || discriminate).
  - intros n Hn. unfold len. rewrite repeat_length. lia.
  - vm_compute. discriminate.
Defined.

(** two conversions change the value.  A negative [int8] becomes the unsigned
    byte with the same bits in the wider types, except in [asInt16]; and a
    [double] is encoded as a binary value through the other half of its bits, so
    that it is not read back. *)
Theorem conversions_change_value init z : -128 <= z < 0 ->
  fst (asInt16 init false (VNum (CI I8 z))) = Ok z /\
  fst (asInt32 init false (VNum (CI I8 z))) = Ok (z + 256) /\
  fst (asInt64 init false (VNum (CI I8 z))) = Ok (z + 256) /\
  exists b, fst (asBinary init (VNum (CF F64 (of_int F64 1)))) = Ok b /\
    binaryToDouble kBinary b = Ok (S754_zero false).
Proof.
  intros Hz.
  assert (Hu : uw 8 z = z + 256) by (unfold uw; pow_norm; rewrite <- (Z_mod_plus_full z 1), Z.mod_small; lia).
  cbn [asInt16 asInt32 asInt64 as_integer fst member_int8]. rewrite Hu.
  rewrite (conv_id I16 z), (conv_id I32), (conv_id I64) by (apply in_ity_spec; unfold s_ok; cbn [signed ibits]; pow_norm; lia).
  do 3 (split; [reflexivity|]). eexists. split; [reflexivity|]. vm_compute. reflexivity.
Qed.

Lemma conversions_change_value_witness :
  fst (asInt32 (fun n => repeat 0 (Z.to_nat n)) false (VNum (CI I8 (-1)))) = Ok 255.
Proof. refine (proj1 (proj2 (conversions_change_value (fun n => repeat 0 (Z.to_nat n)) (-1) _))). lia. Defined.
