(* ===== verification/ColumnType.v ===== *)
(** * Column data types

    Models [iomgr/shared/dbengine/ColumnDataType.h] and [.cpp]: the type
    predicates and the conversions between column types, value types and type
    names.  The enumeration is that of [ColumnDataType.proto]. *)

From Stdlib Require Import ZArith List Lia Bool String.
From S2P Require Import Prelude VariantType.
Import ListNotations.
Open Scope Z_scope.

Inductive ColumnDataType : Type :=
| COLUMN_DATA_TYPE_BOOL | COLUMN_DATA_TYPE_INT8 | COLUMN_DATA_TYPE_UINT8 | COLUMN_DATA_TYPE_INT16
| COLUMN_DATA_TYPE_UINT16 | COLUMN_DATA_TYPE_INT32 | COLUMN_DATA_TYPE_UINT32 | COLUMN_DATA_TYPE_INT64
| COLUMN_DATA_TYPE_UINT64 | COLUMN_DATA_TYPE_FLOAT | COLUMN_DATA_TYPE_DOUBLE | COLUMN_DATA_TYPE_TEXT
| COLUMN_DATA_TYPE_NTEXT | COLUMN_DATA_TYPE_BINARY | COLUMN_DATA_TYPE_DATE | COLUMN_DATA_TYPE_TIME
| COLUMN_DATA_TYPE_TIME_WITH_TZ | COLUMN_DATA_TYPE_TIMESTAMP | COLUMN_DATA_TYPE_TIMESTAMP_WITH_TZ
| COLUMN_DATA_TYPE_DATE_INTERVAL | COLUMN_DATA_TYPE_TIME_INTERVAL | COLUMN_DATA_TYPE_STRUCT
| COLUMN_DATA_TYPE_XML | COLUMN_DATA_TYPE_JSON | COLUMN_DATA_TYPE_UUID | COLUMN_DATA_TYPE_UNKNOWN.

(** The enumerators below [COLUMN_DATA_TYPE_MAX], in order; the unknown type is
    127. *)
Definition known_column_types : list ColumnDataType :=
  [COLUMN_DATA_TYPE_BOOL; COLUMN_DATA_TYPE_INT8; COLUMN_DATA_TYPE_UINT8; COLUMN_DATA_TYPE_INT16;
   COLUMN_DATA_TYPE_UINT16; COLUMN_DATA_TYPE_INT32; COLUMN_DATA_TYPE_UINT32; COLUMN_DATA_TYPE_INT64;
   COLUMN_DATA_TYPE_UINT64; COLUMN_DATA_TYPE_FLOAT; COLUMN_DATA_TYPE_DOUBLE; COLUMN_DATA_TYPE_TEXT;
   COLUMN_DATA_TYPE_NTEXT; COLUMN_DATA_TYPE_BINARY; COLUMN_DATA_TYPE_DATE; COLUMN_DATA_TYPE_TIME;
   COLUMN_DATA_TYPE_TIME_WITH_TZ; COLUMN_DATA_TYPE_TIMESTAMP; COLUMN_DATA_TYPE_TIMESTAMP_WITH_TZ;
   COLUMN_DATA_TYPE_DATE_INTERVAL; COLUMN_DATA_TYPE_TIME_INTERVAL; COLUMN_DATA_TYPE_STRUCT;
   COLUMN_DATA_TYPE_XML; COLUMN_DATA_TYPE_JSON; COLUMN_DATA_TYPE_UUID].

Definition ColumnDataType_eq_dec (a b : ColumnDataType) : {a = b} + {a <> b}.
Proof. decide equality. Defined.

Definition ColumnDataType_eqb (a b : ColumnDataType) : bool := if ColumnDataType_eq_dec a b then true else false.

Fixpoint column_index (t : ColumnDataType) (l : list ColumnDataType) : Z :=
  match l with
  | [] => 127 - 25
  | x :: l => if ColumnDataType_eq_dec t x then 0 else 1 + column_index t l
  end.

Definition column_code (t : ColumnDataType) : Z := column_index t known_column_types.

Definition column_isNumericType (t : ColumnDataType) : bool :=
  match t with
  | COLUMN_DATA_TYPE_INT8 | COLUMN_DATA_TYPE_UINT8 | COLUMN_DATA_TYPE_INT16 | COLUMN_DATA_TYPE_UINT16
  | COLUMN_DATA_TYPE_INT32 | COLUMN_DATA_TYPE_UINT32 | COLUMN_DATA_TYPE_INT64 | COLUMN_DATA_TYPE_UINT64
  | COLUMN_DATA_TYPE_FLOAT | COLUMN_DATA_TYPE_DOUBLE => true
  | _ => false
  end.

Definition column_isIntegerType (t : ColumnDataType) : bool :=
  match t with
  | COLUMN_DATA_TYPE_INT8 | COLUMN_DATA_TYPE_UINT8 | COLUMN_DATA_TYPE_INT16 | COLUMN_DATA_TYPE_UINT16
  | COLUMN_DATA_TYPE_INT32 | COLUMN_DATA_TYPE_UINT32 | COLUMN_DATA_TYPE_INT64 | COLUMN_DATA_TYPE_UINT64 => true
  | _ => false
  end.

Definition column_isFloatingPointType (t : ColumnDataType) : bool :=
  match t with COLUMN_DATA_TYPE_FLOAT | COLUMN_DATA_TYPE_DOUBLE => true | _ => false end.

Definition column_isSignedType (t : ColumnDataType) : bool :=
  match t with
  | COLUMN_DATA_TYPE_INT8 | COLUMN_DATA_TYPE_INT16 | COLUMN_DATA_TYPE_INT32 | COLUMN_DATA_TYPE_INT64
  | COLUMN_DATA_TYPE_FLOAT | COLUMN_DATA_TYPE_DOUBLE => true
  | _ => false
  end.

(** The wide unsigned types are mapped to the 16-bit signed one, and back. *)
Definition column_getSignedType (t : ColumnDataType) : ColumnDataType :=
  match t with
  | COLUMN_DATA_TYPE_UINT8 => COLUMN_DATA_TYPE_INT8
  | COLUMN_DATA_TYPE_UINT16 | COLUMN_DATA_TYPE_UINT32 | COLUMN_DATA_TYPE_UINT64 => COLUMN_DATA_TYPE_INT16
  | t => t
  end.

Definition column_isUIntType (t : ColumnDataType) : bool :=
  match t with
  | COLUMN_DATA_TYPE_UINT8 | COLUMN_DATA_TYPE_UINT16 | COLUMN_DATA_TYPE_UINT32 | COLUMN_DATA_TYPE_UINT64 => true
  | _ => false
  end.

Definition column_getUIntType (t : ColumnDataType) : ColumnDataType :=
  match t with
  | COLUMN_DATA_TYPE_INT8 => COLUMN_DATA_TYPE_UINT8
  | COLUMN_DATA_TYPE_INT16 | COLUMN_DATA_TYPE_INT32 | COLUMN_DATA_TYPE_INT64 => COLUMN_DATA_TYPE_UINT16
  | t => t
  end.

Definition column_max (a b : ColumnDataType) : ColumnDataType := if column_code a <? column_code b then b else a.

Definition column_getNumericResultType (leftType rightType : ColumnDataType) : ColumnDataType :=
  column_max (column_max leftType rightType) COLUMN_DATA_TYPE_INT32.

Definition convertVariantTypeToColumnDataType (t : VariantType) : ColumnDataType :=
  match t with
  | kNull => COLUMN_DATA_TYPE_UNKNOWN
  | kBool => COLUMN_DATA_TYPE_BOOL
  | kInt8 => COLUMN_DATA_TYPE_INT8
  | kUInt8 => COLUMN_DATA_TYPE_UINT8
  | kInt16 => COLUMN_DATA_TYPE_INT16
  | kUInt16 => COLUMN_DATA_TYPE_UINT16
  | kInt32 => COLUMN_DATA_TYPE_INT32
  | kUInt32 => COLUMN_DATA_TYPE_UINT32
  | kInt64 => COLUMN_DATA_TYPE_INT64
  | kUInt64 => COLUMN_DATA_TYPE_UINT64
  | kFloat => COLUMN_DATA_TYPE_FLOAT
  | kDouble => COLUMN_DATA_TYPE_DOUBLE
  | kDate => COLUMN_DATA_TYPE_DATE
  | kTime => COLUMN_DATA_TYPE_TIME
  | kDateTime => COLUMN_DATA_TYPE_TIMESTAMP
  | kTimeWithTZ => COLUMN_DATA_TYPE_TIME_WITH_TZ
  | kDateTimeWithTZ => COLUMN_DATA_TYPE_TIMESTAMP_WITH_TZ
  | kDateInterval => COLUMN_DATA_TYPE_DATE_INTERVAL
  | kTimeInterval => COLUMN_DATA_TYPE_TIME_INTERVAL
  | kString | kClob => COLUMN_DATA_TYPE_TEXT
  | kBinary | kBlob => COLUMN_DATA_TYPE_BINARY
  end.

(** [None] is the exception for an unsupported type. *)
Definition convertColumnDataTypeToVariantType (t : ColumnDataType) : option VariantType :=
  match t with
  | COLUMN_DATA_TYPE_UNKNOWN => Some kNull
  | COLUMN_DATA_TYPE_BOOL => Some kBool
  | COLUMN_DATA_TYPE_INT8 => Some kInt8
  | COLUMN_DATA_TYPE_UINT8 => Some kUInt8
  | COLUMN_DATA_TYPE_INT16 => Some kInt16
  | COLUMN_DATA_TYPE_UINT16 => Some kUInt16
  | COLUMN_DATA_TYPE_INT32 => Some kInt32
  | COLUMN_DATA_TYPE_UINT32 => Some kUInt32
  | COLUMN_DATA_TYPE_INT64 => Some kInt64
  | COLUMN_DATA_TYPE_UINT64 => Some kUInt64
  | COLUMN_DATA_TYPE_FLOAT => Some kFloat
  | COLUMN_DATA_TYPE_DOUBLE => Some kDouble
  | COLUMN_DATA_TYPE_TEXT => Some kString
  | COLUMN_DATA_TYPE_BINARY => Some kBinary
  | COLUMN_DATA_TYPE_TIMESTAMP => Some kDateTime
  | _ => None
  end.

Definition kColumnDataTypeNames : list string :=
  ["BOOLEAN"; "INT8"; "UINT8"; "INT16"; "UINT16"; "INT32"; "UINT32"; "INT64"; "UINT64"; "FLOAT"; "DOUBLE";
   "TEXT"; "NTEXT"; "BINARY"; "DATE"; "TIME"; "TIME WITH TIME ZONE"; "TIMESTAMP"; "TIMESTAMP WITH TIME ZONE";
   "DATE INTERVAL"; "TIME INTERVAL"; "STRUCT"; "XML"; "JSON"; "UUID"]%string.

(** [array::at] and the lookup in the map built from the array, [None] for the
    exceptions. *)
Definition getColumnDataTypeName (t : ColumnDataType) : option string :=
  nth_error kColumnDataTypeNames (Z.to_nat (column_code t)).

Fixpoint find_name (name : string) (names : list string) (types : list ColumnDataType) : option ColumnDataType :=
  match names, types with
  | n :: names, t :: types => if String.eqb name n then Some t else find_name name names types
  | _, _ => None
  end.

Definition getColumnDataTypeByName (dataTypeName : string) : option ColumnDataType :=
  find_name dataTypeName kColumnDataTypeNames known_column_types.

(** ** Facts *)

(** The predicates and the result type agree with those of the value types. *)
Lemma column_predicates a v : convertColumnDataTypeToVariantType a = Some v ->
  column_isNumericType a = isNumericType v /\ column_isIntegerType a = isIntegerType v /\
  ColumnDataType_eqb a COLUMN_DATA_TYPE_BOOL = isBoolType v /\ ColumnDataType_eqb a COLUMN_DATA_TYPE_TEXT = isStringType v /\
  ColumnDataType_eqb a COLUMN_DATA_TYPE_NTEXT = false.
Proof. destruct a; try discriminate; intros [= <-]; repeat split. Qed.

Lemma column_result_type a b v w : convertColumnDataTypeToVariantType a = Some v -> convertColumnDataTypeToVariantType b = Some w ->
  isNumericType v = true -> isNumericType w = true ->
  convertColumnDataTypeToVariantType (column_getNumericResultType a b) = Some (getNumericResultType v w).
Proof.
  intros Ha Hb Hv Hw. destruct a; try discriminate; injection Ha as <-; try discriminate;
    destruct b; try discriminate; injection Hb as <-; try discriminate; reflexivity.
Qed.

(** the names of the column types are a bijection with the types below the
    maximum; a value type converted to a column type and back is itself, a LOB
    type its in-memory counterpart, or unsupported; the numeric predicates and
    the result type of two operands agree on both sides. *)
Theorem column_types_consistent :
  (forall t, t <> COLUMN_DATA_TYPE_UNKNOWN -> exists n, getColumnDataTypeName t = Some n /\ getColumnDataTypeByName n = Some t) /\
  (forall n t, getColumnDataTypeByName n = Some t -> getColumnDataTypeName t = Some n) /\
  (forall v, convertColumnDataTypeToVariantType (convertVariantTypeToColumnDataType v) =
     match v with
     | kClob => Some kString | kBlob => Some kBinary
     | kDate | kTime | kTimeWithTZ | kDateTimeWithTZ | kDateInterval | kTimeInterval => None
     | v => Some v
     end) /\
  (forall a b v w, convertColumnDataTypeToVariantType a = Some v -> convertColumnDataTypeToVariantType b = Some w ->
     column_isNumericType a = isNumericType v /\ column_isIntegerType a = isIntegerType v /\
     (isNumericType v = true -> isNumericType w = true ->
      convertColumnDataTypeToVariantType (column_getNumericResultType a b) = Some (getNumericResultType v w))).
Proof.
  split; [|split; [|split]].
  - intros t Ht. destruct t; try congruence; eexists; split; reflexivity.
  - intros n t. unfold getColumnDataTypeByName. cbn [find_name kColumnDataTypeNames known_column_types].
    repeat match goal with |- context [String.eqb n ?s] => destruct (String.eqb_spec n s) as [->|_]; [intros [= <-]; reflexivity|] end.
    discriminate.
  - intros []; reflexivity.
  - intros a b v w Ha Hb. pose proof (column_predicates a v Ha). split; [tauto|]. split; [tauto|].
    now apply column_result_type.
Qed.
