(* ===== verification/Like.v ===== *)
(** * The LIKE pattern matcher

    Models [LikeOperator::matchPattern] of [parser/expr/LikeOperator.cpp].  The
    four pointers of the C++ loop are the suffixes of the two strings they point
    at.  The reference is the usual recursive definition of LIKE on code points,
    and the theorem is that the loop with its single backtracking point computes
    it. *)

From Stdlib Require Import ZArith List Lia Bool.
From S2P Require Import Prelude Utf8 VariantType Variant.
Import ListNotations.
Open Scope Z_scope.

Definition kAnyChar : Z := 95.
Definition kAnyCharSeq : Z := 37.

Section Matcher.
Context {D : Utf8Decoder}.

(** [last] holds [strLastAnyCharSeq] and [patternLastAnyCharSeq], which are set
    together. *)
Record match_state : Type := { str : list Z; pattern : list Z; last : option (list Z * list Z) }.

Inductive match_result : Type :=
| Continue (s : match_state)
| ReturnFalse
| Malformed.

(** A mismatch: back to the last [%], one character further. *)
Definition backtrack (s : match_state) : match_result :=
  match last s with
  | Some (strLast, patternLast) =>
      match utf8_next strLast with
      | None => Malformed
      | Some (_, str'') => Continue {| str := str''; pattern := patternLast; last := Some (str'', patternLast) |}
      end
  | None => ReturnFalse
  end.

(** One iteration of the main loop, for a non-empty [str]. *)
Definition match_step (s : match_state) : match_result :=
  let patternStart := pattern s in
  match (match pattern s with [] => Some (0, []) | _ => utf8_next (pattern s) end) with
  | None => Malformed
  | Some (patternChar, pattern') =>
      if patternChar =? kAnyChar then
        match utf8_next (str s) with
        | None => Malformed
        | Some (_, str') => Continue {| str := str'; pattern := pattern'; last := last s |}
        end
      else if patternChar =? kAnyCharSeq then
        Continue {| str := str s; pattern := pattern'; last := Some (str s, patternStart) |}
      else
        match utf8_next (str s) with
        | None => Malformed
        | Some (c, str') =>
            if c =? patternChar then Continue {| str := str'; pattern := pattern'; last := last s |}
            else backtrack s
        end
  end.

(** [while (pattern < patternEnd)] after the main loop. *)
Fixpoint match_tail (fuel : nat) (pattern : list Z) : outcome VariantError bool :=
  match pattern with
  | [] => Ok true
  | _ =>
      match fuel with
      | O => Undef NoProgress
      | S k =>
          match utf8_next pattern with
          | None => Throw Utf8Error
          | Some (c, pattern') => if c =? kAnyCharSeq then match_tail k pattern' else Ok false
          end
      end
  end.

Fixpoint match_loop (fuel : nat) (s : match_state) : outcome VariantError bool :=
  match str s with
  | [] => match_tail (length (pattern s)) (pattern s)
  | _ =>
      match fuel with
      | O => Undef NoProgress
      | S k =>
          match match_step s with
          | Continue s' => match_loop k s'
          | ReturnFalse => Ok false
          | Malformed => Throw Utf8Error
          end
      end
  end.

(** Between two moves of the backtracking point, each iteration shortens the
    string or the pattern. *)
Definition match_fuel (s p : list Z) : nat := (length s + 2) * (length s + length p + 1).

Definition matchPattern (s p : list Z) : outcome VariantError bool :=
  match s with
  | [] => Ok (match p with [] => true | _ => false end)
  | _ => match_loop (match_fuel s p) {| str := s; pattern := p; last := None |}
  end.
End Matcher.

(** ** The reference *)

Fixpoint tails {A} (l : list A) : list (list A) :=
  l :: match l with [] => [] | _ :: l' => tails l' end.

Fixpoint like (p s : list Z) : bool :=
  match p with
  | [] => match s with [] => true | _ => false end
  | c :: p' =>
      if c =? kAnyCharSeq then existsb (like p') (tails s)
      else match s with
           | [] => false
           | d :: s' => ((c =? kAnyChar) || (c =? d)) && like p' s'
           end
  end.

(** A run of the pattern without [%] against as many characters. *)
Definition single_match (v u : list Z) : Prop :=
  Forall2 (fun c d => c <> kAnyCharSeq /\ (c = kAnyChar \/ c = d)) v u.

Lemma tails_suffix {A} (l t : list A) : In t (tails l) <-> exists u, l = u ++ t.
Proof.
  induction l as [|a l IH]; cbn.
  - split; [intros [<-|[]]; exists []; reflexivity|]. intros [[|x u] Hu]; [auto|discriminate].
  - split.
    + intros [<-|H]; [exists []; reflexivity|]. apply IH in H as [u ->]. exists (a :: u). reflexivity.
    + intros [[|x u] Hu]; [left; exact Hu|]. right. apply IH. injection Hu as _ ->. eauto.
Qed.

Lemma like_seq p s : like (kAnyCharSeq :: p) s = true <-> exists u t, s = u ++ t /\ like p t = true.
Proof.
  cbn [like]. rewrite Z.eqb_refl, existsb_exists. split.
  - intros (t & Hin & Ht). apply tails_suffix in Hin as [u ->]. eauto.
  - intros (u & t & -> & Ht). exists t. split; [apply tails_suffix; eauto|assumption].
Qed.

(** A longer string still matches a pattern that starts with [%]. *)
Lemma like_seq_mono p u s : like (kAnyCharSeq :: p) s = true -> like (kAnyCharSeq :: p) (u ++ s) = true.
Proof.
  rewrite !like_seq. intros (u' & t & -> & Ht). exists (u ++ u'), t. now rewrite app_assoc.
Qed.

Lemma like_seq_here p s : like p s = true -> like (kAnyCharSeq :: p) s = true.
Proof. intros H. apply like_seq. exists [], s. auto. Qed.

Lemma like_single v u p s : single_match v u -> like (v ++ p) (u ++ s) = like p s.
Proof.
  induction 1 as [|c d v u [Hc Hd] _ IH]; [reflexivity|]. cbn [app like].
  rewrite (proj2 (Z.eqb_neq _ _) Hc), IH.
  replace ((c =? kAnyChar) || (c =? d)) with true; [reflexivity|].
  destruct Hd as [-> | ->]; rewrite ?Z.eqb_refl, ?orb_true_r; reflexivity.
Qed.

(** A pattern run without [%] takes exactly its length. *)
Lemma like_run_inv v p : Forall (fun c => c <> kAnyCharSeq) v -> forall s, like (v ++ p) s = true ->
  exists u t, s = u ++ t /\ length u = length v /\ like p t = true.
Proof.
  induction 1 as [|c v Hc _ IH]; intros s Hs; [exists [], s; auto|].
  cbn [app like] in Hs. rewrite (proj2 (Z.eqb_neq _ _) Hc) in Hs.
  destruct s as [|d s]; [discriminate|]. apply andb_true_iff in Hs as [_ Hs].
  destruct (IH s Hs) as (u & t & -> & Hl & Ht). exists (d :: u), t. cbn. auto.
Qed.

Lemma single_no_seq v u : single_match v u -> Forall (fun c => c <> kAnyCharSeq) v.
Proof. induction 1 as [|? ? ? ? [H _]]; constructor; auto. Qed.

Lemma single_length v u : single_match v u -> length v = length u.
Proof. apply Forall2_length. Qed.

(** ** What the backtracking may skip *)

(** At a new [%], the earlier backtracking point is not needed any more. *)
Lemma new_seq v u p s : single_match v u ->
  like (kAnyCharSeq :: v ++ kAnyCharSeq :: p) (u ++ s) = like (kAnyCharSeq :: p) s.
Proof.
  intros Hm. apply eq_true_iff_eq. split.
  - intros H. apply like_seq in H as (w & t & Hw & Ht).
    destruct (like_run_inv v (kAnyCharSeq :: p) (single_no_seq v u Hm) t Ht) as (u' & t' & -> & Hl & Ht').
    rewrite app_assoc in Hw. rewrite (single_length v u Hm) in Hl.
    destruct (app_eq_app _ _ _ _ Hw) as [x [[-> ->] | [E ->]]].
    + assert (x = []) as -> by (apply (f_equal (@length Z)) in Hw; destruct x; [reflexivity|]; autorewrite with list in *; cbn in *; lia).
      exact Ht'.
    + now apply like_seq_mono.
  - intros H. apply like_seq_here. now rewrite like_single.
Qed.

(** When the string cannot match from the backtracking point, the next position
    is tried. *)
Lemma skip_one p d s : like p (d :: s) = false -> like (kAnyCharSeq :: p) (d :: s) = like (kAnyCharSeq :: p) s.
Proof.
  intros H. cbn [like]. rewrite Z.eqb_refl. cbn [tails existsb]. now rewrite H.
Qed.

(** At the end of the string only [%] may be left. *)
Lemma like_end v u p : single_match v u -> like (kAnyCharSeq :: v ++ p) u = like p [].
Proof.
  intros Hm. apply eq_true_iff_eq. split.
  - intros H. apply like_seq in H as (w & t & Hw & Ht).
    destruct (like_run_inv v p (single_no_seq v u Hm) t Ht) as (u' & t' & -> & Hl & Ht').
    rewrite (single_length v u Hm) in Hl. subst u. rewrite !length_app in Hl.
    destruct t'; [assumption|]. cbn in Hl. lia.
  - intros H. apply like_seq_here. rewrite <- (app_nil_r u). now rewrite like_single.
Qed.

Lemma single_match_snoc v u c d : single_match v u -> c <> kAnyCharSeq -> (c = kAnyChar \/ c = d) ->
  single_match (v ++ [c]) (u ++ [d]).
Proof. intros. apply Forall2_app; [assumption|]. constructor; [auto|constructor]. Qed.

Section Correct.
Context {D : Utf8Decoder} {L : Utf8DecoderLaws}.

(** The state of the loop, for the answer [ans]: without a backtracking point
    the rest of the string has to match the rest of the pattern; with one, the
    string from there has to match the pattern from its [%], and the loop is
    either about to read that [%] or has matched a run [v] of the pattern after
    it against [u]. *)
Definition match_inv (ans : bool) (s : match_state) : Prop :=
  exists cs cp, decode (str s) = Some cs /\ decode (pattern s) = Some cp /\ ~ In 0 cs /\
  match last s with
  | None => ans = like cp cs
  | Some (sl, pl) =>
      exists csl ql, decode sl = Some csl /\ decode pl = Some (kAnyCharSeq :: ql) /\ ~ In 0 csl /\
        ans = like (kAnyCharSeq :: ql) csl /\
        ((cp = kAnyCharSeq :: ql /\ cs = csl) \/
         exists v u, ql = v ++ cp /\ csl = u ++ cs /\ single_match v u)
  end.

(** One character matched, by [_] or by itself. *)
Lemma match_inv_char ans s c d cs cp str' pattern' : c <> kAnyCharSeq -> (c = kAnyChar \/ c = d) ->
  decode (str s) = Some (d :: cs) -> decode (pattern s) = Some (c :: cp) ->
  decode str' = Some cs -> decode pattern' = Some cp ->
  match_inv ans s -> match_inv ans {| str := str'; pattern := pattern'; last := last s |}.
Proof.
  intros Hc Hd Hs Hp Hs' Hp' (cs0 & cp0 & E1 & E2 & H0 & Hl).
  rewrite E1 in Hs. injection Hs as ->. rewrite E2 in Hp. injection Hp as ->.
  exists cs, cp. cbn [str pattern last]. split; [assumption|]. split; [assumption|].
  split; [intros Hin; apply H0; now right|].
  destruct (last s) as [[sl pl]|].
  - destruct Hl as (csl & ql & A1 & A2 & A3 & A4 & A5). exists csl, ql. do 4 (split; [assumption|]). right.
    destruct A5 as [[[= -> _] _] | (v & u & -> & -> & Hm)]; [congruence|].
    exists (v ++ [c]), (u ++ [d]). rewrite <- !app_assoc. split; [reflexivity|]. split; [reflexivity|].
    now apply single_match_snoc.
  - rewrite Hl. change (c :: cp) with ([c] ++ cp). change (d :: cs) with ([d] ++ cs).
    apply like_single. constructor; [auto|constructor].
Qed.

(** A [%] becomes the backtracking point. *)
Lemma match_inv_seq ans s cs cp pattern' :
  decode (str s) = Some cs -> decode (pattern s) = Some (kAnyCharSeq :: cp) -> decode pattern' = Some cp ->
  match_inv ans s -> match_inv ans {| str := str s; pattern := pattern'; last := Some (str s, pattern s) |}.
Proof.
  intros Hs Hp Hp' (cs0 & cp0 & E1 & E2 & H0 & Hl).
  rewrite E1 in Hs. injection Hs as ->. rewrite E2 in Hp. injection Hp as ->.
  exists cs, cp. cbn [str pattern last]. do 3 (split; [assumption|]).
  exists cs, cp. do 3 (split; [assumption|]). split; [|right; exists [], []; repeat split; constructor].
  destruct (last s) as [[sl pl]|]; [|exact Hl].
  destruct Hl as (csl & ql & A1 & A2 & A3 & A4 & [[[= ->] ->] | (v & u & -> & -> & Hm)]); [exact A4|].
  rewrite A4. now apply new_seq.
Qed.

(** A mismatch moves the backtracking point by one character. *)
Lemma match_inv_back ans s sl pl d cs cp : last s = Some (sl, pl) ->
  decode (str s) = Some (d :: cs) -> decode (pattern s) = Some cp ->
  (forall q, cp <> kAnyCharSeq :: q) -> like cp (d :: cs) = false -> match_inv ans s ->
  exists c str', utf8_next sl = Some (c, str') /\
    match_inv ans {| str := str'; pattern := pl; last := Some (str', pl) |}.
Proof.
  intros Hlast Hs Hp Hq Hno (cs0 & cp0 & E1 & E2 & H0 & Hl).
  rewrite E1 in Hs. injection Hs as ->. rewrite E2 in Hp. injection Hp as ->. rewrite Hlast in Hl.
  destruct Hl as (csl & ql & A1 & A2 & A3 & A4 & [[-> _] | (v & u & -> & -> & Hm)]); [now destruct (Hq ql)|].
  assert (Hne : exists b sl', sl = b :: sl').
  { destruct sl; [|eauto]. rewrite decode_nil in A1. injection A1 as A1. now destruct u. }
  destruct Hne as (b & sl' & ->). apply decode_step in A1 as (c & csl' & rest & Hcs & Hn & Hr & _).
  exists c, rest. split; [assumption|]. rewrite Hcs in *.
  assert (Hin : ~ In 0 csl') by (intros Hin; apply A3; now right).
  assert (Hans : ans = like (kAnyCharSeq :: v ++ cp) csl').
  { rewrite A4. apply skip_one. rewrite <- Hcs. now rewrite like_single. }
  exists csl', (kAnyCharSeq :: v ++ cp). cbn [str pattern last]. do 3 (split; [assumption|]).
  exists csl', (v ++ cp). do 4 (split; [assumption|]). left. split; reflexivity.
Qed.

Definition result_inv (ans : bool) (r : match_result) : Prop :=
  match r with Continue s' => match_inv ans s' | ReturnFalse => ans = false | Malformed => False end.

Lemma backtrack_inv ans s d cs cp :
  decode (str s) = Some (d :: cs) -> decode (pattern s) = Some cp ->
  (forall q, cp <> kAnyCharSeq :: q) -> like cp (d :: cs) = false -> match_inv ans s ->
  result_inv ans (backtrack s).
Proof.
  intros Hs Hp Hq Hno Hinv. unfold backtrack. destruct (last s) as [[sl pl]|] eqn:El.
  - destruct (match_inv_back ans s sl pl d cs cp El Hs Hp Hq Hno Hinv) as (c & str'' & -> & H). exact H.
  - destruct Hinv as (cs0 & cp0 & E1 & E2 & H0 & Hl). rewrite El in Hl. cbn. congruence.
Qed.

Lemma match_step_inv ans s : str s <> [] -> match_inv ans s -> result_inv ans (match_step s).
Proof.
  intros Hne Hinv. pose proof Hinv as (cs & cp & Hs & Hp & H0 & _).
  destruct (str s) as [|b st] eqn:Es; [congruence|].
  destruct (decode_step b st cs Hs) as (d & cs' & str' & -> & Hn & Hs' & _).
  rewrite <- Es in Hs, Hn. unfold match_step. destruct (pattern s) as [|pb pt] eqn:Ep.
  - rewrite decode_nil in Hp. injection Hp as <-. rewrite Hn. cbn [Z.eqb kAnyChar kAnyCharSeq].
    rewrite (proj2 (Z.eqb_neq d 0)) by (intros ->; apply H0; now left).
    apply (backtrack_inv ans s d cs' []); rewrite ?Ep; auto; discriminate.
  - destruct (decode_step pb pt cp Hp) as (c & cp' & pattern' & -> & Hpn & Hp' & _). rewrite Hpn.
    rewrite <- Ep in Hp. rewrite Hn.
    destruct (Z.eqb_spec c kAnyChar) as [->|Hc].
    { apply (match_inv_char ans s kAnyChar d cs' cp'); auto; discriminate. }
    destruct (Z.eqb_spec c kAnyCharSeq) as [->|Hc'].
    { rewrite <- Ep. now apply (match_inv_seq ans s (d :: cs') cp'). }
    destruct (Z.eqb_spec d c) as [->|Hd].
    { apply (match_inv_char ans s c c cs' cp'); auto. }
    apply (backtrack_inv ans s d cs' (c :: cp')); auto; [congruence|]. cbn [like].
    rewrite (proj2 (Z.eqb_neq c _) Hc), (proj2 (Z.eqb_neq c _) Hc'), (proj2 (Z.eqb_neq c d)) by auto. reflexivity.
Qed.

Lemma match_tail_ok p : forall n cp, (length p <= n)%nat -> decode p = Some cp ->
  match_tail n p = Ok (like cp []).
Proof.
  induction p as [p IH] using (induction_ltof1 _ (@length Z)). intros n cp Hn Hp.
  destruct p as [|b p]; [injection Hp as <-; destruct n; reflexivity|].
  destruct n as [|n]; [cbn in Hn; lia|]. cbn in Hn.
  destruct (decode_step b p cp Hp) as (c & cp' & rest & -> & Hx & Hr & Hl). cbn [match_tail like]. rewrite Hx.
  destruct (c =? kAnyCharSeq); [|reflexivity]. cbn [tails existsb]. rewrite orb_false_r.
  apply IH; [unfold ltof; cbn; lia|lia|assumption].
Qed.

Lemma match_inv_end ans s : str s = [] -> match_inv ans s -> match_tail (length (pattern s)) (pattern s) = Ok ans.
Proof.
  intros Hs (cs & cp & E1 & E2 & H0 & Hl). rewrite Hs in E1. injection E1 as <-.
  rewrite (match_tail_ok (pattern s) _ cp) by (assumption || lia). f_equal.
  destruct (last s) as [[sl pl]|]; [|auto].
  destruct Hl as (csl & ql & A1 & A2 & A3 & A4 & [[-> <-] | (v & u & -> & -> & Hm)]); [auto|].
  rewrite A4, app_nil_r. symmetry. now apply like_end.
Qed.

(** ** Termination *)

(** [n] and [m] bound the string and the pattern; the backtracking point moves at
    most [n + 1] times and each time at most [n + m] iterations follow. *)
Definition match_bound (n m : nat) (s : match_state) : Prop :=
  (length (str s) <= n)%nat /\ (length (pattern s) <= m)%nat /\
  match last s with
  | Some (sl, pl) => (length (str s) <= length sl <= n)%nat /\ (length pl <= m)%nat
  | None => True
  end.

Definition match_measure (n m : nat) (s : match_state) : nat :=
  (match last s with Some (sl, _) => length sl | None => n + 1 end) * (n + m + 1) + length (str s) + length (pattern s).

Lemma utf8_next_le s c rest : utf8_next s = Some (c, rest) -> (length rest + 1 <= length s)%nat.
Proof. intros H. apply utf8_next_advances in H. lia. Qed.

(** The pattern after the character read. *)
Lemma pattern_step p c p' : (match p with [] => Some (0, []) | _ => utf8_next p end) = Some (c, p') ->
  (length p' <= length p)%nat /\ (c <> 0 -> (length p' + 1 <= length p)%nat).
Proof. destruct p as [|b p]; [intros [= <- <-]; cbn; lia|]. intros H%utf8_next_le. lia. Qed.

Definition step_measure (n m : nat) (s : match_state) (r : match_result) : Prop :=
  match r with
  | Continue s' => match_bound n m s' /\ (match_measure n m s' < match_measure n m s)%nat
  | _ => True
  end.

Lemma backtrack_measure n m s : (1 <= length (str s))%nat -> match_bound n m s -> step_measure n m s (backtrack s).
Proof.
  intros Hs (B1 & B2 & B3). unfold backtrack, step_measure, match_bound, match_measure.
  destruct (last s) as [[sl pl]|]; [|exact I]. destruct (utf8_next sl) as [[c sl']|] eqn:E; [|exact I].
  apply utf8_next_le in E. cbn [str pattern last]. split; [lia|]. nia.
Qed.

Lemma match_step_measure n m s : (1 <= length (str s))%nat -> match_bound n m s -> step_measure n m s (match_step s).
Proof.
  intros Hs Hb. pose proof Hb as (B1 & B2 & B3). unfold match_step.
  destruct (match pattern s with [] => _ | _ => _ end) as [[c p']|] eqn:Hp; [|exact I].
  apply pattern_step in Hp as [Hp Hpc].
  assert (Hchar : forall d str', utf8_next (str s) = Some (d, str') ->
    step_measure n m s (Continue {| str := str'; pattern := p'; last := last s |})).
  { intros d str' H%utf8_next_le. unfold step_measure, match_bound, match_measure. cbn [str pattern last].
    destruct (last s) as [[sl pl]|]; split; lia. }
  destruct (c =? kAnyChar).
  { destruct (utf8_next (str s)) as [[d str']|] eqn:N; [|exact I]. now apply (Hchar d). }
  destruct (Z.eqb_spec c kAnyCharSeq) as [->|_].
  - specialize (Hpc ltac:(discriminate)). unfold step_measure, match_bound, match_measure. cbn [str pattern last].
    destruct (last s) as [[sl pl]|]; (split; [lia|nia]).
  - destruct (utf8_next (str s)) as [[d str']|] eqn:N; [|exact I].
    destruct (d =? c); [now apply (Hchar d)|now apply backtrack_measure].
Qed.

Lemma match_loop_ok n m fuel : forall ans s, match_bound n m s -> (match_measure n m s <= fuel)%nat ->
  match_inv ans s -> match_loop fuel s = Ok ans.
Proof.
  induction fuel as [|fuel IH]; intros ans s Hb Hf Hi.
  - destruct (str s) as [|b st] eqn:Es; [|unfold match_measure in Hf; rewrite Es in Hf; cbn in Hf; lia].
    cbn [match_loop]. rewrite Es. now apply match_inv_end.
  - cbn [match_loop]. destruct (str s) as [|b st] eqn:Es; [now apply match_inv_end|].
    pose proof (match_step_inv ans s ltac:(congruence) Hi) as Hstep.
    pose proof (match_step_measure n m s ltac:(rewrite Es; cbn; lia) Hb) as Hm.
    destruct (match_step s) as [s'| |]; cbn in Hstep, Hm; [|congruence|contradiction].
    apply IH; [apply Hm|lia|assumption].
Qed.

Lemma match_tail_total n : forall p, (length p <= n)%nat -> well_defined (match_tail n p).
Proof.
  induction n as [|n IH]; intros [|b p] Hp; cbn [match_tail length] in *; try exact I; [lia|].
  destruct (utf8_next (b :: p)) as [[c p']|] eqn:N; [|exact I]. apply utf8_next_le in N. cbn in N.
  destruct (c =? kAnyCharSeq); [apply IH; lia|exact I].
Qed.

Lemma match_loop_total n m fuel : forall s, match_bound n m s -> (match_measure n m s <= fuel)%nat ->
  well_defined (match_loop fuel s).
Proof.
  induction fuel as [|fuel IH]; intros s Hb Hf; cbn [match_loop]; destruct (str s) as [|b st] eqn:Es;
    try (now apply match_tail_total).
  - unfold match_measure in Hf. rewrite Es in Hf. cbn in Hf. lia.
  - pose proof (match_step_measure n m s ltac:(rewrite Es; cbn; lia) Hb) as Hm.
    destruct (match_step s) as [s'| |]; cbn in Hm; try exact I. apply IH; [apply Hm|lia].
Qed.

Lemma match_start s p : let st := {| str := s; pattern := p; last := None |} in
  match_bound (length s) (length p) st /\ (match_measure (length s) (length p) st <= match_fuel s p)%nat.
Proof. cbn. unfold match_bound, match_measure, match_fuel. cbn. split; [lia|]. nia. Qed.

(** C36: the matcher ends on all inputs, by a result or by the exception of the
    decoder.  On well-formed UTF-8 it computes the reference LIKE, for a string
    that is not empty and has no NUL character; an empty string matches the
    empty pattern only, also where the reference matches, as for the pattern of
    any sequence ([like_exceptions]). *)
Theorem like_correct s p cs cp : decode s = Some cs -> decode p = Some cp -> ~ In 0 cs ->
  (forall s p, well_defined (matchPattern s p)) /\
  matchPattern s p = Ok (match cs with [] => match cp with [] => true | _ => false end | _ => like cp cs end).
Proof.
  intros Hs Hp H0. split.
  - intros [|b s'] p'; [exact I|]. cbn [matchPattern]. destruct (match_start (b :: s') p') as [Hb Hf].
    now apply (match_loop_total _ _ _ _ Hb Hf).
  - destruct s as [|b s].
    + injection Hs as <-. destruct p as [|b p]; [injection Hp as <-; reflexivity|].
      now destruct (decode_step b p cp Hp) as (c & cp' & rest & -> & _).
    + destruct (decode_step b s cs Hs) as (d & cs' & rest & -> & _). cbn [matchPattern].
      destruct (match_start (b :: s) p) as [Hb Hf]. apply (match_loop_ok _ _ _ _ _ Hb Hf).
      exists (d :: cs'), cp. split; [exact Hs|]. split; [exact Hp|]. split; [exact H0|reflexivity].
Qed.
End Correct.

Lemma like_correct_witness :
  matchPattern [0x61; 0x62; 0x62; 0xC3; 0xA9; 0x62] [kAnyCharSeq; 0x62; kAnyChar; 0x62] = Ok true.
Proof.
  refine (proj2 (like_correct [0x61; 0x62; 0x62; 0xC3; 0xA9; 0x62] [kAnyCharSeq; 0x62; kAnyChar; 0x62]
    [0x61; 0x62; 0x62; 0xE9; 0x62] [kAnyCharSeq; 0x62; kAnyChar; 0x62] _ _ _)); try reflexivity.
  cbn. intuition discriminate.
Defined.

(** The empty string is not matched by [%], and a trailing NUL character is
    matched by nothing at all. *)
Lemma like_exceptions :
  matchPattern [] [kAnyCharSeq] = Ok false /\ like [kAnyCharSeq] [] = true /\
  matchPattern [0x61; 0] [0x61] = Ok true /\ like [0x61] [0x61; 0] = false.
Proof. repeat split. Qed.
