(* ===== verification/Expr.v ===== *)
(** * Expressions: structure and serialization

    Models [parser/expr]: the expression classes, [ExpressionType], the
    [serializeUnchecked] and [getSerializedSize] methods, and
    [Expression::deserialize].  The operator classes that differ only in their
    type and in [evaluate] share a constructor with the operator as argument.
    Memory allocation is assumed to succeed, except that a vector cannot reserve
    more than its maximal size. *)

From Stdlib Require Import ZArith List Lia Bool.
From S2P Require Import Prelude VarInt Codec CNum RawDateTime VariantType Lob Variant.
Import ListNotations.
Open Scope Z_scope.

Set Warnings "-register-all".

Inductive ExpressionType : Type :=
| kConstant | kSingleColumnReference | kAllColumnsReference | kList | kSubquery
| kLogicalNotOperator | kLogicalAndOperator | kLogicalOrOperator | kUnaryMinusOperator
| kUnaryPlusOperator | kAddOperator | kSubtractOperator | kMultiplyOperator | kDivideOperator
| kModuloOperator | kConcatenateOperator | kBitwiseOrOperator | kBitwiseAndOperator
| kBitwiseXorOperator | kBitwiseComplementOperator | kRightShiftOperator | kLeftShiftOperator
| kCastOperator | kCaseOperator | kEqualPredicate | kNotEqualPredicate | kLessPredicate
| kLessOrEqualPredicate | kGreaterOrEqualPredicate | kGreaterPredicate | kDistinctFromPredicate
| kAllPredicate | kAnyPredicate | kSomePredicate | kInPredicate | kIsPredicate | kBetweenPredicate
| kLikePredicate | kMatchPredicate | kExistsPredicate | kUniquePredicate | kOverlapsPredicate
| kSimilarToPredicate | kIsOfTypePredicate | kForAllPredicate | kForAnyPredicate
| kForSomePredicate | kMaxFunction | kMinFunction | kSumFunction | kAvgFunction | kCountFunction
| kDistinctFunction | kSubstringFunction | kRegexpSubstring | kOverlayFunction | kUpperFunction
| kLowerFunction | kLeftTrimFunction | kRightTrimFunction | kTrimFunction | kCharPositionFunction
| kBitLengthFunction | kCharLengthFunction | kOctetLengthFunction | kNullIf | kCoalesce.

Definition all_expression_types : list ExpressionType :=
  [kConstant; kSingleColumnReference; kAllColumnsReference; kList; kSubquery; kLogicalNotOperator;
   kLogicalAndOperator; kLogicalOrOperator; kUnaryMinusOperator; kUnaryPlusOperator; kAddOperator;
   kSubtractOperator; kMultiplyOperator; kDivideOperator; kModuloOperator; kConcatenateOperator;
   kBitwiseOrOperator; kBitwiseAndOperator; kBitwiseXorOperator; kBitwiseComplementOperator;
   kRightShiftOperator; kLeftShiftOperator; kCastOperator; kCaseOperator; kEqualPredicate;
   kNotEqualPredicate; kLessPredicate; kLessOrEqualPredicate; kGreaterOrEqualPredicate;
   kGreaterPredicate; kDistinctFromPredicate; kAllPredicate; kAnyPredicate; kSomePredicate;
   kInPredicate; kIsPredicate; kBetweenPredicate; kLikePredicate; kMatchPredicate;
   kExistsPredicate; kUniquePredicate; kOverlapsPredicate; kSimilarToPredicate; kIsOfTypePredicate;
   kForAllPredicate; kForAnyPredicate; kForSomePredicate; kMaxFunction; kMinFunction; kSumFunction;
   kAvgFunction; kCountFunction; kDistinctFunction; kSubstringFunction; kRegexpSubstring;
   kOverlayFunction; kUpperFunction; kLowerFunction; kLeftTrimFunction; kRightTrimFunction;
   kTrimFunction; kCharPositionFunction; kBitLengthFunction; kCharLengthFunction;
   kOctetLengthFunction; kNullIf; kCoalesce].

Definition ExpressionType_eq_dec (a b : ExpressionType) : {a = b} + {a <> b}.
Proof. decide equality. Defined.

Fixpoint expression_index (t : ExpressionType) (l : list ExpressionType) : Z :=
  match l with
  | [] => 0
  | x :: l => if ExpressionType_eq_dec t x then 0 else 1 + expression_index t l
  end.

(** The value of an enumerator, and the enumerator of a value below [kMax]. *)
Definition expression_code (t : ExpressionType) : Z := expression_index t all_expression_types.
Definition kMax : Z := 67.
Definition expression_of_code (c : Z) : option ExpressionType :=
  if c <? 0 then None else nth_error all_expression_types (Z.to_nat c).

Inductive unary_operator : Type := LogicalNotOperator | UnaryMinusOperator | UnaryPlusOperator | ComplementOperator.

Inductive binary_operator : Type :=
| LogicalAndOperator | LogicalOrOperator
| AddOperator | SubtractOperator | MultiplyOperator | DivideOperator | ModuloOperator
| ConcatenationOperator
| BitwiseOrOperator | BitwiseAndOperator | BitwiseXorOperator | RightShiftOperator | LeftShiftOperator
| EqualOperator | NotEqualOperator | LessOperator | LessOrEqualOperator | GreaterOrEqualOperator | GreaterOperator.

Definition unary_type (op : unary_operator) : ExpressionType :=
  match op with
  | LogicalNotOperator => kLogicalNotOperator
  | UnaryMinusOperator => kUnaryMinusOperator
  | UnaryPlusOperator => kUnaryPlusOperator
  | ComplementOperator => kBitwiseComplementOperator
  end.

Definition binary_type (op : binary_operator) : ExpressionType :=
  match op with
  | LogicalAndOperator => kLogicalAndOperator
  | LogicalOrOperator => kLogicalOrOperator
  | AddOperator => kAddOperator
  | SubtractOperator => kSubtractOperator
  | MultiplyOperator => kMultiplyOperator
  | DivideOperator => kDivideOperator
  | ModuloOperator => kModuloOperator
  | ConcatenationOperator => kConcatenateOperator
  | BitwiseOrOperator => kBitwiseOrOperator
  | BitwiseAndOperator => kBitwiseAndOperator
  | BitwiseXorOperator => kBitwiseXorOperator
  | RightShiftOperator => kRightShiftOperator
  | LeftShiftOperator => kLeftShiftOperator
  | EqualOperator => kEqualPredicate
  | NotEqualOperator => kNotEqualPredicate
  | LessOperator => kLessPredicate
  | LessOrEqualOperator => kLessOrEqualPredicate
  | GreaterOrEqualOperator => kGreaterOrEqualPredicate
  | GreaterOperator => kGreaterPredicate
  end.

Inductive Expression : Type :=
| ConstantExpression (m_value : Variant)
| SingleColumnExpression (m_tableName m_columnName : list Z)
    (m_datasetTableIndices : list Z) (m_datasetColumnIndex : option Z)
| AllColumnsExpression (m_tableName : list Z) (m_datasetTableIndices : list Z)
| ListExpression (m_items : list Expression)
| UnaryOperator (op : unary_operator) (m_operand : Expression)
| BinaryOperator (op : binary_operator) (m_left m_right : Expression)
| LikeOperator (m_left m_right : Expression) (m_notLike : bool)
| BetweenOperator (m_left m_middle m_right : Expression) (m_notBetween : bool)
| InOperator (m_value : Expression) (m_variants : list Expression) (m_notIn : bool)
| IsOperator (m_left m_right : Expression) (m_isNot : bool)
| CastOperator (m_left m_right : Expression).

Definition m_type (e : Expression) : ExpressionType :=
  match e with
  | ConstantExpression _ => kConstant
  | SingleColumnExpression _ _ _ _ => kSingleColumnReference
  | AllColumnsExpression _ _ => kAllColumnsReference
  | ListExpression _ => kList
  | UnaryOperator op _ => unary_type op
  | BinaryOperator op _ _ => binary_type op
  | LikeOperator _ _ _ => kLikePredicate
  | BetweenOperator _ _ _ _ => kBetweenPredicate
  | InOperator _ _ _ => kInPredicate
  | IsOperator _ _ _ => kIsPredicate
  | CastOperator _ _ => kCastOperator
  end.

(** Induction with the hypothesis for the elements of the lists. *)
Section Induction.
Context (P : Expression -> Prop)
  (HConst : forall v, P (ConstantExpression v))
  (HCol : forall t c i j, P (SingleColumnExpression t c i j))
  (HAll : forall t i, P (AllColumnsExpression t i))
  (HList : forall l, Forall P l -> P (ListExpression l))
  (HUn : forall op e, P e -> P (UnaryOperator op e))
  (HBin : forall op a b, P a -> P b -> P (BinaryOperator op a b))
  (HLike : forall a b n, P a -> P b -> P (LikeOperator a b n))
  (HBetween : forall a b c n, P a -> P b -> P c -> P (BetweenOperator a b c n))
  (HIn : forall v l n, P v -> Forall P l -> P (InOperator v l n))
  (HIs : forall a b n, P a -> P b -> P (IsOperator a b n))
  (HCast : forall a b, P a -> P b -> P (CastOperator a b)).

Fixpoint Expression_induction (e : Expression) : P e :=
  let fix all (l : list Expression) : Forall P l :=
    match l with
    | [] => Forall_nil P
    | x :: l' => Forall_cons x (Expression_induction x) (all l')
    end in
  match e with
  | ConstantExpression v => HConst v
  | SingleColumnExpression t c i j => HCol t c i j
  | AllColumnsExpression t i => HAll t i
  | ListExpression l => HList l (all l)
  | UnaryOperator op e => HUn op e (Expression_induction e)
  | BinaryOperator op a b => HBin op a b (Expression_induction a) (Expression_induction b)
  | LikeOperator a b n => HLike a b n (Expression_induction a) (Expression_induction b)
  | BetweenOperator a b c n =>
      HBetween a b c n (Expression_induction a) (Expression_induction b) (Expression_induction c)
  | InOperator v l n => HIn v l n (Expression_induction v) (all l)
  | IsOperator a b n => HIs a b n (Expression_induction a) (Expression_induction b)
  | CastOperator a b => HCast a b (Expression_induction a) (Expression_induction b)
  end.
End Induction.

(** The classes of exceptions that the handlers of the program tell apart; a
    database error is a runtime error, too. *)
Inductive exception_class : Type := DatabaseException | RuntimeException | VariantLogicException | OtherException.

(** The exceptions: those of the variant and object readers, of the evaluation
    context, and the errors of this component. *)
Inductive ExpressionError : Type :=
| VariantFailed (e : VariantError)
| ObjectFailed (e : DeserializationError)
| CorruptExpressionType
| NotEnoughDataForExpressionType
| InvalidExpressionType (code : Z)
| UnsupportedExpressionType (code : Z)
| CorruptItemCount
| NotEnoughDataForItemCount (length : Z)
| VectorLengthError
| NotEnoughDataForAttribute
| InvalidAttribute
| RuntimeError
| InvalidArgumentError
| ContextFailed (c : exception_class).

(** ** Serialization *)

Definition getExpressionTypeSerializedSize (t : ExpressionType) : Z := getVarIntSize false W32 (expression_code t).
Definition serializeExpressionTypeUnchecked (t : ExpressionType) : list Z := encodeVarInt false W32 (expression_code t).

Fixpoint Expression_getSerializedSize (e : Expression) : Z :=
  let sizes := fix sizes (l : list Expression) : Z :=
    match l with [] => 0 | x :: l' => Expression_getSerializedSize x + sizes l' end in
  getExpressionTypeSerializedSize (m_type e) +
  match e with
  | ConstantExpression v => Variant.getSerializedSize v
  | SingleColumnExpression t c _ _ => getSerializedSize_string t + getSerializedSize_string c
  | AllColumnsExpression t _ => getSerializedSize_string t
  | ListExpression l => getVarIntSize false W64 (len l) + sizes l
  | UnaryOperator _ a => Expression_getSerializedSize a
  | BinaryOperator _ a b | CastOperator a b => Expression_getSerializedSize a + Expression_getSerializedSize b
  | LikeOperator a b _ | IsOperator a b _ => Expression_getSerializedSize a + Expression_getSerializedSize b + 1
  | BetweenOperator a b c _ =>
      Expression_getSerializedSize a + Expression_getSerializedSize b + Expression_getSerializedSize c + 1
  | InOperator v l _ => Expression_getSerializedSize v + getVarIntSize false W64 (len l) + 1 + sizes l
  end.

Definition flag_byte (b : bool) : Z := if b then 1 else 0.

(** The bytes written and the expression after the call: writing a LOB constant
    moves its stream. *)
Fixpoint Expression_serializeUnchecked (e : Expression) : outcome ExpressionError (list Z * Expression) :=
  let all := fix all (l : list Expression) : outcome ExpressionError (list Z * list Expression) :=
    match l with
    | [] => Ok ([], [])
    | x :: l' =>
        '(b, x) <- Expression_serializeUnchecked x ;;
        '(bs, l') <- all l' ;;
        Ok (b ++ bs, x :: l')
    end in
  let tag := serializeExpressionTypeUnchecked (m_type e) in
  match e with
  | ConstantExpression v =>
      '(b, v) <- map_error VariantFailed (Variant.serializeUnchecked v) ;; Ok (tag ++ b, ConstantExpression v)
  | SingleColumnExpression t c _ _ => Ok (tag ++ serializeUnchecked_string t ++ serializeUnchecked_string c, e)
  | AllColumnsExpression t _ => Ok (tag ++ serializeUnchecked_string t, e)
  | ListExpression l =>
      '(bs, l') <- all l ;; Ok (tag ++ encodeVarInt false W64 (len l) ++ bs, ListExpression l')
  | UnaryOperator op a =>
      '(x, a) <- Expression_serializeUnchecked a ;; Ok (tag ++ x, UnaryOperator op a)
  | BinaryOperator op a b =>
      '(x, a) <- Expression_serializeUnchecked a ;;
      '(y, b) <- Expression_serializeUnchecked b ;; Ok (tag ++ x ++ y, BinaryOperator op a b)
  | LikeOperator a b n =>
      '(x, a) <- Expression_serializeUnchecked a ;;
      '(y, b) <- Expression_serializeUnchecked b ;; Ok (tag ++ x ++ y ++ [flag_byte n], LikeOperator a b n)
  | BetweenOperator a b c n =>
      '(x, a) <- Expression_serializeUnchecked a ;;
      '(y, b) <- Expression_serializeUnchecked b ;;
      '(z, c) <- Expression_serializeUnchecked c ;; Ok (tag ++ x ++ y ++ z ++ [flag_byte n], BetweenOperator a b c n)
  | InOperator v l n =>
      '(x, v) <- Expression_serializeUnchecked v ;;
      '(bs, l') <- all l ;;
      Ok (tag ++ x ++ encodeVarInt false W64 (len l) ++ bs ++ [flag_byte n], InOperator v l' n)
  | IsOperator a b n =>
      '(x, a) <- Expression_serializeUnchecked a ;;
      '(y, b) <- Expression_serializeUnchecked b ;; Ok (tag ++ x ++ y ++ [flag_byte n], IsOperator a b n)
  | CastOperator a b =>
      '(x, a) <- Expression_serializeUnchecked a ;;
      '(y, b) <- Expression_serializeUnchecked b ;; Ok (tag ++ x ++ y, CastOperator a b)
  end.

(** ** Deserialization *)

(** The largest vector of pointers. *)
Definition kMaxVectorSize : Z := 2 ^ 60 - 1.

(** [CastOperator]'s constructor, [noexcept]: an exception ends the program. *)
Definition isConstant (e : Expression) : bool := match e with ConstantExpression _ => true | _ => false end.

Definition checkRightIsStringConstant (rhs : Expression) : bool :=
  match rhs with ConstantExpression v => isStringType (getValueType v) | _ => false end.

Definition newCastOperator (lhs rhs : Expression) : outcome ExpressionError Expression :=
  if checkRightIsStringConstant rhs then Ok (CastOperator lhs rhs) else Undef Terminated.

(** A small monad for the cases of the [switch]: a reader is given the buffer,
    its length and the number of bytes consumed so far, and returns the new
    number.  [length - consumed] is unsigned. *)
Definition reader (A : Type) : Type := list Z -> Z -> Z -> outcome ExpressionError (A * Z).

Definition rret {A} (a : A) : reader A := fun _ _ consumed => Ok (a, consumed).

Definition rbind {A B} (m : reader A) (k : A -> reader B) : reader B :=
  fun buffer length consumed =>
    '(a, consumed) <- m buffer length consumed ;; k a buffer length consumed.

Definition rlift {A} (c : outcome ExpressionError A) : reader A :=
  fun _ _ consumed => a <- c ;; Ok (a, consumed).

Notation "x <~ m ;; k" := (rbind m (fun x => k)) (at level 100, m at next level, right associativity) : siodb_scope.

(** A function called with [buffer + consumed] and [length - consumed]. *)
Definition at_offset {A} (f : list Z -> Z -> outcome ExpressionError (A * Z)) : reader A :=
  fun buffer length consumed =>
    '(a, n) <- f (skipn (Z.to_nat consumed) buffer) (uw 64 (length - consumed)) ;; Ok (a, consumed + n).

Definition read_string : reader (list Z) :=
  at_offset (fun b l => map_error ObjectFailed (deserializeObject_string b l)).

Definition read_count : reader Z := at_offset (fun b l =>
  d <- lift (decodeVarInt false W64 b l) ;;
  match d with
  | Corrupt => Throw CorruptItemCount
  | NotEnoughData => Throw (NotEnoughDataForItemCount l)
  | Consumed n count => Ok (count, n)
  end).

Definition read_flag : reader bool := fun buffer length consumed =>
  if consumed =? length then Throw NotEnoughDataForAttribute else
  b <- rd buffer consumed ;;
  if b >? 1 then Throw InvalidAttribute else Ok (b =? 1, consumed + 1).

Section Readers.
Context (rec : list Z -> Z -> outcome ExpressionError (Expression * Z)).

Definition read_expression : reader Expression := at_offset rec.

(** The loops over the elements; the fuel is never exhausted, since each element
    takes a byte of the buffer. *)
Fixpoint read_items (fuel : nat) (count : Z) : reader (list Expression) :=
  if count =? 0 then rret [] else
  match fuel with
  | O => rlift (Undef NoProgress)
  | S k =>
      item <~ read_expression ;;
      items <~ read_items k (count - 1) ;;
      rret (item :: items)
  end.

(** [reserve] and the loop. *)
Definition read_vector (count : Z) : reader (list Expression) := fun buffer length consumed =>
  if count >? kMaxVectorSize then Throw VectorLengthError
  else read_items (S (List.length buffer)) count buffer length consumed.

Definition deserializeUnaryExpression (op : unary_operator) : reader Expression :=
  operand <~ read_expression ;; rret (UnaryOperator op operand).

Definition deserializeBinaryExpression (make : Expression -> Expression -> outcome ExpressionError Expression)
  : reader Expression :=
  lhs <~ read_expression ;;
  rhs <~ read_expression ;;
  rlift (make lhs rhs).

Definition read_binary (op : binary_operator) : reader Expression :=
  deserializeBinaryExpression (fun lhs rhs => Ok (BinaryOperator op lhs rhs)).

(** The cases; [dt] is the memory of a date-time before it is read. *)
Definition read_body (dt : RawDateTime) (type : ExpressionType) : reader Expression :=
  match type with
  | kConstant =>
      v <~ at_offset (fun b l => map_error VariantFailed (Variant.deserialize dt b l)) ;;
      rret (ConstantExpression v)
  | kSingleColumnReference =>
      tableName <~ read_string ;;
      columnName <~ read_string ;;
      rret (SingleColumnExpression tableName columnName [] None)
  | kAllColumnsReference =>
      tableName <~ read_string ;; rret (AllColumnsExpression tableName [])
  | kList =>
      itemCount <~ read_count ;;
      items <~ read_vector itemCount ;;
      rret (ListExpression items)
  | kLogicalNotOperator => deserializeUnaryExpression LogicalNotOperator
  | kLogicalAndOperator => read_binary LogicalAndOperator
  | kLogicalOrOperator => read_binary LogicalOrOperator
  | kLessPredicate => read_binary LessOperator
  | kLessOrEqualPredicate => read_binary LessOrEqualOperator
  | kEqualPredicate => read_binary EqualOperator
  | kNotEqualPredicate => read_binary NotEqualOperator
  | kGreaterOrEqualPredicate => read_binary GreaterOrEqualOperator
  | kGreaterPredicate => read_binary GreaterOperator
  | kUnaryMinusOperator => deserializeUnaryExpression UnaryMinusOperator
  | kUnaryPlusOperator => deserializeUnaryExpression UnaryPlusOperator
  | kAddOperator => read_binary AddOperator
  | kSubtractOperator => read_binary SubtractOperator
  | kDivideOperator => read_binary DivideOperator
  | kMultiplyOperator => read_binary MultiplyOperator
  | kModuloOperator => read_binary ModuloOperator
  | kLikePredicate =>
      lhs <~ read_expression ;;
      rhs <~ read_expression ;;
      notLike <~ read_flag ;;
      rret (LikeOperator lhs rhs notLike)
  | kBetweenPredicate =>
      lhs <~ read_expression ;;
      middle <~ read_expression ;;
      rhs <~ read_expression ;;
      notBetween <~ read_flag ;;
      rret (BetweenOperator lhs middle rhs notBetween)
  | kBitwiseOrOperator => read_binary BitwiseOrOperator
  | kBitwiseAndOperator => read_binary BitwiseAndOperator
  | kBitwiseXorOperator => read_binary BitwiseXorOperator
  | kBitwiseComplementOperator => deserializeUnaryExpression ComplementOperator
  | kRightShiftOperator => read_binary RightShiftOperator
  | kLeftShiftOperator => read_binary LeftShiftOperator
  | kConcatenateOperator => read_binary ConcatenationOperator
  | kInPredicate =>
      value <~ read_expression ;;
      variantCount <~ read_count ;;
      variants <~ read_vector variantCount ;;
      notIn <~ read_flag ;;
      rret (InOperator value variants notIn)
  | kIsPredicate =>
      lhs <~ read_expression ;;
      rhs <~ read_expression ;;
      isNot <~ read_flag ;;
      rret (IsOperator lhs rhs isNot)
  | kCastOperator => deserializeBinaryExpression newCastOperator
  | t => rlift (Throw (UnsupportedExpressionType (expression_code t)))
  end.
End Readers.

(** [Expression::deserialize]: each nested call is at least one byte further in
    the buffer, whose size bounds the depth. *)
Fixpoint deserialize_loop (dt : RawDateTime) (fuel : nat) (buffer : list Z) (length : Z)
  : outcome ExpressionError (Expression * Z) :=
  match fuel with
  | O => Undef NoProgress
  | S k =>
      d <- lift (decodeVarInt false W32 buffer length) ;;
      match d with
      | Corrupt => Throw CorruptExpressionType
      | NotEnoughData => Throw NotEnoughDataForExpressionType
      | Consumed consumedForType code =>
          if code >=? kMax then Throw (InvalidExpressionType code) else
          match expression_of_code code with
          | None => Throw (UnsupportedExpressionType code)
          | Some type => read_body (deserialize_loop dt k) dt type buffer length consumedForType
          end
      end
  end.

Definition Expression_deserialize (dt : RawDateTime) (buffer : list Z) (length : Z)
  : outcome ExpressionError (Expression * Z) :=
  deserialize_loop dt (S (List.length buffer)) buffer length.

(** ** What is read back *)

(** Constants in the form the variant reader gives them, and column references
    not bound to a dataset. *)
Fixpoint expr_canon (e : Expression) : Expression :=
  match e with
  | ConstantExpression v => ConstantExpression (canon v)
  | SingleColumnExpression t c _ _ => SingleColumnExpression t c [] None
  | AllColumnsExpression t _ => AllColumnsExpression t []
  | ListExpression l => ListExpression (map expr_canon l)
  | UnaryOperator op a => UnaryOperator op (expr_canon a)
  | BinaryOperator op a b => BinaryOperator op (expr_canon a) (expr_canon b)
  | LikeOperator a b n => LikeOperator (expr_canon a) (expr_canon b) n
  | BetweenOperator a b c n => BetweenOperator (expr_canon a) (expr_canon b) (expr_canon c) n
  | InOperator v l n => InOperator (expr_canon v) (map expr_canon l) n
  | IsOperator a b n => IsOperator (expr_canon a) (expr_canon b) n
  | CastOperator a b => CastOperator (expr_canon a) (expr_canon b)
  end.

Definition name_ok (s : list Z) : Prop := bytes_ok s /\ len s < 2 ^ 64.

(** Expressions that can exist and be serialized. *)
Fixpoint expr_ok (e : Expression) : Prop :=
  let all := fix all (l : list Expression) : Prop := match l with [] => True | x :: l' => expr_ok x /\ all l' end in
  match e with
  | ConstantExpression v => Variant_ok v /\ serializable v
  | SingleColumnExpression t c _ _ => name_ok t /\ name_ok c
  | AllColumnsExpression t _ => name_ok t
  | ListExpression l => len l <= kMaxVectorSize /\ all l
  | UnaryOperator _ a => expr_ok a
  | BinaryOperator _ a b | LikeOperator a b _ | IsOperator a b _ => expr_ok a /\ expr_ok b
  | BetweenOperator a b c _ => expr_ok a /\ expr_ok b /\ expr_ok c
  | InOperator v l _ => expr_ok v /\ len l <= kMaxVectorSize /\ all l
  | CastOperator a b => expr_ok a /\ expr_ok b /\ checkRightIsStringConstant b = true
  end.

(** What must follow an expression in the buffer: at least one byte, and either
    ten of them or a last one below 0x80, for the integers in it. *)
Definition tail_ok (rest : list Z) : Prop := rest <> [] /\ (10 <= len rest \/ last rest 0 < 128).
