(* ===== verification/ExprCodec.v ===== *)
(** * Expressions are read back

    Theorems on the serialization of expressions ([Expr]): the round trip, and
    that reading any bytes ends. *)

From Stdlib Require Import ZArith List Lia Bool.
From S2P Require Import Prelude VarInt Codec CNum RawDateTime VariantType Lob Variant Expr.
Import ListNotations.
Open Scope Z_scope.

(** ** Reading from the front of a buffer *)

(** [decodes f bs a]: in a buffer that starts with [bs], given one byte less than
    may be read, [f] returns [a] and the size of [bs]; [n] bytes or more follow. *)
Definition decodes {A} (n : Z) (f : list Z -> Z -> outcome ExpressionError (A * Z)) (bs : list Z) (a : A) : Prop :=
  forall rest, bytes_ok (bs ++ rest) -> len (bs ++ rest) < 2 ^ 64 -> tail_ok rest -> n <= len rest ->
    f (bs ++ rest) (len (bs ++ rest) - 1) = Ok (a, len bs).

(** The same for a reader, at any offset. *)
Definition reads {A} (n : Z) (m : reader A) (bs : list Z) (a : A) : Prop :=
  forall pre rest, bytes_ok (pre ++ bs ++ rest) -> len (pre ++ bs ++ rest) < 2 ^ 64 -> tail_ok rest -> n <= len rest ->
    m (pre ++ bs ++ rest) (len (pre ++ bs ++ rest) - 1) (len pre) = Ok (a, len pre + len bs).

Lemma last_app_nonempty {A} (l r : list A) d : r <> [] -> last (l ++ r) d = last r d.
Proof.
  intros Hr. induction l as [|a l IH]; [reflexivity|]. cbn [app last]. rewrite IH.
  destruct (l ++ r) eqn:E; [|reflexivity]. apply app_eq_nil in E as [_ E]. congruence.
Qed.

Lemma tail_ok_len rest : tail_ok rest -> 1 <= len rest.
Proof. intros [H _]. destruct rest; [congruence|]. rewrite len_cons. pose proof (len_nonneg rest). lia. Qed.

Lemma tail_ok_app l rest : tail_ok rest -> tail_ok (l ++ rest).
Proof.
  intros [Hne H]. split.
  - intros E. apply app_eq_nil in E as [_ E]. congruence.
  - rewrite last_app_nonempty, len_app by assumption. pose proof (len_nonneg l). lia.
Qed.

Lemma reads_ret {A} (a : A) : reads 0 (rret a) [] a.
Proof. intros pre rest _ _ _ _. unfold rret. rewrite len_nil, Z.add_0_r. reflexivity. Qed.

Lemma reads_lift {A} c (a : A) : c = Ok a -> reads 0 (rlift c) [] a.
Proof. intros ->. intros pre rest _ _ _ _. unfold rlift. cbn [bind]. rewrite len_nil, Z.add_0_r. reflexivity. Qed.

Lemma reads_bind {A B} n p (m : reader A) (k : A -> reader B) bs cs a b :
  reads n m bs a -> reads p (k a) cs b -> n <= len cs + p -> 0 <= p -> reads p (rbind m k) (bs ++ cs) b.
Proof.
  intros Hm Hk Hn Hp pre rest Hb Hl Ht Hr. unfold rbind.
  rewrite <- app_assoc in *. rewrite Hm; [|assumption..|now apply tail_ok_app|rewrite len_app; lia].
  cbn [bind]. specialize (Hk (pre ++ bs) rest). rewrite <- !app_assoc, (len_app pre bs) in Hk.
  rewrite Hk by assumption. rewrite len_app. do 2 f_equal. lia.
Qed.

Lemma reads_at_offset {A} n f bs (a : A) : decodes n f bs a -> reads n (at_offset f) bs a.
Proof.
  intros Hf pre rest Hb Hl Ht Hn. unfold at_offset. rewrite skipn_len_app.
  pose proof (len_nonneg pre). pose proof (len_nonneg (bs ++ rest)).
  apply bytes_ok_app in Hb as [_ Hb]. rewrite (len_app pre) in *.
  pose proof (tail_ok_len rest Ht). rewrite len_app in H0. pose proof (len_nonneg bs).
  replace (len pre + len (bs ++ rest) - 1 - len pre) with (len (bs ++ rest) - 1) by lia.
  rewrite uw_small by (unfold u_ok; rewrite len_app in *; lia).
  rewrite Hf by (assumption || lia). reflexivity.
Qed.

(** ** Readers that stay within the given length *)

Lemma decode_window w win ext : bytes_ok (win ++ ext) ->
  decodeVarInt false w (win ++ ext) (len win) = decodeVarInt false w win (len win).
Proof.
  intros Hb. pose proof (proj1 (bytes_ok_app _ _) Hb) as [Hw _]. pose proof (len_nonneg ext).
  rewrite !decodeVarInt_unsigned, !decodeVarUInt_spec by (rewrite ?len_app; assumption || lia).
  unfold spec_decode. rewrite firstn_len. unfold len. rewrite Nat2Z.id, firstn_app, firstn_all, Nat.sub_diag.
  cbn [firstn]. now rewrite app_nil_r.
Qed.

Lemma split_slack rest : tail_ok rest -> exists win slack, rest = win ++ [slack].
Proof. intros [H _]. destruct (exists_last H) as (win & slack & ->). eauto. Qed.

(** An unsigned integer, when the bytes after it are enough. *)
Lemma decode_uint w v rest : 0 <= v < 2 ^ bits w -> bytes_ok rest -> tail_ok rest -> v < 128 \/ 11 <= len rest ->
  let enc := encodeVarInt false w v in
  decodeVarInt false w (enc ++ rest) (len (enc ++ rest) - 1) = Ok (Consumed (len enc) v).
Proof.
  intros Hv Hb Ht Hn enc. destruct (split_slack rest Ht) as (win & slack & ->).
  pose proof (encodeVarInt_bytes false w v Hv) as He. apply bytes_ok_app in Hb as [Hw Hs].
  rewrite app_assoc. rewrite (len_app (enc ++ win)). change (len [slack]) with 1.
  replace (len (enc ++ win) + 1 - 1) with (len (enc ++ win)) by lia.
  rewrite decode_window by (rewrite !bytes_ok_app; auto).
  apply (decodeVarInt_encode false); [exact Hv|assumption|]. unfold decodable. fold enc.
  destruct Hn as [Hn|Hn].
  - left. unfold enc. rewrite encodeVarUInt_eq, encode_loop_eq by (apply fits_max_iter; exact Hv).
    rewrite Z.geb_leb, (proj2 (Z.leb_gt _ _)) by lia. reflexivity.
  - right; left. rewrite len_app in *. change (len [slack]) with 1 in Hn.
    pose proof (len_nonneg enc).
    assert (kMaxSerializedIntSize w <= 10) by (destruct w; vm_compute; discriminate). lia.
Qed.

Lemma decodes_string s : name_ok s ->
  decodes 0 (fun b l => map_error ObjectFailed (deserializeObject_string b l)) (serializeUnchecked_string s) s.
Proof.
  intros [Hs Hl] rest Hb Hlen Ht _. destruct (split_slack rest Ht) as (win & slack & ->).
  rewrite app_assoc, (len_app (serializeUnchecked_string s ++ win)). change (len [slack]) with 1.
  replace (len (serializeUnchecked_string s ++ win) + 1 - 1) with (len (serializeUnchecked_string s ++ win)) by lia.
  rewrite app_assoc in Hb. pose proof (proj1 (bytes_ok_app _ _) Hb) as [Hsw Hsl].
  pose proof (proj2 (proj1 (bytes_ok_app _ _) Hsw)) as Hw.
  pose proof (string_des_ser s win Hs Hl Hw) as Hdes. revert Hdes.
  unfold deserializeObject_string. rewrite decode_window by assumption.
  destruct (decodeVarInt false W64 (serializeUnchecked_string s ++ win) _) as [d|[]|u]; cbn [lift bind]; try discriminate.
  destruct d as [n v| |]; try discriminate. destruct (_ <? v) eqn:Hlt; [discriminate|]. apply Z.ltb_ge in Hlt.
  unfold memrd. destruct ((n <? 0) || (v <? 0)) eqn:Hneg; [discriminate|].
  destruct (n + v <=? len (serializeUnchecked_string s ++ win)) eqn:Hle; [|discriminate].
  apply Z.leb_le in Hle. apply orb_false_iff in Hneg as [H1%Z.ltb_ge H2%Z.ltb_ge].
  rewrite (proj2 (Z.leb_le _ _)) by (rewrite (len_app (_ ++ win)); change (len [slack]) with 1; lia).
  cbn [bind map_error]. intros [= E1 E2]. rewrite (skipn_app _ (_ ++ win)), firstn_app, E1, E2.
  replace (Z.to_nat v - _)%nat with 0%nat by (rewrite length_skipn; unfold len in *; lia).
  cbn [firstn]. now rewrite app_nil_r.
Qed.

Lemma tail_followed v rest : tail_ok rest -> followed_by v rest.
Proof.
  intros [Hne H].
  assert (Hd : forall w enc, decodable w enc rest).
  { intros w enc. unfold decodable. right.
    assert (kMaxSerializedIntSize w <= 10) by (destruct w; vm_compute; discriminate).
    rewrite len_app, last_app_nonempty by assumption. pose proof (len_nonneg enc). lia. }
  destruct v as [| |[[] z|]| | | | |]; cbn; auto.
Qed.

Lemma decodes_variant dt v : Variant_ok v ->
  decodes 0 (fun b l => map_error VariantFailed (Variant.deserialize dt b l)) (type_code (getValueType v) :: body v) (canon v).
Proof.
  intros Hv rest Hb Hl Ht _. cbn [app] in *. rewrite !len_cons in *.
  replace (1 + len (body v ++ rest) - 1) with (len (body v ++ rest)) by lia.
  apply Forall_cons_iff in Hb as [_ Hb]. apply bytes_ok_app in Hb as [_ Hb].
  rewrite deserialize_body by (assumption || apply Ht || now apply tail_followed). reflexivity.
Qed.

Lemma reads_count n : 0 <= n < 2 ^ 64 -> reads (if n <? 128 then 0 else 11) read_count (encodeVarInt false W64 n) n.
Proof.
  intros Hn. apply reads_at_offset. intros rest Hb Hl Ht Hr. apply bytes_ok_app in Hb as [_ Hb].
  rewrite decode_uint; [reflexivity|exact Hn|assumption..|]. revert Hr. zcases; lia.
Qed.

Lemma reads_flag b : reads 0 read_flag [flag_byte b] b.
Proof.
  intros pre rest Hb Hl Ht _. unfold read_flag. pose proof (tail_ok_len rest Ht).
  rewrite !len_app. change (len [flag_byte b]) with 1. rewrite (proj2 (Z.eqb_neq _ _)) by lia.
  rewrite <- (Z.add_0_r (len pre)) at 1. rewrite rd_app_r by lia. cbn [app]. rewrite rd_cons_0. cbn [bind].
  destruct b; reflexivity.
Qed.

(** ** Expressions *)

Lemma expression_code_small t : 0 <= expression_code t < kMax.
Proof. destruct t; vm_compute; split; congruence. Qed.

Lemma expression_code_roundtrip t : expression_of_code (expression_code t) = Some t.
Proof. destruct t; reflexivity. Qed.

Definition tag (t : ExpressionType) : list Z := serializeExpressionTypeUnchecked t.

Lemma tag_len t : len (tag t) = 1 /\ bytes_ok (tag t).
Proof.
  pose proof (expression_code_small t) as Hc. unfold kMax in Hc.
  assert (Hu : u_ok 32 (expression_code t)) by (unfold u_ok; lia).
  split; [|apply (encodeVarInt_bytes false W32); exact Hu].
  unfold tag, serializeExpressionTypeUnchecked.
  rewrite encodeVarUInt_eq, encode_loop_eq by (apply fits_max_iter; exact Hu).
  rewrite Z.geb_leb, (proj2 (Z.leb_gt _ _)) by lia. reflexivity.
Qed.

(** The type is read, then the case of the [switch]. *)
Lemma decodes_tagged dt k t bs e : reads 0 (read_body (deserialize_loop dt k) dt t) bs e ->
  decodes 0 (deserialize_loop dt (S k)) (tag t ++ bs) e.
Proof.
  intros Hr rest Hb Hl Ht _. cbn [deserialize_loop]. pose proof (expression_code_small t) as Hc.
  pose proof (tag_len t) as [Htag _]. rewrite <- app_assoc in *.
  assert (Hd : decodeVarInt false W32 (tag t ++ bs ++ rest) (len (tag t ++ bs ++ rest) - 1) =
    Ok (Consumed (len (tag t)) (expression_code t))).
  { apply decode_uint; [change (bits W32) with 32; unfold kMax in Hc; lia| |now apply tail_ok_app|unfold kMax in Hc; lia].
    now apply bytes_ok_app in Hb as [_ Hb]. }
  rewrite Hd. cbn [lift bind]. rewrite Z.geb_leb, (proj2 (Z.leb_gt _ _)), expression_code_roundtrip by lia.
  rewrite Hr; [now rewrite len_app|assumption..|apply len_nonneg].
Qed.

(** What a written expression satisfies. *)
Record written (e : Expression) (bs : list Z) : Prop := {
  written_ser : exists e', Expression_serializeUnchecked e = Ok (bs, e');
  written_bytes : bytes_ok bs;
  written_len : len bs = Expression_getSerializedSize (expr_canon e);
  written_pos : 1 <= len bs;
  written_des : forall dt k, len bs <= Z.of_nat k -> decodes 0 (deserialize_loop dt k) bs (expr_canon e)
}.

Fixpoint serialize_all (l : list Expression) : outcome ExpressionError (list Z * list Expression) :=
  match l with
  | [] => Ok ([], [])
  | x :: l' =>
      '(b, x) <- Expression_serializeUnchecked x ;;
      '(bs, l') <- serialize_all l' ;;
      Ok (b ++ bs, x :: l')
  end.

Fixpoint size_all (l : list Expression) : Z :=
  match l with [] => 0 | x :: l' => Expression_getSerializedSize x + size_all l' end.

Record written_all (l : list Expression) (bs : list Z) : Prop := {
  all_ser : exists l', serialize_all l = Ok (bs, l');
  all_bytes : bytes_ok bs;
  all_len : len bs = size_all (map expr_canon l);
  all_pos : len l <= len bs;
  all_des : forall dt k fuel, len bs <= Z.of_nat k -> (List.length l <= fuel)%nat ->
    reads 0 (read_items (deserialize_loop dt k) fuel (len l)) bs (map expr_canon l)
}.

Lemma written_reads e bs dt k : written e bs -> len bs <= Z.of_nat k ->
  reads 0 (read_expression (deserialize_loop dt k)) bs (expr_canon e).
Proof. intros H Hk. apply reads_at_offset. now apply written_des. Qed.

Lemma written_all_intro l : Forall (fun e => exists bs, written e bs) l -> exists bs, written_all l bs.
Proof.
  induction 1 as [|e l [b Hb] _ [bs Hbs]].
  - exists []. split; [now exists []|constructor|reflexivity|cbn; lia|].
    intros dt k fuel _ _. destruct fuel; apply reads_ret.
  - exists (b ++ bs). pose proof Hb as [[e' Hs] Hby Hlen Hpos _]. destruct Hbs as [[l' Hs'] Hby' Hlen' Hpos' Hdes'].
    split.
    + cbn [serialize_all]. rewrite Hs. cbn [bind]. rewrite Hs'. cbn [bind]. eexists. reflexivity.
    + now apply bytes_ok_app.
    + cbn [map size_all]. rewrite len_app. lia.
    + rewrite len_cons, len_app. lia.
    + intros dt k fuel Hk Hf. rewrite len_app in Hk. pose proof (len_nonneg l). pose proof (len_nonneg bs).
      destruct fuel as [|fuel]; [cbn in Hf; lia|]. cbn in Hf. cbn [read_items map]. rewrite len_cons.
      rewrite (proj2 (Z.eqb_neq _ 0)) by lia. replace (1 + len l - 1) with (len l) by lia.
      eapply (reads_bind 0 0); [apply (written_reads e b dt k Hb); lia| |lia..].
      rewrite <- (app_nil_r bs). eapply (reads_bind 0 0); [apply Hdes'; lia|apply reads_ret|cbn; lia|lia].
Qed.

(** The last reader of a sequence. *)
Lemma reads_last {A B} (m : reader A) (k : A -> reader B) bs a b :
  reads 0 m bs a -> reads 0 (k a) [] b -> reads 0 (rbind m k) bs b.
Proof. intros Hm Hk. rewrite <- (app_nil_r bs). now apply (reads_bind 0 0 m k bs [] a). Qed.

Lemma reads_next {A B} (m : reader A) (k : A -> reader B) bs cs a b :
  reads 0 m bs a -> reads 0 (k a) cs b -> reads 0 (rbind m k) (bs ++ cs) b.
Proof. intros Hm Hk. pose proof (len_nonneg cs). apply (reads_bind 0 0 m k bs cs a); (assumption || lia). Qed.

Lemma reads_vector l bs dt k : written_all l bs -> len l <= kMaxVectorSize -> len bs <= Z.of_nat k ->
  reads 0 (read_vector (deserialize_loop dt k) (len l)) bs (map expr_canon l).
Proof.
  intros Hw Hl Hk pre rest Hb Hlen Ht _. unfold read_vector.
  pose proof (all_pos _ _ Hw). rewrite Z.gtb_ltb, (proj2 (Z.ltb_ge _ _)) by assumption.
  apply (all_des _ _ Hw); [assumption| |assumption..|].
  - rewrite !length_app. unfold len in *. lia.
  - apply len_nonneg.
Qed.

(** An element count, followed by at least that many bytes. *)
Lemma reads_count_next {B} l bs cs (k : Z -> reader B) b : written_all l bs -> len l <= kMaxVectorSize ->
  reads 0 (k (len l)) (bs ++ cs) b -> reads 0 (rbind read_count k) (encodeVarInt false W64 (len l) ++ bs ++ cs) b.
Proof.
  intros Hw Hl Hk. pose proof (len_nonneg l). pose proof (all_pos _ _ Hw). pose proof (len_nonneg cs).
  eapply (reads_bind _ 0); [apply reads_count; unfold kMaxVectorSize in Hl; lia|exact Hk| |lia].
  rewrite len_app. zcases; lia.
Qed.

Lemma written_tagged e bs : (exists e', Expression_serializeUnchecked e = Ok (tag (m_type e) ++ bs, e')) -> bytes_ok bs ->
  1 + len bs = Expression_getSerializedSize (expr_canon e) ->
  (forall dt k, len bs <= Z.of_nat k ->
    reads 0 (read_body (deserialize_loop dt k) dt (m_type e)) bs (expr_canon e)) ->
  written e (tag (m_type e) ++ bs).
Proof.
  intros Hs Hb Hl Hr. destruct (tag_len (m_type e)) as [Ht1 Ht2]. pose proof (len_nonneg bs). split.
  - assumption.
  - now apply bytes_ok_app.
  - rewrite len_app. lia.
  - rewrite len_app. lia.
  - intros dt k Hk. rewrite len_app in Hk. destruct k as [|k]; [lia|]. apply decodes_tagged, Hr. lia.
Qed.

Lemma unary_body rec dt op : read_body rec dt (unary_type op) = deserializeUnaryExpression rec op.
Proof. destruct op; reflexivity. Qed.
Lemma binary_body rec dt op : read_body rec dt (binary_type op) = read_binary rec op.
Proof. destruct op; reflexivity. Qed.

Lemma tag_size t : getExpressionTypeSerializedSize t = 1.
Proof. unfold getExpressionTypeSerializedSize. rewrite getVarIntSize_len. apply (tag_len t). Qed.

Lemma flag_bytes b : bytes_ok [flag_byte b].
Proof. repeat constructor; destruct b; cbn; lia. Qed.

Lemma count_bytes {A} (l : list A) : len l <= kMaxVectorSize -> bytes_ok (encodeVarInt false W64 (len l)).
Proof.
  intros H. apply (encodeVarInt_bytes false W64). cbn [int_ok]. pose proof (len_nonneg l).
  unfold u_ok, kMaxVectorSize in *. cbn. lia.
Qed.

Lemma canon_string_constant b : checkRightIsStringConstant b = true -> checkRightIsStringConstant (expr_canon b) = true.
Proof. destruct b as [v| | | | | | | | | |]; try discriminate. destruct v; cbn; auto. Qed.

Lemma name_bytes s : name_ok s -> bytes_ok (serializeUnchecked_string s).
Proof. intros [H1 H2]. now apply serialize_string_bytes. Qed.

Lemma reads_name s : name_ok s -> reads 0 read_string (serializeUnchecked_string s) s.
Proof. intros H. apply reads_at_offset. now apply decodes_string. Qed.

#[local] Hint Resolve name_bytes flag_bytes count_bytes written_bytes all_bytes : siodb.

(** The four goals of [written_tagged] in the common form: the operands are
    written one after the other. *)
Ltac sizes := cbn [expr_canon Expression_getSerializedSize m_type]; rewrite ?tag_size, ?len_app;
  repeat match goal with H : written ?e ?b |- _ =>
    lazymatch goal with K : len b = _ |- _ => fail | _ => pose proof (written_len e b H) end end;
  change (len [flag_byte _]) with 1; lia.

Ltac run := cbn [Expression_serializeUnchecked];
  repeat match goal with H : written ?a ?x |- context [Expression_serializeUnchecked ?a] =>
    let a' := fresh a in destruct (written_ser _ _ H) as [a' ->]; cbn [bind] end;
  eexists; reflexivity.

Ltac operands := rewrite ?bytes_ok_app; repeat split; eauto with siodb.

Lemma written_constant v : Variant_ok v -> serializable v -> exists bs, written (ConstantExpression v) bs.
Proof.
  intros Hv Hs. eexists. apply written_tagged with (bs := type_code (getValueType v) :: body v).
  - cbn [Expression_serializeUnchecked]. rewrite serialize_body by assumption. cbn [map_error bind]. eexists. reflexivity.
  - constructor; [apply tag_byte|now apply body_bytes].
  - cbn [expr_canon Expression_getSerializedSize m_type]. rewrite tag_size, len_cons, body_len by assumption. lia.
  - intros dt k _. cbn [m_type read_body expr_canon]. eapply reads_last; [|apply reads_ret].
    apply reads_at_offset. now apply decodes_variant.
Qed.

Lemma written_unary op a x : written a x -> exists bs, written (UnaryOperator op a) bs.
Proof.
  intros Ha. eexists. apply written_tagged with (bs := x).
  - run.
  - operands.
  - sizes.
  - intros dt k Hk. cbn [m_type expr_canon]. rewrite unary_body. eapply reads_last; [|apply reads_ret].
    now apply written_reads.
Qed.

Lemma written_binary op a b x y : written a x -> written b y -> exists bs, written (BinaryOperator op a b) bs.
Proof.
  intros Ha Hb. eexists. apply written_tagged with (bs := x ++ y).
  - run.
  - operands.
  - sizes.
  - intros dt k Hk. rewrite len_app in Hk. pose proof (len_nonneg x). pose proof (len_nonneg y).
    cbn [m_type expr_canon]. rewrite binary_body.
    eapply reads_next; [apply written_reads; [exact Ha|lia]|].
    eapply reads_last; [apply written_reads; [exact Hb|lia]|now apply reads_lift].
Qed.

Lemma written_cast a b x y : written a x -> written b y -> checkRightIsStringConstant b = true ->
  exists bs, written (CastOperator a b) bs.
Proof.
  intros Ha Hb Hc. eexists. apply written_tagged with (bs := x ++ y).
  - run.
  - operands.
  - sizes.
  - intros dt k Hk. rewrite len_app in Hk. pose proof (len_nonneg x). pose proof (len_nonneg y).
    cbn [m_type expr_canon read_body].
    eapply reads_next; [apply written_reads; [exact Ha|lia]|].
    eapply reads_last; [apply written_reads; [exact Hb|lia]|apply reads_lift].
    unfold newCastOperator. now rewrite canon_string_constant.
Qed.

(** LIKE and IS: two operands and a flag. *)
Lemma reads_two_flag rec (make : Expression -> Expression -> bool -> Expression) ea eb x y n :
  reads 0 (read_expression rec) x ea -> reads 0 (read_expression rec) y eb ->
  reads 0 (lhs <~ read_expression rec ;; rhs <~ read_expression rec ;; f <~ read_flag ;; rret (make lhs rhs f))
    (x ++ y ++ [flag_byte n]) (make ea eb n).
Proof.
  intros Ha Hb. eapply reads_next; [exact Ha|]. eapply reads_next; [exact Hb|].
  eapply reads_last; [apply reads_flag|apply reads_ret].
Qed.

Lemma written_like a b n x y : written a x -> written b y -> exists bs, written (LikeOperator a b n) bs.
Proof.
  intros Ha Hb. eexists. apply written_tagged with (bs := x ++ y ++ [flag_byte n]).
  - run.
  - operands.
  - sizes.
  - intros dt k Hk. rewrite !len_app in Hk. pose proof (len_nonneg x). pose proof (len_nonneg y).
    apply (reads_two_flag _ LikeOperator); apply written_reads; try assumption; cbn in Hk; lia.
Qed.

Lemma written_is a b n x y : written a x -> written b y -> exists bs, written (IsOperator a b n) bs.
Proof.
  intros Ha Hb. eexists. apply written_tagged with (bs := x ++ y ++ [flag_byte n]).
  - run.
  - operands.
  - sizes.
  - intros dt k Hk. rewrite !len_app in Hk. pose proof (len_nonneg x). pose proof (len_nonneg y).
    apply (reads_two_flag _ IsOperator); apply written_reads; try assumption; cbn in Hk; lia.
Qed.

Lemma written_between a b c n x y z : written a x -> written b y -> written c z ->
  exists bs, written (BetweenOperator a b c n) bs.
Proof.
  intros Ha Hb Hc. eexists. apply written_tagged with (bs := x ++ y ++ z ++ [flag_byte n]).
  - run.
  - operands.
  - sizes.
  - intros dt k Hk. rewrite !len_app in Hk. change (len [flag_byte n]) with 1 in Hk.
    pose proof (len_nonneg x). pose proof (len_nonneg y). pose proof (len_nonneg z).
    cbn [m_type expr_canon read_body].
    eapply reads_next; [apply written_reads; [exact Ha|lia]|].
    eapply reads_next; [apply written_reads; [exact Hb|lia]|].
    eapply reads_next; [apply written_reads; [exact Hc|lia]|].
    eapply reads_last; [apply reads_flag|apply reads_ret].
Qed.

Lemma written_columns t c i j : name_ok t -> name_ok c -> exists bs, written (SingleColumnExpression t c i j) bs.
Proof.
  intros Ht Hc. eexists. apply written_tagged with (bs := serializeUnchecked_string t ++ serializeUnchecked_string c).
  - run.
  - operands.
  - cbn [expr_canon Expression_getSerializedSize m_type]. rewrite tag_size, len_app, !string_ser_len. lia.
  - intros dt k _. cbn [m_type expr_canon read_body]. eapply reads_next; [now apply reads_name|].
    eapply reads_last; [now apply reads_name|apply reads_ret].
Qed.

Lemma written_all_columns t i : name_ok t -> exists bs, written (AllColumnsExpression t i) bs.
Proof.
  intros Ht. eexists. apply written_tagged with (bs := serializeUnchecked_string t).
  - run.
  - operands.
  - cbn [expr_canon Expression_getSerializedSize m_type]. rewrite tag_size, !string_ser_len. lia.
  - intros dt k _. cbn [m_type expr_canon read_body]. eapply reads_last; [now apply reads_name|apply reads_ret].
Qed.

Lemma len_map {A B} (f : A -> B) l : len (map f l) = len l.
Proof. unfold len. now rewrite length_map. Qed.

Lemma written_list l bs : written_all l bs -> len l <= kMaxVectorSize -> exists bs', written (ListExpression l) bs'.
Proof.
  intros Hw Hl. eexists. apply written_tagged with (bs := encodeVarInt false W64 (len l) ++ bs ++ []).
  - change (Expression_serializeUnchecked (ListExpression l)) with
      ('(bs, l') <- serialize_all l ;; Ok (tag kList ++ encodeVarInt false W64 (len l) ++ bs, ListExpression l')).
    destruct (all_ser _ _ Hw) as [l' ->]. cbn [bind]. rewrite app_nil_r. eexists. reflexivity.
  - rewrite app_nil_r. operands.
  - change (Expression_getSerializedSize (expr_canon (ListExpression l))) with
      (getExpressionTypeSerializedSize kList + (getVarIntSize false W64 (len (map expr_canon l)) + size_all (map expr_canon l))).
    rewrite tag_size, len_map, getVarIntSize_len, <- (all_len _ _ Hw), !len_app, len_nil. lia.
  - intros dt k Hk. rewrite !len_app, len_nil in Hk. pose proof (len_nonneg (encodeVarInt false W64 (len l))).
    cbn [m_type expr_canon read_body]. eapply reads_count_next; [eassumption..|].
    eapply reads_next; [apply reads_vector; try eassumption; lia|apply reads_ret].
Qed.

Lemma written_in v l n x bs : written v x -> written_all l bs -> len l <= kMaxVectorSize ->
  exists bs', written (InOperator v l n) bs'.
Proof.
  intros Hv Hw Hl. eexists.
  apply written_tagged with (bs := x ++ encodeVarInt false W64 (len l) ++ bs ++ [flag_byte n]).
  - change (Expression_serializeUnchecked (InOperator v l n)) with
      ('(x, v) <- Expression_serializeUnchecked v ;; '(bs, l') <- serialize_all l ;;
       Ok (tag kInPredicate ++ x ++ encodeVarInt false W64 (len l) ++ bs ++ [flag_byte n], InOperator v l' n)).
    destruct (written_ser _ _ Hv) as [v' ->]. cbn [bind]. destruct (all_ser _ _ Hw) as [l' ->]. cbn [bind].
    eexists. reflexivity.
  - operands.
  - change (Expression_getSerializedSize (expr_canon (InOperator v l n))) with
      (getExpressionTypeSerializedSize kInPredicate + (Expression_getSerializedSize (expr_canon v) +
        getVarIntSize false W64 (len (map expr_canon l)) + 1 + size_all (map expr_canon l))).
    rewrite tag_size, len_map, getVarIntSize_len, <- (all_len _ _ Hw), <- (written_len _ _ Hv), !len_app.
    change (len [flag_byte n]) with 1. lia.
  - intros dt k Hk. rewrite !len_app in Hk. change (len [flag_byte n]) with 1 in Hk.
    pose proof (len_nonneg (encodeVarInt false W64 (len l))). pose proof (len_nonneg x). pose proof (len_nonneg bs).
    cbn [m_type expr_canon read_body]. eapply reads_next; [apply written_reads; [exact Hv|lia]|].
    eapply reads_count_next; [eassumption..|]. eapply reads_next; [apply reads_vector; try eassumption; lia|].
    eapply reads_last; [apply reads_flag|apply reads_ret].
Qed.

Lemma expr_ok_all l : (fix all (l : list Expression) : Prop :=
  match l with [] => True | x :: l' => expr_ok x /\ all l' end) l -> Forall expr_ok l.
Proof. induction l as [|x l IH]; [constructor|]. intros [H1 H2]. constructor; auto. Qed.

Lemma written_forall l : Forall (fun e => expr_ok e -> exists bs, written e bs) l -> Forall expr_ok l ->
  exists bs, written_all l bs.
Proof.
  intros H1 H2. apply written_all_intro. rewrite Forall_forall in *. auto.
Qed.

Lemma written_ok e : expr_ok e -> exists bs, written e bs.
Proof.
  induction e as [v|t c i j|t i|l IH|op a IHa|op a b IHa IHb|a b n IHa IHb|a b c n IHa IHb IHc|v l n IHv IH|a b n IHa IHb|a b IHa IHb]
    using Expression_induction; intros Hok.
  - now apply written_constant; apply Hok.
  - now apply written_columns; apply Hok.
  - now apply written_all_columns.
  - destruct Hok as [Hl Hall%expr_ok_all]. destruct (written_forall l IH Hall) as [bs Hbs]. now apply (written_list l bs).
  - destruct (IHa Hok) as [x Hx]. now apply (written_unary op a x).
  - destruct Hok as [Ha Hb]. destruct (IHa Ha) as [x Hx], (IHb Hb) as [y Hy]. now apply (written_binary op a b x y).
  - destruct Hok as [Ha Hb]. destruct (IHa Ha) as [x Hx], (IHb Hb) as [y Hy]. now apply (written_like a b n x y).
  - destruct Hok as (Ha & Hb & Hc). destruct (IHa Ha) as [x Hx], (IHb Hb) as [y Hy], (IHc Hc) as [z Hz].
    now apply (written_between a b c n x y z).
  - destruct Hok as (Hv & Hl & Hall%expr_ok_all). destruct (IHv Hv) as [x Hx], (written_forall l IH Hall) as [bs Hbs].
    now apply (written_in v l n x bs).
  - destruct Hok as [Ha Hb]. destruct (IHa Ha) as [x Hx], (IHb Hb) as [y Hy]. now apply (written_is a b n x y).
  - destruct Hok as (Ha & Hb & Hc). destruct (IHa Ha) as [x Hx], (IHb Hb) as [y Hy]. now apply (written_cast a b x y).
Qed.

(** Reading [bytes], with [rest] after them and one byte held back. *)
Definition reads_back (dt : RawDateTime) (bytes rest : list Z) (e : Expression) : Prop :=
  Expression_deserialize dt (bytes ++ rest) (len (bytes ++ rest) - 1) = Ok (e, len bytes).

(** The date-times among the constants are normal. *)
Fixpoint normal_constants (e : Expression) : Prop :=
  let all := fix all (l : list Expression) : Prop := match l with [] => True | x :: l' => normal_constants x /\ all l' end in
  match e with
  | ConstantExpression v => normal_value v
  | SingleColumnExpression _ _ _ _ | AllColumnsExpression _ _ => True
  | ListExpression l => all l
  | UnaryOperator _ a => normal_constants a
  | BinaryOperator _ a b | LikeOperator a b _ | IsOperator a b _ | CastOperator a b => normal_constants a /\ normal_constants b
  | BetweenOperator a b c _ => normal_constants a /\ normal_constants b /\ normal_constants c
  | InOperator v l _ => normal_constants v /\ all l
  end.

Lemma sizes_canon l : Forall (fun e => normal_constants e -> Expression_getSerializedSize (expr_canon e) = Expression_getSerializedSize e) l ->
  (fix all (l : list Expression) : Prop := match l with [] => True | x :: l' => normal_constants x /\ all l' end) l -> size_all (map expr_canon l) = size_all l.
Proof. induction 1 as [|x l Hx _ IH]; [easy|]. intros [H1 H2]. cbn. now rewrite Hx, IH. Qed.

Lemma size_expr_canon e : normal_constants e -> Expression_getSerializedSize (expr_canon e) = Expression_getSerializedSize e.
Proof.
  assert (Hmap : forall l, len (map expr_canon l) = len l) by (intros l; unfold len; now rewrite length_map).
  induction e as [v|t c i j|t i|l IHl|op a IHa|op a b IHa IHb|a b n IHa IHb|a b c n IHa IHb IHc|v l n IHv IHl|a b n IHa IHb|a b IHa IHb] using Expression_induction; intros Hn.
  - cbn. now rewrite size_canon.
  - reflexivity.
  - reflexivity.
  - change (getExpressionTypeSerializedSize kList + (getVarIntSize false W64 (len (map expr_canon l)) + size_all (map expr_canon l)) =
      getExpressionTypeSerializedSize kList + (getVarIntSize false W64 (len l) + size_all l)). now rewrite Hmap, sizes_canon.
  - cbn in *. now rewrite IHa.
  - destruct Hn. cbn in *. now rewrite IHa, IHb.
  - destruct Hn. cbn in *. now rewrite IHa, IHb.
  - destruct Hn as (? & ? & ?). cbn in *. now rewrite IHa, IHb, IHc.
  - destruct Hn as [H1 H2]. change (getExpressionTypeSerializedSize kInPredicate + (Expression_getSerializedSize (expr_canon v) + getVarIntSize false W64 (len (map expr_canon l)) + 1 + size_all (map expr_canon l)) =
      getExpressionTypeSerializedSize kInPredicate + (Expression_getSerializedSize v + getVarIntSize false W64 (len l) + 1 + size_all l)). now rewrite Hmap, sizes_canon, IHv.
  - destruct Hn. cbn in *. now rewrite IHa, IHb.
  - destruct Hn. cbn in *. now rewrite IHa, IHb.
Qed.

(** C34: an expression tree is read back from what was written, with the size of
    the bytes consumed: constants as the variant reader returns them, column
    references without their dataset indices, everything else as it was.  The size
    is the announced one, unless a constant is a midnight date-time whose flag says
    that it has a time.  The reader is given one byte less than there are: other
    bytes must follow in the buffer, with a last byte that passes the test of the
    decoder ([tail_ok]). *)
Theorem expression_roundtrip e rest dt : expr_ok e -> bytes_ok rest -> tail_ok rest ->
  Expression_getSerializedSize (expr_canon e) + len rest < 2 ^ 64 ->
  exists bytes e', Expression_serializeUnchecked e = Ok (bytes, e') /\ bytes_ok bytes /\
    len bytes = Expression_getSerializedSize (expr_canon e) /\ (normal_constants e -> len bytes = Expression_getSerializedSize e) /\ reads_back dt bytes rest (expr_canon e).
Proof.
  intros He Hr Ht Hl. destruct (written_ok e He) as [bs Hw]. pose proof Hw as [[e' Hs] Hb Hlen Hp Hd].
  exists bs, e'. do 3 (split; [assumption|]). split; [intros Hn; now rewrite <- (size_expr_canon e Hn)|]. unfold reads_back, Expression_deserialize.
  apply Hd; [|now apply bytes_ok_app| |assumption|apply len_nonneg].
  - rewrite length_app. unfold len. lia.
  - rewrite len_app. lia.
Qed.

Definition sample : Expression :=
  InOperator (BinaryOperator AddOperator (ConstantExpression (VNum (CI I32 (-1000)))) (SingleColumnExpression [65] [66] [3] (Some 1)))
    [ConstantExpression (VBool true); CastOperator (ConstantExpression VNull) (ConstantExpression (VString [65]))] true.

Lemma expression_roundtrip_witness :
  exists bytes e', Expression_serializeUnchecked sample = Ok (bytes, e') /\
    Expression_deserialize {| m_timePart := kZeroRawTime; m_datePart := mkRawDate 0 0 0 6 false |}
      (bytes ++ [0]) (len (bytes ++ [0]) - 1) = Ok (expr_canon sample, 23).
Proof.
  destruct (expression_roundtrip sample [0] {| m_timePart := kZeroRawTime; m_datePart := mkRawDate 0 0 0 6 false |})
    as (bytes & e' & H1 & _ & H3 & _ & H4).
  - cbn. unfold name_ok, kMaxVectorSize, len; cbn. repeat split; try reflexivity; try lia;
      repeat constructor; unfold byte_ok; cbn; lia.
  - repeat constructor; unfold byte_ok; lia.
  - split; [discriminate|]. right. reflexivity.
  - reflexivity.
  - exists bytes, e'. split; [exact H1|]. rewrite H4, H3. reflexivity.
Defined.
