(* ===== verification/ExprSafe.v ===== *)
(** * Reading an expression from any bytes ends

    [Expression::deserialize] calls itself on what follows in the buffer, with
    lengths and counts taken from the data.  Every call and every iteration takes
    at least one byte, so that the recursion ends on all inputs. *)

From Stdlib Require Import ZArith List Lia Bool.
From S2P Require Import Prelude VarInt PlainBinary Codec CNum RawDateTime VariantType Lob Variant Expr.
Import ListNotations.
Open Scope Z_scope.

(** A call on the front of a buffer: it ends, and if it returns, the buffer was
    not empty and a positive size is reported. *)
Definition front {E A} (b : list Z) (c : outcome E (A * Z)) : Prop :=
  match c with Undef NoProgress => False | Ok (_, n) => 1 <= n /\ b <> [] | _ => True end.

Definition ends {E A} (c : outcome E A) : Prop :=
  match c with Undef NoProgress => False | _ => True end.

Lemma front_bind {E A B} b (c : outcome E A) (k : A -> outcome E (B * Z)) :
  ends c -> (forall a, c = Ok a -> front b (k a)) -> front b (bind c k).
Proof. destruct c; cbn; auto. Qed.

Lemma ends_rd {E} src i : ends (@rd E src i).
Proof. unfold rd. destruct (i <? 0); [exact I|]. destruct (nth_error _ _); exact I. Qed.

Lemma ends_memrd {E} src i n : ends (@memrd E src i n).
Proof. unfold memrd. destruct (_ || _); [exact I|]. destruct (_ <=? _); exact I. Qed.

Lemma front_map_error {E E' A} (f : E -> E') b (c : outcome E (A * Z)) : front b c -> front b (map_error f c).
Proof. destruct c as [[]| |]; auto. Qed.

#[local] Hint Resolve ends_rd ends_memrd front_map_error : siodb.

(** ** The decoders *)

Lemma take_group_pos n l g : take_group n l = Some g -> 1 <= len g.
Proof.
  destruct n as [|n], l as [|b t]; try discriminate. cbn. destruct (b <? 128); [intros [= <-]; reflexivity || (cbn; lia)|].
  destruct (take_group n t); [|discriminate]. intros [= <-]. rewrite len_cons. pose proof (len_nonneg l). lia.
Qed.

(** The integer decoders, with any declared size. *)
Lemma decode_front {E A} sgn w src size (k : decoded -> outcome E (A * Z)) : bytes_ok src ->
  (forall n v, 1 <= n -> src <> [] -> front src (k (Consumed n v))) ->
  front src (k NotEnoughData) -> front src (k Corrupt) ->
  front src (bind (lift (decodeVarInt sgn w src size)) k).
Proof.
  intros Hb H1 H2 H3.
  assert (Hu : match decodeVarInt false w src size with
    | Ok (Consumed n v) => 1 <= n /\ src <> [] | Ok _ => True | Undef NoProgress => False | _ => True end).
  { rewrite decodeVarInt_unsigned, decodeVarUInt_shape by assumption. destruct (size >? 0); [|exact I].
    destruct (rd src 0) as [b0|[]|u] eqn:H0; cbn [bind].
    2:{ pose proof (@ends_rd Empty_set src 0) as He. rewrite H0 in He. destruct u; (exact I || contradiction). }
    assert (Hne : src <> []) by (intros ->; discriminate).
    destruct (b0 <? 128); [refine (conj _ Hne); lia|]. unfold enough_data.
    destruct (size >=? _); cbn [bind].
    - unfold run_spec. destruct (take_group _ _) eqn:Hg; [apply take_group_pos in Hg; refine (conj _ Hne); lia|].
      destruct (_ <=? _)%nat; exact I.
    - pose proof (@ends_rd Empty_set src (size - 1)) as He. destruct (rd src (size - 1)) as [b1|[]|u]; cbn [bind].
      2:{ destruct u; (exact I || contradiction). }
      destruct (negb _); [|exact I]. unfold run_spec.
      destruct (take_group _ _) eqn:Hg; [apply take_group_pos in Hg; refine (conj _ Hne); lia|].
      destruct (_ <=? _)%nat; exact I. }
  destruct sgn; [rewrite decodeVarInt_signed|].
  - destruct (decodeVarInt false w src size) as [[n v| |]|[]|u]; cbn;
      [destruct Hu; now apply H1|assumption|assumption|destruct u; auto].
  - destruct (decodeVarInt false w src size) as [[n v| |]|[]|u]; cbn;
      [destruct Hu; now apply H1|assumption|assumption|destruct u; auto].
Qed.

Lemma string_front b l : bytes_ok b -> front b (deserializeObject_string b l).
Proof.
  intros Hb. apply decode_front; [assumption| |exact I..]. intros n v Hn Hne. cbv zeta. destruct (l - n <? v); [exact I|].
  unfold memrd. destruct ((n <? 0) || (v <? 0)) eqn:Hneg; [exact I|]. apply orb_false_iff in Hneg as [_ Hv%Z.ltb_ge].
  destruct (n + v <=? len b); [|exact I]. cbn [bind front]. split; [lia|assumption].
Qed.

Lemma datetime_ends {E} dt b l : ends (@RawDateTime.deserialize E dt b l).
Proof.
  unfold RawDateTime.deserialize. destruct (l <? 4); [exact I|].
  pose proof (@ends_memrd E b 0 4). destruct (memrd b 0 4) as [d| |u]; [|exact I|assumption]. cbn [bind].
  destruct (negb _); [exact I|]. destruct (l <? 10); [exact I|].
  pose proof (@ends_memrd E b 4 4). destruct (memrd b 4 4) as [lo| |u]; [|exact I|assumption]. cbn [bind].
  pose proof (@ends_memrd E b 8 2). destruct (memrd b 8 2) as [hi| |u]; [exact I|exact I|assumption].
Qed.

Lemma datetime_size {E} dt b l d n : @RawDateTime.deserialize E dt b l = Ok (d, n) -> 0 <= n.
Proof.
  unfold RawDateTime.deserialize. destruct (l <? 4); [intros [= _ <-]; lia|].
  intros (x & _ & H)%bind_Ok. destruct (negb _); [injection H as _ <-; lia|].
  destruct (l <? 10); [injection H as _ <-; lia|]. apply bind_Ok in H as (lo & _ & H). apply bind_Ok in H as (hi & _ & H).
  injection H as _ <-. lia.
Qed.

Lemma variant_front dt b l : bytes_ok b -> front b (Variant.deserialize dt b l).
Proof.
  intros Hb. unfold Variant.deserialize. destruct (l =? 0); [exact I|]. apply front_bind; [apply ends_rd|].
  intros t Ht. assert (Hne : b <> []) by (intros ->; discriminate).
  assert (Htl : bytes_ok (tl b)) by (destruct b; [constructor|now apply Forall_inv_tail in Hb]).
  assert (Hint : forall s, front b (deserialize_int s (tl b) l)).
  { intros s. unfold deserialize_int. pose proof (decode_front (E := VariantError) (A := Variant) (signed s) (width_of s) (tl b) l) as Hd.
    match goal with |- front b ?c => assert (Hc : front (tl b) c) end.
    { apply Hd; [assumption| |exact I..]. intros n v Hn Hne'. split; [lia|assumption]. }
    revert Hc. destruct (bind _ _) as [[v n]|e|u]; cbn; [|auto|destruct u; auto]. intros [? _]. auto. }
  assert (Hstr : forall (make : list Z -> Variant),
    front b ('(s, consumed) <- map_error ObjectError (deserializeObject_string (tl b) l) ;; Ok (make s, consumed + 1))).
  { intros make. pose proof (string_front (tl b) l Htl) as Hs.
    destruct (deserializeObject_string (tl b) l) as [[s n]|e|u]; cbn in *; [|auto|destruct u; auto].
    split; [lia|assumption]. }
  destruct (type_of_code t) as [[]|]; try exact I; try apply Hint;
    try (split; [lia|assumption]); try (apply front_bind; [apply ends_rd|]; intros; split; [lia|assumption]).
  - destruct (l <? 4); [exact I|]. apply front_bind; [|intros; split; [lia|assumption]].
    unfold pbeDecodeFloat, pbeDecodeUInt32. pose proof (@ends_memrd VariantError (tl b) 0 4). now destruct (memrd _ _ _).
  - destruct (l <? 8); [exact I|]. apply front_bind; [|intros; split; [lia|assumption]].
    unfold pbeDecodeDouble, pbeDecodeUInt64. pose proof (@ends_memrd VariantError (tl b) 0 8). now destruct (memrd _ _ _).
  - apply front_bind; [apply datetime_ends|]. intros [d n] Hd. apply datetime_size in Hd.
    destruct (Z.eqb_spec n 0); [exact I|]. split; [lia|assumption].
  - apply (Hstr VString).
  - apply (Hstr VBinary).
  - apply (Hstr (fun s => VClob (newMemLob s))).
  - apply (Hstr (fun s => VBlob (newMemLob s))).
Qed.

(** ** The readers *)

(** A reader on buffers of at most [k] bytes, after the first: it ends and does
    not go back; [strict] ones advance, from inside the buffer. *)
Definition tame {A} (k : nat) (m : reader A) : Prop :=
  forall buffer length c, bytes_ok buffer -> (List.length buffer <= k)%nat -> 1 <= c ->
    match m buffer length c with Undef NoProgress => False | Ok (_, c') => c <= c' | _ => True end.

Definition strict {A} (k : nat) (m : reader A) : Prop :=
  forall buffer length c, bytes_ok buffer -> (List.length buffer <= k)%nat -> 1 <= c ->
    match m buffer length c with Undef NoProgress => False | Ok (_, c') => c < c' /\ c < len buffer | _ => True end.

Lemma strict_tame {A} k (m : reader A) : strict k m -> tame k m.
Proof.
  intros H buffer length c Hb Hk Hc. specialize (H buffer length c Hb Hk Hc).
  destruct (m buffer length c) as [[a c']|e|u]; [lia|exact I|exact H].
Qed.

Lemma tame_ret {A} k (a : A) : tame k (rret a).
Proof. intros buffer length c _ _ _. cbn. lia. Qed.

Lemma tame_lift {A} k (c : outcome ExpressionError A) : ends c -> tame k (rlift c).
Proof. intros H buffer length n _ _ _. unfold rlift. destruct c as [a|e|u]; cbn; [lia|exact I|exact H]. Qed.

Lemma tame_bind {A B} k (m : reader A) (f : A -> reader B) :
  tame k m -> (forall a, tame k (f a)) -> tame k (rbind m f).
Proof.
  intros Hm Hf buffer length c Hb Hk Hc. unfold rbind. specialize (Hm buffer length c Hb Hk Hc).
  destruct (m buffer length c) as [[a c']|e|u]; cbn [bind]; [|exact I|exact Hm].
  specialize (Hf a buffer length c' Hb Hk ltac:(lia)).
  destruct (f a buffer length c') as [[b c'']|e|u]; [lia|exact I|exact Hf].
Qed.

(** A function called further in the buffer sees fewer bytes. *)
Lemma strict_at_offset {A} k (f : list Z -> Z -> outcome ExpressionError (A * Z)) :
  (forall b l, bytes_ok b -> (List.length b < k)%nat -> front b (f b l)) -> (0 < k)%nat -> strict k (at_offset f).
Proof.
  intros Hf H0 buffer length c Hb Hk Hc. unfold at_offset.
  assert (Hl : (List.length (skipn (Z.to_nat c) buffer) < k)%nat).
  { rewrite length_skipn. destruct buffer; [cbn; lia|]. cbn [List.length] in *. lia. }
  specialize (Hf (skipn (Z.to_nat c) buffer) (uw 64 (length - c)) (bytes_ok_skipn _ _ Hb) Hl).
  destruct (f _ _) as [[a n]|e|u]; cbn in *; [|exact I|exact Hf]. split; [lia|].
  destruct (Z.ltb_spec c (len buffer)); [assumption|]. destruct Hf as [_ Hne]. destruct Hne.
  apply skipn_all2. unfold len in *. lia.
Qed.

Section Loop.
Context (k : nat) (rec : list Z -> Z -> outcome ExpressionError (Expression * Z)).
Context (Hk : (0 < k)%nat) (Hrec : forall b l, bytes_ok b -> (List.length b < k)%nat -> front b (rec b l)).

Lemma expression_strict : strict k (read_expression rec).
Proof. now apply strict_at_offset. Qed.

Lemma string_tame : tame k read_string.
Proof. apply strict_tame, strict_at_offset; [|assumption]. intros b l Hb _. now apply front_map_error, string_front. Qed.

Lemma count_tame : tame k read_count.
Proof.
  apply strict_tame, strict_at_offset; [|assumption]. intros b l Hb _. apply decode_front; [assumption| |exact I..].
  intros n v Hn Hne. split; assumption.
Qed.

Lemma variant_tame dt : tame k (at_offset (fun b l => map_error VariantFailed (Variant.deserialize dt b l))).
Proof. apply strict_tame, strict_at_offset; [|assumption]. intros b l Hb _. now apply front_map_error, variant_front. Qed.

Lemma flag_tame : tame k read_flag.
Proof.
  intros buffer length c _ _ _. unfold read_flag. destruct (_ =? _); [exact I|].
  pose proof (@ends_rd ExpressionError buffer c) as He. destruct (rd buffer c) as [b|e|u]; cbn [bind]; [|exact I|exact He].
  destruct (_ >? _); [exact I|lia].
Qed.

(** The loop over the elements runs out of buffer before it runs out of fuel. *)
Lemma items_tame fuel : forall count buffer length c, bytes_ok buffer -> (List.length buffer <= k)%nat -> 1 <= c ->
  (0 < fuel)%nat -> len buffer < c + Z.of_nat fuel ->
  match read_items rec fuel count buffer length c with
  | Undef NoProgress => False | Ok (_, c') => c <= c' | _ => True end.
Proof.
  induction fuel as [|fuel IH]; intros count buffer length c Hb Hl Hc H0 Hf; [lia|]. cbn [read_items].
  destruct (count =? 0); [cbn; lia|]. unfold rbind at 1.
  pose proof (expression_strict buffer length c Hb Hl Hc) as He.
  destruct (read_expression rec buffer length c) as [[x c1]|e|u]; cbn [bind]; [|exact I|exact He].
  specialize (IH (count - 1) buffer length c1 Hb Hl ltac:(lia) ltac:(lia) ltac:(lia)). unfold rbind.
  destruct (read_items rec fuel (count - 1) buffer length c1) as [[l c2]|e|u]; cbn; [lia|exact I|exact IH].
Qed.

Lemma vector_tame count : tame k (read_vector rec count).
Proof.
  intros buffer length c Hb Hl Hc. unfold read_vector. destruct (_ >? _); [exact I|].
  apply items_tame; try assumption; unfold len; lia.
Qed.

#[local] Hint Resolve tame_ret expression_strict strict_tame string_tame count_tame flag_tame vector_tame variant_tame : siodb.

Lemma body_tame dt t : tame k (read_body rec dt t).
Proof.
  assert (Hun : forall op, tame k (deserializeUnaryExpression rec op)).
  { intros op. apply tame_bind; eauto with siodb. }
  assert (Hbin : forall make, (forall a b, ends (make a b)) -> tame k (deserializeBinaryExpression rec make)).
  { intros make Hm. apply tame_bind; [eauto with siodb|intros a]. apply tame_bind; [eauto with siodb|intros b].
    apply tame_lift, Hm. }
  assert (Hop : forall op, tame k (read_binary rec op)) by (intros op; apply Hbin; intros; exact I).
  destruct t; cbn [read_body]; try apply Hun; try apply Hop; try (apply tame_lift; exact I);
    try (apply Hbin; intros; unfold newCastOperator; destruct (checkRightIsStringConstant _); exact I);
    repeat (apply tame_bind; [eauto with siodb|intros]); eauto with siodb.
Qed.
End Loop.

(** Every call is given more fuel than it has bytes. *)
Lemma loop_front dt k : forall b l, bytes_ok b -> (List.length b < k)%nat -> front b (deserialize_loop dt k b l).
Proof.
  induction k as [|k IH]; intros b l Hb Hk; [lia|]. cbn [deserialize_loop].
  apply decode_front; [assumption| |exact I..]. intros n v Hn Hne. destruct (v >=? kMax); [exact I|].
  destruct (expression_of_code v) as [t|]; [|exact I].
  assert (H0 : (0 < k)%nat) by (destruct b; [congruence|cbn in Hk; lia]).
  pose proof (body_tame k (deserialize_loop dt k) H0 IH dt t b l n Hb ltac:(lia) Hn) as Ht.
  destruct (read_body _ _ _ _ _ _) as [[e c]|e|u]; cbn; [split; [lia|assumption]|exact I|exact Ht].
Qed.

(** A result, an exception, a read outside the buffer or the end of the program. *)
Definition progress (c : outcome ExpressionError (Expression * Z)) : Prop :=
  match c with Ok (_, consumed) => 1 <= consumed | Undef NoProgress => False | _ => True end.

(** C37: reading an expression from any bytes, with any declared length, ends: it
    returns an expression after taking at least one byte, throws, reads outside
    the buffer or ends the program, but neither the recursion nor a loop over
    elements runs without end, whatever counts the data holds. *)
Theorem expression_deserialize_ends dt buffer length : bytes_ok buffer ->
  progress (Expression_deserialize dt buffer length).
Proof.
  intros Hb. pose proof (loop_front dt (S (List.length buffer)) buffer length Hb ltac:(lia)) as H.
  unfold Expression_deserialize. destruct (deserialize_loop _ _ _ _) as [[e n]|e|u]; [apply H|exact I|exact H].
Qed.

Lemma expression_deserialize_ends_witness :
  progress (Expression_deserialize {| m_timePart := kZeroRawTime; m_datePart := mkRawDate 0 0 0 6 false |}
    [3; 0xFF; 0xFF; 0xFF; 0xFF; 0xFF; 0xFF; 0xFF; 0x0F; 0; 0; 0; 0] 13).
Proof. apply expression_deserialize_ends. repeat constructor; unfold byte_ok; lia. Defined.

(** A constant may be read one byte beyond the declared length; what remains is
    then counted modulo 2^64, and the next operand is read from outside of it.
    Here a conjunction of three declared bytes takes its second operand from the
    bytes after them. *)
Lemma expression_length_wraps dt e : Expression_deserialize dt [6; 0; 1; 1; 0; 0; e] 3 =
  Ok (BinaryOperator LogicalAndOperator (ConstantExpression (VBool true)) (ConstantExpression VNull), 6).
Proof. reflexivity. Qed.

(** A cast to anything but a string constant ends the program. *)
Lemma cast_terminates dt : Expression_deserialize dt [22; 0; 0; 0; 0; 0] 5 = Undef Terminated.
Proof. reflexivity. Qed.
