(* ===== verification/ExprEval.v ===== *)
(** * Expressions: types, validation and evaluation

    Models [getResultValueType], [getColumnDataType], [validate], [evaluate] and
    [canCastAsDateTime] of the expression classes in [parser/expr].  The
    evaluation context is the abstract class [ExpressionEvaluationContext]: a
    record of its two operations, for one row.  An evaluated constant or column
    is a copy, so that evaluation changes neither the expression nor the row. *)

From Stdlib Require Import ZArith List Lia Bool SpecFloat Ascii String.
From S2P Require Import Prelude CNum RawDateTime VariantType Lob Variant VariantArith Utf8 VariantCmp VariantConv.
From S2P Require Import ColumnType Like Expr.
Import ListNotations.
Open Scope Z_scope.

(** The C library and the date library, as [VariantConv] uses them. *)
Class Externals : Type := {
  ext_utf8 : Utf8Decoder;
  ext_buffer : Z -> list Z;
  ext_stof : list Z -> option spec_float;
  ext_stod : list Z -> option spec_float;
  ext_date_parse : dt_format -> list Z -> option Z;
  ext_ymd : Z -> Z * Z * Z;
  ext_weekday : Z -> Z;
  ext_gmtime : Z -> option tm;
  ext_uninit : RawDateTime;
  ext_print_float : fty -> spec_float -> list Z;
  ext_date_format : Z -> list Z
}.
#[export] Existing Instance ext_utf8.

#[local] Open Scope siodb_scope.

Record ExpressionEvaluationContext : Type := {
  getColumnValue : Z -> Z -> outcome ExpressionError Variant;
  context_getColumnDataType : Z -> Z -> outcome ExpressionError ColumnDataType
}.

Section Evaluation.
Context {X : Externals} (context : ExpressionEvaluationContext).

Definition variant_result {A} (c : outcome VariantError A) : outcome ExpressionError A := map_error VariantFailed c.
Definition as_datetime (v : Variant) : outcome VariantError RawDateTime :=
  fst (asDateTime ext_buffer ext_date_parse ext_ymd ext_weekday ext_gmtime ext_uninit v).

(** [checkHasTableAndColumnIndices], and the two indices. *)
Definition column_indices (tables : list Z) (column : option Z) : outcome ExpressionError (Z * Z) :=
  match tables, column with
  | [], _ => Throw RuntimeError
  | _, None => Throw RuntimeError
  | t :: _, Some c => Ok (t, c)
  end.

Definition to_variant_type (t : ColumnDataType) : outcome ExpressionError VariantType :=
  match convertColumnDataTypeToVariantType t with Some v => Ok v | None => Throw InvalidArgumentError end.

(** ** Column types *)

Fixpoint text_of (s : list Z) : string :=
  match s with [] => String.EmptyString | c :: s => String.String (ascii_of_N (Z.to_N c)) (text_of s) end.

(** The destination type of a cast: its right operand is a string constant. *)
Definition cast_type (right : Expression) : outcome ExpressionError ColumnDataType :=
  match right with
  | ConstantExpression (VString s) =>
      match getColumnDataTypeByName (text_of s) with Some t => Ok t | None => Throw InvalidArgumentError end
  | _ => Throw RuntimeError
  end.

Definition is_arithmetic (op : binary_operator) : bool :=
  match op with SubtractOperator | MultiplyOperator | DivideOperator | ModuloOperator => true | _ => false end.
Definition is_bitwise (op : binary_operator) : bool :=
  match op with
  | BitwiseOrOperator | BitwiseAndOperator | BitwiseXorOperator | RightShiftOperator | LeftShiftOperator => true
  | _ => false
  end.

(** [ArithmeticBinaryOperator], [BitwiseBinaryOperator], ... of two types. *)
Definition column_binary (op : binary_operator) (l r : ColumnDataType) : ColumnDataType :=
  match op with
  | LogicalAndOperator | LogicalOrOperator =>
      match l, r with COLUMN_DATA_TYPE_BOOL, COLUMN_DATA_TYPE_BOOL => COLUMN_DATA_TYPE_BOOL | _, _ => COLUMN_DATA_TYPE_UNKNOWN end
  | AddOperator =>
      if ColumnDataType_eqb l r && (ColumnDataType_eqb l COLUMN_DATA_TYPE_TEXT || ColumnDataType_eqb l COLUMN_DATA_TYPE_NTEXT) then l
      else if negb (column_isNumericType l) || negb (column_isNumericType r) then COLUMN_DATA_TYPE_UNKNOWN
      else column_getNumericResultType l r
  | SubtractOperator | MultiplyOperator | DivideOperator | ModuloOperator =>
      if negb (column_isNumericType l) || negb (column_isNumericType r) then COLUMN_DATA_TYPE_UNKNOWN
      else column_getNumericResultType l r
  | BitwiseOrOperator | BitwiseAndOperator | BitwiseXorOperator | RightShiftOperator | LeftShiftOperator =>
      if negb (column_isIntegerType l) || negb (column_isIntegerType r) then COLUMN_DATA_TYPE_UNKNOWN
      else column_getNumericResultType l r
  | ConcatenationOperator => COLUMN_DATA_TYPE_TEXT
  | _ => COLUMN_DATA_TYPE_BOOL
  end.

Definition column_unary (op : unary_operator) (t : ColumnDataType) : ColumnDataType :=
  match op with
  | LogicalNotOperator => if ColumnDataType_eqb t COLUMN_DATA_TYPE_BOOL then COLUMN_DATA_TYPE_BOOL else COLUMN_DATA_TYPE_UNKNOWN
  | UnaryMinusOperator | UnaryPlusOperator =>
      if negb (column_isNumericType t) then COLUMN_DATA_TYPE_UNKNOWN
      else if column_code t <=? column_code COLUMN_DATA_TYPE_INT32 then COLUMN_DATA_TYPE_INT32 else column_getSignedType t
  | ComplementOperator =>
      if negb (column_isIntegerType t) then COLUMN_DATA_TYPE_UNKNOWN
      else if column_code t <=? column_code COLUMN_DATA_TYPE_INT32 then COLUMN_DATA_TYPE_INT32 else t
  end.

(** ** Value types *)

Definition variant_binary (op : binary_operator) (l r : VariantType) : VariantType :=
  match op with
  | LogicalAndOperator | LogicalOrOperator => match l, r with kBool, kBool => kBool | _, _ => kNull end
  | AddOperator =>
      if VariantType_eqb l r && VariantType_eqb l kString then kString
      else if negb (isNumericType l) || negb (isNumericType r) then kNull
      else getNumericResultType l r
  | SubtractOperator | MultiplyOperator | DivideOperator | ModuloOperator =>
      if negb (isNumericType l) || negb (isNumericType r) then kNull else getNumericResultType l r
  | BitwiseOrOperator | BitwiseAndOperator | BitwiseXorOperator | RightShiftOperator | LeftShiftOperator =>
      if negb (isIntegerType l) || negb (isIntegerType r) then kNull else getNumericResultType l r
  | ConcatenationOperator => if isNullType l || isNullType r then kNull else kString
  | _ => kBool
  end.

Definition variant_unary (op : unary_operator) (t : VariantType) : VariantType :=
  match op with
  | LogicalNotOperator => if isBoolType t then kBool else kNull
  | UnaryMinusOperator | UnaryPlusOperator =>
      if negb (isNumericType t) then kNull
      else if type_code t <=? type_code kInt32 then kInt32 else getSignedType t
  | ComplementOperator =>
      if negb (isIntegerType t) then kNull
      else if type_code t <=? type_code kInt32 then kInt32 else t
  end.

(** The classes whose result is a boolean do not look at their operands; the
    concatenation does not look at its right operand when the left one is null. *)
Definition ignores_operands (op : binary_operator) : bool :=
  match op with
  | EqualOperator | NotEqualOperator | LessOperator | LessOrEqualOperator | GreaterOrEqualOperator | GreaterOperator => true
  | _ => false
  end.

Fixpoint getResultValueType (e : Expression) : outcome ExpressionError VariantType :=
  let last_type := fix last_type (l : list Expression) : outcome ExpressionError VariantType :=
    match l with [] => Ok kNull | [x] => getResultValueType x | _ :: l' => last_type l' end in
  match e with
  | ConstantExpression v => Ok (getValueType v)
  | SingleColumnExpression _ _ tables column =>
      '(t, c) <- column_indices tables column ;;
      d <- context_getColumnDataType context t c ;;
      to_variant_type d
  | AllColumnsExpression _ _ => Throw RuntimeError
  | ListExpression l => last_type l
  | UnaryOperator op a => t <- getResultValueType a ;; Ok (variant_unary op t)
  | BinaryOperator op a b =>
      if ignores_operands op then Ok kBool else
      l <- getResultValueType a ;;
      match op with
      | ConcatenationOperator =>
          if isNullType l then Ok kNull else r <- getResultValueType b ;; Ok (variant_binary op l r)
      | _ => r <- getResultValueType b ;; Ok (variant_binary op l r)
      end
  | CastOperator _ b => d <- cast_type b ;; to_variant_type d
  | LikeOperator _ _ _ | BetweenOperator _ _ _ _ | InOperator _ _ _ | IsOperator _ _ _ => Ok kBool
  end.

Fixpoint getColumnDataType (e : Expression) : outcome ExpressionError ColumnDataType :=
  let last_type := fix last_type (l : list Expression) : outcome ExpressionError ColumnDataType :=
    match l with [] => Ok COLUMN_DATA_TYPE_UNKNOWN | [x] => getColumnDataType x | _ :: l' => last_type l' end in
  match e with
  | ConstantExpression v => Ok (convertVariantTypeToColumnDataType (getValueType v))
  | SingleColumnExpression _ _ tables column =>
      '(t, c) <- column_indices tables column ;; context_getColumnDataType context t c
  | AllColumnsExpression _ _ => Throw RuntimeError
  | ListExpression l => last_type l
  | UnaryOperator op a => t <- getColumnDataType a ;; Ok (column_unary op t)
  | BinaryOperator op a b =>
      if ignores_operands op then Ok COLUMN_DATA_TYPE_BOOL else
      match op with
      | ConcatenationOperator =>
          l <- getResultValueType a ;;
          if isNullType l then Ok COLUMN_DATA_TYPE_UNKNOWN else
          r <- getResultValueType b ;;
          Ok (if isNullType r then COLUMN_DATA_TYPE_UNKNOWN else COLUMN_DATA_TYPE_TEXT)
      | _ =>
          l <- getColumnDataType a ;;
          r <- getColumnDataType b ;;
          Ok (column_binary op l r)
      end
  | CastOperator _ b => cast_type b
  | LikeOperator _ _ _ | BetweenOperator _ _ _ _ | InOperator _ _ _ | IsOperator _ _ _ => Ok COLUMN_DATA_TYPE_BOOL
  end.

(** [canCastAsDateTime]: [noexcept], so that an exception of the type ends the
    program. *)
Definition canCastAsDateTime (e : Expression) : outcome ExpressionError bool :=
  match e with
  | ConstantExpression v =>
      if isDateTimeType (getValueType v) then Ok true
      else if isString v then
        match as_datetime v with Ok _ => Ok true | Throw _ => Ok false | Undef u => Undef u end
      else Ok false
  | _ =>
      match getResultValueType e with
      | Ok t => Ok (isDateTimeType t)
      | Throw _ => Undef Terminated
      | Undef u => Undef u
      end
  end.

(** ** Validation *)

(** The operand may be null or of the given kind. *)
Definition check (ok : VariantType -> bool) (t : VariantType) : outcome ExpressionError unit :=
  if negb (ok t) && negb (isNullType t) then Throw RuntimeError else Ok tt.

Definition or_null (ok : VariantType -> bool) (t : VariantType) : bool := isNullType t || ok t.

Definition unary_kind (op : unary_operator) : VariantType -> bool :=
  match op with
  | LogicalNotOperator => isBoolType
  | UnaryMinusOperator | UnaryPlusOperator => isNumericType
  | ComplementOperator => isIntegerType
  end.

Definition binary_kind (op : binary_operator) : VariantType -> bool :=
  match op with
  | LogicalAndOperator | LogicalOrOperator => isBoolType
  | SubtractOperator | MultiplyOperator | DivideOperator | ModuloOperator => isNumericType
  | BitwiseOrOperator | BitwiseAndOperator | BitwiseXorOperator | RightShiftOperator | LeftShiftOperator => isIntegerType
  | _ => fun _ => true
  end.

(** A date-time operand of BETWEEN: null, of the type, or castable to it. *)
Definition datetime_operand (e : Expression) (t : VariantType) : outcome ExpressionError bool :=
  if isNullType t || isDateTimeType t then Ok true else canCastAsDateTime e.

(** The kind of the elements IN expects, from the type of its value. *)
Definition in_expected (e : Expression) (t : VariantType) : outcome ExpressionError VariantType :=
  if isBoolType t then Ok kBool
  else if isNumericType t then Ok kInt32
  else if isDateTimeType t then Ok kDateTime
  else
    c <- canCastAsDateTime e ;;
    Ok (if (c : bool) then kDateTime else if isStringType t then kString else if isBinaryType t then kBinary else kNull).

Definition in_element (expected : VariantType) (e : Expression) (t : VariantType) : outcome ExpressionError unit :=
  if isNullType t then Ok tt else
  let fail (ok : bool) := if ok then Ok tt else Throw RuntimeError in
  match expected with
  | kNull => Ok tt
  | kBool => fail (isBoolType t)
  | kInt32 => fail (isNumericType t)
  | kDateTime => if isDateTimeType t then Ok tt else c <- canCastAsDateTime e ;; fail c
  | kString => fail (isStringType t)
  | kBinary => fail (isBinaryType t)
  | _ => Throw RuntimeError
  end.

Fixpoint validate (e : Expression) : outcome ExpressionError unit :=
  let validate_all := fix validate_all (l : list Expression) : outcome ExpressionError unit :=
    match l with [] => Ok tt | x :: l' => validate x ;;; validate_all l' end in
  let validate_elements := fix validate_elements (expected : VariantType) (l : list Expression) : outcome ExpressionError unit :=
    match l with
    | [] => Ok tt
    | x :: l' =>
        validate x ;;;
        t <- getResultValueType x ;;
        in_element expected x t ;;;
        validate_elements expected l'
    end in
  match e with
  | ConstantExpression _ => Ok tt
  | SingleColumnExpression _ _ tables column => column_indices tables column ;;; Ok tt
  | AllColumnsExpression _ tables => match tables with [] => Throw RuntimeError | _ => Ok tt end
  | ListExpression l => validate_all l
  | UnaryOperator op a =>
      validate a ;;;
      t <- getResultValueType a ;;
      check (unary_kind op) t
  | BinaryOperator op a b =>
      validate a ;;;
      validate b ;;;
      match op with
      | AddOperator =>
          l <- getResultValueType a ;;
          r <- getResultValueType b ;;
          if or_null isNumericType l && or_null isNumericType r then Ok tt
          else if or_null isStringType l && or_null isStringType r then Ok tt
          else Throw RuntimeError
      | ConcatenationOperator => Ok tt
      | _ =>
          if ignores_operands op then Ok tt else
          l <- getResultValueType a ;;
          check (binary_kind op) l ;;;
          r <- getResultValueType b ;;
          check (binary_kind op) r
      end
  | LikeOperator a b _ =>
      validate a ;;;
      validate b ;;;
      l <- getResultValueType a ;;
      check isStringType l ;;;
      r <- getResultValueType b ;;
      check isStringType r
  | BetweenOperator a b c _ =>
      validate a ;;;
      validate c ;;;
      l <- getResultValueType a ;;
      m <- getResultValueType b ;;
      r <- getResultValueType c ;;
      if or_null isNumericType l && or_null isNumericType m && or_null isNumericType r then Ok tt else
      dl <- datetime_operand a l ;;
      if negb dl then Throw RuntimeError else
      dm <- datetime_operand b m ;;
      if negb dm then Throw RuntimeError else
      dr <- datetime_operand c r ;;
      if negb dr then Throw RuntimeError else Ok tt
  | InOperator v l _ =>
      validate v ;;;
      t <- getResultValueType v ;;
      expected <- in_expected v t ;;
      validate_elements expected l
  | IsOperator a b _ => validate a ;;; validate b
  | CastOperator a _ => validate a
  end.

(** ** Evaluation *)

(** The operands of a comparison are two different local objects. *)
Definition here : place := {| this_at := 1; lob_at := 1 |}.
Definition there : place := {| this_at := 2; lob_at := 2 |}.

Definition string_datetime (s : list Z) : outcome VariantError RawDateTime := as_datetime (VString s).
Definition eval_equal (a b : Variant) : outcome ExpressionError bool :=
  variant_result (compatibleEqual string_datetime here there a b).

Definition bool_result (c : outcome ExpressionError bool) : outcome ExpressionError Variant := b <- c ;; Ok (VBool b).

(** The right operand is evaluated only when the left one does not decide. *)
Definition eval_logical (stop : bool) (left : outcome ExpressionError Variant) (right : outcome ExpressionError Variant)
  : outcome ExpressionError Variant :=
  l <- left ;;
  match l with
  | VNull => Ok VNull
  | VBool x =>
      if Bool.eqb x stop then Ok (VBool stop) else
      r <- right ;;
      match r with
      | VNull => Ok VNull
      | VBool y => Ok (VBool y)
      | _ => Throw RuntimeError
      end
  | _ => Throw RuntimeError
  end.

Definition eval_binary (op : binary_operator) (l r : Variant) : outcome ExpressionError Variant :=
  let null := isNull l || isNull r in
  let arith (f : Variant -> Variant -> outcome VariantError Variant) := if null then Ok VNull else variant_result (f l r) in
  let compare (f : place -> place -> Variant -> Variant -> outcome VariantError bool) :=
    if null then Ok (VBool false) else bool_result (variant_result (f here there l r)) in
  match op with
  | LogicalAndOperator => eval_logical false (Ok l) (Ok r)
  | LogicalOrOperator => eval_logical true (Ok l) (Ok r)
  | AddOperator => arith Variant_add
  | SubtractOperator => arith Variant_sub
  | MultiplyOperator => arith Variant_mul
  | DivideOperator => arith Variant_div
  | ModuloOperator => arith Variant_mod
  | ConcatenationOperator =>
      if null then Ok VNull
      else variant_result (fst (fst (concatenate ext_buffer ext_print_float ext_date_format l r)))
  | BitwiseOrOperator => arith Variant_or
  | BitwiseAndOperator => arith Variant_and
  | BitwiseXorOperator => arith Variant_xor
  | RightShiftOperator => arith Variant_shr
  | LeftShiftOperator => arith Variant_shl
  | EqualOperator => bool_result (eval_equal l r)
  | NotEqualOperator => if null then Ok (VBool false) else b <- eval_equal l r ;; Ok (VBool (negb b))
  | LessOperator => compare (compatibleLess string_datetime)
  | LessOrEqualOperator => compare (compatibleLessOrEqual string_datetime)
  | GreaterOrEqualOperator => compare (compatibleGreaterOrEqual string_datetime)
  | GreaterOperator => compare (compatibleGreater string_datetime)
  end.

Definition eval_unary (op : unary_operator) (v : Variant) : outcome ExpressionError Variant :=
  if isNull v then Ok VNull else
  match op with
  | LogicalNotOperator => match v with VBool b => Ok (VBool (negb b)) | _ => Throw RuntimeError end
  | UnaryMinusOperator => variant_result (Variant_negate v)
  | UnaryPlusOperator => variant_result (Variant_plus v)
  | ComplementOperator => variant_result (Variant_complement v)
  end.

(** LIKE on two values. *)
Definition eval_like (v p : Variant) (notLike : bool) : outcome ExpressionError Variant :=
  if isNull v || isNull p then Ok (VBool false) else
  match v, p with
  | VString s, VString q => m <- variant_result (matchPattern s q) ;; Ok (VBool (xorb m notLike))
  | _, _ => Throw RuntimeError
  end.

Definition eval_between (v lo hi : Variant) (notBetween : bool) : outcome ExpressionError Variant :=
  if isNull v || isNull lo || isNull hi then Ok (VBool false) else
  if negb (isNumeric v) && negb (isString v || isDateTimeType (getValueType v)) then Throw RuntimeError else
  a <- variant_result (compatibleLessOrEqual string_datetime here there lo v) ;;
  b <- (if (a : bool) then variant_result (compatibleGreaterOrEqual string_datetime here there hi v) else Ok false) ;;
  Ok (VBool (xorb b notBetween)).

(** The cast of a value.  A pointer to the converted string, binary value or LOB
    is turned into a variant by the constructor from [bool]; the unsigned 32-bit
    case calls [asInt32]. *)
Definition eval_cast (t : VariantType) (v : Variant) : outcome ExpressionError Variant :=
  let int it (c : outcome VariantError Z * Variant) := z <- variant_result (fst c) ;; Ok (VNum (CI it z)) in
  let pointer {A} (c : outcome VariantError A * Variant) := variant_result (fst c) ;;; Ok (VBool true) in
  match t with
  | kBool => b <- variant_result (fst (asBool ext_buffer v)) ;; Ok (VBool b)
  | kInt8 => int I8 (asInt8 ext_buffer v)
  | kUInt8 => int I8 (asUInt8 ext_buffer v)
  | kInt16 => int I16 (asInt16 ext_buffer false v)
  | kUInt16 => int U16 (asUInt16 ext_buffer false v)
  | kInt32 | kUInt32 => int I32 (asInt32 ext_buffer false v)
  | kInt64 => int I64 (asInt64 ext_buffer false v)
  | kUInt64 => int U64 (asUInt64 ext_buffer false v)
  | kFloat => x <- variant_result (fst (asFloat ext_buffer ext_stof v)) ;; Ok (VNum (CF F32 x))
  | kDouble => x <- variant_result (fst (asDouble ext_buffer ext_stod v)) ;; Ok (VNum (CF F64 x))
  | kDateTime => d <- variant_result (as_datetime v) ;; Ok (VDateTime d)
  | kString => pointer (asString ext_buffer ext_print_float ext_date_format v)
  | kBinary => pointer (asBinary ext_buffer v)
  | kClob => pointer (asClob ext_buffer ext_print_float ext_date_format v)
  | kBlob => pointer (asBlob ext_buffer v)
  | _ => Throw RuntimeError
  end.

Fixpoint evaluate (e : Expression) : outcome ExpressionError Variant :=
  (** [v = item->evaluate(context)] for each item: the value of the last. *)
  let eval_list := fix eval_list (v : Variant) (l : list Expression) : outcome ExpressionError Variant :=
    match l with [] => Ok v | x :: l' => v <- evaluate x ;; eval_list v l' end in
  (** [std::find_if] over the elements of IN. *)
  let find := fix find (v : Variant) (l : list Expression) : outcome ExpressionError bool :=
    match l with
    | [] => Ok false
    | x :: l' =>
        w <- evaluate x ;;
        found <- (if isNull w then Ok false else eval_equal w v) ;;
        if (found : bool) then Ok true else find v l'
    end in
  match e with
  | ConstantExpression v => Ok (copy v)
  | SingleColumnExpression _ _ tables column =>
      '(t, c) <- column_indices tables column ;;
      v <- getColumnValue context t c ;;
      Ok (copy v)
  | AllColumnsExpression _ _ => Throw RuntimeError
  | ListExpression l => eval_list VNull l
  | UnaryOperator op a => v <- evaluate a ;; eval_unary op v
  | BinaryOperator LogicalAndOperator a b => eval_logical false (evaluate a) (evaluate b)
  | BinaryOperator LogicalOrOperator a b => eval_logical true (evaluate a) (evaluate b)
  | BinaryOperator op a b =>
      l <- evaluate a ;;
      r <- evaluate b ;;
      eval_binary op l r
  | LikeOperator a b notLike =>
      v <- evaluate a ;;
      p <- evaluate b ;;
      eval_like v p notLike
  | BetweenOperator a b c notBetween =>
      v <- evaluate a ;;
      lo <- evaluate b ;;
      hi <- evaluate c ;;
      eval_between v lo hi notBetween
  | InOperator value variants notIn =>
      v <- evaluate value ;;
      if isNull v then Ok (VBool false) else
      found <- find v variants ;;
      Ok (VBool (xorb notIn found))
  | IsOperator a b isNot =>
      l <- evaluate a ;;
      r <- evaluate b ;;
      if isNull l || isNull r then Ok (VBool (xorb isNot (Bool.eqb (isNull l) (isNull r)))) else
      r <- evaluate b ;;
      x <- eval_equal l r ;;
      Ok (VBool (xorb x isNot))
  | CastOperator a b =>
      v <- evaluate a ;;
      d <- cast_type b ;;
      t <- to_variant_type d ;;
      eval_cast t v
  end.
End Evaluation.
