(* ===== verification/ExprTyping.v ===== *)
(** * The announced type of an expression is the type of its value

    The engine plans with [getResultValueType] and computes with [evaluate].
    The theorem is that they agree for expressions without the operators that
    announce another type than they return, which [regular] describes. *)

From Stdlib Require Import ZArith List Lia Bool SpecFloat.
From S2P Require Import Prelude CNum RawDateTime VariantType Lob Variant VariantArith Utf8 VariantCmp VariantConv.
From S2P Require Import ColumnType Like Expr ExprEval.
Import ListNotations.
Open Scope Z_scope.

(** A value of an expression of type [t]: null, or of that type with its integer
    in range. *)
Definition typed (t : VariantType) (v : Variant) : Prop := v = VNull \/ (getValueType v = t /\ int_ok v).

Lemma getValueType_null v : getValueType v = kNull -> v = VNull.
Proof. destruct v as [| |[[] z|[] x]| | | | |]; cbn; congruence. Qed.

Lemma typed_null v : typed kNull v -> v = VNull.
Proof. intros [H|[H _]]; [assumption|now apply getValueType_null]. Qed.

Lemma isNull_spec v : isNull v = true <-> v = VNull.
Proof.
  unfold isNull, VariantType_eqb. destruct (VariantType_eq_dec (getValueType v) kNull) as [E|E]; split; try congruence.
  - intros _. now apply getValueType_null.
  - intros ->. now destruct E.
Qed.

(** ** Operators *)

Definition arith_op (op : binary_operator) : option binop :=
  match op with
  | AddOperator => Some BAdd | SubtractOperator => Some BSub | MultiplyOperator => Some BMul
  | DivideOperator => Some BDiv | ModuloOperator => Some BMod
  | BitwiseOrOperator => Some BOr | BitwiseAndOperator => Some BAnd | BitwiseXorOperator => Some BXor
  | LeftShiftOperator => Some BShl | RightShiftOperator => Some BShr
  | _ => None
  end.

(** The operators whose announced type is that of their result. *)
Definition regular_binary (op : binary_operator) (l r : VariantType) : bool :=
  match op with
  | LeftShiftOperator | RightShiftOperator => VariantType_eqb (getNumericResultType l l) (getNumericResultType l r)
  | LogicalAndOperator | LogicalOrOperator => isBoolType l && isBoolType r
  | _ => true
  end.

Definition regular_unary (op : unary_operator) (t : VariantType) : bool :=
  match op with
  | UnaryMinusOperator | UnaryPlusOperator => match t with kUInt32 | kUInt64 => false | _ => true end
  | _ => true
  end.

Definition regular_cast (t : VariantType) : bool :=
  match t with kUInt8 | kUInt32 | kString | kBinary | kClob | kBlob => false | _ => true end.

Lemma numeric_not_string t : isNumericType t = true -> isStringType t = false.
Proof. destruct t; (reflexivity || discriminate). Qed.

Lemma integer_not_string t : isIntegerType t = true -> isStringType t = false.
Proof. destruct t; (reflexivity || discriminate). Qed.

Lemma integer_numeric t : isIntegerType t = true -> isNumericType t = true.
Proof. destruct t; (reflexivity || discriminate). Qed.

(** The modulo operator is announced for all numeric types but computed for
    integers only. *)
Lemma announced_type op o l r : arith_op op = Some o -> regular_binary op l r = true ->
  binop_defined o l r = true -> variant_binary op l r = binop_type o l r.
Proof.
  intros Ho Hreg Hdef. unfold binop_defined, binop_type in *. destruct (is_aop o) eqn:Ha.
  - apply orb_true_iff in Hdef as [Hn|Hs].
    + apply andb_true_iff in Hn as [Hl Hr]. pose proof (numeric_not_string l Hl) as Hls.
      assert (Hsh : is_shift o = false) by (destruct o; (reflexivity || discriminate)). rewrite Hsh, Hls.
      destruct op; cbn in Ho; try discriminate; injection Ho as <-; try discriminate; cbn [variant_binary];
        unfold isStringType in Hls; rewrite ?Hls, ?andb_false_r, Hl, Hr; reflexivity.
    + destruct o; try discriminate. apply andb_true_iff in Hs as [Hl Hr].
      destruct op; cbn in Ho; try discriminate. cbn [is_shift variant_binary]. rewrite Hl.
      apply VariantType_eqb_eq in Hl as ->. apply VariantType_eqb_eq in Hr as ->. reflexivity.
  - apply andb_true_iff in Hdef as [Hl Hr]. rewrite (integer_not_string l Hl).
    pose proof (integer_numeric l Hl) as Hnl. pose proof (integer_numeric r Hr) as Hnr.
    destruct op; cbn in Ho; try discriminate; injection Ho as <-; try discriminate; cbn [variant_binary is_shift];
      rewrite ?Hl, ?Hr, ?Hnl, ?Hnr; try reflexivity; cbn [negb orb]; cbn [regular_binary] in Hreg;
      symmetry; now apply VariantType_eqb_eq.
Qed.

Section Typing.
Context {X : Externals}.

Lemma variant_result_Ok {A} (c : outcome VariantError A) a : variant_result c = Ok a -> c = Ok a.
Proof. destruct c; cbn; congruence. Qed.

Lemma eval_binary_arith op o l r : arith_op op = Some o ->
  eval_binary op l r = if isNull l || isNull r then Ok VNull else variant_result (apply_binop o l r).
Proof. destruct op; cbn; intros [= <-]; reflexivity. Qed.

Lemma arith_typed op o l r a b v : arith_op op = Some o -> regular_binary op l r = true ->
  typed l a -> typed r b -> eval_binary op a b = Ok v -> typed (variant_binary op l r) v.
Proof.
  intros Ho Hreg Ha Hb He. rewrite (eval_binary_arith op o a b Ho) in He.
  destruct (isNull a || isNull b) eqn:Hn; [injection He as <-; now left|].
  apply orb_false_iff in Hn as [Hna Hnb].
  destruct Ha as [-> | [<- Ia]]; [discriminate|]. destruct Hb as [-> | [<- Ib]]; [discriminate|].
  apply variant_result_Ok in He. pose proof (binop_outcome_any o a b Ia Ib) as Hout. unfold binop_outcome in Hout.
  destruct (binop_defined o (getValueType a) (getValueType b)) eqn:Hdef; [|congruence].
  rewrite He in Hout. right. now rewrite (announced_type op o) by assumption.
Qed.

Lemma unary_typed op t a v : regular_unary op t = true -> typed t a -> eval_unary op a = Ok v ->
  typed (variant_unary op t) v.
Proof.
  intros Hreg Ha He. unfold eval_unary in He. destruct (isNull a) eqn:Hn; [injection He as <-; now left|].
  destruct Ha as [-> | [<- Ia]]; [discriminate|]. right.
  destruct op; cbn [variant_unary regular_unary] in *; try apply variant_result_Ok in He.
  - destruct a; try discriminate. injection He as <-. split; [reflexivity|exact I].
  - destruct a as [| |[t z|f x]| | | | |]; try discriminate.
    + apply bind_Ok in He as (r & Hr & [= <-]). apply bind_Ok in Hr as (z' & Hz & [= <-]).
      split; [destruct t; (reflexivity || discriminate)|]. exact (arith_in _ _ _ Hz).
    + injection He as <-. split; [destruct f; reflexivity|exact I].
  - destruct a as [| |[t z|f x]| | | | |]; try discriminate; injection He as <-.
    + split; [destruct t; (reflexivity || discriminate)|]. apply (fits_in_ok t); [apply promote_fits|exact Ia].
    + split; [destruct f; reflexivity|exact I].
  - destruct a as [| |[t z|f x]| | | | |]; try discriminate; injection He as <-.
    split; [destruct t; reflexivity|]. apply conv_in.
Qed.

Lemma as_integer_in init t u8 ext v z : fst (as_integer init t u8 ext v) = Ok z -> in_ity t z = true.
Proof.
  assert (Hs : forall src s, stringToInt src t s = Ok z -> in_ity t z = true).
  { intros src s. unfold stringToInt. destruct (if signed t then stoll s else stoull s); try discriminate.
    destruct (in_ity t a) eqn:Hin; [|discriminate]. now intros [= <-]. }
  assert (Hb : forall src b, binaryToInt src t ext b = Ok z -> in_ity t z = true).
  { intros src b. unfold binaryToInt. destruct (_ >? _); [intros (l & _ & [= <-])%bind_Ok; apply conv_in|].
    destruct (_ && _); [intros [= <-]; apply conv_in|discriminate]. }
  destruct v as [|b|[s x|f x]|d|s|s|l|l]; cbn [as_integer fst]; try discriminate.
  - intros [= <-]. destruct b, t; reflexivity.
  - destruct s; intros [= <-]; apply conv_in.
  - cbn. unfold float_to_int. destruct (trunc x); [|discriminate]. destruct (in_ity t z0) eqn:Hin; [|discriminate]. now intros [= <-].
  - apply Hs.
  - apply Hb.
  - unfold with_clob. destruct (readClobAsStringForConversion _ _ _) as [r l']. cbn [fst].
    intros (s & _ & H)%bind_Ok. now apply (Hs kClob s).
  - unfold with_blob_bytes. destruct (readBlobAsBinaryForConversion _ _) as [r l']. cbn [fst].
    intros (s & _ & H)%bind_Ok. now apply (Hb kBlob s).
Qed.

Lemma cast_typed t a v : regular_cast t = true -> eval_cast t a = Ok v -> typed t v.
Proof.
  intros Hreg He. right. destruct t; try discriminate; cbn [eval_cast] in He;
    apply bind_Ok in He as (x & Hx & [= <-]); (split; [reflexivity|]); try exact I;
    apply variant_result_Ok, as_integer_in in Hx; exact Hx.
Qed.

(** ** The context and the expressions *)

(** Columns hold null or values of their type. *)
Definition context_typed (context : ExpressionEvaluationContext) : Prop :=
  forall t c d ty v, context_getColumnDataType context t c = Ok d -> to_variant_type d = Ok ty ->
    getColumnValue context t c = Ok v -> typed ty v.

Context (context : ExpressionEvaluationContext).

(** The announced type, where it is one. *)
Definition announced (e : Expression) : VariantType :=
  match getResultValueType context e with Ok t => t | _ => kNull end.

(** The constants are in range, and no operator announces another type than it
    returns: the unary operators on wide unsigned integers, shifts by a wider
    type, AND and OR of operands announced as null, and the casts to [UINT8],
    [UINT32] and the types held by pointer. *)
Fixpoint regular (e : Expression) : Prop :=
  let all := fix all (l : list Expression) : Prop := match l with [] => True | x :: l' => regular x /\ all l' end in
  match e with
  | ConstantExpression v => int_ok v
  | SingleColumnExpression _ _ _ _ | AllColumnsExpression _ _ => True
  | ListExpression l => all l
  | UnaryOperator op a => regular a /\ regular_unary op (announced a) = true
  | BinaryOperator op a b => regular a /\ regular b /\ regular_binary op (announced a) (announced b) = true
  | CastOperator a b =>
      regular a /\ match cast_type b with Ok d => match to_variant_type d with Ok t => regular_cast t = true | _ => True end | _ => True end
  | LikeOperator _ _ _ | BetweenOperator _ _ _ _ | InOperator _ _ _ | IsOperator _ _ _ => True
  end.

Lemma typed_copy t v : typed t v -> typed t (copy v).
Proof. intros [-> | [<- Hi]]; [now left|right]. destruct v; split; try reflexivity; exact Hi. Qed.

Lemma logical_typed stop a b v : eval_logical stop a b = Ok v -> typed kBool v.
Proof.
  unfold eval_logical. intros (l & _ & H)%bind_Ok. destruct l; try discriminate; [injection H as <-; now left|].
  destruct (Bool.eqb _ _); [injection H as <-; right; split; [reflexivity|exact I]|].
  apply bind_Ok in H as (r & _ & H). destruct r; try discriminate; injection H as <-; [now left|right; split; [reflexivity|exact I]].
Qed.

Lemma bool_typed b : typed kBool (VBool b).
Proof. right. split; [reflexivity|exact I]. Qed.

(** The comparisons return a boolean. *)
Lemma comparison_typed op a b v : ignores_operands op = true -> eval_binary op a b = Ok v -> typed kBool v.
Proof.
  intros Hop. destruct op; try discriminate; cbn [eval_binary]; try (destruct (isNull a || isNull b));
    try (intros [= <-]; apply bool_typed); intros (x & _ & [= <-])%bind_Ok; apply bool_typed.
Qed.

Lemma concatenate_string init pf df a b : match fst (fst (concatenate init pf df a b)) with Ok v => exists s, v = VString s | _ => True end.
Proof.
  unfold concatenate. destruct (asString init pf df a) as [[s|e|u] a']; try exact I.
  destruct (asString init pf df b) as [[t|e|u] b']; cbn; eauto.
Qed.

Lemma concatenation_typed l r a b v : typed l a -> typed r b -> eval_binary ConcatenationOperator a b = Ok v ->
  typed (variant_binary ConcatenationOperator l r) v.
Proof.
  intros Ha Hb. cbn [eval_binary variant_binary].
  destruct (isNull a || isNull b) eqn:Hn; [intros [= <-]; now left|].
  apply orb_false_iff in Hn as [Hna Hnb].
  assert (Hl : isNullType l = false).
  { destruct Ha as [-> | [<- _]]; [discriminate|exact Hna]. }
  assert (Hr : isNullType r = false).
  { destruct Hb as [-> | [<- _]]; [discriminate|exact Hnb]. }
  rewrite Hl, Hr. cbn [orb]. intros He%variant_result_Ok.
  pose proof (concatenate_string ext_buffer ext_print_float ext_date_format a b) as Hc. rewrite He in Hc.
  destruct Hc as [s ->]. right. split; [reflexivity|exact I].
Qed.

(** All binary operators but AND and OR, on evaluated operands. *)
Lemma binary_typed op l r a b v : ignores_operands op = false -> op <> LogicalAndOperator -> op <> LogicalOrOperator ->
  regular_binary op l r = true -> typed l a -> typed r b -> eval_binary op a b = Ok v -> typed (variant_binary op l r) v.
Proof.
  intros Hop H1 H2 Hreg Ha Hb He.
  destruct (arith_op op) as [o|] eqn:Ho; [now apply (arith_typed op o l r a b)|].
  destruct op; try discriminate; try congruence. now apply (concatenation_typed l r a b).
Qed.

Lemma announced_Ok e t : getResultValueType context e = Ok t -> announced e = t.
Proof. unfold announced. now intros ->. Qed.

Definition sound (e : Expression) : Prop :=
  forall t v, regular e -> getResultValueType context e = Ok t -> evaluate context e = Ok v -> typed t v.

Lemma unary_sound op a : sound a -> sound (UnaryOperator op a).
Proof.
  intros IH t v [Ha Hop] Ht Hv. cbn in Ht, Hv. apply bind_Ok in Ht as (ta & Hta & [= <-]).
  apply bind_Ok in Hv as (va & Hva & Hv). rewrite (announced_Ok a ta Hta) in Hop.
  apply (unary_typed op ta va); auto.
Qed.

Lemma binary_sound op a b : sound a -> sound b -> sound (BinaryOperator op a b).
Proof.
  intros IHa IHb t v (Ha & Hb & Hop) Ht Hv. cbn [getResultValueType] in Ht.
  destruct (ignores_operands op) eqn:Hi.
  - injection Ht as <-. destruct op; try discriminate; cbn [evaluate] in Hv;
      apply bind_Ok in Hv as (va & _ & Hv); apply bind_Ok in Hv as (vb & _ & Hv); exact (comparison_typed _ va vb v Hi Hv).
  - apply bind_Ok in Ht as (ta & Hta & Ht). rewrite (announced_Ok a ta Hta) in Hop.
    assert (Hlog : op = LogicalAndOperator \/ op = LogicalOrOperator \/ (op <> LogicalAndOperator /\ op <> LogicalOrOperator))
      by (destruct op; intuition discriminate).
    destruct Hlog as [-> | [-> | [Hn1 Hn2]]].
    1-2: apply bind_Ok in Ht as (tb & Htb & [= <-]); rewrite (announced_Ok b tb Htb) in Hop; cbn [regular_binary] in Hop;
      apply andb_true_iff in Hop as [Hta'%VariantType_eqb_eq Htb'%VariantType_eqb_eq]; subst ta tb;
      exact (logical_typed _ _ _ v Hv).
    assert (Hev : exists va vb, evaluate context a = Ok va /\ evaluate context b = Ok vb /\ eval_binary op va vb = Ok v).
    { destruct op; try congruence; cbn [evaluate] in Hv; apply bind_Ok in Hv as (va & Hva & Hv);
        apply bind_Ok in Hv as (vb & Hvb & Hv); eauto. }
    destruct Hev as (va & vb & Hva & Hvb & Hev).
    assert (Htb : exists tb, getResultValueType context b = Ok tb /\ t = variant_binary op ta tb \/ (op = ConcatenationOperator /\ ta = kNull /\ t = kNull)).
    { destruct op; try congruence; try (apply bind_Ok in Ht as (tb & Htb & [= <-]); exists tb; left; auto).
      unfold isNullType in Ht. destruct (VariantType_eqb ta kNull) eqn:En.
      - exists kNull. right. injection Ht as <-. apply VariantType_eqb_eq in En. auto.
      - apply bind_Ok in Ht as (tb & Htb & [= <-]). exists tb. left. auto. }
    destruct Htb as [tb [[Htb ->] | (-> & -> & ->)]].
    + rewrite (announced_Ok b tb Htb) in Hop. apply (binary_typed op ta tb va vb); auto.
    + assert (va = VNull) as -> by (apply typed_null; exact (IHa kNull va Ha Hta Hva)).
      cbn in Hev. injection Hev as <-. now left.
Qed.

Lemma cast_sound a b : sound (CastOperator a b).
Proof.
  intros t v [_ Hc] Ht Hv. cbn [getResultValueType evaluate] in Ht, Hv.
  apply bind_Ok in Ht as (d & Hd & Ht). rewrite Hd, Ht in Hc.
  apply bind_Ok in Hv as (va & _ & Hv). rewrite Hd in Hv. cbn [bind] in Hv. rewrite Ht in Hv. cbn [bind] in Hv.
  now apply (cast_typed t va).
Qed.

(** The inner loops of the three functions, by name. *)
Fixpoint last_type (l : list Expression) : outcome ExpressionError VariantType :=
  match l with [] => Ok kNull | [x] => getResultValueType context x | _ :: l' => last_type l' end.

Fixpoint eval_list (v : Variant) (l : list Expression) : outcome ExpressionError Variant :=
  match l with [] => Ok v | x :: l' => v <- evaluate context x ;; eval_list v l' end.

Fixpoint all_regular (l : list Expression) : Prop := match l with [] => True | x :: l' => regular x /\ all_regular l' end.

Lemma list_sound_loop l : Forall sound l -> forall v0 t v, all_regular l -> l <> [] ->
  last_type l = Ok t -> eval_list v0 l = Ok v -> typed t v.
Proof.
  induction 1 as [|x l Hx _ IH]; intros v0 t v Hr Hne Ht Hv; [congruence|].
  destruct Hr as [Hrx Hr]. cbn [eval_list] in Hv. apply bind_Ok in Hv as (vx & Hvx & Hv).
  destruct l as [|y l].
  - injection Hv as <-. now apply (Hx t vx).
  - apply (IH vx t v Hr ltac:(discriminate)); [exact Ht|exact Hv].
Qed.

Lemma list_sound l : Forall sound l -> sound (ListExpression l).
Proof.
  intros Hl t v Hr Ht Hv. destruct l as [|x l].
  - cbn in Hv. injection Hv as <-. now left.
  - exact (list_sound_loop (x :: l) Hl VNull t v Hr ltac:(discriminate) Ht Hv).
Qed.

Lemma evaluate_sound e : context_typed context -> sound e.
Proof.
  intros Hctx.
  induction e as [c|tn cn i j|tn i|l IH|op a IHa|op a b IHa IHb|a b n IHa IHb|a b c n IHa IHb IHc|x l n IHv IH|a b n IHa IHb|a b IHa IHb]
    using Expression_induction.
  - intros t v Hr [= <-] [= <-]. apply typed_copy. right. split; [reflexivity|exact Hr].
  - intros t v _ Ht Hv. cbn [getResultValueType evaluate] in Ht, Hv.
    apply bind_Ok in Ht as ([ti ci] & Hi & Ht). rewrite Hi in Hv. cbn [bind] in Hv.
    apply bind_Ok in Ht as (d & Hd & Ht). apply bind_Ok in Hv as (w & Hw & [= <-]).
    apply typed_copy. exact (Hctx ti ci d t w Hd Ht Hw).
  - intros t v _ Ht. discriminate.
  - now apply list_sound.
  - now apply unary_sound.
  - now apply binary_sound.
  - intros t v _ [= <-] Hv. cbn [evaluate] in Hv. apply bind_Ok in Hv as (va & _ & Hv). apply bind_Ok in Hv as (vb & _ & Hv).
    unfold eval_like in Hv. destruct (_ || _); [injection Hv as <-; apply bool_typed|].
    destruct va; try discriminate. destruct vb; try discriminate. apply bind_Ok in Hv as (m & _ & [= <-]). apply bool_typed.
  - intros t v _ [= <-] Hv. cbn [evaluate] in Hv. apply bind_Ok in Hv as (va & _ & Hv). apply bind_Ok in Hv as (vb & _ & Hv).
    apply bind_Ok in Hv as (vc & _ & Hv). unfold eval_between in Hv. destruct (_ || _); [injection Hv as <-; apply bool_typed|].
    destruct (_ && _); [discriminate|]. apply bind_Ok in Hv as (m & _ & Hv). apply bind_Ok in Hv as (m' & _ & [= <-]). apply bool_typed.
  - intros t v _ [= <-] Hv. cbn [evaluate] in Hv. apply bind_Ok in Hv as (va & _ & Hv).
    destruct (isNull va); [injection Hv as <-; apply bool_typed|]. apply bind_Ok in Hv as (m & _ & [= <-]). apply bool_typed.
  - intros t v _ [= <-] Hv. cbn [evaluate] in Hv. apply bind_Ok in Hv as (va & _ & Hv). apply bind_Ok in Hv as (vb & Hvb & Hv).
    destruct (_ || _); [injection Hv as <-; apply bool_typed|]. rewrite Hvb in Hv. cbn [bind] in Hv.
    apply bind_Ok in Hv as (m & _ & [= <-]). apply bool_typed.
  - apply cast_sound.
Qed.

(** C35: in a context whose columns hold values of their types, the value of a
    regular expression is null or has the type that the expression announces,
    with integers in the range of that type. *)
Theorem evaluate_typed e t v : context_typed context -> regular e ->
  getResultValueType context e = Ok t -> evaluate context e = Ok v -> typed t v.
Proof. intros Hc Hr Ht Hv. exact (evaluate_sound e Hc t v Hr Ht Hv). Qed.

(** ** Column types *)

(** LOB constants are announced as the in-memory types, and the unary operators
    on wide unsigned integers give another type again. *)
Fixpoint column_regular (e : Expression) : Prop :=
  let all := fix all (l : list Expression) : Prop := match l with [] => True | x :: l' => column_regular x /\ all l' end in
  match e with
  | ConstantExpression v => match v with VClob _ | VBlob _ => False | _ => True end
  | ListExpression l => all l
  | UnaryOperator op a => column_regular a /\ regular_unary op (announced a) = true
  | BinaryOperator _ a b => column_regular a /\ column_regular b
  | _ => True
  end.

Lemma column_unary_agrees op d t : convertColumnDataTypeToVariantType d = Some t -> regular_unary op t = true ->
  convertColumnDataTypeToVariantType (column_unary op d) = Some (variant_unary op t).
Proof. intros Hd Hreg. destruct d; try discriminate; injection Hd as <-; destruct op; try discriminate; reflexivity. Qed.

Lemma column_logical d d' t t' : convertColumnDataTypeToVariantType d = Some t -> convertColumnDataTypeToVariantType d' = Some t' ->
  convertColumnDataTypeToVariantType
    (match d, d' with COLUMN_DATA_TYPE_BOOL, COLUMN_DATA_TYPE_BOOL => COLUMN_DATA_TYPE_BOOL | _, _ => COLUMN_DATA_TYPE_UNKNOWN end) =
  Some (match t, t' with kBool, kBool => kBool | _, _ => kNull end).
Proof.
  intros H H'. destruct d; try discriminate H; injection H as <-; try reflexivity.
  destruct d'; try discriminate H'; injection H' as <-; reflexivity.
Qed.

Lemma column_same_text d d' t' : convertColumnDataTypeToVariantType d = Some kString ->
  convertColumnDataTypeToVariantType d' = Some t' -> ColumnDataType_eqb d d' = VariantType_eqb kString t'.
Proof.
  intros H H'. destruct d; try discriminate H. destruct d'; try discriminate H'; injection H' as <-; reflexivity.
Qed.

Lemma column_binary_agrees op d d' t t' : ignores_operands op = false -> op <> ConcatenationOperator ->
  convertColumnDataTypeToVariantType d = Some t -> convertColumnDataTypeToVariantType d' = Some t' ->
  convertColumnDataTypeToVariantType (column_binary op d d') = Some (variant_binary op t t').
Proof.
  intros Hop Hnc Hd Hd'. destruct (column_predicates d t Hd) as (N1 & I1 & B1 & S1 & T1).
  destruct (column_predicates d' t' Hd') as (N2 & I2 & B2 & S2 & T2).
  pose proof (column_result_type d d' t t' Hd Hd') as Hnum. pose proof (column_logical d d' t t' Hd Hd') as Hlog.
  assert (Hn : convertColumnDataTypeToVariantType
    (if negb (column_isNumericType d) || negb (column_isNumericType d') then COLUMN_DATA_TYPE_UNKNOWN else column_getNumericResultType d d') =
    Some (if negb (isNumericType t) || negb (isNumericType t') then kNull else getNumericResultType t t')).
  { rewrite N1, N2. destruct (isNumericType t); [|reflexivity]. destruct (isNumericType t'); [|reflexivity]. now apply Hnum. }
  assert (Hi : convertColumnDataTypeToVariantType
    (if negb (column_isIntegerType d) || negb (column_isIntegerType d') then COLUMN_DATA_TYPE_UNKNOWN else column_getNumericResultType d d') =
    Some (if negb (isIntegerType t) || negb (isIntegerType t') then kNull else getNumericResultType t t')).
  { rewrite I1, I2. destruct (isIntegerType t) eqn:E1; [|reflexivity]. destruct (isIntegerType t') eqn:E2; [|reflexivity].
    apply Hnum; now apply integer_numeric. }
  destruct op; try discriminate; try congruence; cbn [column_binary variant_binary]; try exact Hlog; try exact Hn; try exact Hi.
  rewrite S1, T1, orb_false_r. unfold isStringType. destruct (VariantType_eqb t kString) eqn:E; [|now rewrite !andb_false_r].
  apply VariantType_eqb_eq in E as ->. rewrite !andb_true_r, (column_same_text d d' t' Hd Hd').
  destruct (VariantType_eqb kString t'); [exact Hd|exact Hn].
Qed.

Definition agrees (e : Expression) : Prop := forall d t, column_regular e ->
  getColumnDataType context e = Ok d -> getResultValueType context e = Ok t -> convertColumnDataTypeToVariantType d = Some t.

Lemma to_variant_type_Ok d t : to_variant_type d = Ok t -> convertColumnDataTypeToVariantType d = Some t.
Proof. unfold to_variant_type. destruct (convertColumnDataTypeToVariantType d); congruence. Qed.

Lemma binary_agrees op a b : agrees a -> agrees b -> agrees (BinaryOperator op a b).
Proof.
  intros IHa IHb d t [Ha Hb] Hd Ht. cbn [getColumnDataType getResultValueType] in Hd, Ht.
  destruct (ignores_operands op) eqn:Hop; [injection Hd as <-; injection Ht as <-; reflexivity|].
  apply bind_Ok in Ht as (ta & Hta & Ht).
  assert (Hcat : op = ConcatenationOperator \/ op <> ConcatenationOperator) by (destruct op; auto; right; discriminate).
  destruct Hcat as [-> | Hne].
  - rewrite Hta in Hd. cbn [bind] in Hd. unfold isNullType in *. destruct (VariantType_eqb ta kNull) eqn:En.
    + injection Hd as <-. injection Ht as <-. reflexivity.
    + apply bind_Ok in Ht as (tb & Htb & [= <-]). rewrite Htb in Hd. cbn [bind] in Hd. injection Hd as <-.
      cbn [variant_binary]. unfold isNullType. rewrite En. cbn [orb]. destruct (VariantType_eqb tb kNull); reflexivity.
  - assert (Hd' : exists da db, getColumnDataType context a = Ok da /\ getColumnDataType context b = Ok db /\ d = column_binary op da db).
    { destruct op; try congruence; apply bind_Ok in Hd as (da & Hda & Hd); apply bind_Ok in Hd as (db & Hdb & [= <-]); eauto. }
    assert (Ht' : exists tb, getResultValueType context b = Ok tb /\ t = variant_binary op ta tb).
    { destruct op; try congruence; apply bind_Ok in Ht as (tb & Htb & [= <-]); eauto. }
    destruct Hd' as (da & db & Hda & Hdb & ->). destruct Ht' as (tb & Htb & ->).
    apply column_binary_agrees; auto.
Qed.

Fixpoint last_column (l : list Expression) : outcome ExpressionError ColumnDataType :=
  match l with [] => Ok COLUMN_DATA_TYPE_UNKNOWN | [x] => getColumnDataType context x | _ :: l' => last_column l' end.

Fixpoint all_column_regular (l : list Expression) : Prop :=
  match l with [] => True | x :: l' => column_regular x /\ all_column_regular l' end.

Lemma list_agrees l : Forall agrees l -> forall d t, all_column_regular l -> last_column l = Ok d -> last_type l = Ok t ->
  convertColumnDataTypeToVariantType d = Some t.
Proof.
  induction 1 as [|x l Hx _ IH]; intros d t Hr Hd Ht.
  - injection Hd as <-. injection Ht as <-. reflexivity.
  - destruct Hr as [Hrx Hr]. destruct l as [|y l]; [now apply Hx|]. now apply IH.
Qed.

(** the column type and the value type an expression announces correspond,
    when both are given, unless LOB constants or unary operators on wide
    unsigned integers are involved. *)
Theorem column_type_agrees e d t : column_regular e -> getColumnDataType context e = Ok d ->
  getResultValueType context e = Ok t -> convertColumnDataTypeToVariantType d = Some t.
Proof.
  revert d t. change (agrees e).
  induction e as [c|tn cn i j|tn i|l IH|op a IHa|op a b IHa IHb|a b n IHa IHb|a b c n IHa IHb IHc|x l n IHv IH|a b n IHa IHb|a b IHa IHb]
    using Expression_induction; intros d t Hr Hd Ht; try (injection Hd as <-; injection Ht as <-; reflexivity).
  - injection Hd as <-. injection Ht as <-. destruct c as [| |[[] z|[] z]| | | | |]; try reflexivity; contradiction.
  - cbn [getColumnDataType getResultValueType] in Hd, Ht. apply bind_Ok in Hd as ([ti ci] & Hi & Hd). rewrite Hi in Ht.
    cbn [bind] in Ht. rewrite Hd in Ht. now apply to_variant_type_Ok.
  - discriminate.
  - exact (list_agrees l IH d t Hr Hd Ht).
  - destruct Hr as [Ha Hop]. cbn [getColumnDataType getResultValueType] in Hd, Ht.
    apply bind_Ok in Hd as (da & Hda & [= <-]). apply bind_Ok in Ht as (ta & Hta & [= <-]).
    rewrite (announced_Ok a ta Hta) in Hop. apply column_unary_agrees; auto.
  - exact (binary_agrees op a b IHa IHb d t Hr Hd Ht).
  - cbn [getColumnDataType getResultValueType] in Hd, Ht. rewrite Hd in Ht. now apply to_variant_type_Ok.
Qed.
End Typing.

(** ** A concrete setting for the witnesses *)

#[export] Instance sample_externals : Externals := {
  ext_utf8 := utf8_decoder;
  ext_buffer n := repeat 0 (Z.to_nat n);
  ext_stof _ := None;
  ext_stod _ := None;
  ext_date_parse _ _ := None;
  ext_ymd _ := (1970, 1, 1);
  ext_weekday _ := 4;
  ext_gmtime _ := None;
  ext_uninit := {| m_timePart := kZeroRawTime; m_datePart := mkRawDate 0 0 0 6 false |};
  ext_print_float _ _ := [];
  ext_date_format _ := []
}.

(** One table: an [INT16] and a [TEXT] column. *)
Definition sample_context : ExpressionEvaluationContext := {|
  getColumnValue t c := if (t =? 0) && (c =? 0) then Ok (VNum (CI I16 (-7))) else if (t =? 0) && (c =? 1) then Ok (VString [97; 98]) else Throw RuntimeError;
  context_getColumnDataType t c :=
    if (t =? 0) && (c =? 0) then Ok COLUMN_DATA_TYPE_INT16
    else if (t =? 0) && (c =? 1) then Ok COLUMN_DATA_TYPE_TEXT else Throw RuntimeError
|}.

Lemma sample_context_typed : context_typed sample_context.
Proof.
  intros t c d ty v. cbn. destruct ((t =? 0) && (c =? 0)).
  - intros [= <-] [= <-] [= <-]. right. split; reflexivity.
  - destruct ((t =? 0) && (c =? 1)); [|discriminate]. intros [= <-] [= <-] [= <-]. right. split; [reflexivity|exact I].
Qed.

(** [c0 * 3000000000], of type [INT64]. *)
Definition sample_product : Expression :=
  BinaryOperator MultiplyOperator (SingleColumnExpression [] [] [0] (Some 0)) (ConstantExpression (VNum (CI I64 3000000000))).

Lemma evaluate_typed_witness :
  evaluate sample_context sample_product = Ok (VNum (CI I64 (-21000000000))) /\ typed kInt64 (VNum (CI I64 (-21000000000))).
Proof.
  split; [reflexivity|].
  refine (evaluate_typed sample_context sample_product kInt64 (VNum (CI I64 (-21000000000))) sample_context_typed _ _ _).
  - repeat split; reflexivity.
  - reflexivity.
  - reflexivity.
Defined.

Lemma column_type_agrees_witness :
  convertColumnDataTypeToVariantType COLUMN_DATA_TYPE_INT64 = Some kInt64.
Proof.
  refine (column_type_agrees sample_context sample_product COLUMN_DATA_TYPE_INT64 kInt64 _ _ _); try reflexivity.
  repeat split.
Defined.

(** The column type of a negated [UINT32] value is [INT16]. *)
Lemma column_negate_type : getColumnDataType sample_context (UnaryOperator UnaryMinusOperator (ConstantExpression (VNum (CI U32 1)))) =
  Ok COLUMN_DATA_TYPE_INT16.
Proof. reflexivity. Qed.
