(* ===== verification/ExprSem.v ===== *)
(** * What expressions mean

    Functional properties of [evaluate]: the predicates IN and BETWEEN on
    integers, the operators whose value has another type than announced, and
    that an expression without columns has the same value after it was stored
    and read back. *)

From Stdlib Require Import ZArith List Lia Bool SpecFloat.
From S2P Require Import Prelude CNum RawDateTime VariantType Lob Variant VariantArith Utf8 VariantCmp VariantConv.
From S2P Require Import ColumnType Like Expr ExprCodec ExprEval ExprTyping.
Import ListNotations.
Open Scope Z_scope.

Section Semantics.
Context {X : Externals} (context : ExpressionEvaluationContext).

(** ** Integers *)

Definition int_const (p : ity * Z) : Expression := ConstantExpression (VNum (CI (fst p) (snd p))).

(** Two integers that the comparison code compares as such. *)
Definition comparable (p q : ity * Z) : Prop :=
  in_ity (fst p) (snd p) = true /\ in_ity (fst q) (snd q) = true /\
  fits_signed (fst p) (fst q) (snd p) /\ fits_signed (fst q) (fst p) (snd q).

Lemma comparable_num op p q : comparable p q ->
  num_cop op (CI (fst p) (snd p)) (CI (fst q) (snd q)) = int_cop op (snd p) (snd q).
Proof. intros (H1 & H2 & H3 & H4). rewrite num_cop_int, left_value_id, right_value_id by assumption. reflexivity. Qed.

(** The loop of IN, by name. *)
Fixpoint find (v : Variant) (l : list Expression) : outcome ExpressionError bool :=
  match l with
  | [] => Ok false
  | x :: l' =>
      w <- evaluate context x ;;
      found <- (if isNull w then Ok false else eval_equal w v) ;;
      if (found : bool) then Ok true else find v l'
  end.

Lemma int_not_null t z : isNull (VNum (CI t z)) = false.
Proof. destruct t; reflexivity. Qed.

Lemma find_integers p l : Forall (fun q => comparable q p) l ->
  find (VNum (CI (fst p) (snd p))) (map int_const l) = Ok (existsb (fun q => snd q =? snd p) l).
Proof.
  induction 1 as [|q l Hq _ IH]; [reflexivity|]. cbn [map find int_const evaluate copy bind existsb].
  rewrite int_not_null. unfold eval_equal, compatibleEqual. cbn [same_object here there this_at Z.eqb].
  change (same_object here there) with false. cbn iota. rewrite comparable_num by assumption.
  cbn [variant_result map_error bind int_cop].
  destruct (snd q =? snd p); [reflexivity|exact IH].
Qed.

Lemma between_integers x lo hi n : comparable lo x -> comparable hi x ->
  eval_between (VNum (CI (fst x) (snd x))) (VNum (CI (fst lo) (snd lo))) (VNum (CI (fst hi) (snd hi))) n =
  Ok (VBool (xorb ((snd lo <=? snd x) && (snd x <=? snd hi)) n)).
Proof.
  intros Hlo Hhi. unfold eval_between. rewrite !int_not_null. cbn [orb].
  replace (isNumeric (VNum (CI (fst x) (snd x)))) with true by (destruct x as [[] ?]; reflexivity). cbn [negb andb].
  unfold compatibleLessOrEqual, compatibleGreaterOrEqual. change (same_object here there) with false. cbn iota.
  rewrite !comparable_num by assumption. cbn [variant_result map_error bind int_cop].
  destruct (snd lo <=? snd x); [|reflexivity]. reflexivity.
Qed.

(** on integer constants of any types whose large unsigned values do not meet
    signed ones, IN tells whether the value is among the elements, BETWEEN
    whether it is within the bounds, both included, and their negations the
    opposite. *)
Theorem predicates_on_integers x lo hi l n : Forall (fun q => comparable q x) l -> comparable lo x -> comparable hi x ->
  evaluate context (InOperator (int_const x) (map int_const l) n) =
    Ok (VBool (xorb n (existsb (fun q => snd q =? snd x) l))) /\
  evaluate context (BetweenOperator (int_const x) (int_const lo) (int_const hi) n) =
    Ok (VBool (xorb ((snd lo <=? snd x) && (snd x <=? snd hi)) n)).
Proof.
  intros Hl Hlo Hhi. split.
  - change (evaluate context (InOperator (int_const x) (map int_const l) n)) with
      (if isNull (VNum (CI (fst x) (snd x))) then Ok (VBool false) else
       found <- find (VNum (CI (fst x) (snd x))) (map int_const l) ;; Ok (E := ExpressionError) (VBool (xorb n found))).
    now rewrite int_not_null, find_integers.
  - cbn [evaluate int_const copy bind]. now apply between_integers.
Qed.

(** ** Storage *)

(** No column references, and date-times with a consistent flag. *)
Fixpoint closed (e : Expression) : Prop :=
  let all := fix all (l : list Expression) : Prop := match l with [] => True | x :: l' => closed x /\ all l' end in
  match e with
  | ConstantExpression v => match v with VDateTime d => canonical d = d | _ => True end
  | SingleColumnExpression _ _ _ _ | AllColumnsExpression _ _ => False
  | ListExpression l => all l
  | UnaryOperator _ a => closed a
  | BinaryOperator _ a b | LikeOperator a b _ | IsOperator a b _ | CastOperator a b => closed a /\ closed b
  | BetweenOperator a b c _ => closed a /\ closed b /\ closed c
  | InOperator v l _ => closed v /\ all l
  end.

Definition same_value (e : Expression) : Prop := closed e -> evaluate context (expr_canon e) = evaluate context e.

Lemma canon_copy v : match v with VDateTime d => canonical d = d | _ => True end -> copy (canon v) = copy v.
Proof. destruct v; cbn; try reflexivity. now intros ->. Qed.

Lemma cast_type_canon e : cast_type (expr_canon e) = cast_type e.
Proof. destruct e as [v| | | | | | | | | |]; try reflexivity. destruct v; reflexivity. Qed.

Fixpoint all_closed (l : list Expression) : Prop := match l with [] => True | x :: l' => closed x /\ all_closed l' end.

Lemma list_same l : Forall same_value l -> all_closed l ->
  (forall v, eval_list context v (map expr_canon l) = eval_list context v l) /\
  (forall v, find v (map expr_canon l) = find v l).
Proof.
  induction 1 as [|x l Hx _ IH]; [split; reflexivity|]. intros [Hcx Hcl]. destruct (IH Hcl) as [IH1 IH2].
  split; intros v; cbn [map eval_list find]; rewrite (Hx Hcx).
  - destruct (evaluate context x); try reflexivity. apply IH1.
  - destruct (evaluate context x) as [w| |]; try reflexivity. cbn [bind].
    destruct (if isNull w then _ else _) as [[]| |]; try reflexivity. apply IH2.
Qed.

Lemma evaluate_canon e : same_value e.
Proof.
  induction e as [c|tn cn i j|tn i|l IH|op a IHa|op a b IHa IHb|a b n IHa IHb|a b c n IHa IHb IHc|x l n IHv IH|a b n IHa IHb|a b IHa IHb]
    using Expression_induction; intros Hc; try contradiction.
  - cbn. now rewrite canon_copy.
  - exact (proj1 (list_same l IH Hc) VNull).
  - cbn. now rewrite (IHa Hc).
  - destruct Hc as [Ha Hb]. cbn [expr_canon evaluate]. rewrite (IHa Ha), (IHb Hb). reflexivity.
  - destruct Hc as [Ha Hb]. cbn [expr_canon evaluate]. rewrite (IHa Ha), (IHb Hb). reflexivity.
  - destruct Hc as (Ha & Hb & Hcc). cbn [expr_canon evaluate]. rewrite (IHa Ha), (IHb Hb), (IHc Hcc). reflexivity.
  - destruct Hc as [Hv Hl]. pose proof (proj2 (list_same l IH Hl)) as Hf.
    change ((v <- evaluate context (expr_canon x) ;;
      (if isNull v then Ok (VBool false) else found <- find v (map expr_canon l) ;; Ok (VBool (xorb n found)))) =
      (v <- evaluate context x ;;
      (if isNull v then Ok (VBool false) else found <- find v l ;; Ok (VBool (xorb n found))))).
    rewrite (IHv Hv). destruct (evaluate context x) as [v| |]; try reflexivity. cbn [bind]. now rewrite Hf.
  - destruct Hc as [Ha Hb]. cbn [expr_canon evaluate]. rewrite (IHa Ha), (IHb Hb). reflexivity.
  - destruct Hc as [Ha Hb]. cbn [expr_canon evaluate]. rewrite (IHa Ha), cast_type_canon. reflexivity.
Qed.

(** an expression without column references, such as a stored default value,
    has the same value after it was serialized and read back: the same result,
    exception or undefined behaviour. *)
Theorem stored_expression_value e rest dt : expr_ok e -> closed e -> bytes_ok rest -> tail_ok rest ->
  Expression_getSerializedSize (expr_canon e) + len rest < 2 ^ 64 ->
  exists bytes e' d, Expression_serializeUnchecked e = Ok (bytes, e') /\
    Expression_deserialize dt (bytes ++ rest) (len (bytes ++ rest) - 1) = Ok (d, len bytes) /\
    evaluate context d = evaluate context e.
Proof.
  intros He Hc Hr Ht Hl. destruct (written_ok e He) as [bs Hw]. pose proof Hw as [[e' Hs] Hb Hlen Hp Hd].
  exists bs, e', (expr_canon e). split; [assumption|]. split; [|now apply evaluate_canon].
  apply Hd; [|now apply bytes_ok_app| |assumption|apply len_nonneg].
  - rewrite length_app. unfold len. lia.
  - rewrite len_app. lia.
Qed.

(** ** Where type and value part, and where null matters *)

Definition const (v : Variant) : Expression := ConstantExpression v.
Definition cast_to (v : Variant) (name : list Z) : Expression := CastOperator (const v) (const (VString name)).
Definition kUINT32 : list Z := [85; 73; 78; 84; 51; 50].
Definition kTEXT : list Z := [84; 69; 88; 84].

(** the exceptions to the announced type, for all values: negating an
    unsigned 32-bit integer is announced as [INT32] and stays unsigned; a shift
    by a 64-bit count is announced as 64 bits wide and is computed in 32; a cast
    to [UINT32] returns an [INT32]; a cast to [TEXT] returns the boolean true
    whatever the string is.  And null is not treated alike on both sides: a
    number compared with null throws while null compared with a number is
    false, and AND with null is null or false depending on the order. *)
Theorem announced_type_exceptions z s : in_ity U32 z = true ->
  (getResultValueType context (UnaryOperator UnaryMinusOperator (const (VNum (CI U32 z)))) = Ok kInt32 /\
   evaluate context (UnaryOperator UnaryMinusOperator (const (VNum (CI U32 z)))) = Ok (VNum (CI U32 (uw 32 (- z))))) /\
  (getResultValueType context (BinaryOperator LeftShiftOperator (const (VNum (CI I32 1))) (const (VNum (CI I64 31)))) = Ok kInt64 /\
   evaluate context (BinaryOperator LeftShiftOperator (const (VNum (CI I32 1))) (const (VNum (CI I64 31)))) =
     Ok (VNum (CI I32 (- 2 ^ 31)))) /\
  (getResultValueType context (cast_to (VNum (CI U32 z)) kUINT32) = Ok kUInt32 /\
   evaluate context (cast_to (VNum (CI U32 z)) kUINT32) = Ok (VNum (CI I32 (sw 32 z)))) /\
  (getResultValueType context (cast_to (VString s) kTEXT) = Ok kString /\
   evaluate context (cast_to (VString s) kTEXT) = Ok (VBool true)) /\
  (evaluate context (BinaryOperator EqualOperator (const VNull) (const (VNum (CI U32 z)))) = Ok (VBool false) /\
   evaluate context (BinaryOperator EqualOperator (const (VNum (CI U32 z))) (const VNull)) =
     Throw (VariantFailed (VariantTypeCastError kUInt32 kNull))) /\
  (evaluate context (BinaryOperator LogicalAndOperator (const (VBool false)) (const VNull)) = Ok (VBool false) /\
   evaluate context (BinaryOperator LogicalAndOperator (const VNull) (const (VBool false))) = Ok VNull).
Proof. intros Hz. repeat split; reflexivity. Qed.
End Semantics.

Lemma predicates_on_integers_witness :
  evaluate sample_context (InOperator (int_const (I8, -3)) (map int_const [(U64, 7); (I64, -3)]) true) = Ok (VBool false).
Proof.
  refine (proj1 (predicates_on_integers sample_context (I8, -3) (I32, -5) (U16, 9) [(U64, 7); (I64, -3)] true _ _ _));
    repeat constructor; (reflexivity || (intros _ [H|H]; discriminate H) || (intros _ _; reflexivity)).
Defined.

(** The default value [(2 + 40) IN (42, '')] of a column. *)
Definition sample_default : Expression :=
  InOperator (BinaryOperator AddOperator (int_const (I32, 2)) (int_const (I32, 40))) [int_const (I64, 42); const (VString [])] false.

Lemma stored_expression_value_witness :
  exists bytes e' d, Expression_serializeUnchecked sample_default = Ok (bytes, e') /\
    Expression_deserialize ext_uninit (bytes ++ [0]) (len (bytes ++ [0]) - 1) = Ok (d, len bytes) /\
    evaluate sample_context d = Ok (VBool true).
Proof.
  refine (stored_expression_value sample_context sample_default [0] ext_uninit _ _ _ _ _).
  - cbn. unfold kMaxVectorSize, len; cbn. repeat split; try reflexivity; try lia; constructor.
  - cbn. tauto.
  - repeat constructor; unfold byte_ok; lia.
  - split; [discriminate|]. right. reflexivity.
  - reflexivity.
Defined.

Lemma announced_type_exceptions_witness :
  evaluate sample_context (cast_to (VNum (CI U32 4294967295)) kUINT32) = Ok (VNum (CI I32 (-1))).
Proof.
  exact (proj2 (proj1 (proj2 (proj2 (announced_type_exceptions sample_context 4294967295 [] eq_refl))))).
Defined.
