(* ===== verification/IndexKeys.v ===== *)
(** * Index keys

    Models [dbengine/ikt]: the key traits of the eight integer key types, and the
    translation between keys in memory and the record numbers of the linear index
    ([UniqueLinearIndex::decodeKey], [encodeKey] and the [encodeSignedInt],
    [decodeSignedInt...] functions of [uli/UniqueLinearIndex.h]).

    [getMinKey] and [getMaxKey] write bytes into a key buffer, which the
    overloads without argument allocate and do not initialize: the buffer before
    is an argument here. *)

From Stdlib Require Import ZArith List Lia Bool.
From S2P Require Import Prelude PlainBinary.
Import ListNotations.
Open Scope Z_scope.

Inductive NumericKeyType : Type := kNonNumeric | kSignedInt | kUnsignedInt | kFloatingPoint | kOther.

Record IndexKeyTraits : Type := {
  getKeySize : Z;
  getMinKey : list Z -> list Z;
  getMaxKey : list Z -> list Z;
  getNumericKeyType : NumericKeyType;
  compareKeys : list Z -> list Z -> Z
}.

(** [k[i] = b] for each pair; the buffer has the size of the key. *)
Fixpoint poke (l : list Z) (i : nat) (b : Z) : list Z :=
  match l, i with
  | [], _ => []
  | _ :: l', O => b :: l'
  | x :: l', S i' => x :: poke l' i' b
  end.
Definition pokes (l : list (nat * Z)) (key : list Z) : list Z :=
  fold_left (fun k p => poke k (fst p) (snd p)) l key.

(** [*reinterpret_cast<const std::intN_t*>(key)]. *)
Definition signed_at (size : nat) (key : list Z) : Z := sw (8 * Z.of_nat size) (le_load (firstn size key)).
Definition unsigned_at (size : nat) (key : list Z) : Z := le_load (firstn size key).

(** [(a == b) ? 0 : ((a < b) ? -1 : 1)] *)
Definition compare_values (a b : Z) : Z := if a =? b then 0 else if a <? b then -1 else 1.

Definition Int8IndexKeyTraits : IndexKeyTraits := {|
  getKeySize := 1;
  getMinKey := pokes [(0%nat, 0x80)];
  getMaxKey := pokes [(0%nat, 0x7F)];
  getNumericKeyType := kSignedInt;
  compareKeys a b := compare_values (signed_at 1 a) (signed_at 1 b)
|}.

Definition UInt8IndexKeyTraits : IndexKeyTraits := {|
  getKeySize := 1;
  getMinKey := pokes [(0%nat, 0x80)];
  getMaxKey := pokes [(0%nat, 0x7F)];
  getNumericKeyType := kUnsignedInt;
  compareKeys a b := compare_values (unsigned_at 1 a) (unsigned_at 1 b)
|}.

Definition Int16IndexKeyTraits : IndexKeyTraits := {|
  getKeySize := 2;
  getMinKey := pokes [(0%nat, 0); (1%nat, 0x80)];
  getMaxKey := pokes [(0%nat, 0xFF); (1%nat, 0x7F)];
  getNumericKeyType := kSignedInt;
  compareKeys a b := compare_values (signed_at 2 a) (signed_at 2 b)
|}.

Definition UInt16IndexKeyTraits : IndexKeyTraits := {|
  getKeySize := 2;
  getMinKey := pokes [(0%nat, 0); (1%nat, 0)];
  getMaxKey := pokes [(0%nat, 0xFF); (1%nat, 0xFF)];
  getNumericKeyType := kUnsignedInt;
  compareKeys a b := compare_values (unsigned_at 2 a) (unsigned_at 2 b)
|}.

Definition Int32IndexKeyTraits : IndexKeyTraits := {|
  getKeySize := 4;
  getMinKey := pokes [(0%nat, 0); (1%nat, 0); (2%nat, 0); (3%nat, 0x80)];
  getMaxKey := pokes [(0%nat, 0xFF); (1%nat, 0xFF); (2%nat, 0xFF); (3%nat, 0x7F)];
  getNumericKeyType := kSignedInt;
  compareKeys a b := compare_values (signed_at 4 a) (signed_at 4 b)
|}.

Definition UInt32IndexKeyTraits : IndexKeyTraits := {|
  getKeySize := 4;
  getMinKey := pokes [(0%nat, 0); (1%nat, 0); (2%nat, 0); (3%nat, 0)];
  getMaxKey := pokes [(0%nat, 0xFF); (1%nat, 0xFF); (2%nat, 0xFF); (3%nat, 0xFF)];
  getNumericKeyType := kUnsignedInt;
  compareKeys a b := compare_values (unsigned_at 4 a) (unsigned_at 4 b)
|}.

(** The last statement of the two 64-bit [getMaxKey] functions stores to [k[1]]. *)
Definition Int64IndexKeyTraits : IndexKeyTraits := {|
  getKeySize := 8;
  getMinKey := pokes [(0%nat, 0); (1%nat, 0); (2%nat, 0); (3%nat, 0); (4%nat, 0); (5%nat, 0); (6%nat, 0); (7%nat, 0x80)];
  getMaxKey := pokes [(0%nat, 0xFF); (1%nat, 0xFF); (2%nat, 0xFF); (3%nat, 0xFF); (4%nat, 0xFF); (5%nat, 0xFF);
                      (6%nat, 0xFF); (1%nat, 0x7F)];
  getNumericKeyType := kSignedInt;
  compareKeys a b := compare_values (signed_at 8 a) (signed_at 8 b)
|}.

Definition UInt64IndexKeyTraits : IndexKeyTraits := {|
  getKeySize := 8;
  getMinKey := pokes [(0%nat, 0); (1%nat, 0); (2%nat, 0); (3%nat, 0); (4%nat, 0); (5%nat, 0); (6%nat, 0); (7%nat, 0)];
  getMaxKey := pokes [(0%nat, 0xFF); (1%nat, 0xFF); (2%nat, 0xFF); (3%nat, 0xFF); (4%nat, 0xFF); (5%nat, 0xFF);
                      (6%nat, 0xFF); (1%nat, 0xFF)];
  getNumericKeyType := kUnsignedInt;
  compareKeys a b := compare_values (unsigned_at 8 a) (unsigned_at 8 b)
|}.

(** ** Keys as record numbers *)

(** The overloads of [encodeSignedInt]: the sum is computed in [int] for the two
    small types and wraps in the unsigned type of the constant for the others. *)
Definition encodeSignedInt (size : nat) (n : Z) : Z :=
  match size with
  | 1%nat => uw 64 (n + 0x80)
  | 2%nat => uw 64 (n + 0x8000)
  | 4%nat => uw 64 (uw 32 (n + 0x80000000))
  | _ => uw 64 (n + 0x8000000000000000)
  end.

(** [decodeSignedInt8] to [decodeSignedInt64]. *)
Definition decodeSignedInt (size : nat) (n : Z) : Z :=
  match size with
  | 1%nat => sw 8 (sw 8 n - 0x80)
  | 2%nat => sw 16 (sw 16 n - 0x8000)
  | 4%nat => sw 32 (uw 32 (sw 32 n - 0x80000000))
  | _ => sw 64 (uw 64 (sw 64 n - 0x8000000000000000))
  end.

Definition is_signed (t : IndexKeyTraits) : bool :=
  match getNumericKeyType t with kSignedInt => true | _ => false end.

(** Key sizes other than 1, 2, 4 and 8 call [abort]; the constructor rejects
    them. *)
Definition key_bytes (t : IndexKeyTraits) : nat := Z.to_nat (getKeySize t).

Definition decodeKey (t : IndexKeyTraits) (key : list Z) : Z :=
  if is_signed t then encodeSignedInt (key_bytes t) (signed_at (key_bytes t) key)
  else unsigned_at (key_bytes t) key.

Definition encodeKey (t : IndexKeyTraits) (numericKey : Z) : list Z :=
  if is_signed t then le_store (key_bytes t) (decodeSignedInt (key_bytes t) numericKey)
  else le_store (key_bytes t) numericKey.

(** ** What the index relies on *)

Definition key_ok (t : IndexKeyTraits) (key : list Z) : Prop := len key = getKeySize t /\ bytes_ok key.

(** The number of different keys. *)
Definition key_space (t : IndexKeyTraits) : Z := 2 ^ (8 * getKeySize t).

(** [min_key] and [max_key] are the keys that [getMinKey] and [getMaxKey] gave
    when the index was created. *)
Class KeyTraitsLaws (t : IndexKeyTraits) (min_key max_key : list Z) : Prop := {
  law_size : In (getKeySize t) [1; 2; 4; 8];
  law_type : getNumericKeyType t = kSignedInt \/ getNumericKeyType t = kUnsignedInt;
  law_compare : forall a b, key_ok t a -> key_ok t b ->
    compareKeys t a b = compare_values (decodeKey t a) (decodeKey t b);
  law_min : key_ok t min_key /\ decodeKey t min_key = 0;
  law_max : key_ok t max_key /\ 0 < decodeKey t max_key
}.

(** ** Keys and record numbers correspond *)

Lemma uw_range64 size z : In size [1; 2; 4; 8] -> 0 <= z < 2 ^ (8 * size) -> uw 64 z = z.
Proof.
  intros Hs Hz. apply uw_small. unfold u_ok. assert (2 ^ (8 * size) <= 2 ^ 64); [|lia].
  apply Z.pow_le_mono_r; [lia|]. destruct Hs as [<-|[<-|[<-|[<-|[]]]]]; lia.
Qed.

Section Keys.
Context (t : IndexKeyTraits).
Hypothesis Hsize : In (getKeySize t) [1; 2; 4; 8].

Lemma key_space_le : key_space t <= 2 ^ 64.
Proof. unfold key_space. apply Z.pow_le_mono_r; [lia|]. destruct Hsize as [<-|[<-|[<-|[<-|[]]]]]; lia. Qed.

Ltac by_size := assert (key_bytes t = Z.to_nat (getKeySize t)) as -> by reflexivity;
  destruct Hsize as [E|[E|[E|[E|[]]]]]; rewrite <- E in *; clear E;
  match goal with |- context [Z.to_nat ?z] => let n := eval vm_compute in (Z.to_nat z) in change (Z.to_nat z) with n end;
  match goal with |- context [Z.of_nat ?z] => let n := eval vm_compute in (Z.of_nat z) in change (Z.of_nat z) with n | _ => idtac end;
  repeat match goal with |- context [8 * ?z] => let n := eval vm_compute in (8 * z) in change (8 * z) with n in * end.

Lemma key_load key : key_ok t key -> firstn (key_bytes t) key = key /\ 0 <= le_load key < key_space t.
Proof.
  intros [Hl Hb]. split.
  - unfold key_bytes. rewrite <- Hl. apply firstn_len.
  - unfold key_space. rewrite <- Hl. apply le_load_range. exact Hb.
Qed.

(** A signed key is shifted by half of the key space. *)
Lemma decodeKey_signed key : is_signed t = true -> key_ok t key ->
  decodeKey t key = sw (8 * getKeySize t) (le_load key) + 2 ^ (8 * getKeySize t - 1).
Proof.
  intros Hs Hk. destruct (key_load key Hk) as [Hf _]. unfold decodeKey. rewrite Hs. unfold signed_at. rewrite Hf.
  pose proof (sw_range (8 * getKeySize t) (le_load key)) as Hr. unfold s_ok in Hr.
  by_size; specialize (Hr ltac:(lia)); pow_norm; cbn [encodeSignedInt]; rewrite ?(uw_small 32) by (unfold u_ok; pow_norm; lia);
    apply uw_small; unfold u_ok; pow_norm; lia.
Qed.

Lemma decodeKey_range key : key_ok t key -> 0 <= decodeKey t key < key_space t.
Proof.
  intros Hk. destruct (is_signed t) eqn:Hs.
  - rewrite decodeKey_signed by assumption. unfold key_space.
    assert (0 < 8 * getKeySize t) by (destruct Hsize as [<-|[<-|[<-|[<-|[]]]]]; lia).
    pose proof (sw_range (8 * getKeySize t) (le_load key) ltac:(lia)) as Hr. unfold s_ok in Hr.
    pose proof (pow2_half (8 * getKeySize t) ltac:(lia)). lia.
  - destruct (key_load key Hk) as [Hf Hr]. unfold decodeKey, unsigned_at. rewrite Hs, Hf. exact Hr.
Qed.

Lemma encodeKey_ok n : key_ok t (encodeKey t n).
Proof.
  assert (Hkb : Z.of_nat (key_bytes t) = getKeySize t) by (unfold key_bytes; destruct Hsize as [<-|[<-|[<-|[<-|[]]]]]; lia).
  unfold encodeKey. destruct (is_signed t); (split; [rewrite len_le_store; exact Hkb|apply le_store_bytes]).
Qed.

(** Undoing the shift: modulo the key space, both ways. *)
Lemma decodeSignedInt_cong n : (key_space t | decodeSignedInt (key_bytes t) n - (n + 2 ^ (8 * getKeySize t - 1))).
Proof.
  unfold key_space. by_size; cbn [decodeSignedInt]; unfold sw, uw; pow_norm;
    match goal with |- (?d | ?x) => exists (x / d) end; Z.to_euclidean_division_equations; lia.
Qed.

Lemma key_bytes_size : Z.of_nat (key_bytes t) = getKeySize t.
Proof. unfold key_bytes. destruct Hsize as [<-|[<-|[<-|[<-|[]]]]]; lia. Qed.

Lemma half_space : key_space t = 2 * 2 ^ (8 * getKeySize t - 1).
Proof. unfold key_space. apply pow2_half. destruct Hsize as [<-|[<-|[<-|[<-|[]]]]]; lia. Qed.

Lemma decode_encode n : 0 <= n < key_space t -> decodeKey t (encodeKey t n) = n.
Proof.
  intros Hn. pose proof (encodeKey_ok n) as Hk. pose proof half_space as Hh.
  assert (Hpos : 0 < 8 * getKeySize t) by (destruct Hsize as [<-|[<-|[<-|[<-|[]]]]]; lia).
  destruct (is_signed t) eqn:Hs.
  - rewrite decodeKey_signed by assumption. unfold encodeKey. rewrite Hs, le_load_store, key_bytes_size.
    fold (uw (8 * getKeySize t) (decodeSignedInt (key_bytes t) n)). rewrite sw_uw by lia.
    destruct (decodeSignedInt_cong n) as [q Hq]. pose proof (sw_range (8 * getKeySize t) (decodeSignedInt (key_bytes t) n) Hpos) as Hr.
    destruct (sw_cong (8 * getKeySize t) (decodeSignedInt (key_bytes t) n) Hpos) as [q' Hq']. fold (key_space t) in Hq'.
    unfold s_ok in Hr. assert (Hz : sw (8 * getKeySize t) (decodeSignedInt (key_bytes t) n) + 2 ^ (8 * getKeySize t - 1) = n + (q + q' + 1) * key_space t) by lia.
    assert (q + q' + 1 = 0) as Hq0; [|rewrite Hq0 in Hz; lia].
    destruct (Z.lt_trichotomy (q + q' + 1) 0) as [H|[H|H]]; [nia|exact H|nia].
  - unfold decodeKey, unsigned_at, encodeKey. rewrite Hs.
    destruct (key_load (encodeKey t n) Hk) as [Hf _]. unfold encodeKey in Hf. rewrite Hs in Hf. rewrite Hf, le_load_store, key_bytes_size.
    apply Z.mod_small. exact Hn.
Qed.

Lemma decodeKey_inj a b : key_ok t a -> key_ok t b -> decodeKey t a = decodeKey t b -> a = b.
Proof.
  intros Ha Hb Heq. destruct (key_load a Ha) as [Hfa Hra], (key_load b Hb) as [Hfb Hrb].
  assert (Hl : le_load a = le_load b).
  { destruct (is_signed t) eqn:Hs.
    - rewrite !decodeKey_signed in Heq by assumption.
      assert (Hpos : 0 < 8 * getKeySize t) by (destruct Hsize as [<-|[<-|[<-|[<-|[]]]]]; lia).
      assert (Hsw : sw (8 * getKeySize t) (le_load a) = sw (8 * getKeySize t) (le_load b)) by lia.
      apply (f_equal (uw (8 * getKeySize t))) in Hsw. rewrite !uw_sw in Hsw by lia.
      rewrite !uw_small in Hsw by assumption. exact Hsw.
    - unfold decodeKey, unsigned_at in Heq. now rewrite Hs, Hfa, Hfb in Heq. }
  destruct Ha as [Hla Hba], Hb as [Hlb Hbb]. rewrite <- (le_store_load a Hba), <- (le_store_load b Hbb).
  rewrite Hl. f_equal. unfold len in *. lia.
Qed.

Lemma encode_decode key : key_ok t key -> encodeKey t (decodeKey t key) = key.
Proof.
  intros Hk. apply decodeKey_inj; [apply encodeKey_ok|exact Hk|]. apply decode_encode, decodeKey_range, Hk.
Qed.

(** Comparing values is comparing record numbers, for both kinds of keys. *)
Lemma compare_decoded a b : key_ok t a -> key_ok t b ->
  compare_values (decodeKey t a) (decodeKey t b) =
  (if is_signed t then compare_values (signed_at (key_bytes t) a) (signed_at (key_bytes t) b)
   else compare_values (unsigned_at (key_bytes t) a) (unsigned_at (key_bytes t) b)).
Proof.
  intros Ha Hb. destruct (key_load a Ha) as [Hfa _], (key_load b Hb) as [Hfb _]. destruct (is_signed t) eqn:Hs.
  - rewrite !decodeKey_signed by assumption. unfold signed_at. rewrite Hfa, Hfb, key_bytes_size.
    unfold compare_values. zcases; lia.
  - unfold decodeKey. now rewrite Hs.
Qed.
End Keys.

(** ** The laws, for seven of the eight key types *)

Ltac key_bytes_ok := unfold bytes_ok; cbn; repeat (apply Forall_cons; [unfold byte_ok; lia|]); apply Forall_nil.

Ltac laws := split; [cbn; tauto|(left; reflexivity) || (right; reflexivity)|
  let a := fresh in let b := fresh in let Ha := fresh in let Hb := fresh in
  intros a b Ha Hb; symmetry; apply compare_decoded; [cbn; tauto|exact Ha|exact Hb]|..].

#[export] Instance Int8_laws b : KeyTraitsLaws Int8IndexKeyTraits (getMinKey Int8IndexKeyTraits [b]) (getMaxKey Int8IndexKeyTraits [b]).
Proof. laws; (split; [split; [reflexivity|key_bytes_ok]|reflexivity]). Qed.

#[export] Instance Int16_laws b0 b1 :
  KeyTraitsLaws Int16IndexKeyTraits (getMinKey Int16IndexKeyTraits [b0; b1]) (getMaxKey Int16IndexKeyTraits [b0; b1]).
Proof. laws; (split; [split; [reflexivity|key_bytes_ok]|reflexivity]). Qed.

#[export] Instance UInt16_laws b0 b1 :
  KeyTraitsLaws UInt16IndexKeyTraits (getMinKey UInt16IndexKeyTraits [b0; b1]) (getMaxKey UInt16IndexKeyTraits [b0; b1]).
Proof. laws; (split; [split; [reflexivity|key_bytes_ok]|reflexivity]). Qed.

#[export] Instance Int32_laws b0 b1 b2 b3 :
  KeyTraitsLaws Int32IndexKeyTraits (getMinKey Int32IndexKeyTraits [b0; b1; b2; b3]) (getMaxKey Int32IndexKeyTraits [b0; b1; b2; b3]).
Proof. laws; (split; [split; [reflexivity|key_bytes_ok]|reflexivity]). Qed.

#[export] Instance UInt32_laws b0 b1 b2 b3 :
  KeyTraitsLaws UInt32IndexKeyTraits (getMinKey UInt32IndexKeyTraits [b0; b1; b2; b3]) (getMaxKey UInt32IndexKeyTraits [b0; b1; b2; b3]).
Proof. laws; (split; [split; [reflexivity|key_bytes_ok]|reflexivity]). Qed.

(** The greatest 64-bit keys depend on the byte [b7] that was in memory. *)
Lemma UInt64_max b0 b1 b2 b3 b4 b5 b6 b7 :
  getMaxKey UInt64IndexKeyTraits [b0; b1; b2; b3; b4; b5; b6; b7] = [0xFF; 0xFF; 0xFF; 0xFF; 0xFF; 0xFF; 0xFF; b7] /\
  decodeKey UInt64IndexKeyTraits (getMaxKey UInt64IndexKeyTraits [b0; b1; b2; b3; b4; b5; b6; b7]) = (b7 + 1) * 2 ^ 56 - 1.
Proof.
  split; [reflexivity|]. change (le_load [0xFF; 0xFF; 0xFF; 0xFF; 0xFF; 0xFF; 0xFF; b7] = (b7 + 1) * 2 ^ 56 - 1).
  unfold le_load. pow_norm. lia.
Qed.

#[export] Instance UInt64_laws b0 b1 b2 b3 b4 b5 b6 b7 (H7 : byte_ok b7) :
  KeyTraitsLaws UInt64IndexKeyTraits (getMinKey UInt64IndexKeyTraits [b0; b1; b2; b3; b4; b5; b6; b7])
    (getMaxKey UInt64IndexKeyTraits [b0; b1; b2; b3; b4; b5; b6; b7]).
Proof.
  unfold byte_ok in H7. laws.
  - split; [split; [reflexivity|key_bytes_ok]|reflexivity].
  - split; [split; [reflexivity|key_bytes_ok]|]. rewrite (proj2 (UInt64_max b0 b1 b2 b3 b4 b5 b6 b7)).
    pow_norm. lia.
Qed.

#[export] Instance Int64_laws b0 b1 b2 b3 b4 b5 b6 b7 (H7 : byte_ok b7) :
  KeyTraitsLaws Int64IndexKeyTraits (getMinKey Int64IndexKeyTraits [b0; b1; b2; b3; b4; b5; b6; b7])
    (getMaxKey Int64IndexKeyTraits [b0; b1; b2; b3; b4; b5; b6; b7]).
Proof.
  unfold byte_ok in H7. laws.
  - split; [split; [reflexivity|key_bytes_ok]|reflexivity].
  - assert (Hk : key_ok Int64IndexKeyTraits (getMaxKey Int64IndexKeyTraits [b0; b1; b2; b3; b4; b5; b6; b7]))
      by (split; [reflexivity|key_bytes_ok]).
    split; [exact Hk|]. rewrite decodeKey_signed; [|cbn; tauto|reflexivity|exact Hk].
    change (0 < sw 64 (le_load [0xFF; 0x7F; 0xFF; 0xFF; 0xFF; 0xFF; 0xFF; b7]) + 2 ^ 63). unfold sw, le_load. pow_norm. Z.to_euclidean_division_equations. lia.
Qed.

(** Keys of [UInt8IndexKeyTraits] are compared as unsigned while its least and
    greatest keys are those of signed ones, in the wrong order. *)
Lemma UInt8_bounds b : ~ KeyTraitsLaws UInt8IndexKeyTraits (getMinKey UInt8IndexKeyTraits [b]) (getMaxKey UInt8IndexKeyTraits [b]).
Proof. intros [_ _ _ [_ Hmin] _]. discriminate Hmin. Qed.
