(* ===== verification/LruCache.v ===== *)
(** * The LRU cache

    Models [basic_lru_cache] of [common/stl_ext/lru_cache.h], the container of
    the engine's block, file, node and definition caches.  The hash map points
    into the list of keys by iterators: list nodes have identities, and the map
    holds the identity of the node of each key.  The specification is a list of
    the entries by recency; the theorem is that every operation of the code
    implements the operation on that list.

    [can_evict], [on_evict] and [on_last_chance_cleanup] are the virtual
    functions that the caches override: a class, over a state [W] of what they
    look at and change (reference counts, files). *)

From stdpp Require Import base list gmap.
Set Warnings "-clear-no-such-hyp,-notation-incompatible-prefix".
From S2P Require Import Prelude.

Local Open Scope nat_scope.

Inductive LruError : Type := LruFull | LruCorrupted | HookError.

Class LruHooks (W K T : Type) : Type := {
  can_evict : W -> K -> T -> bool;
  on_evict : W -> K -> T -> bool -> outcome LruError W;
  on_last_chance_cleanup : W -> outcome LruError (bool * W)
}.

Section Cache.
Context {K : Type} `{Countable K} {T W : Type} `{!LruHooks W K T} (default_key : K).

(** [m_next] numbers the list nodes that were allocated. *)
Record lru_cache : Type := {
  m_capacity : nat;
  m_map : gmap K (T * nat);
  m_list : list (nat * K);
  m_next : nat
}.

Definition empty_cache (capacity : nat) : lru_cache :=
  {| m_capacity := capacity; m_map := ∅; m_list := []; m_next := 0 |}.

(** ** The list of keys *)

Definition set_node (l : list (nat * K)) (n : nat) (k : K) : list (nat * K) :=
  (fun p : nat * K => if decide (p.1 = n) then (n, k) else p) <$> l.
Definition erase_node (l : list (nat * K)) (n : nat) : list (nat * K) := filter (fun p => p.1 ≠ n) l.

(** [*it] for a node of the list. *)
Fixpoint node_key (l : list (nat * K)) (n : nat) : option K :=
  match l with
  | [] => None
  | (m, k) :: l' => if decide (m = n) then Some k else node_key l' n
  end.

(** ** Operations *)

Definition lru_size (c : lru_cache) : nat := size (m_map c).
Definition contains (c : lru_cache) (key : K) : bool := bool_decide (is_Some (m_map c !! key)).
Definition extend (c : lru_cache) (capacity : nat) : lru_cache :=
  if decide (m_capacity c < capacity) then
    {| m_capacity := capacity; m_map := m_map c; m_list := m_list c; m_next := m_next c |}
  else c.

(** [get]: the key moves to a new front node, by swapping it with a default key
    there and erasing the old node. *)
Definition get (c : lru_cache) (key : K) : option T * lru_cache :=
  match m_map c !! key with
  | None => (None, c)
  | Some (value, it) =>
      if bool_decide ((fst <$> head (m_list c)) = Some it) then (Some value, c) else
      let front := m_next c in
      let l := (front, default_key) :: m_list c in
      let a := default_key in
      let b := default default_key (node_key l it) in
      let l := set_node (set_node l front b) it a in
      (Some value,
       {| m_capacity := m_capacity c; m_map := <[key := (value, front)]> (m_map c);
          m_list := erase_node l it; m_next := S front |})
  end.

(** One pass of [evict] over the list from its end: the first evictable entry. *)
Fixpoint evict_scan (w : W) (m : gmap K (T * nat)) (l : list (nat * K)) : outcome LruError (option (K * T * nat)) :=
  match l with
  | [] => Ok None
  | (_, k) :: l' =>
      match m !! k with
      | None => Throw LruCorrupted
      | Some (v, it) => if can_evict w k v then Ok (Some (k, v, it)) else evict_scan w m l'
      end
  end.

(** [while (true)]: a pass, then the last chance; the cleanups that may come
    before the cache gives up are bounded by the fuel. *)
Fixpoint evict (fuel : nat) (w : W) (c : lru_cache) : outcome LruError (W * lru_cache) :=
  found <- evict_scan w (m_map c) (reverse (m_list c)) ;;
  match found with
  | Some (k, v, it) =>
      w <- on_evict w k v false ;;
      Ok (w, {| m_capacity := m_capacity c; m_map := delete k (m_map c);
                m_list := erase_node (m_list c) it; m_next := m_next c |})
  | None =>
      '(again, w) <- on_last_chance_cleanup w ;;
      if (again : bool) then match fuel with O => Undef NoProgress | S n => evict n w c end
      else Throw LruFull
  end.

Definition emplace (fuel : nat) (w : W) (c : lru_cache) (key : K) (value : T) (replace : bool)
  : outcome LruError (bool * W * lru_cache) :=
  match m_map c !! key with
  | None =>
      '(w, c) <- (if decide (m_capacity c <= lru_size c) then evict fuel w c else Ok (w, c)) ;;
      let lit := m_next c in
      Ok (true, w, {| m_capacity := m_capacity c; m_map := <[key := (value, lit)]> (m_map c);
                      m_list := (lit, key) :: m_list c; m_next := S lit |})
  | Some (_, it) =>
      if replace then
        Ok (false, w, {| m_capacity := m_capacity c; m_map := <[key := (value, it)]> (m_map c);
                         m_list := m_list c; m_next := m_next c |})
      else Ok (false, w, c)
  end.

Definition erase (c : lru_cache) (key : K) : bool * lru_cache :=
  match m_map c !! key with
  | None => (false, c)
  | Some (_, it) =>
      (true, {| m_capacity := m_capacity c; m_map := delete key (m_map c);
                m_list := erase_node (m_list c) it; m_next := m_next c |})
  end.

(** [clear]: [on_evict] of every entry, in the order of the map, its exceptions
    caught. *)
Definition clear_hook (acc : outcome LruError W) (e : K * (T * nat)) : outcome LruError W :=
  w <- acc ;;
  match on_evict w e.1 e.2.1 true with Ok w' => Ok w' | Throw _ => Ok w | Undef u => Undef u end.

Definition clear_hooks (w : W) (entries : list (K * (T * nat))) : outcome LruError W := foldl clear_hook (Ok w) entries.

Definition clear (w : W) (c : lru_cache) : outcome LruError (W * lru_cache) :=
  w <- clear_hooks w (map_to_list (m_map c)) ;;
  Ok (w, {| m_capacity := m_capacity c; m_map := ∅; m_list := []; m_next := m_next c |}).

(** ** The specification: entries, the most recently used first *)

Definition entry (m : gmap K (T * nat)) (p : nat * K) : option (K * T) := (fun e : T * nat => (p.2, e.1)) <$> m !! p.2.

Definition entries (c : lru_cache) : list (K * T) := omap (entry (m_map c)) (m_list c).

Definition spec_remove (l : list (K * T)) (k : K) : list (K * T) := filter (fun e => e.1 ≠ k) l.

Fixpoint spec_lookup (l : list (K * T)) (k : K) : option T :=
  match l with
  | [] => None
  | (k', v) :: l' => if decide (k' = k) then Some v else spec_lookup l' k
  end.

Definition spec_get (l : list (K * T)) (k : K) : option T * list (K * T) :=
  match spec_lookup l k with
  | None => (None, l)
  | Some v => (Some v, (k, v) :: spec_remove l k)
  end.

(** The least recently used entry that may be evicted. *)
Fixpoint spec_victim (w : W) (l : list (K * T)) : option (K * T) :=
  match l with
  | [] => None
  | e :: l' =>
      match spec_victim w l' with
      | Some x => Some x
      | None => if can_evict w e.1 e.2 then Some e else None
      end
  end.

Fixpoint spec_evict (fuel : nat) (w : W) (l : list (K * T)) : outcome LruError (W * list (K * T)) :=
  match spec_victim w l with
  | Some (k, v) => w <- on_evict w k v false ;; Ok (w, spec_remove l k)
  | None =>
      '(again, w) <- on_last_chance_cleanup w ;;
      if (again : bool) then match fuel with O => Undef NoProgress | S n => spec_evict n w l end
      else Throw LruFull
  end.

Definition spec_replace (l : list (K * T)) (k : K) (v : T) : list (K * T) :=
  (fun e : K * T => if decide (e.1 = k) then (k, v) else e) <$> l.

Definition spec_emplace (fuel capacity : nat) (w : W) (l : list (K * T)) (k : K) (v : T) (replace : bool)
  : outcome LruError (bool * W * list (K * T)) :=
  match spec_lookup l k with
  | None =>
      '(w, l) <- (if decide (capacity <= length l) then spec_evict fuel w l else Ok (w, l)) ;;
      Ok (true, w, (k, v) :: l)
  | Some _ => Ok (false, w, if replace then spec_replace l k v else l)
  end.

Definition spec_erase (l : list (K * T)) (k : K) : bool * list (K * T) :=
  (bool_decide (is_Some (spec_lookup l k)), spec_remove l k).

#[local] Arguments filter : simpl never.
#[local] Arguments entry : simpl never.

Lemma omap_entry m n k v it (l : list (nat * K)) : m !! k = Some (v, it) ->
  omap (entry m) ((n, k) :: l) = (k, v) :: omap (entry m) l.
Proof. intros Hk. cbn. unfold entry at 1. cbn [snd]. by rewrite Hk. Qed.

(** ** The invariant *)

(** No node and no key twice, node numbers that were given out, and a map that
    points to the node of each key. *)
Record lru_ok (c : lru_cache) : Prop := {
  ok_nodes : NoDup (m_list c).*1;
  ok_keys : NoDup (m_list c).*2;
  ok_fresh : forall n k, (n, k) ∈ m_list c -> n < m_next c;
  ok_map : forall n k, (n, k) ∈ m_list c <-> exists v, m_map c !! k = Some (v, n)
}.

Lemma entries_filter m l k :
  omap (entry m) (filter (fun p : nat * K => p.2 ≠ k) l) = spec_remove (omap (entry m) l) k.
Proof.
  unfold spec_remove, entry. induction l as [|[n k'] l IH]; [done|].
  rewrite filter_cons. simpl. destruct (m !! k') as [[v it]|] eqn:E; simpl.
  - rewrite filter_cons. simpl. destruct (decide (k' ≠ k)); simpl; [rewrite E; simpl; f_equal; exact IH|exact IH].
  - destruct (decide (k' ≠ k)); simpl; [rewrite E; simpl; exact IH|exact IH].
Qed.

Lemma entries_ext m m' (l : list (nat * K)) : (forall n k, (n, k) ∈ l -> fst <$> m !! k = fst <$> m' !! k) ->
  omap (entry m) l = omap (entry m') l.
Proof.
  unfold entry. induction l as [|[n k] l IH]; intros Hext; [done|]. cbn.
  assert (Hk : fst <$> m !! k = fst <$> m' !! k) by (apply (Hext n k); set_solver).
  rewrite IH by (intros; apply (Hext n0); set_solver).
  destruct (m !! k) as [[v i]|], (m' !! k) as [[v' i']|]; cbn in *; by simplify_eq.
Qed.

Lemma lookup_entries c k : lru_ok c -> spec_lookup (entries c) k = fst <$> m_map c !! k.
Proof.
  intros Hok. unfold entries. destruct (m_map c !! k) as [[v n]|] eqn:E; cbn.
  - assert (Hin : (n, k) ∈ m_list c) by (apply (ok_map c Hok); eauto). revert Hin. unfold entry.
    induction (m_list c) as [|[n' k'] l IH]; intros Hin; [set_solver|]. cbn.
    destruct (decide (k' = k)) as [->|Hne].
    + rewrite E. cbn. by rewrite decide_True.
    + assert ((n, k) ∈ l) by set_solver. destruct (m_map c !! k') as [[v' i]|]; cbn; [rewrite decide_False by done|]; auto.
  - unfold entry. induction (m_list c) as [|[n' k'] l IH]; [done|]. cbn.
    destruct (decide (k' = k)) as [->|Hne]; [by rewrite E|].
    destruct (m_map c !! k') as [[v' i]|]; cbn; [rewrite decide_False by done|]; auto.
Qed.

Lemma node_unique c n k k' : lru_ok c -> (n, k) ∈ m_list c -> (n, k') ∈ m_list c -> k = k'.
Proof.
  intros Hok. pose proof (ok_nodes c Hok) as Hnd. induction (m_list c) as [|[m x] l IH]; intros H1 H2; [set_solver|].
  apply NoDup_cons in Hnd as [Hm Hnd].
  assert (Hfst : forall y, (n, y) ∈ l -> n ∈ l.*1) by (intros y Hy; apply (list_elem_of_fmap_2 fst l (n, y)); done).
  apply elem_of_cons in H1 as [H1|H1], H2 as [H2|H2]; simplify_eq; [done|..]; try (destruct Hm; eauto; fail).
  by apply IH.
Qed.

Lemma filter_ext_in {A} (P Q : A -> Prop) `{!forall x, Decision (P x)} `{!forall x, Decision (Q x)} (l : list A) :
  (forall x, x ∈ l -> P x <-> Q x) -> filter P l = filter Q l.
Proof.
  induction l as [|x l IH]; intros Hx; [done|]. rewrite !filter_cons.
  rewrite IH by set_solver. destruct (decide (P x)), (decide (Q x)); set_solver.
Qed.

(** Erasing the node of a key removes the key. *)
Lemma erase_by_key c n k : lru_ok c -> (n, k) ∈ m_list c ->
  erase_node (m_list c) n = filter (fun p : nat * K => p.2 ≠ k) (m_list c).
Proof.
  intros Hok Hin. apply filter_ext_in. intros [n' k'] Hin'. cbn. split; intros Hne ->; apply Hne.
  - apply (ok_map c Hok) in Hin as [v Hv], Hin' as [v' Hv']. congruence.
  - exact (node_unique c n k' k Hok Hin' Hin).
Qed.

(** The cache without a key. *)
Definition without (c : lru_cache) (k : K) (n : nat) : lru_cache :=
  {| m_capacity := m_capacity c; m_map := delete k (m_map c); m_list := erase_node (m_list c) n; m_next := m_next c |}.

Lemma without_ok c k v n : lru_ok c -> m_map c !! k = Some (v, n) ->
  lru_ok (without c k n) /\ entries (without c k n) = spec_remove (entries c) k.
Proof.
  intros Hok Hk. assert (Hin : (n, k) ∈ m_list c) by (apply (ok_map c Hok); eauto).
  unfold without. rewrite (erase_by_key c n k) by done. split.
  - split; cbn [m_list m_map m_next].
    + apply (sublist_NoDup _ _ (ok_nodes c Hok)). apply fmap_sublist, sublist_filter.
    + apply (sublist_NoDup _ _ (ok_keys c Hok)). apply fmap_sublist, sublist_filter.
    + intros n' k' [_ Hx]%list_elem_of_filter. by apply (ok_fresh c Hok n' k').
    + intros n' k'. rewrite list_elem_of_filter, (ok_map c Hok). cbn. rewrite lookup_delete.
      destruct (decide (k = k')) as [->|Hne]; naive_solver.
  - unfold entries. cbn [m_list m_map]. rewrite <- entries_filter.
    apply entries_ext. intros n' k' [Hne _]%list_elem_of_filter. cbn in Hne. by rewrite lookup_delete_ne.
Qed.

(** The cache with a key in front. *)
Definition with_front (c : lru_cache) (k : K) (v : T) : lru_cache :=
  {| m_capacity := m_capacity c; m_map := <[k := (v, m_next c)]> (m_map c); m_list := (m_next c, k) :: m_list c; m_next := S (m_next c) |}.

Lemma with_front_ok c k v : lru_ok c -> m_map c !! k = None ->
  lru_ok (with_front c k v) /\ entries (with_front c k v) = (k, v) :: entries c.
Proof.
  intros Hok Hk.
  assert (Hfresh : forall k', (m_next c, k') ∉ m_list c) by (intros k' Hin; apply (ok_fresh c Hok) in Hin; lia).
  assert (Hnk : forall n, (n, k) ∉ m_list c) by (intros n Hin; apply (ok_map c Hok) in Hin as [? ?]; congruence).
  split.
  - split; cbn [with_front m_list m_map m_next].
    + cbn. apply NoDup_cons. split; [|apply (ok_nodes c Hok)].
      intros ([n x] & Hx & Hin)%list_elem_of_fmap_1. cbn in Hx. subst. by apply (Hfresh x).
    + cbn. apply NoDup_cons. split; [|apply (ok_keys c Hok)].
      intros ([n x] & Hx & Hin)%list_elem_of_fmap_1. cbn in Hx. subst. by apply (Hnk n).
    + intros n x [[= -> ->]|Hin]%elem_of_cons; [lia|]. apply (ok_fresh c Hok) in Hin. lia.
    + intros n x. rewrite elem_of_cons, (ok_map c Hok), lookup_insert.
      destruct (decide (k = x)) as [<-|Hne]; [|naive_solver]. split.
      * intros [[= ->]|[v' Hv']]; [eauto|congruence].
      * intros [v' [= <- <-]]. by left.
  - unfold entries, with_front. cbn [m_list m_map].
    rewrite (omap_entry _ _ k v (m_next c)) by apply lookup_insert_eq. f_equal. apply entries_ext.
    intros n k' Hin. rewrite lookup_insert_ne; [done|]. intros <-. by apply (Hnk n).
Qed.

(** ** [get] *)

Lemma set_node_fresh l n k : (forall x, (n, x) ∉ l) -> set_node l n k = l.
Proof.
  intros Hn. unfold set_node. rewrite <- (list_fmap_id l) at 2. apply list_fmap_ext. intros i [m x] Hi. cbn.
  destruct (decide (m = n)) as [->|]; [|done]. destruct (Hn x). by apply (list_elem_of_lookup_2 l i).
Qed.

Lemma set_node_cons l n x k : set_node ((n, x) :: l) n k = (n, k) :: set_node l n k.
Proof. unfold set_node. rewrite fmap_cons. cbn [fst]. by rewrite decide_True. Qed.

Lemma erase_set_node l n k : erase_node (set_node l n k) n = erase_node l n.
Proof.
  unfold erase_node, set_node. induction l as [|[m x] l IH]; [done|]. rewrite fmap_cons, !filter_cons. cbn [fst].
  destruct (decide (m = n)) as [->|Hne]; cbn [fst]; rewrite IH; [|done].
  by rewrite !decide_False by naive_solver.
Qed.

Lemma erase_node_cons l m x n : m <> n -> erase_node ((m, x) :: l) n = (m, x) :: erase_node l n.
Proof. intros Hne. unfold erase_node. rewrite filter_cons. cbn [fst]. by rewrite decide_True. Qed.

Lemma node_key_in c n k : lru_ok c -> (n, k) ∈ m_list c -> node_key (m_list c) n = Some k.
Proof.
  intros Hok Hin. pose proof (fun k' => node_unique c n k k' Hok Hin) as Hu. revert Hin Hu.
  induction (m_list c) as [|[m x] l IH]; intros Hin Hu; [set_solver|]. cbn [node_key].
  destruct (decide (m = n)) as [->|Hne]; [f_equal; symmetry; apply Hu; set_solver|].
  apply IH; set_solver.
Qed.

(** A key that is not in front moves there, and nothing else changes. *)
Lemma get_moves c k v n : lru_ok c -> m_map c !! k = Some (v, n) -> fst <$> head (m_list c) <> Some n ->
  get c k = (Some v, with_front (without c k n) k v).
Proof.
  intros Hok Hk Hhead. assert (Hin : (n, k) ∈ m_list c) by (apply (ok_map c Hok); eauto).
  assert (Hfresh : forall x, (m_next c, x) ∉ m_list c) by (intros x Hx; apply (ok_fresh c Hok) in Hx; lia).
  assert (Hne : m_next c <> n) by (intros <-; by apply (Hfresh k)).
  unfold get. rewrite Hk, bool_decide_eq_false_2 by done. cbn [node_key]. rewrite decide_False by done.
  rewrite (node_key_in c n k) by done. cbn [default]. unfold with_front, without. cbn [m_next m_capacity m_map m_list].
  rewrite erase_set_node, set_node_cons, (set_node_fresh (m_list c)), erase_node_cons by done.
  by rewrite insert_delete_eq.
Qed.

(** A key in front is the first entry. *)
Lemma front_entry c k v n : lru_ok c -> m_map c !! k = Some (v, n) -> fst <$> head (m_list c) = Some n ->
  entries c = (k, v) :: spec_remove (entries c) k.
Proof.
  intros Hok Hk Hhead. assert (Hin : (n, k) ∈ m_list c) by (apply (ok_map c Hok); eauto).
  pose proof (fun k' => node_unique c n k k' Hok Hin) as Hu. unfold entries. rewrite <- entries_filter.
  pose proof (ok_keys c Hok) as Hnd. destruct (m_list c) as [|[m x] l]; [done|]. injection Hhead as ->.
  assert (x = k) as -> by (symmetry; apply Hu; set_solver).
  rewrite filter_cons. cbn [snd]. rewrite decide_False by naive_solver. rewrite (omap_entry _ _ k v n) by done. do 2 f_equal.
  cbn in Hnd. apply NoDup_cons in Hnd as [Hnk _].
  assert (Hall : forall p, p ∈ l -> p.2 <> k) by (intros p Hp <-; by apply Hnk, (list_elem_of_fmap_2 snd)).
  clear -Hall. induction l as [|p l IH]; [done|]. rewrite filter_cons, decide_True by (apply Hall; set_solver).
  f_equal. apply IH. set_solver.
Qed.

Lemma get_ok c k : lru_ok c ->
  lru_ok (get c k).2 /\ (get c k).1 = (spec_get (entries c) k).1 /\ entries (get c k).2 = (spec_get (entries c) k).2.
Proof.
  intros Hok. unfold spec_get. rewrite lookup_entries by done. destruct (m_map c !! k) as [[v n]|] eqn:Hk; cbn.
  2:{ unfold get. rewrite Hk. done. }
  destruct (decide (fst <$> head (m_list c) = Some n)) as [Hh|Hh].
  - unfold get. rewrite Hk, bool_decide_eq_true_2 by done. cbn. split; [done|]. split; [done|]. by apply (front_entry c k v n).
  - rewrite (get_moves c k v n) by done. cbn [fst snd]. destruct (without_ok c k v n Hok Hk) as [Hok' He].
    destruct (with_front_ok (without c k n) k v Hok') as [Hok'' He''].
    { cbn. apply lookup_delete_eq. }
    rewrite He'', He. done.
Qed.

(** ** [evict], [emplace], [erase] *)

Lemma evict_scan_app w m l1 l2 : evict_scan w m (l1 ++ l2) =
  match evict_scan w m l1 with Ok None => evict_scan w m l2 | r => r end.
Proof.
  induction l1 as [|[n k] l1 IH]; [done|]. cbn. destruct (m !! k) as [[v it]|]; [|done].
  destruct (can_evict w k v); [done|exact IH].
Qed.

(** The pass from the end of the list finds the least recently used evictable
    entry. *)
Lemma evict_scan_victim w m l : (forall n k, (n, k) ∈ l -> is_Some (m !! k)) ->
  match spec_victim w (omap (entry m) l) with
  | None => evict_scan w m (reverse l) = Ok None
  | Some (k, v) => exists it, evict_scan w m (reverse l) = Ok (Some (k, v, it)) /\ m !! k = Some (v, it)
  end.
Proof.
  induction l as [|[n k] l IH]; intros Hm; [done|]. rewrite reverse_cons, evict_scan_app.
  specialize (IH ltac:(intros n' k' Hin; apply (Hm n'); set_solver)).
  destruct (Hm n k ltac:(set_solver)) as [[v it] Hk].
  rewrite (omap_entry m n k v it) by done. cbn [spec_victim].
  destruct (spec_victim w (omap (entry m) l)) as [[k' v']|].
  - destruct IH as (it' & -> & Hk'). by exists it'.
  - rewrite IH. cbn. rewrite Hk. destruct (can_evict w k v); [by exists it|done].
Qed.

(** Two runs correspond: the same exceptions, and states in the relation. *)
Definition same_run {A B} (R : A -> B -> Prop) (c : outcome LruError A) (d : outcome LruError B) : Prop :=
  match c, d with
  | Ok a, Ok b => R a b
  | Throw e, Throw e' => e = e'
  | Undef u, Undef u' => u = u'
  | _, _ => False
  end.

Definition state_rel (capacity : nat) (x : W * lru_cache) (y : W * list (K * T)) : Prop :=
  x.1 = y.1 /\ lru_ok x.2 /\ m_capacity x.2 = capacity /\ entries x.2 = y.2.

Lemma in_map c n k : lru_ok c -> (n, k) ∈ m_list c -> is_Some (m_map c !! k).
Proof. intros Hok Hin. apply (ok_map c Hok) in Hin as [v Hv]. eauto. Qed.

Lemma evict_ok fuel c : lru_ok c -> forall w, same_run (state_rel (m_capacity c)) (evict fuel w c) (spec_evict fuel w (entries c)).
Proof.
  intros Hok. induction fuel as [|fuel IH]; intros w; cbn [evict spec_evict];
    pose proof (evict_scan_victim w (m_map c) (m_list c) (fun n k => in_map c n k Hok)) as Hscan; fold (entries c) in Hscan;
    (destruct (spec_victim w (entries c)) as [[k v]|];
     [destruct Hscan as (it & -> & Hk); cbn [bind]; destruct (on_evict w k v false) as [w'|e|u]; cbn [bind same_run]; try done;
      destruct (without_ok c k v it Hok Hk) as [Hok' He]; split; [done|]; split; [exact Hok'|]; split; [done|exact He]
     |rewrite Hscan; cbn [bind]; destruct (on_last_chance_cleanup w) as [[[] w']|e|u]; cbn [bind same_run]; try done]).
Qed.

Lemma entries_length c : lru_ok c -> length (entries c) = length (m_list c).
Proof.
  intros Hok. unfold entries. pose proof (fun n k => in_map c n k Hok) as Hin. revert Hin.
  induction (m_list c) as [|[n k] l IH]; intros Hin; [done|].
  destruct (Hin n k ltac:(set_solver)) as [[v it] Hk].
  rewrite (omap_entry _ n k v it) by done. cbn [length]. f_equal. apply IH. intros n' k' Hx. apply (Hin n'). set_solver.
Qed.

Lemma map_dom c : lru_ok c -> dom (m_map c) = list_to_set (C := gset K) (m_list c).*2.
Proof.
  intros Hok. apply set_eq. intros k. rewrite elem_of_dom, elem_of_list_to_set, list_elem_of_fmap. split.
  - intros [[v n] Hk]. exists (n, k). split; [done|]. apply (ok_map c Hok). eauto.
  - intros ([n k'] & -> & Hin). by apply (in_map c n).
Qed.

Lemma size_entries c : lru_ok c -> lru_size c = length (entries c).
Proof.
  intros Hok. rewrite entries_length by done. unfold lru_size. rewrite <- size_dom, map_dom by done.
  rewrite size_list_to_set by apply (ok_keys c Hok). by rewrite length_fmap.
Qed.

(** A new value under an existing key. *)
Definition replaced (c : lru_cache) (k : K) (v : T) (n : nat) : lru_cache :=
  {| m_capacity := m_capacity c; m_map := <[k := (v, n)]> (m_map c); m_list := m_list c; m_next := m_next c |}.

Lemma replaced_ok c k v v' n : lru_ok c -> m_map c !! k = Some (v', n) ->
  lru_ok (replaced c k v n) /\ entries (replaced c k v n) = spec_replace (entries c) k v.
Proof.
  intros Hok Hk. split.
  - split; cbn [replaced m_list m_map m_next]; try apply Hok.
    intros n' k'. rewrite (ok_map c Hok), lookup_insert. destruct (decide (k = k')) as [<-|Hne]; naive_solver.
  - unfold entries, replaced, spec_replace. cbn [m_list m_map]. unfold entry.
    induction (m_list c) as [|[m x] l IH]; [done|]. simpl. destruct (decide (x = k)) as [->|Hne].
    + rewrite lookup_insert_eq, Hk. simpl. rewrite decide_True by done. by f_equal.
    + rewrite lookup_insert_ne by done. destruct (m_map c !! x) as [[v'' i]|]; [|exact IH]. simpl.
      rewrite decide_False by done. by f_equal.
Qed.

Lemma remove_absent (l : list (K * T)) k : spec_lookup l k = None -> spec_remove l k = l.
Proof.
  unfold spec_remove. induction l as [|[x v] l IH]; [done|]. cbn. case_decide; [done|].
  intros Hl. rewrite filter_cons, decide_True by done. by rewrite IH.
Qed.

Lemma lookup_remove (l : list (K * T)) k k' : spec_lookup l k = None -> spec_lookup (spec_remove l k') k = None.
Proof.
  unfold spec_remove. induction l as [|[x v] l IH]; [done|]. cbn. case_decide as E; [done|]. intros Hl.
  rewrite filter_cons. case_decide; [cbn; rewrite decide_False by done|]; auto.
Qed.

Lemma spec_lookup_remove (l : list (K * T)) k k' :
  spec_lookup (spec_remove l k) k' = if decide (k' = k) then None else spec_lookup l k'.
Proof.
  unfold spec_remove. induction l as [|[x v] l IH]; cbn; [by case_decide|]. rewrite filter_cons. cbn [fst].
  destruct (decide (x ≠ k)) as [Hx|Hx]; cbn; rewrite IH; repeat case_decide; naive_solver.
Qed.

(** A hit leaves the entries as they are, apart from their order. *)
Lemma spec_get_lookup (l : list (K * T)) k k' : spec_lookup (spec_get l k).2 k' = spec_lookup l k'.
Proof.
  unfold spec_get. destruct (spec_lookup l k) as [v|] eqn:E; [|done]. cbn. rewrite spec_lookup_remove.
  repeat case_decide; naive_solver.
Qed.

Lemma victim_in w (l : list (K * T)) e : spec_victim w l = Some e -> e ∈ l /\ can_evict w e.1 e.2 = true.
Proof.
  induction l as [|x l IH]; [done|]. cbn. destruct (spec_victim w l) as [y|].
  - intros [= <-]. destruct (IH eq_refl). split; [set_solver|done].
  - destruct (can_evict w x.1 x.2) eqn:E; [|done]. intros [= <-]. split; [set_solver|done].
Qed.

Lemma remove_shorter (l : list (K * T)) k v : (k, v) ∈ l -> length (spec_remove l k) < length l.
Proof.
  unfold spec_remove. intros Hin. induction l as [|[x y] l IH]; [set_solver|]. rewrite filter_cons. cbn [fst].
  pose proof (length_filter (fun e : K * T => e.1 ≠ k) l).
  case_decide as E; cbn [length]; [|lia]. apply elem_of_cons in Hin as [[= <- <-]|Hin]; [done|]. specialize (IH Hin). lia.
Qed.

(** Eviction removes one entry. *)
Lemma spec_evict_removes fuel : forall w (l : list (K * T)) w' l', spec_evict fuel w l = Ok (w', l') ->
  exists w0 k v, spec_victim w0 l = Some (k, v) /\ l' = spec_remove l k.
Proof.
  induction fuel as [|fuel IH]; intros w l w' l'; cbn [spec_evict]; destruct (spec_victim w l) as [[k v]|] eqn:Hv.
  1, 3: intros (x & _ & [= _ <-])%bind_Ok; by exists w, k, v.
  - intros ([[] x] & _ & Hx)%bind_Ok; done.
  - intros ([[] x] & _ & Hx)%bind_Ok; [by apply (IH x l w' l')|done].
Qed.

(** [emplace] on both sides, from corresponding states. *)
Lemma emplace_ok fuel w c k v r : lru_ok c ->
  same_run (fun x y => x.1.1 = y.1.1 /\ state_rel (m_capacity c) (x.1.2, x.2) (y.1.2, y.2))
    (emplace fuel w c k v r) (spec_emplace fuel (m_capacity c) w (entries c) k v r).
Proof.
  intros Hok. unfold emplace, spec_emplace. rewrite lookup_entries, size_entries by done.
  destruct (m_map c !! k) as [[v' n]|] eqn:Hk; cbn [fmap option_fmap option_map fst].
  - destruct r; cbn; [|by split].
    destruct (replaced_ok c k v v' n Hok Hk) as [Hok' He]. split; [done|]. split; [done|]. split; [exact Hok'|]. by split.
  - assert (Hput : forall w' c', lru_ok c' -> m_capacity c' = m_capacity c -> m_map c' !! k = None ->
      state_rel (m_capacity c) (w', with_front c' k v) (w', (k, v) :: entries c')).
    { intros w' c' Hok' Hcap Hk'. destruct (with_front_ok c' k v Hok' Hk') as [Hok'' He].
      split; [done|]. split; [exact Hok''|]. by split. }
    destruct (decide (m_capacity c ≤ length (entries c))); [|split; [done|by apply Hput]].
    pose proof (evict_ok fuel c Hok w) as Hev. pose proof (spec_evict_removes fuel w (entries c)) as Hrem.
    destruct (evict fuel w c) as [[w1 c1]|e|u], (spec_evict fuel w (entries c)) as [[w2 l2]|e'|u']; cbn in Hev; try done.
    destruct Hev as (Hw & Hok1 & Hcap & He). cbn in Hw, Hok1, Hcap, He. subst w2 l2. cbn [bind]. split; [done|].
    apply Hput; [done|done|]. destruct (Hrem w1 (entries c1) eq_refl) as (w0 & k0 & v0 & _ & Hl).
    assert (Hnone : spec_lookup (entries c1) k = None).
    { rewrite Hl. apply lookup_remove. rewrite lookup_entries by done. by rewrite Hk. }
    rewrite lookup_entries in Hnone by done. by destruct (m_map c1 !! k).
Qed.

Lemma erase_ok c k : lru_ok c ->
  lru_ok (erase c k).2 /\ (erase c k).1 = (spec_erase (entries c) k).1 /\ entries (erase c k).2 = (spec_erase (entries c) k).2.
Proof.
  intros Hok. unfold erase, spec_erase. cbn [fst snd]. rewrite lookup_entries by done.
  destruct (m_map c !! k) as [[v n]|] eqn:Hk; cbn [fst snd].
  - destruct (without_ok c k v n Hok Hk) as [Hok' He]. split; [exact Hok'|]. split; [done|exact He].
  - split; [done|]. split; [done|]. rewrite remove_absent; [done|]. rewrite lookup_entries by done. by rewrite Hk.
Qed.

Lemma empty_ok capacity n : lru_ok {| m_capacity := capacity; m_map := ∅; m_list := []; m_next := n |}.
Proof.
  split; cbn [m_list m_map m_next]; [constructor|constructor|set_solver|].
  intros n' k. rewrite lookup_empty. split; [set_solver|]. by intros [? ?].
Qed.

(** [clear] is [noexcept]: whatever the hooks do, it leaves an empty cache. *)
Definition hook_undef : Prop := exists w k v u, on_evict w k v true = Undef u.

Lemma clear_hooks_ok l : forall acc, (match acc with Ok _ => True | Throw _ => False | Undef _ => hook_undef end) ->
  match foldl clear_hook acc l with Ok _ => True | Throw _ => False | Undef _ => hook_undef end.
Proof.
  induction l as [|[k [v n]] l IH]; intros acc Hacc; cbn [foldl]; [exact Hacc|]. apply IH.
  destruct acc as [w|e|u]; cbn; try done. destruct (on_evict w k v true) eqn:E; try done. unfold hook_undef. eauto.
Qed.

Lemma clear_ok w c :
  match clear w c with
  | Ok (_, c') => lru_ok c' /\ entries c' = [] /\ m_capacity c' = m_capacity c
  | Throw _ => False
  | Undef _ => hook_undef
  end.
Proof.
  unfold clear, clear_hooks. pose proof (clear_hooks_ok (map_to_list (m_map c)) (Ok w) I) as Hh.
  destruct (foldl _ _ _); cbn [bind]; [|exact Hh..]. split; [apply empty_ok|]. done.
Qed.

(** ** Sequences of operations *)

Inductive lru_op : Type :=
| OpGet (k : K) | OpEmplace (k : K) (v : T) (replace : bool) | OpErase (k : K) | OpExtend (capacity : nat).

Inductive lru_result : Type := RValue (v : option T) | RBool (b : bool) | RNone.

Definition run_op (fuel : nat) (w : W) (c : lru_cache) (op : lru_op) : outcome LruError (lru_result * (W * lru_cache)) :=
  match op with
  | OpGet k => let '(v, c) := get c k in Ok (RValue v, (w, c))
  | OpEmplace k v r => '(b, w, c) <- emplace fuel w c k v r ;; Ok (RBool b, (w, c))
  | OpErase k => let '(b, c) := erase c k in Ok (RBool b, (w, c))
  | OpExtend n => Ok (RNone, (w, extend c n))
  end.

Fixpoint run_ops (fuel : nat) (w : W) (c : lru_cache) (ops : list lru_op) : outcome LruError (list lru_result * (W * lru_cache)) :=
  match ops with
  | [] => Ok ([], (w, c))
  | op :: ops =>
      '(r, (w, c)) <- run_op fuel w c op ;;
      '(rs, s) <- run_ops fuel w c ops ;;
      Ok (r :: rs, s)
  end.

(** The same on recency lists. *)
Definition spec_op (fuel capacity : nat) (w : W) (l : list (K * T)) (op : lru_op)
  : outcome LruError (lru_result * (nat * W * list (K * T))) :=
  match op with
  | OpGet k => let '(v, l) := spec_get l k in Ok (RValue v, (capacity, w, l))
  | OpEmplace k v r => '(b, w, l) <- spec_emplace fuel capacity w l k v r ;; Ok (RBool b, (capacity, w, l))
  | OpErase k => let '(b, l) := spec_erase l k in Ok (RBool b, (capacity, w, l))
  | OpExtend n => Ok (RNone, (Nat.max capacity n, w, l))
  end.

Fixpoint spec_ops (fuel capacity : nat) (w : W) (l : list (K * T)) (ops : list lru_op)
  : outcome LruError (list lru_result * (nat * W * list (K * T))) :=
  match ops with
  | [] => Ok ([], (capacity, w, l))
  | op :: ops =>
      '(r, (capacity, w, l)) <- spec_op fuel capacity w l op ;;
      '(rs, s) <- spec_ops fuel capacity w l ops ;;
      Ok (r :: rs, s)
  end.

(** A cache that implements a recency list within its capacity. *)
Definition implements (x : W * lru_cache) (y : nat * W * list (K * T)) : Prop :=
  lru_ok x.2 /\ x.1 = y.1.2 /\ m_capacity x.2 = y.1.1 /\ entries x.2 = y.2 /\ length y.2 <= y.1.1.

Lemma length_remove (l : list (K * T)) k : length (spec_remove l k) <= length l.
Proof. apply length_filter. Qed.

Lemma lookup_in (l : list (K * T)) k v : spec_lookup l k = Some v -> (k, v) ∈ l.
Proof. induction l as [|[x y] l IH]; [done|]. cbn. case_decide; [intros [= <-]; subst; set_solver|set_solver]. Qed.

Lemma spec_get_length (l : list (K * T)) k : length (spec_get l k).2 <= length l.
Proof.
  unfold spec_get. destruct (spec_lookup l k) as [v|] eqn:E; [|done]. cbn.
  apply lookup_in in E. apply remove_shorter in E. lia.
Qed.

Lemma spec_emplace_length fuel capacity w (l : list (K * T)) k v r b w' l' : length l <= capacity ->
  spec_emplace fuel capacity w l k v r = Ok (b, w', l') -> length l' <= capacity.
Proof.
  intros Hl. unfold spec_emplace. destruct (spec_lookup l k).
  - intros [= _ _ <-]. destruct r; [|done]. unfold spec_replace. by rewrite length_fmap.
  - intros ([w1 l1] & H1 & [= _ _ <-])%bind_Ok. cbn. case_decide; [|injection H1 as _ <-; lia].
    apply spec_evict_removes in H1 as (w0 & k0 & v0 & Hv%victim_in & ->). destruct Hv as [Hin _].
    apply remove_shorter in Hin. lia.
Qed.

Lemma run_op_ok fuel w c op cap l : implements (w, c) (cap, w, l) ->
  same_run (fun x y => x.1 = y.1 /\ implements x.2 y.2) (run_op fuel w c op) (spec_op fuel cap w l op).
Proof.
  intros (Hok & _ & Hcap & He & Hlen). cbn in Hok, Hcap, He, Hlen. subst cap l.
  destruct op as [k|k v r|k|n]; cbn [run_op spec_op].
  - destruct (get_ok c k Hok) as (Hok' & Hr & He'). pose proof (spec_get_length (entries c) k).
    assert (Hc : m_capacity (get c k).2 = m_capacity c)
      by (unfold get; destruct (m_map c !! k) as [[v n]|]; [case_match|]; done).
    destruct (get c k) as [v c'], (spec_get (entries c) k) as [v' l']; cbn in *. subst.
    split; [done|]. split; [done|]. cbn. repeat split; try done. lia.
  - pose proof (emplace_ok fuel w c k v r Hok) as H1. pose proof (spec_emplace_length fuel (m_capacity c) w (entries c) k v r) as H2.
    destruct (emplace fuel w c k v r) as [[[b w1] c1]|e|u], (spec_emplace fuel _ w (entries c) k v r) as [[[b' w2] l2]|e'|u'];
      cbn in H1; try done. destruct H1 as (Hb & Hw & Hok' & Hc & He'). cbn in Hb, Hw, Hok', Hc, He'. subst.
    cbn. split; [done|]. split; [done|]. cbn. repeat split; try done. by eapply H2.
  - destruct (erase_ok c k Hok) as (Hok' & Hr & He'). pose proof (length_remove (entries c) k).
    assert (Hc : m_capacity (erase c k).2 = m_capacity c)
      by (unfold erase; destruct (m_map c !! k) as [[v n]|]; done).
    destruct (erase c k) as [b c']. cbn in *. subst. split; [done|]. split; [done|]. cbn. repeat split; try done. lia.
  - cbn. split; [done|]. unfold extend, implements. case_decide; cbn; repeat split; try done; try apply Hok; lia.
Qed.

Lemma run_ops_ok fuel ops : forall w c cap l, implements (w, c) (cap, w, l) ->
  same_run (fun x y => x.1 = y.1 /\ implements x.2 y.2) (run_ops fuel w c ops) (spec_ops fuel cap w l ops).
Proof.
  induction ops as [|op ops IH]; intros w c cap l Hi; cbn [run_ops spec_ops]; [by split|].
  pose proof (run_op_ok fuel w c op cap l Hi) as Hop.
  destruct (run_op fuel w c op) as [[r [w1 c1]]|e|u], (spec_op fuel cap w l op) as [[r' [[cap2 w2] l2]]|e'|u']; cbn in Hop; try done.
  destruct Hop as [<- Hi']. cbn [bind]. pose proof Hi' as (_ & Hw & _). cbn in Hw. subst w2.
  specialize (IH w1 c1 cap2 l2 Hi').
  destruct (run_ops fuel w1 c1 ops) as [[rs s]|e|u], (spec_ops fuel cap2 w1 l2 ops) as [[rs' s']|e'|u']; cbn in IH |- *; try done.
  destruct IH as [-> IH]. by split.
Qed.

(** C39: every sequence of operations on a cache that starts empty gives the
    results, and the exceptions, that the same operations give on a list of
    entries ordered by recency: a hit moves the entry to the front, an insertion
    beyond the capacity first drops the least recently used entry that may be
    evicted, and the cache never holds more entries than its capacity.  The map
    and the list of the code stay consistent. *)
Theorem lru_refines fuel capacity w ops :
  same_run (fun x y => x.1 = y.1 /\ implements x.2 y.2)
    (run_ops fuel w (empty_cache capacity) ops) (spec_ops fuel capacity w [] ops).
Proof.
  apply run_ops_ok. split; [apply empty_ok|]. repeat split; cbn; try done. lia.
Qed.
End Cache.

(** ** The block cache

    [ColumnDataBlockCache] and [ColumnDefinitionCache]: an entry may be evicted
    when nobody else holds the object; [W] gives the reference counts. *)

#[export] Instance shared_ptr_hooks {K T} : LruHooks (T -> nat) K T := {
  can_evict w _ v := Nat.eqb (w v) 1;
  on_evict w _ _ _ := Ok w;
  on_last_chance_cleanup w := Ok (false, w)
}.

(** With two objects in a cache of capacity two, the first of them in use, a
    third one displaces the second although the first is older. *)
Example block_cache_run :
  (let use_count := fun v => if Nat.eqb v 10 then 2 else 1 in
   match run_ops (K := nat) (T := nat) (W := nat -> nat) 7 0 use_count (empty_cache 2)
     [OpEmplace 1 10 false; OpEmplace 2 20 false; OpEmplace 3 30 false; OpGet 2; OpGet 1] with
   | Ok (results, (_, cache)) => (results, entries cache)
   | _ => ([], [])
   end) =
  ([RBool true; RBool true; RBool true; RValue None; RValue (Some 10)], [(1, 10); (3, 30)]).
Proof. vm_compute. reflexivity. Qed.
