(* ===== verification/StateM.v ===== *)
(** * Stateful code with exceptions

    A computation takes a state to an outcome and a state: the state stays what
    it was when an exception was thrown.  [wp] is the weakest precondition that
    the storage components are verified with: it excludes undefined behaviour and
    has one postcondition for a normal end and one for exceptions. *)

From stdpp Require Import base list.
Set Warnings "-clear-no-such-hyp,-notation-incompatible-prefix,-notation-for-abbreviation".
From Stdlib Require Import ZArith Lia.
From S2P Require Import Prelude.

Definition SM (S E A : Type) : Type := S -> outcome E A * S.

Section Monad.
Context {S E : Type}.

Definition mret {A} (a : A) : SM S E A := fun s => (Ok a, s).
Definition mthrow {A} (e : E) : SM S E A := fun s => (Throw e, s).
Definition mbind {A B} (c : SM S E A) (k : A -> SM S E B) : SM S E B := fun s =>
  match c s with
  | (Ok a, s') => k a s'
  | (Throw e, s') => (Throw e, s')
  | (Undef u, s') => (Undef u, s')
  end.
Definition mlift {A} (o : outcome E A) : SM S E A := fun s => (o, s).
Definition gets {A} (f : S -> A) : SM S E A := fun s => (Ok (f s), s).
Definition modify (f : S -> S) : SM S E unit := fun s => (Ok tt, f s).

(** A call of a component whose state is part of this one. *)
Definition embed {S1 E1 A} (get : S -> S1) (set : S1 -> S -> S) (err : E1 -> E) (c : SM S1 E1 A) : SM S E A := fun s =>
  let '(o, s1) := c (get s) in
  (match o with Ok a => Ok a | Throw e => Throw (err e) | Undef u => Undef u end, set s1 s).

(** ** Weakest preconditions *)

Definition wp {A} (c : SM S E A) (s : S) (Q : A -> S -> Prop) (T : E -> S -> Prop) : Prop :=
  match c s with
  | (Ok a, s') => Q a s'
  | (Throw e, s') => T e s'
  | (Undef _, _) => False
  end.

Lemma wp_bind {A B} (c : SM S E A) (k : A -> SM S E B) s Q T : wp c s (fun a s' => wp (k a) s' Q T) T -> wp (mbind c k) s Q T.
Proof. unfold wp, mbind. destruct (c s) as [[a|e|u] s']; auto. Qed.

Lemma wp_ret {A} (a : A) s (Q : A -> S -> Prop) T : Q a s -> wp (mret a) s Q T.
Proof. done. Qed.

Lemma wp_gets {A} (f : S -> A) s (Q : A -> S -> Prop) T : Q (f s) s -> wp (gets f) s Q T.
Proof. done. Qed.

Lemma wp_modify f s (Q : unit -> S -> Prop) T : Q tt (f s) -> wp (modify f) s Q T.
Proof. done. Qed.

Lemma wp_lift {A} (o : outcome E A) a s (Q : A -> S -> Prop) T : o = Ok a -> Q a s -> wp (mlift o) s Q T.
Proof. intros -> HQ. exact HQ. Qed.

Lemma wp_throw {A} e s (Q : A -> S -> Prop) (T : E -> S -> Prop) : T e s -> wp (mthrow e) s Q T.
Proof. done. Qed.

Lemma wp_run {A} (c : SM S E A) s a s' (Q : A -> S -> Prop) T : c s = (Ok a, s') -> Q a s' -> wp c s Q T.
Proof. unfold wp. by intros ->. Qed.

Lemma wp_mono {A} (c : SM S E A) s (Q Q' : A -> S -> Prop) (T T' : E -> S -> Prop) :
  wp c s Q T -> (forall a s', Q a s' -> Q' a s') -> (forall e s', T e s' -> T' e s') -> wp c s Q' T'.
Proof. unfold wp. destruct (c s) as [[a|e|u] s']; auto. Qed.

(** A computation that cannot throw ends with a result. *)
Lemma wp_total {A} (c : SM S E A) s Q : wp c s Q (fun _ _ => False) -> exists a s', c s = (Ok a, s') /\ Q a s'.
Proof. unfold wp. destruct (c s) as [[a|e|u] s']; [eauto|done|done]. Qed.

Lemma wp_embed {S1 E1 A} (get : S -> S1) (set : S1 -> S -> S) (err : E1 -> E) (c : SM S1 E1 A) s Q T :
  match c (get s) with
  | (Ok a, s1) => Q a (set s1 s)
  | (Throw e, s1) => T (err e) (set s1 s)
  | (Undef _, _) => False
  end -> wp (embed get set err c) s Q T.
Proof. unfold wp, embed. destruct (c (get s)) as [[a|e|u] s1]; auto. Qed.
End Monad.

Notation "x <-- c ;; k" := (mbind c (fun x => k)) (at level 100, c at next level, right associativity) : siodb_scope.
Notation "' pat <-- c ;; k" := (mbind c (fun pat => k)) (at level 100, pat pattern, c at next level, right associativity) : siodb_scope.
Notation "c ;;' k" := (mbind c (fun _ => k)) (at level 100, right associativity) : siodb_scope.

(** The computations that have rules of their own. *)
Ltac wp_step := first [apply wp_bind; apply wp_gets | apply wp_bind; apply wp_ret | apply wp_bind; apply wp_modify].

(** ** Running computations *)

Lemma mbind_ok {S E X Y} (c : SM S E X) (k : X -> SM S E Y) s a s' : c s = (Ok a, s') -> mbind c k s = k a s'.
Proof. unfold mbind. by intros ->. Qed.

Lemma mbind_gets {S E X Y} (f : S -> X) (k : X -> SM S E Y) s : mbind (gets f) k s = k (f s) s.
Proof. done. Qed.
Lemma mbind_ret {S E X Y} (a : X) (k : X -> SM S E Y) s : mbind (mret a) k s = k a s.
Proof. done. Qed.
Lemma mbind_modify {S E Y} (f : S -> S) (k : unit -> SM S E Y) s : mbind (modify f) k s = k tt (f s).
Proof. done. Qed.

(** Goes over a step that ends with a result. *)
Ltac run_step H := rewrite (mbind_ok _ _ _ _ _ H).
