(* ===== verification/Bytes.v ===== *)
(** * Parts of byte buffers

    Reading and storing pieces of buffers and files. *)

From stdpp Require Import base list.
Set Warnings "-clear-no-such-hyp,-notation-incompatible-prefix,-notation-for-abbreviation".
From Stdlib Require Import ZArith Lia.
From S2P Require Import Prelude.

Local Open Scope Z_scope.

(** Bytes stored at an offset of a file or buffer. *)
Definition overwrite (l : list Z) (i : Z) (b : list Z) : list Z :=
  take (Z.to_nat i) l ++ b ++ drop (Z.to_nat (i + len b)) l.

(** How many of [n] bytes can be written, and the room after that. *)
Definition writable (r : option Z) (n : Z) : Z := match r with None => n | Some k => Z.max 0 (Z.min k n) end.
Definition consume (r : option Z) (n : Z) : option Z := match r with None => None | Some k => Some (k - n) end.

(** [n] bytes from an offset. *)
Definition sub (l : list Z) (i n : Z) : list Z := take (Z.to_nat n) (drop (Z.to_nat i) l).

Lemma overwrite_lookup l i b j : 0 <= i -> i + len b <= len l ->
  overwrite l i b !! j = if decide (i <= Z.of_nat j < i + len b) then b !! (j - Z.to_nat i)%nat else l !! j.
Proof.
  intros Hi Hl. unfold overwrite, len in *. assert (Ht : length (take (Z.to_nat i) l) = Z.to_nat i) by (rewrite length_take; lia).
  destruct (decide (Z.of_nat j < i)) as [Hj|Hj].
  - rewrite decide_False by lia. rewrite lookup_app_l by (rewrite Ht; lia). apply lookup_take_lt. lia.
  - rewrite lookup_app_r by (rewrite Ht; lia). rewrite Ht. case_decide as Hj'.
    + apply lookup_app_l. lia.
    + rewrite lookup_app_r by lia. rewrite lookup_drop. f_equal. lia.
Qed.

Lemma overwrite_len l i b : 0 <= i -> i + len b <= len l -> len (overwrite l i b) = len l.
Proof. intros Hi Hl. unfold overwrite, len in *. rewrite !length_app, length_take, length_drop. lia. Qed.

Lemma sub_lookup l i n (j : nat) : sub l i n !! j = if decide (Z.of_nat j < n) then l !! (Z.to_nat i + j)%nat else None.
Proof.
  unfold sub. rewrite lookup_take, lookup_drop. repeat case_decide; try done; lia.
Qed.

Lemma sub_overwrite_out l i b i' n : 0 <= i -> i + len b <= len l -> 0 <= i' -> i' + n <= i \/ i + len b <= i' ->
  sub (overwrite l i b) i' n = sub l i' n.
Proof.
  intros Hi Hl Hi' Hd. apply list_eq. intros j. rewrite !sub_lookup. case_decide; [|done].
  rewrite overwrite_lookup by done. rewrite decide_False by lia. done.
Qed.

Lemma sub_overwrite_in l i b n : 0 <= i -> i + len b <= len l -> n = len b -> sub (overwrite l i b) i n = b.
Proof.
  intros Hi Hl ->. apply list_eq. intros j. rewrite sub_lookup. unfold len in *. case_decide.
  - rewrite overwrite_lookup by (unfold len; lia). rewrite decide_True by (unfold len; lia). f_equal. lia.
  - symmetry. apply lookup_ge_None. lia.
Qed.

(** Bytes stored behind the first [n]. *)
Lemma overwrite_drop n l i b : 0 <= n -> 0 <= i -> i + n + len b <= len l ->
  drop (Z.to_nat n) (overwrite l (i + n) b) = overwrite (drop (Z.to_nat n) l) i b.
Proof.
  intros Hn Hi Hl. assert (Hd : i + len b <= len (drop (Z.to_nat n) l)) by (unfold len in *; rewrite length_drop; lia).
  apply list_eq. intros j. rewrite lookup_drop, !overwrite_lookup, lookup_drop by lia.
  repeat case_decide; try lia; [f_equal; lia|done].
Qed.

Lemma overwrite_take n l i b : 0 <= n -> 0 <= i -> i + n + len b <= len l ->
  take (Z.to_nat n) (overwrite l (i + n) b) = take (Z.to_nat n) l.
Proof.
  intros Hn Hi Hl. apply list_eq. intros j. rewrite !lookup_take. case_decide; [|done].
  rewrite overwrite_lookup by lia. by rewrite decide_False by lia.
Qed.

Lemma memrd_sub {E} l i n : 0 <= i -> 0 <= n -> i + n <= len l -> @memrd E l i n = Ok (sub l i n).
Proof.
  intros Hi Hn Hl. unfold memrd. rewrite (proj2 (Z.ltb_ge i 0)), (proj2 (Z.ltb_ge n 0)) by lia. cbn [orb].
  by rewrite (proj2 (Z.leb_le _ _)) by lia.
Qed.

Lemma memwr_overwrite {E} l i b : 0 <= i -> i + len b <= len l -> @memwr E l i b = Ok (overwrite l i b).
Proof. intros Hi Hl. unfold memwr. rewrite (proj2 (Z.ltb_ge i 0)), (proj2 (Z.ltb_ge _ _)) by lia. done. Qed.

Lemma nth_error_is_lookup {A} (l : list A) n : nth_error l n = l !! n.
Proof. revert n. induction l as [|x l IH]; intros [|n]; cbn; auto. Qed.

Lemma rd_lookup {E} l i b : 0 <= i -> l !! Z.to_nat i = Some b -> @rd E l i = Ok b.
Proof. intros Hi Hb. unfold rd. rewrite (proj2 (Z.ltb_ge i 0)) by lia. by rewrite nth_error_is_lookup, Hb. Qed.

(** ** Parts of parts *)

Lemma sub_sub l i n i' n' : 0 <= i -> 0 <= i' -> i' + n' <= n -> sub (sub l i n) i' n' = sub l (i + i') n'.
Proof.
  intros Hi Hi' Hn. apply list_eq. intros j. rewrite !sub_lookup. case_decide; [|done]. rewrite decide_True by lia. f_equal. lia.
Qed.

Lemma sub_split l i n m : 0 <= n -> 0 <= m -> 0 <= i -> sub l i (n + m) = sub l i n ++ sub l (i + n) m.
Proof.
  intros Hn Hm Hi. unfold sub. replace (Z.to_nat (n + m)) with (Z.to_nat n + Z.to_nat m)%nat by lia.
  rewrite <- take_take_drop. f_equal. rewrite drop_drop. do 2 f_equal. lia.
Qed.

Lemma sub_len l i n : 0 <= i -> 0 <= n -> i + n <= len l -> len (sub l i n) = n.
Proof. intros. unfold sub, len in *. rewrite length_take, length_drop. lia. Qed.

(** ** Files of records of equal size *)

Section Arrays.
Context {A : Type} (ser : A -> list Z) (k : Z) (Hser : forall a, len (ser a) = k).

Definition array (l : list A) : list Z := concat (ser <$> l).

Lemma array_app l1 l2 : array (l1 ++ l2) = array l1 ++ array l2.
Proof. unfold array. by rewrite fmap_app, concat_app. Qed.

Lemma array_len l : len (array l) = k * len l.
Proof. induction l as [|a l IH]; [unfold array, len; cbn; lia|]. change (array (a :: l)) with (ser a ++ array l). rewrite len_app, len_cons, IH, Hser. lia. Qed.

Lemma array_split l i a : 0 <= i -> l !! Z.to_nat i = Some a ->
  exists l1 l2, l = l1 ++ a :: l2 /\ len l1 = i /\ array l = array l1 ++ ser a ++ array l2 /\ len (array l1) = k * i.
Proof.
  intros Hi Ha. apply list_elem_of_split_length in Ha as (l1 & l2 & -> & Hl). exists l1, l2. split; [done|].
  assert (len l1 = i) by (unfold len; lia). split; [done|]. split; [by rewrite array_app|]. rewrite array_len. by f_equal.
Qed.

Lemma sub_app_mid l1 l2 l3 o n : 0 <= o -> 0 <= n -> o + n <= len l2 -> sub (l1 ++ l2 ++ l3) (len l1 + o) n = sub l2 o n.
Proof.
  intros Ho Hn Hl. apply list_eq. intros j. rewrite !sub_lookup. case_decide as Hj; [|done]. unfold len in *.
  rewrite lookup_app_r by lia. rewrite lookup_app_l by lia. f_equal. lia.
Qed.

Lemma overwrite_app_mid l1 l2 l3 o b : 0 <= o -> o + len b <= len l2 ->
  overwrite (l1 ++ l2 ++ l3) (len l1 + o) b = l1 ++ overwrite l2 o b ++ l3.
Proof.
  intros Ho Hl. pose proof (overwrite_len l2 o b Ho Hl) as Hlen. unfold len in *. apply list_eq. intros j.
  rewrite overwrite_lookup by (unfold len; rewrite ?length_app; lia). unfold len.
  destruct (decide (j < length l1)%nat) as [H1|H1].
  - rewrite decide_False by lia. by rewrite !lookup_app_l by lia.
  - rewrite (lookup_app_r l1 (overwrite l2 o b ++ l3)) by lia.
    destruct (decide (j - length l1 < length l2)%nat) as [H2|H2].
    + rewrite (lookup_app_l (overwrite l2 o b)) by lia. rewrite overwrite_lookup by (unfold len; lia). unfold len.
      repeat case_decide; try lia; [f_equal; lia|]. rewrite lookup_app_r by lia. by rewrite lookup_app_l by lia.
    + rewrite decide_False by lia. rewrite lookup_app_r by lia. rewrite !lookup_app_r by lia. f_equal. lia.
Qed.

Lemma array_sub l i a o n : 0 <= i -> l !! Z.to_nat i = Some a -> 0 <= o -> 0 <= n -> o + n <= k ->
  sub (array l) (k * i + o) n = sub (ser a) o n.
Proof.
  intros Hi Ha Ho Hn Hk. destruct (array_split l i a Hi Ha) as (l1 & l2 & _ & _ & -> & <-). apply sub_app_mid; [done|done|]. by rewrite Hser.
Qed.

Lemma array_overwrite l i a o b a' : 0 <= i -> l !! Z.to_nat i = Some a -> 0 <= o -> o + len b <= k ->
  ser a' = overwrite (ser a) o b -> overwrite (array l) (k * i + o) b = array (<[Z.to_nat i := a']> l).
Proof.
  intros Hi Ha Ho Hk Ha'. destruct (array_split l i a Hi Ha) as (l1 & l2 & -> & Hl1 & -> & Hlen).
  rewrite <- Hlen, overwrite_app_mid by (rewrite ?Hser; done). rewrite <- Ha'.
  replace (Z.to_nat i) with (length l1 + 0)%nat by (unfold len in Hl1; lia). rewrite insert_app_r. cbn. by rewrite array_app.
Qed.

Lemma overwrite_all l b : len b = len l -> overwrite l 0 b = b.
Proof.
  intros Hl. unfold overwrite. cbn. rewrite drop_ge by (unfold len in *; lia). apply app_nil_r.
Qed.

Lemma overwrite_end l b n : n = len l -> overwrite (l ++ repeat 0 (length b)) n b = l ++ b.
Proof.
  intros ->. pose proof (overwrite_app_mid l (repeat 0 (length b)) [] 0 b) as H. rewrite !app_nil_r, Z.add_0_r in H.
  rewrite H by (unfold len; rewrite ?repeat_length; lia). f_equal. apply overwrite_all. unfold len. by rewrite repeat_length.
Qed.
End Arrays.

(** ** Whole reads and writes of files *)

(** [preadExact]: the bytes, or [None] when there are fewer. *)
Definition pread (file : list Z) (offset n : Z) : option (list Z) :=
  if (0 <=? offset) && (offset + n <=? len file) then Some (sub file offset n) else None.

(** A write past the end fills the gap with zeroes. *)
Definition pwrite (file : list Z) (offset : Z) (b : list Z) : list Z :=
  match b with [] => file | _ => overwrite (file ++ repeat 0 (Z.to_nat (offset + len b - len file))) offset b end.

Lemma pwrite_in file off b : 0 < len b -> off + len b <= len file -> pwrite file off b = overwrite file off b.
Proof.
  intros Hb Hl. unfold pwrite. destruct b as [|x b]; [unfold len in Hb; cbn in Hb; lia|].
  replace (Z.to_nat _) with 0%nat by lia. cbn [repeat]. by rewrite app_nil_r.
Qed.

Lemma pwrite_end file b off : 0 < len b -> off = len file -> pwrite file off b = file ++ b.
Proof.
  intros Hb ->. unfold pwrite. destruct b as [|x b]; [unfold len in Hb; cbn in Hb; lia|].
  replace (Z.to_nat _) with (length (x :: b)) by (unfold len; lia). by apply overwrite_end.
Qed.

Lemma pread_in f off n : 0 <= off -> off + n <= len f -> pread f off n = Some (sub f off n).
Proof. intros. unfold pread. by rewrite (proj2 (Z.leb_le 0 _)), (proj2 (Z.leb_le _ _)) by lia. Qed.
