(* ===== verification/ColumnRecords.v ===== *)
(** * Records of columns

    Models the records that columns store: [ColumnDataAddress], [ColumnDataRecord],
    [MasterColumnRecord], [LobChunkHeader] and [ColumnDataBlockHeader], with their
    serialization.  Deserializers update an object in place and return 0 when they
    fail; what was read before a failure stays in the object. *)

From Stdlib Require Import ZArith List Lia Bool.
From S2P Require Import Prelude VarInt PlainBinary Codec.
Import ListNotations.
Open Scope Z_scope.

(** ** Addresses *)

Record ColumnDataAddress : Type := { m_blockId : Z; m_offset : Z }.

Definition kNullValueAddress : ColumnDataAddress := {| m_blockId := 0; m_offset := 0 |}.
Definition kDefaultValueAddress : ColumnDataAddress := {| m_blockId := 0; m_offset := 1 |}.

Definition isNullValueAddress (a : ColumnDataAddress) : bool := (m_blockId a =? 0) && (m_offset a =? 0).

Definition address_size (a : ColumnDataAddress) : Z := getVarIntSize false W64 (m_blockId a) + getVarIntSize false W32 (m_offset a).

Definition address_serialize (a : ColumnDataAddress) : list Z :=
  encodeVarInt false W64 (m_blockId a) ++ encodeVarInt false W32 (m_offset a).

(** [consumed = ::decodeVarInt(buffer + total, dataSize - total, field); if (consumed < 1) return 0;] *)
Definition varint_field {E A} (w : width) (buffer : list Z) (dataSize total : Z) (fail : A) (k : Z -> Z -> outcome E A) : outcome E A :=
  d <- lift (decodeVarInt false w (skipn (Z.to_nat total) buffer) (uw 64 (dataSize - total))) ;;
  match d with Consumed n v => k v (total + n) | _ => Ok fail end.

Definition address_deserialize {E} (a : ColumnDataAddress) (buffer : list Z) (dataSize : Z) : outcome E (ColumnDataAddress * Z) :=
  varint_field W64 buffer dataSize 0 (a, 0) (fun v total =>
  let a := {| m_blockId := v; m_offset := m_offset a |} in
  varint_field W32 buffer dataSize total (a, 0) (fun v total =>
  Ok ({| m_blockId := m_blockId a; m_offset := v |}, total))).

(** The address as index value: 12 bytes.  [None]: [nullptr] is returned. *)
Definition address_pbeDeserialize {E} (buffer : list Z) (dataSize : Z) : outcome E (option ColumnDataAddress) :=
  if dataSize <? 12 then Ok None else
  b <- pbeDecodeUInt64 buffer ;;
  o <- pbeDecodeUInt32 (skipn 8 buffer) ;;
  Ok (Some {| m_blockId := b; m_offset := o |}).

(** ** Column data records *)

Record ColumnDataRecord : Type := { m_address : ColumnDataAddress; cdr_createTimestamp : Z; cdr_updateTimestamp : Z }.

Definition cdr_default : ColumnDataRecord := {| m_address := kNullValueAddress; cdr_createTimestamp := 0; cdr_updateTimestamp := 0 |}.

Definition cdr_size (r : ColumnDataRecord) : Z :=
  address_size (m_address r) + getVarIntSize false W64 (cdr_createTimestamp r) + getVarIntSize false W64 (cdr_updateTimestamp r).

Definition cdr_serialize (r : ColumnDataRecord) : list Z :=
  address_serialize (m_address r) ++ encodeVarInt false W64 (cdr_createTimestamp r) ++ encodeVarInt false W64 (cdr_updateTimestamp r).

Definition cdr_deserialize {E} (r : ColumnDataRecord) (buffer : list Z) (dataSize : Z) : outcome E (ColumnDataRecord * Z) :=
  '(a, total) <- address_deserialize (m_address r) buffer dataSize ;;
  let r := {| m_address := a; cdr_createTimestamp := cdr_createTimestamp r; cdr_updateTimestamp := cdr_updateTimestamp r |} in
  if total =? 0 then Ok (r, 0) else
  varint_field W64 buffer dataSize total (r, 0) (fun v total =>
  let r := {| m_address := m_address r; cdr_createTimestamp := v; cdr_updateTimestamp := cdr_updateTimestamp r |} in
  varint_field W64 buffer dataSize total (r, 0) (fun v total =>
  Ok ({| m_address := m_address r; cdr_createTimestamp := cdr_createTimestamp r; cdr_updateTimestamp := v |}, total))).

(** ** Master column records *)

Inductive DmlOperationType : Type := kInsert | kUpdate | kDelete.

(** The enumeration is read from any byte without a check. *)
Record MasterColumnRecord : Type := {
  m_tableRowId : Z;
  m_transactionId : Z;
  m_createTimestamp : Z;
  m_updateTimestamp : Z;
  mcr_version : Z;
  m_operationId : Z;
  m_operationType : Z;
  m_userId : Z;
  m_columnSetId : Z;
  m_privateDataExpirationTimestamp : Z;
  m_columnRecords : list ColumnDataRecord;
  m_previousVersionAddress : ColumnDataAddress
}.

Definition operation_code (t : DmlOperationType) : Z := match t with kInsert => 0 | kUpdate => 1 | kDelete => 2 end.

Definition kMaxSerializedSize : Z := 0x8000.

Definition sizes (l : list Z) : Z := fold_right Z.add 0 l.

Definition mcr_size (r : MasterColumnRecord) : Z :=
  getVarIntSize false W64 (m_tableRowId r) + getVarIntSize false W64 (m_transactionId r) +
  getVarIntSize false W64 (m_createTimestamp r) + getVarIntSize false W64 (m_updateTimestamp r) +
  getVarIntSize false W64 (mcr_version r) + getVarIntSize false W64 (m_operationId r) + 1 +
  getVarIntSize false W32 (m_userId r) + getVarIntSize false W64 (m_columnSetId r) +
  getVarIntSize false W64 (m_privateDataExpirationTimestamp r) +
  getVarIntSize false W32 (uw 32 (len (m_columnRecords r))) + address_size (m_previousVersionAddress r) +
  sizes (map cdr_size (m_columnRecords r)).

(** [getSerializedSizeWithSizeTag(std::uint16_t size)] *)
Definition mcr_sizeWithSizeTag (size : Z) : Z := let size := uw 16 size in size + getVarUInt16Size size.

Definition mcr_body (r : MasterColumnRecord) : list Z :=
  encodeVarInt false W64 (m_tableRowId r) ++ encodeVarInt false W64 (m_transactionId r) ++
  encodeVarInt false W64 (m_createTimestamp r) ++ encodeVarInt false W64 (m_updateTimestamp r) ++
  encodeVarInt false W64 (mcr_version r) ++ encodeVarInt false W64 (m_operationId r) ++
  [uw 8 (m_operationType r)] ++
  encodeVarInt false W32 (m_userId r) ++ encodeVarInt false W64 (m_columnSetId r) ++
  encodeVarInt false W64 (m_privateDataExpirationTimestamp r) ++
  encodeVarInt false W32 (uw 32 (len (m_columnRecords r))) ++
  concat (map cdr_serialize (m_columnRecords r)) ++
  address_serialize (m_previousVersionAddress r).

Definition mcr_serializeWithSizeTag (r : MasterColumnRecord) (sizeTag : Z) : list Z :=
  encodeVarUInt16 (uw 16 sizeTag) ++ mcr_body r.

(** The loop over the column records: [n] are left.  [None]: 0 is returned and
    the records of the object are not replaced. *)
Fixpoint read_records {E} (n : nat) (buffer : list Z) (dataSize total : Z) : outcome E (option (list ColumnDataRecord * Z)) :=
  match n with
  | O => Ok (Some ([], total))
  | S n' =>
      '(r, consumed) <- cdr_deserialize cdr_default (skipn (Z.to_nat total) buffer) (uw 64 (dataSize - total)) ;;
      if consumed <? 1 then Ok None else
      rs <- read_records n' buffer dataSize (total + consumed) ;;
      Ok (match rs with Some (l, total) => Some (r :: l, total) | None => None end)
  end.

Definition mcr_deserialize {E} (r : MasterColumnRecord) (buffer : list Z) (dataSize : Z) : outcome E (MasterColumnRecord * Z) :=
  let '(Build_MasterColumnRecord x1 x2 x3 x4 x5 x6 x7 x8 x9 x10 x11 x12) := r in
  let mk := Build_MasterColumnRecord in
  varint_field W64 buffer dataSize 0 (r, 0) (fun v1 total =>
  varint_field W64 buffer dataSize total (mk v1 x2 x3 x4 x5 x6 x7 x8 x9 x10 x11 x12, 0) (fun v2 total =>
  varint_field W64 buffer dataSize total (mk v1 v2 x3 x4 x5 x6 x7 x8 x9 x10 x11 x12, 0) (fun v3 total =>
  varint_field W64 buffer dataSize total (mk v1 v2 v3 x4 x5 x6 x7 x8 x9 x10 x11 x12, 0) (fun v4 total =>
  varint_field W64 buffer dataSize total (mk v1 v2 v3 v4 x5 x6 x7 x8 x9 x10 x11 x12, 0) (fun v5 total =>
  varint_field W64 buffer dataSize total (mk v1 v2 v3 v4 v5 x6 x7 x8 x9 x10 x11 x12, 0) (fun v6 total =>
  if total >=? dataSize then Ok (mk v1 v2 v3 v4 v5 v6 x7 x8 x9 x10 x11 x12, 0) else
  v7 <- rd buffer total ;;
  let total := total + 1 in
  varint_field W32 buffer dataSize total (mk v1 v2 v3 v4 v5 v6 v7 x8 x9 x10 x11 x12, 0) (fun v8 total =>
  varint_field W64 buffer dataSize total (mk v1 v2 v3 v4 v5 v6 v7 v8 x9 x10 x11 x12, 0) (fun v9 total =>
  varint_field W64 buffer dataSize total (mk v1 v2 v3 v4 v5 v6 v7 v8 v9 x10 x11 x12, 0) (fun v10 total =>
  varint_field W32 buffer dataSize total (mk v1 v2 v3 v4 v5 v6 v7 v8 v9 v10 x11 x12, 0) (fun columnRecordCount total =>
  rs <- read_records (Z.to_nat columnRecordCount) buffer dataSize total ;;
  match rs with
  | None => Ok (mk v1 v2 v3 v4 v5 v6 v7 v8 v9 v10 x11 x12, 0)
  | Some (v11, total) =>
      '(v12, consumed) <- address_deserialize x12 (skipn (Z.to_nat total) buffer) (uw 64 (dataSize - total)) ;;
      let r := mk v1 v2 v3 v4 v5 v6 v7 v8 v9 v10 v11 v12 in
      if consumed <? 1 then Ok (r, 0) else Ok (r, total + consumed)
  end)))))))))).

(** ** Headers *)

Record LobChunkHeader : Type := {
  m_remainingLobLength : Z;
  m_chunkLength : Z;
  m_nextChunkBlockId : Z;
  m_nextChunkOffset : Z
}.

Definition kLobChunkHeaderSize : Z := 20.

Definition lob_header_serialize (h : LobChunkHeader) : list Z :=
  pbeEncodeUInt32 (m_remainingLobLength h) ++ pbeEncodeUInt32 (m_chunkLength h) ++
  pbeEncodeUInt64 (m_nextChunkBlockId h) ++ pbeEncodeUInt32 (m_nextChunkOffset h).

Definition lob_header_deserialize {E} (buffer : list Z) : outcome E LobChunkHeader :=
  a <- pbeDecodeUInt32 buffer ;;
  b <- pbeDecodeUInt32 (skipn 4 buffer) ;;
  c <- pbeDecodeUInt64 (skipn 8 buffer) ;;
  d <- pbeDecodeUInt32 (skipn 16 buffer) ;;
  Ok {| m_remainingLobLength := a; m_chunkLength := b; m_nextChunkBlockId := c; m_nextChunkOffset := d |}.

Record FullColumnDataBlockId : Type := {
  fb_databaseUuid : list Z;
  fb_tableId : Z;
  fb_columnId : Z;
  fb_blockId : Z
}.

(** [m_prevBlockDigest] is neither set nor stored. *)
Record ColumnDataBlockHeader : Type := {
  bh_version : Z;
  m_fullColumnDataBlockId : FullColumnDataBlockId;
  m_prevBlockId : Z;
  m_dataAreaOffset : Z;
  m_dataAreaSize : Z;
  m_nextDataOffset : Z;
  m_commitedDataOffset : Z;
  m_fillTimestamp : Z;
  m_digest : list Z
}.

Definition kDigestLength : Z := 64.
Definition kColumnDataBlockHeaderSize : Z := 136.
Definition kBlockHeaderVersion : Z := 1.
Definition kDefaultDataAreaOffset : Z := 1024.

Definition block_header_serialize (h : ColumnDataBlockHeader) : list Z :=
  let id := m_fullColumnDataBlockId h in
  pbeEncodeUInt32 (bh_version h) ++ fb_databaseUuid id ++ pbeEncodeUInt32 (fb_tableId id) ++
  pbeEncodeUInt64 (fb_columnId id) ++ pbeEncodeUInt64 (fb_blockId id) ++ pbeEncodeUInt64 (m_prevBlockId h) ++
  pbeEncodeUInt32 (m_dataAreaOffset h) ++ pbeEncodeUInt32 (m_dataAreaSize h) ++ pbeEncodeUInt32 (m_nextDataOffset h) ++
  pbeEncodeUInt32 (m_commitedDataOffset h) ++ pbeEncodeUInt64 (m_fillTimestamp h) ++ m_digest h.

(** A version that is too new ends the reading, with only the version stored in
    the object [h]. *)
Definition block_header_deserialize {E} (h : ColumnDataBlockHeader) (buffer : list Z) : outcome E ColumnDataBlockHeader :=
  version <- pbeDecodeUInt32 buffer ;;
  if version >? kBlockHeaderVersion then
    Ok {| bh_version := version; m_fullColumnDataBlockId := m_fullColumnDataBlockId h; m_prevBlockId := m_prevBlockId h;
          m_dataAreaOffset := m_dataAreaOffset h; m_dataAreaSize := m_dataAreaSize h; m_nextDataOffset := m_nextDataOffset h;
          m_commitedDataOffset := m_commitedDataOffset h; m_fillTimestamp := m_fillTimestamp h; m_digest := m_digest h |}
  else
    uuid <- memrd buffer 4 16 ;;
    tableId <- pbeDecodeUInt32 (skipn 20 buffer) ;;
    columnId <- pbeDecodeUInt64 (skipn 24 buffer) ;;
    blockId <- pbeDecodeUInt64 (skipn 32 buffer) ;;
    prevBlockId <- pbeDecodeUInt64 (skipn 40 buffer) ;;
    dataAreaOffset <- pbeDecodeUInt32 (skipn 48 buffer) ;;
    dataAreaSize <- pbeDecodeUInt32 (skipn 52 buffer) ;;
    nextDataOffset <- pbeDecodeUInt32 (skipn 56 buffer) ;;
    commitedDataOffset <- pbeDecodeUInt32 (skipn 60 buffer) ;;
    fillTimestamp <- pbeDecodeUInt64 (skipn 64 buffer) ;;
    digest <- memrd buffer 72 kDigestLength ;;
    Ok {| bh_version := version;
          m_fullColumnDataBlockId := {| fb_databaseUuid := uuid; fb_tableId := tableId; fb_columnId := columnId; fb_blockId := blockId |};
          m_prevBlockId := prevBlockId; m_dataAreaOffset := dataAreaOffset; m_dataAreaSize := dataAreaSize;
          m_nextDataOffset := nextDataOffset; m_commitedDataOffset := commitedDataOffset;
          m_fillTimestamp := fillTimestamp; m_digest := digest |}.

(** ** Round trips *)

(** Encodings end with a byte below 0x80, so that the last-byte test of the
    decoders accepts every integer before them. *)
Definition tailed (l : list Z) : Prop := bytes_ok l /\ (l = [] \/ last l 0 < 128).
Definition closed (l : list Z) : Prop := l <> [] /\ tailed l.

Lemma last_app_ne {A} (a b : list A) d : b <> [] -> last (a ++ b) d = last b d.
Proof.
  intros Hb. induction a as [|x a IH]; [reflexivity|]. cbn [app last].
  destruct (a ++ b) eqn:E; [apply app_eq_nil in E; tauto|]. exact IH.
Qed.

Lemma tailed_app a b : tailed a -> tailed b -> tailed (a ++ b).
Proof.
  intros [Ha Ha'] [Hb Hb']. split; [now apply Forall_app|]. destruct b as [|x b]; [now rewrite app_nil_r|].
  right. rewrite last_app_ne by discriminate. destruct Hb'; [discriminate|assumption].
Qed.

Lemma closed_app a b : closed a -> tailed b -> closed (a ++ b).
Proof. intros [Hn Ha] Hb. split; [intros E; apply app_eq_nil in E; tauto|]. now apply tailed_app. Qed.

Lemma closed_tailed a : closed a -> tailed a.
Proof. intros [_ H]. exact H. Qed.

Lemma encode_loop_last n v : fits n v -> last (encode_loop n v) 0 < 128.
Proof.
  revert v. induction n as [|n IH]; intros v Hf; rewrite encode_loop_eq by assumption; zcases.
  - apply fits_0 in Hf. lia.
  - rewrite uw_small by (unfold u_ok; destruct Hf; lia). cbn. lia.
  - pose proof (fits_shiftr n v Hf) as Hf'. rewrite (encode_loop_fuel n (S n)) by (assumption || lia).
    pose proof (IH _ Hf') as H'. pose proof (encode_loop_len n (Z.shiftr v 7)).
    destruct (encode_loop n (Z.shiftr v 7)) eqn:E; [rewrite len_nil in *; lia|]. exact H'.
  - rewrite uw_small by (unfold u_ok; destruct Hf; lia). cbn. lia.
Qed.

Lemma encode_closed w v : u_ok (bits w) v -> closed (encodeVarInt false w v).
Proof.
  intros Hv. pose proof (encodeVarInt_len false w v). split; [intros E; rewrite E in *; rewrite len_nil in *; lia|].
  split; [now apply encodeVarInt_bytes|]. right. rewrite encodeVarUInt_eq. apply encode_loop_last, fits_max_iter, Hv.
Qed.

Lemma closed_decodable w enc rest : closed enc -> tailed rest -> decodable w enc rest.
Proof.
  intros He Hr. right; right. destruct (closed_app _ _ He Hr) as [Hn [_ [H|H]]]; [contradiction|exact H].
Qed.

(** One field of a record in the middle of the buffer. *)
Lemma varint_field_ok {E A} w v pre rest buffer total fail (k : Z -> Z -> outcome E A) :
  buffer = pre ++ encodeVarInt false w v ++ rest -> total = len pre ->
  u_ok (bits w) v -> tailed rest -> len buffer < 2 ^ 64 ->
  varint_field w buffer (len buffer) total fail k = k v (len pre + len (encodeVarInt false w v)).
Proof.
  intros -> -> Hv Hr Hl. unfold varint_field. rewrite skipn_len_app, len_app in *.
  pose proof (len_nonneg pre). pose proof (len_nonneg (encodeVarInt false w v ++ rest)).
  replace (len pre + len (encodeVarInt false w v ++ rest) - len pre) with (len (encodeVarInt false w v ++ rest)) by lia.
  rewrite uw_small by (unfold u_ok; lia). rewrite decodeVarInt_encode; [reflexivity|exact Hv|apply Hr|].
  now apply closed_decodable; [apply encode_closed|].
Qed.

Ltac tails := repeat (apply tailed_app; [apply closed_tailed; assumption|]); try assumption; try (apply closed_tailed; assumption).

(** Reads the field [v], with [pre] before it and [rest] after it. *)
Ltac field w v pre rest :=
  rewrite (varint_field_ok w v pre rest); [|rewrite <- ?app_assoc; reflexivity|rewrite ?len_app; reflexivity|assumption|tails|assumption].

Definition address_ok (a : ColumnDataAddress) : Prop := u_ok 64 (m_blockId a) /\ u_ok 32 (m_offset a).

Lemma address_closed a : address_ok a -> closed (address_serialize a).
Proof. intros [Hb Ho]. apply closed_app; [|apply closed_tailed]; now apply (encode_closed W64) || now apply (encode_closed W32). Qed.

Lemma address_size_len a : address_size a = len (address_serialize a).
Proof. unfold address_size, address_serialize. now rewrite len_app, !getVarIntSize_len. Qed.

Lemma address_roundtrip {E} a0 a rest : address_ok a -> tailed rest -> len (address_serialize a ++ rest) < 2 ^ 64 ->
  address_deserialize (E := E) a0 (address_serialize a ++ rest) (len (address_serialize a ++ rest)) = Ok (a, len (address_serialize a)).
Proof.
  intros [Hb Ho] Hr Hl. unfold address_deserialize, address_serialize in *.
  pose proof (encode_closed W64 _ Hb) as Hbc. pose proof (encode_closed W32 _ Ho) as Hoc.
  field W64 (m_blockId a) (@nil Z) (encodeVarInt false W32 (m_offset a) ++ rest). cbv zeta.
  field W32 (m_offset a) (encodeVarInt false W64 (m_blockId a)) rest.
  rewrite len_app. destruct a; reflexivity.
Qed.

Definition cdr_ok (r : ColumnDataRecord) : Prop :=
  address_ok (m_address r) /\ u_ok 64 (cdr_createTimestamp r) /\ u_ok 64 (cdr_updateTimestamp r).

Lemma cdr_closed r : cdr_ok r -> closed (cdr_serialize r).
Proof.
  intros (Ha & Hc & Hu). apply closed_app; [now apply address_closed|]. apply closed_tailed.
  apply closed_app; [|apply closed_tailed]; now apply (encode_closed W64).
Qed.

Lemma cdr_size_len r : cdr_size r = len (cdr_serialize r).
Proof. unfold cdr_size, cdr_serialize. rewrite !len_app, address_size_len, !getVarIntSize_len. lia. Qed.

Lemma closed_len l : closed l -> 1 <= len l.
Proof. intros [Hn _]. destruct l as [|x l]; [contradiction|]. rewrite len_cons. pose proof (len_nonneg l). lia. Qed.

Lemma cdr_roundtrip {E} r0 r rest : cdr_ok r -> tailed rest -> len (cdr_serialize r ++ rest) < 2 ^ 64 ->
  cdr_deserialize (E := E) r0 (cdr_serialize r ++ rest) (len (cdr_serialize r ++ rest)) = Ok (r, len (cdr_serialize r)).
Proof.
  intros (Ha & Hc & Hu) Hr Hl. unfold cdr_deserialize, cdr_serialize in *. rewrite <- !app_assoc in *.
  pose proof (encode_closed W64 _ Hc) as Hcc. pose proof (encode_closed W64 _ Hu) as Huc. pose proof (address_closed _ Ha) as Hac.
  rewrite address_roundtrip by (assumption || tails). cbn [bind]. pose proof (closed_len _ Hac).
  rewrite (proj2 (Z.eqb_neq _ 0)) by lia. cbv zeta. set (A := address_serialize (m_address r)) in *.
  field W64 (cdr_createTimestamp r) A (encodeVarInt false W64 (cdr_updateTimestamp r) ++ rest).
  field W64 (cdr_updateTimestamp r) (A ++ encodeVarInt false W64 (cdr_createTimestamp r)) rest.
  cbn [m_address cdr_createTimestamp cdr_updateTimestamp]. rewrite !len_app. destruct r; cbn. do 2 f_equal. lia.
Qed.

Lemma records_closed l : Forall cdr_ok l -> tailed (concat (map cdr_serialize l)).
Proof.
  induction 1 as [|r l Hr _ IH]; cbn; [split; [constructor|auto]|]. apply tailed_app; [|exact IH]. apply closed_tailed, cdr_closed, Hr.
Qed.

Lemma read_records_ok {E} l : Forall cdr_ok l -> forall pre rest buffer, buffer = pre ++ concat (map cdr_serialize l) ++ rest ->
  tailed rest -> len buffer < 2 ^ 64 ->
  read_records (E := E) (length l) buffer (len buffer) (len pre) = Ok (Some (l, len pre + len (concat (map cdr_serialize l)))).
Proof.
  induction 1 as [|r l Hr Hl IH]; intros pre rest buffer Hb Ht Hs; cbn [length read_records map concat].
  - rewrite len_nil, Z.add_0_r. reflexivity.
  - cbn [map concat] in Hb. rewrite <- app_assoc in Hb. set (B := cdr_serialize r ++ concat (map cdr_serialize l) ++ rest) in *.
    assert (Hlen : len buffer = len pre + len B) by (rewrite Hb; apply len_app).
    replace (skipn (Z.to_nat (len pre)) buffer) with B by (rewrite Hb; symmetry; apply skipn_len_app).
    replace (len buffer - len pre) with (len B) by lia. pose proof (len_nonneg pre). pose proof (len_nonneg B).
    rewrite uw_small by (unfold u_ok; lia). pose proof (records_closed l Hl).
    unfold B in *. rewrite cdr_roundtrip; [|exact Hr|now apply tailed_app|lia]. cbn [bind].
    pose proof (closed_len _ (cdr_closed r Hr)). rewrite (proj2 (Z.ltb_ge _ 1)) by lia.
    rewrite <- len_app. rewrite (IH (pre ++ cdr_serialize r) rest buffer); [|rewrite Hb, <- !app_assoc; reflexivity|exact Ht|exact Hs].
    cbn [bind]. now rewrite !len_app, Z.add_assoc.
Qed.

Definition mcr_ok (r : MasterColumnRecord) : Prop :=
  u_ok 64 (m_tableRowId r) /\ u_ok 64 (m_transactionId r) /\ u_ok 64 (m_createTimestamp r) /\ u_ok 64 (m_updateTimestamp r) /\
  u_ok 64 (mcr_version r) /\ u_ok 64 (m_operationId r) /\ u_ok 7 (m_operationType r) /\ u_ok 32 (m_userId r) /\
  u_ok 64 (m_columnSetId r) /\ u_ok 64 (m_privateDataExpirationTimestamp r) /\ u_ok 32 (len (m_columnRecords r)) /\
  Forall cdr_ok (m_columnRecords r) /\ address_ok (m_previousVersionAddress r).

Lemma mcr_size_len r : mcr_size r = len (mcr_body r).
Proof.
  unfold mcr_size, mcr_body. rewrite !len_app, !getVarIntSize_len, address_size_len.
  assert (Hs : sizes (map cdr_size (m_columnRecords r)) = len (concat (map cdr_serialize (m_columnRecords r)))).
  { induction (m_columnRecords r) as [|x l IH]; [reflexivity|]. cbn [map concat sizes fold_right]. rewrite len_app, <- cdr_size_len.
    unfold sizes in IH. lia. }
  rewrite Hs. change (len [uw 8 (m_operationType r)]) with 1. lia.
Qed.

Lemma mcr_body_closed r : mcr_ok r -> closed (mcr_body r).
Proof.
  intros (H1 & H2 & H3 & H4 & H5 & H6 & H7 & H8 & H9 & H10 & H11 & H12 & H13). unfold mcr_body.
  repeat (apply closed_app; [first [now apply (encode_closed W64)|now apply (encode_closed W32)
    |apply (encode_closed W32); rewrite uw_small by assumption; assumption]|]; try apply closed_tailed).
  apply closed_app.
  - rewrite uw_small by (unfold u_ok in *; lia). split; [discriminate|]. split; [constructor; [unfold byte_ok, u_ok in *; lia|constructor]|].
    right. cbn. unfold u_ok in H7. lia.
  - apply tailed_app; [apply closed_tailed; now apply (encode_closed W32)|].
    repeat (apply tailed_app; [apply closed_tailed; now apply (encode_closed W64)|]).
    apply tailed_app; [apply closed_tailed, (encode_closed W32); rewrite uw_small by assumption; assumption|].
    apply tailed_app; [now apply records_closed|]. now apply closed_tailed, address_closed.
Qed.

(** Reads the next field of a buffer that is known in parts. *)
Ltac next_field Hb :=
  match type of Hb with
  | _ = ?pre ++ ?enc ++ ?rest =>
      match enc with encodeVarInt false ?w ?v =>
        rewrite (varint_field_ok w v pre rest); [|exact Hb|reflexivity|assumption|tails|assumption];
        rewrite <- (len_app pre enc); rewrite (app_assoc pre enc rest) in Hb
      end
  end.

Lemma mcr_body_roundtrip {E} r0 r : mcr_ok r -> len (mcr_body r) < 2 ^ 64 ->
  mcr_deserialize (E := E) r0 (mcr_body r) (len (mcr_body r)) = Ok (r, mcr_size r).
Proof.
  intros Hok Hl. pose proof Hok as (H1 & H2 & H3 & H4 & H5 & H6 & H7 & H8 & H9 & H10 & H11 & H12 & H13). rewrite mcr_size_len.
  remember (mcr_body r) as buffer eqn:Hb. unfold mcr_body in Hb. rewrite (uw_small 32) in Hb by assumption.
  rewrite (uw_small 8) in Hb by (unfold u_ok in *; lia).
  pose proof (encode_closed W64 _ H1). pose proof (encode_closed W64 _ H2). pose proof (encode_closed W64 _ H3).
  pose proof (encode_closed W64 _ H4). pose proof (encode_closed W64 _ H5). pose proof (encode_closed W64 _ H6).
  pose proof (encode_closed W32 _ H8). pose proof (encode_closed W64 _ H9). pose proof (encode_closed W64 _ H10).
  pose proof (encode_closed W32 _ H11). pose proof (address_closed _ H13) as Hac. pose proof (records_closed _ H12) as Hrc.
  set (A := address_serialize (m_previousVersionAddress r)) in *. set (R := concat (map cdr_serialize (m_columnRecords r))) in *.
  assert (Htail : tailed (R ++ A)) by (apply tailed_app; [exact Hrc|now apply closed_tailed]).
  assert (H7c : closed [m_operationType r]).
  { split; [discriminate|]. split; [constructor; [unfold byte_ok, u_ok in *; lia|constructor]|]. right. cbn. unfold u_ok in H7. lia. }
  unfold mcr_deserialize. destruct r0 as [x1 x2 x3 x4 x5 x6 x7 x8 x9 x10 x11 x12]. cbv zeta.
  change (buffer = [] ++ encodeVarInt false W64 (m_tableRowId r) ++ encodeVarInt false W64 (m_transactionId r) ++
    encodeVarInt false W64 (m_createTimestamp r) ++ encodeVarInt false W64 (m_updateTimestamp r) ++
    encodeVarInt false W64 (mcr_version r) ++ encodeVarInt false W64 (m_operationId r) ++
    [m_operationType r] ++ encodeVarInt false W32 (m_userId r) ++ encodeVarInt false W64 (m_columnSetId r) ++
    encodeVarInt false W64 (m_privateDataExpirationTimestamp r) ++ encodeVarInt false W32 (len (m_columnRecords r)) ++ R ++ A) in Hb.
  do 6 next_field Hb. rewrite Z.geb_leb.
  match type of Hb with _ = ?pre ++ [?b] ++ ?rest =>
    assert (Hrd : rd (E := E) buffer (len pre) = Ok b) by (rewrite Hb, <- (Z.add_0_r (len pre)), rd_app_r by lia; reflexivity);
    assert (Htot : len pre < len buffer) by (rewrite Hb, (len_app pre), (len_app [b]); change (len [b]) with 1; pose proof (len_nonneg rest); lia);
    rewrite (proj2 (Z.leb_gt _ _)), Hrd by exact Htot; cbn [bind]; change (len pre + 1) with (len pre + len [b]);
    rewrite <- (len_app pre [b]); rewrite (app_assoc pre [b] rest) in Hb
  end.
  do 4 next_field Hb. replace (Z.to_nat (len (m_columnRecords r))) with (length (m_columnRecords r)) by (unfold len; lia).
  match type of Hb with _ = ?pre ++ R ++ A =>
    rewrite (read_records_ok _ H12 pre A buffer Hb) by (assumption || now apply closed_tailed); fold R; cbn [bind];
    rewrite <- (len_app pre R); rewrite (app_assoc pre R A) in Hb;
    assert (Hbl : len buffer = len (pre ++ R) + len A) by (rewrite Hb; apply len_app);
    replace (skipn (Z.to_nat (len (pre ++ R))) buffer) with (A ++ []) by (rewrite Hb, app_nil_r; symmetry; apply skipn_len_app);
    replace (uw 64 (len buffer - len (pre ++ R))) with (len (A ++ [])) by
      (pose proof (len_nonneg A); pose proof (len_nonneg (pre ++ R)); rewrite app_nil_r, uw_small; unfold u_ok; lia)
  end.
  subst A. rewrite address_roundtrip; [|assumption|split; [constructor|auto]|].
  - cbn [bind]. pose proof (closed_len _ Hac). rewrite (proj2 (Z.ltb_ge _ 1)), <- Hbl by lia. destruct r. reflexivity.
  - rewrite app_nil_r. match type of Hbl with _ = len ?p + _ => pose proof (len_nonneg p) end. lia.
Qed.

(** *** Headers of fixed size *)

Lemma skipn_prefix {A} k (l r : list A) : (length l <= k)%nat -> skipn k (l ++ r) = skipn (k - length l) r.
Proof. intros Hk. rewrite skipn_app, skipn_all2 by exact Hk. reflexivity. Qed.

Lemma le_store_length n z : length (le_store n z) = n.
Proof. revert z. induction n; intros z; cbn; [reflexivity|]. now rewrite IHn. Qed.

(** Goes over the fields before the one that is read. *)
Ltac skip_fields := repeat (rewrite skipn_prefix by (rewrite ?le_store_length; lia)); rewrite ?le_store_length; cbn [Nat.sub]; rewrite ?skipn_0.

Lemma decode_u32 {E} v rest : u_ok 32 v -> @pbeDecodeUInt32 E (le_store 4 v ++ rest) = Ok v.
Proof. apply (pbe_roundtrip_u v rest). Qed.

Lemma decode_u64 {E} v rest : u_ok 64 v -> @pbeDecodeUInt64 E (le_store 8 v ++ rest) = Ok v.
Proof. apply (pbe_roundtrip_u v rest). Qed.

Definition lob_header_ok (h : LobChunkHeader) : Prop :=
  u_ok 32 (m_remainingLobLength h) /\ u_ok 32 (m_chunkLength h) /\ u_ok 64 (m_nextChunkBlockId h) /\ u_ok 32 (m_nextChunkOffset h).

Lemma lob_header_len h : len (lob_header_serialize h) = kLobChunkHeaderSize.
Proof. unfold lob_header_serialize, pbeEncodeUInt32, pbeEncodeUInt64. rewrite !len_app, !len_le_store. reflexivity. Qed.

Lemma lob_header_roundtrip {E} h rest : lob_header_ok h -> lob_header_deserialize (E := E) (lob_header_serialize h ++ rest) = Ok h.
Proof.
  intros (H1 & H2 & H3 & H4). unfold lob_header_deserialize, lob_header_serialize, pbeEncodeUInt32, pbeEncodeUInt64. rewrite <- !app_assoc.
  rewrite decode_u32 by assumption. cbn [bind]. skip_fields. rewrite decode_u32 by assumption. cbn [bind].
  skip_fields. rewrite decode_u64 by assumption. cbn [bind]. skip_fields. rewrite decode_u32 by assumption. destruct h; reflexivity.
Qed.

Definition block_header_ok (h : ColumnDataBlockHeader) : Prop :=
  let id := m_fullColumnDataBlockId h in
  bh_version h = kBlockHeaderVersion /\ len (fb_databaseUuid id) = 16 /\ u_ok 32 (fb_tableId id) /\ u_ok 64 (fb_columnId id) /\
  u_ok 64 (fb_blockId id) /\ u_ok 64 (m_prevBlockId h) /\ u_ok 32 (m_dataAreaOffset h) /\ u_ok 32 (m_dataAreaSize h) /\
  u_ok 32 (m_nextDataOffset h) /\ u_ok 32 (m_commitedDataOffset h) /\ u_ok 64 (m_fillTimestamp h) /\ len (m_digest h) = kDigestLength.

Lemma block_header_len h : block_header_ok h -> len (block_header_serialize h) = kColumnDataBlockHeaderSize.
Proof.
  intros (_ & H2 & _ & _ & _ & _ & _ & _ & _ & _ & _ & H12). unfold block_header_serialize, pbeEncodeUInt32, pbeEncodeUInt64.
  rewrite !len_app, !len_le_store, H2, H12. reflexivity.
Qed.

(** The same behind the database UUID. *)
Ltac next_pbe Hskip := rewrite skipn_prefix by (rewrite le_store_length; lia); rewrite le_store_length, Hskip by lia; cbn [Nat.sub]; skip_fields.

Lemma block_header_roundtrip {E} h0 h rest : block_header_ok h ->
  block_header_deserialize (E := E) h0 (block_header_serialize h ++ rest) = Ok h.
Proof.
  intros (H1 & H2 & H3 & H4 & H5 & H6 & H7 & H8 & H9 & H10 & H11 & H12). unfold block_header_deserialize, block_header_serialize, pbeEncodeUInt32, pbeEncodeUInt64.
  rewrite <- !app_assoc. rewrite decode_u32 by (rewrite H1; unfold u_ok, kBlockHeaderVersion; lia). cbn [bind]. rewrite H1. cbn [Z.gtb Z.compare kBlockHeaderVersion].
  rewrite memrd_mid by (rewrite ?len_le_store; cbn; congruence). cbn [bind]. unfold len in H2, H12.
  assert (Hu : length (fb_databaseUuid (m_fullColumnDataBlockId h)) = 16%nat) by lia.
  assert (Hskip : forall k r, (16 <= k)%nat -> skipn k (fb_databaseUuid (m_fullColumnDataBlockId h) ++ r) = skipn (k - 16) r).
  { intros k r Hk. rewrite skipn_prefix; rewrite Hu; [reflexivity|exact Hk]. }
  next_pbe Hskip. rewrite decode_u32 by assumption. cbn [bind].
  do 3 (next_pbe Hskip; rewrite decode_u64 by assumption; cbn [bind]).
  do 4 (next_pbe Hskip; rewrite decode_u32 by assumption; cbn [bind]).
  next_pbe Hskip. rewrite decode_u64 by assumption. cbn [bind].
  match goal with |- context [memrd ?buf 72 kDigestLength] => assert (Hm : memrd (E := E) buf 72 kDigestLength = Ok (m_digest h)) end.
  { unfold memrd, len. rewrite !length_app, !le_store_length. cbn [Z.ltb orb Z.compare kDigestLength].
    rewrite (proj2 (Z.leb_le _ _)) by (unfold kDigestLength in *; lia).
    change (Z.to_nat 72) with 72%nat. next_pbe Hskip. rewrite firstn_app. replace (Z.to_nat kDigestLength) with (length (m_digest h)) by lia.
    rewrite firstn_all, Nat.sub_diag. cbn [firstn]. now rewrite app_nil_r. }
  rewrite Hm. destruct h as [? [? ? ? ?] ? ? ? ? ? ? ?]. cbn in H1 |- *. now rewrite H1.
Qed.

(** Addresses as values of the main index. *)
Definition address_value (a : ColumnDataAddress) : list Z := pbeEncodeUInt64 (m_blockId a) ++ pbeEncodeUInt32 (m_offset a).

Lemma address_value_len a : len (address_value a) = 12.
Proof. unfold address_value, pbeEncodeUInt32, pbeEncodeUInt64. rewrite len_app, !len_le_store. reflexivity. Qed.

Lemma address_value_roundtrip {E} a : address_ok a -> address_pbeDeserialize (E := E) (address_value a) 12 = Ok (Some a).
Proof.
  intros [Hb Ho]. unfold address_pbeDeserialize, address_value, pbeEncodeUInt32, pbeEncodeUInt64. cbn [Z.ltb Z.compare Pos.compare Pos.compare_cont].
  rewrite decode_u64 by assumption. cbn [bind]. skip_fields. rewrite <- (app_nil_r (le_store 4 _)), decode_u32 by assumption. destruct a; reflexivity.
Qed.
