(* ===== verification/LinearIndex.v ===== *)
(** * The linear index

    Models [dbengine/uli]: [UniqueLinearIndex], its [FileData] and [FileCache],
    and the file header of [IndexFileHeaderBase].  The index maps a key, taken as
    a number, to the record of that number; the records are spread over files of
    equal size, which are created when they are needed.  A record is a state byte
    and two slots for the value: an update writes the slot that is not in use and
    then switches the state.

    The state of the model has the files on disk, the [FileData] objects (cached
    contents of a file, shared by pointer and written through), the set of file
    IDs, the cache and the least and greatest key.  Operations are in a monad of
    state and outcome that keeps the state when an exception is thrown.

    Files are byte arrays.  [room] bounds the bytes that can still be written, so
    that a write can fail after a prefix of its bytes, as [File::write]
    documents; opening and reading existing files does not fail.  A new file
    becomes visible in the directory when it is linked, after its contents were
    written; on a file system without O_TMPFILE it is written under a temporary
    name, which is visible at once, and renamed.  The directory maps the ID of an
    index file to its contents, and the negative ID to the contents of the
    temporary file. *)

From stdpp Require Import base list gmap.
Set Warnings "-clear-no-such-hyp,-notation-incompatible-prefix,-notation-for-abbreviation".
From Stdlib Require Import ZArith Lia.
From S2P Require Import Prelude StateM Bytes PlainBinary IndexKeys LruCache.

Local Open Scope Z_scope.

(** ** Errors *)

Inductive UliError : Type :=
| InvalidArgument
| OutOfRange
| CacheFailed (e : LruError)
| CannotOpenIndexFile
| CannotWriteIndexFile
| CannotLinkIndexFile
| UliInvalidIndexFileName
| IndexFileCorrupted
| UliCorrupted (numericKey : Z)
| UliMissingFileWhenExpected (fileId : Z)
| UliMissingGreaterValueWhenExpected
| UliMissingLessValueWhenExpected.

(** ** The file header *)

Record IndexFileHeader : Type := {
  m_version : Z;
  m_indexType : Z;
  m_databaseUuid : list Z;
  m_tableId : Z;
  m_indexId : Z
}.

Definition kCurrentVersion : Z := 1.
Definition kIndexFileHeaderSize : Z := 1024.

Definition header_serialize (h : IndexFileHeader) : list Z :=
  pbeEncodeUInt32 (m_version h) ++ [uw 8 (m_indexType h)] ++ m_databaseUuid h ++
  pbeEncodeUInt32 (m_tableId h) ++ pbeEncodeUInt64 (m_indexId h).

(** [IndexFileHeader(indexType)] and [deserialize]: the fields that were read
    before a mismatch stay in the header. *)
Definition header_deserialize {E} (indexType : Z) (buffer : list Z) : outcome E IndexFileHeader :=
  let zero version := {| m_version := version; m_indexType := indexType; m_databaseUuid := repeat 0 16;
                         m_tableId := 0; m_indexId := 0 |} in
  version <- pbeDecodeUInt32 buffer ;;
  if version >? kCurrentVersion then Ok (zero version) else
  b <- rd buffer 4 ;;
  if negb (b =? indexType) then Ok (zero version) else
  uuid <- memrd buffer 5 16 ;;
  tableId <- pbeDecodeUInt32 (drop 21 buffer) ;;
  indexId <- pbeDecodeUInt64 (drop 25 buffer) ;;
  Ok {| m_version := version; m_indexType := indexType; m_databaseUuid := uuid; m_tableId := tableId; m_indexId := indexId |}.

Definition header_eqb (a b : IndexFileHeader) : bool :=
  (m_version a =? m_version b) && (m_indexType a =? m_indexType b) &&
  bool_decide (m_databaseUuid a = m_databaseUuid b) && (m_tableId a =? m_tableId b) && (m_indexId a =? m_indexId b).

(** ** Index parameters: the constant members *)

Record uli_params : Type := {
  m_traits : IndexKeyTraits;
  m_valueSize : Z;
  m_dataFileSize : Z;
  m_sortDescending : bool;
  m_minPossibleKey : list Z;
  m_maxPossibleKey : list Z;
  m_indexHeader : IndexFileHeader;  (** [IndexFileHeader(getDatabaseUuid(), getTableId(), m_id, m_type)] *)
  m_tmpFile : bool  (** the file system of the data directory has O_TMPFILE *)
}.

Definition kMinDataSizePerFile : Z := 4096.
Definition kMinDataFileSize : Z := kIndexFileHeaderSize + kMinDataSizePerFile.
Definition kMaxDataFileSize : Z := kIndexFileHeaderSize + 100 * 1024 * 1024.

Definition validateIndexFileSize (size : Z) : outcome UliError Z :=
  if size <? kMinDataFileSize then Throw InvalidArgument else
  if size >? kMaxDataFileSize then Throw InvalidArgument else Ok size.

Definition validateKeySize (t : IndexKeyTraits) : outcome UliError Z :=
  if existsb (Z.eqb (getKeySize t)) [1; 2; 4; 8] then Ok (getKeySize t) else Throw InvalidArgument.

Definition validateKeyType (t : IndexKeyTraits) : outcome UliError bool :=
  match getNumericKeyType t with
  | kSignedInt => Ok true
  | kUnsignedInt => Ok false
  | _ => Throw InvalidArgument
  end.

Definition computeIndexRecordSize (valueSize : Z) : Z := uw 64 (valueSize * 2 + 1).

(** ** The cache of files, as an interface *)

Class FileCache (C : Type) : Type := {
  cache_get : C -> Z -> option nat * C;
  cache_emplace : C -> Z -> nat -> outcome LruError C
}.

(** [cached c k p]: the cache gives the object [p] for the file [k]. *)
Class FileCacheLaws (C : Type) {FC : FileCache C} : Type := {
  cache_ok : C -> Prop;
  cached : C -> Z -> nat -> Prop;
  cached_unique : forall c k p q, cached c k p -> cached c k q -> p = q;
  get_law : forall c k, cache_ok c ->
    let '(r, c') := cache_get c k in
    cache_ok c' /\ (forall k' p, cached c' k' p <-> cached c k' p) /\ (forall p, r = Some p <-> cached c k p);
  emplace_law : forall c k p, cache_ok c -> (forall q, ~ cached c k q) ->
    exists c', cache_emplace c k p = Ok c' /\ cache_ok c' /\ cached c' k p /\
      (forall k' q, cached c' k' q -> (k' = k /\ q = p) \/ cached c k' q)
}.

(** ** State *)

Record FileData : Type := { fd_fileId : Z; fd_data : list Z }.

Record uli_state {C : Type} : Type := {
  files : gmap Z (list Z);
  room : option Z;
  objects : list FileData;
  m_fileIds : list Z;
  m_fileCache : C;
  m_minKey : list Z;
  m_maxKey : list Z;
  m_minNumericKey : Z;
  m_maxNumericKey : Z
}.
Arguments uli_state : clear implicits.

Section Index.
Context {C : Type} `{FC : FileCache C} (P : uli_params).
Notation state := (uli_state C).
Notation t := (m_traits P).

(** *** The monad *)

Definition M (A : Type) : Type := SM state UliError A.

(** *** Sizes *)

Definition m_recordSize : Z := computeIndexRecordSize (m_valueSize P).
Definition dataSize : Z := m_dataFileSize P - kIndexFileHeaderSize.
Definition m_numberOfRecordsPerFile : Z := dataSize / m_recordSize.
Notation N := m_numberOfRecordsPerFile.

Definition m_maxPossibleFileId : Z :=
  let n := decodeKey t (m_maxPossibleKey P) in n / N + (if n mod N >? 0 then 1 else 0).

Definition getFileIdForKey (key : Z) : Z := key / N + 1.
Definition getRecordOffsetInMemory (recordId : Z) : Z := (recordId mod N) * m_recordSize.

(** *** Access to the fields of the state *)

Definition set_store (s : state) (f : gmap Z (list Z)) (r : option Z) (o : list FileData) : state :=
  {| files := f; room := r; objects := o; m_fileIds := m_fileIds s; m_fileCache := m_fileCache s;
     m_minKey := m_minKey s; m_maxKey := m_maxKey s;
     m_minNumericKey := m_minNumericKey s; m_maxNumericKey := m_maxNumericKey s |}.
Definition set_cache (s : state) (c : C) : state :=
  {| files := files s; room := room s; objects := objects s; m_fileIds := m_fileIds s; m_fileCache := c;
     m_minKey := m_minKey s; m_maxKey := m_maxKey s;
     m_minNumericKey := m_minNumericKey s; m_maxNumericKey := m_maxNumericKey s |}.
Definition set_fileIds (s : state) (l : list Z) : state :=
  {| files := files s; room := room s; objects := objects s; m_fileIds := l; m_fileCache := m_fileCache s;
     m_minKey := m_minKey s; m_maxKey := m_maxKey s;
     m_minNumericKey := m_minNumericKey s; m_maxNumericKey := m_maxNumericKey s |}.
Definition set_keys (s : state) (mn mx : list Z) (nmn nmx : Z) : state :=
  {| files := files s; room := room s; objects := objects s; m_fileIds := m_fileIds s; m_fileCache := m_fileCache s;
     m_minKey := mn; m_maxKey := mx; m_minNumericKey := nmn; m_maxNumericKey := nmx |}.

(** *** Files *)

(** [file->write(buffer, size, offset)] to a file of the directory. *)
Definition file_write (fileId : Z) (buffer : list Z) (offset : Z) : M Z := fun s =>
  let n := writable (room s) (len buffer) in
  (Ok n, set_store s (alter (fun c => overwrite c offset (take (Z.to_nat n) buffer)) fileId (files s))
           (consume (room s) n) (objects s)).

(** A write to the new file, which is not in the directory yet. *)
Definition fresh_write (buffer : list Z) : M Z := fun s =>
  let n := writable (room s) (len buffer) in
  (Ok n, set_store s (files s) (consume (room s) n) (objects s)).

(** [indexFilePath + kTempFileExtension] *)
Definition tmpFile (fileId : Z) : Z := - fileId.

(** [Database::createFile] of the named temporary file: a file that is there
    already is opened (no O_TRUNC and no O_EXCL), and space is allocated. *)
Definition createNamedFile (fileId : Z) : M unit := modify (fun s =>
  let old := default [] (files s !! tmpFile fileId) in
  set_store s (<[tmpFile fileId := old ++ repeat 0 (Z.to_nat (m_dataFileSize P - len old))]> (files s)) (room s) (objects s)).

Definition header_area : list Z :=
  header_serialize (m_indexHeader P) ++
  repeat 0 (Z.to_nat kIndexFileHeaderSize - length (header_serialize (m_indexHeader P))).
Definition zero_area : list Z := repeat 0 (Z.to_nat dataSize).

(** [file->write] on the new file. *)
Definition new_write (fileId : Z) (buffer : list Z) (offset : Z) : M Z :=
  if m_tmpFile P then fresh_write buffer else file_write (tmpFile fileId) buffer offset.

Definition createIndexFile (fileId : Z) : M unit :=
  (** O_TMPFILE not supported, fallback to the named temporary file *)
  (if m_tmpFile P then mret tt else createNamedFile fileId) ;;'
  n <-- new_write fileId header_area 0 ;;
  if negb (n =? len header_area) then mthrow CannotWriteIndexFile else
  n <-- new_write fileId zero_area (len header_area) ;;
  if negb (n =? len zero_area) then mthrow CannotWriteIndexFile else
  fs <-- gets files ;;
  if m_tmpFile P then
    (** [linkat] *)
    match fs !! fileId with
    | Some _ => mthrow CannotLinkIndexFile
    | None => modify (fun s => set_store s (<[fileId := header_area ++ zero_area]> (files s)) (room s) (objects s))
    end
  else
    (** [rename] *)
    modify (fun s => set_store s (<[fileId := default [] (fs !! tmpFile fileId)]> (delete (tmpFile fileId) (files s))) (room s) (objects s)).

Definition openIndexFile (fileId : Z) : M (list Z) :=
  fs <-- gets files ;;
  match fs !! fileId with
  | None => mthrow CannotOpenIndexFile
  | Some content =>
      if negb (len content =? m_dataFileSize P) then mthrow IndexFileCorrupted else
      buffer <-- mlift (memrd content 0 kIndexFileHeaderSize) ;;
      actualHeader <-- mlift (header_deserialize (m_indexType (m_indexHeader P)) buffer) ;;
      if negb (header_eqb actualHeader (m_indexHeader P)) then mthrow IndexFileCorrupted else mret content
  end.

(** *** [FileData] *)

(** [std::make_shared<FileData>]: reads the data area of the file. *)
Definition make_FileData (fileId : Z) (content : list Z) : M nat :=
  data <-- mlift (memrd content kIndexFileHeaderSize dataSize) ;;
  ptr <-- gets (fun s => length (objects s)) ;;
  modify (fun s => set_store s (files s) (room s) (objects s ++ [{| fd_fileId := fileId; fd_data := data |}])) ;;'
  mret ptr.

Definition get_object (ptr : nat) : M FileData := fun s =>
  match objects s !! ptr with Some d => (Ok d, s) | None => (Undef OutOfBounds, s) end.

(** [FileData::update].  [at] is [noexcept] and would throw. *)
Definition FileData_update (ptr : nat) (pos : Z) (src : list Z) (size : Z) : M unit :=
  d <-- get_object ptr ;;
  if negb ((0 <=? pos) && (pos <? len (fd_data d))) then mlift (Undef Terminated) else
  if size >? 0 then
    let dataSize := len (fd_data d) in
    if (size >? dataSize) || (dataSize - size <? pos) then mthrow OutOfRange else
    bytes <-- mlift (memrd src 0 size) ;;
    data <-- mlift (memwr (fd_data d) pos bytes) ;;
    modify (fun s => set_store s (files s) (room s)
      (<[ptr := {| fd_fileId := fd_fileId d; fd_data := data |}]> (objects s))) ;;'
    n <-- file_write (fd_fileId d) bytes (pos + kIndexFileHeaderSize) ;;
    if negb (n =? size) then mthrow CannotWriteIndexFile else mret tt
  else mret tt.

(** *** Finding and making files *)

(** [std::set<std::uint64_t>] as its elements in order. *)
Fixpoint set_insert (x : Z) (l : list Z) : list Z :=
  match l with
  | [] => [x]
  | y :: l' => if x <? y then x :: l else if x =? y then l else y :: set_insert x l'
  end.

Definition emplace_file (fileId : Z) (ptr : nat) : M unit := fun s =>
  match cache_emplace (m_fileCache s) fileId ptr with
  | Ok c => (Ok tt, set_cache s c)
  | Throw e => (Throw (CacheFailed e), s)
  | Undef u => (Undef u, s)
  end.

Definition get_file (fileId : Z) : M (option nat) := fun s =>
  let '(r, c) := cache_get (m_fileCache s) fileId in (Ok r, set_cache s c).

Definition findFile (fileId : Z) : M (option nat) :=
  if fileId >? m_maxPossibleFileId then mthrow OutOfRange else
  ids <-- gets m_fileIds ;;
  if negb (existsb (Z.eqb fileId) ids) then mret None else
  maybeFileData <-- get_file fileId ;;
  match maybeFileData with
  | Some ptr => mret (Some ptr)
  | None =>
      content <-- openIndexFile fileId ;;
      ptr <-- make_FileData fileId content ;;
      emplace_file fileId ptr ;;'
      mret (Some ptr)
  end.

Definition findFileChecked (fileId : Z) : M nat :=
  file <-- findFile fileId ;;
  match file with Some ptr => mret ptr | None => mthrow (UliMissingFileWhenExpected fileId) end.

Definition makeFile (fileId : Z) : M nat :=
  createIndexFile fileId ;;'
  fs <-- gets files ;;
  ptr <-- make_FileData fileId (default [] (fs !! fileId)) ;;
  modify (fun s => set_fileIds s (set_insert fileId (m_fileIds s))) ;;'
  emplace_file fileId ptr ;;'
  mret ptr.

(** [*(file->getBuffer() + offset)] *)
Definition read_byte (ptr : nat) (offset : Z) : M Z :=
  d <-- get_object ptr ;; mlift (rd (fd_data d) offset).

Definition kValueStateFree : Z := 0.
Definition kValueStateExists1 : Z := 1.
Definition kValueStateExists2 : Z := 2.

(** *** Operations on a key *)

Definition preallocate (key : list Z) : M bool :=
  let fileId := getFileIdForKey (decodeKey t key) in
  file <-- findFile fileId ;;
  match file with
  | Some _ => mret false
  | None => makeFile fileId ;;' mret true
  end.

(** The part of [insert] that keeps the least and the greatest key. *)
Definition extend_keys (key : list Z) (s : state) : state :=
  let numericKey := decodeKey t key in
  if compareKeys t (m_maxKey s) (m_minKey s) <? 0 then set_keys s key key numericKey numericKey
  else
    set_keys s
      (if compareKeys t key (m_minKey s) <? 0 then key else m_minKey s)
      (if compareKeys t key (m_maxKey s) >? 0 then key else m_maxKey s)
      (if numericKey <? m_minNumericKey s then numericKey else m_minNumericKey s)
      (if numericKey >? m_maxNumericKey s then numericKey else m_maxNumericKey s).

Definition insert (key value : list Z) : M bool :=
  let numericKey := decodeKey t key in
  let fileId := getFileIdForKey numericKey in
  file <-- findFile fileId ;;
  ptr <-- (match file with Some ptr => mret ptr | None => makeFile fileId end) ;;
  let offset := getRecordOffsetInMemory numericKey in
  record <-- read_byte ptr offset ;;
  let keyAbsent := record =? kValueStateFree in
  if keyAbsent then
    FileData_update ptr (offset + 1) value (m_valueSize P) ;;'
    FileData_update ptr offset [kValueStateExists1] 1 ;;'
    modify (extend_keys key) ;;'
    mret keyAbsent
  else mret keyAbsent.

Definition update (key value : list Z) : M Z :=
  let numericKey := decodeKey t key in
  file <-- findFile (getFileIdForKey numericKey) ;;
  match file with
  | None => mret 0
  | Some ptr =>
      let offset := getRecordOffsetInMemory numericKey in
      record <-- read_byte ptr offset ;;
      if negb (record =? kValueStateFree) then
        let state := if record =? kValueStateExists1 then kValueStateExists2 else kValueStateExists1 in
        FileData_update ptr (offset + 1 + m_valueSize P * (state - 1)) value (m_valueSize P) ;;'
        FileData_update ptr offset [state] 1 ;;'
        mret 1
      else mret 0
  end.

(** The value that is copied, if there is one. *)
Definition find (key : list Z) (count : Z) : M (option (list Z)) :=
  if count =? 0 then mret None else
  let numericKey := decodeKey t key in
  file <-- findFile (getFileIdForKey numericKey) ;;
  match file with
  | None => mret None
  | Some ptr =>
      let offset := getRecordOffsetInMemory numericKey in
      record <-- read_byte ptr offset ;;
      if negb (record =? kValueStateFree) then
        if record <=? kValueStateExists2 then
          d <-- get_object ptr ;;
          value <-- mlift (memrd (fd_data d) (offset + 1 + (record - 1) * m_valueSize P) (m_valueSize P)) ;;
          mret (Some value)
        else mthrow (UliCorrupted numericKey)
      else mret None
  end.

Definition count (key : list Z) : M Z :=
  let numericKey := decodeKey t key in
  file <-- findFile (getFileIdForKey numericKey) ;;
  match file with
  | None => mret 0
  | Some ptr =>
      record <-- read_byte ptr (getRecordOffsetInMemory numericKey) ;;
      mret (if negb (record =? kValueStateFree) then 1 else 0)
  end.

(** *** Least and greatest key *)

Definition getMinKey : M (option (list Z)) :=
  gets (fun s => if compareKeys t (m_minKey s) (m_maxKey s) >? 0 then None else Some (m_minKey s)).
Definition getMaxKey : M (option (list Z)) :=
  gets (fun s => if compareKeys t (m_minKey s) (m_maxKey s) >? 0 then None else Some (m_maxKey s)).

(** The loop over the records of a file in [findLeadingKey]: [i] of the first
    record in use; [n] records are left. *)
Fixpoint leading_record (n : nat) (data : list Z) (i offset : Z) : outcome UliError (option Z) :=
  match n with
  | O => Ok None
  | S n' =>
      b <- rd data offset ;;
      if negb (b =? kValueStateFree) then Ok (Some i) else leading_record n' data (i + 1) (offset + m_recordSize)
  end.

Fixpoint findLeadingKey_loop (ids : list Z) : M (option (list Z)) :=
  match ids with
  | [] => mret None
  | fileId :: ids' =>
      ptr <-- findFileChecked fileId ;;
      d <-- get_object ptr ;;
      r <-- mlift (leading_record (Z.to_nat N) (fd_data d) 0 0) ;;
      match r with
      | Some i => mret (Some (encodeKey t (uw 64 ((fileId - 1) * N + i))))
      | None => findLeadingKey_loop ids'
      end
  end.
Definition findLeadingKey : M (option (list Z)) := ids <-- gets m_fileIds ;; findLeadingKey_loop ids.

(** The loop of [findTrailingKey]: [n] is its [i]. *)
Fixpoint trailing_record (n : nat) (data : list Z) (offset : Z) : outcome UliError (option Z) :=
  match n with
  | O => Ok None
  | S n' =>
      b <- rd data offset ;;
      if negb (b =? kValueStateFree) then Ok (Some (Z.of_nat n)) else trailing_record n' data (offset - m_recordSize)
  end.

Fixpoint findTrailingKey_loop (ids : list Z) : M (option (list Z)) :=
  match ids with
  | [] => mret None
  | fileId :: ids' =>
      ptr <-- findFileChecked fileId ;;
      d <-- get_object ptr ;;
      r <-- mlift (trailing_record (Z.to_nat N) (fd_data d) ((N - 1) * m_recordSize)) ;;
      match r with
      | Some i => mret (Some (encodeKey t (uw 64 ((fileId - 1) * N + i - 1))))
      | None => findTrailingKey_loop ids'
      end
  end.
Definition findTrailingKey : M (option (list Z)) := ids <-- gets m_fileIds ;; findTrailingKey_loop (reverse ids).

(** *** Keys before and after a key *)

(** An iterator of the set of file IDs: what is before it, the nearest first,
    and what it points to and follows. *)
Fixpoint lower_bound (x : Z) (before after : list Z) : list Z * list Z :=
  match after with
  | [] => (before, [])
  | y :: after' => if y <? x then lower_bound x (y :: before) after' else (before, after)
  end.

(** The records of a file from an offset downwards; [fuel] is more than the
    records there are. *)
Fixpoint before_records (fuel : nat) (data : list Z) (offset currentNumericKey : Z) (key : list Z)
  : outcome UliError (option (list Z)) :=
  if offset <? 0 then Ok None else
  match fuel with
  | O => Undef NoProgress
  | S n =>
      b <- rd data offset ;;
      let keyBefore := encodeKey t currentNumericKey in
      if negb (b =? kValueStateFree) && (compareKeys t keyBefore key <? 0) then Ok (Some keyBefore)
      else before_records n data (offset - m_recordSize) (uw 64 (currentNumericKey - 1)) key
  end.

(** The [while] loop, with the file IDs before the iterator. *)
Fixpoint findKeyBefore_loop (key : list Z) (fileId recordId currentNumericKey : Z) (before : list Z)
  : M (option (list Z)) :=
  ptr <-- findFileChecked fileId ;;
  d <-- get_object ptr ;;
  r <-- mlift (if recordId >? 0 then
                 before_records (S (Z.to_nat N)) (fd_data d) (getRecordOffsetInMemory (recordId - 1))
                   (uw 64 (currentNumericKey - 1)) key
               else Ok None) ;;
  match r with
  | Some keyBefore => mret (Some keyBefore)
  | None =>
      match before with
      | [] => mret None
      | fileId :: before' =>
          findKeyBefore_loop key fileId N (uw 64 ((fileId - 1) * N + N)) before'
      end
  end.

Definition findKeyBefore (key : list Z) : M (option (list Z)) :=
  minKey <-- gets m_minKey ;;
  if (compareKeys t key minKey =? 0) || (compareKeys t key (m_minPossibleKey P) =? 0) then mret None else
  let numericKey := decodeKey t key in
  let fileId := getFileIdForKey numericKey in
  ids <-- gets m_fileIds ;;
  let minFileId := hd 0 ids in
  if fileId <? minFileId then mret None else
  let '(before, after) := lower_bound fileId [] ids in
  match after with
  | x :: _ =>
      if x >? fileId then
        match before with
        | [] => mlift (Undef OutOfBounds)
        | fileId :: before' => findKeyBefore_loop key fileId N (uw 64 ((fileId - 1) * N + N)) before'
        end
      else findKeyBefore_loop key fileId (numericKey mod N) numericKey before
  | [] =>
      match before with
      | [] => mlift (Undef OutOfBounds)  (** [*--fileIter] of an empty set *)
      | fileId :: before' => findKeyBefore_loop key fileId N (uw 64 ((fileId - 1) * N + N)) before'
      end
  end.

(** The records from an offset up to the end of the file. *)
Fixpoint after_records (fuel : nat) (data : list Z) (offset currentNumericKey : Z) (key : list Z)
  : outcome UliError (option (list Z)) :=
  if offset =? N * m_recordSize then Ok None else
  match fuel with
  | O => Undef NoProgress
  | S n =>
      b <- rd data offset ;;
      let keyAfter := encodeKey t currentNumericKey in
      if negb (b =? kValueStateFree) && (compareKeys t keyAfter key >? 0) then Ok (Some keyAfter)
      else after_records n data (offset + m_recordSize) (uw 64 (currentNumericKey + 1)) key
  end.

(** The [while] loop, with the file IDs that the iterator points to and
    follow. *)
Fixpoint findKeyAfter_loop (key : list Z) (recordId currentNumericKey : Z) (after : list Z) : M (option (list Z)) :=
  match after with
  | [] => mret None
  | fileId :: after' =>
      ptr <-- findFileChecked fileId ;;
      d <-- get_object ptr ;;
      r <-- mlift (after_records (S (Z.to_nat N)) (fd_data d) (getRecordOffsetInMemory recordId) currentNumericKey key) ;;
      match r with
      | Some keyAfter => mret (Some keyAfter)
      | None => findKeyAfter_loop key 0 (uw 64 ((hd 0 after' - 1) * N)) after'
      end
  end.

Definition findKeyAfter (key : list Z) : M (option (list Z)) :=
  maxKey <-- gets m_maxKey ;;
  if (compareKeys t key maxKey =? 0) || (compareKeys t key (m_maxPossibleKey P) =? 0) then mret None else
  let numericKey := decodeKey t key in
  let fileId := getFileIdForKey numericKey in
  ids <-- gets m_fileIds ;;
  let maxFileId := List.last ids 0 in
  if fileId >? maxFileId then mret None else
  let '(_, after) := lower_bound fileId [] ids in
  match after with
  | [] =>  (** [fileIter = m_fileIds.cbegin()] *)
      match ids with
      | [] => mlift (Undef OutOfBounds)
      | x :: _ => findKeyAfter_loop key 0 (uw 64 ((x - 1) * N)) ids
      end
  | x :: _ =>
      if x >? fileId then findKeyAfter_loop key 0 (uw 64 ((x - 1) * N)) after
      else findKeyAfter_loop key (numericKey mod N + 1) (uw 64 (numericKey + 1)) after
  end.

Definition findFirstKey : M (option (list Z)) := if m_sortDescending P then findTrailingKey else findLeadingKey.
Definition findLastKey : M (option (list Z)) := if m_sortDescending P then findLeadingKey else findTrailingKey.
Definition findPreviousKey (key : list Z) : M (option (list Z)) :=
  if m_sortDescending P then findKeyAfter key else findKeyBefore key.
Definition findNextKey (key : list Z) : M (option (list Z)) :=
  if m_sortDescending P then findKeyBefore key else findKeyAfter key.

(** *** Removal *)

(** The numeric keys after one of the keys was replaced. *)
Definition replace_keys (newMin newMax : option (list Z)) (s : state) : state :=
  let mn := default (m_minKey s) newMin in
  let nmn := match newMin with Some k => decodeKey t k | None => m_minNumericKey s end in
  let mx := default (m_maxKey s) newMax in
  let nmx := match newMax with Some k => decodeKey t k | None => m_maxNumericKey s end in
  if nmn >? nmx then set_keys s mn mx nmx nmn else set_keys s mn mx nmn nmx.

Definition updateMinAndMaxKeysAfterRemoval (removedKey : list Z) : M unit :=
  minKey <-- gets m_minKey ;;
  maxKey <-- gets m_maxKey ;;
  let isMinKeyRemoved := compareKeys t removedKey minKey =? 0 in
  let isMaxKeyRemoved := compareKeys t removedKey maxKey =? 0 in
  if isMinKeyRemoved && isMaxKeyRemoved then
    modify (fun s => set_keys s (m_maxPossibleKey P) (m_minPossibleKey P) 0 0)
  else if isMinKeyRemoved then
    lesserKey <-- (if m_sortDescending P then findNextKey removedKey else findPreviousKey removedKey) ;;
    match lesserKey with
    | Some k => modify (replace_keys (Some k) None)
    | None =>
        greaterKey <-- (if m_sortDescending P then findPreviousKey removedKey else findNextKey removedKey) ;;
        match greaterKey with
        | Some k => modify (replace_keys (Some k) None)
        | None => mthrow UliMissingGreaterValueWhenExpected
        end
    end
  else if isMaxKeyRemoved then
    greaterKey <-- (if m_sortDescending P then findNextKey removedKey else findPreviousKey removedKey) ;;
    match greaterKey with
    | Some k => modify (replace_keys None (Some k))
    | None =>
        lesserKey <-- (if m_sortDescending P then findNextKey removedKey else findPreviousKey removedKey) ;;
        match lesserKey with
        | Some k => modify (replace_keys None (Some k))
        | None => mthrow UliMissingLessValueWhenExpected
        end
    end
  else mret tt.

Definition erase (key : list Z) : M Z :=
  let numericKey := decodeKey t key in
  file <-- findFile (getFileIdForKey numericKey) ;;
  match file with
  | None => mret 0
  | Some ptr =>
      let offset := getRecordOffsetInMemory numericKey in
      record <-- read_byte ptr offset ;;
      if negb (negb (record =? kValueStateFree)) then mret 0 else
      FileData_update ptr offset [kValueStateFree] 1 ;;'
      updateMinAndMaxKeysAfterRemoval key ;;'
      mret 1
  end.

(** *** Creating and opening an index *)

Definition new_state (c : C) (r : option Z) : state :=
  {| files := ∅; room := r; objects := []; m_fileIds := []; m_fileCache := c;
     m_minKey := m_maxPossibleKey P; m_maxKey := m_minPossibleKey P; m_minNumericKey := 0; m_maxNumericKey := 0 |}.

(** The IDs of the files in the directory, in order.  The name of a temporary
    file has the prefix of index files and no valid ID. *)
Definition scanFiles (fs : gmap Z (list Z)) : outcome UliError (list Z) :=
  let ids := (map_to_list fs).*1 in
  if existsb (fun id => id <=? 0) ids then Throw UliInvalidIndexFileName else Ok (foldr set_insert [] ids).

(** The second constructor: the files that are in the directory, and the keys
    found in them. *)
Definition open_index (c : C) (fs : gmap Z (list Z)) (r : option Z) : outcome UliError unit * state :=
  let s := {| files := fs; room := r; objects := []; m_fileIds := []; m_fileCache := c;
              m_minKey := m_maxPossibleKey P; m_maxKey := m_minPossibleKey P; m_minNumericKey := 0; m_maxNumericKey := 0 |} in
  (ids <-- mlift (scanFiles fs) ;;
   modify (fun s => set_fileIds s ids) ;;'
   minKey <-- findLeadingKey ;;
   maxKey <-- findTrailingKey ;;
   let mn := default (m_maxPossibleKey P) minKey in
   let mx := default (m_minPossibleKey P) maxKey in
   modify (fun s =>
     if compareKeys t mn mx <=? 0 then
       let a := decodeKey t mn in
       let b := decodeKey t mx in
       if a >? b then set_keys s mn mx b a else set_keys s mn mx a b
     else set_keys s mn mx 0 0)) s.
End Index.

(** The first constructor: validation and parameters.  [memory1] and [memory2]
    are the key buffers before they are filled. *)
Definition new_params (traits : IndexKeyTraits) (valueSize dataFileSize : Z) (sortDescending : bool)
  (memory1 memory2 : list Z) (header : IndexFileHeader) (tmpFile : bool) : outcome UliError uli_params :=
  size <- validateIndexFileSize dataFileSize ;;
  validateKeySize traits ;;;
  validateKeyType traits ;;;
  let recordSize := computeIndexRecordSize valueSize in
  if (size - kIndexFileHeaderSize) / recordSize =? 0 then Undef DivisionByZero else
  Ok {| m_traits := traits; m_valueSize := valueSize; m_dataFileSize := size; m_sortDescending := sortDescending;
        m_minPossibleKey := IndexKeys.getMinKey traits memory1; m_maxPossibleKey := IndexKeys.getMaxKey traits memory2;
        m_indexHeader := header; m_tmpFile := tmpFile |}.

(** ** [uli::FileCache]

    An LRU cache of the default kind: every entry may be evicted. *)

Definition kFileCacheCapacity : nat := 20.

#[export] Instance FileCache_hooks : LruHooks unit Z nat := {
  can_evict _ _ _ := true;
  on_evict w _ _ _ := Ok w;
  on_last_chance_cleanup w := Ok (false, w)
}.

#[export] Instance lru_file_cache : FileCache (lru_cache (K := Z) (T := nat)) := {
  cache_get c k := get 0 c k;
  cache_emplace c k p := '(_, _, c) <- emplace (W := unit) 0 tt c k p false ;; Ok c
}.

(** The cache of a new index. *)
Definition new_file_cache : lru_cache (K := Z) (T := nat) := empty_cache kFileCacheCapacity.
