(* ===== verification/LinearIndexOps.v ===== *)
(** * The operations of the linear index

    What each operation of [LinearIndex] does to the map that the files mean.
    The rules are in the form of weakest preconditions: for every state that
    represents a map, the operation returns with the stated result in a state
    that represents the stated map, or throws because a write failed, with the
    files meaning the map before or after the operation. *)

Set Warnings "-clear-no-such-hyp,-notation-incompatible-prefix,-notation-for-abbreviation".
From Stdlib Require Import ZArith Lia.
From stdpp Require Import base list gmap sorting.
From S2P Require Import Prelude PlainBinary IndexKeys LruCache StateM Bytes LinearIndex.

(** ** The storage of the linear index

    Files, cached contents and records of [LinearIndex]: what a set of files
    means as a map from record numbers to values, and how the writes of the
    operations change that map, completely or up to a byte at which they fail.
    The cache of files is used through its interface, which the LRU cache
    implements. *)

Local Open Scope Z_scope.

(** ** The LRU cache is a cache of files *)

#[export] Instance lru_file_cache_laws : FileCacheLaws (lru_cache (K := Z) (T := nat)).
Proof.
  refine {| cache_ok c := lru_ok c /\ (0 < m_capacity c)%nat; cached c k p := spec_lookup (entries c) k = Some p |}.
  - intros c k p q Hp Hq. congruence.
  - intros c k [Hok Hcap]. cbn. pose proof (get_ok 0 c k Hok) as (Hok' & Hr & He).
    assert (Hc : m_capacity (get 0 c k).2 = m_capacity c)
      by (unfold get; destruct (m_map c !! k) as [[v n]|]; [case_bool_decide|]; done).
    destruct (get 0 c k) as [r c']. cbn in *. split; [split; [done|by rewrite Hc]|]. split.
    + intros k' p. by rewrite He, spec_get_lookup.
    + intros p. rewrite Hr. unfold spec_get. by destruct (spec_lookup (entries c) k).
  - intros c k p [Hok Hcap] Hnone. pose proof (emplace_ok 0 tt c k p false Hok) as H.
    assert (Hk : spec_lookup (entries c) k = None) by (destruct (spec_lookup (entries c) k) as [v|]; [by destruct (Hnone v)|done]).
    assert (Hspec : exists l', spec_emplace 0 (m_capacity c) tt (entries c) k p false = Ok (true, tt, (k, p) :: l') /\
      forall k' q, spec_lookup l' k' = Some q -> spec_lookup (entries c) k' = Some q).
    { unfold spec_emplace. rewrite Hk. case_decide as Hfull; [|eauto].
      destruct (entries c) as [|e l] eqn:El; [cbn in Hfull; lia|]. cbn [spec_evict].
      assert (Hv : exists e', spec_victim tt (e :: l) = Some e') by (cbn; destruct (spec_victim tt l); eauto).
      destruct Hv as [[k0 v0] ->]. cbn [bind on_evict FileCache_hooks]. eexists. split; [done|].
      intros k' q. rewrite spec_lookup_remove. by case_decide. }
    destruct Hspec as (l' & Hspec & Hl'). rewrite Hspec in H. unfold cache_emplace, lru_file_cache.
    destruct (emplace 0 tt c k p false) as [[[b w] c']|e|u]; cbn in H; try done.
    destruct H as (_ & _ & Hok' & Hcap' & He). cbn in Hok', Hcap', He. exists c'. rewrite He. cbn.
    split; [done|]. split; [by rewrite Hcap'|]. split; [by rewrite decide_True|].
    intros k' q. case_decide; [|auto]. intros [= <-]. subst. by left.
Defined.

(** ** The file header *)

(** A header is read back, with anything behind it. *)
Lemma header_roundtrip h rest : m_version h = kCurrentVersion /\ u_ok 8 (m_indexType h) /\ len (m_databaseUuid h) = 16 /\
    u_ok 32 (m_tableId h) /\ u_ok 64 (m_indexId h) ->
  header_deserialize (E := UliError) (m_indexType h) (header_serialize h ++ rest) = Ok h.
Proof.
  intros (Hv & Ht & Hu & Htab & Hidx). unfold header_serialize, pbeEncodeUInt32, pbeEncodeUInt64.
  set (b1 := le_store 4 (m_version h)). set (b3 := le_store 4 (m_tableId h)). set (b4 := le_store 8 (m_indexId h)).
  assert (H1 : len b1 = 4) by apply len_le_store. assert (H3 : len b3 = 4) by apply len_le_store. assert (H4 : len b4 = 8) by apply len_le_store.
  rewrite uw_small by done. set (buf := (_ ++ _) ++ rest).
  assert (E1 : buf = b1 ++ m_indexType h :: m_databaseUuid h ++ b3 ++ b4 ++ rest)
    by (unfold buf; cbn [app]; rewrite <- !(assoc_L (++)); cbn [app]; by rewrite <- !(assoc_L (++))).
  assert (E2 : buf = (b1 ++ [m_indexType h]) ++ m_databaseUuid h ++ b3 ++ b4 ++ rest) by (rewrite E1, <- (assoc_L (++)); done).
  assert (E3 : drop 21 buf = b3 ++ b4 ++ rest).
  { rewrite E2, (assoc_L (++)). apply drop_app_length'. rewrite !length_app. cbn. unfold len in *. lia. }
  assert (E4 : drop 25 buf = b4 ++ rest).
  { change 25%nat with (21 + 4)%nat. rewrite <- drop_drop, E3. apply drop_app_length'. unfold len in *. lia. }
  unfold header_deserialize, pbeDecodeUInt32, pbeDecodeUInt64. rewrite E3, E4.
  rewrite (memrd_head b3), (memrd_head b4) by done.
  replace (@memrd UliError buf 0 4) with (@Ok UliError _ b1) by (rewrite E1; by rewrite memrd_head).
  replace (@memrd UliError buf 5 16) with (@Ok UliError _ (m_databaseUuid h)) by (rewrite E2; rewrite memrd_mid; [done|rewrite len_app, H1; done|done]).
  replace (@rd UliError buf 4) with (@Ok UliError _ (m_indexType h))
    by (rewrite E1; replace 4 with (len b1 + 0) by lia; rewrite rd_app_r by lia; done).
  cbn [bind]. unfold b1, b3, b4. rewrite !le_load_store, Hv, Z.eqb_refl.
  change (kCurrentVersion mod 2 ^ (8 * Z.of_nat 4) >? kCurrentVersion) with false. cbn [negb].
  rewrite !Z.mod_small by done. by destruct h; cbn in *; subst.
Qed.

(** ** Records

    [R] is the record size, [V] the value size, [N] the number of records. *)

Section Records.
Context (P : uli_params).
Notation V := (m_valueSize P).
Notation R := (m_recordSize P).
Notation N := (m_numberOfRecordsPerFile P).
Notation t := (m_traits P).

Record params_ok : Prop := {
  p_laws : KeyTraitsLaws (m_traits P) (m_minPossibleKey P) (m_maxPossibleKey P);
  p_value : 0 < V < 2 ^ 32;
  p_size : kMinDataFileSize <= m_dataFileSize P <= kMaxDataFileSize;
  p_records : 0 < N;
  p_header : m_version (m_indexHeader P) = kCurrentVersion /\ u_ok 8 (m_indexType (m_indexHeader P)) /\
    len (m_databaseUuid (m_indexHeader P)) = 16 /\
    u_ok 32 (m_tableId (m_indexHeader P)) /\ u_ok 64 (m_indexId (m_indexHeader P))
}.

(** The greatest key that the index accepts. *)
Definition max_key : Z := decodeKey t (m_maxPossibleKey P).

Definition record_state (data : list Z) (i : Z) : Z := default 0 (data !! Z.to_nat (i * R)).
Definition slot_offset (i st : Z) : Z := i * R + 1 + V * (st - 1).
Definition record_slot (data : list Z) (i st : Z) : list Z := sub data (slot_offset i st) V.
Definition record_value (data : list Z) (i : Z) : option (list Z) :=
  if record_state data i =? 0 then None else Some (record_slot data i (record_state data i)).

Context (Hp : params_ok).

Lemma record_size : R = 2 * V + 1.
Proof.
  unfold m_recordSize, computeIndexRecordSize. destruct Hp as [_ Hv _ _ _]. rewrite uw_small; [lia|]. unfold u_ok.
  pow_norm. lia.
Qed.

Lemma records_fit : N * R <= dataSize P /\ 4096 <= dataSize P.
Proof.
  pose proof record_size. destruct Hp as [_ Hv Hs _ _]. unfold m_numberOfRecordsPerFile.
  assert (0 < R) by lia. pose proof (Z.mul_div_le (dataSize P) R ltac:(lia)).
  unfold dataSize, kMinDataFileSize, kMinDataSizePerFile, kIndexFileHeaderSize in *. lia.
Qed.

(** Records do not overlap. *)
Lemma record_apart i j : i < j -> i * R + R <= j * R.
Proof. pose proof record_size. destruct Hp as [_ Hv _ _ _]. nia. Qed.

Lemma record_bound i : 0 <= i < N -> 0 <= i * R /\ i * R + R <= dataSize P.
Proof. intros Hi. pose proof record_size. destruct (records_fit). destruct Hp as [_ Hv _ _ _]. split; nia. Qed.

Lemma state_lookup data i : len data = dataSize P -> 0 <= i < N -> data !! Z.to_nat (i * R) = Some (record_state data i).
Proof.
  intros Hd Hi. unfold record_state. destruct (record_bound i Hi). pose proof record_size. destruct Hp as [_ Hv _ _ _].
  destruct (lookup_lt_is_Some_2 data (Z.to_nat (i * R))) as [b ->]; [unfold len in Hd; lia|done].
Qed.

Lemma state_sub data i : 0 <= i -> record_state data i = default 0 (head (sub data (i * R) 1)).
Proof.
  intros Hi. unfold record_state. rewrite head_lookup, sub_lookup, decide_True by lia. by rewrite Nat.add_0_r.
Qed.

(** Writing into a slot that is not in use, possibly only in part. *)
Lemma write_slot data i st b : len data = dataSize P -> 0 <= i < N -> st = 1 \/ st = 2 -> st <> record_state data i -> len b <= V ->
  (forall j, 0 <= j < N -> record_state (overwrite data (slot_offset i st) b) j = record_state data j) /\
  (forall j, 0 <= j < N -> record_state data j = 0 \/ record_state data j = 1 \/ record_state data j = 2 ->
     record_value (overwrite data (slot_offset i st) b) j = record_value data j).
Proof.
  intros Hd Hi Hst Hne Hb. pose proof record_size as HR. destruct (record_bound i Hi) as [Hlo Hhi].
  pose proof (p_value Hp) as Hv. pose proof (len_nonneg b). unfold slot_offset.
  assert (Hs : forall j, 0 <= j < N ->
    record_state (overwrite data (i * R + 1 + V * (st - 1)) b) j = record_state data j).
  { intros j Hj. rewrite !state_sub by lia. f_equal. f_equal. destruct (record_bound j Hj).
    apply sub_overwrite_out; [nia|nia|lia|].
    destruct (Z.lt_trichotomy i j) as [Hij|[->|Hij]]; [right; pose proof (record_apart i j Hij); nia|left; nia|
      left; pose proof (record_apart j i Hij); nia]. }
  split; [exact Hs|]. intros j Hj Hstate. unfold record_value. rewrite Hs by done. case_match; [done|].
  f_equal. unfold record_slot, slot_offset. destruct (record_bound j Hj). apply sub_overwrite_out; [nia|nia|nia|].
  destruct (Z.lt_trichotomy i j) as [Hij|[->|Hij]].
  - right. pose proof (record_apart i j Hij). nia.
  - destruct Hst as [-> | ->], Hstate as [Hs0|[Hs0|Hs0]]; rewrite Hs0 in *; lia.
  - left. pose proof (record_apart j i Hij). nia.
Qed.

(** Writing a state. *)
Lemma write_state data i st : len data = dataSize P -> 0 <= i < N ->
  (forall j, 0 <= j < N -> record_state (overwrite data (i * R) [st]) j = if decide (j = i) then st else record_state data j) /\
  (forall j st', 0 <= j < N -> st' = 1 \/ st' = 2 -> record_slot (overwrite data (i * R) [st]) j st' = record_slot data j st').
Proof.
  intros Hd Hi. pose proof record_size as HR. destruct (record_bound i Hi) as [Hlo Hhi]. pose proof (p_value Hp) as Hv.
  assert (H1 : len [st] = 1) by done. split.
  - intros j Hj. rewrite !state_sub by lia. destruct (record_bound j Hj). case_decide as Hij.
    + subst j. by rewrite sub_overwrite_in by lia.
    + f_equal. f_equal. apply sub_overwrite_out; [lia|lia|lia|].
      destruct (Z.lt_trichotomy i j) as [Hl|[->|Hl]]; [pose proof (record_apart i j Hl)|done|pose proof (record_apart j i Hl)]; lia.
  - intros j st' Hj Hst'. unfold record_slot, slot_offset. destruct (record_bound j Hj).
    apply sub_overwrite_out; [lia|lia|nia|].
    destruct (Z.lt_trichotomy i j) as [Hl|[->|Hl]]; [pose proof (record_apart i j Hl)|right|pose proof (record_apart j i Hl)]; nia.
Qed.

(** ** Files *)

Definition data_of (content : list Z) : list Z := drop (Z.to_nat kIndexFileHeaderSize) content.

Record file_ok (id : Z) (content : list Z) : Prop := {
  f_size : len content = m_dataFileSize P;
  f_header : take (Z.to_nat kIndexFileHeaderSize) content = header_area P;
  f_id : 1 <= id <= m_maxPossibleFileId P;
  f_state : forall i, 0 <= i < N -> let st := record_state (data_of content) i in
    (st = 0 \/ st = 1 \/ st = 2) /\ (st <> 0 -> (id - 1) * N + i <= max_key)
}.

Definition value_at (fs : gmap Z (list Z)) (k : Z) : option (list Z) :=
  match fs !! getFileIdForKey P k with
  | Some content => record_value (data_of content) (k mod N)
  | None => None
  end.

(** The files mean the map [m]. *)
Record files_ok (fs : gmap Z (list Z)) (m : gmap Z (list Z)) : Prop := {
  fs_files : forall id content, fs !! id = Some content -> file_ok id content;
  fs_value : forall k, 0 <= k -> value_at fs k = m !! k;
  fs_neg : forall k, k < 0 -> m !! k = None
}.

Lemma data_len id content : file_ok id content -> len (data_of content) = dataSize P.
Proof.
  intros [Hs _ _ _]. pose proof (p_size Hp) as Hz. unfold data_of, dataSize, len in *. rewrite length_drop.
  unfold kMinDataFileSize, kMinDataSizePerFile, kIndexFileHeaderSize in *. lia.
Qed.

(** Keys as a file and a record in it. *)
Lemma key_split k : 0 <= k -> 0 <= k mod N < N /\ 1 <= getFileIdForKey P k /\ (getFileIdForKey P k - 1) * N + k mod N = k.
Proof.
  intros Hk. pose proof (p_records Hp). unfold getFileIdForKey. pose proof (Z.mod_pos_bound k N ltac:(lia)).
  pose proof (Z.div_pos k N Hk ltac:(lia)). pose proof (Z.div_mod k N ltac:(lia)). nia.
Qed.

Lemma key_join id i : 1 <= id -> 0 <= i < N ->
  0 <= (id - 1) * N + i /\ getFileIdForKey P ((id - 1) * N + i) = id /\ ((id - 1) * N + i) mod N = i.
Proof.
  intros Hid Hi. unfold getFileIdForKey. split; [nia|]. split.
  - rewrite Z.div_add_l, Z.div_small by lia. lia.
  - rewrite Z.add_comm, Z.mod_add, Z.mod_small by lia. done.
Qed.

(** Replacing a file. *)
Lemma files_insert fs m id c m' : files_ok fs m -> file_ok id c ->
  (forall k, 0 <= k -> getFileIdForKey P k = id -> record_value (data_of c) (k mod N) = m' !! k) ->
  (forall k, k < 0 \/ getFileIdForKey P k <> id -> m' !! k = m !! k) ->
  files_ok (<[id := c]> fs) m'.
Proof.
  intros [Hf Hv Hn] Hc Hin Hout. split.
  - intros id' c'. rewrite lookup_insert. case_decide; [intros [= <-]; by subst|apply Hf].
  - intros k Hk. unfold value_at. rewrite lookup_insert. case_decide as E; [by apply Hin|].
    rewrite Hout by auto. by apply Hv.
  - intros k Hk. rewrite Hout by auto. auto.
Qed.

Lemma alter_is_insert (f : list Z -> list Z) id c (fs : gmap Z (list Z)) : fs !! id = Some c -> alter f id fs = <[id := f c]> fs.
Proof.
  intros Hc. apply map_eq. intros j. rewrite lookup_insert. case_decide; [subst; by rewrite lookup_alter_eq, Hc|].
  by rewrite lookup_alter_ne.
Qed.

(** Storing bytes in the data area of a file. *)
Definition poke_file (id pos : Z) (b : list Z) (fs : gmap Z (list Z)) : gmap Z (list Z) :=
  alter (fun c => overwrite c (pos + kIndexFileHeaderSize) b) id fs.

Lemma poke_data id c pos b : file_ok id c -> 0 <= pos -> pos + len b <= dataSize P ->
  data_of (overwrite c (pos + kIndexFileHeaderSize) b) = overwrite (data_of c) pos b /\
  len (overwrite c (pos + kIndexFileHeaderSize) b) = m_dataFileSize P /\
  take (Z.to_nat kIndexFileHeaderSize) (overwrite c (pos + kIndexFileHeaderSize) b) = header_area P.
Proof.
  intros [Hs Hh _ _] Hpos Hb. unfold data_of, dataSize in *.
  assert (0 <= kIndexFileHeaderSize) by (unfold kIndexFileHeaderSize; lia).
  rewrite overwrite_drop, overwrite_len, overwrite_take by lia. done.
Qed.

Lemma file_value id c j : file_ok id c -> 0 <= j < N -> record_value (data_of c) j = None <-> record_state (data_of c) j = 0.
Proof. intros Hc Hj. unfold record_value. destruct (Z.eqb_spec (record_state (data_of c) j) 0); [done|]. by split. Qed.

(** A write to a slot that is not in use does not change the meaning. *)
Lemma files_write_slot fs m k c st b : files_ok fs m -> 0 <= k -> fs !! getFileIdForKey P k = Some c ->
  st = 1 \/ st = 2 -> st <> record_state (data_of c) (k mod N) -> len b <= V ->
  files_ok (poke_file (getFileIdForKey P k) (slot_offset (k mod N) st) b fs) m.
Proof.
  intros Hfs Hk Hc Hst Hne Hb. destruct (key_split k Hk) as (Hi & Hid & _).
  pose proof (fs_files _ _ Hfs _ _ Hc) as Hfile. pose proof (data_len _ _ Hfile) as Hd. pose proof (len_nonneg b).
  destruct (record_bound _ Hi). pose proof record_size. pose proof (p_value Hp).
  destruct (write_slot (data_of c) (k mod N) st b Hd Hi Hst Hne Hb) as [Hs Hv].
  destruct (poke_data _ c (slot_offset (k mod N) st) b Hfile) as (Hdata & Hlen & Htake); [unfold slot_offset; nia..|].
  unfold poke_file. rewrite (alter_is_insert _ _ c) by done. apply (files_insert fs m); [done| |..|done].
  - split; [done|done|by apply (f_id _ _ Hfile)|]. intros i Hi'. rewrite Hdata, Hs by done. by apply (f_state _ _ Hfile).
  - intros k' Hk' Heq. destruct (key_split k' Hk') as (Hi' & _ & _). rewrite Hdata, Hv; [|done|by apply (f_state _ _ Hfile)].
    rewrite <- (fs_value _ _ Hfs) by done. unfold value_at. by rewrite Heq, Hc.
Qed.

(** What switching the state of the record of a key does. *)
Definition switched (m : gmap Z (list Z)) (k : Z) (data : list Z) (st : Z) : gmap Z (list Z) :=
  if st =? 0 then delete k m else <[k := record_slot data (k mod N) st]> m.

Lemma files_write_state fs m k c st : files_ok fs m -> 0 <= k <= max_key -> fs !! getFileIdForKey P k = Some c ->
  st = 0 \/ st = 1 \/ st = 2 ->
  files_ok (poke_file (getFileIdForKey P k) ((k mod N) * R) [st] fs) (switched m k (data_of c) st).
Proof.
  intros Hfs Hk Hc Hst. destruct (key_split k) as (Hi & Hid & Hjoin); [lia|].
  pose proof (fs_files _ _ Hfs _ _ Hc) as Hfile. pose proof (data_len _ _ Hfile) as Hd.
  destruct (record_bound _ Hi). pose proof record_size. pose proof (p_value Hp).
  destruct (write_state (data_of c) (k mod N) st Hd Hi) as [Hs Hslot].
  destruct (poke_data _ c ((k mod N) * R) [st] Hfile) as (Hdata & Hlen & Htake); [lia|change (len [st]) with 1; lia|].
  unfold poke_file. rewrite (alter_is_insert _ _ c) by done. apply (files_insert fs m); [done| |..].
  - split; [done|done|by apply (f_id _ _ Hfile)|]. intros i Hi'. rewrite Hdata, Hs by done.
    case_decide; [subst i; split; [done|lia]|by apply (f_state _ _ Hfile)].
  - intros k' Hk' Heq. destruct (key_split k' Hk') as (Hi' & _ & Hjoin'). rewrite Hdata. unfold record_value. rewrite Hs by done.
    unfold switched. case_decide as E.
    + assert (k' = k) as -> by (rewrite <- Hjoin, <- Hjoin', Heq, E; done).
      destruct (Z.eqb_spec st 0); [by rewrite lookup_delete_eq|]. rewrite lookup_insert_eq. f_equal. apply Hslot; [done|lia].
    + assert (k <> k') by congruence.
      transitivity (m !! k'); [|case_match; [by rewrite lookup_delete_ne|by rewrite lookup_insert_ne]].
      rewrite <- (fs_value _ _ Hfs) by done. unfold value_at. rewrite Heq, Hc. unfold record_value.
      destruct (Z.eqb_spec (record_state (data_of c) (k' mod N)) 0); [done|]. f_equal. apply Hslot; [done|].
      destruct (f_state _ _ Hfile _ Hi') as [[?|?] _]; [done|lia].
  - intros k' Hk'. assert (k <> k') by (intros <-; destruct Hk'; [lia|done]). unfold switched.
    case_match; [by rewrite lookup_delete_ne|by rewrite lookup_insert_ne].
Qed.

(** A new file holds no keys. *)
Lemma header_area_len : len (header_area P) = kIndexFileHeaderSize.
Proof.
  destruct (p_header Hp) as (_ & _ & Hu & _ & _). unfold header_area. rewrite len_app. unfold len at 2. rewrite repeat_length.
  assert (Hh : len (header_serialize (m_indexHeader P)) = 33).
  { unfold header_serialize, pbeEncodeUInt32, pbeEncodeUInt64. rewrite !len_app, !len_le_store, Hu. reflexivity. }
  unfold len in *. unfold kIndexFileHeaderSize in *. lia.
Qed.

Lemma files_new fs m id : files_ok fs m -> fs !! id = None -> 1 <= id <= m_maxPossibleFileId P ->
  files_ok (<[id := header_area P ++ zero_area P]> fs) m.
Proof.
  intros Hfs Hnone Hid. pose proof header_area_len as Hh. pose proof (records_fit) as [_ Hbig].
  assert (Hdata : data_of (header_area P ++ zero_area P) = zero_area P).
  { unfold data_of. rewrite <- Hh. unfold len. rewrite Nat2Z.id. apply drop_app_length. }
  assert (Hs : forall i, record_state (zero_area P) i = 0).
  { intros i. unfold record_state, zero_area. destruct (repeat 0 (Z.to_nat (dataSize P)) !! Z.to_nat (i * R)) eqn:E; [|done].
    apply list_elem_of_lookup_2, list_elem_of_In, repeat_spec in E. by subst. }
  apply (files_insert fs m); [done| |..|done].
  - split.
    + rewrite len_app, Hh. unfold zero_area, len. rewrite repeat_length. unfold dataSize in *. lia.
    + rewrite <- Hh. unfold len. rewrite Nat2Z.id. apply take_app_length.
    + done.
    + intros i Hi. rewrite Hdata, Hs. split; [auto|done].
  - intros k Hk Heq. rewrite Hdata. unfold record_value. rewrite Hs. cbn.
    rewrite <- (fs_value _ _ Hfs) by done. unfold value_at. by rewrite Heq, Hnone.
Qed.
End Records.

(** ** The operations of the linear index

    What each operation of [LinearIndex] does to the map that the files mean.
    The rules are in the form of weakest preconditions: for every state that
    represents a map, the operation returns with the stated result in a state
    that represents the stated map, or throws because a write failed, with the
    files meaning the map before or after the operation. *)

Local Open Scope Z_scope.

Lemma set_insert_spec x l : StronglySorted Z.lt l ->
  StronglySorted Z.lt (set_insert x l) /\ (forall y, y ∈ set_insert x l <-> y = x \/ y ∈ l).
Proof.
  induction 1 as [|a l Hl IH Ha]; cbn [set_insert].
  - split; [repeat constructor|set_solver].
  - destruct (Z.ltb_spec x a) as [Hx|Hx].
    + split; [|set_solver]. constructor; [by constructor|]. constructor; [lia|].
      rewrite Forall_forall in Ha |- *. intros y Hy. specialize (Ha y Hy). lia.
    + destruct (Z.eqb_spec x a) as [->|Hne]; [split; [by constructor|set_solver]|].
      destruct IH as [IHs IHe]. split; [|intros y; rewrite !elem_of_cons, IHe; tauto].
      constructor; [done|]. rewrite Forall_forall in Ha |- *. intros y [->|Hy]%IHe; [lia|auto].
Qed.

Section Ops.
Context {C : Type} `{FC : FileCache C} {FL : FileCacheLaws C} (P : uli_params) (Hp : params_ok P).
Notation state := (uli_state C).
Notation V := (m_valueSize P).
Notation R := (m_recordSize P).
Notation N := (m_numberOfRecordsPerFile P).
Notation t := (m_traits P).
Notation fileOf := (getFileIdForKey P).

Ltac step := wp_step.

(** ** Consistent states *)

(** The sets and caches agree with the files. *)
Record coherent (s : state) : Prop := {
  c_sorted : StronglySorted Z.lt (m_fileIds s);
  c_ids : forall id, id ∈ m_fileIds s <-> is_Some (files s !! id);
  c_cache : cache_ok (m_fileCache s);
  c_objects : forall id p, cached (m_fileCache s) id p ->
    exists content, files s !! id = Some content /\
      objects s !! p = Some {| fd_fileId := id; fd_data := data_of content |}
}.

Definition store_ok (s : state) (m : gmap Z (list Z)) : Prop := coherent s /\ files_ok P (files s) m.

(** Everything but the cache and the cached contents is the same. *)
Definition frame (s s' : state) : Prop :=
  files s' = files s /\ room s' = room s /\ m_fileIds s' = m_fileIds s /\ m_minKey s' = m_minKey s /\ m_maxKey s' = m_maxKey s /\
  m_minNumericKey s' = m_minNumericKey s /\ m_maxNumericKey s' = m_maxNumericKey s.

Lemma frame_refl s : frame s s.
Proof. done. Qed.

Lemma frame_trans s s' s'' : frame s s' -> frame s' s'' -> frame s s''.
Proof. unfold frame. intros (? & ? & ? & ? & ? & ? & ?) (? & ? & ? & ? & ? & ? & ?). repeat split; congruence. Qed.

Lemma store_frame s s' m : frame s s' -> coherent s' -> files_ok P (files s) m -> store_ok s' m.
Proof. intros (Hf & _) Hc Hfs. split; [done|by rewrite Hf]. Qed.

(** ** Files *)

Lemma header_read : header_deserialize (E := UliError) (m_indexType (m_indexHeader P)) (header_area P) = Ok (m_indexHeader P).
Proof. apply header_roundtrip, (p_header P Hp). Qed.

Lemma openIndexFile_ok (s : state) id c : files s !! id = Some c -> file_ok P id c -> openIndexFile P id s = (Ok c, s).
Proof.
  intros Hc [Hs Hh _ _]. unfold openIndexFile, mbind, gets. rewrite Hc, Hs, Z.eqb_refl. cbn [negb].
  pose proof (p_size P Hp). unfold kMinDataFileSize, kMinDataSizePerFile in *. unfold mlift.
  rewrite memrd_sub by (unfold kIndexFileHeaderSize in *; lia). unfold sub. rewrite drop_0, Hh, header_read.
  unfold header_eqb. rewrite !Z.eqb_refl, bool_decide_true by done. done.
Qed.

Lemma make_FileData_ok (s : state) id c : len c = m_dataFileSize P ->
  make_FileData P id c s = (Ok (length (objects s)),
    set_store s (files s) (room s) (objects s ++ [{| fd_fileId := id; fd_data := data_of c |}])).
Proof.
  intros Hs. pose proof (p_size P Hp). unfold kMinDataFileSize, kMinDataSizePerFile in *.
  unfold make_FileData, mbind, mlift, gets, modify, mret.
  rewrite memrd_sub by (unfold dataSize, kIndexFileHeaderSize in *; lia). do 4 f_equal. unfold sub, data_of, dataSize.
  rewrite take_ge; [done|]. rewrite length_drop. unfold len in Hs. lia.
Qed.

(** The cache after a file was looked up. *)
Lemma coherent_get s id r c' : coherent s -> cache_get (m_fileCache s) id = (r, c') -> coherent (set_cache s c').
Proof.
  intros [H1 H2 H3 H4] Hg. pose proof (get_law (m_fileCache s) id H3) as Hlaw. rewrite Hg in Hlaw. destruct Hlaw as (Hok & Hsame & _).
  split; cbn; [done|done|done|]. intros id' p Hc. apply H4, Hsame, Hc.
Qed.

(** A new object for a file. *)
Lemma coherent_add s id c c' : coherent s -> files s !! id = Some c ->
  cache_ok c' -> (forall k q, cached c' k q -> (k = id /\ q = length (objects s)) \/ cached (m_fileCache s) k q) ->
  coherent (set_cache (set_store s (files s) (room s) (objects s ++ [{| fd_fileId := id; fd_data := data_of c |}])) c').
Proof.
  intros [H1 H2 H3 H4] Hc Hok Hsub. split; cbn; [done|done|done|]. intros k q [[-> ->]|Hq]%Hsub.
  - exists c. split; [done|]. by rewrite list_lookup_middle.
  - destruct (H4 k q Hq) as (c0 & Hc0 & Ho). exists c0. split; [done|]. by apply lookup_app_l_Some.
Qed.

Lemma wp_findFile s m id Q E : store_ok s m -> id <= m_maxPossibleFileId P ->
  (files s !! id = None -> Q None s) ->
  (forall c p s', files s !! id = Some c -> frame s s' -> store_ok s' m -> cached (m_fileCache s') id p ->
     objects s' !! p = Some {| fd_fileId := id; fd_data := data_of c |} -> Q (Some p) s') ->
  wp (findFile P id) s Q E.
Proof.
  intros [Hco Hfs] Hid Hnone Hsome. unfold findFile. rewrite Z.gtb_ltb, (proj2 (Z.ltb_ge _ _)) by lia. step.
  destruct (existsb (Z.eqb id) (m_fileIds s)) eqn:Hin; cbn [negb].
  - apply existsb_exists in Hin as (x & Hx%list_elem_of_In & <-%Z.eqb_eq). apply (c_ids s Hco) in Hx as [c Hc].
    pose proof (fs_files _ _ _ Hfs _ _ Hc) as Hfile. 
    pose proof (get_law (m_fileCache s) id (c_cache s Hco)) as Hlaw.
    destruct (cache_get (m_fileCache s) id) as [r c'] eqn:Hg. pose proof (coherent_get s id r c' Hco Hg) as Hco'.
    destruct Hlaw as (Hok & Hsame & Hhit). apply wp_bind.
    apply (wp_run _ _ r (set_cache s c')); [unfold get_file; by rewrite Hg|]. destruct r as [p|].
    + apply wp_ret. assert (Hp0 : cached (m_fileCache s) id p) by (by apply Hhit).
      destruct (c_objects s Hco id p Hp0) as (c0 & Hc0 & Ho). simplify_eq.
      apply (Hsome c); [done|done|by split|by apply Hsame|done].
    + assert (Hmiss : forall q, ~ cached c' id q) by (intros q Hq%Hsame; apply Hhit in Hq; done).
      apply wp_bind. eapply wp_run; [by apply (openIndexFile_ok _ _ c)|].
      apply wp_bind. eapply wp_run; [apply make_FileData_ok, (f_size _ _ _ Hfile)|].
      destruct (emplace_law c' id (length (objects s)) Hok Hmiss) as (c'' & He & Hok'' & Hin & Hsub).
      apply wp_bind. eapply wp_run; [unfold emplace_file; cbn [objects set_cache set_store m_fileCache]; by rewrite He|]. apply wp_ret.
      pose proof (coherent_add (set_cache s c') id c c'' Hco' Hc Hok'' Hsub) as Hco''.
      apply (Hsome c); [done|done|by split|done|]. cbn. by rewrite list_lookup_middle.
  - apply wp_ret, Hnone. destruct (files s !! id) eqn:Hf; [|done]. exfalso.
    assert (Hx : id ∈ m_fileIds s) by (apply (c_ids s Hco); eauto). apply list_elem_of_In in Hx.
    rewrite <- not_true_iff_false in Hin. apply Hin, existsb_exists. exists id. split; [done|apply Z.eqb_refl].
Qed.

Lemma wp_findFile_range s id (Q : option nat -> state -> Prop) (E : UliError -> state -> Prop) : m_maxPossibleFileId P < id -> E OutOfRange s -> wp (findFile P id) s Q E.
Proof. intros Hid HE. unfold findFile. rewrite Z.gtb_ltb, (proj2 (Z.ltb_lt _ _)) by lia. exact HE. Qed.

Lemma wp_findFileChecked s m id c Q E : store_ok s m -> files s !! id = Some c ->
  (forall p s', frame s s' -> store_ok s' m -> objects s' !! p = Some {| fd_fileId := id; fd_data := data_of c |} -> Q p s') ->
  wp (findFileChecked P id) s Q E.
Proof.
  intros Hs Hc HQ. apply wp_bind. destruct (fs_files _ _ _ (proj2 Hs) _ _ Hc) as [_ _ Hid _].
  apply (wp_findFile s m); [done|lia|congruence|]. intros c' p s' Hc' Hfr Hs' _ Ho. simplify_eq. by apply HQ.
Qed.

(** ** Writes *)

(** The bytes that are on disk after a write of [b], and what is left alone. *)
Definition written (s s' : state) (id pos : Z) (b : list Z) : Prop :=
  files s' = poke_file id pos b (files s) /\ m_fileIds s' = m_fileIds s /\ m_minKey s' = m_minKey s /\ m_maxKey s' = m_maxKey s /\
  m_minNumericKey s' = m_minNumericKey s /\ m_maxNumericKey s' = m_maxNumericKey s /\ (room s = None -> room s' = None).

Lemma writable_bounds r n : 0 <= n -> 0 <= writable r n <= n /\ (writable r n <> n -> r <> None).
Proof. intros Hn. destruct r; cbn; split; try lia; done. Qed.

Lemma poke_coherent s m id c p pos b fs r : store_ok s m -> files s !! id = Some c -> cached (m_fileCache s) id p ->
  0 <= pos -> pos + len b <= dataSize P -> fs = poke_file id pos b (files s) ->
  coherent (set_store s fs r (<[p := {| fd_fileId := id; fd_data := overwrite (data_of c) pos b |}]> (objects s))).
Proof.
  intros [Hco Hfs] Hc Hcp Hpos Hb ->. pose proof (fs_files _ _ _ Hfs _ _ Hc) as Hfile.
  destruct (poke_data P id c pos b Hfile Hpos Hb) as (Hd & _ & _). destruct Hco as [H1 H2 H3 H4].
  assert (Hpoke : poke_file id pos b (files s) = <[id := overwrite c (pos + kIndexFileHeaderSize) b]> (files s))
    by (unfold poke_file; by rewrite (alter_is_insert _ _ c)).
  split; cbn; [done| |done|].
  - intros id'. rewrite H2, Hpoke, lookup_insert_is_Some. destruct (decide (id = id')) as [<-|]; [rewrite Hc|]; naive_solver.
  - intros id' q Hq. rewrite Hpoke, lookup_insert. destruct (H4 id' q Hq) as (c' & Hc' & Ho). case_decide as E.
    + subst id'. rewrite (cached_unique _ _ _ _ Hq Hcp). eexists. split; [done|]. rewrite Hd, list_lookup_insert_eq; [done|].
      destruct (H4 id p Hcp) as (? & _ & Hlt). by apply lookup_lt_Some in Hlt.
    + exists c'. split; [done|]. rewrite list_lookup_insert_ne; [done|]. intros <-.
      destruct (H4 id p Hcp) as (c0 & _ & Ho'). rewrite Ho' in Ho. by injection Ho as <-.
Qed.

Lemma wp_write s m id c p pos b Q (E : UliError -> state -> Prop) : store_ok s m -> files s !! id = Some c ->
  cached (m_fileCache s) id p -> objects s !! p = Some {| fd_fileId := id; fd_data := data_of c |} ->
  0 <= pos -> 0 < len b -> pos + len b <= dataSize P ->
  (forall s', written s s' id pos b -> coherent s' -> cached (m_fileCache s') id p ->
     objects s' !! p = Some {| fd_fileId := id; fd_data := overwrite (data_of c) pos b |} -> Q tt s') ->
  (forall s' n, written s s' id pos (take n b) -> room s <> None -> E CannotWriteIndexFile s') ->
  wp (FileData_update p pos b (len b)) s Q E.
Proof.
  intros Hs Hc Hcp Ho Hpos Hb0 Hb HQ HE. pose proof (fs_files _ _ _ (proj2 Hs) _ _ Hc) as Hfile.
  pose proof (data_len P Hp id c Hfile) as Hd. unfold FileData_update. apply wp_bind.
  eapply wp_run; [unfold get_object; by rewrite Ho|]. cbn [fd_data fd_fileId]. rewrite Hd.
  rewrite (proj2 (Z.leb_le 0 pos)), (proj2 (Z.ltb_lt pos _)) by lia. cbn [andb negb].
  rewrite !Z.gtb_ltb, (proj2 (Z.ltb_lt 0 _)), (proj2 (Z.ltb_ge _ _)), (proj2 (Z.ltb_ge _ _)) by lia. cbn [orb].
  apply wp_bind. eapply wp_lift; [apply memrd_sub; lia|]. replace (sub b 0 (len b)) with b
    by (unfold sub; rewrite drop_0; symmetry; apply take_ge; unfold len; lia).
  apply wp_bind. eapply wp_lift; [apply memwr_overwrite; lia|]. step. apply wp_bind.
  eapply wp_run; [reflexivity|]. cbn [room set_store files objects].
  set (n := writable (room s) (len b)). destruct (writable_bounds (room s) (len b)) as [Hn Hfail]; [lia|]. fold n in Hn, Hfail.
  destruct (Z.eqb_spec n (len b)) as [Hnb|Hnb]; cbn [negb].
  - apply wp_ret. rewrite Hnb. replace (take (Z.to_nat (len b)) b) with b by (symmetry; apply take_ge; unfold len; lia).
    apply HQ.
    + repeat split; try done. cbn. intros ->. done.
    + by apply (poke_coherent s m id c p pos b).
    + done.
    + cbn. apply list_lookup_insert_eq. by apply lookup_lt_Some in Ho.
  - apply wp_throw. apply (HE _ (Z.to_nat n)); [|auto]. repeat split; try done. cbn. intros ->. done.
Qed.

(** ** New files *)

Definition new_content : list Z := header_area P ++ zero_area P.

Lemma new_content_len : len new_content = m_dataFileSize P.
Proof.
  unfold new_content. rewrite len_app, (header_area_len P Hp). unfold zero_area, len. rewrite repeat_length.
  pose proof (p_size P Hp). unfold dataSize, kMinDataFileSize, kMinDataSizePerFile, kIndexFileHeaderSize in *. lia.
Qed.

(** A failed write leaves no file, or there are no failures. *)
Definition clean_files (s : state) : Prop := m_tmpFile P = true \/ room s = None.

Lemma createIndexFile_run (s : state) id : files s !! id = None -> files s !! tmpFile id = None -> clean_files s ->
  (exists r, createIndexFile P id s = (Ok tt, set_store s (<[id := new_content]> (files s)) r (objects s)) /\ (room s = None <-> r = None)) \/
  (exists r, createIndexFile P id s = (Throw CannotWriteIndexFile, set_store s (files s) r (objects s)) /\ room s <> None).
Proof.
  intros Hid Htmp Hclean. pose proof (len_nonneg (header_area P)). pose proof (len_nonneg (zero_area P)).
  unfold createIndexFile, mbind, new_write. destruct (m_tmpFile P) eqn:Ht.
  - unfold mret, fresh_write. cbn [fst snd].
    destruct (writable_bounds (room s) (len (header_area P))) as [_ Hf]; [lia|].
    destruct (Z.eqb_spec (writable (room s) (len (header_area P))) (len (header_area P))) as [->|Hne]; cbn [negb].
    + cbn [room set_store].
      destruct (writable_bounds (consume (room s) (len (header_area P))) (len (zero_area P))) as [_ Hf']; [lia|].
      destruct (Z.eqb_spec (writable (consume (room s) (len (header_area P))) (len (zero_area P))) (len (zero_area P))) as [->|Hne']; cbn [negb].
      * left. unfold gets. cbn [files set_store]. rewrite Hid. eexists. split; [reflexivity|]. by destruct (room s).
      * right. eexists. split; [reflexivity|]. specialize (Hf' Hne'). by destruct (room s).
    + right. eexists. split; [reflexivity|]. auto.
  - destruct Hclean as [?|Hr]; [congruence|]. left. exists None. unfold createNamedFile, modify, file_write. cbn [room set_store files objects]. rewrite Htmp, Hr. cbn [default from_option writable consume app].
    rewrite Z.eqb_refl. cbn [negb]. unfold gets. cbn [room files set_store objects writable consume]. rewrite Z.eqb_refl. cbn [negb files room objects set_store]. split; [|done]. change (len (@nil Z)) with 0. rewrite Z.sub_0_r.
    assert (Hh : take (Z.to_nat (len (header_area P))) (header_area P) = header_area P) by (apply take_ge; unfold len; lia).
    assert (Hz : take (Z.to_nat (len (zero_area P))) (zero_area P) = zero_area P) by (apply take_ge; unfold len; lia). rewrite Hh, Hz.
    pose proof new_content_len as Hnc. unfold new_content in Hnc. rewrite len_app in Hnc.
    assert (Hover : overwrite (overwrite (repeat 0 (Z.to_nat (m_dataFileSize P))) 0 (header_area P)) (len (header_area P)) (zero_area P) = new_content).
    { unfold overwrite. change (Z.to_nat 0) with 0%nat. rewrite take_0, app_nil_l, Z.add_0_l, take_app_length' by (unfold len; lia). unfold new_content. f_equal.
      rewrite drop_ge, app_nil_r; [done|]. rewrite length_app, length_drop, repeat_length. unfold len in *. lia. }
    rewrite !alter_insert_eq, lookup_insert_eq, Hover. cbn [default from_option Datatypes.id]. rewrite delete_insert_eq, delete_id by done. done.
Qed.

(** What [makeFile] leaves alone. *)
Definition made (s s' : state) (id : Z) : Prop :=
  files s' = <[id := new_content]> (files s) /\ m_fileIds s' = set_insert id (m_fileIds s) /\ m_minKey s' = m_minKey s /\ m_maxKey s' = m_maxKey s /\
  m_minNumericKey s' = m_minNumericKey s /\ m_maxNumericKey s' = m_maxNumericKey s /\ (room s = None -> room s' = None) /\
  (room s' <> None -> room s <> None).

Lemma wp_makeFile s m id Q (E : UliError -> state -> Prop) : store_ok s m -> clean_files s -> files s !! id = None -> 1 <= id <= m_maxPossibleFileId P ->
  (forall p s', made s s' id -> store_ok s' m -> cached (m_fileCache s') id p ->
     objects s' !! p = Some {| fd_fileId := id; fd_data := data_of new_content |} -> Q p s') ->
  (forall s', files s' = files s -> room s <> None -> E CannotWriteIndexFile s') ->
  wp (makeFile P id) s Q E.
Proof.
  intros [Hco Hfs] Hclean Hnone Hid HQ HE. unfold makeFile. apply wp_bind.
  assert (Htmp : files s !! tmpFile id = None).
  { destruct (files s !! tmpFile id) as [c|] eqn:Hc; [|done]. pose proof (f_id _ _ _ (fs_files _ _ _ Hfs _ _ Hc)). unfold tmpFile in *. lia. }
  destruct (createIndexFile_run s id Hnone Htmp Hclean) as [(r & Hrun & Hr)|(r & Hrun & Hr)]; [|unfold wp; rewrite Hrun; by apply HE].
  eapply wp_run; [exact Hrun|]. step. cbn [files set_store]. rewrite lookup_insert_eq. cbn [default].
  apply wp_bind. eapply wp_run; [apply make_FileData_ok, new_content_len|]. step.
  destruct Hco as [H1 H2 H3 H4]. destruct (set_insert_spec id (m_fileIds s) H1) as [Hsort Helem].
  assert (Hmiss : forall q, ~ cached (m_fileCache s) id q) by (intros q Hq; destruct (H4 id q Hq) as (c & Hc & _); congruence).
  cbn [objects set_store].
  destruct (emplace_law (m_fileCache s) id (length (objects s)) H3 Hmiss) as (c' & He & Hok & Hin & Hsub).
  apply wp_bind. eapply wp_run; [unfold emplace_file; cbn [m_fileCache set_fileIds set_store]; by rewrite He|].
  apply wp_ret. apply HQ.
  - repeat split; try done; cbn; destruct (room s), r; naive_solver.
  - split; [|by apply files_new]. split; cbn; [done| |done|].
    + intros id'. rewrite Helem, H2, lookup_insert_is_Some. destruct (decide (id = id')); naive_solver.
    + intros k q [[-> ->]|Hq]%Hsub.
      * exists new_content. rewrite lookup_insert_eq. split; [done|]. by rewrite list_lookup_middle.
      * destruct (H4 k q Hq) as (c0 & Hc0 & Ho). exists c0. rewrite lookup_insert_ne by congruence.
        split; [done|]. by apply lookup_app_l_Some.
  - done.
  - cbn. by rewrite list_lookup_middle.
Qed.
End Ops.
