(* ===== verification/LinearIndexNav.v ===== *)
(** * Finding keys in the linear index

    The loops over the records of a file and over the files: [findLeadingKey],
    [findTrailingKey], [findKeyBefore] and [findKeyAfter] find the least and
    greatest key of the map, and the nearest key on each side of a key. *)

From stdpp Require Import base list gmap sorting.
Set Warnings "-clear-no-such-hyp,-notation-incompatible-prefix,-notation-for-abbreviation".
From Stdlib Require Import ZArith Lia.
From S2P Require Import Prelude StateM Bytes PlainBinary IndexKeys LruCache LinearIndex LinearIndexOps.

Local Open Scope Z_scope.

(** ** The nearest keys of a map *)

Definition has (m : gmap Z (list Z)) (k : Z) : Prop := is_Some (m !! k).

(** The least key that is at least [lo]. *)
Definition nearest_above (m : gmap Z (list Z)) (lo : Z) (r : option Z) : Prop :=
  match r with
  | Some k => has m k /\ lo <= k /\ forall k', has m k' -> lo <= k' -> k <= k'
  | None => forall k', has m k' -> k' < lo
  end.

(** The greatest key below [hi]. *)
Definition nearest_below (m : gmap Z (list Z)) (hi : Z) (r : option Z) : Prop :=
  match r with
  | Some k => has m k /\ k < hi /\ forall k', has m k' -> k' < hi -> k' <= k
  | None => forall k', has m k' -> hi <= k'
  end.

Lemma above_skip m lo lo' r : lo <= lo' -> (forall k, has m k -> lo <= k -> lo' <= k) -> nearest_above m lo' r -> nearest_above m lo r.
Proof.
  intros Hle Hskip. destruct r as [k|]; cbn.
  - intros (Hk & Hlo & Hmin). split; [done|]. split; [lia|]. intros k' Hk' Hlo'. apply Hmin; auto.
  - intros Hnone k' Hk'. destruct (Z.lt_ge_cases k' lo); [done|]. specialize (Hskip k' Hk' H). specialize (Hnone k' Hk'). lia.
Qed.

Lemma below_skip m hi hi' r : hi' <= hi -> (forall k, has m k -> k < hi -> k < hi') -> nearest_below m hi' r -> nearest_below m hi r.
Proof.
  intros Hle Hskip. destruct r as [k|]; cbn.
  - intros (Hk & Hhi & Hmax). split; [done|]. split; [lia|]. intros k' Hk' Hhi'. apply Hmax; auto.
  - intros Hnone k' Hk'. destruct (Z.lt_ge_cases k' hi); [|done]. specialize (Hskip k' Hk' H). specialize (Hnone k' Hk'). lia.
Qed.

(** ** Least and greatest key of the map, computed *)

Definition list_min (l : list Z) : option Z := foldr (fun x acc => Some (match acc with Some y => Z.min x y | None => x end)) None l.
Definition list_max (l : list Z) : option Z := foldr (fun x acc => Some (match acc with Some y => Z.max x y | None => x end)) None l.
Definition map_keys (m : gmap Z (list Z)) : list Z := (map_to_list m).*1.
Definition above (m : gmap Z (list Z)) (lo : Z) : option Z := list_min (filter (fun k => lo <= k) (map_keys m)).
Definition below (m : gmap Z (list Z)) (hi : Z) : option Z := list_max (filter (fun k => k < hi) (map_keys m)).

Lemma list_min_spec l : match list_min l with Some x => x ∈ l /\ forall y, y ∈ l -> x <= y | None => l = [] end.
Proof.
  induction l as [|a l IH]; [done|]. unfold list_min. cbn [foldr]. fold (list_min l). destruct (list_min l) as [x|]; [|subst; set_solver by lia]. destruct IH as [Hx Hall].
  split; [destruct (Z.min_spec a x) as [[_ ->]|[_ ->]]; set_solver|]. intros y [->|Hy]%elem_of_cons; [lia|]. specialize (Hall y Hy). lia.
Qed.

Lemma list_max_spec l : match list_max l with Some x => x ∈ l /\ forall y, y ∈ l -> y <= x | None => l = [] end.
Proof.
  induction l as [|a l IH]; [done|]. unfold list_max. cbn [foldr]. fold (list_max l). destruct (list_max l) as [x|]; [|subst; set_solver by lia]. destruct IH as [Hx Hall].
  split; [destruct (Z.max_spec a x) as [[_ ->]|[_ ->]]; set_solver|]. intros y [->|Hy]%elem_of_cons; [lia|]. specialize (Hall y Hy). lia.
Qed.

Lemma map_keys_spec m k : k ∈ map_keys m <-> has m k.
Proof.
  unfold map_keys, has. split.
  - intros ([k' v] & -> & Hin)%list_elem_of_fmap_1. apply elem_of_map_to_list in Hin. eauto.
  - intros [v Hv]. apply (list_elem_of_fmap_2' fst _ (k, v)); [by apply elem_of_map_to_list|done].
Qed.

Lemma above_spec m lo r : nearest_above m lo r -> r = above m lo.
Proof.
  intros Hr. unfold above. pose proof (list_min_spec (filter (fun k => lo <= k) (map_keys m))) as Hl.
  assert (Hf : forall y, y ∈ filter (fun k => lo <= k) (map_keys m) <-> lo <= y /\ has m y) by (intros y; by rewrite list_elem_of_filter, map_keys_spec).
  destruct (list_min _) as [x|].
  - destruct Hl as [[Hx1 Hx2]%Hf Hmin]. destruct r as [k|]; cbn in Hr; [|specialize (Hr x Hx2); lia].
    destruct Hr as (Hk & Hlo & Hall). f_equal. specialize (Hall x Hx2 Hx1). assert (x <= k) by (apply Hmin, Hf; done). lia.
  - destruct r as [k|]; [|done]. destruct Hr as (Hk & Hlo & _). assert (Hin : k ∈ filter (fun k => lo <= k) (map_keys m)) by (by apply Hf). rewrite Hl in Hin. set_solver.
Qed.

Lemma below_spec m hi r : nearest_below m hi r -> r = below m hi.
Proof.
  intros Hr. unfold below. pose proof (list_max_spec (filter (fun k => k < hi) (map_keys m))) as Hl.
  assert (Hf : forall y, y ∈ filter (fun k => k < hi) (map_keys m) <-> y < hi /\ has m y) by (intros y; by rewrite list_elem_of_filter, map_keys_spec).
  destruct (list_max _) as [x|].
  - destruct Hl as [[Hx1 Hx2]%Hf Hmax]. destruct r as [k|]; cbn in Hr; [|specialize (Hr x Hx2); lia].
    destruct Hr as (Hk & Hhi & Hall). f_equal. specialize (Hall x Hx2 Hx1). assert (k <= x) by (apply Hmax, Hf; done). lia.
  - destruct r as [k|]; [|done]. destruct Hr as (Hk & Hhi & _). assert (Hin : k ∈ filter (fun k => k < hi) (map_keys m)) by (by apply Hf). rewrite Hl in Hin. set_solver.
Qed.

Section Nav.
Context {C : Type} `{FC : FileCache C} {FL : FileCacheLaws C} (P : uli_params) (Hp : params_ok P).
Notation state := (uli_state C).
Notation R := (m_recordSize P).
Notation N := (m_numberOfRecordsPerFile P).
Notation t := (m_traits P).
Notation fileOf := (getFileIdForKey P).
Notation max_key := (max_key P).

(** ** Keys of the map and records in use *)

Lemma size_ok : In (getKeySize t) [1; 2; 4; 8].
Proof. apply (law_size (KeyTraitsLaws := p_laws P Hp)). Qed.

Lemma max_key_small : 0 < max_key < key_space t /\ key_space t <= 2 ^ 64.
Proof.
  destruct (law_max (KeyTraitsLaws := p_laws P Hp)) as [Hk Hpos]. split; [|apply key_space_le, size_ok].
  split; [exact Hpos|]. apply decodeKey_range; [apply size_ok|exact Hk].
Qed.

Lemma has_record fs m id c i : files_ok P fs m -> fs !! id = Some c -> 0 <= i < N ->
  has m ((id - 1) * N + i) <-> record_state P (data_of c) i <> 0.
Proof.
  intros Hfs Hc Hi. destruct (f_id _ _ _ (fs_files _ _ _ Hfs _ _ Hc)) as [Hid _].
  destruct (key_join P id i Hid Hi) as (Hpos & Hf & Hm). unfold has. rewrite <- (fs_value _ _ _ Hfs) by done.
  unfold value_at. rewrite Hf, Hm, Hc. unfold record_value. destruct (Z.eqb_spec (record_state P (data_of c) i) 0); [|naive_solver].
  split; [by intros [? ?]|done].
Qed.

Lemma has_file fs m k : files_ok P fs m -> has m k -> 0 <= k <= max_key /\ exists c, fs !! fileOf k = Some c.
Proof.
  intros Hfs Hk. destruct (Z.lt_ge_cases k 0) as [Hneg|Hpos].
  { unfold has in Hk. rewrite (fs_neg _ _ _ Hfs k Hneg) in Hk. by destruct Hk. }
  destruct (key_split P Hp k Hpos) as (Hi & Hid & Hjoin).
  assert (Hv : is_Some (value_at P fs k)) by (rewrite (fs_value _ _ _ Hfs) by done; exact Hk).
  unfold value_at in Hv. destruct (fs !! fileOf k) as [c|] eqn:Hc; [|by destruct Hv]. split; [|eauto].
  pose proof (proj1 (has_record fs m (fileOf k) c (k mod N) Hfs Hc Hi)) as Hst. rewrite Hjoin in Hst. specialize (Hst Hk).
  destruct (f_state _ _ _ (fs_files _ _ _ Hfs _ _ Hc) _ Hi) as [_ Hmax]. rewrite <- Hjoin at 2. auto.
Qed.

Lemma file_bounds k : 0 <= k -> (fileOf k - 1) * N <= k < fileOf k * N.
Proof. intros Hk. destruct (key_split P Hp k Hk) as (Hi & Hid & Hjoin). nia. Qed.

(** Keys in different files are ordered as the files are. *)
Lemma file_order k id : 0 <= k -> fileOf k < id -> k < (id - 1) * N.
Proof. intros Hk Hlt. pose proof (file_bounds k Hk). pose proof (p_records P Hp). nia. Qed.

Lemma encode_compare n key : 0 <= n <= max_key -> key_ok t key ->
  compareKeys t (encodeKey t n) key = compare_values n (decodeKey t key).
Proof.
  intros Hn Hk. rewrite (law_compare (KeyTraitsLaws := p_laws P Hp)) by (done || apply encodeKey_ok, size_ok).
  rewrite decode_encode; [done|apply size_ok|]. pose proof max_key_small. lia.
Qed.

(** ** The records of a file *)

Lemma read_state data i : len data = dataSize P -> 0 <= i < N -> @rd UliError data (i * R) = Ok (record_state P data i).
Proof. intros Hd Hi. destruct (record_bound P Hp i Hi). apply rd_lookup; [lia|]. by apply state_lookup. Qed.

Definition free (data : list Z) (i : Z) : Prop := record_state P data i = 0.

Lemma leading_record_ok data : len data = dataSize P -> forall n i, Z.of_nat n + i = N -> 0 <= i ->
  exists r, leading_record P n data i (i * R) = Ok r /\
    match r with
    | Some j => i <= j < N /\ ~ free data j /\ forall j', i <= j' < j -> free data j'
    | None => forall j', i <= j' < N -> free data j'
    end.
Proof.
  intros Hd. induction n as [|n IH]; intros i Hn Hi; cbn [leading_record].
  - exists None. split; [done|]. intros; lia.
  - rewrite read_state by lia. cbn [bind]. unfold kValueStateFree.
    destruct (Z.eqb_spec (record_state P data i) 0) as [Hs|Hs]; cbn [negb].
    + replace (i * R + R) with ((i + 1) * R) by lia. destruct (IH (i + 1)) as (r & -> & Hr); [lia|lia|]. exists r. split; [done|].
      assert (Hfree : forall j', i <= j' -> (i + 1 <= j' -> free data j') -> free data j').
      { intros j' Hj' Hrest. destruct (Z.eq_dec j' i) as [->|]; [done|]. apply Hrest. lia. }
      destruct r as [j|]; [destruct Hr as (Hj & Hsj & Hall); split; [lia|]; split; [done|]|]; intros j' Hj'; apply Hfree; try lia;
        intros; [apply Hall|apply Hr]; lia.
    + exists (Some i). split; [done|]. split; [lia|]. split; [done|]. intros; lia.
Qed.

Lemma trailing_record_ok data : len data = dataSize P -> forall n, Z.of_nat n <= N ->
  exists r, trailing_record P n data ((Z.of_nat n - 1) * R) = Ok r /\
    match r with
    | Some i => 1 <= i <= Z.of_nat n /\ ~ free data (i - 1) /\ forall j, i - 1 < j < Z.of_nat n -> free data j
    | None => forall j, 0 <= j < Z.of_nat n -> free data j
    end.
Proof.
  intros Hd. induction n as [|n IH]; intros Hn; cbn [trailing_record].
  - exists None. split; [done|]. intros; lia.
  - rewrite read_state by lia. cbn [bind]. unfold kValueStateFree.
    destruct (Z.eqb_spec (record_state P data (Z.of_nat (S n) - 1)) 0) as [Hs|Hs]; cbn [negb].
    + replace ((Z.of_nat (S n) - 1) * R - R) with ((Z.of_nat n - 1) * R) by lia.
      destruct IH as (r & -> & Hr); [lia|]. exists r. split; [done|].
      assert (Hfree : forall j, j < Z.of_nat (S n) -> (j < Z.of_nat n -> free data j) -> free data j).
      { intros j Hj Hrest. destruct (Z.eq_dec j (Z.of_nat (S n) - 1)) as [->|]; [done|]. apply Hrest. lia. }
      destruct r as [j|]; [destruct Hr as (Hj & Hsj & Hall); split; [lia|]; split; [done|]|]; intros j' Hj'; apply Hfree; try lia;
        intros; [apply Hall|apply Hr]; lia.
    + exists (Some (Z.of_nat (S n))). split; [done|]. split; [lia|]. split; [done|]. intros; lia.
Qed.

(** The two loops with a key; [base] is the number of the first record of the
    file. *)
Lemma before_records_ok data key base : len data = dataSize P -> key_ok t key -> 0 <= base ->
  (forall j, 0 <= j < N -> ~ free data j -> base + j <= max_key) ->
  forall fuel i, i < Z.of_nat fuel -> -1 <= i < N -> base + i < decodeKey t key ->
  exists r, before_records P fuel data (i * R) (uw 64 (base + i)) key = Ok (encodeKey t <$> r) /\
    match r with
    | Some k => exists j, k = base + j /\ 0 <= j <= i /\ ~ free data j /\ forall j', j < j' <= i -> free data j'
    | None => forall j', 0 <= j' <= i -> free data j'
    end.
Proof.
  intros Hd Hk Hbase Hmax fuel. pose proof (record_size P Hp). pose proof (p_value P Hp). pose proof max_key_small as [Hm Hs64].
  induction fuel as [|fuel IH]; intros i Hf Hi Hlt; cbn [before_records].
  - assert (i = -1) as -> by lia. destruct (Z.ltb_spec (-1 * R) 0); [|lia]. exists None. split; [done|]. intros; lia.
  - destruct (Z.ltb_spec (i * R) 0) as [Hneg|Hnneg].
    + exists None. split; [done|]. assert (i < 0) by nia. intros; lia.
    + assert (Hi0 : 0 <= i) by nia. rewrite read_state by lia. cbn [bind]. unfold kValueStateFree.
      replace (i * R - R) with ((i - 1) * R) by lia.
      assert (Hcur : uw 64 (uw 64 (base + i) - 1) = uw 64 (base + (i - 1))).
      { unfold uw. rewrite Zminus_mod_idemp_l. f_equal. lia. }
      destruct (Z.eqb_spec (record_state P data i) 0) as [Hst|Hst]; cbn [negb andb].
      * rewrite Hcur. destruct (IH (i - 1)) as (r & Hr & Hspec); [lia|lia|lia|]. exists r. split; [exact Hr|].
        destruct r as [k|].
        -- destruct Hspec as (j & -> & Hj & Hsj & Hall). exists j. split; [done|]. split; [lia|]. split; [done|].
           intros j' Hj'. destruct (Z.eq_dec j' i) as [->|]; [done|]. apply Hall. lia.
        -- intros j' Hj'. destruct (Z.eq_dec j' i) as [->|]; [done|]. apply Hspec. lia.
      * specialize (Hmax i ltac:(lia) Hst). rewrite (uw_small 64 (base + i)) by (unfold u_ok; lia).
        rewrite encode_compare by (done || lia). unfold compare_values.
        rewrite (proj2 (Z.eqb_neq _ _)), (proj2 (Z.ltb_lt (base + i) _)) by lia. cbn [Z.ltb Z.compare].
        exists (Some (base + i)). split; [done|]. exists i. split; [done|]. split; [lia|]. split; [done|]. intros; lia.
Qed.

Lemma after_records_ok data key base : len data = dataSize P -> key_ok t key -> 0 <= base ->
  (forall j, 0 <= j < N -> ~ free data j -> base + j <= max_key) ->
  forall fuel i, N - i < Z.of_nat fuel -> 0 <= i <= N -> decodeKey t key < base + i ->
  exists r, after_records P fuel data (i * R) (uw 64 (base + i)) key = Ok (encodeKey t <$> r) /\
    match r with
    | Some k => exists j, k = base + j /\ i <= j < N /\ ~ free data j /\ forall j', i <= j' < j -> free data j'
    | None => forall j', i <= j' < N -> free data j'
    end.
Proof.
  intros Hd Hk Hbase Hmax fuel. pose proof (record_size P Hp). pose proof (p_value P Hp). pose proof max_key_small as [Hm Hs64].
  induction fuel as [|fuel IH]; intros i Hf Hi Hlt; [lia|]. cbn [after_records].
  destruct (Z.eqb_spec (i * R) (N * R)) as [Hend|Hend].
  - exists None. split; [done|]. assert (i = N) by nia. intros; lia.
  - assert (Hi0 : i < N) by nia. rewrite read_state by lia. cbn [bind]. unfold kValueStateFree.
    replace (i * R + R) with ((i + 1) * R) by lia.
    assert (Hcur : uw 64 (uw 64 (base + i) + 1) = uw 64 (base + (i + 1))).
    { unfold uw. rewrite Zplus_mod_idemp_l. f_equal. lia. }
    destruct (Z.eqb_spec (record_state P data i) 0) as [Hst|Hst]; cbn [negb andb].
    + rewrite Hcur. destruct (IH (i + 1)) as (r & Hr & Hspec); [lia|lia|lia|]. exists r. split; [exact Hr|].
      destruct r as [k|].
      * destruct Hspec as (j & -> & Hj & Hsj & Hall). exists j. split; [done|]. split; [lia|]. split; [done|].
        intros j' Hj'. destruct (Z.eq_dec j' i) as [->|]; [done|]. apply Hall. lia.
      * intros j' Hj'. destruct (Z.eq_dec j' i) as [->|]; [done|]. apply Hspec. lia.
    + specialize (Hmax i ltac:(lia) Hst). rewrite (uw_small 64 (base + i)) by (unfold u_ok; lia).
      rewrite encode_compare by (done || lia). unfold compare_values.
      rewrite (proj2 (Z.eqb_neq _ _)), (proj2 (Z.ltb_ge (base + i) _)) by lia. cbn [Z.gtb Z.compare].
      exists (Some (base + i)). split; [done|]. exists i. split; [done|]. split; [lia|]. split; [done|]. intros; lia.
Qed.

(** ** The loops over the files *)

(** Reading a file in a loop. *)
Lemma wp_open {B} (s : state) m id c (k : FileData -> M B) Q E : store_ok P s m -> files s !! id = Some c ->
  (forall s', frame s s' -> store_ok P s' m -> wp (k {| fd_fileId := id; fd_data := data_of c |}) s' Q E) ->
  wp (mbind (findFileChecked P id) (fun p => mbind (get_object p) k)) s Q E.
Proof.
  intros Hs Hc HQ. apply wp_bind. apply (wp_findFileChecked P Hp s m id c); [done|done|]. intros p s' Hfr Hs' Ho.
  apply wp_bind. eapply wp_run; [unfold get_object; by rewrite Ho|]. auto.
Qed.

(** What the search functions promise: the cache may change, the map not. *)
Definition found (s : state) (m : gmap Z (list Z)) (S : option Z -> Prop) (r : option (list Z)) (s' : state) : Prop :=
  frame s s' /\ store_ok P s' m /\ exists k, r = encodeKey t <$> k /\ S k.

Lemma found_frame s0 s m S r s' : frame s0 s -> found s m S r s' -> found s0 m S r s'.
Proof. intros Hfr (Hfr' & H). split; [by apply (frame_trans s0 s s')|done]. Qed.

Lemma found_mono s m (S S' : option Z -> Prop) r s' : (forall k, S k -> S' k) -> found s m S r s' -> found s m S' r s'.
Proof. intros HS (? & ? & k & ? & ?). split; [done|]. split; [done|]. eauto. Qed.

Notation none_thrown := (fun (_ : UliError) (_ : state) => False).

Lemma file_facts (s : state) m id c : store_ok P s m -> files s !! id = Some c ->
  1 <= id /\ len (data_of c) = dataSize P /\ forall j, 0 <= j < N -> ~ free (data_of c) j -> (id - 1) * N + j <= max_key.
Proof.
  intros Hs Hc. pose proof (fs_files _ _ _ (proj2 Hs) _ _ Hc) as Hf. split; [apply (f_id _ _ _ Hf)|].
  split; [by apply (data_len P Hp id)|]. intros j Hj Hst. by apply (f_state _ _ _ Hf).
Qed.

Lemma uw_key id i : 1 <= id -> 0 <= i -> (id - 1) * N + i <= max_key -> uw 64 ((id - 1) * N + i) = (id - 1) * N + i.
Proof. intros Hid Hi Hm. apply uw_small. unfold u_ok. pose proof max_key_small. pose proof (p_records P Hp). nia. Qed.

(** A key of the map at or above the records that were seen to be free. *)
Lemma above_in_file (s : state) m id c i lo : store_ok P s m -> files s !! id = Some c -> 0 <= i < N -> ~ free (data_of c) i ->
  lo <= (id - 1) * N + i -> (forall j, 0 <= j < i -> lo <= (id - 1) * N + j -> free (data_of c) j) ->
  (forall k, has m k -> lo <= k -> id <= fileOf k) -> nearest_above m lo (Some ((id - 1) * N + i)).
Proof.
  intros Hs Hc Hi Hst Hlo Hfree Hfile. cbn. split; [by apply (has_record (files s) m id c i (proj2 Hs) Hc Hi)|]. split; [done|].
  intros k Hk Hlk. destruct (has_file _ _ _ (proj2 Hs) Hk) as [[Hk0 _] _]. destruct (key_split P Hp k Hk0) as (Hr & Hid & Hjoin).
  specialize (Hfile k Hk Hlk). destruct (Z.eq_dec (fileOf k) id) as [He|Hne]; [|pose proof (file_bounds k Hk0); nia].
  rewrite <- Hjoin, He. destruct (Z.lt_ge_cases (k mod N) i) as [Hlt|]; [|lia]. exfalso.
  assert (Hf : free (data_of c) (k mod N)) by (apply Hfree; [lia|rewrite <- He, Hjoin; done]).
  rewrite <- Hjoin, He in Hk. by apply (has_record (files s) m id c (k mod N) (proj2 Hs) Hc Hr) in Hk.
Qed.

Lemma below_in_file (s : state) m id c i hi : store_ok P s m -> files s !! id = Some c -> 0 <= i < N -> ~ free (data_of c) i ->
  (id - 1) * N + i < hi -> (forall j, i < j < N -> (id - 1) * N + j < hi -> free (data_of c) j) ->
  (forall k, has m k -> k < hi -> fileOf k <= id) -> nearest_below m hi (Some ((id - 1) * N + i)).
Proof.
  intros Hs Hc Hi Hst Hhi Hfree Hfile. cbn. split; [by apply (has_record (files s) m id c i (proj2 Hs) Hc Hi)|]. split; [done|].
  intros k Hk Hlk. destruct (has_file _ _ _ (proj2 Hs) Hk) as [[Hk0 _] _]. destruct (key_split P Hp k Hk0) as (Hr & Hid & Hjoin).
  specialize (Hfile k Hk Hlk). destruct (Z.eq_dec (fileOf k) id) as [He|Hne]; [|pose proof (file_bounds k Hk0); nia].
  rewrite <- Hjoin, He. destruct (Z.lt_ge_cases i (k mod N)) as [Hlt|]; [|lia]. exfalso.
  assert (Hf : free (data_of c) (k mod N)) by (apply Hfree; [lia|rewrite <- He, Hjoin; done]).
  rewrite <- Hjoin, He in Hk. by apply (has_record (files s) m id c (k mod N) (proj2 Hs) Hc Hr) in Hk.
Qed.

(** No key of the map in a file whose relevant records are free. *)
Lemma not_in_file (s : state) m id c k : store_ok P s m -> files s !! id = Some c -> has m k -> free (data_of c) (k mod N) -> fileOf k <> id.
Proof.
  intros Hs Hc Hk Hf He. destruct (has_file _ _ _ (proj2 Hs) Hk) as [[Hk0 _] _]. destruct (key_split P Hp k Hk0) as (Hr & _ & Hjoin).
  rewrite <- Hjoin, He in Hk. by apply (has_record (files s) m id c (k mod N) (proj2 Hs) Hc Hr) in Hk.
Qed.

Lemma findLeadingKey_loop_ok m : forall ids (s : state), store_ok P s m -> StronglySorted Z.lt ids ->
  (forall id, id ∈ ids -> is_Some (files s !! id)) -> (forall k, has m k -> fileOf k ∈ ids) ->
  wp (findLeadingKey_loop P ids) s (found s m (nearest_above m 0)) none_thrown.
Proof.
  induction ids as [|id ids IH]; intros s Hs Hsort Hfiles Hall; cbn [findLeadingKey_loop].
  - apply wp_ret. split; [apply frame_refl|]. split; [done|]. exists None. split; [done|]. intros k Hk. specialize (Hall k Hk). set_solver.
  - inversion_clear Hsort as [|? ? Hsort' Hlt]. destruct (Hfiles id) as [c Hc]; [set_solver|].
    destruct (file_facts s m id c Hs Hc) as (Hid & Hd & Hmax).
    apply (wp_open s m id c); [done|done|]. intros s' Hfr Hs'. cbn [fd_data].
    pose proof (p_records P Hp). destruct (leading_record_ok (data_of c) Hd (Z.to_nat N) 0) as (r & Hr & Hspec); [lia|lia|].
    apply wp_bind. eapply wp_lift; [exact Hr|]. destruct r as [i|].
    + destruct Hspec as (Hi & Hst & Hfree). apply wp_ret. split; [done|]. split; [done|]. exists (Some ((id - 1) * N + i)).
      split; [cbn; rewrite uw_key by (auto; lia); done|]. apply (above_in_file s m id c i); try done; [nia|intros; apply Hfree; lia|].
      intros k Hk _. specialize (Hall k Hk). apply elem_of_cons in Hall as [->|Hin]; [lia|].
      rewrite Forall_forall in Hlt. specialize (Hlt _ Hin). lia.
    + pose proof Hfr as (Hff & _). eapply wp_mono; [apply (IH s')| |done]; [done|done|rewrite Hff; set_solver| |].
      * intros k Hk. pose proof (Hall k Hk) as Hin. apply elem_of_cons in Hin as [He|]; [|done]. exfalso.
        destruct (has_file _ _ _ (proj2 Hs) Hk) as [[Hk0 _] _]. destruct (key_split P Hp k Hk0) as (Hr' & _ & _).
        apply (not_in_file s m id c k Hs Hc Hk); [|done]. apply Hspec. lia.
      * intros r' s''. by apply found_frame.
Qed.

Lemma findTrailingKey_loop_ok m hi : max_key < hi -> forall ids (s : state), store_ok P s m -> StronglySorted Z.gt ids ->
  (forall id, id ∈ ids -> is_Some (files s !! id)) -> (forall k, has m k -> fileOf k ∈ ids) ->
  wp (findTrailingKey_loop P ids) s (found s m (nearest_below m hi)) none_thrown.
Proof.
  intros Hhi. induction ids as [|id ids IH]; intros s Hs Hsort Hfiles Hall; cbn [findTrailingKey_loop].
  - apply wp_ret. split; [apply frame_refl|]. split; [done|]. exists None. split; [done|]. intros k Hk. specialize (Hall k Hk). set_solver.
  - inversion_clear Hsort as [|? ? Hsort' Hlt]. destruct (Hfiles id) as [c Hc]; [set_solver|].
    destruct (file_facts s m id c Hs Hc) as (Hid & Hd & Hmax).
    apply (wp_open s m id c); [done|done|]. intros s' Hfr Hs'. cbn [fd_data].
    pose proof (p_records P Hp). destruct (trailing_record_ok (data_of c) Hd (Z.to_nat N)) as (r & Hr & Hspec); [lia|].
    rewrite Z2Nat.id in Hr, Hspec by lia. apply wp_bind. eapply wp_lift; [exact Hr|]. destruct r as [i|].
    + destruct Hspec as (Hi & Hst & Hfree). apply wp_ret. split; [done|]. split; [done|]. exists (Some ((id - 1) * N + (i - 1))).
      specialize (Hmax (i - 1) ltac:(lia) Hst).
      split; [cbn; replace ((id - 1) * N + i - 1) with ((id - 1) * N + (i - 1)) by lia; rewrite uw_key by lia; done|].
      apply (below_in_file s m id c (i - 1)); try done; [lia|lia|intros; apply Hfree; lia|].
      intros k Hk _. specialize (Hall k Hk). apply elem_of_cons in Hall as [->|Hin]; [lia|].
      rewrite Forall_forall in Hlt. specialize (Hlt _ Hin). lia.
    + pose proof Hfr as (Hff & _). eapply wp_mono; [apply (IH s')| |done]; [done|done|rewrite Hff; set_solver| |].
      * intros k Hk. pose proof (Hall k Hk) as Hin. apply elem_of_cons in Hin as [He|]; [|done]. exfalso.
        destruct (has_file _ _ _ (proj2 Hs) Hk) as [[Hk0 _] _]. destruct (key_split P Hp k Hk0) as (Hr' & _ & _).
        apply (not_in_file s m id c k Hs Hc Hk); [|done]. apply Hspec. lia.
      * intros r' s''. by apply found_frame.
Qed.

Lemma findLeadingKey_ok (s : state) m : store_ok P s m ->
  wp (findLeadingKey P) s (found s m (nearest_above m 0)) none_thrown.
Proof.
  intros Hs. apply wp_bind, wp_gets. destruct Hs as [Hco Hfs]. apply findLeadingKey_loop_ok; [by split|apply (c_sorted s Hco)|..].
  - intros id. apply (c_ids s Hco).
  - intros k Hk. apply (c_ids s Hco). by apply (has_file _ _ _ Hfs).
Qed.

Lemma reverse_sorted l : StronglySorted Z.lt l -> StronglySorted Z.gt (reverse l).
Proof.
  induction 1 as [|a l Hl IH Ha]; [constructor|]. rewrite reverse_cons.
  assert (Hall : Forall (fun x => a < x) (reverse l)) by (by apply Forall_reverse). clear Ha. revert IH Hall.
  induction (reverse l) as [|b r IHr]; intros Hs Hall; [repeat constructor|]. inversion_clear Hs. inversion_clear Hall. cbn. constructor; [auto|].
  apply Forall_app. split; [done|]. constructor; [lia|constructor].
Qed.

Lemma findTrailingKey_ok (s : state) m hi : max_key < hi -> store_ok P s m ->
  wp (findTrailingKey P) s (found s m (nearest_below m hi)) none_thrown.
Proof.
  intros Hhi Hs. apply wp_bind, wp_gets. destruct Hs as [Hco Hfs].
  apply findTrailingKey_loop_ok; [done|by split|apply reverse_sorted, (c_sorted s Hco)|..].
  - intros id. rewrite elem_of_reverse. apply (c_ids s Hco).
  - intros k Hk. rewrite elem_of_reverse. apply (c_ids s Hco). by apply (has_file _ _ _ Hfs).
Qed.

(** The candidates of one file in [findKeyBefore]: its first [i] records. *)
Lemma before_file (s : state) m key id c i : store_ok P s m -> files s !! id = Some c -> key_ok t key -> 0 <= i <= N ->
  (id - 1) * N + i <= decodeKey t key ->
  exists r,
    (if i >? 0 then before_records P (S (Z.to_nat N)) (data_of c) (getRecordOffsetInMemory P (i - 1)) (uw 64 (uw 64 ((id - 1) * N + i) - 1)) key
     else Ok None) = Ok (encodeKey t <$> r) /\
    match r with
    | Some k => exists j, k = (id - 1) * N + j /\ 0 <= j < i /\ ~ free (data_of c) j /\ forall j', j < j' < i -> free (data_of c) j'
    | None => forall k, has m k -> k < (id - 1) * N + i -> fileOf k <> id
    end.
Proof.
  intros Hs Hc Hkey Hi Hle. destruct (file_facts s m id c Hs Hc) as (Hid & Hd & Hmax). pose proof (p_records P Hp) as HN.
  assert (Hnone : (forall j', 0 <= j' <= i - 1 -> free (data_of c) j') -> forall k, has m k -> k < (id - 1) * N + i -> fileOf k <> id).
  { intros Hfree k Hk Hlk He. destruct (has_file _ _ _ (proj2 Hs) Hk) as [[Hk0 _] _]. destruct (key_split P Hp k Hk0) as (Hrec & _ & Hjoin).
    apply (not_in_file s m id c k Hs Hc Hk); [|done]. apply Hfree. split; [lia|]. rewrite <- Hjoin, He in Hlk. lia. }
  rewrite Z.gtb_ltb. destruct (Z.ltb_spec 0 i); [|exists None; split; [done|]; apply Hnone; intros; lia].
  unfold getRecordOffsetInMemory. rewrite Z.mod_small by lia.
  replace (uw 64 (uw 64 ((id - 1) * N + i) - 1)) with (uw 64 ((id - 1) * N + (i - 1)))
    by (unfold uw; rewrite Zminus_mod_idemp_l; f_equal; lia).
  destruct (before_records_ok (data_of c) key ((id - 1) * N) Hd Hkey ltac:(nia) Hmax (S (Z.to_nat N)) (i - 1)) as (r & Hr & Hspec); [lia|lia|lia|].
  exists r. split; [done|]. destruct r as [k|]; [|by apply Hnone]. destruct Hspec as (j & ? & ? & ? & Hfree). exists j.
  split; [done|]. split; [lia|]. split; [done|]. intros; apply Hfree; lia.
Qed.

(** [findKeyBefore], from the iterator on: [i] records of the file are
    candidates. *)
Lemma findKeyBefore_loop_ok m key : key_ok t key -> forall before id i (s : state), store_ok P s m ->
  StronglySorted Z.gt (id :: before) -> (forall x, x ∈ id :: before -> is_Some (files s !! x)) ->
  0 <= i <= N -> (id - 1) * N + i <= decodeKey t key ->
  (forall k, has m k -> k < (id - 1) * N + i -> fileOf k ∈ id :: before) ->
  wp (findKeyBefore_loop P key id i (uw 64 ((id - 1) * N + i)) before) s
    (found s m (nearest_below m ((id - 1) * N + i))) none_thrown.
Proof.
  intros Hkey. induction before as [|id' before IH]; intros id i s Hs Hsort Hfiles Hi Hle Hall;
    inversion_clear Hsort as [|? ? Hsort' Hlt]; cbn [findKeyBefore_loop];
    (destruct (Hfiles id) as [c Hc]; [set_solver|]);
    (apply (wp_open s m id c); [done|done|]); intros s' Hfr Hs'; cbn [fd_data];
    destruct (before_file s m key id c i Hs Hc Hkey Hi Hle) as (r & Hr & Hspec);
    apply wp_bind; (eapply wp_lift; [exact Hr|]); destruct r as [k|]; cbn [fmap option_fmap option_map].
  1, 3: destruct Hspec as (j & -> & Hj & Hst & Hfree); apply wp_ret; split; [done|]; split; [done|]; exists (Some ((id - 1) * N + j));
    split; [done|]; apply (below_in_file s m id c j); [done|done|lia|done|lia|intros; apply Hfree; lia|];
    intros k Hk Hlk; specialize (Hall k Hk Hlk); apply elem_of_cons in Hall as [->|Hin]; [lia|];
    rewrite Forall_forall in Hlt; specialize (Hlt _ Hin); lia.
  - apply wp_ret. split; [done|]. split; [done|]. exists None. split; [done|]. intros k Hk.
    destruct (Z.lt_ge_cases k ((id - 1) * N + i)) as [Hlk|]; [|done]. specialize (Hspec k Hk Hlk). specialize (Hall k Hk Hlk). set_solver.
  - pose proof Hfr as (Hff & _). assert (Hid' : id' < id) by (rewrite Forall_forall in Hlt; specialize (Hlt id'); set_solver by lia).
    pose proof (p_records P Hp) as HN.
    eapply wp_mono; [apply (IH id' N s')| |done]; [done|done|rewrite Hff; set_solver|lia|nia| |].
    + intros k Hk Hlk. assert (Hlk' : k < (id - 1) * N + i) by nia. specialize (Hall k Hk Hlk'). specialize (Hspec k Hk Hlk'). set_solver.
    + intros r' s'' Hfound. apply (found_frame _ s'); [done|]. eapply found_mono; [|exact Hfound]. intros r0.
      apply below_skip; [nia|]. intros k Hk Hlk. destruct (has_file _ _ _ (proj2 Hs) Hk) as [[Hk0 _] _].
      specialize (Hall k Hk Hlk). specialize (Hspec k Hk Hlk). pose proof (file_bounds k Hk0).
      inversion_clear Hsort' as [|? ? _ Hlt']. rewrite Forall_forall in Hlt'.
      apply elem_of_cons in Hall as [?|[He|Hin]%elem_of_cons]; [done|rewrite He in *; nia|]. specialize (Hlt' _ Hin). nia.
Qed.

(** The candidates of one file in [findKeyAfter]: its records from [i] on. *)
Lemma after_file (s : state) m key id c i : store_ok P s m -> files s !! id = Some c -> key_ok t key -> 0 <= i < N ->
  decodeKey t key < (id - 1) * N + i ->
  exists r,
    after_records P (S (Z.to_nat N)) (data_of c) (getRecordOffsetInMemory P i) (uw 64 ((id - 1) * N + i)) key = Ok (encodeKey t <$> r) /\
    match r with
    | Some k => exists j, k = (id - 1) * N + j /\ i <= j < N /\ ~ free (data_of c) j /\ forall j', i <= j' < j -> free (data_of c) j'
    | None => forall k, has m k -> (id - 1) * N + i <= k -> fileOf k <> id
    end.
Proof.
  intros Hs Hc Hkey Hi Hle. destruct (file_facts s m id c Hs Hc) as (Hid & Hd & Hmax). pose proof (p_records P Hp) as HN.
  unfold getRecordOffsetInMemory. rewrite Z.mod_small by lia.
  destruct (after_records_ok (data_of c) key ((id - 1) * N) Hd Hkey ltac:(nia) Hmax (S (Z.to_nat N)) i) as (r & Hr & Hspec); [lia|lia|lia|].
  exists r. split; [done|]. destruct r as [k|]; [done|]. intros k Hk Hlk He.
  destruct (has_file _ _ _ (proj2 Hs) Hk) as [[Hk0 _] _]. destruct (key_split P Hp k Hk0) as (Hrec & _ & Hjoin).
  apply (not_in_file s m id c k Hs Hc Hk); [|done]. apply Hspec. split; [|lia]. rewrite <- Hjoin, He in Hlk. lia.
Qed.

Lemma findKeyAfter_loop_ok m key : key_ok t key -> forall after id i (s : state), store_ok P s m ->
  StronglySorted Z.lt (id :: after) -> (forall x, x ∈ id :: after -> is_Some (files s !! x)) ->
  0 <= i < N -> decodeKey t key < (id - 1) * N + i ->
  (forall k, has m k -> (id - 1) * N + i <= k -> fileOf k ∈ id :: after) ->
  wp (findKeyAfter_loop P key i (uw 64 ((id - 1) * N + i)) (id :: after)) s
    (found s m (nearest_above m ((id - 1) * N + i))) none_thrown.
Proof.
  intros Hkey. induction after as [|id' after IH]; intros id i s Hs Hsort Hfiles Hi Hle Hall;
    inversion_clear Hsort as [|? ? Hsort' Hlt]; cbn [findKeyAfter_loop hd];
    (destruct (Hfiles id) as [c Hc]; [set_solver|]);
    (apply (wp_open s m id c); [done|done|]); intros s' Hfr Hs'; cbn [fd_data];
    destruct (after_file s m key id c i Hs Hc Hkey Hi Hle) as (r & Hr & Hspec);
    apply wp_bind; (eapply wp_lift; [exact Hr|]); destruct r as [k|]; cbn [fmap option_fmap option_map].
  1, 3: destruct Hspec as (j & -> & Hj & Hst & Hfree); apply wp_ret; split; [done|]; split; [done|]; exists (Some ((id - 1) * N + j));
    split; [done|]; apply (above_in_file s m id c j); [done|done|lia|done|lia|intros; apply Hfree; lia|];
    intros k Hk Hlk; specialize (Hall k Hk Hlk); apply elem_of_cons in Hall as [->|Hin]; [lia|];
    rewrite Forall_forall in Hlt; specialize (Hlt _ Hin); lia.
  - apply wp_ret. split; [done|]. split; [done|]. exists None. split; [done|]. intros k Hk.
    destruct (Z.lt_ge_cases k ((id - 1) * N + i)) as [|Hlk]; [done|]. specialize (Hspec k Hk Hlk). specialize (Hall k Hk Hlk). set_solver.
  - pose proof Hfr as (Hff & _). assert (Hid' : id < id') by (rewrite Forall_forall in Hlt; specialize (Hlt id'); set_solver by lia).
    pose proof (p_records P Hp) as HN. replace ((id' - 1) * N) with ((id' - 1) * N + 0) by lia.
    eapply wp_mono; [apply (IH id' 0 s')| |done]; [done|done|rewrite Hff; set_solver|lia|nia| |].
    + intros k Hk Hlk. assert (Hlk' : (id - 1) * N + i <= k) by nia. specialize (Hall k Hk Hlk'). specialize (Hspec k Hk Hlk'). set_solver.
    + intros r' s'' Hfound. apply (found_frame _ s'); [done|]. eapply found_mono; [|exact Hfound]. intros r0.
      apply above_skip; [nia|]. intros k Hk Hlk. destruct (has_file _ _ _ (proj2 Hs) Hk) as [[Hk0 _] _].
      specialize (Hall k Hk Hlk). specialize (Hspec k Hk Hlk). pose proof (file_bounds k Hk0).
      inversion_clear Hsort' as [|? ? _ Hlt']. rewrite Forall_forall in Hlt'.
      apply elem_of_cons in Hall as [?|[He|Hin]%elem_of_cons]; [done|rewrite He in *; nia|]. specialize (Hlt' _ Hin). nia.
Qed.

(** ** The search functions *)

Lemma lower_bound_spec x : forall l b0, let '(b, a) := lower_bound x b0 l in
  reverse b ++ a = reverse b0 ++ l /\ (forall y, y ∈ b -> y ∈ b0 \/ y < x) /\ match a with [] => True | y :: _ => x <= y end.
Proof.
  induction l as [|y l IH]; intros b0; cbn [lower_bound]; [naive_solver|].
  destruct (Z.ltb_spec y x) as [Hy|Hy]; [|naive_solver].
  specialize (IH (y :: b0)). destruct (lower_bound x (y :: b0) l) as [b a]. destruct IH as (Heq & Hb & Ha).
  split; [rewrite Heq, reverse_cons, <- (assoc_L (++)); done|]. split; [|done].
  intros z Hz. apply Hb in Hz as [Hz|Hz]; [|auto]. apply elem_of_cons in Hz as [->|]; auto.
Qed.

Lemma sorted_app_inv l l' : StronglySorted Z.lt (l ++ l') -> StronglySorted Z.lt l /\ StronglySorted Z.lt l' /\ forall x y, x ∈ l -> y ∈ l' -> x < y.
Proof.
  induction l as [|a l IH]; cbn; intros Hs; [split; [constructor|]; split; [done|set_solver]|]. inversion_clear Hs as [|? ? Hs' Ha].
  destruct (IH Hs') as (H1 & H2 & H3). apply Forall_app in Ha as [Ha1 Ha2]. rewrite Forall_forall in Ha2.
  split; [by constructor|]. split; [done|]. intros x y [->|Hx]%elem_of_cons Hy; auto.
Qed.

(** The iterator that [lower_bound] returns on the file IDs of a state. *)
Lemma iterator_spec (s : state) x : coherent s -> let '(b, a) := lower_bound x [] (m_fileIds s) in
  StronglySorted Z.gt b /\ StronglySorted Z.lt a /\ (forall y, y ∈ b -> y < x) /\ (forall y, y ∈ a -> x <= y) /\
  (forall y, is_Some (files s !! y) <-> y ∈ b \/ y ∈ a).
Proof.
  intros Hco. pose proof (lower_bound_spec x (m_fileIds s) []) as Hl. destruct (lower_bound x [] (m_fileIds s)) as [b a].
  destruct Hl as (Heq & Hb & Ha). change (reverse [] ++ m_fileIds s) with (m_fileIds s) in Heq.
  pose proof (c_sorted s Hco) as Hs. rewrite <- Heq in Hs. apply sorted_app_inv in Hs as (Hs1 & Hs2 & Hs3).
  split; [rewrite <- (reverse_involutive b); by apply reverse_sorted|]. split; [done|]. split; [intros y Hy; destruct (Hb y Hy); set_solver|]. split.
  - destruct a as [|z a]; [set_solver|]. inversion_clear Hs2 as [|? ? _ Hz]. rewrite Forall_forall in Hz.
    intros y [->|Hy]%elem_of_cons; [done|]. specialize (Hz y Hy). lia.
  - intros y. rewrite <- (c_ids s Hco), <- Heq, elem_of_app, elem_of_reverse. done.
Qed.

Lemma compare_zero key key' : key_ok t key -> key_ok t key' -> (compareKeys t key key' =? 0) = true <-> key = key'.
Proof.
  intros Hk Hk'. rewrite (law_compare (KeyTraitsLaws := p_laws P Hp)) by done. unfold compare_values.
  destruct (Z.eqb_spec (decodeKey t key) (decodeKey t key')) as [He|He].
  - split; [|done]. intros _. apply (decodeKey_inj t size_ok); done.
  - split; [|congruence]. case_match; done.
Qed.

Lemma hd_least (s : state) id : coherent s -> is_Some (files s !! id) -> hd 0 (m_fileIds s) <= id /\ id <= List.last (m_fileIds s) 0.
Proof.
  intros Hco Hid. apply (c_ids s Hco) in Hid. pose proof (c_sorted s Hco) as Hs. split.
  - destruct Hs as [|a l Hs Ha]; [set_solver|]. cbn. apply elem_of_cons in Hid as [->|Hin]; [lia|].
    rewrite Forall_forall in Ha. specialize (Ha _ Hin). lia.
  - induction Hs as [|a l Hs IH Ha]; [set_solver|]. apply elem_of_cons in Hid as [->|Hin].
    + destruct l as [|b l]; [cbn; lia|]. assert (Hlast : List.last (a :: b :: l) 0 ∈ b :: l).
      { change (List.last (a :: b :: l) 0) with (List.last (b :: l) 0). clear. revert b.
        induction l as [|c l IH]; intros b; [set_solver|]. change (List.last (b :: c :: l) 0) with (List.last (c :: l) 0). specialize (IH c). set_solver. }
      rewrite Forall_forall in Ha. specialize (Ha _ Hlast). lia.
    + destruct l as [|b l]; [set_solver|]. by apply IH.
Qed.

(** The file of the key is not there: the search starts at the end of the file
    before it. *)
Lemma before_prev (s : state) m key f b : store_ok P s m -> key_ok t key -> StronglySorted Z.gt (f :: b) ->
  (forall y, y ∈ f :: b -> is_Some (files s !! y)) -> f < fileOf (decodeKey t key) ->
  (forall k, has m k -> k < decodeKey t key -> fileOf k ∈ f :: b) ->
  wp (findKeyBefore_loop P key f N (uw 64 ((f - 1) * N + N)) b) s (found s m (nearest_below m (decodeKey t key))) none_thrown.
Proof.
  intros Hs Hkey Hsort Hfiles Hf Hkeys. pose proof (decodeKey_range t size_ok key Hkey) as [Hk0 _].
  pose proof (file_bounds _ Hk0). pose proof (p_records P Hp) as HN.
  inversion Hsort as [|? ? _ Hfb]; subst. rewrite Forall_forall in Hfb.
  eapply wp_mono; [apply (findKeyBefore_loop_ok m key Hkey b f N s); [done|done|done|lia|nia|]| |done].
  - intros k Hk Hlt. apply Hkeys; [done|nia].
  - intros r s'. apply found_mono. intros r0. apply below_skip; [nia|]. intros k Hk Hlt. pose proof (Hkeys k Hk Hlt) as Hin.
    destruct (has_file _ _ _ (proj2 Hs) Hk) as [[Hk0' _] _]. pose proof (file_bounds k Hk0').
    apply elem_of_cons in Hin as [He|Hin]; [rewrite He in *; nia|]. specialize (Hfb _ Hin). nia.
Qed.

Lemma file_mono k k' : 0 <= k -> k <= k' -> fileOf k <= fileOf k'.
Proof. intros Hk Hle. pose proof (file_bounds k Hk). pose proof (file_bounds k' ltac:(lia)). pose proof (p_records P Hp). nia. Qed.

(** The first tests of [findKeyBefore]. *)
Lemma before_early (s : state) m key : store_ok P s m -> key_ok t key -> key_ok t (m_minKey s) ->
  (key = m_minKey s -> nearest_below m (decodeKey t key) None) ->
  (compareKeys t key (m_minKey s) =? 0) || (compareKeys t key (m_minPossibleKey P) =? 0) = true ->
  nearest_below m (decodeKey t key) None.
Proof.
  intros Hs Hkey Hmk Hmin Hearly. destruct (law_min (KeyTraitsLaws := p_laws P Hp)) as [Hminok Hmin0].
  apply orb_true_iff in Hearly as [He|He]; apply compare_zero in He; try done; [by apply Hmin|].
  intros k' Hk'. destruct (has_file _ _ _ (proj2 Hs) Hk') as [? _]. rewrite He, Hmin0. lia.
Qed.

Lemma found_none (s : state) m S : store_ok P s m -> S None -> found s m S None s.
Proof. intros Hs Hn. split; [apply frame_refl|]. split; [done|]. by exists None. Qed.

(** [findKeyBefore] finds the nearest smaller key, unless it is asked before
    there is any file. *)
Lemma findKeyBefore_ok (s : state) m key : store_ok P s m -> key_ok t key -> key_ok t (m_minKey s) -> decodeKey t key <= max_key ->
  m_fileIds s <> [] -> (key = m_minKey s -> nearest_below m (decodeKey t key) None) ->
  wp (findKeyBefore P key) s (found s m (nearest_below m (decodeKey t key))) none_thrown.
Proof.
  intros Hs Hkey Hmk Hmax Hne Hmin. apply wp_bind, wp_gets. cbv beta zeta.
  destruct ((compareKeys t key (m_minKey s) =? 0) || (compareKeys t key (m_minPossibleKey P) =? 0)) eqn:Hearly.
  { apply wp_ret, found_none; [done|]. by apply (before_early s). }
  pose proof (decodeKey_range t size_ok key Hkey) as [Hk0 _]. pose proof max_key_small. set (k := decodeKey t key) in *.
  pose proof Hs as [Hco Hfs]. destruct (key_split P Hp k Hk0) as (Hrec & Hid1 & Hjoin). apply wp_bind, wp_gets. cbv beta.
  assert (Hown : forall k', has m k' -> is_Some (files s !! fileOf k') /\ 0 <= k')
    by (intros k' Hk'; destruct (has_file _ _ _ Hfs Hk') as [[? _] [c Hc]]; eauto).
  destruct (Z.ltb_spec (fileOf k) (hd 0 (m_fileIds s))) as [Hlt|Hge].
  { apply wp_ret, found_none; [done|]. intros k' Hk'. destruct (Hown k' Hk') as [Hf Hk0'].
    destruct (Z.lt_ge_cases k' k) as [Hl|]; [|done]. pose proof (file_mono k' k Hk0' ltac:(lia)). destruct (hd_least s _ Hco Hf). lia. }
  pose proof (iterator_spec s (fileOf k) Hco) as Hit. destruct (lower_bound (fileOf k) [] (m_fileIds s)) as [b a].
  destruct Hit as (Hsb & Hsa & Hb & Ha & Hfiles).
  assert (Hprev : (forall y, y ∈ a -> fileOf k < y) ->
    exists f b', b = f :: b' /\ wp (findKeyBefore_loop P key f N (uw 64 ((f - 1) * N + N)) b') s (found s m (nearest_below m k)) none_thrown).
  { intros Ha'. destruct b as [|f b'].
    - destruct (m_fileIds s) as [|f0 l] eqn:El; [done|]. cbn in Hge.
      destruct (proj1 (Hfiles f0)) as [?|Hin]; [apply (c_ids s Hco); rewrite El; set_solver|set_solver|]. specialize (Ha' _ Hin). lia.
    - exists f, b'. split; [done|]. apply before_prev; [done|done|done| |apply Hb; set_solver|].
      + intros y Hy. apply Hfiles. by left.
      + intros k' Hk' Hlt. destruct (Hown k' Hk') as [Hf Hk0']. apply Hfiles in Hf as [|Hin]; [done|].
        specialize (Ha' _ Hin). pose proof (file_mono k' k Hk0' ltac:(unfold k; lia)). lia. }
  destruct a as [|x a]; [destruct Hprev as (f & b' & -> & Hwp); [set_solver|exact Hwp]|].
  inversion_clear Hsa as [|? ? _ Hxa]. rewrite Forall_forall in Hxa. rewrite Z.gtb_ltb.
  destruct (Z.ltb_spec (fileOf k) x) as [Hx|Hx].
  - destruct Hprev as (f & b' & -> & Hwp); [|exact Hwp]. intros y [->|Hy]%elem_of_cons; [done|]. specialize (Hxa _ Hy). lia.
  - assert (x = fileOf k) as -> by (specialize (Ha x); set_solver by lia).
    pose proof (findKeyBefore_loop_ok m key Hkey b (fileOf k) (k mod N) s) as Hloop.
    rewrite Hjoin, (uw_small 64 k) in Hloop by (unfold u_ok; lia). apply Hloop; [done| | |lia|done|].
    + constructor; [done|]. rewrite Forall_forall. intros y Hy. specialize (Hb y Hy). lia.
    + intros y [->|Hy]%elem_of_cons; apply Hfiles; [right; set_solver|by left].
    + intros k' Hk' Hlt. destruct (Hown k' Hk') as [Hf Hk0']. apply Hfiles in Hf as [Hin|Hin]; [set_solver|].
      pose proof (file_mono k' k Hk0' ltac:(lia)). apply elem_of_cons in Hin as [->|Hin]; [set_solver|]. specialize (Hxa _ Hin). lia.
Qed.

(** The search starts at the beginning of a file behind that of the key. *)
Lemma after_next (s : state) m key lo x a : store_ok P s m -> key_ok t key -> StronglySorted Z.lt (x :: a) ->
  (forall y, y ∈ x :: a -> is_Some (files s !! y)) -> decodeKey t key < lo -> lo <= (x - 1) * N ->
  (forall k, has m k -> lo <= k -> fileOf k ∈ x :: a) ->
  wp (findKeyAfter_loop P key 0 (uw 64 ((x - 1) * N)) (x :: a)) s (found s m (nearest_above m lo)) none_thrown.
Proof.
  intros Hs Hkey Hsort Hfiles Hlo Hx Hkeys. pose proof (p_records P Hp) as HN.
  inversion Hsort as [|? ? _ Hxa]; subst. rewrite Forall_forall in Hxa.
  replace ((x - 1) * N) with ((x - 1) * N + 0) by lia.
  eapply wp_mono; [apply (findKeyAfter_loop_ok m key Hkey a x 0 s); [done|done|done|lia|lia|]| |done].
  - intros k Hk Hlt. apply Hkeys; [done|lia].
  - intros r s'. apply found_mono. intros r0. apply above_skip; [lia|]. intros k Hk Hlt. pose proof (Hkeys k Hk Hlt) as Hin.
    destruct (has_file _ _ _ (proj2 Hs) Hk) as [[Hk0 _] _]. pose proof (file_bounds k Hk0).
    apply elem_of_cons in Hin as [He|Hin]; [rewrite He in *; lia|]. specialize (Hxa _ Hin). nia.
Qed.

(** Records that are all free are passed over, whatever keys they are taken
    for. *)
Lemma after_records_free data key : len data = dataSize P -> (forall j, 0 <= j < N -> free data j) ->
  forall fuel i cur, N - i < Z.of_nat fuel -> 0 <= i <= N -> after_records P fuel data (i * R) cur key = Ok None.
Proof.
  intros Hd Hfree fuel. pose proof (record_size P Hp). pose proof (p_value P Hp).
  induction fuel as [|fuel IH]; intros i cur Hf Hi; [lia|]. cbn [after_records].
  destruct (Z.eqb_spec (i * R) (N * R)) as [|Hend]; [done|]. assert (i < N) by nia.
  rewrite read_state by lia. cbn [bind]. rewrite (Hfree i) by lia. cbn. replace (i * R + R) with ((i + 1) * R) by lia. apply IH; lia.
Qed.

(** The last record of a file: the loop starts over at the first record of the
    same file, which does no harm if that file has no keys. *)
Lemma after_edge (s : state) m key a : store_ok P s m -> key_ok t key -> let k := decodeKey t key in k mod N = N - 1 ->
  StronglySorted Z.lt (fileOf k :: a) -> (forall y, y ∈ fileOf k :: a -> is_Some (files s !! y)) ->
  (forall k', has m k' -> fileOf k' <> fileOf k) -> (forall k', has m k' -> k + 1 <= k' -> fileOf k' ∈ a) ->
  wp (findKeyAfter_loop P key (k mod N + 1) (uw 64 (k + 1)) (fileOf k :: a)) s (found s m (nearest_above m (k + 1))) none_thrown.
Proof.
  intros Hs Hkey k Hedge Hsort Hfiles Hnone Hkeys. pose proof (decodeKey_range t size_ok key Hkey) as [Hk0 _]. fold k in Hk0.
  destruct (Hfiles (fileOf k)) as [c Hc]; [set_solver|]. destruct (file_facts s m _ c Hs Hc) as (Hid & Hd & _). pose proof (p_records P Hp) as HN.
  assert (Hfree : forall j, 0 <= j < N -> free (data_of c) j).
  { intros j Hj. destruct (Z.eq_dec (record_state P (data_of c) j) 0) as [|Hst]; [done|]. exfalso.
    apply (has_record (files s) m _ c j (proj2 Hs) Hc Hj) in Hst. apply (Hnone _ Hst). apply key_join; lia. }
  cbn [findKeyAfter_loop]. apply (wp_open s m (fileOf k) c); [done|done|]. intros s' Hfr Hs'. cbn [fd_data].
  assert (Hoff : getRecordOffsetInMemory P (k mod N + 1) = 0 * R) by (unfold getRecordOffsetInMemory; rewrite Hedge; replace (N - 1 + 1) with N by lia; rewrite Z_mod_same_full; done).
  rewrite Hoff. apply wp_bind. eapply wp_lift; [apply after_records_free; [done|done|lia|lia]|].
  pose proof Hfr as (Hff & _). inversion Hsort as [|? ? Hsort' Hlt]; subst. destruct a as [|x a].
  - cbn [findKeyAfter_loop]. apply wp_ret. apply (found_frame _ s'); [done|]. apply found_none; [done|]. intros k' Hk'.
    destruct (Z.lt_ge_cases k' (k + 1)) as [|Hle]; [done|]. specialize (Hkeys k' Hk' Hle). set_solver.
  - cbn [hd]. rewrite Forall_forall in Hlt. assert (Hx : fileOf k < x) by (apply Hlt; set_solver).
    eapply wp_mono; [apply (after_next s' m key (k + 1) x a); [done|done|done|rewrite Hff; set_solver|fold k; lia| |done]| |done].
    + pose proof (file_bounds k Hk0). nia.
    + intros r s''. by apply found_frame.
Qed.

(** The first tests of [findKeyAfter]. *)
Lemma after_early (s : state) m key : store_ok P s m -> key_ok t key -> key_ok t (m_maxKey s) ->
  (key = m_maxKey s -> nearest_above m (decodeKey t key + 1) None) ->
  (compareKeys t key (m_maxKey s) =? 0) || (compareKeys t key (m_maxPossibleKey P) =? 0) = true ->
  nearest_above m (decodeKey t key + 1) None.
Proof.
  intros Hs Hkey Hmk Hmax Hearly. destruct (law_max (KeyTraitsLaws := p_laws P Hp)) as [Hmaxok _].
  apply orb_true_iff in Hearly as [He|He]; apply compare_zero in He; try done; [by apply Hmax|].
  intros k' Hk'. destruct (has_file _ _ _ (proj2 Hs) Hk') as [? _]. rewrite He. unfold LinearIndexOps.max_key in *. lia.
Qed.

(** [findKeyAfter] finds the nearest greater key, if the key is not the last
    record of its file, or the file has no keys. *)
Lemma findKeyAfter_ok (s : state) m key : store_ok P s m -> key_ok t key -> key_ok t (m_maxKey s) -> decodeKey t key <= max_key ->
  (key = m_maxKey s -> nearest_above m (decodeKey t key + 1) None) ->
  decodeKey t key mod N <> N - 1 \/ (forall k', has m k' -> fileOf k' <> fileOf (decodeKey t key)) ->
  wp (findKeyAfter P key) s (found s m (nearest_above m (decodeKey t key + 1))) none_thrown.
Proof.
  intros Hs Hkey Hmk Hmax Hlast Hedge. apply wp_bind, wp_gets. cbv beta zeta.
  destruct ((compareKeys t key (m_maxKey s) =? 0) || (compareKeys t key (m_maxPossibleKey P) =? 0)) eqn:Hearly.
  { apply wp_ret, found_none; [done|]. by apply (after_early s). }
  pose proof (decodeKey_range t size_ok key Hkey) as [Hk0 _]. pose proof max_key_small. set (k := decodeKey t key) in *.
  pose proof Hs as [Hco Hfs]. destruct (key_split P Hp k Hk0) as (Hrec & Hid1 & Hjoin). apply wp_bind, wp_gets. cbv beta.
  assert (Hown : forall k', has m k' -> k + 1 <= k' -> is_Some (files s !! fileOf k') /\ fileOf k <= fileOf k').
  { intros k' Hk' Hle. destruct (has_file _ _ _ Hfs Hk') as [[? _] [c Hc]]. split; [eauto|]. apply file_mono; lia. }
  rewrite Z.gtb_ltb. destruct (Z.ltb_spec (List.last (m_fileIds s) 0) (fileOf k)) as [Hlt|Hge].
  { apply wp_ret, found_none; [done|]. intros k' Hk'. destruct (Z.lt_ge_cases k' (k + 1)) as [|Hl]; [done|].
    destruct (Hown k' Hk' Hl) as [Hf ?]. destruct (hd_least s _ Hco Hf). lia. }
  pose proof (iterator_spec s (fileOf k) Hco) as Hit. destruct (lower_bound (fileOf k) [] (m_fileIds s)) as [b a] eqn:Hlb.
  destruct Hit as (Hsb & Hsa & Hb & Ha & Hfiles).
  assert (Hin_a : forall k', has m k' -> k + 1 <= k' -> fileOf k' ∈ a).
  { intros k' Hk' Hle. destruct (Hown k' Hk' Hle) as [Hf Hle']. apply Hfiles in Hf as [Hin|]; [|done]. specialize (Hb _ Hin). lia. }
  assert (Hall : forall y, y ∈ a -> is_Some (files s !! y)) by (intros y Hy; apply Hfiles; by right).
  destruct a as [|x a].
  - destruct (m_fileIds s) as [|f0 l] eqn:El; [cbn in Hge; lia|]. exfalso.
    assert (Hlast_in : List.last (f0 :: l) 0 ∈ f0 :: l).
    { clear. revert f0. induction l as [|c l IH]; intros f0; [set_solver|]. specialize (IH c). change (List.last (f0 :: c :: l) 0) with (List.last (c :: l) 0). set_solver. }
    rewrite <- El in Hlast_in. apply (c_ids s Hco), Hfiles in Hlast_in as [Hin|]; [|set_solver]. rewrite El in Hin. specialize (Hb _ Hin). lia.
  - rewrite Z.gtb_ltb. destruct (Z.ltb_spec (fileOf k) x) as [Hx|Hx].
    + apply after_next; try done; [fold k; lia|]. pose proof (file_bounds k Hk0). pose proof (p_records P Hp). nia.
    + assert (x = fileOf k) as -> by (specialize (Ha x); set_solver by lia).
      destruct (Z.eq_dec (k mod N) (N - 1)) as [He|He].
      * destruct Hedge as [|Hnone]; [done|]. apply after_edge; try done. intros k' Hk' Hle. specialize (Hin_a k' Hk' Hle). specialize (Hnone k' Hk'). set_solver.
      * pose proof (findKeyAfter_loop_ok m key Hkey a (fileOf k) (k mod N + 1) s) as Hloop.
        replace ((fileOf k - 1) * N + (k mod N + 1)) with (k + 1) in Hloop by lia. apply Hloop; try done; [lia|fold k; lia].
Qed.
End Nav.
