(* ===== verification/LinearIndexMap.v ===== *)
(** * The linear index is a map

    The theorems on [LinearIndex]: every sequence of operations behaves as on a
    finite map from keys to values with its least and greatest key; the searches
    return neighbouring keys; and after a write that failed at any byte, the
    files that are left open as an index with the map before or after the
    operation. *)

From stdpp Require Import base list gmap sorting.
Set Warnings "-clear-no-such-hyp,-notation-incompatible-prefix,-notation-for-abbreviation".
From Stdlib Require Import ZArith Lia.
From S2P Require Import Prelude StateM Bytes PlainBinary IndexKeys LruCache LinearIndex LinearIndexOps LinearIndexNav.

Local Open Scope Z_scope.

Section Map.
Context {C : Type} `{FC : FileCache C} {FL : FileCacheLaws C} (P : uli_params) (Hp : params_ok P).
Notation state := (uli_state C).
Notation V := (m_valueSize P).
Notation R := (m_recordSize P).
Notation N := (m_numberOfRecordsPerFile P).
Notation t := (m_traits P).
Notation fileOf := (getFileIdForKey P).
Notation max_key := (max_key P).
Notation map := (gmap Z (list Z)).

(** A key that fits the index. *)
Definition valid_key (key : list Z) : Prop := key_ok t key /\ decodeKey t key <= max_key.

Lemma valid_range key : valid_key key -> 0 <= decodeKey t key <= max_key.
Proof. intros [Hk Hm]. pose proof (decodeKey_range t (size_ok P Hp) key Hk). lia. Qed.

(** ** Values and states of the record of a key *)

Lemma record_of (s : state) m k c : store_ok P s m -> 0 <= k -> files s !! fileOf k = Some c ->
  record_value P (data_of c) (k mod N) = m !! k /\
  (let st := record_state P (data_of c) (k mod N) in st = 0 \/ st = 1 \/ st = 2).
Proof.
  intros [_ Hfs] Hk Hc. destruct (key_split P Hp k Hk) as (Hi & _ & _). split.
  - rewrite <- (fs_value _ _ _ Hfs) by done. unfold value_at. by rewrite Hc.
  - apply (f_state _ _ _ (fs_files _ _ _ Hfs _ _ Hc) _ Hi).
Qed.

Lemma state_absent (s : state) m k c : store_ok P s m -> 0 <= k -> files s !! fileOf k = Some c ->
  (record_state P (data_of c) (k mod N) =? 0) = true <-> m !! k = None.
Proof.
  intros Hs Hk Hc. destruct (record_of s m k c Hs Hk Hc) as [<- _]. unfold record_value. by case_match.
Qed.

Lemma no_file (s : state) m k : store_ok P s m -> 0 <= k -> files s !! fileOf k = None -> m !! k = None.
Proof. intros [_ Hfs] Hk Hc. rewrite <- (fs_value _ _ _ Hfs) by done. unfold value_at. by rewrite Hc. Qed.

Lemma wp_read_state (s : state) m k c p (Q : Z -> state -> Prop) E : store_ok P s m -> 0 <= k -> files s !! fileOf k = Some c ->
  objects s !! p = Some {| fd_fileId := fileOf k; fd_data := data_of c |} ->
  Q (record_state P (data_of c) (k mod N)) s -> wp (read_byte p (getRecordOffsetInMemory P k)) s Q E.
Proof.
  intros Hs Hk Hc Ho HQ. destruct (key_split P Hp k Hk) as (Hi & _ & _). apply wp_bind.
  eapply wp_run; [unfold get_object; by rewrite Ho|]. eapply wp_lift; [|exact HQ]. apply (read_state P Hp); [|done].
  apply (data_len P Hp (fileOf k)). by apply (fs_files _ _ _ (proj2 Hs)).
Qed.

(** ** Writing a value *)

(** The least and greatest key are not touched. *)
Definition same_keys (s s' : state) : Prop :=
  m_minKey s' = m_minKey s /\ m_maxKey s' = m_maxKey s /\
  m_minNumericKey s' = m_minNumericKey s /\ m_maxNumericKey s' = m_maxNumericKey s /\
  (room s = None -> room s' = None).

Lemma poke_nothing id pos fs : poke_file id pos [] fs = fs.
Proof.
  apply map_eq. intros j. unfold poke_file. destruct (decide (id = j)) as [->|]; [|by rewrite lookup_alter_ne].
  rewrite lookup_alter_eq. destruct (fs !! j) as [c|]; [|done]. cbn. f_equal. unfold overwrite. cbn [app]. rewrite len_nil, Z.add_0_r. apply take_drop.
Qed.

(** Switching the state, completely or not at all. *)
Lemma wp_switch (s : state) m k c p st Q (E : UliError -> state -> Prop) : store_ok P s m -> 0 <= k <= max_key ->
  files s !! fileOf k = Some c -> cached (m_fileCache s) (fileOf k) p ->
  objects s !! p = Some {| fd_fileId := fileOf k; fd_data := data_of c |} -> st = 0 \/ st = 1 \/ st = 2 ->
  (forall s', store_ok P s' (switched P m k (data_of c) st) -> m_fileIds s' = m_fileIds s -> same_keys s s' -> Q tt s') ->
  (forall s', room s <> None -> files_ok P (files s') m \/ files_ok P (files s') (switched P m k (data_of c) st) -> E CannotWriteIndexFile s') ->
  wp (FileData_update p (getRecordOffsetInMemory P k) [st] 1) s Q E.
Proof.
  intros Hs Hk Hc Hcp Ho Hst HQ HE. destruct (key_split P Hp k) as (Hi & _ & _); [lia|]. destruct (record_bound P Hp _ Hi).
  pose proof (record_size P Hp). pose proof (p_value P Hp).
  pose proof (files_write_state P Hp (files s) m k c st (proj2 Hs) Hk Hc Hst) as Hfs.
  change 1 with (len [st]). apply (wp_write P Hp s m (fileOf k) c p); try done; unfold getRecordOffsetInMemory; [change (len [st]) with 1; lia|..].
  - intros s' (Hf & Hids & J1 & J2 & J3 & J4 & J5) Hco _ _. apply HQ; [|done|done]. split; [done|]. by rewrite Hf.
  - intros s' n (Hf & _) Hroom. apply HE; [done|]. rewrite Hf. destruct n as [|n]; cbn [take].
    + left. rewrite poke_nothing. apply Hs.
    + right. rewrite firstn_nil. exact Hfs.
Qed.

(** A value into the slot that is not in use, and then the switch. *)
Lemma wp_put (s : state) m k c p st v Q (E : UliError -> state -> Prop) : store_ok P s m -> 0 <= k <= max_key ->
  files s !! fileOf k = Some c -> cached (m_fileCache s) (fileOf k) p ->
  objects s !! p = Some {| fd_fileId := fileOf k; fd_data := data_of c |} ->
  st = 1 \/ st = 2 -> st <> record_state P (data_of c) (k mod N) -> len v = V ->
  (forall s', store_ok P s' (<[k := v]> m) -> m_fileIds s' = m_fileIds s -> same_keys s s' -> Q tt s') ->
  (forall s', room s <> None -> files_ok P (files s') m \/ files_ok P (files s') (<[k := v]> m) -> E CannotWriteIndexFile s') ->
  wp (FileData_update p (getRecordOffsetInMemory P k + 1 + V * (st - 1)) v V) s
    (fun _ s1 => wp (FileData_update p (getRecordOffsetInMemory P k) [st] 1) s1 Q E) E.
Proof.
  intros Hs Hk Hc Hcp Ho Hst Hne Hv HQ HE. destruct (key_split P Hp k) as (Hi & _ & _); [lia|]. destruct (record_bound P Hp _ Hi).
  pose proof (record_size P Hp). pose proof (p_value P Hp). pose proof (fs_files _ _ _ (proj2 Hs) _ _ Hc) as Hfile.
  change (getRecordOffsetInMemory P k + 1 + V * (st - 1)) with (slot_offset P (k mod N) st). rewrite <- Hv at 1.
  assert (Hpos : 0 <= slot_offset P (k mod N) st /\ slot_offset P (k mod N) st + V <= dataSize P) by (unfold slot_offset; nia).
  apply (wp_write P Hp s m (fileOf k) c p); try done; [lia|lia|lia| |].
  - intros s1 (Hf & Hids & J1 & J2 & J3 & J4 & J5) Hco Hcp1 Ho1.
    destruct (poke_data P (fileOf k) c (slot_offset P (k mod N) st) v Hfile) as (Hd & _ & _); [lia|lia|].
    assert (Hc1 : files s1 !! fileOf k = Some (overwrite c (slot_offset P (k mod N) st + kIndexFileHeaderSize) v))
      by (rewrite Hf; unfold poke_file; by rewrite lookup_alter_eq, Hc).
    assert (Hs1 : store_ok P s1 m) by (split; [done|]; rewrite Hf; apply (files_write_slot P Hp (files s) m k c st v); try done; [apply Hs|lia|lia]).
    assert (Hsw : switched P m k (data_of (overwrite c (slot_offset P (k mod N) st + kIndexFileHeaderSize) v)) st = <[k := v]> m).
    { unfold switched. destruct (Z.eqb_spec st 0); [lia|]. f_equal. unfold record_slot. rewrite Hd.
      apply sub_overwrite_in; [lia| |done]. rewrite (data_len P Hp _ _ Hfile). lia. }
    apply (wp_switch s1 m k (overwrite c (slot_offset P (k mod N) st + kIndexFileHeaderSize) v) p st); try done; [by rewrite Hd|lia| |]; rewrite Hsw.
    + intros s2 Hs2 Hids2 (K1 & K2 & K3 & K4 & K5). apply HQ; [done|congruence|]. split; [congruence|]. split; [congruence|]. split; [congruence|].
      split; [congruence|auto].
    + intros s2 Hr. apply HE. intros Hn. by apply Hr, J5.
  - intros s1 n (Hf & _) Hroom. apply HE; [done|]. left. rewrite Hf.
    apply (files_write_slot P Hp (files s) m k c st); try done; [apply Hs|lia|]. unfold len in *. rewrite length_take. lia.
Qed.

(** ** Least and greatest key *)

Definition bounds (m : map) (lo hi : Z) : Prop := nearest_above m 0 (Some lo) /\ nearest_below m (max_key + 1) (Some hi).

Definition keys_ok (s : state) (m : map) : Prop :=
  (m = ∅ /\ m_minKey s = m_maxPossibleKey P /\ m_maxKey s = m_minPossibleKey P) \/
  (exists lo hi, bounds m lo hi /\ m_minKey s = encodeKey t lo /\ m_maxKey s = encodeKey t hi /\
     m_minNumericKey s = lo /\ m_maxNumericKey s = hi).

(** A state that represents a map. *)
Definition index_ok (s : state) (m : map) : Prop := store_ok P s m /\ keys_ok s m.

Lemma key_range (s : state) m k : store_ok P s m -> has m k -> 0 <= k <= max_key.
Proof. intros [_ Hfs] Hk. by apply (has_file P Hp _ _ _ Hfs). Qed.

Lemma keys_frame (s s' : state) m : same_keys s s' -> keys_ok s m -> keys_ok s' m.
Proof. intros (J1 & J2 & J3 & J4 & _). unfold keys_ok. by rewrite J1, J2, J3, J4. Qed.

Lemma frame_same (s s' : state) : frame s s' -> same_keys s s'.
Proof. intros (? & ? & ? & ? & ? & ? & ?). repeat split; congruence. Qed.

Lemma same_keys_trans (s s' s'' : state) : same_keys s s' -> same_keys s' s'' -> same_keys s s''.
Proof. intros (? & ? & ? & ? & ?) (? & ? & ? & ? & ?). repeat split; try congruence. auto. Qed.

Lemma bounds_range (s : state) m lo hi : store_ok P s m -> bounds m lo hi ->
  0 <= lo <= max_key /\ 0 <= hi <= max_key /\ lo <= hi /\ has m lo /\ has m hi.
Proof.
  intros Hs [(Hlo & Hlo0 & Hlo') (Hhi & Hhi0 & Hhi')]. destruct (key_range s m lo Hs Hlo), (key_range s m hi Hs Hhi).
  pose proof (Hlo' hi Hhi ltac:(lia)). repeat split; done || lia.
Qed.

Lemma keys_nonempty (s : state) m k : keys_ok s m -> has m k ->
  exists lo hi, bounds m lo hi /\ m_minKey s = encodeKey t lo /\ m_maxKey s = encodeKey t hi /\
     m_minNumericKey s = lo /\ m_maxNumericKey s = hi.
Proof. intros [(-> & _)|H] Hk; [|done]. unfold has in Hk. rewrite lookup_empty in Hk. by destruct Hk. Qed.

(** Comparisons of keys, by their numbers. *)
Lemma compare_encoded a b : 0 <= a <= max_key -> 0 <= b <= max_key -> compareKeys t (encodeKey t a) (encodeKey t b) = compare_values a b.
Proof.
  intros Ha Hb. pose proof (max_key_small P Hp). rewrite (encode_compare P Hp) by (done || apply encodeKey_ok, (size_ok P Hp)).
  rewrite decode_encode; [done|apply (size_ok P Hp)|lia].
Qed.

Lemma valid_encode key : valid_key key -> key = encodeKey t (decodeKey t key).
Proof. intros [Hk _]. symmetry. apply encode_decode; [apply (size_ok P Hp)|done]. Qed.

Lemma possible_keys : m_maxPossibleKey P = encodeKey t max_key /\ m_minPossibleKey P = encodeKey t 0.
Proof.
  destruct (law_max (KeyTraitsLaws := p_laws P Hp)) as [H1 _]. destruct (law_min (KeyTraitsLaws := p_laws P Hp)) as [H2 H0].
  split; [|rewrite <- H0]; symmetry; apply encode_decode; done || apply (size_ok P Hp).
Qed.

Lemma has_insert m k v k' : has (<[k := v]> m) k' <-> k' = k \/ has m k'.
Proof. unfold has. rewrite lookup_insert_is_Some. destruct (decide (k = k')); naive_solver. Qed.

Lemma has_delete m k k' : has (delete k m) k' <-> k' <> k /\ has m k'.
Proof. unfold has. rewrite lookup_delete_is_Some. naive_solver. Qed.

Lemma bounds_intro (s : state) m lo hi : store_ok P s m -> has m lo -> has m hi -> (forall k, has m k -> lo <= k <= hi) -> bounds m lo hi.
Proof.
  intros Hs Hlo Hhi Hall. destruct (key_range s m lo Hs Hlo), (key_range s m hi Hs Hhi).
  split; cbn; (split; [done|]; split; [lia|]; intros k Hk _; by apply Hall).
Qed.

Lemma bounds_elim (s : state) m lo hi : store_ok P s m -> bounds m lo hi -> forall k, has m k -> lo <= k <= hi.
Proof.
  intros Hs [(_ & _ & Hlo) (_ & _ & Hhi)] k Hk. destruct (key_range s m k Hs Hk). split; [apply Hlo|apply Hhi]; done || lia.
Qed.

(** Comparisons with the least and greatest key. *)
Lemma compare_sign a b : (compare_values a b <? 0) = (a <? b) /\ (compare_values a b >? 0) = (b <? a) /\ (compare_values a b =? 0) = (a =? b).
Proof. unfold compare_values. zcases; repeat split; try done; lia. Qed.

(** The keys after an insertion. *)
Lemma extend_keys_ok (s0 s s' : state) m key v : store_ok P s0 m -> keys_ok s m -> valid_key key -> same_keys s s' ->
  store_ok P s' (<[decodeKey t key := v]> m) -> index_ok (extend_keys P key s') (<[decodeKey t key := v]> m).
Proof.
  intros Hs0 Hkeys Hkey (J1 & J2 & J3 & J4 & _) Hs'. set (k := decodeKey t key) in *. pose proof (valid_range key Hkey) as Hk. fold k in Hk.
  pose proof (valid_encode key Hkey) as Hke. fold k in Hke. pose proof possible_keys as [Hpmax Hpmin]. pose proof (max_key_small P Hp).
  assert (Hstore : forall mn mx a b, store_ok P (set_keys s' mn mx a b) (<[k := v]> m)).
  { intros mn mx a b. destruct Hs' as [[? ? ? ?] ?]. split; [split; done|done]. }
  assert (Hk' : has (<[k := v]> m) k) by (apply has_insert; auto).
  unfold extend_keys. cbv zeta. fold k. rewrite J1, J2, J3, J4. destruct Hkeys as [(-> & E1 & E2)|(lo & hi & Hb & E1 & E2 & E3 & E4)]; rewrite E1, E2.
  - rewrite Hpmax, Hpmin, compare_encoded by lia. rewrite (proj1 (compare_sign _ _)), (proj2 (Z.ltb_lt _ _)) by lia.
    split; [apply Hstore|]. right. exists k, k. cbn. split; [|done].
    apply (bounds_intro s'); [done|done|done|]. intros k' [->|Hn]%has_insert; [lia|]. unfold has in Hn. rewrite lookup_empty in Hn. by destruct Hn.
  - destruct (bounds_range s0 m lo hi Hs0 Hb) as (Hlo & Hhi & Hle & Hhlo & Hhhi). rewrite Hke, !compare_encoded by lia.
    destruct (compare_sign hi lo) as (-> & _). rewrite (proj2 (Z.ltb_ge hi lo)) by lia.
    destruct (compare_sign k lo) as (-> & _ & _), (compare_sign k hi) as (_ & -> & _). rewrite E3, E4, Z.gtb_ltb.
    split; [apply Hstore|]. right. pose proof (bounds_elim s0 m lo hi Hs0 Hb) as Hall.
    exists (if k <? lo then k else lo), (if hi <? k then k else hi). cbn. split.
    + apply (bounds_intro s'); [done|..]; [case_match; [done|apply has_insert; auto]..|].
      intros k' [->|Hn]%has_insert; [zcases; lia|]. specialize (Hall k' Hn). zcases; lia.
    + repeat split; by case_match.
Qed.

(** Replacing a value does not change the keys. *)
Lemma keys_update (s : state) m k v : has m k -> keys_ok s m -> keys_ok s (<[k := v]> m).
Proof.
  intros Hk [(-> & _)|(lo & hi & [(A1 & A2 & A3) (B1 & B2 & B3)] & H)]; [unfold has in Hk; rewrite lookup_empty in Hk; by destruct Hk|].
  assert (Hh : forall k', has (<[k := v]> m) k' <-> has m k') by (intros k'; rewrite has_insert; naive_solver).
  right. exists lo, hi. split; [|done]. split; cbn; rewrite Hh; (split; [done|]; split; [done|]; intros k'; rewrite Hh; auto).
Qed.

(** ** The operations *)

(** The end of an operation on a map: the files it leaves, and the result. *)
Definition ends {A} (s : state) (m' : map) (ids : list Z) (a : A) (r : A) (s' : state) : Prop :=
  r = a /\ index_ok s' m' /\ m_fileIds s' = ids /\ (room s = None -> room s' = None).

(** A write failed: the files mean the map before or after the operation. *)
Definition fails (s : state) (m m' : map) (e : UliError) (s' : state) : Prop :=
  e = CannotWriteIndexFile /\ room s <> None /\ (files_ok P (files s') m \/ files_ok P (files s') m').

Lemma ends_frame {A} (s s' : state) m (a : A) : index_ok s m -> frame s s' -> store_ok P s' m -> ends s m (m_fileIds s) a a s'.
Proof.
  intros [_ Hk] Hfr Hs'. split; [done|]. split; [split; [done|]; by apply (keys_frame s); [apply frame_same|]|].
  destruct Hfr as (_ & Hr & Hi & _). split; [done|]. congruence.
Qed.

Lemma set_insert_in x l : StronglySorted Z.lt l -> x ∈ l -> set_insert x l = l.
Proof.
  induction 1 as [|a l Hl IH Ha]; intros Hx; [set_solver|]. cbn. rewrite Forall_forall in Ha. apply elem_of_cons in Hx as [->|Hx].
  - by rewrite Z.ltb_irrefl, Z.eqb_refl.
  - specialize (Ha x Hx). destruct (Z.ltb_spec x a); [lia|]. destruct (Z.eqb_spec x a); [done|]. f_equal. auto.
Qed.

Lemma ids_in (s : state) id c : coherent s -> files s !! id = Some c -> set_insert id (m_fileIds s) = m_fileIds s.
Proof. intros Hco Hc. apply set_insert_in; [apply (c_sorted s Hco)|]. apply (c_ids s Hco). eauto. Qed.

(** An operation that looks for the file of a key and does nothing without it. *)
Lemma wp_lookup {A} (s : state) m k (a : A) (f : nat -> M A) Q E : index_ok s m -> 0 <= k <= max_key -> fileOf k <= m_maxPossibleFileId P ->
  (m !! k = None -> Q a s) ->
  (forall c p s', files s !! fileOf k = Some c -> frame s s' -> index_ok s' m -> files s' !! fileOf k = Some c ->
     cached (m_fileCache s') (fileOf k) p -> objects s' !! p = Some {| fd_fileId := fileOf k; fd_data := data_of c |} -> wp (f p) s' Q E) ->
  wp (mbind (findFile P (fileOf k)) (fun file => match file with None => mret a | Some p => f p end)) s Q E.
Proof.
  intros [Hs Hkeys] Hk Hid Hnone Hsome. apply wp_bind, (wp_findFile P Hp s m); [done|done|..].
  - intros Hf. apply wp_ret, Hnone. apply (no_file s); [done|lia|done].
  - intros c p s' Hc Hfr Hs' Hcp Ho. apply (Hsome c); try done; [|destruct Hfr as (Hf & _); by rewrite Hf].
    split; [done|]. by apply (keys_frame s); [apply frame_same|].
Qed.

Lemma count_ok (s : state) m key : index_ok s m -> valid_key key -> fileOf (decodeKey t key) <= m_maxPossibleFileId P ->
  wp (count P key) s (ends s m (m_fileIds s) (match m !! decodeKey t key with Some _ => 1 | None => 0 end)) (fails s m m).
Proof.
  intros Hs Hkey Hid. pose proof (valid_range key Hkey) as Hk. unfold count. cbv zeta. apply (wp_lookup s m); [done|done|done|..].
  - intros ->. by apply ends_frame; [|apply frame_refl|apply Hs].
  - intros c p s' _ Hfr [Hs' _] Hc Hcp Ho. apply wp_bind. apply (wp_read_state s' m _ c); try done; [lia|]. apply wp_ret.
    destruct (record_of s' m _ c Hs' (proj1 Hk) Hc) as [Hv _]. unfold record_value in Hv. unfold kValueStateFree.
    destruct (record_state P (data_of c) (decodeKey t key mod N) =? 0); rewrite <- Hv; by apply ends_frame.
Qed.

Lemma find_ok (s : state) m key n : index_ok s m -> valid_key key -> fileOf (decodeKey t key) <= m_maxPossibleFileId P -> 0 < n ->
  wp (find P key n) s (ends s m (m_fileIds s) (m !! decodeKey t key)) (fails s m m).
Proof.
  intros Hs Hkey Hid Hn. pose proof (valid_range key Hkey) as Hk. unfold find. rewrite (proj2 (Z.eqb_neq n 0)) by lia. cbv zeta.
  destruct (key_split P Hp _ (proj1 Hk)) as (Hi & _ & _). destruct (record_bound P Hp _ Hi). pose proof (record_size P Hp). pose proof (p_value P Hp).
  apply (wp_lookup s m); [done|done|done|intros ->; by apply ends_frame; [|apply frame_refl|apply Hs]|].
  intros c p s' _ Hfr [Hs' _] Hc Hcp Ho. apply wp_bind. apply (wp_read_state s' m _ c); try done; [lia|].
  destruct (record_of s' m _ c Hs' (proj1 Hk) Hc) as [Hv Hst]. unfold record_value in Hv. unfold kValueStateFree, kValueStateExists2.
  cbv zeta in Hst. set (st := record_state P (data_of c) (decodeKey t key mod N)) in *.
  destruct (Z.eqb_spec st 0) as [Hst0|Hst0]; cbn [negb]; [apply wp_ret; rewrite <- Hv; by apply ends_frame|].
  rewrite (proj2 (Z.leb_le st 2)) by lia. apply wp_bind. eapply wp_run; [unfold get_object; by rewrite Ho|]. cbn [fd_data].
  pose proof (data_len P Hp _ _ (fs_files _ _ _ (proj2 Hs') _ _ Hc)). apply wp_bind. eapply wp_lift.
  - apply memrd_sub; unfold getRecordOffsetInMemory; [nia|lia|nia].
  - apply wp_ret. rewrite <- Hv. replace (sub _ _ _) with (record_slot P (data_of c) (decodeKey t key mod N) st); [by apply ends_frame|].
    unfold record_slot, slot_offset, getRecordOffsetInMemory. f_equal. lia.
Qed.

Lemma update_ok (s : state) m key v : index_ok s m -> valid_key key -> fileOf (decodeKey t key) <= m_maxPossibleFileId P -> len v = V ->
  let m' := match m !! decodeKey t key with Some _ => <[decodeKey t key := v]> m | None => m end in
  wp (update P key v) s (ends s m' (m_fileIds s) (match m !! decodeKey t key with Some _ => 1 | None => 0 end)) (fails s m m').
Proof.
  intros Hs Hkey Hid Hv m'. pose proof (valid_range key Hkey) as Hk. unfold update. cbv zeta.
  apply (wp_lookup s m); [done|done|done|unfold m'; intros ->; by apply ends_frame; [|apply frame_refl|apply Hs]|].
  intros c p s' _ Hfr [Hs' Hkeys'] Hc Hcp Ho. apply wp_bind. apply (wp_read_state s' m _ c); try done; [lia|].
  destruct (record_of s' m _ c Hs' (proj1 Hk) Hc) as [Hval Hst]. unfold record_value in Hval. unfold kValueStateFree, kValueStateExists1, kValueStateExists2.
  cbv zeta in Hst. set (st := record_state P (data_of c) (decodeKey t key mod N)) in *. unfold m'.
  destruct (Z.eqb_spec st 0) as [Hst0|Hst0]; cbn [negb]; [apply wp_ret; rewrite <- Hval; by apply ends_frame|]. rewrite <- Hval.
  pose proof (frame_same _ _ Hfr) as Hsame. destruct Hfr as (_ & Hroom & Hids & _). apply wp_bind.
  eapply wp_mono; [apply (wp_put s' m (decodeKey t key) c p (if st =? 1 then 2 else 1) v
    (ends s (<[decodeKey t key := v]> m) (m_fileIds s) tt) (fails s m (<[decodeKey t key := v]> m))); try done| |auto].
  - case_match; auto.
  - fold st. destruct (Z.eqb_spec st 1); lia.
  - intros s2 Hs2 Hids2 Hkeys2. split; [done|]. split; [|split; [congruence|intros Hn; apply Hkeys2; congruence]].
    split; [done|]. apply (keys_frame s'); [done|]. apply keys_update; [|done]. unfold has. rewrite <- Hval. eauto.
  - intros s2 Hr Hfs. split; [done|]. split; [congruence|done].
  - intros [] s1 Hwp. apply wp_bind. eapply wp_mono; [exact Hwp| |done]. intros [] s2 (_ & H2). by apply wp_ret.
Qed.

(** The state of the index with the file of the key at hand. *)
Record at_record (s : state) (m : map) (k : Z) (c : list Z) (p : nat) : Prop := {
  at_ok : index_ok s m;
  at_file : files s !! fileOf k = Some c;
  at_cached : cached (m_fileCache s) (fileOf k) p;
  at_object : objects s !! p = Some {| fd_fileId := fileOf k; fd_data := data_of c |}
}.

(** Inserting into the record of a key. *)
Lemma insert_record (s0 s : state) m key v c p : at_record s m (decodeKey t key) c p -> valid_key key -> len v = V ->
  m_fileIds s = set_insert (fileOf (decodeKey t key)) (m_fileIds s0) -> (room s0 = None -> room s = None) -> (room s <> None -> room s0 <> None) ->
  let k := decodeKey t key in
  let m' := match m !! k with Some _ => m | None => <[k := v]> m end in
  wp (mbind (read_byte p (getRecordOffsetInMemory P k)) (fun record =>
        if record =? kValueStateFree then
          mbind (FileData_update p (getRecordOffsetInMemory P k + 1) v V) (fun _ =>
          mbind (FileData_update p (getRecordOffsetInMemory P k) [kValueStateExists1] 1) (fun _ =>
          mbind (modify (extend_keys P key)) (fun _ => mret (record =? kValueStateFree))))
        else mret (record =? kValueStateFree))) s
    (ends s0 m' (m_fileIds s) (match m !! k with Some _ => false | None => true end)) (fails s0 m m').
Proof.
  intros [[Hs Hkeys] Hc Hcp Ho] Hkey Hv Hids Hroom Hroom' k m'. pose proof (valid_range key Hkey) as Hk. fold k in Hk.
  apply wp_bind, (wp_read_state s m _ c); try done; [lia|]. pose proof (state_absent s m k c Hs (proj1 Hk) Hc) as Habs.
  destruct (record_of s m k c Hs (proj1 Hk) Hc) as [_ Hst]. unfold kValueStateFree, kValueStateExists1.
  destruct (record_state P (data_of c) (k mod N) =? 0) eqn:Hfree.
  - unfold m'. rewrite (proj1 Habs eq_refl). apply wp_bind. apply Z.eqb_eq in Hfree.
    replace (getRecordOffsetInMemory P k + 1) with (getRecordOffsetInMemory P k + 1 + V * (1 - 1)) by lia.
    eapply wp_mono; [apply (wp_put s m k c p 1 v (fun _ s2 => ends s0 (<[k := v]> m) (m_fileIds s) true true (extend_keys P key s2))
      (fails s0 m (<[k := v]> m))); try done; [auto|lia|..]| |auto].
    + intros s2 Hs2 Hids2 Hkeys2. split; [done|]. split; [exact (extend_keys_ok s s s2 m key v Hs Hkeys Hkey Hkeys2 Hs2)|].
      unfold extend_keys. cbv zeta. destruct Hkeys2 as (_ & _ & _ & _ & Hr). case_match; cbn; auto.
    + intros s2 Hr Hfs. split; [done|]. auto.
    + intros [] s1 Hwp. apply wp_bind. eapply wp_mono; [exact Hwp| |done]. intros [] s2 H2. by apply wp_bind, wp_modify, wp_ret.
  - apply wp_ret. unfold m'. destruct (m !! k) as [w|] eqn:Hm; [|discriminate (proj2 Habs eq_refl)].
    split; [done|]. split; [by split|]. auto.
Qed.

Lemma insert_ok (s : state) m key v : index_ok s m -> clean_files P s -> valid_key key -> fileOf (decodeKey t key) <= m_maxPossibleFileId P -> len v = V ->
  let k := decodeKey t key in
  let m' := match m !! k with Some _ => m | None => <[k := v]> m end in
  wp (insert P key v) s (ends s m' (set_insert (fileOf k) (m_fileIds s)) (match m !! k with Some _ => false | None => true end)) (fails s m m').
Proof.
  intros [Hs Hkeys] Hcl Hkey Hid Hv k m'. pose proof (valid_range key Hkey) as Hk. fold k in Hk. unfold insert. cbv zeta. fold k.
  destruct (key_split P Hp k (proj1 Hk)) as (_ & Hid1 & _). apply wp_bind, (wp_findFile P Hp s m); [done|done|..].
  - intros Hnone. apply wp_bind, (wp_makeFile P Hp s m); [done|done|done|done| |].
    + intros p s' (Hf & Hids & J1 & J2 & J3 & J4 & J5 & J6) Hs' Hcp Ho. rewrite <- Hids.
      apply (insert_record s s' m key v (new_content P) p); try done. split; [|by rewrite Hf, lookup_insert_eq|done|done].
      split; [done|]. apply (keys_frame s); [|done]. by repeat split.
    + intros s' Hf Hr. split; [done|]. split; [done|]. left. rewrite Hf. apply Hs.
  - intros c p s' Hc Hfr Hs' Hcp Ho. apply wp_bind, wp_ret. pose proof Hfr as (Hf & Hr & Hids & _).
    rewrite (ids_in s _ c) by (done || apply Hs). rewrite <- Hids.
    apply (insert_record s s' m key v c p); try done; [|rewrite Hids; symmetry; apply (ids_in s _ c); [apply Hs|done]|congruence|congruence].
    split; [|by rewrite Hf|done|done]. split; [done|]. by apply (keys_frame s); [apply frame_same|].
Qed.

Lemma preallocate_ok (s : state) m key : index_ok s m -> clean_files P s -> valid_key key -> fileOf (decodeKey t key) <= m_maxPossibleFileId P ->
  let id := fileOf (decodeKey t key) in
  wp (preallocate P key) s (ends s m (set_insert id (m_fileIds s)) (negb (existsb (Z.eqb id) (m_fileIds s)))) (fails s m m).
Proof.
  intros [Hs Hkeys] Hcl Hkey Hid id. pose proof (valid_range key Hkey) as Hk. unfold preallocate. cbv zeta. fold id.
  destruct (key_split P Hp _ (proj1 Hk)) as (_ & Hid1 & _). fold id in Hid1.
  assert (Hex : existsb (Z.eqb id) (m_fileIds s) = true <-> is_Some (files s !! id)).
  { rewrite existsb_exists, <- (c_ids s (proj1 Hs)), list_elem_of_In. split; [intros (x & Hx & <-%Z.eqb_eq); done|]. intros Hx. exists id. split; [done|apply Z.eqb_refl]. }
  apply wp_bind, (wp_findFile P Hp s m); [done|done|..].
  - intros Hnone. replace (existsb (Z.eqb id) (m_fileIds s)) with false by (symmetry; apply not_true_iff_false; rewrite Hex, Hnone; by intros [? ?]).
    apply wp_bind, (wp_makeFile P Hp s m); [done|done|done|done| |].
    + intros p s' (Hf & Hids & J1 & J2 & J3 & J4 & J5 & J6) Hs' _ _. apply wp_ret. split; [done|].
      split; [split; [done|]; apply (keys_frame s); [by repeat split|done]|]. auto.
    + intros s' Hf Hr. split; [done|]. split; [done|]. left. rewrite Hf. apply Hs.
  - intros c p s' Hc Hfr Hs' _ _. apply wp_ret. rewrite (proj2 Hex) by eauto. rewrite (ids_in s _ c) by (done || apply Hs).
    by apply ends_frame.
Qed.

(** ** Removal *)

Lemma delete_bounds_min (s : state) m lo hi : store_ok P s m -> bounds m lo hi -> lo <> hi ->
  nearest_below (delete lo m) lo None /\ has (delete lo m) hi /\ (forall k, has (delete lo m) k -> lo < k <= hi).
Proof.
  intros Hs Hb Hne. destruct (bounds_range s m lo hi Hs Hb) as (_ & _ & Hle & _ & Hhi). pose proof (bounds_elim s m lo hi Hs Hb) as Hall.
  assert (Hin : forall k, has (delete lo m) k -> lo < k <= hi) by (intros k [Hn Hk]%has_delete; specialize (Hall k Hk); lia).
  split; [intros k Hk; specialize (Hin k Hk); lia|]. split; [apply has_delete; auto|exact Hin].
Qed.

Lemma frame_key (s s' : state) key : frame s s' -> (m_minKey s = key -> m_minKey s' = key) /\ (m_maxKey s = key -> m_maxKey s' = key).
Proof. intros (_ & _ & _ & H1 & H2 & _). by rewrite H1, H2. Qed.

(** The searches of the removal are the same in both sort orders. *)
Lemma removal_search (key : list Z) :
  (if m_sortDescending P return SM state UliError (option (list Z)) then findNextKey P key else findPreviousKey P key) = findKeyBefore P key /\
  (if m_sortDescending P return SM state UliError (option (list Z)) then findPreviousKey P key else findNextKey P key) = findKeyAfter P key.
Proof. unfold findNextKey, findPreviousKey. by destruct (m_sortDescending P). Qed.

(** The keys are changed by hand after the search. *)
Lemma keys_set (s s' : state) m nmin nmax a b : store_ok P s' m -> bounds m a b ->
  default (m_minKey s') nmin = encodeKey t a -> default (m_maxKey s') nmax = encodeKey t b ->
  match nmin with Some k => decodeKey t k | None => m_minNumericKey s' end = a ->
  match nmax with Some k => decodeKey t k | None => m_maxNumericKey s' end = b ->
  (room s = None -> room s' = None) -> ends s m (m_fileIds s') tt tt (replace_keys P nmin nmax s').
Proof.
  intros Hs' Hb E1 E2 E3 E4 Hr. destruct (bounds_range s' m a b Hs' Hb) as (_ & _ & Hle & _). unfold replace_keys.
  rewrite E1, E2, E3, E4, Z.gtb_ltb, (proj2 (Z.ltb_ge b a)) by lia. split; [done|]. split; [|done]. split.
  - destruct Hs' as [[? ? ? ?] ?]. split; [split; done|done].
  - right. exists a, b. by split.
Qed.

Lemma decode_encoded k : 0 <= k <= max_key -> decodeKey t (encodeKey t k) = k.
Proof. intros Hk. pose proof (max_key_small P Hp). apply decode_encode; [apply (size_ok P Hp)|lia]. Qed.

(** The least key is removed and others are left. *)
Lemma remove_min (s : state) m0 m lo hi : store_ok P s m -> m = delete lo m0 -> lo <> hi -> bounds m0 lo hi ->
  (forall k, has m k -> lo < k <= hi) -> has m hi -> 0 <= lo <= max_key -> 0 <= hi <= max_key ->
  m_minKey s = encodeKey t lo -> m_maxKey s = encodeKey t hi -> m_maxNumericKey s = hi -> m_fileIds s <> [] ->
  wp (mbind (findKeyBefore P (encodeKey t lo)) (fun lesserKey =>
        match lesserKey with
        | Some k => modify (replace_keys P (Some k) None)
        | None => mbind (findKeyAfter P (encodeKey t lo)) (fun greaterKey =>
            match greaterKey with
            | Some k => modify (replace_keys P (Some k) None)
            | None => mthrow UliMissingGreaterValueWhenExpected
            end)
        end)) s (ends s m (m_fileIds s) tt) (fun _ _ => False).
Proof.
  intros Hs Hm Hne Hb0 Hin Hhi Hlo Hhir E1 E2 E3 Hids. pose proof (encodeKey_ok t (size_ok P Hp)) as Hok.
  assert (Hnone : nearest_below m lo None) by (intros k Hk; specialize (Hin k Hk); lia).
  apply wp_bind. eapply wp_mono; [apply (findKeyBefore_ok P Hp s m); [done|apply Hok|rewrite E1; apply Hok|rewrite decode_encoded; lia|done|by rewrite decode_encoded]| |done].
  intros r s1 (Hfr1 & Hs1 & kb & -> & Hkb). rewrite decode_encoded in Hkb by done.
  destruct kb as [kb|]; [destruct Hkb as (Hk1 & Hk2 & _); specialize (Hnone _ Hk1); lia|]. cbn [fmap option_fmap option_map].
  destruct Hfr1 as (F1 & F2 & F3 & F4 & F5 & F6 & F7). apply wp_bind.
  assert (Hdec : decodeKey t (encodeKey t lo) = lo) by (by apply decode_encoded).
  eapply wp_mono; [apply (findKeyAfter_ok P Hp s1 m); [done|apply Hok|rewrite F5, E2; apply Hok|rewrite Hdec; lia|..]| |done]; rewrite ?Hdec.
  - intros Heq. exfalso. rewrite F5, E2 in Heq. apply (f_equal (decodeKey t)) in Heq. rewrite !decode_encoded in Heq by done. done.
  - destruct (Z.eq_dec (lo mod N) (N - 1)) as [Hedge|]; [right|by left]. intros k' Hk' He. destruct (Hin k' Hk') as [Hlt _].
    destruct (key_split P Hp lo (proj1 Hlo)) as (_ & _ & J1). destruct (key_split P Hp k') as (J2 & _ & J3); [lia|]. rewrite He in J3. lia.
  - intros r s2 (Hfr2 & Hs2 & ka & -> & Hka). destruct ka as [ka|]; cbn [fmap option_fmap option_map].
    + destruct Hka as (Hka & Hka1 & Hka2). pose proof (key_range s2 m ka Hs2 Hka). destruct Hfr2 as (G1 & G2 & G3 & G4 & G5 & G6 & G7).
      apply wp_modify. rewrite <- F3, <- G3. apply (keys_set s s2 m _ _ ka hi); try done; cbn.
      * apply (bounds_intro s2); [done|done|done|]. intros k Hk. specialize (Hin k Hk). split; [apply Hka2; [done|lia]|lia].
      * congruence.
      * by apply decode_encoded.
      * congruence.
      * congruence.
    + specialize (Hka hi Hhi). specialize (Hin hi Hhi). lia.
Qed.

(** The greatest key is removed and others are left. *)
Lemma remove_max (s : state) m lo hi : store_ok P s m -> lo <> hi ->
  (forall k, has m k -> lo <= k < hi) -> has m lo -> 0 <= lo <= max_key -> 0 <= hi <= max_key ->
  m_minKey s = encodeKey t lo -> m_minNumericKey s = lo -> m_fileIds s <> [] ->
  wp (mbind (findKeyBefore P (encodeKey t hi)) (fun greaterKey =>
        match greaterKey with
        | Some k => modify (replace_keys P None (Some k))
        | None => mbind (findKeyBefore P (encodeKey t hi)) (fun lesserKey =>
            match lesserKey with
            | Some k => modify (replace_keys P None (Some k))
            | None => mthrow UliMissingLessValueWhenExpected
            end)
        end)) s (ends s m (m_fileIds s) tt) (fun _ _ => False).
Proof.
  intros Hs Hne Hin Hlo Hlor Hhir E1 E2 Hids. pose proof (encodeKey_ok t (size_ok P Hp)) as Hok.
  assert (Hdec : decodeKey t (encodeKey t hi) = hi) by (by apply decode_encoded).
  apply wp_bind. eapply wp_mono; [apply (findKeyBefore_ok P Hp s m); [done|apply Hok|rewrite E1; apply Hok|rewrite Hdec; lia|done|]| |done]; rewrite ?Hdec.
  - intros Heq. exfalso. rewrite E1 in Heq. apply (f_equal (decodeKey t)) in Heq. rewrite !decode_encoded in Heq by done. by symmetry in Heq.
  - intros r s1 (Hfr1 & Hs1 & kb & -> & Hkb). destruct Hfr1 as (F1 & F2 & F3 & F4 & F5 & F6 & F7). destruct kb as [kb|]; cbn [fmap option_fmap option_map].
    + destruct Hkb as (Hkb & Hkb1 & Hkb2). pose proof (key_range s1 m kb Hs1 Hkb). apply wp_modify. rewrite <- F3.
      apply (keys_set s s1 m _ _ lo kb); try done; cbn; [|congruence|congruence|by apply decode_encoded|congruence].
      apply (bounds_intro s1); [done|done|done|]. intros k Hk. specialize (Hin k Hk). split; [lia|apply Hkb2; [done|lia]].
    + specialize (Hkb lo Hlo). specialize (Hin lo Hlo). lia.
Qed.

Lemma updateMinAndMax_ok (s0 s : state) m key : index_ok s0 m -> same_keys s0 s -> store_ok P s (delete (decodeKey t key) m) ->
  has m (decodeKey t key) -> valid_key key -> m_fileIds s <> [] ->
  wp (updateMinAndMaxKeysAfterRemoval P key) s (ends s (delete (decodeKey t key) m) (m_fileIds s) tt) (fun _ _ => False).
Proof.
  intros [Hs0 Hkeys] (J1 & J2 & J3 & J4 & _) Hs Hk Hkey Hids. destruct (keys_nonempty s0 m _ Hkeys Hk) as (lo & hi & Hb & E1 & E2 & E3 & E4).
  destruct (bounds_range s0 m lo hi Hs0 Hb) as (Hlo & Hhi & Hle & Hhlo & Hhhi). pose proof (bounds_elim s0 m lo hi Hs0 Hb) as Hall.
  pose proof (valid_range key Hkey) as Hkr. pose proof (valid_encode key Hkey) as Hke. set (k := decodeKey t key) in *.
  unfold updateMinAndMaxKeysAfterRemoval. do 2 (apply wp_bind, wp_gets). cbv zeta. destruct (removal_search key) as [-> ->].
  rewrite J1, J2, E1, E2, Hke, !compare_encoded by done.
  destruct (compare_sign k lo) as (_ & _ & ->), (compare_sign k hi) as (_ & _ & ->).
  destruct (Z.eqb_spec k lo) as [El|El], (Z.eqb_spec k hi) as [Eh|Eh]; cbn [andb].
  - apply wp_modify. split; [done|]. split; [|done]. split; [destruct Hs as [[? ? ? ?] ?]; split; [split; done|done]|]. left.
    split; [|done]. apply map_eq. intros j. rewrite lookup_empty. destruct (delete k m !! j) eqn:Hj; [|done].
    assert (Hd : has (delete k m) j) by (unfold has; rewrite Hj; eauto). apply has_delete in Hd as [Hne Hj']. specialize (Hall j Hj'). lia.
  - rewrite El in *. apply (remove_min s m _ lo hi); try done; try congruence; [|apply has_delete; auto].
    intros k' [Hn Hk']%has_delete. specialize (Hall k' Hk'). lia.
  - rewrite Eh in *. apply (remove_max s _ lo hi); try done; try congruence; [|apply has_delete; auto].
    intros k' [Hn Hk']%has_delete. specialize (Hall k' Hk'). lia.
  - apply wp_ret. split; [done|]. split; [|done]. split; [done|]. right. exists lo, hi. rewrite J1, J2, J3, J4. split; [|done].
    apply (bounds_intro s); [done|apply has_delete; auto|apply has_delete; auto|]. intros k' [_ Hk']%has_delete. auto.
Qed.

Lemma uli_erase_ok (s : state) m key : index_ok s m -> valid_key key -> fileOf (decodeKey t key) <= m_maxPossibleFileId P ->
  let k := decodeKey t key in
  wp (erase P key) s (ends s (delete k m) (m_fileIds s) (match m !! k with Some _ => 1 | None => 0 end)) (fails s m (delete k m)).
Proof.
  intros Hs Hkey Hid k. pose proof (valid_range key Hkey) as Hk. fold k in Hk. unfold erase. cbv zeta. fold k.
  apply (wp_lookup s m); [done|done|done|intros Hn; rewrite Hn, delete_id by done; by apply ends_frame; [|apply frame_refl|apply Hs]|].
  intros c p s' _ Hfr Hs' Hc Hcp Ho. apply wp_bind. apply (wp_read_state s' m _ c); try done; [apply Hs'|lia|].
  pose proof (state_absent s' m k c (proj1 Hs') (proj1 Hk) Hc) as Habs. unfold kValueStateFree.
  destruct (record_state P (data_of c) (k mod N) =? 0) eqn:Hfree; cbn [negb].
  - pose proof (proj1 Habs eq_refl) as Hn. apply wp_ret. rewrite Hn, delete_id by done. apply ends_frame; [done|done|apply Hs'].
  - destruct (m !! k) as [w|] eqn:Hm; [|discriminate (proj2 Habs eq_refl)]. pose proof (frame_same _ _ Hfr) as Hsame.
    destruct Hfr as (_ & Hroom & Hids & _). apply wp_bind, (wp_switch s' m k c p 0); try done; [apply Hs'|auto|..].
    + intros s2 Hs2 Hids2 Hkeys2. change (switched P m k (data_of c) 0) with (delete k m) in Hs2.
      apply wp_bind. eapply wp_mono; [apply (updateMinAndMax_ok s' s2 m key); try done|..].
      * unfold has. fold k. rewrite Hm. eauto.
      * rewrite Hids2. intros Hnil. apply (elem_of_nil (fileOf k)). rewrite <- Hnil. apply (c_ids s' (proj1 (proj1 Hs'))). eauto.
      * intros [] s3 (_ & Hok & Hi & Hr). apply wp_ret. split; [done|]. split; [done|]. split; [congruence|].
        intros Hn. apply Hr, Hkeys2. congruence.
      * intros e s3 [].
    + intros s2 Hr Hfs. split; [done|]. split; [congruence|done].
Qed.
End Map.
