(* ===== verification/LinearIndexSpec.v ===== *)
(** * What the linear index promises

    An abstract index: a finite map from numeric keys to values and the set of
    the files that were made.  The theorems say that sequences of operations on
    the index give the results of the abstract one, that an index which a failed
    write left on disk opens as the map before or after the operation, and what
    the searches for neighbouring keys return. *)

From stdpp Require Import base list gmap sorting.
Set Warnings "-clear-no-such-hyp,-notation-incompatible-prefix,-notation-for-abbreviation".
From Stdlib Require Import ZArith Lia.
From S2P Require Import Prelude StateM Bytes PlainBinary IndexKeys LruCache LinearIndex LinearIndexOps LinearIndexNav LinearIndexMap.

Local Open Scope Z_scope.

(** ** Operations and results *)

Inductive UliOp : Type :=
| UPreallocate (key : list Z)
| UInsert (key value : list Z)
| UErase (key : list Z)
| UUpdate (key value : list Z)
| UFind (key : list Z)
| UCount (key : list Z)
| UMinKey
| UMaxKey
| UFirstKey
| ULastKey.

Inductive UliResult : Type :=
| RBool (b : bool)
| RNumber (n : Z)
| RBytes (v : option (list Z)).

Definition op_key (op : UliOp) : option (list Z) :=
  match op with
  | UPreallocate key | UInsert key _ | UErase key | UUpdate key _ | UFind key | UCount key => Some key
  | _ => None
  end.

Section Spec.
Context {C : Type} `{FC : FileCache C} {FL : FileCacheLaws C} (P : uli_params) (Hp : params_ok P).
Notation state := (uli_state C).
Notation V := (m_valueSize P).
Notation N := (m_numberOfRecordsPerFile P).
Notation t := (m_traits P).
Notation fileOf := (getFileIdForKey P).
Notation max_key := (max_key P).
Notation map := (gmap Z (list Z)).

(** ** The index, operation by operation *)

Definition run_op (op : UliOp) : M (C := C) UliResult :=
  match op with
  | UPreallocate key => mbind (preallocate P key) (fun b => mret (RBool b))
  | UInsert key value => mbind (insert P key value) (fun b => mret (RBool b))
  | UErase key => mbind (erase P key) (fun n => mret (RNumber n))
  | UUpdate key value => mbind (update P key value) (fun n => mret (RNumber n))
  | UFind key => mbind (find P key 1) (fun v => mret (RBytes v))
  | UCount key => mbind (count P key) (fun n => mret (RNumber n))
  | UMinKey => mbind (getMinKey P) (fun k => mret (RBytes k))
  | UMaxKey => mbind (getMaxKey P) (fun k => mret (RBytes k))
  | UFirstKey => mbind (findFirstKey P) (fun k => mret (RBytes k))
  | ULastKey => mbind (findLastKey P) (fun k => mret (RBytes k))
  end.

(** The caller catches exceptions and goes on. *)
Fixpoint run_ops (ops : list UliOp) (s : state) : list (outcome UliError UliResult) * state :=
  match ops with
  | [] => ([], s)
  | op :: ops' => let '(r, s1) := run_op op s in let '(rs, s2) := run_ops ops' s1 in (r :: rs, s2)
  end.

(** ** The abstract index *)

Definition present (m : map) (k : Z) : bool := match m !! k with Some _ => true | None => false end.

(** Result, map and files after an operation on a key that has a file ID. *)
Definition spec_keyed (op : UliOp) (m : map) (ids : list Z) : UliResult * (map * list Z) :=
  match op with
  | UPreallocate key =>
      let id := fileOf (decodeKey t key) in (RBool (negb (existsb (Z.eqb id) ids)), (m, set_insert id ids))
  | UInsert key value =>
      let k := decodeKey t key in
      (RBool (negb (present m k)), (if present m k then m else <[k := value]> m, set_insert (fileOf k) ids))
  | UErase key => let k := decodeKey t key in (RNumber (if present m k then 1 else 0), (delete k m, ids))
  | UUpdate key value =>
      let k := decodeKey t key in
      (RNumber (if present m k then 1 else 0), (if present m k then <[k := value]> m else m, ids))
  | UFind key => (RBytes (m !! decodeKey t key), (m, ids))
  | UCount key => (RNumber (if present m (decodeKey t key) then 1 else 0), (m, ids))
  | UMinKey => (RBytes (encodeKey t <$> above m 0), (m, ids))
  | UMaxKey => (RBytes (encodeKey t <$> below m (max_key + 1)), (m, ids))
  | UFirstKey => (RBytes (encodeKey t <$> (if m_sortDescending P then below m (max_key + 1) else above m 0)), (m, ids))
  | ULastKey => (RBytes (encodeKey t <$> (if m_sortDescending P then above m 0 else below m (max_key + 1))), (m, ids))
  end.

(** The key has a file. *)
Definition in_files (op : UliOp) : bool :=
  match op_key op with Some key => fileOf (decodeKey t key) <=? m_maxPossibleFileId P | None => true end.

Definition spec_op (op : UliOp) (m : map) (ids : list Z) : outcome UliError UliResult * (map * list Z) :=
  if in_files op then let '(r, st) := spec_keyed op m ids in (Ok r, st) else (Throw OutOfRange, (m, ids)).

Fixpoint spec_ops (ops : list UliOp) (m : map) (ids : list Z) : list (outcome UliError UliResult) * (map * list Z) :=
  match ops with
  | [] => ([], (m, ids))
  | op :: ops' =>
      let '(r, (m1, ids1)) := spec_op op m ids in
      let '(rs, st) := spec_ops ops' m1 ids1 in (r :: rs, st)
  end.

(** Arguments that the callers give: keys and values of the size of the index. *)
Definition op_ok (op : UliOp) : Prop :=
  match op with
  | UInsert key value | UUpdate key value => valid_key P key /\ len value = V
  | UPreallocate key | UErase key | UFind key | UCount key => valid_key P key
  | _ => True
  end.

(** ** Least and greatest key *)

Lemma keys_above (s : state) m : index_ok P s m ->
  (compareKeys t (m_minKey s) (m_maxKey s) >? 0) = (match above m 0 with Some _ => false | None => true end) /\
  (forall k, above m 0 = Some k -> m_minKey s = encodeKey t k) /\
  (forall k, below m (max_key + 1) = Some k -> m_maxKey s = encodeKey t k) /\
  (above m 0 = None <-> below m (max_key + 1) = None).
Proof.
  intros [Hs [(-> & E1 & E2)|(lo & hi & Hb & E1 & E2 & E3 & E4)]].
  - destruct (possible_keys P Hp) as [H1 H2]. pose proof (max_key_small P Hp). rewrite E1, E2, H1, H2, compare_encoded by (done || lia).
    destruct (compare_sign max_key 0) as (_ & -> & _). rewrite (proj2 (Z.ltb_lt 0 max_key)) by lia. done.
  - destruct (bounds_range P Hp s m lo hi Hs Hb) as (Hlo & Hhi & Hle & _). destruct Hb as [Hlo1 Hhi1].
    rewrite <- (above_spec m 0 _ Hlo1), <- (below_spec m _ _ Hhi1), E1, E2, compare_encoded by done.
    destruct (compare_sign lo hi) as (_ & -> & _). rewrite (proj2 (Z.ltb_ge hi lo)) by lia. naive_solver.
Qed.

Lemma getMinKey_ok (s : state) m : index_ok P s m -> getMinKey P s = (Ok (encodeKey t <$> above m 0), s).
Proof.
  intros Hs. destruct (keys_above s m Hs) as (H1 & H2 & _). unfold getMinKey, gets. rewrite H1.
  destruct (above m 0) as [k|]; [|done]. by rewrite (H2 k).
Qed.

Lemma getMaxKey_ok (s : state) m : index_ok P s m -> getMaxKey P s = (Ok (encodeKey t <$> below m (max_key + 1)), s).
Proof.
  intros Hs. destruct (keys_above s m Hs) as (H1 & _ & H3 & H4). unfold getMaxKey, gets. rewrite H1.
  destruct (above m 0) as [k|], (below m (max_key + 1)) as [k'|]; [by rewrite (H3 k')| | |done].
  - discriminate (proj2 H4 eq_refl).
  - discriminate (proj1 H4 eq_refl).
Qed.

Lemma found_ends (s s' : state) m (S : option Z -> Prop) r k : index_ok P s m -> found P s m S r s' ->
  (forall o, S o -> o = k) -> ends P s m (m_fileIds s) (encodeKey t <$> k) r s'.
Proof. intros Hs (Hfr & Hs' & o & -> & Ho) Hk. rewrite (Hk o Ho). by apply ends_frame. Qed.

Lemma findEnds_ok (s : state) m : index_ok P s m ->
  wp (findLeadingKey P) s (ends P s m (m_fileIds s) (encodeKey t <$> above m 0)) (fails P s m m) /\
  wp (findTrailingKey P) s (ends P s m (m_fileIds s) (encodeKey t <$> below m (max_key + 1))) (fails P s m m).
Proof.
  intros Hs. split.
  - eapply wp_mono; [apply (findLeadingKey_ok P Hp s m), Hs| |done]. intros r s' Hf. apply (found_ends s s' m _ r _ Hs Hf). apply above_spec.
  - eapply wp_mono; [apply (findTrailingKey_ok P Hp s m (max_key + 1)); [lia|apply Hs]| |done].
    intros r s' Hf. apply (found_ends s s' m _ r _ Hs Hf). apply below_spec.
Qed.

(** ** Every operation follows the abstract one *)

Lemma wrap_ends {A} (c : M A) (f : A -> UliResult) (s : state) m m' ids a :
  wp c s (ends P s m' ids a) (fails P s m m') ->
  wp (mbind c (fun x => mret (f x))) s (ends P s m' ids (f a)) (fails P s m m').
Proof. intros H. apply wp_bind. eapply wp_mono; [exact H| |done]. intros r s' (-> & Hrest). by split. Qed.

(** A key beyond the files: nothing happens. *)
Lemma out_of_files (s : state) op : in_files op = false -> wp (run_op op) s (fun _ _ => False) (fun e s' => e = OutOfRange /\ s' = s).
Proof.
  unfold in_files. destruct op; cbn [op_key]; try done; intros H%Z.leb_gt; unfold run_op, preallocate, insert, erase, update, find, count; cbv zeta;
    do 2 apply wp_bind; by apply wp_findFile_range.
Qed.

Lemma op_step (s : state) m op : index_ok P s m -> clean_files P s -> op_ok op -> in_files op = true ->
  let '(r, (m', ids')) := spec_keyed op m (m_fileIds s) in
  wp (run_op op) s (ends P s m' ids' r) (fails P s m m').
Proof.
  intros Hs Hcl Hop Hin. unfold in_files in Hin. destruct op; cbn [op_key] in Hin; cbn [spec_keyed run_op op_ok] in *; try apply Z.leb_le in Hin; unfold present; cbv zeta.
  - apply (wrap_ends _ RBool). by apply preallocate_ok.
  - destruct Hop as [Hk Hv]. pose proof (insert_ok P Hp s m key value Hs Hcl Hk Hin Hv) as H. cbv zeta in H. apply (wrap_ends _ RBool) in H.
    by destruct (m !! decodeKey t key).
  - pose proof (uli_erase_ok P Hp s m key Hs Hop Hin) as H. cbv zeta in H. apply (wrap_ends _ RNumber) in H. by destruct (m !! decodeKey t key).
  - destruct Hop as [Hk Hv]. pose proof (update_ok P Hp s m key value Hs Hk Hin Hv) as H. cbv zeta in H. apply (wrap_ends _ RNumber) in H.
    by destruct (m !! decodeKey t key).
  - apply (wrap_ends _ RBytes). by apply find_ok.
  - pose proof (count_ok P Hp s m key Hs Hop Hin) as H. apply (wrap_ends _ RNumber) in H. by destruct (m !! decodeKey t key).
  - apply (wrap_ends _ RBytes). eapply wp_run; [by apply getMinKey_ok|]. by apply ends_frame; [|apply frame_refl|apply Hs].
  - apply (wrap_ends _ RBytes). eapply wp_run; [by apply getMaxKey_ok|]. by apply ends_frame; [|apply frame_refl|apply Hs].
  - apply (wrap_ends _ RBytes). destruct (findEnds_ok s m Hs). unfold findFirstKey. by destruct (m_sortDescending P).
  - apply (wrap_ends _ RBytes). destruct (findEnds_ok s m Hs). unfold findLastKey. by destruct (m_sortDescending P).
Qed.

(** When all writes succeed, an operation does what the abstract one does. *)
Lemma op_refines (s : state) m op : index_ok P s m -> room s = None -> op_ok op ->
  let '(r, (m', ids')) := spec_op op m (m_fileIds s) in
  exists s', run_op op s = (r, s') /\ index_ok P s' m' /\ room s' = None /\ m_fileIds s' = ids'.
Proof.
  intros Hs Hr Hop. unfold spec_op. destruct (in_files op) eqn:Hin.
  - pose proof (op_step s m op Hs (or_intror Hr) Hop Hin) as H. destruct (spec_keyed op m (m_fileIds s)) as [r [m' ids']]. unfold wp in H.
    destruct (run_op op s) as [[a|e|u] s']; [|by destruct H as (_ & ? & _)|done]. destruct H as (-> & ? & ? & ?). exists s'. auto.
  - pose proof (out_of_files s op Hin) as H. unfold wp in H. destruct (run_op op s) as [[a|e|u] s']; [done| |done]. destruct H as [-> ->]. exists s. auto.
Qed.

Lemma ops_refine ops : Forall op_ok ops -> forall (s : state) m, index_ok P s m -> room s = None ->
  let '(rs, (m', ids')) := spec_ops ops m (m_fileIds s) in
  exists s', run_ops ops s = (rs, s') /\ index_ok P s' m' /\ room s' = None /\ m_fileIds s' = ids'.
Proof.
  induction 1 as [|op ops Hop _ IH]; intros s m Hs Hr; cbn [spec_ops run_ops]; [eauto|].
  pose proof (op_refines s m op Hs Hr Hop) as H. destruct (spec_op op m (m_fileIds s)) as [r [m1 ids1]]. destruct H as (s1 & -> & Hs1 & Hr1 & <-).
  specialize (IH s1 m1 Hs1 Hr1). destruct (spec_ops ops m1 (m_fileIds s1)) as [rs [m2 ids2]]. destruct IH as (s2 & -> & ?). eauto.
Qed.

Lemma new_ok (c : C) r : cache_ok c -> (forall id p, ~ cached c id p) -> index_ok P (new_state P c r) ∅.
Proof.
  intros Hc Hn. split; [|by left]. split.
  - split; cbn; [constructor| |done|by intros id p ?%Hn]. intros id. rewrite lookup_empty. split; [by intros ?%elem_of_nil|by intros [? ?]].
  - split; cbn; intros *; unfold value_at; rewrite ?lookup_empty; done.
Qed.

(** ** Opening an index *)

Lemma scan_ids (l : list Z) : StronglySorted Z.lt (foldr set_insert [] l) /\ forall x, x ∈ foldr set_insert [] l <-> x ∈ l.
Proof.
  induction l as [|a l [IH1 IH2]]; cbn [foldr]; [split; [constructor|done]|].
  destruct (set_insert_spec a _ IH1) as [H1 H2]. split; [done|]. intros x. rewrite H2, IH2. set_solver.
Qed.

Lemma empty_map m : above m 0 = None -> (forall k, has m k -> 0 <= k) -> m = ∅.
Proof.
  intros Ha Hpos. apply map_eq. intros k. rewrite lookup_empty. destruct (m !! k) as [v|] eqn:Hk; [|done].
  assert (Hn : has m k) by (unfold has; rewrite Hk; eauto).
  unfold above in Ha. pose proof (list_min_spec (filter (fun k => 0 <= k) (map_keys m))) as Hl. rewrite Ha in Hl.
  assert (Hin : k ∈ filter (fun k => 0 <= k) (map_keys m)) by (apply list_elem_of_filter; split; [auto|by apply map_keys_spec]).
  rewrite Hl in Hin. set_solver.
Qed.

(** An index that represents a map is opened from its files with that map. *)
Lemma open_ok (c : C) fs r m : cache_ok c -> (forall id p, ~ cached c id p) -> files_ok P fs m ->
  exists s, open_index P c fs r = (Ok tt, s) /\ index_ok P s m /\ room s = r /\ files s = fs.
Proof.
  intros Hc Hn Hfs. unfold open_index. set (s00 := Build_uli_state _ _ _ _ _ _ _ _ _ _).
  assert (Hscan : scanFiles fs = Ok (foldr set_insert [] (map_to_list fs).*1)).
  { unfold scanFiles. cbv zeta. destruct (existsb _ _) eqn:Hex; [|done]. exfalso. apply existsb_exists in Hex as (id & Hin%list_elem_of_In & Hle%Z.leb_le).
    apply list_elem_of_fmap_1 in Hin as ([k v] & -> & Hin%elem_of_map_to_list). pose proof (f_id _ _ _ (fs_files _ _ _ Hfs _ _ Hin)). cbn in *. lia. }
  rewrite Hscan. set (s0 := set_fileIds s00 (foldr set_insert [] (map_to_list fs).*1)). unfold mbind at 1, mlift. unfold mbind at 1, modify at 1. fold s0.
  assert (Hs0 : store_ok P s0 m).
  { split; [|done]. destruct (scan_ids (map_to_list fs).*1) as [H1 H2]. split; cbn; [done| |done|by intros id p ?%Hn].
    intros id. rewrite H2. split.
    - intros ([k v] & -> & Hin)%list_elem_of_fmap_1. apply elem_of_map_to_list in Hin. eauto.
    - intros [v Hv]. apply (list_elem_of_fmap_2' fst _ (id, v)); [by apply elem_of_map_to_list|done]. }
  match goal with |- context [mbind ?c ?k s0] => assert (Hwp : wp (mbind c k) s0 (fun _ s => index_ok P s m /\ room s = r /\ files s = fs) (fun _ _ => False)) end.
  { apply wp_bind. eapply wp_mono; [by apply (findLeadingKey_ok P Hp s0 m)| |done].
    intros r1 s1 (Hfr1 & Hs1 & k1 & -> & Hk1). apply wp_bind.
    eapply wp_mono; [apply (findTrailingKey_ok P Hp s1 m (max_key + 1)); [lia|done]| |done].
    intros r2 s2 (Hfr2 & Hs2 & k2 & -> & Hk2). pose proof (frame_trans _ _ _ Hfr1 Hfr2) as (F1 & F2 & _). apply wp_modify.
    split; [|split; case_match; try case_match; done].
    assert (Hset : forall mn mx a b, store_ok P (set_keys s2 mn mx a b) m) by (intros; destruct Hs2 as [[? ? ? ?] ?]; split; [split; done|done]).
    pose proof (max_key_small P Hp). destruct (possible_keys P Hp) as [Hmx Hmn]. destruct k1 as [lo|], k2 as [hi|]; cbn [default from_option id fmap option_fmap option_map].
    - assert (Hb : bounds P m lo hi) by (by split). destruct (bounds_range P Hp s2 m lo hi Hs2 Hb) as (Hlo & Hhi & Hle & _).
      rewrite (compare_encoded P Hp), !(decode_encoded P Hp) by done.
      assert (compare_values lo hi <= 0) by (unfold compare_values; zcases; lia).
      rewrite (proj2 (Z.leb_le _ 0)) by done. rewrite Z.gtb_ltb, (proj2 (Z.ltb_ge hi lo)) by lia. split; [apply Hset|]. right. exists lo, hi. done.
    - destruct Hk1 as (Hl & _). specialize (Hk2 lo Hl). destruct (key_range P Hp s2 m lo Hs2 Hl). lia.
    - destruct Hk2 as (Hl & _). specialize (Hk1 hi Hl). destruct (key_range P Hp s2 m hi Hs2 Hl). lia.
    - rewrite Hmx, Hmn, (compare_encoded P Hp) by lia. assert (0 < compare_values max_key 0) by (unfold compare_values; zcases; lia). rewrite (proj2 (Z.leb_gt _ 0)) by done.
      split; [apply Hset|]. left. split; [|done]. apply empty_map; [symmetry; by apply above_spec|]. intros k Hk. by apply (key_range P Hp s2 m). }
  unfold wp in Hwp. match type of Hwp with match ?x with _ => _ end => destruct x as [[[]|e|u] s] end; [eauto|done|done].
Qed.
(** ** Theorems *)

(** The file IDs of an index are those of its files, in order. *)
Lemma sorted_ids (l1 l2 : list Z) : StronglySorted Z.lt l1 -> StronglySorted Z.lt l2 -> (forall x, x ∈ l1 <-> x ∈ l2) -> l1 = l2.
Proof.
  intros H1 H2 Hx.
  assert (Hnd : forall l, StronglySorted Z.lt l -> NoDup l).
  { induction 1 as [|a l _ IH Ha]; constructor; [|done]. rewrite Forall_forall in Ha. intros Hin%Ha. lia. }
  apply (StronglySorted_unique_strong Z.lt); [intros; lia|done|done|]. apply NoDup_Permutation; auto.
Qed.

Lemma ids_determined (s s' : state) : coherent s -> coherent s' -> files s = files s' -> m_fileIds s = m_fileIds s'.
Proof.
  intros H H' Hf. apply sorted_ids; [apply (c_sorted s H)|apply (c_sorted s' H')|].
  intros id. by rewrite (c_ids s H), (c_ids s' H'), Hf.
Qed.

Section Runs.
Context (c : C) (ops : list UliOp) (Hc : cache_ok c) (Hn : forall id p, ~ cached c id p) (Hops : Forall op_ok ops).

Notation rs := (fst (spec_ops ops ∅ [])).
Notation m := (fst (snd (spec_ops ops ∅ []))).
Notation ids := (snd (snd (spec_ops ops ∅ []))).
Notation s := (snd (run_ops ops (new_state P c None))).

Lemma run_reached : fst (run_ops ops (new_state P c None)) = rs /\ index_ok P s m /\ room s = None /\ m_fileIds s = ids.
Proof.
  pose proof (ops_refine ops Hops _ _ (new_ok c None Hc Hn) eq_refl) as H. cbn [new_state m_fileIds] in H.
  destruct (spec_ops ops ∅ []) as [rs [m ids]]. destruct H as (s' & -> & H). done.
Qed.

(** Results of operations in a state that represents a map. *)
Lemma results_ok (s1 : state) m1 ops2 : index_ok P s1 m1 -> room s1 = None -> Forall op_ok ops2 ->
  fst (run_ops ops2 s1) = fst (spec_ops ops2 m1 (m_fileIds s1)).
Proof.
  intros Hs1 Hr Hops2. pose proof (ops_refine ops2 Hops2 s1 m1 Hs1 Hr) as H.
  destruct (spec_ops ops2 m1 (m_fileIds s1)) as [rs2 [m2 ids2]]. by destruct H as (s2 & -> & _).
Qed.

(** Files that mean a map open as an index with that map. *)
Lemma reopen (c' : C) fs m1 : cache_ok c' -> (forall id p, ~ cached c' id p) -> files_ok P fs m1 ->
  exists s', open_index P c' fs None = (Ok tt, s') /\
    forall ops2, Forall op_ok ops2 -> fst (run_ops ops2 s') = fst (spec_ops ops2 m1 (m_fileIds s')).
Proof.
  intros Hc' Hn' Hfs. destruct (open_ok c' fs None m1 Hc' Hn' Hfs) as (s' & Hopen & Hs' & Hr & _). exists s'.
  split; [done|]. intros ops2 H2. by apply results_ok.
Qed.

(** C7: every sequence of operations on a new index gives the results of the
    same operations on a finite map with a set of file IDs: insertions of new and
    of existing keys, updates, removals, lookups, counts, preallocation, the least
    and greatest key and the first and last key in the sort order, with the
    out-of-range error for keys beyond the last possible file, whatever the cache
    of files evicts.  Keys fit the key type and values have the value size. *)
Theorem uli_refines : fst (run_ops ops (new_state P c None)) = rs.
Proof. apply run_reached. Qed.

(** C9: an index that is opened from the files that operations left goes on
    as if it had not been closed: later operations give the results they have on
    the map after the earlier ones. *)
Theorem uli_persistent (c' : C) (ops2 : list UliOp) : cache_ok c' -> (forall id p, ~ cached c' id p) -> Forall op_ok ops2 ->
  exists s', open_index P c' (files s) None = (Ok tt, s') /\ fst (run_ops ops2 s') = fst (spec_ops ops2 m ids).
Proof.
  intros Hc' Hn' Hops2. destruct run_reached as (_ & Hs & _ & <-).
  destruct (open_ok c' (files s) None m Hc' Hn' (proj2 (proj1 Hs))) as (s' & Hopen & Hs' & Hr & Hf). exists s'. split; [done|].
  rewrite (ids_determined s s') by (done || apply Hs || apply Hs'). by apply results_ok.
Qed.

(** C8: when the storage takes only some of the bytes that an operation writes,
    for any number of bytes, the files that are left open as an index that behaves
    as the map before the operation or as the map after it; and as the map after it
    when the operation returned normally.  This is for a data directory on a file
    system with O_TMPFILE (without it the temporary file that is left makes the
    index impossible to open, see [temporary_file_left]) and for files that are not
    encrypted, which take the bytes of a write in order and one by one. *)
Theorem uli_crash_safe (c' : C) (op : UliOp) (n : Z) : m_tmpFile P = true -> cache_ok c' -> (forall id p, ~ cached c' id p) -> op_ok op ->
  let '(r, s1) := run_op op (set_store s (files s) (Some n) (objects s)) in
  exists s' m', open_index P c' (files s1) None = (Ok tt, s') /\
    (m' = m \/ m' = fst (snd (spec_op op m ids))) /\
    (forall x, r = Ok x -> m' = fst (snd (spec_op op m ids)) /\ r = fst (spec_op op m ids)) /\
    forall ops2, Forall op_ok ops2 -> fst (run_ops ops2 s') = fst (spec_ops ops2 m' (m_fileIds s')).
Proof.
  intros Htmp Hc' Hn' Hop. destruct run_reached as (_ & Hs & _ & <-). set (s0 := set_store s (files s) (Some n) (objects s)).
  assert (Hs0 : index_ok P s0 m) by (destruct Hs as [[[? ? ? ?] ?] ?]; split; [split; [split; done|done]|done]).
  unfold spec_op. destruct (in_files op) eqn:Hin.
  - pose proof (op_step s0 m op Hs0 (or_introl Htmp) Hop Hin) as H. change (m_fileIds s0) with (m_fileIds s) in H.
    destruct (spec_keyed op m (m_fileIds s)) as [r0 [m1 ids1]]. unfold wp in H. cbn [fst snd].
    destruct (run_op op s0) as [[a|e|u] s1]; [| |done].
    + destruct H as (-> & Hs1 & _). destruct (reopen c' (files s1) m1) as (s' & ? & ?); [done|done|apply Hs1|]. exists s', m1. auto.
    + destruct H as (_ & _ & [Hf|Hf]); destruct (reopen c' _ _ Hc' Hn' Hf) as (s' & ? & ?); eexists s', _; (split; [done|]; split; [|split; [by intros ? [=]|done]]; auto).
  - pose proof (out_of_files s0 op Hin) as H. unfold wp in H. destruct (run_op op s0) as [[a|e|u] s1]; [done| |done]. destruct H as [-> ->].
    destruct (reopen c' (files s0) m) as (s' & ? & ?); [done|done|apply Hs0|]. exists s', m. split; [done|]. split; [auto|]. split; [by intros ? [=]|done].
Qed.

(** C31: in every state that operations reach, [findKeyBefore] returns the
    greatest smaller key, once there is a file, and [findKeyAfter] the least
    greater key, when the key is not the last record of its file or its file
    holds no key. *)
Theorem uli_navigation (key : list Z) : valid_key P key ->
  let k := decodeKey t key in
  let s := snd (run_ops ops (new_state P c None)) in
  let '(_, (m, ids)) := spec_ops ops ∅ [] in
  (ids <> [] -> fst (findKeyBefore P key s) = Ok (encodeKey t <$> below m k)) /\
  (k mod N <> N - 1 \/ (forall k', has m k' -> fileOf k' <> fileOf k) -> fst (findKeyAfter P key s) = Ok (encodeKey t <$> above m (k + 1))).
Proof.
  intros Hkey k s0. destruct run_reached as (_ & [Hs Hkeys] & _ & Hids). fold s0 in Hs, Hkeys, Hids. clearbody s0.
  destruct (spec_ops ops ∅ []) as [rs0 [m0 ids0]]. cbn [fst snd] in *. subst ids0. pose proof (encodeKey_ok t (size_ok P Hp)) as Hok. destruct (possible_keys P Hp) as [Hmx Hmn].
  assert (Hks : key_ok t (m_minKey s0) /\ key_ok t (m_maxKey s0)).
  { destruct Hkeys as [(_ & -> & ->)|(lo & hi & _ & -> & -> & _)]; rewrite ?Hmx, ?Hmn; split; apply Hok. }
  assert (Hrun : forall (c : M (option (list Z))) S o, wp c s0 (found P s0 m0 S) (fun _ _ => False) -> (forall x, S x -> x = o) -> fst (c s0) = Ok (encodeKey t <$> o)).
  { intros c0 S o Hwp Ho. unfold wp in Hwp. destruct (c0 s0) as [[a|e|u] s']; [|done|done]. destruct Hwp as (_ & _ & x & -> & Hx). by rewrite (Ho x). }
  pose proof (decode_encoded P Hp) as Hde. split.
  - intros Hne. eapply Hrun; [apply (findKeyBefore_ok P Hp s0 m0 key); [done|apply Hkey|apply Hks|apply Hkey|done|]|intros x; apply below_spec].
    intros Heq. destruct Hkeys as [(-> & _)|(lo & hi & Hb & E1 & _)]; [intros k' [? Hk']; by rewrite lookup_empty in Hk'|].
    destruct (bounds_range P Hp s0 m0 lo hi Hs Hb) as (Hlo & _). rewrite Heq, E1, Hde by done. intros k' Hk'. by apply (bounds_elim P Hp s0 m0 lo hi Hs Hb).
  - intros Hedge. eapply Hrun; [apply (findKeyAfter_ok P Hp s0 m0 key); [done|apply Hkey|apply Hks|apply Hkey| |done]|intros x; apply above_spec].
    intros Heq. destruct Hkeys as [(-> & _)|(lo & hi & Hb & _ & E1 & _)]; [intros k' [? Hk']; by rewrite lookup_empty in Hk'|].
    destruct (bounds_range P Hp s0 m0 lo hi Hs Hb) as (_ & Hhi & _). rewrite Heq, E1, Hde by done. intros k' Hk'. pose proof (bounds_elim P Hp s0 m0 lo hi Hs Hb k' Hk'). lia.
Qed.
End Runs.
End Spec.

(** ** A concrete index

    The kind of index that tables have on their row numbers: 64-bit unsigned
    keys and 12-byte values, in files of the least size, 163 records each. *)

Definition trid_params : uli_params := {|
  m_traits := UInt64IndexKeyTraits; m_valueSize := 12; m_dataFileSize := kMinDataFileSize; m_sortDescending := false;
  m_minPossibleKey := IndexKeys.getMinKey UInt64IndexKeyTraits (repeat 0 8);
  m_maxPossibleKey := IndexKeys.getMaxKey UInt64IndexKeyTraits (repeat 0 8);
  m_indexHeader := {| m_version := kCurrentVersion; m_indexType := 1; m_databaseUuid := repeat 7 16; m_tableId := 5; m_indexId := 9 |};
  m_tmpFile := true |}.

Definition trid_key (k : Z) : list Z := encodeKey UInt64IndexKeyTraits k.
Definition trid_new : uli_state (lru_cache (K := Z) (T := nat)) := new_state trid_params new_file_cache None.

Lemma trid_params_ok : params_ok trid_params.
Proof.
  split.
  - apply UInt64_laws. unfold byte_ok. lia.
  - cbn. lia.
  - vm_compute. split; discriminate.
  - reflexivity.
  - cbn. split; [done|]. split; [unfold u_ok; lia|]. split; [done|]. split; unfold u_ok; lia.
Qed.

Lemma trid_cache_ok : cache_ok new_file_cache /\ forall id p, ~ cached new_file_cache id p.
Proof.
  split; [|by intros id p [=]]. split; [|cbn; unfold kFileCacheCapacity; lia]. split; cbn; [constructor|constructor|by intros ? ? ?%elem_of_nil|].
  intros n k. split; [by intros ?%elem_of_nil|]. intros [v Hv]. by rewrite lookup_empty in Hv.
Qed.

Lemma trid_key_ok k : 0 <= k < 2 ^ 56 -> valid_key trid_params (trid_key k).
Proof.
  intros Hk. split; [apply encodeKey_ok; cbn; tauto|]. unfold trid_key. change (m_traits trid_params) with UInt64IndexKeyTraits.
  rewrite decode_encode; [|cbn; tauto|unfold key_space; cbn; lia]. change (LinearIndexOps.max_key trid_params) with (2 ^ 56 - 1). lia.
Qed.

(** Inserting, replacing and removing rows of two files. *)
Definition trid_ops : list UliOp :=
  [UInsert (trid_key 5) (repeat 1 12); UInsert (trid_key 300) (repeat 2 12); UInsert (trid_key 5) (repeat 3 12); UCount (trid_key 300);
   UUpdate (trid_key 5) (repeat 4 12); UFind (trid_key 5); UPreallocate (trid_key 163); UMinKey; UErase (trid_key 5); UFirstKey; UMaxKey].

Lemma trid_ops_ok : Forall (op_ok trid_params) trid_ops.
Proof. repeat (constructor; [cbn; repeat split; try (apply trid_key_ok; lia); try reflexivity|]). constructor. Qed.

Lemma uli_refines_witness :
  fst (run_ops trid_params trid_ops trid_new) =
  [Ok (RBool true); Ok (RBool true); Ok (RBool false); Ok (RNumber 1); Ok (RNumber 1); Ok (RBytes (Some (repeat 4 12)));
   Ok (RBool false); Ok (RBytes (Some (trid_key 5))); Ok (RNumber 1); Ok (RBytes (Some (trid_key 300))); Ok (RBytes (Some (trid_key 300)))].
Proof.
  etransitivity; [apply (uli_refines trid_params trid_params_ok); [apply trid_cache_ok|apply trid_cache_ok|apply trid_ops_ok]|]. vm_compute. reflexivity.
Defined.

Lemma uli_persistent_witness : exists s',
  open_index trid_params new_file_cache (files (snd (run_ops trid_params trid_ops trid_new))) None = (Ok tt, s') /\
  fst (run_ops trid_params [UFind (trid_key 300); UFind (trid_key 5); UMinKey] s') =
  [Ok (RBytes (Some (repeat 2 12))); Ok (RBytes None); Ok (RBytes (Some (trid_key 300)))].
Proof.
  destruct (uli_persistent trid_params trid_params_ok new_file_cache trid_ops) with (c' := new_file_cache)
    (ops2 := [UFind (trid_key 300); UFind (trid_key 5); UMinKey]) as (s' & H1 & H2); try apply trid_cache_ok; [apply trid_ops_ok| |].
  - repeat (constructor; [cbn; done || (apply trid_key_ok; lia)|]). constructor.
  - exists s'. split; [exact H1|]. etransitivity; [exact H2|]. vm_compute. reflexivity.
Defined.

(** The write of the new value of row 300 fails after one of its bytes. *)
Lemma uli_crash_safe_witness :
  let s := snd (run_ops trid_params trid_ops trid_new) in
  let '(r, s1) := run_op trid_params (UUpdate (trid_key 300) (repeat 9 12)) (set_store s (files s) (Some 1) (objects s)) in
  r = Throw CannotWriteIndexFile /\
  exists s' m', open_index trid_params new_file_cache (files s1) None = (Ok tt, s') /\
    (m' = {[300 := repeat 2 12]} \/ m' = {[300 := repeat 9 12]}) /\
    forall ops2, Forall (op_ok trid_params) ops2 -> fst (run_ops trid_params ops2 s') = fst (spec_ops trid_params ops2 m' (m_fileIds s')).
Proof.
  pose proof (uli_crash_safe trid_params trid_params_ok new_file_cache trid_ops (proj1 trid_cache_ok) (proj2 trid_cache_ok) trid_ops_ok
    new_file_cache (UUpdate (trid_key 300) (repeat 9 12)) 1 eq_refl (proj1 trid_cache_ok) (proj2 trid_cache_ok)) as H.
  specialize (H (conj (trid_key_ok 300 ltac:(lia)) eq_refl)). fold trid_new in H. cbv zeta.
  match type of H with let '(r, s1) := ?x in _ => assert (Hr : fst x = Throw CannotWriteIndexFile) by (vm_compute; reflexivity); destruct x as [r s1] end.
  split; [exact Hr|]. destruct H as (s' & m' & H1 & H2 & _ & H4). exists s', m'. split; [exact H1|]. split; [|exact H4].
  replace (fst (snd (spec_ops trid_params trid_ops ∅ []))) with ({[300 := repeat 2 12]} : gmap Z (list Z)) in H2 by (vm_compute; reflexivity). exact H2.
Defined.

Lemma uli_navigation_witness :
  let s := snd (run_ops trid_params trid_ops trid_new) in
  fst (findKeyBefore trid_params (trid_key 400) s) = Ok (Some (trid_key 300)) /\
  fst (findKeyAfter trid_params (trid_key 7) s) = Ok (Some (trid_key 300)).
Proof.
  pose proof (uli_navigation trid_params trid_params_ok new_file_cache trid_ops (proj1 trid_cache_ok) (proj2 trid_cache_ok) trid_ops_ok
    (trid_key 400) (trid_key_ok 400 ltac:(lia))) as H1.
  pose proof (uli_navigation trid_params trid_params_ok new_file_cache trid_ops (proj1 trid_cache_ok) (proj2 trid_cache_ok) trid_ops_ok
    (trid_key 7) (trid_key_ok 7 ltac:(lia))) as H2.
  revert H1 H2. cbv zeta.
  replace (spec_ops trid_params trid_ops ∅ []) with (fst (spec_ops trid_params trid_ops ∅ []), ({[300 := repeat 2 12]} : gmap Z (list Z), [1; 2])) by (vm_compute; reflexivity).
  intros [H1 _] [_ H2]. fold trid_new in *.
  split; [etransitivity; [apply H1; discriminate|]|etransitivity; [apply H2; left; vm_compute; discriminate|]]; vm_compute; reflexivity.
Defined.

(** The same index on a file system without O_TMPFILE: when the storage is full
    while a file is made, the temporary file stays, and the index cannot be
    opened. *)
Definition trid_named : uli_params := {|
  m_traits := UInt64IndexKeyTraits; m_valueSize := 12; m_dataFileSize := kMinDataFileSize; m_sortDescending := false;
  m_minPossibleKey := m_minPossibleKey trid_params; m_maxPossibleKey := m_maxPossibleKey trid_params; m_indexHeader := m_indexHeader trid_params;
  m_tmpFile := false |}.

Example temporary_file_left :
  let '(r, s1) := run_op trid_named (UInsert (trid_key 5) (repeat 1 12)) (new_state trid_named new_file_cache (Some 1000)) in
  r = Throw CannotWriteIndexFile /\ fst (open_index trid_named new_file_cache (files s1) None) = Throw UliInvalidIndexFileName.
Proof. vm_compute. split; reflexivity. Qed.
