(* ===== verification/BlockRegistry.v ===== *)
(** * The block registry of a column

    Models [BlockRegistry]: two files, one with a record per block (state,
    previous block, first and last entry of its list of next blocks) and one with
    the entries of those lists.  [room] bounds the bytes that can still be
    written, so that [pwriteExact] can stop after a prefix. *)

From stdpp Require Import base list gmap.
Set Warnings "-clear-no-such-hyp,-notation-incompatible-prefix,-notation-for-abbreviation".
From Stdlib Require Import ZArith Lia.
From S2P Require Import Prelude StateM Bytes PlainBinary ColumnRecords.

Local Open Scope Z_scope.

Inductive RegistryError : Type :=
| CannotReadBlockListDataFile
| CannotReadNextBlockListDataFile
| CannotWriteBlockListDataFile
| CannotWriteNextBlockListDataFile
| ColumnDataBlockDoesNotExist (blockId : Z)
| InvalidBlockListDataFileSize
| InvalidNextBlockListDataFileSize.

(** ** Records *)

Inductive ColumnDataBlockState : Type := kNotPresent | kCreating | kClosing | kClosed | kCurrent | kAvailable.

Definition state_code (s : ColumnDataBlockState) : Z :=
  match s with kNotPresent => 0 | kCreating => 1 | kClosing => 2 | kClosed => 3 | kCurrent => 4 | kAvailable => 5 end.

(** [m_blockId] is not stored.  The state is read without a check. *)
Record BlockListRecord : Type := {
  m_blockState : Z;
  bl_prevBlockId : Z;
  m_firstNextBlockListFileOffset : Z;
  m_lastNextBlockListFileOffset : Z
}.

Definition kBlockListRecordSize : Z := 25.
Definition kBlockStateOffset : Z := 0.
Definition kPrevBlockIdOffset : Z := 1.

Definition block_record_serialize (r : BlockListRecord) : list Z :=
  [uw 8 (m_blockState r)] ++ pbeEncodeUInt64 (bl_prevBlockId r) ++
  pbeEncodeUInt64 (m_firstNextBlockListFileOffset r) ++ pbeEncodeUInt64 (m_lastNextBlockListFileOffset r).

Definition block_record_deserialize {E} (buffer : list Z) : outcome E BlockListRecord :=
  s <- rd buffer 0 ;;
  p <- pbeDecodeUInt64 (drop 1 buffer) ;;
  f <- pbeDecodeUInt64 (drop 9 buffer) ;;
  l <- pbeDecodeUInt64 (drop 17 buffer) ;;
  Ok {| m_blockState := s; bl_prevBlockId := p; m_firstNextBlockListFileOffset := f; m_lastNextBlockListFileOffset := l |}.

Record NextBlockListRecord : Type := { nb_blockId : Z; m_nextBlockListFileOffset : Z }.

Definition kNextBlockListRecordSize : Z := 16.
Definition kNextOffsetFieldOffset : Z := 8.

Definition next_record_serialize (r : NextBlockListRecord) : list Z :=
  pbeEncodeUInt64 (nb_blockId r) ++ pbeEncodeUInt64 (m_nextBlockListFileOffset r).

Definition next_record_deserialize {E} (buffer : list Z) : outcome E NextBlockListRecord :=
  b <- pbeDecodeUInt64 buffer ;;
  o <- pbeDecodeUInt64 (drop 8 buffer) ;;
  Ok {| nb_blockId := b; m_nextBlockListFileOffset := o |}.

(** ** State *)

Record registry : Type := {
  m_blockListFile : list Z;
  m_nextBlockListFile : list Z;
  reg_room : option Z;
  m_nextBlockListFileSize : Z;
  m_lastBlockId : Z
}.

Definition RM (A : Type) : Type := SM registry RegistryError A.

Definition set_blist (f : list Z) (r : option Z) (s : registry) : registry :=
  {| m_blockListFile := f; m_nextBlockListFile := m_nextBlockListFile s; reg_room := r;
     m_nextBlockListFileSize := m_nextBlockListFileSize s; m_lastBlockId := m_lastBlockId s |}.
Definition set_nblist (f : list Z) (r : option Z) (s : registry) : registry :=
  {| m_blockListFile := m_blockListFile s; m_nextBlockListFile := f; reg_room := r;
     m_nextBlockListFileSize := m_nextBlockListFileSize s; m_lastBlockId := m_lastBlockId s |}.
Definition set_next_size (n : Z) (s : registry) : registry :=
  {| m_blockListFile := m_blockListFile s; m_nextBlockListFile := m_nextBlockListFile s; reg_room := reg_room s;
     m_nextBlockListFileSize := n; m_lastBlockId := m_lastBlockId s |}.
Definition set_last (n : Z) (s : registry) : registry :=
  {| m_blockListFile := m_blockListFile s; m_nextBlockListFile := m_nextBlockListFile s; reg_room := reg_room s;
     m_nextBlockListFileSize := m_nextBlockListFileSize s; m_lastBlockId := n |}.

(** ** Files *)

Definition write_blist (offset : Z) (b : list Z) : RM Z := fun s =>
  let n := writable (reg_room s) (len b) in
  (Ok n, set_blist (pwrite (m_blockListFile s) offset (take (Z.to_nat n) b)) (consume (reg_room s) n) s).
Definition write_nblist (offset : Z) (b : list Z) : RM Z := fun s =>
  let n := writable (reg_room s) (len b) in
  (Ok n, set_nblist (pwrite (m_nextBlockListFile s) offset (take (Z.to_nat n) b)) (consume (reg_room s) n) s).

(** ** Operations *)

Definition computeBlockRecordOffset (blockId : Z) : Z := uw 64 (blockId * kBlockListRecordSize).

Definition checkBlockRecordPresent (blockId : Z) : RM Z :=
  last <-- gets m_lastBlockId ;;
  if blockId >? last then mthrow (ColumnDataBlockDoesNotExist blockId) else
  let blockRecordOffset := computeBlockRecordOffset blockId in
  file <-- gets m_blockListFile ;;
  match pread file (blockRecordOffset + kBlockStateOffset) 1 with
  | None => mthrow CannotReadBlockListDataFile
  | Some buffer =>
      b <-- mlift (rd buffer 0) ;;
      if b =? 0 then mthrow (ColumnDataBlockDoesNotExist blockId) else mret blockRecordOffset
  end.

Definition loadRecord (blockId : Z) : RM BlockListRecord :=
  blockRecordOffset <-- checkBlockRecordPresent blockId ;;
  file <-- gets m_blockListFile ;;
  match pread file blockRecordOffset kBlockListRecordSize with
  | None => mthrow CannotReadBlockListDataFile
  | Some buffer => mlift (block_record_deserialize buffer)
  end.

Definition findPrevBlockId (blockId : Z) : RM Z :=
  blockRecordOffset <-- checkBlockRecordPresent blockId ;;
  file <-- gets m_blockListFile ;;
  match pread file (blockRecordOffset + kPrevBlockIdOffset) 8 with
  | None => mthrow CannotReadBlockListDataFile
  | Some buffer => mlift (pbeDecodeUInt64 buffer)
  end.

(** The loop follows the offsets until one is 0.  More steps than there are
    entries mean that the list is cyclic and the loop does not end. *)
Fixpoint next_ids (fuel : nat) (offset : Z) : RM (list Z) :=
  if offset =? 0 then mret [] else
  match fuel with
  | O => mlift (Undef NoProgress)
  | S n =>
      file <-- gets m_nextBlockListFile ;;
      match pread file offset kNextBlockListRecordSize with
      | None => mthrow CannotReadNextBlockListDataFile
      | Some buffer =>
          r <-- mlift (next_record_deserialize buffer) ;;
          l <-- next_ids n (m_nextBlockListFileOffset r) ;;
          mret (nb_blockId r :: l)
      end
  end.

Definition findNextBlockIds (blockId : Z) : RM (list Z) :=
  blockRecord <-- loadRecord blockId ;;
  file <-- gets m_nextBlockListFile ;;
  next_ids (length file) (m_firstNextBlockListFileOffset blockRecord).

Definition recordBlock (blockId parentBlockId : Z) (state : ColumnDataBlockState) : RM unit :=
  let blockRecordOffset := uw 64 (blockId * kBlockListRecordSize) in
  let buffer := block_record_serialize {| m_blockState := state_code state; bl_prevBlockId := parentBlockId;
                  m_firstNextBlockListFileOffset := 0; m_lastNextBlockListFileOffset := 0 |} in
  n <-- write_blist blockRecordOffset buffer ;;
  if negb (n =? kBlockListRecordSize) then mthrow CannotWriteBlockListDataFile else
  modify (fun s => if blockId >? m_lastBlockId s then set_last blockId s else s).

Definition updateBlockState (blockId : Z) (state : ColumnDataBlockState) : RM unit :=
  blockRecordOffset <-- checkBlockRecordPresent blockId ;;
  n <-- write_blist (blockRecordOffset + kBlockStateOffset) [uw 8 (state_code state)] ;;
  if negb (n =? 1) then mthrow CannotWriteBlockListDataFile else mret tt.

(** The bytes of the offset field of an entry. *)
Definition offset_field (r : NextBlockListRecord) : list Z := drop 8 (next_record_serialize r).

(** The destructor of [LastRecordUpdate] when it was not committed. *)
Definition restore_last (offset : Z) (blockId : Z) : RM unit :=
  write_nblist (offset + kNextOffsetFieldOffset) (offset_field {| nb_blockId := blockId; m_nextBlockListFileOffset := 0 |}) ;;'
  mret tt.

(** The part after the last entry of the list was linked, with the rollback that
    undoes the link. *)
Definition store_record (blockId : Z) (blockRecord : BlockListRecord) (rollback : RM unit) : RM unit :=
  n <-- write_blist (computeBlockRecordOffset blockId) (block_record_serialize blockRecord) ;;
  if negb (n =? kBlockListRecordSize) then rollback ;;' mthrow CannotWriteBlockListDataFile else
  modify (fun s => set_next_size (m_nextBlockListFileSize s + kNextBlockListRecordSize) s).

Definition addNextBlock (blockId nextBlockId : Z) : RM unit :=
  blockRecord <-- loadRecord blockId ;;
  newRecordLocation <-- gets m_nextBlockListFileSize ;;
  n <-- write_nblist newRecordLocation (next_record_serialize {| nb_blockId := nextBlockId; m_nextBlockListFileOffset := 0 |}) ;;
  if negb (n =? kNextBlockListRecordSize) then mthrow CannotWriteNextBlockListDataFile else
  let last := m_lastNextBlockListFileOffset blockRecord in
  if last =? 0 then
    store_record blockId {| m_blockState := m_blockState blockRecord; bl_prevBlockId := bl_prevBlockId blockRecord;
      m_firstNextBlockListFileOffset := newRecordLocation; m_lastNextBlockListFileOffset := newRecordLocation |} (mret tt)
  else
    file <-- gets m_nextBlockListFile ;;
    match pread file last kNextBlockListRecordSize with
    | None => mthrow CannotReadNextBlockListDataFile
    | Some buffer =>
        lastRecord <-- mlift (next_record_deserialize buffer) ;;
        n <-- write_nblist (last + kNextOffsetFieldOffset)
                (offset_field {| nb_blockId := nb_blockId lastRecord; m_nextBlockListFileOffset := newRecordLocation |}) ;;
        if negb (n =? 8) then mthrow CannotWriteNextBlockListDataFile else
        store_record blockId {| m_blockState := m_blockState blockRecord; bl_prevBlockId := bl_prevBlockId blockRecord;
          m_firstNextBlockListFileOffset := m_firstNextBlockListFileOffset blockRecord;
          m_lastNextBlockListFileOffset := newRecordLocation |} (restore_last last (nb_blockId lastRecord))
    end.

(** [addNextBlock] is called with the block and its parent, in this order. *)
Definition recordBlockAndNextBlock (blockId parentBlockId : Z) (state : ColumnDataBlockState) : RM unit :=
  recordBlock blockId parentBlockId state ;;'
  if negb (parentBlockId =? 0) then addNextBlock blockId parentBlockId else mret tt.

Definition new_registry (room : option Z) : registry :=
  {| m_blockListFile := []; m_nextBlockListFile := []; reg_room := room; m_nextBlockListFileSize := 0; m_lastBlockId := 0 |}.

Definition openDataFiles (blist nblist : list Z) (room : option Z) : outcome RegistryError registry :=
  if negb (len blist mod kBlockListRecordSize =? 0) then Throw InvalidBlockListDataFileSize else
  if negb (len nblist mod kNextBlockListRecordSize =? 0) then Throw InvalidNextBlockListDataFileSize else
  let lastBlockId := len blist / kBlockListRecordSize in
  Ok {| m_blockListFile := blist; m_nextBlockListFile := nblist; reg_room := room; m_nextBlockListFileSize := len nblist;
        m_lastBlockId := if lastBlockId >? 0 then lastBlockId - 1 else lastBlockId |}.
