(* ===== verification/BlockRegistrySpec.v ===== *)
(** * What the block registry keeps

    The files of [BlockRegistry] as arrays of records, and the lists of next
    blocks as chains in the second file.  The theorem compares sequences of
    operations with a finite map from blocks to their state, previous block and
    next blocks. *)

From stdpp Require Import base list gmap.
Set Warnings "-clear-no-such-hyp,-notation-incompatible-prefix,-notation-for-abbreviation".
From Stdlib Require Import ZArith Lia.
From S2P Require Import Prelude StateM Bytes PlainBinary ColumnRecords BlockRegistry.

Local Open Scope Z_scope.

(** ** Records *)

Definition block_record_ok (r : BlockListRecord) : Prop :=
  u_ok 8 (m_blockState r) /\ u_ok 64 (bl_prevBlockId r) /\
  u_ok 64 (m_firstNextBlockListFileOffset r) /\ u_ok 64 (m_lastNextBlockListFileOffset r).
Definition next_record_ok (r : NextBlockListRecord) : Prop := u_ok 64 (nb_blockId r) /\ u_ok 64 (m_nextBlockListFileOffset r).

Lemma block_record_len r : len (block_record_serialize r) = 25.
Proof. unfold block_record_serialize, pbeEncodeUInt64. rewrite !len_app, !len_le_store. done. Qed.

Lemma next_record_len r : len (next_record_serialize r) = 16.
Proof. unfold next_record_serialize, pbeEncodeUInt64. rewrite !len_app, !len_le_store. done. Qed.

Lemma block_record_roundtrip {E} r : block_record_ok r -> block_record_deserialize (E := E) (block_record_serialize r) = Ok r.
Proof.
  intros (H1 & H2 & H3 & H4). unfold block_record_deserialize, block_record_serialize, pbeEncodeUInt64. rewrite uw_small by done.
  cbn [app]. rewrite rd_cons_0. cbn [bind].
  change (drop 1 (m_blockState r :: ?l)) with l. change (drop 9 (m_blockState r :: ?l)) with (drop 8 l). change (drop 17 (m_blockState r :: ?l)) with (drop 16 l).
  rewrite decode_u64 by done. cbn [bind]. skip_fields. rewrite decode_u64 by done. cbn [bind]. skip_fields.
  rewrite <- (app_nil_r (le_store 8 (m_lastNextBlockListFileOffset r))), decode_u64 by done. by destruct r.
Qed.

Lemma next_record_roundtrip {E} r : next_record_ok r -> next_record_deserialize (E := E) (next_record_serialize r) = Ok r.
Proof.
  intros (H1 & H2). unfold next_record_deserialize, next_record_serialize, pbeEncodeUInt64. rewrite decode_u64 by done. cbn [bind]. skip_fields.
  rewrite <- (app_nil_r (le_store 8 (m_nextBlockListFileOffset r))), decode_u64 by done. by destruct r.
Qed.

(** The state byte and the offset field inside a record. *)
Lemma state_byte r : block_record_ok r -> sub (block_record_serialize r) 0 1 = [m_blockState r].
Proof. intros (H & _). unfold block_record_serialize. rewrite uw_small by done. done. Qed.

Lemma prev_bytes r : sub (block_record_serialize r) 1 8 = pbeEncodeUInt64 (bl_prevBlockId r).
Proof. unfold block_record_serialize, sub. cbn [app Z.to_nat]. done. Qed.

Definition with_state (st : Z) (r : BlockListRecord) : BlockListRecord :=
  {| m_blockState := st; bl_prevBlockId := bl_prevBlockId r;
     m_firstNextBlockListFileOffset := m_firstNextBlockListFileOffset r; m_lastNextBlockListFileOffset := m_lastNextBlockListFileOffset r |}.

Lemma write_state_byte r st : block_record_serialize (with_state st r) = overwrite (block_record_serialize r) 0 [uw 8 st].
Proof. done. Qed.

Lemma offset_field_eq r : offset_field r = pbeEncodeUInt64 (m_nextBlockListFileOffset r).
Proof. done. Qed.

Lemma write_offset_field r off : next_record_serialize {| nb_blockId := nb_blockId r; m_nextBlockListFileOffset := off |} =
  overwrite (next_record_serialize r) 8 (offset_field {| nb_blockId := nb_blockId r; m_nextBlockListFileOffset := off |}).
Proof. rewrite offset_field_eq. cbn [m_nextBlockListFileOffset]. done. Qed.

Definition zero_record : BlockListRecord :=
  {| m_blockState := 0; bl_prevBlockId := 0; m_firstNextBlockListFileOffset := 0; m_lastNextBlockListFileOffset := 0 |}.

(** ** Files as arrays *)

Notation barray := (array block_record_serialize).
Notation narray := (array next_record_serialize).

Record rep (s : registry) (bs : list BlockListRecord) (ns : list NextBlockListRecord) : Prop := {
  r_blist : m_blockListFile s = barray bs;
  r_nblist : m_nextBlockListFile s = narray ns;
  r_size : m_nextBlockListFileSize s = 16 * len ns;
  r_last : (bs = [] /\ m_lastBlockId s = 0) \/ len bs = m_lastBlockId s + 1;
  r_room : reg_room s = None;
  r_bs : Forall block_record_ok bs;
  r_ns : Forall next_record_ok ns
}.

Lemma barray_len bs : len (barray bs) = 25 * len bs.
Proof. apply array_len, block_record_len. Qed.
Lemma narray_len ns : len (narray ns) = 16 * len ns.
Proof. apply array_len, next_record_len. Qed.

Lemma lookup_len {A} (l : list A) i a : l !! Z.to_nat i = Some a -> 0 <= i -> 0 <= i < len l.
Proof. intros H Hi. apply lookup_lt_Some in H. unfold len. lia. Qed.

(** The record of a block that is present. *)
Definition present (bs : list BlockListRecord) (id : Z) (r : BlockListRecord) : Prop :=
  1 <= id /\ bs !! Z.to_nat id = Some r /\ m_blockState r <> 0.
Definition absent (bs : list BlockListRecord) (id : Z) : Prop := 1 <= id /\ forall r, bs !! Z.to_nat id = Some r -> m_blockState r = 0.

Definition small (n : Z) : Prop := n < 2 ^ 57.

Lemma offset_small id : 0 <= id -> small id -> computeBlockRecordOffset id = 25 * id.
Proof. intros H1 H2. unfold computeBlockRecordOffset, kBlockListRecordSize, small in *. rewrite uw_small; [lia|]. unfold u_ok. lia. Qed.

Lemma pread_record s bs ns id r o n : rep s bs ns -> 0 <= id -> bs !! Z.to_nat id = Some r -> 0 <= o -> 0 <= n -> o + n <= 25 ->
  pread (m_blockListFile s) (25 * id + o) n = Some (sub (block_record_serialize r) o n).
Proof.
  intros Hs Hid Hr Ho Hn Hk. pose proof (lookup_len _ _ _ Hr Hid). unfold pread. rewrite (r_blist _ _ _ Hs), barray_len.
  rewrite (proj2 (Z.leb_le 0 _)), (proj2 (Z.leb_le _ _)) by lia. cbn. f_equal. by apply (array_sub block_record_serialize 25 block_record_len).
Qed.

Lemma check_ok s bs ns id r : rep s bs ns -> present bs id r -> small id -> checkBlockRecordPresent id s = (Ok (25 * id), s).
Proof.
  intros Hs (Hid & Hr & Hst) Hsm. pose proof (lookup_len _ _ _ Hr ltac:(lia)) as Hl. unfold checkBlockRecordPresent, mbind, gets.
  assert (Hlast : id <= m_lastBlockId s) by (destruct (r_last _ _ _ Hs) as [[-> _]|?]; [done|lia]).
  rewrite Z.gtb_ltb, (proj2 (Z.ltb_ge _ _)), offset_small by (done || lia). unfold kBlockStateOffset.
  rewrite (pread_record s bs ns id r) by (done || lia). assert (Hok : block_record_ok r) by (eapply Forall_lookup_1; [apply (r_bs _ _ _ Hs)|done]).
  rewrite state_byte by done. unfold mlift. rewrite rd_cons_0. by rewrite (proj2 (Z.eqb_neq _ 0)).
Qed.

Lemma check_absent s bs ns id : rep s bs ns -> absent bs id -> small id -> checkBlockRecordPresent id s = (Throw (ColumnDataBlockDoesNotExist id), s).
Proof.
  intros Hs [Hid Hab] Hsm. unfold checkBlockRecordPresent, mbind, gets. rewrite Z.gtb_ltb.
  destruct (Z.ltb_spec (m_lastBlockId s) id) as [|Hle]; [done|]. destruct (r_last _ _ _ Hs) as [[_ ?]|Hl]; [lia|].
  destruct (lookup_lt_is_Some_2 bs (Z.to_nat id)) as [r Hr]; [unfold len in Hl; lia|]. rewrite offset_small by (done || lia). unfold kBlockStateOffset.
  rewrite (pread_record s bs ns id r) by (done || lia). assert (Hok : block_record_ok r) by (eapply Forall_lookup_1; [apply (r_bs _ _ _ Hs)|done]).
  rewrite state_byte by done. unfold mlift. rewrite rd_cons_0. by rewrite (Hab r Hr).
Qed.

Lemma loadRecord_ok s bs ns id r : rep s bs ns -> present bs id r -> small id -> loadRecord id s = (Ok r, s).
Proof.
  intros Hs Hp Hsm. unfold loadRecord, mbind. rewrite (check_ok s bs ns id r) by done. destruct Hp as (Hid & Hr & _). unfold gets, mlift.
  replace (25 * id) with (25 * id + 0) by lia. rewrite (pread_record s bs ns id r) by (done || lia).
  assert (Hok : block_record_ok r) by (eapply Forall_lookup_1; [apply (r_bs _ _ _ Hs)|done]).
  unfold sub, kBlockListRecordSize. rewrite drop_0, take_ge by (pose proof (block_record_len r); unfold len in *; lia). by rewrite block_record_roundtrip.
Qed.

(** ** Writes *)

Lemma write_blist_run s off b : reg_room s = None -> write_blist off b s = (Ok (len b), set_blist (pwrite (m_blockListFile s) off b) None s).
Proof. intros Hr. unfold write_blist. rewrite Hr. cbn. by rewrite firstn_len. Qed.

Lemma write_nblist_run s off b : reg_room s = None -> write_nblist off b s = (Ok (len b), set_nblist (pwrite (m_nextBlockListFile s) off b) None s).
Proof. intros Hr. unfold write_nblist. rewrite Hr. cbn. by rewrite firstn_len. Qed.

(** A record of the first file is replaced in part. *)
Lemma rep_block_write s bs ns id r o b r' : rep s bs ns -> 0 <= id -> bs !! Z.to_nat id = Some r -> 0 <= o -> 0 < len b -> o + len b <= 25 ->
  block_record_serialize r' = overwrite (block_record_serialize r) o b -> block_record_ok r' ->
  rep (set_blist (pwrite (m_blockListFile s) (25 * id + o) b) None s) (<[Z.to_nat id := r']> bs) ns.
Proof.
  intros Hs Hid Hr Ho Hb Hk Hser Hok. pose proof (lookup_len _ _ _ Hr Hid). destruct Hs as [H1 H2 H3 H4 H5 H6 H7]. split; cbn; try done.
  - rewrite H1, pwrite_in by (rewrite ?barray_len; lia). by apply (array_overwrite block_record_serialize 25 block_record_len bs id r).
  - destruct H4 as [[-> _]|H4]; [done|]. right. unfold len in *. by rewrite length_insert.
  - by apply Forall_insert.
Qed.

(** A new record, with records of absent blocks before it. *)
Definition put_record (bs : list BlockListRecord) (id : Z) (r : BlockListRecord) : list BlockListRecord :=
  if id <? len bs then <[Z.to_nat id := r]> bs else bs ++ replicate (Z.to_nat (id - len bs)) zero_record ++ [r].

Lemma zero_records n : barray (replicate n zero_record) = repeat 0 (25 * n).
Proof.
  induction n as [|n IH]; [done|]. cbn [replicate]. change (barray (zero_record :: ?l)) with (block_record_serialize zero_record ++ barray l).
  rewrite IH. replace (25 * S n)%nat with (25 + 25 * n)%nat by lia. done.
Qed.

Lemma zero_record_ok : block_record_ok zero_record.
Proof. unfold block_record_ok, u_ok. cbn. repeat split; lia. Qed.

Lemma repeat_add {A} (x : A) n m : repeat x (n + m) = repeat x n ++ repeat x m.
Proof. induction n; cbn; [done|]. by rewrite IHn. Qed.

Lemma put_record_array bs id r : 0 <= id -> pwrite (barray bs) (25 * id) (block_record_serialize r) = barray (put_record bs id r).
Proof.
  intros Hid. unfold put_record. pose proof (block_record_len r) as Hl. destruct (Z.ltb_spec id (len bs)) as [Hlt|Hge].
  - destruct (lookup_lt_is_Some_2 bs (Z.to_nat id)) as [r0 Hr0]; [unfold len in *; lia|].
    rewrite pwrite_in by (rewrite ?barray_len; lia). replace (25 * id) with (25 * id + 0) by lia.
    apply (array_overwrite block_record_serialize 25 block_record_len bs id r0); done.
  - unfold pwrite. destruct (block_record_serialize r) as [|x b] eqn:Hb; [unfold len in Hl; cbn in Hl; lia|]. rewrite <- Hb in Hl |- *. clear Hb.
    replace (Z.to_nat (25 * id + len (block_record_serialize r) - len (barray bs))) with (25 * Z.to_nat (id - len bs) + length (block_record_serialize r))%nat
      by (rewrite barray_len; unfold len in *; lia).
    rewrite repeat_add, app_assoc, overwrite_end.
    + rewrite !array_app, zero_records, app_assoc. f_equal.
    + rewrite len_app, barray_len. unfold len in *. rewrite repeat_length. lia.
Qed.

Lemma recordBlock_ok s bs ns id p st : rep s bs ns -> 1 <= id -> small id -> u_ok 64 p ->
  exists s', recordBlock id p st s = (Ok tt, s') /\
    rep s' (put_record bs id {| m_blockState := state_code st; bl_prevBlockId := p; m_firstNextBlockListFileOffset := 0; m_lastNextBlockListFileOffset := 0 |}) ns.
Proof.
  intros Hs Hid Hsm Hp. unfold recordBlock. cbv zeta. set (r := {| m_blockState := state_code st |}).
  assert (Hok : block_record_ok r) by (unfold block_record_ok, u_ok in *; cbn; destruct st; cbn; lia).
  unfold mbind at 1. rewrite write_blist_run by apply (r_room _ _ _ Hs). rewrite block_record_len. cbn [negb Z.eqb kBlockListRecordSize Pos.eqb].
  eexists. split; [done|]. change (uw 64 (id * kBlockListRecordSize)) with (computeBlockRecordOffset id). rewrite offset_small by (done || lia).
  destruct Hs as [H1 H2 H3 H4 H5 H6 H7]. cbn [m_lastBlockId set_blist]. rewrite H1, put_record_array by lia.
  assert (Hlen : len (put_record bs id r) = Z.max (len bs) (id + 1)).
  { unfold put_record, len in *. case_match eqn:E; [apply Z.ltb_lt in E|apply Z.ltb_ge in E]; rewrite ?length_insert, ?length_app, ?length_replicate; cbn; lia. }
  split; try (rewrite Z.gtb_ltb; case_match; done).
  - right. rewrite Hlen, Z.gtb_ltb. destruct (Z.ltb_spec (m_lastBlockId s) id); cbn [m_lastBlockId set_last set_blist];
      destruct H4 as [[-> H4]|H4]; unfold len in *; cbn [length] in *; lia.
  - unfold put_record. case_match; [by apply Forall_insert|]. apply Forall_app. split; [done|]. apply Forall_app. split; [|by constructor].
    apply Forall_replicate, zero_record_ok.
  - done.
Qed.

Lemma updateBlockState_ok s bs ns id r st : rep s bs ns -> present bs id r -> small id ->
  exists s', updateBlockState id st s = (Ok tt, s') /\ rep s' (<[Z.to_nat id := with_state (state_code st) r]> bs) ns.
Proof.
  intros Hs Hp Hsm. unfold updateBlockState, mbind at 1. rewrite (check_ok s bs ns id r) by done. destruct Hp as (Hid & Hr & Hst).
  unfold mbind at 1. rewrite write_blist_run by apply (r_room _ _ _ Hs). cbn [negb Z.eqb len length Z.of_nat Pos.of_succ_nat Pos.eqb].
  eexists. split; [done|]. unfold kBlockStateOffset. apply (rep_block_write s bs ns id r); try done; try lia.
  assert (Hok : block_record_ok r) by (eapply Forall_lookup_1; [apply (r_bs _ _ _ Hs)|done]).
  destruct Hok as (H1 & H2 & H3 & H4). unfold block_record_ok. cbn. split; [unfold u_ok; destruct st; cbn; lia|done].
Qed.

Lemma findPrevBlockId_ok s bs ns id r : rep s bs ns -> present bs id r -> small id -> findPrevBlockId id s = (Ok (bl_prevBlockId r), s).
Proof.
  intros Hs Hp Hsm. unfold findPrevBlockId, mbind. rewrite (check_ok s bs ns id r) by done. destruct Hp as (Hid & Hr & _). unfold gets, mlift, kPrevBlockIdOffset.
  rewrite (pread_record s bs ns id r) by (done || lia). rewrite prev_bytes.
  assert (Hok : block_record_ok r) by (eapply Forall_lookup_1; [apply (r_bs _ _ _ Hs)|done]). unfold pbeEncodeUInt64.
  rewrite <- (app_nil_r (le_store 8 _)), decode_u64 by apply Hok. done.
Qed.

(** ** Lists of next blocks *)

Definition entry (id off : Z) : NextBlockListRecord := {| nb_blockId := id; m_nextBlockListFileOffset := off |}.

Definition first_offset (xs : list Z) : Z := match xs with [] => 0 | i :: _ => 16 * i end.
Definition last_offset (xs : list Z) : Z := match last xs with None => 0 | Some i => 16 * i end.

(** The entries of a list, by their indices in the second file.  Entry 0 cannot be
    in a list: its offset stands for the end of a list. *)
Fixpoint chain (ns : list NextBlockListRecord) (xs ids : list Z) : Prop :=
  match xs, ids with
  | [], [] => True
  | i :: xs', id :: ids' =>
      1 <= i /\ ns !! Z.to_nat i = Some (entry id (first_offset xs')) /\ chain ns xs' ids'
  | _, _ => False
  end.

Lemma chain_bounds ns xs ids i : chain ns xs ids -> i ∈ xs -> 1 <= i < len ns.
Proof.
  revert ids. induction xs as [|j xs IH]; intros [|id ids] Hc Hi; try done; [by apply elem_of_nil in Hi|].
  destruct Hc as (Hj & Hl & Hc). apply elem_of_cons in Hi as [->|Hi]; [|by eapply IH].
  pose proof (lookup_len _ _ _ Hl ltac:(lia)). lia.
Qed.

Lemma chain_frame ns ns' xs ids : chain ns xs ids -> (forall i, i ∈ xs -> ns' !! Z.to_nat i = ns !! Z.to_nat i) -> chain ns' xs ids.
Proof.
  revert ids. induction xs as [|j xs IH]; intros [|id ids] Hc Hf; try done. destruct Hc as (Hj & Hl & Hc).
  split; [done|]. split; [rewrite Hf by apply list_elem_of_here; done|]. apply IH; [done|]. intros i Hi. apply Hf. by right.
Qed.

(** A list has no more entries than the file. *)
Lemma chain_length ns xs ids : chain ns xs ids -> NoDup xs -> (length xs <= length ns)%nat.
Proof.
  intros Hc Hnd. assert (Hsub : xs ⊆+ seqZ 0 (len ns)).
  { apply NoDup_submseteq; [done|]. intros i Hi. apply elem_of_seqZ. pose proof (chain_bounds _ _ _ _ Hc Hi). lia. }
  apply submseteq_length in Hsub. rewrite length_seqZ in Hsub. unfold len in Hsub. lia.
Qed.

Lemma pread_next s bs ns i r : rep s bs ns -> 0 <= i -> ns !! Z.to_nat i = Some r ->
  pread (m_nextBlockListFile s) (16 * i) 16 = Some (next_record_serialize r).
Proof.
  intros Hs Hi Hr. pose proof (lookup_len _ _ _ Hr Hi). unfold pread. rewrite (r_nblist _ _ _ Hs), narray_len.
  rewrite (proj2 (Z.leb_le 0 _)), (proj2 (Z.leb_le _ _)) by lia. cbn [andb]. f_equal. replace (16 * i) with (16 * i + 0) by lia.
  rewrite (array_sub next_record_serialize 16 next_record_len ns i r) by (done || lia).
  unfold sub. rewrite drop_0. apply take_ge. pose proof (next_record_len r). unfold len in *. lia.
Qed.

Lemma next_ids_ok s bs ns xs ids : rep s bs ns -> chain ns xs ids -> forall fuel, (length xs <= fuel)%nat ->
  next_ids fuel (first_offset xs) s = (Ok ids, s).
Proof.
  intros Hs. revert ids. induction xs as [|i xs IH]; intros [|id ids] Hc fuel Hf; try done; [by destruct fuel|].
  destruct Hc as (Hi & Hl & Hc). destruct fuel as [|fuel]; [cbn in Hf; lia|]. cbn [next_ids first_offset].
  rewrite (proj2 (Z.eqb_neq _ 0)) by lia. unfold mbind at 1, gets. unfold kNextBlockListRecordSize. rewrite (pread_next s bs ns i _ Hs ltac:(lia) Hl).
  unfold mbind at 1, mlift. rewrite next_record_roundtrip by (eapply Forall_lookup_1; [apply (r_ns _ _ _ Hs)|done]).
  cbn [m_nextBlockListFileOffset nb_blockId entry]. unfold mbind. rewrite (IH ids Hc fuel) by (cbn in Hf; lia). done.
Qed.

(** Appending an entry to a list: the entry that was the last points to it. *)
Lemma chain_snoc ns xs ids j nid : chain ns xs ids -> NoDup xs -> last xs = Some j -> len ns >= 1 ->
  exists lid ns', ns !! Z.to_nat j = Some (entry lid 0) /\
    ns' = <[Z.to_nat j := (entry lid (16 * len ns))]>
            (ns ++ [entry nid 0]) /\
    chain ns' (xs ++ [len ns]) (ids ++ [nid]).
Proof.
  intros Hc Hnd Hj Hlen. revert ids Hc. induction xs as [|i xs IH]; intros [|id ids] Hc; try done.
  destruct Hc as (Hi & Hl & Hc). pose proof (lookup_len _ _ _ Hl ltac:(lia)) as Hil. apply NoDup_cons in Hnd as [Hni Hnd].
  destruct xs as [|i2 xs].
  - injection Hj as <-. destruct ids; [|done]. exists id. eexists. split; [done|]. split; [done|]. cbn [app chain first_offset].
    split; [done|]. split; [by rewrite list_lookup_insert_eq by (rewrite length_app; unfold len in *; lia)|]. split; [lia|]. split; [|done].
    rewrite list_lookup_insert_ne by lia. rewrite lookup_app_r by (unfold len; lia). by replace (_ - _)%nat with 0%nat by (unfold len; lia).
  - destruct (IH Hnd Hj ids Hc) as (lid & ns' & H1 & H2 & H3). exists lid, ns'. split; [done|]. split; [done|].
    change ((i :: i2 :: xs) ++ [len ns]) with (i :: ((i2 :: xs) ++ [len ns])). cbn [chain app]. split; [done|]. split; [|done].
    rewrite H2, list_lookup_insert_ne.
    + by rewrite lookup_app_l by (unfold len in *; lia).
    + intros He. apply Hni. assert (Hin : j ∈ i2 :: xs) by (by apply last_Some_elem_of). pose proof (chain_bounds _ _ _ _ Hc Hin).
      by replace i with j by lia.
Qed.

(** The second file grows by an entry; an entry of it is changed in its offset. *)
Lemma write_next_new s bs ns nid : rep s bs ns -> u_ok 64 nid ->
  exists s', write_nblist (m_nextBlockListFileSize s) (next_record_serialize (entry nid 0)) s = (Ok 16, s') /\
    s' = set_nblist (narray (ns ++ [entry nid 0])) None s /\ Forall next_record_ok (ns ++ [entry nid 0]).
Proof.
  intros Hs Hn. rewrite write_nblist_run by apply (r_room _ _ _ Hs). rewrite next_record_len. eexists. split; [done|]. split.
  - rewrite (r_nblist _ _ _ Hs), pwrite_end, array_app; [done|rewrite next_record_len; lia|]. by rewrite narray_len, (r_size _ _ _ Hs).
  - apply Forall_app. split; [apply (r_ns _ _ _ Hs)|]. constructor; [|done]. split; [done|]. unfold u_ok. cbn. lia.
Qed.

Lemma write_next_offset ns j lid off off' : 0 <= j -> ns !! Z.to_nat j = Some (entry lid off) ->
  pwrite (narray ns) (16 * j + 8) (offset_field (entry lid off')) = narray (<[Z.to_nat j := (entry lid off')]> ns).
Proof.
  intros Hj Hl. pose proof (lookup_len _ _ _ Hl Hj). assert (Hlen : len (offset_field (entry lid off')) = 8) by (rewrite offset_field_eq; apply len_le_store).
  rewrite pwrite_in by (rewrite ?Hlen, ?narray_len; lia).
  apply (array_overwrite next_record_serialize 16 next_record_len ns j (entry lid off)); [done|done|done|lia|]. apply (write_offset_field (entry lid off)).
Qed.

(** The last step of [addNextBlock]. *)
Lemma store_record_ok s bs ns ns' id r r' k : rep s bs ns -> 1 <= id -> small id -> bs !! Z.to_nat id = Some r -> block_record_ok r' ->
  len ns' = len ns + 1 -> Forall next_record_ok ns' ->
  exists s', store_record id r' k (set_nblist (narray ns') None s) = (Ok tt, s') /\ rep s' (<[Z.to_nat id := r']> bs) ns'.
Proof.
  intros Hs Hid Hsm Hr Hok Hlen Hns. unfold store_record, mbind at 1. rewrite write_blist_run by done. rewrite block_record_len.
  cbn [negb Z.eqb kBlockListRecordSize Pos.eqb modify]. eexists. split; [done|]. rewrite offset_small by (done || lia).
  pose proof (rep_block_write s bs ns id r 0 (block_record_serialize r') r' Hs ltac:(lia) Hr ltac:(lia)) as Hw.
  rewrite block_record_len, Z.add_0_r in Hw. specialize (Hw ltac:(lia) ltac:(lia)). rewrite overwrite_all in Hw by by rewrite !block_record_len.
  specialize (Hw eq_refl Hok). destruct Hw as [H1 H2 H3 H4 H5 H6 H7]. cbn in *. split; cbn; try done. unfold kNextBlockListRecordSize. lia.
Qed.

Definition with_list (f l : Z) (r : BlockListRecord) : BlockListRecord :=
  {| m_blockState := m_blockState r; bl_prevBlockId := bl_prevBlockId r;
     m_firstNextBlockListFileOffset := f; m_lastNextBlockListFileOffset := l |}.

Lemma addNextBlock_first s bs ns id r nid : rep s bs ns -> present bs id r -> small id -> u_ok 64 nid -> 16 * len ns < 2 ^ 64 ->
  m_lastNextBlockListFileOffset r = 0 ->
  exists s', addNextBlock id nid s = (Ok tt, s') /\
    rep s' (<[Z.to_nat id := with_list (16 * len ns) (16 * len ns) r]> bs) (ns ++ [entry nid 0]).
Proof.
  intros Hs Hp Hsm Hn Hb Hl. unfold addNextBlock, mbind at 1. rewrite (loadRecord_ok s bs ns id r) by done. unfold mbind at 1, gets.
  destruct (write_next_new s bs ns nid Hs Hn) as (s' & Hw & -> & Hok). change {| nb_blockId := nid |} with (entry nid 0).
  unfold mbind at 1. rewrite Hw. cbn [negb Z.eqb kNextBlockListRecordSize Pos.eqb]. rewrite Hl. cbn [Z.eqb].
  destruct Hp as (Hid & Hr & Hst). pose proof (Forall_lookup_1 _ _ _ _ (r_bs _ _ _ Hs) Hr) as (O1 & O2 & O3 & O4).
  rewrite (r_size _ _ _ Hs). pose proof (len_nonneg ns). apply (store_record_ok s bs ns _ id r); try done.
  - split; [done|]. split; [done|]. split; unfold u_ok; cbn; lia.
  - rewrite len_app. done.
Qed.

Lemma addNextBlock_next s bs ns id r nid j lid : rep s bs ns -> present bs id r -> small id -> u_ok 64 nid -> 16 * len ns < 2 ^ 64 ->
  1 <= j -> ns !! Z.to_nat j = Some (entry lid 0) -> m_lastNextBlockListFileOffset r = 16 * j ->
  exists s', addNextBlock id nid s = (Ok tt, s') /\
    rep s' (<[Z.to_nat id := with_list (m_firstNextBlockListFileOffset r) (16 * len ns) r]> bs)
      (<[Z.to_nat j := (entry lid (16 * len ns))]> (ns ++ [entry nid 0])).
Proof.
  intros Hs Hp Hsm Hn Hb Hj Hlj Hl. unfold addNextBlock, mbind at 1. rewrite (loadRecord_ok s bs ns id r) by done. unfold mbind at 1, gets.
  destruct (write_next_new s bs ns nid Hs Hn) as (s' & Hw & -> & Hok). change {| nb_blockId := nid |} with (entry nid 0).
  pose proof (lookup_len _ _ _ Hlj ltac:(lia)). assert (Hlj' : (ns ++ [entry nid 0]) !! Z.to_nat j = Some (entry lid 0)) by by apply lookup_app_l_Some.
  unfold mbind at 1. rewrite Hw. cbn [negb Z.eqb kNextBlockListRecordSize Pos.eqb]. rewrite Hl, (proj2 (Z.eqb_neq _ 0)) by lia.
  unfold mbind at 1. cbn [m_nextBlockListFile set_nblist].
  replace (pread _ (16 * j) 16) with (Some (next_record_serialize (entry lid 0))); cycle 1.
  { symmetry. apply (pread_next (set_nblist (narray (ns ++ [entry nid 0])) None (set_next_size (16 * len (ns ++ [entry nid 0])) s)) bs (ns ++ [entry nid 0]) j); [|lia|done].
    destruct Hs as [H1 H2 H3 H4 H5 H6 H7]. by split. }
  unfold mbind at 1, mlift. rewrite next_record_roundtrip by (eapply Forall_lookup_1; done). unfold mbind at 1.
  rewrite write_nblist_run by done. cbn [m_nextBlockListFile set_nblist nb_blockId entry kNextOffsetFieldOffset]. unfold kNextOffsetFieldOffset.
  change {| nb_blockId := lid |} with (entry lid (m_nextBlockListFileSize s)). rewrite (write_next_offset _ j lid 0) by (done || lia).
  replace (len (offset_field _)) with 8 by (rewrite offset_field_eq; symmetry; apply len_le_store). cbn [negb Z.eqb Pos.eqb].
  destruct Hp as (Hid & Hr & Hst). pose proof (Forall_lookup_1 _ _ _ _ (r_bs _ _ _ Hs) Hr) as (O1 & O2 & O3 & O4).
  rewrite (r_size _ _ _ Hs). pose proof (len_nonneg ns).
  apply (store_record_ok s bs ns _ id r); try done.
  - split; [done|]. split; [done|]. split; [done|]. unfold u_ok; cbn; lia.
  - unfold len. rewrite length_insert, length_app. cbn. lia.
  - apply Forall_insert; [done|]. split; [|unfold u_ok; cbn; lia]. apply (Forall_lookup_1 _ _ _ _ Hok Hlj').
Qed.

(** ** The abstract registry *)

Record ablock : Type := { ab_state : ColumnDataBlockState; ab_prev : Z; ab_next : list Z }.

(** The blocks, and the number of entries ever added to a list of next blocks. *)
Record aregistry : Type := { a_blocks : gmap Z ablock; a_entries : Z }.

Definition AM (A : Type) : Type := SM aregistry RegistryError A.

Definition a_put (id : Z) (b : ablock) : AM unit :=
  modify (fun a => {| a_blocks := match ab_state b with kNotPresent => delete id (a_blocks a) | _ => <[id := b]> (a_blocks a) end;
                      a_entries := a_entries a |}).
Definition a_get (id : Z) : AM ablock := fun a =>
  match a_blocks a !! id with Some b => (Ok b, a) | None => (Throw (ColumnDataBlockDoesNotExist id), a) end.

(** The first entry ever added is at offset 0 of its file, which no list can
    refer to: it is lost. *)
Definition a_add (id nid : Z) : AM unit :=
  b <-- a_get id ;;
  n <-- gets a_entries ;;
  a_put id {| ab_state := ab_state b; ab_prev := ab_prev b; ab_next := if n =? 0 then ab_next b else ab_next b ++ [nid] |} ;;'
  modify (fun a => {| a_blocks := a_blocks a; a_entries := a_entries a + 1 |}).

Inductive RegOp : Type :=
| RecordBlock (id parent : Z) (st : ColumnDataBlockState)
| UpdateBlockState (id : Z) (st : ColumnDataBlockState)
| AddNextBlock (id next : Z)
| RecordBlockAndNextBlock (id parent : Z) (st : ColumnDataBlockState)
| FindPrevBlockId (id : Z)
| FindNextBlockIds (id : Z)
| Reopen.

Inductive RegValue : Type := VUnit | VId (id : Z) | VIds (ids : list Z).

Definition unit_op {S} (c : SM S RegistryError unit) : SM S RegistryError RegValue := c ;;' mret VUnit.

Definition reopen : RM unit := fun s =>
  match openDataFiles (m_blockListFile s) (m_nextBlockListFile s) (reg_room s) with
  | Ok s' => (Ok tt, s') | Throw e => (Throw e, s) | Undef u => (Undef u, s)
  end.

Definition run_reg (op : RegOp) : RM RegValue :=
  match op with
  | RecordBlock id p st => unit_op (recordBlock id p st)
  | UpdateBlockState id st => unit_op (updateBlockState id st)
  | AddNextBlock id nid => unit_op (addNextBlock id nid)
  | RecordBlockAndNextBlock id p st => unit_op (recordBlockAndNextBlock id p st)
  | FindPrevBlockId id => p <-- findPrevBlockId id ;; mret (VId p)
  | FindNextBlockIds id => l <-- findNextBlockIds id ;; mret (VIds l)
  | Reopen => unit_op reopen
  end.

Definition a_record (id p : Z) (st : ColumnDataBlockState) : AM unit := a_put id {| ab_state := st; ab_prev := p; ab_next := [] |}.

Definition spec_reg (op : RegOp) : AM RegValue :=
  match op with
  | RecordBlock id p st => unit_op (a_record id p st)
  | UpdateBlockState id st => unit_op (b <-- a_get id ;; a_put id {| ab_state := st; ab_prev := ab_prev b; ab_next := ab_next b |})
  | AddNextBlock id nid => unit_op (a_add id nid)
  | RecordBlockAndNextBlock id p st => unit_op (a_record id p st ;;' if negb (p =? 0) then a_add id p else mret tt)
  | FindPrevBlockId id => b <-- a_get id ;; mret (VId (ab_prev b))
  | FindNextBlockIds id => b <-- a_get id ;; mret (VIds (ab_next b))
  | Reopen => mret VUnit
  end.

Definition op_ok (op : RegOp) : Prop :=
  match op with
  | RecordBlock id p _ | RecordBlockAndNextBlock id p _ | AddNextBlock id p => 1 <= id /\ small id /\ u_ok 64 p
  | UpdateBlockState id _ | FindPrevBlockId id | FindNextBlockIds id => 1 <= id /\ small id
  | Reopen => True
  end.

(** Operations one after the other, each after an error of the one before too. *)
Fixpoint run_all {S} (f : RegOp -> SM S RegistryError RegValue) (ops : list RegOp) (s : S) : list (outcome RegistryError RegValue) * S :=
  match ops with
  | [] => ([], s)
  | op :: ops' => let '(o, s1) := f op s in let '(os, s2) := run_all f ops' s1 in (o :: os, s2)
  end.

(** ** Refinement *)

(** The block [ab] as record and chain. *)
Definition block_rep (bs : list BlockListRecord) (ns : list NextBlockListRecord) (xs : list Z) (id : Z) (ab : ablock) : Prop :=
  exists r, present bs id r /\ m_blockState r = state_code (ab_state ab) /\ bl_prevBlockId r = ab_prev ab /\
    m_firstNextBlockListFileOffset r = first_offset xs /\ m_lastNextBlockListFileOffset r = last_offset xs /\ chain ns xs (ab_next ab).

(** [f] gives each block the entries of its list. *)
Definition lists_ok (ns : list NextBlockListRecord) (f : Z -> list Z) : Prop :=
  (forall id, NoDup (f id)) /\ (forall id i, i ∈ f id -> 1 <= i < len ns) /\ (forall id id' i, i ∈ f id -> i ∈ f id' -> id = id').

Definition blocks_ok bs ns (f : Z -> list Z) (m : gmap Z ablock) : Prop :=
  forall id, 1 <= id -> match m !! id with Some ab => block_rep bs ns (f id) id ab | None => absent bs id end.

Definition inv (s : registry) (a : aregistry) : Prop :=
  exists bs ns f, rep s bs ns /\ len ns = a_entries a /\ lists_ok ns f /\ blocks_ok bs ns f (a_blocks a).

(** A computation does what the abstract one does and adds at most [k] entries. *)
Definition simulates {A} (k : Z) (c : RM A) (c' : AM A) : Prop := forall s a, inv s a -> a_entries a + k <= 2 ^ 60 ->
  exists o s' a', c s = (o, s') /\ c' a = (o, a') /\ inv s' a' /\ a_entries a' <= a_entries a + k.

Lemma simulates_bind {A B} k1 k2 (c : RM A) c' (g : A -> RM B) g' : 0 <= k1 -> 0 <= k2 -> simulates k1 c c' -> (forall x, simulates k2 (g x) (g' x)) ->
  simulates (k1 + k2) (mbind c g) (mbind c' g').
Proof.
  intros H1 H2 Hc Hg s a Hi Hk. destruct (Hc s a Hi ltac:(lia)) as (o & s1 & a1 & E1 & E2 & Hi1 & Hk1).
  unfold mbind. rewrite E1, E2. destruct o as [x|e|u]; [|by eexists _, _, _; repeat split; [..|lia]|by eexists _, _, _; repeat split; [..|lia]].
  destruct (Hg x s1 a1 Hi1 ltac:(lia)) as (o & s2 & a2 & E3 & E4 & Hi2 & Hk2). exists o, s2, a2. repeat split; try done. lia.
Qed.

Lemma simulates_ret {A} (x : A) : simulates 0 (mret x) (mret x).
Proof. intros s a Hi Hk. exists (Ok x), s, a. repeat split; [done|lia]. Qed.

Definition same_at (bs bs' : list BlockListRecord) (id : Z) : Prop :=
  match bs' !! Z.to_nat id with
  | Some r => bs !! Z.to_nat id = Some r \/ (bs !! Z.to_nat id = None /\ m_blockState r = 0)
  | None => bs !! Z.to_nat id = None
  end.

(** One block changes; the others keep their records and entries. *)
Lemma blocks_update bs bs' ns ns' f f' m id b r' : blocks_ok bs ns f m -> 1 <= id ->
  (forall id', 1 <= id' -> id' <> id -> same_at bs bs' id') ->
  (forall id', id' <> id -> f' id' = f id' /\ forall i, i ∈ f id' -> ns' !! Z.to_nat i = ns !! Z.to_nat i) ->
  bs' !! Z.to_nat id = Some r' -> m_blockState r' = state_code (ab_state b) -> bl_prevBlockId r' = ab_prev b ->
  m_firstNextBlockListFileOffset r' = first_offset (f' id) -> m_lastNextBlockListFileOffset r' = last_offset (f' id) -> chain ns' (f' id) (ab_next b) ->
  blocks_ok bs' ns' f' (match ab_state b with kNotPresent => delete id m | _ => <[id := b]> m end).
Proof.
  intros Hm Hid Hbs Hf Hr' Hst Hp Hfi Hla Hc id' Hid'. destruct (decide (id' = id)) as [->|Hne].
  - assert (Hpr : ab_state b <> kNotPresent -> block_rep bs' ns' (f' id) id b).
    { intros Hb. exists r'. split; [|done]. split; [done|]. split; [done|]. rewrite Hst. by destruct (ab_state b). }
    destruct (ab_state b) eqn:E; rewrite ?lookup_delete_eq, ?lookup_insert_eq; try by apply Hpr.
    split; [done|]. intros r Hr. replace r with r' by congruence. by rewrite Hst.
  - replace (match ab_state b with kNotPresent => delete id m | _ => <[id := b]> m end !! id') with (m !! id')
      by (destruct (ab_state b); rewrite ?lookup_delete_ne, ?lookup_insert_ne by done; done).
    specialize (Hm id' Hid'). specialize (Hbs id' Hid' Hne). unfold same_at in Hbs. destruct (Hf id' Hne) as [Hf1 Hf2]. destruct (m !! id') as [ab|].
    + destruct Hm as (r & (Hi & Hl & Hs) & H1 & H2 & H3 & H4 & H5). rewrite Hl in Hbs. destruct (bs' !! Z.to_nat id') as [r2|] eqn:E2; [|done].
      destruct Hbs as [[= <-]|[? _]]; [|done]. exists r. rewrite Hf1. split; [by split|]. split_and!; try done. by apply (chain_frame ns).
    + destruct Hm as [Hi Hab]. split; [done|]. intros r Hr. rewrite Hr in Hbs. destruct Hbs as [Hbs|[_ ?]]; [by apply Hab|done].
Qed.

Lemma same_at_insert bs id r id' : 1 <= id -> 1 <= id' -> id' <> id -> same_at bs (<[Z.to_nat id := r]> bs) id'.
Proof. intros. unfold same_at. rewrite list_lookup_insert_ne by lia. destruct (bs !! Z.to_nat id'); auto. Qed.

Lemma put_record_lookup bs id r : 0 <= id -> put_record bs id r !! Z.to_nat id = Some r.
Proof.
  intros Hid. unfold put_record. destruct (Z.ltb_spec id (len bs)); unfold len in *; [apply list_lookup_insert_eq; lia|].
  rewrite app_assoc, lookup_app_r by (rewrite length_app, length_replicate; lia).
  by replace (_ - _)%nat with 0%nat by (rewrite length_app, length_replicate; lia).
Qed.

Lemma same_at_put bs id r id' : 1 <= id -> 1 <= id' -> id' <> id -> same_at bs (put_record bs id r) id'.
Proof.
  intros Hid Hid' Hne. unfold put_record. destruct (Z.ltb_spec id (len bs)) as [|Hge]; [by apply same_at_insert|]. unfold same_at.
  destruct (bs !! Z.to_nat id') as [r0|] eqn:E.
  - rewrite (lookup_app_l_Some _ _ _ _ E). auto.
  - apply lookup_ge_None in E. rewrite lookup_app_r by lia. destruct (_ !! _) as [r1|] eqn:E1; [|done]. right. split; [done|]. unfold len in *.
    apply lookup_app_Some in E1 as [E1|[E1 E2]]; [by apply lookup_replicate in E1 as [-> _]|]. rewrite length_replicate in *.
    apply list_lookup_singleton_Some in E2 as [E2 _]. lia.
Qed.

Lemma inv_next s a id ab bs ns f : rep s bs ns -> lists_ok ns f -> blocks_ok bs ns f (a_blocks a) -> 1 <= id -> a_blocks a !! id = Some ab ->
  exists r, present bs id r /\ m_blockState r = state_code (ab_state ab) /\ bl_prevBlockId r = ab_prev ab /\
    m_firstNextBlockListFileOffset r = first_offset (f id) /\ m_lastNextBlockListFileOffset r = last_offset (f id) /\ chain ns (f id) (ab_next ab) /\
    (id < 2 ^ 57 -> findNextBlockIds id s = (Ok (ab_next ab), s)).
Proof.
  intros Hs [Hnd _] Hm Hid Hab. specialize (Hm id Hid). rewrite Hab in Hm. destruct Hm as (r & Hp & H1 & H2 & H3 & H4 & H5).
  exists r. split_and!; try done. intros Hsm. unfold findNextBlockIds, mbind at 1. rewrite (loadRecord_ok s bs ns id r) by done.
  unfold mbind, gets. rewrite H3. apply (next_ids_ok s bs ns); [done|done|]. etransitivity; [by eapply chain_length|].
  rewrite (r_nblist _ _ _ Hs). pose proof (narray_len ns). unfold len in *. lia.
Qed.

(** An operation that needs the block: an error when there is none. *)
Lemma sim_absent {A} (c : RM A) (c' : ablock -> AM A) k id s a : inv s a -> 1 <= id -> small id -> 0 <= k -> a_blocks a !! id = None ->
  (checkBlockRecordPresent id s = (Throw (ColumnDataBlockDoesNotExist id), s) -> c s = (Throw (ColumnDataBlockDoesNotExist id), s)) ->
  exists o s' a', c s = (o, s') /\ mbind (a_get id) c' a = (o, a') /\ inv s' a' /\ a_entries a' <= a_entries a + k.
Proof.
  intros Hi Hid Hsm Hk Hab Hc. pose proof Hi as (bs & ns & f & Hs & Hn & Hl & Hm). pose proof (Hm id Hid) as Hm'. rewrite Hab in Hm'.
  exists (Throw (ColumnDataBlockDoesNotExist id)), s, a. split; [apply Hc; by apply (check_absent s bs ns)|].
  split; [unfold mbind, a_get; by rewrite Hab|]. split; [done|]. lia.
Qed.

Ltac after_check H := unfold mbind; rewrite H; reflexivity.

Lemma sim_find_prev id : 1 <= id -> small id -> simulates 0 (p <-- findPrevBlockId id ;; mret (VId p)) (b <-- a_get id ;; mret (VId (ab_prev b))).
Proof.
  intros Hid Hsm s a Hi Hk. destruct (a_blocks a !! id) as [ab|] eqn:Hab.
  - pose proof Hi as (bs & ns & f & Hs & Hn & Hl & Hm). destruct (inv_next s a id ab bs ns f Hs Hl Hm Hid Hab) as (r & Hp & H1 & H2 & _).
    exists (Ok (VId (ab_prev ab))), s, a. unfold mbind, a_get. rewrite Hab, (findPrevBlockId_ok s bs ns id r), H2 by done. split_and!; try done. lia.
  - apply (sim_absent _ _ 0 id); try done. intros Hc. unfold findPrevBlockId. after_check Hc.
Qed.

Lemma sim_find_next id : 1 <= id -> small id -> simulates 0 (l <-- findNextBlockIds id ;; mret (VIds l)) (b <-- a_get id ;; mret (VIds (ab_next b))).
Proof.
  intros Hid Hsm s a Hi Hk. destruct (a_blocks a !! id) as [ab|] eqn:Hab.
  - pose proof Hi as (bs & ns & f & Hs & Hn & Hl & Hm). destruct (inv_next s a id ab bs ns f Hs Hl Hm Hid Hab) as (r & Hp & _ & _ & _ & _ & _ & H).
    exists (Ok (VIds (ab_next ab))), s, a. unfold mbind, a_get. rewrite Hab, (H Hsm). split_and!; try done. lia.
  - apply (sim_absent _ _ 0 id); try done. intros Hc. unfold findNextBlockIds, loadRecord. after_check Hc.
Qed.

(** The entries of the lists when the block [id] gets others. *)
Definition upd (f : Z -> list Z) (id : Z) (xs : list Z) : Z -> list Z := fun i => if decide (i = id) then xs else f i.

Lemma upd_eq f id xs : upd f id xs id = xs.
Proof. unfold upd. by rewrite decide_True by done. Qed.
Lemma upd_ne f id xs i : i <> id -> upd f id xs i = f i.
Proof. intros. unfold upd. by rewrite decide_False by done. Qed.

Lemma lists_upd ns ns' f id xs : lists_ok ns f -> len ns <= len ns' -> NoDup xs ->
  (forall i, i ∈ xs -> i ∈ f id \/ len ns <= i < len ns' /\ 1 <= i) -> lists_ok ns' (upd f id xs).
Proof.
  intros (L1 & L2 & L3) Hl Hnd Hxs.
  assert (Hcase : forall i x, x ∈ upd f id xs i -> x ∈ f i \/ i = id /\ len ns <= x < len ns' /\ 1 <= x).
  { intros i x. unfold upd. case_decide; [|auto]. subst. intros [?|?]%Hxs; auto. }
  split; [|split].
  - intros i. unfold upd. by case_decide.
  - intros i x [Hx|Hx]%Hcase; [apply L2 in Hx|]; lia.
  - intros i i' x [Hx|Hx]%Hcase [Hx'|Hx']%Hcase; [by eapply L3|apply L2 in Hx; lia|apply L2 in Hx'; lia|]. by destruct Hx as [-> _], Hx' as [-> _].
Qed.

Lemma lists_reset ns f id : lists_ok ns f -> lists_ok ns (upd f id []).
Proof. intros H. apply (lists_upd ns ns f id); [done|done|constructor|]. intros i Hi. by apply elem_of_nil in Hi. Qed.

Lemma sim_record id p st : 1 <= id -> small id -> u_ok 64 p -> simulates 0 (recordBlock id p st) (a_record id p st).
Proof.
  intros Hid Hsm Hp s a (bs & ns & f & Hs & Hn & (L1 & L2 & L3) & Hm) Hk. destruct (recordBlock_ok s bs ns id p st Hs Hid Hsm Hp) as (s' & E & Hs').
  eexists (Ok tt), s', _. split; [done|]. split; [done|]. split; [|cbn; lia].
  eexists _, ns, (upd f id []). split; [done|]. split; [done|]. split.
  - by apply lists_reset.
  - cbn [a_blocks]. eapply (blocks_update bs _ ns ns f _ _ id _ _ Hm Hid); rewrite ?upd_eq; try done.
    + intros id' H1 H2. by apply same_at_put.
    + intros id' H1. by rewrite upd_ne by done.
    + apply put_record_lookup. lia.
    + done.
    + done.
    + done.
    + done.
Qed.

Lemma sim_update id st : 1 <= id -> small id ->
  simulates 0 (updateBlockState id st) (b <-- a_get id ;; a_put id {| ab_state := st; ab_prev := ab_prev b; ab_next := ab_next b |}).
Proof.
  intros Hid Hsm s a Hi Hk. destruct (a_blocks a !! id) as [ab|] eqn:Hab.
  - pose proof Hi as (bs & ns & f & Hs & Hn & Hl & Hm). destruct (inv_next s a id ab bs ns f Hs Hl Hm Hid Hab) as (r & Hp & H1 & H2 & H3 & H4 & H5 & _).
    destruct (updateBlockState_ok s bs ns id r st Hs Hp Hsm) as (s' & E & Hs').
    eexists (Ok tt), s', _. split; [done|]. split; [unfold mbind, a_get; by rewrite Hab|]. split; [|cbn; lia].
    eexists _, ns, f. split; [done|]. split; [done|]. split; [done|]. cbn [a_blocks].
    eapply (blocks_update bs _ ns ns f f _ id _ (with_state (state_code st) r) Hm Hid); [intros; by apply same_at_insert|done| |done..].
    destruct Hp as (_ & Hr & _). apply list_lookup_insert_eq. by apply lookup_lt_Some in Hr.
  - apply (sim_absent _ _ 0 id); try done. intros Hc. unfold updateBlockState. after_check Hc.
Qed.

Lemma last_offset_zero xs ns ids : chain ns xs ids -> last_offset xs = 0 -> xs = [].
Proof.
  intros Hc H0. unfold last_offset in H0. destruct (last xs) as [i|] eqn:E; [|by apply last_None].
  pose proof (chain_bounds _ _ _ i Hc (last_Some_elem_of _ _ E)). lia.
Qed.

(** The state after an entry was added, whatever the list became. *)
Lemma inv_added s' a id ab bs ns ns' f r r' xs nx : lists_ok ns f -> blocks_ok bs ns f (a_blocks a) -> len ns = a_entries a ->
  1 <= id -> present bs id r -> m_blockState r = state_code (ab_state ab) -> ab_state ab <> kNotPresent ->
  rep s' (<[Z.to_nat id := r']> bs) ns' -> len ns' = len ns + 1 -> lists_ok ns' (upd f id xs) ->
  (forall id' i, id' <> id -> i ∈ f id' -> ns' !! Z.to_nat i = ns !! Z.to_nat i) ->
  r' = with_list (first_offset xs) (last_offset xs) r -> bl_prevBlockId r = ab_prev ab -> chain ns' xs nx ->
  inv s' {| a_blocks := <[id := {| ab_state := ab_state ab; ab_prev := ab_prev ab; ab_next := nx |}]> (a_blocks a); a_entries := a_entries a + 1 |}.
Proof.
  intros Hl Hm Hn Hid Hp Hst Hst' Hs' Hlen Hl' Hframe -> Hprev Hc. eexists _, ns', (upd f id xs). split; [done|]. split; [cbn; lia|]. split; [done|].
  cbn [a_blocks]. pose proof (blocks_update bs (<[Z.to_nat id := with_list (first_offset xs) (last_offset xs) r]> bs) ns ns' f (upd f id xs) (a_blocks a) id
    {| ab_state := ab_state ab; ab_prev := ab_prev ab; ab_next := nx |} (with_list (first_offset xs) (last_offset xs) r) Hm Hid) as H.
  cbn [ab_state ab_prev ab_next] in H. rewrite upd_eq in H. destruct Hp as (_ & Hr & _).
  assert (Hgoal : blocks_ok (<[Z.to_nat id := with_list (first_offset xs) (last_offset xs) r]> bs) ns' (upd f id xs)
    (match ab_state ab with kNotPresent => delete id (a_blocks a) | _ => <[id := {| ab_state := ab_state ab; ab_prev := ab_prev ab; ab_next := nx |}]> (a_blocks a) end)).
  { apply H; try done; [intros; by apply same_at_insert| |apply list_lookup_insert_eq; by apply lookup_lt_Some in Hr].
    intros id' Hne. split; [by apply upd_ne|]. intros i. by apply Hframe. }
  by destruct (ab_state ab).
Qed.

Lemma sim_add id nid : 1 <= id -> small id -> u_ok 64 nid -> simulates 1 (addNextBlock id nid) (a_add id nid).
Proof.
  intros Hid Hsm Hn s a Hi Hk. destruct (a_blocks a !! id) as [ab|] eqn:Hab; cycle 1.
  { apply (sim_absent _ _ 1 id); try done. intros Hc. unfold addNextBlock, loadRecord. after_check Hc. }
  pose proof Hi as (bs & ns & f & Hs & Hlen & Hl & Hm). destruct (inv_next s a id ab bs ns f Hs Hl Hm Hid Hab) as (r & Hp & H1 & H2 & H3 & H4 & H5 & _).
  pose proof (len_nonneg ns). assert (Hst' : ab_state ab <> kNotPresent) by (destruct Hp as (_ & _ & Hst); intros E; rewrite E in H1; done).
  assert (Hspec : a_add id nid a = (Ok tt, {| a_blocks := <[id := {| ab_state := ab_state ab; ab_prev := ab_prev ab;
      ab_next := if a_entries a =? 0 then ab_next ab else ab_next ab ++ [nid] |}]> (a_blocks a); a_entries := a_entries a + 1 |})).
  { unfold a_add, mbind, a_get. rewrite Hab. cbn. by destruct (ab_state ab). }
  cut (exists s', addNextBlock id nid s = (Ok tt, s') /\ inv s' {| a_blocks := <[id := {| ab_state := ab_state ab; ab_prev := ab_prev ab;
      ab_next := if a_entries a =? 0 then ab_next ab else ab_next ab ++ [nid] |}]> (a_blocks a); a_entries := a_entries a + 1 |}).
  { intros (s' & E & Hi'). eexists (Ok tt), s', _. split; [done|]. split; [done|]. split; [done|]. cbn; lia. }
  assert (Hlen' : len (ns ++ [entry nid 0]) = len ns + 1) by (rewrite len_app; done).
  assert (Hnew : len ns ∉ f id) by (intros Hin; apply Hl in Hin; lia).
  destruct (last (f id)) as [j|] eqn:Hj.
  - destruct (chain_snoc ns (f id) (ab_next ab) j nid H5 (proj1 Hl id) Hj) as (lid & ns' & Hlid & Hns' & Hc').
    { pose proof (chain_bounds _ _ _ _ H5 (last_Some_elem_of _ _ Hj)). lia. }
    pose proof (chain_bounds _ _ _ _ H5 (last_Some_elem_of _ _ Hj)) as Hjb.
    destruct (addNextBlock_next s bs ns id r nid j lid Hs Hp Hsm Hn ltac:(lia) ltac:(lia) Hlid) as (s' & E & Hs').
    { rewrite H4. unfold last_offset. by rewrite Hj. }
    exists s'. split; [done|]. rewrite <- Hns' in Hs'. rewrite (proj2 (Z.eqb_neq _ 0)) by lia.
    assert (Hl2 : len ns' = len ns + 1) by (rewrite Hns'; unfold len in *; rewrite length_insert; done).
    eapply (inv_added s' a id ab bs ns ns' f r _ (f id ++ [len ns])); try done.
    + apply (lists_upd ns); [done|lia| |].
      * apply NoDup_app. split; [apply Hl|]. split; [|apply NoDup_singleton]. intros x Hx Hx'. by apply list_elem_of_singleton in Hx' as ->.
      * intros i [Hx|Hx%list_elem_of_singleton]%elem_of_app; [by left|]. right. lia.
    + intros id' i Hne Hin. destruct Hl as (L1 & L2 & L3). pose proof (L2 _ _ Hin) as Hib. rewrite Hns', list_lookup_insert_ne.
      * by rewrite lookup_app_l by (unfold len in *; lia).
      * intros He. apply Hne. apply (L3 id' id i Hin). replace i with j by lia. by apply last_Some_elem_of.
    + f_equal; [rewrite H3; by destruct (f id)|]. unfold last_offset. by rewrite last_snoc.
  - apply last_None in Hj. rewrite Hj in *. destruct (ab_next ab) eqn:Hnx; [|done].
    destruct (addNextBlock_first s bs ns id r nid Hs Hp Hsm Hn ltac:(lia) H4) as (s' & E & Hs'). exists s'. split; [done|].
    eapply (inv_added s' a id ab bs ns _ f r _ (if len ns =? 0 then [] else [len ns])); try done.
    + apply (lists_upd ns); [done|lia|case_match; [constructor|apply NoDup_singleton]|].
      intros i Hin. right. destruct (Z.eqb_spec (len ns) 0); [by apply elem_of_nil in Hin|]. apply list_elem_of_singleton in Hin. lia.
    + intros id' i Hne Hin. apply Hl in Hin. apply lookup_app_l. unfold len in *. lia.
    + f_equal; destruct (Z.eqb_spec (len ns) 0); cbn; lia.
    + rewrite <- Hlen. destruct (Z.eqb_spec (len ns) 0); [done|]. cbn. split; [lia|]. split; [|done].
      rewrite lookup_app_r by (unfold len; lia). by replace (_ - _)%nat with 0%nat by (unfold len; lia).
Qed.

Lemma mod_multiple k n : 0 < k -> (k * n) mod k = 0.
Proof. intros. rewrite Z.mul_comm. apply Z.mod_mul. lia. Qed.
Lemma div_multiple k n : 0 < k -> (k * n) / k = n.
Proof. intros. rewrite Z.mul_comm. apply Z.div_mul. lia. Qed.

(** The files say all that the registry keeps. *)
Lemma sim_reopen : simulates 0 reopen (mret tt).
Proof.
  intros s a (bs & ns & f & Hs & Hn & Hl & Hm) Hk. pose proof Hs as [H1 H2 H3 H4 H5 H6 H7]. unfold reopen, openDataFiles, kBlockListRecordSize, kNextBlockListRecordSize.
  rewrite H1, H2, barray_len, narray_len, !mod_multiple, div_multiple by lia. cbn [negb Z.eqb]. eexists (Ok tt), _, a. split; [done|]. split; [done|]. split; [|lia].
  exists bs, ns, f. split; [|done]. split; cbn; try done.
  rewrite Z.gtb_ltb. destruct H4 as [[-> _]|H4]; [by left|]. destruct (Z.ltb_spec 0 (len bs)); [right; lia|]. left. destruct bs; [done|]. unfold len in *. cbn in *. lia.
Qed.

Lemma sim_op op : op_ok op -> simulates 1 (run_reg op) (spec_reg op).
Proof.
  assert (Hunit : forall k c c', 0 <= k -> simulates k c c' -> simulates k (unit_op c) (unit_op c')).
  { intros k c c' Hk Hc. replace k with (k + 0) by lia. apply simulates_bind; [done|done|done|]. intros _. apply simulates_ret. }
  assert (Hweak : forall A (c : RM A) c', simulates 0 c c' -> simulates 1 c c').
  { intros A c c' Hc s a Hi Hk. destruct (Hc s a Hi ltac:(lia)) as (o & s' & a' & ? & ? & ? & ?). exists o, s', a'. split_and!; try done. lia. }
  destruct op; cbn [op_ok run_reg spec_reg]; intros Hok.
  - destruct Hok as (? & ? & ?). apply Hweak, Hunit; [done|]. by apply sim_record.
  - destruct Hok as (? & ?). apply Hweak, Hunit; [done|]. by apply sim_update.
  - destruct Hok as (? & ? & ?). apply Hunit; [done|]. by apply sim_add.
  - destruct Hok as (? & ? & ?). apply Hunit; [done|]. apply (simulates_bind 0 1); [done|done|by apply sim_record|]. intros _.
    case_match; [by apply sim_add|]. apply Hweak, simulates_ret.
  - destruct Hok as (? & ?). by apply Hweak, sim_find_prev.
  - destruct Hok as (? & ?). by apply Hweak, sim_find_next.
  - by apply Hweak, (Hunit 0 reopen (mret tt)), sim_reopen.
Qed.

Lemma run_all_refines ops : Forall op_ok ops -> forall s a, inv s a -> a_entries a + len ops <= 2 ^ 60 ->
  exists s', run_all run_reg ops s = (fst (run_all spec_reg ops a), s') /\ inv s' (snd (run_all spec_reg ops a)).
Proof.
  induction 1 as [|op ops Hop _ IH]; intros s a Hi Hk; [by exists s|]. rewrite len_cons in Hk. pose proof (len_nonneg ops).
  destruct (sim_op op Hop s a Hi ltac:(lia)) as (o & s1 & a1 & E1 & E2 & Hi1 & Hk1). cbn [run_all]. rewrite E1, E2.
  destruct (IH s1 a1 Hi1 ltac:(lia)) as (s2 & E3 & Hi2). exists s2. rewrite E3. destruct (run_all spec_reg ops a1) as [os a2]. done.
Qed.

Definition new_aregistry : aregistry := {| a_blocks := ∅; a_entries := 0 |}.

Lemma inv_new : inv (new_registry None) new_aregistry.
Proof.
  exists [], [], (fun _ => []). split; [by split; cbn; auto|]. split; [done|]. split.
  - split; [intros; constructor|]. split; [intros ? ? Hi; by apply elem_of_nil in Hi|intros ? ? ? Hi; by apply elem_of_nil in Hi].
  - intros id Hid. cbn. rewrite lookup_empty. by split.
Qed.

(** What the code does, in terms of the abstract registry. *)
Lemma registry_as_coded ops : Forall op_ok ops -> len ops <= 2 ^ 60 ->
  fst (run_all run_reg ops (new_registry None)) = fst (run_all spec_reg ops new_aregistry).
Proof. intros Hops Hl. destruct (run_all_refines ops Hops _ _ inv_new) as (s' & -> & _); [cbn; lia|]. done. Qed.

(** ** The registry of the documentation *)

(** A block with its state, previous block and next blocks; the entries of all
    lists of next blocks are numbered in the order of their additions. *)
Record dblock : Type := { db_state : ColumnDataBlockState; db_prev : Z; db_next : list (Z * Z) }.
Record dregistry : Type := { d_blocks : gmap Z dblock; d_entries : Z }.

Definition DocM (A : Type) : Type := SM dregistry RegistryError A.
Definition d_put (id : Z) (b : dblock) : DocM unit :=
  modify (fun d => {| d_blocks := match db_state b with kNotPresent => delete id (d_blocks d) | _ => <[id := b]> (d_blocks d) end; d_entries := d_entries d |}).
Definition d_get (id : Z) : DocM dblock := fun d =>
  match d_blocks d !! id with Some b => (Ok b, d) | None => (Throw (ColumnDataBlockDoesNotExist id), d) end.
Definition d_add (id nid : Z) : DocM unit :=
  b <-- d_get id ;;
  n <-- gets d_entries ;;
  d_put id {| db_state := db_state b; db_prev := db_prev b; db_next := db_next b ++ [(n, nid)] |} ;;'
  modify (fun d => {| d_blocks := d_blocks d; d_entries := d_entries d + 1 |}).
Definition d_record (id p : Z) (st : ColumnDataBlockState) : DocM unit := d_put id {| db_state := st; db_prev := p; db_next := [] |}.

(** The next blocks with the numbers from [first] on. *)
Definition next_from (first : Z) (l : list (Z * Z)) : list Z := snd <$> filter (fun e => first <= fst e) l.

(** The operations as they are documented; [doc_reg 0] is the whole of it, and
    [doc_reg 1] does not show the first entry that was added. *)
Definition doc_reg (first : Z) (op : RegOp) : DocM RegValue :=
  match op with
  | RecordBlock id p st => unit_op (d_record id p st)
  | UpdateBlockState id st => unit_op (b <-- d_get id ;; d_put id {| db_state := st; db_prev := db_prev b; db_next := db_next b |})
  | AddNextBlock id nid => unit_op (d_add id nid)
  | RecordBlockAndNextBlock id p st => unit_op (d_record id p st ;;' if negb (p =? 0) then d_add p id else mret tt)
  | FindPrevBlockId id => b <-- d_get id ;; mret (VId (db_prev b))
  | FindNextBlockIds id => b <-- d_get id ;; mret (VIds (next_from first (db_next b)))
  | Reopen => mret VUnit
  end.

Definition new_dregistry : dregistry := {| d_blocks := ∅; d_entries := 0 |}.

(** The code makes the parent the next block of the new block, and not the
    other way round. *)
Definition without_parent (op : RegOp) : Prop := match op with RecordBlockAndNextBlock _ p _ => p = 0 | _ => True end.

Definition shown_block (b : dblock) : ablock := {| ab_state := db_state b; ab_prev := db_prev b; ab_next := next_from 1 (db_next b) |}.
Definition shown (d : dregistry) : aregistry := {| a_blocks := shown_block <$> d_blocks d; a_entries := d_entries d |}.

Lemma shown_put id b d : a_put id (shown_block b) (shown d) = (Ok tt, shown (snd (d_put id b d))).
Proof. unfold a_put, d_put, modify, shown. cbn. destruct (db_state b); by rewrite ?fmap_delete, ?fmap_insert. Qed.

Lemma shown_get {A} id d (f : ablock -> AM A) (g : dblock -> DocM A) : 0 <= d_entries d -> (forall b, f (shown_block b) (shown d) = (fst (g b d), shown (snd (g b d)))) ->
  (b <-- a_get id ;; f b) (shown d) = (fst ((b <-- d_get id ;; g b) d), shown (snd ((b <-- d_get id ;; g b) d))).
Proof. intros Hd Hfg. unfold mbind, a_get, d_get. cbn. rewrite lookup_fmap. destruct (d_blocks d !! id) as [b|]; [|done]. cbn. apply Hfg. Qed.

Lemma next_from_snoc l n nid : 0 <= n -> next_from 1 (l ++ [(n, nid)]) = if n =? 0 then next_from 1 l else next_from 1 l ++ [nid].
Proof.
  intros Hn. unfold next_from. rewrite filter_app, filter_cons, filter_nil, fmap_app. cbn [fst]. destruct (Z.eqb_spec n 0) as [->|Hne].
  - rewrite decide_False by lia. apply app_nil_r.
  - by rewrite decide_True by lia.
Qed.

Lemma shown_add id nid d : 0 <= d_entries d -> a_add id nid (shown d) = (fst (d_add id nid d), shown (snd (d_add id nid d))).
Proof.
  intros Hd. unfold a_add, d_add. apply shown_get; [done|]. intros b. pose proof (next_from_snoc (db_next b) _ nid Hd) as Hn.
  set (b' := {| db_state := db_state b; db_prev := db_prev b; db_next := db_next b ++ [(d_entries d, nid)] |}).
  change (mbind (a_put id {| ab_state := db_state b; ab_prev := db_prev b; ab_next := if d_entries d =? 0 then next_from 1 (db_next b) else next_from 1 (db_next b) ++ [nid] |})
    (fun _ => modify (fun a => {| a_blocks := a_blocks a; a_entries := a_entries a + 1 |})) (shown d) =
    (Ok tt, shown {| d_blocks := d_blocks (snd (d_put id b' d)); d_entries := d_entries d + 1 |})).
  rewrite <- Hn. unfold mbind. change {| ab_state := db_state b; ab_prev := db_prev b; ab_next := _ |} with (shown_block b'). rewrite shown_put. done.
Qed.

Lemma shown_unit c c' (d : dregistry) : c (shown d) = (fst (c' d), shown (snd (c' d))) -> unit_op c (shown d) = (fst (unit_op c' d), shown (snd (unit_op c' d))).
Proof. intros H. unfold unit_op, mbind. rewrite H. destruct (c' d) as [[]?]; done. Qed.

Lemma shown_op op d : 0 <= d_entries d -> without_parent op -> spec_reg op (shown d) = (fst (doc_reg 1 op d), shown (snd (doc_reg 1 op d))).
Proof.
  intros Hd Hop. assert (Hrec : forall id p st, a_record id p st (shown d) = (Ok tt, shown (snd (d_record id p st d)))).
  { intros id p st. unfold a_record, d_record. rewrite <- shown_put. done. }
  destruct op as [id p st|id st|id nid|id p st|id|id|]; cbn [spec_reg doc_reg].
  - apply shown_unit, Hrec.
  - apply shown_unit, shown_get; [done|]. intros b. change (a_put id (shown_block {| db_state := st; db_prev := db_prev b; db_next := db_next b |}) (shown d) =
      (Ok tt, shown (snd (d_put id {| db_state := st; db_prev := db_prev b; db_next := db_next b |} d)))). apply shown_put.
  - by apply shown_unit, shown_add.
  - cbn in Hop. subst p. cbn [Z.eqb negb]. apply shown_unit. unfold mbind. by rewrite Hrec.
  - by apply shown_get.
  - by apply shown_get.
  - done.
Qed.

Lemma entries_grow op d : 0 <= d_entries d -> without_parent op -> 0 <= d_entries (snd (doc_reg 1 op d)).
Proof.
  intros Hd Hop. destruct op as [id p st|id st|id nid|id p st|id|id|]; cbn [doc_reg]; try (cbn in Hop; subst p); unfold unit_op, d_record, d_add, mbind, d_get, d_put, gets, modify; try (destruct (d_blocks d !! id));
    cbn; lia.
Qed.

Lemma shown_ops ops : forall d, Forall without_parent ops -> 0 <= d_entries d -> fst (run_all spec_reg ops (shown d)) = fst (run_all (doc_reg 1) ops d).
Proof.
  induction ops as [|op ops IH]; intros d Hops Hd; [done|]. apply Forall_cons in Hops as [Hop Hops]. pose proof (shown_op op d Hd Hop) as E. pose proof (entries_grow op d Hd Hop) as Hd'. cbn [run_all]. rewrite E.
  destruct (doc_reg 1 op d) as [o d1]. cbn [fst snd] in *. specialize (IH d1 Hops Hd'). destruct (run_all spec_reg ops (shown d1)), (run_all (doc_reg 1) ops d1). cbn in *. by rewrite IH.
Qed.

(** C10: The block registry refines a finite map from blocks to their state,
    previous block and next blocks, with one exception.  From the empty files, any
    sequence of its operations (with reopening of the files in between, and without
    [recordBlockAndNextBlock] for a block with a parent, which records the parent
    as the next block of the new one) gives the results of the documented map,
    errors included: blocks that were not recorded, or were set to not present, are
    reported as missing, and the lists of next blocks are in the order of their
    additions.  The exception: the first entry that was added to any list, whose
    offset in the file is 0, is missing from its list. *)
Theorem registry_refines ops : Forall op_ok ops -> Forall without_parent ops -> len ops <= 2 ^ 60 ->
  fst (run_all run_reg ops (new_registry None)) = fst (run_all (doc_reg 1) ops new_dregistry).
Proof.
  intros Hops Hp Hl. rewrite registry_as_coded by done. rewrite <- (shown_ops ops new_dregistry) by done. unfold shown. cbn. by rewrite fmap_empty.
Qed.

Definition reg_example : list RegOp :=
  [RecordBlock 1 0 kCreating; RecordBlock 2 1 kCreating; RecordBlock 4 2 kCurrent; AddNextBlock 1 2; AddNextBlock 1 4;
   AddNextBlock 2 4; AddNextBlock 1 7; UpdateBlockState 2 kClosed; Reopen; FindNextBlockIds 1; FindNextBlockIds 2; FindNextBlockIds 4;
   FindPrevBlockId 4; FindPrevBlockId 3; AddNextBlock 9 1].

Lemma registry_refines_witness : fst (run_all run_reg reg_example (new_registry None)) =
  [Ok VUnit; Ok VUnit; Ok VUnit; Ok VUnit; Ok VUnit; Ok VUnit; Ok VUnit; Ok VUnit; Ok VUnit; Ok (VIds [4; 7]); Ok (VIds [4]); Ok (VIds []); Ok (VId 2);
   Throw (ColumnDataBlockDoesNotExist 3); Throw (ColumnDataBlockDoesNotExist 9)].
Proof.
  rewrite registry_refines; [vm_compute; reflexivity| | |vm_compute; discriminate].
  - unfold reg_example. repeat (constructor; [unfold op_ok, small, u_ok; lia|]). constructor.
  - repeat constructor.
Defined.

(** Both deviations from the documentation: the first entry is lost, and a block
    is recorded as the previous block of its parent. *)
Theorem registry_deviations :
  let ops := [RecordBlock 1 0 kCreating; AddNextBlock 1 5; RecordBlockAndNextBlock 2 1 kCreating; FindNextBlockIds 1; FindNextBlockIds 2] in
  fst (run_all run_reg ops (new_registry None)) = [Ok VUnit; Ok VUnit; Ok VUnit; Ok (VIds []); Ok (VIds [1])] /\
  fst (run_all (doc_reg 0) ops new_dregistry) = [Ok VUnit; Ok VUnit; Ok VUnit; Ok (VIds [5; 2]); Ok (VIds [])].
Proof. vm_compute. done. Qed.
