(* ===== verification/Column.v ===== *)
(** * Data blocks of a column

    Models [ColumnDataBlock] and the management of blocks in [Column]
    ([Column_DataBlockManagement.cpp] and the rollback of [Column_General.cpp]).
    A column keeps its values in data files of equal size, one per block.  Block
    objects are shared by pointers: the heap of objects is a list, the cache holds
    pointers to it, and a block is evicted from the cache only when no local
    variable points to it ([pins]).

    [c_room] bounds the bytes that can still be written to the data files.
    Creating and opening files does not fail for other reasons.  The clock and
    the hash function are parameters, and so is the member that the constructor
    of the block header leaves uninitialized.  Destructors of blocks are not
    modelled: they write only when the header could not be written before. *)

From stdpp Require Import base list gmap.
Set Warnings "-clear-no-such-hyp,-notation-incompatible-prefix,-notation-for-abbreviation".
From Stdlib Require Import ZArith Lia.
From S2P Require Import Prelude StateM Bytes PlainBinary ColumnRecords VariantType Variant LruCache BlockRegistry.

Local Open Scope Z_scope.

Inductive ColumnError : Type :=
| RegistryFailed (e : RegistryError)
| BlockCacheFailed (e : LruError)
| CannotReadColumnDataBlockFile
| CannotWriteColumnDataBlockFile
| CannotCreateColumnDataBlockFile
| CannotOpenColumnDataBlockFile (blockId : Z)
| InvalidDataFileHeader (version : Z)
| InvalidPositionForColumnDataBlock (pos : Z)
| RequiredFreeSpaceIsZero
| RequiredFreeSpaceIsTooLarge
| ColumnDataBlockNotAvailable (blockId : Z)
| InvalidCurrentDataBlock (blockId : Z)
| InvalidRollbackDataBlockPosition
| UnreachableRollbackDataBlockPosition
| InvalidDataBlockPosition (blockId offset : Z)
| CannotFindAvailableBlockRecord (blockId : Z)
| CannotInsertNullValue
| IncompatibleDataType1 (dest source : VariantType)
| IncompatibleDataType2 (source : VariantType)
| VariantFailed (e : VariantError)
| LogicErrorInvalidDataType
| InvalidMasterColumnRecordSize (size : Z)
| ColumnDataBlockConsistencyMismatch
| LobReadFailed
| InvalidLobChunkHeaderAddress
| InvalidLobChunkHeader.

(** ** The cache of blocks, as an interface *)

(** Blocks whose pointers are in [pins] are in use elsewhere. *)
Class BlockCache (C : Type) : Type := {
  bc_get : C -> Z -> option nat * C;
  bc_emplace : list nat -> C -> Z -> nat -> outcome LruError C
}.

(** [bcached c k p]: the cache gives the block object [p] for the block [k];
    [bc_free c]: blocks that can be added before one is evicted. *)
Class BlockCacheLaws (C : Type) {BC : BlockCache C} : Type := {
  bc_ok : C -> Prop;
  bcached : C -> Z -> option nat;
  bc_free : C -> nat;
  bc_get_law : forall c k, bc_ok c ->
    let '(r, c') := bc_get c k in
    bc_ok c' /\ r = bcached c k /\ (forall k', bcached c' k' = bcached c k') /\ bc_free c' = bc_free c;
  bc_emplace_law : forall pins c k p, bc_ok c -> bcached c k = None -> (0 < bc_free c)%nat ->
    exists c', bc_emplace pins c k p = Ok c' /\ bc_ok c' /\ S (bc_free c') = bc_free c /\
      forall k', bcached c' k' = if decide (k' = k) then Some p else bcached c k'
}.

(** [ColumnDataBlockCache]: [can_evict] is [use_count() == 1]. *)
#[export] Instance ColumnDataBlockCache_hooks : LruHooks (list nat) Z nat := {
  can_evict pins _ p := bool_decide (p ∉ pins);
  on_evict w _ _ _ := Ok w;
  on_last_chance_cleanup w := Ok (false, w)
}.

#[export] Instance lru_block_cache : BlockCache (lru_cache (K := Z) (T := nat)) := {
  bc_get c k := get 0 c k;
  bc_emplace pins c k p := '(_, _, c) <- emplace (W := list nat) 0 pins c k p false ;; Ok c
}.

(** ** State *)

Record ColumnDataBlock : Type := {
  m_header : ColumnDataBlockHeader;
  cb_prevBlockId : Z;
  m_state : ColumnDataBlockState;
  m_headerModified : bool;
  m_dataModified : bool
}.

(** The constant members of a column. *)
Record column_params : Type := {
  m_dataBlockDataAreaSize : Z;
  cp_databaseUuid : list Z;
  cp_tableId : Z;
  cp_columnId : Z;
  cp_tmpFile : bool  (** the file system of the data directory has O_TMPFILE *)
}.

Record column_state {C : Type} : Type := {
  c_files : gmap Z (list Z);
  c_room : option Z;
  c_blocks : list ColumnDataBlock;
  m_blockCache : C;
  m_availableDataBlocks : list (Z * Z);
  m_blockRegistry : registry;
  c_lastBlockId : Z;
  c_ticks : nat
}.
Arguments column_state : clear implicits.

(** [std::map] from blocks to free space, as its entries in order. *)
Fixpoint avail_find (id : Z) (l : list (Z * Z)) : option Z :=
  match l with [] => None | (k, v) :: l' => if k =? id then Some v else avail_find id l' end.
Fixpoint avail_emplace (id v : Z) (l : list (Z * Z)) : list (Z * Z) :=
  match l with
  | [] => [(id, v)]
  | (k, w) :: l' => if id <? k then (id, v) :: l else if id =? k then l else (k, w) :: avail_emplace id v l'
  end.
Fixpoint avail_assign (id v : Z) (l : list (Z * Z)) : list (Z * Z) :=
  match l with [] => [] | (k, w) :: l' => if k =? id then (k, v) :: l' else (k, w) :: avail_assign id v l' end.
Fixpoint avail_erase (id : Z) (l : list (Z * Z)) : list (Z * Z) :=
  match l with [] => [] | (k, w) :: l' => if k =? id then l' else (k, w) :: avail_erase id l' end.

Section Column.
Context {C : Type} `{BC : BlockCache C} (P : column_params).
Context (sha256 : list Z -> list Z) (time : nat -> Z) (uninitialized : Z).
Notation state := (column_state C).
Notation A := (m_dataBlockDataAreaSize P).

Definition CM (X : Type) : Type := SM state ColumnError X.

Definition set_files (f : gmap Z (list Z)) (r : option Z) (s : state) : state :=
  {| c_files := f; c_room := r; c_blocks := c_blocks s; m_blockCache := m_blockCache s;
     m_availableDataBlocks := m_availableDataBlocks s; m_blockRegistry := m_blockRegistry s;
     c_lastBlockId := c_lastBlockId s; c_ticks := c_ticks s |}.
Definition set_blocks (b : list ColumnDataBlock) (s : state) : state :=
  {| c_files := c_files s; c_room := c_room s; c_blocks := b; m_blockCache := m_blockCache s;
     m_availableDataBlocks := m_availableDataBlocks s; m_blockRegistry := m_blockRegistry s;
     c_lastBlockId := c_lastBlockId s; c_ticks := c_ticks s |}.
Definition set_bcache (c : C) (s : state) : state :=
  {| c_files := c_files s; c_room := c_room s; c_blocks := c_blocks s; m_blockCache := c;
     m_availableDataBlocks := m_availableDataBlocks s; m_blockRegistry := m_blockRegistry s;
     c_lastBlockId := c_lastBlockId s; c_ticks := c_ticks s |}.
Definition set_available (l : list (Z * Z)) (s : state) : state :=
  {| c_files := c_files s; c_room := c_room s; c_blocks := c_blocks s; m_blockCache := m_blockCache s;
     m_availableDataBlocks := l; m_blockRegistry := m_blockRegistry s;
     c_lastBlockId := c_lastBlockId s; c_ticks := c_ticks s |}.
Definition set_registry (r : registry) (s : state) : state :=
  {| c_files := c_files s; c_room := c_room s; c_blocks := c_blocks s; m_blockCache := m_blockCache s;
     m_availableDataBlocks := m_availableDataBlocks s; m_blockRegistry := r;
     c_lastBlockId := c_lastBlockId s; c_ticks := c_ticks s |}.
Definition set_counters (last : Z) (ticks : nat) (s : state) : state :=
  {| c_files := c_files s; c_room := c_room s; c_blocks := c_blocks s; m_blockCache := m_blockCache s;
     m_availableDataBlocks := m_availableDataBlocks s; m_blockRegistry := m_blockRegistry s;
     c_lastBlockId := last; c_ticks := ticks |}.

(** Calls of the registry, with its exceptions passed on. *)
Definition registry_call {X} (c : RM X) : CM X := embed m_blockRegistry set_registry RegistryFailed c.

(** [std::time(nullptr)] *)
Definition time_now : CM Z := fun s => (Ok (time (c_ticks s)), set_counters (c_lastBlockId s) (S (c_ticks s)) s).

(** *** Files *)

Definition block_file_read (blockId length offset : Z) : CM (list Z) :=
  fs <-- gets c_files ;;
  match pread (default [] (fs !! blockId)) offset length with
  | Some bytes => mret bytes
  | None => mthrow CannotReadColumnDataBlockFile
  end.

Definition block_file_write (blockId : Z) (bytes : list Z) (offset : Z) : CM unit := fun s =>
  let n := writable (c_room s) (len bytes) in
  (if n =? len bytes then Ok tt else Throw CannotWriteColumnDataBlockFile,
   set_files (alter (fun f => pwrite f offset (take (Z.to_nat n) bytes)) blockId (c_files s)) (consume (c_room s) n) s).

(** The directory maps the ID of a block to its data file, and the negative ID to
    the temporary file [m_dataFilePath + kTempFileExtension]. *)
Definition tmpDataFile (blockId : Z) : Z := - blockId.

(** A write to the new file: either it is not in the directory yet, or it has its
    temporary name. *)
Definition new_file_write (blockId : Z) (bytes : list Z) (offset : Z) : CM unit :=
  if cp_tmpFile P then fun s =>
    let n := writable (c_room s) (len bytes) in
    (if n =? len bytes then Ok tt else Throw CannotWriteColumnDataBlockFile, set_files (c_files s) (consume (c_room s) n) s)
  else block_file_write (tmpDataFile blockId) bytes offset.

(** *** [ColumnDataBlock] *)

Definition get_block (ptr : nat) : CM ColumnDataBlock := fun s =>
  match c_blocks s !! ptr with Some b => (Ok b, s) | None => (Undef Dangling, s) end.
Definition set_block (ptr : nat) (b : ColumnDataBlock) : CM unit := modify (fun s => set_blocks (<[ptr := b]> (c_blocks s)) s).
Definition new_block (b : ColumnDataBlock) : CM nat :=
  ptr <-- gets (fun s => length (c_blocks s)) ;;
  modify (fun s => set_blocks (c_blocks s ++ [b]) s) ;;'
  mret ptr.

Definition block_id (b : ColumnDataBlock) : Z := fb_blockId (m_fullColumnDataBlockId (m_header b)).
Definition getId (ptr : nat) : CM Z := b <-- get_block ptr ;; mret (block_id b).
Definition getFreeDataSpace (ptr : nat) : CM Z := b <-- get_block ptr ;; mret (uw 32 (A - m_nextDataOffset (m_header b))).
Definition getNextDataPos (ptr : nat) : CM Z := b <-- get_block ptr ;; mret (m_nextDataOffset (m_header b)).

Definition with_header (h : ColumnDataBlockHeader) (b : ColumnDataBlock) : ColumnDataBlock :=
  {| m_header := h; cb_prevBlockId := cb_prevBlockId b; m_state := m_state b;
     m_headerModified := m_headerModified b; m_dataModified := m_dataModified b |}.
Definition with_block_state (st : ColumnDataBlockState) (b : ColumnDataBlock) : ColumnDataBlock :=
  {| m_header := m_header b; cb_prevBlockId := cb_prevBlockId b; m_state := st;
     m_headerModified := m_headerModified b; m_dataModified := m_dataModified b |}.
Definition with_flags (header data : bool) (b : ColumnDataBlock) : ColumnDataBlock :=
  {| m_header := m_header b; cb_prevBlockId := cb_prevBlockId b; m_state := m_state b;
     m_headerModified := header; m_dataModified := data |}.
Definition header_with_next (pos : Z) (h : ColumnDataBlockHeader) : ColumnDataBlockHeader :=
  {| bh_version := bh_version h; m_fullColumnDataBlockId := m_fullColumnDataBlockId h; m_prevBlockId := m_prevBlockId h;
     m_dataAreaOffset := m_dataAreaOffset h; m_dataAreaSize := m_dataAreaSize h; m_nextDataOffset := pos;
     m_commitedDataOffset := m_commitedDataOffset h; m_fillTimestamp := m_fillTimestamp h; m_digest := m_digest h |}.
Definition header_with_fill (ts : Z) (digest : list Z) (h : ColumnDataBlockHeader) : ColumnDataBlockHeader :=
  {| bh_version := bh_version h; m_fullColumnDataBlockId := m_fullColumnDataBlockId h; m_prevBlockId := m_prevBlockId h;
     m_dataAreaOffset := m_dataAreaOffset h; m_dataAreaSize := m_dataAreaSize h; m_nextDataOffset := m_nextDataOffset h;
     m_commitedDataOffset := m_commitedDataOffset h; m_fillTimestamp := ts; m_digest := digest |}.

(** [m_headerModified] is not set. *)
Definition setNextDataPos (ptr : nat) (pos : Z) : CM unit :=
  if pos >? A then mthrow (InvalidPositionForColumnDataBlock pos) else
  b <-- get_block ptr ;;
  set_block ptr (with_header (header_with_next pos (m_header b)) b).
Definition incNextDataPos (ptr : nat) (n : Z) : CM unit :=
  b <-- get_block ptr ;; setNextDataPos ptr (uw 32 (m_nextDataOffset (m_header b) + n)).
Definition resetFillTimestamp (ptr : nat) : CM unit :=
  b <-- get_block ptr ;; set_block ptr (with_header (header_with_fill 0 (m_digest (m_header b)) (m_header b)) b).

Definition block_readData (ptr : nat) (length pos : Z) : CM (list Z) :=
  if pos + length >? A then mthrow CannotReadColumnDataBlockFile else
  b <-- get_block ptr ;;
  block_file_read (block_id b) length (uw 32 (pos + m_dataAreaOffset (m_header b))).

Definition block_writeData (ptr : nat) (data : list Z) (pos : Z) : CM unit :=
  if pos + len data >? A then mthrow CannotWriteColumnDataBlockFile else
  b <-- get_block ptr ;;
  block_file_write (block_id b) data (uw 32 (pos + m_dataAreaOffset (m_header b))) ;;'
  set_block ptr (with_flags (m_headerModified b) true b).

(** [writeData] at the next position. *)
Definition block_append (ptr : nat) (data : list Z) : CM unit :=
  pos <-- getNextDataPos ptr ;; block_writeData ptr data pos.

Definition writeHeader (ptr : nat) : CM unit :=
  b <-- get_block ptr ;;
  block_file_write (block_id b) (block_header_serialize (m_header b)) 0 ;;'
  set_block ptr (with_flags false (m_dataModified b) b).

(** The digest member has 64 bytes, the hash 32: the rest stays what it was. *)
Definition computeDigest (b : ColumnDataBlock) (prevBlockDigest : list Z) : CM (list Z) :=
  let h := m_header b in
  let id := m_fullColumnDataBlockId h in
  let dataLength := m_nextDataOffset h in
  let headerData := fb_databaseUuid id ++ pbeEncodeUInt32 (fb_tableId id) ++ pbeEncodeUInt32 (uw 32 (fb_columnId id)) ++
    pbeEncodeUInt64 (fb_blockId id) ++ pbeEncodeInt64 (m_fillTimestamp h) ++ pbeEncodeUInt32 dataLength in
  data <-- (if dataLength >? 0 then block_file_read (block_id b) dataLength (m_dataAreaOffset h) else mret []) ;;
  mret (sha256 (prevBlockDigest ++ headerData ++ data)).

Definition finalize (ptr : nat) (prevBlockDigest : list Z) : CM unit :=
  b <-- get_block ptr ;;
  set_block ptr (with_block_state kClosing b) ;;'
  registry_call (updateBlockState (block_id b) kClosing) ;;'
  now <-- time_now ;;
  b <-- get_block ptr ;;
  let b := with_header (header_with_fill (uw 64 now) (m_digest (m_header b)) (m_header b)) b in
  set_block ptr b ;;'
  digest <-- computeDigest b prevBlockDigest ;;
  let b := with_header (header_with_fill (uw 64 now) (digest ++ drop 32 (m_digest (m_header b))) (m_header b)) b in
  set_block ptr (with_flags true (m_dataModified b) b) ;;'
  writeHeader ptr ;;'
  b <-- get_block ptr ;;
  set_block ptr (with_block_state kClosed b) ;;'
  registry_call (updateBlockState (block_id b) kClosed).

Definition new_header (blockId : Z) : ColumnDataBlockHeader :=
  {| bh_version := kBlockHeaderVersion;
     m_fullColumnDataBlockId := {| fb_databaseUuid := cp_databaseUuid P; fb_tableId := cp_tableId P; fb_columnId := cp_columnId P; fb_blockId := blockId |};
     m_prevBlockId := uninitialized; m_dataAreaOffset := kDefaultDataAreaOffset; m_dataAreaSize := A;
     m_nextDataOffset := 0; m_commitedDataOffset := 0; m_fillTimestamp := 0; m_digest := repeat 0 64 |}.

Definition kDefaultDataFileDataAreaSize : Z := 10 * 1024 * 1024.
Definition default_header : ColumnDataBlockHeader :=
  {| bh_version := kBlockHeaderVersion;
     m_fullColumnDataBlockId := {| fb_databaseUuid := repeat 0 16; fb_tableId := 0; fb_columnId := 0; fb_blockId := 0 |};
     m_prevBlockId := uninitialized; m_dataAreaOffset := kDefaultDataAreaOffset; m_dataAreaSize := kDefaultDataFileDataAreaSize;
     m_nextDataOffset := 0; m_commitedDataOffset := 0; m_fillTimestamp := 0; m_digest := repeat 0 64 |}.

Definition full_id_eqb (a b : FullColumnDataBlockId) : bool :=
  bool_decide (fb_databaseUuid a = fb_databaseUuid b) && (fb_tableId a =? fb_tableId b) &&
  (fb_columnId a =? fb_columnId b) && (fb_blockId a =? fb_blockId b).

Definition loadHeader (expected : ColumnDataBlockHeader) : CM ColumnDataBlockHeader :=
  buffer <-- block_file_read (fb_blockId (m_fullColumnDataBlockId expected)) kColumnDataBlockHeaderSize 0 ;;
  header <-- mlift (block_header_deserialize default_header buffer) ;;
  if (bh_version header >? kBlockHeaderVersion) || negb (full_id_eqb (m_fullColumnDataBlockId header) (m_fullColumnDataBlockId expected))
  then mthrow (InvalidDataFileHeader (bh_version header)) else mret header.

(** [Database::createFile]: the space is allocated.  A named temporary file that is
    there already is opened. *)
Definition createNamedDataFile (blockId : Z) : CM unit := modify (fun s =>
  let old := default [] (c_files s !! tmpDataFile blockId) in
  set_files (<[tmpDataFile blockId := old ++ repeat 0 (Z.to_nat (uw 32 (A + kDefaultDataAreaOffset) - len old))]> (c_files s)) (c_room s) s).

(** The file is created with its size; when its header was written it is linked
    into the directory, or renamed. *)
Definition createDataFile (h : ColumnDataBlockHeader) : CM unit :=
  let id := fb_blockId (m_fullColumnDataBlockId h) in
  let buffer := block_header_serialize h in
  let rest := repeat 0 (Z.to_nat (kDefaultDataAreaOffset - kColumnDataBlockHeaderSize)) in
  (** O_TMPFILE not supported, fallback to the named temporary file *)
  (if cp_tmpFile P then mret tt else createNamedDataFile id) ;;'
  new_file_write id buffer 0 ;;'
  new_file_write id rest kColumnDataBlockHeaderSize ;;'
  fs <-- gets c_files ;;
  if cp_tmpFile P then
    match fs !! id with
    | Some _ => mthrow CannotCreateColumnDataBlockFile
    | None =>
        let content := pwrite (pwrite (repeat 0 (Z.to_nat (uw 32 (A + kDefaultDataAreaOffset)))) 0 buffer) kColumnDataBlockHeaderSize rest in
        modify (fun s => set_files (<[id := content]> (c_files s)) (c_room s) s)
    end
  else modify (fun s => set_files (<[id := default [] (fs !! tmpDataFile id)]> (delete (tmpDataFile id) (c_files s))) (c_room s) s).

Definition openDataFile (blockId : Z) : CM unit :=
  fs <-- gets c_files ;;
  match fs !! blockId with Some _ => mret tt | None => mthrow (CannotOpenColumnDataBlockFile blockId) end.

Definition generateNextBlockId : CM Z := fun s =>
  let id := uw 64 (c_lastBlockId s + 1) in (Ok id, set_counters id (c_ticks s) s).

(** The constructor of a new block, and of an existing one. *)
Definition ColumnDataBlock_create (prevBlockId : Z) (state : ColumnDataBlockState) : CM nat :=
  id <-- generateNextBlockId ;;
  let h := new_header id in
  createDataFile h ;;'
  h <-- loadHeader h ;;
  new_block {| m_header := h; cb_prevBlockId := prevBlockId; m_state := state; m_headerModified := false; m_dataModified := false |}.

Definition ColumnDataBlock_open (id : Z) : CM nat :=
  prevBlockId <-- registry_call (findPrevBlockId id) ;;
  openDataFile id ;;'
  h <-- loadHeader (new_header id) ;;
  new_block {| m_header := h; cb_prevBlockId := prevBlockId; m_state := kCreating; m_headerModified := false; m_dataModified := false |}.

(** *** Block management of [Column] *)

Definition cache_get (blockId : Z) : CM (option nat) := fun s =>
  let '(r, c) := bc_get (m_blockCache s) blockId in (Ok r, set_bcache c s).
Definition cache_emplace (pins : list nat) (blockId : Z) (ptr : nat) : CM unit := fun s =>
  match bc_emplace pins (m_blockCache s) blockId ptr with
  | Ok c => (Ok tt, set_bcache c s) | Throw e => (Throw (BlockCacheFailed e), s) | Undef u => (Undef u, s)
  end.

Definition createBlock (pins : list nat) (prevBlockId : Z) (state : ColumnDataBlockState) : CM nat :=
  block <-- ColumnDataBlock_create prevBlockId state ;;
  id <-- getId block ;;
  cache_emplace pins id block ;;'
  registry_call (recordBlockAndNextBlock id prevBlockId kCreating) ;;'
  mret block.

Definition loadBlock (pins : list nat) (blockId : Z) : CM nat :=
  block <-- cache_get blockId ;;
  match block with
  | Some ptr => mret ptr
  | None =>
      ptr <-- ColumnDataBlock_open blockId ;;
      id <-- getId ptr ;;
      cache_emplace pins id ptr ;;'
      mret ptr
  end.

Definition updateAvailableBlock (ptr : nat) : CM unit :=
  freeSpace <-- getFreeDataSpace ptr ;;
  id <-- getId ptr ;;
  modify (fun s => set_available
    (match avail_find id (m_availableDataBlocks s) with
     | None => avail_emplace id freeSpace (m_availableDataBlocks s)
     | Some _ => avail_assign id freeSpace (m_availableDataBlocks s)
     end) s).

(** The loop over the next blocks, the newest first. *)
Fixpoint find_next (block : nat) (requiredFreeSpace : Z) (ids : list Z) : CM (option nat) :=
  match ids with
  | [] => mret None
  | id :: ids' =>
      candidate <-- loadBlock [block] id ;;
      b <-- get_block candidate ;;
      freeSpace <-- getFreeDataSpace candidate ;;
      if (match m_state b with kCurrent | kAvailable => true | _ => false end) && (freeSpace >=? requiredFreeSpace)
      then mret (Some candidate) else find_next block requiredFreeSpace ids'
  end.

Definition kInitialPrevBlockDigest : list Z := repeat 0 64.

Definition createOrGetNextBlock (block : nat) (requiredFreeSpace : Z) : CM nat :=
  if requiredFreeSpace =? 0 then mthrow RequiredFreeSpaceIsZero else
  if requiredFreeSpace >? A then mthrow RequiredFreeSpaceIsTooLarge else
  b <-- get_block block ;;
  let id := block_id b in
  nextBlockIds <-- registry_call (findNextBlockIds id) ;;
  nextBlock <-- find_next block requiredFreeSpace (reverse nextBlockIds) ;;
  nextBlock <-- (match nextBlock with Some p => mret p | None => createBlock [block] id kCreating end) ;;
  let prevBlockId := cb_prevBlockId b in
  prevBlockDigest <-- (if prevBlockId =? 0 then mret kInitialPrevBlockDigest else
    prevBlock <-- cache_get prevBlockId ;;
    match prevBlock with
    | None => mthrow (ColumnDataBlockNotAvailable prevBlockId)
    | Some p => pb <-- get_block p ;; mret (m_digest (m_header pb))
    end) ;;
  finalize block prevBlockDigest ;;'
  modify (fun s => set_available (avail_erase id (m_availableDataBlocks s)) s) ;;'
  updateAvailableBlock nextBlock ;;'
  mret nextBlock.

(** The loop over the available blocks: the first with enough space, otherwise
    the one with the most. *)
Fixpoint scan_available (requiredLength : Z) (best : Z * Z) (l : list (Z * Z)) : Z * Z * bool :=
  match l with
  | [] => (best, false)
  | e :: l' => if e.2 >=? requiredLength then (e, true) else scan_available requiredLength (if best.2 <? e.2 then e else best) l'
  end.

Definition selectAvailableBlock (requiredLength : Z) : CM nat :=
  available <-- gets m_availableDataBlocks ;;
  match available with
  | [] =>
      block <-- createBlock [] 0 kCurrent ;;
      id <-- getId block ;;
      freeSpace <-- getFreeDataSpace block ;;
      modify (fun s => set_available (avail_emplace id freeSpace (m_availableDataBlocks s)) s) ;;'
      mret block
  | first :: _ =>
      let '(e, enough) := scan_available requiredLength first available in
      block <-- loadBlock [] e.1 ;;
      if (enough : bool) then mret block else
      id <-- getId block ;;
      modify (fun s => set_available (avail_erase id (m_availableDataBlocks s)) s) ;;'
      createOrGetNextBlock block requiredLength
  end.

(** *** Rollback *)

(** The loop that empties the blocks after the address: the block that the local
    variable refers to when it ends. *)
Fixpoint rollback_loop (fuel : nat) (addrBlockId currentBlockId : Z) (block : nat) : CM nat :=
  if currentBlockId =? addrBlockId then mret block else
  match fuel with
  | O => mlift (Undef NoProgress)
  | S n =>
      block <-- loadBlock [block] currentBlockId ;;
      setNextDataPos block 0 ;;'
      resetFillTimestamp block ;;'
      writeHeader block ;;'
      updateAvailableBlock block ;;'
      b <-- get_block block ;;
      if cb_prevBlockId b =? 0 then mthrow UnreachableRollbackDataBlockPosition
      else rollback_loop n addrBlockId (cb_prevBlockId b) block
  end.

(** [fuel] bounds the blocks of the chain. *)
Definition rollbackToAddress (fuel : nat) (addr : ColumnDataAddress) (firstAvailableBlockId : Z) : CM unit :=
  available <-- gets m_availableDataBlocks ;;
  match avail_find firstAvailableBlockId available with
  | None => mthrow (InvalidCurrentDataBlock firstAvailableBlockId)
  | Some _ =>
      if m_blockId addr >? firstAvailableBlockId then mthrow InvalidRollbackDataBlockPosition else
      block <-- loadBlock [] (m_blockId addr) ;;
      if m_offset addr >=? A then mthrow (InvalidDataBlockPosition (m_blockId addr) (m_offset addr)) else
      block <-- rollback_loop fuel (m_blockId addr) firstAvailableBlockId block ;;
      setNextDataPos block (m_offset addr) ;;'
      id <-- getId block ;;
      (if negb (id =? firstAvailableBlockId) then resetFillTimestamp block ;;' writeHeader block else mret tt) ;;'
      updateAvailableBlock block
  end.

(** A new column, and the part of the constructor that opens an existing one
    before [checkDataConsistency]. *)
Definition new_column (cache : C) (room reg_room : option Z) : state :=
  {| c_files := ∅; c_room := room; c_blocks := []; m_blockCache := cache; m_availableDataBlocks := [];
     m_blockRegistry := new_registry reg_room; c_lastBlockId := 0; c_ticks := 0 |}.
Definition open_column (cache : C) (files : gmap Z (list Z)) (reg : registry) (room : option Z) : state :=
  {| c_files := files; c_room := room; c_blocks := []; m_blockCache := cache; m_availableDataBlocks := [];
     m_blockRegistry := reg; c_lastBlockId := m_lastBlockId reg; c_ticks := 0 |}.
End Column.
