(* ===== verification/ColumnData.v ===== *)
(** * Reading and writing column values

    Models [Column_DataIO.cpp], [ColumnLobStream] and the consistency check of
    [Column_General.cpp].  A value is converted to the type of the column and
    appended to an available block.  Text and binary values are chains of chunks,
    each with a header; [writeRecord] holds an iterator into the map of available
    blocks across the writing of such a chain. *)

From stdpp Require Import base list gmap.
Set Warnings "-clear-no-such-hyp,-notation-incompatible-prefix,-notation-for-abbreviation".
From Stdlib Require Import ZArith Lia.
From S2P Require Import Prelude StateM Bytes VarInt PlainBinary Codec ColumnRecords CNum RawDateTime VariantType Lob Variant VariantConv ColumnType ExprEval.
From S2P Require Import LruCache BlockRegistry Column.

Local Open Scope Z_scope.

(** [s_minRequiredBlockFreeSpaces], an array with an entry for each column type:
    the entries that are not given are 0. *)
Definition s_minRequiredBlockFreeSpaces : list Z := [1; 1; 1; 2; 2; 4; 4; 8; 8; 4; 8; 10; 10; 10].
Definition min_required (t : ColumnDataType) : Z := nth (Z.to_nat (column_code t)) s_minRequiredBlockFreeSpaces 0.

(** What a column of fixed-size values stores for a value of its type, and the
    value of stored bytes.  [asUInt8] makes a signed variant: the unsigned member
    of the union is read from it. *)
Definition encode_fixed {E} (t : ColumnDataType) (v : Variant) : outcome E (list Z) :=
  match t, v with
  | COLUMN_DATA_TYPE_BOOL, VBool b => Ok [if b then 1 else 0]
  | COLUMN_DATA_TYPE_INT8, VNum (CI I8 z) => Ok [uw 8 z]
  | COLUMN_DATA_TYPE_UINT8, VNum (CI U8 z) | COLUMN_DATA_TYPE_UINT8, VNum (CI I8 z) => Ok [uw 8 z]
  | COLUMN_DATA_TYPE_INT16, VNum (CI I16 z) => Ok (pbeEncodeInt16 z)
  | COLUMN_DATA_TYPE_UINT16, VNum (CI U16 z) => Ok (pbeEncodeUInt16 z)
  | COLUMN_DATA_TYPE_INT32, VNum (CI I32 z) => Ok (pbeEncodeInt32 z)
  | COLUMN_DATA_TYPE_UINT32, VNum (CI U32 z) => Ok (pbeEncodeUInt32 z)
  | COLUMN_DATA_TYPE_INT64, VNum (CI I64 z) => Ok (pbeEncodeInt64 z)
  | COLUMN_DATA_TYPE_UINT64, VNum (CI U64 z) => Ok (pbeEncodeUInt64 z)
  | COLUMN_DATA_TYPE_FLOAT, VNum (CF F32 x) => Ok (pbeEncodeFloat (float_bits F32 x))
  | COLUMN_DATA_TYPE_DOUBLE, VNum (CF F64 x) => Ok (pbeEncodeDouble (float_bits F64 x))
  | COLUMN_DATA_TYPE_TIMESTAMP, VDateTime d => Ok (serialize d)
  | _, _ => Undef Uninitialized
  end.

Definition fixed_size (t : ColumnDataType) : Z :=
  match t with
  | COLUMN_DATA_TYPE_BOOL | COLUMN_DATA_TYPE_INT8 | COLUMN_DATA_TYPE_UINT8 => 1
  | COLUMN_DATA_TYPE_INT16 | COLUMN_DATA_TYPE_UINT16 => 2
  | COLUMN_DATA_TYPE_INT32 | COLUMN_DATA_TYPE_UINT32 | COLUMN_DATA_TYPE_FLOAT => 4
  | _ => 8
  end.

Definition decode_fixed {E} (t : ColumnDataType) (b : list Z) : outcome E Variant :=
  match t with
  | COLUMN_DATA_TYPE_BOOL => v <- rd b 0 ;; Ok (VBool (negb (v =? 0)))
  | COLUMN_DATA_TYPE_INT8 => v <- rd b 0 ;; Ok (VNum (CI I8 (sw 8 v)))
  | COLUMN_DATA_TYPE_UINT8 => v <- rd b 0 ;; Ok (VNum (CI U8 v))
  | COLUMN_DATA_TYPE_INT16 => v <- pbeDecodeInt16 b ;; Ok (VNum (CI I16 v))
  | COLUMN_DATA_TYPE_UINT16 => v <- pbeDecodeUInt16 b ;; Ok (VNum (CI U16 v))
  | COLUMN_DATA_TYPE_INT32 => v <- pbeDecodeInt32 b ;; Ok (VNum (CI I32 v))
  | COLUMN_DATA_TYPE_UINT32 => v <- pbeDecodeUInt32 b ;; Ok (VNum (CI U32 v))
  | COLUMN_DATA_TYPE_INT64 => v <- pbeDecodeInt64 b ;; Ok (VNum (CI I64 v))
  | COLUMN_DATA_TYPE_UINT64 => v <- pbeDecodeUInt64 b ;; Ok (VNum (CI U64 v))
  | COLUMN_DATA_TYPE_FLOAT => v <- pbeDecodeFloat b ;; Ok (VNum (CF F32 (bits_float F32 v)))
  | COLUMN_DATA_TYPE_DOUBLE => v <- pbeDecodeDouble b ;; Ok (VNum (CF F64 (bits_float F64 v)))
  | _ => Undef Uninitialized
  end.

Record WriteRecordResult : Type := { m_dataAddress : ColumnDataAddress; m_nextAddress : ColumnDataAddress }.
Definition null_result : WriteRecordResult := {| m_dataAddress := kNullValueAddress; m_nextAddress := kNullValueAddress |}.

(** A value in the type of the column; LOBs may be views of other LOBs. *)
Inductive ConvertedValue : Type :=
| Plain (v : Variant)
| AsClob (c : clob_value)
| AsBlob (b : blob_value).

Record ColumnLobStream : Type := {
  m_startingAddress : ColumnDataAddress;
  m_chunkHeader : LobChunkHeader;
  m_offsetInChunk : Z;
  cl_blockId : Z;
  m_offsetInBlock : Z;
  m_chunkId : Z;
  cl_size : Z;
  cl_pos : Z
}.

(** What is read: a value, or a stream over the column. *)
Inductive ReadValue : Type :=
| RValue (v : Variant)
| RClob (s : ColumnLobStream)
| RBlob (s : ColumnLobStream).

Definition kMaxStringLength : Z := 0xFFFF.
Definition kMaxClobLength : Z := 0xFFFFFFFF.
Definition kSmallLobSizeLimit : Z := 0x100000.
Definition kBlockFreeSpaceThresholdForLob : Z := 0x100.

Section Data.
Context {C : Type} `{BC : BlockCache C} {X : Externals} (P : column_params) (m_dataType : ColumnDataType) (m_notNull : bool).
Context (sha256 : list Z -> list Z) (time : nat -> Z) (uninitialized : Z).
Notation state := (column_state C).
Notation A := (m_dataBlockDataAreaSize P).
Notation CM := (CM (C := C)).

(** ** Conversion to the type of the column *)

Definition convert_value (value : Variant) : outcome VariantError ConvertedValue :=
  let plain {T} (c : outcome VariantError T * Variant) (k : T -> Variant) : outcome VariantError ConvertedValue :=
    x <- fst c ;; Ok (Plain (k x)) in
  let unless t c := if VariantType_eqb (getValueType value) t then Ok (Plain value) else c in
  match m_dataType with
  | COLUMN_DATA_TYPE_BOOL => unless kBool (plain (asBool ext_buffer value) VBool)
  | COLUMN_DATA_TYPE_INT8 => unless kInt8 (plain (asInt8 ext_buffer value) (fun z => VNum (CI I8 z)))
  | COLUMN_DATA_TYPE_UINT8 => unless kUInt8 (plain (asUInt8 ext_buffer value) (fun z => VNum (CI I8 z)))
  | COLUMN_DATA_TYPE_INT16 => unless kInt16 (plain (asInt16 ext_buffer false value) (fun z => VNum (CI I16 z)))
  | COLUMN_DATA_TYPE_UINT16 => unless kUInt16 (plain (asUInt16 ext_buffer false value) (fun z => VNum (CI U16 z)))
  | COLUMN_DATA_TYPE_INT32 => unless kInt32 (plain (asInt32 ext_buffer false value) (fun z => VNum (CI I32 z)))
  | COLUMN_DATA_TYPE_UINT32 => unless kUInt32 (plain (asUInt32 ext_buffer false value) (fun z => VNum (CI U32 z)))
  | COLUMN_DATA_TYPE_INT64 => unless kInt64 (plain (asInt64 ext_buffer false value) (fun z => VNum (CI I64 z)))
  | COLUMN_DATA_TYPE_UINT64 => unless kUInt64 (plain (asUInt64 ext_buffer false value) (fun z => VNum (CI U64 z)))
  | COLUMN_DATA_TYPE_FLOAT => unless kFloat (plain (asFloat ext_buffer ext_stof value) (fun x => VNum (CF F32 x)))
  | COLUMN_DATA_TYPE_DOUBLE => unless kDouble (plain (asDouble ext_buffer ext_stod value) (fun x => VNum (CF F64 x)))
  | COLUMN_DATA_TYPE_TEXT =>
      let text := plain (asString ext_buffer ext_print_float ext_date_format value) VString in
      let clob := c <- fst (asClob ext_buffer ext_print_float ext_date_format value) ;; Ok (AsClob c) in
      match value with
      | VString _ | VClob _ => Ok (Plain value)
      | VBinary b => if len b <=? kMaxStringLength / 2 then text else clob
      | VBlob l => if getRemainingSize l >? kMaxClobLength / 2 then Throw StdInvalidArgument else clob
      | _ => text
      end
  | COLUMN_DATA_TYPE_BINARY =>
      match value with
      | VBinary _ | VBlob _ => Ok (Plain value)
      | VClob _ => b <- fst (asBlob ext_buffer value) ;; Ok (AsBlob b)
      | _ => plain (asBinary ext_buffer value) VBinary
      end
  | COLUMN_DATA_TYPE_TIMESTAMP =>
      unless kDateTime (plain (asDateTime ext_buffer ext_date_parse ext_ymd ext_weekday ext_gmtime ext_uninit value) VDateTime)
  | _ => Throw StdInvalidArgument
  end.

(** The handlers of the conversion: casts, then other logic errors. *)
Definition conversion_error {T} (value : Variant) (c : outcome VariantError T) : outcome ColumnError T :=
  match c with
  | Ok v => Ok v
  | Throw (VariantTypeCastError src dst) => Throw (IncompatibleDataType1 dst src)
  | Throw (WrongVariantTypeError _) | Throw StdInvalidArgument => Throw (IncompatibleDataType2 (getValueType value))
  | Throw e => Throw (VariantFailed e)
  | Undef u => Undef u
  end.

(** ** Chains of chunks *)

Record chunk_state : Type := {
  ch_block : nat;
  ch_first : bool;
  ch_result : ColumnDataAddress;
  ch_lastHeader : LobChunkHeader;
  ch_lastHeaderPos : Z
}.

Definition chunk_header (remaining chunk : Z) : LobChunkHeader :=
  {| m_remainingLobLength := remaining; m_chunkLength := chunk; m_nextChunkBlockId := 0; m_nextChunkOffset := 0 |}.

(** A block with room for a chunk: the part of both loops before the chunk is
    written.  The address of the value is set only when the first block has no
    room for a header, and then to the end of that block. *)
Definition chunk_block (c : chunk_state) : CM chunk_state :=
  let block := ch_block c in
  freeSpace <-- getFreeDataSpace P block ;;
  if freeSpace <? kLobChunkHeaderSize then
    newBlock <-- createOrGetNextBlock P sha256 time uninitialized block (kLobChunkHeaderSize + kBlockFreeSpaceThresholdForLob) ;;
    result <-- (if ch_first c then
        id <-- getId block ;; pos <-- getNextDataPos block ;;
        mret {| m_blockId := id; m_offset := pos |}
      else
        id <-- getId newBlock ;; pos <-- getNextDataPos newBlock ;;
        let h := {| m_remainingLobLength := m_remainingLobLength (ch_lastHeader c); m_chunkLength := m_chunkLength (ch_lastHeader c);
                    m_nextChunkBlockId := id; m_nextChunkOffset := pos |} in
        block_writeData P block (lob_header_serialize h) (ch_lastHeaderPos c) ;;'
        mret (ch_result c)) ;;
    mret {| ch_block := newBlock; ch_first := ch_first c; ch_result := result;
            ch_lastHeader := ch_lastHeader c; ch_lastHeaderPos := ch_lastHeaderPos c |}
  else mret c.

(** The header of the next chunk, with its position. *)
Definition write_chunk_header (c : chunk_state) (remaining : Z) : CM (LobChunkHeader * Z) :=
  let block := ch_block c in
  freeSpace <-- getFreeDataSpace P block ;;
  let header := chunk_header remaining (Z.min (uw 32 (freeSpace - kLobChunkHeaderSize)) remaining) in
  pos <-- getNextDataPos block ;;
  block_append P block (lob_header_serialize header) ;;'
  incNextDataPos P block kLobChunkHeaderSize ;;'
  mret (header, pos).

Definition next_chunk (c : chunk_state) (header : LobChunkHeader) (pos : Z) : chunk_state :=
  {| ch_block := ch_block c; ch_first := false; ch_result := ch_result c; ch_lastHeader := header; ch_lastHeaderPos := pos |}.

Definition chain_result (c : chunk_state) : CM WriteRecordResult :=
  id <-- getId (ch_block c) ;;
  pos <-- getNextDataPos (ch_block c) ;;
  mret {| m_dataAddress := ch_result c; m_nextAddress := {| m_blockId := id; m_offset := pos |} |}.

Definition first_chunk (block : nat) : chunk_state :=
  {| ch_block := block; ch_first := true; ch_result := kNullValueAddress; ch_lastHeader := chunk_header 0 0; ch_lastHeaderPos := 0 |}.

Fixpoint writeBuffer_loop (fuel : nat) (src : list Z) (c : chunk_state) : CM WriteRecordResult :=
  match fuel with
  | O => mlift (Undef NoProgress)
  | S n =>
      let length := len src in
      c <-- chunk_block c ;;
      '(header, pos) <-- write_chunk_header c length ;;
      let k := m_chunkLength header in
      (if k >? 0 then block_append P (ch_block c) (take (Z.to_nat k) src) ;;' incNextDataPos P (ch_block c) k else mret tt) ;;'
      let c := next_chunk c header pos in
      if length - k >? 0 then writeBuffer_loop n (drop (Z.to_nat k) src) c else chain_result c
  end.

(** Every second chunk at least has data. *)
Definition writeBuffer (src : list Z) (block : nat) : CM WriteRecordResult :=
  writeBuffer_loop (2 * length src + 2) src (first_chunk block).

Section Lob.
Context {S : Type} `{LobStream S}.

(** The loop that reads a chunk of the LOB into the data buffer. *)
Fixpoint read_chunk (fuel : nat) (lob : S) (mem : list Z) (pos remainingToRead : Z) : outcome ColumnError (list Z * S) :=
  if remainingToRead >? 0 then
    match fuel with
    | O => Undef NoProgress
    | Datatypes.S n =>
        '(m, actuallyRead, lob) <- read lob (drop (Z.to_nat pos) mem) remainingToRead ;;
        if actuallyRead <? 1 then Throw LobReadFailed else
        read_chunk n lob (take (Z.to_nat pos) mem ++ m) (pos + actuallyRead) (uw 64 (remainingToRead - actuallyRead))
    end
  else Ok (mem, lob).

Fixpoint writeLob_loop (fuel : nat) (lob : S) (dataBuffer : list Z) (c : chunk_state) : CM WriteRecordResult :=
  match fuel with
  | O => mlift (Undef NoProgress)
  | Datatypes.S n =>
      let remainingLobSize := getRemainingSize lob in
      c <-- chunk_block c ;;
      '(header, pos) <-- write_chunk_header c remainingLobSize ;;
      let k := m_chunkLength header in
      '(dataBuffer, lob) <-- (if k >? 0 then
          '(mem, lob) <-- mlift (read_chunk (Z.to_nat k) lob dataBuffer 0 k) ;;
          data <-- mlift (memrd mem 0 k) ;;
          block_append P (ch_block c) data ;;'
          incNextDataPos P (ch_block c) k ;;'
          mret (mem, lob)
        else mret (dataBuffer, lob)) ;;
      let c := next_chunk c header pos in
      if getRemainingSize lob >? 0 then writeLob_loop n lob dataBuffer c else chain_result c
  end.

Definition writeLob (lob : S) (block : nat) : CM WriteRecordResult :=
  writeLob_loop (Z.to_nat (2 * getRemainingSize lob + 2)) lob (ext_buffer A) (first_chunk block).
End Lob.

Definition writeClob (c : clob_value) (block : nat) : CM WriteRecordResult :=
  match c with ClobOwn l => writeLob l block | ClobOfBlob w => writeLob w block end.
Definition writeBlob (b : blob_value) (block : nat) : CM WriteRecordResult :=
  match b with BlobOwn l => writeLob l block | BlobOfClob w => writeLob w block end.

(** ** Writing a value *)

(** [itBlock->second = block->getFreeDataSpace()], through the iterator that was
    found before the value was written. *)
Definition update_found (id : Z) (block : nat) : CM unit :=
  available <-- gets m_availableDataBlocks ;;
  match avail_find id available with
  | None => mlift (Undef Dangling)
  | Some _ =>
      freeSpace <-- getFreeDataSpace P block ;;
      modify (fun s => set_available (avail_assign id freeSpace (m_availableDataBlocks s)) s)
  end.

Definition required_length : Z := match m_dataType with COLUMN_DATA_TYPE_TIMESTAMP => 12 | t => min_required t end.

(** Writes the converted value.  [Some r]: the result is returned at once. *)
Definition write_converted (v : ConvertedValue) (block : nat) : CM (option WriteRecordResult) :=
  let lob c := r <-- c ;; mret (Some r) in
  match m_dataType, v with
  | COLUMN_DATA_TYPE_TEXT, Plain (VString s) => writeBuffer s block ;;' mret None
  | COLUMN_DATA_TYPE_TEXT, Plain (VClob l) => lob (writeLob l block)
  | COLUMN_DATA_TYPE_TEXT, AsClob c => lob (writeClob c block)
  | COLUMN_DATA_TYPE_BINARY, Plain (VBinary s) => writeBuffer s block ;;' mret None
  | COLUMN_DATA_TYPE_BINARY, Plain (VBlob l) => lob (writeLob l block)
  | COLUMN_DATA_TYPE_BINARY, AsBlob b => lob (writeBlob b block)
  | t, Plain v =>
      bytes <-- mlift (encode_fixed t v) ;;
      block_append P block bytes ;;'
      incNextDataPos P block required_length ;;'
      mret None
  | _, _ => mlift (Undef Uninitialized)
  end.

Definition writeRecord (value : Variant) : CM WriteRecordResult :=
  if isNull value then (if m_notNull then mthrow CannotInsertNullValue else mret null_result) else
  v <-- mlift (conversion_error value (convert_value value)) ;;
  block <-- selectAvailableBlock P sha256 time uninitialized required_length ;;
  id <-- getId block ;;
  available <-- gets m_availableDataBlocks ;;
  match avail_find id available with
  | None => mthrow (CannotFindAvailableBlockRecord id)
  | Some _ =>
      pos <-- getNextDataPos block ;;
      result <-- write_converted v block ;;
      match result with
      | Some r => mret r
      | None =>
          update_found id block ;;'
          next <-- getNextDataPos block ;;
          mret {| m_dataAddress := {| m_blockId := id; m_offset := pos |}; m_nextAddress := {| m_blockId := id; m_offset := next |} |}
      end
  end.

(** ** LOB streams *)

Definition loadLobChunkHeaderUnlocked (block : nat) (offset : Z) : CM (LobChunkHeader * Z) :=
  if uw 32 (A - offset) <? kLobChunkHeaderSize then mthrow InvalidLobChunkHeaderAddress else
  buffer <-- block_readData P block kLobChunkHeaderSize offset ;;
  h <-- mlift (lob_header_deserialize buffer) ;;
  let offsetInBlock := offset + kLobChunkHeaderSize in
  if m_chunkLength h >? m_remainingLobLength h then mthrow InvalidLobChunkHeader else
  if m_chunkLength h >? A - offsetInBlock then mthrow InvalidLobChunkHeader else
  last <-- gets (fun s => m_lastBlockId (m_blockRegistry s)) ;;
  if m_nextChunkBlockId h >? last then mthrow InvalidLobChunkHeader else
  if m_nextChunkOffset h >? uw 64 (A - kLobChunkHeaderSize) then mthrow InvalidLobChunkHeader else
  mret (h, uw 32 offsetInBlock).

Definition findExistingBlock (blockId : Z) : CM nat := loadBlock P uninitialized [] blockId.

Definition loadLobChunkHeader (blockId offset : Z) : CM (LobChunkHeader * Z) :=
  block <-- findExistingBlock blockId ;; loadLobChunkHeaderUnlocked block offset.

Definition readData (blockId offset bufferSize : Z) : CM (list Z) :=
  block <-- findExistingBlock blockId ;; block_readData P block bufferSize offset.

Definition new_ColumnLobStream (addr : ColumnDataAddress) : CM ColumnLobStream :=
  '(h, off) <-- loadLobChunkHeader (m_blockId addr) (m_offset addr) ;;
  mret {| m_startingAddress := addr; m_chunkHeader := h; m_offsetInChunk := 0; cl_blockId := m_blockId addr; m_offsetInBlock := off;
          m_chunkId := 1; cl_size := m_remainingLobLength h; cl_pos := 0 |}.

Definition stream_remaining (s : ColumnLobStream) : Z := uw 32 (cl_size s - cl_pos s).

(** The step to the next chunk. *)
Definition next_lob_chunk (s : ColumnLobStream) : CM ColumnLobStream :=
  let id := m_nextChunkBlockId (m_chunkHeader s) in
  if id =? 0 then mthrow InvalidLobChunkHeader else
  '(h, off) <-- loadLobChunkHeader id (m_nextChunkOffset (m_chunkHeader s)) ;;
  if negb (m_remainingLobLength h =? stream_remaining s) then mthrow InvalidLobChunkHeader else
  if m_chunkLength h =? 0 then mthrow InvalidLobChunkHeader else
  last <-- gets (fun s => m_lastBlockId (m_blockRegistry s)) ;;
  if m_nextChunkBlockId h >=? last then mthrow InvalidLobChunkHeader else
  if m_nextChunkOffset h >=? A then mthrow InvalidLobChunkHeader else
  mret {| m_startingAddress := m_startingAddress s; m_chunkHeader := h; m_offsetInChunk := 0; cl_blockId := id; m_offsetInBlock := off;
          m_chunkId := uw 32 (m_chunkId s + 1); cl_size := cl_size s; cl_pos := cl_pos s |}.

(** The loop of [readInternal]: the bytes that are stored in the buffer. *)
Fixpoint read_chunks (fuel : nat) (s : ColumnLobStream) (remainingBytes : Z) : CM (list Z * ColumnLobStream) :=
  match fuel with
  | O => mlift (Undef NoProgress)
  | S n =>
      let availableInChunk := uw 32 (m_chunkLength (m_chunkHeader s) - m_offsetInChunk s) in
      '(bytes, s, remainingBytes) <-- (if availableInChunk >? 0 then
          let k := Z.min availableInChunk remainingBytes in
          bytes <-- readData (cl_blockId s) (m_offsetInBlock s) k ;;
          mret (bytes, {| m_startingAddress := m_startingAddress s; m_chunkHeader := m_chunkHeader s;
                   m_offsetInChunk := uw 32 (m_offsetInChunk s + k); cl_blockId := cl_blockId s; m_offsetInBlock := uw 32 (m_offsetInBlock s + k);
                   m_chunkId := m_chunkId s; cl_size := cl_size s; cl_pos := uw 32 (cl_pos s + k) |}, remainingBytes - k)
        else mret ([], s, remainingBytes)) ;;
      if (availableInChunk >? 0) && (remainingBytes =? 0) then mret (bytes, s) else
      s <-- next_lob_chunk s ;;
      '(more, s) <-- read_chunks n s remainingBytes ;;
      mret (bytes ++ more, s)
  end.

Definition readInternal (s : ColumnLobStream) (bufferSize : Z) : CM (list Z * ColumnLobStream) :=
  let totalBytesToRead := Z.min bufferSize (stream_remaining s) in
  if totalBytesToRead =? 0 then mret ([], s) else read_chunks (Z.to_nat totalBytesToRead + 1) s totalBytesToRead.

(** The position [m_pos] is not reset. *)
Definition doRewind (s : ColumnLobStream) : CM ColumnLobStream :=
  let addr := m_startingAddress s in
  '(h, off) <-- loadLobChunkHeader (m_blockId addr) (m_offset addr) ;;
  mret {| m_startingAddress := addr; m_chunkHeader := h; m_offsetInChunk := 0; cl_blockId := m_blockId addr; m_offsetInBlock := off;
          m_chunkId := 1; cl_size := cl_size s; cl_pos := cl_pos s |}.

(** [loadText] and [loadBinary]: [small] makes a value of the bytes, [large] of
    the stream. *)
Definition load_lob (addr : ColumnDataAddress) (small : list Z -> Variant) (large : ColumnLobStream -> ReadValue) : CM ReadValue :=
  block <-- findExistingBlock (m_blockId addr) ;;
  '(chunkHeader, _) <-- loadLobChunkHeaderUnlocked block (m_offset addr) ;;
  let length := m_remainingLobLength chunkHeader in
  if length =? 0 then mret (RValue (small []))
  else if length <? kSmallLobSizeLimit then
    stream <-- new_ColumnLobStream addr ;;
    '(bytes, _) <-- readInternal stream length ;;
    mret (RValue (small bytes))
  else
    stream <-- new_ColumnLobStream addr ;;
    mret (large stream).

(** The text is cut at its first NUL. *)
Definition loadText (addr : ColumnDataAddress) : CM ReadValue := load_lob addr (fun b => VString (c_str b)) RClob.
Definition loadBinary (addr : ColumnDataAddress) : CM ReadValue := load_lob addr VBinary RBlob.

(** ** Reading a value *)

Definition read_timestamp (block : nat) (offset : Z) : CM ReadValue :=
  buffer <-- block_readData P block 4 offset ;;
  v <-- mlift (deserializeDatePart ext_uninit buffer) ;;
  if m_hasTimePart (m_datePart v) then
    rest <-- block_readData P block 6 (uw 32 (offset + 4)) ;;
    '(v, _) <-- mlift (RawDateTime.deserialize v (buffer ++ rest) 10) ;;
    mret (RValue (VDateTime v))
  else mret (RValue (VDateTime v)).

Definition readRecord (addr : ColumnDataAddress) : CM ReadValue :=
  if isNullValueAddress addr then mret (RValue VNull) else
  block <-- findExistingBlock (m_blockId addr) ;;
  if uw 32 (m_offset addr + min_required m_dataType) >=? A then mthrow (InvalidDataBlockPosition (m_blockId addr) (m_offset addr)) else
  match m_dataType with
  | COLUMN_DATA_TYPE_TEXT => loadText addr
  | COLUMN_DATA_TYPE_BINARY => loadBinary addr
  | COLUMN_DATA_TYPE_TIMESTAMP => read_timestamp block (m_offset addr)
  | COLUMN_DATA_TYPE_BOOL | COLUMN_DATA_TYPE_INT8 | COLUMN_DATA_TYPE_UINT8 | COLUMN_DATA_TYPE_INT16 | COLUMN_DATA_TYPE_UINT16
  | COLUMN_DATA_TYPE_INT32 | COLUMN_DATA_TYPE_UINT32 | COLUMN_DATA_TYPE_INT64 | COLUMN_DATA_TYPE_UINT64
  | COLUMN_DATA_TYPE_FLOAT | COLUMN_DATA_TYPE_DOUBLE =>
      bytes <-- block_readData P block (fixed_size m_dataType) (m_offset addr) ;;
      v <-- mlift (decode_fixed m_dataType bytes) ;;
      mret (RValue v)
  | _ => mthrow LogicErrorInvalidDataType
  end.

(** ** Master column records *)

(** [decodeVarUInt16] leaves the size 0 when it fails, and the result of
    [deserialize] is not looked at. *)
Definition readMasterColumnRecord (addr : ColumnDataAddress) (record : MasterColumnRecord) : CM MasterColumnRecord :=
  block <-- findExistingBlock (m_blockId addr) ;;
  let offset := m_offset addr in
  b <-- block_readData P block 1 offset ;;
  b0 <-- mlift (rd b 0) ;;
  '(buffer, offset) <-- (if b0 >=? 0x80 then
      b <-- block_readData P block 1 (uw 32 (offset + 1)) ;; b1 <-- mlift (rd b 0) ;; mret ([b0; b1], uw 32 (offset + 2))
    else mret ([b0; uw 8 uninitialized], uw 32 (offset + 1))) ;;
  d <-- mlift (lift (decodeVarUInt16 buffer 2)) ;;
  let recordSize := match d with Consumed _ v => v | _ => 0 end in
  if recordSize >? kMaxSerializedSize then mthrow (InvalidMasterColumnRecordSize recordSize) else
  data <-- block_readData P block recordSize offset ;;
  '(record, _) <-- mlift (mcr_deserialize record data recordSize) ;;
  mret record.

(** ** The consistency check when a column is opened *)

(** Temporary files are ignored. *)
Definition findFirstBlock : CM Z := gets (fun s =>
  default 0 (foldr (fun id acc => Some (match acc with None => id | Some m => Z.min id m end)) None (filter (fun id => 0 < id) (map_to_list (c_files s)).*1))).

Record BlockInfo : Type := { m_currentBlockId : Z; bi_prevBlockId : Z; m_prevBlockDigest : list Z }.

(** Both loops: [stack] holds the branches that are left.  The hash fills half of
    the local digest. *)
Fixpoint check_loop (fuel : nat) (info : BlockInfo) (stack : list BlockInfo) : CM unit :=
  match fuel with
  | O => mlift (Undef NoProgress)
  | S n =>
      let next stack := match stack with [] => mret tt | i :: stack' => check_loop n i stack' end in
      block <-- findExistingBlock (m_currentBlockId info) ;;
      b <-- get_block block ;;
      if negb (cb_prevBlockId b =? bi_prevBlockId info) then mthrow ColumnDataBlockConsistencyMismatch else
      if negb (state_code (m_state b) =? state_code kClosed) then next stack else
      digest <-- computeDigest sha256 b (m_prevBlockDigest info) ;;
      let digest := digest ++ repeat (uw 8 uninitialized) 32 in
      if bool_decide (m_digest (m_header b) = digest) then mthrow ColumnDataBlockConsistencyMismatch else
      freeSpace <-- getFreeDataSpace P block ;;
      (if freeSpace >=? min_required m_dataType
       then modify (fun s => set_available (avail_emplace (block_id b) freeSpace (m_availableDataBlocks s)) s) else mret tt) ;;'
      nextBlockIds <-- registry_call (findNextBlockIds (m_currentBlockId info)) ;;
      let infos := (fun id => {| m_currentBlockId := id; bi_prevBlockId := m_currentBlockId info; m_prevBlockDigest := digest |}) <$> nextBlockIds in
      next (infos ++ stack)
  end.

Definition checkDataConsistency (fuel : nat) : CM unit :=
  first <-- findFirstBlock ;;
  if first =? 0 then mret tt
  else check_loop fuel {| m_currentBlockId := first; bi_prevBlockId := 0; m_prevBlockDigest := kInitialPrevBlockDigest |} [].
End Data.
