(* ===== verification/ColumnBlocks.v ===== *)
(** * The blocks of a column fill one after the other

    What the operations of [Column] do to the blocks as long as no block is
    evicted from the cache.  The blocks are numbered from 1; each but the last is
    closed, and only the last one is available.  [ds] are the data of the blocks:
    the bytes before the next position of each; the first [m] blocks are closed. *)

From stdpp Require Import base list gmap.
Set Warnings "-clear-no-such-hyp,-notation-incompatible-prefix,-notation-for-abbreviation".
From Stdlib Require Import ZArith Lia.
From S2P Require Import Prelude StateM Bytes PlainBinary ColumnRecords LruCache BlockRegistry BlockRegistrySpec Column.

Local Open Scope Z_scope.

(** ** The LRU cache is a cache of blocks *)

Lemma spec_remove_perm {T} (l : list (Z * T)) k v : NoDup l.*1 -> spec_lookup l k = Some v -> S (length (spec_remove l k)) = length l.
Proof.
  induction l as [|[k0 v0] l IH]; [done|]. cbn [spec_lookup fmap list_fmap fst]. intros [Hn Hnd]%NoDup_cons Hl. unfold spec_remove. rewrite filter_cons. cbn [fst].
  destruct (decide (k0 = k)) as [->|Hne].
  - rewrite decide_False by auto. cbn. f_equal. assert (Hf : filter (fun e : Z * T => e.1 ≠ k) l = l).
    { clear -Hn. induction l as [|[k1 v1] l IH]; [done|]. cbn in Hn. apply not_elem_of_cons in Hn as [H1 H2].
      rewrite filter_cons. cbn. rewrite decide_True by (intros ->; done). f_equal. by apply IH. }
    by rewrite Hf.
  - rewrite decide_True by done. cbn. f_equal. by apply IH.
Qed.

Lemma entries_keys {T} (c : lru_cache (K := Z) (T := T)) : lru_ok c -> NoDup (entries c).*1.
Proof.
  intros Hok. unfold entries. assert (Hin : forall n k, (n, k) ∈ m_list c -> exists v, m_map c !! k = Some (v, n)) by (intros n k; apply (ok_map _ Hok)).
  pose proof (ok_keys _ Hok) as Hk. revert Hin Hk. induction (m_list c) as [|[n k] l IH]; intros Hin Hk; [constructor|].
  cbn in Hk. apply NoDup_cons in Hk as [Hn Hk]. destruct (Hin n k ltac:(apply list_elem_of_here)) as [v Hv].
  rewrite (omap_entry _ n k v n l Hv). cbn. apply NoDup_cons. split; [|apply IH; [|done]; intros; apply Hin; by right].
  intros ([k' v'] & Hk' & Hel)%list_elem_of_fmap. cbn in Hk'. subst k'. apply list_elem_of_omap in Hel as ([n1 k1] & Hel & He).
  unfold LruCache.entry in He. cbn in He. destruct (m_map c !! k1) as [[v1 n2]|]; [|done]. injection He as -> <-.
  apply Hn. by apply (list_elem_of_fmap_2' snd _ (n1, k)).
Qed.

#[export] Instance lru_block_cache_laws : BlockCacheLaws (lru_cache (K := Z) (T := nat)).
Proof.
  refine {| bc_ok c := lru_ok c; bcached c k := spec_lookup (entries c) k; bc_free c := (m_capacity c - length (entries c))%nat |}.
  - intros c k Hok. cbn. pose proof (get_ok 0 c k Hok) as (Hok' & Hr & He).
    assert (Hc : m_capacity (get 0 c k).2 = m_capacity c) by (unfold get; destruct (m_map c !! k) as [[v n]|]; [case_bool_decide|]; done).
    pose proof (entries_keys c Hok) as Hnd. destruct (get 0 c k) as [r c']. cbn in *. split; [done|]. split; [|split].
    + rewrite Hr. unfold spec_get. by destruct (spec_lookup (entries c) k).
    + intros k'. by rewrite He, spec_get_lookup.
    + rewrite Hc, He. unfold spec_get. destruct (spec_lookup (entries c) k) as [v|] eqn:Hl; [|done]. cbn. pose proof (spec_remove_perm _ _ _ Hnd Hl). lia.
  - intros pins c k p Hok Hk Hfree. pose proof (emplace_ok 0 pins c k p false Hok) as H.
    unfold spec_emplace in H. rewrite Hk, decide_False in H by lia. cbn [bind] in H. unfold bc_emplace, lru_block_cache.
    destruct (emplace 0 pins c k p false) as [[[b w] c']|e|u]; cbn in H; try done. destruct H as (_ & _ & Hok' & Hcap' & He). cbn in Hok', Hcap', He.
    exists c'. rewrite He, Hcap'. cbn. split; [done|]. split; [done|]. split; [lia|]. intros k'.
    destruct (decide (k = k')) as [->|Hne]; [by rewrite decide_True by done|by rewrite decide_False by auto].
Defined.

(** ** The registry of such a column *)

Definition registry_ok (r : registry) (n : Z) : Prop :=
  exists a, inv r a /\ a_entries a = Z.max 0 (n - 1) /\
    (forall id, 1 <= id <= n -> exists st, st <> kNotPresent /\
       a_blocks a !! id = Some {| ab_state := st; ab_prev := id - 1; ab_next := if id <? 3 then [] else [id - 1] |}) /\
    (forall id, n < id -> a_blocks a !! id = None).

Lemma registry_new : registry_ok (new_registry None) 0.
Proof. exists new_aregistry. split; [apply inv_new|]. split; [done|]. split; [lia|]. done. Qed.

Lemma registry_record r n : registry_ok r n -> 0 <= n -> n + 1 < 2 ^ 57 ->
  exists r', recordBlockAndNextBlock (n + 1) n kCreating r = (Ok tt, r') /\ registry_ok r' (n + 1).
Proof.
  intros (a & Hi & Hn & Hb & Hnb) H0 Hsm. assert (Hsim : simulates 1 (recordBlockAndNextBlock (n + 1) n kCreating)
    (a_record (n + 1) n kCreating ;;' if negb (n =? 0) then a_add (n + 1) n else mret tt)).
  { apply (simulates_bind 0 1); [done|done|apply sim_record; unfold small, u_ok; lia|]. intros _.
    destruct (Z.eqb_spec n 0); cbn [negb]; [|apply sim_add; unfold small, u_ok; lia].
    intros s' a' Hi' Hk'. exists (Ok tt), s', a'. split_and!; try done. lia. }
  destruct (Hsim r a Hi) as (o & r' & a' & E1 & E2 & Hi' & _); [lia|]. unfold mbind, a_record, a_put, modify, a_add, a_get, gets, mret in E2. cbn in E2.
  assert (Hnew : o = Ok tt /\ a_entries a' = Z.max 0 n /\
    a_blocks a' = <[n + 1 := {| ab_state := kCreating; ab_prev := n; ab_next := if n + 1 <? 3 then [] else [n] |}]> (a_blocks a)).
  { destruct (Z.eqb_spec n 0) as [->|Hn0]; cbn [negb] in E2.
    - injection E2 as <- <-. cbn. split; [done|]. split; [lia|]. done.
    - unfold mbind at 1 in E2. cbn [a_blocks] in E2. rewrite lookup_insert_eq in E2. cbn in E2. injection E2 as <- <-. cbn. split; [done|]. split; [lia|]. rewrite insert_insert_eq. do 2 f_equal.
      rewrite Hn. destruct (Z.eqb_spec (Z.max 0 (n - 1)) 0), (Z.ltb_spec (n + 1) 3); try done; lia. }
  destruct Hnew as (-> & He & Hbl). exists r'. split; [done|]. exists a'. split; [done|]. split; [lia|]. rewrite Hbl. split.
  - intros id Hid. destruct (decide (id = n + 1)) as [->|Hne].
    + exists kCreating. split; [done|]. rewrite lookup_insert_eq. do 2 f_equal; [lia|]. case_match; [done|]. f_equal. lia.
    + rewrite lookup_insert_ne by lia. apply Hb. lia.
  - intros id Hid. rewrite lookup_insert_ne by lia. apply Hnb. lia.
Qed.

Lemma registry_update r n id st : registry_ok r n -> 1 <= id <= n -> n < 2 ^ 57 -> st <> kNotPresent ->
  exists r', updateBlockState id st r = (Ok tt, r') /\ registry_ok r' n.
Proof.
  intros (a & Hi & Hn & Hb & Hnb) Hid Hsm Hst. destruct (sim_update id st ltac:(lia) ltac:(unfold small; lia) r a Hi) as (o & r' & a' & E1 & E2 & Hi' & _); [lia|].
  destruct (Hb id Hid) as (st0 & Hst0 & Hl). unfold mbind, a_get in E2. rewrite Hl in E2. unfold a_put, modify in E2. injection E2 as <- <-.
  exists r'. split; [done|]. eexists. split; [done|]. cbn [a_entries a_blocks ab_state]. split; [done|].
  assert (Hins : forall b, match st with kNotPresent => delete id (a_blocks a) | _ => <[id:=b]> (a_blocks a) end = <[id:=b]> (a_blocks a)) by (by destruct st).
  rewrite Hins. split.
  - intros id' Hid'. destruct (decide (id' = id)) as [->|Hne]; [exists st; by rewrite lookup_insert_eq|]. rewrite lookup_insert_ne by done. by apply Hb.
  - intros id' Hid'. rewrite lookup_insert_ne by lia. by apply Hnb.
Qed.

Lemma registry_next r n id : registry_ok r n -> 1 <= id <= n -> n < 2 ^ 57 -> findNextBlockIds id r = (Ok (if id <? 3 then [] else [id - 1]), r).
Proof.
  intros (a & (bs & ns & f & Hs & Hl & Hls & Hbl) & Hn & Hb & Hnb) Hid Hsm. destruct (Hb id Hid) as (st & Hst & Hlk).
  destruct (inv_next r a id _ bs ns f Hs Hls Hbl ltac:(lia) Hlk) as (rec & _ & _ & _ & _ & _ & _ & H). apply H. lia.
Qed.

Lemma registry_last r n : registry_ok r n -> 1 <= n -> 1 <= m_lastBlockId r.
Proof.
  intros (a & (bs & ns & f & Hs & _ & _ & Hbl) & _ & Hb & _) Hn. destruct (Hb 1 ltac:(lia)) as (st & Hst & Hlk).
  specialize (Hbl 1 ltac:(lia)). rewrite Hlk in Hbl. destruct Hbl as (rec & (_ & Hr & _) & _). apply lookup_lt_Some in Hr.
  destruct (r_last _ _ _ Hs) as [[-> _]|H]; [cbn in Hr; lia|]. unfold len in H. lia.
Qed.

(** ** Blocks *)

Section Blocks.
Context {C : Type} `{BC : BlockCache C} {BL : BlockCacheLaws C} (P : column_params).
Context (sha256 : list Z -> list Z) (time : nat -> Z) (uninitialized : Z).
Notation state := (column_state C).
Notation A := (m_dataBlockDataAreaSize P).

(** Sizes that fit the members, and a hash of 32 bytes. *)
Record column_ok : Prop := {
  co_area : 0 < A;
  co_file : A + 1024 < 2 ^ 32;
  co_uuid : len (cp_databaseUuid P) = 16;
  co_table : u_ok 32 (cp_tableId P);
  co_column : u_ok 64 (cp_columnId P);
  co_memory : u_ok 64 uninitialized;
  co_hash : forall l, len (sha256 l) = 32
}.
Context (Hco : column_ok).

(** The block object [b] and the file [f] of block [k + 1] with data [d]. *)
Record block_ok (k : nat) (d : list Z) (b : ColumnDataBlock) (f : list Z) : Prop := {
  b_id : m_fullColumnDataBlockId (m_header b) = m_fullColumnDataBlockId (new_header P uninitialized (Z.of_nat k + 1));
  b_header : block_header_ok (m_header b);
  b_area : m_dataAreaOffset (m_header b) = 1024;
  b_next : m_nextDataOffset (m_header b) = len d;
  b_prev : cb_prevBlockId b = Z.of_nat k;
  b_file : len f = 1024 + A;
  b_fits : len d <= A;
  b_data : sub f 1024 (len d) = d
}.

Record blocks_inv (s : state) (m : nat) (ds : list (list Z)) : Prop := {
  i_last : c_lastBlockId s = len ds;
  i_objects : length (c_blocks s) = length ds;
  i_blocks : forall k d, ds !! k = Some d -> exists b f, c_blocks s !! k = Some b /\ c_files s !! (Z.of_nat k + 1) = Some f /\
    block_ok k d b f /\ (k < m -> m_state b = kClosed)%nat;
  i_cache : bc_ok (m_blockCache s);
  i_cached : forall id, bcached (m_blockCache s) id = if decide (1 <= id <= len ds) then Some (Z.to_nat (id - 1)) else None;
  i_room : c_room s = None;
  i_registry : registry_ok (m_blockRegistry s) (len ds);
  i_directory : forall id f, c_files s !! id = Some f -> 1 <= id <= len ds
}.

Lemma block_id_ok k d b f : block_ok k d b f -> block_id b = Z.of_nat k + 1.
Proof. intros H. unfold block_id. by rewrite (b_id _ _ _ _ H). Qed.

Lemma get_block_ok (s : state) ptr b : c_blocks s !! ptr = Some b -> get_block ptr s = (Ok b, s).
Proof. unfold get_block. by intros ->. Qed.

(** The last block may be in any state; the others are closed. *)
Lemma inv_block (s : state) m ds k d : blocks_inv s m ds -> ds !! k = Some d ->
  exists b f, get_block k s = (Ok b, s) /\ c_blocks s !! k = Some b /\ c_files s !! (Z.of_nat k + 1) = Some f /\ block_ok k d b f /\
    (k < m -> m_state b = kClosed)%nat.
Proof. intros Hi Hk. destruct (i_blocks _ _ _ Hi k d Hk) as (b & f & H1 & H2 & H3). exists b, f. split; [by apply get_block_ok|]. done. Qed.

Lemma getId_ok (s : state) m ds k d : blocks_inv s m ds -> ds !! k = Some d -> getId k s = (Ok (Z.of_nat k + 1), s).
Proof. intros Hi Hk. destruct (inv_block s m ds k d Hi Hk) as (b & f & Hb & _ & _ & Hok & _). unfold getId. run_step Hb. by rewrite (block_id_ok _ _ _ _ Hok). Qed.

Lemma getFreeDataSpace_ok (s : state) m ds k d : blocks_inv s m ds -> ds !! k = Some d -> getFreeDataSpace P k s = (Ok (A - len d), s).
Proof.
  intros Hi Hk. destruct (inv_block s m ds k d Hi Hk) as (b & f & Hb & _ & _ & Hok & _). unfold getFreeDataSpace. run_step Hb.
  pose proof (co_file Hco). pose proof (len_nonneg d). pose proof (b_fits _ _ _ _ Hok). rewrite (b_next _ _ _ _ Hok), uw_small; [done|unfold u_ok; lia].
Qed.

Lemma getNextDataPos_ok (s : state) m ds k d : blocks_inv s m ds -> ds !! k = Some d -> getNextDataPos k s = (Ok (len d), s).
Proof. intros Hi Hk. destruct (inv_block s m ds k d Hi Hk) as (b & f & Hb & _ & _ & Hok & _). unfold getNextDataPos. run_step Hb. by rewrite (b_next _ _ _ _ Hok). Qed.

(** *** Reading *)

(** Bytes that are stored in a block. *)
Definition stored (ds : list (list Z)) (id off : Z) (bytes : list Z) : Prop :=
  1 <= id /\ 0 <= off /\ exists d, ds !! Z.to_nat (id - 1) = Some d /\ off + len bytes <= len d /\ sub d off (len bytes) = bytes.


Lemma block_readData_ok (s : state) m ds id off bytes : blocks_inv s m ds -> stored ds id off bytes ->
  block_readData P (Z.to_nat (id - 1)) (len bytes) off s = (Ok bytes, s).
Proof.
  intros Hi (Hid & Hoff & d & Hd & Hl & Hsub). destruct (inv_block s m ds _ d Hi Hd) as (b & f & Hb & _ & Hf & Hok & _).
  pose proof (co_file Hco). pose proof (b_fits _ _ _ _ Hok). pose proof (b_file _ _ _ _ Hok). pose proof (len_nonneg bytes).
  unfold block_readData. rewrite Z.gtb_ltb, (proj2 (Z.ltb_ge _ _)) by lia. run_step Hb. rewrite (b_area _ _ _ _ Hok), (block_id_ok _ _ _ _ Hok).
  unfold block_file_read. rewrite mbind_gets, Hf. change (default [] (Some f)) with f. rewrite uw_small by (unfold u_ok; lia).
  unfold pread. rewrite (proj2 (Z.leb_le 0 _)), (proj2 (Z.leb_le _ _)) by lia. cbn [andb]. unfold mret. do 2 f_equal.
  rewrite <- Hsub at 2. rewrite <- (b_data _ _ _ _ Hok) at 1. rewrite sub_sub by lia. f_equal. lia.
Qed.

(** *** Writing *)

(** What writes to blocks leave alone. *)
Definition same_rest (s s' : state) : Prop := m_availableDataBlocks s' = m_availableDataBlocks s /\ m_blockCache s' = m_blockCache s.

Lemma same_rest_trans s1 s2 s3 : same_rest s1 s2 -> same_rest s2 s3 -> same_rest s1 s3.
Proof. intros [H1 H2] [H3 H4]. split; congruence. Qed.

(** A block and its file are replaced. *)
Lemma inv_replace (s : state) m ds k d b f d' b' f' : blocks_inv s m ds -> ds !! k = Some d -> c_blocks s !! k = Some b -> c_files s !! (Z.of_nat k + 1) = Some f ->
  block_ok k d' b' f' -> m_state b' = m_state b \/ m_state b' = kClosed ->
  blocks_inv (set_files (<[Z.of_nat k + 1 := f']> (c_files s)) None (set_blocks (<[k := b']> (c_blocks s)) s)) m (<[k := d']> ds).
Proof.
  intros [H1 H2 H3 H4 H5 H6 H7 H8] Hk Hb Hf Hok Hst.
  assert (Hlen : len (<[k := d']> ds) = len ds) by (unfold len; by rewrite length_insert). split; cbn; rewrite ?Hlen, ?length_insert; try done.
  2:{ intros id g. rewrite lookup_insert. case_decide as E; [|by apply H8]. intros _. apply lookup_lt_Some in Hk. unfold len. lia. }
  intros k2 d2 Hk2. destruct (decide (k2 = k)) as [->|Hne].
  - rewrite list_lookup_insert_eq in Hk2 by (by apply lookup_lt_Some in Hk). injection Hk2 as <-. exists b', f'.
    split; [apply list_lookup_insert_eq; by apply lookup_lt_Some in Hb|]. split; [by rewrite lookup_insert_eq|]. split; [done|].
    intros Hlast. destruct Hst as [->|]; [|done]. destruct (H3 k d Hk) as (b0 & f0 & Hb0 & _ & _ & Hc). rewrite Hb in Hb0. injection Hb0 as <-. by apply Hc.
  - rewrite list_lookup_insert_ne in Hk2 by done. rewrite list_lookup_insert_ne, lookup_insert_ne by (done || lia). by apply H3.
Qed.

(** A write inside a file. *)
Lemma file_write_ok (s : state) id f bytes off : c_room s = None -> c_files s !! id = Some f -> 0 <= off -> off + len bytes <= len f ->
  block_file_write id bytes off s = (Ok tt, set_files (<[id := overwrite f off bytes]> (c_files s)) None s).
Proof.
  intros Hr Hf Ho Hl. unfold block_file_write. rewrite Hr. cbn [writable consume]. rewrite Z.eqb_refl, firstn_len. do 2 f_equal.
  apply map_eq. intros j. destruct (decide (j = id)) as [->|Hne]; [|by rewrite lookup_alter_ne, lookup_insert_ne by done].
  rewrite lookup_alter_eq, Hf, lookup_insert_eq. cbn. f_equal. destruct (decide (bytes = [])) as [->|Hb].
  - cbn. unfold overwrite. cbn [app]. rewrite len_nil, Z.add_0_r. by rewrite take_drop.
  - apply pwrite_in; [|lia]. destruct bytes; [done|]. rewrite len_cons. pose proof (len_nonneg bytes). lia.
Qed.

Lemma set_block_run (s : state) k b b' : set_block k b' (set_blocks (<[k := b]> (c_blocks s)) s) = (Ok tt, set_blocks (<[k := b']> (c_blocks s)) s).
Proof. unfold set_block, modify, set_blocks. cbn. by rewrite list_insert_insert_eq. Qed.

Lemma setNextDataPos_ok (s : state) k b pos : c_blocks s !! k = Some b -> pos <= A ->
  setNextDataPos P k pos s = (Ok tt, set_blocks (<[k := with_header (header_with_next pos (m_header b)) b]> (c_blocks s)) s).
Proof.
  intros Hb Hp. unfold setNextDataPos. rewrite Z.gtb_ltb, (proj2 (Z.ltb_ge _ _)) by lia. run_step (get_block_ok s k b Hb). done.
Qed.

Lemma sub_overwrite_end l i b j : 0 <= i <= j -> j + len b <= len l -> sub (overwrite l j b) i (j + len b - i) = sub l i (j - i) ++ b.
Proof.
  intros Hi Hl. pose proof (len_nonneg b). apply list_eq. intros k. rewrite sub_lookup, overwrite_lookup by lia.
  destruct (decide (Z.of_nat k < j - i)) as [H1|H1].
  - rewrite (decide_True (P := Z.of_nat k < _)) by lia. rewrite decide_False by lia. rewrite lookup_app_l.
    + rewrite sub_lookup. by rewrite decide_True by lia.
    + unfold sub. rewrite length_take, length_drop. unfold len in *. lia.
  - rewrite lookup_app_r by (unfold sub; rewrite length_take, length_drop; unfold len in *; lia).
    assert (Hs : length (sub l i (j - i)) = Z.to_nat (j - i)) by (unfold sub; rewrite length_take, length_drop; unfold len in *; lia). rewrite Hs.
    destruct (decide (Z.of_nat k < j + len b - i)) as [H2|H2].
    + rewrite decide_True by lia. f_equal. lia.
    + symmetry. apply lookup_ge_None. unfold len in *. lia.
Qed.


(** A value is appended and the position moved by [n], which may be more. *)
Lemma append_ok (s : state) m ds k d bytes n : blocks_inv s m ds -> ds !! k = Some d -> len bytes <= n -> len d + n <= A ->
  exists s1 s' pad, block_append P k bytes s = (Ok tt, s1) /\ incNextDataPos P k n s1 = (Ok tt, s') /\ len pad = n - len bytes /\
    blocks_inv s' m (<[k := d ++ bytes ++ pad]> ds) /\ same_rest s s'.
Proof.
  intros Hi Hk Hn Hfit. destruct (inv_block s m ds k d Hi Hk) as (b & f & Hb & Hb' & Hf & Hok & _). pose proof (len_nonneg d). pose proof (len_nonneg bytes).
  pose proof (co_file Hco). pose proof (b_file _ _ _ _ Hok) as Hlf. set (f' := overwrite f (1024 + len d) bytes).
  assert (Hlf' : len f' = 1024 + A) by (unfold f'; rewrite overwrite_len; lia).
  unfold block_append. rewrite (mbind_ok _ _ _ _ _ (getNextDataPos_ok s m ds k d Hi Hk)). unfold block_writeData. rewrite Z.gtb_ltb, (proj2 (Z.ltb_ge _ _)) by lia.
  run_step Hb. rewrite (b_area _ _ _ _ Hok), (block_id_ok _ _ _ _ Hok), uw_small by (unfold u_ok; lia). rewrite (Z.add_comm (len d)).
  rewrite (mbind_ok _ _ _ _ _ (file_write_ok s _ f bytes (1024 + len d) (i_room _ _ _ Hi) Hf ltac:(lia) ltac:(lia))). fold f'.
  set (b1 := with_flags (m_headerModified b) true b). set (s1 := set_files (<[Z.of_nat k + 1:=f']> (c_files s)) None s).
  eexists (set_blocks (<[k := b1]> (c_blocks s)) s1), _, (sub f' (1024 + len d + len bytes) (n - len bytes)).
  split; [done|]. assert (Hkl : (k < length (c_blocks s))%nat) by (by apply lookup_lt_Some in Hb'). split.
  { unfold incNextDataPos. rewrite (mbind_ok _ _ _ b1 _ (get_block_ok (set_blocks (<[k := b1]> (c_blocks s)) s1) k b1 (list_lookup_insert_eq _ _ _ Hkl))). cbn [m_header b1 with_flags].
    rewrite (b_next _ _ _ _ Hok), uw_small by (unfold u_ok; lia). apply setNextDataPos_ok; [cbn; by apply list_lookup_insert_eq|lia]. }
  split; [apply sub_len; lia|]. split; [|done]. cbn [c_blocks set_blocks]. rewrite list_insert_insert_eq.
  apply (inv_replace s m ds k d b f); try done; [|by left]. destruct Hok as [O1 O2 O3 O4 O5 O6 O7 O8]. 
  assert (Hdata : sub f' 1024 (len d + n) = d ++ bytes ++ sub f' (1024 + len d + len bytes) (n - len bytes)).
  { replace (len d + n) with ((len d + len bytes) + (n - len bytes)) by lia. rewrite sub_split by lia. rewrite app_assoc. f_equal; [|f_equal; lia].
    replace (len d + len bytes) with (1024 + len d + len bytes - 1024) by lia. unfold f'. rewrite sub_overwrite_end by lia. f_equal.
    replace (1024 + len d - 1024) with (len d) by lia. exact O8. }
  assert (Hdl : len (d ++ bytes ++ sub f' (1024 + len d + len bytes) (n - len bytes)) = len d + n) by (rewrite !len_app, sub_len by lia; lia).
  split; rewrite ?Hdl; try done.
  destruct O2 as (V1 & V2 & V3 & V4 & V5 & V6 & V7 & V8 & V9 & V10 & V11 & V12). unfold block_header_ok. cbn. split_and!; try done. unfold u_ok. lia.
Qed.

(** *** Closing a block *)

(** The bytes alone: data that are not counted yet. *)
Lemma block_append_ok (s : state) m ds k d bytes : blocks_inv s m ds -> ds !! k = Some d -> len d + len bytes <= A ->
  exists s1, block_append P k bytes s = (Ok tt, s1) /\ blocks_inv s1 m ds /\ same_rest s s1.
Proof.
  intros Hi Hk Hfit. destruct (inv_block s m ds k d Hi Hk) as (b & f & Hb & Hb' & Hf & Hok & _). pose proof (len_nonneg d). pose proof (len_nonneg bytes).
  pose proof (co_file Hco). pose proof (b_file _ _ _ _ Hok) as Hlf. set (f' := overwrite f (1024 + len d) bytes).
  unfold block_append. rewrite (mbind_ok _ _ _ _ _ (getNextDataPos_ok s m ds k d Hi Hk)). unfold block_writeData. rewrite Z.gtb_ltb, (proj2 (Z.ltb_ge _ _)) by lia.
  run_step Hb. rewrite (b_area _ _ _ _ Hok), (block_id_ok _ _ _ _ Hok), uw_small by (unfold u_ok; lia). rewrite (Z.add_comm (len d)).
  rewrite (mbind_ok _ _ _ _ _ (file_write_ok s _ f bytes (1024 + len d) (i_room _ _ _ Hi) Hf ltac:(lia) ltac:(lia))). fold f'.
  eexists. split; [done|]. split; [|done]. rewrite <- (list_insert_id ds k d Hk). apply (inv_replace s m ds k d b f); try done; [|by left].
  destruct Hok as [O1 O2 O3 O4 O5 O6 O7 O8]. split; try done; unfold f'; [by rewrite overwrite_len by lia|]. by rewrite sub_overwrite_out by lia.
Qed.

Lemma set_block_inv (s : state) m ds k d b' f : blocks_inv s m ds -> ds !! k = Some d -> c_files s !! (Z.of_nat k + 1) = Some f -> block_ok k d b' f ->
  (k < m -> m_state b' = kClosed)%nat ->
  exists s', set_block k b' s = (Ok tt, s') /\ blocks_inv s' m ds /\ same_rest s s' /\ c_blocks s' !! k = Some b' /\ c_files s' = c_files s.
Proof.
  intros Hi Hk Hf Hok Hst. assert (Hkl : (k < length (c_blocks s))%nat) by (rewrite (i_objects _ _ _ Hi); by apply lookup_lt_Some in Hk).
  eexists. split; [done|]. destruct Hi as [H1 H2 H3 H4 H5 H6 H7 H8]. split; [|split; [done|split; [by apply list_lookup_insert_eq|done]]].
  split; cbn; rewrite ?length_insert; try done. intros k2 d2 Hk2. destruct (decide (k2 = k)) as [->|Hne].
  - rewrite list_lookup_insert_eq by done. rewrite Hk in Hk2. injection Hk2 as <-. exists b', f. done.
  - rewrite list_lookup_insert_ne by done. by apply H3.
Qed.

Lemma registry_call_inv (s : state) m ds r' (c : RM unit) : blocks_inv s m ds -> c (m_blockRegistry s) = (Ok tt, r') -> registry_ok r' (len ds) ->
  exists s', registry_call c s = (Ok tt, s') /\ blocks_inv s' m ds /\ same_rest s s' /\ c_blocks s' = c_blocks s /\ c_files s' = c_files s.
Proof.
  intros [H1 H2 H3 H4 H5 H6 H7 H8] Hc Hr. eexists. split; [unfold registry_call, embed; rewrite Hc; done|]. split; [|done]. by split.
Qed.

Lemma update_state_inv (s : state) m ds id st : blocks_inv s m ds -> 1 <= id <= len ds -> len ds < 2 ^ 57 -> st <> kNotPresent ->
  exists s', registry_call (updateBlockState id st) s = (Ok tt, s') /\ blocks_inv s' m ds /\ same_rest s s' /\ c_blocks s' = c_blocks s /\ c_files s' = c_files s.
Proof.
  intros Hi Hid Hsm Hst. destruct (registry_update _ _ id st (i_registry _ _ _ Hi) Hid Hsm Hst) as (r' & E & Hr). by eapply registry_call_inv.
Qed.

Lemma time_inv (s : state) m ds : blocks_inv s m ds ->
  exists s', time_now time s = (Ok (time (c_ticks s)), s') /\ blocks_inv s' m ds /\ same_rest s s' /\ c_blocks s' = c_blocks s /\ c_files s' = c_files s.
Proof. intros [H1 H2 H3 H4 H5 H6 H7 H8]. eexists. split; [done|]. split; [|done]. by split. Qed.

Lemma computeDigest_ok (s : state) m ds k d b f p : blocks_inv s m ds -> c_files s !! (Z.of_nat k + 1) = Some f -> block_ok k d b f ->
  exists h, computeDigest sha256 b p s = (Ok h, s) /\ len h = 32.
Proof.
  intros Hi Hf Hok. unfold computeDigest. cbv zeta. rewrite (b_next _ _ _ _ Hok), (b_area _ _ _ _ Hok), (block_id_ok _ _ _ _ Hok). pose proof (b_fits _ _ _ _ Hok).
  pose proof (b_file _ _ _ _ Hok). pose proof (len_nonneg d).
  assert (Hread : (if len d >? 0 then block_file_read (Z.of_nat k + 1) (len d) 1024 else mret []) s = (Ok (sub f 1024 (len d)), s)).
  { rewrite Z.gtb_ltb. destruct (Z.ltb_spec 0 (len d)) as [Hpos|Hz].
    - unfold block_file_read. rewrite mbind_gets, Hf. change (default [] (Some f)) with f. by rewrite pread_in by lia.
    - replace (len d) with 0 by lia. done. }
  run_step Hread. eexists. split; [done|]. apply (co_hash Hco).
Qed.

(** The header may change in the members that only the digest is about. *)
Lemma block_ok_fill k d b f ts dg st hm dm : block_ok k d b f -> u_ok 64 ts -> len dg = 64 ->
  block_ok k d {| m_header := header_with_fill ts dg (m_header b); cb_prevBlockId := cb_prevBlockId b; m_state := st; m_headerModified := hm; m_dataModified := dm |} f.
Proof.
  intros [O1 O2 O3 O4 O5 O6 O7 O8] Hts Hdg. split; try done. destruct O2 as (V1 & V2 & V3 & V4 & V5 & V6 & V7 & V8 & V9 & V10 & V11 & V12).
  unfold block_header_ok. cbn. split_and!; done.
Qed.

Lemma block_ok_same k d b f st hm dm : block_ok k d b f ->
  block_ok k d {| m_header := m_header b; cb_prevBlockId := cb_prevBlockId b; m_state := st; m_headerModified := hm; m_dataModified := dm |} f.
Proof. intros [O1 O2 O3 O4 O5 O6 O7 O8]. by split. Qed.

Lemma block_ok_file k d b f h : block_ok k d b f -> len h <= 1024 -> block_ok k d b (overwrite f 0 h).
Proof.
  intros [O1 O2 O3 O4 O5 O6 O7 O8] Hh. pose proof (co_area Hco). split; try done; [by rewrite overwrite_len by lia|]. by rewrite sub_overwrite_out by lia.
Qed.

Lemma writeHeader_inv (s : state) m ds k d b f : blocks_inv s m ds -> ds !! k = Some d -> c_blocks s !! k = Some b -> c_files s !! (Z.of_nat k + 1) = Some f ->
  exists s' b' f', writeHeader k s = (Ok tt, s') /\ blocks_inv s' m ds /\ same_rest s s' /\ c_blocks s' !! k = Some b' /\ c_files s' !! (Z.of_nat k + 1) = Some f' /\
    block_ok k d b' f' /\ m_state b' = m_state b.
Proof.
  intros Hi Hk Hb Hf. destruct (i_blocks _ _ _ Hi k d Hk) as (b0 & f0 & Hb0 & Hf0 & Hok & Hst). rewrite Hb in Hb0. injection Hb0 as <-. rewrite Hf in Hf0. injection Hf0 as <-.
  pose proof (block_header_len _ (b_header _ _ _ _ Hok)) as Hhl. unfold kColumnDataBlockHeaderSize in Hhl. pose proof (b_file _ _ _ _ Hok). pose proof (co_area Hco).
  unfold writeHeader. run_step (get_block_ok s k b Hb). rewrite (block_id_ok _ _ _ _ Hok).
  run_step (file_write_ok s _ f (block_header_serialize (m_header b)) 0 (i_room _ _ _ Hi) Hf ltac:(lia) ltac:(lia)).
  assert (Hkl : (k < length (c_blocks s))%nat) by (by apply lookup_lt_Some in Hb). assert (Hds : <[k := d]> ds = ds) by (by apply list_insert_id).
  pose proof (inv_replace s m ds k d b f d (with_flags false (m_dataModified b) b) (overwrite f 0 (block_header_serialize (m_header b))) Hi Hk Hb Hf) as Hr.
  eexists _, (with_flags false (m_dataModified b) b), (overwrite f 0 (block_header_serialize (m_header b))). split; [done|]. rewrite Hds in Hr.
  assert (Hok' : block_ok k d (with_flags false (m_dataModified b) b) (overwrite f 0 (block_header_serialize (m_header b)))).
  { apply block_ok_file; [|lia]. by apply block_ok_same. }
  split; [apply Hr; [done|by left]|]. split; [done|]. split; [by apply list_lookup_insert_eq|]. split; [cbn; by rewrite lookup_insert_eq|]. done.
Qed.

Lemma same_rest_refl (s : state) : same_rest s s.
Proof. done. Qed.

Lemma blocks_inv_close (s : state) m ds b d : blocks_inv s m ds -> ds !! m = Some d -> c_blocks s !! m = Some b -> m_state b = kClosed -> blocks_inv s (S m) ds.
Proof.
  intros [H1 H2 H3 H4 H5 H6 H7 H8] Hm Hb Hst. split; try done. intros k d' Hk. destruct (H3 k d' Hk) as (b' & f' & Hb' & Hf' & Hok & Hc). exists b', f'.
  split; [done|]. split; [done|]. split; [done|]. intros Hlt. destruct (decide (k = m)) as [->|Hne]; [congruence|]. apply Hc. lia.
Qed.

Lemma finalize_ok (s : state) m ds d p : blocks_inv s m ds -> ds !! m = Some d -> len ds < 2 ^ 57 ->
  exists s', finalize sha256 time m p s = (Ok tt, s') /\ blocks_inv s' (S m) ds /\ same_rest s s'.
Proof.
  intros Hi Hm Hsm. destruct (inv_block s m ds m d Hi Hm) as (b & f & Hb & Hb' & Hf & Hok & _). unfold finalize. run_step Hb. pose proof (b_header _ _ _ _ Hok) as Hhd.
  assert (Hml : (m < length ds)%nat) by (by apply lookup_lt_Some in Hm). assert (Hmid : 1 <= Z.of_nat m + 1 <= len ds) by (unfold len; lia).
  set (b1 := with_block_state kClosing b). assert (Hok1 : block_ok m d b1 f) by (by apply block_ok_same).
  destruct (set_block_inv s m ds m d b1 f Hi Hm Hf Hok1 ltac:(lia)) as (s1 & E1 & Hi1 & Hr1 & Hb1 & Hf1). run_step E1. rewrite (block_id_ok _ _ _ _ Hok).
  destruct (update_state_inv s1 m ds _ kClosing Hi1 Hmid Hsm ltac:(done)) as (s2 & E2 & Hi2 & Hr2 & Hb2 & Hf2). run_step E2.
  destruct (time_inv s2 m ds Hi2) as (s3 & E3 & Hi3 & Hr3 & Hb3 & Hf3). run_step E3. rewrite <- Hb2, <- Hb3 in Hb1. run_step (get_block_ok s3 m b1 Hb1).
  set (ts := uw 64 (time (c_ticks s2))). assert (Hts : u_ok 64 ts) by (apply uw_range; lia). cbv zeta.
  match goal with |- context [mbind (set_block m ?x) _] => set (b4 := x) end.
  assert (Hdg : len (m_digest (m_header b)) = 64) by (destruct Hhd as (_ & _ & _ & _ & _ & _ & _ & _ & _ & _ & _ & ?); done).
  assert (Hok4 : block_ok m d b4 f) by (by apply (block_ok_fill m d b1)). rewrite <- Hf1, <- Hf2, <- Hf3 in Hf.
  destruct (set_block_inv s3 m ds m d b4 f Hi3 Hm Hf Hok4 ltac:(lia)) as (s4 & E4 & Hi4 & Hr4 & Hb4 & Hf4). run_step E4. rewrite <- Hf4 in Hf.
  destruct (computeDigest_ok s4 m ds m d b4 f p Hi4 Hf Hok4) as (dg & E5 & Hdgl). run_step E5.
  match goal with |- context [mbind (set_block m ?x) _] => set (b5 := x) end.
  assert (Hok5 : block_ok m d b5 f). { apply (block_ok_fill m d b4); [done|done|]. rewrite len_app, Hdgl. unfold len in *. rewrite length_drop. cbn. lia. }
  destruct (set_block_inv s4 m ds m d b5 f Hi4 Hm Hf Hok5 ltac:(lia)) as (s5 & E6 & Hi5 & Hr5 & Hb5 & Hf5). run_step E6. rewrite <- Hf5 in Hf.
  destruct (writeHeader_inv s5 m ds m d b5 f Hi5 Hm Hb5 Hf) as (s6 & b6 & f6 & E7 & Hi6 & Hr6 & Hb6 & Hf6 & Hok6 & _). run_step E7. run_step (get_block_ok s6 m b6 Hb6).
  assert (Hok7 : block_ok m d (with_block_state kClosed b6) f6) by (by apply block_ok_same).
  destruct (set_block_inv s6 m ds m d _ f6 Hi6 Hm Hf6 Hok7 ltac:(lia)) as (s7 & E8 & Hi7 & Hr7 & Hb7 & Hf7). run_step E8. rewrite (block_id_ok _ _ _ _ Hok6).
  destruct (update_state_inv s7 m ds _ kClosed Hi7 Hmid Hsm ltac:(done)) as (s8 & E9 & Hi8 & Hr8 & Hb8 & _). exists s8. split; [done|].
  split; [|eauto 12 using same_rest_trans]. rewrite <- Hb8 in Hb7. by apply (blocks_inv_close s8 m ds (with_block_state kClosed b6) d).
Qed.

(** *** New blocks *)

Lemma new_header_ok id : u_ok 64 id -> block_header_ok (new_header P uninitialized id).
Proof.
  intros Hid. destruct Hco as [H1 H2 H3 H4 H5 H6 _]. unfold block_header_ok, new_header. cbn. unfold u_ok, kDefaultDataAreaOffset in *. split_and!; try done; lia.
Qed.

Definition new_file (id : Z) : list Z :=
  pwrite (pwrite (repeat 0 (Z.to_nat (uw 32 (A + kDefaultDataAreaOffset)))) 0 (block_header_serialize (new_header P uninitialized id)))
    kColumnDataBlockHeaderSize (repeat 0 (Z.to_nat (kDefaultDataAreaOffset - kColumnDataBlockHeaderSize))).

Lemma new_file_ok id : u_ok 64 id -> len (new_file id) = 1024 + A /\ sub (new_file id) 0 136 = block_header_serialize (new_header P uninitialized id).
Proof.
  intros Hid. pose proof (block_header_len _ (new_header_ok id Hid)) as Hl. unfold kColumnDataBlockHeaderSize in Hl. pose proof (co_area Hco). pose proof (co_file Hco).
  unfold new_file, kDefaultDataAreaOffset, kColumnDataBlockHeaderSize. rewrite uw_small by (unfold u_ok; lia). set (z := repeat 0 (Z.to_nat (A + 1024))).
  assert (Hz : len z = A + 1024) by (unfold z, len; rewrite repeat_length; lia). set (r := repeat 0 (Z.to_nat (1024 - 136))).
  assert (Hr : len r = 888) by (unfold r, len; by rewrite repeat_length). rewrite (pwrite_in z) by lia.
  assert (Ho : len (overwrite z 0 (block_header_serialize (new_header P uninitialized id))) = A + 1024) by (rewrite overwrite_len; lia).
  rewrite pwrite_in by lia. split; [rewrite overwrite_len; lia|]. rewrite sub_overwrite_out by lia. rewrite sub_overwrite_in by lia. done.
Qed.

(** A new data file: nothing of that name, and no temporary file of it, is there. *)
Lemma createDataFile_ok (s : state) h : c_room s = None -> let id := fb_blockId (m_fullColumnDataBlockId h) in c_files s !! id = None -> c_files s !! tmpDataFile id = None ->
  createDataFile P h s = (Ok tt, set_files (<[id := pwrite (pwrite (repeat 0 (Z.to_nat (uw 32 (A + kDefaultDataAreaOffset)))) 0 (block_header_serialize h))
    kColumnDataBlockHeaderSize (repeat 0 (Z.to_nat (kDefaultDataAreaOffset - kColumnDataBlockHeaderSize)))]> (c_files s)) None s).
Proof.
  intros Hr id Hid Htmp. unfold createDataFile, new_file_write. cbv zeta. fold id. set (rest := repeat 0 (Z.to_nat (kDefaultDataAreaOffset - _))). set (buffer := block_header_serialize h). clearbody rest buffer. destruct (cp_tmpFile P).
  - unfold mbind, mret, gets, modify. rewrite Hr. cbn [writable consume]. rewrite Z.eqb_refl. cbn [c_room set_files writable consume]. rewrite Z.eqb_refl. cbn [c_files set_files]. by rewrite Hid.
  - unfold mbind, createNamedDataFile, modify, block_file_write, gets. cbn [c_room c_files set_files]. rewrite Htmp, Hr. cbn [writable consume default from_option app]. rewrite Z.eqb_refl. cbn [c_room c_files set_files writable consume].
    rewrite Z.eqb_refl. cbn [c_files c_room set_files]. rewrite !take_ge by (unfold len; lia). change (len (@nil Z)) with 0. rewrite Z.sub_0_r.
    rewrite !alter_insert_eq, lookup_insert_eq. cbn [default from_option Datatypes.id]. by rewrite delete_insert_eq, delete_id.
Qed.

Lemma full_id_eqb_refl a : full_id_eqb a a = true.
Proof. unfold full_id_eqb. by rewrite bool_decide_eq_true_2, !Z.eqb_refl. Qed.

Lemma create_ok (s : state) prev st : c_room s = None -> u_ok 64 (c_lastBlockId s + 1) -> (forall id f, c_files s !! id = Some f -> 1 <= id <= c_lastBlockId s) ->
  let id := c_lastBlockId s + 1 in
  ColumnDataBlock_create P uninitialized prev st s =
    (Ok (length (c_blocks s)),
     set_blocks (c_blocks s ++ [{| m_header := new_header P uninitialized id; cb_prevBlockId := prev; m_state := st; m_headerModified := false; m_dataModified := false |}])
       (set_files (<[id := new_file id]> (c_files s)) None (set_counters id (c_ticks s) s))).
Proof.
  intros Hr Hid Hdir id. unfold ColumnDataBlock_create. assert (E0 : generateNextBlockId s = (Ok id, set_counters id (c_ticks s) s)) by (unfold generateNextBlockId; by rewrite uw_small).
  run_step E0. cbv zeta. destruct (new_file_ok id Hid) as [Hl Hs]. pose proof (co_area Hco). set (s0 := set_counters id (c_ticks s) s).
  assert (E1 : createDataFile P (new_header P uninitialized id) s0 = (Ok tt, set_files (<[id := new_file id]> (c_files s)) None s0)).
  { assert (Hnone : forall i, i < 1 \/ c_lastBlockId s < i -> c_files s0 !! i = None) by (intros i Hi; destruct (c_files s0 !! i) as [f|] eqn:Hf; [specialize (Hdir i f Hf); lia|done]).
    etransitivity; [apply (createDataFile_ok s0); [done|apply Hnone; cbn; unfold id; lia|apply Hnone; cbn; unfold tmpDataFile, id; unfold u_ok in Hid; lia]|reflexivity]. }
  run_step E1. set (s1 := set_files _ _ s0). assert (E2 : loadHeader uninitialized (new_header P uninitialized id) s1 = (Ok (new_header P uninitialized id), s1)).
  { unfold loadHeader. assert (Er : block_file_read id kColumnDataBlockHeaderSize 0 s1 = (Ok (block_header_serialize (new_header P uninitialized id)), s1)).
    { unfold block_file_read. rewrite mbind_gets. cbn [c_files s1 set_files]. rewrite lookup_insert_eq. change (default [] (Some ?x)) with x.
      unfold kColumnDataBlockHeaderSize. by rewrite pread_in, Hs by lia. }
    change (fb_blockId _) with id. run_step Er. unfold mbind at 1, mlift. rewrite <- (app_nil_r (block_header_serialize _)).
    rewrite block_header_roundtrip by by apply new_header_ok. by rewrite full_id_eqb_refl. }
  run_step E2. done.
Qed.

Lemma createBlock_ok (s : state) m ds pins st : blocks_inv s m ds -> (m <= length ds)%nat -> len ds + 1 < 2 ^ 57 -> (0 < bc_free (m_blockCache s))%nat ->
  exists s', createBlock P uninitialized pins (len ds) st s = (Ok (length ds), s') /\ blocks_inv s' m (ds ++ [[]]) /\
    m_availableDataBlocks s' = m_availableDataBlocks s /\ S (bc_free (m_blockCache s')) = bc_free (m_blockCache s).
Proof.
  intros Hi Hm Hsm Hfree. pose proof Hi as [H1 H2 H3 H4 H5 H6 H7 H8]. pose proof (len_nonneg ds) as Hn. unfold createBlock. assert (Hu : u_ok 64 (c_lastBlockId s + 1)) by (rewrite H1; unfold u_ok; lia).
  rewrite (mbind_ok _ _ _ _ _ (create_ok s (len ds) st H6 Hu ltac:(by rewrite H1))). rewrite H1, H2 in *. set (b := Build_ColumnDataBlock _ _ _ _ _). set (s1 := set_blocks _ _).
  assert (Hnew : block_ok (length ds) [] b (new_file (len ds + 1))).
  { destruct (new_file_ok (len ds + 1) Hu) as [Hl _]. pose proof (co_area Hco). split; try done; [by apply new_header_ok|unfold len; cbn [length]; lia]. }
  assert (Hbl : c_blocks s1 !! length ds = Some b) by (cbn; rewrite lookup_app_r by lia; by rewrite H2, Nat.sub_diag).
  assert (Eid : getId (length ds) s1 = (Ok (len ds + 1), s1)) by (unfold getId; run_step (get_block_ok s1 _ b Hbl); done). run_step Eid.
  destruct (bc_emplace_law pins (m_blockCache s) (len ds + 1) (length ds) H4) as (c' & Ec & Hc' & Hfr & Hca); [by rewrite H5, decide_False by lia|done|].
  assert (Ee : cache_emplace pins (len ds + 1) (length ds) s1 = (Ok tt, set_bcache c' s1)) by (unfold cache_emplace; cbn [m_blockCache s1 set_blocks set_files set_counters]; by rewrite Ec).
  run_step Ee. destruct (registry_record (m_blockRegistry s) (len ds) H7 Hn Hsm) as (r' & Er & Hr').
  assert (Erc : registry_call (recordBlockAndNextBlock (len ds + 1) (len ds) kCreating) (set_bcache c' s1) = (Ok tt, set_registry r' (set_bcache c' s1)))
    by (unfold registry_call, embed; cbn [m_blockRegistry set_bcache s1 set_blocks set_files set_counters]; by rewrite Er).
  run_step Erc. eexists. split; [done|]. split; [|done]. assert (Hl : len (ds ++ [[]]) = len ds + 1) by (rewrite len_app; done).
  split; cbn; rewrite ?Hl, ?length_app; try done.
  - cbn. lia.
  - intros k d Hk. destruct (decide (k = length ds)) as [->|Hne].
    + rewrite lookup_app_r, Nat.sub_diag in Hk by lia. injection Hk as <-. exists b, (new_file (len ds + 1)). split; [done|].
      split; [by rewrite lookup_insert_eq|]. split; [done|]. lia.
    + assert (Hkl : (k < length ds)%nat) by (apply lookup_lt_Some in Hk; rewrite length_app in Hk; cbn in Hk; lia). rewrite lookup_app_l in Hk by done.
      destruct (H3 k d Hk) as (b' & f' & Hb' & Hf' & Hok & Hc). exists b', f'. split; [by rewrite lookup_app_l by lia|].
      split; [rewrite lookup_insert_ne by (unfold len in *; lia); done|]. done.
  - intros id. rewrite Hca, H5. destruct (decide (id = len ds + 1)) as [->|Hne]; [rewrite decide_True by lia; f_equal; unfold len; lia|].
    destruct (decide (1 <= id <= len ds)); [by rewrite decide_True by lia|by rewrite decide_False by lia].
  - intros id f. rewrite lookup_insert. case_decide as E; [intros _; lia|]. intros Hf. specialize (H8 id f Hf). lia.
Qed.

(** A block that is there is in the cache. *)
Lemma loadBlock_ok (s : state) m ds pins id : blocks_inv s m ds -> 1 <= id <= len ds ->
  exists s', loadBlock P uninitialized pins id s = (Ok (Z.to_nat (id - 1)), s') /\ blocks_inv s' m ds /\
    m_availableDataBlocks s' = m_availableDataBlocks s /\ bc_free (m_blockCache s') = bc_free (m_blockCache s) /\ c_blocks s' = c_blocks s.
Proof.
  intros [H1 H2 H3 H4 H5 H6 H7 H8] Hid. unfold loadBlock, cache_get, mbind. pose proof (bc_get_law (m_blockCache s) id H4) as H.
  destruct (bc_get (m_blockCache s) id) as [r c']. destruct H as (Hc' & -> & Hca & Hfr). rewrite H5, decide_True by done.
  eexists. split; [done|]. split; [|done]. split; try done. intros id'. cbn. by rewrite Hca.
Qed.

(** *** The next block *)

Lemma set_registry_same (s : state) : set_registry (m_blockRegistry s) s = s.
Proof. by destruct s. Qed.

(** The only next block that the registry can give is the closed block before. *)
Lemma find_next_none (s : state) m ds r : blocks_inv s m ds -> length ds = S m -> len ds < 2 ^ 57 ->
  exists s', find_next P uninitialized m r (reverse (if Z.of_nat m + 1 <? 3 then [] else [Z.of_nat m + 1 - 1])) s = (Ok None, s') /\
    blocks_inv s' m ds /\ m_availableDataBlocks s' = m_availableDataBlocks s /\ bc_free (m_blockCache s') = bc_free (m_blockCache s) /\ c_blocks s' = c_blocks s.
Proof.
  intros Hi Hlen Hsm. destruct (Z.ltb_spec (Z.of_nat m + 1) 3) as [|Hge]; [by exists s|]. cbn [reverse rev_append find_next].
  destruct (loadBlock_ok s m ds [m] (Z.of_nat m + 1 - 1) Hi) as (s1 & E1 & Hi1 & Ha1 & Hf1 & Hb1); [unfold len; lia|]. exists s1. split; [|done].
  change (reverse [Z.of_nat m + 1 - 1]) with [Z.of_nat m + 1 - 1]. cbn [find_next]. run_step E1. replace (Z.to_nat (Z.of_nat m + 1 - 1 - 1)) with (m - 1)%nat by lia.
  destruct (lookup_lt_is_Some_2 ds (m - 1)) as [d Hd]; [lia|]. destruct (inv_block s1 m ds _ d Hi1 Hd) as (b & f & Hb & _ & _ & Hok & Hst). run_step Hb.
  run_step (getFreeDataSpace_ok s1 m ds _ d Hi1 Hd). rewrite Hst by lia. done.
Qed.

(** The digest of the block before, which is in the cache. *)
Lemma prev_digest_ok (s : state) m ds : blocks_inv s m ds -> (m < length ds)%nat ->
  exists g s', (if Z.of_nat m =? 0 then mret kInitialPrevBlockDigest else
    prevBlock <-- cache_get (Z.of_nat m) ;;
    match prevBlock with
    | None => mthrow (ColumnDataBlockNotAvailable (Z.of_nat m))
    | Some p => pb <-- get_block p ;; mret (m_digest (m_header pb))
    end) s = (Ok g, s') /\ blocks_inv s' m ds /\ m_availableDataBlocks s' = m_availableDataBlocks s /\ bc_free (m_blockCache s') = bc_free (m_blockCache s).
Proof.
  intros Hi Hm. destruct (Z.eqb_spec (Z.of_nat m) 0) as [Hz|Hz]; [by eexists _, s|]. pose proof Hi as [H1 H2 H3 H4 H5 H6 H7 H8].
  pose proof (bc_get_law (m_blockCache s) (Z.of_nat m) H4) as H. unfold mbind at 1, cache_get. destruct (bc_get (m_blockCache s) (Z.of_nat m)) as [r c'].
  destruct H as (Hc' & -> & Hca & Hfr). rewrite H5, decide_True by (unfold len; lia).
  destruct (lookup_lt_is_Some_2 ds (Z.to_nat (Z.of_nat m - 1))) as [d Hd]; [lia|]. destruct (H3 _ d Hd) as (b & f & Hb & _).
  rewrite (mbind_ok _ _ _ _ _ (get_block_ok (set_bcache c' s) _ b Hb)). eexists _, _. split; [done|]. split; [|done]. split; try done. intros id. cbn. by rewrite Hca.
Qed.

(** The last block is closed and a new one comes after it. *)
Lemma createOrGetNextBlock_ok (s : state) m ds d r : blocks_inv s m ds -> length ds = S m -> ds !! m = Some d -> len ds + 1 < 2 ^ 57 ->
  (0 < bc_free (m_blockCache s))%nat -> 0 < r <= A -> avail_erase (Z.of_nat m + 1) (m_availableDataBlocks s) = [] ->
  exists s', createOrGetNextBlock P sha256 time uninitialized m r s = (Ok (S m), s') /\ blocks_inv s' (S m) (ds ++ [[]]) /\
    m_availableDataBlocks s' = [(len ds + 1, A)] /\ S (bc_free (m_blockCache s')) = bc_free (m_blockCache s).
Proof.
  intros Hi Hlen Hd Hsm Hfree Hr Hav. unfold createOrGetNextBlock. rewrite (proj2 (Z.eqb_neq r 0)), Z.gtb_ltb, (proj2 (Z.ltb_ge _ _)) by lia.
  destruct (inv_block s m ds m d Hi Hd) as (b & f & Hb & Hb' & Hf & Hok & _). run_step Hb. cbv zeta. rewrite (block_id_ok _ _ _ _ Hok), (b_prev _ _ _ _ Hok).
  assert (Hln : len ds = Z.of_nat m + 1) by (unfold len; lia).
  assert (E1 : registry_call (C := C) (findNextBlockIds (Z.of_nat m + 1)) s = (Ok (if Z.of_nat m + 1 <? 3 then [] else [Z.of_nat m + 1 - 1]), s)).
  { unfold registry_call, embed. rewrite (registry_next _ (len ds) _ (i_registry _ _ _ Hi)) by lia. by rewrite set_registry_same. }
  run_step E1. destruct (find_next_none s m ds r Hi Hlen ltac:(lia)) as (s2 & E2 & Hi2 & Ha2 & Hf2 & Hb2). run_step E2.
  destruct (createBlock_ok s2 m ds [m] kCreating Hi2 ltac:(lia) Hsm ltac:(lia)) as (s3 & E3 & Hi3 & Ha3 & Hf3). rewrite Hln in E3. run_step E3.
  destruct (prev_digest_ok s3 m (ds ++ [[]]) Hi3) as (g & s4 & E4 & Hi4 & Ha4 & Hf4); [rewrite length_app; lia|]. run_step E4.
  assert (Hl2 : len (ds ++ [[]]) = len ds + 1) by (rewrite len_app; done). assert (Hm2 : (ds ++ [[]]) !! m = Some d) by (by apply lookup_app_l_Some).
  destruct (finalize_ok s4 m (ds ++ [[]]) d g Hi4 Hm2 ltac:(lia)) as (s5 & E5 & Hi5 & Hr5). run_step E5. rewrite mbind_modify.
  destruct Hr5 as [Hr5a Hr5c]. set (s6 := set_available _ s5). assert (Hi6 : blocks_inv s6 (S m) (ds ++ [[]])) by (destruct Hi5 as [? ? ? ? ? ? ?]; by split).
  assert (Ha6 : m_availableDataBlocks s6 = []) by (cbn; congruence). assert (Hnew : (ds ++ [[]]) !! length ds = Some []) by (rewrite lookup_app_r, Nat.sub_diag by lia; done).
  unfold mbind, updateAvailableBlock. rewrite (mbind_ok _ _ _ _ _ (getFreeDataSpace_ok s6 (S m) _ _ [] Hi6 Hnew)). rewrite (mbind_ok _ _ _ _ _ (getId_ok s6 (S m) _ _ [] Hi6 Hnew)).
  unfold modify, mret. rewrite Ha6. cbn [avail_find avail_emplace]. eexists. split; [by rewrite Hlen|]. split; [destruct Hi6 as [? ? ? ? ? ? ?]; by split|].
  split; [cbn; unfold len; cbn [length]; f_equal; f_equal; lia|]. cbn. rewrite Hr5c, Hf4, Hf3. exact Hf2.
Qed.

(** *** Selecting a block *)

(** The available blocks: the last one, if there is one. *)
Definition avail_ok (s : state) (ds : list (list Z)) : Prop :=
  m_availableDataBlocks s = match last ds with None => [] | Some d => [(len ds, A - len d)] end.

(** The data of the blocks when [r] bytes are needed. *)
Definition alloc (ds : list (list Z)) (r : Z) : list (list Z) :=
  match last ds with None => [[]] | Some d => if A - len d >=? r then ds else ds ++ [[]] end.

Definition settled (s : state) (ds : list (list Z)) : Prop := blocks_inv s (pred (length ds)) ds /\ avail_ok s ds.

Lemma alloc_last ds r : 0 < r <= A -> exists pre d, alloc ds r = pre ++ [d] /\ r <= A - len d /\ len d <= A.
Proof.
  intros Hr. pose proof (co_area Hco). unfold alloc. destruct (last ds) as [d|] eqn:Hl.
  - apply last_Some in Hl as [l ->]. destruct (Z.geb_spec (A - len d) r); [exists l, d; split; [done|]; pose proof (len_nonneg d); lia|].
    exists (l ++ [d]), []. split; [done|]. unfold len. cbn [length]. lia.
  - exists [], []. split; [done|]. unfold len. cbn [length]. lia.
Qed.

Lemma lookup_last {T} (l : list T) d : last l = Some d -> l !! pred (length l) = Some d.
Proof. intros [l' ->]%last_Some. rewrite length_app, Nat.add_comm. cbn. rewrite lookup_app_r by lia. by rewrite Nat.sub_diag. Qed.

Lemma selectAvailableBlock_ok (s : state) ds r : settled s ds -> 0 < r <= A -> len ds + 1 < 2 ^ 57 -> (0 < bc_free (m_blockCache s))%nat ->
  exists s', selectAvailableBlock P sha256 time uninitialized r s = (Ok (pred (length (alloc ds r))), s') /\ settled s' (alloc ds r) /\
    (bc_free (m_blockCache s) <= S (bc_free (m_blockCache s')))%nat.
Proof.
  intros [Hi Hav] Hr Hsm Hfree. unfold selectAvailableBlock. rewrite mbind_gets, Hav. unfold avail_ok in Hav. unfold alloc. destruct (last ds) as [d|] eqn:Hl.
  - assert (Hds : ds <> []) by (by intros ->). assert (Hlen : length ds = S (pred (length ds))) by (destruct ds; done).
    pose proof (lookup_last ds d Hl) as Hd. pose proof (len_nonneg ds). assert (Hln : len ds = Z.of_nat (pred (length ds)) + 1) by (unfold len; lia).
    cbn [scan_available snd]. rewrite Z.ltb_irrefl. destruct (loadBlock_ok s _ ds [] (len ds) Hi ltac:(lia)) as (s1 & E1 & Hi1 & Ha1 & Hf1 & Hb1).
    replace (Z.to_nat (len ds - 1)) with (pred (length ds)) in E1 by lia. destruct (A - len d >=? r) eqn:Hge; cbn [fst]; run_step E1.
    + exists s1. split; [done|]. split; [|lia]. split; [done|]. unfold avail_ok. by rewrite Hl, Ha1.
    + run_step (getId_ok s1 _ ds _ d Hi1 Hd). rewrite mbind_modify. cbv beta. rewrite Ha1, Hav. cbn [avail_erase].
      rewrite (proj2 (Z.eqb_eq (len ds) _) Hln).
      set (s2 := set_available [] s1). assert (Hi2 : blocks_inv s2 (pred (length ds)) ds) by (destruct Hi1 as [? ? ? ? ? ? ?]; by split).
      destruct (createOrGetNextBlock_ok s2 _ ds d r Hi2 Hlen Hd Hsm ltac:(cbn; lia) Hr ltac:(done)) as (s3 & E3 & Hi3 & Ha3 & Hf3).
      assert (Hp : pred (length (ds ++ [[]])) = S (pred (length ds))) by (rewrite length_app; cbn; lia).
      exists s3. rewrite Hp. split; [done|]. split; [|cbn in Hf3; lia]. split; [by rewrite Hp|].
      unfold avail_ok. rewrite last_snoc, Ha3, len_app. unfold len. cbn [length]. f_equal. f_equal; lia.
  - apply last_None in Hl as ->. destruct (createBlock_ok s 0 [] [] kCurrent Hi ltac:(done) ltac:(done) Hfree) as (s1 & E1 & Hi1 & Ha1 & Hf1).
    cbn [length] in E1. run_step E1. run_step (getId_ok s1 _ _ 0 [] Hi1 eq_refl). run_step (getFreeDataSpace_ok s1 _ _ 0 [] Hi1 eq_refl). rewrite mbind_modify, Ha1, Hav.
    eexists. split; [done|]. split; [|cbn; lia]. split; [destruct Hi1 as [? ? ? ? ? ? ?]; by split|]. done.
Qed.
End Blocks.
