(* ===== verification/ColumnSpec.v ===== *)
(** * Columns of fixed-size values

    The column as a list of values with their addresses.  A value goes to the
    last block if it has enough room, otherwise to a new block; values are read
    back by their addresses, except at the very end of a block.  This holds as
    long as the cache has a place for every block. *)

From stdpp Require Import base list gmap.
Set Warnings "-clear-no-such-hyp,-notation-incompatible-prefix,-notation-for-abbreviation".
From Stdlib Require Import ZArith Lia.
From S2P Require Import Prelude StateM Bytes VarInt PlainBinary ColumnRecords CNum RawDateTime VariantType Lob Variant VariantConv ColumnType ExprEval ExprTyping.
From S2P Require Import LruCache BlockRegistry BlockRegistrySpec Column ColumnData ColumnBlocks.

Local Open Scope Z_scope.

#[export] Instance ColumnDataType_EqDecision : EqDecision ColumnDataType := ColumnDataType_eq_dec.

(** ** Encoding of values *)

(** The types whose values have a fixed size. *)
Definition fixed_type (t : ColumnDataType) : bool :=
  match t with
  | COLUMN_DATA_TYPE_BOOL | COLUMN_DATA_TYPE_INT8 | COLUMN_DATA_TYPE_UINT8 | COLUMN_DATA_TYPE_INT16 | COLUMN_DATA_TYPE_UINT16
  | COLUMN_DATA_TYPE_INT32 | COLUMN_DATA_TYPE_UINT32 | COLUMN_DATA_TYPE_INT64 | COLUMN_DATA_TYPE_UINT64
  | COLUMN_DATA_TYPE_FLOAT | COLUMN_DATA_TYPE_DOUBLE | COLUMN_DATA_TYPE_TIMESTAMP => true
  | _ => false
  end.

(** The value that is read back. *)
Definition stored_value (t : ColumnDataType) (v : Variant) : Variant :=
  match t, v with
  | COLUMN_DATA_TYPE_UINT8, VNum (CI _ z) => VNum (CI U8 (uw 8 z))
  | _, VDateTime d => VDateTime (canonical d)
  | _, v => v
  end.

(** What a conversion gives. *)
Definition typed (t : ColumnDataType) (v : Variant) : bool :=
  match t, v with
  | COLUMN_DATA_TYPE_BOOL, VBool _ => true
  | COLUMN_DATA_TYPE_INT8, VNum (CI I8 _) => true
  | COLUMN_DATA_TYPE_UINT8, VNum (CI U8 _) | COLUMN_DATA_TYPE_UINT8, VNum (CI I8 _) => true
  | COLUMN_DATA_TYPE_INT16, VNum (CI I16 _) | COLUMN_DATA_TYPE_UINT16, VNum (CI U16 _) => true
  | COLUMN_DATA_TYPE_INT32, VNum (CI I32 _) | COLUMN_DATA_TYPE_UINT32, VNum (CI U32 _) => true
  | COLUMN_DATA_TYPE_INT64, VNum (CI I64 _) | COLUMN_DATA_TYPE_UINT64, VNum (CI U64 _) => true
  | COLUMN_DATA_TYPE_FLOAT, VNum (CF F32 _) | COLUMN_DATA_TYPE_DOUBLE, VNum (CF F64 _) => true
  | COLUMN_DATA_TYPE_TIMESTAMP, VDateTime _ => true
  | _, _ => false
  end.

(** The integers alone in their buffer. *)
Lemma pbe_decode {E} v :
  (u_ok 16 v -> @pbeDecodeUInt16 E (pbeEncodeUInt16 v) = Ok v) /\ (u_ok 32 v -> @pbeDecodeUInt32 E (pbeEncodeUInt32 v) = Ok v) /\
  (u_ok 64 v -> @pbeDecodeUInt64 E (pbeEncodeUInt64 v) = Ok v) /\ (s_ok 16 v -> @pbeDecodeInt16 E (pbeEncodeInt16 v) = Ok v) /\
  (s_ok 32 v -> @pbeDecodeInt32 E (pbeEncodeInt32 v) = Ok v) /\ (s_ok 64 v -> @pbeDecodeInt64 E (pbeEncodeInt64 v) = Ok v).
Proof. pose proof (@pbe_roundtrip_u E v []) as H. pose proof (@pbe_roundtrip_s E v []) as H'. rewrite !app_nil_r in H, H'. tauto. Qed.

Lemma fixed_roundtrip {E E'} t v : typed t v = true -> t <> COLUMN_DATA_TYPE_TIMESTAMP -> Variant_ok v ->
  exists bytes, encode_fixed (E := E) t v = Ok bytes /\ len bytes = fixed_size t /\ decode_fixed (E := E') t bytes = Ok (stored_value t v).
Proof.
  intros Ht Hts Hv. destruct t; try done; destruct v as [|b|[i z|f x]| | | | |]; try done; try destruct i; try destruct f; try done; eexists; (split; [reflexivity|]);
    (split; [reflexivity || apply len_le_store|]); cbn [Variant_ok cnum_ok] in Hv; try (apply in_ity_spec in Hv; cbn [signed ibits] in Hv);
    try pose proof (@pbe_decode E' z) as (D1 & D2 & D3 & D4 & D5 & D6); unfold decode_fixed, stored_value.
  - by destruct b.
  - rewrite rd_cons_0. cbn [bind]. by rewrite sw_of_uw_small.
  - by rewrite rd_cons_0.
  - by rewrite rd_cons_0.
  - by rewrite D4.
  - by rewrite D1.
  - by rewrite D5.
  - by rewrite D2.
  - by rewrite D6.
  - by rewrite D3.
  - destruct (float_bits_roundtrip F32 x Hv) as [Hb Hr]. unfold pbeDecodeFloat, pbeEncodeFloat.
    rewrite (proj1 (proj2 (@pbe_decode E' (float_bits F32 x)))) by done. cbn [bind]. by rewrite Hr.
  - destruct (float_bits_roundtrip F64 x Hv) as [Hb Hr]. unfold pbeDecodeDouble, pbeEncodeDouble.
    rewrite (proj1 (proj2 (proj2 (@pbe_decode E' (float_bits F64 x))))) by done. cbn [bind]. by rewrite Hr.
Qed.

Section Spec.
Context {C : Type} `{BC : BlockCache C} {BL : BlockCacheLaws C} {X : Externals} (P : column_params) (m_dataType : ColumnDataType) (m_notNull : bool).
Context (sha256 : list Z -> list Z) (time : nat -> Z) (uninitialized : Z).
Notation state := (column_state C).
Notation A := (m_dataBlockDataAreaSize P).
Context (Hco : column_ok P sha256 uninitialized) (Hfixed : fixed_type m_dataType = true).
Notation r := (required_length m_dataType).
Notation convert := (convert_value m_dataType).

Lemma convert_typed value cv : convert value = Ok cv -> exists v, cv = Plain v /\ typed m_dataType v = true.
Proof.
  assert (Hplain : forall T (c : outcome VariantError T * Variant) (k : T -> Variant), (x <- fst c ;; Ok (Plain (k x))) = Ok cv -> exists x, cv = Plain (k x)).
  { intros T c k H. apply bind_Ok in H as (x & _ & [= <-]). eauto. }
  destruct m_dataType; try done; unfold convert_value; intros H;
    match type of H with (if VariantType_eqb (getValueType value) ?t then _ else _) = _ => destruct (VariantType_eqb (getValueType value) t) eqn:Et end;
    try (apply Hplain in H as [x ->]; eexists; by split);
    injection H as <-; exists value; (split; [done|]); destruct value as [|b|[i z|f x]| | | | |]; try done; try (by destruct i); try (by destruct f).
Qed.

Lemma required_pos : 1 <= r <= 12.
Proof. destruct m_dataType; try done; cbn; lia. Qed.

(** The bytes of a value of the type, and how they are read. *)
Definition holds_value (bytes : list Z) (w : Variant) : Prop :=
  match m_dataType with
  | COLUMN_DATA_TYPE_TIMESTAMP => exists d, RawDateTime_ok d /\ bytes = serialize d /\ w = VDateTime (canonical d)
  | t => len bytes = fixed_size t /\ decode_fixed (E := ColumnError) t bytes = Ok w
  end.

Lemma encode_ok v : typed m_dataType v = true -> Variant_ok v ->
  exists bytes, encode_fixed (E := ColumnError) m_dataType v = Ok bytes /\ len bytes <= r /\ holds_value bytes (stored_value m_dataType v).
Proof.
  intros Ht Hv. destruct (decide (m_dataType = COLUMN_DATA_TYPE_TIMESTAMP)) as [E|Hne].
  - unfold holds_value, required_length. rewrite E in *. destruct v as [|b|n|d| | | |]; try done. exists (serialize d). split; [done|]. split; [|by exists d].
    rewrite serialize_len. unfold RawDateTime.getSerializedSize. by destruct (m_hasTimePart _).
  - destruct (@fixed_roundtrip ColumnError ColumnError m_dataType v Ht Hne Hv) as (bytes & E1 & E2 & E3). exists bytes. split; [done|].
    unfold holds_value, required_length. rewrite E2. destruct m_dataType; try done; cbn; (split; [lia|by split]).
Qed.

(** ** Writing *)

(** Blocks get longer and more. *)
Definition extends (ds ds' : list (list Z)) : Prop := forall k d, ds !! k = Some d -> exists e, ds' !! k = Some (d ++ e).

Lemma extends_trans ds1 ds2 ds3 : extends ds1 ds2 -> extends ds2 ds3 -> extends ds1 ds3.
Proof. intros H1 H2 k d Hk. destruct (H1 k d Hk) as [e He]. destruct (H2 _ _ He) as [e' He']. exists (e ++ e'). by rewrite app_assoc. Qed.

Lemma stored_extends ds ds' id off bytes : extends ds ds' -> stored ds id off bytes -> stored ds' id off bytes.
Proof.
  intros He (Hid & Hoff & d & Hd & Hl & Hs). destruct (He _ _ Hd) as [e Hd']. split; [done|]. split; [done|]. exists (d ++ e). split; [done|]. rewrite len_app.
  pose proof (len_nonneg e). split; [lia|]. rewrite <- Hs at 2. unfold sub, len in *.
  rewrite drop_app_le by lia. rewrite take_app_le by (rewrite length_drop; lia). done.
Qed.

Lemma alloc_extends ds : extends ds (alloc P ds r).
Proof.
  intros k d Hk. exists []. rewrite app_nil_r. unfold alloc. destruct (last ds) as [l|] eqn:Hl; [|apply last_None in Hl as ->; done].
  case_match; [done|]. by apply lookup_app_l_Some.
Qed.

(** The place of the next value. *)
Definition place (ds : list (list Z)) : ColumnDataAddress :=
  {| m_blockId := len (alloc P ds r); m_offset := match last (alloc P ds r) with Some d => len d | None => 0 end |}.
Definition after (a : ColumnDataAddress) (n : Z) : ColumnDataAddress := {| m_blockId := m_blockId a; m_offset := m_offset a + n |}.

Lemma writeRecord_fixed (s : state) ds value v bytes : settled P uninitialized s ds -> convert value = Ok (Plain v) ->
  encode_fixed (E := ColumnError) m_dataType v = Ok bytes -> len bytes <= r -> isNull value = false -> r <= A -> len ds + 1 < 2 ^ 57 ->
  (0 < bc_free (m_blockCache s))%nat ->
  exists s' ds', writeRecord P m_dataType m_notNull sha256 time uninitialized value s = (Ok {| m_dataAddress := place ds; m_nextAddress := after (place ds) r |}, s') /\
    settled P uninitialized s' ds' /\ extends ds ds' /\ stored ds' (m_blockId (place ds)) (m_offset (place ds)) bytes /\
    len ds' = len (alloc P ds r) /\ (exists d, last ds' = Some d /\ len d = m_offset (place ds) + r) /\ m_offset (place ds) + r <= A /\
    (bc_free (m_blockCache s) <= S (bc_free (m_blockCache s')))%nat.
Proof.
  intros Hs Hcv Henc Hlen Hnull HrA Hsm Hfree. pose proof required_pos as Hr. unfold writeRecord. rewrite Hnull. unfold mbind at 1, mlift, conversion_error at 1. rewrite Hcv.
  destruct (selectAvailableBlock_ok P sha256 time uninitialized Hco s ds r Hs ltac:(lia) Hsm Hfree) as (s1 & E1 & [Hi1 Ha1] & Hf1). run_step E1.
  destruct (alloc_last P sha256 uninitialized Hco ds r ltac:(lia)) as (pre & d & Hal & Hfit & HdA). unfold place. rewrite Hal in *. rewrite last_snoc.
  assert (Hp : pred (length (pre ++ [d])) = length pre) by (rewrite length_app; cbn; lia). rewrite Hp in *.
  assert (Hd : (pre ++ [d]) !! length pre = Some d) by (rewrite lookup_app_r, Nat.sub_diag by lia; done).
  assert (Hln : len (pre ++ [d]) = Z.of_nat (length pre) + 1) by (rewrite len_app; unfold len; cbn; lia).
  run_step (getId_ok P uninitialized s1 _ _ _ d Hi1 Hd). rewrite mbind_gets. unfold avail_ok in Ha1. rewrite last_snoc, Hln in Ha1. rewrite Ha1. cbn [avail_find]. rewrite Z.eqb_refl.
  run_step (getNextDataPos_ok P uninitialized s1 _ _ _ d Hi1 Hd).
  destruct (append_ok P sha256 uninitialized Hco s1 _ _ _ d bytes r Hi1 Hd Hlen ltac:(lia)) as (s2 & s3 & pad & E2 & E3 & Hpad & Hi3 & [Hr3 Hc3]).
  assert (Ew : write_converted P m_dataType sha256 time uninitialized (Plain v) (length pre) s1 = (Ok None, s3)).
  { unfold write_converted. assert (Hgen : (bytes' <-- mlift (encode_fixed m_dataType v) ;; block_append P (length pre) bytes' ;;' incNextDataPos P (length pre) r ;;' mret None) s1 = (Ok (@None WriteRecordResult), s3)).
    { unfold mbind at 1, mlift. rewrite Henc. run_step E2. run_step E3. done. }
    destruct m_dataType; try done; exact Hgen. }
  run_step Ew. set (d' := d ++ bytes ++ pad) in *. assert (Hins : <[length pre := d']> (pre ++ [d]) = pre ++ [d']) by (by rewrite <- (Nat.add_0_r (length pre)), insert_app_r).
  rewrite Hins in Hi3. assert (Hd' : (pre ++ [d']) !! length pre = Some d') by (rewrite lookup_app_r, Nat.sub_diag by lia; done).
  assert (Hdl : len d' = len d + r) by (unfold d'; rewrite !len_app; lia).
  unfold update_found. unfold mbind at 1. rewrite mbind_gets, Hr3, Ha1. cbn [avail_find]. rewrite Z.eqb_refl.
  run_step (getFreeDataSpace_ok P sha256 uninitialized Hco s3 _ _ _ d' Hi3 Hd'). unfold modify at 1. rewrite Hr3, Ha1. cbn [avail_assign]. rewrite Z.eqb_refl.
  set (s4 := set_available _ s3). assert (Hi4 : blocks_inv P uninitialized s4 (length pre) (pre ++ [d'])) by (destruct Hi3 as [? ? ? ? ? ? ? ?]; by split).
  run_step (getNextDataPos_ok P uninitialized s4 _ _ _ d' Hi4 Hd'). exists s4, (pre ++ [d']).
  assert (Hln' : len (pre ++ [d']) = Z.of_nat (length pre) + 1) by (rewrite len_app; unfold len; cbn; lia). rewrite Hln, Hln', Hdl. cbn [m_blockId m_offset after].
  split; [done|]. split; [split; [by rewrite length_app, Nat.add_comm|unfold avail_ok; by rewrite last_snoc, Hln']|]. split.
  { eapply extends_trans; [apply alloc_extends|]. rewrite Hal. intros k e Hk. destruct (decide (k = length pre)) as [->|Hne].
    - rewrite Hd in Hk. injection Hk as <-. by exists (bytes ++ pad).
    - exists []. rewrite app_nil_r. rewrite !lookup_app_l in * by (apply lookup_lt_Some in Hk; rewrite length_app in Hk; cbn in Hk; lia). done. }
  split.
  { pose proof (len_nonneg d). pose proof (len_nonneg bytes). split; [lia|]. split; [lia|]. exists d'. replace (Z.to_nat (Z.of_nat (length pre) + 1 - 1)) with (length pre) by lia.
    split; [done|]. split; [lia|]. unfold d'. rewrite <- (Z.add_0_r (len d)). rewrite sub_app_mid by lia. unfold sub. cbn [Z.to_nat]. rewrite drop_0. apply firstn_len. }
  split; [done|]. split; [exists d'; by rewrite last_snoc|]. split; [lia|]. cbn. rewrite Hc3. lia.
Qed.

(** ** Reading *)

Lemma stored_split ds id off b1 b2 : stored ds id off (b1 ++ b2) -> stored ds id off b1 /\ stored ds id (off + len b1) b2.
Proof.
  intros (Hid & Hoff & d & Hd & Hl & Hs). pose proof (len_nonneg b1). pose proof (len_nonneg b2). rewrite len_app in *.
  rewrite sub_split in Hs by lia. assert (Hlen : length (sub d off (len b1)) = length b1) by (pose proof (sub_len d off (len b1)); unfold len in *; lia).
  apply app_inj_1 in Hs as [Hs1 Hs2]; [|done]. split; (split; [done|]; split; [lia|]; exists d; split; [done|]; split; [lia|done]).
Qed.

Lemma serialize_date x : exists b1 b2, serialize x = b1 ++ b2 /\ len b1 = 4 /\
  (forall u, RawDateTime_ok x -> exists y, deserializeDatePart (E := ColumnError) u b1 = Ok y /\
    (b2 = [] /\ y = canonical x /\ m_hasTimePart (m_datePart y) = false \/ len b2 = 6 /\ m_hasTimePart (m_datePart y) = true)).
Proof.
  unfold serialize, canonical. rewrite time_word_low. set (t := clear_reserved2 (m_timePart x)). set (dt := with_hasTimePart _ _).
  exists (le_store 4 (date_word dt)), (if time_word t =? 0 then [] else le_store 4 (time_word t) ++ le_store 2 (Z.shiftr (time_word t) 32)).
  split; [case_match; [by rewrite app_nil_r|done]|]. split; [apply len_le_store|]. intros u [Ht Hd]. unfold deserializeDatePart.
  pose proof (@memrd_le_store ColumnError 4 (date_word dt) []) as Hm. rewrite app_nil_r in Hm. change (Z.of_nat 4) with 4 in Hm. rewrite Hm. cbn [bind].
  rewrite date_bytes_load by exact Hd. change (m_hasTimePart dt) with (negb (time_word t =? 0)). destruct (Z.eqb_spec (time_word t) 0) as [E0|E0]; cbn [negb].
  - eexists. split; [done|]. left. split; [done|]. split; [|done]. by rewrite (time_word_zero t (clear_reserved2_ok _ Ht) E0).
  - eexists. split; [done|]. right. split; [by rewrite len_app, !len_le_store|done].
Qed.

Lemma stored_bounds (s : state) m ds id off bytes : blocks_inv P uninitialized s m ds -> stored ds id off bytes -> 1 <= id <= len ds /\ off + len bytes <= A.
Proof.
  intros Hi (Hid & Hoff & d & Hd & Hl & _). destruct (i_blocks _ _ _ _ _ Hi _ _ Hd) as (b & f & _ & _ & Hok & _).
  pose proof (b_fits _ _ _ _ _ _ Hok). apply lookup_lt_Some in Hd. unfold len in *. lia.
Qed.

Lemma read_timestamp_ok (s : state) m ds id off d : blocks_inv P uninitialized s m ds -> stored ds id off (serialize d) -> RawDateTime_ok d ->
  read_timestamp P (Z.to_nat (id - 1)) off s = (Ok (RValue (VDateTime (canonical d))), s).
Proof.
  intros Hi Hst Hd. destruct (stored_bounds s m ds id off _ Hi Hst) as [_ Hb]. pose proof (co_file P sha256 uninitialized Hco). destruct Hst as (Hid & Hoff & Hst').
  destruct (serialize_date d) as (b1 & b2 & Hser & Hl1 & Hde). destruct (Hde ext_uninit Hd) as (y & Hy & Hcase). unfold read_timestamp.
  assert (Hst : stored ds id off (b1 ++ b2)) by (rewrite <- Hser; by split). rewrite Hser, len_app in Hb. apply stored_split in Hst as [H1 H2]. rewrite Hl1 in *.
  pose proof (block_readData_ok P sha256 uninitialized Hco s m ds id off b1 Hi H1) as E1. rewrite Hl1 in E1. run_step E1. unfold mbind at 1, mlift. rewrite Hy.
  destruct Hcase as [(_ & -> & ->)|(Hl2 & ->)]; [done|]. pose proof (block_readData_ok P sha256 uninitialized Hco s m ds id (off + 4) b2 Hi H2) as E2. rewrite Hl2 in E2.
  rewrite uw_small by (unfold u_ok; lia). run_step E2. unfold mbind, mlift.
  pose proof (@deserialize_canonical ColumnError d y [] Hd) as Hcan. rewrite app_nil_r, Hser, len_app, Hl1, Hl2 in Hcan. change (4 + 6) with 10 in Hcan. by rewrite Hcan.
Qed.

(** The value [w] at the address [a]. *)
Definition value_at (ds : list (list Z)) (a : ColumnDataAddress) (w : Variant) : Prop :=
  (a = kNullValueAddress /\ w = VNull) \/
  exists bytes, stored ds (m_blockId a) (m_offset a) bytes /\ holds_value bytes w /\ m_offset a + r <= A.

(** The error at the end of a block. *)
Definition spec_read (a : ColumnDataAddress) (w : Variant) : outcome ColumnError ReadValue :=
  if isNullValueAddress a then Ok (RValue VNull)
  else if m_offset a + min_required m_dataType >=? A then Throw (InvalidDataBlockPosition (m_blockId a) (m_offset a))
  else Ok (RValue w).

Lemma readRecord_ok (s : state) ds a w : settled P uninitialized s ds -> value_at ds a w ->
  exists s', readRecord P m_dataType uninitialized a s = (spec_read a w, s') /\ settled P uninitialized s' ds /\ bc_free (m_blockCache s') = bc_free (m_blockCache s).
Proof.
  intros [Hi Hav] [[-> ->]|(bytes & Hst & Hv & HrA)]; [by exists s|]. destruct (stored_bounds s _ ds _ _ _ Hi Hst) as [Hid Hb]. pose proof (co_file P sha256 uninitialized Hco).
  pose proof required_pos as Hr. unfold readRecord, spec_read. assert (Hnull : isNullValueAddress a = false) by (unfold isNullValueAddress; rewrite (proj2 (Z.eqb_neq (m_blockId a) 0)) by lia; done).
  rewrite Hnull. unfold findExistingBlock. destruct (loadBlock_ok P uninitialized s _ ds [] (m_blockId a) Hi Hid) as (s1 & E1 & Hi1 & Ha1 & Hf1 & _). run_step E1.
  pose proof (proj1 (proj2 Hst)) as Hoff. assert (Hmin : 0 <= min_required m_dataType <= r) by (destruct m_dataType; try done; cbn; lia). rewrite uw_small by (unfold u_ok; lia).
  exists s1. split; [|split; [split; [done|unfold avail_ok in *; congruence]|done]]. destruct (_ >=? A); [done|]. unfold holds_value in Hv.
  destruct (decide (m_dataType = COLUMN_DATA_TYPE_TIMESTAMP)) as [E|Hne].
  - rewrite E in *. destruct Hv as (d & Hd & -> & ->). by eapply read_timestamp_ok.
  - pose proof (block_readData_ok P sha256 uninitialized Hco s1 _ ds _ _ bytes Hi1 Hst) as E2.
    destruct m_dataType; try done; destruct Hv as [Hl Hdec]; rewrite Hl in E2; run_step E2; unfold mbind, mlift; by rewrite Hdec.
Qed.

(** ** Sequences of operations *)

(** The caller keeps the addresses of the values it wrote, and reads by them. *)
Inductive ColOp : Type := CWrite (value : Variant) | CRead (i : nat).
Inductive ColResult : Type := CWritten (w : WriteRecordResult) | CValue (v : ReadValue) | CNothing.

Definition run_op (op : ColOp) (addrs : list ColumnDataAddress) (s : state) : outcome ColumnError ColResult * list ColumnDataAddress * state :=
  match op with
  | CWrite value =>
      let '(o, s1) := writeRecord P m_dataType m_notNull sha256 time uninitialized value s in
      (outcome_map CWritten o, match o with Ok w => addrs ++ [m_dataAddress w] | _ => addrs end, s1)
  | CRead i =>
      match addrs !! i with
      | None => (Ok CNothing, addrs, s)
      | Some a => let '(o, s1) := readRecord P m_dataType uninitialized a s in (outcome_map CValue o, addrs, s1)
      end
  end.

Fixpoint run_ops (ops : list ColOp) (addrs : list ColumnDataAddress) (s : state) : list (outcome ColumnError ColResult) * state :=
  match ops with
  | [] => ([], s)
  | op :: ops' =>
      let '(o, addrs1, s1) := run_op op addrs s in
      let '(os, s2) := run_ops ops' addrs1 s1 in (o :: os, s2)
  end.

(** *** The abstract column *)

(** The number of blocks, the next position in the last one, and the values. *)
Record acolumn : Type := { a_count : Z; a_next : Z; a_values : list (ColumnDataAddress * Variant) }.

Definition a_place (c : acolumn) : ColumnDataAddress :=
  if a_count c =? 0 then {| m_blockId := 1; m_offset := 0 |}
  else if A - a_next c >=? r then {| m_blockId := a_count c; m_offset := a_next c |}
  else {| m_blockId := a_count c + 1; m_offset := 0 |}.

Definition spec_op (op : ColOp) (c : acolumn) : outcome ColumnError ColResult * acolumn :=
  match op with
  | CWrite value =>
      if isNull value then
        if m_notNull then (Throw CannotInsertNullValue, c)
        else (Ok (CWritten null_result), {| a_count := a_count c; a_next := a_next c; a_values := a_values c ++ [(kNullValueAddress, VNull)] |})
      else
        match conversion_error value (convert value) with
        | Ok (Plain v) =>
            let a := a_place c in
            (Ok (CWritten {| m_dataAddress := a; m_nextAddress := after a r |}),
             {| a_count := m_blockId a; a_next := m_offset a + r; a_values := a_values c ++ [(a, stored_value m_dataType v)] |})
        | Ok _ => (Undef Uninitialized, c)
        | Throw e => (Throw e, c)
        | Undef u => (Undef u, c)
        end
  | CRead i =>
      match a_values c !! i with
      | None => (Ok CNothing, c)
      | Some (a, w) => (outcome_map CValue (spec_read a w), c)
      end
  end.

Fixpoint spec_ops (ops : list ColOp) (c : acolumn) : list (outcome ColumnError ColResult) :=
  match ops with [] => [] | op :: ops' => let '(o, c1) := spec_op op c in o :: spec_ops ops' c1 end.

Definition col_op_ok (op : ColOp) : Prop :=
  match op with CWrite value => match convert value with Ok (Plain v) => Variant_ok v | _ => True end | CRead _ => True end.

Definition represents (s : state) (c : acolumn) (ds : list (list Z)) : Prop :=
  settled P uninitialized s ds /\ len ds = a_count c /\ a_next c = match last ds with Some d => len d | None => 0 end /\
  Forall (fun p => value_at ds p.1 p.2) (a_values c).

Lemma place_agrees s c ds : represents s c ds -> r <= A -> place ds = a_place c.
Proof.
  intros (_ & Hn & Hx & _) Hr. unfold place, a_place, alloc. rewrite <- Hn, Hx. destruct (last ds) as [d|] eqn:Hl.
  - assert (Hpos : len ds <> 0) by (destruct ds; [done|]; rewrite len_cons; pose proof (len_nonneg ds); lia). rewrite (proj2 (Z.eqb_neq _ 0)) by done.
    case_match; [by rewrite Hl|]. rewrite last_snoc, len_app. done.
  - by apply last_None in Hl as ->.
Qed.

Lemma values_extend ds ds' l : extends ds ds' -> Forall (fun p : ColumnDataAddress * Variant => value_at ds p.1 p.2) l -> Forall (fun p => value_at ds' p.1 p.2) l.
Proof.
  intros He Hl. eapply Forall_impl; [exact Hl|]. cbn. intros p [?|(b & Hst & ?)]; [by left|]. right. exists b. split; [by eapply stored_extends|done].
Qed.

Lemma column_op_refines op s c ds : represents s c ds -> col_op_ok op -> r <= A -> len ds + 1 < 2 ^ 57 -> (0 < bc_free (m_blockCache s))%nat ->
  exists s' ds', run_op op (a_values c).*1 s = (fst (spec_op op c), (a_values (snd (spec_op op c))).*1, s') /\ represents s' (snd (spec_op op c)) ds' /\
    len ds' <= len ds + 1 /\ (bc_free (m_blockCache s) <= S (bc_free (m_blockCache s')))%nat.
Proof.
  intros Hrep Hop HrA Hsm Hfree. pose proof Hrep as (Hs & Hn & Hx & Hv). destruct op as [value|i]; cbn [run_op spec_op].
  - assert (Hsame : forall o, exists s' ds', (o : outcome ColumnError ColResult, (a_values c).*1, s) = (o, (a_values c).*1, s') /\ represents s' c ds' /\
      len ds' <= len ds + 1 /\ (bc_free (m_blockCache s) <= S (bc_free (m_blockCache s')))%nat) by (intros o; exists s, ds; split_and!; [done|done|lia|lia]).
    destruct (isNull value) eqn:Hnull.
    + unfold writeRecord. rewrite Hnull. destruct m_notNull; [apply Hsame|]. exists s, ds. cbn. rewrite fmap_app. split; [done|]. split; [|lia].
      split; [done|]. split; [done|]. split; [done|]. apply Forall_app. split; [done|]. constructor; [by left|done].
    + destruct (convert value) as [cv|e|u] eqn:Hcv; cbn [conversion_error].
      * destruct (convert_typed value cv Hcv) as (v & -> & Ht). cbn in Hop. rewrite Hcv in Hop. destruct (encode_ok v Ht Hop) as (bytes & Henc & Hlb & Hh).
        destruct (writeRecord_fixed s ds value v bytes Hs Hcv Henc Hlb Hnull HrA Hsm Hfree) as (s' & ds' & E & Hs' & He & Hst & Hl' & (d & Hld & Hdl) & Hfit & Hf).
        rewrite E. rewrite (place_agrees s c ds Hrep HrA) in *. exists s', ds'. cbn. rewrite fmap_app. split; [done|].
        assert (Hcount : len ds' = m_blockId (a_place c)) by (rewrite Hl', <- (place_agrees s c ds Hrep HrA); done).
        split; [|split; [rewrite Hl'; unfold alloc; repeat case_match; rewrite ?len_app; unfold len in *; cbn [length] in *; lia|done]].
        split; [done|]. split; [done|]. split; [by rewrite Hld|]. apply Forall_app. split; [by eapply values_extend|]. constructor; [|done]. right. by exists bytes.
      * unfold writeRecord. rewrite Hnull. unfold mbind at 1, mlift, conversion_error. rewrite Hcv. destruct e; apply Hsame.
      * unfold writeRecord. rewrite Hnull. unfold mbind at 1, mlift, conversion_error. rewrite Hcv. apply Hsame.
  - rewrite list_lookup_fmap. destruct (a_values c !! i) as [[a w]|] eqn:Hi; cbn [fmap option_fmap option_map fst].
    + pose proof (Forall_lookup_1 _ _ _ _ Hv Hi) as Ha. cbn in Ha. destruct (readRecord_ok s ds a w Hs Ha) as (s' & E & Hs' & Hf). rewrite E.
      exists s', ds. split; [done|]. split; [|lia]. by split.
    + exists s, ds. split; [done|]. split; [done|]. lia.
Qed.

Lemma column_ops_refine ops : Forall col_op_ok ops -> r <= A -> forall s c ds, represents s c ds -> len ds + len ops < 2 ^ 57 -> (length ops <= bc_free (m_blockCache s))%nat ->
  exists s' ds', run_ops ops (a_values c).*1 s = (spec_ops ops c, s') /\ settled P uninitialized s' ds'.
Proof.
  intros Hops HrA. induction Hops as [|op ops Hop _ IH]; intros s c ds Hrep Hsm Hfree; [exists s, ds; split; [done|apply Hrep]|].
  rewrite len_cons in Hsm. cbn [length] in Hfree. pose proof (len_nonneg ops).
  destruct (column_op_refines op s c ds Hrep Hop HrA ltac:(lia) ltac:(lia)) as (s1 & ds1 & E & Hrep1 & Hl & Hf). cbn [run_ops spec_ops]. rewrite E. destruct (spec_op op c) as [o c1]. cbn in *.
  destruct (IH s1 c1 ds1 Hrep1 ltac:(lia) ltac:(lia)) as (s2 & ds2 & E2 & Hs2). rewrite E2. by exists s2, ds2.
Qed.

Lemma new_represents (cache : C) : bc_ok cache -> (forall id, bcached cache id = None) ->
  represents (new_column cache None None) {| a_count := 0; a_next := 0; a_values := [] |} [].
Proof.
  intros Hc Hn. split; [|split; [done|split; [done|constructor]]]. split; [|done]. split; cbn; try done; [|apply registry_new].
  intros id. rewrite Hn. rewrite decide_False; [done|]. unfold len. cbn [length]. lia.
Qed.
End Spec.

(** C15: a column of fixed-size values refines a list of values while no block is
    evicted from its cache.  From a new column, with room on the disk and at least
    as many free places in the cache as there are operations, every sequence of
    writes and of reads by the addresses that the writes returned gives the results
    of the abstract column: values go one after the other into blocks, each write
    returns the address of the value and the one after it, and a read returns
    the value as converted to the type of the column, or NULL, or the error for
    a value that ends at the end of its block.  [evicted_block_overwritten] shows
    what an eviction does. *)
Theorem column_refines {C : Type} `{BC : BlockCache C} {BL : BlockCacheLaws C} {X : Externals} (P : column_params) t notNull sha256 time uninitialized cache ops :
  column_ok P sha256 uninitialized -> fixed_type t = true -> required_length t <= m_dataBlockDataAreaSize P ->
  bc_ok cache -> (forall id, bcached cache id = None) -> (length ops <= bc_free cache)%nat -> len ops < 2 ^ 57 -> Forall (col_op_ok t) ops ->
  fst (run_ops P t notNull sha256 time uninitialized ops [] (new_column cache None None)) =
  spec_ops P t notNull ops {| a_count := 0; a_next := 0; a_values := [] |}.
Proof.
  intros Hco Ht HrA Hc Hn Hfree Hlen Hops.
  destruct (column_ops_refine P t notNull sha256 time uninitialized Hco Ht ops Hops HrA _ _ [] (new_represents P t uninitialized cache Hc Hn)) as (s' & ds' & E & _); [done|done|].
  cbn in E. by rewrite E.
Qed.

(** ** A concrete column *)

Definition sample_column (area : Z) : column_params :=
  {| m_dataBlockDataAreaSize := area; cp_databaseUuid := repeat 7 16; cp_tableId := 3; cp_columnId := 4; cp_tmpFile := true |}.
Definition sample_hash (l : list Z) : list Z := repeat (foldr Z.lxor 0 l) 32.
Definition sample_time (n : nat) : Z := 1600000000 + Z.of_nat n.
Definition sample_blocks (capacity : nat) : lru_cache (K := Z) (T := nat) := empty_cache capacity.

Lemma sample_column_ok area : 0 < area < 2 ^ 31 -> column_ok (sample_column area) sample_hash 99.
Proof.
  intros Ha. split; cbn; try (unfold u_ok; lia); [done|]. intros l. reflexivity.
Qed.

Lemma sample_blocks_ok capacity : bc_ok (sample_blocks capacity) /\ (forall id, bcached (sample_blocks capacity) id = None) /\ bc_free (sample_blocks capacity) = capacity.
Proof.
  split; [|split; [done|cbn; lia]]. split; cbn; try constructor; intros; try done; [by apply elem_of_nil in H|by apply elem_of_nil in H|]. destruct H as [v Hv]. by rewrite lookup_empty in Hv.
Qed.

Definition number (z : Z) : Variant := VNum (CI I64 z).

Lemma column_refines_witness :
  fst (run_ops (sample_column 10) COLUMN_DATA_TYPE_INT32 false sample_hash sample_time 99
         [CWrite (number 5); CWrite (number (-7)); CWrite (VString [49; 50]); CRead 2; CRead 0; CWrite VNull; CRead 3; CRead 1] [] (new_column (sample_blocks 8) None None)) =
  [Ok (CWritten {| m_dataAddress := {| m_blockId := 1; m_offset := 0 |}; m_nextAddress := {| m_blockId := 1; m_offset := 4 |} |});
   Ok (CWritten {| m_dataAddress := {| m_blockId := 1; m_offset := 4 |}; m_nextAddress := {| m_blockId := 1; m_offset := 8 |} |});
   Ok (CWritten {| m_dataAddress := {| m_blockId := 2; m_offset := 0 |}; m_nextAddress := {| m_blockId := 2; m_offset := 4 |} |});
   Ok (CValue (RValue (VNum (CI I32 12)))); Ok (CValue (RValue (VNum (CI I32 5)))); Ok (CWritten null_result); Ok (CValue (RValue VNull));
   Ok (CValue (RValue (VNum (CI I32 (-7)))))].
Proof.
  rewrite (column_refines (sample_column 10) COLUMN_DATA_TYPE_INT32).
  - vm_compute. reflexivity.
  - apply sample_column_ok. lia.
  - reflexivity.
  - vm_compute. discriminate.
  - apply sample_blocks_ok.
  - apply sample_blocks_ok.
  - rewrite (proj2 (proj2 (sample_blocks_ok 8))). cbn. lia.
  - vm_compute. reflexivity.
  - repeat constructor; vm_compute; exact I || reflexivity.
Defined.

(** C16: the blocks of a column of fixed-size values keep their invariant while no
    block is evicted from the cache: after any sequence of writes and reads that is
    not longer than the cache has free places, the objects, data files, cache,
    registry and available blocks agree.  Every block but the last is closed, each
    file has the size of the header and data area, no position is beyond the data
    area, and the one available block is the last one with its free space. *)
Theorem column_invariant {C : Type} `{BC : BlockCache C} {BL : BlockCacheLaws C} {X : Externals} (P : column_params) t notNull sha256 time uninitialized cache ops :
  column_ok P sha256 uninitialized -> fixed_type t = true -> required_length t <= m_dataBlockDataAreaSize P ->
  bc_ok cache -> (forall id, bcached cache id = None) -> (length ops <= bc_free cache)%nat -> len ops < 2 ^ 57 -> Forall (col_op_ok t) ops ->
  let s := snd (run_ops P t notNull sha256 time uninitialized ops [] (new_column cache None None)) in
  exists ds, settled P uninitialized s ds /\
    (forall k b, c_blocks s !! k = Some b -> exists f, c_files s !! (Z.of_nat k + 1) = Some f /\ len f = 1024 + m_dataBlockDataAreaSize P /\
       m_nextDataOffset (m_header b) <= m_dataBlockDataAreaSize P /\ (S k < length (c_blocks s) -> m_state b = kClosed)%nat).
Proof.
  intros Hco Ht HrA Hc Hn Hfree Hlen Hops.
  destruct (column_ops_refine P t notNull sha256 time uninitialized Hco Ht ops Hops HrA _ _ [] (new_represents P t uninitialized cache Hc Hn)) as (s' & ds' & E & Hs); [done|done|].
  cbn in E. rewrite E. cbn. exists ds'. split; [done|]. destruct Hs as [Hi _]. intros k b Hk. pose proof (i_objects _ _ _ _ _ Hi) as Hob.
  destruct (lookup_lt_is_Some_2 ds' k) as [d Hd]; [apply lookup_lt_Some in Hk; lia|]. destruct (i_blocks _ _ _ _ _ Hi k d Hd) as (b' & f & Hb' & Hf & Hok & Hst).
  rewrite Hk in Hb'. injection Hb' as <-. exists f. split; [done|]. split; [apply (b_file _ _ _ _ _ _ Hok)|]. split; [rewrite (b_next _ _ _ _ _ _ Hok); apply (b_fits _ _ _ _ _ _ Hok)|].
  intros Hlt. apply Hst. lia.
Qed.

Lemma column_invariant_witness :
  let s := snd (run_ops (sample_column 10) COLUMN_DATA_TYPE_INT32 false sample_hash sample_time 99
         [CWrite (number 5); CWrite (number (-7)); CWrite (number 1)] [] (new_column (sample_blocks 8) None None)) in
  exists ds, settled (sample_column 10) 99 s ds.
Proof.
  destruct (column_invariant (sample_column 10) COLUMN_DATA_TYPE_INT32 false sample_hash sample_time 99 (sample_blocks 8)
    [CWrite (number 5); CWrite (number (-7)); CWrite (number 1)]) as (ds & H & _).
  - apply sample_column_ok. lia.
  - reflexivity.
  - vm_compute. discriminate.
  - apply sample_blocks_ok.
  - apply sample_blocks_ok.
  - rewrite (proj2 (proj2 (sample_blocks_ok 8))). cbn. lia.
  - vm_compute. reflexivity.
  - repeat constructor; vm_compute; exact I || reflexivity.
  - exists ds. exact H.
Defined.
