(* ===== verification/ColumnText.v ===== *)
(** * Text and binary columns

    A text or binary value that fits into the selected block is written as one
    chunk and read back at any later time.  A value that does not fit is a chain
    of chunks whose last step uses an iterator of an erased map entry, and a CLOB
    or BLOB gets the address that stands for NULL. *)

From stdpp Require Import base list gmap.
Set Warnings "-clear-no-such-hyp,-notation-incompatible-prefix,-notation-for-abbreviation".
From Stdlib Require Import ZArith Lia.
From S2P Require Import Prelude StateM Bytes PlainBinary ColumnRecords CNum VariantType Lob Variant VariantConv ColumnType ExprEval ExprTyping.
From S2P Require Import LruCache BlockRegistry Column ColumnData ColumnBlocks ColumnSpec.

Local Open Scope Z_scope.

Section Text.
Context {C : Type} `{BC : BlockCache C} {BL : BlockCacheLaws C} {X : Externals} (P : column_params) (t : ColumnDataType) (m_notNull : bool).
Context (sha256 : list Z -> list Z) (time : nat -> Z) (uninitialized : Z).
Notation state := (column_state C).
Notation A := (m_dataBlockDataAreaSize P).
Context (Hco : column_ok P sha256 uninitialized).

(** The two kinds of columns, their values and what is read. *)
Definition lob_column : bool := match t with COLUMN_DATA_TYPE_TEXT | COLUMN_DATA_TYPE_BINARY => true | _ => false end.
Definition lob_variant (bytes : list Z) : Variant := match t with COLUMN_DATA_TYPE_TEXT => VString bytes | _ => VBinary bytes end.
Definition read_back (bytes : list Z) : Variant := match t with COLUMN_DATA_TYPE_TEXT => VString (c_str bytes) | _ => VBinary bytes end.
Context (Ht : lob_column = true).

Lemma lob_required : required_length t = 10 /\ min_required t = 10.
Proof. unfold lob_column in Ht. by destruct t. Qed.

(** The stored form of a value in one chunk. *)
Definition one_chunk (bytes : list Z) : list Z := lob_header_serialize (chunk_header (len bytes) (len bytes)) ++ bytes.

Lemma one_chunk_len bytes : len (one_chunk bytes) = 20 + len bytes.
Proof. unfold one_chunk. by rewrite len_app, lob_header_len. Qed.

(** ** Writing *)

Lemma insert_last (pre : list (list Z)) d d' : <[length pre := d']> (pre ++ [d]) = pre ++ [d'].
Proof. by rewrite <- (Nat.add_0_r (length pre)), insert_app_r. Qed.

Lemma lookup_snoc (pre : list (list Z)) d : (pre ++ [d]) !! length pre = Some d.
Proof. by rewrite lookup_app_r, Nat.sub_diag by lia. Qed.

(** Bytes appended to the last block. *)
Lemma append_last (s : state) m pre d bytes : blocks_inv P uninitialized s m (pre ++ [d]) -> len d + len bytes <= A ->
  exists s1 s', block_append P (length pre) bytes s = (Ok tt, s1) /\ incNextDataPos P (length pre) (len bytes) s1 = (Ok tt, s') /\
    blocks_inv P uninitialized s' m (pre ++ [d ++ bytes]) /\ same_rest s s'.
Proof.
  intros Hi Hl. destruct (append_ok P sha256 uninitialized Hco s m _ (length pre) d bytes (len bytes) Hi (lookup_snoc pre d) ltac:(lia) Hl) as (s1 & s' & pad & E1 & E2 & Hp & Hi' & Hr).
  assert (pad = []) as -> by (destruct pad; [done|]; rewrite len_cons in Hp; pose proof (len_nonneg pad); lia). rewrite app_nil_r, insert_last in Hi'. eauto 6.
Qed.

Lemma chunk_header_written (s : state) m pre d c k : blocks_inv P uninitialized s m (pre ++ [d]) -> ch_block c = length pre -> 0 <= k -> len d + 20 + k <= A ->
  exists s', write_chunk_header P c k s = (Ok (chunk_header k k, len d), s') /\
    blocks_inv P uninitialized s' m (pre ++ [d ++ lob_header_serialize (chunk_header k k)]) /\ same_rest s s'.
Proof.
  intros Hi Hc Hk Hl. pose proof (co_file P sha256 uninitialized Hco). pose proof (len_nonneg d). unfold write_chunk_header. rewrite Hc.
  run_step (getFreeDataSpace_ok P sha256 uninitialized Hco s m _ _ d Hi (lookup_snoc pre d)). cbv zeta. unfold kLobChunkHeaderSize. rewrite uw_small by (unfold u_ok; lia).
  rewrite Z.min_r by lia. run_step (getNextDataPos_ok P uninitialized s m _ _ d Hi (lookup_snoc pre d)).
  destruct (append_last s m pre d (lob_header_serialize (chunk_header k k)) Hi) as (s1 & s2 & E1 & E2 & Hi2 & Hr2); [rewrite lob_header_len; unfold kLobChunkHeaderSize; lia|].
  rewrite lob_header_len in E2. run_step E1. run_step E2. by exists s2.
Qed.

Lemma chunk_block_same (s : state) m pre d c : blocks_inv P uninitialized s m (pre ++ [d]) -> ch_block c = length pre -> len d + 20 <= A ->
  chunk_block P sha256 time uninitialized c s = (Ok c, s).
Proof.
  intros Hi Hc Hl. unfold chunk_block. cbv zeta. rewrite Hc. run_step (getFreeDataSpace_ok P sha256 uninitialized Hco s m _ _ d Hi (lookup_snoc pre d)).
  unfold kLobChunkHeaderSize. by rewrite (proj2 (Z.ltb_ge _ _)) by lia.
Qed.

Lemma writeBuffer_fits (s : state) m pre d bytes : blocks_inv P uninitialized s m (pre ++ [d]) -> len d + 20 + len bytes <= A ->
  exists w s', writeBuffer P sha256 time uninitialized bytes (length pre) s = (Ok w, s') /\
    blocks_inv P uninitialized s' m (pre ++ [d ++ one_chunk bytes]) /\ same_rest s s'.
Proof.
  intros Hi Hl. pose proof (len_nonneg bytes) as Hb. unfold writeBuffer. replace (2 * length bytes + 2)%nat with (S (2 * length bytes + 1)) by lia. cbn [writeBuffer_loop]. cbv zeta.
  run_step (chunk_block_same s m pre d (first_chunk (length pre)) Hi eq_refl ltac:(lia)).
  destruct (chunk_header_written s m pre d (first_chunk (length pre)) (len bytes) Hi eq_refl Hb Hl) as (s1 & E1 & Hi1 & Hr1). run_step E1. cbv beta iota. cbn [m_chunkLength chunk_header].
  set (d1 := d ++ lob_header_serialize (chunk_header (len bytes) (len bytes))) in *.
  assert (Hd1 : len d1 = len d + 20) by (unfold d1; rewrite len_app, lob_header_len; done).
  assert (E2 : exists s2, (if len bytes >? 0 then block_append P (length pre) (take (Z.to_nat (len bytes)) bytes) ;;' incNextDataPos P (length pre) (len bytes) else mret tt) s1 = (Ok tt, s2) /\
    blocks_inv P uninitialized s2 m (pre ++ [d1 ++ bytes]) /\ same_rest s1 s2).
  { rewrite Z.gtb_ltb. destruct (Z.ltb_spec 0 (len bytes)) as [Hpos|Hz].
    - rewrite firstn_len. destruct (append_last s1 m pre d1 bytes Hi1 ltac:(lia)) as (s2 & s3 & Ea & Eb & Hi3 & Hr3). exists s3. split; [by run_step Ea|done].
    - assert (bytes = []) as -> by (destruct bytes; [done|]; rewrite len_cons in Hz; pose proof (len_nonneg bytes); lia). rewrite app_nil_r. exists s1. done. }
  destruct E2 as (s2 & E2 & Hi2 & Hr2). run_step E2. rewrite Z.sub_diag. change (0 >? 0) with false. cbv iota. unfold chain_result.
  run_step (getId_ok P uninitialized s2 m _ _ _ Hi2 (lookup_snoc pre _)). run_step (getNextDataPos_ok P uninitialized s2 m _ _ _ Hi2 (lookup_snoc pre _)).
  eexists _, s2. split; [done|]. split; [unfold one_chunk; by rewrite app_assoc|]. by eapply same_rest_trans.
Qed.

(** The block that is selected for a value, and its place. *)
Definition text_alloc (ds : list (list Z)) : list (list Z) := alloc P ds 10.
Definition text_place (ds : list (list Z)) : ColumnDataAddress :=
  {| m_blockId := len (text_alloc ds); m_offset := match last (text_alloc ds) with Some d => len d | None => 0 end |}.

Lemma write_lob_value (s : state) v block : write_converted P t sha256 time uninitialized (Plain (lob_variant v)) block s =
  (writeBuffer P sha256 time uninitialized v block ;;' mret None) s.
Proof. unfold lob_column in Ht. unfold lob_variant, write_converted. by destruct t. Qed.

Lemma convert_lob v : convert_value t (lob_variant v) = Ok (Plain (lob_variant v)).
Proof. unfold lob_column in Ht. unfold lob_variant, convert_value. by destruct t. Qed.

Lemma extends_last pre d d' : extends (pre ++ [d]) (pre ++ [d ++ d']).
Proof.
  intros k e Hk. destruct (decide (k = length pre)) as [->|Hne].
  - rewrite lookup_snoc in *. injection Hk as <-. by exists d'.
  - exists []. rewrite app_nil_r. rewrite !lookup_app_l in * by (apply lookup_lt_Some in Hk; rewrite length_app in Hk; cbn in Hk; lia). done.
Qed.

Lemma text_alloc_extends ds : extends ds (text_alloc ds).
Proof.
  intros k d Hk. exists []. rewrite app_nil_r. unfold text_alloc, alloc. destruct (last ds) as [l|] eqn:Hl; [|apply last_None in Hl as ->; done].
  case_match; [done|]. by apply lookup_app_l_Some.
Qed.

Lemma writeRecord_text (s : state) ds bytes : settled P uninitialized s ds -> m_offset (text_place ds) + 20 + len bytes <= A -> 10 <= A -> len ds + 1 < 2 ^ 57 ->
  (0 < bc_free (m_blockCache s))%nat ->
  exists s' ds', writeRecord P t m_notNull sha256 time uninitialized (lob_variant bytes) s =
      (Ok {| m_dataAddress := text_place ds; m_nextAddress := after (text_place ds) (20 + len bytes) |}, s') /\
    settled P uninitialized s' ds' /\ extends ds ds' /\ stored ds' (m_blockId (text_place ds)) (m_offset (text_place ds)) (one_chunk bytes).
Proof.
  intros Hs Hfit HA Hsm Hfree. destruct lob_required as [Hr _]. pose proof (len_nonneg bytes) as Hb0. unfold writeRecord. assert (Hnull : isNull (lob_variant bytes) = false) by (unfold lob_variant; by destruct t).
  rewrite Hnull, convert_lob. unfold mbind at 1, mlift, conversion_error. rewrite Hr.
  destruct (selectAvailableBlock_ok P sha256 time uninitialized Hco s ds 10 Hs ltac:(lia) Hsm Hfree) as (s1 & E1 & [Hi1 Ha1] & Hf1). run_step E1.
  unfold text_place, text_alloc in *. destruct (alloc_last P sha256 uninitialized Hco ds 10 ltac:(lia)) as (pre & d & Hal & _ & HdA). pose proof (text_alloc_extends ds) as Hext. unfold text_alloc in Hext.
  rewrite Hal, last_snoc in *. cbn [m_offset m_blockId] in *. assert (Hp : pred (length (pre ++ [d])) = length pre) by (rewrite length_app; cbn; lia). rewrite Hp in *.
  assert (Hln : forall e, len (pre ++ [e]) = Z.of_nat (length pre) + 1) by (intros e; rewrite len_app; unfold len; cbn; lia).
  run_step (getId_ok P uninitialized s1 _ _ _ d Hi1 (lookup_snoc pre d)). rewrite mbind_gets. unfold avail_ok in Ha1. rewrite last_snoc, Hln in Ha1. rewrite Ha1. cbn [avail_find]. rewrite Z.eqb_refl.
  run_step (getNextDataPos_ok P uninitialized s1 _ _ _ d Hi1 (lookup_snoc pre d)).
  destruct (writeBuffer_fits s1 _ pre d bytes Hi1 Hfit) as (w & s2 & E2 & Hi2 & [Hr2 Hc2]).
  assert (Ew : write_converted P t sha256 time uninitialized (Plain (lob_variant bytes)) (length pre) s1 = (Ok None, s2)) by (rewrite write_lob_value; by run_step E2).
  run_step Ew. set (d' := d ++ one_chunk bytes) in *. assert (Hdl : len d' = len d + (20 + len bytes)) by (unfold d'; by rewrite len_app, one_chunk_len).
  unfold update_found. unfold mbind at 1. rewrite mbind_gets, Hr2, Ha1. cbn [avail_find]. rewrite Z.eqb_refl.
  run_step (getFreeDataSpace_ok P sha256 uninitialized Hco s2 _ _ _ d' Hi2 (lookup_snoc pre d')). unfold modify at 1. rewrite Hr2, Ha1. cbn [avail_assign]. rewrite Z.eqb_refl.
  set (s3 := set_available _ s2). assert (Hi3 : blocks_inv P uninitialized s3 (length pre) (pre ++ [d'])) by (destruct Hi2 as [? ? ? ? ? ? ?]; by split).
  run_step (getNextDataPos_ok P uninitialized s3 _ _ _ d' Hi3 (lookup_snoc pre d')). exists s3, (pre ++ [d']). rewrite Hln, Hdl.
  split; [done|]. split; [split|]. { rewrite (length_app pre [d']), Nat.add_comm. exact Hi3. } { unfold avail_ok. rewrite last_snoc, Hln, Hdl. unfold s3. cbn. repeat f_equal; lia. }
  split; [eapply extends_trans; [exact Hext|apply extends_last]|]. pose proof (len_nonneg d). split; [lia|]. split; [lia|]. exists d'.
  replace (Z.to_nat (Z.of_nat (length pre) + 1 - 1)) with (length pre) by lia. split; [apply lookup_snoc|]. rewrite one_chunk_len. split; [lia|].
  unfold d'. pose proof (sub_app_mid d (one_chunk bytes) [] 0 (20 + len bytes)) as Hsub. rewrite app_nil_r, Z.add_0_r in Hsub. rewrite Hsub by (rewrite ?one_chunk_len; lia).
  unfold sub. cbn [Z.to_nat]. rewrite drop_0, <- (one_chunk_len bytes). apply firstn_len.
Qed.

(** ** Reading *)

(** What is needed to read a value: blocks that hold it. *)
Lemma load_header_ok (s : state) m ds id off bytes : blocks_inv P uninitialized s m ds -> stored ds id off (one_chunk bytes) -> len bytes < 2 ^ 32 ->
  loadLobChunkHeaderUnlocked P (Z.to_nat (id - 1)) off s = (Ok (chunk_header (len bytes) (len bytes), off + 20), s).
Proof.
  intros Hi Hst Hb. pose proof (co_file P sha256 uninitialized Hco). destruct (stored_bounds P uninitialized s m ds id off _ Hi Hst) as [Hid Hbound]. rewrite one_chunk_len in Hbound.
  pose proof (proj1 (proj2 Hst)) as Hoff. pose proof (len_nonneg bytes). unfold loadLobChunkHeaderUnlocked, kLobChunkHeaderSize. rewrite (uw_small 32 (A - off)) by (unfold u_ok; lia).
  rewrite (proj2 (Z.ltb_ge (A - off) 20)) by lia. unfold one_chunk in Hst. apply stored_split in Hst as [H1 _].
  pose proof (block_readData_ok P sha256 uninitialized Hco s m ds id off _ Hi H1) as E1. rewrite lob_header_len in E1. unfold kLobChunkHeaderSize in E1. run_step E1.
  unfold mbind at 1, mlift. rewrite <- (app_nil_r (lob_header_serialize _)), lob_header_roundtrip by (unfold lob_header_ok, u_ok; cbn; lia). cbv zeta. cbn [m_chunkLength m_remainingLobLength m_nextChunkBlockId m_nextChunkOffset chunk_header].
  rewrite !Z.gtb_ltb, Z.ltb_irrefl, (proj2 (Z.ltb_ge (A - (off + 20)) _)) by lia. rewrite mbind_gets. pose proof (registry_last _ _ (i_registry _ _ _ _ _ Hi) ltac:(lia)) as Hlast.
  rewrite !Z.gtb_ltb, (proj2 (Z.ltb_ge (m_lastBlockId _) 0)), (proj2 (Z.ltb_ge _ 0)) by (pose proof (uw_range 64 (A - 20)); unfold u_ok in *; lia).
  unfold mret. do 3 f_equal. apply uw_small. unfold u_ok. lia.
Qed.

Lemma load_lob_chunk_header (s : state) m ds id off bytes : blocks_inv P uninitialized s m ds -> stored ds id off (one_chunk bytes) -> len bytes < 2 ^ 32 ->
  exists s', loadLobChunkHeader P uninitialized id off s = (Ok (chunk_header (len bytes) (len bytes), off + 20), s') /\ blocks_inv P uninitialized s' m ds /\
    m_availableDataBlocks s' = m_availableDataBlocks s.
Proof.
  intros Hi Hst Hb. destruct (stored_bounds P uninitialized s m ds id off _ Hi Hst) as [Hid _]. unfold loadLobChunkHeader, findExistingBlock.
  destruct (loadBlock_ok P uninitialized s m ds [] id Hi Hid) as (s1 & E1 & Hi1 & Ha1 & _). run_step E1. rewrite (load_header_ok s1 m ds id off bytes Hi1 Hst Hb). by exists s1.
Qed.

Lemma read_small (s : state) m ds a bytes : blocks_inv P uninitialized s m ds -> stored ds (m_blockId a) (m_offset a) (one_chunk bytes) -> 0 < len bytes < kSmallLobSizeLimit ->
  exists st s', (stream <-- new_ColumnLobStream P uninitialized a ;; readInternal P uninitialized stream (len bytes)) s = (Ok (bytes, st), s') /\
    blocks_inv P uninitialized s' m ds /\ m_availableDataBlocks s' = m_availableDataBlocks s.
Proof.
  intros Hi Hst Hb. unfold kSmallLobSizeLimit in Hb. destruct (load_lob_chunk_header s m ds _ _ bytes Hi Hst ltac:(lia)) as (s1 & E1 & Hi1 & Ha1).
  unfold new_ColumnLobStream. unfold mbind at 1. run_step E1. unfold mret at 1, readInternal, stream_remaining. cbn [cl_size cl_pos m_remainingLobLength chunk_header].
  rewrite Z.sub_0_r, uw_small by (unfold u_ok; lia). rewrite Z.min_id, (proj2 (Z.eqb_neq _ 0)) by lia. rewrite Nat.add_comm. cbn [Nat.add read_chunks].
  cbn [m_chunkHeader m_chunkLength m_offsetInChunk cl_blockId m_offsetInBlock chunk_header]. rewrite Z.sub_0_r, (uw_small 32 (len bytes)) by (unfold u_ok; lia). cbv zeta. rewrite Z.gtb_ltb, (proj2 (Z.ltb_lt 0 _)) by lia.
  rewrite Z.min_id. pose proof (stored_bounds P uninitialized s1 m ds _ _ _ Hi1 Hst) as [Hid Hbound]. apply stored_split in Hst as [_ Hdata]. rewrite lob_header_len in Hdata. unfold kLobChunkHeaderSize in Hdata.
  destruct (loadBlock_ok P uninitialized s1 m ds [] (m_blockId a) Hi1 Hid) as (s2 & E2 & Hi2 & Ha2 & _).
  assert (E3 : readData P uninitialized (m_blockId a) (m_offset a + 20) (len bytes) s1 = (Ok bytes, s2)).
  { unfold readData, findExistingBlock. run_step E2. by apply (block_readData_ok P sha256 uninitialized Hco s2 m ds). }
  unfold mbind at 1 2. rewrite E3. cbv beta iota. unfold mret at 1. rewrite Z.sub_diag. cbn [andb Z.eqb]. eexists _, s2. split; [done|]. split; [done|congruence].
Qed.

Lemma readRecord_text (s : state) ds a bytes : settled P uninitialized s ds -> stored ds (m_blockId a) (m_offset a) (one_chunk bytes) -> len bytes < kSmallLobSizeLimit ->
  exists s', readRecord P t uninitialized a s = (Ok (RValue (read_back bytes)), s') /\ settled P uninitialized s' ds.
Proof.
  intros [Hi Hav] Hst Hb. pose proof (co_file P sha256 uninitialized Hco). destruct (stored_bounds P uninitialized s _ ds _ _ _ Hi Hst) as [Hid Hbound]. rewrite one_chunk_len in Hbound.
  pose proof (proj1 (proj2 Hst)) as Hoff. pose proof (len_nonneg bytes) as Hb0. destruct lob_required as [_ Hmin]. unfold readRecord.
  assert (Hnull : isNullValueAddress a = false) by (unfold isNullValueAddress; rewrite (proj2 (Z.eqb_neq (m_blockId a) 0)) by lia; done). rewrite Hnull.
  unfold findExistingBlock. destruct (loadBlock_ok P uninitialized s _ ds [] (m_blockId a) Hi Hid) as (s1 & E1 & Hi1 & Ha1 & _). run_step E1. rewrite Hmin, uw_small by (unfold u_ok; lia).
  rewrite Z.geb_leb, (proj2 (Z.leb_gt _ _)) by lia. destruct (loadBlock_ok P uninitialized s1 _ ds [] (m_blockId a) Hi1 Hid) as (s2 & E2 & Hi2 & Ha2 & _).
  assert (Hload : forall f g, exists s', load_lob P uninitialized a f g s1 = (Ok (RValue (f bytes)), s') /\ settled P uninitialized s' ds).
  { intros f g. unfold load_lob, findExistingBlock. run_step E2. run_step (load_header_ok s2 _ ds _ _ bytes Hi2 Hst ltac:(unfold kSmallLobSizeLimit in *; lia)).
    cbn [m_remainingLobLength chunk_header]. cbv zeta. destruct (Z.eqb_spec (len bytes) 0) as [Hz|Hz].
    - assert (bytes = []) as -> by (destruct bytes; [done|]; rewrite len_cons in Hz; pose proof (len_nonneg bytes); lia). exists s2. split; [done|]. split; [done|unfold avail_ok in *; congruence].
    - rewrite (proj2 (Z.ltb_lt _ _)) by done. destruct (read_small s2 _ ds a bytes Hi2 Hst ltac:(lia)) as (st & s3 & E3 & Hi3 & Ha3). unfold mbind in E3 |- *.
      destruct (new_ColumnLobStream P uninitialized a s2) as [[stream|e|u] s4]; [|done|done]. rewrite E3. exists s3. split; [done|]. split; [done|unfold avail_ok in *; congruence]. }
  unfold lob_column in Ht. unfold read_back, loadText, loadBinary. destruct t; try done; apply (Hload _ _).
Qed.
End Text.


Lemma new_settled area capacity : 0 < area < 2 ^ 31 -> settled (sample_column area) 99 (new_column (sample_blocks capacity) None None) [].
Proof. intros _. apply (new_represents (sample_column area) COLUMN_DATA_TYPE_INT8 99); apply sample_blocks_ok. Qed.


(** ** Runs in which data are lost

    Each shows one place where the column does not give back what was written. *)

(** A text that does not fit into the block: [createOrGetNextBlock] erases the
    entry of the first block, and the iterator to it is used afterwards. *)
Example long_text_dangles :
  fst (run_ops (sample_column 300) COLUMN_DATA_TYPE_TEXT true sample_hash sample_time 99 [CWrite (VString (repeat 65 281))] [] (new_column (sample_blocks 4) None None)) =
  [Undef Dangling].
Proof. vm_compute. reflexivity. Qed.

(** A CLOB that fits gets the address of NULL, so NULL is read back. *)
Example clob_reads_null :
  fst (run_ops (sample_column 300) COLUMN_DATA_TYPE_TEXT true sample_hash sample_time 99 [CWrite (VClob (newMemLob [65; 66])); CRead 0] [] (new_column (sample_blocks 4) None None)) =
  [Ok (CWritten {| m_dataAddress := {| m_blockId := 0; m_offset := 0 |}; m_nextAddress := {| m_blockId := 1; m_offset := 22 |} |}); Ok (CValue (RValue VNull))].
Proof. vm_compute. reflexivity. Qed.

(** A block evicted before it is closed is loaded with position 0, since moving
    the position does not mark the header as modified: the eighth value is written
    over the seventh one. *)
Example evicted_block_overwritten :
  fst (run_ops (sample_column 10) COLUMN_DATA_TYPE_INT32 false sample_hash sample_time 99
    (map (fun z => CWrite (number z)) [0; 1; 2; 3; 4; 5; 6] ++ [CRead 2; CRead 4; CRead 0; CWrite (number 7); CRead 6]) [] (new_column (sample_blocks 3) None None)) !! 11%nat =
  Some (Ok (CValue (RValue (VNum (CI I32 7))))).
Proof. vm_compute. reflexivity. Qed.

(** A value that ends at the end of the data area is written and cannot be read. *)
Example last_value_unreadable :
  fst (run_ops (sample_column 8) COLUMN_DATA_TYPE_INT32 false sample_hash sample_time 99
    [CWrite (number 1); CWrite (number 2); CRead 0; CRead 1] [] (new_column (sample_blocks 4) None None)) !! 3%nat =
  Some (Throw (InvalidDataBlockPosition 1 4)).
Proof. vm_compute. reflexivity. Qed.
