(* ===== verification/MasterColumn.v ===== *)
(** * The master column

    Every table has a master column.  It holds a record for each version of each
    row, counts the row numbers (TRID), and has the main index, which maps the
    number of a row to the address of its current record.  Models the parts of
    [Column] that only the master column has. *)

From stdpp Require Import base list gmap.
Set Warnings "-clear-no-such-hyp,-notation-incompatible-prefix,-notation-for-abbreviation".
From Stdlib Require Import ZArith Lia.
From S2P Require Import Prelude StateM Bytes VarInt PlainBinary ColumnRecords ColumnType Expr LinearIndex Column ColumnData.

Local Open Scope Z_scope.

(** The reasons for which a column name of an INSERT is rejected. *)
Inductive InsertNameError : Type :=
| InvalidColumnName (name : list Z)
| NoSuchColumn (name : list Z)
| CannotInsertIntoMasterColumn
| InsertDuplicateColumnName (name : list Z).

Inductive TableError : Type :=
| ColumnFailed (e : ColumnError)
| MainIndexFailed (e : UliError)
| DefaultValueFailed (e : ExpressionError)
| TooManyColumns
| InvalidMcrSerialization
| CannotInsertDuplicateTrid (trid : Z)
| UserTridExhausted
| SystemTridExhausted
| InvalidLastUserTrid (trid : Z)
| NumberOfValuesMismatchOnInsert (values names : Z)
| TooManyColumnsToInsert (values columns : Z)
| InvalidColumnNames (l : list InsertNameError)
| NumberOfNextBlocksMismatchOnRollback
| TooManyColumnsToRollback
| CannotUpdateMasterColumn
| ColumnDoesNotExist (name : list Z)
| UpdateValuesDoNotFitToPositions (values positions : Z)
| UpdateValuesCountGreaterThanAddresses (values addresses : Z)
| VectorOutOfRange
| MasterColumnRecordIndexCorrupted (defectCode : Z)
| InvalidMasterColumnRecordColumnCount (expected actual : Z)
| UnexpectedNullValue (name : list Z) (trid : Z).

(** ** The main index, as an interface

    The operations of the class [Index] that the master column calls. *)
Class MainIndex (I : Type) : Type := {
  ix_insert : list Z -> list Z -> SM I UliError bool;
  ix_erase : list Z -> SM I UliError Z;
  ix_update : list Z -> list Z -> SM I UliError Z;
  ix_find : list Z -> Z -> SM I UliError (option (list Z))
}.

(** What it promises: it is a map from numbers to addresses of 12 bytes, for the
    row numbers of [ix_key]. *)
Class MainIndexLaws (I : Type) {MI : MainIndex I} : Type := {
  ix_ok : I -> gmap Z (list Z) -> Prop;
  ix_key : Z -> Prop;
  ix_insert_law : forall s m k v, ix_ok s m -> ix_key k -> len v = 12 ->
    exists s', ix_insert (pbeEncodeUInt64 k) v s = (Ok (match m !! k with Some _ => false | None => true end), s') /\
      ix_ok s' (match m !! k with Some _ => m | None => <[k := v]> m end);
  ix_erase_law : forall s m k, ix_ok s m -> ix_key k ->
    exists n s', ix_erase (pbeEncodeUInt64 k) s = (Ok n, s') /\ ix_ok s' (delete k m);
  ix_update_law : forall s m k v, ix_ok s m -> ix_key k -> len v = 12 ->
    exists n s', ix_update (pbeEncodeUInt64 k) v s = (Ok n, s') /\ ix_ok s' (match m !! k with Some _ => <[k := v]> m | None => m end);
  ix_find_law : forall s m k, ix_ok s m -> ix_key k ->
    exists s', ix_find (pbeEncodeUInt64 k) 1 s = (Ok (m !! k), s') /\ ix_ok s' m
}.

(** ** State *)

Record TridCounters : Type := { m_lastUserTrid : Z; m_lastSystemTrid : Z }.

Definition new_counters (firstUserTrid : Z) : TridCounters :=
  {| m_lastUserTrid := if firstUserTrid >? 0 then firstUserTrid - 1 else 0;
     m_lastSystemTrid := if firstUserTrid <? 2 then 2 ^ 64 - 1 else 0 |}.

Record master_state {C I : Type} : Type := {
  mc_column : column_state C;
  m_mainIndex : I;
  m_tridCounters : TridCounters
}.
Arguments master_state : clear implicits.

Section Master.
Context {C I : Type} `{BC : BlockCache C} {MI : MainIndex I} (P : column_params) (m_firstUserTrid : Z).
Context (sha256 : list Z -> list Z) (time : nat -> Z) (uninitialized : Z).
Notation state := (master_state C I).
Definition MM (X : Type) : Type := SM state TableError X.

Definition master_column {X} (c : SM (column_state C) ColumnError X) : MM X :=
  embed mc_column (fun c s => {| mc_column := c; m_mainIndex := m_mainIndex s; m_tridCounters := m_tridCounters s |}) ColumnFailed c.
Definition main_index {X} (c : SM I UliError X) : MM X :=
  embed m_mainIndex (fun i s => {| mc_column := mc_column s; m_mainIndex := i; m_tridCounters := m_tridCounters s |}) MainIndexFailed c.
Definition set_trids (user system : Z) : MM unit :=
  modify (fun s => {| mc_column := mc_column s; m_mainIndex := m_mainIndex s; m_tridCounters := {| m_lastUserTrid := user; m_lastSystemTrid := system |} |}).

(** ** Row numbers *)

Definition generateNextUserTrid : MM Z :=
  c <-- gets m_tridCounters ;;
  if m_lastUserTrid c =? 2 ^ 64 - 1 then mthrow UserTridExhausted else
  set_trids (m_lastUserTrid c + 1) (m_lastSystemTrid c) ;;' mret (m_lastUserTrid c + 1).

Definition generateNextSystemTrid : MM Z :=
  c <-- gets m_tridCounters ;;
  if m_lastSystemTrid c =? uw 64 (m_firstUserTrid - 1) then mthrow SystemTridExhausted else
  let trid := uw 64 (m_lastSystemTrid c + 1) in
  set_trids (m_lastUserTrid c) trid ;;' mret trid.

Definition setLastSystemTrid (lastSystemTrid : Z) : MM unit :=
  c <-- gets m_tridCounters ;;
  if lastSystemTrid >=? m_firstUserTrid then mthrow SystemTridExhausted else set_trids (m_lastUserTrid c) lastSystemTrid.

Definition setLastUserTrid (lastUserTrid : Z) : MM unit :=
  c <-- gets m_tridCounters ;;
  if lastUserTrid <=? m_lastUserTrid c then mthrow (InvalidLastUserTrid lastUserTrid) else set_trids lastUserTrid (m_lastSystemTrid c).

(** ** Records *)

Definition index_value (blockId pos : Z) : list Z := pbeEncodeUInt64 blockId ++ pbeEncodeUInt32 pos.

(** The update of the main index for an operation. *)
Definition update_main_index (record : MasterColumnRecord) (value : list Z) : MM unit :=
  let key := pbeEncodeUInt64 (m_tableRowId record) in
  if m_operationType record =? operation_code kInsert then
    inserted <-- main_index (ix_insert key value) ;;
    if (inserted : bool) then mret tt else mthrow (CannotInsertDuplicateTrid (m_tableRowId record))
  else if m_operationType record =? operation_code kDelete then main_index (ix_erase key) ;;' mret tt
  else if m_operationType record =? operation_code kUpdate then main_index (ix_update key value) ;;' mret tt
  else mret tt.

(** Both functions take the size as a 16-bit number: the buffer of a record of
    64 KiB or more is too small. *)
Definition writeMasterColumnRecord (record : MasterColumnRecord) (updateMainIndex : bool) : MM WriteRecordResult :=
  let recordSize := mcr_size record in
  let recordSizeWithSizeTag := mcr_sizeWithSizeTag recordSize in
  if recordSizeWithSizeTag >? kMaxSerializedSize then mthrow TooManyColumns else
  block <-- master_column (selectAvailableBlock P sha256 time uninitialized (uw 32 recordSizeWithSizeTag)) ;;
  id <-- master_column (getId block) ;;
  available <-- master_column (gets m_availableDataBlocks) ;;
  match avail_find id available with
  | None => mthrow (ColumnFailed (CannotFindAvailableBlockRecord id))
  | Some _ =>
      pos <-- master_column (getNextDataPos block) ;;
      let buffer := mcr_serializeWithSizeTag record recordSize in
      if len buffer >? recordSizeWithSizeTag then mlift (Undef OutOfBounds) else
      if negb (len buffer =? recordSizeWithSizeTag) then mthrow InvalidMcrSerialization else
      master_column (block_append P block buffer) ;;'
      (if updateMainIndex then update_main_index record (index_value id pos) else mret tt) ;;'
      master_column (incNextDataPos P block (uw 32 recordSizeWithSizeTag)) ;;'
      master_column (update_found P id block) ;;'
      next <-- master_column (getNextDataPos block) ;;
      mret {| m_dataAddress := {| m_blockId := id; m_offset := pos |}; m_nextAddress := {| m_blockId := id; m_offset := next |} |}
  end.

Definition eraseFromMasterColumnMainIndex (trid : Z) : MM unit := main_index (ix_erase (pbeEncodeUInt64 trid)) ;;' mret tt.
End Master.
