(* ===== verification/Table.v ===== *)
(** * Tables

    Models the row operations of [Table] ([insertRow], [deleteRow], [updateRow],
    [rollbackLastRow]) and the reading of a row by [TableDataSet].  The master
    column is at position 0; column [i] of the list of columns is at position
    [i + 1]. *)

From stdpp Require Import base list gmap.
Set Warnings "-clear-no-such-hyp,-notation-incompatible-prefix,-notation-for-abbreviation".
From Stdlib Require Import ZArith Lia.
From S2P Require Import Prelude StateM Bytes VarInt PlainBinary ColumnRecords CNum VariantType Variant ColumnType Expr ExprEval LinearIndex Column ColumnData MasterColumn.

Local Open Scope Z_scope.

(** ** Names *)

Definition kMaxDatabaseObjectNameLength : Z := 255.
Definition name_char (c : Z) : bool :=
  ((65 <=? c) && (c <=? 90)) || ((97 <=? c) && (c <=? 122)) || ((48 <=? c) && (c <=? 57)) || (c =? 95) || (c =? 36).
Definition isValidDatabaseObjectName (name : list Z) : bool :=
  match name with
  | [] => false
  | c :: _ => (len name <=? kMaxDatabaseObjectNameLength) && negb ((48 <=? c) && (c <=? 57)) && forallb name_char name
  end.

(** "TRID" *)
Definition kMasterColumnName : list Z := [84; 82; 73; 68].

(** ** State *)

(** A column other than the master column; the default value is an expression. *)
Record table_column : Type := {
  tc_name : list Z;
  tc_params : column_params;
  tc_dataType : ColumnDataType;
  tc_notNull : bool;
  tc_default : option Expression
}.

Record table_params : Type := {
  t_columns : list table_column;
  t_master : column_params;
  t_columnSetId : Z;
  t_firstUserTrid : Z
}.

Record TransactionParameters : Type := { tp_transactionId : Z; tp_timestamp : Z; tp_userId : Z }.

(** The numbers of a transaction fit their types. *)
Definition tp_ok (tp : TransactionParameters) : Prop := u_ok 64 (tp_transactionId tp) /\ u_ok 64 (tp_timestamp tp) /\ u_ok 32 (tp_userId tp).

Record table_state {C I : Type} : Type := {
  ts_columns : list (column_state C);
  m_masterColumn : master_state C I;
  m_lastAtomicOperationId : Z
}.
Arguments table_state : clear implicits.

(** [EmptyExpressionEvaluationContext] has no columns. *)
Definition empty_context : ExpressionEvaluationContext :=
  {| getColumnValue _ _ := Throw RuntimeError; context_getColumnDataType _ _ := Throw RuntimeError |}.

(** Catches an exception of a computation. *)
Definition mtry {S E X} (c : SM S E X) : SM S E (E + X) := fun s =>
  let '(o, s') := c s in (match o with Ok a => Ok (inr a) | Throw e => Ok (inl e) | Undef u => Undef u end, s').

Section Table.
Context {C I : Type} `{BC : BlockCache C} {MI : MainIndex I} {X : Externals} (T : table_params).
Context (sha256 : list Z -> list Z) (time : nat -> Z) (uninitialized : Z).
Notation state := (table_state C I).
Definition TM (A : Type) : Type := SM state TableError A.

Definition master {A} (c : SM (master_state C I) TableError A) : TM A :=
  embed m_masterColumn (fun m s => {| ts_columns := ts_columns s; m_masterColumn := m; m_lastAtomicOperationId := m_lastAtomicOperationId s |}) (fun e => e) c.

(** A call of an operation of column [i]. *)
Definition column {A} (i : nat) (c : table_column -> SM (column_state C) ColumnError A) : TM A := fun s =>
  match t_columns T !! i, ts_columns s !! i with
  | Some tc, Some cs =>
      let '(o, cs') := c tc cs in
      (match o with Ok a => Ok a | Throw e => Throw (ColumnFailed e) | Undef u => Undef u end,
       {| ts_columns := <[i := cs']> (ts_columns s); m_masterColumn := m_masterColumn s; m_lastAtomicOperationId := m_lastAtomicOperationId s |})
  | _, _ => (Undef OutOfBounds, s)
  end.

Definition generateNextAtomicOperationId : TM Z := fun s =>
  let id := uw 64 (m_lastAtomicOperationId s + 1) in
  (Ok id, {| ts_columns := ts_columns s; m_masterColumn := m_masterColumn s; m_lastAtomicOperationId := id |}).

Definition column_write (value : Variant) (tc : table_column) : SM (column_state C) ColumnError WriteRecordResult :=
  writeRecord (tc_params tc) (tc_dataType tc) (tc_notNull tc) sha256 time uninitialized value.
Definition column_read (a : ColumnDataAddress) (tc : table_column) : SM (column_state C) ColumnError ReadValue :=
  readRecord (tc_params tc) (tc_dataType tc) uninitialized a.
(** The chain of blocks has at most as many blocks as the number of the last one. *)
Definition column_rollback (a : ColumnDataAddress) (firstAvailableBlockId : Z) (tc : table_column) : SM (column_state C) ColumnError unit :=
  rollbackToAddress (tc_params tc) uninitialized (Z.to_nat firstAvailableBlockId) a firstAvailableBlockId.

Definition columnCount : Z := len (t_columns T) + 1.

(** ** Rolling back *)

Fixpoint rollback_records (i : nat) (records : list ColumnDataRecord) (nextBlockIds : list Z) : TM unit :=
  match records, nextBlockIds with
  | r :: records', b :: nextBlockIds' =>
      (if isNullValueAddress (m_address r) then mret tt else mtry (column i (column_rollback (m_address r) b)) ;;' mret tt) ;;'
      rollback_records (S i) records' nextBlockIds'
  | _, _ => mret tt
  end.

Definition rollbackLastRow (columnRecords : list ColumnDataRecord) (nextBlockIds : list Z) : TM unit :=
  if negb (len columnRecords =? len nextBlockIds) then mthrow NumberOfNextBlocksMismatchOnRollback else
  if len columnRecords >=? columnCount then mthrow TooManyColumnsToRollback else
  rollback_records 0 columnRecords nextBlockIds.

(** ** Inserting *)

Definition new_mcr (trid : Z) (tp : TransactionParameters) (createTimestamp version operationId : Z) (op : DmlOperationType) (prev : ColumnDataAddress)
    (records : list ColumnDataRecord) : MasterColumnRecord :=
  {| m_tableRowId := trid; m_transactionId := tp_transactionId tp; m_createTimestamp := createTimestamp; m_updateTimestamp := tp_timestamp tp;
     mcr_version := version; m_operationId := operationId; m_operationType := operation_code op; m_userId := tp_userId tp;
     m_columnSetId := t_columnSetId T; m_privateDataExpirationTimestamp := 0; m_columnRecords := records; m_previousVersionAddress := prev |}.

(** The values of the columns from [i] on; the records and blocks so far, and the
    exception that ended the loop. *)
Fixpoint write_columns (n i : nat) (values : list Variant) (timestamp : Z) (records : list ColumnDataRecord) (nextBlockIds : list Z)
    : TM (list ColumnDataRecord * list Z * option TableError) :=
  match n with
  | O => mret (records, nextBlockIds, None)
  | S n' =>
      match values !! i with
      | None => mlift (Undef OutOfBounds)
      | Some value =>
          r <-- mtry (column i (column_write value)) ;;
          match r with
          | inl e => mret (records, nextBlockIds, Some e)
          | inr w =>
              write_columns n' (S i) values timestamp
                (records ++ [{| m_address := m_dataAddress w; cdr_createTimestamp := timestamp; cdr_updateTimestamp := timestamp |}])
                (nextBlockIds ++ [m_blockId (m_nextAddress w)])
          end
      end
  end.

(** The values, the record and, after an exception, the rollback. *)
Definition insert_values (trid operationId : Z) (values : list Variant) (tp : TransactionParameters) : TM (MasterColumnRecord * list Z) :=
  '(records, nextBlockIds, failed) <-- write_columns (length (t_columns T)) 0 values (tp_timestamp tp) [] [] ;;
  let mcr := new_mcr trid tp (tp_timestamp tp) 0 operationId kInsert kNullValueAddress records in
  failed <-- (match failed with
    | Some e => mret (Some e)
    | None =>
        r <-- mtry (master (writeMasterColumnRecord (t_master T) sha256 time uninitialized mcr true)) ;;
        mret (match r with inl e => Some e | inr _ => None end)
    end) ;;
  match failed with
  | Some e => rollbackLastRow records nextBlockIds ;;' mthrow e
  | None => mret (mcr, nextBlockIds)
  end.

Definition doInsertRowUnlocked (values : list Variant) (tp : TransactionParameters) (customTrid : Z) : TM (MasterColumnRecord * list Z) :=
  operationId <-- generateNextAtomicOperationId ;;
  trid <-- (if customTrid =? 0 then master generateNextUserTrid else mret customTrid) ;;
  insert_values trid operationId values tp.

Definition getDefaultValue (tc : table_column) : outcome TableError Variant :=
  match tc_default tc with
  | None => Ok VNull
  | Some e => match evaluate empty_context e with Ok v => Ok v | Throw e => Throw (DefaultValueFailed e) | Undef u => Undef u end
  end.

(** The values with the defaults of the columns that have none. *)
Fixpoint fill_defaults (columns : list table_column) (values : list (option Variant)) : outcome TableError (list Variant) :=
  match columns with
  | [] => Ok []
  | tc :: columns' =>
      v <- (match values with Some v :: _ => Ok v | _ => getDefaultValue tc end) ;;
      rest <- fill_defaults columns' (tail values) ;;
      Ok (v :: rest)
  end.

Definition insertRow (values : list Variant) (tp : TransactionParameters) (customTrid : Z) : TM (MasterColumnRecord * list Z) :=
  if len values >=? columnCount then mthrow (TooManyColumnsToInsert (len values) (columnCount - 1)) else
  values <-- mlift (fill_defaults (t_columns T) (Some <$> values)) ;;
  doInsertRowUnlocked values tp customTrid.

(** [byName().find]: the position of a column. *)
Fixpoint find_column_name (name : list Z) (columns : list table_column) (position : nat) : option nat :=
  match columns with
  | [] => None
  | tc :: columns' => if bool_decide (tc_name tc = name) then Some position else find_column_name name columns' (S position)
  end.
Definition column_position (name : list Z) : option nat :=
  if bool_decide (name = kMasterColumnName) then Some 0%nat else find_column_name name (t_columns T) 1.

(** The loop over the names: the values by position, and the errors. *)
Fixpoint order_values (names : list (list Z)) (values : list Variant) (ordered : list (option Variant)) (errors : list InsertNameError)
    : list (option Variant) * list InsertNameError :=
  match names, values with
  | name :: names', value :: values' =>
      if negb (isValidDatabaseObjectName name) then order_values names' values' ordered (errors ++ [InvalidColumnName name]) else
      match column_position name with
      | None => order_values names' values' ordered (errors ++ [NoSuchColumn name])
      | Some O => order_values names' values' ordered (errors ++ [CannotInsertIntoMasterColumn])
      | Some (S i) =>
          match ordered !! i with
          | Some (Some _) => order_values names' values' ordered (errors ++ [InsertDuplicateColumnName name])
          | _ => order_values names' values' (<[i := Some value]> ordered) errors
          end
      end
  | _, _ => (ordered, errors)
  end.

Definition insertRow_named (names : list (list Z)) (values : list Variant) (tp : TransactionParameters) (customTrid : Z) : TM (MasterColumnRecord * list Z) :=
  if negb (len names =? len values) then mthrow (NumberOfValuesMismatchOnInsert (len values) (len names)) else
  if len values >=? columnCount then mthrow (TooManyColumnsToInsert (len values) (columnCount - 1)) else
  let '(ordered, errors) := order_values names values (replicate (length (t_columns T)) None) [] in
  match errors with
  | _ :: _ => mthrow (InvalidColumnNames errors)
  | [] =>
      values <-- mlift (fill_defaults (t_columns T) ordered) ;;
      doInsertRowUnlocked values tp customTrid
  end.

(** ** Finding the record of a row *)

Definition no_mcr : MasterColumnRecord :=
  {| m_tableRowId := 0; m_transactionId := 0; m_createTimestamp := 0; m_updateTimestamp := 0; mcr_version := 0; m_operationId := 0;
     m_operationType := 0; m_userId := 0; m_columnSetId := 0; m_privateDataExpirationTimestamp := 0; m_columnRecords := []; m_previousVersionAddress := kNullValueAddress |}.

(** The record of a row by its number, and its address. *)
Definition find_mcr (trid : Z) : TM (option (MasterColumnRecord * ColumnDataAddress)) :=
  indexValue <-- master (main_index (ix_find (pbeEncodeUInt64 trid) 1)) ;;
  match indexValue with
  | None => mret None
  | Some data =>
      mcrAddr <-- mlift (address_pbeDeserialize data 12) ;;
      let mcrAddr := default kNullValueAddress mcrAddr in
      mcr <-- master (master_column (readMasterColumnRecord (t_master T) uninitialized mcrAddr no_mcr)) ;;
      mret (Some (mcr, mcrAddr))
  end.

(** ** Deleting *)

Definition deleteRow_mcr (mcr : MasterColumnRecord) (mcrAddress : ColumnDataAddress) (tp : TransactionParameters) (updateMainIndex : bool)
    : TM (MasterColumnRecord * WriteRecordResult) :=
  operationId <-- generateNextAtomicOperationId ;;
  trid <-- (if m_tableRowId mcr =? 0 then master generateNextUserTrid else mret (m_tableRowId mcr)) ;;
  let newMcr := new_mcr trid tp (m_createTimestamp mcr) (uw 64 (mcr_version mcr + 1)) operationId kDelete mcrAddress [] in
  w <-- master (writeMasterColumnRecord (t_master T) sha256 time uninitialized newMcr updateMainIndex) ;;
  mret (newMcr, w).

Definition deleteRow (trid : Z) (tp : TransactionParameters) (updateMainIndex : bool) : TM (option (MasterColumnRecord * WriteRecordResult)) :=
  lastTrid <-- master (gets (fun m => m_lastUserTrid (m_tridCounters m))) ;;
  if trid >? lastTrid then mret None else
  found <-- find_mcr trid ;;
  match found with
  | None => mret None
  | Some (mcr, mcrAddr) => r <-- deleteRow_mcr mcr mcrAddr tp updateMainIndex ;; mret (Some r)
  end.

(** ** Updating *)

(** The loop over the positions to update.  The value index is not increased for
    the master column. *)
Fixpoint update_columns (positions : list nat) (values : list Variant) (timestamp : Z) (records : list ColumnDataRecord) (nextBlockIds : list Z)
    : TM (list ColumnDataRecord * list Z * option TableError) :=
  match positions with
  | [] => mret (records, nextBlockIds, None)
  | O :: positions' => update_columns positions' values timestamp records nextBlockIds
  | S i :: positions' =>
      if Z.of_nat (S i) >=? columnCount then mret (records, nextBlockIds, Some VectorOutOfRange) else
      match values with
      | [] => mlift (Undef OutOfBounds)
      | value :: values' =>
          r <-- mtry (column i (column_write value)) ;;
          match r with
          | inl e => mret (records, nextBlockIds, Some e)
          | inr w =>
              match records !! i with
              | None => mlift (Undef OutOfBounds)
              | Some old =>
                  update_columns positions' values' timestamp
                    (<[i := {| m_address := m_dataAddress w; cdr_createTimestamp := cdr_createTimestamp old; cdr_updateTimestamp := timestamp |}]> records)
                    (nextBlockIds ++ [m_blockId (m_nextAddress w)])
              end
          end
      end
  end.

(** The rollback after a failed update.  The iterator over the blocks is used
    before it is compared with the end. *)
Fixpoint rollback_update (positions : list nat) (records : list ColumnDataRecord) (nextBlockIds : list Z) : TM unit :=
  match positions with
  | [] => mret tt
  | O :: positions' => rollback_update positions' records nextBlockIds
  | S i :: positions' =>
      match records !! i, nextBlockIds with
      | Some r, b :: nextBlockIds' =>
          (if isNullValueAddress (m_address r) then mret tt else mtry (column i (column_rollback (m_address r) b)) ;;' mret tt) ;;'
          match nextBlockIds' with [] => mret tt | _ => rollback_update positions' records nextBlockIds' end
      | _, _ => mlift (Undef OutOfBounds)
      end
  end.

(** The vector of records is empty after it was moved into the new record. *)
Definition updateRow_mcr (mcr : MasterColumnRecord) (mcrAddress : ColumnDataAddress) (positions : list nat) (values : list Variant) (tp : TransactionParameters)
    : TM (MasterColumnRecord * list Z) :=
  if negb (len values =? len positions) then mthrow (UpdateValuesDoNotFitToPositions (len values) (len positions)) else
  if len values >? len (m_columnRecords mcr) then mthrow (UpdateValuesCountGreaterThanAddresses (len values) (len (m_columnRecords mcr))) else
  operationId <-- generateNextAtomicOperationId ;;
  trid <-- (if m_tableRowId mcr =? 0 then master generateNextUserTrid else mret (m_tableRowId mcr)) ;;
  '(records, nextBlockIds, failed) <-- update_columns positions values (tp_timestamp tp) (m_columnRecords mcr) [] ;;
  let newMcr := new_mcr trid tp (m_createTimestamp mcr) (uw 64 (mcr_version mcr + 1)) operationId kUpdate mcrAddress records in
  match failed with
  | Some e => rollback_update positions records nextBlockIds ;;' mthrow e
  | None =>
      r <-- mtry (master (writeMasterColumnRecord (t_master T) sha256 time uninitialized newMcr true)) ;;
      match r with
      | inl e => rollback_update positions [] nextBlockIds ;;' mthrow e
      | inr _ => mret (newMcr, nextBlockIds)
      end
  end.

Definition updateRow_positions (trid : Z) (positions : list nat) (values : list Variant) (tp : TransactionParameters) : TM (option (MasterColumnRecord * list Z)) :=
  found <-- find_mcr trid ;;
  match found with
  | None => mret None
  | Some (mcr, mcrAddr) => r <-- updateRow_mcr mcr mcrAddr positions values tp ;; mret (Some r)
  end.

Fixpoint update_positions (names : list (list Z)) (allowTrid : bool) : outcome TableError (list nat) :=
  match names with
  | [] => Ok []
  | name :: names' =>
      match column_position name with
      | None => Throw (ColumnDoesNotExist name)
      | Some p =>
          if negb allowTrid && (p =? 0)%nat then Throw CannotUpdateMasterColumn else
          l <- update_positions names' allowTrid ;; Ok (p :: l)
      end
  end.

Definition updateRow (trid : Z) (names : list (list Z)) (values : list Variant) (allowTrid : bool) (tp : TransactionParameters)
    : TM (option (MasterColumnRecord * list Z)) :=
  positions <-- mlift (update_positions names allowTrid) ;;
  updateRow_positions trid positions values tp.

(** ** Reading a row *)

Definition row_id (trid : Z) : Variant := VNum (CI U64 trid).

Fixpoint read_columns (i : nat) (columns : list table_column) (mcr : MasterColumnRecord) : TM (list ReadValue) :=
  match columns with
  | [] => mret []
  | tc :: columns' =>
      match m_columnRecords mcr !! i with
      | None => mthrow VectorOutOfRange
      | Some r =>
          v <-- column i (column_read (m_address r)) ;;
          if (match v with RValue VNull => true | _ => false end) && tc_notNull tc then mthrow (UnexpectedNullValue (tc_name tc) (m_tableRowId mcr)) else
          rest <-- read_columns (S i) columns' mcr ;;
          mret (v :: rest)
      end
  end.

(** [TableDataSet::readMasterColumnRecord] and [readCurrentRow] for the row with
    a given number, with all columns of the table in the data set. *)
Definition readRow (trid : Z) (indexSearchFailureDefectCode : Z) : TM (list ReadValue) :=
  found <-- find_mcr trid ;;
  match found with
  | None => mthrow (MasterColumnRecordIndexCorrupted indexSearchFailureDefectCode)
  | Some (mcr, _) =>
      if negb (len (m_columnRecords mcr) + 1 =? columnCount) then mthrow (InvalidMasterColumnRecordColumnCount columnCount (len (m_columnRecords mcr) + 1)) else
      rest <-- read_columns 0 (t_columns T) mcr ;;
      mret (RValue (row_id (m_tableRowId mcr)) :: rest)
  end.

(** A new table. *)
Definition new_table (caches : list C) (cache : C) (index : I) : state :=
  {| ts_columns := (fun c => new_column c None None) <$> caches;
     m_masterColumn := {| mc_column := new_column cache None None; m_mainIndex := index; m_tridCounters := new_counters (t_firstUserTrid T) |};
     m_lastAtomicOperationId := 0 |}.
End Table.
