(* ===== verification/ColumnLaws.v ===== *)
(** * What a column of fixed-size values promises to its table

    A column is seen as its layout: the number of blocks and the next position in
    the last one.  A write returns the next place or fails without effect, a read
    returns what was written, and a rollback to the place of the last value gives
    the layout before it back. *)

From stdpp Require Import base list gmap.
Set Warnings "-clear-no-such-hyp,-notation-incompatible-prefix,-notation-for-abbreviation".
From Stdlib Require Import ZArith Lia.
From S2P Require Import Prelude StateM Bytes PlainBinary ColumnRecords Variant VariantConv ColumnType ExprEval Column ColumnData ColumnBlocks ColumnSpec Table.

Local Open Scope Z_scope.

(** The number of blocks, and the next position in the last block. *)
Notation layout := (Z * Z)%type.

Section Laws.
Context {C : Type} `{BC : BlockCache C} {BL : BlockCacheLaws C} {X : Externals}.
Context (sha256 : list Z -> list Z) (time : nat -> Z) (uninitialized : Z).
Context (tc : table_column).
Notation state := (column_state C).
Notation P := (tc_params tc).
Notation A := (m_dataBlockDataAreaSize P).
Notation t := (tc_dataType tc).
Notation r := (required_length t).

(** A column of this kind. *)
Record fixed_column : Prop := {
  fc_ok : column_ok P sha256 uninitialized;
  fc_type : fixed_type t = true;
  fc_area : r <= A
}.
Context (Hc : fixed_column).

(** ** The abstract column *)

Definition next_place (l : layout) : ColumnDataAddress :=
  if fst l =? 0 then {| m_blockId := 1; m_offset := 0 |}
  else if A - snd l >=? r then {| m_blockId := fst l; m_offset := snd l |}
  else {| m_blockId := fst l + 1; m_offset := 0 |}.

(** The address and the stored value of a write. *)
Definition spec_write (l : layout) (value : Variant) : outcome ColumnError (ColumnDataAddress * Variant) :=
  if isNull value then if tc_notNull tc then Throw CannotInsertNullValue else Ok (kNullValueAddress, VNull)
  else
    match conversion_error value (convert_value t value) with
    | Ok (Plain v) => Ok (next_place l, stored_value t v)
    | Ok _ => Undef Uninitialized
    | Throw e => Throw e
    | Undef u => Undef u
    end.

(** The layout after a write that returned the address, and after its rollback. *)
Definition layout_written (l : layout) (a : ColumnDataAddress) : layout := if isNullValueAddress a then l else (m_blockId a, m_offset a + r).
Definition layout_undone (l : layout) (a : ColumnDataAddress) : layout := if isNullValueAddress a then l else (m_blockId a, m_offset a).

Definition value_ok (value : Variant) : Prop := match convert_value t value with Ok (Plain v) => Variant_ok v | _ => True end.

(** ** The representation *)

(** [n] more blocks can be made. *)
Definition col_rep (s : state) (l : layout) (ds : list (list Z)) (n : nat) : Prop :=
  settled P uninitialized s ds /\ len ds = fst l /\ snd l = match last ds with Some d => len d | None => 0 end /\
  (n <= bc_free (m_blockCache s))%nat /\ len ds + Z.of_nat n < 2 ^ 57.

Lemma col_rep_le s l ds n n' : (n' <= n)%nat -> col_rep s l ds n -> col_rep s l ds n'.
Proof. intros Hn (H1 & H2 & H3 & H4 & H5). split_and!; try done; lia. Qed.

Lemma next_place_ok s l ds n : col_rep s l ds n -> place P t ds = next_place l.
Proof.
  intros (_ & Hn & Hx & _). pose proof (fc_area Hc). unfold place, next_place, alloc. rewrite <- Hn, Hx. destruct (last ds) as [d|] eqn:Hl.
  - assert (Hpos : len ds <> 0) by (destruct ds; [done|]; rewrite len_cons; pose proof (len_nonneg ds); lia). rewrite (proj2 (Z.eqb_neq _ 0)) by done.
    case_match; [by rewrite Hl|]. rewrite last_snoc, len_app. done.
  - by apply last_None in Hl as ->.
Qed.

Lemma place_block ds : 1 <= m_blockId (place P t ds).
Proof.
  unfold place, alloc. cbn. destruct (last ds) as [d|] eqn:Hl; [|done]. apply last_Some in Hl as [l ->]. pose proof (len_nonneg l).
  case_match; rewrite ?len_app; unfold len in *; cbn [length]; lia.
Qed.

Lemma place_not_null ds : isNullValueAddress (place P t ds) = false.
Proof. unfold isNullValueAddress. pose proof (place_block ds). rewrite (proj2 (Z.eqb_neq _ 0)) by lia. done. Qed.

(** The place is behind the data of its block. *)
Lemma place_behind ds d : ds !! Z.to_nat (m_blockId (place P t ds) - 1) = Some d -> len d <= m_offset (place P t ds).
Proof.
  unfold place, alloc. cbn. destruct (last ds) as [e|] eqn:Hl; [|by apply last_None in Hl as ->]. pose proof (lookup_last ds e Hl) as He.
  case_match; intros Hd.
  - rewrite Hl. replace (Z.to_nat (len ds - 1)) with (pred (length ds)) in Hd by (unfold len; lia). rewrite He in Hd. injection Hd as <-. lia.
  - apply lookup_lt_Some in Hd. rewrite len_app in Hd. unfold len in Hd. cbn in Hd. lia.
Qed.

Lemma col_write s l ds n value : col_rep s l ds (S n) -> value_ok value ->
  match spec_write l value with
  | Ok (a, w) => exists res s' ds', column_write sha256 time uninitialized value tc s = (Ok res, s') /\ m_dataAddress res = a /\
      (isNullValueAddress a = false -> m_blockId (m_nextAddress res) = m_blockId a) /\ col_rep s' (layout_written l a) ds' n /\
      extends ds ds' /\ value_at P t ds' a w /\ (forall d, ds !! Z.to_nat (m_blockId a - 1) = Some d -> isNullValueAddress a = false -> len d <= m_offset a)
  | Throw e => column_write sha256 time uninitialized value tc s = (Throw e, s)
  | Undef u => fst (column_write sha256 time uninitialized value tc s) = Undef u
  end.
Proof.
  intros Hrep Hv. pose proof Hrep as (Hs & Hn & Hx & Hf & Hsm). unfold spec_write, column_write. pose proof (fc_area Hc) as HrA. destruct (isNull value) eqn:Hnull.
  - destruct (tc_notNull tc) eqn:Hnn; [by unfold writeRecord; rewrite Hnull|]. exists null_result, s, ds.
    split; [unfold writeRecord; by rewrite Hnull|]. split; [done|]. split; [done|]. split; [by apply (col_rep_le _ _ _ (S n)); [lia|]|].
    split; [intros k d Hk; exists []; by rewrite app_nil_r|]. split; [by left|done].
  - destruct (convert_value t value) as [cv|e|u] eqn:Hcv; cbn [conversion_error].
    + destruct (convert_typed t (fc_type Hc) value cv Hcv) as (v & -> & Ht). unfold value_ok in Hv. rewrite Hcv in Hv.
      destruct (encode_ok t (fc_type Hc) v Ht Hv) as (bytes & Henc & Hlb & Hh).
      destruct (writeRecord_fixed P t (tc_notNull tc) sha256 time uninitialized (fc_ok Hc) (fc_type Hc) s ds value v bytes Hs Hcv Henc Hlb Hnull HrA ltac:(lia) ltac:(lia))
        as (s' & ds' & E & Hs' & He & Hst & Hl' & (d & Hld & Hdl) & Hfit & Hf').
      pose proof (next_place_ok s l ds _ Hrep) as Hp. pose proof (place_not_null ds) as Hnn. rewrite <- Hp. eexists _, s', ds'. split; [exact E|]. split; [done|]. split; [done|].
      unfold layout_written. rewrite Hnn. split.
      * split; [done|]. split; [exact Hl'|]. rewrite Hld. split; [done|]. split; [lia|].
        assert (len (alloc P ds r) <= len ds + 1) by (unfold alloc; repeat case_match; rewrite ?len_app; unfold len in *; cbn [length] in *; lia). lia.
      * split; [done|]. split; [right; by exists bytes|]. intros e Hk _. by apply place_behind.
    + unfold writeRecord. rewrite Hnull. unfold mbind at 1, mlift, conversion_error. rewrite Hcv. by destruct e.
    + unfold writeRecord. rewrite Hnull. unfold mbind at 1, mlift, conversion_error. by rewrite Hcv.
Qed.

Lemma col_read s l ds n a w : col_rep s l ds n -> value_at P t ds a w ->
  exists s', column_read uninitialized a tc s = (spec_read P t a w, s') /\ col_rep s' l ds n.
Proof.
  intros (Hs & Hn & Hx & Hf & Hsm) Ha. destruct (readRecord_ok P t sha256 uninitialized (fc_ok Hc) (fc_type Hc) s ds a w Hs Ha) as (s' & E & Hs' & Hf').
  exists s'. split; [exact E|]. split_and!; try done. lia.
Qed.
(** ** Rollback of the last value *)

Lemma shorten_ok (s : state) m ds k d off : blocks_inv P uninitialized s m ds -> ds !! k = Some d -> 0 <= off <= len d ->
  exists s', setNextDataPos P k off s = (Ok tt, s') /\ blocks_inv P uninitialized s' m (<[k := take (Z.to_nat off) d]> ds) /\ same_rest s s'.
Proof.
  intros Hi Hk Hoff. pose proof (fc_ok Hc) as Hco. destruct (inv_block P uninitialized s m ds k d Hi Hk) as (b & f & _ & Hb & Hf & Hok & _).
  pose proof (b_fits _ _ _ _ _ _ Hok). pose proof (co_file _ _ _ Hco). eexists. split; [apply setNextDataPos_ok; [exact Hb|lia]|]. split; [|done].
  set (b' := with_header _ _). assert (Hl : len (take (Z.to_nat off) d) = off) by (unfold len in *; rewrite length_take; lia).
  assert (Hok' : block_ok P uninitialized k (take (Z.to_nat off) d) b' f).
  { destruct Hok as [O1 O2 O3 O4 O5 O6 O7 O8]. split; rewrite ?Hl; try done; [|lia|].
    - destruct O2 as (V1 & V2 & V3 & V4 & V5 & V6 & V7 & V8 & V9 & V10 & V11 & V12). unfold block_header_ok. cbn. split_and!; try done. unfold u_ok. lia.
    - transitivity (take (Z.to_nat off) (sub f 1024 (len d))); [|by rewrite O8]. unfold sub. rewrite take_take. f_equal. unfold len in *. lia. }
  pose proof (inv_replace P uninitialized s m ds k d b f _ b' f Hi Hk Hb Hf Hok' (or_introl eq_refl)) as Hr.
  rewrite insert_id in Hr by done. destruct s as [a1 a2 a3 a4 a5 a6 a7 a8]. pose proof (i_room _ _ _ _ _ Hi) as Hroom. cbn in *. by subst.
Qed.

Lemma rollback_last (s : state) pre d off fuel : settled P uninitialized s (pre ++ [d]) -> 0 <= off <= len d -> off < A ->
  exists s', rollbackToAddress P uninitialized fuel {| m_blockId := len pre + 1; m_offset := off |} (len pre + 1) s = (Ok tt, s') /\
    settled P uninitialized s' (pre ++ [take (Z.to_nat off) d]) /\ bc_free (m_blockCache s') = bc_free (m_blockCache s).
Proof.
  intros [Hi Hav] Hoff HA. pose proof (fc_ok Hc) as Hco. assert (Hln : forall e, len (pre ++ [e]) = len pre + 1) by (intros e; by rewrite len_app).
  assert (Hp : forall e, pred (length (pre ++ [e])) = length pre) by (intros e; rewrite length_app; cbn; lia). rewrite Hp in Hi.
  unfold avail_ok in Hav. rewrite last_snoc, Hln in Hav. unfold rollbackToAddress. rewrite mbind_gets, Hav. cbn [avail_find m_blockId m_offset]. rewrite Z.eqb_refl.
  rewrite Z.gtb_ltb, Z.ltb_irrefl. pose proof (len_nonneg pre) as Hpos.
  destruct (loadBlock_ok P uninitialized s _ _ [] (len pre + 1) Hi ltac:(rewrite Hln; lia)) as (s1 & E1 & Hi1 & Ha1 & Hf1 & _). run_step E1.
  rewrite Z.geb_leb, (proj2 (Z.leb_gt _ _)) by lia. assert (El : rollback_loop P uninitialized fuel (len pre + 1) (len pre + 1) (Z.to_nat (len pre + 1 - 1)) s1 = (Ok (length pre), s1)).
  { replace (Z.to_nat (len pre + 1 - 1)) with (length pre) by (unfold len; lia). destruct fuel; cbn; by rewrite Z.eqb_refl. }
  run_step El. assert (Hlook : forall e, (pre ++ [e]) !! length pre = Some e) by (intros e; by rewrite lookup_app_r, Nat.sub_diag by lia).
  destruct (shorten_ok s1 _ _ _ d off Hi1 (Hlook d) Hoff) as (s2 & E2 & Hi2 & [Ha2 Hc2]). run_step E2.
  assert (Hins : <[length pre := take (Z.to_nat off) d]> (pre ++ [d]) = pre ++ [take (Z.to_nat off) d]) by (by rewrite <- (Nat.add_0_r (length pre)), insert_app_r).
  rewrite Hins in Hi2. set (d' := take (Z.to_nat off) d) in *. run_step (getId_ok P uninitialized s2 _ _ _ d' Hi2 (Hlook d')).
  change (Z.of_nat (length pre)) with (len pre). rewrite Z.eqb_refl. cbn [negb]. rewrite mbind_ret. unfold updateAvailableBlock.
  run_step (getFreeDataSpace_ok P sha256 uninitialized Hco s2 _ _ _ d' Hi2 (Hlook d')). run_step (getId_ok P uninitialized s2 _ _ _ d' Hi2 (Hlook d')).
  change (Z.of_nat (length pre)) with (len pre). unfold modify. rewrite Ha2, Ha1, Hav. cbn [avail_find avail_assign]. rewrite Z.eqb_refl.
  eexists. split; [done|]. split; [|cbn; by rewrite Hc2]. split; [rewrite Hp; destruct Hi2 as [? ? ? ? ? ? ?]; by split|]. unfold avail_ok. by rewrite last_snoc, Hln.
Qed.

Lemma extends_shortened ds pre d off : extends ds (pre ++ [d]) -> (forall e, ds !! length pre = Some e -> len e <= off) -> 0 <= off ->
  extends ds (pre ++ [take (Z.to_nat off) d]).
Proof.
  intros He Hoff Hpos k e Hk. destruct (He k e Hk) as [x Hx]. destruct (decide (k = length pre)) as [->|Hne].
  - rewrite lookup_app_r, Nat.sub_diag in * by lia. cbn in Hx. injection Hx as ->. specialize (Hoff e Hk). exists (take (Z.to_nat off - length e) x).
    cbn. rewrite take_app. do 2 f_equal. apply take_ge. unfold len in Hoff. lia.
  - exists x. rewrite lookup_app_l in *; [done|..]; apply lookup_lt_Some in Hx; rewrite length_app in Hx; cbn in Hx; lia.
Qed.

Lemma col_rollback s l ds ds0 n a : col_rep s l ds n -> l = (m_blockId a, m_offset a + r) -> 0 <= m_offset a -> m_offset a + r <= A -> 1 <= m_blockId a ->
  extends ds0 ds -> (forall d, ds0 !! Z.to_nat (m_blockId a - 1) = Some d -> len d <= m_offset a) ->
  exists s' ds', column_rollback uninitialized a (m_blockId a) tc s = (Ok tt, s') /\ col_rep s' (m_blockId a, m_offset a) ds' n /\ extends ds0 ds'.
Proof.
  intros (Hs & Hn & Hx & Hf & Hsm) -> Ho HoA Hb He Hbehind. cbn [fst snd] in *. pose proof (required_pos t (fc_type Hc)) as Hr. destruct (last ds) as [d|] eqn:Hl; [|lia].
  apply last_Some in Hl as [pre ->]. rewrite len_app in *. change (len [d]) with 1 in *.
  destruct (rollback_last s pre d (m_offset a) (Z.to_nat (m_blockId a)) Hs ltac:(lia) ltac:(lia)) as (s' & E & Hs' & Hf').
  exists s', (pre ++ [take (Z.to_nat (m_offset a)) d]). rewrite Hn in E. split; [by destruct a|]. split.
  - split; [done|]. cbn. rewrite len_app, last_snoc. split; [done|]. split; [unfold len in *; rewrite length_take; lia|]. split; [lia|exact Hsm].
  - apply extends_shortened; [done| |lia]. intros e Hk. apply Hbehind. by replace (Z.to_nat (m_blockId a - 1)) with (length pre) by (unfold len in *; lia).
Qed.
End Laws.
