(* ===== verification/MasterSpec.v ===== *)
(** * What the master column promises

    Writing a record stores it behind the others and changes the main index as
    the kind of operation says; a record is found by its row number.  The main
    index is any implementation of the interface; the linear index is one. *)

From stdpp Require Import base list gmap.
Set Warnings "-clear-no-such-hyp,-notation-incompatible-prefix,-notation-for-abbreviation".
From Stdlib Require Import ZArith Lia.
From S2P Require Import Prelude StateM Bytes VarInt PlainBinary Codec ColumnRecords IndexKeys LruCache LinearIndex LinearIndexOps LinearIndexNav LinearIndexMap.
From S2P Require Import BlockRegistry Column ColumnData ColumnBlocks ColumnSpec MasterColumn.

Local Open Scope Z_scope.

(** ** The linear index as main index *)

Section Index.
Context {D : Type} `{FC : FileCache D} {FL : FileCacheLaws D} (U : uli_params).

#[export] Instance uli_main_index : MainIndex (uli_state D) := {
  ix_insert := insert U;
  ix_erase := erase U;
  ix_update := update U;
  ix_find := find U
}.

Context (Hp : params_ok U) (Ht : m_traits U = UInt64IndexKeyTraits) (Hv : m_valueSize U = 12).

Definition uli_key (k : Z) : Prop := 0 <= k <= max_key U /\ getFileIdForKey U k <= m_maxPossibleFileId U.
Definition uli_ok (s : uli_state D) (m : gmap Z (list Z)) : Prop := index_ok U s m /\ room s = None.

Lemma uli_key_ok k : uli_key k -> valid_key U (pbeEncodeUInt64 k) /\ decodeKey (m_traits U) (pbeEncodeUInt64 k) = k.
Proof.
  intros [Hk _]. assert (He : pbeEncodeUInt64 k = encodeKey (m_traits U) k) by (rewrite Ht; reflexivity). rewrite He.
  pose proof (decode_encoded U Hp k Hk) as Hd. split; [|done]. split; [apply encodeKey_ok, (size_ok U Hp)|]. rewrite Hd. lia.
Qed.

Lemma uli_ends {A} (c : M A) (s : uli_state D) m m' a ids : uli_ok s m -> wp c s (ends U s m' ids a) (fails U s m m') -> exists s', c s = (Ok a, s') /\ uli_ok s' m'.
Proof.
  intros [Hs Hr] Hwp. unfold wp in Hwp. destruct (c s) as [[x|e|u] s']; [|by destruct Hwp as (_ & ? & _)|done].
  destruct Hwp as (-> & Hs' & _ & Hr'). exists s'. split; [done|]. split; auto.
Qed.

#[export] Instance uli_main_index_laws : MainIndexLaws (uli_state D).
Proof.
  refine {| ix_ok := uli_ok; ix_key := uli_key |}.
  - intros s m k v Hs Hk Hl. destruct (uli_key_ok k Hk) as [Hval Hd]. pose proof (insert_ok U Hp s m (pbeEncodeUInt64 k) v (proj1 Hs) (or_intror (proj2 Hs)) Hval) as H. rewrite Hd in H.
    eapply uli_ends; [done|]. apply H; [apply Hk|lia].
  - intros s m k Hs Hk. destruct (uli_key_ok k Hk) as [Hval Hd]. pose proof (uli_erase_ok U Hp s m (pbeEncodeUInt64 k) (proj1 Hs) Hval) as H. rewrite Hd in H.
    eexists. eapply uli_ends; [done|]. apply H, Hk.
  - intros s m k v Hs Hk Hl. destruct (uli_key_ok k Hk) as [Hval Hd]. pose proof (update_ok U Hp s m (pbeEncodeUInt64 k) v (proj1 Hs) Hval) as H. rewrite Hd in H.
    eexists. eapply uli_ends; [done|]. apply H; [apply Hk|lia].
  - intros s m k Hs Hk. destruct (uli_key_ok k Hk) as [Hval Hd]. pose proof (find_ok U Hp s m (pbeEncodeUInt64 k) 1 (proj1 Hs) Hval) as H. rewrite Hd in H.
    eapply uli_ends; [done|]. apply H; [apply Hk|lia].
Defined.
End Index.

(** ** Records *)

Section Master.
Context {C I : Type} `{BC : BlockCache C} {BL : BlockCacheLaws C} {MI : MainIndex I} {ML : MainIndexLaws I} (P : column_params).
Context (sha256 : list Z -> list Z) (time : nat -> Z) (uninitialized : Z).
Notation state := (master_state C I).
Notation A := (m_dataBlockDataAreaSize P).
Context (Hco : column_ok P sha256 uninitialized).

Definition master_rep (s : state) (dm : list (list Z)) (idx : gmap Z (list Z)) (n : nat) : Prop :=
  settled P uninitialized (mc_column s) dm /\ ix_ok (m_mainIndex s) idx /\ (n <= bc_free (m_blockCache (mc_column s)))%nat /\ len dm + Z.of_nat n < 2 ^ 57.

Lemma master_rep_le s dm idx n n' : (n' <= n)%nat -> master_rep s dm idx n -> master_rep s dm idx n'.
Proof. intros Hn (H1 & H2 & H3 & H4). split_and!; try done; lia. Qed.

(** The bytes of a record, and a record of at most two size bytes. *)
Definition mcr_bytes (mcr : MasterColumnRecord) : list Z := mcr_serializeWithSizeTag mcr (mcr_size mcr).
Definition mcr_small (mcr : MasterColumnRecord) : Prop := mcr_ok mcr /\ mcr_size mcr < 16384.
Definition mcr_at (dm : list (list Z)) (a : ColumnDataAddress) (mcr : MasterColumnRecord) : Prop :=
  stored dm (m_blockId a) (m_offset a) (mcr_bytes mcr) /\ mcr_small mcr.

Lemma mcr_at_extends dm dm' a mcr : extends dm dm' -> mcr_at dm a mcr -> mcr_at dm' a mcr.
Proof. intros He [Hst Hok]. split; [by eapply stored_extends|done]. Qed.

(** The size of a small record takes one or two bytes. *)
Lemma size_tag z : 0 <= z < 16384 ->
  (z < 128 /\ encodeVarUInt16 z = [z]) \/
  (exists b0 b1, encodeVarUInt16 z = [b0; b1] /\ 128 <= b0 < 256 /\ decodeVarUInt16 [b0; b1] 2 = Ok (Consumed 2 z)).
Proof.
  intros Hz. assert (Hu : u_ok 16 z) by (unfold u_ok; lia). pose proof (fits_max_iter W16 z Hu) as Hf. pose proof (encode_loop_eq _ _ Hf) as He. change (encode_loop (max_iter W16) z) with (encodeVarUInt16 z) in He.
  rewrite Z.geb_leb in He. destruct (Z.leb_spec 128 z) as [Hge|Hlt]; [|left; by rewrite He, uw_small by (unfold u_ok; lia)].
  right. assert (Hs : 0 <= Z.shiftr z 7 < 128) by (rewrite shiftr_div by lia; change (2 ^ 7) with 128; split; [apply Z.div_pos; lia|apply Z.div_lt_upper_bound; lia]).
  assert (Hu2 : u_ok 16 (Z.shiftr z 7)) by (unfold u_ok; lia). rewrite (encode_loop_eq _ _ (fits_max_iter W16 _ Hu2)), Z.geb_leb, (proj2 (Z.leb_gt _ _)) in He by lia.
  exists (uw 8 (Z.lor z 128)), (uw 8 (Z.shiftr z 7)). split; [done|]. pose proof (lor_0x80_byte z ltac:(lia)) as Hb. pose proof (uw_range 8 (Z.lor z 128)).
  split; [unfold u_ok in *; lia|]. assert (Hd : decodable W16 (encodeVarInt false W16 z) []) by (cbn [encodeVarInt]; rewrite He; right; right; cbn [app List.last]; rewrite uw_small by (unfold u_ok; lia); lia).
  pose proof (decodeVarUInt_roundtrip W16 z [] Hu ltac:(constructor) Hd) as H'. rewrite app_nil_r in H'. cbn [encodeVarInt decodeVarInt] in H'. by rewrite He in H'.
Qed.

Lemma size_tag_len z : 0 <= z < 16384 -> len (encodeVarUInt16 z) = getVarUInt16Size z /\ 1 <= len (encodeVarUInt16 z) <= 2.
Proof.
  intros Hz. pose proof (getVarIntSize_len false W16 z) as Hv. cbn [getVarIntSize encodeVarInt] in Hv. split; [done|].
  destruct (size_tag z Hz) as [[_ ->]|(b0 & b1 & -> & _)]; unfold len; cbn [length]; lia.
Qed.

Lemma mcr_bytes_len mcr : mcr_small mcr -> len (mcr_bytes mcr) = mcr_sizeWithSizeTag (mcr_size mcr) /\ 0 < mcr_size mcr /\ mcr_size mcr < len (mcr_bytes mcr) <= mcr_size mcr + 2.
Proof.
  intros [Hok Hs]. pose proof (mcr_size_len mcr) as Hl. pose proof (closed_len _ (mcr_body_closed mcr Hok)) as Hpos.
  unfold mcr_bytes, mcr_serializeWithSizeTag, mcr_sizeWithSizeTag. cbv zeta. rewrite len_app. generalize dependent (mcr_size mcr). intros z Hs ->.
  set (n := len (mcr_body mcr)) in *. rewrite uw_small by (unfold u_ok; lia). pose proof (size_tag_len n ltac:(lia)). lia.
Qed.
Lemma read_sized (s : column_state C) dm a body r0 mcr n : settled P uninitialized s dm -> stored dm (m_blockId a) (m_offset a) (encodeVarUInt16 (len body) ++ body) ->
  0 < len body < 16384 -> mcr_deserialize (E := ColumnError) r0 body (len body) = Ok (mcr, n) ->
  exists s', readMasterColumnRecord P uninitialized a r0 s = (Ok mcr, s') /\ settled P uninitialized s' dm /\ bc_free (m_blockCache s') = bc_free (m_blockCache s).
Proof.
  intros [Hi Hav] Hst Hz Hrt. pose proof (co_file _ _ _ Hco) as HA.
  destruct (stored_bounds P uninitialized s _ dm _ _ _ Hi Hst) as [Hid Hb]. pose proof (proj1 (proj2 Hst)) as Hoff. unfold readMasterColumnRecord, findExistingBlock.
  destruct (loadBlock_ok P uninitialized s _ dm [] (m_blockId a) Hi Hid) as (s1 & E1 & Hi1 & Ha1 & Hf1 & _). run_step E1.
  exists s1. split; [|split; [split; [done|unfold avail_ok in *; congruence]|done]]. cbv zeta.
  rewrite len_app in Hb. pose proof (len_nonneg (encodeVarUInt16 (len body))). set (z := len body) in *.
  destruct (size_tag z ltac:(lia)) as [[Hlt Htag]|(b0 & b1 & Htag & Hb0 & Hdec)]; rewrite Htag in *.
  - change (len [z]) with 1 in Hb. apply stored_split in Hst as [H1 H2]. change (len [z]) with 1 in H2.
    pose proof (block_readData_ok P sha256 uninitialized Hco s1 _ dm _ _ [z] Hi1 H1) as E2. change (len [z]) with 1 in E2. run_step E2.
    unfold mbind at 1, mlift at 1. rewrite rd_cons_0, Z.geb_leb, (proj2 (Z.leb_gt _ _)) by lia. rewrite mbind_ret, (uw_small 32 (m_offset a + 1)) by (unfold u_ok; lia).
    assert (Hdec : decodeVarUInt16 [z; uw 8 uninitialized] 2 = Ok (Consumed 1 z)) by (unfold decodeVarUInt16; rewrite rd_cons_0; cbn [bind Z.gtb Z.compare]; by rewrite (proj2 (Z.ltb_lt z 128))).
    rewrite Hdec. unfold mbind at 1, mlift at 1. cbn [Codec.lift]. unfold kMaxSerializedSize. rewrite Z.gtb_ltb, (proj2 (Z.ltb_ge _ _)) by lia.
    pose proof (block_readData_ok P sha256 uninitialized Hco s1 _ dm _ _ _ Hi1 H2) as E3. run_step E3. unfold mbind, mlift. by rewrite Hrt.
  - change (len [b0; b1]) with 2 in Hb. apply stored_split in Hst as [H1 H2]. change (len [b0; b1]) with 2 in H2. change [b0; b1] with ([b0] ++ [b1]) in H1. apply stored_split in H1 as [H1 H1'].
    change (len [b0]) with 1 in H1'. pose proof (block_readData_ok P sha256 uninitialized Hco s1 _ dm _ _ [b0] Hi1 H1) as E2. change (len [b0]) with 1 in E2. run_step E2.
    unfold mbind at 1, mlift at 1. rewrite rd_cons_0, Z.geb_leb, (proj2 (Z.leb_le _ _)) by lia. rewrite (uw_small 32 (m_offset a + 1)), (uw_small 32 (m_offset a + 2)) by (unfold u_ok; lia).
    pose proof (block_readData_ok P sha256 uninitialized Hco s1 _ dm _ _ [b1] Hi1 H1') as E2'. change (len [b1]) with 1 in E2'. unfold mbind at 1. run_step E2'.
    unfold mbind at 1, mlift at 1. rewrite rd_cons_0. unfold mret at 1. rewrite Hdec. unfold mbind at 1, mlift at 1. cbn [Codec.lift]. unfold kMaxSerializedSize. rewrite Z.gtb_ltb, (proj2 (Z.ltb_ge _ _)) by lia.
    pose proof (block_readData_ok P sha256 uninitialized Hco s1 _ dm _ _ _ Hi1 H2) as E3. run_step E3. unfold mbind, mlift. by rewrite Hrt.
Qed.

Lemma mcr_bytes_eq mcr : mcr_bytes mcr = encodeVarUInt16 (uw 16 (mcr_size mcr)) ++ mcr_body mcr.
Proof. reflexivity. Qed.

Lemma mcr_bytes_def mcr : mcr_bytes mcr = mcr_serializeWithSizeTag mcr (mcr_size mcr).
Proof. reflexivity. Qed.

(** The bytes in terms of the body. *)
Lemma mcr_small_body mcr : mcr_small mcr -> mcr_bytes mcr = encodeVarUInt16 (len (mcr_body mcr)) ++ mcr_body mcr /\ 0 < len (mcr_body mcr) < 16384.
Proof.
  intros [Hok Hz]. rewrite mcr_bytes_eq. pose proof (closed_len _ (mcr_body_closed mcr Hok)) as Hpos. rewrite mcr_size_len in *.
  clear Hok. revert Hpos Hz. generalize (len (mcr_body mcr)). intros z Hpos Hz. rewrite uw_small by (unfold u_ok; lia). split; [done|lia].
Qed.

Lemma read_mcr_ok (s : column_state C) dm a mcr r0 : settled P uninitialized s dm -> mcr_at dm a mcr ->
  exists s', readMasterColumnRecord P uninitialized a r0 s = (Ok mcr, s') /\ settled P uninitialized s' dm /\ bc_free (m_blockCache s') = bc_free (m_blockCache s).
Proof.
  intros Hs [Hst Hsm]. destruct (mcr_small_body mcr Hsm) as [E Hz]. rewrite E in Hst. eapply read_sized; [done|done|done|].
  apply mcr_body_roundtrip; [apply Hsm|]. clear -Hz. lia.
Qed.

(** *** Writing *)

(** The place of the next record. *)
Definition mcr_place (dm : list (list Z)) (mcr : MasterColumnRecord) : ColumnDataAddress :=
  let dm' := alloc P dm (len (mcr_bytes mcr)) in
  {| m_blockId := len dm'; m_offset := match last dm' with Some d => len d | None => 0 end |}.
Definition place_value (a : ColumnDataAddress) : list Z := index_value (m_blockId a) (m_offset a).

(** What an operation does to the main index; [None]: the row number is taken. *)
Definition index_effect (mcr : MasterColumnRecord) (v : list Z) (idx : gmap Z (list Z)) : option (gmap Z (list Z)) :=
  let k := m_tableRowId mcr in
  if m_operationType mcr =? operation_code kInsert then match idx !! k with Some _ => None | None => Some (<[k := v]> idx) end
  else if m_operationType mcr =? operation_code kDelete then Some (delete k idx)
  else if m_operationType mcr =? operation_code kUpdate then Some (match idx !! k with Some _ => <[k := v]> idx | None => idx end)
  else Some idx.

Lemma master_column_ok {T} (c : SM (column_state C) ColumnError T) (s : state) a c' : c (mc_column s) = (Ok a, c') ->
  master_column c s = (Ok a, {| mc_column := c'; m_mainIndex := m_mainIndex s; m_tridCounters := m_tridCounters s |}).
Proof. intros H. unfold master_column, embed. by rewrite H. Qed.

Lemma update_main_index_ok (s : state) idx mcr v : ix_ok (m_mainIndex s) idx -> ix_key (m_tableRowId mcr) -> len v = 12 ->
  match index_effect mcr v idx with
  | Some idx' => exists i', update_main_index mcr v s = (Ok tt, {| mc_column := mc_column s; m_mainIndex := i'; m_tridCounters := m_tridCounters s |}) /\ ix_ok i' idx'
  | None => exists i', update_main_index mcr v s = (Throw (CannotInsertDuplicateTrid (m_tableRowId mcr)), {| mc_column := mc_column s; m_mainIndex := i'; m_tridCounters := m_tridCounters s |}) /\ ix_ok i' idx
  end.
Proof.
  intros Hi Hk Hv. unfold index_effect, update_main_index, main_index, embed, mbind. cbv zeta. destruct (_ =? operation_code kInsert).
  - destruct (ix_insert_law _ _ _ _ Hi Hk Hv) as (i' & -> & Hi'). destruct (idx !! _); by exists i'.
  - destruct (_ =? operation_code kDelete).
    + destruct (ix_erase_law _ _ _ Hi Hk) as (n & i' & -> & Hi'). by exists i'.
    + destruct (_ =? operation_code kUpdate).
      * destruct (ix_update_law _ _ _ _ Hi Hk Hv) as (n & i' & -> & Hi'). by exists i'.
      * exists (m_mainIndex s). split; [by destruct s|done].
Qed.

Lemma alloc_extends_any ds q : extends ds (alloc P ds q).
Proof.
  intros k d Hk. exists []. rewrite app_nil_r. unfold alloc. destruct (last ds) as [l|] eqn:Hl; [|apply last_None in Hl as ->; done].
  case_match; [done|]. by apply lookup_app_l_Some.
Qed.

Lemma alloc_count ds q : len (alloc P ds q) <= len ds + 1.
Proof. unfold alloc. repeat case_match; rewrite ?len_app; unfold len in *; cbn [length] in *; lia. Qed.

Lemma index_value_len b p : len (index_value b p) = 12.
Proof. unfold index_value, pbeEncodeUInt64, pbeEncodeUInt32. by rewrite len_app, !len_le_store. Qed.

(** A record is appended to the last block. *)
Lemma write_mcr (s : state) dm idx n mcr : master_rep s dm idx (S n) -> mcr_small mcr -> len (mcr_bytes mcr) <= A -> ix_key (m_tableRowId mcr) ->
  let a := mcr_place dm mcr in
  match index_effect mcr (place_value a) idx with
  | Some idx' => exists w s' dm', writeMasterColumnRecord P sha256 time uninitialized mcr true s = (Ok w, s') /\ master_rep s' dm' idx' n /\ extends dm dm' /\
      mcr_at dm' a mcr /\ m_dataAddress w = a /\ m_tridCounters s' = m_tridCounters s
  | None => exists s' dm', writeMasterColumnRecord P sha256 time uninitialized mcr true s = (Throw (CannotInsertDuplicateTrid (m_tableRowId mcr)), s') /\
      master_rep s' dm' idx n /\ extends dm dm' /\ m_tridCounters s' = m_tridCounters s
  end.
Proof.
  intros (Hs & Hix & Hfree & Hsm) Hmcr HA Hkey. pose proof (co_file _ _ _ Hco) as HAf. destruct (mcr_bytes_len mcr Hmcr) as (Hlen & Hpos & Hle). assert (Hmax : len (mcr_bytes mcr) <= 16386) by (destruct Hmcr as [_ Hz]; clear -Hz Hle; lia).
  assert (Hpos' : 0 < len (mcr_bytes mcr)) by (clear -Hpos Hle; lia). clear Hpos Hle. unfold mcr_place, mcr_at. cbv zeta.
  unfold writeMasterColumnRecord. cbv zeta. rewrite <- mcr_bytes_def, <- Hlen. clear Hlen.
  revert HA Hmax Hpos'. generalize (mcr_bytes mcr) as bytes. intros bytes HA Hmax Hpos. unfold kMaxSerializedSize. rewrite Z.gtb_ltb, (proj2 (Z.ltb_ge _ _)) by lia.
  rewrite (uw_small 32 (len bytes)) by (unfold u_ok; lia).
  destruct (selectAvailableBlock_ok P sha256 time uninitialized Hco (mc_column s) dm (len bytes) Hs ltac:(lia) ltac:(lia) ltac:(lia)) as (c1 & E1 & [Hi1 Ha1] & Hf1).
  run_step (master_column_ok _ s _ _ E1). pose proof (alloc_extends_any dm (len bytes)) as Hext. pose proof (alloc_count dm (len bytes)) as Hcount.
  destruct (alloc_last P sha256 uninitialized Hco dm (len bytes) ltac:(lia)) as (pre & d & Hal & Hfit & HdA). rewrite Hal in *. rewrite last_snoc. cbn [m_blockId m_offset].
  assert (Hp : forall e, pred (length (pre ++ [e])) = length pre) by (intros e; rewrite length_app; cbn; lia). rewrite Hp in *.
  assert (Hlook : forall e, (pre ++ [e]) !! length pre = Some e) by (intros e; by rewrite lookup_app_r, Nat.sub_diag by lia).
  assert (Hln : forall e, len (pre ++ [e]) = Z.of_nat (length pre) + 1) by (intros e; rewrite len_app; unfold len; cbn; lia). rewrite Hln in *.
  set (s1 := {| mc_column := c1; m_mainIndex := _; m_tridCounters := _ |}).
  run_step (master_column_ok _ s1 _ _ (getId_ok P uninitialized c1 _ _ _ d Hi1 (Hlook d))). cbn [mc_column m_mainIndex m_tridCounters s1].
  unfold avail_ok in Ha1. rewrite last_snoc, Hln in Ha1. run_step (master_column_ok (gets m_availableDataBlocks) s1 _ _ eq_refl). cbn [mc_column m_mainIndex m_tridCounters s1].
  rewrite Ha1. cbn [avail_find]. rewrite Z.eqb_refl.
  run_step (master_column_ok _ s1 _ _ (getNextDataPos_ok P uninitialized c1 _ _ _ d Hi1 (Hlook d))). cbn [mc_column m_mainIndex m_tridCounters s1].
  rewrite Z.gtb_ltb, Z.ltb_irrefl, Z.eqb_refl. cbn [negb].
  destruct (append_ok P sha256 uninitialized Hco c1 _ _ _ d bytes (len bytes) Hi1 (Hlook d) ltac:(lia) ltac:(lia)) as (c2 & c3 & pad & E2 & E3 & Hpad & Hi3 & [Hr3 Hc3]).
  destruct (block_append_ok P sha256 uninitialized Hco c1 _ _ _ d bytes Hi1 (Hlook d) ltac:(lia)) as (c2' & E2' & Hi2 & [Hr2 Hc2]). rewrite E2 in E2'. injection E2' as <-.
  run_step (master_column_ok _ s1 _ _ E2). cbn [mc_column m_mainIndex m_tridCounters s1]. set (s2 := {| mc_column := c2; m_mainIndex := _; m_tridCounters := _ |}).
  pose proof (update_main_index_ok s2 idx mcr (index_value (Z.of_nat (length pre) + 1) (len d)) Hix Hkey (index_value_len _ _)) as Hup.
  unfold place_value. cbn [m_blockId m_offset]. destruct (index_effect mcr _ idx) as [idx'|].
  - destruct Hup as (i' & Eu & Hi'). run_step Eu. cbn [mc_column m_mainIndex m_tridCounters s2]. set (s3 := {| mc_column := c2; m_mainIndex := i'; m_tridCounters := _ |}).
    run_step (master_column_ok _ s3 _ _ E3). cbn [mc_column m_mainIndex m_tridCounters s3].
    assert (pad = []) as -> by (destruct pad; [done|]; rewrite len_cons in Hpad; pose proof (len_nonneg pad); lia). rewrite app_nil_r in Hi3.
    assert (Hins : <[length pre := d ++ bytes]> (pre ++ [d]) = pre ++ [d ++ bytes]) by (by rewrite <- (Nat.add_0_r (length pre)), insert_app_r). rewrite Hins in Hi3.
    set (d' := d ++ bytes) in *. set (s4 := {| mc_column := c3; m_mainIndex := i'; m_tridCounters := _ |}).
    set (c4 := set_available [(Z.of_nat (length pre) + 1, A - len d')] c3).
    assert (E4 : update_found P (Z.of_nat (length pre) + 1) (length pre) c3 = (Ok tt, c4)).
    { unfold update_found. rewrite mbind_gets, Hr3, Ha1. cbn [avail_find]. rewrite Z.eqb_refl. run_step (getFreeDataSpace_ok P sha256 uninitialized Hco c3 _ _ _ d' Hi3 (Hlook d')).
      unfold modify. rewrite Hr3, Ha1. cbn [avail_assign]. by rewrite Z.eqb_refl. }
    run_step (master_column_ok _ s4 _ _ E4). cbn [mc_column m_mainIndex m_tridCounters s4]. set (s5 := {| mc_column := c4; m_mainIndex := i'; m_tridCounters := _ |}).
    assert (Hi4 : blocks_inv P uninitialized c4 (length pre) (pre ++ [d'])) by (destruct Hi3 as [? ? ? ? ? ? ? ?]; by split).
    run_step (master_column_ok _ s5 _ _ (getNextDataPos_ok P uninitialized c4 _ _ _ d' Hi4 (Hlook d'))). cbn [mc_column m_mainIndex m_tridCounters s5].
    eexists _, s5, (pre ++ [d']). split; [done|]. split; [|split; [|split; [|done]]].
    + split; [split; [by rewrite Hp|unfold avail_ok; by rewrite last_snoc, Hln]|]. split; [done|]. cbn. rewrite Hc3, Hln. split; lia.
    + eapply extends_trans; [exact Hext|]. intros k e Hk. destruct (decide (k = length pre)) as [->|Hne].
      * rewrite Hlook in *. injection Hk as <-. by exists bytes.
      * exists []. rewrite app_nil_r. rewrite !lookup_app_l in * by (apply lookup_lt_Some in Hk; rewrite length_app in Hk; cbn in Hk; lia). done.
    + split; [|done]. pose proof (len_nonneg d). split; [lia|]. split; [lia|]. exists d'. replace (Z.to_nat (Z.of_nat (length pre) + 1 - 1)) with (length pre) by lia.
      split; [done|]. unfold d'. rewrite len_app. split; [lia|]. pose proof (sub_app_mid d bytes [] 0 (len bytes)) as Hsub. rewrite app_nil_r, Z.add_0_r in Hsub. rewrite Hsub by lia.
      unfold sub. cbn [Z.to_nat]. rewrite drop_0. apply firstn_len.
  - destruct Hup as (i' & Eu & Hi'). unfold mbind at 1. rewrite Eu. eexists _, (pre ++ [d]). split; [done|]. split; [|done].
    split; [split; [by rewrite Hp|unfold avail_ok; rewrite last_snoc, Hln; cbn; congruence]|]. split; [done|]. cbn. rewrite Hc2, Hln. split; lia.
Qed.
End Master.
