(* ===== verification/TableSpec.v ===== *)
(** * What a table promises

    A table of fixed-size columns as a map from row numbers to rows.  Insert,
    update, delete and read give the results of the abstract table; a row that
    cannot be inserted leaves no trace but unused blocks. *)

From stdpp Require Import base list gmap.
Set Warnings "-clear-no-such-hyp,-notation-incompatible-prefix,-notation-for-abbreviation".
From Stdlib Require Import ZArith Lia.
From S2P Require Import Prelude StateM Bytes VarInt PlainBinary ColumnRecords CNum VariantType Variant ColumnType ExprEval LinearIndex.
From S2P Require Import Column ColumnData ColumnBlocks ColumnSpec MasterColumn Table ColumnLaws MasterSpec.

Local Open Scope Z_scope.

Inductive TableOp : Type :=
| TInsert (values : list Variant) (customTrid : Z) (tp : TransactionParameters)
| TInsertNamed (names : list (list Z)) (values : list Variant) (tp : TransactionParameters)
| TUpdate (trid : Z) (columns : list nat) (values : list Variant) (tp : TransactionParameters)
| TDelete (trid : Z) (tp : TransactionParameters)
| TRead (trid : Z).

Inductive TableResult : Type :=
| TInserted (trid : Z)
| TUpdated (found : bool)
| TDeleted (found : bool)
| TRow (values : list ReadValue).

(** The abstract table: the layouts of the columns, the rows with the addresses
    and values of their columns, and the last row number that was given. *)
Notation arow := (list (ColumnDataAddress * Variant)).
Record atable : Type := { at_layouts : list layout; at_rows : gmap Z arow; at_lastTrid : Z }.

Section Spec.
Context {X : Externals} (T : table_params).
Notation cols := (t_columns T).

(** The values that are written, and how it ends. *)
Fixpoint spec_writes (columns : list table_column) (ls : list layout) (values : list Variant) : arow * outcome TableError unit :=
  match columns, ls, values with
  | tc :: columns', l :: ls', v :: values' =>
      match spec_write tc l v with
      | Ok w => let '(ws, o) := spec_writes columns' ls' values' in (w :: ws, o)
      | Throw e => ([], Throw (ColumnFailed e))
      | Undef u => ([], Undef u)
      end
  | _, _, _ => ([], Ok tt)
  end.

(** The layouts after the values were written, or rolled back. *)
Fixpoint written (columns : list table_column) (ls : list layout) (ws : arow) : list layout :=
  match columns, ls, ws with
  | tc :: columns', l :: ls', w :: ws' => layout_written tc l (fst w) :: written columns' ls' ws'
  | _, _, _ => ls
  end.
Fixpoint undone (ls : list layout) (ws : arow) : list layout :=
  match ls, ws with
  | l :: ls', w :: ws' => layout_undone l (fst w) :: undone ls' ws'
  | _, _ => ls
  end.

Definition spec_insert_at (values : list Variant) (trid : Z) (t : atable) : outcome TableError TableResult * atable :=
  let '(ws, o) := spec_writes cols (at_layouts t) values in
  let failed := {| at_layouts := undone (at_layouts t) ws; at_rows := at_rows t; at_lastTrid := at_lastTrid t |} in
  match o with
  | Ok _ =>
      match at_rows t !! trid with
      | Some _ => (Throw (CannotInsertDuplicateTrid trid), failed)
      | None => (Ok (TInserted trid), {| at_layouts := written cols (at_layouts t) ws; at_rows := <[trid := ws]> (at_rows t); at_lastTrid := at_lastTrid t |})
      end
  | Throw e => (Throw e, failed)
  | Undef u => (Undef u, t)
  end.

(** A row without a number gets the next one. *)
Definition spec_insert (values : list Variant) (customTrid : Z) (t : atable) : outcome TableError TableResult * atable :=
  if customTrid =? 0 then
    spec_insert_at values (at_lastTrid t + 1) {| at_layouts := at_layouts t; at_rows := at_rows t; at_lastTrid := at_lastTrid t + 1 |}
  else spec_insert_at values customTrid t.

(** The columns that are updated one after the other: column numbers and what
    is written. *)
Fixpoint spec_updates (ls : list layout) (columns : list nat) (values : list Variant) : list (nat * (ColumnDataAddress * Variant)) * outcome TableError unit :=
  match columns, values with
  | i :: columns', v :: values' =>
      match cols !! i, ls !! i with
      | Some tc, Some l =>
          match spec_write tc l v with
          | Ok w => let '(ws, o) := spec_updates ls columns' values' in ((i, w) :: ws, o)
          | Throw e => ([], Throw (ColumnFailed e))
          | Undef u => ([], Undef u)
          end
      | _, _ => ([], Ok tt)
      end
  | _, _ => ([], Ok tt)
  end.

Definition written_at (ls : list layout) (ws : list (nat * (ColumnDataAddress * Variant))) : list layout :=
  fold_left (fun ls '(i, w) => match cols !! i with Some tc => alter (fun l => layout_written tc l (fst w)) i ls | None => ls end) ws ls.
Definition undone_at (ls : list layout) (ws : list (nat * (ColumnDataAddress * Variant))) : list layout :=
  fold_left (fun ls '(i, w) => alter (fun l => layout_undone l (fst w)) i ls) ws ls.
Definition updated_row (row : arow) (ws : list (nat * (ColumnDataAddress * Variant))) : arow :=
  fold_left (fun row '(i, w) => <[i := w]> row) ws row.

(** When the first value cannot be written the rollback is undefined. *)
Definition spec_update (trid : Z) (columns : list nat) (values : list Variant) (t : atable) : outcome TableError TableResult * atable :=
  match at_rows t !! trid with
  | None => (Ok (TUpdated false), t)
  | Some row =>
      if negb (len values =? len columns) then (Throw (UpdateValuesDoNotFitToPositions (len values) (len columns)), t) else
      let '(ws, o) := spec_updates (at_layouts t) columns values in
      match o, ws with
      | Ok _, _ => (Ok (TUpdated true), {| at_layouts := written_at (at_layouts t) ws; at_rows := <[trid := updated_row row ws]> (at_rows t); at_lastTrid := at_lastTrid t |})
      | Throw _, [] => (Undef OutOfBounds, t)
      | Throw e, _ => (Throw e, {| at_layouts := undone_at (at_layouts t) ws; at_rows := at_rows t; at_lastTrid := at_lastTrid t |})
      | Undef u, _ => (Undef u, t)
      end
  end.

Definition spec_delete (trid : Z) (t : atable) : outcome TableError TableResult * atable :=
  if trid >? at_lastTrid t then (Ok (TDeleted false), t) else
  match at_rows t !! trid with
  | None => (Ok (TDeleted false), t)
  | Some _ => (Ok (TDeleted true), {| at_layouts := at_layouts t; at_rows := delete trid (at_rows t); at_lastTrid := at_lastTrid t |})
  end.

Fixpoint spec_read_columns (trid : Z) (columns : list table_column) (row : arow) : outcome TableError (list ReadValue) :=
  match columns, row with
  | tc :: columns', (a, w) :: row' =>
      v <- (match spec_read (tc_params tc) (tc_dataType tc) a w with Ok v => Ok v | Throw e => Throw (ColumnFailed e) | Undef u => Undef u end) ;;
      if (match v with RValue VNull => true | _ => false end) && tc_notNull tc then Throw (UnexpectedNullValue (tc_name tc) trid) else
      rest <- spec_read_columns trid columns' row' ;;
      Ok (v :: rest)
  | _, _ => Ok []
  end.

Definition spec_readRow (trid : Z) (t : atable) : outcome TableError TableResult :=
  match at_rows t !! trid with
  | None => Throw (MasterColumnRecordIndexCorrupted 3)
  | Some row => rest <- spec_read_columns trid cols row ;; Ok (TRow (RValue (row_id trid) :: rest))
  end.

Definition spec_op (op : TableOp) (t : atable) : outcome TableError TableResult * atable :=
  match op with
  | TInsert values customTrid _ =>
      if len values >=? columnCount T then (Throw (TooManyColumnsToInsert (len values) (columnCount T - 1)), t) else
      match fill_defaults cols (Some <$> values) with
      | Ok values => spec_insert values customTrid t
      | Throw e => (Throw e, t)
      | Undef u => (Undef u, t)
      end
  | TInsertNamed names values _ =>
      if negb (len names =? len values) then (Throw (NumberOfValuesMismatchOnInsert (len values) (len names)), t) else
      if len values >=? columnCount T then (Throw (TooManyColumnsToInsert (len values) (columnCount T - 1)), t) else
      let '(ordered, errors) := order_values T names values (replicate (length cols) None) [] in
      match errors with
      | _ :: _ => (Throw (InvalidColumnNames errors), t)
      | [] =>
          match fill_defaults cols ordered with
          | Ok values => spec_insert values 0 t
          | Throw e => (Throw e, t)
          | Undef u => (Undef u, t)
          end
      end
  | TUpdate trid columns values _ => spec_update trid columns values t
  | TDelete trid _ => spec_delete trid t
  | TRead trid => (spec_readRow trid t, t)
  end.

(** Nothing is said about a table after undefined behaviour. *)
Fixpoint spec_ops (ops : list TableOp) (t : atable) : list (outcome TableError TableResult) :=
  match ops with
  | [] => []
  | op :: ops' =>
      let '(o, t1) := spec_op op t in
      o :: (match o with Undef _ => [] | _ => spec_ops ops' t1 end)
  end.

(** ** The table *)

Section Run.
Context {C I : Type} `{BC : BlockCache C} {MI : MainIndex I}.
Context (sha256 : list Z -> list Z) (time : nat -> Z) (uninitialized : Z).
Notation state := (table_state C I).

Definition run_op (op : TableOp) : TM (C := C) (I := I) TableResult :=
  match op with
  | TInsert values customTrid tp =>
      r <-- insertRow T sha256 time uninitialized values tp customTrid ;; mret (TInserted (m_tableRowId (fst r)))
  | TInsertNamed names values tp =>
      r <-- insertRow_named T sha256 time uninitialized names values tp 0 ;; mret (TInserted (m_tableRowId (fst r)))
  | TUpdate trid columns values tp =>
      r <-- updateRow_positions T sha256 time uninitialized trid (S <$> columns) values tp ;; mret (TUpdated (match r with Some _ => true | None => false end))
  | TDelete trid tp =>
      r <-- deleteRow T sha256 time uninitialized trid tp true ;; mret (TDeleted (match r with Some _ => true | None => false end))
  | TRead trid => r <-- readRow T uninitialized trid 3 ;; mret (TRow r)
  end.

Fixpoint run_ops (ops : list TableOp) (s : state) : list (outcome TableError TableResult) :=
  match ops with
  | [] => []
  | op :: ops' =>
      let '(o, s1) := run_op op s in
      o :: (match o with Undef _ => [] | _ => run_ops ops' s1 end)
  end.
End Run.
End Spec.
