(* ===== verification/TableRefine.v ===== *)
(** * The table refines its specification

    The representation of an abstract table by the columns, the master column and
    the main index, and the proof that every operation keeps it. *)

From stdpp Require Import base list gmap.
Set Warnings "-clear-no-such-hyp,-notation-incompatible-prefix,-notation-for-abbreviation".
From Stdlib Require Import ZArith Lia.
From S2P Require Import Prelude StateM Bytes VarInt PlainBinary ColumnRecords CNum VariantType Variant ColumnType ExprEval LinearIndex.
From S2P Require Import Column ColumnData ColumnBlocks ColumnSpec MasterColumn Table ColumnLaws MasterSpec TableSpec.

Local Open Scope Z_scope.

Section Refine.
Context {C I : Type} `{BC : BlockCache C} {BL : BlockCacheLaws C} {MI : MainIndex I} {ML : MainIndexLaws I} {X : Externals} (T : table_params).
Context (sha256 : list Z -> list Z) (time : nat -> Z) (uninitialized : Z).
Notation state := (table_state C I).
Notation cols := (t_columns T).
Notation PM := (t_master T).

(** A table of fixed-size columns whose records fit into a block. *)
Record table_ok : Prop := {
  to_columns : Forall (fixed_column sha256 uninitialized) cols;
  to_master : column_ok PM sha256 uninitialized;
  to_small : 106 + 35 * len cols < 16384;
  to_fits : 108 + 35 * len cols <= m_dataBlockDataAreaSize PM;
  to_set : u_ok 64 (t_columnSetId T)
}.
Context (Hok : table_ok).

(** ** Columns *)

Definition cols_rep (css : list (column_state C)) (ls : list layout) (dss : list (list (list Z))) (b : nat -> nat) : Prop :=
  length css = length cols /\ length ls = length cols /\ length dss = length cols /\
  forall i tc cs l ds, cols !! i = Some tc -> css !! i = Some cs -> ls !! i = Some l -> dss !! i = Some ds -> col_rep uninitialized tc cs l ds (b i).

(** What one column can hold is held in all. *)
Definition dss_extends (dss dss' : list (list (list Z))) : Prop :=
  length dss = length dss' /\ forall i ds ds', dss !! i = Some ds -> dss' !! i = Some ds' -> extends ds ds'.

Lemma extends_refl ds : extends ds ds.
Proof. intros k d Hk. exists []. by rewrite app_nil_r. Qed.

Lemma dss_extends_refl dss : dss_extends dss dss.
Proof. split; [done|]. intros i ds ds' H1 H2. rewrite H1 in H2. injection H2 as <-. apply extends_refl. Qed.

Lemma dss_extends_trans d1 d2 d3 : dss_extends d1 d2 -> dss_extends d2 d3 -> dss_extends d1 d3.
Proof.
  intros [L1 H1] [L2 H2]. split; [congruence|]. intros i ds ds' E1 E3. destruct (lookup_lt_is_Some_2 d2 i) as [x Ex]; [rewrite <- L1; by apply lookup_lt_Some in E1|].
  eapply extends_trans; eauto.
Qed.

Lemma dss_extends_insert dss i ds ds' : dss !! i = Some ds -> extends ds ds' -> dss_extends dss (<[i := ds']> dss).
Proof.
  intros Hi He. split; [by rewrite length_insert|]. intros j x y Hx Hy. destruct (decide (j = i)) as [->|Hne].
  - rewrite list_lookup_insert_eq in Hy by (by apply lookup_lt_Some in Hi). by simplify_eq.
  - rewrite list_lookup_insert_ne in Hy by done. rewrite Hx in Hy. injection Hy as <-. apply extends_refl.
Qed.

Lemma cols_at css ls dss b i tc : cols_rep css ls dss b -> cols !! i = Some tc ->
  exists cs l ds, css !! i = Some cs /\ ls !! i = Some l /\ dss !! i = Some ds /\ col_rep uninitialized tc cs l ds (b i) /\ fixed_column sha256 uninitialized tc.
Proof.
  intros (L1 & L2 & L3 & H) Hi. pose proof (lookup_lt_Some _ _ _ Hi) as Hlt.
  destruct (lookup_lt_is_Some_2 css i) as [cs Hcs]; [lia|]. destruct (lookup_lt_is_Some_2 ls i) as [l Hl]; [lia|]. destruct (lookup_lt_is_Some_2 dss i) as [ds Hds]; [lia|].
  exists cs, l, ds. split_and!; try done; [by eapply H|]. eapply Forall_lookup_1; [apply Hok|done].
Qed.

Lemma cols_rep_le css ls dss b b' : (forall i, (b' i <= b i)%nat) -> cols_rep css ls dss b -> cols_rep css ls dss b'.
Proof. intros Hb (L1 & L2 & L3 & H). split_and!; try done. intros. eapply col_rep_le; [apply Hb|]. by eapply H. Qed.

Lemma cols_replace css ls dss b i tc cs l ds n : cols_rep css ls dss b -> cols !! i = Some tc -> col_rep uninitialized tc cs l ds n ->
  cols_rep (<[i := cs]> css) (<[i := l]> ls) (<[i := ds]> dss) (fun j => if decide (j = i) then n else b j).
Proof.
  intros (L1 & L2 & L3 & H) Hi Hrep. split_and!; rewrite ?length_insert; try done. intros j tc' cs' l' ds' Hj H1 H2 H3. pose proof (lookup_lt_Some _ _ _ Hi).
  case_decide as E; [subst j|].
  - rewrite list_lookup_insert_eq in H1 by lia. rewrite list_lookup_insert_eq in H2 by lia. rewrite list_lookup_insert_eq in H3 by lia. by simplify_eq.
  - rewrite list_lookup_insert_ne in H1 by done. rewrite list_lookup_insert_ne in H2 by done. rewrite list_lookup_insert_ne in H3 by done. by eapply H.
Qed.

Definition with_columns (css : list (column_state C)) (s : state) : state :=
  {| ts_columns := css; m_masterColumn := m_masterColumn s; m_lastAtomicOperationId := m_lastAtomicOperationId s |}.

Lemma with_columns_id s : with_columns (ts_columns s) s = s.
Proof. by destruct s. Qed.

Lemma column_run {A} (c : table_column -> SM (column_state C) ColumnError A) i tc cs (s : state) : cols !! i = Some tc -> ts_columns s !! i = Some cs ->
  column T i c s = (match fst (c tc cs) with Ok a => Ok a | Throw e => Throw (ColumnFailed e) | Undef u => Undef u end, with_columns (<[i := snd (c tc cs)]> (ts_columns s)) s).
Proof. intros H1 H2. unfold column. rewrite H1, H2. by destruct (c tc cs). Qed.

(** The layout of a column after a write. *)
Definition put (ls : list layout) (i : nat) (tc : table_column) (l : layout) (a : ColumnDataAddress) : list layout := <[i := layout_written tc l a]> ls.

(** The value of a written address is kept, and the write can be taken back. *)
Lemma cols_write (s : state) ls dss b i tc l value : cols_rep (ts_columns s) ls dss b -> cols !! i = Some tc -> ls !! i = Some l -> (0 < b i)%nat -> value_ok tc value ->
  match spec_write tc l value with
  | Ok (a, w) => exists res css ds ds', mtry (column T i (column_write sha256 time uninitialized value)) s = (Ok (inr res), with_columns css s) /\ m_dataAddress res = a /\
      (isNullValueAddress a = false -> m_blockId (m_nextAddress res) = m_blockId a) /\
      cols_rep css (put ls i tc l a) (<[i := ds']> dss) (fun j => if decide (j = i) then pred (b i) else b j) /\
      dss !! i = Some ds /\ extends ds ds' /\ value_at (tc_params tc) (tc_dataType tc) ds' a w /\
      (forall d, ds !! Z.to_nat (m_blockId a - 1) = Some d -> isNullValueAddress a = false -> len d <= m_offset a)
  | Throw e => mtry (column T i (column_write sha256 time uninitialized value)) s = (Ok (inl (ColumnFailed e)), s)
  | Undef u => fst (mtry (column T i (column_write sha256 time uninitialized value)) s) = Undef u
  end.
Proof.
  intros Hrep Hi Hl Hb Hv. destruct (cols_at _ _ _ _ _ _ Hrep Hi) as (cs & l' & ds & Hcs & Hl' & Hds & Hc & Hfc). rewrite Hl in Hl'. injection Hl' as <-.
  destruct (b i) as [|n] eqn:Eb; [lia|]. pose proof (col_write sha256 time uninitialized tc Hfc cs l ds n value Hc Hv) as Hw. unfold mtry. rewrite (column_run _ i tc cs s Hi Hcs).
  destruct (spec_write tc l value) as [[a w]|e|u].
  - destruct Hw as (res & cs' & ds' & E & Ha & Hn & Hrep' & He & Hval & Hbeh). rewrite E. cbn [fst snd]. exists res, (<[i := cs']> (ts_columns s)), ds, ds'.
    split; [done|]. split; [done|]. split; [done|]. split; [by apply cols_replace with (tc := tc)|]. done.
  - rewrite Hw. cbn [fst snd]. rewrite list_insert_id by done. by rewrite with_columns_id.
  - destruct (column_write _ _ _ value tc cs) as [o cs']. cbn in Hw. by subst o.
Qed.

(** *** Writing all columns *)

Lemma written_lookup columns ls ws j : written columns ls ws !! j =
  match columns !! j, ls !! j, ws !! j with Some tc, Some l, Some w => Some (layout_written tc l (fst w)) | _, o, _ => o end.
Proof.
  revert ls ws j. induction columns as [|tc columns IH]; intros [|l ls] [|w ws] [|j]; try done; cbn.
  - by destruct (columns !! j).
  - by destruct (columns !! j).
  - by destruct (columns !! j), (ls !! j).
  - apply IH.
Qed.

Lemma undone_lookup ls ws j : undone ls ws !! j = match ls !! j, ws !! j with Some l, Some w => Some (layout_undone l (fst w)) | o, _ => o end.
Proof.
  revert ws j. induction ls as [|l ls IH]; intros [|w ws] [|j]; try done; cbn; [by destruct (ls !! j)|apply IH].
Qed.

Lemma written_length columns ls ws : length (written columns ls ws) = length ls.
Proof. revert ls ws. induction columns as [|tc columns IH]; intros [|l ls] [|w ws]; try done. cbn. by rewrite IH. Qed.
Lemma undone_length ls ws : length (undone ls ws) = length ls.
Proof. revert ws. induction ls as [|l ls IH]; intros [|w ws]; try done. cbn. by rewrite IH. Qed.

Lemma spec_writes_length columns ls values : length ls = length columns -> length values = length columns ->
  match snd (spec_writes columns ls values) with Ok _ => length (fst (spec_writes columns ls values)) = length columns | _ => True end.
Proof.
  revert ls values. induction columns as [|tc columns IH]; intros [|l ls] [|v values]; try done. cbn. intros [= H1] [= H2]. specialize (IH ls values H1 H2).
  destruct (spec_write tc l v) as [w|e|u]; [|done|done]. destruct (spec_writes columns ls values) as [ws [[]|e|u]]; cbn in *; [by rewrite IH|done|done].
Qed.

(** A column before and after it was written, what was written and the block
    that its next value goes to. *)
Definition wrote (tc : table_column) (ds ds' : list (list Z)) (w : ColumnDataAddress * Variant) (next : Z) : Prop :=
  extends ds ds' /\ value_at (tc_params tc) (tc_dataType tc) ds' (fst w) (snd w) /\
  (isNullValueAddress (fst w) = false -> next = m_blockId (fst w) /\ forall d, ds !! Z.to_nat (m_blockId (fst w) - 1) = Some d -> len d <= m_offset (fst w)).

Definition records_of (ts : Z) (ws : arow) : list ColumnDataRecord := (fun w => {| m_address := fst w; cdr_createTimestamp := ts; cdr_updateTimestamp := ts |}) <$> ws.
Definition failure (o : outcome TableError unit) : option TableError := match o with Throw e => Some e | _ => None end.

Lemma value_place tc ds a w : fixed_column sha256 uninitialized tc -> value_at (tc_params tc) (tc_dataType tc) ds a w -> isNullValueAddress a = false ->
  1 <= m_blockId a /\ 0 <= m_offset a /\ m_offset a + required_length (tc_dataType tc) <= m_dataBlockDataAreaSize (tc_params tc).
Proof. intros Hfc [[-> _]|(bytes & (H1 & H2 & _) & _ & H3)] Hn; [done|]. lia. Qed.

Section Writes.
Context (n : nat) (ls0 : list layout) (dss0 : list (list (list Z))) (Hls : length ls0 = length cols).

(** After the first columns were written. *)
Definition loop_inv (ws : arow) (nbs : list Z) (css : list (column_state C)) (dss : list (list (list Z))) : Prop :=
  cols_rep css (written cols ls0 ws) dss (fun j => if decide (j < length ws)%nat then n else S n) /\ length nbs = length ws /\ (length ws <= length cols)%nat /\
  length dss0 = length dss /\
  forall j tc ds ds', cols !! j = Some tc -> dss0 !! j = Some ds -> dss !! j = Some ds' ->
    match ws !! j with Some w => exists b, nbs !! j = Some b /\ wrote tc ds ds' w b | None => ds' = ds end.

Lemma loop_extends ws nbs css dss : loop_inv ws nbs css dss -> dss_extends dss0 dss.
Proof.
  intros ((L1 & L2 & L3 & _) & _ & _ & Hlen & H). split; [done|]. intros j ds ds' H1 H2. destruct (lookup_lt_is_Some_2 cols j) as [tc Htc]; [apply lookup_lt_Some in H2; lia|].
  specialize (H j tc ds ds' Htc H1 H2). destruct (ws !! j) as [w|]; [by destruct H as (b & _ & ? & _)|]. subst. apply extends_refl.
Qed.

Lemma write_step ws w nbs b css dss tc l ds ds' cs' : loop_inv ws nbs css dss -> cols !! length ws = Some tc -> ls0 !! length ws = Some l -> dss !! length ws = Some ds ->
  cols_rep cs' (put (written cols ls0 ws) (length ws) tc l (fst w)) (<[length ws := ds']> dss)
    (fun j => if decide (j = length ws) then n else if decide (j < length ws)%nat then n else S n) ->
  wrote tc ds ds' w b -> loop_inv (ws ++ [w]) (nbs ++ [b]) cs' (<[length ws := ds']> dss).
Proof.
  intros (Hrep & Hnb & Hlt & Hlen & H) Htc Hl Hds Hrep' Hw. pose proof (lookup_lt_Some _ _ _ Htc) as Hi. split.
  { replace (written cols ls0 (ws ++ [w])) with (put (written cols ls0 ws) (length ws) tc l (fst w)).
    - eapply cols_rep_le; [|exact Hrep']. intros j. cbv beta. rewrite length_app. cbn [length]. repeat case_decide; lia.
    - apply list_eq. intros j. unfold put. destruct (decide (j = length ws)) as [->|Hne].
      + rewrite list_lookup_insert_eq by (rewrite written_length; lia). rewrite written_lookup, Htc, Hl, lookup_app_r, Nat.sub_diag by lia. done.
      + rewrite list_lookup_insert_ne by done. rewrite !written_lookup. destruct (decide (j < length ws)%nat).
        * by rewrite lookup_app_l by done.
        * by rewrite lookup_app_r, (lookup_ge_None_2 ws j), (lookup_ge_None_2 [w]) by (cbn; lia). }
  rewrite !length_app, length_insert. cbn [length]. split; [lia|]. split; [lia|]. split; [done|]. intros j tc' x x' Hj H1 H2. destruct (decide (j = length ws)) as [->|Hne].
  - rewrite list_lookup_insert_eq in H2 by (by apply lookup_lt_Some in Hds). injection H2 as <-. rewrite Htc in Hj. injection Hj as <-.
    specialize (H _ _ _ _ Htc H1 Hds). rewrite lookup_ge_None_2 in H by lia. subst. rewrite lookup_app_r, Nat.sub_diag by lia. exists b. split; [|done].
    by rewrite lookup_app_r, Hnb, Nat.sub_diag by lia.
  - rewrite list_lookup_insert_ne in H2 by done. specialize (H _ _ _ _ Hj H1 H2). destruct (decide (j < length ws)%nat).
    + rewrite lookup_app_l by done. destruct (ws !! j); [|done]. destruct H as (b' & Hb' & Hw'). exists b'. split; [by apply lookup_app_l_Some|done].
    + by rewrite lookup_app_r, (lookup_ge_None_2 [w]), (lookup_ge_None_2 ws) in * by (cbn; lia).
Qed.

Definition values_ok (values : list Variant) : Prop := length values = length cols /\ forall i tc v, cols !! i = Some tc -> values !! i = Some v -> value_ok tc v.

Lemma write_columns_ok values ts : values_ok values -> forall k (s : state) ws nbs dss, (length ws + k = length cols)%nat -> loop_inv ws nbs (ts_columns s) dss ->
  let '(ws', o) := spec_writes (drop (length ws) cols) (drop (length ws) ls0) (drop (length ws) values) in
  let c := write_columns T sha256 time uninitialized k (length ws) values ts (records_of ts ws) nbs s in
  match o with
  | Undef u => fst c = Undef u
  | _ => exists css dss' nbs', c = (Ok (records_of ts (ws ++ ws'), nbs', failure o), with_columns css s) /\ loop_inv (ws ++ ws') nbs' css dss'
  end.
Proof.
  intros [Hvl Hvok]. induction k as [|k IH]; intros s ws nbs dss Hk Hinv.
  - rewrite drop_ge by lia. cbn. exists (ts_columns s), dss, nbs. rewrite app_nil_r, with_columns_id. done.
  - destruct (lookup_lt_is_Some_2 cols (length ws)) as [tc Htc]; [lia|]. destruct (lookup_lt_is_Some_2 ls0 (length ws)) as [l Hl]; [lia|].
    destruct (lookup_lt_is_Some_2 values (length ws)) as [v Hv]; [lia|]. rewrite (drop_S cols tc _ Htc), (drop_S ls0 l _ Hl), (drop_S values v _ Hv).
    cbn [spec_writes write_columns]. rewrite Hv. pose proof Hinv as (Hrep & Hnb & Hlt & Hlen & Hall).
    assert (Hl' : written cols ls0 ws !! length ws = Some l) by (rewrite written_lookup, Htc, Hl, lookup_ge_None_2 by lia; done).
    pose proof (cols_write s _ _ _ _ tc l v Hrep Htc Hl') as Hw. cbv beta in Hw. rewrite decide_False in Hw by lia. specialize (Hw ltac:(lia) (Hvok _ _ _ Htc Hv)).
    destruct (spec_write tc l v) as [[a w]|e|u].
    + destruct Hw as (res & css & ds & ds' & E & Ha & Hn & Hrep' & Hds & He & Hval & Hbeh). cbn [pred] in Hrep'.
      assert (Hstep : loop_inv (ws ++ [(a, w)]) (nbs ++ [m_blockId (m_nextAddress res)]) css (<[length ws := ds']> dss)).
      { eapply (write_step ws (a, w)); try done. split; [done|]. split; [done|]. cbn [fst]. intros Hnn. split; [by apply Hn|]. intros d Hd. by apply Hbeh. }
      specialize (IH (with_columns css s) (ws ++ [(a, w)]) _ _ ltac:(rewrite length_app; cbn; lia) Hstep). rewrite length_app, Nat.add_comm in IH. cbn [length Nat.add] in IH.
      destruct (spec_writes _ _ _) as [ws' o]. cbv zeta in *. rewrite (mbind_ok _ _ _ _ _ E). cbv iota. rewrite Ha.
      change (records_of ts ws ++ [{| m_address := a; cdr_createTimestamp := ts; cdr_updateTimestamp := ts |}]) with (records_of ts ws ++ records_of ts [(a, w)]).
      unfold records_of in IH |- *. rewrite fmap_app in IH. rewrite <- app_assoc in IH. cbn [app] in IH. destruct o; done.
    + exists (ts_columns s), dss, nbs. rewrite app_nil_r, with_columns_id. cbv zeta. by rewrite (mbind_ok _ _ _ _ _ Hw).
    + cbv zeta. unfold mbind. destruct (mtry _ s) as [x s']. cbn in Hw. by subst x.
Qed.

(** *** Rolling the written columns back *)

Definition half_undone (j : nat) (ws : arow) (ls : list layout) : Prop :=
  length ls = length cols /\ forall i, ls !! i = if decide (i < j)%nat then undone ls0 ws !! i else written cols ls0 ws !! i.

Lemma half_undone_step j ws ls w l : half_undone j ws ls -> ws !! j = Some w -> ls0 !! j = Some l ->
  half_undone (S j) ws (<[j := layout_undone l (fst w)]> ls).
Proof.
  intros [Hlen H] Hw Hl. split; [by rewrite length_insert|]. pose proof (lookup_lt_Some _ _ _ Hl). intros i. destruct (decide (i = j)) as [->|Hne].
  - rewrite list_lookup_insert_eq, decide_True by lia. by rewrite undone_lookup, Hl, Hw.
  - rewrite list_lookup_insert_ne, H by done. repeat case_decide; done || lia.
Qed.

Lemma rollback_records_ok ts ws nbs : forall k j (s : state) ls dss, (j + k = length ws)%nat -> length nbs = length ws -> (length ws <= length cols)%nat -> half_undone j ws ls ->
  cols_rep (ts_columns s) ls dss (fun _ => n) -> dss_extends dss0 dss ->
  (forall i tc ds ds' w, (j <= i)%nat -> cols !! i = Some tc -> dss0 !! i = Some ds -> dss !! i = Some ds' -> ws !! i = Some w -> exists b, nbs !! i = Some b /\ wrote tc ds ds' w b) ->
  exists css dss', rollback_records T uninitialized j (drop j (records_of ts ws)) (drop j nbs) s = (Ok tt, with_columns css s) /\
    cols_rep css (undone ls0 ws) dss' (fun _ => n) /\ dss_extends dss0 dss'.
Proof.
  induction k as [|k IH]; intros j s ls dss Hk Hnb Hwc [Hll Hhalf] Hrep Hext Hw.
  - rewrite drop_ge by (unfold records_of; rewrite length_fmap; lia). exists (ts_columns s), dss. rewrite with_columns_id. split; [done|]. split; [|done].
    replace (undone ls0 ws) with ls; [done|]. apply list_eq. intros i. rewrite Hhalf. case_decide; [done|]. rewrite undone_lookup, written_lookup, (lookup_ge_None_2 ws) by lia.
    by destruct (cols !! i), (ls0 !! i).
  - destruct (lookup_lt_is_Some_2 ws j) as [w Hwj]; [lia|]. destruct (lookup_lt_is_Some_2 nbs j) as [b Hb]; [lia|]. pose proof Hrep as (L1 & L2 & L3 & _).
    destruct Hext as [Hlen Hext]. assert (Hr : records_of ts ws !! j = Some {| m_address := fst w; cdr_createTimestamp := ts; cdr_updateTimestamp := ts |}) by (unfold records_of; by rewrite list_lookup_fmap, Hwj).
    rewrite (drop_S _ _ _ Hr), (drop_S _ _ _ Hb). cbn [rollback_records m_address].
    destruct (lookup_lt_is_Some_2 cols j) as [tc Htc]; [lia|]. destruct (cols_at _ _ _ _ _ _ Hrep Htc) as (cs & l & ds' & Hcs & Hl & Hds' & Hc & Hfc).
    destruct (lookup_lt_is_Some_2 dss0 j) as [ds Hds]; [lia|]. destruct (Hw j tc ds ds' w ltac:(lia) Htc Hds Hds' Hwj) as (b' & Hb' & He & Hval & Hnn). rewrite Hb in Hb'. injection Hb' as <-.
    destruct (lookup_lt_is_Some_2 ls0 j) as [l0 Hl0]; [lia|]. assert (Hlw : l = layout_written tc l0 (fst w)).
    { specialize (Hhalf j). rewrite decide_False, written_lookup, Htc, Hl0, Hwj in Hhalf by lia. congruence. }
    pose proof (half_undone_step j ws ls w l0 (conj Hll Hhalf) Hwj Hl0) as Hstep. destruct (isNullValueAddress (fst w)) eqn:Hnull.
    + rewrite list_insert_id in Hstep by (rewrite Hl, Hlw; unfold layout_written, layout_undone; by rewrite Hnull). rewrite mbind_ret.
      apply (IH (S j) s ls dss); try done; [lia|]. intros i tc' x x' w' Hi. apply Hw. lia.
    + destruct (Hnn eq_refl) as [-> Hbehind]. destruct (value_place tc ds' _ _ Hfc Hval Hnull) as (H1 & H2 & H3).
      destruct (col_rollback sha256 uninitialized tc Hfc cs l ds' ds n (fst w) Hc) as (cs'' & ds'' & E & Hc'' & He''); try done; [rewrite Hlw; unfold layout_written; by rewrite Hnull|].
      set (s' := with_columns (<[j := cs'']> (ts_columns s)) s).
      assert (Er : (mtry (column T j (column_rollback uninitialized (fst w) (m_blockId (fst w)))) ;;' mret tt) s = (Ok tt, s')).
      { unfold mbind, mtry. rewrite (column_run _ j tc cs s Htc Hcs), E. done. }
      run_step Er. destruct (IH (S j) s' (<[j := layout_undone l0 (fst w)]> ls) (<[j := ds'']> dss)) as (css & dss' & E' & Hrep' & Hext'); try done; [lia|..].
      * unfold layout_undone. rewrite Hnull. eapply cols_rep_le; [|eapply (cols_replace _ _ _ _ j tc cs'' _ ds'' n Hrep Htc Hc'')]. intros i. cbv beta. case_decide; lia.
      * split; [by rewrite length_insert|]. intros i x x' Hx Hx'. destruct (decide (i = j)) as [->|Hne].
        -- rewrite list_lookup_insert_eq in Hx' by lia. by simplify_eq.
        -- rewrite list_lookup_insert_ne in Hx' by done. by eapply Hext.
      * intros i tc' x x' w' Hi Htc' Hx Hx' Hw'. rewrite list_lookup_insert_ne in Hx' by lia. eapply Hw; try done. lia.
      * by exists css, dss'.
Qed.
End Writes.

(** ** Rows *)

Lemma size64_bound v : getVarIntSize false W64 v <= 10.
Proof. rewrite getVarIntSize_len. apply (encodeVarInt_len false W64). Qed.
Lemma size32_bound v : getVarIntSize false W32 v <= 5.
Proof. rewrite getVarIntSize_len. apply (encodeVarInt_len false W32). Qed.

Lemma address_size_bound a : address_size a <= 15.
Proof. unfold address_size. pose proof (size64_bound (m_blockId a)). pose proof (size32_bound (m_offset a)). lia. Qed.

Lemma records_size_bound l : sizes (map cdr_size l) <= 35 * len l.
Proof.
  induction l as [|r l IH]; [done|]. rewrite len_cons. cbn [map sizes fold_right]. fold (sizes (map cdr_size l)). unfold cdr_size at 1. pose proof (address_size_bound (m_address r)).
  pose proof (size64_bound (cdr_createTimestamp r)). pose proof (size64_bound (cdr_updateTimestamp r)). lia.
Qed.

Lemma mcr_size_bound r : mcr_size r <= 106 + 35 * len (m_columnRecords r).
Proof.
  unfold mcr_size. pose proof (records_size_bound (m_columnRecords r)). pose proof (address_size_bound (m_previousVersionAddress r)).
  pose proof (size64_bound (m_tableRowId r)). pose proof (size64_bound (m_transactionId r)). pose proof (size64_bound (m_createTimestamp r)).
  pose proof (size64_bound (m_updateTimestamp r)). pose proof (size64_bound (mcr_version r)). pose proof (size64_bound (m_operationId r)).
  pose proof (size32_bound (m_userId r)). pose proof (size64_bound (m_columnSetId r)). pose proof (size64_bound (m_privateDataExpirationTimestamp r)).
  pose proof (size32_bound (uw 32 (len (m_columnRecords r)))). lia.
Qed.

(** A record and the row that it describes. *)
Definition row_ok (dss : list (list (list Z))) (mcr : MasterColumnRecord) (row : arow) : Prop :=
  m_address <$> m_columnRecords mcr = row.*1 /\ length row = length cols /\
  forall i tc p ds, cols !! i = Some tc -> row !! i = Some p -> dss !! i = Some ds -> value_at (tc_params tc) (tc_dataType tc) ds (fst p) (snd p).

Definition rows_ok (rows : gmap Z arow) (dss : list (list (list Z))) (dm : list (list Z)) (idx : gmap Z (list Z)) : Prop :=
  forall k row, rows !! k = Some row -> exists a mcr, idx !! k = Some (place_value a) /\ mcr_at dm a mcr /\ m_tableRowId mcr = k /\ k <> 0 /\ row_ok dss mcr row.

Record table_rep (s : state) (t : atable) (dss : list (list (list Z))) (dm : list (list Z)) (idx : gmap Z (list Z)) (n : nat) : Prop := {
  tr_columns : cols_rep (ts_columns s) (at_layouts t) dss (fun _ => n);
  tr_master : master_rep PM uninitialized (m_masterColumn s) dm idx n;
  tr_last : m_lastUserTrid (m_tridCounters (m_masterColumn s)) = at_lastTrid t;
  tr_trid : 0 <= at_lastTrid t < 2 ^ 64;
  tr_none : forall k, at_rows t !! k = None -> idx !! k = None;
  tr_rows : rows_ok (at_rows t) dss dm idx
}.
Definition rep (s : state) (t : atable) (n : nat) : Prop := exists dss dm idx, table_rep s t dss dm idx n.

Lemma row_extends dss dss' mcr row : dss_extends dss dss' -> row_ok dss mcr row -> row_ok dss' mcr row.
Proof.
  intros [Hlen He] (H1 & H2 & H3). split; [done|]. split; [done|]. intros i tc p ds Hi Hp Hds. destruct (lookup_lt_is_Some_2 dss i) as [ds0 Hds0]; [rewrite Hlen; by apply lookup_lt_Some in Hds|].
  destruct (H3 i tc p ds0 Hi Hp Hds0) as [?|(b & Hst & ?)]; [by left|]. right. exists b. split; [|done]. eapply stored_extends; [|done]. by eapply He.
Qed.

(** The rows that are there survive changes of the columns and of the master column. *)
Lemma rows_survive rows dss dm idx dss' dm' : dss_extends dss dss' -> extends dm dm' -> rows_ok rows dss dm idx -> rows_ok rows dss' dm' idx.
Proof.
  intros He Hm H k row Hk. destruct (H k row Hk) as (a & mcr & H1 & H2 & H3 & H4 & H5). exists a, mcr. split; [done|]. split; [by eapply mcr_at_extends|].
  split; [done|]. split; [done|]. by eapply row_extends.
Qed.

Lemma stored_address P s m ds id off bytes : column_ok P sha256 uninitialized -> blocks_inv (C := C) P uninitialized s m ds -> stored ds id off bytes -> len ds < 2 ^ 57 -> 0 < len bytes ->
  u_ok 64 id /\ u_ok 32 off.
Proof.
  intros Hco Hi Hst Hsm Hl. destruct (stored_bounds P uninitialized s m ds id off bytes Hi Hst) as [H1 H2]. pose proof (proj1 (proj2 Hst)). pose proof (co_file _ _ _ Hco). unfold u_ok. lia.
Qed.

Lemma value_address_ok tc cs l ds n a w : col_rep uninitialized tc cs l ds n -> fixed_column sha256 uninitialized tc -> value_at (tc_params tc) (tc_dataType tc) ds a w -> address_ok a.
Proof.
  intros ([Hi _] & _ & _ & _ & Hsm) Hfc [[-> _]|(bytes & Hst & _ & Hr)]; [split; vm_compute; split; discriminate || reflexivity|].
  destruct (stored_bounds _ _ _ _ _ _ _ _ Hi Hst) as [H1 H2]. pose proof (proj1 (proj2 Hst)). pose proof (co_file _ _ _ (fc_ok _ _ _ Hfc)). pose proof (required_pos _ (fc_type _ _ _ Hfc)).
  split; unfold u_ok; lia.
Qed.

Lemma place_value_decode {E} a : address_ok a -> address_pbeDeserialize (E := E) (place_value a) 12 = Ok (Some a).
Proof.
  intros [Hb Ho]. unfold address_pbeDeserialize, place_value, index_value. cbn [Z.ltb Z.compare Pos.compare Pos.compare_cont].
  rewrite (proj2 (proj2 (@pbe_roundtrip_u E (m_blockId a) (pbeEncodeUInt32 (m_offset a))))) by done. cbn [bind].
  assert (Hs : skipn 8 (pbeEncodeUInt64 (m_blockId a) ++ pbeEncodeUInt32 (m_offset a)) = pbeEncodeUInt32 (m_offset a)) by reflexivity. rewrite Hs.
  rewrite (proj1 (proj2 (@pbe_decode E (m_offset a)))) by done. by destruct a.
Qed.

Definition with_master (m : master_state C I) (s : state) : state :=
  {| ts_columns := ts_columns s; m_masterColumn := m; m_lastAtomicOperationId := m_lastAtomicOperationId s |}.

Lemma master_run {A} (c : SM (master_state C I) TableError A) (s : state) o m' : c (m_masterColumn s) = (o, m') -> master c s = (o, with_master m' s).
Proof. intros H. unfold master, embed. rewrite H. by destruct o. Qed.

Lemma mcr_bytes_pos mcr : mcr_small mcr -> 0 < len (mcr_bytes mcr).
Proof. intros H. destruct (mcr_bytes_len mcr H) as (_ & H1 & H2 & _). revert H1 H2. generalize (mcr_size mcr), (len (mcr_bytes mcr)). lia. Qed.

(** The record of a row is found. *)
Lemma find_mcr_ok (s : state) t dss dm idx n k : table_rep s t dss dm idx n -> ix_key k ->
  match at_rows t !! k with
  | None => exists m', find_mcr T uninitialized k s = (Ok None, with_master m' s) /\ table_rep (with_master m' s) t dss dm idx n
  | Some row => exists m' a mcr, find_mcr T uninitialized k s = (Ok (Some (mcr, a)), with_master m' s) /\ table_rep (with_master m' s) t dss dm idx n /\
      address_ok a /\ mcr_small mcr /\ m_tableRowId mcr = k /\ k <> 0 /\ row_ok dss mcr row
  end.
Proof.
  intros [H1 H2 H3 H4 H5 H6] Hk. pose proof H2 as (Hs & Hix & Hf & Hsm). destruct (ix_find_law _ _ _ Hix Hk) as (i' & Ei & Hi').
  set (m1 := {| mc_column := mc_column (m_masterColumn s); m_mainIndex := i'; m_tridCounters := m_tridCounters (m_masterColumn s) |}).
  assert (E1 : main_index (C := C) (ix_find (pbeEncodeUInt64 k) 1) (m_masterColumn s) = (Ok (idx !! k), m1)) by (unfold main_index, embed; by rewrite Ei).
  unfold find_mcr. run_step (master_run _ s _ _ E1). destruct (at_rows t !! k) as [row|] eqn:Hrow.
  - destruct (H6 k row Hrow) as (a & mcr & Hidx & Hat & Hid & Hne & Hr). rewrite Hidx. pose proof Hat as [Hst Hsmall].
    assert (Ha : address_ok a) by (split; eapply (stored_address PM _ _ dm _ _ _ (to_master Hok) (proj1 Hs) Hst ltac:(lia) (mcr_bytes_pos mcr Hsmall))).
    unfold mbind at 1, mlift. rewrite (place_value_decode a Ha). cbn [default from_option id].
    destruct (read_mcr_ok PM sha256 uninitialized (to_master Hok) (mc_column m1) dm a mcr no_mcr Hs Hat) as (c' & E2 & Hs' & Hf').
    set (m2 := {| mc_column := c'; m_mainIndex := i'; m_tridCounters := m_tridCounters (m_masterColumn s) |}).
    run_step (master_run _ (with_master m1 s) _ m2 (master_column_ok _ m1 _ _ E2)). exists m2, a, mcr. split; [done|]. split; [|done].
    split; try done. split; [done|]. split; [done|]. split; [cbn in Hf' |- *; lia|done].
  - rewrite (H5 k Hrow). exists m1. split; [done|]. by split.
Qed.
End Refine.
