(* ===== verification/TableUpdate.v ===== *)
(** * Updates follow the abstract table

    The loop over the updated columns and its rollback. *)

From stdpp Require Import base list gmap.
Set Warnings "-clear-no-such-hyp,-notation-incompatible-prefix,-notation-for-abbreviation".
From Stdlib Require Import ZArith Lia.
From S2P Require Import Prelude VarInt PlainBinary CNum VariantType Variant ColumnType ExprEval StateM Bytes ColumnRecords LinearIndex Column ColumnData ColumnBlocks ColumnSpec MasterColumn Table ColumnLaws MasterSpec TableSpec TableRefine.

(** ** Every operation of the table follows the abstract table

    Insert, delete, update and read keep the representation; the theorem on
    sequences of operations. *)

Local Open Scope Z_scope.

Section Ops.
Context {C I : Type} `{BC : BlockCache C} {BL : BlockCacheLaws C} {MI : MainIndex I} {ML : MainIndexLaws I} {X : Externals} (T : table_params).
Context (sha256 : list Z -> list Z) (time : nat -> Z) (uninitialized : Z).
Notation state := (table_state C I).
Notation cols := (t_columns T).
Notation PM := (t_master T).
Notation table_rep := (table_rep T uninitialized).
Notation rep := (rep T uninitialized).
Context (Hok : table_ok T sha256 uninitialized).

(** The result and the state after an operation, as the abstract table says. *)
Definition follows {A} (f : A -> TableResult) (c : outcome TableError A * state) (spec : outcome TableError TableResult * atable) (n : nat) : Prop :=
  match fst spec with
  | Ok r => exists a s', c = (Ok a, s') /\ f a = r /\ rep s' (snd spec) n
  | Throw e => exists s', c = (Throw e, s') /\ rep s' (snd spec) n
  | Undef u => fst c = Undef u
  end.

(** The columns and the master column after an operation have what they had, and
    the main index has changed for the numbers of [changed] only. *)
Definition keeps (changed : Z -> Prop) (dss : list (list (list Z))) (dm : list (list Z)) (idx : gmap Z (list Z)) (s' : state) (t' : atable) (n : nat) : Prop :=
  exists dss' dm' idx', table_rep s' t' dss' dm' idx' n /\ dss_extends dss dss' /\ extends dm dm' /\ forall k, ~ changed k -> idx' !! k = idx !! k.

Definition follows_keeping {A} (trid : Z) dss dm idx (f : A -> TableResult) (c : outcome TableError A * state) (spec : outcome TableError TableResult * atable) (n : nat) : Prop :=
  match fst spec with
  | Ok r => exists a s', c = (Ok a, s') /\ f a = r /\ keeps (eq trid) dss dm idx s' (snd spec) n
  | Throw e => exists s', c = (Throw e, s') /\ keeps (fun _ => False) dss dm idx s' (snd spec) n
  | Undef u => fst c = Undef u
  end.

Lemma keeping_follows {A} trid dss dm idx (f : A -> TableResult) c spec n : follows_keeping trid dss dm idx f c spec n -> follows f c spec n.
Proof.
  assert (Hk : forall changed s' t', keeps changed dss dm idx s' t' n -> rep s' t' n) by (intros changed s' t' (dss' & dm' & idx' & H & _); by exists dss', dm', idx').
  unfold follows_keeping, follows. destruct (fst spec) as [r|e|u]; [intros (a & s' & H1 & H2 & H3%Hk)|intros (s' & H1 & H2%Hk)|done]; eauto.
Qed.

Lemma keeps_refl changed dss dm idx s' t' n n' : (n' <= n)%nat -> table_rep s' t' dss dm idx n -> keeps changed dss dm idx s' t' n'.
Proof.
  intros Hn [H1 H2 H3 H4 H5 H6]. exists dss, dm, idx. split; [split; try done; [by apply (cols_rep_le _ _ _ _ _ (fun _ => n))|by eapply master_rep_le]|].
  split; [apply dss_extends_refl|]. split; [apply extends_refl|done].
Qed.

Lemma rep_le (s : state) t n n' : (n' <= n)%nat -> rep s t n -> rep s t n'.
Proof.
  intros Hn (dss & dm & idx & [H1 H2 H3 H4 H5 H6]). exists dss, dm, idx. split; try done; [by apply (cols_rep_le _ _ _ _ _ (fun _ => n))|by eapply master_rep_le].
Qed.

Lemma new_mcr_small trid tp create version operationId op prev records : u_ok 64 trid -> tp_ok tp -> u_ok 64 create -> u_ok 64 version -> u_ok 64 operationId ->
  address_ok prev -> Forall cdr_ok records -> len records <= len cols ->
  mcr_small (new_mcr T trid tp create version operationId op prev records) /\
  len (mcr_bytes (new_mcr T trid tp create version operationId op prev records)) <= m_dataBlockDataAreaSize PM.
Proof.
  intros H1 (H2 & H3 & H4) H5 H6 H7 H8 H9 H10. set (mcr := new_mcr T trid tp create version operationId op prev records).
  pose proof (mcr_size_bound mcr) as Hb. change (len (m_columnRecords mcr)) with (len records) in Hb. pose proof (to_small T sha256 uninitialized Hok) as Hs1. pose proof (to_fits T sha256 uninitialized Hok) as Hs2.
  assert (Hsmall : mcr_small mcr).
  { split; [|revert Hb; generalize (mcr_size mcr); clear -H10 Hs1; lia]. unfold mcr_ok, mcr. cbn [new_mcr m_tableRowId m_transactionId m_createTimestamp m_updateTimestamp mcr_version m_operationId m_operationType
      m_userId m_columnSetId m_privateDataExpirationTimestamp m_columnRecords m_previousVersionAddress]. pose proof (len_nonneg records).
    split_and!; try done; [by destruct op|apply Hok|unfold u_ok; lia]. }
  split; [done|]. destruct (mcr_bytes_len mcr Hsmall) as (_ & _ & _ & Hle). revert Hb Hle. generalize (mcr_size mcr), (len (mcr_bytes mcr)). clear -Hs2 H10. lia.
Qed.

(** ** Insert *)

Lemma records_ok ts ws css ls dss b nbs n ls0 dss0 : loop_inv T uninitialized n ls0 dss0 ws nbs css dss -> cols_rep T uninitialized css ls dss b -> length dss0 = length cols -> u_ok 64 ts ->
  Forall cdr_ok (records_of ts ws).
Proof.
  intros (_ & _ & Hwl & Hlen & Hall) Hrep Hl0 Hts. unfold records_of. apply Forall_fmap, Forall_lookup. intros i w Hw. cbn.
  destruct (lookup_lt_is_Some_2 cols i) as [tc Htc]; [apply lookup_lt_Some in Hw; lia|]. destruct (cols_at T sha256 uninitialized Hok _ _ _ _ _ _ Hrep Htc) as (cs & l & ds' & _ & _ & Hds' & Hc & Hfc).
  destruct (lookup_lt_is_Some_2 dss0 i) as [ds Hds]; [apply lookup_lt_Some in Hds'; lia|]. specialize (Hall i tc ds ds' Htc Hds Hds'). rewrite Hw in Hall. destruct Hall as (b' & _ & _ & Hval & _).
  split; [by eapply value_address_ok|done].
Qed.

(** The columns before anything is written. *)
Lemma loop_start (s : state) t dss n : cols_rep T uninitialized (ts_columns s) (at_layouts t) dss (fun _ => S n) ->
  loop_inv T uninitialized n (at_layouts t) dss [] [] (ts_columns s) dss.
Proof.
  intros Hrep. split; [|split; [done|split; [cbn; lia|split; [done|]]]].
  - assert (E : written cols (at_layouts t) [] = at_layouts t) by (by destruct cols, (at_layouts t)). rewrite E. eapply cols_rep_le; [|exact Hrep]. intros i. cbv beta. case_decide; cbn in *; lia.
  - intros j tc ds ds' _ H1 H2. cbn. congruence.
Qed.

(** The rollback of an insert. *)
Lemma undo_ok (s : state) ls0 dss0 ts ws nbs dss n : length ls0 = length cols -> loop_inv T uninitialized n ls0 dss0 ws nbs (ts_columns s) dss ->
  exists css dss', rollbackLastRow T uninitialized (records_of ts ws) nbs s = (Ok tt, with_columns css s) /\ cols_rep T uninitialized css (undone ls0 ws) dss' (fun _ => n) /\ dss_extends dss0 dss'.
Proof.
  intros Hls Hinv. assert (Hext : dss_extends dss0 dss) by (by eapply loop_extends). pose proof Hinv as (Hrep & Hnb & Hwl & Hlen & Hall). unfold rollbackLastRow, columnCount.
  assert (Hr : len (records_of ts ws) = len ws) by (unfold len, records_of; by rewrite length_fmap). rewrite Hr. assert (Hn : len nbs = len ws) by (unfold len; lia). rewrite Hn, Z.eqb_refl. cbn [negb].
  rewrite Z.geb_leb, (proj2 (Z.leb_gt _ _)) by (unfold len; lia).
  apply (rollback_records_ok T sha256 uninitialized Hok n ls0 dss0 Hls ts ws nbs (length ws) 0 s (written cols ls0 ws) dss); try done.
  - split; [by rewrite written_length|]. intros i. by rewrite decide_False by lia.
  - eapply cols_rep_le; [|exact Hrep]. intros i. cbv beta. case_decide; lia.
  - intros i tc ds ds' w _ Htc Hds Hds' Hw. specialize (Hall i tc ds ds' Htc Hds Hds'). by rewrite Hw in Hall.
Qed.

Lemma insert_values_ok (s : state) t dss dm idx n trid operationId values tp : table_rep s t dss dm idx (S n) -> ix_key trid -> u_ok 64 trid -> trid <> 0 -> u_ok 64 operationId ->
  values_ok T values -> tp_ok tp ->
  follows (fun r => TInserted (m_tableRowId (fst r))) (insert_values T sha256 time uninitialized trid operationId values tp s) (spec_insert_at T values trid t) n.
Proof.
  intros [H1 H2 H3 H4 H5 H6] Hkey Htrid Hne Hop Hv Htp. pose proof H1 as (L1 & L2 & L3 & _). pose proof Hv as [Hvl _].
  pose proof (write_columns_ok T sha256 time uninitialized Hok n (at_layouts t) dss L2 values (tp_timestamp tp) Hv (length cols) s [] [] dss eq_refl (loop_start s t dss n H1)) as Hw.
  cbn [length] in Hw. rewrite !drop_0 in Hw. pose proof (spec_writes_length cols (at_layouts t) values L2 Hvl) as Hsl. unfold follows, spec_insert_at, insert_values.
  destruct (spec_writes cols (at_layouts t) values) as [ws o]. cbn [fst snd] in Hsl. cbv zeta in Hw.
  assert (Hundo : forall css (dss1 : list (list (list Z))) nbs m' dm', loop_inv T uninitialized n (at_layouts t) dss ws nbs css dss1 -> master_rep PM uninitialized m' dm' idx n -> extends dm dm' ->
    m_tridCounters m' = m_tridCounters (m_masterColumn s) ->
    exists s', rollbackLastRow T uninitialized (records_of (tp_timestamp tp) ws) nbs (with_master m' (with_columns css s)) = (Ok tt, s') /\
      rep s' {| at_layouts := undone (at_layouts t) ws; at_rows := at_rows t; at_lastTrid := at_lastTrid t |} n).
  { intros css dss1 nbs m' dm' Hinv Hm He Hc. destruct (undo_ok (with_master m' (with_columns css s)) (at_layouts t) dss (tp_timestamp tp) ws nbs dss1 n L2 Hinv) as (css' & dss' & E & Hrep & Hext).
    eexists. split; [exact E|]. exists dss', dm', idx. split; try done; [by rewrite <- H3, <- Hc|]. by eapply rows_survive. }
  destruct o as [[]|e|u].
  - destruct Hw as (css & dss1 & nbs & Ew & Hinv). run_step Ew. cbv beta iota zeta. cbn [app failure] in *. assert (Hext : dss_extends dss dss1) by (by eapply loop_extends).
    pose proof Hinv as (Hrep1 & _ & _ & Hlen1 & Hall1). set (mcr := new_mcr T trid tp (tp_timestamp tp) 0 operationId kInsert kNullValueAddress (records_of (tp_timestamp tp) ws)).
    assert (Hrl : len (records_of (tp_timestamp tp) ws) = len ws) by (unfold len, records_of; by rewrite length_fmap).
    destruct (new_mcr_small trid tp (tp_timestamp tp) 0 operationId kInsert kNullValueAddress (records_of (tp_timestamp tp) ws)) as [Hsmall Hfit]; try done;
      [apply Htp|exact (records_ok _ ws css _ dss1 _ nbs n _ dss Hinv Hrep1 L3 (proj1 (proj2 Htp)))|rewrite Hrl; unfold len; lia|]. fold mcr in Hsmall, Hfit.
    pose proof (write_mcr PM sha256 time uninitialized (to_master T sha256 uninitialized Hok) (m_masterColumn s) dm idx n mcr H2 Hsmall Hfit Hkey) as Hm. cbv zeta in Hm.
    change (m_tableRowId mcr) with trid in Hm. assert (Heff : forall v, index_effect mcr v idx = match idx !! trid with Some _ => None | None => Some (<[trid := v]> idx) end) by done.
    rewrite Heff in Hm. destruct (at_rows t !! trid) as [row|] eqn:Hrow; cbn [fst snd].
    + destruct (H6 trid row Hrow) as (a & mcr0 & Hidx & _). rewrite Hidx in Hm. destruct Hm as (m' & dm' & Em & Hm' & He & Hc).
      assert (Er : (r <-- mtry (master (writeMasterColumnRecord PM sha256 time uninitialized mcr true)) ;; mret (match r with inl e => Some e | inr _ => None end)) (with_columns css s) =
        (Ok (Some (CannotInsertDuplicateTrid trid)), with_master m' (with_columns css s))) by (unfold mbind, mtry; by rewrite (master_run _ (with_columns css s) _ _ Em)).
      run_step Er. destruct (Hundo css dss1 nbs m' dm' Hinv Hm' He Hc) as (s' & Es & Hs'). exists s'. split; [|done]. by run_step Es.
    + rewrite (H5 trid Hrow) in Hm. destruct Hm as (w & m' & dm' & Em & Hm' & He & Hat & _ & Hc).
      assert (Er : (r <-- mtry (master (writeMasterColumnRecord PM sha256 time uninitialized mcr true)) ;; mret (match r with inl e => Some e | inr _ => None end)) (with_columns css s) =
        (Ok None, with_master m' (with_columns css s))) by (unfold mbind, mtry; by rewrite (master_run _ (with_columns css s) _ _ Em)).
      run_step Er. eexists _, _. split; [done|]. split; [done|]. eexists dss1, dm', _. split.
      * eapply cols_rep_le; [|exact Hrep1]. intros i. cbv beta. case_decide; lia.
      * exact Hm'.
      * cbn. by rewrite Hc.
      * exact H4.
      * intros k Hk. cbn in Hk. apply lookup_insert_None in Hk as [Hk Hk']. rewrite lookup_insert_ne by done. by apply H5.
      * intros k row Hk. cbn in Hk. destruct (decide (k = trid)) as [->|Hnk].
        -- rewrite lookup_insert_eq in Hk. injection Hk as <-. exists (mcr_place PM dm mcr), mcr. rewrite lookup_insert_eq. split_and!; try done.
           split; [cbn; unfold records_of; rewrite <- list_fmap_compose; done|]. split; [done|]. intros i tc p ds Htc Hp Hds. destruct (lookup_lt_is_Some_2 dss i) as [ds0 Hds0]; [apply lookup_lt_Some in Hds; lia|].
           specialize (Hall1 i tc ds0 ds Htc Hds0 Hds). rewrite Hp in Hall1. by destruct Hall1 as (b & _ & _ & Hval & _).
        -- rewrite lookup_insert_ne in Hk by done. rewrite lookup_insert_ne by done. exact (rows_survive T _ _ _ _ _ _ Hext He H6 k row Hk).
  - destruct Hw as (css & dss1 & nbs & Ew & Hinv). run_step Ew. cbv beta iota zeta. cbn [app failure fst snd] in *. rewrite mbind_ret.
    destruct (Hundo css dss1 nbs (m_masterColumn s) dm Hinv (master_rep_le _ _ _ _ _ _ _ (Nat.le_succ_diag_r n) H2) (extends_refl dm) eq_refl) as (s' & Es & Hs').
    exists s'. split; [|done]. change (with_master (m_masterColumn s) (with_columns css s)) with (with_columns css s) in Es. by run_step Es.
  - cbn [fst]. unfold mbind. destruct (write_columns _ _ _ _ _ _ _ _ _ _ s) as [x s']. cbn in Hw. by subst x.
Qed.

Definition with_operation (id : Z) (s : state) : state := {| ts_columns := ts_columns s; m_masterColumn := m_masterColumn s; m_lastAtomicOperationId := id |}.

Lemma next_operation (s : state) : exists id, generateNextAtomicOperationId s = (Ok id, with_operation id s) /\ u_ok 64 id.
Proof. eexists. split; [done|]. apply uw_range. lia. Qed.

Lemma rep_operation (s : state) t dss dm idx n id : table_rep s t dss dm idx n -> table_rep (with_operation id s) t dss dm idx n.
Proof. intros [H1 H2 H3 H4 H5 H6]. by split. Qed.

Definition trid_ok (customTrid : Z) (t : atable) : Prop :=
  if customTrid =? 0 then ix_key (at_lastTrid t + 1) /\ at_lastTrid t + 1 < 2 ^ 64 else ix_key customTrid /\ u_ok 64 customTrid.

Lemma doInsert_ok (s : state) t n values tp customTrid : rep s t (S n) -> trid_ok customTrid t -> values_ok T values -> tp_ok tp ->
  follows (fun r => TInserted (m_tableRowId (fst r))) (doInsertRowUnlocked T sha256 time uninitialized values tp customTrid s) (spec_insert T values customTrid t) n.
Proof.
  intros (dss & dm & idx & Hrep) Ht Hv Htp. unfold doInsertRowUnlocked, spec_insert, trid_ok in *. destruct (next_operation s) as (id & E & Hid). run_step E.
  apply (rep_operation _ _ _ _ _ _ id) in Hrep. set (s1 := with_operation id s) in *. destruct (Z.eqb_spec customTrid 0) as [_|Hne].
  - pose proof Hrep as [H1 H2 H3 H4 H5 H6]. destruct Ht as [Hk Hlt].
    set (m' := {| mc_column := mc_column (m_masterColumn s1); m_mainIndex := m_mainIndex (m_masterColumn s1);
      m_tridCounters := {| m_lastUserTrid := at_lastTrid t + 1; m_lastSystemTrid := m_lastSystemTrid (m_tridCounters (m_masterColumn s1)) |} |}).
    assert (Eg : generateNextUserTrid (m_masterColumn s1) = (Ok (at_lastTrid t + 1), m')).
    { unfold generateNextUserTrid. rewrite mbind_gets, H3. rewrite (proj2 (Z.eqb_neq _ _)) by lia. done. }
    run_step (master_run _ s1 _ _ Eg). eapply insert_values_ok; try done; [split; try done; cbn; lia|unfold u_ok; lia|lia].
  - destruct Ht as [Hk Hu]. rewrite mbind_ret. by eapply insert_values_ok.
Qed.

(** ** Delete *)

Lemma deleteRow_mcr_ok (s : state) t dss dm idx n trid mcr a tp : table_rep s t dss dm idx (S n) -> ix_key trid -> address_ok a -> mcr_small mcr -> m_tableRowId mcr = trid -> trid <> 0 -> tp_ok tp ->
  exists r s', deleteRow_mcr T sha256 time uninitialized mcr a tp true s = (Ok r, s') /\
    keeps (eq trid) dss dm idx s' {| at_layouts := at_layouts t; at_rows := delete trid (at_rows t); at_lastTrid := at_lastTrid t |} n.
Proof.
  intros Hrep Hk Ha [Hmok _] Hid Hne Htp. destruct (next_operation s) as (id & Eo & Hido). apply (rep_operation _ _ _ _ _ _ id) in Hrep. set (s2 := with_operation id s) in *. pose proof Hrep as [H1 H2 H3 H4 H5 H6].
  destruct Hmok as (M1 & M2 & M3 & M4 & M5 & M6 & _). rewrite Hid in M1.
  set (newMcr := new_mcr T trid tp (m_createTimestamp mcr) (uw 64 (mcr_version mcr + 1)) id kDelete a []).
  destruct (new_mcr_small trid tp (m_createTimestamp mcr) (uw 64 (mcr_version mcr + 1)) id kDelete a []) as [Hsmall Hfit]; try done; [apply uw_range; lia|apply len_nonneg|]. fold newMcr in Hsmall, Hfit.
  pose proof (write_mcr PM sha256 time uninitialized (to_master T sha256 uninitialized Hok) (m_masterColumn s2) dm idx n newMcr H2 Hsmall Hfit Hk) as Hm. cbv zeta in Hm.
  assert (Heff : forall v, index_effect newMcr v idx = Some (delete trid idx)) by done. rewrite Heff in Hm. destruct Hm as (w & m' & dm' & Em & Hm' & He & _ & _ & Hc).
  exists (newMcr, w), (with_master m' s2). split.
  { unfold deleteRow_mcr. run_step Eo. fold s2. rewrite Hid, (proj2 (Z.eqb_neq _ 0)) by done. rewrite mbind_ret. run_step (master_run _ s2 _ _ Em). done. }
  exists dss, dm', (delete trid idx). split; [split; try done|split; [apply dss_extends_refl|split; [done|]]].
  - eapply cols_rep_le; [|exact H1]. intros i. cbv beta. lia.
  - cbn. by rewrite Hc.
  - intros k Hdel. cbn in Hdel. destruct (decide (k = trid)) as [->|Hnk]; [by rewrite lookup_delete_eq|]. rewrite lookup_delete_ne in Hdel by done. rewrite lookup_delete_ne by done. by apply H5.
  - intros k row' Hr. cbn in Hr. apply lookup_delete_Some in Hr as [Hnk Hr]. rewrite lookup_delete_ne by done. exact (rows_survive T _ _ _ _ _ _ (dss_extends_refl dss) He H6 k row' Hr).
  - intros k Hnk. by rewrite lookup_delete_ne.
Qed.

Lemma deleteRow_ok (s : state) t n trid tp : rep s t (S n) -> ix_key trid -> tp_ok tp ->
  follows (fun r => TDeleted (match r with Some _ => true | None => false end)) (deleteRow T sha256 time uninitialized trid tp true s) (spec_delete trid t) n.
Proof.
  intros (dss & dm & idx & Hrep) Hk Htp. unfold deleteRow, spec_delete, follows. pose proof (tr_last _ _ _ _ _ _ _ _ Hrep) as Hl.
  assert (Hn : forall s', table_rep s' t dss dm idx (S n) -> rep s' t n) by (intros s' H'; apply (rep_le _ _ (S n)); [lia|by exists dss, dm, idx]).
  rewrite (mbind_ok _ _ s (at_lastTrid t) s) by (unfold master, embed, gets; rewrite Hl; by destruct s). rewrite Z.gtb_ltb. destruct (Z.ltb_spec (at_lastTrid t) trid) as [_|_]; cbn [fst snd].
  { eexists _, s. split; [done|]. split; [done|by apply Hn]. }
  pose proof (find_mcr_ok T sha256 uninitialized Hok s t dss dm idx (S n) trid Hrep Hk) as Hf. destruct (at_rows t !! trid) as [row|]; cbn [fst snd].
  - destruct Hf as (m1 & a & mcr & E & Hrep1 & Ha & Hsm & Hid & Hne & _). run_step E.
    destruct (deleteRow_mcr_ok (with_master m1 s) t dss dm idx n trid mcr a tp Hrep1 Hk Ha Hsm Hid Hne Htp) as (r & s' & Ed & dss' & dm' & idx' & Hrep' & _).
    run_step Ed. eexists _, s'. split; [done|]. split; [done|]. by exists dss', dm', idx'.
  - destruct Hf as (m1 & E & Hrep1). run_step E. eexists _, _. split; [done|]. split; [done|by apply Hn].
Qed.

(** ** Read *)

Lemma read_columns_ok trid mcr dss : m_tableRowId mcr = trid -> forall row i (s : state) ls, drop i (m_address <$> m_columnRecords mcr) = row.*1 -> length row = length (drop i cols) ->
  (forall j tc p ds, drop i cols !! j = Some tc -> row !! j = Some p -> dss !! (i + j)%nat = Some ds -> value_at (tc_params tc) (tc_dataType tc) ds (fst p) (snd p)) ->
  forall n, cols_rep T uninitialized (ts_columns s) ls dss (fun _ => n) ->
  exists css, read_columns T uninitialized i (drop i cols) mcr s = (spec_read_columns trid (drop i cols) row, with_columns css s) /\ cols_rep T uninitialized css ls dss (fun _ => n).
Proof.
  intros Hid. induction row as [|[a w] row IH]; intros i s ls Hrec Hlen Hval n Hrep.
  - destruct (drop i cols); [|done]. exists (ts_columns s). by rewrite with_columns_id.
  - destruct (drop i cols) as [|tc columns] eqn:Hd; [done|]. assert (Htc : cols !! i = Some tc) by (rewrite <- (Nat.add_0_r i), <- lookup_drop, Hd; done).
    assert (Hd' : columns = drop (S i) cols) by (rewrite (drop_S cols tc i Htc) in Hd; by injection Hd as <-). cbn [fmap list_fmap] in Hrec.
    assert (Ha : (m_address <$> m_columnRecords mcr) !! i = Some a) by (rewrite <- (Nat.add_0_r i), <- lookup_drop, Hrec; done).
    rewrite list_lookup_fmap in Ha. apply fmap_Some in Ha as (r & Hr & ->).
    destruct (cols_at T sha256 uninitialized Hok _ _ _ _ _ _ Hrep Htc) as (cs & l & ds & Hcs & Hl & Hds & Hc & Hfc).
    specialize (Hval 0%nat tc (m_address r, w) ds eq_refl eq_refl) as Hv0. rewrite Nat.add_0_r in Hv0. specialize (Hv0 Hds). cbn [fst snd] in Hv0.
    destruct (col_read sha256 uninitialized tc Hfc cs l ds n _ w Hc Hv0) as (cs' & Er & Hc'). cbn [read_columns spec_read_columns]. rewrite Hr. unfold mbind at 1. rewrite (column_run T _ i tc cs s Htc Hcs), Er.
    assert (Hrep' : cols_rep T uninitialized (<[i := cs']> (ts_columns s)) ls dss (fun _ => n)).
    { pose proof (cols_replace T uninitialized _ _ _ _ i tc cs' l ds n Hrep Htc Hc') as H'. rewrite (list_insert_id ls), (list_insert_id dss) in H' by done.
      eapply cols_rep_le; [|exact H']. intros j. cbv beta. case_decide; lia. }
    cbn [fst snd]. set (s1 := with_columns (<[i := cs']> (ts_columns s)) s).
    destruct (spec_read (tc_params tc) (tc_dataType tc) (m_address r) w) as [v|e|u]; cbn [bind]; [|by exists (<[i := cs']> (ts_columns s))|by exists (<[i := cs']> (ts_columns s))].
    rewrite Hid. destruct (_ && tc_notNull tc); [by exists (<[i := cs']> (ts_columns s))|]. rewrite Hd' in Hlen, Hval |- *.
    destruct (IH (S i) s1 ls) with (n := n) as (css & E & Hrep''); try done.
    + rewrite <- Nat.add_1_r, <- drop_drop, Hrec. done.
    + cbn in Hlen. lia.
    + intros j tc' p ds' Hj Hp Hds'. apply (Hval (S j) tc' p ds'); [done|done|]. by rewrite Nat.add_succ_r.
    + unfold mbind. rewrite E. exists css. destruct (spec_read_columns trid (drop (S i) cols) row); by split.
Qed.

Lemma readRow_ok (s : state) t n trid : rep s t n -> ix_key trid -> follows TRow (readRow T uninitialized trid 3 s) (spec_readRow T trid t, t) n.
Proof.
  intros (dss & dm & idx & Hrep) Hk. unfold readRow, spec_readRow, follows. cbn [fst snd]. pose proof (find_mcr_ok T sha256 uninitialized Hok s t dss dm idx n trid Hrep Hk) as Hf.
  destruct (at_rows t !! trid) as [row|]; cbn [bind].
  - destruct Hf as (m1 & a & mcr & E & Hrep1 & _ & _ & Hid & _ & Hadr & Hlen & Hval). run_step E. set (s1 := with_master m1 s) in *.
    assert (Hcount : len (m_columnRecords mcr) + 1 = columnCount T) by (unfold columnCount, len; rewrite <- (length_fmap m_address), Hadr, length_fmap; lia).
    rewrite Hcount, Z.eqb_refl. cbn [negb]. destruct Hrep1 as [H1 H2 H3 H4 H5 H6].
    destruct (read_columns_ok trid mcr dss Hid row 0 s1 (at_layouts t)) with (n := n) as (css & Er & Hrep'); try done. rewrite !drop_0 in Er. unfold mbind. rewrite Er.
    assert (Hend : rep (with_columns css s1) t n) by (exists dss, dm, idx; by split).
    destruct (spec_read_columns trid cols row); cbn [bind]; [|by eexists|done]. eexists _, _. split; [done|]. split; [by rewrite Hid|done].
  - destruct Hf as (m1 & E & Hrep1). run_step E. eexists. split; [done|]. by exists dss, dm, idx.
Qed.
End Ops.

(** ** Updates follow the abstract table

    The loop over the updated columns and its rollback. *)

Local Open Scope Z_scope.

Notation writes := (list (nat * (ColumnDataAddress * Variant))).

(** What was written to a column. *)
Definition at_column (j : nat) (ws : writes) : option (ColumnDataAddress * Variant) := snd <$> List.find (fun p => bool_decide (fst p = j)) ws.

Lemma at_column_cons j i w ws : at_column j ((i, w) :: ws) = if decide (i = j) then Some w else at_column j ws.
Proof. unfold at_column. cbn. case_decide; [by rewrite bool_decide_eq_true_2|by rewrite bool_decide_eq_false_2]. Qed.

Lemma at_column_None j ws : j ∉ ws.*1 -> at_column j ws = None.
Proof. induction ws as [|[i w] ws IH]; [done|]. intros H. apply not_elem_of_cons in H as [H1 H2]. rewrite at_column_cons, decide_False by done. by apply IH. Qed.

Lemma at_column_elem j w ws : at_column j ws = Some w -> (j, w) ∈ ws.
Proof.
  induction ws as [|[i w'] ws IH]; [done|]. rewrite at_column_cons. case_decide as E; [intros [= ->]; subst; left|]. intros H. right. by apply IH.
Qed.

Lemma at_column_Some j ws : j ∈ ws.*1 -> exists w, at_column j ws = Some w.
Proof.
  induction ws as [|[i w'] ws IH]; [by intros ?%elem_of_nil|]. intros [->|H]%elem_of_cons; rewrite at_column_cons; [rewrite decide_True by done; eauto|]. case_decide; eauto.
Qed.

(** A function applied to the columns of a list, one after the other. *)
Lemma fold_alter {B} (f : nat -> ColumnDataAddress * Variant -> B -> B) (ws : writes) (l : list B) j : NoDup ws.*1 ->
  fold_left (fun l '(i, w) => alter (f i w) i l) ws l !! j = match at_column j ws with Some w => f j w <$> l !! j | None => l !! j end.
Proof.
  revert l. induction ws as [|[i w] ws IH]; intros l Hnd; [done|]. apply NoDup_cons in Hnd as [Hi Hnd]. cbn [fold_left]. rewrite IH by done. rewrite at_column_cons. case_decide as E.
  - subst j. rewrite (at_column_None i ws) by done. apply list_lookup_alter_eq.
  - rewrite list_lookup_alter_ne by done. done.
Qed.

Section Update.
Context {C I : Type} `{BC : BlockCache C} {BL : BlockCacheLaws C} {MI : MainIndex I} {ML : MainIndexLaws I} {X : Externals} (T : table_params).
Context (sha256 : list Z -> list Z) (time : nat -> Z) (uninitialized : Z).
Notation state := (table_state C I).
Notation cols := (t_columns T).
Notation PM := (t_master T).
Notation table_rep := (table_rep T uninitialized).
Notation rep := (rep T uninitialized).
Notation cols_rep := (cols_rep T uninitialized).
Context (Hok : table_ok T sha256 uninitialized).

Lemma written_at_lookup ls ws j tc : NoDup ws.*1 -> Forall (fun i => i < length cols)%nat ws.*1 -> cols !! j = Some tc ->
  written_at T ls ws !! j = match at_column j ws with Some w => (fun l => layout_written tc l (fst w)) <$> ls !! j | None => ls !! j end.
Proof.
  intros Hnd Hin Hj. set (f := fun i (w : ColumnDataAddress * Variant) l => match cols !! i with Some tc => layout_written tc l (fst w) | None => l end).
  assert (E : written_at T ls ws = fold_left (fun l '(i, w) => alter (f i w) i l) ws ls).
  { unfold written_at. clear Hnd. revert ls. induction ws as [|[i w] ws IH]; intros ls; [done|]. apply Forall_cons in Hin as [Hi Hin]. cbn [fold_left]. rewrite IH by done. f_equal.
    destruct (lookup_lt_is_Some_2 cols i Hi) as [tc' Htc']. rewrite Htc'. apply list_eq. intros k. destruct (decide (k = i)) as [->|Hne]; [|by rewrite !list_lookup_alter_ne by done].
    rewrite !list_lookup_alter_eq. unfold f. by rewrite Htc'. }
  rewrite E, fold_alter by done. unfold f. by rewrite Hj.
Qed.

Lemma undone_at_lookup ls ws j : NoDup ws.*1 -> undone_at ls ws !! j = match at_column j ws with Some w => (fun l => layout_undone l (fst w)) <$> ls !! j | None => ls !! j end.
Proof. intros Hnd. by apply (fold_alter (fun _ w l => layout_undone l (fst w))). Qed.

Lemma updated_row_lookup row ws j : NoDup ws.*1 -> Forall (fun i => i < length row)%nat ws.*1 ->
  updated_row row ws !! j = match at_column j ws with Some w => Some w | None => row !! j end.
Proof.
  intros Hnd Hin. revert row Hin. induction ws as [|[i w] ws IH]; intros row Hin; [done|]. apply NoDup_cons in Hnd as [Hi Hnd]. apply Forall_cons in Hin as [Hil Hin].
  unfold updated_row. cbn [fold_left]. fold (updated_row (<[i := w]> row) ws). rewrite IH by (done || (eapply Forall_impl; [exact Hin|]; cbn; intros; by rewrite length_insert)).
  rewrite at_column_cons. case_decide as E; [subst j; rewrite (at_column_None i ws) by done; by apply list_lookup_insert_eq|]. by rewrite list_lookup_insert_ne by done.
Qed.

Lemma updated_row_length row ws : length (updated_row row ws) = length row.
Proof. revert row. induction ws as [|[i w] ws IH]; intros row; [done|]. unfold updated_row. cbn [fold_left]. fold (updated_row (<[i := w]> row) ws). by rewrite IH, length_insert. Qed.

Lemma written_at_length ls ws : length (written_at T ls ws) = length ls.
Proof.
  revert ls. induction ws as [|[i w] ws IH]; intros ls; [done|]. unfold written_at. cbn [fold_left]. destruct (cols !! i) as [tc|]; [|apply IH].
  fold (written_at T (alter (fun l => layout_written tc l (fst w)) i ls) ws). by rewrite IH, length_alter.
Qed.

Lemma undone_at_length ls ws : length (undone_at ls ws) = length ls.
Proof. revert ls. induction ws as [|[i w] ws IH]; intros ls; [done|]. unfold undone_at. cbn [fold_left]. fold (undone_at (alter (fun l => layout_undone l (fst w)) i ls) ws). by rewrite IH, length_alter. Qed.

(** ** The loop *)

Section Loop.
Context (n : nat) (ls0 : list layout) (dss0 : list (list (list Z))) (row0 : arow).
Context (Hls : length ls0 = length cols) (Hdss : length dss0 = length cols) (Hrow : length row0 = length cols).

Definition wrote_at (dss : list (list (list Z))) (p : nat * (ColumnDataAddress * Variant)) (b : Z) : Prop :=
  exists tc ds ds', cols !! fst p = Some tc /\ dss0 !! fst p = Some ds /\ dss !! fst p = Some ds' /\ wrote tc ds ds' (snd p) b.

Record update_inv (ws : writes) (nbs : list Z) (css : list (column_state C)) (dss : list (list (list Z))) (recs : list ColumnDataRecord) : Prop := {
  ui_columns : cols_rep css (written_at T ls0 ws) dss (fun j => if decide (j ∈ ws.*1) then n else S n);
  ui_nodup : NoDup ws.*1;
  ui_in : Forall (fun i => i < length cols)%nat ws.*1;
  ui_wrote : Forall2 (wrote_at dss) ws nbs;
  ui_same : forall j, j ∉ ws.*1 -> dss !! j = dss0 !! j;
  ui_records : m_address <$> recs = (updated_row row0 ws).*1;
  ui_ok : Forall cdr_ok recs
}.

Lemma update_extends ws nbs css dss recs : update_inv ws nbs css dss recs -> dss_extends dss0 dss.
Proof.
  intros [H1 H2 H3 H4 H5 H6 H7]. destruct H1 as (_ & _ & L3 & _). split; [by rewrite Hdss, L3|]. intros i ds ds' Hi Hi'. destruct (decide (i ∈ ws.*1)) as [Hin|Hnin].
  - apply list_elem_of_fmap_1 in Hin as ([j w] & -> & Hw). apply list_elem_of_lookup_1 in Hw as [k Hk]. destruct (Forall2_lookup_l _ _ _ _ _ H4 Hk) as (b & _ & tc & x & x' & _ & Hx & Hx' & He & _).
    cbn in *. by simplify_eq.
  - rewrite (H5 i Hnin) in Hi'. simplify_eq. apply extends_refl.
Qed.

Lemma update_step ws nbs css dss recs i w b tc l ds ds' cs' r r' : update_inv ws nbs css dss recs -> i ∉ ws.*1 -> cols !! i = Some tc -> ls0 !! i = Some l -> dss !! i = Some ds ->
  cols_rep cs' (put (written_at T ls0 ws) i tc l (fst w)) (<[i := ds']> dss) (fun j => if decide (j = i) then n else if decide (j ∈ ws.*1) then n else S n) ->
  wrote tc ds ds' w b -> recs !! i = Some r -> m_address r' = fst w -> cdr_ok r' ->
  update_inv (ws ++ [(i, w)]) (nbs ++ [b]) cs' (<[i := ds']> dss) (<[i := r']> recs).
Proof.
  intros [H1 H2 H3 H4 H5 H6 H7] Hi Htc Hl Hds Hrep Hw Hr Hr' Hcok. pose proof (lookup_lt_Some _ _ _ Htc) as Hlt. pose proof (H5 i Hi) as Hds0. rewrite Hds in Hds0.
  assert (Hli : written_at T ls0 ws !! i = Some l) by (rewrite (written_at_lookup _ _ _ tc), at_column_None by done; done). split.
  - replace (written_at T ls0 (ws ++ [(i, w)])) with (put (written_at T ls0 ws) i tc l (fst w)).
    + eapply cols_rep_le; [|exact Hrep]. intros j. cbv beta. rewrite fmap_app. cbn [fmap list_fmap fst]. destruct (decide (j ∈ ws.*1 ++ [i])) as [Hin|Hnin].
      * repeat case_decide; lia.
      * rewrite elem_of_app, list_elem_of_singleton in Hnin. repeat case_decide; try lia; tauto.
    + unfold written_at at 2. rewrite fold_left_app. cbn [fold_left]. fold (written_at T ls0 ws). rewrite Htc. unfold put. apply list_eq. intros j. destruct (decide (j = i)) as [->|Hne].
      * rewrite list_lookup_insert_eq by (rewrite written_at_length; lia). by rewrite list_lookup_alter_eq, Hli.
      * by rewrite list_lookup_insert_ne, list_lookup_alter_ne by done.
  - rewrite fmap_app. apply NoDup_app. split; [done|]. split; [|apply NoDup_singleton]. intros j Hj ->%list_elem_of_singleton. done.
  - rewrite fmap_app. apply Forall_app. split; [done|]. by constructor.
  - apply Forall2_app; [|constructor; [|constructor]; exists tc, ds, ds'; cbn; split_and!; [done|done|apply list_lookup_insert_eq; by apply lookup_lt_Some in Hds|done]].
    apply Forall2_same_length_lookup in H4 as [H4 H4']. apply Forall2_same_length_lookup. split; [done|]. intros k [j w'] b' Hj Hb'. destruct (H4' k _ _ Hj Hb') as (tc' & x & x' & Q1 & Q2 & Q3 & Q4). exists tc', x, x'. split_and!; try done. cbn in *.
    rewrite list_lookup_insert_ne; [done|]. intros <-. apply Hi, list_elem_of_fmap. exists (i, w'). split; [done|]. by eapply list_elem_of_lookup_2.
  - intros j Hj. rewrite fmap_app in Hj. cbn [fmap list_fmap fst] in Hj. rewrite elem_of_app, list_elem_of_singleton in Hj. rewrite list_lookup_insert_ne by (intros <-; apply Hj; by right). apply H5. tauto.
  - rewrite list_fmap_insert, H6, Hr'. unfold updated_row. rewrite fold_left_app. cbn [fold_left]. by rewrite list_fmap_insert.
  - by apply Forall_insert.
Qed.

(** The columns to update and their new values. *)
Definition update_ok (columns : list nat) (values : list Variant) : Prop :=
  NoDup columns /\ Forall (fun i => i < length cols)%nat columns /\
  forall k i v tc, columns !! k = Some i -> values !! k = Some v -> cols !! i = Some tc -> value_ok tc v.

Lemma update_columns_ok ts : u_ok 64 ts -> forall columns values (s : state) ws nbs dss recs, update_inv ws nbs (ts_columns s) dss recs ->
  length values = length columns -> update_ok columns values -> (forall i, i ∈ columns -> i ∉ ws.*1) ->
  let '(ws', o) := spec_updates T ls0 columns values in
  let c := update_columns T sha256 time uninitialized (S <$> columns) values ts recs nbs s in
  match o with
  | Undef u => fst c = Undef u
  | _ => exists css dss' nbs' recs', c = (Ok (recs', nbs', failure o), with_columns css s) /\ update_inv (ws ++ ws') nbs' css dss' recs'
  end.
Proof.
  intros Hts. induction columns as [|i columns IH]; intros [|v values] s ws nbs dss recs Hinv Hlen (Hnd & Hin & Hv) Hfresh; try done.
  - cbn. exists (ts_columns s), dss, nbs, recs. rewrite app_nil_r, with_columns_id. done.
  - apply NoDup_cons in Hnd as [Hi Hnd]. apply Forall_cons in Hin as [Hil Hin]. destruct (lookup_lt_is_Some_2 cols i Hil) as [tc Htc]. destruct (lookup_lt_is_Some_2 ls0 i) as [l Hl]; [lia|].
    pose proof Hinv as [H1 H2 H3 H4 H5 H6 H7]. assert (Hiw : i ∉ ws.*1) by (apply Hfresh; left).
    assert (Hl' : written_at T ls0 ws !! i = Some l) by (rewrite (written_at_lookup _ _ _ tc), at_column_None by done; done).
    cbn [spec_updates fmap list_fmap update_columns]. rewrite Htc, Hl. unfold columnCount. rewrite Z.geb_leb, (proj2 (Z.leb_gt _ _)) by (unfold len; lia).
    pose proof (cols_write T sha256 time uninitialized Hok s _ _ _ _ tc l v H1 Htc Hl') as Hw. cbv beta in Hw. rewrite decide_False in Hw by done.
    specialize (Hw ltac:(lia) (Hv 0%nat i v tc eq_refl eq_refl Htc)). destruct (spec_write tc l v) as [[a w]|e|u].
    + destruct Hw as (res & css & ds & ds' & E & Ha & Hn & Hrep' & Hds & He & Hval & Hbeh). cbn [pred] in Hrep'.
      assert (Hrl : length recs = length cols) by (rewrite <- (length_fmap m_address), H6, length_fmap, updated_row_length; done).
      destruct (lookup_lt_is_Some_2 recs i) as [old Hold]; [lia|]. set (r' := {| m_address := a; cdr_createTimestamp := cdr_createTimestamp old; cdr_updateTimestamp := ts |}).
      destruct (cols_at T sha256 uninitialized Hok _ _ _ _ _ _ Hrep' Htc) as (cs1 & l1 & ds1 & _ & _ & Hds1 & Hc1 & Hfc). rewrite list_lookup_insert_eq in Hds1 by (by apply lookup_lt_Some in Hds). injection Hds1 as <-.
      assert (Hcok : cdr_ok r') by (split; [by eapply value_address_ok|split; [apply (Forall_lookup_1 _ _ _ _ H7 Hold)|done]]).
      assert (Hstep : update_inv (ws ++ [(i, (a, w))]) (nbs ++ [m_blockId (m_nextAddress res)]) css (<[i := ds']> dss) (<[i := r']> recs)).
      { eapply (update_step ws nbs _ dss recs i (a, w)); try done. split; [done|]. split; [done|]. cbn [fst]. intros Hnn. split; [by apply Hn|]. intros d Hd. by apply Hbeh. }
      specialize (IH values (with_columns css s) _ _ _ _ Hstep). cbn in Hlen. specialize (IH ltac:(lia)).
      assert (Hok' : update_ok columns values) by (split; [done|]; split; [done|]; intros k j v' tc' Hk Hv'; by apply (Hv (S k) j v' tc')).
      specialize (IH Hok'). assert (Hfr : forall j, j ∈ columns -> j ∉ (ws ++ [(i, (a, w))]).*1).
      { intros j Hj. rewrite fmap_app. cbn [fmap list_fmap fst]. rewrite elem_of_app, list_elem_of_singleton. intros [H| ->]; [|done]. revert H. apply Hfresh. by right. }
      specialize (IH Hfr). destruct (spec_updates T ls0 columns values) as [ws' o]. cbv zeta in *. rewrite (mbind_ok _ _ _ _ _ E). cbv iota. rewrite Hold, Ha.
      rewrite <- app_assoc in IH. cbn [app] in IH. destruct o; done.
    + exists (ts_columns s), dss, nbs, recs. rewrite app_nil_r, with_columns_id. cbv zeta. by rewrite (mbind_ok _ _ _ _ _ Hw).
    + cbv zeta. unfold mbind. destruct (mtry _ s) as [x s']. cbn in Hw. by subst x.
Qed.

(** ** The rollback *)

Definition half_at (ws1 ws2 : writes) (ls : list layout) : Prop :=
  length ls = length cols /\
  forall j tc, cols !! j = Some tc -> ls !! j =
    match at_column j ws1 with
    | Some w => (fun l => layout_undone l (fst w)) <$> ls0 !! j
    | None => match at_column j ws2 with Some w => (fun l => layout_written tc l (fst w)) <$> ls0 !! j | None => ls0 !! j end
    end.

Lemma at_column_app j (ws1 ws2 : writes) : at_column j (ws1 ++ ws2) = match at_column j ws1 with Some w => Some w | None => at_column j ws2 end.
Proof. induction ws1 as [|[i w] ws1 IH]; [done|]. cbn [app]. rewrite !at_column_cons. by case_decide. Qed.

Lemma half_at_step ws1 i w ws2 ls l : half_at ws1 ((i, w) :: ws2) ls -> NoDup (ws1 ++ (i, w) :: ws2).*1 -> ls0 !! i = Some l ->
  half_at (ws1 ++ [(i, w)]) ws2 (<[i := layout_undone l (fst w)]> ls).
Proof.
  intros [Hlen H] Hnd Hl. rewrite fmap_app in Hnd. apply NoDup_app in Hnd as (_ & Hd & _). split; [by rewrite length_insert|].
  intros j tc Hj. rewrite at_column_app, at_column_cons. destruct (decide (j = i)) as [->|Hne].
  - rewrite list_lookup_insert_eq by (apply lookup_lt_Some in Hl; lia). rewrite at_column_None, decide_True, Hl by (done || (intros Hi; apply (Hd _ Hi); left)). done.
  - rewrite list_lookup_insert_ne, (H j tc Hj), at_column_cons, !(decide_False (P := i = j)) by done. by destruct (at_column j ws1).
Qed.

Lemma rollback_update_ok recs rest : forall ws2 nbs2 ws1 (s : state) ls dss, ws2 <> [] -> NoDup (ws1 ++ ws2).*1 -> half_at ws1 ws2 ls ->
  cols_rep (ts_columns s) ls dss (fun _ => n) -> dss_extends dss0 dss -> Forall2 (wrote_at dss) ws2 nbs2 ->
  Forall (fun p => exists r, recs !! fst p = Some r /\ m_address r = fst (snd p)) ws2 ->
  exists css dss', rollback_update T uninitialized (S <$> (ws2.*1 ++ rest)) recs nbs2 s = (Ok tt, with_columns css s) /\ cols_rep css (undone_at ls0 (ws1 ++ ws2)) dss' (fun _ => n) /\ dss_extends dss0 dss'.
Proof.
  induction ws2 as [|[i w] ws2 IH]; intros nbs2 ws1 s ls dss Hne Hnd Hhalf Hrep Hext Hw Hr; [done|]. apply Forall2_cons_inv_l in Hw as (b & nbs' & (tc & ds & ds' & Htc & Hds & Hds' & He & Hval & Hnn) & Hw' & ->).
  cbn [fst snd] in *. apply Forall_cons in Hr as [(r & Hri & Hra) Hr']. cbn [fst snd] in *. rewrite fmap_cons; cbn [fst app]; rewrite fmap_cons; cbn [rollback_update].
  rewrite Hri, Hra.
  destruct (cols_at T sha256 uninitialized Hok _ _ _ _ _ _ Hrep Htc) as (cs & l & x & Hcs & Hl & Hx & Hc & Hfc). rewrite Hds' in Hx. injection Hx as <-.
  destruct (lookup_lt_is_Some_2 ls0 i) as [l0 Hl0]; [apply lookup_lt_Some in Htc; lia|].
  assert (Hi1 : i ∉ ws1.*1 /\ i ∉ ws2.*1).
  { rewrite fmap_app in Hnd. apply NoDup_app in Hnd as (_ & Hd & Hnd2). cbn in Hnd2. apply NoDup_cons in Hnd2 as [Hi2 _]. split; [|done]. intros Hi. apply (Hd _ Hi). left. }
  assert (Hlw : l = layout_written tc l0 (fst w)).
  { destruct Hhalf as [_ Hh]. specialize (Hh i tc Htc). rewrite at_column_None, at_column_cons, decide_True, Hl0 in Hh by (done || apply Hi1). cbn in Hh. congruence. }
  pose proof (half_at_step ws1 i w ws2 ls l0 Hhalf Hnd Hl0) as Hstep.
  assert (Hgo : exists cs'' ds'', (if isNullValueAddress (fst w) then mret tt else (mtry (column T i (column_rollback uninitialized (fst w) b)) ;;' mret tt)) s = (Ok tt, with_columns (<[i := cs'']> (ts_columns s)) s) /\
    col_rep uninitialized tc cs'' (layout_undone l0 (fst w)) ds'' n /\ extends ds ds'').
  { destruct (isNullValueAddress (fst w)) eqn:Hnull.
    - exists cs, ds'. rewrite list_insert_id, with_columns_id by done. split; [done|]. split; [|done]. unfold layout_undone. rewrite Hnull. by rewrite Hlw in Hc; unfold layout_written in Hc; rewrite Hnull in Hc.
    - destruct (Hnn eq_refl) as [-> Hbehind]. destruct (value_place sha256 uninitialized tc ds' _ _ Hfc Hval Hnull) as (P1 & P2 & P3).
      destruct (col_rollback sha256 uninitialized tc Hfc cs l ds' ds n (fst w) Hc) as (cs'' & ds'' & E & Hc'' & He''); try done; [rewrite Hlw; unfold layout_written; by rewrite Hnull|].
      exists cs'', ds''. split; [unfold mbind, mtry; rewrite (column_run T _ i tc cs s Htc Hcs), E; done|]. split; [|done]. unfold layout_undone. by rewrite Hnull. }
  destruct Hgo as (cs'' & ds'' & E & Hc'' & He''). run_step E. set (s' := with_columns (<[i := cs'']> (ts_columns s)) s).
  assert (Hrep' : cols_rep (ts_columns s') (<[i := layout_undone l0 (fst w)]> ls) (<[i := ds'']> dss) (fun _ => n)).
  { eapply cols_rep_le; [|eapply (cols_replace T uninitialized _ _ _ _ i tc cs'' _ ds'' n Hrep Htc Hc'')]. intros j. cbv beta. case_decide; lia. }
  assert (Hext' : dss_extends dss0 (<[i := ds'']> dss)).
  { destruct Hext as [Hlen Hext]. split; [by rewrite length_insert|]. intros j y y' Hy Hy'. destruct (decide (j = i)) as [->|Hnj].
    - rewrite list_lookup_insert_eq in Hy' by (by apply lookup_lt_Some in Hds'). by simplify_eq.
    - rewrite list_lookup_insert_ne in Hy' by done. by eapply Hext. }
  assert (Happ : (ws1 ++ [(i, w)]) ++ ws2 = ws1 ++ (i, w) :: ws2) by (by rewrite <- app_assoc).
  destruct ws2 as [|p ws2'].
  - apply Forall2_nil_inv_l in Hw' as ->. exists (ts_columns s'), (<[i := ds'']> dss). split; [done|]. split; [|done].
    replace (undone_at ls0 (ws1 ++ [(i, w)])) with (<[i := layout_undone l0 (fst w)]> ls); [done|]. destruct Hstep as [Hsl Hs]. apply list_eq. intros j.
    rewrite undone_at_lookup by done. destruct (cols !! j) as [tc'|] eqn:Hj.
    + rewrite (Hs j tc' Hj). by destruct (at_column j (ws1 ++ [(i, w)])).
    + apply lookup_ge_None_1 in Hj. rewrite !lookup_ge_None_2 by lia. by destruct (at_column j _).
  - pose proof Hw' as Hw2. apply Forall2_cons_inv_l in Hw2 as (b2 & nbs2' & _ & _ & Hnb). replace (match nbs' with [] => mret tt | _ :: _ => rollback_update T uninitialized (S <$> (p :: ws2').*1 ++ rest) recs nbs' end) with (rollback_update (C := C) (I := I) T uninitialized (S <$> (p :: ws2').*1 ++ rest) recs nbs') by (by rewrite Hnb). rewrite <- Happ.
    apply (IH nbs' (ws1 ++ [(i, w)]) s' (<[i := layout_undone l0 (fst w)]> ls) (<[i := ds'']> dss)); try done; [by rewrite Happ|].
    apply Forall2_same_length_lookup in Hw' as [Hwl Hwa]. apply Forall2_same_length_lookup. split; [done|]. intros k [j w'] b' Hj Hb'. destruct (Hwa k _ _ Hj Hb') as (tc' & y & y' & Q1 & Q2 & Q3 & Q4).
    exists tc', y, y'. split_and!; try done. cbn in *. rewrite list_lookup_insert_ne; [done|]. intros <-. destruct Hi1 as [_ Hi1]. apply Hi1. change (fst (i, w') ∈ (p :: ws2').*1). apply list_elem_of_fmap_2. by eapply list_elem_of_lookup_2.
Qed.
End Loop.

(** ** The operation *)

Lemma spec_updates_prefix ls columns values : exists rest, columns = (fst (spec_updates T ls columns values)).*1 ++ rest.
Proof.
  revert values. induction columns as [|i columns IH]; intros values; [by exists []|]. destruct values as [|v values]; [by exists (i :: columns)|]. cbn.
  destruct (cols !! i) as [tc|], (ls !! i) as [l|]; try by exists (i :: columns). destruct (spec_write tc l v) as [w|e|u]; [|by exists (i :: columns)|by exists (i :: columns)].
  destruct (IH values) as [rest Hr]. destruct (spec_updates T ls columns values) as [ws o]. cbn in *. exists rest. by rewrite Hr at 1.
Qed.

Lemma update_start (s : state) t dss mcr row n : cols_rep (ts_columns s) (at_layouts t) dss (fun _ => S n) -> row_ok T dss mcr row -> Forall cdr_ok (m_columnRecords mcr) ->
  update_inv n (at_layouts t) dss row [] [] (ts_columns s) dss (m_columnRecords mcr).
Proof.
  intros Hrep (Hr & _) Hc. split; [|by constructor|by constructor|by constructor|done|done|done]. eapply cols_rep_le; [|exact Hrep]. intros j. cbv beta. case_decide; lia.
Qed.

Lemma update_undo (s : state) ls0 dss0 row0 ws nbs dss recs rest n : length ls0 = length cols -> length dss0 = length cols -> length row0 = length cols -> ws <> [] ->
  update_inv n ls0 dss0 row0 ws nbs (ts_columns s) dss recs ->
  exists css dss', rollback_update T uninitialized (S <$> (ws.*1 ++ rest)) recs nbs s = (Ok tt, with_columns css s) /\ cols_rep css (undone_at ls0 ws) dss' (fun _ => n) /\ dss_extends dss0 dss'.
Proof.
  intros Hl Hd Hr Hne Hinv. pose proof (update_extends _ _ _ _ Hd _ _ _ _ _ Hinv) as Hext. destruct Hinv as [H1 H2 H3 H4 H5 H6 H7].
  apply (rollback_update_ok n ls0 dss0 row0 Hl Hd Hr recs rest ws nbs [] s (written_at T ls0 ws) dss); try done.
  - split; [by rewrite written_at_length|]. intros j tc Hj. cbn. by rewrite (written_at_lookup _ _ _ tc).
  - eapply cols_rep_le; [|exact H1]. intros j. cbv beta. case_decide; lia.
  - apply Forall_forall. intros [i w] Hin. cbn. assert (Hi : (m_address <$> recs) !! i = Some (fst w)).
    { rewrite H6, list_lookup_fmap, updated_row_lookup; [|done|by rewrite Hr]. destruct (at_column_Some i ws) as [w' Hw']; [apply list_elem_of_fmap; by exists (i, w)|].
      rewrite Hw'. apply at_column_elem in Hw'. cbn. f_equal. f_equal. clear -Hw' Hin H2. induction ws as [|[k x] ws IH]; [by apply elem_of_nil in Hin|].
      apply NoDup_cons in H2 as [Hk H2]. apply elem_of_cons in Hin as [Hin|Hin], Hw' as [Hw'|Hw']; simplify_eq; [done|..|by apply IH].
      - exfalso. apply Hk, list_elem_of_fmap. by exists (k, w').
      - exfalso. apply Hk, list_elem_of_fmap. by exists (k, w). }
    rewrite list_lookup_fmap in Hi. apply fmap_Some in Hi as (r & Hri & ->). by exists r.
Qed.

Lemma updated_row_ok n ls0 dss0 row0 ws nbs css dss recs trid tp create version id op prev mcr : length dss0 = length cols -> length row0 = length cols -> row_ok T dss0 mcr row0 ->
  update_inv n ls0 dss0 row0 ws nbs css dss recs -> row_ok T dss (new_mcr T trid tp create version id op prev recs) (updated_row row0 ws).
Proof.
  intros Hd Hr Hrow Hinv. pose proof (update_extends _ _ _ _ Hd _ _ _ _ _ Hinv) as Hext. destruct Hinv as [H1 H2 H3 H4 H5 H6 H7]. split; [done|]. split; [by rewrite updated_row_length|].
  intros i tc p ds Hi Hp Hds. rewrite updated_row_lookup in Hp; [|done|by rewrite Hr]. destruct (at_column i ws) as [w|] eqn:Hw.
  - injection Hp as <-. apply at_column_elem, list_elem_of_lookup_1 in Hw as [k Hk]. destruct (Forall2_lookup_l _ _ _ _ _ H4 Hk) as (b & _ & tc' & x & x' & Q1 & _ & Q3 & Q4). cbn in *. simplify_eq. apply Q4.
  - destruct (row_extends T _ _ _ _ Hext Hrow) as (_ & _ & H). by eapply H.
Qed.

Lemma columns_count columns values : update_ok columns values -> len columns <= len cols.
Proof.
  intros (Hnd & Hin & _). unfold len. apply inj_le. rewrite <- (length_seq (length cols) 0). apply submseteq_length, NoDup_submseteq; [done|].
  intros i Hi. apply elem_of_seq. rewrite Forall_forall in Hin. specialize (Hin i Hi). lia.
Qed.

Lemma follows_map {A B} (f : A -> TableResult) (g : B -> TableResult) (h : A -> B) (c : TM A) (s : state) spec n : (forall x, g (h x) = f x) ->
  follows T uninitialized f (c s) spec n -> follows T uninitialized g ((r <-- c ;; mret (h r)) s) spec n.
Proof.
  intros Hg. unfold follows, mbind. destruct (fst spec) as [r|e|u].
  - intros (x & s' & -> & <- & Hr). eexists _, _. split; [done|]. by rewrite Hg.
  - intros (s' & -> & Hr). by eexists.
  - destruct (c s) as [o s']. cbn. by intros ->.
Qed.

(** No block is known when the first column could not be written. *)
Lemma undo_nothing (s : state) columns recs nbs e : columns <> [] -> Forall (fun i => i < length cols)%nat columns -> length recs = length cols -> nbs = [] ->
  fst ((rollback_update T uninitialized (S <$> columns) recs nbs ;;' mthrow (A := MasterColumnRecord * list Z) e) s) = Undef OutOfBounds.
Proof.
  intros Hne Hin Hlen ->. destruct columns as [|i columns]; [done|]. apply Forall_cons in Hin as [Hi _]. destruct (lookup_lt_is_Some_2 recs i) as [r Hr]; [lia|]. unfold mbind. cbn. by rewrite Hr.
Qed.

Lemma updateRow_mcr_ok (s : state) t dss dm idx n trid row mcr a columns values tp : table_rep s t dss dm idx (S n) -> at_rows t !! trid = Some row -> ix_key trid -> address_ok a -> mcr_small mcr ->
  m_tableRowId mcr = trid -> trid <> 0 -> row_ok T dss mcr row -> update_ok columns values -> tp_ok tp ->
  follows_keeping T uninitialized trid dss dm idx (fun _ => TUpdated true) (updateRow_mcr T sha256 time uninitialized mcr a (S <$> columns) values tp s) (spec_update T trid columns values t) n.
Proof.
  intros Hrep Hrow Hk Ha [Hmok _] Hid Hne Hr Hup Htp. unfold updateRow_mcr, spec_update, follows_keeping. rewrite Hrow.
  assert (Hlp : len (S <$> columns) = len columns) by (unfold len; by rewrite length_fmap). rewrite Hlp. destruct (Z.eqb_spec (len values) (len columns)) as [Hlv|Hlv]; cbn [negb fst snd].
  2:{ eexists. split; [done|]. apply (keeps_refl T uninitialized _ _ _ _ _ _ (S n)); [lia|done]. }
  pose proof Hr as (Hadr & Hl & Hval). assert (Hlr : length (m_columnRecords mcr) = length cols) by (by rewrite <- (length_fmap m_address), Hadr, length_fmap).
  pose proof (columns_count _ _ Hup) as Hcc. rewrite Z.gtb_ltb, (proj2 (Z.ltb_ge _ _)) by (unfold len in *; lia).
  destruct (next_operation s) as (id & Eo & Hido). apply (rep_operation _ _ _ _ _ _ _ _ id) in Hrep. run_step Eo. set (s2 := with_operation id s) in *. pose proof Hrep as [H1 H2 H3 H4 H5 H6].
  rewrite Hid, (proj2 (Z.eqb_neq _ 0)), mbind_ret by done. pose proof H1 as (L1 & L2 & L3 & _).
  assert (Hstart : update_inv n (at_layouts t) dss row [] [] (ts_columns s2) dss (m_columnRecords mcr)) by (eapply update_start; [done|done|apply Hmok]).
  pose proof (update_columns_ok n (at_layouts t) dss row L2 L3 Hl (tp_timestamp tp) (proj1 (proj2 Htp)) columns values s2 [] [] dss (m_columnRecords mcr) Hstart) as Hw.
  specialize (Hw ltac:(unfold len in *; lia) Hup ltac:(intros i _; apply not_elem_of_nil)). destruct (spec_updates_prefix (at_layouts t) columns values) as [rest Hrest].
  destruct (spec_updates T (at_layouts t) columns values) as [ws o] eqn:Hsp. cbn [fst] in Hrest. cbv zeta in Hw. cbn [app] in Hw. destruct o as [[]|e|u].
  - destruct Hw as (css & dss' & nbs & recs & Ew & Hinv). run_step Ew. cbv beta iota zeta. cbn [failure]. set (s3 := with_columns css s2) in *.
    destruct Hmok as (M1 & M2 & M3 & M4 & M5 & M6 & _). rewrite Hid in M1. pose proof (update_extends _ _ _ _ L3 _ _ _ _ _ Hinv) as Hext.
    pose proof (updated_row_ok n _ _ _ _ _ _ _ _ trid tp (m_createTimestamp mcr) (uw 64 (mcr_version mcr + 1)) id kUpdate a mcr L3 Hl Hr Hinv) as Hrow'.
    set (newMcr := new_mcr T trid tp (m_createTimestamp mcr) (uw 64 (mcr_version mcr + 1)) id kUpdate a recs) in *.
    destruct (new_mcr_small T sha256 uninitialized Hok trid tp (m_createTimestamp mcr) (uw 64 (mcr_version mcr + 1)) id kUpdate a recs) as [Hsmall Hfit]; try done; [apply uw_range; lia|apply Hinv|..].
    { destruct Hrow' as (R1 & R2 & _). cbn in R1. unfold len. rewrite <- (length_fmap m_address recs), R1, length_fmap. lia. }
    fold newMcr in Hsmall, Hfit.
    pose proof (write_mcr PM sha256 time uninitialized (to_master T sha256 uninitialized Hok) (m_masterColumn s3) dm idx n newMcr H2 Hsmall Hfit Hk) as Hm. cbv zeta in Hm.
    destruct (H6 trid row Hrow) as (a0 & mcr0 & Hidx & _).
    assert (Heff : forall v, index_effect newMcr v idx = Some (<[trid := v]> idx)) by (intros v; change (index_effect newMcr v idx) with (Some (match idx !! trid with Some _ => <[trid := v]> idx | None => idx end)); by rewrite Hidx).
    rewrite Heff in Hm. destruct Hm as (w & m' & dm' & Em & Hm' & He & Hat & _ & Hcnt).
    assert (Er : mtry (master (writeMasterColumnRecord PM sha256 time uninitialized newMcr true)) s3 = (Ok (inr w), with_master m' s3)) by (unfold mtry; by rewrite (master_run _ s3 _ _ Em)).
    run_step Er. cbn [fst snd]. eexists _, _. split; [done|]. split; [done|]. eexists dss', dm', _. split; [|split; [exact Hext|split; [exact He|intros k Hnk; by apply lookup_insert_ne]]]. split.
    + eapply cols_rep_le; [|apply Hinv]. intros j. cbv beta. case_decide; lia.
    + exact Hm'.
    + cbn. by rewrite Hcnt.
    + exact H4.
    + intros k Hkk. cbn in Hkk. apply lookup_insert_None in Hkk as [Hkk Hne']. rewrite lookup_insert_ne by done. by apply H5.
    + intros k row' Hk'. cbn in Hk'. destruct (decide (k = trid)) as [->|Hnk].
      * rewrite lookup_insert_eq in Hk'. injection Hk' as <-. exists (mcr_place PM dm newMcr), newMcr. by rewrite lookup_insert_eq.
      * rewrite lookup_insert_ne in Hk' by done. rewrite lookup_insert_ne by done. exact (rows_survive T _ _ _ _ _ _ Hext He H6 k row' Hk').
  - destruct Hw as (css & dss' & nbs & recs & Ew & Hinv). run_step Ew. cbv beta iota zeta. cbn [failure]. set (s3 := with_columns css s2) in *. destruct ws as [|w ws].
    + cbn [fst]. by apply (undo_nothing s3 columns recs nbs e); [intros ->; destruct values|apply Hup|rewrite <- (length_fmap m_address), (ui_records _ _ _ _ _ _ _ _ _ Hinv), length_fmap|apply (Forall2_nil_inv_l _ _ (ui_wrote _ _ _ _ _ _ _ _ _ Hinv))].
    + assert (Hne' : w :: ws <> []) by done. destruct (update_undo s3 _ _ _ _ _ _ _ rest n L2 L3 Hl Hne' Hinv) as (css' & dss2 & Eu & Hrep' & Hext'). rewrite <- Hrest in Eu.
      run_step Eu. cbn [fst snd]. eexists. split; [done|]. exists dss2, dm, idx. split; [|split; [done|split; [apply extends_refl|done]]]. split; try done; [by eapply master_rep_le; [|exact H2]; lia|]. exact (rows_survive T _ _ _ _ _ _ Hext' (extends_refl dm) H6).
  - cbn [fst]. unfold mbind. destruct (update_columns _ _ _ _ _ _ _ _ _ s2) as [x s']. cbn in Hw. by subst x.
Qed.

Lemma updateRow_ok (s : state) t n trid columns values tp : rep s t (S n) -> ix_key trid -> update_ok columns values -> tp_ok tp ->
  follows T uninitialized (fun r => TUpdated (match r with Some _ => true | None => false end)) (updateRow_positions T sha256 time uninitialized trid (S <$> columns) values tp s) (spec_update T trid columns values t) n.
Proof.
  intros (dss & dm & idx & Hrep) Hk Hup Htp. unfold updateRow_positions. pose proof (find_mcr_ok T sha256 uninitialized Hok s t dss dm idx (S n) trid Hrep Hk) as Hf.
  destruct (at_rows t !! trid) as [row|] eqn:Hrow.
  - destruct Hf as (m1 & a & mcr & E & Hrep1 & Ha & Hsmall & Hid & Hne & Hr). run_step E. apply (follows_map (fun _ => TUpdated true)); [done|]. eapply keeping_follows. by eapply updateRow_mcr_ok.
  - destruct Hf as (m1 & E & Hrep1). run_step E. unfold spec_update, follows. rewrite Hrow. eexists _, _. split; [done|]. split; [done|].
    apply (rep_le T uninitialized _ _ (S n)); [lia|by exists dss, dm, idx].
Qed.
End Update.
