(* ===== verification/TableCorrect.v ===== *)
(** * The table is a map from row numbers to rows

    The refinement theorem for sequences of operations on a new table, for any
    block cache and any main index that keep their promises, and its use with the
    caches and the linear index of the program. *)

From stdpp Require Import base list gmap.
Set Warnings "-clear-no-such-hyp,-notation-incompatible-prefix,-notation-for-abbreviation".
From Stdlib Require Import ZArith Lia.
From S2P Require Import Prelude StateM Bytes VarInt PlainBinary ColumnRecords CNum VariantType Variant ColumnType Expr ExprEval ExprTyping LruCache LinearIndex LinearIndexOps LinearIndexSpec.
From S2P Require Import Column ColumnData ColumnBlocks ColumnSpec MasterColumn Table ColumnLaws MasterSpec TableSpec TableRefine TableUpdate.

Local Open Scope Z_scope.

Section Correct.
Context {C I : Type} `{BC : BlockCache C} {BL : BlockCacheLaws C} {MI : MainIndex I} {ML : MainIndexLaws I} {X : Externals} (T : table_params).
Context (sha256 : list Z -> list Z) (time : nat -> Z) (uninitialized : Z).
Notation state := (table_state C I).
Notation cols := (t_columns T).
Notation rep := (rep T uninitialized).

(** The arguments of an operation fit their types; a row number can be a key of
    the main index. *)
Definition op_ok (op : TableOp) (t : atable) : Prop :=
  match op with
  | TInsert values customTrid tp => tp_ok tp /\ trid_ok customTrid t /\ match fill_defaults cols (Some <$> values) with Ok vs => values_ok T vs | _ => True end
  | TInsertNamed names values tp => tp_ok tp /\ trid_ok 0 t /\
      match fill_defaults cols (fst (order_values T names values (replicate (length cols) None) [])) with Ok vs => values_ok T vs | _ => True end
  | TUpdate trid columns values tp => tp_ok tp /\ ix_key trid /\ update_ok T columns values
  | TDelete trid tp => tp_ok tp /\ ix_key trid
  | TRead trid => ix_key trid
  end.

Fixpoint ops_ok (ops : list TableOp) (t : atable) : Prop :=
  match ops with
  | [] => True
  | op :: ops' => op_ok op t /\ match spec_op T op t with (Undef _, _) => True | (_, t1) => ops_ok ops' t1 end
  end.

Definition new_atable : atable := {| at_layouts := replicate (length cols) (0, 0); at_rows := ∅; at_lastTrid := m_lastUserTrid (new_counters (t_firstUserTrid T)) |}.

Section Ops.
Context (Hok : table_ok T sha256 uninitialized).

Lemma insertRow_ok (s : state) t n values tp c : rep s t (S n) -> op_ok (TInsert values c tp) t ->
  follows T uninitialized (fun r => TInserted (m_tableRowId (fst r))) (insertRow T sha256 time uninitialized values tp c s) (spec_op T (TInsert values c tp) t) n.
Proof.
  intros Hrep (Htp & Ht & Hv). assert (Hn : rep s t n) by (apply (rep_le T uninitialized _ _ (S n)); [lia|done]). unfold insertRow. cbn [spec_op]. destruct (_ >=? _); [by exists s|].
  destruct (fill_defaults cols (Some <$> values)) as [vs|e|u]; [|by exists s|done]. by apply (doInsert_ok T sha256 time uninitialized Hok).
Qed.

Lemma insertRow_named_ok (s : state) t n names values tp : rep s t (S n) -> op_ok (TInsertNamed names values tp) t ->
  follows T uninitialized (fun r => TInserted (m_tableRowId (fst r))) (insertRow_named T sha256 time uninitialized names values tp 0 s) (spec_op T (TInsertNamed names values tp) t) n.
Proof.
  intros Hrep (Htp & Ht & Hv). assert (Hn : rep s t n) by (apply (rep_le T uninitialized _ _ (S n)); [lia|done]). unfold insertRow_named. cbn [spec_op].
  destruct (negb _); [by exists s|]. destruct (_ >=? _); [by exists s|]. destruct (order_values _ _ _ _ _) as [ordered [|e errors]]; [|by exists s]. cbn [fst] in Hv.
  destruct (fill_defaults cols ordered) as [vs|e|u]; [|by exists s|done]. by apply (doInsert_ok T sha256 time uninitialized Hok).
Qed.

Lemma op_follows (s : state) t n op : rep s t (S n) -> op_ok op t -> follows T uninitialized (fun r => r) (run_op T sha256 time uninitialized op s) (spec_op T op t) n.
Proof.
  intros Hrep Hop. destruct op as [values c tp|names values tp|trid columns values tp|trid tp|trid]; cbn [run_op].
  - eapply follows_map; [|by apply insertRow_ok]. done.
  - eapply follows_map; [|by apply insertRow_named_ok]. done.
  - destruct Hop as (Htp & Hk & Hu). eapply follows_map; [|by apply (updateRow_ok T sha256 time uninitialized Hok)]. done.
  - destruct Hop as (Htp & Hk). eapply follows_map; [|by apply (deleteRow_ok T sha256 time uninitialized Hok)]. done.
  - eapply follows_map; [|by apply (readRow_ok T sha256 uninitialized Hok); [apply (rep_le T uninitialized _ _ (S n)); [lia|]|]]. done.
Qed.

Lemma ops_follow ops : forall (s : state) t, rep s t (length ops) -> ops_ok ops t -> run_ops T sha256 time uninitialized ops s = spec_ops T ops t.
Proof.
  induction ops as [|op ops IH]; intros s t Hrep Hops; [done|]. destruct Hops as [Hop Hops]. cbn [run_ops spec_ops length] in *. pose proof (op_follows s t (length ops) op Hrep Hop) as Hf.
  unfold follows in Hf. destruct (spec_op T op t) as [[r|e|u] t1]; cbn [fst snd] in Hf.
  - destruct Hf as (a & s' & -> & -> & Hrep'). f_equal. by apply IH.
  - destruct Hf as (s' & -> & Hrep'). f_equal. by apply IH.
  - destruct (run_op _ _ _ _ op s) as [o s']. cbn in Hf. by subst o.
Qed.
End Ops.

(** ** A new table *)

Section New.
Context (caches : list C) (cache : C) (index : I) (n : nat).
Definition cache_new (c : C) : Prop := bc_ok c /\ (forall id, bcached c id = None) /\ (n <= bc_free c)%nat.
Context (Hlen : length caches = length cols) (Hcaches : Forall cache_new caches) (Hcache : cache_new cache) (Hindex : ix_ok index ∅) (Hn : Z.of_nat n < 2 ^ 57).

Lemma new_table_rep : 0 <= m_lastUserTrid (new_counters (t_firstUserTrid T)) < 2 ^ 64 -> rep (new_table T caches cache index) new_atable n.
Proof.
  intros Hlast. exists (replicate (length cols) []), [], ∅. split; try done.
  - cbn. split; [by rewrite length_fmap|]. split; [by rewrite length_replicate|]. split; [by rewrite length_replicate|]. intros i tc cs l ds Hi Hcs Hl Hds.
    apply lookup_replicate in Hl as [-> _]. apply lookup_replicate in Hds as [-> _]. rewrite list_lookup_fmap in Hcs. apply fmap_Some in Hcs as (c & Hc & ->).
    destruct (Forall_lookup_1 _ _ _ _ Hcaches Hc) as (H1 & H2 & H3). split; [|split; [done|split; [done|split; [done|]]]].
    + by apply (new_represents (tc_params tc) COLUMN_DATA_TYPE_INT8 uninitialized).
    + change (len []) with 0. lia.
  - destruct Hcache as (H1 & H2 & H3). split; [|split; [done|split; [done|]]].
    + by apply (new_represents (t_master T) COLUMN_DATA_TYPE_INT8 uninitialized).
    + change (len []) with 0. lia.
Qed.
End New.

(** The state after operations, as far as they are defined. *)
Fixpoint state_after (ops : list TableOp) (s : state) : state :=
  match ops with
  | [] => s
  | op :: ops' => match run_op T sha256 time uninitialized op s with (Undef _, s1) => s1 | (_, s1) => state_after ops' s1 end
  end.
Fixpoint atable_after (ops : list TableOp) (t : atable) : option atable :=
  match ops with
  | [] => Some t
  | op :: ops' => match spec_op T op t with (Undef _, _) => None | (_, t1) => atable_after ops' t1 end
  end.

Section Runs.
Context (caches : list C) (cache : C) (index : I) (ops : list TableOp).
Context (Hok : table_ok T sha256 uninitialized) (Hlast : 0 <= m_lastUserTrid (new_counters (t_firstUserTrid T)) < 2 ^ 64).
Context (Hlen : length caches = length cols) (Hindex : ix_ok index ∅) (Hops : ops_ok ops new_atable).

(** C1: every sequence of inserts (with the values in the order of the columns or
    by name, with missing values taken from the defaults), updates, deletes and
    reads on a new table of fixed-size columns that is not longer than each block
    cache has free places (so that no block is evicted) gives the results of the
    same operations on a map from row numbers to rows, errors included: an existing
    row number, NULL for a NOT NULL column, values that cannot be converted, unknown
    and repeated names.  As in the code, a value that ends exactly at the end of its
    block cannot be read, and an update whose first value is refused has undefined
    behaviour; the map has both.  This holds for every block cache and every main
    index that keep their promises. *)
Theorem table_refines : Forall (cache_new (length ops)) caches -> cache_new (length ops) cache -> Z.of_nat (length ops) < 2 ^ 57 ->
  run_ops T sha256 time uninitialized ops (new_table T caches cache index) = spec_ops T ops new_atable.
Proof. intros H1 H2 H3. apply (ops_follow Hok); [|done]. by apply new_table_rep. Qed.

Lemma state_after_rep more (os : list TableOp) : forall s t t', rep s t (length os + more) -> ops_ok os t -> atable_after os t = Some t' -> rep (state_after os s) t' more.
Proof.
  clear Hops. induction os as [|op os IH]; intros s t t' Hrep Ho Ha; [by injection Ha as <-|]. destruct Ho as [Hop Ho]. cbn [atable_after state_after length Nat.add] in *.
  pose proof (op_follows Hok s t _ op Hrep Hop) as Hf. unfold follows in Hf. destruct (spec_op T op t) as [[r|e|u] t1]; cbn [fst snd] in Hf; [..|done].
  - destruct Hf as (a & s' & -> & _ & Hrep'). by eapply IH.
  - destruct Hf as (s' & -> & Hrep'). by eapply IH.
Qed.

(** An operation that throws does not change the rows. *)
Lemma throw_keeps_rows op t e t' : spec_op T op t = (Throw e, t') -> at_rows t' = at_rows t.
Proof.
  assert (Hi : forall vs k t, at_rows (snd (spec_insert_at T vs k t)) = at_rows t \/ exists r, fst (spec_insert_at T vs k t) = Ok r).
  { intros vs k t0. unfold spec_insert_at. destruct (spec_writes _ _ _) as [ws [[]|?|?]]; [|by left..]. destruct (at_rows t0 !! k); [by left|]. right. by eexists. }
  assert (Hs : forall vs c t e t', spec_insert T vs c t = (Throw e, t') -> at_rows t' = at_rows t).
  { intros vs c t0 e0 t0' H. unfold spec_insert in H. destruct (c =? 0); [specialize (Hi vs (at_lastTrid t0 + 1) {| at_layouts := at_layouts t0; at_rows := at_rows t0; at_lastTrid := at_lastTrid t0 + 1 |})|specialize (Hi vs c t0)];
      rewrite H in Hi; destruct Hi as [Hi|[r Hi]]; done. }
  destruct op as [values c tp|names values tp|trid columns values tp|trid tp|trid]; cbn [spec_op].
  - destruct (_ >=? _); [by intros [= _ <-]|]. destruct (fill_defaults _ _); [apply Hs|by intros [= _ <-]|done].
  - destruct (negb _); [by intros [= _ <-]|]. destruct (_ >=? _); [by intros [= _ <-]|]. destruct (order_values _ _ _ _ _) as [o [|? ?]]; [|by intros [= _ <-]].
    destruct (fill_defaults _ _); [apply Hs|by intros [= _ <-]|done].
  - unfold spec_update. destruct (at_rows t !! trid); [|done]. destruct (negb _); [by intros [= _ <-]|]. destruct (spec_updates _ _ _ _) as [[|w ws] [[]|?|?]]; try done; by intros [= _ <-].
  - unfold spec_delete. destruct (_ >? _); [done|]. by destruct (at_rows t !! trid).
  - by intros [= _ <-].
Qed.

(** C17: an operation that throws an exception on a table that earlier operations
    made leaves every row as it was: a read of any row gives what it gave before,
    and the table goes on representing the same rows.  The block caches have a free
    place for each operation, so that no block is evicted.  An update whose first
    value is refused does not throw in the model: it has undefined behaviour (it
    goes back from the end of an empty list), and nothing is said about it. *)
Theorem failed_operation_atomic op t e k : Forall (cache_new (S (length ops))) caches -> cache_new (S (length ops)) cache -> Z.of_nat (S (length ops)) < 2 ^ 57 ->
  atable_after ops new_atable = Some t -> op_ok op t -> ix_key k ->
  let s := state_after ops (new_table T caches cache index) in
  let '(o, s') := run_op T sha256 time uninitialized op s in
  o = Throw e -> fst (readRow T uninitialized k 3 s') = fst (readRow T uninitialized k 3 s).
Proof.
  intros H1 H2 H3 Ha Hop Hk. cbv zeta. set (s := state_after ops _).
  assert (Hrep : rep s t 1) by (apply (state_after_rep 1 ops _ new_atable); [rewrite Nat.add_1_r; by apply new_table_rep|done|done]).
  pose proof (op_follows Hok s t 0 op Hrep Hop) as Hf. unfold follows in Hf. destruct (run_op _ _ _ _ op s) as [o s'] eqn:Er. intros ->.
  assert (Hreads : forall s t n, rep s t n -> fst (readRow T uninitialized k 3 s) = match spec_readRow T k t with Ok (TRow r) => Ok r | Throw e => Throw e | Undef u => Undef u | _ => Ok [] end).
  { intros s0 t0 n Hr. pose proof (readRow_ok T sha256 uninitialized Hok s0 t0 n k Hr Hk) as H. unfold follows in H. cbn [fst snd] in H. destruct (spec_readRow T k t0) as [r|?|?].
    - destruct H as (a & ? & -> & <- & _). done.
    - by destruct H as (? & -> & _).
    - done. }
  destruct (spec_op T op t) as [[r|e'|u] t'] eqn:Es; cbn [fst snd] in Hf; [by destruct Hf as (? & ? & [=] & _)| |done]. destruct Hf as (? & [= <- <-] & Hrep').
  rewrite (Hreads s' t' 0%nat), (Hreads s t 1%nat) by done. unfold spec_readRow. by rewrite (throw_keeps_rows _ _ _ _ Es).
Qed.
End Runs.
End Correct.

(** ** A concrete table

    A table with the columns A (INT32 NOT NULL) and B (INT64, with a default),
    whose rows are indexed by the linear index. *)

Definition sample_table_column (name : list Z) (type : ColumnDataType) (notNull : bool) (dflt : option Expression) : table_column :=
  {| tc_name := name; tc_params := sample_column 20; tc_dataType := type; tc_notNull := notNull; tc_default := dflt |}.
Definition sample_table : table_params :=
  {| t_columns := [sample_table_column [65] COLUMN_DATA_TYPE_INT32 true None; sample_table_column [66] COLUMN_DATA_TYPE_INT64 false (Some (ConstantExpression (number 77)))];
     t_master := sample_column 400; t_columnSetId := 1; t_firstUserTrid := 1 |}.
Definition sample_tp : TransactionParameters := {| tp_transactionId := 5; tp_timestamp := 1600000000; tp_userId := 1 |}.
Definition sample_table_ops : list TableOp :=
  [TInsert [number 10] 0 sample_tp; TRead 1; TInsert [VNull; number 4] 0 sample_tp; TInsertNamed [[66]; [65]] [number 5; number 6] sample_tp; TRead 3;
   TUpdate 3 [1%nat; 0%nat] [VNull; number 9] sample_tp; TRead 3; TDelete 1 sample_tp; TRead 1; TInsert [number 1; number 2] 3 sample_tp; TRead 3;
   TUpdate 3 [1%nat; 0%nat] [number 1; VNull] sample_tp; TRead 3; TUpdate 3 [0%nat] [VNull] sample_tp].

#[local] Instance sample_index : MainIndex (uli_state (lru_cache (K := Z) (T := nat))) := uli_main_index trid_params.
#[local] Instance sample_index_laws : MainIndexLaws (uli_state (lru_cache (K := Z) (T := nat))) := uli_main_index_laws trid_params trid_params_ok eq_refl eq_refl.

Lemma sample_table_ok : table_ok sample_table sample_hash 99.
Proof.
  assert (H20 : column_ok (sample_column 20) sample_hash 99) by (apply sample_column_ok; lia).
  split; [constructor; [split; [exact H20|done|vm_compute; done]|constructor; [split; [exact H20|done|vm_compute; done]|constructor]]|apply sample_column_ok; lia|unfold len; vm_compute; done|unfold len; vm_compute; done|unfold u_ok; vm_compute; done].
Qed.

Lemma sample_key k : 0 <= k < 100 -> ix_key k.
Proof.
  intros Hk. split; [change (LinearIndexOps.max_key trid_params) with (2 ^ 56 - 1); lia|]. unfold getFileIdForKey. change (m_numberOfRecordsPerFile trid_params) with 163.
  rewrite Z.div_small by lia. vm_compute. discriminate.
Qed.

Lemma sample_index_ok : ix_ok trid_new ∅.
Proof. split; [apply new_ok; apply trid_cache_ok|done]. Qed.

Lemma sample_cache_new n m : (n <= m)%nat -> cache_new n (sample_blocks m).
Proof. intros H. destruct (sample_blocks_ok m) as (H1 & H2 & H3). split; [done|]. split; [done|]. by rewrite H3. Qed.

Ltac variant_ok_tac := vm_compute; try exact I; repeat split; try discriminate; try reflexivity.
Ltac values_ok_tac := split; [reflexivity|]; intros [|[|i]] tc v Hi Hv; try done; injection Hi as <-; injection Hv as <-; variant_ok_tac.
Ltac update_ok_tac := split; [apply (bool_decide_unpack _); vm_compute; exact I|]; split; [repeat constructor|]; intros [|[|k]] i v tc Hk Hv Hi; try done; injection Hk as <-; injection Hv as <-; injection Hi as <-; variant_ok_tac.
Ltac op_ok_tac :=
  repeat match goal with
  | |- tp_ok _ => repeat split; cbn; lia
  | |- trid_ok _ _ => split; [apply sample_key; cbn; lia|unfold u_ok; cbn; lia]
  | |- ix_key _ => apply sample_key; lia
  | |- update_ok _ _ _ => update_ok_tac
  | |- match fill_defaults ?c ?v with _ => _ end => let r := eval vm_compute in (fill_defaults c v) in change (fill_defaults c v) with r; cbv beta iota; values_ok_tac
  | |- op_ok _ _ _ => unfold op_ok
  | |- _ /\ _ => split
  end.
Ltac ops_ok_tac := repeat (first [exact I | split; [op_ok_tac|match goal with |- context [spec_op ?T ?op ?t] => let r := eval vm_compute in (spec_op T op t) in change (spec_op T op t) with r; cbv beta iota end]]).

Lemma sample_ops_ok : ops_ok sample_table sample_table_ops (new_atable sample_table).
Proof. ops_ok_tac. Qed.

Definition sample_new_table : table_state (lru_cache (K := Z) (T := nat)) (uli_state (lru_cache (K := Z) (T := nat))) :=
  new_table sample_table [sample_blocks 20; sample_blocks 20] (sample_blocks 20) trid_new.
Definition i32 (z : Z) : ReadValue := RValue (VNum (CI I32 z)).
Definition i64 (z : Z) : ReadValue := RValue (VNum (CI I64 z)).

Lemma table_refines_witness :
  run_ops sample_table sample_hash sample_time 99 sample_table_ops sample_new_table =
  [Ok (TInserted 1); Ok (TRow [RValue (row_id 1); i32 10; i64 77]); Throw (ColumnFailed CannotInsertNullValue); Ok (TInserted 3); Ok (TRow [RValue (row_id 3); i32 6; i64 5]);
   Ok (TUpdated true); Ok (TRow [RValue (row_id 3); i32 9; RValue VNull]); Ok (TDeleted true); Throw (MasterColumnRecordIndexCorrupted 3); Throw (CannotInsertDuplicateTrid 3);
   Ok (TRow [RValue (row_id 3); i32 9; RValue VNull]); Throw (ColumnFailed CannotInsertNullValue); Ok (TRow [RValue (row_id 3); i32 9; RValue VNull]); Undef OutOfBounds].
Proof.
  unfold sample_new_table. rewrite (table_refines sample_table sample_hash sample_time 99 _ _ _ sample_table_ops sample_table_ok).
  - vm_compute. reflexivity.
  - vm_compute. split; [discriminate|reflexivity].
  - reflexivity.
  - apply sample_index_ok.
  - apply sample_ops_ok.
  - constructor; [|constructor; [|constructor]]; apply sample_cache_new; cbn; lia.
  - apply sample_cache_new. cbn. lia.
  - cbn. lia.
Defined.

Lemma failed_operation_atomic_witness :
  let s := state_after sample_table sample_hash sample_time 99 [TInsert [number 10] 0 sample_tp; TInsert [number 11] 0 sample_tp] sample_new_table in
  let '(o, s') := run_op sample_table sample_hash sample_time 99 (TInsert [number 3; number 4] 2 sample_tp) s in
  o = Throw (CannotInsertDuplicateTrid 2) /\ fst (readRow sample_table 99 1 3 s') = Ok [RValue (row_id 1); i32 10; i64 77].
Proof.
  set (ops := [TInsert [number 10] 0 sample_tp; TInsert [number 11] 0 sample_tp]).
  assert (Hlast : 0 <= m_lastUserTrid (new_counters (t_firstUserTrid sample_table)) < 2 ^ 64) by (vm_compute; split; [discriminate|reflexivity]).
  assert (Hops : ops_ok sample_table ops (new_atable sample_table)) by (unfold ops; ops_ok_tac).
  assert (Hc : cache_new (S (length ops)) (sample_blocks 20)) by (apply sample_cache_new; cbn; lia).
  assert (Hop : forall t, op_ok sample_table (TInsert [number 3; number 4] 2 sample_tp) t) by (intros t; op_ok_tac).
  assert (Hk : ix_key 1) by (apply sample_key; lia).
  pose proof (failed_operation_atomic sample_table sample_hash sample_time 99 [sample_blocks 20; sample_blocks 20] (sample_blocks 20) trid_new
    ops sample_table_ok Hlast eq_refl sample_index_ok Hops (TInsert [number 3; number 4] 2 sample_tp) _ (CannotInsertDuplicateTrid 2) 1
    (Forall_cons_2 _ _ _ Hc (Forall_cons_2 _ _ _ Hc (Forall_nil_2 _))) Hc eq_refl eq_refl) as H.
  specialize (H (Hop _) Hk). cbv zeta in H |- *.
  fold sample_new_table in H. destruct (run_op _ _ _ _ _ _) as [o s'] eqn:E. assert (Ho : o = Throw (CannotInsertDuplicateTrid 2)) by (apply (f_equal fst) in E; cbn [fst] in E; rewrite <- E; vm_compute; reflexivity).
  split; [exact Ho|]. rewrite (H Ho). vm_compute. reflexivity.
Defined.

(** NULL for the first updated column, when the column is NOT NULL, makes the
    rollback read behind the end of an empty list. *)
Example update_not_null_undefined :
  run_ops sample_table sample_hash sample_time 99 [TInsert [number 1; number 2] 0 sample_tp; TUpdate 1 [0%nat] [VNull] sample_tp] sample_new_table =
  [Ok (TInserted 1); Undef OutOfBounds].
Proof. vm_compute. reflexivity. Qed.
