(* ===== verification/FileIO.v ===== *)
(** * Exact file I/O

    Models [preadExact], [pwriteExact] and [posixFileAllocateExact] of FileIO.c on
    top of system calls that may transfer fewer bytes than asked for, be interrupted
    by a signal or fail. *)

From stdpp Require Import base list.
Set Warnings "-clear-no-such-hyp,-notation-incompatible-prefix,-notation-for-abbreviation".
From Stdlib Require Import ZArith Lia.
From S2P Require Import Prelude Bytes.

Local Open Scope Z_scope.

(** What the next calls do: transfer at most [n] bytes (at least one, when there is
    one), transfer all that was asked for, return EINTR, or fail.  Calls behind the
    end of the list transfer what was asked for. *)
Inductive syscall : Type :=
| Transfer (n : Z)
| Complete
| Interrupted
| Failed (errno : Z).

Definition EINTR : Z := 4.
Definition EINVAL : Z := 22.

Record io : Type := { io_file : list Z; io_calls : list syscall; io_errno : Z }.

(** The number of bytes of a transfer of at most [n], when [m] are possible. *)
Definition transferred (n m : Z) : Z := Z.max 1 (Z.min n m).

(** The number of bytes that a read can get. *)
Definition available (file : list Z) (size offset : Z) : Z := Z.max 0 (Z.min size (len file - offset)).

(** The loop goes on while fewer bytes were read than are still to be read: both
    the count and the size that it is compared with change.  So it ends early when
    a call has transferred a part that is not smaller than the rest. *)
Fixpoint pread_loop (calls : list syscall) (file : list Z) (bytesRead size offset : Z) (ignoreSignal : bool) (errno : Z) : list Z * list syscall * Z :=
  if negb (bytesRead <? size) then ([], calls, errno) else
  let m := available file size offset in
  match calls with
  | [] => (sub file offset m, [], if bytesRead + m <? size - m then 0 else errno)
  | Interrupted :: calls' => if ignoreSignal then pread_loop calls' file bytesRead size offset ignoreSignal EINTR else ([], calls', EINTR)
  | Failed e :: calls' => ([], calls', e)
  | Transfer _ as c :: calls' | Complete as c :: calls' =>
      if m =? 0 then ([], calls', 0) else
      let k := match c with Transfer n => transferred n m | _ => m end in
      let '(rest, calls'', errno') := pread_loop calls' file (bytesRead + k) (size - k) (offset + k) ignoreSignal errno in
      (sub file offset k ++ rest, calls'', errno')
  end.

(** The bytes that were read. *)
Definition preadExact (size offset : Z) (ignoreSignal : bool) (s : io) : list Z * io :=
  let '(b, calls, errno) := pread_loop (io_calls s) (io_file s) 0 size offset ignoreSignal (io_errno s) in
  (b, {| io_file := io_file s; io_calls := calls; io_errno := errno |}).

Fixpoint pwrite_loop (calls : list syscall) (file : list Z) (bytesWritten : Z) (buffer : list Z) (offset : Z) (ignoreSignal : bool) (errno : Z) : Z * list Z * list syscall * Z :=
  if negb (bytesWritten <? len buffer) then (0, file, calls, errno) else
  match calls with
  | [] => (len buffer, pwrite file offset buffer, [], errno)
  | Interrupted :: calls' => if ignoreSignal then pwrite_loop calls' file bytesWritten buffer offset ignoreSignal EINTR else (0, file, calls', EINTR)
  | Failed e :: calls' => (0, file, calls', e)
  | Transfer _ as c :: calls' | Complete as c :: calls' =>
      let k := match c with Transfer n => transferred n (len buffer) | _ => len buffer end in
      let '(r, file', calls'', errno') :=
        pwrite_loop calls' (pwrite file offset (take (Z.to_nat k) buffer)) (bytesWritten + k) (drop (Z.to_nat k) buffer) (offset + k) ignoreSignal errno in
      (k + r, file', calls'', errno')
  end.

(** The number of bytes that were written. *)
Definition pwriteExact (buffer : list Z) (offset : Z) (ignoreSignal : bool) (s : io) : Z * io :=
  let '(r, file, calls, errno) := pwrite_loop (io_calls s) (io_file s) 0 buffer offset ignoreSignal (io_errno s) in
  (r, {| io_file := file; io_calls := calls; io_errno := errno |}).

(** [posix_fallocate] returns the error code; it is never negative. *)
Definition posix_fallocate (file : list Z) (offset length : Z) : Z * list Z :=
  if (offset <? 0) || (length <=? 0) then (EINVAL, file)
  else (0, file ++ repeat 0 (Z.to_nat (offset + length - len file))).

Definition posixFileAllocateExact (offset length : Z) (s : io) : Z * io :=
  let '(r, file) := posix_fallocate (io_file s) offset length in
  let errorCode := if r <? 0 then io_errno s else 0 in
  (if errorCode =? 0 then 0 else -1, {| io_file := file; io_calls := io_calls s; io_errno := io_errno s |}).

(** ** What they do *)

(** No call fails, and the parts that are transferred before a call transfers the
    rest have at most [lim] bytes together ([part] is what was transferred since
    the last such call). *)
Fixpoint smooth (lim part : Z) (calls : list syscall) : bool :=
  match calls with
  | [] => true
  | Interrupted :: calls' => smooth lim part calls'
  | Complete :: calls' => smooth lim 0 calls'
  | Transfer n :: calls' => (part + Z.max 1 n <=? lim) && smooth lim (part + Z.max 1 n) calls'
  | Failed _ :: _ => false
  end.

Lemma smooth_mono lim part part' calls : part' <= part -> smooth lim part calls -> smooth lim part' calls.
Proof.
  revert part part'. induction calls as [|[n| | |e] calls IH]; intros part part' Hp; cbn; try done.
  - rewrite !andb_True, !Is_true_true, !Z.leb_le, <- !Is_true_true. intros [H1 H2]. split; [lia|]. apply (IH (part + Z.max 1 n)); [lia|done].
  - by apply IH.
Qed.

Lemma sub_nil l i : sub l i 0 = [].
Proof. done. Qed.

Lemma available_step file size offset k : 0 <= offset -> 0 <= k <= available file size offset -> available file (size - k) (offset + k) = available file size offset - k.
Proof. unfold available. lia. Qed.

(** Nothing is read behind the end of the file. *)
Lemma pread_loop_eof lim calls : forall part file bytesRead size offset errno, smooth lim part calls -> available file size offset = 0 -> 0 <= part ->
  exists calls' errno', pread_loop calls file bytesRead size offset true errno = ([], calls', errno') /\ smooth lim 0 calls'.
Proof.
  induction calls as [|c calls IH]; intros part file bytesRead size offset errno Hs Ha Hp.
  { cbn. rewrite Ha. destruct (negb _); by eexists _, _. }
  cbn [pread_loop]. rewrite Ha. destruct (negb (bytesRead <? size)).
  { eexists _, _. split; [done|]. apply (smooth_mono lim part); [lia|done]. }
  destruct c as [n| | |e]; cbn [Z.eqb]; cbn in Hs; [| |by apply (IH part)|done].
  - apply andb_True in Hs as [_ Hs]. eexists _, _. split; [done|]. apply (smooth_mono lim (part + Z.max 1 n)); [lia|done].
  - by eexists _, _.
Qed.

(** A read that may be interrupted and cut short gets the bytes that there are. *)
Lemma pread_loop_ok lim calls : forall part file bytesRead size offset errno, smooth lim part calls -> 0 <= offset -> 0 <= bytesRead <= part -> part <= lim -> (size <= 0 \/ 2 * lim < size + bytesRead) ->
  exists calls' errno', pread_loop calls file bytesRead size offset true errno = (sub file offset (available file size offset), calls', errno') /\ smooth lim 0 calls'.
Proof.
  induction calls as [|c calls IH]; intros part file bytesRead size offset errno Hs Ho Hb Hp Hsz.
  - cbn. destruct (Z.ltb_spec bytesRead size); cbn [negb]; [by eexists _, _|]. exists [], errno. split; [|done]. unfold available. by rewrite Z.max_l by lia.
  - destruct Hsz as [Hz|Hz].
    { assert (Ha : available file size offset = 0) by (unfold available; lia). rewrite Ha. apply (pread_loop_eof lim (c :: calls) part); [done|done|lia]. }
    set (m := available file size offset). assert (Hm : 0 <= m <= size) by (unfold m, available; lia).
    assert (Hstep : forall k part', 0 <= k <= m -> smooth lim part' calls -> 0 <= part' -> (available file (size - k) (offset + k) = 0 \/ bytesRead + k <= part' <= lim) ->
      exists calls' errno', (let '(rest, calls'', errno') := pread_loop calls file (bytesRead + k) (size - k) (offset + k) true errno in (sub file offset k ++ rest, calls'', errno')) = (sub file offset m, calls', errno') /\ smooth lim 0 calls').
    { intros k part' Hk Hs' Hp' Hc. pose proof (available_step file size offset k Ho Hk) as Hst.
      assert (exists calls' errno', pread_loop calls file (bytesRead + k) (size - k) (offset + k) true errno = (sub file (offset + k) (available file (size - k) (offset + k)), calls', errno') /\ smooth lim 0 calls') as (calls' & errno' & -> & Hn).
      { destruct Hc as [Hc|Hc]; [rewrite Hc; by apply (pread_loop_eof lim calls part')|]. apply (IH part'); [done|lia|lia|lia|]. right. lia. }
      eexists _, _. split; [|exact Hn]. rewrite Hst, <- sub_split by (fold m; lia). do 3 f_equal. fold m. lia. }
    cbn [pread_loop]. rewrite (proj2 (Z.ltb_lt _ _)) by lia. cbn [negb]. fold m. destruct c as [n| | |e]; [| |by apply (IH part); try (right; lia)|done].
    + cbn in Hs. apply andb_True in Hs as [Hn Hs]. apply Is_true_true, Z.leb_le in Hn. destruct (Z.eqb_spec m 0) as [Hm0|Hm0].
      { rewrite Hm0. eexists _, _. split; [done|]. apply smooth_mono with (2 := Hs). lia. }
      apply (Hstep _ (part + Z.max 1 n)); [unfold transferred; lia|done|lia|]. right. unfold transferred. lia.
    + cbn in Hs. destruct (Z.eqb_spec m 0) as [Hm0|Hm0]; [rewrite Hm0; by eexists _, _|]. apply (Hstep m 0); [lia|done|lia|]. left.
      rewrite (available_step file size offset m) by (fold m; lia). fold m. lia.
Qed.

Lemma pwrite_nil file offset : pwrite file offset [] = file.
Proof. done. Qed.

Lemma pwrite_lookup file offset b j : 0 <= offset -> b <> [] ->
  pwrite file offset b !! j = if decide (offset <= Z.of_nat j < offset + len b) then b !! (j - Z.to_nat offset)%nat
    else if decide (Z.of_nat j < len file) then file !! j else if decide (Z.of_nat j < offset) then Some 0 else None.
Proof.
  intros Ho Hb. unfold pwrite. destruct b as [|x b']; [done|]. set (b := x :: b') in *.
  assert (Hp : 0 < len b) by (unfold b; rewrite len_cons; pose proof (len_nonneg b'); lia). pose proof (len_nonneg file) as Hf.
  rewrite overwrite_lookup; [|done|unfold len; rewrite length_app, repeat_length; unfold len; lia]. case_decide as H1; [done|]. case_decide as H2.
  - apply lookup_app_l. unfold len in *. lia.
  - rewrite lookup_app_r by (unfold len in *; lia). case_decide as H3.
    + destruct (lookup_lt_is_Some_2 (repeat 0 (Z.to_nat (offset + len b - len file))) (j - length file)) as [y Hy]; [rewrite repeat_length; unfold len in *; lia|].
      rewrite Hy. apply list_elem_of_lookup_2, list_elem_of_In, repeat_spec in Hy. by subst.
    + apply lookup_ge_None_2. rewrite repeat_length. unfold len in *. lia.
Qed.

(** Two writes one behind the other are one write. *)
Lemma pwrite_app file offset b1 b2 : 0 <= offset -> pwrite (pwrite file offset b1) (offset + len b1) b2 = pwrite file offset (b1 ++ b2).
Proof.
  intros Ho. destruct (decide (b1 = [])) as [->|H1]; [by rewrite Z.add_0_r|]. destruct (decide (b2 = [])) as [->|H2]; [by rewrite app_nil_r|].
  assert (L1 : 0 < len b1) by (destruct b1; [done|]; rewrite len_cons; pose proof (len_nonneg b1); lia).
  assert (L2 : 0 < len b2) by (destruct b2; [done|]; rewrite len_cons; pose proof (len_nonneg b2); lia).
  assert (Hne : b1 ++ b2 <> []) by (by destruct b1).
  assert (Hlen : len (pwrite file offset b1) = Z.max (len file) (offset + len b1)).
  { unfold pwrite. destruct b1 as [|x b1']; [done|]. set (b := x :: b1') in *. rewrite overwrite_len; unfold len in *; rewrite ?length_app, ?repeat_length; lia. }
  apply list_eq. intros j. rewrite !pwrite_lookup, Hlen, len_app by (done || lia). repeat case_decide; try lia; try done.
  - rewrite lookup_app_r by (unfold len in *; lia). f_equal. unfold len in *. lia.
  - by rewrite lookup_app_l by (unfold len in *; lia).
Qed.

(** However the calls end, the file has a prefix of the buffer, of the length that
    is returned. *)
Lemma pwrite_loop_prefix calls : forall file bytesWritten buffer offset errno, 0 <= offset -> 0 <= bytesWritten ->
  exists r calls' errno', pwrite_loop calls file bytesWritten buffer offset true errno = (r, pwrite file offset (take (Z.to_nat r) buffer), calls', errno') /\ 0 <= r <= len buffer.
Proof.
  induction calls as [|c calls IH]; intros file bytesWritten buffer offset errno Ho Hw; cbn [pwrite_loop]; pose proof (len_nonneg buffer) as Hl; destruct (Z.ltb_spec bytesWritten (len buffer)) as [Hz|Hz]; cbn [negb].
  - exists (len buffer), [], errno. rewrite take_ge by (unfold len; lia). split; [done|lia].
  - exists 0, [], errno. split; [done|lia].
  - assert (Hstep : forall k, 0 <= k <= len buffer -> exists r calls' errno',
      (let '(r, file', calls'', errno') := pwrite_loop calls (pwrite file offset (take (Z.to_nat k) buffer)) (bytesWritten + k) (drop (Z.to_nat k) buffer) (offset + k) true errno in (k + r, file', calls'', errno')) =
      (r, pwrite file offset (take (Z.to_nat r) buffer), calls', errno') /\ 0 <= r <= len buffer).
    { intros k Hk. destruct (IH (pwrite file offset (take (Z.to_nat k) buffer)) (bytesWritten + k) (drop (Z.to_nat k) buffer) (offset + k) errno ltac:(lia) ltac:(lia)) as (r & calls' & errno' & -> & Hr).
      assert (Hd : len (drop (Z.to_nat k) buffer) = len buffer - k) by (unfold len in *; rewrite length_drop; lia). rewrite Hd in Hr.
      assert (Ht : len (take (Z.to_nat k) buffer) = k) by (unfold len in *; rewrite length_take; lia). exists (k + r), calls', errno'. split; [|lia].
      pose proof (pwrite_app file offset (take (Z.to_nat k) buffer) (take (Z.to_nat r) (drop (Z.to_nat k) buffer)) Ho) as Ha. rewrite Ht in Ha. rewrite Ha.
      rewrite take_take_drop. do 4 f_equal. f_equal. lia. }
    destruct c as [n| | |e].
    + apply Hstep. unfold transferred. lia.
    + apply Hstep. lia.
    + by apply IH.
    + exists 0, calls, e. split; [done|lia].
  - exists 0, (c :: calls), errno. split; [done|lia].
Qed.

(** Without a failure, and with small parts before the last call, everything is
    written. *)
Lemma pwrite_loop_all lim calls : forall part file bytesWritten buffer offset errno, smooth lim part calls -> 0 <= bytesWritten <= part -> part <= lim -> (buffer = [] \/ 2 * lim < len buffer + bytesWritten) ->
  exists file' calls' errno', pwrite_loop calls file bytesWritten buffer offset true errno = (len buffer, file', calls', errno') /\ smooth lim 0 calls'.
Proof.
  induction calls as [|c calls IH]; intros part file bytesWritten buffer offset errno Hs Hb Hp [->|Hz]; cbn [pwrite_loop].
  - rewrite (proj2 (Z.ltb_ge _ _)) by (change (len []) with 0; lia). by eexists _, _, _.
  - rewrite (proj2 (Z.ltb_lt _ _)) by lia. by eexists _, _, _.
  - rewrite (proj2 (Z.ltb_ge _ _)) by (change (len []) with 0; lia). eexists _, _, _. split; [done|]. apply smooth_mono with (2 := Hs). lia.
  - pose proof (len_nonneg buffer) as Hl. rewrite (proj2 (Z.ltb_lt _ _)) by lia. cbn [negb]. assert (Hd : forall k, 0 <= k <= len buffer -> len (drop (Z.to_nat k) buffer) = len buffer - k) by (intros k Hk; unfold len in *; rewrite length_drop; lia).
    destruct c as [n| | |e]; [| |by apply (IH part); try (right; lia)|done]; cbn in Hs.
    + apply andb_True in Hs as [Hn Hs]. apply Is_true_true, Z.leb_le in Hn. set (k := transferred n (len buffer)). assert (Hk : 0 <= k <= len buffer /\ k <= Z.max 1 n) by (unfold k, transferred; lia).
      destruct (IH (part + Z.max 1 n) (pwrite file offset (take (Z.to_nat k) buffer)) (bytesWritten + k) (drop (Z.to_nat k) buffer) (offset + k) errno) as (file' & calls' & errno' & -> & Hn'); [done|lia|lia|right; rewrite Hd by lia; lia|].
      rewrite Hd by lia. replace (k + (len buffer - k)) with (len buffer) by lia. by eexists _, _, _.
    + destruct (IH 0 (pwrite file offset (take (Z.to_nat (len buffer)) buffer)) 0 [] (offset + len buffer) errno Hs ltac:(lia) ltac:(lia) (or_introl eq_refl)) as (file' & calls' & errno' & Hr & Hn').
      assert (drop (Z.to_nat (len buffer)) buffer = []) as -> by (apply drop_ge; unfold len; lia).
      assert (Hstop : forall b, 0 <= b -> pwrite_loop calls (pwrite file offset (take (Z.to_nat (len buffer)) buffer)) b [] (offset + len buffer) true errno = (0, pwrite file offset (take (Z.to_nat (len buffer)) buffer), calls, errno)).
      { intros b Hb'. destruct calls as [|c calls]; cbn [pwrite_loop]; rewrite (proj2 (Z.ltb_ge _ _)) by (change (len []) with 0; lia); done. }
      rewrite Hstop by lia. rewrite Z.add_0_r. by eexists _, _, _.
Qed.

Lemma pwrite_loop_ok lim calls file buffer offset errno : smooth lim 0 calls -> 0 <= lim -> 0 <= offset -> (buffer = [] \/ 2 * lim < len buffer) ->
  exists calls' errno', pwrite_loop calls file 0 buffer offset true errno = (len buffer, pwrite file offset buffer, calls', errno') /\ smooth lim 0 calls'.
Proof.
  intros Hs Hl Ho Hz. destruct (pwrite_loop_prefix calls file 0 buffer offset errno Ho ltac:(lia)) as (r & calls1 & errno1 & E1 & Hr).
  destruct (pwrite_loop_all lim calls 0 file 0 buffer offset errno Hs) as (file' & calls' & errno' & E2 & Hs'); [lia|lia|destruct Hz; [by left|right; lia]|].
  rewrite E1 in E2. simplify_eq. rewrite E1, take_ge by (unfold len; lia). by eexists _, _.
Qed.

(** A call that transfers 9 of 16 bytes ends the loop: 9 bytes are reported to be
    read or written, and the error number is not set. *)
Example half_read_stops : fst (preadExact 16 0 true {| io_file := repeat 7 16; io_calls := [Transfer 9]; io_errno := 0 |}) = repeat 7 9.
Proof. reflexivity. Qed.
Example half_write_stops : pwriteExact (repeat 7 16) 0 true {| io_file := []; io_calls := [Transfer 9]; io_errno := 0 |} = (9, {| io_file := repeat 7 9; io_calls := []; io_errno := 0 |}).
Proof. reflexivity. Qed.
