(* ===== verification/EncryptedFile.v ===== *)
(** * Files

    Models [File] with its two implementations: [NormalFile], and [EncryptedFile],
    which keeps the size of the file in an encrypted header and encrypts every
    block of the data on its own. *)

From stdpp Require Import base list.
Set Warnings "-clear-no-such-hyp,-notation-incompatible-prefix,-notation-for-abbreviation".
From Stdlib Require Import ZArith Lia.
From S2P Require Import Prelude StateM Bytes PlainBinary FileIO.

Local Open Scope Z_scope.

(** ** The interface *)

Inductive FileError : Type :=
| FileReadError (errorCode actuallyRead : Z)
| FileWriteError (errorCode actuallyWritten : Z)
| SystemError (errorCode : Z)
| InvalidFileSize
| InvalidDataSize.

Definition FM (F A : Type) : Type := SM F FileError A.

(** [read] gives the bytes that were read, [write] the number of bytes written. *)
Class FileOps (F : Type) : Type := {
  f_read : Z -> Z -> FM F (list Z);
  f_write : list Z -> Z -> FM F Z;
  getFileSize : FM F Z;
  f_extend : Z -> FM F bool;
  getLastError : F -> Z
}.

Section File.
Context {F : Type} {FO : FileOps F}.

Definition readChecked (size offset : Z) : FM F (list Z) :=
  b <-- f_read size offset ;;
  if negb (len b =? size) then (e <-- gets getLastError ;; mthrow (FileReadError e (len b))) else mret b.

Definition writeChecked (buffer : list Z) (offset : Z) : FM F unit :=
  n <-- f_write buffer offset ;;
  if negb (n =? len buffer) then (e <-- gets getLastError ;; mthrow (FileWriteError e n)) else mret tt.
End File.

(** A system call of a file with descriptor and last error. *)
Definition fd_call {F A} (get : F -> io) (set : io -> F -> F) (c : io -> A * io) : FM F A := fun s =>
  let '(a, i) := c (get s) in (Ok a, set i s).

(** ** Normal files *)

Record NormalFile : Type := { nf_fd : io; nf_lastError : Z }.

Definition nf_call {A} (c : io -> A * io) : FM NormalFile A := fd_call nf_fd (fun i s => {| nf_fd := i; nf_lastError := nf_lastError s |}) c.
Definition nf_fail : FM NormalFile unit := modify (fun s => {| nf_fd := nf_fd s; nf_lastError := io_errno (nf_fd s) |}).

Definition nf_read (size offset : Z) : FM NormalFile (list Z) :=
  res <-- nf_call (preadExact size offset true) ;;
  (if negb (len res =? size) then nf_fail else mret tt) ;;'
  mret res.

Definition nf_write (buffer : list Z) (offset : Z) : FM NormalFile Z :=
  res <-- nf_call (pwriteExact buffer offset true) ;;
  (if negb (res =? len buffer) then nf_fail else mret tt) ;;'
  mret res.

Definition nf_extend (length : Z) : FM NormalFile bool :=
  size <-- gets (fun s => len (io_file (nf_fd s))) ;;
  r <-- nf_call (posixFileAllocateExact size length) ;;
  if r =? 0 then mret true else nf_fail ;;' mret false.

#[export] Instance NormalFile_ops : FileOps NormalFile := {
  f_read := nf_read;
  f_write := nf_write;
  getFileSize := gets (fun s => len (io_file (nf_fd s)));
  f_extend := nf_extend;
  getLastError := nf_lastError
}.

(** ** Alignment

    The width is that of the type of the factor. *)

Definition alignUp (w value alignmentFactor : Z) : Z := Z.land (value + (alignmentFactor - 1)) (uw w (- alignmentFactor)).
Definition alignDown (w value alignmentFactor : Z) : Z := Z.land value (uw w (Z.lnot (alignmentFactor - 1))).

(** ** Ciphers *)

(** One block of a cipher with a key; the functions come from the cryptographic
    library. *)
Record cipher : Type := { c_blockSize : Z; c_encrypt : list Z -> list Z; c_decrypt : list Z -> list Z }.

(** [transform] of a cipher context: every block on its own. *)
Fixpoint transform (B : Z) (f : list Z -> list Z) (blockCount : nat) (data : list Z) : list Z :=
  match blockCount with
  | O => []
  | S n => f (take (Z.to_nat B) data) ++ transform B f n (drop (Z.to_nat B) data)
  end.

(** ** Encrypted files *)

Definition kHeaderPlaintextSize : Z := 8.
Definition kDataBufferSize : Z := 8192.

Record EncryptedFile : Type := { ef_fd : io; m_plaintextSize : Z; m_headerBuffer : list Z; ef_lastError : Z }.

Section Encrypted.
Context (K : cipher).
Notation B := (c_blockSize K).
Notation EM := (FM EncryptedFile).

Definition m_dataBufferUsefulSize : Z := kDataBufferSize / B * B.
Definition headerSize : Z := alignUp 64 kHeaderPlaintextSize B.

Definition encrypt_blocks (data : list Z) (size : Z) : list Z := transform B (c_encrypt K) (Z.to_nat (size / B)) data.
Definition decrypt_blocks (data : list Z) (size : Z) : list Z := transform B (c_decrypt K) (Z.to_nat (size / B)) data.

Definition ef_call {A} (c : io -> A * io) : EM A :=
  fd_call ef_fd (fun i s => {| ef_fd := i; m_plaintextSize := m_plaintextSize s; m_headerBuffer := m_headerBuffer s; ef_lastError := ef_lastError s |}) c.
Definition ef_error (e : Z) : EM unit := modify (fun s =>
  {| ef_fd := ef_fd s; m_plaintextSize := m_plaintextSize s; m_headerBuffer := m_headerBuffer s; ef_lastError := e |}).
Definition ef_fail : EM unit := e <-- gets (fun s => io_errno (ef_fd s)) ;; ef_error e.
Definition set_plaintextSize (n : Z) : EM unit := modify (fun s =>
  {| ef_fd := ef_fd s; m_plaintextSize := n; m_headerBuffer := m_headerBuffer s; ef_lastError := ef_lastError s |}).
Definition set_headerBuffer (b : list Z) : EM unit := modify (fun s =>
  {| ef_fd := ef_fd s; m_plaintextSize := m_plaintextSize s; m_headerBuffer := b; ef_lastError := ef_lastError s |}).

Definition getEofOffset (s : EncryptedFile) : Z := alignUp 64 (m_plaintextSize s) B + len (m_headerBuffer s).

(** The header is encrypted in its buffer, which keeps the old ciphertext behind
    the size. *)
Definition writeHeader : EM bool :=
  size <-- gets m_plaintextSize ;;
  old <-- gets m_headerBuffer ;;
  let buffer := overwrite old 0 (pbeEncodeInt64 size) in
  let buffer := encrypt_blocks buffer (len buffer) in
  set_headerBuffer buffer ;;'
  n <-- ef_call (pwriteExact buffer 0 true) ;;
  if n =? len buffer then mret true else ef_fail ;;' mret false.

(** The last part of a read: the beginning of a block. *)
Definition read_tail (size offset : Z) (done : list Z) : EM (list Z) :=
  if size >? 0 then
    b <-- ef_call (preadExact B offset true) ;;
    if negb (len b =? B) then (ef_fail ;;' mret done) else
    mret (done ++ take (Z.to_nat size) (decrypt_blocks b B))
  else mret done.

(** Whole blocks. *)
Definition read_blocks (size offset : Z) (done : list Z) : EM (list Z) :=
  let alignedDownSize := alignDown 64 size B in
  if alignedDownSize >? 0 then
    b <-- ef_call (preadExact alignedDownSize offset true) ;;
    if negb (len b =? alignedDownSize) then
      (ef_fail ;;'
       let decryptedBytes := alignDown 64 (len b) B in
       mret (done ++ (if decryptedBytes >? 0 then decrypt_blocks b decryptedBytes else [])))
    else
    read_tail (size - alignedDownSize) (offset + alignedDownSize) (done ++ decrypt_blocks b alignedDownSize)
  else read_tail size offset done.

Definition readInternal (size offset : Z) : EM (list Z) :=
  let alignedDownOffset := alignDown 64 offset B in
  let offsetDiff := offset - alignedDownOffset in
  if offsetDiff >? 0 then
    b <-- ef_call (preadExact B alignedDownOffset true) ;;
    if negb (len b =? B) then (ef_fail ;;' mret []) else
    let partialBytes := Z.min (B - offsetDiff) size in
    let part := sub (decrypt_blocks b B) offsetDiff partialBytes in
    if size =? partialBytes then mret part else
    read_blocks (size - partialBytes) (offset + partialBytes) part
  else read_blocks size offset [].

Definition updateBlock (buffer : list Z) (offset : Z) : EM bool :=
  let blockOffset := alignDown 64 offset B in
  b <-- ef_call (preadExact B blockOffset true) ;;
  if negb (len b =? B) then (ef_fail ;;' mret false) else
  let data := encrypt_blocks (overwrite (decrypt_blocks b B) (offset - blockOffset) buffer) B in
  n <-- ef_call (pwriteExact data blockOffset true) ;;
  if negb (n =? B) then (ef_fail ;;' mret false) else mret true.

Definition writeBlock (buffer : list Z) (offset : Z) : EM bool :=
  let leadingGapSize := offset - alignDown 64 offset B in
  let endOfData := leadingGapSize + len buffer in
  let data := encrypt_blocks (repeat 0 (Z.to_nat leadingGapSize) ++ buffer ++ repeat 0 (Z.to_nat (B - endOfData))) B in
  let blockOffset := alignUp 64 offset B in
  n <-- ef_call (pwriteExact data blockOffset true) ;;
  if negb (n =? B) then (ef_fail ;;' mret false) else mret true.

(** The last part of a write: the beginning of a block. *)
Definition write_tail (buffer : list Z) (offset total : Z) : EM Z :=
  if len buffer >? 0 then
    eofOffset <-- gets getEofOffset ;;
    let append := offset =? eofOffset in
    result <-- (if append then writeBlock buffer eofOffset else updateBlock buffer offset) ;;
    if result then
      if append then
        size <-- gets m_plaintextSize ;;
        set_plaintextSize (size + len buffer) ;;'
        ok <-- writeHeader ;;
        mret (if ok then total + len buffer else total)
      else mret (total + len buffer)
    else mret total
  else mret total.

(** Whole blocks, as many at a time as the data buffer holds.  The fuel is the
    number of blocks. *)
Fixpoint write_blocks (fuel : nat) (buffer : list Z) (alignedDownSize offset total : Z) : EM Z :=
  if alignedDownSize >? 0 then
    match fuel with
    | O => mlift (Undef NoProgress)
    | S fuel' =>
        let bytesToWrite := Z.min m_dataBufferUsefulSize alignedDownSize in
        n <-- ef_call (pwriteExact (encrypt_blocks buffer bytesToWrite) offset true) ;;
        let bytesWritten := alignDown 64 n B in
        let errorOccurred := negb (bytesWritten =? bytesToWrite) in
        (if errorOccurred then ef_fail else mret tt) ;;'
        let total := total + bytesWritten in
        header <-- gets m_headerBuffer ;;
        size <-- gets m_plaintextSize ;;
        let n := offset + bytesWritten - len header in
        ok <-- (if size <? n then set_plaintextSize n ;;' writeHeader else mret true) ;;
        if negb ok then mret total else
        if errorOccurred then mret total else
        write_blocks fuel' (drop (Z.to_nat bytesToWrite) buffer) (alignedDownSize - bytesToWrite) (offset + bytesToWrite) total
    end
  else write_tail buffer offset total.

Definition write_rest (buffer : list Z) (offset total : Z) : EM Z :=
  let alignedDownSize := alignDown 64 (len buffer) B in
  write_blocks (Z.to_nat (alignedDownSize / B)) buffer alignedDownSize offset total.

Definition writeInternal (buffer : list Z) (offset : Z) : EM Z :=
  let alignedDownOffset := alignDown 64 offset B in
  let offsetDiff := offset - alignedDownOffset in
  if offsetDiff >? 0 then
    let bytesToUpdate := Z.min (B - offsetDiff) (len buffer) in
    let part := take (Z.to_nat bytesToUpdate) buffer in
    eofOffset <-- gets getEofOffset ;;
    let needToAddBlock := offset >=? eofOffset in
    result <-- (if needToAddBlock then writeBlock part offset else updateBlock part offset) ;;
    if negb result then mret 0 else
    header <-- gets m_headerBuffer ;;
    size <-- gets m_plaintextSize ;;
    let n := offset + bytesToUpdate - len header in
    ok <-- (if needToAddBlock || (n >? size) then set_plaintextSize n ;;' writeHeader else mret true) ;;
    if negb ok then mret 0 else
    write_rest (drop (Z.to_nat bytesToUpdate) buffer) (offset + bytesToUpdate) bytesToUpdate
  else write_rest buffer offset 0.

Definition ef_read (size offset : Z) : EM (list Z) :=
  if offset <? 0 then ef_error EINVAL ;;' mret [] else
  header <-- gets m_headerBuffer ;;
  readInternal size (offset + len header).

Definition ef_write (buffer : list Z) (offset : Z) : EM Z :=
  if offset <? 0 then ef_error EINVAL ;;' mret 0 else
  header <-- gets m_headerBuffer ;;
  writeInternal buffer (offset + len header).

Definition ef_extend (length : Z) : EM bool :=
  if length <? 0 then ef_error EINVAL ;;' mret false else
  size <-- gets m_plaintextSize ;;
  let remainingPlaintextSize := size - alignDown 64 size B in
  if length <=? remainingPlaintextSize then set_plaintextSize (size + length) ;;' writeHeader else
  r <-- ef_call (posixFileAllocateExact (alignUp 64 size B) (length - remainingPlaintextSize)) ;;
  if r =? 0 then set_plaintextSize (size + length) ;;' writeHeader else
  ef_fail ;;' mret false.

Definition readHeader : EM bool :=
  v <-- readInternal 8 0 ;;
  if len v =? 8 then
    size <-- mlift (pbeDecodeInt64 v) ;;
    set_plaintextSize size ;;' mret true
  else mret false.

#[export] Instance EncryptedFile_ops : FileOps EncryptedFile := {
  f_read := ef_read;
  f_write := ef_write;
  getFileSize := gets m_plaintextSize;
  f_extend := ef_extend;
  getLastError := ef_lastError
}.

(** The constructor for a new file.  The block size is a 32-bit number there, and
    the header buffer is not initialized. *)
Definition create_file (memory : list Z) (calls : list syscall) (initialSize : Z) : outcome FileError EncryptedFile :=
  let size := alignUp 32 (initialSize + alignUp 32 kHeaderPlaintextSize B) B in
  let i := {| io_file := []; io_calls := calls; io_errno := 0 |} in
  let '(r, i) := if size >? 0 then posixFileAllocateExact 0 size i else (0, i) in
  if negb (r =? 0) then Throw (SystemError (io_errno i)) else
  let s := {| ef_fd := i; m_plaintextSize := initialSize; m_headerBuffer := take (Z.to_nat headerSize) memory; ef_lastError := 0 |} in
  let '(o, s) := writeHeader s in
  match o with
  | Ok true => Ok s
  | Ok false => Throw (SystemError (ef_lastError s))
  | Throw e => Throw e
  | Undef u => Undef u
  end.

(** The constructor for an existing file. *)
Definition open_file (memory : list Z) (calls : list syscall) (file : list Z) : outcome FileError EncryptedFile :=
  if negb (len file mod B =? 0) then Throw InvalidFileSize else
  let s := {| ef_fd := {| io_file := file; io_calls := calls; io_errno := 0 |}; m_plaintextSize := 0; m_headerBuffer := take (Z.to_nat headerSize) memory; ef_lastError := 0 |} in
  let '(o, s) := readHeader s in
  match o with
  | Ok true =>
      let expectedFileSize := alignUp 64 (m_plaintextSize s) B + len (m_headerBuffer s) in
      if negb (expectedFileSize =? len file) then Throw InvalidDataSize else Ok s
  | Ok false => Throw (SystemError (ef_lastError s))
  | Throw e => Throw e
  | Undef u => Undef u
  end.
End Encrypted.

(** ** Ciphers of the tests *)

Definition xor_cipher (B key : Z) : cipher := {| c_blockSize := B; c_encrypt := map (Z.lxor key); c_decrypt := map (Z.lxor key) |}.
