(* ===== verification/EncryptedFileSpec.v ===== *)
(** * What an encrypted file promises

    An encrypted file is a plain file: reads give what was written, whatever the
    cipher, and the size and the data are found again when the file is opened. *)

From stdpp Require Import base list.
Set Warnings "-clear-no-such-hyp,-notation-incompatible-prefix,-notation-for-abbreviation".
From Stdlib Require Import ZArith Lia.
From S2P Require Import Prelude StateM Bytes PlainBinary FileIO EncryptedFile.

Local Open Scope Z_scope.

(** ** Blocks *)

(** A block cipher is a permutation of the blocks.  What it does to anything that
    is not a block of bytes does not matter; it can be taken to be a permutation
    there too. *)
Record cipher_ok (K : cipher) : Prop := {
  ck_size : exists k, c_blockSize K = 2 ^ k /\ 3 <= k <= 13;
  ck_enc : forall b, len b = c_blockSize K -> len (c_encrypt K b) = c_blockSize K;
  ck_dec : forall b, len b = c_blockSize K -> len (c_decrypt K b) = c_blockSize K;
  ck_dec_enc : forall b, len b = c_blockSize K -> c_decrypt K (c_encrypt K b) = b;
  ck_enc_dec : forall b, len b = c_blockSize K -> c_encrypt K (c_decrypt K b) = b
}.

(** A write without a gap. *)
Lemma pwrite_split l o b : 0 <= o <= len l -> pwrite l o b = take (Z.to_nat o) l ++ b ++ drop (Z.to_nat (o + len b)) l.
Proof.
  intros Ho. destruct b as [|x b]; [cbn; rewrite Z.add_0_r; by rewrite take_drop|]. unfold pwrite, overwrite. set (c := x :: b). pose proof (len_nonneg c).
  assert (Hl : length l = Z.to_nat (len l)) by (unfold len; lia). rewrite take_app_le by lia. do 2 f_equal. rewrite drop_app. rewrite (drop_ge (repeat _ _)) by (rewrite repeat_length; lia). by rewrite app_nil_r.
Qed.

Section Blocks.
Context (K : cipher) (HK : cipher_ok K).
Notation B := (c_blockSize K).

Lemma B_range : 8 <= B <= 8192.
Proof.
  destruct (ck_size K HK) as (k & -> & Hk). split; [apply (Z.pow_le_mono_r 2 3 k); lia|apply (Z.pow_le_mono_r 2 k 13); lia].
Qed.

Lemma alignDown_gen w v : 0 <= w -> 0 <= v < 2 ^ w -> alignDown w v B = B * (v / B).
Proof.
  intros Hw Hv. destruct (ck_size K HK) as (k & -> & Hk). unfold alignDown. rewrite <- Z.shiftr_div_pow2 by lia. rewrite (Z.mul_comm (2 ^ k)), <- Z.shiftl_mul_pow2 by lia.
  apply Z.bits_inj'. intros i Hi. rewrite Z.land_spec, Z.shiftl_spec by lia. unfold uw. rewrite Z.testbit_mod_pow2 by lia.
  rewrite Z.lnot_spec by lia. assert (Hones : Z.testbit (2 ^ k - 1) i = (i <? k)) by (replace (2 ^ k - 1) with (Z.ones k) by (rewrite Z.ones_equiv; lia); rewrite Z.testbit_ones_nonneg by lia; done). rewrite Hones.
  destruct (Z.ltb_spec i k) as [H1|H1].
  - rewrite andb_false_r, andb_false_r. by rewrite Z.testbit_neg_r by lia.
  - rewrite andb_true_r. rewrite Z.shiftr_spec by lia. replace (i - k + k) with i by lia. destruct (Z.ltb_spec i w); [by rewrite andb_true_r|].
    rewrite andb_false_r. symmetry. destruct (Z.eq_dec v 0) as [->|Hv0]; [by rewrite Z.testbit_0_l|]. apply Z.bits_above_log2; [lia|].
    apply Z.log2_lt_pow2; [lia|]. apply (Z.lt_le_trans _ (2 ^ w)); [lia|]. apply Z.pow_le_mono_r; lia.
Qed.

Lemma alignDown_eq v : 0 <= v < 2 ^ 63 -> alignDown 64 v B = B * (v / B).
Proof. intros Hv. apply alignDown_gen; lia. Qed.

(** The end of the block of the last of [v] bytes. *)
Definition up (v : Z) : Z := B * ((v + B - 1) / B).

Lemma alignUp_gen w v : 0 <= w -> 0 <= v -> v + B <= 2 ^ w -> alignUp w v B = up v.
Proof.
  intros Hw Hv Hl. pose proof B_range. unfold up. rewrite <- (alignDown_gen w) by lia. unfold alignUp, alignDown. f_equal; [lia|]. f_equal. unfold Z.lnot. lia.
Qed.

Lemma alignUp_eq v : 0 <= v < 2 ^ 62 -> alignUp 64 v B = up v.
Proof.
  intros Hv. pose proof B_range. apply alignUp_gen; lia.
Qed.

Lemma up_spec v : 0 <= v -> v <= up v < v + B /\ (B | up v).
Proof.
  intros Hv. pose proof B_range. unfold up. split; [|apply Z.divide_factor_l]. pose proof (Z.div_mod (v + B - 1) B ltac:(lia)). pose proof (Z.mod_pos_bound (v + B - 1) B ltac:(lia)). lia.
Qed.

Lemma up_unique v w : v <= w < v + B -> (B | w) -> w = up v.
Proof.
  intros Hw [q ->]. pose proof B_range. unfold up. rewrite Z.mul_comm. f_equal. apply Z.div_unique with (v + B - 1 - q * B); [left; lia|lia].
Qed.

Lemma headerSize_eq : headerSize K = B.
Proof. unfold headerSize. rewrite alignUp_eq by (unfold kHeaderPlaintextSize; lia). symmetry. pose proof B_range. apply up_unique; [unfold kHeaderPlaintextSize; lia|exists 1; lia]. Qed.

(** *** Whole blocks *)

Section Transform.
Context (f : list Z -> list Z) (Hf : forall b, len b = B -> len (f b) = B).
Notation tr := (transform B f).

Lemma transform_len n l : B * Z.of_nat n <= len l -> len (tr n l) = B * Z.of_nat n.
Proof.
  pose proof B_range. revert l. induction n as [|n IH]; intros l Hl; [cbn; unfold len; cbn; lia|]. cbn [transform]. rewrite len_app, Hf, IH.
  - lia.
  - unfold len in *. rewrite length_drop. lia.
  - unfold len in *. rewrite length_take. lia.
Qed.

Lemma transform_take n l r : B * Z.of_nat n <= len l -> tr n (l ++ r) = tr n l.
Proof.
  pose proof B_range. revert l. induction n as [|n IH]; intros l Hl; [done|]. cbn [transform]. assert (Hll : (Z.to_nat B <= length l)%nat) by (unfold len in Hl; lia).
  rewrite take_app_le by done. rewrite drop_app_le by done. rewrite IH; [done|]. unfold len in *. rewrite length_drop. lia.
Qed.

Lemma transform_app n m l1 l2 : len l1 = B * Z.of_nat n -> tr (n + m) (l1 ++ l2) = tr n l1 ++ tr m l2.
Proof.
  pose proof B_range. revert l1. induction n as [|n IH]; intros l1 Hl.
  - assert (l1 = []) as -> by (destruct l1; [done|]; rewrite len_cons in Hl; pose proof (len_nonneg l1); lia). done.
  - cbn [transform Nat.add]. assert (Hll : (Z.to_nat B <= length l1)%nat) by (unfold len in Hl; lia). rewrite take_app_le, drop_app_le by done.
    rewrite IH by (unfold len in *; rewrite length_drop; lia). by rewrite app_assoc.
Qed.

Lemma transform_inverse g n d : (forall b, len b = B -> g (f b) = b) -> len d = B * Z.of_nat n -> transform B g n (tr n d) = d.
Proof.
  intros Hg. pose proof B_range. revert d. induction n as [|n IH]; intros d Hn; cbn [transform].
  - destruct d; [done|]. rewrite len_cons in Hn. pose proof (len_nonneg d). lia.
  - assert (Ht : len (take (Z.to_nat B) d) = B) by (unfold len in *; rewrite length_take; lia).
    pose proof (Hf _ Ht) as He. assert (Hel : length (f (take (Z.to_nat B) d)) = Z.to_nat B) by (unfold len in He; lia).
    rewrite take_app_length' by done. rewrite drop_app_length' by done. rewrite Hg by done. rewrite IH by (unfold len in *; rewrite length_drop; lia). apply take_drop.
Qed.
End Transform.

(** The encryption of whole blocks. *)
Definition E (d : list Z) : list Z := encrypt_blocks K d (len d).

Lemma blocks_count n : (B | n) -> 0 <= n -> n = B * Z.of_nat (Z.to_nat (n / B)).
Proof. intros [q ->] Hn. pose proof B_range. rewrite Z.div_mul by lia. rewrite Z2Nat.id by nia. lia. Qed.

Lemma E_len d : (B | len d) -> len (E d) = len d.
Proof.
  intros Hd. pose proof (blocks_count _ Hd (len_nonneg d)) as Hn. unfold E, encrypt_blocks. by rewrite (transform_len _ (ck_enc K HK)), <- Hn by (rewrite <- Hn; lia).
Qed.

Lemma E_app d1 d2 : (B | len d1) -> (B | len d2) -> E (d1 ++ d2) = E d1 ++ E d2.
Proof.
  intros H1 H2. pose proof B_range. pose proof (blocks_count _ H1 (len_nonneg d1)) as Hn. unfold E, encrypt_blocks. rewrite <- (transform_app (c_encrypt K)) by done. f_equal.
  rewrite len_app. pose proof (len_nonneg d1). pose proof (len_nonneg d2). destruct H1 as [q Hq], H2 as [r Hr]. rewrite Hq, Hr in *. replace (q * B + r * B) with ((q + r) * B) by lia.
  rewrite !Z.div_mul by lia. apply Z2Nat.inj_add; nia.
Qed.

Lemma decrypt_E d : (B | len d) -> decrypt_blocks K (E d) (len d) = d.
Proof. intros Hd. apply (transform_inverse _ (ck_enc K HK)); [apply HK|]. by apply blocks_count, len_nonneg. Qed.

Lemma encrypt_decrypt d : (B | len d) -> E (decrypt_blocks K d (len d)) = d /\ len (decrypt_blocks K d (len d)) = len d.
Proof.
  intros Hd. pose proof (blocks_count _ Hd (len_nonneg d)) as Hn. assert (Hl : len (decrypt_blocks K d (len d)) = len d).
  { unfold decrypt_blocks. rewrite (transform_len _ (ck_dec K HK)) by lia. lia. }
  split; [|done]. unfold E. rewrite Hl. by apply (transform_inverse _ (ck_dec K HK)); [apply HK|].
Qed.

(** Only the blocks count. *)
Lemma encrypt_prefix d n : (B | n) -> 0 <= n <= len d -> encrypt_blocks K d n = E (take (Z.to_nat n) d).
Proof.
  intros Hd Hn. assert (Hl : len (take (Z.to_nat n) d) = n) by (unfold len in *; rewrite length_take; lia). unfold E. rewrite Hl. unfold encrypt_blocks.
  rewrite <- (take_drop (Z.to_nat n) d) at 1. apply (transform_take (c_encrypt K)). pose proof (blocks_count _ Hd (proj1 Hn)). lia.
Qed.

Lemma E_take d o : (B | len d) -> (B | o) -> 0 <= o <= len d -> take (Z.to_nat o) (E d) = E (take (Z.to_nat o) d).
Proof.
  intros Hd Ho Hr. assert (Hl : len (take (Z.to_nat o) d) = o) by (unfold len in *; rewrite length_take; lia).
  assert (Hl' : len (drop (Z.to_nat o) d) = len d - o) by (unfold len in *; rewrite length_drop; lia). rewrite <- (take_drop (Z.to_nat o) d) at 1.
  rewrite E_app by (rewrite ?Hl, ?Hl'; try done; by apply Z.divide_sub_r). apply take_app_length'. assert (len (E (take (Z.to_nat o) d)) = o) by (rewrite E_len; rewrite Hl; done). unfold len in *. lia.
Qed.

Lemma E_drop d o : (B | len d) -> (B | o) -> 0 <= o -> drop (Z.to_nat o) (E d) = E (drop (Z.to_nat o) d).
Proof.
  intros Hd Ho Hr. destruct (Z.leb_spec o (len d)) as [Hle|Hgt].
  - assert (Hl : len (take (Z.to_nat o) d) = o) by (unfold len in *; rewrite length_take; lia). assert (Hl' : len (drop (Z.to_nat o) d) = len d - o) by (unfold len in *; rewrite length_drop; lia).
    rewrite <- (take_drop (Z.to_nat o) d) at 1. rewrite E_app by (rewrite ?Hl, ?Hl'; try done; by apply Z.divide_sub_r). apply drop_app_length'.
    assert (len (E (take (Z.to_nat o) d)) = o) by (rewrite E_len; rewrite Hl; done). unfold len in *. lia.
  - pose proof (E_len d Hd) as HE. rewrite !drop_ge by (unfold len in *; lia). done.
Qed.

Lemma divide_take (d : list Z) o : (B | o) -> 0 <= o <= len d -> (B | len (take (Z.to_nat o) d)).
Proof. intros Ho Hr. replace (len (take (Z.to_nat o) d)) with o; [done|]. unfold len in *. rewrite length_take. lia. Qed.
Lemma divide_drop (d : list Z) o : (B | len d) -> (B | o) -> 0 <= o -> (B | len (drop (Z.to_nat o) d)).
Proof.
  intros Hd Ho Hr. destruct (Z.leb_spec o (len d)) as [Hle|Hgt]; [|rewrite drop_ge by (unfold len in *; lia); apply Z.divide_0_r].
  replace (len (drop (Z.to_nat o) d)) with (len d - o) by (unfold len in *; rewrite length_drop; lia). by apply Z.divide_sub_r.
Qed.

(** The area of the data behind the header. *)
Section Area.
Context (h : list Z) (Hh : len h = B).

Lemma drop_header (l : list Z) o : 0 <= o -> drop (Z.to_nat (B + o)) (h ++ l) = drop (Z.to_nat o) l.
Proof. intros Ho. pose proof B_range. rewrite drop_app. rewrite (drop_ge h) by (unfold len in *; lia). cbn. f_equal. unfold len in *. lia. Qed.

Lemma area_read d o m : (B | len d) -> (B | o) -> (B | m) -> 0 <= o -> 0 <= m -> o + m <= len d -> sub (h ++ E d) (B + o) m = E (sub d o m).
Proof.
  intros Hd Ho Hm Ho' Hm' Hl. unfold sub. rewrite drop_header, E_drop by done. apply E_take; [by apply divide_drop|done|]. unfold len in *. rewrite length_drop. lia.
Qed.

Lemma area_write d o x : (B | len d) -> (B | o) -> (B | len x) -> 0 <= o <= len d -> pwrite (h ++ E d) (B + o) (E x) = h ++ E (pwrite d o x).
Proof.
  intros Hd Ho Hx Hr. pose proof B_range. pose proof (E_len d Hd). rewrite (pwrite_split d o x Hr). rewrite pwrite_split by (rewrite len_app; lia). rewrite E_len by done.
  rewrite E_app, E_app; [|done| |by apply divide_take|].
  - rewrite take_app_ge by (unfold len in *; lia). rewrite <- app_assoc. f_equal. rewrite <- E_take by done. f_equal; [f_equal; unfold len in *; lia|]. f_equal.
    replace (B + o + len x) with (B + (o + len x)) by lia. pose proof (len_nonneg x). rewrite drop_header by lia. apply E_drop; [done|by apply Z.divide_add_r|lia].
  - pose proof (len_nonneg x). apply divide_drop; [done|by apply Z.divide_add_r|lia].
  - rewrite len_app. apply Z.divide_add_r; [done|]. pose proof (len_nonneg x). apply divide_drop; [done|by apply Z.divide_add_r|lia].
Qed.
End Area.
End Blocks.

(** ** The operations *)

Section Ops.
Context (K : cipher) (HK : cipher_ok K).
Notation B := (c_blockSize K).
Notation E := (E K).
Notation state := EncryptedFile.
Notation never := (fun (_ : FileError) (_ : EncryptedFile) => False).

(** The calls do not fail, and what a transfer gets before its last call is less
    than half of a block (the loops of FileIO.c stop at the half). *)
Definition small_parts (calls : list syscall) : Prop := smooth ((B - 1) / 2) 0 calls.

Lemma small_parts_limit m : (B | m) -> m <= 0 \/ 2 * ((B - 1) / 2) < m.
Proof.
  intros [q ->]. pose proof (B_range K HK). pose proof (Z.mul_div_le (B - 1) 2 ltac:(lia)). destruct (Z.leb_spec q 0); [left; nia|right; nia].
Qed.

Lemma half_block_nonneg : 0 <= (B - 1) / 2.
Proof. pose proof (B_range K HK). apply Z.div_pos; lia. Qed.

(** The file has the header [h] and the data [d]; the size is [n]. *)
Record holds (s : state) (h d : list Z) (n : Z) : Prop := {
  ho_file : io_file (ef_fd s) = h ++ E d;
  ho_header : len h = B;
  ho_blocks : (B | len d);
  ho_small : len d < 2 ^ 60;
  ho_size : m_plaintextSize s = n;
  ho_range : 0 <= n < 2 ^ 60;
  ho_buffer : len (m_headerBuffer s) = B;
  ho_calls : small_parts (io_calls (ef_fd s))
}.

(** The header has the size. *)
Definition header_ok (h : list Z) (n : Z) : Prop := exists rest, c_decrypt K h = pbeEncodeInt64 n ++ rest.

Lemma read_fd s m o : small_parts (io_calls (ef_fd s)) -> (B | m) -> 0 <= o ->
  exists s', ef_call (preadExact m o true) s = (Ok (sub (io_file (ef_fd s)) o (available (io_file (ef_fd s)) m o)), s') /\ io_file (ef_fd s') = io_file (ef_fd s) /\
    m_plaintextSize s' = m_plaintextSize s /\ m_headerBuffer s' = m_headerBuffer s /\ small_parts (io_calls (ef_fd s')).
Proof.
  intros Hs Hm Ho. unfold ef_call, fd_call, preadExact. pose proof half_block_nonneg.
  destruct (pread_loop_ok ((B - 1) / 2) (io_calls (ef_fd s)) 0 (io_file (ef_fd s)) 0 m o (io_errno (ef_fd s)) Hs Ho) as (calls & errno & -> & Hc); [lia|lia|rewrite Z.add_0_r; by apply small_parts_limit|].
  eexists. by split.
Qed.

Lemma write_fd s b o : small_parts (io_calls (ef_fd s)) -> (B | len b) -> 0 <= o ->
  exists s', ef_call (pwriteExact b o true) s = (Ok (len b), s') /\ io_file (ef_fd s') = pwrite (io_file (ef_fd s)) o b /\
    m_plaintextSize s' = m_plaintextSize s /\ m_headerBuffer s' = m_headerBuffer s /\ small_parts (io_calls (ef_fd s')).
Proof.
  intros Hs Hm Ho. unfold ef_call, fd_call, pwriteExact. pose proof half_block_nonneg. pose proof (len_nonneg b).
  destruct (pwrite_loop_ok ((B - 1) / 2) (io_calls (ef_fd s)) (io_file (ef_fd s)) b o (io_errno (ef_fd s)) Hs ltac:(lia) Ho) as (calls & errno & -> & Hc).
  { destruct (small_parts_limit (len b) Hm); [left|by right]. destruct b; [done|]. unfold len in *. cbn [length] in *. lia. }
  eexists. by split.
Qed.

Lemma wp_read_area s h d n o m Q : holds s h d n -> (B | o) -> (B | m) -> 0 <= o -> 0 < m -> o + m <= len d ->
  (forall s', holds s' h d n -> Q (E (sub d o m)) s') -> wp (ef_call (preadExact m (B + o) true)) s Q never.
Proof.
  intros [H1 H2 H3 H4 H5 H6 H7 H8] Ho Hm Ho' Hm' Hl HQ. pose proof (B_range K HK). destruct (read_fd s m (B + o) H8 Hm ltac:(lia)) as (s' & E & F1 & F2 & F3 & F4). eapply wp_run; [exact E|]. cbv beta.
  rewrite H1. assert (Ha : available (h ++ EncryptedFileSpec.E K d) m (B + o) = m) by (unfold available; rewrite len_app, (E_len K HK) by done; lia). rewrite Ha, (area_read K HK) by (done || lia). apply HQ. split; congruence || (rewrite ?F2, ?F3; done).
Qed.

Lemma wp_write_area s h d n o x Q : holds s h d n -> (B | o) -> (B | len x) -> 0 <= o <= len d -> o + len x < 2 ^ 60 ->
  (forall s', holds s' h (pwrite d o x) n -> Q (len x) s') -> wp (ef_call (pwriteExact (E x) (B + o) true)) s Q never.
Proof.
  intros [H1 H2 H3 H4 H5 H6 H7 H8] Ho Hx Hr Hl HQ. pose proof (B_range K HK).
  destruct (write_fd s (EncryptedFileSpec.E K x) (B + o) H8 ltac:(by rewrite (E_len K HK)) ltac:(lia)) as (s' & E & F1 & F2 & F3 & F4). eapply wp_run; [exact E|]. cbv beta.
  rewrite (E_len K HK) by done. apply HQ. pose proof (len_nonneg x). split; rewrite ?F1, ?F2, ?F3; try done.
  - by rewrite H1, (area_write K HK).
  - rewrite (pwrite_split d o x Hr). rewrite !len_app. apply Z.divide_add_r; [by apply divide_take|]. apply Z.divide_add_r; [done|]. apply (divide_drop K); [done|by apply Z.divide_add_r|lia].
  - rewrite (pwrite_split d o x Hr). unfold len in *. rewrite !length_app, length_take, length_drop. lia.
Qed.

Lemma holds_size s h d n n' Q : holds s h d n -> 0 <= n' < 2 ^ 60 -> (forall s', holds s' h d n' -> Q tt s') -> wp (set_plaintextSize n') s Q never.
Proof. intros [H1 H2 H3 H4 H5 H6 H7 H8] Hn HQ. apply wp_modify, HQ. by split. Qed.

Lemma wp_header s h d n (Q : bool -> state -> Prop) : holds s h d n -> (forall s' h', holds s' h' d n -> header_ok h' n -> Q true s') -> wp (writeHeader K) s Q never.
Proof.
  intros [H1 H2 H3 H4 H5 H6 H7 H8] HQ. pose proof (B_range K HK) as HB. unfold writeHeader. do 2 wp_step. rewrite H5.
  set (buf := overwrite (m_headerBuffer s) 0 (pbeEncodeInt64 n)). assert (Hp : len (pbeEncodeInt64 n) = 8) by (unfold pbeEncodeInt64; apply (len_le_store 8)).
  assert (Hb : len buf = B) by (unfold buf; rewrite overwrite_len; lia). rewrite Hb. wp_step.
  assert (He : encrypt_blocks K buf B = c_encrypt K buf).
  { unfold encrypt_blocks. rewrite Z.div_same by lia. change (Z.to_nat 1) with 1%nat. cbn [transform]. rewrite take_ge by (unfold len in Hb; lia). by rewrite app_nil_r. }
  rewrite He. pose proof (ck_enc K HK buf Hb) as Hel. apply wp_bind. set (s1 := {| ef_fd := _; m_plaintextSize := _; m_headerBuffer := _; ef_lastError := _ |}).
  destruct (write_fd s1 (c_encrypt K buf) 0 H8 ltac:(rewrite Hel; apply Z.divide_refl) ltac:(lia)) as (s' & Ew & F1 & F2 & F3 & F4). eapply wp_run; [exact Ew|]. cbv beta.
  rewrite Hel, Z.eqb_refl. apply wp_ret, HQ with (c_encrypt K buf).
  - split; rewrite ?F1, ?F2, ?F3; try done. cbn [s1 ef_fd]. rewrite H1, pwrite_split by (rewrite len_app; pose proof (len_nonneg (E d)); lia). cbn [take Z.to_nat app]. rewrite drop_app_length' by (unfold len in *; lia). done.
  - exists (drop 8 (m_headerBuffer s)). rewrite (ck_dec_enc K HK buf Hb). unfold buf, overwrite. by rewrite Hp.
Qed.

(** *** Reading *)

Lemma align_area o : 0 <= o < 2 ^ 62 -> alignDown 64 (B + o) B = B + B * (o / B).
Proof.
  intros Ho. pose proof (B_range K HK). rewrite (alignDown_eq K HK) by lia. replace (B + o) with (1 * B + o) by lia. rewrite Z.div_add_l by lia. lia.
Qed.

Lemma mul_div_mod o : 0 <= o -> o = B * (o / B) + o mod B /\ 0 <= o mod B < B /\ 0 <= o / B.
Proof. intros Ho. pose proof (B_range K HK). split; [apply Z.div_mod; lia|]. split; [apply Z.mod_pos_bound; lia|]. apply Z.div_pos; lia. Qed.

Lemma E_block d : len d = B -> decrypt_blocks K (E d) B = d.
Proof. intros Hd. pose proof (decrypt_E K HK d) as H. rewrite Hd in H. apply H, Z.divide_refl. Qed.

Lemma block_room o l : (B | o) -> (B | l) -> o < l -> o + B <= l.
Proof.
  intros [r ->] [q ->] Hlt. pose proof (B_range K HK). assert (r < q) by (apply (Z.mul_lt_mono_pos_r B); lia). replace (r * B + B) with ((r + 1) * B) by lia. apply Z.mul_le_mono_nonneg_r; lia.
Qed.

Lemma wp_read_tail s h d n o m acc (Q : list Z -> state -> Prop) : holds s h d n -> (B | o) -> 0 <= o -> 0 <= m < B -> o + m <= len d ->
  (forall s', holds s' h d n -> Q (acc ++ sub d o m) s') -> wp (read_tail K m (B + o) acc) s Q never.
Proof.
  intros Hs Hob Ho Hm Hl HQ. unfold read_tail. rewrite Z.gtb_ltb. destruct (Z.ltb_spec 0 m) as [Hp|Hz].
  - assert (HB : o + B <= len d).
    { apply block_room; [done|apply (ho_blocks _ _ _ _ Hs)|lia]. }
    apply wp_bind. pose proof (B_range K HK). apply (wp_read_area s h d n o B); [done|done|apply Z.divide_refl|lia|lia|lia|]. intros s' Hs'. cbv beta.
    assert (Hbl : len (sub d o B) = B) by (apply sub_len; lia). rewrite (E_len K HK) by (rewrite Hbl; apply Z.divide_refl). rewrite Hbl, Z.eqb_refl. cbn [negb]. rewrite E_block by done.
    apply wp_ret. replace (take (Z.to_nat m) (sub d o B)) with (sub d o m); [by apply HQ|]. unfold sub. rewrite take_take. f_equal. lia.
  - assert (m = 0) as -> by lia. apply wp_ret. specialize (HQ s Hs). by rewrite sub_nil, app_nil_r in HQ.
Qed.

Lemma wp_read_blocks s h d n o m acc (Q : list Z -> state -> Prop) : holds s h d n -> (B | o) -> 0 <= o -> 0 <= m -> o + m <= len d ->
  (forall s', holds s' h d n -> Q (acc ++ sub d o m) s') -> wp (read_blocks K m (B + o) acc) s Q never.
Proof.
  intros Hs Hob Ho Hm Hl HQ. pose proof (ho_small _ _ _ _ Hs). unfold read_blocks. rewrite (alignDown_eq K HK) by lia. destruct (mul_div_mod m Hm) as (Hd & Hr & Hq).
  set (a := B * (m / B)) in *. assert (Ha : (B | a)) by apply Z.divide_factor_l. pose proof (B_range K HK). rewrite Z.gtb_ltb. destruct (Z.ltb_spec 0 a) as [Hp|Hz].
  - apply wp_bind. apply (wp_read_area s h d n o a); [done|done|done|lia|lia|lia|]. intros s' Hs'. cbv beta. assert (Hbl : len (sub d o a) = a) by (apply sub_len; lia).
    rewrite (E_len K HK) by (by rewrite Hbl). rewrite Hbl, Z.eqb_refl. cbn [negb].
    assert (HD : decrypt_blocks K (E (sub d o a)) a = sub d o a) by (pose proof (decrypt_E K HK (sub d o a)) as H'; rewrite Hbl in H'; by apply H'). rewrite HD. rewrite <- Z.add_assoc.
    apply (wp_read_tail s' h d n); [done|by apply Z.divide_add_r|lia|lia|lia|]. intros s2 Hs2. rewrite <- app_assoc, <- sub_split by lia. replace (a + (m - a)) with m by lia. by apply HQ.
  - assert (a = 0) by nia. apply (wp_read_tail s h d n); [done|done|lia|lia|lia|done].
Qed.

(** A read inside the data gives the data. *)
Lemma wp_read s h d n o m (Q : list Z -> state -> Prop) : holds s h d n -> 0 <= o -> 0 <= m -> o + m <= len d ->
  (forall s', holds s' h d n -> Q (sub d o m) s') -> wp (ef_read K m o) s Q never.
Proof.
  intros Hs Ho Hm Hl HQ. pose proof (ho_small _ _ _ _ Hs). pose proof (B_range K HK). unfold ef_read. rewrite (proj2 (Z.ltb_ge _ _)) by lia. wp_step. rewrite (ho_buffer _ _ _ _ Hs), (Z.add_comm o).
  unfold readInternal. rewrite align_area by lia. destruct (mul_div_mod o Ho) as (Hd & Hr & Hq). set (r := o mod B) in *. set (a := B * (o / B)) in *. assert (Ha : (B | a)) by apply Z.divide_factor_l.
  replace (B + o - (B + a)) with r by lia. rewrite Z.gtb_ltb. destruct (Z.ltb_spec 0 r) as [Hp|Hz].
  - assert (HB : a + B <= len d) by (apply block_room; [done|apply (ho_blocks _ _ _ _ Hs)|lia]).
    apply wp_bind. apply (wp_read_area s h d n a B); [done|done|apply Z.divide_refl|lia|lia|lia|]. intros s' Hs'. cbv beta.
      assert (Hbl : len (sub d a B) = B) by (apply sub_len; lia). rewrite (E_len K HK) by (rewrite Hbl; apply Z.divide_refl). rewrite Hbl, Z.eqb_refl. cbn [negb]. rewrite E_block by done.
      rewrite sub_sub by lia. rewrite <- Hd. destruct (Z.eqb_spec m (Z.min (B - r) m)) as [He|He].
      * apply wp_ret. rewrite <- He. by apply HQ.
      * assert (Hlt : B - r < m) by lia. rewrite Z.min_l in * by lia. replace (B + o + (B - r)) with (B + (a + B)) by lia.
        apply (wp_read_blocks s' h d n); [done|apply Z.divide_add_r; [done|apply Z.divide_refl]|lia|lia|lia|].
        intros s2 Hs2. replace (a + B) with (o + (B - r)) by lia. rewrite <- sub_split by lia. replace (B - r + (m - (B - r))) with m by lia. by apply HQ.
  - assert (o = a) by lia. replace (B + o) with (B + a) by lia. apply (wp_read_blocks s h d n); [done|done|lia|lia|lia|]. intros s' Hs'. cbn [app]. replace a with o by lia. by apply HQ.
Qed.

(** *** Writing *)

Definition zeros (k : Z) : list Z := repeat 0 (Z.to_nat k).
Definition pad (d : list Z) (e : Z) : list Z := d ++ zeros (up K e - len d).

(** The data after a write: the last block is filled with zeroes. *)
Definition splice (d : list Z) (o : Z) (b : list Z) : list Z := pwrite (pad d (o + len b)) o b.

Lemma zeros_len k : 0 <= k -> len (zeros k) = k.
Proof. intros Hk. unfold zeros, len. rewrite repeat_length. lia. Qed.

Lemma zeros_nil k : k <= 0 -> zeros k = [].
Proof. intros Hk. unfold zeros. by replace (Z.to_nat k) with 0%nat by lia. Qed.

Lemma zeros_drop k j : 0 <= j -> drop (Z.to_nat j) (zeros k) = zeros (k - j).
Proof.
  intros Hj. unfold zeros. apply list_eq. intros i. rewrite lookup_drop. destruct (decide (Z.to_nat j + i < Z.to_nat k)%nat).
  - rewrite <- !nth_error_is_lookup, !nth_error_repeat by lia. done.
  - rewrite !lookup_ge_None_2 by (rewrite repeat_length; lia). done.
Qed.

Lemma pad_pwrite d o b e : 0 <= o <= len d -> o + len b <= e -> pad (pwrite d o b) e = pwrite (pad d e) o b.
Proof.
  intros Ho He. pose proof (len_nonneg b). destruct (up_spec K HK e ltac:(lia)) as [Hu _]. unfold pad. assert (Hl : len (pwrite d o b) = Z.max (len d) (o + len b)).
  { rewrite pwrite_split by done. unfold len in *. rewrite !length_app, length_take, length_drop. lia. }
  rewrite Hl, (pwrite_split d o b), pwrite_split by (done || (rewrite len_app; pose proof (len_nonneg (zeros (up K e - len d))); lia)).
  rewrite take_app_le by (unfold len in *; lia). rewrite <- !app_assoc. do 2 f_equal. rewrite drop_app. f_equal.
  replace (Z.to_nat (o + len b) - length d)%nat with (Z.to_nat (Z.max 0 (o + len b - len d))) by (unfold len; lia). rewrite zeros_drop by lia. f_equal. lia.
Qed.

Lemma splice_app d o b1 b2 : 0 <= o <= len d -> splice (pwrite d o b1) (o + len b1) b2 = splice d o (b1 ++ b2).
Proof.
  intros Ho. pose proof (len_nonneg b2). unfold splice. rewrite len_app, Z.add_assoc. rewrite pad_pwrite by lia. apply pwrite_app. lia.
Qed.

Lemma overwrite_block l a r b : 0 <= a -> 0 <= r -> r + len b <= B -> a + B <= len l -> overwrite l a (overwrite (sub l a B) r b) = overwrite l (a + r) b.
Proof.
  intros Ha Hr Hb Hl. pose proof (len_nonneg b). assert (Hs : len (sub l a B) = B) by (apply sub_len; lia). apply list_eq. intros j.
  rewrite (overwrite_lookup l a) by (rewrite ?overwrite_len; lia). rewrite overwrite_len by lia. rewrite (overwrite_lookup l (a + r)) by lia. rewrite Hs.
  destruct (decide (a <= Z.of_nat j < a + B)) as [Hj|Hj].
  - rewrite overwrite_lookup by lia. destruct (decide (r <= Z.of_nat (j - Z.to_nat a) < r + len b)) as [Hi|Hi].
    + rewrite decide_True by lia. f_equal. lia.
    + rewrite decide_False by lia. rewrite sub_lookup, decide_True by lia. f_equal. lia.
  - rewrite decide_False by lia. done.
Qed.

Lemma wp_update s h d n o b (Q : bool -> state -> Prop) : holds s h d n -> 0 <= o < len d -> o mod B + len b <= B ->
  (forall s', holds s' h (pwrite d o b) n -> Q true s') -> wp (updateBlock K b (B + o)) s Q never.
Proof.
  intros Hs Ho Hb HQ. pose proof (ho_small _ _ _ _ Hs). pose proof (B_range K HK). pose proof (len_nonneg b). destruct (mul_div_mod o) as (Hd & Hr & Hq); [lia|]. unfold updateBlock. rewrite align_area by lia.
  set (r := o mod B) in *. set (a := B * (o / B)) in *. assert (Ha : (B | a)) by apply Z.divide_factor_l. assert (HB : a + B <= len d) by (apply block_room; [done|apply (ho_blocks _ _ _ _ Hs)|lia]).
  apply wp_bind. apply (wp_read_area s h d n a B); [done|done|apply Z.divide_refl|lia|lia|lia|]. intros s1 Hs1. cbv beta. assert (Hbl : len (sub d a B) = B) by (apply sub_len; lia).
  rewrite (E_len K HK) by (rewrite Hbl; apply Z.divide_refl). rewrite Hbl, Z.eqb_refl. cbn [negb]. rewrite E_block by done. replace (B + o - (B + a)) with r by lia.
  set (x := overwrite (sub d a B) r b). assert (Hx : len x = B) by (unfold x; rewrite overwrite_len; lia). assert (Hxd : (B | len x)) by (rewrite Hx; apply Z.divide_refl).
  assert (Hex : encrypt_blocks K x B = E x) by (unfold EncryptedFileSpec.E; by rewrite Hx). rewrite Hex. apply wp_bind. apply (wp_write_area s1 h d n a x); [done|done|done|lia|lia|]. intros s2 Hs2.
  cbv beta. rewrite Hx, Z.eqb_refl. cbn [negb]. apply wp_ret, HQ. replace (pwrite d o b) with (pwrite d a x); [done|]. rewrite (pwrite_in d a x) by lia. unfold x. rewrite overwrite_block by lia. rewrite <- Hd.
  destruct b as [|y b']; [|symmetry; apply pwrite_in; [rewrite len_cons; pose proof (len_nonneg b'); lia|lia]]. unfold overwrite. cbn. rewrite Z.add_0_r. apply take_drop.
Qed.

Lemma wp_append s h d n b (Q : bool -> state -> Prop) : holds s h d n -> 0 < len b <= B -> len d + B < 2 ^ 60 ->
  (forall s', holds s' h (d ++ b ++ zeros (B - len b)) n -> Q true s') -> wp (writeBlock K b (B + len d)) s Q never.
Proof.
  intros Hs Hb Hsm HQ. pose proof (B_range K HK). pose proof (len_nonneg d). pose proof (ho_blocks _ _ _ _ Hs) as Hdv. unfold writeBlock. rewrite align_area by lia.
  assert (Ha : B * (len d / B) = len d) by (destruct Hdv as [q ->]; rewrite Z.div_mul; lia). rewrite Ha. replace (B + len d - (B + len d)) with 0 by lia. rewrite Z.add_0_l. change (repeat 0 (Z.to_nat 0)) with (@nil Z). cbn [app].
  fold (zeros (B - len b)). set (x := b ++ zeros (B - len b)). assert (Hx : len x = B) by (unfold x; rewrite len_app, zeros_len; lia).
  assert (Hex : encrypt_blocks K x B = E x) by (unfold EncryptedFileSpec.E; by rewrite Hx). rewrite Hex. rewrite (alignUp_eq K HK) by lia. rewrite <- (up_unique K HK _ (B + len d)); [|lia|apply Z.divide_add_r; [apply Z.divide_refl|done]].
  apply wp_bind. apply (wp_write_area s h d n (len d) x); [done|done|rewrite Hx; apply Z.divide_refl|lia|lia|]. intros s2 Hs2. cbv beta. rewrite Hx, Z.eqb_refl. cbn [negb]. apply wp_ret, HQ.
  by rewrite pwrite_end in Hs2 by lia.
Qed.

(** A file whose data are the blocks of its size. *)
Definition file_rep (s : state) (d : list Z) (n : Z) : Prop := exists h, holds s h d n /\ header_ok h n /\ len d = up K n.

Lemma wp_resize s h d n n' (Q : bool -> state -> Prop) : holds s h d n -> 0 <= n' < 2 ^ 60 -> (forall s' h', holds s' h' d n' -> header_ok h' n' -> Q true s') ->
  wp (set_plaintextSize n' ;;' writeHeader K) s Q never.
Proof. intros Hs Hn HQ. apply wp_bind. apply (holds_size s h d n); [done|done|]. intros s1 Hs1. by apply (wp_header s1 h d n'). Qed.

Lemma up_block o m : (B | o) -> 0 < m <= B -> up K (o + m) = o + B.
Proof. intros Ho Hm. symmetry. apply (up_unique K HK); [lia|]. apply Z.divide_add_r; [done|apply Z.divide_refl]. Qed.

Lemma up_aligned o : (B | o) -> up K o = o.
Proof. intros Ho. pose proof (B_range K HK). symmetry. apply (up_unique K HK); [lia|done]. Qed.

Lemma up_max n o : 0 <= n -> 0 <= o -> (B | o) -> up K (Z.max n o) = Z.max (up K n) o.
Proof.
  intros Hn Ho Hd. destruct (up_spec K HK n Hn) as [Hu Hu']. destruct (Z.max_spec n o) as [[H ->]|[H ->]]; [|lia]. rewrite up_aligned by done.
  destruct (Z.leb_spec (up K n) o); [lia|]. pose proof (block_room o (up K n) Hd Hu' ltac:(lia)). lia.
Qed.

(** The beginning of the last block. *)
Lemma wp_tail s d n o b total (Q : Z -> state -> Prop) : file_rep s d n -> (B | o) -> 0 <= o <= len d -> (o < n \/ o = n) -> len b < B -> len d + B < 2 ^ 60 ->
  (forall s', file_rep s' (splice d o b) (if (0 <? len b) && (o <? n) then n else Z.max n (o + len b)) -> Q (total + len b) s') -> wp (write_tail K b (B + o) total) s Q never.
Proof.
  intros (h & Hs & Hh & Hl) Hob Ho Hon Hb Hsm HQ. pose proof (B_range K HK). pose proof (len_nonneg b). pose proof (ho_range _ _ _ _ Hs). destruct (up_spec K HK n ltac:(lia)) as [Hu Hud].
  unfold write_tail. rewrite Z.gtb_ltb. destruct (Z.ltb_spec 0 (len b)) as [Hp|Hz]; cbn [andb] in HQ.
  - wp_step. unfold getEofOffset. rewrite (ho_size _ _ _ _ Hs), (ho_buffer _ _ _ _ Hs), (alignUp_eq K HK) by lia. rewrite <- Hl, (Z.add_comm (len d)). unfold splice, pad in HQ. rewrite up_block in HQ by (done || lia).
    destruct (Z.eqb_spec (B + o) (B + len d)) as [He|He].
    + assert (o = n) by lia. assert (len d = n) by lia. subst o. rewrite Z.ltb_irrefl in HQ. apply wp_bind. apply (wp_append s h d n b); [done|lia|lia|]. intros s1 Hs1. cbv beta iota. wp_step. rewrite (ho_size _ _ _ _ Hs1).
      rewrite Z.max_r in HQ by lia. apply wp_bind. apply (holds_size s1 h (d ++ b ++ zeros (B - len b)) n); [done|lia|]. intros s2 Hs2. cbv beta. apply wp_bind. apply (wp_header s2 h (d ++ b ++ zeros (B - len b)) (n + len b)); [done|]. intros s3 h3 Hs3 Hh3.
      apply wp_ret, HQ. exists h3. replace (n + B - len d) with B in * by lia. assert (Hsp : pwrite (d ++ zeros B) n b = d ++ b ++ zeros (B - len b)).
      { rewrite pwrite_split by (rewrite len_app, zeros_len by lia; lia). rewrite take_app_length' by (unfold len in *; lia). do 2 f_equal. rewrite drop_app. rewrite drop_ge by (unfold len in *; lia). cbn [app].
        replace (Z.to_nat (n + len b) - length d)%nat with (Z.to_nat (len b)) by (unfold len in *; lia). apply zeros_drop. lia. }
      rewrite Hsp. split; [done|]. split; [done|]. rewrite !len_app, zeros_len by lia. rewrite up_block by (done || lia). lia.
    + assert (Hlt : o < n).
      { destruct Hon as [|Heq]; [done|]. subst o. rewrite up_aligned in Hl by done. lia. }
      rewrite (proj2 (Z.ltb_lt _ _)) in HQ by done. apply wp_bind. apply (wp_update s h d n o b); [done|lia|destruct Hob as [q ->]; rewrite Z.mod_mul by lia; lia|]. intros s1 Hs1. cbv beta iota. apply wp_ret, HQ. exists h.
      assert (Hroom : o + B <= len d) by (apply block_room; [done|apply (ho_blocks _ _ _ _ Hs)|lia]). rewrite zeros_nil, app_nil_r by lia. split; [done|]. split; [done|]. rewrite pwrite_in by lia. rewrite overwrite_len; lia.
  - destruct b as [|y b]; [|rewrite len_cons in Hz; pose proof (len_nonneg b); lia]. change (len []) with 0 in *. apply wp_ret. rewrite !Z.add_0_r in HQ. apply HQ. unfold splice, pad. change (len []) with 0. rewrite Z.add_0_r, (up_aligned o), zeros_nil, app_nil_r by (done || lia).
    rewrite Z.max_l by lia. by exists h.
Qed.

(** Whole blocks. *)
Lemma wp_blocks fuel : forall s d n o b ads total (Q : Z -> state -> Prop), file_rep s d n -> (B | o) -> 0 <= o <= n -> (B | ads) -> 0 <= ads <= len b -> ads <= B * Z.of_nat fuel ->
  o + ads < 2 ^ 59 ->
  (forall s', file_rep s' (pwrite d o (take (Z.to_nat ads) b)) (Z.max n (o + ads)) -> wp (write_tail K (drop (Z.to_nat ads) b) (B + o + ads) (total + ads)) s' Q never) ->
  wp (write_blocks K fuel b ads (B + o) total) s Q never.
Proof.
  induction fuel as [|fuel IH]; intros s d n o b ads total Q Hrep Hob Ho Had Hads Hf Hsm HQ; cbn [write_blocks]; rewrite Z.gtb_ltb; pose proof (B_range K HK) as HB.
  { rewrite (proj2 (Z.ltb_ge _ _)) by lia. assert (ads = 0) as -> by lia. rewrite !Z.add_0_r in HQ. apply HQ. rewrite Z.max_l by lia. done. }
  destruct (Z.ltb_spec 0 ads) as [Hp|Hz].
  2:{ assert (ads = 0) as -> by lia. rewrite !Z.add_0_r in HQ. apply HQ. rewrite Z.max_l by lia. done. }
  destruct Hrep as (h & Hs & Hh & Hl). pose proof (ho_range _ _ _ _ Hs) as Hnr. destruct (up_spec K HK n ltac:(lia)) as [Hu Hud].
  set (w := Z.min (m_dataBufferUsefulSize K) ads). assert (Hw : (B | w) /\ B <= w <= ads).
  { unfold w, m_dataBufferUsefulSize, kDataBufferSize. assert (Hq : 1 <= 8192 / B) by (apply Z.div_le_lower_bound; lia). pose proof (block_room 0 ads (Z.divide_0_r B) Had Hp) as Ha. assert (Hqb : B <= 8192 / B * B) by (rewrite <- (Z.mul_1_l B) at 1; apply Z.mul_le_mono_nonneg_r; lia).
    destruct (Z.min_spec (8192 / B * B) ads) as [[Hm ->]|[Hm ->]]; [split; [apply Z.divide_factor_r|lia]|split; [done|lia]]. }
  destruct Hw as [Hwd Hw]. rewrite (encrypt_prefix K HK) by (done || lia). set (x := take (Z.to_nat w) b). assert (Hx : len x = w) by (unfold x, len in *; rewrite length_take; lia).
  apply wp_bind. apply (wp_write_area s h d n o x); [done|done|by rewrite Hx|lia|lia|]. intros s1 Hs1. cbv beta zeta. rewrite Hx. rewrite (alignDown_eq K HK) by lia.
  assert (Hdw : B * (w / B) = w) by (destruct Hwd as [q ->]; rewrite Z.div_mul; lia). rewrite Hdw, Z.eqb_refl. cbn [negb]. wp_step. wp_step. wp_step. rewrite (ho_buffer _ _ _ _ Hs1), (ho_size _ _ _ _ Hs1).
  replace (B + o + w - B) with (o + w) by lia. set (d1 := pwrite d o x) in *.
  assert (Hl1 : len d1 = Z.max (len d) (o + w)) by (unfold d1; rewrite pwrite_split by lia; unfold len in *; rewrite !length_app, length_take, length_drop; lia).
  assert (Hup : len d1 = up K (Z.max n (o + w))) by (rewrite up_max; [lia|lia|lia|by apply Z.divide_add_r]).
  assert (Hstep : forall s2, file_rep s2 d1 (Z.max n (o + w)) -> wp (write_blocks K fuel (drop (Z.to_nat w) b) (ads - w) (B + o + w) (total + w)) s2 Q never).
  { intros s2 Hs2. rewrite <- Z.add_assoc. apply (IH s2 d1 (Z.max n (o + w))); [done|by apply Z.divide_add_r|lia|by apply Z.divide_sub_r|unfold len in *; rewrite length_drop; lia|lia|lia|].
    intros s3 Hs3. rewrite drop_drop. replace (Z.to_nat w + Z.to_nat (ads - w))%nat with (Z.to_nat ads) by lia. replace (B + (o + w) + (ads - w)) with (B + o + ads) by lia. replace (total + w + (ads - w)) with (total + ads) by lia.
    apply HQ. replace (Z.max (Z.max n (o + w)) (o + w + (ads - w))) with (Z.max n (o + ads)) in Hs3 by lia. replace (pwrite d o (take (Z.to_nat ads) b)) with (pwrite d1 (o + w) (take (Z.to_nat (ads - w)) (drop (Z.to_nat w) b))); [done|].
    pose proof (pwrite_app d o x (take (Z.to_nat (ads - w)) (drop (Z.to_nat w) b)) (proj1 Ho)) as Ha. rewrite Hx in Ha. unfold d1. rewrite Ha. f_equal. unfold x. rewrite take_take_drop. f_equal. lia. }
  apply wp_bind. destruct (Z.ltb_spec n (o + w)) as [Hn|Hn].
  - apply (wp_resize s1 h d1 n); [done|lia|]. intros s2 h2 Hs2 Hh2. cbn [negb]. apply Hstep. rewrite Z.max_r in * by lia. by exists h2.
  - apply wp_ret. cbn [negb]. apply Hstep. rewrite (Z.max_l n) in * by lia. by exists h.
Qed.
End Ops.
