(* ===== verification/FileSpec.v ===== *)
(** * Files are plain files

    What the users of [File] rely on, as an interface that normal and encrypted
    files implement, and the theorems for both. *)

From stdpp Require Import base list.
Set Warnings "-clear-no-such-hyp,-notation-incompatible-prefix,-notation-for-abbreviation".
From Stdlib Require Import ZArith Lia.
From S2P Require Import Prelude PlainBinary StateM Bytes FileIO EncryptedFile EncryptedFileSpec.

(** ** An encrypted file refines a plain file

    The whole write, opening and creating a file, and the theorem on sequences of
    operations.  The runs in which the code deviates from a plain file follow. *)

Local Open Scope Z_scope.

Section Refine.
Context (K : cipher) (HK : cipher_ok K).
Notation B := (c_blockSize K).
Notation state := EncryptedFile.
Notation never := (fun (_ : FileError) (_ : EncryptedFile) => False).
Notation file_rep := (file_rep K).

(** The size after a write of [m] bytes at [o]: it is not increased when the write
    ends in the last block of the file and began before that block or at its
    beginning. *)
Definition spec_size (n o m : Z) : Z :=
  let e := o + m in
  if negb (e mod B =? 0) && (o <=? B * (e / B)) && (B * (e / B) <? n) then n else Z.max n e.

Lemma size_aligned n o m : (B | o) -> 0 <= o -> 0 <= m ->
  (if (0 <? m mod B) && (o + B * (m / B) <? Z.max n (o + B * (m / B))) then Z.max n (o + B * (m / B)) else Z.max (Z.max n (o + B * (m / B))) (o + B * (m / B) + m mod B)) = spec_size n o m.
Proof.
  intros [q ->] Ho Hm. pose proof (B_range K HK). destruct (mul_div_mod K HK m Hm) as (Hd & Hr & Hq). unfold spec_size. cbv zeta.
  assert (He : q * B + m = (q + m / B) * B + m mod B) by lia. assert (Hmod : (q * B + m) mod B = m mod B) by (rewrite Z.add_comm, Z.mod_add by lia; done).
  assert (Hdiv : B * ((q * B + m) / B) = q * B + B * (m / B)) by (rewrite Z.div_add_l by lia; lia). rewrite Hmod, Hdiv. set (a := B * (m / B)) in *. set (t := m mod B) in *. assert (0 <= a) by (unfold a; lia).
  rewrite (proj2 (Z.leb_le (q * B) _)) by lia. rewrite andb_true_r. destruct (Z.ltb_spec 0 t), (Z.eqb_spec t 0), (Z.ltb_spec (q * B + a) (Z.max n (q * B + a))), (Z.ltb_spec (q * B + a) n); cbn [andb negb]; lia.
Qed.

Lemma wp_rest s d n o b total (Q : Z -> state -> Prop) : file_rep s d n -> (B | o) -> 0 <= o <= n -> n + len b + B < 2 ^ 58 ->
  (forall s', file_rep s' (splice K d o b) (spec_size n o (len b)) -> Q (total + len b) s') -> wp (write_rest K b (B + o) total) s Q never.
Proof.
  intros Hrep Hob Ho Hsm HQ. pose proof (len_nonneg b) as Hlb. pose proof (B_range K HK). unfold write_rest. rewrite (alignDown_eq K HK) by lia. destruct (mul_div_mod K HK (len b) Hlb) as (Hd & Hr & Hq).
  set (a := B * (len b / B)) in *. assert (Had : (B | a)) by apply Z.divide_factor_l. assert (Hab : a / B = len b / B) by (unfold a; rewrite Z.mul_comm, Z.div_mul; lia). rewrite Hab.
  assert (Ht : len (take (Z.to_nat a) b) = a) by (unfold len in *; rewrite length_take; lia). assert (Ht' : len (drop (Z.to_nat a) b) = len b mod B) by (unfold len in *; rewrite length_drop; lia).
  assert (Hl : len d = up K n) by (by destruct Hrep as (h & _ & _ & ?)). assert (Hn : 0 <= n) by lia. destruct (up_spec K HK n Hn) as [Hu _].
  apply (wp_blocks K HK _ s d n o b a); [done|done|lia|done|lia|unfold a; lia|lia|]. intros s1 Hs1. set (n1 := Z.max n (o + a)) in *. set (d1 := pwrite d o (take (Z.to_nat a) b)) in *.
  assert (Hl1 : len d1 = up K n1) by (by destruct Hs1 as (h & _ & _ & ?)). destruct (up_spec K HK n1 ltac:(lia)) as [Hu1 _]. rewrite <- Z.add_assoc.
  apply (wp_tail K HK s1 d1 n1 (o + a)); [done|by apply Z.divide_add_r|lia|lia|lia|lia|]. intros s2 Hs2. rewrite Ht' in Hs2 |- *. replace (total + a + len b mod B) with (total + len b) by lia. apply HQ.
  rewrite <- (size_aligned n o (len b)) by (done || lia). fold a. fold n1.
  replace (splice K d o b) with (splice K d1 (o + a) (drop (Z.to_nat a) b)); [done|]. unfold d1. pose proof (splice_app K HK d o (take (Z.to_nat a) b) (drop (Z.to_nat a) b) ltac:(lia)) as Hsp. rewrite Ht, take_drop in Hsp. exact Hsp.
Qed.

Lemma size_unaligned n o k m : 0 < o mod B -> 0 <= o <= n -> 0 <= m -> k = Z.min (B - o mod B) m ->
  (k = m -> spec_size n o m = Z.max n (o + k)) /\ (k < m -> spec_size (Z.max n (o + k)) (o + k) (m - k) = spec_size n o m).
Proof.
  intros Hr Ho Hm ->. pose proof (B_range K HK). destruct (mul_div_mod K HK o (proj1 Ho)) as (Hd & Hro & Hq). set (r := o mod B) in *. split.
  - intros He. assert (Hmr : m <= B - r) by lia. unfold spec_size. cbv zeta. rewrite He. destruct (Z.eqb_spec ((o + m) mod B) 0) as [|Hne]; [done|]. cbn [negb andb].
    assert (Hlt : r + m < B).
    { destruct (Z.eq_dec (r + m) B) as [Hx|Hx]; [|lia]. exfalso. apply Hne. replace (o + m) with ((o / B + 1) * B) by lia. apply Z.mod_mul. lia. }
    assert (Hdiv : (o + m) / B = o / B) by (symmetry; apply Z.div_unique with (r + m); [left; lia|lia]). rewrite Hdiv. rewrite (proj2 (Z.leb_gt o _)) by lia. done.
  - intros Hk. rewrite Z.min_l in * by lia. unfold spec_size. cbv zeta. replace (o + (B - r) + (m - (B - r))) with (o + m) by lia. destruct (mul_div_mod K HK (o + m) ltac:(lia)) as (He & Hre & Hqe).
    assert (Hge : o + (B - r) <= B * ((o + m) / B)).
    { replace (o + (B - r)) with (B * (o / B + 1)) by lia. apply Z.mul_le_mono_nonneg_l; [lia|]. apply Z.div_le_lower_bound; lia. }
    rewrite (proj2 (Z.leb_le (o + (B - r)) _)), (proj2 (Z.leb_le o _)) by lia. rewrite !andb_true_r. set (f := B * ((o + m) / B)) in *.
    destruct (Z.eqb_spec ((o + m) mod B) 0), (Z.ltb_spec f (Z.max n (o + (B - r)))), (Z.ltb_spec f n); cbn [andb negb]; lia.
Qed.

(** A write that does not begin behind the end of the file. *)
Lemma wp_ef_write s d n o b (Q : Z -> state -> Prop) : file_rep s d n -> 0 <= o <= n -> n + len b + B < 2 ^ 58 ->
  (forall s', file_rep s' (splice K d o b) (spec_size n o (len b)) -> Q (len b) s') -> wp (ef_write K b o) s Q never.
Proof.
  intros Hrep Ho Hsm HQ. pose proof (len_nonneg b) as Hlb. pose proof (B_range K HK). destruct (Hrep) as (h & Hs & Hh & Hl). destruct (up_spec K HK n ltac:(lia)) as [Hu Hud].
  unfold ef_write. rewrite (proj2 (Z.ltb_ge _ _)) by lia. wp_step. rewrite (ho_buffer _ _ _ _ _ Hs), (Z.add_comm o). unfold writeInternal. rewrite (align_area K HK) by lia. destruct (mul_div_mod K HK o (proj1 Ho)) as (Hd & Hr & Hq).
  replace (B + o - (B + B * (o / B))) with (o mod B) by lia. rewrite Z.gtb_ltb. destruct (Z.ltb_spec 0 (o mod B)) as [Hp|Hz].
  2:{ apply (wp_rest s d n); [done|exists (o / B); lia|done|done|done]. }
  set (k := Z.min (B - o mod B) (len b)). wp_step. unfold getEofOffset. rewrite (ho_size _ _ _ _ _ Hs), (ho_buffer _ _ _ _ _ Hs), (alignUp_eq K HK) by lia.
  assert (Hlt : o < len d).
  { destruct (Z.eq_dec o n) as [->|]; [|lia]. destruct (Z.eq_dec n (up K n)) as [He|]; [|lia]. exfalso. destruct Hud as [q Hq']. rewrite He, Hq', Z.mod_mul in Hp; lia. }
  assert (Hroom : B * (o / B) + B <= len d) by (apply (block_room K HK); [apply Z.divide_factor_l|by rewrite Hl|lia]).
  rewrite Z.geb_leb, (proj2 (Z.leb_gt _ _)) by lia. set (b1 := take (Z.to_nat k) b). assert (Hb1 : len b1 = k) by (unfold b1, len in *; rewrite length_take; lia).
  apply wp_bind. apply (wp_update K HK s h d n o b1); [done|lia|lia|]. intros s1 Hs1. cbv beta iota. cbn [negb orb]. wp_step. wp_step. rewrite (ho_buffer _ _ _ _ _ Hs1), (ho_size _ _ _ _ _ Hs1).
  replace (B + o + k - B) with (o + k) by lia. set (d1 := pwrite d o b1) in *. assert (Hl1 : len d1 = len d) by (unfold d1; rewrite pwrite_split by lia; unfold len in *; rewrite !length_app, length_take, length_drop; lia).
  assert (Hup : up K (Z.max n (o + k)) = up K n).
  { destruct (Z.max_spec n (o + k)) as [[Hm ->]|[_ ->]]; [|done]. symmetry. apply (up_unique K HK); [lia|done]. }
  destruct (size_unaligned n o k (len b) Hp Ho Hlb eq_refl) as [Hsz1 Hsz2].
  assert (Hstep : forall s2, file_rep s2 d1 (Z.max n (o + k)) -> wp (write_rest K (drop (Z.to_nat k) b) (B + o + k) k) s2 Q never).
  { intros s2 Hs2. assert (Hb2 : len (drop (Z.to_nat k) b) = len b - k) by (unfold len in *; rewrite length_drop; lia). destruct (Z.eq_dec k (len b)) as [Hk|Hk].
    - assert (drop (Z.to_nat k) b = []) as -> by (apply drop_ge; unfold len in Hk; lia). unfold write_rest. change (len []) with 0. rewrite (alignDown_eq K HK) by lia. rewrite Z.div_0_l, Z.mul_0_r by lia. cbn. apply wp_ret. rewrite Hk. apply HQ.
      rewrite Hsz1 by done. replace (splice K d o b) with d1; [done|]. unfold d1, b1, splice, pad. rewrite take_ge by (unfold len in *; lia). rewrite zeros_nil, app_nil_r; [done|]. rewrite <- Hk.
      destruct (up_spec K HK (o + k) ltac:(lia)) as [Huk Huk']. destruct (Z.leb_spec (up K (o + k)) (len d)) as [|Hgt]; [lia|]. pose proof (block_room K HK (len d) (up K (o + k)) ltac:(by rewrite Hl) Huk' Hgt). lia.
    - assert (Hkr : k = B - o mod B) by lia. replace (B + o + k) with (B + (o + k)) by lia. apply (wp_rest s2 d1 (Z.max n (o + k))); [done|exists (o / B + 1); lia|lia|lia|].
      intros s3 Hs3. rewrite Hb2 in Hs3 |- *. rewrite Hsz2 in Hs3 by lia. replace (k + (len b - k)) with (len b) by lia. apply HQ.
      pose proof (splice_app K HK d o b1 (drop (Z.to_nat k) b) ltac:(lia)) as Hsp. rewrite Hb1 in Hsp. unfold b1 in Hsp at 2. rewrite take_drop in Hsp. rewrite <- Hsp. exact Hs3. }
  apply wp_bind. rewrite Z.gtb_ltb. destruct (Z.ltb_spec n (o + k)) as [Hn|Hn].
  - apply (wp_resize K HK s1 h d1 n); [done|lia|]. intros s2 h2 Hs2 Hh2. cbn [negb]. apply Hstep. rewrite Z.max_r in * by lia. exists h2. split; [done|]. split; [done|]. by rewrite Hup, Hl1.
  - apply wp_ret. cbn [negb]. apply Hstep. rewrite (Z.max_l n) by lia. exists h. split; [done|]. split; [done|]. by rewrite Hl1.
Qed.

(** ** Creating and opening *)

Lemma created_file_rep memory calls n : 0 <= n -> n + 2 * B <= 2 ^ 32 -> B <= len memory -> small_parts K calls ->
  exists s, create_file K memory calls n = Ok s /\ file_rep s (decrypt_blocks K (zeros (up K n)) (up K n)) n.
Proof.
  intros Hn Hsm Hm Hc. pose proof (B_range K HK). destruct (up_spec K HK n Hn) as [Hu Hud]. unfold create_file.
  assert (H8 : alignUp 32 kHeaderPlaintextSize B = B) by (rewrite (alignUp_gen K HK 32) by (unfold kHeaderPlaintextSize; lia); symmetry; apply (up_unique K HK); [unfold kHeaderPlaintextSize; lia|apply Z.divide_refl]).
  assert (Hsz : alignUp 32 (n + B) B = B + up K n) by (rewrite (alignUp_gen K HK 32) by lia; symmetry; apply (up_unique K HK); [lia|apply Z.divide_add_r; [apply Z.divide_refl|done]]).
  rewrite H8, Hsz, Z.gtb_ltb, (proj2 (Z.ltb_lt _ _)) by lia. unfold posixFileAllocateExact, posix_fallocate. cbn [io_file io_calls io_errno]. rewrite (proj2 (Z.leb_gt _ _)) by lia. cbn [orb Z.ltb Z.compare Z.eqb negb app].
  set (d := decrypt_blocks K (zeros (up K n)) (up K n)). pose proof (encrypt_decrypt K HK (zeros (up K n))) as Hed. rewrite zeros_len in Hed by lia. destruct (Hed Hud) as [HE Hlen]. fold d in HE, Hlen.
  assert (Hfile : repeat 0 (Z.to_nat (0 + (B + up K n) - len (@nil Z))) = zeros B ++ E K d).
  { rewrite HE. unfold zeros. rewrite <- repeat_app. f_equal. change (len (@nil Z)) with 0. lia. }
  rewrite Hfile, (headerSize_eq K HK). set (s := {| ef_fd := _; m_plaintextSize := n; m_headerBuffer := _; ef_lastError := 0 |}).
  assert (Hs : holds K s (zeros B) d n).
  { split; cbn; [done|apply zeros_len; lia|by rewrite Hlen|lia|done|lia| |done]. unfold len in *. rewrite length_take. lia. }
  pose proof (wp_header K HK s (zeros B) d n (fun ok s' => ok = true /\ file_rep s' d n) Hs) as Hw. destruct (wp_total _ _ _ (Hw ltac:(intros s' h' Hs' Hh'; split; [done|]; by exists h'))) as (ok & s' & Er & -> & Hrep).
  rewrite Er. by exists s'.
Qed.

(** The header of a file is read. *)
Lemma wp_readHeader s h d n0 n (Q : bool -> state -> Prop) : holds K s h d n0 -> header_ok K h n -> 0 <= n < 2 ^ 60 -> (forall s', holds K s' h d n -> Q true s') -> wp (readHeader K) s Q never.
Proof.
  intros Hs [rest Hh] Hn HQ. pose proof (B_range K HK). pose proof Hs as [H1 H2 H3 H4 H5 H6 H7 H8]. unfold readHeader, readInternal. rewrite (alignDown_eq K HK) by lia. rewrite Z.div_0_l, Z.mul_0_r by lia. change (0 - 0 >? 0) with false. cbv beta iota.
  assert (Hp8 : len (pbeEncodeInt64 n) = 8) by (unfold pbeEncodeInt64; apply (len_le_store 8)).
  assert (Hread : forall m, m = B -> exists s', ef_call (preadExact m 0 true) s = (Ok h, s') /\ holds K s' h d n0).
  { intros m ->. destruct (read_fd K HK s B 0 H8 (Z.divide_refl _) ltac:(lia)) as (s' & Ep & F1 & F2 & F3 & F4).
    pose proof (len_nonneg (E K d)) as HE. assert (Ha : available (io_file (ef_fd s)) B 0 = B) by (rewrite H1; unfold available; rewrite len_app; lia). rewrite Ha, H1 in Ep. unfold sub in Ep. change (Z.to_nat 0) with 0%nat in Ep. rewrite drop_0, take_app_length' in Ep by (unfold len in *; lia).
    exists s'. split; [done|]. split; rewrite ?F1, ?F2, ?F3; done. }
  assert (Hdec : decrypt_blocks K h B = pbeEncodeInt64 n ++ rest) by (unfold decrypt_blocks; rewrite Z.div_same by lia; change (Z.to_nat 1) with 1%nat; cbn [transform]; rewrite take_ge by (unfold len in *; lia); by rewrite app_nil_r).
  assert (Hlr : len rest = B - 8) by (pose proof (ck_dec K HK h H2) as Hx; rewrite Hh, len_app in Hx; lia).
  assert (Hfin : forall s', holds K s' h d n0 -> wp (if len (pbeEncodeInt64 n) =? 8 then (size <-- mlift (pbeDecodeInt64 (pbeEncodeInt64 n)) ;; set_plaintextSize size ;;' mret true) else mret false) s' Q never).
  { intros s' Hs'. rewrite Hp8. cbn [Z.eqb Pos.eqb]. apply wp_bind. eapply wp_lift; [|apply wp_bind, (holds_size K s' h d n0 n); [done|done|]; intros s2 Hs2; by apply wp_ret, HQ].
    pose proof (proj2 (proj2 (@pbe_roundtrip_s FileError n []))) as Hrt. rewrite app_nil_r in Hrt. apply Hrt. unfold s_ok. lia. }
  apply wp_bind. unfold read_blocks. rewrite (alignDown_eq K HK) by lia. destruct (Z.eq_dec B 8) as [He|He].
  - rewrite He. change (8 * (8 / 8)) with 8. cbn [Z.gtb Z.compare Pos.compare Pos.compare_cont]. destruct (Hread 8 (eq_sym He)) as (s1 & E1 & Hs1). apply wp_bind. eapply wp_run; [exact E1|]. cbv beta. rewrite H2, He. cbn [Z.eqb Pos.eqb negb Z.sub Z.opp Z.add Z.pos_sub app].
    unfold read_tail. cbn [Z.gtb Z.compare]. apply wp_ret.
    rewrite He in Hdec. rewrite Hdec. assert (rest = []) as -> by (destruct rest; [done|]; rewrite len_cons in Hlr; pose proof (len_nonneg rest); lia). rewrite app_nil_r. by apply Hfin.
  - assert (Hz : B * (8 / B) = 0) by (rewrite Z.div_small by lia; lia). rewrite Hz. cbn [Z.gtb Z.compare]. unfold read_tail. cbn [Z.gtb Z.compare]. destruct (Hread B eq_refl) as (s1 & E1 & Hs1). apply wp_bind. eapply wp_run; [exact E1|].
    cbv beta. rewrite H2, Z.eqb_refl. cbn [negb app]. apply wp_ret. rewrite Hdec. change (Z.to_nat 8) with 8%nat. rewrite take_app_length' by (unfold len in Hp8; lia). by apply Hfin.
Qed.

Lemma opened_file_rep s d n memory calls : file_rep s d n -> B <= len memory -> small_parts K calls -> exists s', open_file K memory calls (io_file (ef_fd s)) = Ok s' /\ file_rep s' d n.
Proof.
  intros (h & [H1 H2 H3 H4 H5 H6 H7 H8] & Hh & Hl) Hm Hc. pose proof (B_range K HK). unfold open_file. assert (Hfl : len (io_file (ef_fd s)) = B + len d) by (rewrite H1, len_app, (E_len K HK); [lia|done]).
  rewrite Hfl. assert (Hmod : (B + len d) mod B = 0) by (destruct H3 as [q ->]; replace (B + q * B) with ((1 + q) * B) by lia; apply Z.mod_mul; lia). rewrite Hmod. cbn [Z.eqb negb]. rewrite (headerSize_eq K HK).
  set (s0 := {| ef_fd := _; m_plaintextSize := 0; m_headerBuffer := _; ef_lastError := 0 |}). assert (Hs0 : holds K s0 h d 0) by (split; cbn; try done; unfold len in *; rewrite length_take; lia).
  destruct (wp_total _ _ _ (wp_readHeader s0 h d 0 n (fun ok s' => ok = true /\ holds K s' h d n) Hs0 Hh H6 (fun s' Hs' => conj eq_refl Hs'))) as (ok & s' & Er & -> & Hs').
  rewrite Er. rewrite (ho_size _ _ _ _ _ Hs'), (ho_buffer _ _ _ _ _ Hs'), (alignUp_eq K HK) by lia. rewrite <- Hl, Z.add_comm, Z.eqb_refl. cbn [negb]. exists s'. split; [done|]. by exists h.
Qed.
End Refine.

(** ** Files are plain files

    What the users of [File] rely on, as an interface that normal and encrypted
    files implement, and the theorems for both. *)

Local Open Scope Z_scope.

Inductive FileOp : Type :=
| FWrite (buffer : list Z) (offset : Z)
| FRead (size offset : Z)
| FSize.

Inductive FileResult : Type :=
| Wrote (size : Z)
| Bytes (data : list Z)
| Size (size : Z).

(** A plain file is its bytes. *)
Definition plain_op (op : FileOp) (p : list Z) : FileResult * list Z :=
  match op with
  | FWrite b o => (Wrote (len b), pwrite p o b)
  | FRead m o => (Bytes (sub p o (available p m o)), p)
  | FSize => (Size (len p), p)
  end.

Fixpoint plain_ops (ops : list FileOp) (p : list Z) : list FileResult * list Z :=
  match ops with
  | [] => ([], p)
  | op :: ops' => let '(r, p1) := plain_op op p in let '(rs, p2) := plain_ops ops' p1 in (r :: rs, p2)
  end.

Section Run.
Context {F : Type} {FO : FileOps F}.

Definition run_file_op (op : FileOp) : FM F FileResult :=
  match op with
  | FWrite b o => n <-- f_write b o ;; mret (Wrote n)
  | FRead m o => b <-- f_read m o ;; mret (Bytes b)
  | FSize => n <-- getFileSize ;; mret (Size n)
  end.

Fixpoint run_file_ops (ops : list FileOp) : FM F (list FileResult) :=
  match ops with
  | [] => mret []
  | op :: ops' => r <-- run_file_op op ;; rs <-- run_file_ops ops' ;; mret (r :: rs)
  end.
End Run.

(** A file represents a plain file, and the operations that it supports there do
    what they do to the plain file. *)
Class FileLaws (F : Type) {FO : FileOps F} : Type := {
  fl_rep : F -> list Z -> Prop;
  fl_ok : FileOp -> list Z -> Prop;
  fl_op : forall s p op, fl_rep s p -> fl_ok op p -> exists s', run_file_op op s = (Ok (fst (plain_op op p)), s') /\ fl_rep s' (snd (plain_op op p))
}.

Section Users.
Context {F : Type} {FO : FileOps F} {FL : FileLaws F}.

Fixpoint file_ops_ok (ops : list FileOp) (p : list Z) : Prop :=
  match ops with
  | [] => True
  | op :: ops' => fl_ok op p /\ file_ops_ok ops' (snd (plain_op op p))
  end.

Lemma file_ops_run ops : forall s p, fl_rep s p -> file_ops_ok ops p ->
  exists s', run_file_ops ops s = (Ok (fst (plain_ops ops p)), s') /\ fl_rep s' (snd (plain_ops ops p)).
Proof.
  induction ops as [|op ops IH]; intros s p Hs Ho; [by exists s|]. destruct Ho as [Hop Ho]. destruct (fl_op s p op Hs Hop) as (s1 & E1 & Hs1). destruct (IH s1 _ Hs1 Ho) as (s2 & E2 & Hs2).
  cbn [run_file_ops plain_ops]. run_step E1. run_step E2. destruct (plain_op op p) as [r p1]. cbn in E2, Hs2 |- *. destruct (plain_ops ops p1). by exists s2.
Qed.

(** Bytes that are written with [writeChecked] are read back by [readChecked]. *)
Lemma checked_roundtrip s p b o : fl_rep s p -> 0 <= o -> fl_ok (FWrite b o) p -> fl_ok (FRead (len b) o) (pwrite p o b) ->
  exists s1 s2, writeChecked b o s = (Ok tt, s1) /\ fl_rep s1 (pwrite p o b) /\ readChecked (len b) o s1 = (Ok b, s2).
Proof.
  intros Hs Ho Hw Hr. destruct (fl_op s p _ Hs Hw) as (s1 & E1 & Hs1). destruct (fl_op s1 _ _ Hs1 Hr) as (s2 & E2 & _). exists s1, s2. cbn [run_file_op plain_op fst snd] in *.
  assert (Hsub : sub (pwrite p o b) o (available (pwrite p o b) (len b) o) = b).
  { destruct (decide (b = [])) as [->|Hne]; [unfold available; change (len []) with 0; by rewrite Z.max_l by lia|]. pose proof (len_nonneg b) as Hlb. pose proof (len_nonneg p).
    assert (Hl : o + len b <= len (pwrite p o b)) by (unfold pwrite; destruct b as [|x b']; [done|]; rewrite overwrite_len; unfold len in *; rewrite ?length_app, ?repeat_length; cbn [length] in *; lia).
    unfold available. rewrite Z.min_l, Z.max_r by lia. apply list_eq. intros j. rewrite sub_lookup, pwrite_lookup by done. case_decide.
    - rewrite decide_True by lia. f_equal. lia.
    - symmetry. apply lookup_ge_None_2. unfold len in *. lia. }
  rewrite Hsub in E2. unfold writeChecked, readChecked. unfold mbind in E1, E2. destruct (f_write b o s) as [[n|e|u] s'] eqn:Ew; [|done|done]. injection E1 as -> ->. destruct (f_read (len b) o s1) as [[c|e|u] s'] eqn:Er; [|done|done]. injection E2 as -> ->.
  run_step Ew. rewrite Z.eqb_refl. split; [done|]. split; [done|]. run_step Er. by rewrite Z.eqb_refl.
Qed.
End Users.

(** ** Normal files *)

#[export] Instance NormalFile_laws : FileLaws NormalFile.
Proof.
  refine {| fl_rep := fun s p => io_file (nf_fd s) = p /\ smooth 0 0 (io_calls (nf_fd s)); fl_ok := fun op p => match op with FWrite _ o | FRead _ o => 0 <= o < 2 ^ 62 | FSize => True end |}.
  intros s p [b o|m o|] [<- Hc] Hop; cbn [run_file_op plain_op fst snd]; unfold mbind.
  - cbn. unfold nf_write, mbind, nf_call, fd_call, pwriteExact. destruct (pwrite_loop_ok 0 (io_calls (nf_fd s)) (io_file (nf_fd s)) b o (io_errno (nf_fd s)) Hc ltac:(lia) ltac:(lia)) as (calls & errno & -> & Hc').
    { destruct b as [|x b']; [by left|right]. unfold len. cbn [length]. lia. }
    rewrite Z.eqb_refl. cbn. by eexists.
  - cbn. unfold nf_read, mbind, nf_call, fd_call, preadExact. destruct (pread_loop_ok 0 (io_calls (nf_fd s)) 0 (io_file (nf_fd s)) 0 m o (io_errno (nf_fd s)) Hc) as (calls & errno & -> & Hc'); [lia|lia|lia|lia|].
    destruct (negb _); cbn; by eexists.
  - by eexists.
Defined.

(** ** Encrypted files *)

Section Encrypted.
Context (K : cipher) (HK : cipher_ok K).
Notation B := (c_blockSize K).

(** The write leaves the size as it should be. *)
Definition regular (n o m : Z) : Prop := spec_size K n o m = Z.max n (o + m).

Definition plain (s : EncryptedFile) (p : list Z) : Prop := exists d n, file_rep K s d n /\ p = take (Z.to_nat n) d.
Definition encrypted_ok (op : FileOp) (p : list Z) : Prop :=
  match op with
  | FWrite b o => 0 <= o <= len p /\ len p + len b + B < 2 ^ 58 /\ regular (len p) o (len b)
  | FRead m o => 0 <= o /\ 0 <= m /\ o + m <= len p
  | FSize => True
  end.

Lemma file_rep_len s d n : file_rep K s d n -> 0 <= n /\ len (take (Z.to_nat n) d) = n /\ n <= len d /\ len d = up K n.
Proof.
  intros (h & Hs & _ & Hl). pose proof (ho_range _ _ _ _ _ Hs). destruct (up_spec K HK n ltac:(lia)) as [Hu _]. split; [lia|]. split; [|lia]. unfold len in *. rewrite length_take. lia.
Qed.

Lemma splice_plain d n o b : 0 <= o <= n -> n <= len d -> take (Z.to_nat (Z.max n (o + len b))) (splice K d o b) = pwrite (take (Z.to_nat n) d) o b.
Proof.
  intros Ho Hn. pose proof (len_nonneg b) as Hb. assert (Hlt : len (take (Z.to_nat n) d) = n) by (unfold len in *; rewrite length_take; lia). unfold splice. destruct (decide (b = [])) as [->|Hne].
  { change (len []) with 0. rewrite Z.add_0_r, Z.max_l by lia. cbn. unfold pad. rewrite take_app_le by (unfold len in *; lia). done. }
  pose proof (len_nonneg (zeros (up K (o + len b) - len d))) as Hz. assert (Hpad : len (pad K d (o + len b)) = len d + len (zeros (up K (o + len b) - len d))) by (unfold pad; apply len_app).
  apply list_eq. intros j. rewrite lookup_take, !pwrite_lookup by (done || lia). rewrite Hpad, Hlt. destruct (decide (o <= Z.of_nat j < o + len b)) as [H1|H1].
  - by rewrite decide_True by lia.
  - destruct (decide (Z.of_nat j < n)) as [H2|H2].
    + rewrite decide_True, decide_True by lia. unfold pad. rewrite lookup_app_l by (unfold len in *; lia). symmetry. apply lookup_take_lt. lia.
    + rewrite decide_False by lia. by rewrite decide_False by lia.
Qed.

#[export] Instance EncryptedFile_laws : FileLaws EncryptedFile (FO := EncryptedFile_ops K).
Proof.
  refine {| fl_rep := plain; fl_ok := encrypted_ok |}. intros s p [b o|m o|] (d & n & Hrep & ->) Hop; cbn [run_file_op plain_op fst snd]; destruct (file_rep_len s d n Hrep) as (Hn & Hl & Hnd & Hd); unfold mbind.
  - destruct Hop as (Ho & Hsm & Hreg). rewrite Hl in Ho, Hsm, Hreg. cbn [f_write EncryptedFile_ops].
    destruct (wp_total _ _ _ (wp_ef_write K HK s d n o b (fun r s' => r = len b /\ file_rep K s' (splice K d o b) (spec_size K n o (len b))) Hrep Ho Hsm (fun s' Hs' => conj eq_refl Hs'))) as (r & s' & E & -> & Hs').
    rewrite E. exists s'. split; [done|]. exists (splice K d o b), (spec_size K n o (len b)). split; [done|]. rewrite Hreg. symmetry. by apply splice_plain.
  - destruct Hop as (Ho & Hm & Hle). rewrite Hl in Hle. destruct Hrep as (h & Hs & Hh & Hlen). cbn [f_read EncryptedFile_ops].
    destruct (wp_total _ _ _ (wp_read K HK s h d n o m (fun r s' => r = sub d o m /\ holds K s' h d n) Hs Ho Hm ltac:(lia) (fun s' Hs' => conj eq_refl Hs'))) as (r & s' & E & -> & Hs').
    rewrite E. exists s'. split; [|by exists d, n; split; [exists h|]]. unfold mret. do 3 f_equal. assert (Ha : available (take (Z.to_nat n) d) m o = m) by (unfold available; rewrite Hl; lia). rewrite Ha.
    apply list_eq. intros j. rewrite !sub_lookup. case_decide; [|done]. symmetry. apply lookup_take_lt. lia.
  - exists s. cbn. split; [|by exists d, n]. unfold gets, mret. rewrite Hl. destruct Hrep as (h & Hs & _). by rewrite (ho_size _ _ _ _ _ Hs).
Defined.
End Encrypted.

(** ** The theorems *)

Section Theorems.
Context (K : cipher) (HK : cipher_ok K) (memory : list Z) (calls : list syscall) (n : Z).
Context (Hn : 0 <= n) (Hsmall : n + 2 * c_blockSize K <= 2 ^ 32) (Hmemory : c_blockSize K <= len memory) (Hcalls : small_parts K calls).

(** What a new file has: the decryption of zeroes. *)
Definition initial : list Z := take (Z.to_nat n) (decrypt_blocks K (zeros (up K n)) (up K n)).

Lemma create_plain : exists s, create_file K memory calls n = Ok s /\ plain K s initial.
Proof. destruct (created_file_rep K HK memory calls n Hn Hsmall Hmemory Hcalls) as (s & E & Hs). exists s. split; [done|]. by eexists _, n. Qed.

Section Runs.
Context (ops : list FileOp) (Hops : file_ops_ok (FL := EncryptedFile_laws K HK) ops initial).

(** C23: a new encrypted file behaves as a plain file under every sequence of
    reads inside the file, size requests, and writes that begin inside the file or
    at its end and are regular: the exception are writes that begin at or before
    the last block of the file and end inside that block behind the end of the
    file, which leave the size as it was.  Reads return the bytes written last,
    writes report all bytes, the size is the size.  This holds for every block
    cipher, provided that no system call fails and that the calls of a transfer
    before the last one move less than half a block together (they may be
    interrupted by signals any number of times).  A transfer that stops at or
    behind the half is reported as incomplete by the code, see [half_write]. *)
Theorem encrypted_file_refines :
  exists s s', create_file K memory calls n = Ok s /\ run_file_ops (FO := EncryptedFile_ops K) ops s = (Ok (fst (plain_ops ops initial)), s').
Proof.
  destruct create_plain as (s & E & Hs). destruct (file_ops_run (FL := EncryptedFile_laws K HK) ops s initial Hs Hops) as (s' & E' & _). by exists s, s'.
Qed.

(** C24: an encrypted file that was created and then changed by such operations
    (regular writes that begin inside the file or at its end) and is opened again
    has the same size and data, and goes on as a plain file under further
    operations of that kind.  The system calls of both sessions do not fail and
    move less than half a block before the last call of a transfer. *)
Theorem encrypted_file_persistent memory' calls' ops2 : c_blockSize K <= len memory' -> small_parts K calls' ->
  file_ops_ok (FL := EncryptedFile_laws K HK) ops2 (snd (plain_ops ops initial)) ->
  exists s s' s2, create_file K memory calls n = Ok s /\ snd (run_file_ops (FO := EncryptedFile_ops K) ops s) = s' /\
    open_file K memory' calls' (io_file (ef_fd s')) = Ok s2 /\
    fst (run_file_ops (FO := EncryptedFile_ops K) ops2 s2) = Ok (fst (plain_ops ops2 (snd (plain_ops ops initial)))).
Proof.
  intros Hm Hc Ho2. destruct create_plain as (s & E & Hs). destruct (file_ops_run (FL := EncryptedFile_laws K HK) ops s initial Hs Hops) as (s' & E' & (d & m & Hrep & Hp)).
  destruct (opened_file_rep K HK s' d m memory' calls' Hrep Hm Hc) as (s2 & Eo & Hs2). exists s, s', s2. split; [done|]. split; [by rewrite E'|]. split; [done|].
  assert (Hpl : fl_rep (FileLaws := EncryptedFile_laws K HK) s2 (snd (plain_ops ops initial))) by (by exists d, m). destruct (file_ops_run ops2 s2 _ Hpl Ho2) as (s3 & E3 & _). by rewrite E3.
Qed.
End Runs.

(** a write that begins at or before the beginning of the last block of the
    file and ends in that block behind the end of the file reports that all bytes
    were written, but the size stays as it was. *)
Theorem encrypted_size_lost b o : 0 <= o -> o <= c_blockSize K * ((o + len b) / c_blockSize K) < n -> n < o + len b -> (o + len b) mod c_blockSize K <> 0 -> len b < 2 ^ 32 ->
  exists s s', create_file K memory calls n = Ok s /\ run_file_ops (FO := EncryptedFile_ops K) [FWrite b o; FSize] s = (Ok [Wrote (len b); Size n], s').
Proof.
  intros Ho Hlast Hend Hmod Hb. pose proof (B_range K HK). destruct (created_file_rep K HK memory calls n Hn Hsmall Hmemory Hcalls) as (s & E & Hs). exists s.
  destruct (wp_total _ _ _ (wp_ef_write K HK s _ n o b (fun r s' => r = len b /\ file_rep K s' _ (spec_size K n o (len b))) Hs ltac:(lia) ltac:(lia) (fun s' Hs' => conj eq_refl Hs'))) as (r & s' & Ew & -> & (h & Hs' & _)).
  exists s'. split; [done|]. cbn [run_file_ops run_file_op f_write getFileSize EncryptedFile_ops]. unfold mbind. rewrite Ew. unfold gets, mret. do 2 f_equal. rewrite (ho_size _ _ _ _ _ Hs'). unfold spec_size. cbv zeta. rewrite (proj2 (Z.eqb_neq _ 0)), (proj2 (Z.leb_le o _)), (proj2 (Z.ltb_lt _ _)) by lia. done.
Qed.
End Theorems.

(** ** Concrete files *)

Lemma xor_cipher_ok key : cipher_ok (xor_cipher 16 key).
Proof.
  split; cbn.
  - by exists 4.
  - intros b Hb. unfold len in *. by rewrite length_map.
  - intros b Hb. unfold len in *. by rewrite length_map.
  - intros b _. rewrite map_map. rewrite <- (map_id b) at 2. apply map_ext. intros x. by rewrite <- Z.lxor_assoc, Z.lxor_nilpotent, Z.lxor_0_l.
  - intros b _. rewrite map_map. rewrite <- (map_id b) at 2. apply map_ext. intros x. by rewrite <- Z.lxor_assoc, Z.lxor_nilpotent, Z.lxor_0_l.
Qed.

Definition sample_cipher : cipher := xor_cipher 16 85.
Definition counting (n : nat) : list Z := map Z.of_nat (seq 1 n).
Definition sample_file_ops : list FileOp := [FWrite (counting 20) 0; FSize; FWrite [99; 98; 97] 14; FRead 8 10; FWrite (counting 40) 20; FSize; FRead 4 56].

Lemma encrypted_file_refines_witness :
  exists s s', create_file sample_cipher (repeat 7 16) [Transfer 3; Interrupted] 0 = Ok s /\
    run_file_ops (FO := EncryptedFile_ops sample_cipher) sample_file_ops s =
      (Ok [Wrote 20; Size 20; Wrote 3; Bytes [11; 12; 13; 14; 99; 98; 97; 18]; Wrote 40; Size 60; Bytes [37; 38; 39; 40]], s').
Proof.
  destruct (encrypted_file_refines sample_cipher (xor_cipher_ok 85) (repeat 7 16) [Transfer 3; Interrupted] 0) with (ops := sample_file_ops) as (s & s' & H1 & H2).
  - lia.
  - vm_compute. discriminate.
  - vm_compute. discriminate.
  - repeat constructor.
  - vm_compute. repeat split; discriminate || reflexivity.
  - exists s, s'. split; [exact H1|]. rewrite H2. vm_compute. reflexivity.
Defined.

Lemma encrypted_file_persistent_witness :
  exists s s' s2, create_file sample_cipher (repeat 7 16) [Interrupted; Transfer 5; Complete; Transfer 2; Transfer 5] 0 = Ok s /\ snd (run_file_ops (FO := EncryptedFile_ops sample_cipher) sample_file_ops s) = s' /\
    open_file sample_cipher (repeat 3 16) [Transfer 7; Interrupted; Complete] (io_file (ef_fd s')) = Ok s2 /\
    fst (run_file_ops (FO := EncryptedFile_ops sample_cipher) [FSize; FRead 5 13] s2) = Ok [Size 60; Bytes [14; 99; 98; 97; 18]].
Proof.
  destruct (encrypted_file_persistent sample_cipher (xor_cipher_ok 85) (repeat 7 16) [Interrupted; Transfer 5; Complete; Transfer 2; Transfer 5] 0) with (ops := sample_file_ops) (memory' := repeat 3 16) (calls' := [Transfer 7; Interrupted; Complete]) (ops2 := [FSize; FRead 5 13]) as (s & s' & s2 & H1 & H2 & H3 & H4).
  - lia.
  - vm_compute. discriminate.
  - vm_compute. discriminate.
  - constructor.
  - vm_compute. repeat split; discriminate || reflexivity.
  - vm_compute. discriminate.
  - constructor.
  - vm_compute. repeat split; discriminate || reflexivity.
  - exists s, s', s2. split; [exact H1|]. split; [exact H2|]. split; [exact H3|]. rewrite H4. vm_compute. reflexivity.
Defined.

Lemma encrypted_size_lost_witness :
  exists s s', create_file sample_cipher (repeat 7 16) [] 5 = Ok s /\ 
    run_file_ops (FO := EncryptedFile_ops sample_cipher) [FWrite (counting 10) 0; FSize] s = (Ok [Wrote 10; Size 5], s').
Proof.
  apply (encrypted_size_lost sample_cipher (xor_cipher_ok 85) (repeat 7 16) [] 5); try (vm_compute; (discriminate || reflexivity)); try constructor; vm_compute; (discriminate || reflexivity).
Defined.

Definition after {A} (c : FM EncryptedFile A) (o : outcome FileError EncryptedFile) : outcome FileError EncryptedFile :=
  match o with Ok s => Ok (snd (c s)) | Throw e => Throw e | Undef u => Undef u end.
Definition result {A} (c : FM EncryptedFile A) (o : outcome FileError EncryptedFile) : outcome FileError A :=
  match o with Ok s => fst (c s) | Throw e => Throw e | Undef u => Undef u end.

(** Bytes that are written behind the end, not at a block, are not found: the
    block is stored one block too far. *)
Example gap_write_lost :
  let file := after (ef_write sample_cipher [1; 2; 3; 4] 4) (create_file sample_cipher (repeat 7 16) [] 0) in
  result (ef_read sample_cipher 4 4) file = Ok [85; 85; 85; 85].
Proof. vm_compute. reflexivity. Qed.

(** A file that is extended inside its last block cannot be opened again. *)
Example extended_not_opened :
  let file := after (ef_extend sample_cipher 10) (after (ef_write sample_cipher (counting 15) 0) (create_file sample_cipher (repeat 7 16) [] 0)) in
  match file with Ok s => open_file sample_cipher (repeat 7 16) [] (io_file (ef_fd s)) | _ => file end = Throw InvalidDataSize.
Proof. vm_compute. reflexivity. Qed.

(** Neither can one that is extended by a whole block: the space is allocated one
    header too early. *)
Example extended_block_not_opened :
  let file := after (ef_extend sample_cipher 16) (create_file sample_cipher (repeat 7 16) [] 1023) in
  match file with Ok s => open_file sample_cipher (repeat 7 16) [] (io_file (ef_fd s)) | _ => file end = Throw InvalidDataSize.
Proof. vm_compute. reflexivity. Qed.

(** A call that writes the first nine bytes of a block of sixteen makes the write
    fail, and the constructor with it. *)
Example half_write : create_file sample_cipher (repeat 7 16) [Transfer 9] 0 = Throw (SystemError 0).
Proof. vm_compute. reflexivity. Qed.
