(* ===== verification/RecordReader.v ===== *)
(** * Reading and keeping catalog records

    Models what the records of [dbengine/reg] share: the steps their [deserialize]
    functions are made of ([Helpers.cpp] and the repeated blocks of the record
    files), and the registries, which are Boost multi-index containers.

    A reader gets what is left of the buffer and gives a value and the number of
    bytes it used; [rthen] runs the next step on [buffer + totalConsumed] with
    [length - totalConsumed]. *)

From stdpp Require Import base gmap list strings.
Set Warnings "-clear-no-such-hyp,-notation-incompatible-prefix,-notation-for-abbreviation".
From Stdlib Require Import ZArith Lia.
From S2P Require Import Prelude VarInt Codec ColumnRecords.

Local Open Scope Z_scope.

(** ** Errors: [DeserializationError] with the messages of [Helpers.cpp] *)

Inductive RecordError : Type :=
| FieldFailure (className fieldName : string) (cause : DeserializationError)
| ItemFailure (className fieldName : string) (index : Z) (cause : RecordError)
| DataCorruption (className fieldName : string)
| NotEnough (className fieldName : string)
| ClassUuidMismatch (className : string) (actual required : list Z)
| ClassVersionMismatch (className : string) (actual supported : Z).

Definition reportInvalidOrNotEnoughData (className fieldName : string) (errorCode : Z) : RecordError :=
  if errorCode <? 0 then DataCorruption className fieldName else NotEnough className fieldName.

(** ** Steps *)

Definition Reader (A : Type) : Type := list Z -> Z -> outcome RecordError (A * Z).

Definition rdone {A} (a : A) : Reader A := fun _ _ => Ok (a, 0).

Definition rthen {A B} (r : Reader A) (k : A -> Reader B) : Reader B := fun buffer length =>
  '(a, n) <- r buffer length ;;
  '(b, m) <- k a (skipn (Z.to_nat n) buffer) (uw 64 (length - n)) ;;
  Ok (b, n + m).

Declare Scope reader_scope.
Delimit Scope reader_scope with reader.
Notation "x <~ r ; k" := (rthen r (fun x => k)) (at level 100, r at next level, right associativity) : reader_scope.

Section Steps.
Context (className : string).

Definition decoder_result (consumed : Z) : Z := consumed.

(** A [decodeVarInt] with its check.  [report] is the error code that is
    reported: the result of the decoder in most places. *)
Definition read_varint (report : Z -> Z) (fieldName : string) (w : width) : Reader Z := fun buffer length =>
  d <- lift (decodeVarInt false w buffer length) ;;
  match d with
  | Consumed consumed v => Ok (v, consumed)
  | NotEnoughData => Throw (reportInvalidOrNotEnoughData className fieldName (report 0))
  | Corrupt => Throw (reportInvalidOrNotEnoughData className fieldName (report (-1)))
  end.

(** [deserializeObject] in a [try] block. *)
Definition read_object {A} (fieldName : string) (dec : list Z -> Z -> outcome DeserializationError (A * Z)) : Reader A := fun buffer length =>
  match dec buffer length with
  | Ok x => Ok x
  | Throw e => Throw (FieldFailure className fieldName e)
  | Undef u => Undef u
  end.

Definition read_bool (fieldName : string) : Reader bool := fun buffer length =>
  if length <? 1 then Throw (NotEnough className fieldName)
  else b <- rd buffer 0 ;; Ok (negb (b =? 0), 1).

Definition read_uuid (fieldName : string) : Reader (list Z) := fun buffer length =>
  if length <? 16 then Throw (NotEnough className fieldName)
  else u <- memrd buffer 0 16 ;; Ok (u, 16).

Definition rcheck (ok : bool) (e : RecordError) : Reader unit := fun _ _ => if ok then Ok (tt, 0) else Throw e.

(** The class UUID and version that every record begins with. *)
Definition read_class (classUuid : list Z) (kClassVersion : Z) : Reader Z := (
  uuid <~ read_uuid "$classUuid" ;
  _ <~ rcheck (bool_decide (uuid = classUuid)) (ClassUuidMismatch className uuid classUuid) ;
  classVersion <~ read_varint decoder_result "$classVersion" W32 ;
  _ <~ rcheck (negb (classVersion >? kClassVersion)) (ClassVersionMismatch className classVersion kClassVersion) ;
  rdone classVersion)%reader.

(** The loop over nested records, which inserts each into the registry.  Every
    record takes bytes, so the bytes of the buffer bound the iterations. *)
Fixpoint read_nested {R T} (fuel : nat) (fieldName : string) (read : Reader R) (insert : R -> T -> T) (index count : Z) (items : T) : Reader T :=
  fun buffer length =>
  if index <? count then
    match fuel with
    | O => Undef NoProgress
    | S fuel' =>
        match read buffer length with
        | Ok (r, n) =>
            '(t, m) <- read_nested fuel' fieldName read insert (index + 1) count (insert r items) (skipn (Z.to_nat n) buffer) (uw 64 (length - n)) ;;
            Ok (t, n + m)
        | Throw e => Throw (ItemFailure className fieldName index e)
        | Undef u => Undef u
        end
    end
  else Ok (items, 0).

Definition read_registry {R T} (fieldName : string) (read : Reader R) (insert : R -> T -> T) (empty : T) (count : Z) : Reader T := fun buffer length =>
  read_nested (S (List.length buffer)) fieldName read insert 0 count empty buffer length.
End Steps.

(** ** Registries

    A registry is the set of its records: the first index is unique by ID, and
    [unique] says when two records have the same key in another unique index.
    [insert] does nothing then. *)

Class Indexed (R : Type) : Type := { m_id_of : R -> Z; unique : R -> R -> bool }.

Notation Registry := (gmap Z).

Section Registries.
Context {R : Type} {I : Indexed R}.

Definition registry_insert (r : R) (m : Registry R) : Registry R :=
  match m !! m_id_of r with
  | Some _ => m
  | None => if bool_decide (map_Forall (fun _ r' => unique r r' = false) m) then <[m_id_of r := r]> m else m
  end.

(** Every record is found by its ID, and no two share a unique key. *)
Definition registry_ok (m : Registry R) : Prop :=
  map_Forall (fun i r => m_id_of r = i) m /\
  (forall i j r r', m !! i = Some r -> m !! j = Some r' -> i <> j -> unique r r' = false).
End Registries.

(** The orders in which Boost traverses a hashed index: any order of the
    records. *)
Class Traversal : Type := {
  byId : forall {R : Type}, Registry R -> list R;
  byOtherKey : forall {R : Type}, Registry R -> list R;
  byId_records : forall R (m : Registry R), byId m ≡ₚ (map_to_list m).*2;
  byOtherKey_records : forall R (m : Registry R), byOtherKey m ≡ₚ (map_to_list m).*2
}.

(** One such order, for concrete runs. *)
Definition list_traversal : Traversal.
Proof. refine {| byId R m := (map_to_list m).*2; byOtherKey R m := (map_to_list m).*2 |}; done. Defined.

(** [size], as the 32-bit count that is stored. *)
Definition registry_count {R} (m : Registry R) : Z := uw 32 (Z.of_nat (size m)).

(** ** Writing *)

Definition sum_sizes {R} (f : R -> Z) (l : list R) : Z := foldr (fun r n => f r + n) 0 l.
Definition write_all {R} (f : R -> list Z) (l : list R) : list Z := concat (map f l).
Definition write_bool (b : bool) : list Z := [if b then 1 else 0].

(** ** What the steps read back

    [settled rest]: an integer before [rest] is accepted by the last-byte test of
    the decoders: [rest] is empty, ends with a byte below 0x80, or is long. *)

Definition settled (l : list Z) : Prop := bytes_ok l /\ (l = [] \/ List.last l 0 < 128 \/ 8 <= len l).
Definition firm (l : list Z) : Prop := l <> [] /\ settled l.

Definition reads {A} (r : Reader A) (enc : list Z) (a : A) (rest : list Z) : Prop :=
  len (enc ++ rest) < 2 ^ 64 -> r (enc ++ rest) (len (enc ++ rest)) = Ok (a, len enc).

Lemma settled_nil : settled [].
Proof. split; [constructor|by left]. Qed.

Lemma firm_settled l : firm l -> settled l.
Proof. by intros [_ H]. Qed.

Lemma firm_app a b : bytes_ok a -> firm b -> firm (a ++ b).
Proof.
  intros Ha [Hn [Hb Hl]]. split; [intros E; apply app_eq_nil in E; tauto|]. split; [by apply Forall_app|].
  rewrite last_app_ne by done. rewrite len_app. pose proof (len_nonneg a). destruct Hl as [->|[Hl|Hl]]; [done|by right; left|right; right; lia].
Qed.

Lemma firm_before a b : firm a -> settled b -> firm (a ++ b).
Proof.
  intros Ha Hb. destruct b as [|x b]; [by rewrite app_nil_r|]. apply firm_app; [apply Ha|]. by split.
Qed.

Lemma closed_firm a : closed a -> firm a.
Proof. intros [Hn [Ha Hl]]. split; [done|]. split; [done|]. destruct Hl as [->|Hl]; [done|by right; left]. Qed.

Lemma varint_firm w v : u_ok (bits w) v -> firm (encodeVarInt false w v).
Proof. intros Hv. by apply closed_firm, encode_closed. Qed.

Lemma bool_firm b : firm (write_bool b).
Proof. split; [done|]. split; [destruct b; repeat constructor; cbn; lia|]. right; left. destruct b; cbn; lia. Qed.

(** A text at the end of a record: it ends with a byte below 0x80, or is long. *)
Definition text_ok (s : list Z) : Prop := bytes_ok s /\ len s < 2 ^ 64 /\ (s = [] \/ List.last s 0 < 128 \/ 6 <= len s).

Lemma string_firm s : bytes_ok s -> len s < 2 ^ 64 -> (s = [] \/ List.last s 0 < 128 \/ 7 <= len s) -> firm (serializeUnchecked_string s).
Proof.
  intros Hs Hl Ht. assert (Hv : u_ok (bits W64) (len s)) by (pose proof (len_nonneg s); split; cbn; lia). unfold serializeUnchecked_string.
  destruct s as [|x s]; [rewrite app_nil_r; by apply varint_firm|]. destruct (varint_firm W64 _ Hv) as [Hn [Hb _]]. pose proof (encodeVarInt_len false W64 (len (x :: s))).
  split; [intros E; apply app_eq_nil in E as [E _]; by rewrite E in *|]. split; [by apply Forall_app|]. rewrite last_app_ne, len_app by done. right.
  destruct Ht as [?|[Ht|Ht]]; [done|by left|right; lia].
Qed.

Lemma description_firm d : match d with Some s => text_ok s | None => True end -> firm (serializeUnchecked_opt serializeUnchecked_string d).
Proof.
  destruct d as [s|]; [|intros _; split; [done|]; split; [repeat constructor; cbn; lia|right; left; cbn; lia]]. intros (Hs & Hl & Ht).
  assert (Hv : u_ok (bits W64) (len s)) by (pose proof (len_nonneg s); split; cbn; lia). destruct (varint_firm W64 _ Hv) as [Hn [Hb Hf]]. cbn [serializeUnchecked_opt]. unfold serializeUnchecked_string.
  split; [done|]. split; [constructor; [split; lia|by apply Forall_app]|]. right. pose proof (encodeVarInt_len false W64 (len s)).
  change (1 :: encodeVarInt false W64 (len s) ++ s) with ([1] ++ encodeVarInt false W64 (len s) ++ s). rewrite last_app_ne by (intros E; apply app_eq_nil in E as [E _]; by rewrite E in *).
  destruct s as [|x s]; [left; vm_compute; reflexivity|]. rewrite last_app_ne, !len_app by done. destruct Ht as [?|[Ht|Ht]]; [done|by left|right]. change (len [1]) with 1. lia.
Qed.

Lemma settled_decodable w v rest : settled rest -> u_ok (bits w) v -> decodable w (encodeVarInt false w v) rest.
Proof.
  intros [Hr Hs] Hv. destruct (encode_closed w v Hv) as [Hn [Hb Hl]]. unfold decodable.
  destruct (Z.eq_dec (len (encodeVarInt false w v)) 1) as [H1|H1]; [by left|right]. pose proof (encodeVarInt_len false w v).
  destruct Hs as [->|[Hs|Hs]].
  - right. rewrite app_nil_r. destruct Hl as [->|Hl]; [done|exact Hl].
  - right. destruct rest as [|x rest]; [rewrite app_nil_r; destruct Hl as [->|Hl]; [done|exact Hl]|]. by rewrite last_app_ne.
  - left. rewrite len_app. assert (kMaxSerializedIntSize w <= 10) by (destruct w; vm_compute; discriminate). lia.
Qed.

Section Reads.
Context (cls : string).

Lemma reads_done {A} (a : A) rest : reads (rdone a) [] a rest.
Proof. done. Qed.

Lemma reads_then {A B} (r : Reader A) (k : A -> Reader B) e1 e2 a b rest : reads r e1 a (e2 ++ rest) -> reads (k a) e2 b rest -> reads (rthen r k) (e1 ++ e2) b rest.
Proof.
  unfold reads, rthen. rewrite <- app_assoc. intros H1 H2 Hl. rewrite H1 by done. cbn [bind]. rewrite skipn_len_app.
  rewrite (len_app e1 (e2 ++ rest)) in *. pose proof (len_nonneg e1). pose proof (len_nonneg (e2 ++ rest)). replace (len e1 + len (e2 ++ rest) - len e1) with (len (e2 ++ rest)) by lia.
  rewrite uw_small by (unfold u_ok; lia). rewrite H2 by lia. cbn [bind]. by rewrite len_app.
Qed.

(** A step that takes no bytes. *)
Lemma reads_then_0 {A B} (r : Reader A) (k : A -> Reader B) e a b rest : reads r [] a (e ++ rest) -> reads (k a) e b rest -> reads (rthen r k) e b rest.
Proof. intros H1 H2. by apply (reads_then r k [] e a). Qed.

(** The last step. *)
Lemma reads_map {A B} (r : Reader A) (f : A -> B) e a rest : reads r e a rest -> reads (rthen r (fun x => rdone (f x))) e (f a) rest.
Proof. intros H. rewrite <- (app_nil_r e). apply (reads_then _ _ _ _ a); [done|apply reads_done]. Qed.

Lemma reads_varint report field w v rest : u_ok (bits w) v -> settled rest -> reads (read_varint cls report field w) (encodeVarInt false w v) v rest.
Proof.
  intros Hv Hr _. unfold read_varint. rewrite decodeVarInt_encode; [done|exact Hv|apply Hr|by apply settled_decodable].
Qed.

Lemma reads_object {A} {C : Codec DeserializationError A} {L : CodecLaws DeserializationError A} field (a : A) rest :
  valid a -> bytes_ok rest -> follows a rest -> reads (read_object cls field des) (ser a) a rest.
Proof. intros Ha Hr Hf _. unfold read_object. by rewrite des_ser. Qed.

Lemma reads_string field s rest : bytes_ok s -> len s < 2 ^ 64 -> bytes_ok rest -> reads (read_object cls field deserializeObject_string) (serializeUnchecked_string s) s rest.
Proof. intros H1 H2 Hr. by apply (reads_object (C := string_codec) field s rest (conj H1 H2) Hr). Qed.

Lemma reads_bool field b rest : reads (read_bool cls field) (write_bool b) b rest.
Proof.
  intros _. unfold read_bool, write_bool. cbn [app]. rewrite len_cons. pose proof (len_nonneg rest). rewrite (proj2 (Z.ltb_ge _ 1)) by lia. by destruct b.
Qed.

Lemma reads_uuid field u rest : len u = 16 -> reads (read_uuid cls field) u u rest.
Proof.
  intros Hu _. unfold read_uuid. rewrite len_app. pose proof (len_nonneg rest). rewrite (proj2 (Z.ltb_ge _ 16)) by lia. rewrite (memrd_head u rest) by done. by rewrite Hu.
Qed.

Lemma reads_class uuid kver version rest : len uuid = 16 -> u_ok 32 version -> version <= kver -> settled rest ->
  reads (read_class cls uuid kver) (uuid ++ encodeVarInt false W32 version) version rest.
Proof.
  intros Hu Hv Hk Hr. unfold read_class. apply (reads_then _ _ _ _ uuid); [by apply reads_uuid|].
  apply (reads_then_0 _ _ _ tt); [by unfold rcheck; rewrite bool_decide_eq_true_2|]. rewrite <- (app_nil_r (encodeVarInt _ _ _)).
  apply (reads_then _ _ _ _ version); [by apply reads_varint|]. apply (reads_then_0 _ _ _ tt); [|apply reads_done].
  intros _. unfold rcheck. by rewrite Z.gtb_ltb, (proj2 (Z.ltb_ge _ _)).
Qed.
End Reads.

(** ** Registries are read back *)

Section Items.
Context {R T : Type} (cls : string) (read : Reader R) (f : R -> list Z) (ok : R -> Prop) (insert : R -> T -> T).
Context (Hfirm : forall r, ok r -> firm (f r)) (Hread : forall r rest, ok r -> settled rest -> reads read (f r) r rest).

Lemma write_all_settled l : Forall ok l -> settled (write_all f l).
Proof using Hfirm. induction 1 as [|r l Hr _ IH]; [apply settled_nil|]. apply firm_settled, firm_before; [by apply Hfirm|exact IH]. Qed.

Lemma write_all_before l rest : Forall ok l -> settled rest -> settled (write_all f l ++ rest).
Proof using Hfirm.
  intros Hl Hr. destruct rest as [|x rest]; [rewrite app_nil_r; by apply write_all_settled|]. apply firm_settled, firm_app; [|by split]. by apply write_all_settled.
Qed.

Lemma reads_items field l fuel index count t rest : Forall ok l -> settled rest -> count = index + len l -> (length l <= fuel)%nat ->
  reads (read_nested cls fuel field read insert index count t) (write_all f l) (foldl (fun t r => insert r t) t l) rest.
Proof using Hfirm Hread.
  intros Hl Hrest. revert fuel index t. induction Hl as [|r l Hr Hl IH]; intros fuel index t Hc Hf Hsmall.
  - rewrite len_nil in Hc. destruct fuel; cbn [read_nested]; by rewrite (proj2 (Z.ltb_ge _ _)) by lia.
  - rewrite len_cons in Hc. pose proof (len_nonneg l). destruct fuel as [|fuel]; [cbn in Hf; lia|]. cbn [read_nested]. rewrite (proj2 (Z.ltb_lt _ _)) by lia.
    change (write_all f (r :: l)) with (f r ++ write_all f l) in *. rewrite <- app_assoc in *. rewrite (Hread r (write_all f l ++ rest) Hr (write_all_before l rest Hl Hrest) Hsmall).
    rewrite skipn_len_app, (len_app (f r) (write_all f l ++ rest)) in *. pose proof (len_nonneg (f r)). pose proof (len_nonneg (write_all f l ++ rest)).
    replace (len (f r) + len (write_all f l ++ rest) - len (f r)) with (len (write_all f l ++ rest)) by lia. rewrite uw_small by (unfold u_ok; lia).
    rewrite (IH fuel (index + 1) (insert r t)) by (lia || (cbn in Hf; lia)). cbn [bind]. by rewrite (len_app (f r)).
Qed.

Lemma write_all_length l : Forall ok l -> (length l <= length (write_all f l))%nat.
Proof using Hfirm.
  induction 1 as [|r l Hr _ IH]; [done|]. change (write_all f (r :: l)) with (f r ++ write_all f l). rewrite length_app. destruct (Hfirm r Hr) as [Hn _]. destruct (f r); [done|cbn; lia].
Qed.

Lemma reads_registry field empty l rest : Forall ok l -> settled rest ->
  reads (read_registry cls field read insert empty (len l)) (write_all f l) (foldl (fun t r => insert r t) empty l) rest.
Proof using Hfirm Hread.
  intros Hl Hr. unfold read_registry. intros Hsmall. apply reads_items; [done|done|lia| |done]. rewrite length_app. pose proof (write_all_length l Hl). lia.
Qed.
End Items.

Section Rebuild.
Context {R : Type} {I : Indexed R}.

(** Inserting records of a registry one after the other: what was there stays,
    and each of them is added. *)
Lemma insert_all m (Hm : registry_ok m) l : forall t, t ⊆ m -> (forall r, r ∈ l -> m !! m_id_of r = Some r /\ t !! m_id_of r = None) -> NoDup (m_id_of <$> l) ->
  foldl (fun t r => registry_insert r t) t l ⊆ m /\ t ⊆ foldl (fun t r => registry_insert r t) t l /\
  forall r, r ∈ l -> foldl (fun t r => registry_insert r t) t l !! m_id_of r = Some r.
Proof.
  induction l as [|r l IH]; intros t Ht Hl Hd; cbn [foldl]; [split; [done|]; split; [done|]; intros r Hr; by apply elem_of_nil in Hr|].
  destruct (Hl r (list_elem_of_here r l)) as [Hr Hn]. apply NoDup_cons in Hd as [Hd Hd'].
  assert (Hins : registry_insert r t = <[m_id_of r := r]> t).
  { unfold registry_insert. rewrite Hn, bool_decide_eq_true_2; [done|]. intros i r' Hi. destruct Hm as [_ Hu]. apply (Hu (m_id_of r) i); [done|by eapply lookup_weaken|]. intros <-. by rewrite Hn in Hi. }
  rewrite Hins. destruct (IH (<[m_id_of r := r]> t)) as (H1 & H2 & H3); [|intros r' Hr'|done|].
  - by apply insert_subseteq_l.
  - destruct (Hl r' (list_elem_of_further _ _ _ Hr')) as [Hm' Ht']. split; [done|]. rewrite lookup_insert_ne; [done|]. intros E. apply Hd. rewrite E. by apply list_elem_of_fmap_2.
  - split; [done|]. split; [by etransitivity; [apply insert_subseteq|]|]. intros r' [->|Hr']%elem_of_cons; [|by apply H3]. eapply lookup_weaken; [|done]. apply lookup_insert_eq.
Qed.

Lemma registry_rebuild m l : registry_ok m -> l ≡ₚ (map_to_list m).*2 -> foldl (fun t r => registry_insert r t) ∅ l = m.
Proof.
  intros Hm Hl. assert (Hin : forall r, r ∈ l -> m !! m_id_of r = Some r).
  { intros r Hr. rewrite Hl in Hr. apply list_elem_of_fmap in Hr as ([i r'] & -> & Hi%elem_of_map_to_list). cbn. by rewrite (proj1 Hm i r' Hi). }
  destruct (insert_all m Hm l ∅) as (H1 & _ & H3); [apply map_empty_subseteq|intros r Hr; split; [by apply Hin|apply lookup_empty]| |].
  - rewrite Hl, <- list_fmap_compose. replace ((m_id_of ∘ snd) <$> map_to_list m) with (map_to_list m).*1; [apply NoDup_fst_map_to_list|].
    apply list_fmap_ext. intros k [i r] Hk. cbn. apply list_elem_of_lookup_2, elem_of_map_to_list in Hk. symmetry. by apply (proj1 Hm).
  - apply (anti_symm (⊆)); [done|]. apply map_subseteq_spec. intros i r Hi. rewrite <- (proj1 Hm i r Hi). apply H3. rewrite Hl. apply (list_elem_of_fmap_2' snd _ (i, r)); [by apply elem_of_map_to_list|done].
Qed.

Lemma registry_insert_ok r m : (forall a b, unique a b = unique b a) -> registry_ok m -> registry_ok (registry_insert r m).
Proof.
  intros Hsym [Hi Hu]. unfold registry_insert. destruct (m !! m_id_of r) eqn:E; [by split|]. case_bool_decide as Hn; [|by split]. split.
  - apply map_Forall_insert_2; [done|exact Hi].
  - intros i j a b [[<- <-]|[Hne Ha]]%lookup_insert_Some [[<- <-]|[Hne' Hb]]%lookup_insert_Some Hij; [done| | |by eapply Hu].
    + by apply (Hn j b).
    + rewrite Hsym. by apply (Hn i a).
Qed.

Lemma registry_empty_ok : registry_ok (∅ : Registry R).
Proof. split; [apply map_Forall_empty|]. intros i j r r' H. by rewrite lookup_empty in H. Qed.

Lemma traversal_len (m : Registry R) l : l ≡ₚ (map_to_list m).*2 -> Z.of_nat (size m) < 2 ^ 32 -> registry_count m = len l.
Proof.
  intros Hl Hs. unfold registry_count. rewrite uw_small by (split; lia). unfold len. rewrite Hl. rewrite length_fmap, length_map_to_list. done.
Qed.
End Rebuild.

(** ** Arbitrary bytes

    A reader never reads outside the buffer, ends, and takes at least [k] bytes
    and at most those that there are. *)

Definition safe {A} (k : Z) (r : Reader A) : Prop := forall buffer length, bytes_ok buffer -> 0 <= length <= len buffer -> length < 2 ^ 64 ->
  match r buffer length with Ok (_, n) => k <= n <= length | Throw _ => True | Undef _ => False end.

Section Safe.
Context (cls : string).

Lemma safe_weaken {A} k k' (r : Reader A) : safe k r -> k' <= k -> safe k' r.
Proof. intros H Hk buffer length Hb Hl Hs. specialize (H buffer length Hb Hl Hs). destruct (r buffer length) as [[a n]| |]; [lia|done|done]. Qed.

Lemma safe_ret {A} (a : A) : safe 0 (rdone a).
Proof. intros buffer length _ Hl _. cbn. lia. Qed.

Lemma safe_check ok e : safe 0 (rcheck ok e).
Proof. intros buffer length _ Hl _. unfold rcheck. destruct ok; [lia|done]. Qed.

Lemma rest_ok buffer length n : bytes_ok buffer -> 0 <= length <= len buffer -> length < 2 ^ 64 -> 0 <= n <= length ->
  bytes_ok (skipn (Z.to_nat n) buffer) /\ uw 64 (length - n) = length - n /\ 0 <= length - n <= len (skipn (Z.to_nat n) buffer).
Proof.
  intros Hb Hl Hs Hn. split; [by apply bytes_ok_skipn|]. split; [apply uw_small; unfold u_ok; lia|]. unfold len in *. rewrite length_skipn. lia.
Qed.

Lemma safe_bind {A B} k1 k2 (r : Reader A) (f : A -> Reader B) : 0 <= k1 -> safe k1 r -> (forall a, safe k2 (f a)) -> safe (k1 + k2) (rthen r f).
Proof.
  intros Hk Hr Hf buffer length Hb Hl Hs. specialize (Hr buffer length Hb Hl Hs). unfold rthen. destruct (r buffer length) as [[a n]| |]; cbn [bind]; [|done|done].
  destruct (rest_ok buffer length n Hb Hl Hs ltac:(lia)) as (Hb' & -> & Hl'). specialize (Hf a _ (length - n) Hb' Hl' ltac:(lia)).
  destruct (f a _ _) as [[b m]| |]; cbn [bind]; [lia|done|done].
Qed.

Lemma safe_varint report field w : safe 1 (read_varint cls report field w).
Proof.
  intros buffer length Hb Hl _. unfold read_varint. destruct (decodeVarInt_total false w buffer length Hb ltac:(lia)) as (d & -> & Hd). cbn [lift bind]. destruct d; [lia|done|done].
Qed.

Lemma safe_bool field : safe 1 (read_bool cls field).
Proof.
  intros buffer length Hb Hl _. unfold read_bool. destruct (Z.ltb_spec length 1); [done|]. destruct (rd_in_range (E := RecordError) buffer 0 ltac:(lia)) as (b & -> & _). cbn [bind]. lia.
Qed.

Lemma safe_uuid field : safe 16 (read_uuid cls field).
Proof.
  intros buffer length Hb Hl _. unfold read_uuid, memrd. destruct (Z.ltb_spec length 16); [done|]. cbn [Z.ltb Z.compare orb]. rewrite (proj2 (Z.leb_le _ _)) by lia. cbn [bind]. lia.
Qed.

Lemma safe_class uuid kver : safe 17 (read_class cls uuid kver).
Proof.
  unfold read_class. apply (safe_bind 16 1); [lia|apply safe_uuid|]. intros u. apply (safe_bind 0 1); [lia|apply safe_check|]. intros _.
  apply (safe_bind 1 0); [lia|apply safe_varint|]. intros v. apply (safe_bind 0 0); [lia|apply safe_check|]. intros _. apply safe_ret.
Qed.

Lemma safe_string field : safe 1 (read_object cls field deserializeObject_string).
Proof.
  intros buffer length Hb Hl _. unfold read_object, deserializeObject_string. destruct (decodeVarInt_total false W64 buffer length Hb ltac:(lia)) as (d & -> & Hd). cbn [lift bind]. destruct d as [n v| |]; [|done|done].
  cbn [int_ok] in Hd. unfold u_ok in Hd. destruct (Z.ltb_spec (length - n) v); [done|]. unfold memrd. rewrite (proj2 (Z.ltb_ge n 0)), (proj2 (Z.ltb_ge v 0)) by lia. cbn [orb]. rewrite (proj2 (Z.leb_le _ _)) by lia. cbn [bind]. lia.
Qed.

(** The flag of an optional field, then the field. *)
Lemma safe_optional {A} field dec : safe 0 (read_object cls field dec) -> safe 1 (read_object cls field (deserializeObject_opt (T := A) dec)).
Proof.
  intros Hd buffer length Hb Hl Hs. unfold read_object, deserializeObject_opt. destruct (Z.ltb_spec length 1); [done|]. destruct buffer as [|b0 b]; [unfold len in Hl; cbn in Hl; lia|]. rewrite rd_cons_0. cbn [bind].
  destruct (b0 >? 1); [done|]. destruct (b0 =? 0); [lia|]. cbn [tl]. rewrite len_cons in Hl. apply Forall_cons in Hb as [_ Hb]. specialize (Hd b (length - 1) Hb ltac:(lia) ltac:(lia)). unfold read_object in Hd.
  destruct (dec b (length - 1)) as [[a n]| |]; cbn [bind]; [lia|done|done].
Qed.

Lemma safe_opt_int field sgn w : safe 0 (read_object cls field (deserializeObject_opt_int sgn w None)).
Proof.
  intros buffer length Hb Hl Hs. unfold read_object, deserializeObject_opt_int. destruct (Z.ltb_spec length 1); [done|]. destruct buffer as [|b0 b]; [unfold len in Hl; cbn in Hl; lia|]. rewrite rd_cons_0. cbn [bind].
  destruct (b0 >? 1); [done|]. destruct (b0 =? 0); [lia|]. cbn [tl]. rewrite len_cons in Hl. apply Forall_cons in Hb as [_ Hb].
  destruct (decodeVarInt_total sgn w b (length - 1) Hb ltac:(lia)) as (d & -> & Hd). cbn [lift bind]. destruct d as [n v| |]; [|change (0 <= 1 <= length); lia|change (0 <= 0 <= length); lia]. rewrite !uw_small by (rewrite ?uw_small; unfold u_ok; lia). lia.
Qed.

Lemma safe_items {R T} field (read : Reader R) (insert : R -> T -> T) : safe 1 read -> forall fuel index count t buffer length,
  bytes_ok buffer -> 0 <= length <= len buffer -> length < 2 ^ 64 -> (Z.to_nat length < fuel)%nat ->
  match read_nested cls fuel field read insert index count t buffer length with Ok (_, n) => 0 <= n <= length | Throw _ => True | Undef _ => False end.
Proof.
  intros Hr. induction fuel as [|fuel IH]; intros index count t buffer length Hb Hl Hs Hf; [lia|]. cbn [read_nested]. destruct (index <? count); [|lia].
  specialize (Hr buffer length Hb Hl Hs). destruct (read buffer length) as [[r n]| |]; [|done|done].
  destruct (rest_ok buffer length n Hb Hl Hs ltac:(lia)) as (Hb' & -> & Hl'). specialize (IH (index + 1) count (insert r t) _ (length - n) Hb' Hl' ltac:(lia) ltac:(lia)).
  destruct (read_nested cls fuel field read insert _ _ _ _ _) as [[t' m]| |]; cbn [bind]; [lia|done|done].
Qed.

Lemma safe_registry {R T} field (read : Reader R) (insert : R -> T -> T) empty count : safe 1 read -> safe 0 (read_registry cls field read insert empty count).
Proof. intros Hr buffer length Hb Hl Hs. unfold read_registry. apply safe_items; [done|done|done|done|]. unfold len in Hl. lia. Qed.
End Safe.
