(* ===== verification/CatalogRecords.v ===== *)
(** * Catalog records

    Models the records of [dbengine/reg]: for each its fields, its equality, the
    size of its serialized form, its serialization and its deserialization, and
    the unique keys of the registry that holds such records.  [deserialize] is
    what the function does to a new record: it is only called on such.  Values of
    enumerations are kept as the integers that they are; [deserialize] accepts
    all of them.  Binary values and strings are bytes. *)

From stdpp Require Import base gmap list strings.
Set Warnings "-clear-no-such-hyp,-notation-incompatible-prefix,-notation-for-abbreviation".
From Stdlib Require Import ZArith Lia.
From S2P Require Import Prelude VarInt PlainBinary Codec RecordReader.

Local Open Scope Z_scope.

Definition write_class (classUuid : list Z) (version : Z) : list Z := classUuid ++ encodeVarInt false W32 version.

Section Catalog.
Context {T : Traversal}.

(** ** [CipherKeyRecord] *)

Record CipherKeyRecord : Type := {
  ck_id : Z;
  ck_cipherId : list Z;
  ck_key : list Z
}.

#[export] Instance CipherKeyRecord_eq_dec : EqDecision CipherKeyRecord.
Proof. solve_decision. Defined.

Definition CipherKeyRecord_classUuid : list Z := [0xdf; 0xfb; 0x2d; 0x5a; 0xa7; 0x81; 0x42; 0x8b; 0xbd; 0xb5; 0x54; 0x63; 0x3e; 0x3a; 0xb8; 0xdd].
Definition CipherKeyRecord_kClassVersion : Z := 0.

Definition CipherKeyRecord_eqb (a b : CipherKeyRecord) : bool :=
  (ck_id a =? ck_id b) && bool_decide (ck_cipherId a = ck_cipherId b) && bool_decide (ck_key a = ck_key b).

Definition CipherKeyRecord_getSerializedSize (r : CipherKeyRecord) (version : Z) : Z :=
  16 + getVarIntSize false W32 version + getVarIntSize false W64 (ck_id r) + getSerializedSize_string (ck_cipherId r) +
  getSerializedSize_string (ck_key r).

Definition CipherKeyRecord_serializeUnchecked (r : CipherKeyRecord) (version : Z) : list Z :=
  write_class CipherKeyRecord_classUuid version ++ encodeVarInt false W64 (ck_id r) ++ serializeUnchecked_string (ck_cipherId r) ++
  serializeUnchecked_string (ck_key r).

Definition CipherKeyRecord_deserialize : Reader CipherKeyRecord := (
  _ <~ read_class "CipherKeyRecord" CipherKeyRecord_classUuid CipherKeyRecord_kClassVersion ;
  id <~ read_varint "CipherKeyRecord" decoder_result "id" W64 ;
  cipherId <~ read_object "CipherKeyRecord" "cipherId" deserializeObject_string ;
  key <~ read_object "CipherKeyRecord" "key" deserializeObject_string ;
  rdone {| ck_id := id; ck_cipherId := cipherId; ck_key := key |})%reader.

(** ** [ColumnDefinitionConstraintRecord] *)

Record ColumnDefinitionConstraintRecord : Type := {
  cdc_id : Z;
  cdc_columnDefinitionId : Z;
  cdc_constraintId : Z
}.

#[export] Instance ColumnDefinitionConstraintRecord_eq_dec : EqDecision ColumnDefinitionConstraintRecord.
Proof. solve_decision. Defined.

(** The keys of [ColumnDefinitionConstraintRegistry]. *)
#[export] Instance ColumnDefinitionConstraintRecord_index : Indexed ColumnDefinitionConstraintRecord := {
  m_id_of := cdc_id;
  unique _ _ := false
}.

Definition ColumnDefinitionConstraintRecord_classUuid : list Z := [0x0a; 0xe9; 0x92; 0x1a; 0x63; 0x7f; 0x41; 0x46; 0x80; 0xf3; 0x52; 0x15; 0xf4; 0xb9; 0xd3; 0x25].
Definition ColumnDefinitionConstraintRecord_kClassVersion : Z := 0.

Definition ColumnDefinitionConstraintRecord_eqb (a b : ColumnDefinitionConstraintRecord) : bool :=
  (cdc_id a =? cdc_id b) && (cdc_columnDefinitionId a =? cdc_columnDefinitionId b) && (cdc_constraintId a =? cdc_constraintId b).

Definition ColumnDefinitionConstraintRecord_getSerializedSize (r : ColumnDefinitionConstraintRecord) (version : Z) : Z :=
  16 + getVarIntSize false W32 version + getVarIntSize false W64 (cdc_id r) + getVarIntSize false W64 (cdc_columnDefinitionId r) +
  getVarIntSize false W64 (cdc_constraintId r).

Definition ColumnDefinitionConstraintRecord_serializeUnchecked (r : ColumnDefinitionConstraintRecord) (version : Z) : list Z :=
  write_class ColumnDefinitionConstraintRecord_classUuid version ++ encodeVarInt false W64 (cdc_id r) ++
  encodeVarInt false W64 (cdc_columnDefinitionId r) ++ encodeVarInt false W64 (cdc_constraintId r).

Definition ColumnDefinitionConstraintRecord_deserialize : Reader ColumnDefinitionConstraintRecord := (
  _ <~ read_class "ColumnDefinitionConstraintRecord" ColumnDefinitionConstraintRecord_classUuid ColumnDefinitionConstraintRecord_kClassVersion ;
  id <~ read_varint "ColumnDefinitionConstraintRecord" decoder_result "id" W64 ;
  columnDefinitionId <~ read_varint "ColumnDefinitionConstraintRecord" decoder_result "columnDefinitionId" W64 ;
  constraintId <~ read_varint "ColumnDefinitionConstraintRecord" decoder_result "constraintId" W64 ;
  rdone {| cdc_id := id; cdc_columnDefinitionId := columnDefinitionId; cdc_constraintId := constraintId |})%reader.

(** ** [ColumnDefinitionRecord] *)

Record ColumnDefinitionRecord : Type := {
  cdef_id : Z;
  cdef_columnId : Z;
  cdef_constraints : Registry ColumnDefinitionConstraintRecord
}.

#[export] Instance ColumnDefinitionRecord_eq_dec : EqDecision ColumnDefinitionRecord.
Proof. solve_decision. Defined.

(** The keys of [ColumnDefinitionRegistry]. *)
#[export] Instance ColumnDefinitionRecord_index : Indexed ColumnDefinitionRecord := {
  m_id_of := cdef_id;
  unique a b := (cdef_columnId a =? cdef_columnId b) && (cdef_id a =? cdef_id b)
}.

Definition ColumnDefinitionRecord_classUuid : list Z := [0x4f; 0x3b; 0x6d; 0x57; 0xcb; 0xcd; 0x4d; 0xf0; 0x8e; 0xfd; 0x59; 0x10; 0xc5; 0x39; 0x2a; 0xde].
Definition ColumnDefinitionRecord_kClassVersion : Z := 0.

Definition ColumnDefinitionRecord_eqb (a b : ColumnDefinitionRecord) : bool :=
  (cdef_id a =? cdef_id b) && (cdef_columnId a =? cdef_columnId b) && bool_decide (cdef_constraints a = cdef_constraints b).

Definition ColumnDefinitionRecord_getSerializedSize (r : ColumnDefinitionRecord) (version : Z) : Z :=
  16 + getVarIntSize false W32 version + getVarIntSize false W64 (cdef_id r) + getVarIntSize false W64 (cdef_columnId r) +
  getVarIntSize false W32 (registry_count (cdef_constraints r)) +
  sum_sizes (fun x => ColumnDefinitionConstraintRecord_getSerializedSize x ColumnDefinitionConstraintRecord_kClassVersion) (byId (cdef_constraints r)).

Definition ColumnDefinitionRecord_serializeUnchecked (r : ColumnDefinitionRecord) (version : Z) : list Z :=
  write_class ColumnDefinitionRecord_classUuid version ++ encodeVarInt false W64 (cdef_id r) ++ encodeVarInt false W64 (cdef_columnId r) ++
  encodeVarInt false W32 (registry_count (cdef_constraints r)) ++
  write_all (fun x => ColumnDefinitionConstraintRecord_serializeUnchecked x ColumnDefinitionConstraintRecord_kClassVersion) (byId (cdef_constraints r)).

Definition ColumnDefinitionRecord_deserialize : Reader ColumnDefinitionRecord := (
  _ <~ read_class "ColumnDefinitionRecord" ColumnDefinitionRecord_classUuid ColumnDefinitionRecord_kClassVersion ;
  id <~ read_varint "ColumnDefinitionRecord" decoder_result "id" W64 ;
  columnId <~ read_varint "ColumnDefinitionRecord" decoder_result "columnDefinitionId" W64 ;
  constraintsCount <~ read_varint "ColumnDefinitionRecord" decoder_result "constraints.size" W32 ;
  constraints <~ read_registry "ColumnDefinitionRecord" "constraints" ColumnDefinitionConstraintRecord_deserialize registry_insert ∅ constraintsCount ;
  rdone {| cdef_id := id; cdef_columnId := columnId; cdef_constraints := constraints |})%reader.

(** ** [ColumnRecord] *)

Record ColumnRecord : Type := {
  col_id : Z;
  col_name : list Z;
  col_dataType : Z;
  col_tableId : Z;
  col_state : Z;
  col_dataBlockDataAreaSize : Z;
  col_description : option (list Z)
}.

#[export] Instance ColumnRecord_eq_dec : EqDecision ColumnRecord.
Proof. solve_decision. Defined.

(** The keys of [ColumnRegistry]. *)
#[export] Instance ColumnRecord_index : Indexed ColumnRecord := {
  m_id_of := col_id;
  unique a b := (col_tableId a =? col_tableId b) && bool_decide (col_name a = col_name b)
}.

Definition ColumnRecord_classUuid : list Z := [0xfd; 0xe8; 0xee; 0x48; 0x95; 0x05; 0x4c; 0xfa; 0xbe; 0xf5; 0xc7; 0x22; 0x54; 0xcc; 0x12; 0x3d].
Definition ColumnRecord_kClassVersion : Z := 0.

Definition ColumnRecord_eqb (a b : ColumnRecord) : bool :=
  (col_id a =? col_id b) && bool_decide (col_name a = col_name b) && (col_dataType a =? col_dataType b) && (col_tableId a =? col_tableId b) &&
  (col_state a =? col_state b) && (col_dataBlockDataAreaSize a =? col_dataBlockDataAreaSize b) && bool_decide (col_description a = col_description b).

Definition ColumnRecord_getSerializedSize (r : ColumnRecord) (version : Z) : Z :=
  16 + getVarIntSize false W32 version + getVarIntSize false W64 (col_id r) + getSerializedSize_string (col_name r) +
  getVarIntSize false W32 (uw 32 (col_dataType r)) + getVarIntSize false W32 (col_tableId r) + getVarIntSize false W32 (uw 32 (col_state r)) +
  getVarIntSize false W32 (col_dataBlockDataAreaSize r) + getSerializedSize_opt getSerializedSize_string (col_description r).

Definition ColumnRecord_serializeUnchecked (r : ColumnRecord) (version : Z) : list Z :=
  write_class ColumnRecord_classUuid version ++ encodeVarInt false W64 (col_id r) ++ serializeUnchecked_string (col_name r) ++
  encodeVarInt false W32 (uw 32 (col_dataType r)) ++ encodeVarInt false W32 (col_tableId r) ++ encodeVarInt false W32 (uw 32 (col_state r)) ++
  encodeVarInt false W32 (col_dataBlockDataAreaSize r) ++ serializeUnchecked_opt serializeUnchecked_string (col_description r).

Definition ColumnRecord_deserialize : Reader ColumnRecord := (
  _ <~ read_class "ColumnRecord" ColumnRecord_classUuid ColumnRecord_kClassVersion ;
  id <~ read_varint "ColumnRecord" decoder_result "id" W64 ;
  name <~ read_object "ColumnRecord" "name" deserializeObject_string ;
  dataType <~ read_varint "ColumnRecord" decoder_result "dataType" W32 ;
  tableId <~ read_varint "ColumnRecord" decoder_result "tableId" W32 ;
  state <~ read_varint "ColumnRecord" decoder_result "state" W32 ;
  dataBlockDataAreaSize <~ read_varint "ColumnRecord" decoder_result "dataBlockDataAreaSize" W32 ;
  description <~ read_object "ColumnRecord" "description" (deserializeObject_opt deserializeObject_string) ;
  rdone {| col_id := id; col_name := name; col_dataType := sw 32 dataType; col_tableId := tableId; col_state := sw 32 state; col_dataBlockDataAreaSize := dataBlockDataAreaSize; col_description := description |})%reader.

(** ** [ColumnSetColumnRecord] *)

Record ColumnSetColumnRecord : Type := {
  csc_id : Z;
  csc_columnSetId : Z;
  csc_columnDefinitionId : Z;
  csc_columnId : Z
}.

#[export] Instance ColumnSetColumnRecord_eq_dec : EqDecision ColumnSetColumnRecord.
Proof. solve_decision. Defined.

(** The keys of [ColumnSetColumnRegistry]. *)
#[export] Instance ColumnSetColumnRecord_index : Indexed ColumnSetColumnRecord := {
  m_id_of := csc_id;
  unique _ _ := false
}.

Definition ColumnSetColumnRecord_classUuid : list Z := [0x8b; 0x96; 0x66; 0x4c; 0xfb; 0xbf; 0x49; 0xb1; 0xaf; 0xc7; 0x52; 0xac; 0x95; 0x3e; 0xfc; 0x4c].
Definition ColumnSetColumnRecord_kClassVersion : Z := 0.

Definition ColumnSetColumnRecord_eqb (a b : ColumnSetColumnRecord) : bool :=
  (csc_id a =? csc_id b) && (csc_columnSetId a =? csc_columnSetId b) && (csc_columnDefinitionId a =? csc_columnDefinitionId b) &&
  (csc_columnId a =? csc_columnId b).

Definition ColumnSetColumnRecord_getSerializedSize (r : ColumnSetColumnRecord) (version : Z) : Z :=
  16 + getVarIntSize false W32 version + getVarIntSize false W64 (csc_id r) + getVarIntSize false W64 (csc_columnSetId r) +
  getVarIntSize false W64 (csc_columnDefinitionId r) + getVarIntSize false W64 (csc_columnId r).

Definition ColumnSetColumnRecord_serializeUnchecked (r : ColumnSetColumnRecord) (version : Z) : list Z :=
  write_class ColumnSetColumnRecord_classUuid version ++ encodeVarInt false W64 (csc_id r) ++ encodeVarInt false W64 (csc_columnSetId r) ++
  encodeVarInt false W64 (csc_columnDefinitionId r) ++ encodeVarInt false W64 (csc_columnId r).

Definition ColumnSetColumnRecord_deserialize : Reader ColumnSetColumnRecord := (
  _ <~ read_class "ColumnSetColumnRecord" ColumnSetColumnRecord_classUuid ColumnSetColumnRecord_kClassVersion ;
  id <~ read_varint "ColumnSetColumnRecord" decoder_result "id" W64 ;
  columnSetId <~ read_varint "ColumnSetColumnRecord" decoder_result "columnSetId" W64 ;
  columnDefinitionId <~ read_varint "ColumnSetColumnRecord" decoder_result "columnDefinitionId" W64 ;
  columnId <~ read_varint "ColumnSetColumnRecord" decoder_result "columnId" W64 ;
  rdone {| csc_id := id; csc_columnSetId := columnSetId; csc_columnDefinitionId := columnDefinitionId; csc_columnId := columnId |})%reader.

(** ** [ColumnSetRecord] *)

Record ColumnSetRecord : Type := {
  cset_id : Z;
  cset_tableId : Z;
  cset_columns : Registry ColumnSetColumnRecord
}.

#[export] Instance ColumnSetRecord_eq_dec : EqDecision ColumnSetRecord.
Proof. solve_decision. Defined.

(** The keys of [ColumnSetRegistry]. *)
#[export] Instance ColumnSetRecord_index : Indexed ColumnSetRecord := {
  m_id_of := cset_id;
  unique _ _ := false
}.

Definition ColumnSetRecord_classUuid : list Z := [0x1b; 0x61; 0xe9; 0xc0; 0xed; 0x46; 0x42; 0x94; 0xa1; 0xec; 0xc5; 0x55; 0xec; 0x00; 0xd0; 0xf0].
Definition ColumnSetRecord_kClassVersion : Z := 0.

Definition ColumnSetRecord_eqb (a b : ColumnSetRecord) : bool :=
  (cset_id a =? cset_id b) && (cset_tableId a =? cset_tableId b) && bool_decide (cset_columns a = cset_columns b).

Definition ColumnSetRecord_getSerializedSize (r : ColumnSetRecord) (version : Z) : Z :=
  16 + getVarIntSize false W32 version + getVarIntSize false W64 (cset_id r) + getVarIntSize false W32 (cset_tableId r) +
  getVarIntSize false W32 (registry_count (cset_columns r)) +
  sum_sizes (fun x => ColumnSetColumnRecord_getSerializedSize x ColumnSetColumnRecord_kClassVersion) (byOtherKey (cset_columns r)).

Definition ColumnSetRecord_serializeUnchecked (r : ColumnSetRecord) (version : Z) : list Z :=
  write_class ColumnSetRecord_classUuid version ++ encodeVarInt false W64 (cset_id r) ++ encodeVarInt false W32 (cset_tableId r) ++
  encodeVarInt false W32 (registry_count (cset_columns r)) ++
  write_all (fun x => ColumnSetColumnRecord_serializeUnchecked x ColumnSetColumnRecord_kClassVersion) (byOtherKey (cset_columns r)).

Definition ColumnSetRecord_deserialize : Reader ColumnSetRecord := (
  _ <~ read_class "ColumnSetRecord" ColumnSetRecord_classUuid ColumnSetRecord_kClassVersion ;
  id <~ read_varint "ColumnSetRecord" decoder_result "id" W64 ;
  tableId <~ read_varint "ColumnSetRecord" decoder_result "tableId" W32 ;
  columnsCount <~ read_varint "ColumnSetRecord" decoder_result "columns.size" W32 ;
  columns <~ read_registry "ColumnSetRecord" "columns" ColumnSetColumnRecord_deserialize registry_insert ∅ columnsCount ;
  rdone {| cset_id := id; cset_tableId := tableId; cset_columns := columns |})%reader.

(** ** [ConstraintDefinitionRecord]

    The hash function comes from the xxHash library. *)

Record ConstraintDefinitionRecord : Type := {
  condef_id : Z;
  condef_type : Z;
  condef_expression : list Z;
  condef_hash : Z
}.

#[export] Instance ConstraintDefinitionRecord_eq_dec : EqDecision ConstraintDefinitionRecord.
Proof. solve_decision. Defined.

(** The keys of [ConstraintDefinitionRegistry]. *)
#[export] Instance ConstraintDefinitionRecord_index : Indexed ConstraintDefinitionRecord := {
  m_id_of := condef_id;
  unique _ _ := false
}.

Definition ConstraintDefinitionRecord_classUuid : list Z := [0x20; 0x77; 0xe0; 0x2b; 0x16; 0x8a; 0x48; 0xab; 0x9a; 0x66; 0x80; 0xf0; 0xef; 0xfc; 0x40; 0x31].
Definition ConstraintDefinitionRecord_kClassVersion : Z := 0.
Definition kHashSeed : Z := 0x3ff6a09e667f3bcd.
Definition kNotNull : Z := 0.

Section Hash.
Context (XXH64 : list Z -> Z -> Z).

Definition computeHash (constraintType : Z) (binaryValue : list Z) : Z :=
  let buffer := pbeEncodeUInt32 (uw 32 constraintType) ++ pbeEncodeUInt32 (uw 32 (len binaryValue)) in
  let h := XXH64 buffer kHashSeed in
  if len binaryValue =? 0 then h else XXH64 binaryValue h.

(** A new record, and one of a definition. *)
Definition ConstraintDefinitionRecord_new : ConstraintDefinitionRecord :=
  {| condef_id := 0; condef_type := kNotNull; condef_expression := []; condef_hash := computeHash kNotNull [] |}.
Definition ConstraintDefinitionRecord_of (id type : Z) (expression : list Z) : ConstraintDefinitionRecord :=
  {| condef_id := id; condef_type := type; condef_expression := expression; condef_hash := computeHash type expression |}.

Definition ConstraintDefinitionRecord_eqb (a b : ConstraintDefinitionRecord) : bool :=
  (condef_id a =? condef_id b) && (condef_type a =? condef_type b) && bool_decide (condef_expression a = condef_expression b) && (condef_hash a =? condef_hash b).

Definition isEqualDefinition (a b : ConstraintDefinitionRecord) : bool :=
  (condef_type a =? condef_type b) && bool_decide (condef_expression a = condef_expression b).

Definition ConstraintDefinitionRecord_getSerializedSize (r : ConstraintDefinitionRecord) (version : Z) : Z :=
  16 + getVarIntSize false W32 version + getVarIntSize false W64 (condef_id r) + getVarIntSize false W32 (uw 32 (condef_type r)) +
  getSerializedSize_string (condef_expression r).

Definition ConstraintDefinitionRecord_serializeUnchecked (r : ConstraintDefinitionRecord) (version : Z) : list Z :=
  write_class ConstraintDefinitionRecord_classUuid version ++ encodeVarInt false W64 (condef_id r) ++ encodeVarInt false W32 (uw 32 (condef_type r)) ++
  serializeUnchecked_string (condef_expression r).

(** The hash is neither read nor computed: it stays that of a new record. *)
Definition ConstraintDefinitionRecord_deserialize : Reader ConstraintDefinitionRecord := (
  _ <~ read_class "ConstraintDefinitionRecord" ConstraintDefinitionRecord_classUuid ConstraintDefinitionRecord_kClassVersion ;
  id <~ read_varint "ConstraintDefinitionRecord" decoder_result "id" W64 ;
  type <~ read_varint "ConstraintDefinitionRecord" decoder_result "type" W32 ;
  expression <~ read_object "ConstraintDefinitionRecord" "expression" deserializeObject_string ;
  rdone {| condef_id := id; condef_type := sw 32 type; condef_expression := expression; condef_hash := condef_hash ConstraintDefinitionRecord_new |})%reader.
End Hash.

(** ** [ConstraintRecord] *)

Record ConstraintRecord : Type := {
  con_id : Z;
  con_name : list Z;
  con_state : Z;
  con_tableId : Z;
  con_columnId : Z;
  con_constraintDefinitionId : Z;
  con_description : option (list Z)
}.

#[export] Instance ConstraintRecord_eq_dec : EqDecision ConstraintRecord.
Proof. solve_decision. Defined.

(** The keys of [ConstraintRegistry]. *)
#[export] Instance ConstraintRecord_index : Indexed ConstraintRecord := {
  m_id_of := con_id;
  unique a b := bool_decide (con_name a = con_name b)
}.

Definition ConstraintRecord_classUuid : list Z := [0x88; 0xf0; 0x4e; 0x4b; 0xb6; 0xbb; 0x41; 0x01; 0xb5; 0x2f; 0x34; 0x0a; 0xac; 0x00; 0x53; 0xd1].
Definition ConstraintRecord_kClassVersion : Z := 0.

Definition ConstraintRecord_eqb (a b : ConstraintRecord) : bool :=
  (con_id a =? con_id b) && bool_decide (con_name a = con_name b) && (con_state a =? con_state b) && (con_tableId a =? con_tableId b) &&
  (con_columnId a =? con_columnId b) && (con_constraintDefinitionId a =? con_constraintDefinitionId b) &&
  bool_decide (con_description a = con_description b).

Definition ConstraintRecord_getSerializedSize (r : ConstraintRecord) (version : Z) : Z :=
  16 + getVarIntSize false W32 version + getVarIntSize false W64 (con_id r) + getSerializedSize_string (con_name r) +
  getVarIntSize false W32 (uw 32 (con_state r)) + getVarIntSize false W32 (con_tableId r) + getVarIntSize false W64 (con_columnId r) +
  getVarIntSize false W64 (con_constraintDefinitionId r) + getSerializedSize_opt getSerializedSize_string (con_description r).

Definition ConstraintRecord_serializeUnchecked (r : ConstraintRecord) (version : Z) : list Z :=
  write_class ConstraintRecord_classUuid version ++ encodeVarInt false W64 (con_id r) ++ serializeUnchecked_string (con_name r) ++
  encodeVarInt false W32 (uw 32 (con_state r)) ++ encodeVarInt false W32 (con_tableId r) ++ encodeVarInt false W64 (con_columnId r) ++
  encodeVarInt false W64 (con_constraintDefinitionId r) ++ serializeUnchecked_opt serializeUnchecked_string (con_description r).

Definition ConstraintRecord_deserialize : Reader ConstraintRecord := (
  _ <~ read_class "ConstraintRecord" ConstraintRecord_classUuid ConstraintRecord_kClassVersion ;
  id <~ read_varint "ConstraintRecord" decoder_result "id" W64 ;
  name <~ read_object "ConstraintRecord" "name" deserializeObject_string ;
  state <~ read_varint "ConstraintRecord" decoder_result "state" W32 ;
  tableId <~ read_varint "ConstraintRecord" decoder_result "tableId" W32 ;
  columnId <~ read_varint "ConstraintRecord" decoder_result "columnId" W64 ;
  constraintDefinitionId <~ read_varint "ConstraintRecord" decoder_result "constraintDefinitionId" W64 ;
  description <~ read_object "ConstraintRecord" "description" (deserializeObject_opt deserializeObject_string) ;
  rdone {| con_id := id; con_name := name; con_state := sw 32 state; con_tableId := tableId; con_columnId := columnId; con_constraintDefinitionId := constraintDefinitionId; con_description := description |})%reader.

(** ** [DatabaseRecord] *)

Record DatabaseRecord : Type := {
  db_id : Z;
  db_uuid : list Z;
  db_name : list Z;
  db_cipherId : list Z;
  db_description : option (list Z);
  db_maxTableCount : Z
}.

#[export] Instance DatabaseRecord_eq_dec : EqDecision DatabaseRecord.
Proof. solve_decision. Defined.

(** The keys of [DatabaseRegistry]. *)
#[export] Instance DatabaseRecord_index : Indexed DatabaseRecord := {
  m_id_of := db_id;
  unique a b := bool_decide (db_uuid a = db_uuid b) || bool_decide (db_name a = db_name b)
}.

Definition DatabaseRecord_classUuid : list Z := [0x34; 0x62; 0x31; 0x47; 0x92; 0x11; 0x46; 0xdd; 0xa5; 0xcc; 0x83; 0xf8; 0x8c; 0x00; 0x14; 0x76].
Definition DatabaseRecord_kClassVersion : Z := 0.

Definition DatabaseRecord_eqb (a b : DatabaseRecord) : bool :=
  (db_id a =? db_id b) && bool_decide (db_uuid a = db_uuid b) && bool_decide (db_name a = db_name b) &&
  bool_decide (db_cipherId a = db_cipherId b) && bool_decide (db_description a = db_description b) && (db_maxTableCount a =? db_maxTableCount b).

Definition DatabaseRecord_getSerializedSize (r : DatabaseRecord) (version : Z) : Z :=
  16 + getVarIntSize false W32 version + getVarIntSize false W32 (db_id r) + 16 + getSerializedSize_string (db_name r) +
  getSerializedSize_string (db_cipherId r) + getSerializedSize_opt getSerializedSize_string (db_description r) +
  getVarIntSize false W32 (db_maxTableCount r).

Definition DatabaseRecord_serializeUnchecked (r : DatabaseRecord) (version : Z) : list Z :=
  write_class DatabaseRecord_classUuid version ++ encodeVarInt false W32 (db_id r) ++ db_uuid r ++ serializeUnchecked_string (db_name r) ++
  serializeUnchecked_string (db_cipherId r) ++ serializeUnchecked_opt serializeUnchecked_string (db_description r) ++
  encodeVarInt false W32 (db_maxTableCount r).

Definition DatabaseRecord_deserialize : Reader DatabaseRecord := (
  _ <~ read_class "DatabaseRecord" DatabaseRecord_classUuid DatabaseRecord_kClassVersion ;
  id <~ read_varint "DatabaseRecord" decoder_result "id" W32 ;
  uuid <~ read_uuid "DatabaseRecord" "uuid" ;
  name <~ read_object "DatabaseRecord" "name" deserializeObject_string ;
  cipherId <~ read_object "DatabaseRecord" "cipherId" deserializeObject_string ;
  description <~ read_object "DatabaseRecord" "description" (deserializeObject_opt deserializeObject_string) ;
  maxTableCount <~ read_varint "DatabaseRecord" decoder_result "maxTableCount" W32 ;
  rdone {| db_id := id; db_uuid := uuid; db_name := name; db_cipherId := cipherId; db_description := description; db_maxTableCount := maxTableCount |})%reader.

(** ** [IndexColumnRecord] *)

Record IndexColumnRecord : Type := {
  ixc_id : Z;
  ixc_indexId : Z;
  ixc_columnDefinitionId : Z;
  ixc_sortDescending : bool
}.

#[export] Instance IndexColumnRecord_eq_dec : EqDecision IndexColumnRecord.
Proof. solve_decision. Defined.

(** The keys of [IndexColumnRegistry]. *)
#[export] Instance IndexColumnRecord_index : Indexed IndexColumnRecord := {
  m_id_of := ixc_id;
  unique _ _ := false
}.

Definition IndexColumnRecord_classUuid : list Z := [0xb5; 0xbd; 0xd7; 0xf5; 0x0e; 0x28; 0x42; 0xd1; 0x9b; 0xd9; 0xa1; 0xec; 0xa3; 0x90; 0x79; 0xd5].
Definition IndexColumnRecord_kClassVersion : Z := 0.

Definition IndexColumnRecord_eqb (a b : IndexColumnRecord) : bool :=
  (ixc_id a =? ixc_id b) && (ixc_indexId a =? ixc_indexId b) && (ixc_columnDefinitionId a =? ixc_columnDefinitionId b) &&
  Bool.eqb (ixc_sortDescending a) (ixc_sortDescending b).

Definition IndexColumnRecord_getSerializedSize (r : IndexColumnRecord) (version : Z) : Z :=
  16 + getVarIntSize false W32 version + getVarIntSize false W64 (ixc_id r) + getVarIntSize false W64 (ixc_indexId r) +
  getVarIntSize false W64 (ixc_columnDefinitionId r) + 1.

Definition IndexColumnRecord_serializeUnchecked (r : IndexColumnRecord) (version : Z) : list Z :=
  write_class IndexColumnRecord_classUuid version ++ encodeVarInt false W64 (ixc_id r) ++ encodeVarInt false W64 (ixc_indexId r) ++
  encodeVarInt false W64 (ixc_columnDefinitionId r) ++ write_bool (ixc_sortDescending r).

Definition IndexColumnRecord_deserialize : Reader IndexColumnRecord := (
  _ <~ read_class "IndexColumnRecord" IndexColumnRecord_classUuid IndexColumnRecord_kClassVersion ;
  id <~ read_varint "IndexColumnRecord" decoder_result "id" W64 ;
  indexId <~ read_varint "IndexColumnRecord" decoder_result "indexId" W64 ;
  columnDefinitionId <~ read_varint "IndexColumnRecord" decoder_result "columnDefinitionId" W64 ;
  sortDescending <~ read_bool "IndexColumnRecord" "sortDescending" ;
  rdone {| ixc_id := id; ixc_indexId := indexId; ixc_columnDefinitionId := columnDefinitionId; ixc_sortDescending := sortDescending |})%reader.

(** ** [IndexRecord] *)

Record IndexRecord : Type := {
  ix_id : Z;
  ix_type : Z;
  ix_tableId : Z;
  ix_unique : bool;
  ix_name : list Z;
  ix_columns : Registry IndexColumnRecord;
  ix_dataFileSize : Z;
  ix_description : option (list Z)
}.

#[export] Instance IndexRecord_eq_dec : EqDecision IndexRecord.
Proof. solve_decision. Defined.

(** The keys of [IndexRegistry]. *)
#[export] Instance IndexRecord_index : Indexed IndexRecord := {
  m_id_of := ix_id;
  unique a b := bool_decide (ix_name a = ix_name b)
}.

Definition IndexRecord_classUuid : list Z := [0xf6; 0xc8; 0x07; 0xee; 0xf2; 0x4a; 0x43; 0x98; 0xae; 0x44; 0xd1; 0x89; 0x03; 0x6c; 0x78; 0x42].
Definition IndexRecord_kClassVersion : Z := 0.

Definition IndexRecord_eqb (a b : IndexRecord) : bool :=
  (ix_id a =? ix_id b) && (ix_type a =? ix_type b) && (ix_tableId a =? ix_tableId b) && Bool.eqb (ix_unique a) (ix_unique b) &&
  bool_decide (ix_name a = ix_name b) && bool_decide (ix_columns a = ix_columns b) && (ix_dataFileSize a =? ix_dataFileSize b) &&
  bool_decide (ix_description a = ix_description b).

Definition IndexRecord_getSerializedSize (r : IndexRecord) (version : Z) : Z :=
  16 + getVarIntSize false W32 version + getVarIntSize false W64 (ix_id r) + getVarIntSize false W32 (uw 32 (ix_type r)) +
  getVarIntSize false W32 (ix_tableId r) + 1 + getSerializedSize_string (ix_name r) + getVarIntSize false W32 (registry_count (ix_columns r)) +
  sum_sizes (fun x => IndexColumnRecord_getSerializedSize x IndexColumnRecord_kClassVersion) (byId (ix_columns r)) +
  getVarIntSize false W32 (ix_dataFileSize r) + getSerializedSize_opt getSerializedSize_string (ix_description r).

Definition IndexRecord_serializeUnchecked (r : IndexRecord) (version : Z) : list Z :=
  write_class IndexRecord_classUuid version ++ encodeVarInt false W64 (ix_id r) ++ encodeVarInt false W32 (uw 32 (ix_type r)) ++
  encodeVarInt false W32 (ix_tableId r) ++ write_bool (ix_unique r) ++ serializeUnchecked_string (ix_name r) ++
  encodeVarInt false W32 (registry_count (ix_columns r)) ++
  write_all (fun x => IndexColumnRecord_serializeUnchecked x IndexColumnRecord_kClassVersion) (byId (ix_columns r)) ++
  encodeVarInt false W32 (ix_dataFileSize r) ++ serializeUnchecked_opt serializeUnchecked_string (ix_description r).

Definition IndexRecord_deserialize : Reader IndexRecord := (
  _ <~ read_class "IndexRecord" IndexRecord_classUuid IndexRecord_kClassVersion ;
  id <~ read_varint "IndexRecord" decoder_result "id" W64 ;
  type <~ read_varint "IndexRecord" decoder_result "type" W32 ;
  tableId <~ read_varint "IndexRecord" decoder_result "tableId" W32 ;
  unique <~ read_bool "IndexRecord" "unique" ;
  name <~ read_object "IndexRecord" "name" deserializeObject_string ;
  columnsCount <~ read_varint "IndexRecord" (fun _ => 0) "column.size" W32 ;
  columns <~ read_registry "IndexRecord" "columns" IndexColumnRecord_deserialize registry_insert ∅ columnsCount ;
  dataFileSize <~ read_varint "IndexRecord" decoder_result "dataFileSize" W32 ;
  description <~ read_object "IndexRecord" "description" (deserializeObject_opt deserializeObject_string) ;
  rdone {| ix_id := id; ix_type := sw 32 type; ix_tableId := tableId; ix_unique := unique; ix_name := name; ix_columns := columns; ix_dataFileSize := dataFileSize; ix_description := description |})%reader.

(** ** [TableRecord] *)

Record TableRecord : Type := {
  tbl_id : Z;
  tbl_type : Z;
  tbl_name : list Z;
  tbl_firstUserTrid : Z;
  tbl_currentColumnSetId : Z;
  tbl_description : option (list Z)
}.

#[export] Instance TableRecord_eq_dec : EqDecision TableRecord.
Proof. solve_decision. Defined.

(** The keys of [TableRegistry]. *)
#[export] Instance TableRecord_index : Indexed TableRecord := {
  m_id_of := tbl_id;
  unique a b := bool_decide (tbl_name a = tbl_name b)
}.

Definition TableRecord_classUuid : list Z := [0xbe; 0x67; 0xce; 0x29; 0x04; 0x85; 0x4d; 0x3c; 0x88; 0x5d; 0xfd; 0x2f; 0xe7; 0x99; 0xeb; 0x1b].
Definition TableRecord_kClassVersion : Z := 0.

Definition TableRecord_eqb (a b : TableRecord) : bool :=
  (tbl_id a =? tbl_id b) && (tbl_type a =? tbl_type b) && bool_decide (tbl_name a = tbl_name b) && (tbl_firstUserTrid a =? tbl_firstUserTrid b) &&
  (tbl_currentColumnSetId a =? tbl_currentColumnSetId b) && bool_decide (tbl_description a = tbl_description b).

Definition TableRecord_getSerializedSize (r : TableRecord) (version : Z) : Z :=
  16 + getVarIntSize false W32 version + getVarIntSize false W32 (tbl_id r) + getVarIntSize false W32 (uw 32 (tbl_type r)) +
  getSerializedSize_string (tbl_name r) + getVarIntSize false W64 (tbl_firstUserTrid r) + getVarIntSize false W64 (tbl_currentColumnSetId r) +
  getSerializedSize_opt getSerializedSize_string (tbl_description r).

Definition TableRecord_serializeUnchecked (r : TableRecord) (version : Z) : list Z :=
  write_class TableRecord_classUuid version ++ encodeVarInt false W32 (tbl_id r) ++ encodeVarInt false W32 (uw 32 (tbl_type r)) ++
  serializeUnchecked_string (tbl_name r) ++ encodeVarInt false W64 (tbl_firstUserTrid r) ++ encodeVarInt false W64 (tbl_currentColumnSetId r) ++
  serializeUnchecked_opt serializeUnchecked_string (tbl_description r).

Definition TableRecord_deserialize : Reader TableRecord := (
  _ <~ read_class "TableRecord" TableRecord_classUuid TableRecord_kClassVersion ;
  id <~ read_varint "TableRecord" decoder_result "id" W32 ;
  type <~ read_varint "TableRecord" decoder_result "type" W32 ;
  name <~ read_object "TableRecord" "name" deserializeObject_string ;
  firstUserTrid <~ read_varint "TableRecord" decoder_result "firstUserTrid" W64 ;
  currentColumnSetId <~ read_varint "TableRecord" decoder_result "currentColumnSetId" W64 ;
  description <~ read_object "TableRecord" "description" (deserializeObject_opt deserializeObject_string) ;
  rdone {| tbl_id := id; tbl_type := sw 32 type; tbl_name := name; tbl_firstUserTrid := firstUserTrid; tbl_currentColumnSetId := currentColumnSetId; tbl_description := description |})%reader.

(** ** [UserAccessKeyRecord] *)

Record UserAccessKeyRecord : Type := {
  uak_id : Z;
  uak_userId : Z;
  uak_name : list Z;
  uak_text : list Z;
  uak_description : option (list Z);
  uak_active : bool
}.

#[export] Instance UserAccessKeyRecord_eq_dec : EqDecision UserAccessKeyRecord.
Proof. solve_decision. Defined.

(** The keys of [UserAccessKeyRegistry]. *)
#[export] Instance UserAccessKeyRecord_index : Indexed UserAccessKeyRecord := {
  m_id_of := uak_id;
  unique a b := bool_decide (uak_name a = uak_name b)
}.

Definition UserAccessKeyRecord_classUuid : list Z := [0x9e; 0x75; 0xe8; 0xe0; 0x3e; 0x32; 0x4a; 0x2b; 0xa0; 0x11; 0x6b; 0x68; 0x9b; 0x21; 0x3c; 0x61].
Definition UserAccessKeyRecord_kClassVersion : Z := 0.

Definition UserAccessKeyRecord_eqb (a b : UserAccessKeyRecord) : bool :=
  (uak_id a =? uak_id b) && (uak_userId a =? uak_userId b) && bool_decide (uak_name a = uak_name b) && bool_decide (uak_text a = uak_text b) &&
  bool_decide (uak_description a = uak_description b) && Bool.eqb (uak_active a) (uak_active b).

Definition UserAccessKeyRecord_getSerializedSize (r : UserAccessKeyRecord) (version : Z) : Z :=
  16 + getVarIntSize false W32 version + getVarIntSize false W64 (uak_id r) + getVarIntSize false W32 (uak_userId r) +
  getSerializedSize_string (uak_name r) + getSerializedSize_string (uak_text r) +
  getSerializedSize_opt getSerializedSize_string (uak_description r) + 1.

Definition UserAccessKeyRecord_serializeUnchecked (r : UserAccessKeyRecord) (version : Z) : list Z :=
  write_class UserAccessKeyRecord_classUuid version ++ encodeVarInt false W64 (uak_id r) ++ encodeVarInt false W32 (uak_userId r) ++
  serializeUnchecked_string (uak_name r) ++ serializeUnchecked_string (uak_text r) ++
  serializeUnchecked_opt serializeUnchecked_string (uak_description r) ++ write_bool (uak_active r).

Definition UserAccessKeyRecord_deserialize : Reader UserAccessKeyRecord := (
  _ <~ read_class "UserAccessKeyRecord" UserAccessKeyRecord_classUuid UserAccessKeyRecord_kClassVersion ;
  id <~ read_varint "UserAccessKeyRecord" decoder_result "id" W64 ;
  userId <~ read_varint "UserAccessKeyRecord" decoder_result "userId" W32 ;
  name <~ read_object "UserAccessKeyRecord" "name" deserializeObject_string ;
  text <~ read_object "UserAccessKeyRecord" "text" deserializeObject_string ;
  description <~ read_object "UserAccessKeyRecord" "description" (deserializeObject_opt deserializeObject_string) ;
  active <~ read_bool "UserAccessKeyRecord" "active" ;
  rdone {| uak_id := id; uak_userId := userId; uak_name := name; uak_text := text; uak_description := description; uak_active := active |})%reader.

(** ** [UserTokenRecord] *)

Record UserTokenRecord : Type := {
  utk_id : Z;
  utk_userId : Z;
  utk_name : list Z;
  utk_value : list Z;
  utk_expirationTimestamp : option Z;
  utk_description : option (list Z)
}.

#[export] Instance UserTokenRecord_eq_dec : EqDecision UserTokenRecord.
Proof. solve_decision. Defined.

(** The keys of [UserTokenRegistry]. *)
#[export] Instance UserTokenRecord_index : Indexed UserTokenRecord := {
  m_id_of := utk_id;
  unique a b := bool_decide (utk_name a = utk_name b) || bool_decide (utk_value a = utk_value b)
}.

Definition UserTokenRecord_classUuid : list Z := [0xd1; 0x1d; 0xe3; 0x71; 0x26; 0x0e; 0x4a; 0x36; 0x97; 0x1c; 0x5c; 0xab; 0x1c; 0xbc; 0xa3; 0xb7].
Definition UserTokenRecord_kClassVersion : Z := 0.

Definition UserTokenRecord_eqb (a b : UserTokenRecord) : bool :=
  (utk_id a =? utk_id b) && (utk_userId a =? utk_userId b) && bool_decide (utk_name a = utk_name b) && bool_decide (utk_value a = utk_value b) &&
  bool_decide (utk_expirationTimestamp a = utk_expirationTimestamp b) && bool_decide (utk_description a = utk_description b).

Definition UserTokenRecord_getSerializedSize (r : UserTokenRecord) (version : Z) : Z :=
  16 + getVarIntSize false W32 version + getVarIntSize false W64 (utk_id r) + getVarIntSize false W32 (utk_userId r) +
  getSerializedSize_string (utk_name r) + getSerializedSize_string (utk_value r) +
  getSerializedSize_opt (getVarIntSize true W64) (utk_expirationTimestamp r) + getSerializedSize_opt getSerializedSize_string (utk_description r).

Definition UserTokenRecord_serializeUnchecked (r : UserTokenRecord) (version : Z) : list Z :=
  write_class UserTokenRecord_classUuid version ++ encodeVarInt false W64 (utk_id r) ++ encodeVarInt false W32 (utk_userId r) ++
  serializeUnchecked_string (utk_name r) ++ serializeUnchecked_string (utk_value r) ++
  serializeUnchecked_opt (encodeVarInt true W64) (utk_expirationTimestamp r) ++ serializeUnchecked_opt serializeUnchecked_string (utk_description r).

Definition UserTokenRecord_deserialize : Reader UserTokenRecord := (
  _ <~ read_class "UserTokenRecord" UserTokenRecord_classUuid UserTokenRecord_kClassVersion ;
  id <~ read_varint "UserTokenRecord" decoder_result "id" W64 ;
  userId <~ read_varint "UserTokenRecord" decoder_result "userId" W32 ;
  name <~ read_object "UserTokenRecord" "name" deserializeObject_string ;
  value <~ read_object "UserTokenRecord" "value" deserializeObject_string ;
  expirationTimestamp <~ read_object "UserTokenRecord" "expirationTimestamp" (deserializeObject_opt_int true W64 None) ;
  description <~ read_object "UserTokenRecord" "description" (deserializeObject_opt deserializeObject_string) ;
  rdone {| utk_id := id; utk_userId := userId; utk_name := name; utk_value := value; utk_expirationTimestamp := expirationTimestamp; utk_description := description |})%reader.

(** ** [UserPermissionRecord] *)

Record UserPermissionRecord : Type := {
  upm_id : Z;
  upm_userId : Z;
  upm_databaseId : Z;
  upm_objectType : Z;
  upm_objectId : Z;
  upm_permissions : Z;
  upm_grantOptions : Z
}.

#[export] Instance UserPermissionRecord_eq_dec : EqDecision UserPermissionRecord.
Proof. solve_decision. Defined.

(** The keys of [UserPermissionRegistry]. *)
#[export] Instance UserPermissionRecord_index : Indexed UserPermissionRecord := {
  m_id_of := upm_id;
  unique _ _ := false
}.

Definition UserPermissionRecord_classUuid : list Z := [0x56; 0x0f; 0xf7; 0x56; 0xa6; 0x8d; 0x4e; 0x8b; 0xa3; 0xb9; 0x21; 0x3e; 0x4e; 0x80; 0xf8; 0x08].
Definition UserPermissionRecord_kClassVersion : Z := 0.

Definition UserPermissionRecord_eqb (a b : UserPermissionRecord) : bool :=
  (upm_id a =? upm_id b) && (upm_userId a =? upm_userId b) && (upm_databaseId a =? upm_databaseId b) && (upm_objectType a =? upm_objectType b) &&
  (upm_objectId a =? upm_objectId b) && (upm_permissions a =? upm_permissions b) && (upm_grantOptions a =? upm_grantOptions b).

Definition UserPermissionRecord_getSerializedSize (r : UserPermissionRecord) (version : Z) : Z :=
  16 + getVarIntSize false W32 version + getVarIntSize false W64 (upm_id r) + getVarIntSize false W32 (upm_userId r) +
  getVarIntSize false W32 (upm_databaseId r) + getVarIntSize false W32 (uw 32 (upm_objectType r)) + getVarIntSize false W64 (upm_objectId r) +
  getVarIntSize false W64 (upm_permissions r) + getVarIntSize false W64 (upm_grantOptions r).

Definition UserPermissionRecord_serializeUnchecked (r : UserPermissionRecord) (version : Z) : list Z :=
  write_class UserPermissionRecord_classUuid version ++ encodeVarInt false W64 (upm_id r) ++ encodeVarInt false W32 (upm_userId r) ++
  encodeVarInt false W32 (upm_databaseId r) ++ encodeVarInt false W32 (uw 32 (upm_objectType r)) ++ encodeVarInt false W64 (upm_objectId r) ++
  encodeVarInt false W64 (upm_permissions r) ++ encodeVarInt false W64 (upm_grantOptions r).

Definition UserPermissionRecord_deserialize : Reader UserPermissionRecord := (
  _ <~ read_class "UserPermissionRecord" UserPermissionRecord_classUuid UserPermissionRecord_kClassVersion ;
  id <~ read_varint "UserPermissionRecord" decoder_result "id" W64 ;
  userId <~ read_varint "UserPermissionRecord" decoder_result "userId" W32 ;
  databaseId <~ read_varint "UserPermissionRecord" decoder_result "databaseId" W32 ;
  objectType <~ read_varint "UserPermissionRecord" decoder_result "objectType" W32 ;
  objectId <~ read_varint "UserPermissionRecord" decoder_result "objectId" W64 ;
  permissions <~ read_varint "UserPermissionRecord" decoder_result "permissions" W64 ;
  grantOptions <~ read_varint "UserPermissionRecord" decoder_result "grantOptions" W64 ;
  rdone {| upm_id := id; upm_userId := userId; upm_databaseId := databaseId; upm_objectType := sw 32 objectType; upm_objectId := objectId; upm_permissions := permissions; upm_grantOptions := grantOptions |})%reader.

(** ** [UserRecord]

    Version 1 added tokens, version 2 permissions. *)

Record UserRecord : Type := {
  usr_id : Z;
  usr_name : list Z;
  usr_realName : option (list Z);
  usr_description : option (list Z);
  usr_active : bool;
  usr_accessKeys : Registry UserAccessKeyRecord;
  usr_tokens : Registry UserTokenRecord;
  usr_permissions : Registry UserPermissionRecord
}.

#[export] Instance UserRecord_eq_dec : EqDecision UserRecord.
Proof. solve_decision. Defined.

(** The keys of [UserRegistry]. *)
#[export] Instance UserRecord_index : Indexed UserRecord := {
  m_id_of := usr_id;
  unique a b := bool_decide (usr_name a = usr_name b)
}.

Definition UserRecord_classUuid : list Z := [0x4f; 0x19; 0x50; 0xd5; 0x01; 0xea; 0x45; 0x7f; 0x94; 0x5e; 0xb7; 0x04; 0x89; 0x4a; 0x70; 0xb9].
Definition UserRecord_kClassVersion : Z := 2.

(** The permissions are not compared. *)
Definition UserRecord_eqb (a b : UserRecord) : bool :=
  (usr_id a =? usr_id b) && bool_decide (usr_name a = usr_name b) && bool_decide (usr_realName a = usr_realName b) &&
  bool_decide (usr_description a = usr_description b) && Bool.eqb (usr_active a) (usr_active b) &&
  bool_decide (usr_accessKeys a = usr_accessKeys b) && bool_decide (usr_tokens a = usr_tokens b).

Definition UserRecord_getSerializedSize (r : UserRecord) (version : Z) : Z :=
  16 + getVarIntSize false W32 version + getVarIntSize false W32 (usr_id r) + getSerializedSize_string (usr_name r) +
  getSerializedSize_opt getSerializedSize_string (usr_realName r) + getSerializedSize_opt getSerializedSize_string (usr_description r) + 1 +
  getVarIntSize false W32 (registry_count (usr_accessKeys r)) +
  sum_sizes (fun x => UserAccessKeyRecord_getSerializedSize x UserAccessKeyRecord_kClassVersion) (byId (usr_accessKeys r)) +
  (if version >=? 1 then getVarIntSize false W32 (registry_count (usr_tokens r)) +
     sum_sizes (fun x => UserTokenRecord_getSerializedSize x UserTokenRecord_kClassVersion) (byId (usr_tokens r)) else 0) +
  (if version >=? 2 then getVarIntSize false W32 (registry_count (usr_permissions r)) +
     sum_sizes (fun x => UserPermissionRecord_getSerializedSize x UserPermissionRecord_kClassVersion) (byId (usr_permissions r)) else 0).

Definition UserRecord_serializeUnchecked (r : UserRecord) (version : Z) : list Z :=
  write_class UserRecord_classUuid version ++ encodeVarInt false W32 (usr_id r) ++ serializeUnchecked_string (usr_name r) ++
  serializeUnchecked_opt serializeUnchecked_string (usr_realName r) ++ serializeUnchecked_opt serializeUnchecked_string (usr_description r) ++
  write_bool (usr_active r) ++ encodeVarInt false W32 (registry_count (usr_accessKeys r)) ++
  write_all (fun x => UserAccessKeyRecord_serializeUnchecked x UserAccessKeyRecord_kClassVersion) (byId (usr_accessKeys r)) ++
  (if version >=? 1 then encodeVarInt false W32 (registry_count (usr_tokens r)) ++
     write_all (fun x => UserTokenRecord_serializeUnchecked x UserTokenRecord_kClassVersion) (byId (usr_tokens r)) else []) ++
  (if version >=? 2 then encodeVarInt false W32 (registry_count (usr_permissions r)) ++
     write_all (fun x => UserPermissionRecord_serializeUnchecked x UserPermissionRecord_kClassVersion) (byId (usr_permissions r)) else []).

Definition UserRecord_deserialize : Reader UserRecord := (
  classVersion <~ read_class "UserRecord" UserRecord_classUuid UserRecord_kClassVersion ;
  id <~ read_varint "UserRecord" decoder_result "id" W32 ;
  name <~ read_object "UserRecord" "name" deserializeObject_string ;
  realName <~ read_object "UserRecord" "realName" (deserializeObject_opt deserializeObject_string) ;
  description <~ read_object "UserRecord" "description" (deserializeObject_opt deserializeObject_string) ;
  active <~ read_bool "UserRecord" "active" ;
  accessKeyCount <~ read_varint "UserRecord" (fun _ => 0) "accessKeys.size" W32 ;
  accessKeys <~ read_registry "UserRecord" "accessKeys" UserAccessKeyRecord_deserialize registry_insert ∅ accessKeyCount ;
  tokens <~ (if classVersion >=? 1 then
    tokenCount <~ read_varint "UserRecord" (fun _ => 0) "tokens.size" W32 ;
    read_registry "UserRecord" "tokens" UserTokenRecord_deserialize registry_insert ∅ tokenCount
  else rdone ∅) ;
  permissions <~ (if classVersion >=? 2 then
    permissionCount <~ read_varint "UserRecord" (fun _ => 0) "permissions.size" W32 ;
    read_registry "UserRecord" "permissions" UserPermissionRecord_deserialize registry_insert ∅ permissionCount
  else rdone ∅) ;
  rdone {| usr_id := id; usr_name := name; usr_realName := realName; usr_description := description; usr_active := active;
          usr_accessKeys := accessKeys; usr_tokens := tokens; usr_permissions := permissions |})%reader.

(** ** The check at start: no two classes have the same UUID *)

Definition record_classes : list (string * list Z) := [
  ("ColumnDefinitionConstraintRecord", ColumnDefinitionConstraintRecord_classUuid);
  ("ColumnDefinitionRecord", ColumnDefinitionRecord_classUuid);
  ("ColumnRecord", ColumnRecord_classUuid);
  ("ColumnSetColumnRecord", ColumnSetColumnRecord_classUuid);
  ("ColumnSetRecord", ColumnSetRecord_classUuid);
  ("ConstraintDefinitionRecord", ConstraintDefinitionRecord_classUuid);
  ("ConstraintRecord", ConstraintRecord_classUuid);
  ("DatabaseRecord", DatabaseRecord_classUuid);
  ("IndexColumnRecord", IndexColumnRecord_classUuid);
  ("IndexRecord", IndexRecord_classUuid);
  ("TableRecord", TableRecord_classUuid);
  ("UserAccessKeyRecord", UserAccessKeyRecord_classUuid);
  ("UserPermissionRecord", UserPermissionRecord_classUuid);
  ("UserRecord", UserRecord_classUuid);
  ("UserTokenRecord", UserTokenRecord_classUuid);
  ("CipherKeyRecord", CipherKeyRecord_classUuid)
].

(** The error is the name of the class whose UUID is not unique. *)
Fixpoint check_records (uuids : gset (list Z)) (classes : list (string * list Z)) : outcome string unit :=
  match classes with
  | [] => Ok tt
  | (name, uuid) :: classes' =>
      if bool_decide (uuid ∈ uuids) then Throw name else check_records ({[uuid]} ∪ uuids) classes'
  end.

Definition checkRegistryRecordUuids : outcome string unit := check_records ∅ record_classes.

Example record_uuids_unique : checkRegistryRecordUuids = Ok tt.
Proof. vm_compute. reflexivity. Qed.
End Catalog.
