(* ===== verification/CatalogSpec.v ===== *)
(** * Catalog records are read back

    For every record of [CatalogRecords]: the announced size is the size of what
    is written, what is written is read back, and the record is an object of the
    interface [Codec].  Arbitrary bytes are read safely. *)

From stdpp Require Import base gmap list strings.
Set Warnings "-clear-no-such-hyp,-notation-incompatible-prefix,-notation-for-abbreviation".
From Stdlib Require Import ZArith Lia.
From S2P Require Import Prelude VarInt Codec ColumnRecords RecordReader CatalogRecords.

Local Open Scope Z_scope.

#[local] Opaque encodeVarInt getVarIntSize decodeVarInt.

(** ** Fields *)

Definition string_ok (s : list Z) : Prop := bytes_ok s /\ len s < 2 ^ 64.
Definition optional_ok {A} (P : A -> Prop) (o : option A) : Prop := match o with Some a => P a | None => True end.
(** A string that a record ends with. *)
Definition last_string_ok (s : list Z) : Prop := string_ok s /\ (s = [] \/ List.last s 0 < 128 \/ 7 <= len s).
Definition registry_fits {R} {I : Indexed R} (P : R -> Prop) (m : Registry R) : Prop :=
  registry_ok m /\ Z.of_nat (size m) < 2 ^ 32 /\ map_Forall (fun _ r => P r) m.

Lemma registry_fits_one {R} {I : Indexed R} (P : R -> Prop) i r : m_id_of r = i -> P r -> registry_fits P {[i := r]}.
Proof.
  intros <- Hr. split; [split|split].
  - by apply map_Forall_singleton.
  - intros i j a b [<- <-]%lookup_singleton_Some [<- <-]%lookup_singleton_Some H. done.
  - rewrite map_size_singleton. done.
  - by apply map_Forall_singleton.
Qed.

Lemma varint_bytes w v : u_ok (bits w) v -> bytes_ok (encodeVarInt false w v).
Proof. apply (encodeVarInt_bytes false). Qed.

Lemma string_bytes s : string_ok s -> bytes_ok (serializeUnchecked_string s).
Proof. apply (ser_bytes (C := string_codec)). Qed.

Lemma optional_bytes o : optional_ok string_ok o -> bytes_ok (serializeUnchecked_opt serializeUnchecked_string o).
Proof. apply (ser_bytes (C := option_codec (C := string_codec)) o). Qed.

Lemma opt_int_bytes o : optional_ok (s_ok 64) o -> bytes_ok (serializeUnchecked_opt (encodeVarInt true W64) o).
Proof. destruct o as [v|]; cbn; [|repeat constructor; cbn; lia]. intros Hv. constructor; [split; lia|]. by apply (encodeVarInt_bytes true). Qed.

Lemma bool_bytes b : bytes_ok (write_bool b).
Proof. apply bool_firm. Qed.

Lemma class_bytes uuid version : bytes_ok uuid -> u_ok 32 version -> bytes_ok (write_class uuid version).
Proof. intros Hu Hv. apply Forall_app. split; [done|by apply (varint_bytes W32)]. Qed.

Lemma text_optional d : optional_ok text_ok d -> optional_ok string_ok d.
Proof. destruct d; [|done]. intros (H1 & H2 & _). by split. Qed.

Lemma reads_optional cls field o rest : optional_ok string_ok o -> bytes_ok rest ->
  reads (read_object cls field (deserializeObject_opt deserializeObject_string)) (serializeUnchecked_opt serializeUnchecked_string o) o rest.
Proof. intros Ho Hr. apply (reads_object (C := option_codec (C := string_codec)) cls field o rest); [by destruct o|done|by destruct o]. Qed.

Lemma reads_opt_int cls field o rest : optional_ok (s_ok 64) o -> firm rest ->
  reads (read_object cls field (deserializeObject_opt_int true W64 None)) (serializeUnchecked_opt (encodeVarInt true W64) o) o rest.
Proof.
  intros Ho [Hn [Hr Hs]] _. unfold read_object, deserializeObject_opt_int. destruct o as [v|]; cbn [serializeUnchecked_opt app]; rewrite len_cons.
  - pose proof (len_nonneg (encodeVarInt true W64 v ++ rest)). rewrite (proj2 (Z.ltb_ge _ 1)) by lia. rewrite rd_cons_0. cbn [bind Z.gtb Z.eqb Z.compare Pos.compare Pos.compare_cont tl].
    replace (1 + len (encodeVarInt true W64 v ++ rest) - 1) with (len (encodeVarInt true W64 v ++ rest)) by lia. pose proof (encodeVarInt_len true W64 v). assert (kMaxSerializedIntSize W64 = 10) by reflexivity.
    assert (Hd : decodable W64 (encodeVarInt true W64 v) rest).
    { unfold decodable. destruct (Z.eq_dec (len (encodeVarInt true W64 v)) 1); [by left|]. right. rewrite last_app_ne, len_app by done. destruct Hs as [?|[Hs|Hs]]; [done|by right|left; lia]. }
    rewrite (decodeVarInt_encode true W64 v rest Ho Hr Hd). cbn [lift bind]. rewrite !uw_small by (rewrite ?uw_small; unfold u_ok; lia). cbn. do 3 f_equal. rewrite len_cons. lia.
  - pose proof (len_nonneg rest). rewrite (proj2 (Z.ltb_ge _ 1)) by lia. done.
Qed.

Lemma last_string s : last_string_ok s -> string_ok s.
Proof. by intros [H _]. Qed.

Lemma last_string_firm s : last_string_ok s -> firm (serializeUnchecked_string s).
Proof. intros [[H1 H2] H3]. by apply string_firm. Qed.

Lemma reads_text cls field s rest : string_ok s -> bytes_ok rest -> reads (read_object cls field deserializeObject_string) (serializeUnchecked_string s) s rest.
Proof. intros [H1 H2]. by apply reads_string. Qed.

Lemma sw_uw_32 v : s_ok 32 v -> sw 32 (uw 32 v) = v.
Proof.
  unfold s_ok, sw, uw. change (2 ^ (32 - 1)) with 2147483648. change (2 ^ 32) with 4294967296. intros Hv. rewrite Zplus_mod_idemp_l, Z.mod_small by lia. lia.
Qed.

Lemma optional_size o : getSerializedSize_opt getSerializedSize_string o = len (serializeUnchecked_opt serializeUnchecked_string o).
Proof. destruct o as [s|]; [|done]. cbn [getSerializedSize_opt serializeUnchecked_opt]. rewrite len_cons, string_ser_len. lia. Qed.

Lemma opt_int_size o : getSerializedSize_opt (getVarIntSize true W64) o = len (serializeUnchecked_opt (encodeVarInt true W64) o).
Proof. destruct o as [s|]; [|done]. cbn [getSerializedSize_opt serializeUnchecked_opt]. rewrite len_cons, getVarIntSize_len. lia. Qed.

Lemma bool_size b : len (write_bool b) = 1.
Proof. done. Qed.

(** The last step of a reader. *)
Lemma reads_end {A B} (r : Reader A) (k : A -> Reader B) e a b rest : reads r e a rest -> k a = rdone b -> reads (rthen r k) e b rest.
Proof. intros Hr Hk. rewrite <- (app_nil_r e). apply (reads_then _ _ _ _ a); [done|]. by rewrite Hk. Qed.

Lemma reads_tail {A B} (r : Reader A) (k : A -> Reader B) e a b rest : reads r e a rest -> reads (k a) [] b rest -> reads (rthen r k) e b rest.
Proof. intros Hr Hk. rewrite <- (app_nil_r e). by apply (reads_then _ _ _ _ a). Qed.

(** ** What a record promises to the registries and records that hold it *)

Class RecordLaws {R} (P : R -> Prop) (size : R -> Z) (f : R -> list Z) (read : Reader R) : Prop := {
  record_size : forall r, P r -> size r = len (f r);
  record_firm : forall r, P r -> firm (f r);
  record_reads : forall r rest, P r -> settled rest -> reads read (f r) r rest;
  record_safe : safe 1 read
}.

(** ** Registries of records *)

Section Registries.
Context {R : Type} {I : Indexed R} (P : R -> Prop) (sz : R -> Z) (f : R -> list Z) (read : Reader R) {L : RecordLaws P sz f read}.
Context (m : Registry R) (Hm : registry_fits P m) (l : list R) (Hl : l ≡ₚ (map_to_list m).*2).

Lemma registry_all : Forall P l.
Proof using Hl Hm.
  apply Forall_forall. intros r Hr. rewrite Hl in Hr. apply list_elem_of_fmap in Hr as ([i r'] & -> & Hi%elem_of_map_to_list). by apply (proj2 (proj2 Hm) i).
Qed.

Lemma count_range : u_ok (bits W32) (registry_count m).
Proof using. apply uw_range. lia. Qed.

Lemma registry_settled rest : settled rest -> settled (write_all f l ++ rest).
Proof using All. intros Hr. apply (write_all_before f P); [exact record_firm|apply registry_all|done]. Qed.

Lemma registry_write_settled : settled (write_all f l).
Proof using All. apply (write_all_settled f P); [exact record_firm|apply registry_all]. Qed.

Lemma reads_stored cls field rest : settled rest -> reads (read_registry cls field read registry_insert ∅ (registry_count m)) (write_all f l) m rest.
Proof using All.
  intros Hr. rewrite (traversal_len m l Hl (proj1 (proj2 Hm))). pose proof (registry_rebuild m l (proj1 Hm) Hl) as E. rewrite <- E. apply (reads_registry cls read f P); [exact record_firm|exact record_reads|apply registry_all|done].
Qed.

Lemma registry_bytes : bytes_ok (write_all f l).
Proof using All. apply registry_write_settled. Qed.

Lemma sum_sizes_len : sum_sizes sz l = len (write_all f l).
Proof using All.
  pose proof registry_all as Hall. clear Hl. induction Hall as [|r l' Hr _ IH]; [done|]. change (write_all f (r :: l')) with (f r ++ write_all f l'). by rewrite len_app, <- IH, <- (record_size r Hr).
Qed.
End Registries.

(** ** Automation *)

Ltac range := first [assumption | apply count_range | apply uw_range; lia].
Ltac texts := first [assumption | by apply last_string | by apply text_optional].
Ltac traversal := first [apply byId_records | apply byOtherKey_records].
Ltac bytes := first [assumption | apply class_bytes; [by repeat constructor|assumption || by vm_compute] | apply varint_bytes; range | apply bool_bytes
  | apply string_bytes; texts | apply optional_bytes; texts | apply opt_int_bytes; assumption | eapply registry_bytes; [apply _|eassumption|traversal]].

(** Goals [firm] and [settled] of what follows a field. *)
Ltac firm :=
  rewrite <- ?app_assoc;
  lazymatch goal with
  | |- settled (write_all _ _ ++ _) => first [assumption | eapply registry_settled; [apply _|eassumption|traversal|firm]]
  | |- settled (write_all _ _) => eapply registry_write_settled; [apply _|eassumption|traversal]
  | |- settled _ => first [assumption | apply firm_settled; firm]
  | |- firm (?a ++ ?b) => first [is_var b; apply firm_before; [firm|assumption] | apply firm_app; [bytes|firm] | apply firm_before; [firm|firm]]
  | |- firm (encodeVarInt _ _ _) => apply varint_firm; range
  | |- firm (write_bool _) => apply bool_firm
  | |- firm (serializeUnchecked_opt _ _) => apply description_firm; assumption
  | |- firm (serializeUnchecked_string _) => apply last_string_firm; assumption
  end.

Ltac settled_bytes := match goal with |- bytes_ok ?l => let H := fresh in assert (H : settled l) by firm; exact (proj1 H) end.

(** A field at the head of what is written. *)
Ltac read_field :=
  first [ apply reads_class; [reflexivity|assumption || by vm_compute|assumption || by vm_compute|firm]
        | apply reads_varint; [range|firm]
        | apply reads_text; [texts|settled_bytes]
        | apply reads_optional; [texts|settled_bytes]
        | apply reads_opt_int; [assumption|firm]
        | apply reads_bool
        | apply reads_uuid; assumption
        | eapply reads_stored; [apply _|eassumption|traversal|firm] ].

(** A record of fields: each is read in turn, and the fields make the record. *)
Ltac read_record :=
  repeat (eapply reads_then; [read_field|cbv beta]);
  eapply reads_end; [read_field|cbv beta; rewrite ?sw_uw_32 by assumption; match goal with |- _ = rdone ?r => by destruct r end].

(** The sizes of fields. *)
Ltac sizes :=
  unfold write_class; rewrite ?len_app, ?bool_size, ?getVarIntSize_len, ?string_ser_len, ?optional_size, ?opt_int_size;
  repeat (erewrite sum_sizes_len; [|apply _|eassumption|traversal]).

(** Fields of arbitrary bytes. *)
Ltac safe_field :=
  first [ apply safe_class | apply safe_varint | apply safe_string | apply safe_optional, (safe_weaken 1); [apply safe_string|lia]
        | apply safe_opt_int | apply safe_bool | apply safe_uuid | apply safe_registry; exact record_safe | apply safe_ret | apply safe_registry; exact record_safe ].
Ltac safe_fields := repeat (eapply safe_bind; [|safe_field|intros ?]; [lia|]); safe_field.

Ltac conjuncts := repeat match goal with H : _ /\ _ |- _ => destruct H end.

(** The laws of a record that is made of fields. *)
Tactic Notation "record_laws" reference(ok) reference(size) constr(uuid) reference(f) reference(read) :=
  split;
  [ intros r H; unfold ok in H; conjuncts; unfold size, f; sizes; change (len uuid) with 16; lia
  | intros r H; unfold ok in H; conjuncts; unfold f; firm
  | intros r rest H Hrest; unfold ok in H; conjuncts; unfold f, read; read_record
  | unfold read; eapply safe_weaken; [safe_fields|lia] ].

(** ** The records *)

Section Catalog.
Context {T : Traversal}.

Definition CipherKeyRecord_ok (r : CipherKeyRecord) : Prop :=
  u_ok 64 (ck_id r) /\ string_ok (ck_cipherId r) /\ last_string_ok (ck_key r).

#[export] Instance CipherKeyRecord_laws : RecordLaws CipherKeyRecord_ok (fun r => CipherKeyRecord_getSerializedSize r CipherKeyRecord_kClassVersion)
  (fun r => CipherKeyRecord_serializeUnchecked r CipherKeyRecord_kClassVersion) CipherKeyRecord_deserialize.
Proof. record_laws CipherKeyRecord_ok CipherKeyRecord_getSerializedSize CipherKeyRecord_classUuid CipherKeyRecord_serializeUnchecked CipherKeyRecord_deserialize. Qed.

Definition ColumnDefinitionConstraintRecord_ok (r : ColumnDefinitionConstraintRecord) : Prop :=
  u_ok 64 (cdc_id r) /\ u_ok 64 (cdc_columnDefinitionId r) /\ u_ok 64 (cdc_constraintId r).

#[export] Instance ColumnDefinitionConstraintRecord_laws : RecordLaws ColumnDefinitionConstraintRecord_ok (fun r => ColumnDefinitionConstraintRecord_getSerializedSize r ColumnDefinitionConstraintRecord_kClassVersion)
  (fun r => ColumnDefinitionConstraintRecord_serializeUnchecked r ColumnDefinitionConstraintRecord_kClassVersion) ColumnDefinitionConstraintRecord_deserialize.
Proof. record_laws ColumnDefinitionConstraintRecord_ok ColumnDefinitionConstraintRecord_getSerializedSize ColumnDefinitionConstraintRecord_classUuid ColumnDefinitionConstraintRecord_serializeUnchecked ColumnDefinitionConstraintRecord_deserialize. Qed.

Definition ColumnDefinitionRecord_ok (r : ColumnDefinitionRecord) : Prop :=
  u_ok 64 (cdef_id r) /\ u_ok 64 (cdef_columnId r) /\ registry_fits ColumnDefinitionConstraintRecord_ok (cdef_constraints r).

#[export] Instance ColumnDefinitionRecord_laws : RecordLaws ColumnDefinitionRecord_ok (fun r => ColumnDefinitionRecord_getSerializedSize r ColumnDefinitionRecord_kClassVersion)
  (fun r => ColumnDefinitionRecord_serializeUnchecked r ColumnDefinitionRecord_kClassVersion) ColumnDefinitionRecord_deserialize.
Proof. record_laws ColumnDefinitionRecord_ok ColumnDefinitionRecord_getSerializedSize ColumnDefinitionRecord_classUuid ColumnDefinitionRecord_serializeUnchecked ColumnDefinitionRecord_deserialize. Qed.

Definition ColumnRecord_ok (r : ColumnRecord) : Prop :=
  u_ok 64 (col_id r) /\ string_ok (col_name r) /\ s_ok 32 (col_dataType r) /\ u_ok 32 (col_tableId r) /\ s_ok 32 (col_state r) /\
  u_ok 32 (col_dataBlockDataAreaSize r) /\ optional_ok text_ok (col_description r).

#[export] Instance ColumnRecord_laws : RecordLaws ColumnRecord_ok (fun r => ColumnRecord_getSerializedSize r ColumnRecord_kClassVersion)
  (fun r => ColumnRecord_serializeUnchecked r ColumnRecord_kClassVersion) ColumnRecord_deserialize.
Proof. record_laws ColumnRecord_ok ColumnRecord_getSerializedSize ColumnRecord_classUuid ColumnRecord_serializeUnchecked ColumnRecord_deserialize. Qed.

Definition ColumnSetColumnRecord_ok (r : ColumnSetColumnRecord) : Prop :=
  u_ok 64 (csc_id r) /\ u_ok 64 (csc_columnSetId r) /\ u_ok 64 (csc_columnDefinitionId r) /\ u_ok 64 (csc_columnId r).

#[export] Instance ColumnSetColumnRecord_laws : RecordLaws ColumnSetColumnRecord_ok (fun r => ColumnSetColumnRecord_getSerializedSize r ColumnSetColumnRecord_kClassVersion)
  (fun r => ColumnSetColumnRecord_serializeUnchecked r ColumnSetColumnRecord_kClassVersion) ColumnSetColumnRecord_deserialize.
Proof. record_laws ColumnSetColumnRecord_ok ColumnSetColumnRecord_getSerializedSize ColumnSetColumnRecord_classUuid ColumnSetColumnRecord_serializeUnchecked ColumnSetColumnRecord_deserialize. Qed.

Definition ColumnSetRecord_ok (r : ColumnSetRecord) : Prop :=
  u_ok 64 (cset_id r) /\ u_ok 32 (cset_tableId r) /\ registry_fits ColumnSetColumnRecord_ok (cset_columns r).

#[export] Instance ColumnSetRecord_laws : RecordLaws ColumnSetRecord_ok (fun r => ColumnSetRecord_getSerializedSize r ColumnSetRecord_kClassVersion)
  (fun r => ColumnSetRecord_serializeUnchecked r ColumnSetRecord_kClassVersion) ColumnSetRecord_deserialize.
Proof. record_laws ColumnSetRecord_ok ColumnSetRecord_getSerializedSize ColumnSetRecord_classUuid ColumnSetRecord_serializeUnchecked ColumnSetRecord_deserialize. Qed.

Definition ConstraintRecord_ok (r : ConstraintRecord) : Prop :=
  u_ok 64 (con_id r) /\ string_ok (con_name r) /\ s_ok 32 (con_state r) /\ u_ok 32 (con_tableId r) /\ u_ok 64 (con_columnId r) /\
  u_ok 64 (con_constraintDefinitionId r) /\ optional_ok text_ok (con_description r).

#[export] Instance ConstraintRecord_laws : RecordLaws ConstraintRecord_ok (fun r => ConstraintRecord_getSerializedSize r ConstraintRecord_kClassVersion)
  (fun r => ConstraintRecord_serializeUnchecked r ConstraintRecord_kClassVersion) ConstraintRecord_deserialize.
Proof. record_laws ConstraintRecord_ok ConstraintRecord_getSerializedSize ConstraintRecord_classUuid ConstraintRecord_serializeUnchecked ConstraintRecord_deserialize. Qed.

Definition DatabaseRecord_ok (r : DatabaseRecord) : Prop :=
  u_ok 32 (db_id r) /\ len (db_uuid r) = 16 /\ bytes_ok (db_uuid r) /\ string_ok (db_name r) /\ string_ok (db_cipherId r) /\
  optional_ok string_ok (db_description r) /\ u_ok 32 (db_maxTableCount r).

#[export] Instance DatabaseRecord_laws : RecordLaws DatabaseRecord_ok (fun r => DatabaseRecord_getSerializedSize r DatabaseRecord_kClassVersion)
  (fun r => DatabaseRecord_serializeUnchecked r DatabaseRecord_kClassVersion) DatabaseRecord_deserialize.
Proof. record_laws DatabaseRecord_ok DatabaseRecord_getSerializedSize DatabaseRecord_classUuid DatabaseRecord_serializeUnchecked DatabaseRecord_deserialize. Qed.

Definition IndexColumnRecord_ok (r : IndexColumnRecord) : Prop :=
  u_ok 64 (ixc_id r) /\ u_ok 64 (ixc_indexId r) /\ u_ok 64 (ixc_columnDefinitionId r).

#[export] Instance IndexColumnRecord_laws : RecordLaws IndexColumnRecord_ok (fun r => IndexColumnRecord_getSerializedSize r IndexColumnRecord_kClassVersion)
  (fun r => IndexColumnRecord_serializeUnchecked r IndexColumnRecord_kClassVersion) IndexColumnRecord_deserialize.
Proof. record_laws IndexColumnRecord_ok IndexColumnRecord_getSerializedSize IndexColumnRecord_classUuid IndexColumnRecord_serializeUnchecked IndexColumnRecord_deserialize. Qed.

Definition IndexRecord_ok (r : IndexRecord) : Prop :=
  u_ok 64 (ix_id r) /\ s_ok 32 (ix_type r) /\ u_ok 32 (ix_tableId r) /\ string_ok (ix_name r) /\ registry_fits IndexColumnRecord_ok (ix_columns r) /\
  u_ok 32 (ix_dataFileSize r) /\ optional_ok text_ok (ix_description r).

#[export] Instance IndexRecord_laws : RecordLaws IndexRecord_ok (fun r => IndexRecord_getSerializedSize r IndexRecord_kClassVersion)
  (fun r => IndexRecord_serializeUnchecked r IndexRecord_kClassVersion) IndexRecord_deserialize.
Proof. record_laws IndexRecord_ok IndexRecord_getSerializedSize IndexRecord_classUuid IndexRecord_serializeUnchecked IndexRecord_deserialize. Qed.

Definition TableRecord_ok (r : TableRecord) : Prop :=
  u_ok 32 (tbl_id r) /\ s_ok 32 (tbl_type r) /\ string_ok (tbl_name r) /\ u_ok 64 (tbl_firstUserTrid r) /\ u_ok 64 (tbl_currentColumnSetId r) /\
  optional_ok text_ok (tbl_description r).

#[export] Instance TableRecord_laws : RecordLaws TableRecord_ok (fun r => TableRecord_getSerializedSize r TableRecord_kClassVersion)
  (fun r => TableRecord_serializeUnchecked r TableRecord_kClassVersion) TableRecord_deserialize.
Proof. record_laws TableRecord_ok TableRecord_getSerializedSize TableRecord_classUuid TableRecord_serializeUnchecked TableRecord_deserialize. Qed.

Definition UserAccessKeyRecord_ok (r : UserAccessKeyRecord) : Prop :=
  u_ok 64 (uak_id r) /\ u_ok 32 (uak_userId r) /\ string_ok (uak_name r) /\ string_ok (uak_text r) /\ optional_ok string_ok (uak_description r).

#[export] Instance UserAccessKeyRecord_laws : RecordLaws UserAccessKeyRecord_ok (fun r => UserAccessKeyRecord_getSerializedSize r UserAccessKeyRecord_kClassVersion)
  (fun r => UserAccessKeyRecord_serializeUnchecked r UserAccessKeyRecord_kClassVersion) UserAccessKeyRecord_deserialize.
Proof. record_laws UserAccessKeyRecord_ok UserAccessKeyRecord_getSerializedSize UserAccessKeyRecord_classUuid UserAccessKeyRecord_serializeUnchecked UserAccessKeyRecord_deserialize. Qed.

Definition UserTokenRecord_ok (r : UserTokenRecord) : Prop :=
  u_ok 64 (utk_id r) /\ u_ok 32 (utk_userId r) /\ string_ok (utk_name r) /\ string_ok (utk_value r) /\
  optional_ok (s_ok 64) (utk_expirationTimestamp r) /\ optional_ok text_ok (utk_description r).

#[export] Instance UserTokenRecord_laws : RecordLaws UserTokenRecord_ok (fun r => UserTokenRecord_getSerializedSize r UserTokenRecord_kClassVersion)
  (fun r => UserTokenRecord_serializeUnchecked r UserTokenRecord_kClassVersion) UserTokenRecord_deserialize.
Proof. record_laws UserTokenRecord_ok UserTokenRecord_getSerializedSize UserTokenRecord_classUuid UserTokenRecord_serializeUnchecked UserTokenRecord_deserialize. Qed.

Definition UserPermissionRecord_ok (r : UserPermissionRecord) : Prop :=
  u_ok 64 (upm_id r) /\ u_ok 32 (upm_userId r) /\ u_ok 32 (upm_databaseId r) /\ s_ok 32 (upm_objectType r) /\ u_ok 64 (upm_objectId r) /\
  u_ok 64 (upm_permissions r) /\ u_ok 64 (upm_grantOptions r).

#[export] Instance UserPermissionRecord_laws : RecordLaws UserPermissionRecord_ok (fun r => UserPermissionRecord_getSerializedSize r UserPermissionRecord_kClassVersion)
  (fun r => UserPermissionRecord_serializeUnchecked r UserPermissionRecord_kClassVersion) UserPermissionRecord_deserialize.
Proof. record_laws UserPermissionRecord_ok UserPermissionRecord_getSerializedSize UserPermissionRecord_classUuid UserPermissionRecord_serializeUnchecked UserPermissionRecord_deserialize. Qed.

(** ** Constraint definitions: the hash is lost *)

Section Hash.
Context (XXH64 : list Z -> Z -> Z).

Definition ConstraintDefinitionRecord_ok (r : ConstraintDefinitionRecord) : Prop :=
  u_ok 64 (condef_id r) /\ s_ok 32 (condef_type r) /\ last_string_ok (condef_expression r).

(** What becomes of a record that is written and read. *)
Definition forget_hash (r : ConstraintDefinitionRecord) : ConstraintDefinitionRecord :=
  {| condef_id := condef_id r; condef_type := condef_type r; condef_expression := condef_expression r; condef_hash := computeHash XXH64 kNotNull [] |}.

Definition ConstraintDefinitionRecord_loaded (r : ConstraintDefinitionRecord) : Prop := ConstraintDefinitionRecord_ok r /\ forget_hash r = r.

#[export] Instance ConstraintDefinitionRecord_laws : RecordLaws ConstraintDefinitionRecord_loaded
  (fun r => ConstraintDefinitionRecord_getSerializedSize r ConstraintDefinitionRecord_kClassVersion)
  (fun r => ConstraintDefinitionRecord_serializeUnchecked r ConstraintDefinitionRecord_kClassVersion) (ConstraintDefinitionRecord_deserialize XXH64).
Proof.
  split.
  - intros r [H _]. unfold ConstraintDefinitionRecord_getSerializedSize, ConstraintDefinitionRecord_serializeUnchecked. sizes. change (len ConstraintDefinitionRecord_classUuid) with 16. lia.
  - intros r [H _]. unfold ConstraintDefinitionRecord_ok in H. conjuncts. unfold ConstraintDefinitionRecord_serializeUnchecked. firm.
  - intros r rest [H Hh] Hrest. unfold ConstraintDefinitionRecord_ok in H. conjuncts. unfold ConstraintDefinitionRecord_serializeUnchecked, ConstraintDefinitionRecord_deserialize. rewrite <- Hh at 4.
    repeat (eapply reads_then; [read_field|cbv beta]). eapply reads_end; [read_field|cbv beta]. rewrite sw_uw_32 by assumption. done.
  - unfold ConstraintDefinitionRecord_deserialize. eapply safe_weaken; [safe_fields|lia].
Qed.
End Hash.

(** ** Users *)

Definition UserRecord_ok (r : UserRecord) : Prop :=
  u_ok 32 (usr_id r) /\ string_ok (usr_name r) /\ optional_ok string_ok (usr_realName r) /\ optional_ok string_ok (usr_description r) /\
  registry_fits UserAccessKeyRecord_ok (usr_accessKeys r) /\ registry_fits UserTokenRecord_ok (usr_tokens r) /\
  registry_fits UserPermissionRecord_ok (usr_permissions r).

(** What a version of the format keeps of a user. *)
Definition UserRecord_at (version : Z) (r : UserRecord) : UserRecord :=
  {| usr_id := usr_id r; usr_name := usr_name r; usr_realName := usr_realName r; usr_description := usr_description r; usr_active := usr_active r;
     usr_accessKeys := usr_accessKeys r; usr_tokens := (if version >=? 1 then usr_tokens r else ∅);
     usr_permissions := (if version >=? 2 then usr_permissions r else ∅) |}.

Lemma UserRecord_size r version : UserRecord_ok r -> UserRecord_getSerializedSize r version = len (UserRecord_serializeUnchecked r version).
Proof.
  intros H. unfold UserRecord_ok in H. conjuncts. unfold UserRecord_getSerializedSize, UserRecord_serializeUnchecked. destruct (version >=? 1), (version >=? 2); sizes; change (len UserRecord_classUuid) with 16; change (len (@nil Z)) with 0; lia.
Qed.

Lemma UserRecord_written r version : UserRecord_ok r -> 0 <= version <= 2 -> firm (UserRecord_serializeUnchecked r version).
Proof.
  intros H Hv. assert (Hver : u_ok 32 version) by (split; lia). unfold UserRecord_ok in H. conjuncts. unfold UserRecord_serializeUnchecked.
  destruct (version >=? 1), (version >=? 2); rewrite ?app_nil_l, ?app_nil_r; firm.
Qed.

Lemma UserRecord_reads r version rest : UserRecord_ok r -> 0 <= version <= 2 -> settled rest ->
  reads UserRecord_deserialize (UserRecord_serializeUnchecked r version) (UserRecord_at version r) rest.
Proof.
  intros H [Hv0 Hv2] Hrest. assert (Hver : u_ok (bits W32) version) by (cbn; split; lia). change (version <= UserRecord_kClassVersion) in Hv2. unfold UserRecord_ok in H. conjuncts. unfold UserRecord_serializeUnchecked, UserRecord_deserialize, UserRecord_at.
  destruct (version >=? 1) eqn:E1, (version >=? 2) eqn:E2; rewrite ?app_nil_l, ?app_nil_r; repeat (eapply reads_then; [read_field|cbv beta]); rewrite ?E1, ?E2.
  - eapply reads_then; [eapply reads_then; read_field|cbv beta]. eapply reads_end; [eapply reads_then; read_field|done].
  - eapply reads_tail; [eapply reads_then; read_field|cbv beta]. eapply reads_end; [apply reads_done|done].
  - lia.
  - eapply reads_tail; [read_field|cbv beta]. do 2 (eapply reads_tail; [apply reads_done|cbv beta]). apply reads_done.
Qed.

#[export] Instance UserRecord_laws : RecordLaws UserRecord_ok (fun r => UserRecord_getSerializedSize r UserRecord_kClassVersion)
  (fun r => UserRecord_serializeUnchecked r UserRecord_kClassVersion) UserRecord_deserialize.
Proof.
  split.
  - intros r Hr. by apply UserRecord_size.
  - intros r Hr. by apply UserRecord_written.
  - intros r rest Hr Hrest. replace r with (UserRecord_at UserRecord_kClassVersion r) at 2 by (by destruct r). by apply UserRecord_reads.
  - unfold UserRecord_deserialize. eapply (safe_weaken 17); [|lia]. apply (safe_bind 17 0); [lia|apply safe_class|intros version]. eapply safe_weaken; [|shelve].
    do 7 (eapply safe_bind; [|safe_field|intros ?]; [lia|]).
    apply (safe_bind 0 0); [lia|destruct (version >=? 1); [apply (safe_weaken (1 + 0)); [apply (safe_bind 1 0); [lia|safe_field|intros ?; safe_field]|lia]|apply safe_ret]|intros ?].
    apply (safe_bind 0 0); [lia|destruct (version >=? 2); [apply (safe_weaken (1 + 0)); [apply (safe_bind 1 0); [lia|safe_field|intros ?; safe_field]|lia]|apply safe_ret]|intros ?]. apply safe_ret.
    Unshelve. all: lia.
Qed.
End Catalog.

(** ** Every record is an object of the interface [Codec] *)

Section RecordCodec.
Context {R : Type} (P : R -> Prop) (size : R -> Z) (f : R -> list Z) (read : Reader R).

Definition record_codec : Codec RecordError R := {|
  valid r := P r /\ len (f r) < 2 ^ 64;
  follows r rest := settled rest /\ len (f r ++ rest) < 2 ^ 64;
  size_of := size;
  ser := f;
  des := read
|}.

Lemma record_codec_laws : RecordLaws P size f read -> CodecLaws RecordError R (C := record_codec).
Proof.
  intros L. split; cbn.
  - intros r [Hr _]. by apply (record_firm (RecordLaws := L)).
  - intros r [Hr _]. by apply (record_size (RecordLaws := L)).
  - intros r [Hr Hl]. rewrite app_nil_r. split; [apply settled_nil|done].
  - intros r rest [Hr _] _ [Hs Hl]. by apply (record_reads (RecordLaws := L)).
Qed.
End RecordCodec.

(** ** Theorems *)

(** C26: a user with its access keys, tokens and permissions is read back from what
    was written in every version of the format, whatever the order in which the
    registries are traversed: version 0 loses the tokens and the permissions,
    version 1 the permissions.  The announced size is used.  The description of a
    token is empty, ends with a byte below 0x80 or has at least six bytes
    ([UserRecord_ok]); the bytes after the record are none, end with a byte below
    0x80 or are eight at least ([settled]).  [short_description_unreadable] is a user for which this fails. *)
Theorem user_record_versions {T : Traversal} r version rest : UserRecord_ok r -> 0 <= version <= 2 -> settled rest ->
  len (UserRecord_serializeUnchecked r version ++ rest) < 2 ^ 64 ->
  UserRecord_deserialize (UserRecord_serializeUnchecked r version ++ rest) (len (UserRecord_serializeUnchecked r version ++ rest)) =
  Ok (UserRecord_at version r, UserRecord_getSerializedSize r version).
Proof. intros Hr Hv Hs Hl. rewrite UserRecord_size by done. by apply UserRecord_reads. Qed.

(** Records that were inserted one after the other are consistent. *)
Lemma read_nested_ok {R} {I : Indexed R} cls field (read : Reader R) : (forall a b, unique a b = unique b a) -> forall fuel index count m buffer length m' n, registry_ok m ->
  read_nested cls fuel field read registry_insert index count m buffer length = Ok (m', n) -> registry_ok m'.
Proof.
  intros Hsym. induction fuel as [|fuel IH]; intros index count m buffer length m' n Hm E; cbn [read_nested] in E; (destruct (index <? count); [|by injection E as <- _]); [done|].
  destruct (read buffer length) as [[r k]| |]; [|done|done]. apply bind_Ok in E as ([m1 k1] & E & E1). injection E1 as <- _. eapply IH; [|exact E]. by apply registry_insert_ok.
Qed.

Lemma rthen_Ok {A B} (r : Reader A) (k : A -> Reader B) buffer length b n : rthen r k buffer length = Ok (b, n) ->
  exists a buffer1 length1 m1 m2, r buffer length = Ok (a, m1) /\ k a buffer1 length1 = Ok (b, m2).
Proof. intros E. unfold rthen in E. apply bind_Ok in E as ([a m1] & E1 & E). apply bind_Ok in E as ([b' m2] & E2 & E). injection E as <- _. by eexists a, _, _, m1, m2. Qed.

(** No two access keys, tokens or permissions of a user share a unique key. *)
Definition user_consistent (r : UserRecord) : Prop := registry_ok (usr_accessKeys r) /\ registry_ok (usr_tokens r) /\ registry_ok (usr_permissions r).

Ltac invert_steps := repeat match goal with H : rthen _ _ _ _ = Ok _ |- _ => apply rthen_Ok in H as (? & ? & ? & ? & ? & ? & H); cbv beta in H end.

(** The keys of an index are compared in both directions. *)
Ltac unique_sym := intros a b; cbn; rewrite ?(Z.eqb_sym (_ a)); repeat f_equal; apply bool_decide_ext; split; by intros ->.

Lemma user_read_consistent {T : Traversal} buffer length r n : UserRecord_deserialize buffer length = Ok (r, n) -> user_consistent r.
Proof.
  intros E. unfold UserRecord_deserialize in E. invert_steps. injection E as <- _. repeat match goal with H : (if ?b then _ else _) _ _ = Ok _ |- _ => destruct b; invert_steps end;
    repeat match goal with H : rdone _ _ _ = Ok _ |- _ => injection H as <- _ end;
    (split; [|split]); cbn; try apply registry_empty_ok; (eapply read_nested_ok; [|apply registry_empty_ok|eassumption]; by unique_sym).
Qed.

(** C27: reading a user from arbitrary bytes ends, with a user or an exception,
    never reads outside the given bytes and uses no more bytes than there are,
    whatever the counts and sizes in the bytes say; a user that was read has no two
    access keys, tokens or permissions with the same unique key. *)
Theorem user_record_safe {T : Traversal} buffer length : bytes_ok buffer -> 0 <= length <= len buffer -> length < 2 ^ 64 ->
  match UserRecord_deserialize buffer length with Ok (r, n) => 1 <= n <= length /\ user_consistent r | Throw _ => True | Undef _ => False end.
Proof.
  intros Hb Hl Hs. pose proof (record_safe (RecordLaws := UserRecord_laws) buffer length Hb Hl Hs) as H. destruct (UserRecord_deserialize buffer length) as [[r n]| |] eqn:E; [|done|done]. split; [done|]. by eapply user_read_consistent.
Qed.

(** ** Records that cannot be read *)

Definition throws {A} (r : Reader A) (l : list Z) (e : RecordError) : Prop := len l < 2 ^ 64 -> r l (len l) = Throw e.

Lemma throws_after {A B} (r : Reader A) (k : A -> Reader B) e1 rest a e : reads r e1 a rest -> throws (k a) rest e -> throws (rthen r k) (e1 ++ rest) e.
Proof.
  intros H1 H2 Hl. unfold rthen. rewrite H1 by done. cbn [bind]. rewrite skipn_len_app. rewrite len_app in *. pose proof (len_nonneg e1). pose proof (len_nonneg rest).
  replace (len e1 + len rest - len e1) with (len rest) by lia. rewrite uw_small by (unfold u_ok; lia). by rewrite H2 by lia.
Qed.

Lemma throws_here {A B} (r : Reader A) (k : A -> Reader B) l e : throws r l e -> throws (rthen r k) l e.
Proof. intros H Hl. unfold rthen. by rewrite H. Qed.

Lemma reads_decodable cls report field w v rest : u_ok (bits w) v -> bytes_ok rest -> decodable w (encodeVarInt false w v) rest -> reads (read_varint cls report field w) (encodeVarInt false w v) v rest.
Proof. intros Hv Hr Hd _. unfold read_varint. by rewrite decodeVarInt_encode. Qed.

(** An integer of more than one byte near the end of a buffer that ends with a
    byte from 0x80 on. *)
Lemma throws_varint cls report field w v rest : u_ok (bits w) v -> 128 <= v -> bytes_ok rest -> rest <> [] -> 128 <= List.last rest 0 ->
  len (encodeVarInt false w v ++ rest) < kMaxSerializedIntSize w ->
  throws (read_varint cls report field w) (encodeVarInt false w v ++ rest) (reportInvalidOrNotEnoughData cls field (report 0)).
Proof.
  intros Hv Hge Hr Hne Hlast Hmax _. unfold read_varint. assert (Hb : bytes_ok (encodeVarInt false w v ++ rest)) by (apply Forall_app; split; [by apply varint_bytes|done]).
  rewrite decodeVarInt_unsigned, decodeVarUInt_spec by (done || lia). unfold spec_decode. rewrite firstn_len, last_app_ne by done.
  assert (Hhead : exists b t, encodeVarInt false w v ++ rest = b :: t /\ 128 <= b).
  { rewrite encodeVarUInt_eq, encode_loop_eq by (by apply fits_max_iter). rewrite Z.geb_leb, (proj2 (Z.leb_le _ _)) by lia. cbn [app]. eexists _, _. split; [done|]. by apply lor_0x80_byte; unfold u_ok in Hv; lia. }
  destruct Hhead as (b & t & E & Hb'). rewrite E in *. rewrite (proj2 (Z.ltb_ge _ _)), (proj2 (Z.ltb_lt (len (b :: t)) _)), (proj2 (Z.leb_le _ _)) by lia. done.
Qed.

(** a table record whose current column set has a number from 128 on and whose
    description is short and ends with a character outside ASCII is written but
    cannot be read again: the test of the last byte of the buffer rejects it. *)
Theorem table_record_unreadable r s : u_ok 32 (tbl_id r) -> s_ok 32 (tbl_type r) -> string_ok (tbl_name r) -> 0 <= tbl_firstUserTrid r < 128 ->
  128 <= tbl_currentColumnSetId r < 2 ^ 64 -> tbl_description r = Some s -> bytes_ok s -> s <> [] -> 128 <= List.last s 0 ->
  len (encodeVarInt false W64 (tbl_currentColumnSetId r)) + len s < 8 ->
  let buffer := TableRecord_serializeUnchecked r TableRecord_kClassVersion in len buffer < 2 ^ 64 ->
  TableRecord_deserialize buffer (len buffer) = Throw (NotEnough "TableRecord" "currentColumnSetId").
Proof.
  cbv zeta. intros Hid Hty Hname Htrid Hcs Hd Hsb Hne Hlast Hlen. set (D := serializeUnchecked_opt serializeUnchecked_string (tbl_description r)).
  set (C := encodeVarInt false W64 (tbl_currentColumnSetId r)) in *. assert (Hcl : 1 <= len C) by (apply (encodeVarInt_len false W64)). pose proof (len_nonneg s) as Hsl.
  assert (H1 : 0 < len s) by (destruct s; [done|rewrite len_cons; pose proof (len_nonneg s); lia]).
  assert (HDe : D = [1; len s] ++ s).
  { unfold D. rewrite Hd. cbn [serializeUnchecked_opt]. unfold serializeUnchecked_string. rewrite encodeVarUInt_eq, encode_loop_eq by (apply fits_max_iter; split; cbn; lia). rewrite Z.geb_leb, (proj2 (Z.leb_gt _ _)), uw_small by (unfold u_ok; lia). done. }
  assert (HDl : len D = 2 + len s) by (rewrite HDe, len_app; done). assert (HDb : bytes_ok D) by (rewrite HDe; apply Forall_app; split; [repeat constructor; lia|done]).
  assert (HCb : bytes_ok (C ++ D)) by (apply Forall_app; split; [apply varint_bytes; unfold u_ok; cbn; lia|done]).
  assert (Htb : bytes_ok (encodeVarInt false W64 (tbl_firstUserTrid r) ++ C ++ D)) by (apply Forall_app; split; [apply varint_bytes; unfold u_ok; cbn; lia|done]).
  assert (Hnb : bytes_ok (serializeUnchecked_string (tbl_name r) ++ encodeVarInt false W64 (tbl_firstUserTrid r) ++ C ++ D)) by (apply Forall_app; split; [by apply string_bytes|done]).
  assert (Hyb : bytes_ok (encodeVarInt false W32 (uw 32 (tbl_type r)) ++ serializeUnchecked_string (tbl_name r) ++ encodeVarInt false W64 (tbl_firstUserTrid r) ++ C ++ D)) by (apply Forall_app; split; [apply varint_bytes; range|done]).
  pose proof (encodeVarInt_len false W64 (tbl_firstUserTrid r)) as Htl. pose proof (encodeVarInt_len false W32 (uw 32 (tbl_type r))) as Hyl. pose proof (encodeVarInt_len false W32 (tbl_id r)) as Hil.
  assert (Hnl : 1 <= len (serializeUnchecked_string (tbl_name r))) by (unfold serializeUnchecked_string; rewrite len_app; pose proof (encodeVarInt_len false W64 (len (tbl_name r))); pose proof (len_nonneg (tbl_name r)); lia).
  unfold TableRecord_serializeUnchecked. fold C D. match goal with |- len ?b < _ -> _ => change (throws TableRecord_deserialize b (NotEnough "TableRecord" "currentColumnSetId")) end. unfold TableRecord_deserialize.
  eapply throws_after; [apply reads_class; [done|by vm_compute|done|split; [apply Forall_app; split; [by apply varint_bytes|done]|right; right; rewrite !len_app; lia]]|cbv beta].
  eapply throws_after; [apply reads_decodable; [done|done|right; left; rewrite !len_app; change (kMaxSerializedIntSize W32) with 5; lia]|cbv beta].
  eapply throws_after; [apply reads_decodable; [range|done|right; left; rewrite !len_app; change (kMaxSerializedIntSize W32) with 5; lia]|cbv beta].
  eapply throws_after; [apply reads_text; [done|done]|cbv beta].
  eapply throws_after; [apply reads_decodable; [unfold u_ok; cbn; lia|done|left; rewrite encodeVarUInt_eq, encode_loop_eq by (apply fits_max_iter; unfold u_ok; cbn; lia); rewrite Z.geb_leb, (proj2 (Z.leb_gt _ _)) by lia; done]|cbv beta].
  apply throws_here. apply (throws_varint "TableRecord" decoder_result); [unfold u_ok; cbn; lia|lia|done|by rewrite HDe| |rewrite len_app, HDl; change (kMaxSerializedIntSize W64) with 10; fold C; lia].
  rewrite HDe. by rewrite last_app_ne.
Qed.

(** ** Concrete records *)

Definition sample_key : UserAccessKeyRecord :=
  {| uak_id := 1; uak_userId := 4096; uak_name := [107]; uak_text := [115; 115; 104]; uak_description := None; uak_active := true |}.
Definition sample_token : UserTokenRecord :=
  {| utk_id := 300; utk_userId := 4096; utk_name := [116]; utk_value := [200; 201]; utk_expirationTimestamp := Some (-5); utk_description := Some [97] |}.
Definition sample_permission : UserPermissionRecord :=
  {| upm_id := 7; upm_userId := 4096; upm_databaseId := 1; upm_objectType := 2; upm_objectId := 70000; upm_permissions := 9; upm_grantOptions := 1 |}.
Definition sample_user : UserRecord :=
  {| usr_id := 4096; usr_name := [106; 111]; usr_realName := Some [74; 195; 182]; usr_description := None; usr_active := true;
     usr_accessKeys := {[1 := sample_key]}; usr_tokens := {[300 := sample_token]}; usr_permissions := {[7 := sample_permission]} |}.

(** Decides the conditions on concrete fields. *)
Ltac fields := repeat match goal with
  | |- _ /\ _ => split
  | |- optional_ok _ _ => cbn
  | |- bytes_ok _ => repeat constructor; cbn; lia
  | |- Forall _ _ => repeat constructor; cbn; lia
  | |- string_ok _ => split
  | |- text_ok _ => split
  | |- last_string_ok _ => split
  | |- u_ok _ _ => split; cbn; lia
  | |- s_ok _ _ => split; cbn; lia
  | |- _ \/ _ => by (left + (right; left) + (right; right))
  end; try done; try (cbn; lia).

Lemma sample_user_ok : UserRecord_ok sample_user.
Proof.
  unfold UserRecord_ok. cbn [sample_user usr_id usr_name usr_realName usr_description usr_accessKeys usr_tokens usr_permissions]. do 4 (split; [fields|]).
  split; [|split]; (apply registry_fits_one; [done|unfold UserAccessKeyRecord_ok, UserTokenRecord_ok, UserPermissionRecord_ok; fields]).
Qed.

Lemma user_record_versions_witness :
  UserRecord_deserialize (UserRecord_serializeUnchecked (T := list_traversal) sample_user 1) 90 =
  Ok ({| usr_id := 4096; usr_name := [106; 111]; usr_realName := Some [74; 195; 182]; usr_description := None; usr_active := true;
         usr_accessKeys := {[1 := sample_key]}; usr_tokens := {[300 := sample_token]}; usr_permissions := ∅ |}, 90).
Proof.
  pose proof (user_record_versions (T := list_traversal) sample_user 1 [] sample_user_ok ltac:(lia) settled_nil) as H. rewrite app_nil_r in H.
  assert (E : len (UserRecord_serializeUnchecked (T := list_traversal) sample_user 1) = 90) by (vm_compute; reflexivity). rewrite E in H. rewrite H by lia. vm_compute. reflexivity.
Defined.

Lemma user_record_safe_witness : user_consistent (UserRecord_at 1 sample_user).
Proof.
  set (buffer := UserRecord_serializeUnchecked (T := list_traversal) sample_user 1).
  assert (Hb : bytes_ok buffer) by (vm_compute; repeat constructor; discriminate).
  pose proof (user_record_safe (T := list_traversal) buffer 90 Hb ltac:(vm_compute; split; discriminate) ltac:(lia)) as H.
  assert (E : UserRecord_deserialize buffer 90 = Ok (UserRecord_at 1 sample_user, 90)) by (vm_compute; reflexivity). rewrite E in H. exact (proj2 H).
Defined.

(** Lengths that reach behind the end are rejected. *)
Example user_record_cut : UserRecord_deserialize (UserRecord_classUuid ++ [2; 1; 1]) 19 = Throw (FieldFailure "UserRecord" "name" (InvalidLength 1 0)).
Proof. vm_compute. reflexivity. Qed.

Definition sample_table : TableRecord :=
  {| tbl_id := 70000; tbl_type := 1; tbl_name := [84]; tbl_firstUserTrid := 1; tbl_currentColumnSetId := 200; tbl_description := Some [195; 169] |}.

Lemma table_record_unreadable_witness : TableRecord_deserialize (TableRecord_serializeUnchecked sample_table 0) 30 = Throw (NotEnough "TableRecord" "currentColumnSetId").
Proof.
  assert (E : len (TableRecord_serializeUnchecked sample_table 0) = 30) by (vm_compute; reflexivity). rewrite <- E.
  refine (table_record_unreadable sample_table [195; 169] _ _ _ _ _ _ _ _ _ _ _); try done; try (vm_compute; reflexivity); try (split; cbn; lia); try (repeat constructor; cbn; lia); cbn; try lia.
Defined.

(** The last-byte test of the decoders: the user above is written but not read in
    version 1 when its token expires in November 2023 and is described by one
    character of two bytes. *)
Definition accented_user : UserRecord :=
  {| usr_id := 4096; usr_name := [106; 111]; usr_realName := None; usr_description := None; usr_active := true; usr_accessKeys := ∅;
     usr_tokens := {[300 := {| utk_id := 300; utk_userId := 4096; utk_name := [116]; utk_value := [200; 201]; utk_expirationTimestamp := Some 1700000000; utk_description := Some [195; 169] |}]};
     usr_permissions := ∅ |}.
Theorem short_description_unreadable :
  let bytes := UserRecord_serializeUnchecked (T := list_traversal) accented_user 1 in
  match UserRecord_deserialize bytes (len bytes) with Throw _ => True | _ => False end.
Proof. vm_compute. exact I. Qed.
