(* ===== verification/SystemObjects.v ===== *)
(** * The file of system objects

    Models [Database_SysTablesIO.cpp]: the records of the system tables of a
    database are saved in a file of their own, from which the registries are
    filled at start.  The file is any implementation of the interface [File]. *)

From stdpp Require Import base gmap list strings.
Set Warnings "-clear-no-such-hyp,-notation-incompatible-prefix,-notation-for-abbreviation".
From Stdlib Require Import ZArith Lia.
From S2P Require Import Prelude StateM Bytes VarInt PlainBinary Codec FileIO EncryptedFile EncryptedFileSpec FileSpec RecordReader CatalogRecords CatalogSpec.

Local Open Scope Z_scope.

(** ** Collections *)

(** What the template needs of the records of a collection. *)
Class CatalogObject (R : Type) : Type := {
  object_index :: Indexed R;
  object_size : R -> Z;
  object_write : R -> list Z;
  object_read : Reader R
}.

Inductive SystemObjectsError : Type :=
| CannotSerializeSystemObject (objectTypeName : string) (id expected actual : Z)
| CannotWriteSystemObjectsFile (objectTypeName : string) (id serializedSize : Z) (errorCode actuallyWritten : Z)
| CannotReadSystemObjectsFile (objectTypeName : string) (number objectCount objectSize errorCode actuallyRead : Z)
| SystemObjectTooBig (objectTypeName : string) (number objectCount objectSize : Z)
| CannotDeserializeSystemObject (objectTypeName : string) (number objectCount : Z) (cause : RecordError)
| WrongObjectCount (objectTypeName : string) (expected actual : Z)
| UncaughtFileError (cause : FileError).

Definition kMaxObjectSerializedSize : Z := 0x10000.

Section Serializer.
Context {T : Traversal} {F : Type} {FO : FileOps F}.

Record SystemObjectSerializer : Type := { m_file : F; m_filePos : Z }.

Notation M := (SM SystemObjectSerializer SystemObjectsError).

Definition file_call {A} (err : FileError -> SystemObjectsError) (c : FM F A) : M A :=
  embed m_file (fun f s => {| m_file := f; m_filePos := m_filePos s |}) err c.
Definition advance (n : Z) : M unit := modify (fun s => {| m_file := m_file s; m_filePos := m_filePos s + n |}).

(** The handlers of the two [try] blocks. *)
Definition on_write_error (objectTypeName : string) (id serializedSize : Z) (e : FileError) : SystemObjectsError :=
  match e with
  | FileWriteError errorCode actuallyWritten => CannotWriteSystemObjectsFile objectTypeName id serializedSize errorCode actuallyWritten
  | _ => UncaughtFileError e
  end.
Definition on_read_error (objectTypeName : string) (number objectCount objectSize : Z) (e : FileError) : SystemObjectsError :=
  match e with
  | FileReadError errorCode actuallyRead => CannotReadSystemObjectsFile objectTypeName number objectCount objectSize errorCode actuallyRead
  | _ => UncaughtFileError e
  end.

Section Collection.
Context {R : Type} {CO : CatalogObject R} (objectTypeName : string).

Fixpoint write_objects (firstUserObjectId : Z) (index : list R) : M unit :=
  match index with
  | [] => mret tt
  | obj :: index' =>
      (if m_id_of obj >=? firstUserObjectId then mret tt else
       let serializedSize := object_size obj + 4 in
       let data := object_write obj in
       let buffer := pbeEncodeUInt32 (uw 32 (serializedSize - 4)) ++ data in
       (if negb (len buffer =? serializedSize)
        then mthrow (CannotSerializeSystemObject objectTypeName (m_id_of obj) (serializedSize - 4) (len data)) else mret tt) ;;'
       pos <-- gets m_filePos ;;
       file_call (on_write_error objectTypeName (m_id_of obj) serializedSize) (writeChecked buffer pos) ;;'
       advance serializedSize) ;;'
      write_objects firstUserObjectId index'
  end.

Definition serialize (objects : Registry R) (firstUserObjectId : Z) : M unit :=
  let index := byId objects in
  let objectCount := len (filter (fun object => m_id_of object < firstUserObjectId) index) in
  pos <-- gets m_filePos ;;
  file_call UncaughtFileError (writeChecked (pbeEncodeUInt32 (uw 32 objectCount)) pos) ;;'
  advance 4 ;;'
  if objectCount =? 0 then mret tt else write_objects firstUserObjectId index.

(** [count] objects are left to read; [i] is the number of those before. *)
Fixpoint read_objects (count : nat) (i objectCount : Z) (objects : Registry R) : M (Registry R) :=
  match count with
  | O => mret objects
  | S count' =>
      pos <-- gets m_filePos ;;
      size <-- file_call (on_read_error objectTypeName (i + 1) objectCount 0) (readChecked 4 pos) ;;
      objectSize <-- mlift (pbeDecodeUInt32 size) ;;
      advance 4 ;;'
      (if objectSize >? kMaxObjectSerializedSize then mthrow (SystemObjectTooBig objectTypeName (i + 1) objectCount objectSize) else mret tt) ;;'
      pos <-- gets m_filePos ;;
      buffer <-- file_call (on_read_error objectTypeName (i + 1) objectCount objectSize) (readChecked objectSize pos) ;;
      advance objectSize ;;'
      r <-- mlift (match object_read buffer objectSize with
                   | Ok (r, _) => Ok r
                   | Throw e => Throw (CannotDeserializeSystemObject objectTypeName (i + 1) objectCount e)
                   | Undef u => Undef u
                   end) ;;
      read_objects count' (i + 1) objectCount (registry_insert r objects)
  end.

Definition deserialize : M (Registry R) :=
  pos <-- gets m_filePos ;;
  count <-- file_call UncaughtFileError (readChecked 4 pos) ;;
  objectCount <-- mlift (pbeDecodeUInt32 count) ;;
  advance 4 ;;'
  objects <-- read_objects (Z.to_nat objectCount) 0 objectCount ∅ ;;
  if negb (Z.of_nat (size objects) =? objectCount) then mthrow (WrongObjectCount objectTypeName objectCount (Z.of_nat (size objects)))
  else mret objects.
End Collection.
End Serializer.
Arguments SystemObjectSerializer F : clear implicits.

(** ** Sequential files

    What the serializer needs of a file: bytes can be appended up to some size,
    and what is inside the file can be read. *)

Class SequentialFile (F : Type) {FO : FileOps F} {FL : FileLaws F} : Type := {
  file_capacity : Z;
  append_ok : forall p b, len p + len b <= file_capacity -> fl_ok (FWrite b (len p)) p;
  read_inside_ok : forall p o n, 0 <= o -> 0 <= n -> o + n <= len p -> len p <= file_capacity -> fl_ok (FRead n o) p
}.

Section Files.
Context {F : Type} {FO : FileOps F} {FL : FileLaws F} {SF : SequentialFile F}.
Notation state := (SystemObjectSerializer F).

(** The file has the bytes [p], and the position is after the first [n]. *)
Definition at_position (s : state) (p : list Z) (n : Z) : Prop := fl_rep (m_file s) p /\ m_filePos s = n.

Lemma append_run err s p b : at_position s p (len p) -> len p + len b <= file_capacity -> b <> [] ->
  exists s', file_call err (writeChecked b (m_filePos s)) s = (Ok tt, s') /\ at_position s' (p ++ b) (len p).
Proof.
  intros [Hs Hpos] Hc Hb. destruct (fl_op (m_file s) p _ Hs (append_ok p b Hc)) as (f & E & Hf). cbn [run_file_op plain_op fst snd] in E, Hf.
  rewrite pwrite_end in Hf by (done || (destruct b; [done|]; rewrite len_cons; pose proof (len_nonneg b); lia)). unfold mbind in E. destruct (f_write b (len p) (m_file s)) as [[n|e|u] f'] eqn:Ew; [|done|done]. injection E as -> ->.
  exists {| m_file := f; m_filePos := m_filePos s |}. unfold file_call, embed, writeChecked. rewrite Hpos. run_step Ew. rewrite Z.eqb_refl. by split.
Qed.

Lemma read_run err s pre b post : at_position s (pre ++ b ++ post) (len pre) -> len (pre ++ b ++ post) <= file_capacity ->
  exists s', file_call err (readChecked (len b) (m_filePos s)) s = (Ok b, s') /\ at_position s' (pre ++ b ++ post) (len pre).
Proof.
  intros [Hs Hpos] Hc. pose proof (len_nonneg pre). pose proof (len_nonneg b). pose proof (len_nonneg post). assert (Hl : len (pre ++ b ++ post) = len pre + len b + len post) by (rewrite !len_app; lia).
  destruct (fl_op (m_file s) _ _ Hs (read_inside_ok (pre ++ b ++ post) (len pre) (len b) ltac:(lia) ltac:(lia) ltac:(lia) Hc)) as (f & E & Hf). cbn [run_file_op plain_op fst snd] in E, Hf.
  assert (Hsub : sub (pre ++ b ++ post) (len pre) (available (pre ++ b ++ post) (len b) (len pre)) = b).
  { unfold available. rewrite Z.min_l, Z.max_r by lia. replace (len pre) with (len pre + 0) by lia. rewrite sub_app_mid by lia. unfold sub. cbn. apply firstn_len. }
  rewrite Hsub in E. unfold mbind in E. destruct (f_read (len b) (len pre) (m_file s)) as [[n|e|u] f'] eqn:Er; [|done|done]. injection E as -> ->.
  exists {| m_file := f; m_filePos := m_filePos s |}. unfold file_call, embed, readChecked. rewrite Hpos. run_step Er. rewrite Z.eqb_refl. by split.
Qed.

(** A computation that appends [b] to the file, and one that takes [b] from the
    file and returns [a]. *)
Definition writes (c : SM state SystemObjectsError unit) (b : list Z) : Prop := forall s p, at_position s p (len p) -> len (p ++ b) <= file_capacity ->
  exists s', c s = (Ok tt, s') /\ at_position s' (p ++ b) (len (p ++ b)).
Definition loads {A} (c : SM state SystemObjectsError A) (b : list Z) (a : A) : Prop := forall s pre post, at_position s (pre ++ b ++ post) (len pre) ->
  len (pre ++ b ++ post) <= file_capacity -> exists s', c s = (Ok a, s') /\ at_position s' (pre ++ b ++ post) (len (pre ++ b)).

Lemma writes_seq c1 c2 b1 b2 : writes c1 b1 -> writes c2 b2 -> writes (c1 ;;' c2) (b1 ++ b2).
Proof.
  intros H1 H2 s p Hs Hc. rewrite app_assoc in *. destruct (H1 s p Hs) as (s1 & E1 & Hs1); [rewrite len_app in Hc; pose proof (len_nonneg b2); lia|].
  destruct (H2 s1 _ Hs1 Hc) as (s2 & E2 & Hs2). exists s2. by run_step E1.
Qed.

Lemma loads_bind {A B} (c : SM state SystemObjectsError A) (k : A -> SM state SystemObjectsError B) b1 b2 a b : loads c b1 a -> loads (k a) b2 b -> loads (mbind c k) (b1 ++ b2) b.
Proof.
  intros H1 H2 s pre post Hs Hc. rewrite <- app_assoc in *. destruct (H1 s pre (b2 ++ post) Hs Hc) as (s1 & E1 & Hs1). rewrite app_assoc in Hs1, Hc.
  destruct (H2 s1 _ post Hs1 Hc) as (s2 & E2 & Hs2). exists s2. run_step E1. rewrite <- !app_assoc in Hs2. by rewrite <- ?app_assoc.
Qed.

Lemma loads_ret {A} (a : A) : loads (mret a) [] a.
Proof. intros s pre post Hs _. exists s. by rewrite app_nil_r. Qed.

Lemma advance_run s p n k : at_position s p n -> exists s', advance k s = (Ok tt, s') /\ at_position s' p (n + k).
Proof. intros [Hs <-]. by eexists. Qed.
End Files.

(** ** The part of a registry that is saved *)

Section Part.
Context {R : Type} {I : Indexed R}.

Definition system_part (firstUserObjectId : Z) (m : Registry R) : Registry R := filter (fun x => fst x < firstUserObjectId) m.

Lemma registry_ok_subseteq (m m' : Registry R) : registry_ok m -> m' ⊆ m -> registry_ok m'.
Proof.
  intros [Hi Hu] Hs. split.
  - intros i r Hr. apply Hi. by eapply lookup_weaken.
  - intros i j r r' Hr Hr' Hij. by apply (Hu i j); [eapply lookup_weaken|eapply lookup_weaken|].
Qed.

Lemma system_part_subseteq k (m : Registry R) : system_part k m ⊆ m.
Proof. apply map_filter_subseteq. Qed.

Lemma records_nodup (m : Registry R) l : registry_ok m -> l ≡ₚ (map_to_list m).*2 -> NoDup l.
Proof.
  intros Hm ->. apply (NoDup_fmap_1 m_id_of). rewrite <- list_fmap_compose. replace ((m_id_of ∘ snd) <$> map_to_list m) with (map_to_list m).*1; [apply NoDup_fst_map_to_list|].
  apply list_fmap_ext. intros k [i r] Hk. cbn. apply list_elem_of_lookup_2, elem_of_map_to_list in Hk. symmetry. by apply (proj1 Hm).
Qed.

Lemma in_records (m : Registry R) l r : registry_ok m -> l ≡ₚ (map_to_list m).*2 -> r ∈ l <-> m !! m_id_of r = Some r.
Proof.
  intros Hm ->. rewrite list_elem_of_fmap. split.
  - intros ([i r'] & -> & Hi%elem_of_map_to_list). cbn. by rewrite (proj1 Hm i r' Hi).
  - intros Hr. exists (m_id_of r, r). split; [done|]. by apply elem_of_map_to_list.
Qed.

Lemma system_part_records k (m : Registry R) l : registry_ok m -> l ≡ₚ (map_to_list m).*2 ->
  filter (fun r => m_id_of r < k) l ≡ₚ (map_to_list (system_part k m)).*2.
Proof.
  intros Hm Hl. assert (Hp : registry_ok (system_part k m)) by (eapply registry_ok_subseteq; [exact Hm|apply system_part_subseteq]). apply NoDup_Permutation.
  - apply NoDup_filter. by apply (records_nodup m).
  - by apply (records_nodup (system_part k m)).
  - intros r. rewrite list_elem_of_filter, (in_records m l r Hm Hl), (in_records (system_part k m) _ r Hp (reflexivity _)). unfold system_part. rewrite map_lookup_filter_Some. cbn. tauto.
Qed.
End Part.

(** ** One collection

    [g] is what becomes of a record that is saved and loaded. *)

Class ObjectLaws {R} {CO : CatalogObject R} (P : R -> Prop) (g : R -> R) : Prop := {
  object_size_len : forall r, P r -> object_size r = len (object_write r);
  object_read_back : forall r, P r -> object_size r <= kMaxObjectSerializedSize -> exists n, object_read (object_write r) (object_size r) = Ok (g r, n);
  object_id : forall r, m_id_of (g r) = m_id_of r;
  object_unique : forall r r', unique (g r) (g r') = unique r r'
}.

Lemma record_object {R} {CO : CatalogObject R} P : RecordLaws P object_size object_write object_read -> ObjectLaws P id.
Proof.
  intros L. split; [apply L| |done|done]. intros r Hr Hs. pose proof (record_size (RecordLaws := L) r Hr) as E. pose proof (record_reads (RecordLaws := L) r [] Hr settled_nil) as H. unfold reads in H. rewrite app_nil_r, <- E in H.
  eexists. apply H. unfold kMaxObjectSerializedSize in Hs. lia.
Qed.

Section Collection.
Context {T : Traversal} {F : Type} {FO : FileOps F} {FL : FileLaws F} {SF : SequentialFile F}.
Context {R : Type} {CO : CatalogObject R} (P : R -> Prop) (g : R -> R) {L : ObjectLaws P g} (typeName : string) (first : Z).
Notation state := (SystemObjectSerializer F).
Notation M := (SM state SystemObjectsError).

Definition object_bytes (r : R) : list Z := pbeEncodeUInt32 (uw 32 (object_size r)) ++ object_write r.
Definition collection_bytes (l : list R) : list Z := pbeEncodeUInt32 (uw 32 (len l)) ++ concat (map object_bytes l).

(** The objects that can be stored: each is as big as the loader accepts. *)
Definition object_ok (r : R) : Prop := P r /\ object_size r <= kMaxObjectSerializedSize.

Lemma u32_len v : len (pbeEncodeUInt32 v) = 4.
Proof. done. Qed.

Lemma object_bytes_len r : P r -> len (object_bytes r) = object_size r + 4.
Proof using L. intros Hr. unfold object_bytes. rewrite len_app, u32_len, (object_size_len (ObjectLaws := L) r Hr). lia. Qed.

Lemma write_objects_ok l : forall s p, Forall P (filter (fun r => m_id_of r < first) l) -> at_position s p (len p) ->
  len p + len (concat (map object_bytes (filter (fun r => m_id_of r < first) l))) <= file_capacity ->
  exists s', write_objects typeName first l s = (Ok tt, s') /\
    at_position s' (p ++ concat (map object_bytes (filter (fun r => m_id_of r < first) l))) (len (p ++ concat (map object_bytes (filter (fun r => m_id_of r < first) l)))).
Proof using L.
  induction l as [|r l IH]; intros s p Hl Hs Hc; [exists s; cbn [filter list_filter map concat write_objects]; by rewrite app_nil_r|]. cbn [write_objects]. rewrite filter_cons in *. rewrite Z.geb_leb.
  destruct (Z.leb_spec first (m_id_of r)).
  - rewrite decide_False in * by lia. destruct (IH s p Hl Hs Hc) as (s' & E & Hs'). exists s'. by rewrite mbind_ret.
  - rewrite decide_True in * by lia. apply Forall_cons in Hl as [Hr Hl]. cbn [map concat] in *. rewrite len_app in Hc. pose proof (len_nonneg (concat (map object_bytes (filter (fun r => m_id_of r < first) l)))).
    replace (object_size r + 4 - 4) with (object_size r) by lia. change (pbeEncodeUInt32 (uw 32 (object_size r)) ++ object_write r) with (object_bytes r). rewrite (object_bytes_len r Hr), Z.eqb_refl. cbn [negb].
    destruct (append_run (on_write_error typeName (m_id_of r) (object_size r + 4)) s p (object_bytes r) Hs) as (s1 & E1 & Hs1); [lia|done|].
    destruct (advance_run s1 _ _ (object_size r + 4) Hs1) as (s2 & E2 & Hs2). rewrite <- (object_bytes_len r Hr), <- len_app in Hs2.
    destruct (IH s2 _ Hl Hs2) as (s3 & E3 & Hs3); [rewrite len_app; lia|]. exists s3. rewrite <- app_assoc in Hs3. split; [|exact Hs3].
    assert (Ebody : (mret tt ;;' (pos <-- gets m_filePos ;; file_call (on_write_error typeName (m_id_of r) (object_size r + 4)) (writeChecked (object_bytes r) pos) ;;' advance (object_size r + 4))) s = (Ok tt, s2)).
    { rewrite mbind_ret, mbind_gets. run_step E1. exact E2. }
    run_step Ebody. exact E3.
Qed.

Lemma serialize_ok m s p : Forall P (filter (fun r => m_id_of r < first) (byId m)) -> at_position s p (len p) ->
  let b := collection_bytes (filter (fun r => m_id_of r < first) (byId m)) in len p + len b <= file_capacity ->
  exists s', serialize typeName m first s = (Ok tt, s') /\ at_position s' (p ++ b) (len (p ++ b)).
Proof using L.
  cbv zeta. intros Hl Hs Hc. unfold collection_bytes in *. set (l := filter (fun r => m_id_of r < first) (byId m)) in *. rewrite len_app, u32_len in Hc. pose proof (len_nonneg (concat (map object_bytes l))).
  destruct (append_run UncaughtFileError s p (pbeEncodeUInt32 (uw 32 (len l))) Hs) as (s1 & E1 & Hs1); [rewrite u32_len; lia|done|].
  destruct (advance_run s1 _ _ 4 Hs1) as (s2 & E2 & Hs2). rewrite <- (u32_len (uw 32 (len l))), <- len_app in Hs2.
  unfold serialize. fold l. rewrite mbind_gets. run_step E1. run_step E2. destruct (Z.eqb_spec (len l) 0) as [E0|E0].
  - assert (l = []) as -> by (unfold len in E0; destruct l; [done|cbn in E0; lia]). exists s2. cbn [map concat]. by rewrite app_nil_r.
  - destruct (write_objects_ok (byId m) s2 _ Hl Hs2) as (s3 & E3 & Hs3); [rewrite len_app, u32_len; fold l; lia|]. fold l in Hs3. exists s3. by rewrite <- app_assoc in Hs3.
Qed.

Lemma u32_read {E} v : u_ok 32 v -> @pbeDecodeUInt32 E (pbeEncodeUInt32 (uw 32 v)) = Ok v.
Proof. intros Hv. rewrite uw_small by done. rewrite <- (app_nil_r (pbeEncodeUInt32 v)). by apply pbe_roundtrip_u. Qed.

Lemma read_objects_ok count l : Forall object_ok l -> forall s pre post i t, at_position s (pre ++ concat (map object_bytes l) ++ post) (len pre) ->
  len (pre ++ concat (map object_bytes l) ++ post) <= file_capacity ->
  exists s', read_objects typeName (length l) i count t s = (Ok (foldl (fun t r => registry_insert r t) t (g <$> l)), s') /\
    at_position s' (pre ++ concat (map object_bytes l) ++ post) (len (pre ++ concat (map object_bytes l))).
Proof using L.
  induction 1 as [|r l [Hr Hb] Hl IH]; intros s pre post i t Hs Hc; [exists s; cbn; by rewrite app_nil_r|]. cbn [map concat length read_objects foldl fmap list_fmap] in *.
  pose proof (object_size_len (ObjectLaws := L) r Hr) as Esz. pose proof (len_nonneg (object_write r)) as Hsz. assert (Hu : u_ok 32 (object_size r)) by (unfold kMaxObjectSerializedSize in Hb; split; lia).
  set (rest := concat (map object_bytes l)) in *. unfold object_bytes in Hs at 1. unfold object_bytes in Hc at 1. rewrite <- !app_assoc in Hs, Hc.
  destruct (read_run (on_read_error typeName (i + 1) count 0) s pre (pbeEncodeUInt32 (uw 32 (object_size r))) _ Hs Hc) as (s1 & E1 & Hs1).
  destruct (advance_run s1 _ _ 4 Hs1) as (s2 & E2 & Hs2). rewrite <- (u32_len (uw 32 (object_size r))), <- len_app in Hs2. rewrite (app_assoc pre) in Hs2, Hc.
  destruct (read_run (on_read_error typeName (i + 1) count (object_size r)) s2 _ _ _ Hs2 Hc) as (s3 & E3 & Hs3).
  destruct (advance_run s3 _ _ (len (object_write r)) Hs3) as (s4 & E4 & Hs4). rewrite <- len_app in Hs4. rewrite app_assoc in Hs4, Hc.
  destruct (IH s4 _ post (i + 1) (registry_insert (g r) t) Hs4 Hc) as (s5 & E5 & Hs5). destruct (object_read_back (ObjectLaws := L) r Hr Hb) as [n En].
  exists s5. rewrite mbind_gets. rewrite (u32_len (uw 32 (object_size r))) in E1. run_step E1.
  assert (Ed : @mlift (SystemObjectSerializer F) _ _ (@pbeDecodeUInt32 SystemObjectsError (pbeEncodeUInt32 (uw 32 (object_size r)))) s1 = (Ok (object_size r), s1)) by (unfold mlift; by rewrite u32_read).
  run_step Ed. run_step E2. rewrite Z.gtb_ltb, (proj2 (Z.ltb_ge _ _)) by lia. rewrite mbind_ret, mbind_gets. rewrite <- Esz in E3, E4. run_step E3. run_step E4. rewrite En. change (mlift (Ok (g r))) with (@mret (SystemObjectSerializer F) SystemObjectsError R (g r)). rewrite mbind_ret.
  split; [exact E5|]. unfold object_bytes. rewrite <- !app_assoc. rewrite <- !app_assoc in Hs5. exact Hs5.
Qed.

Lemma loaded_ok m : registry_ok m -> registry_ok (g <$> m).
Proof using L.
  intros [Hi Hu]. split.
  - intros i r Hr. rewrite lookup_fmap in Hr. apply fmap_Some in Hr as (r' & Hr' & ->). rewrite (object_id (ObjectLaws := L)). by apply Hi.
  - intros i j r r' Hr Hr' Hij. rewrite lookup_fmap in Hr, Hr'. apply fmap_Some in Hr as (r1 & Hr & ->). apply fmap_Some in Hr' as (r2 & Hr' & ->). rewrite (object_unique (ObjectLaws := L)). by apply (Hu i j).
Qed.

Lemma loaded_records (m : Registry R) l : l ≡ₚ (map_to_list m).*2 -> g <$> l ≡ₚ (map_to_list (g <$> m)).*2.
Proof using. intros ->. rewrite map_to_list_fmap, <- !list_fmap_compose. done. Qed.

(** The collection is the system part of what was saved. *)
Lemma deserialize_ok m pre post s : registry_ok m -> Z.of_nat (size (system_part first m)) < 2 ^ 32 -> Forall object_ok (filter (fun r => m_id_of r < first) (byId m)) ->
  let b := collection_bytes (filter (fun r => m_id_of r < first) (byId m)) in at_position s (pre ++ b ++ post) (len pre) -> len (pre ++ b ++ post) <= file_capacity ->
  exists s', deserialize typeName s = (Ok (g <$> system_part first m), s') /\ at_position s' (pre ++ b ++ post) (len (pre ++ b)).
Proof using L.
  cbv zeta. intros Hm Hsz Hl Hs Hc. pose proof (system_part_records first m (byId m) Hm (byId_records R m)) as Hperm. unfold collection_bytes in *. set (l := filter (fun r => m_id_of r < first) (byId m)) in *.
  assert (Hlen : len l = Z.of_nat (size (system_part first m))) by (unfold len; rewrite Hperm, length_fmap, length_map_to_list; done).
  assert (Hu : u_ok 32 (len l)) by (split; lia). rewrite <- !app_assoc in Hs, Hc. destruct (read_run UncaughtFileError s _ _ _ Hs Hc) as (s1 & E1 & Hs1).
  destruct (advance_run s1 _ _ 4 Hs1) as (s2 & E2 & Hs2). rewrite <- (u32_len (uw 32 (len l))), <- len_app in Hs2. rewrite app_assoc in Hs2, Hc.
  destruct (read_objects_ok (len l) l Hl s2 _ post 0 ∅ Hs2 Hc) as (s3 & E3 & Hs3). exists s3. unfold deserialize. rewrite mbind_gets. rewrite (u32_len (uw 32 (len l))) in E1. run_step E1.
  assert (Ed : @mlift (SystemObjectSerializer F) _ _ (@pbeDecodeUInt32 SystemObjectsError (pbeEncodeUInt32 (uw 32 (len l)))) s1 = (Ok (len l), s1)) by (unfold mlift; by rewrite u32_read).
  run_step Ed. run_step E2. replace (Z.to_nat (len l)) with (length l) by (unfold len; lia). run_step E3.
  rewrite (registry_rebuild (g <$> system_part first m) (g <$> l)); [|apply loaded_ok; eapply registry_ok_subseteq; [exact Hm|apply system_part_subseteq]|by apply loaded_records].
  rewrite map_size_fmap, Hlen, Z.eqb_refl. cbn [negb].
  split; [done|]. rewrite <- !app_assoc. rewrite <- !app_assoc in Hs3. by rewrite Hlen in Hs3.
Qed.
End Collection.

(** ** The collections of a database *)

Definition kFirstUserTableId : Z := 0x10000.
Definition kFirstUserTableColumnSetId : Z := 0x1000000.
Definition kFirstUserTableColumnId : Z := 0x100000.
Definition kFirstUserTableConstraintDefinitionId : Z := 0x100000.
Definition kFirstUserTableConstraintId : Z := 0x1000000.
Definition kFirstUserTableColumnDefinitionId : Z := 0x1000000.
Definition kFirstUserTableIndexId : Z := 0x1000000.

Record SystemObjects : Type := {
  m_tableRegistry : Registry TableRecord;
  m_columnSetRegistry : Registry ColumnSetRecord;
  m_columnRegistry : Registry ColumnRecord;
  m_columnDefinitionRegistry : Registry ColumnDefinitionRecord;
  m_constraintRegistry : Registry ConstraintRecord;
  m_constraintDefinitionRegistry : Registry ConstraintDefinitionRecord;
  m_indexRegistry : Registry IndexRecord
}.

Section Database.
Context {T : Traversal} {F : Type} {FO : FileOps F} (XXH64 : list Z -> Z -> Z).

#[local] Instance TableRecord_object : CatalogObject TableRecord :=
  {| object_size r := TableRecord_getSerializedSize r TableRecord_kClassVersion;
     object_write r := TableRecord_serializeUnchecked r TableRecord_kClassVersion; object_read := TableRecord_deserialize |}.
#[local] Instance ColumnSetRecord_object : CatalogObject ColumnSetRecord :=
  {| object_size r := ColumnSetRecord_getSerializedSize r ColumnSetRecord_kClassVersion;
     object_write r := ColumnSetRecord_serializeUnchecked r ColumnSetRecord_kClassVersion; object_read := ColumnSetRecord_deserialize |}.
#[local] Instance ColumnRecord_object : CatalogObject ColumnRecord :=
  {| object_size r := ColumnRecord_getSerializedSize r ColumnRecord_kClassVersion;
     object_write r := ColumnRecord_serializeUnchecked r ColumnRecord_kClassVersion; object_read := ColumnRecord_deserialize |}.
#[local] Instance ColumnDefinitionRecord_object : CatalogObject ColumnDefinitionRecord :=
  {| object_size r := ColumnDefinitionRecord_getSerializedSize r ColumnDefinitionRecord_kClassVersion;
     object_write r := ColumnDefinitionRecord_serializeUnchecked r ColumnDefinitionRecord_kClassVersion; object_read := ColumnDefinitionRecord_deserialize |}.
#[local] Instance ConstraintRecord_object : CatalogObject ConstraintRecord :=
  {| object_size r := ConstraintRecord_getSerializedSize r ConstraintRecord_kClassVersion;
     object_write r := ConstraintRecord_serializeUnchecked r ConstraintRecord_kClassVersion; object_read := ConstraintRecord_deserialize |}.
#[local] Instance ConstraintDefinitionRecord_object : CatalogObject ConstraintDefinitionRecord :=
  {| object_size r := ConstraintDefinitionRecord_getSerializedSize r ConstraintDefinitionRecord_kClassVersion;
     object_write r := ConstraintDefinitionRecord_serializeUnchecked r ConstraintDefinitionRecord_kClassVersion; object_read := ConstraintDefinitionRecord_deserialize XXH64 |}.
#[local] Instance IndexRecord_object : CatalogObject IndexRecord :=
  {| object_size r := IndexRecord_getSerializedSize r IndexRecord_kClassVersion;
     object_write r := IndexRecord_serializeUnchecked r IndexRecord_kClassVersion; object_read := IndexRecord_deserialize |}.

Notation M := (SM (SystemObjectSerializer F) SystemObjectsError).

(** The part of [loadSystemObjectsInfo] from the open file on. *)
Definition loadSystemObjectsInfo : M SystemObjects :=
  tables <-- deserialize "Table" ;;
  columnSets <-- deserialize "ColumnSet" ;;
  columns <-- deserialize "Column" ;;
  columnDefinitions <-- deserialize "ColumnDefinition" ;;
  constraints <-- deserialize "Constraint" ;;
  constraintDefinitions <-- deserialize "ConstraintDefinition" ;;
  indices <-- deserialize "Index" ;;
  mret {| m_tableRegistry := tables; m_columnSetRegistry := columnSets; m_columnRegistry := columns; m_columnDefinitionRegistry := columnDefinitions;
          m_constraintRegistry := constraints; m_constraintDefinitionRegistry := constraintDefinitions; m_indexRegistry := indices |}.

(** The part of [saveSystemObjectsInfo] from the new file to its closing. *)
Definition saveSystemObjectsInfo (d : SystemObjects) : M unit :=
  serialize "Table" (m_tableRegistry d) kFirstUserTableId ;;'
  serialize "ColumnSet" (m_columnSetRegistry d) kFirstUserTableColumnSetId ;;'
  serialize "Column" (m_columnRegistry d) kFirstUserTableColumnId ;;'
  serialize "ColumnDefinition" (m_columnDefinitionRegistry d) kFirstUserTableColumnDefinitionId ;;'
  serialize "Constraint" (m_constraintRegistry d) kFirstUserTableConstraintId ;;'
  serialize "ConstraintDefinition" (m_constraintDefinitionRegistry d) kFirstUserTableConstraintDefinitionId ;;'
  serialize "Index" (m_indexRegistry d) kFirstUserTableIndexId.

(** ** Saving and loading *)

Context {FL : FileLaws F} {SF : SequentialFile F}.

(** A registry whose system part can be saved and loaded. *)
Definition part_ok {R} {CO : CatalogObject R} (P : R -> Prop) (first : Z) (m : Registry R) : Prop :=
  registry_ok m /\ Z.of_nat (size (system_part first m)) < 2 ^ 32 /\ map_Forall (fun _ r => object_ok P r) (system_part first m).

Definition system_objects_ok (d : SystemObjects) : Prop :=
  part_ok TableRecord_ok kFirstUserTableId (m_tableRegistry d) /\
  part_ok ColumnSetRecord_ok kFirstUserTableColumnSetId (m_columnSetRegistry d) /\
  part_ok ColumnRecord_ok kFirstUserTableColumnId (m_columnRegistry d) /\
  part_ok ColumnDefinitionRecord_ok kFirstUserTableColumnDefinitionId (m_columnDefinitionRegistry d) /\
  part_ok ConstraintRecord_ok kFirstUserTableConstraintId (m_constraintRegistry d) /\
  part_ok ConstraintDefinitionRecord_ok kFirstUserTableConstraintDefinitionId (m_constraintDefinitionRegistry d) /\
  part_ok IndexRecord_ok kFirstUserTableIndexId (m_indexRegistry d).

(** The system objects alone, and what the hashes become. *)
Definition system_objects (d : SystemObjects) : SystemObjects :=
  {| m_tableRegistry := system_part kFirstUserTableId (m_tableRegistry d);
     m_columnSetRegistry := system_part kFirstUserTableColumnSetId (m_columnSetRegistry d);
     m_columnRegistry := system_part kFirstUserTableColumnId (m_columnRegistry d);
     m_columnDefinitionRegistry := system_part kFirstUserTableColumnDefinitionId (m_columnDefinitionRegistry d);
     m_constraintRegistry := system_part kFirstUserTableConstraintId (m_constraintRegistry d);
     m_constraintDefinitionRegistry := forget_hash XXH64 <$> system_part kFirstUserTableConstraintDefinitionId (m_constraintDefinitionRegistry d);
     m_indexRegistry := system_part kFirstUserTableIndexId (m_indexRegistry d) |}.

Definition part_bytes {R} {CO : CatalogObject R} (first : Z) (m : Registry R) : list Z := collection_bytes (filter (fun r => m_id_of r < first) (byId m)).

(** The bytes of the file. *)
Definition system_objects_bytes (d : SystemObjects) : list Z :=
  part_bytes kFirstUserTableId (m_tableRegistry d) ++ part_bytes kFirstUserTableColumnSetId (m_columnSetRegistry d) ++
  part_bytes kFirstUserTableColumnId (m_columnRegistry d) ++ part_bytes kFirstUserTableColumnDefinitionId (m_columnDefinitionRegistry d) ++
  part_bytes kFirstUserTableConstraintId (m_constraintRegistry d) ++ part_bytes kFirstUserTableConstraintDefinitionId (m_constraintDefinitionRegistry d) ++
  part_bytes kFirstUserTableIndexId (m_indexRegistry d).

Instance ConstraintDefinitionRecord_object_laws : ObjectLaws ConstraintDefinitionRecord_ok (forget_hash XXH64).
Proof.
  split; [|intros r Hr Hs|done|done].
  - intros r Hr. apply (record_size (RecordLaws := ConstraintDefinitionRecord_laws XXH64) (forget_hash XXH64 r)). by split.
  - assert (H : ConstraintDefinitionRecord_loaded XXH64 (forget_hash XXH64 r)) by (by split). destruct (object_read_back (ObjectLaws := record_object (CO := ConstraintDefinitionRecord_object) _ (ConstraintDefinitionRecord_laws XXH64)) (forget_hash XXH64 r) H Hs) as [n E]. by exists n.
Qed.

Section Part.
Context {R : Type} {CO : CatalogObject R} (P : R -> Prop) (g : R -> R) {L : ObjectLaws P g} (typeName : string) (first : Z) (m : Registry R) (Hm : part_ok P first m).

Lemma part_objects : Forall (object_ok P) (filter (fun r => m_id_of r < first) (byId m)).
Proof using Hm.
  destruct Hm as (Hok & _ & Hall). rewrite (system_part_records first m (byId m) Hok (byId_records R m)). apply Forall_forall. intros r Hr. apply list_elem_of_fmap in Hr as ([i r'] & -> & Hi%elem_of_map_to_list). by apply (Hall i).
Qed.

Lemma save_part : writes (serialize typeName m first) (part_bytes first m).
Proof using Hm L.
  intros s p Hs Hc. apply (serialize_ok P g); [|done|by rewrite <- len_app]. eapply Forall_impl; [apply part_objects|]. by intros r [Hr _].
Qed.

Lemma load_part : loads (deserialize typeName) (part_bytes first m) (g <$> system_part first m).
Proof using Hm L. intros s pre post Hs Hc. apply (deserialize_ok P g); [apply Hm|apply Hm|apply part_objects|done|done]. Qed.
End Part.

(** A collection whose records come back as they were. *)
Lemma load_part_id {R} {CO : CatalogObject R} P (L : RecordLaws P object_size object_write object_read) typeName first (m : Registry R) :
  part_ok P first m -> loads (deserialize typeName) (part_bytes first m) (system_part first m).
Proof. intros Hm. pose proof (load_part P id (L := record_object P L) typeName first m Hm) as H. by rewrite map_fmap_id in H. Qed.

Ltac save := eapply save_part; [first [apply ConstraintDefinitionRecord_object_laws|apply record_object; apply _]|eassumption].

Lemma save_ok d : system_objects_ok d -> writes (saveSystemObjectsInfo d) (system_objects_bytes d).
Proof.
  intros (H1 & H2 & H3 & H4 & H5 & H6 & H7). unfold saveSystemObjectsInfo, system_objects_bytes.
  do 6 (apply writes_seq; [save|]). save.
Qed.

Lemma load_ok d : system_objects_ok d -> loads loadSystemObjectsInfo (system_objects_bytes d) (system_objects d).
Proof.
  intros (H1 & H2 & H3 & H4 & H5 & H6 & H7). unfold loadSystemObjectsInfo, system_objects_bytes. rewrite <- (app_nil_r (part_bytes kFirstUserTableIndexId (m_indexRegistry d))).
  do 5 (eapply loads_bind; [eapply load_part_id; [|eassumption]; apply _|cbv beta]).
  eapply loads_bind; [eapply load_part; [apply ConstraintDefinitionRecord_object_laws|eassumption]|cbv beta].
  eapply loads_bind; [eapply load_part_id; [|eassumption]; apply _|cbv beta]. apply loads_ret.
Qed.

(** C25: the system objects that [saveSystemObjectsInfo] writes to a new file are
    those that [loadSystemObjectsInfo] gets from a file with the same contents:
    the objects below the first user object of each kind, in every registry, with
    nested records, whatever the order of the traversals, for every implementation
    of the file interface.  The hashes of constraint definitions are not kept: they
    are those of a new record ([loaded_definition_not_found] shows the effect).
    The records fit the format ([system_objects_ok]); in particular descriptions
    and last strings of records are empty, end with a byte below 0x80 or have six
    or seven bytes at least. *)
Theorem system_objects_persist d f : system_objects_ok d -> fl_rep f [] -> len (system_objects_bytes d) <= file_capacity ->
  exists s p, saveSystemObjectsInfo d {| m_file := f; m_filePos := 0 |} = (Ok tt, s) /\ fl_rep (m_file s) p /\
    forall f2, fl_rep f2 p -> exists s2, loadSystemObjectsInfo {| m_file := f2; m_filePos := 0 |} = (Ok (system_objects d), s2).
Proof.
  intros Hd Hf Hc. destruct (save_ok d Hd {| m_file := f; m_filePos := 0 |} []) as (s & E & Hs & _); [by split|done|]. exists s, (system_objects_bytes d). split; [done|]. split; [done|]. intros f2 Hf2.
  destruct (load_ok d Hd {| m_file := f2; m_filePos := 0 |} [] []) as (s2 & E2 & _); [by rewrite app_nil_r; split|by rewrite app_nil_r|]. by exists s2.
Qed.

(** ** Finding a constraint definition

    The search of [findOrCreateConstraintDefinition]: the records with the hash of
    the definition are compared. *)

Definition findConstraintDefinition (m : Registry ConstraintDefinitionRecord) (system : bool) (type : Z) (serializedExpression : list Z) : option ConstraintDefinitionRecord :=
  let hash := computeHash XXH64 type serializedExpression in
  head (filter (fun r => Is_true ((condef_type r =? type) && bool_decide (condef_expression r = serializedExpression) &&
      ((system && (condef_id r <? kFirstUserTableConstraintDefinitionId)) || (negb system && (condef_id r >=? kFirstUserTableConstraintDefinitionId)))))
    (filter (fun r => condef_hash r = hash) (byOtherKey m))).

Lemma found_in m system type e r : registry_ok m -> m !! condef_id r = Some r -> condef_hash r = computeHash XXH64 type e -> condef_type r = type -> condef_expression r = e ->
  system = (condef_id r <? kFirstUserTableConstraintDefinitionId) -> exists r', findConstraintDefinition m system type e = Some r'.
Proof.
  intros Hm Hr Hh Ht He Hs. unfold findConstraintDefinition. set (l := filter _ _). assert (Hin : r ∈ l).
  { subst l. apply list_elem_of_filter. split.
    - rewrite Ht, Z.eqb_refl, bool_decide_eq_true_2, Hs, Z.geb_leb by done. destruct (Z.ltb_spec (condef_id r) kFirstUserTableConstraintDefinitionId); [done|]. by rewrite (proj2 (Z.leb_le _ _)).
    - apply list_elem_of_filter. split; [done|]. by apply (in_records m _ r Hm (byOtherKey_records _ m)). }
  destruct l as [|r' l']; [by apply elem_of_nil in Hin|]. by exists r'.
Qed.

(** a system constraint definition that is found by its type and expression is
    no longer found after the system objects were saved and loaded, unless its
    hash is that of the definition of a new record (NOT NULL without expression):
    the hash is not stored and not computed again. *)
Theorem loaded_definition_not_found d r : registry_ok (m_constraintDefinitionRegistry d) ->
  m_constraintDefinitionRegistry d !! condef_id r = Some r -> condef_id r < kFirstUserTableConstraintDefinitionId ->
  condef_hash r = computeHash XXH64 (condef_type r) (condef_expression r) -> condef_hash r <> computeHash XXH64 kNotNull [] ->
  (exists r', findConstraintDefinition (m_constraintDefinitionRegistry d) true (condef_type r) (condef_expression r) = Some r') /\
  m_constraintDefinitionRegistry (system_objects d) !! condef_id r = Some (forget_hash XXH64 r) /\
  findConstraintDefinition (m_constraintDefinitionRegistry (system_objects d)) true (condef_type r) (condef_expression r) = None.
Proof.
  intros Hm Hr Hid Hh Hne. split; [|split].
  - apply (found_in _ true _ _ r); [done|done|done|done|done|]. symmetry. by apply Z.ltb_lt.
  - cbn. rewrite lookup_fmap. unfold system_part. by rewrite (map_lookup_filter_Some_2 _ _ _ r).
  - unfold findConstraintDefinition. rewrite <- Hh. set (m := m_constraintDefinitionRegistry (system_objects d)). assert (E : filter (fun x => condef_hash x = condef_hash r) (byOtherKey m) = []); [|by rewrite E].
    destruct (filter (fun x => condef_hash x = condef_hash r) (byOtherKey m)) as [|x l] eqn:E; [done|]. exfalso. assert (Hx : x ∈ filter (fun x => condef_hash x = condef_hash r) (byOtherKey m)) by (rewrite E; left).
    apply list_elem_of_filter in Hx as [Hxh Hx]. rewrite (byOtherKey_records _ m) in Hx. apply list_elem_of_fmap in Hx as ([i y] & -> & Hi%elem_of_map_to_list). cbn in Hi, Hxh. unfold m in Hi. cbn in Hi.
    rewrite lookup_fmap in Hi. apply fmap_Some in Hi as (z & _ & ->). cbn in Hxh. congruence.
Qed.
End Database.

(** ** The two kinds of files *)

#[export] Instance NormalFile_sequential : SequentialFile NormalFile.
Proof.
  refine {| file_capacity := 2 ^ 62 - 1 |}; cbn; intros.
  - pose proof (len_nonneg p). pose proof (len_nonneg b). lia.
  - lia.
Defined.

#[export] Instance EncryptedFile_sequential K (HK : cipher_ok K) : SequentialFile EncryptedFile (FL := EncryptedFile_laws K HK).
Proof.
  refine {| file_capacity := 2 ^ 58 - c_blockSize K - 1 |}; cbn; intros.
  - pose proof (len_nonneg p). pose proof (len_nonneg b). split; [lia|]. split; [lia|]. unfold regular, spec_size. cbv zeta.
    destruct (Z.leb_spec (len p) (c_blockSize K * ((len p + len b) / c_blockSize K))), (Z.ltb_spec (c_blockSize K * ((len p + len b) / c_blockSize K)) (len p)); try lia; by rewrite ?andb_false_r.
  - lia.
Defined.

(** ** A concrete catalog *)

Definition sum_hash (l : list Z) (seed : Z) : Z := foldr (fun b h => h * 31 + b) seed l mod 2 ^ 64.
Definition sample_definition : ConstraintDefinitionRecord := ConstraintDefinitionRecord_of sum_hash 3 1 [2; 5; 7].
Definition system_table (id : Z) (name : list Z) : TableRecord :=
  {| tbl_id := id; tbl_type := 1; tbl_name := name; tbl_firstUserTrid := 1000; tbl_currentColumnSetId := 200; tbl_description := None |}.

(** A system table, a table of the user and a constraint definition. *)
Definition sample_objects : SystemObjects :=
  {| m_tableRegistry := registry_insert (system_table 65536 [117]) (registry_insert (system_table 1 [83; 89; 83]) ∅); m_columnSetRegistry := ∅; m_columnRegistry := ∅;
     m_columnDefinitionRegistry := ∅; m_constraintRegistry := ∅; m_constraintDefinitionRegistry := {[3 := sample_definition]}; m_indexRegistry := ∅ |}.

Lemma part_ok_empty {R} {CO : CatalogObject R} (P : R -> Prop) k : part_ok P k ∅.
Proof. split; [apply registry_empty_ok|]. unfold system_part. rewrite map_filter_empty. split; [by rewrite map_size_empty|apply map_Forall_empty]. Qed.

Lemma part_ok_one {R} {CO : CatalogObject R} (P : R -> Prop) k i r m : registry_ok m -> system_part k m = {[i := r]} -> object_ok P r -> part_ok P k m.
Proof. intros Hm E Hr. split; [done|]. rewrite E. split; [by rewrite map_size_singleton|by apply map_Forall_singleton]. Qed.

Lemma sample_objects_ok : system_objects_ok (T := list_traversal) sum_hash sample_objects.
Proof.
  unfold system_objects_ok. cbn [sample_objects m_tableRegistry m_columnSetRegistry m_columnRegistry m_columnDefinitionRegistry m_constraintRegistry m_constraintDefinitionRegistry m_indexRegistry].
  split; [|do 4 (split; [apply part_ok_empty|]); split; [|apply part_ok_empty]].
  - apply (part_ok_one _ _ 1 (system_table 1 [83; 89; 83])).
    + assert (Hsym : forall a b : TableRecord, unique a b = unique b a) by (intros a b; cbn; by apply bool_decide_ext). apply registry_insert_ok; [done|]. apply registry_insert_ok; [done|apply registry_empty_ok].
    + vm_compute. reflexivity.
    + split; [|by vm_compute]. unfold TableRecord_ok. fields.
  - apply (part_ok_one _ _ 3 sample_definition); [apply (registry_fits_one (fun _ => True) 3 sample_definition); done|vm_compute; reflexivity|]. split; [|by vm_compute]. unfold ConstraintDefinitionRecord_ok. fields.
Qed.

Definition new_file : NormalFile := {| nf_fd := {| io_file := []; io_calls := [Interrupted; Complete]; io_errno := 0 |}; nf_lastError := 0 |}.

Lemma system_objects_persist_witness : exists s p, saveSystemObjectsInfo (T := list_traversal) sum_hash sample_objects {| m_file := new_file; m_filePos := 0 |} = (Ok tt, s) /\
  fl_rep (m_file s) p /\ forall f2 : NormalFile, fl_rep f2 p -> exists s2, loadSystemObjectsInfo (T := list_traversal) sum_hash {| m_file := f2; m_filePos := 0 |} =
    (Ok {| m_tableRegistry := {[1 := system_table 1 [83; 89; 83]]}; m_columnSetRegistry := ∅; m_columnRegistry := ∅; m_columnDefinitionRegistry := ∅; m_constraintRegistry := ∅;
           m_constraintDefinitionRegistry := {[3 := forget_hash sum_hash sample_definition]}; m_indexRegistry := ∅ |}, s2).
Proof.
  destruct (system_objects_persist (T := list_traversal) sum_hash sample_objects new_file sample_objects_ok) as (s & p & H1 & H2 & H3).
  - split; [done|repeat constructor].
  - vm_compute. discriminate.
  - exists s, p. split; [exact H1|]. split; [exact H2|]. intros f2 Hf2. destruct (H3 f2 Hf2) as (s2 & E). exists s2. rewrite E. do 3 f_equal; vm_compute; reflexivity.
Defined.

Lemma loaded_definition_not_found_witness :
  findConstraintDefinition (T := list_traversal) sum_hash (m_constraintDefinitionRegistry sample_objects) true 1 [2; 5; 7] = Some sample_definition /\
  findConstraintDefinition (T := list_traversal) sum_hash (m_constraintDefinitionRegistry (system_objects sum_hash sample_objects)) true 1 [2; 5; 7] = None.
Proof.
  split; [vm_compute; reflexivity|].
  refine (proj2 (proj2 (loaded_definition_not_found (T := list_traversal) sum_hash sample_objects sample_definition _ _ _ _ _))).
  - apply (registry_fits_one (fun _ => True) 3 sample_definition); done.
  - done.
  - done.
  - done.
  - vm_compute. discriminate.
Defined.
