(* ===== verification/Users.v ===== *)
(** * Users: permissions, access keys and tokens

    The classes [UserPermissionData], [UserAccessKey], [UserToken] and [User]
    with every operation of theirs, as functions on the user.  The digest of a
    token, the parser of access keys and the check of a signature come from
    cryptographic libraries and are parameters; so are the time of day and the
    random salt of a token.  The second half says what an operation does to the
    set of permissions that a user has. *)

From stdpp Require Import base list gmap countable.
Set Warnings "-clear-no-such-hyp,-notation-incompatible-prefix,-notation-for-abbreviation".
From Stdlib Require Import ZArith Lia String.
From S2P Require Import Prelude StateM Bytes VariantType Variant RecordReader CatalogRecords MasterColumn Table.

Local Open Scope Z_scope.

(** ** Permission types and object types *)

Inductive PermissionType : Type :=
| kSelect | kSelectSystem | kInsert | kDelete | kUpdate | kShow | kShowSystem | kCreate | kDrop | kAlter | kAttach | kDetach
| kShutdown | kShowPermissions.

Definition permission_bit (t : PermissionType) : Z :=
  match t with
  | kSelect => 0 | kSelectSystem => 1 | kInsert => 2 | kDelete => 3 | kUpdate => 4 | kShow => 5 | kShowSystem => 6
  | kCreate => 7 | kDrop => 8 | kAlter => 9 | kAttach => 10 | kDetach => 11 | kShutdown => 12 | kShowPermissions => 13
  end.

Definition getSinglePermissionMask (t : PermissionType) : Z := uw 64 (Z.shiftl 1 (permission_bit t)).
Definition buildMultiPermissionMask (l : list PermissionType) : Z := fold_left (fun m t => Z.lor m (getSinglePermissionMask t)) l 0.
(** [~] on 64 bits. *)
Definition complement (permissions : Z) : Z := uw 64 (Z.lnot permissions).
Definition removeSinglePermissionFromMask (permissions : Z) (t : PermissionType) : Z := Z.land permissions (complement (getSinglePermissionMask t)).
Definition removeMultiplePermissionsFromMask (l : list PermissionType) (permissions : Z) : Z :=
  Z.land permissions (complement (buildMultiPermissionMask l)).

Definition kCreatePermissionMask : Z := getSinglePermissionMask kCreate.
Definition kDropPermissionMask : Z := getSinglePermissionMask kDrop.
Definition kAlterPermissionMask : Z := getSinglePermissionMask kAlter.

(** The object types are kept as the numbers that records hold. *)
Module DatabaseObjectType.
Definition kInstance : Z := 0.
Definition kDatabase : Z := 1.
Definition kTable : Z := 2.
Definition kColumn : Z := 3.
Definition kIndex : Z := 4.
Definition kConstraint : Z := 5.
Definition kTrigger : Z := 6.
Definition kProcedure : Z := 7.
Definition kFunction : Z := 8.
Definition kUser : Z := 9.
Definition kUserAccessKey : Z := 10.
Definition kUserToken : Z := 11.
Definition kMax : Z := 12.
End DatabaseObjectType.

(** ** Errors *)

Inductive UserError : Type :=
| InvalidUserName (name : list Z)
| InvalidUserAccessKeyName (name : list Z)
| InvalidUserTokenName (name : list Z)
| InvalidUserForUserAccessKey (userId recordUserId : Z)
| InvalidUserForUserToken (userId recordUserId : Z)
| InvalidUserTokenHashedValue (name : list Z)
| UserAccessKeyDoesNotExist (userName name : list Z)
| UserAccessKeyIdDoesNotExist (id : Z)
| UserAccessKeyAlreadyExists (userName name : list Z)
| DuplicateUserAccessKeyId (userName : list Z) (id : Z)
| UserAccessKeyIsTooLong (userName name : list Z) (size maxSize : Z)
| InvalidUserAccessKey (userName name : list Z)
| CannotDeleteLastSuperUserAccessKey (name : list Z)
| CannotDeactivateLastSuperUserAccessKey (name : list Z)
| UserTokenDoesNotExist (userName name : list Z)
| UserTokenIdDoesNotExist (id : Z)
| UserTokenAlreadyExists (userName name : list Z)
| DuplicateUserTokenId (userName : list Z) (id : Z)
| InvalidUserTokenValue
| InvalidUserTokenValue2
| DuplicateUserToken
| CannotGenerateUserToken
| RandomGeneratorFailed
| UserTokenCheckFailed (userName name : list Z)
| PermissionDenied
| TooManyUsers
| UserAlreadyExists (name : list Z)
| UserDoesNotExist (name : list Z)
| UserIdDoesNotExist (id : Z)
| UserDoesNotExist_id (id : Z)
| UserPermissionDoesNotExist (id : Z)
| CannotDropSuperUser
| CannotChangeSuperUserState
| InvalidPermissionSpecification
| InvalidTableName (name : list Z)
| DatabaseDoesNotExist (name : list Z)
| TableDoesNotExist (name : list Z)
| UserAccessDenied (name : list Z)
| SessionDoesNotExist (uuid : list Z)
| InvalidDatabaseObjectTypeInUserPermissionRecord (id objectType : Z)
| TableIndexCorrupted (defectCode : Z)
| SystemTableFailed (e : TableError)
| BadValue (e : VariantError).

(** ** Permissions of a user *)

Record UserPermissionKey : Type := { pk_databaseId : Z; pk_objectType : Z; pk_objectId : Z }.

#[export] Instance UserPermissionKey_eq_dec : EqDecision UserPermissionKey.
Proof. solve_decision. Defined.

#[export] Instance UserPermissionKey_countable : Countable UserPermissionKey.
Proof.
  refine (inj_countable' (fun k => (pk_databaseId k, pk_objectType k, pk_objectId k))
    (fun t => {| pk_databaseId := fst (fst t); pk_objectType := snd (fst t); pk_objectId := snd t |}) _).
  by intros [].
Defined.

Definition permission_key (r : UserPermissionRecord) : UserPermissionKey :=
  {| pk_databaseId := upm_databaseId r; pk_objectType := upm_objectType r; pk_objectId := upm_objectId r |}.

(** [UserPermissionDataEx]: the permissions and the ID of their record, 0 when
    there is no record yet. *)
Record UserPermissionDataEx : Type := { pd_permissions : Z; pd_grantOptions : Z; pd_id : Z }.

#[export] Instance UserPermissionDataEx_eq_dec : EqDecision UserPermissionDataEx.
Proof. solve_decision. Defined.

Definition addPermissions (permissions : Z) (withGrantOption : bool) (d : UserPermissionDataEx) : UserPermissionDataEx :=
  {| pd_permissions := Z.lor (pd_permissions d) permissions;
     pd_grantOptions := if withGrantOption then Z.lor (pd_grantOptions d) permissions else pd_grantOptions d;
     pd_id := pd_id d |}.
Definition removePermissions (permissions : Z) (d : UserPermissionDataEx) : UserPermissionDataEx :=
  {| pd_permissions := Z.land (pd_permissions d) (complement permissions);
     pd_grantOptions := Z.land (pd_grantOptions d) (complement permissions);
     pd_id := pd_id d |}.
Definition getEffectiveGrantOptions (d : UserPermissionDataEx) : Z := Z.land (pd_grantOptions d) (pd_permissions d).
Definition setId (id : Z) (d : UserPermissionDataEx) : UserPermissionDataEx :=
  {| pd_permissions := pd_permissions d; pd_grantOptions := pd_grantOptions d; pd_id := id |}.

(** ** Access keys and tokens *)

Record UserAccessKey : Type := {
  ak_id : Z; ak_name : list Z; ak_text : list Z; ak_description : option (list Z); ak_active : bool
}.
Record UserToken : Type := {
  tk_id : Z; tk_name : list Z; tk_value : list Z; tk_expirationTimestamp : option Z; tk_description : option (list Z)
}.

#[export] Instance UserAccessKey_eq_dec : EqDecision UserAccessKey.
Proof. solve_decision. Defined.
#[export] Instance UserToken_eq_dec : EqDecision UserToken.
Proof. solve_decision. Defined.

Definition kMinSize : Z := 16.
Definition kMaxSize : Z := 1024.
Definition kSaltSize : Z := 64.
Definition kHashSize : Z := 64.
Definition kMaxUserAccessKeySize : Z := 8 * 1024.

Definition validate_name (err : list Z -> UserError) (name : list Z) : outcome UserError (list Z) :=
  if isValidDatabaseObjectName name then Ok name else Throw (err name).

Definition new_UserAccessKey (id : Z) (name text : list Z) (description : option (list Z)) (active : bool) : outcome UserError UserAccessKey :=
  name <- validate_name InvalidUserAccessKeyName name ;;
  Ok {| ak_id := id; ak_name := name; ak_text := text; ak_description := description; ak_active := active |}.

Definition UserAccessKey_of_record (userId : Z) (r : UserAccessKeyRecord) : outcome UserError UserAccessKey :=
  if negb (userId =? uak_userId r) then Throw (InvalidUserForUserAccessKey userId (uak_userId r)) else
  new_UserAccessKey (uak_id r) (uak_name r) (uak_text r) (uak_description r) (uak_active r).

Definition new_UserToken (id : Z) (name value : list Z) (expirationTimestamp : option Z) (description : option (list Z)) : outcome UserError UserToken :=
  name <- validate_name InvalidUserTokenName name ;;
  if negb (len value =? kHashSize + kSaltSize) then Throw (InvalidUserTokenHashedValue name) else
  Ok {| tk_id := id; tk_name := name; tk_value := value; tk_expirationTimestamp := expirationTimestamp; tk_description := description |}.

(** The value of a record is taken as it is. *)
Definition UserToken_of_record (userId : Z) (r : UserTokenRecord) : outcome UserError UserToken :=
  if negb (userId =? utk_userId r) then Throw (InvalidUserForUserToken userId (utk_userId r)) else
  name <- validate_name InvalidUserTokenName (utk_name r) ;;
  Ok {| tk_id := utk_id r; tk_name := name; tk_value := utk_value r; tk_expirationTimestamp := utk_expirationTimestamp r; tk_description := utk_description r |}.

Definition isExpired (now : Z) (t : UserToken) : bool :=
  match tk_expirationTimestamp t with Some e => now >=? e | None => false end.

(** What the cryptographic libraries do: [None] is an exception. *)
Class UserCrypto : Type := {
  sha512 : list Z -> list Z;
  SignatureKey : Type;
  parseFromString : list Z -> option SignatureKey;
  verifySignature : SignatureKey -> list Z -> list Z -> option bool
}.

(** SHA-512 gives 64 bytes. *)
Class UserCryptoLaws {Y : UserCrypto} : Prop := { sha512_size : forall b, len (sha512 b) = kHashSize }.

Section Users.
Context {Y : UserCrypto} {TV : Traversal}.

Definition hashValue (value salt : list Z) : list Z := sha512 (salt ++ value).

(** The stored value is the salt and the digest; a shorter one is read beyond
    its end. *)
Definition checkValue (now : Z) (value : list Z) (allowExpiredToken : bool) (t : UserToken) : outcome UserError bool :=
  if negb allowExpiredToken && isExpired now t then Ok false else
  if len (tk_value t) <? kSaltSize + kHashSize then Undef OutOfBounds else
  let hash := hashValue value (take (Z.to_nat kSaltSize) (tk_value t)) in
  Ok (bool_decide (hash = take (Z.to_nat kHashSize) (drop (Z.to_nat kSaltSize) (tk_value t)))).

(** ** Users *)

Record User : Type := {
  us_id : Z; us_name : list Z; us_realName : option (list Z); us_description : option (list Z); us_active : bool;
  us_accessKeys : list UserAccessKey; us_tokens : list UserToken; us_grantedPermissions : gmap UserPermissionKey UserPermissionDataEx
}.

Definition kSuperUserId : Z := 1.
Definition isSuperUser (u : User) : bool := us_id u =? kSuperUserId.

Definition set_accessKeys (l : list UserAccessKey) (u : User) : User :=
  {| us_id := us_id u; us_name := us_name u; us_realName := us_realName u; us_description := us_description u; us_active := us_active u;
     us_accessKeys := l; us_tokens := us_tokens u; us_grantedPermissions := us_grantedPermissions u |}.
Definition set_tokens (l : list UserToken) (u : User) : User :=
  {| us_id := us_id u; us_name := us_name u; us_realName := us_realName u; us_description := us_description u; us_active := us_active u;
     us_accessKeys := us_accessKeys u; us_tokens := l; us_grantedPermissions := us_grantedPermissions u |}.
Definition set_grantedPermissions (m : gmap UserPermissionKey UserPermissionDataEx) (u : User) : User :=
  {| us_id := us_id u; us_name := us_name u; us_realName := us_realName u; us_description := us_description u; us_active := us_active u;
     us_accessKeys := us_accessKeys u; us_tokens := us_tokens u; us_grantedPermissions := m |}.
Definition setRealName (n : option (list Z)) (u : User) : User :=
  {| us_id := us_id u; us_name := us_name u; us_realName := n; us_description := us_description u; us_active := us_active u;
     us_accessKeys := us_accessKeys u; us_tokens := us_tokens u; us_grantedPermissions := us_grantedPermissions u |}.
Definition setDescription (d : option (list Z)) (u : User) : User :=
  {| us_id := us_id u; us_name := us_name u; us_realName := us_realName u; us_description := d; us_active := us_active u;
     us_accessKeys := us_accessKeys u; us_tokens := us_tokens u; us_grantedPermissions := us_grantedPermissions u |}.
Definition setActive (a : bool) (u : User) : User :=
  {| us_id := us_id u; us_name := us_name u; us_realName := us_realName u; us_description := us_description u; us_active := a;
     us_accessKeys := us_accessKeys u; us_tokens := us_tokens u; us_grantedPermissions := us_grantedPermissions u |}.

(** A new user: the ID is generated after the name was accepted. *)
Definition new_User (id : Z) (name : list Z) (realName description : option (list Z)) (active : bool) : outcome UserError User :=
  name <- validate_name InvalidUserName name ;;
  Ok {| us_id := id; us_name := name; us_realName := realName; us_description := description; us_active := active;
        us_accessKeys := []; us_tokens := []; us_grantedPermissions := ∅ |}.

Fixpoint collect {A B} (f : A -> outcome UserError B) (l : list A) : outcome UserError (list B) :=
  match l with
  | [] => Ok []
  | a :: l' => b <- f a ;; bs <- collect f l' ;; Ok (b :: bs)
  end.

(** The permission maps are filled from [UserPermissionData], which has no record
    ID; the first record of a key counts. *)
Definition emplace_permission (m : gmap UserPermissionKey UserPermissionDataEx) (r : UserPermissionRecord) : gmap UserPermissionKey UserPermissionDataEx :=
  match m !! permission_key r with
  | Some _ => m
  | None => <[permission_key r := {| pd_permissions := upm_permissions r; pd_grantOptions := upm_grantOptions r; pd_id := 0 |}]> m
  end.

Definition User_of_record (r : UserRecord) : outcome UserError User :=
  name <- validate_name InvalidUserName (usr_name r) ;;
  keys <- collect (UserAccessKey_of_record (usr_id r)) (byId (usr_accessKeys r)) ;;
  tokens <- collect (UserToken_of_record (usr_id r)) (byId (usr_tokens r)) ;;
  Ok {| us_id := usr_id r; us_name := name; us_realName := usr_realName r; us_description := usr_description r; us_active := usr_active r;
        us_accessKeys := keys; us_tokens := tokens;
        us_grantedPermissions := fold_left emplace_permission (byId (usr_permissions r)) ∅ |}.

(** Records of users: [UserRecord(const User&)] and its parts. *)
Definition UserAccessKeyRecord_of (userId : Z) (k : UserAccessKey) : UserAccessKeyRecord :=
  {| uak_id := ak_id k; uak_userId := userId; uak_name := ak_name k; uak_text := ak_text k; uak_description := ak_description k; uak_active := ak_active k |}.
Definition UserTokenRecord_of (userId : Z) (t : UserToken) : UserTokenRecord :=
  {| utk_id := tk_id t; utk_userId := userId; utk_name := tk_name t; utk_value := tk_value t; utk_expirationTimestamp := tk_expirationTimestamp t;
     utk_description := tk_description t |}.
Definition UserPermissionRecord_of (userId : Z) (key : UserPermissionKey) (d : UserPermissionDataEx) : UserPermissionRecord :=
  {| upm_id := pd_id d; upm_userId := userId; upm_databaseId := pk_databaseId key; upm_objectType := pk_objectType key; upm_objectId := pk_objectId key;
     upm_permissions := pd_permissions d; upm_grantOptions := pd_grantOptions d |}.
Definition UserRecord_of (u : User) : UserRecord :=
  {| usr_id := us_id u; usr_name := us_name u; usr_realName := us_realName u; usr_description := us_description u; usr_active := us_active u;
     usr_accessKeys := foldl (fun m k => registry_insert (UserAccessKeyRecord_of (us_id u) k) m) ∅ (us_accessKeys u);
     usr_tokens := foldl (fun m t => registry_insert (UserTokenRecord_of (us_id u) t) m) ∅ (us_tokens u);
     usr_permissions := foldl (fun m '(k, d) => registry_insert (UserPermissionRecord_of (us_id u) k d) m) ∅ (map_to_list (us_grantedPermissions u)) |}.

(** *** Access keys *)

Definition findAccessKey (name : list Z) (u : User) : option UserAccessKey := List.find (fun k => bool_decide (ak_name k = name)) (us_accessKeys u).
Definition findAccessKey_id (id : Z) (u : User) : option UserAccessKey := List.find (fun k => ak_id k =? id) (us_accessKeys u).
Definition findAccessKeyChecked (name : list Z) (u : User) : outcome UserError UserAccessKey :=
  match findAccessKey name u with Some k => Ok k | None => Throw (UserAccessKeyDoesNotExist (us_name u) name) end.
Definition findAccessKeyChecked_id (id : Z) (u : User) : outcome UserError UserAccessKey :=
  match findAccessKey_id id u with Some k => Ok k | None => Throw (UserAccessKeyIdDoesNotExist id) end.

Definition getActiveAccessKeyCount (u : User) : Z := len (List.filter ak_active (us_accessKeys u)).

Definition addAccessKey (id : Z) (name text : list Z) (description : option (list Z)) (active : bool) (u : User) : outcome UserError (UserAccessKey * User) :=
  match List.find (fun k => (ak_id k =? id) || bool_decide (ak_name k = name)) (us_accessKeys u) with
  | Some k => if ak_id k =? id then Throw (DuplicateUserAccessKeyId (us_name u) id) else Throw (UserAccessKeyAlreadyExists (us_name u) name)
  | None =>
      if len text >? kMaxUserAccessKeySize then Throw (UserAccessKeyIsTooLong (us_name u) name (len text) kMaxUserAccessKeySize) else
      match parseFromString text with
      | None => Throw (InvalidUserAccessKey (us_name u) name)
      | Some _ =>
          k <- new_UserAccessKey id name text description active ;;
          Ok (k, set_accessKeys (us_accessKeys u ++ [k]) u)
      end
  end.

(** Removal of the first element that satisfies a test. *)
Fixpoint erase_first {A} (p : A -> bool) (l : list A) : list A :=
  match l with [] => [] | a :: l' => if p a then l' else a :: erase_first p l' end.

Definition deleteAccessKey (name : list Z) (u : User) : outcome UserError User :=
  match findAccessKey name u with
  | None => Throw (UserAccessKeyDoesNotExist (us_name u) name)
  | Some k =>
      if isSuperUser u && (getActiveAccessKeyCount u =? 1) && ak_active k then Throw (CannotDeleteLastSuperUserAccessKey name) else
      Ok (set_accessKeys (erase_first (fun k => bool_decide (ak_name k = name)) (us_accessKeys u)) u)
  end.

(** *** Tokens *)

Definition findToken (name : list Z) (u : User) : option UserToken := List.find (fun t => bool_decide (tk_name t = name)) (us_tokens u).
Definition findToken_id (id : Z) (u : User) : option UserToken := List.find (fun t => tk_id t =? id) (us_tokens u).
Definition findTokenChecked (name : list Z) (u : User) : outcome UserError UserToken :=
  match findToken name u with Some t => Ok t | None => Throw (UserTokenDoesNotExist (us_name u) name) end.
Definition findTokenChecked_id (id : Z) (u : User) : outcome UserError UserToken :=
  match findToken_id id u with Some t => Ok t | None => Throw (UserTokenIdDoesNotExist id) end.

Fixpoint check_tokens (now : Z) (value : list Z) (allowExpiredToken : bool) (l : list UserToken) : outcome UserError bool :=
  match l with
  | [] => Ok false
  | t :: l' => ok <- checkValue now value allowExpiredToken t ;; if (ok : bool) then Ok true else check_tokens now value allowExpiredToken l'
  end.
Definition checkToken (now : Z) (value : list Z) (allowExpiredToken : bool) (u : User) : outcome UserError bool :=
  check_tokens now value allowExpiredToken (us_tokens u).

(** [salt] is what [getRandomBytes] gives, or nothing when it throws. *)
Definition addToken (now : Z) (salt : option (list Z)) (id : Z) (name value : list Z) (expirationTimestamp : option Z) (description : option (list Z))
    (u : User) : outcome UserError (UserToken * User) :=
  match List.find (fun t => (tk_id t =? id) || bool_decide (tk_name t = name)) (us_tokens u) with
  | Some t => if tk_id t =? id then Throw (DuplicateUserTokenId (us_name u) id) else Throw (UserTokenAlreadyExists (us_name u) name)
  | None =>
      if (len value =? 0) || (len value <? kMinSize) || (len value >? kMaxSize) then Throw InvalidUserTokenValue2 else
      duplicate <- checkToken now value true u ;;
      if (duplicate : bool) then Throw DuplicateUserToken else
      match salt with
      | None => Throw RandomGeneratorFailed
      | Some salt =>
          t <- new_UserToken id name (salt ++ hashValue value salt) expirationTimestamp description ;;
          Ok (t, set_tokens (us_tokens u ++ [t]) u)
      end
  end.

Definition deleteToken (name : list Z) (u : User) : outcome UserError User :=
  match findToken name u with
  | None => Throw (UserTokenDoesNotExist (us_name u) name)
  | Some _ => Ok (set_tokens (erase_first (fun t => bool_decide (tk_name t = name)) (us_tokens u)) u)
  end.

Definition getActiveTokenCount (now : Z) (u : User) : Z := len (List.filter (fun t => negb (isExpired now t)) (us_tokens u)).

(** *** Permissions *)

Definition hasPermissions (permissionKey : UserPermissionKey) (permissions : Z) (withGrantOption : bool) (u : User) : bool :=
  if isSuperUser u then true else
  match us_grantedPermissions u !! permissionKey with
  | None => false
  | Some d =>
      (Z.land (pd_permissions d) permissions =? permissions) &&
      (negb withGrantOption || (Z.land (getEffectiveGrantOptions d) permissions =? permissions))
  end.

Definition checkHasPermissions (databaseId objectType objectId permissions : Z) (withGrantOption : bool) (u : User) : outcome UserError unit :=
  if hasPermissions {| pk_databaseId := databaseId; pk_objectType := objectType; pk_objectId := objectId |} permissions withGrantOption u
  then Ok tt else Throw PermissionDenied.

Definition grantPermissions (permissionKey : UserPermissionKey) (permissions : Z) (withGrantOption : bool) (u : User) : UserPermissionDataEx * User :=
  let newData := {| pd_permissions := permissions; pd_grantOptions := if withGrantOption then permissions else 0; pd_id := 0 |} in
  match us_grantedPermissions u !! permissionKey with
  | None => (newData, set_grantedPermissions (<[permissionKey := newData]> (us_grantedPermissions u)) u)
  | Some existing =>
      let data := addPermissions permissions withGrantOption existing in
      (data, set_grantedPermissions (<[permissionKey := data]> (us_grantedPermissions u)) u)
  end.

Definition revokePermissions (permissionKey : UserPermissionKey) (permissions : Z) (u : User) : option (UserPermissionDataEx * bool) * User :=
  match us_grantedPermissions u !! permissionKey with
  | None => (None, u)
  | Some d =>
      if Z.land (getEffectiveGrantOptions d) permissions =? 0 then (None, u) else
      let data := removePermissions permissions d in
      if pd_permissions data =? 0 then (Some (data, true), set_grantedPermissions (delete permissionKey (us_grantedPermissions u)) u)
      else (Some (data, false), set_grantedPermissions (<[permissionKey := data]> (us_grantedPermissions u)) u)
  end.

Definition setPermissionRecordId (permissionKey : UserPermissionKey) (id : Z) (u : User) : (bool * bool) * User :=
  match us_grantedPermissions u !! permissionKey with
  | None => ((false, false), u)
  | Some d =>
      if negb (pd_id d =? 0) then ((true, false), u) else
      ((true, true), set_grantedPermissions (<[permissionKey := setId id d]> (us_grantedPermissions u)) u)
  end.

(** *** Authentication *)

Definition verifies (challenge signature : list Z) (k : UserAccessKey) : bool :=
  ak_active k &&
  match parseFromString (ak_text k) with
  | Some key => match verifySignature key challenge signature with Some ok => ok | None => false end
  | None => false
  end.
Definition authenticate (signature challenge : list Z) (u : User) : bool :=
  if negb (us_active u) then false else existsb (verifies challenge signature) (us_accessKeys u).

(** [boost::algorithm::unhex]: pairs of hexadecimal digits. *)
Definition hex_digit (c : Z) : option Z :=
  if (48 <=? c) && (c <=? 57) then Some (c - 48) else
  if (65 <=? c) && (c <=? 70) then Some (c - 55) else
  if (97 <=? c) && (c <=? 102) then Some (c - 87) else None.
Fixpoint unhex (s : list Z) : option (list Z) :=
  match s with
  | [] => Some []
  | [_] => None
  | a :: b :: s' =>
      match hex_digit a, hex_digit b, unhex s' with Some x, Some y, Some l => Some (x * 16 + y :: l) | _, _, _ => None end
  end.

Definition authenticate_token (now : Z) (tokenValue : list Z) (u : User) : outcome UserError bool :=
  if (len tokenValue =? 0) || negb (len tokenValue mod 2 =? 0) || (len tokenValue >? kMaxSize * 2) then Throw InvalidUserTokenValue else
  match unhex tokenValue with
  | None => Throw InvalidUserTokenValue
  | Some bv => if negb (us_active u) then Ok false else checkToken now bv false u
  end.
End Users.

(** ** The permissions a user has

    [holds k b u]: user [u] was granted permission [b] for the object [k];
    [may_grant k b u]: with the right to grant it further. *)

Definition holds (k : UserPermissionKey) (b : Z) (u : User) : bool :=
  match us_grantedPermissions u !! k with Some d => Z.testbit (pd_permissions d) b | None => false end.
Definition may_grant (k : UserPermissionKey) (b : Z) (u : User) : bool :=
  match us_grantedPermissions u !! k with Some d => Z.testbit (getEffectiveGrantOptions d) b | None => false end.

(** One set of permissions is contained in another. *)
Lemma land_subset p q : Z.land p q = q <-> forall b, 0 <= b -> Z.testbit q b = true -> Z.testbit p b = true.
Proof.
  split.
  - intros H b Hb Hq. rewrite <- H, Z.land_spec in Hq. by apply andb_true_iff in Hq as [? _].
  - intros H. apply Z.bits_inj'. intros b Hb. rewrite Z.land_spec. destruct (Z.testbit q b) eqn:E; [rewrite (H b Hb E); done|by rewrite andb_false_r].
Qed.

Lemma complement_spec p b : 0 <= b < 64 -> Z.testbit (complement p) b = negb (Z.testbit p b).
Proof. intros Hb. unfold complement, uw. rewrite Z.mod_pow2_bits_low by lia. apply Z.lnot_spec. lia. Qed.

Lemma may_grant_holds k b u : may_grant k b u = true -> holds k b u = true.
Proof.
  unfold may_grant, holds, getEffectiveGrantOptions. destruct (us_grantedPermissions u !! k); [|done].
  rewrite Z.land_spec. by intros [_ ?]%andb_true_iff.
Qed.

(** The test of a mask is the test of each of its bits; a user with no entry for
    the object fails it even for the empty mask. *)
Lemma hasPermissions_spec k p g u : isSuperUser u = false ->
  hasPermissions k p g u = true <->
  is_Some (us_grantedPermissions u !! k) /\
  forall b, 0 <= b -> Z.testbit p b = true -> holds k b u = true /\ (g = true -> may_grant k b u = true).
Proof.
  intros Hs. unfold hasPermissions, holds, may_grant. rewrite Hs. destruct (us_grantedPermissions u !! k) as [d|]; [|split; [done|intros [[? ?] _]; done]].
  rewrite andb_true_iff, orb_true_iff, !Z.eqb_eq, !land_subset, negb_true_iff. split.
  - intros [Hp Hg]. split; [by eexists|]. intros b Hb Hbit. split; [by apply Hp|]. intros ->. destruct Hg as [Hg|Hg]; [done|by apply Hg].
  - intros [_ H]. split; [intros b Hb Hbit; by apply (H b)|]. destruct g; [right|by left]. intros b Hb Hbit. by apply (H b).
Qed.

(** What the changes of the permission map do. *)
Lemma lookup_set k m u : us_grantedPermissions (set_grantedPermissions m u) !! k = m !! k.
Proof. done. Qed.

Lemma holds_grant k p g u k' b : holds k' b (snd (grantPermissions k p g u)) = holds k' b u || (bool_decide (k' = k) && Z.testbit p b).
Proof.
  unfold holds, grantPermissions. destruct (us_grantedPermissions u !! k) as [d|] eqn:E; cbn [snd]; rewrite lookup_set;
    (destruct (decide (k' = k)) as [->|Hne]; [rewrite lookup_insert, decide_True by done|rewrite lookup_insert_ne by done; rewrite bool_decide_eq_false_2 by done; by rewrite orb_false_r]);
    rewrite E, bool_decide_eq_true_2 by done; cbn; [by rewrite Z.lor_spec|done].
Qed.

Lemma may_grant_grant k p g u k' b : may_grant k' b (snd (grantPermissions k p g u)) = true ->
  may_grant k' b u = true \/ k' = k /\ Z.testbit p b = true.
Proof.
  unfold may_grant, getEffectiveGrantOptions, grantPermissions. destruct (us_grantedPermissions u !! k) as [d|] eqn:E; cbn [snd]; rewrite lookup_set;
    (destruct (decide (k' = k)) as [->|Hne]; [rewrite lookup_insert, decide_True by done|rewrite lookup_insert_ne by done; by left]);
    rewrite ?E; rewrite !Z.land_spec; cbn; intros [Hg Hp]%andb_true_iff.
  - destruct (Z.testbit p b) eqn:Eb; [by right|left]. rewrite Z.lor_spec, Eb, orb_false_r in Hp. apply andb_true_iff. split; [|done].
    destruct g; [by rewrite Z.lor_spec, Eb, orb_false_r in Hg|done].
  - by right.
Qed.

Lemma grant_may_grant k p u b : Z.testbit p b = true -> may_grant k b (snd (grantPermissions k p true u)) = true.
Proof.
  intros Hp. unfold may_grant, getEffectiveGrantOptions, grantPermissions. destruct (us_grantedPermissions u !! k) as [d|]; cbn [snd];
    rewrite lookup_set, lookup_insert, decide_True by done; rewrite !Z.land_spec; cbn; rewrite ?Z.lor_spec, Hp; by rewrite ?orb_true_r.
Qed.

(** Revocation never adds a permission. *)
Lemma revoke_lookup k p u k' d' : us_grantedPermissions (snd (revokePermissions k p u)) !! k' = Some d' ->
  exists d, us_grantedPermissions u !! k' = Some d /\ (d' = d \/ k' = k /\ d' = removePermissions p d).
Proof.
  unfold revokePermissions. destruct (us_grantedPermissions u !! k) as [d|] eqn:E; cbn [snd]; [|by eauto].
  destruct (_ =? 0); cbn [snd]; [by eauto|]. cbv zeta. destruct (pd_permissions (removePermissions p d) =? 0); cbn [snd]; rewrite lookup_set.
  - intros [? ?]%lookup_delete_Some. eauto.
  - destruct (decide (k' = k)) as [->|Hne]; [rewrite lookup_insert, decide_True by done|rewrite lookup_insert_ne by done; by eauto]. intros [= <-]. eauto.
Qed.

Lemma holds_revoke k p u k' b : holds k' b (snd (revokePermissions k p u)) = true -> holds k' b u = true.
Proof.
  unfold holds. destruct (us_grantedPermissions (snd (revokePermissions k p u)) !! k') as [d'|] eqn:E; [|done].
  apply revoke_lookup in E as (d & -> & [->|[_ ->]]); [done|]. cbn. rewrite Z.land_spec. by intros [? _]%andb_true_iff.
Qed.

Lemma may_grant_revoke k p u k' b : may_grant k' b (snd (revokePermissions k p u)) = true -> may_grant k' b u = true.
Proof.
  unfold may_grant, getEffectiveGrantOptions. destruct (us_grantedPermissions (snd (revokePermissions k p u)) !! k') as [d'|] eqn:E; [|done].
  apply revoke_lookup in E as (d & -> & [->|[_ ->]]); [done|]. cbn. rewrite !Z.land_spec. intros [[Hg _]%andb_true_iff [Hp _]%andb_true_iff]%andb_true_iff.
  by rewrite Hg, Hp.
Qed.
