(* ===== verification/SystemTables.v ===== *)
(** * The system tables of users

    How [SystemDatabase] records users, access keys, tokens and permissions in
    its tables, updates and deletes the records, and reads them all when the
    instance starts.  A table is used through an interface, [RowTable], whose
    operations are those of [Table] and of its main index; [RowTableLaws] is what
    it promises: a map from row numbers to rows. *)

From stdpp Require Import base list gmap.
Set Warnings "-clear-no-such-hyp,-notation-incompatible-prefix,-notation-for-abbreviation".
From Stdlib Require Import ZArith Lia String.
From S2P Require Import Prelude StateM Bytes CNum VariantType Variant RawDateTime VariantConv ExprEval RecordReader CatalogRecords MasterColumn Table Users.

Local Open Scope Z_scope.

(** ** Tables, as an interface

    [rt_readRow] gives the values of the columns of a row after the master
    column, with texts and binaries read whole; its second argument is the
    defect code of a row that the index does not find. *)
Class RowTable (T : Type) : Type := {
  getColumnCount : T -> Z;
  rt_generateNextUserTrid : SM T TableError Z;
  rt_insertRow : list Variant -> TransactionParameters -> Z -> SM T TableError Z;
  rt_updateRow : Z -> list nat -> list Variant -> TransactionParameters -> SM T TableError bool;
  rt_deleteRow : Z -> TransactionParameters -> SM T TableError bool;
  rt_getMinKey : SM T TableError (option Z);
  rt_getMaxKey : SM T TableError (option Z);
  rt_findNextKey : Z -> SM T TableError (option Z);
  rt_readRow : Z -> Z -> SM T TableError (list Variant)
}.

(** A value that is read is the one that was written; the type of an integer is
    that of its column. *)
Definition stored (v w : Variant) : Prop :=
  match v, w with
  | VNum (CI t z), VNum (CI t' z') => z' = z /\ signed t' = signed t
  | _, _ => w = v
  end.

Record row_map : Type := { rm_rows : gmap Z (list Variant); rm_last : Z; rm_width : nat }.
Definition set_rows (rows : gmap Z (list Variant)) (a : row_map) : row_map := {| rm_rows := rows; rm_last := rm_last a; rm_width := rm_width a |}.

(** The values that replace those at some positions, which are counted from 1. *)
Definition update_values (row : list Variant) (positions : list nat) (values : list Variant) : list Variant :=
  foldl (fun row '(p, v) => <[Nat.pred p := v]> row) row (zip positions values).

(** Row numbers are generated in increasing order and end before 2^32; rows have
    numbers from 1. *)
Class RowTableLaws (T : Type) {RT : RowTable T} : Type := {
  rt_ok : T -> row_map -> Prop;
  rt_positive : forall t a, rt_ok t a -> map_Forall (fun i row => 0 < i /\ List.length row = rm_width a) (rm_rows a);
  rt_width : forall t a, rt_ok t a -> getColumnCount t = Z.of_nat (rm_width a) + 1;
  rt_next : forall t a, rt_ok t a -> 0 <= rm_last a < 2 ^ 32 - 1 ->
    exists t', rt_generateNextUserTrid t = (Ok (rm_last a + 1), t') /\ rt_ok t' {| rm_rows := rm_rows a; rm_last := rm_last a + 1; rm_width := rm_width a |};
  rt_insert : forall t a values tp trid, rt_ok t a -> List.length values = rm_width a -> 0 < trid -> rm_rows a !! trid = None ->
    exists t' ws, rt_insertRow values tp trid t = (Ok trid, t') /\ Forall2 stored values ws /\ rt_ok t' (set_rows (<[trid := ws]> (rm_rows a)) a);
  rt_append : forall t a values tp, rt_ok t a -> List.length values = rm_width a -> 0 <= rm_last a < 2 ^ 32 - 1 -> rm_rows a !! (rm_last a + 1) = None ->
    exists t' ws, rt_insertRow values tp 0 t = (Ok (rm_last a + 1), t') /\ Forall2 stored values ws /\
      rt_ok t' {| rm_rows := <[rm_last a + 1 := ws]> (rm_rows a); rm_last := rm_last a + 1; rm_width := rm_width a |};
  rt_update_missing : forall t a trid positions values tp, rt_ok t a -> rm_rows a !! trid = None ->
    exists t', rt_updateRow trid positions values tp t = (Ok false, t') /\ rt_ok t' a;
  rt_update_outside : forall t a trid positions values tp row p, rt_ok t a -> rm_rows a !! trid = Some row -> p ∈ positions -> (rm_width a < p)%nat ->
    exists e t', rt_updateRow trid positions values tp t = (Throw e, t') /\ rt_ok t' a;
  rt_update : forall t a trid positions values tp row, rt_ok t a -> rm_rows a !! trid = Some row -> List.length positions = List.length values -> NoDup positions ->
    Forall (fun p => (1 <= p <= rm_width a)%nat) positions ->
    exists t' ws, rt_updateRow trid positions values tp t = (Ok true, t') /\ Forall2 stored values ws /\
      rt_ok t' (set_rows (<[trid := update_values row positions ws]> (rm_rows a)) a);
  rt_delete : forall t a trid tp, rt_ok t a ->
    exists t' found, rt_deleteRow trid tp t = (Ok found, t') /\ rt_ok t' (set_rows (delete trid (rm_rows a)) a);
  rt_min : forall t a, rt_ok t a -> exists t' k, rt_getMinKey t = (Ok k, t') /\ rt_ok t' a /\
    match k with Some k => is_Some (rm_rows a !! k) /\ (forall i, is_Some (rm_rows a !! i) -> k <= i) | None => rm_rows a = ∅ end;
  rt_max : forall t a, rt_ok t a -> exists t' k, rt_getMaxKey t = (Ok k, t') /\ rt_ok t' a /\
    match k with Some k => is_Some (rm_rows a !! k) /\ (forall i, is_Some (rm_rows a !! i) -> i <= k) | None => rm_rows a = ∅ end;
  rt_nextkey : forall t a i, rt_ok t a -> exists t' k, rt_findNextKey i t = (Ok k, t') /\ rt_ok t' a /\
    match k with
    | Some k => is_Some (rm_rows a !! k) /\ i < k /\ (forall j, is_Some (rm_rows a !! j) -> i < j -> k <= j)
    | None => forall j, is_Some (rm_rows a !! j) -> j <= i
    end;
  rt_read : forall t a trid defect row, rt_ok t a -> rm_rows a !! trid = Some row -> exists t', rt_readRow trid defect t = (Ok row, t') /\ rt_ok t' a
}.

(** ** State *)

Record system_tables {T : Type} : Type := {
  m_sysUsersTable : T; m_sysUserAccessKeysTable : T; m_sysUserTokensTable : T; m_sysUserPermissionsTable : T; m_lastTransactionId : Z
}.
Arguments system_tables T : clear implicits.

Inductive sys_table : Type := SysUsers | SysUserAccessKeys | SysUserTokens | SysUserPermissions.

Definition get_table {T} (n : sys_table) (s : system_tables T) : T :=
  match n with
  | SysUsers => m_sysUsersTable s | SysUserAccessKeys => m_sysUserAccessKeysTable s
  | SysUserTokens => m_sysUserTokensTable s | SysUserPermissions => m_sysUserPermissionsTable s
  end.
Definition set_table {T} (n : sys_table) (t : T) (s : system_tables T) : system_tables T :=
  {| m_sysUsersTable := match n with SysUsers => t | _ => m_sysUsersTable s end;
     m_sysUserAccessKeysTable := match n with SysUserAccessKeys => t | _ => m_sysUserAccessKeysTable s end;
     m_sysUserTokensTable := match n with SysUserTokens => t | _ => m_sysUserTokensTable s end;
     m_sysUserPermissionsTable := match n with SysUserPermissions => t | _ => m_sysUserPermissionsTable s end;
     m_lastTransactionId := m_lastTransactionId s |}.

(** The columns in the order of their creation, after the master column. *)
Definition sys_columns (n : sys_table) : list string :=
  match n with
  | SysUsers => ["NAME"; "REAL_NAME"; "STATE"; "DESCRIPTION"]
  | SysUserAccessKeys => ["USER_ID"; "NAME"; "TEXT"; "STATE"; "DESCRIPTION"]
  | SysUserTokens => ["USER_ID"; "NAME"; "VALUE"; "EXPIRATION_TIMESTAMP"; "DESCRIPTION"]
  | SysUserPermissions => ["USER_ID"; "DATABASE_ID"; "OBJECT_TYPE"; "OBJECT_ID"; "PERMISSIONS"; "GRANT_OPTIONS"]
  end%string.

(** The position of a column, counted from 1: the master column is at 0. *)
Fixpoint name_position (name : string) (names : list string) (position : nat) : nat :=
  match names with
  | [] => position
  | n :: names' => if String.eqb n name then position else name_position name names' (S position)
  end.
Definition getCurrentPosition (n : sys_table) (name : string) : nat := name_position name (sys_columns n) 1.

(** The clock and the calendar of the C library: [gmtime_r] in UTC, [mktime] in
    the local time zone. *)
Class Calendar : Type := { gmtime_r : Z -> tm; mktime : tm -> Z }.

Section SystemDatabase.
Context {T : Type} {RT : RowTable T} {X : Externals} {CAL : Calendar}.
Notation state := (system_tables T).
Definition DM (A : Type) : Type := SM state UserError A.

Definition table {A} (n : sys_table) (c : SM T TableError A) : DM A := embed (get_table n) (set_table n) SystemTableFailed c.

Definition generateNextTransactionId : DM Z := fun s =>
  let id := uw 64 (m_lastTransactionId s + 1) in
  (Ok id, {| m_sysUsersTable := m_sysUsersTable s; m_sysUserAccessKeysTable := m_sysUserAccessKeysTable s;
             m_sysUserTokensTable := m_sysUserTokensTable s; m_sysUserPermissionsTable := m_sysUserPermissionsTable s; m_lastTransactionId := id |}).

Definition new_transaction (now currentUserId : Z) : DM TransactionParameters :=
  id <-- generateNextTransactionId ;; mret {| tp_transactionId := id; tp_timestamp := now; tp_userId := currentUserId |}.

Definition generateNextUserId : DM Z := id <-- table SysUsers rt_generateNextUserTrid ;; mret (uw 32 id).
Definition generateNextUserAccessKeyId : DM Z := table SysUserAccessKeys rt_generateNextUserTrid.
Definition generateNextUserTokenId : DM Z := table SysUserTokens rt_generateNextUserTrid.

(** *** Values of a row *)

Definition v_u8 (z : Z) : Variant := VNum (CI U8 z).
Definition v_u32 (z : Z) : Variant := VNum (CI U32 z).
Definition v_u64 (z : Z) : Variant := VNum (CI U64 z).
Definition v_opt (s : option (list Z)) : Variant := match s with Some s => VString s | None => VNull end.
Definition v_flag (b : bool) : Variant := v_u8 (if b then 1 else 0).
Definition RawDateTime_of_time (t : Z) : RawDateTime := RawDateTime_of_tm (gmtime_r t).
Definition v_time (t : option Z) : Variant := match t with Some t => VDateTime (RawDateTime_of_time t) | None => VNull end.

(** [values.at(i++) = ...] on a vector with an element per column. *)
Definition row_values (n : sys_table) (values : list Variant) : DM (list Variant) :=
  count <-- gets (fun s => getColumnCount (get_table n s) - 1) ;;
  if count <? len values then mthrow (SystemTableFailed VectorOutOfRange) else
  mret (values ++ replicate (Z.to_nat (count - len values)) VNull).

(** *** Recording *)

Definition recordUser (user : User) (tp : TransactionParameters) : DM unit :=
  values <-- row_values SysUsers [VString (us_name user); v_opt (us_realName user); v_flag (us_active user); v_opt (us_description user)] ;;
  table SysUsers (rt_insertRow values tp (us_id user)) ;;' mret tt.

Definition recordUserAccessKey (userId : Z) (k : UserAccessKey) (tp : TransactionParameters) : DM unit :=
  values <-- row_values SysUserAccessKeys [v_u32 userId; VString (ak_name k); VString (ak_text k); v_flag (ak_active k); v_opt (ak_description k)] ;;
  table SysUserAccessKeys (rt_insertRow values tp (ak_id k)) ;;' mret tt.

Definition recordUserToken (userId : Z) (t : UserToken) (tp : TransactionParameters) : DM unit :=
  values <-- row_values SysUserTokens [v_u32 userId; VString (tk_name t); VBinary (tk_value t); v_time (tk_expirationTimestamp t); v_opt (tk_description t)] ;;
  table SysUserTokens (rt_insertRow values tp (tk_id t)) ;;' mret tt.

Definition recordUserPermission (userId : Z) (key : UserPermissionKey) (d : UserPermissionDataEx) (tp : TransactionParameters) : DM Z :=
  values <-- row_values SysUserPermissions
    [v_u32 userId; v_u32 (pk_databaseId key); v_u8 (uw 8 (pk_objectType key)); v_u64 (pk_objectId key); v_u64 (pd_permissions d); v_u64 (pd_grantOptions d)] ;;
  table SysUserPermissions (rt_insertRow values tp 0).

(** *** Deletion *)

Definition delete_record (n : sys_table) (now id currentUserId : Z) : DM unit :=
  tp <-- new_transaction now currentUserId ;; table n (rt_deleteRow id tp) ;;' mret tt.
Definition deleteUser (now userId currentUserId : Z) : DM unit := delete_record SysUsers now userId currentUserId.
Definition deleteUserAccessKey (now accessKeyId currentUserId : Z) : DM unit := delete_record SysUserAccessKeys now accessKeyId currentUserId.
Definition deleteUserToken (now tokenId currentUserId : Z) : DM unit := delete_record SysUserTokens now tokenId currentUserId.
Definition deleteUserPermission (now permissionId currentUserId : Z) : DM unit := delete_record SysUserPermissions now permissionId currentUserId.

(** *** Updates *)

Record UpdateUserParameters : Type := {
  up_realName : option (option (list Z)); up_description : option (option (list Z)); up_active : option bool
}.
Record UpdateUserAccessKeyParameters : Type := { kp_description : option (option (list Z)); kp_active : option bool }.
Record UpdateUserTokenParameters : Type := { tkp_description : option (option (list Z)); tkp_expirationTimestamp : option (option Z) }.

(** The columns and values of the parameters that are given. *)
Definition given {A} (n : sys_table) (column : string) (value : A -> Variant) (p : option A) : list (nat * Variant) :=
  match p with Some a => [(getCurrentPosition n column, value a)] | None => [] end.

Definition update_record (n : sys_table) (changes : list (nat * Variant)) (missing : UserError) (now id currentUserId : Z) : DM unit :=
  tp <-- new_transaction now currentUserId ;;
  match changes with
  | [] => mret tt
  | _ => updated <-- table n (rt_updateRow id (fst <$> changes) (snd <$> changes) tp) ;; if (updated : bool) then mret tt else mthrow missing
  end.

Definition updateUser_sys (now userId : Z) (params : UpdateUserParameters) (currentUserId : Z) : DM unit :=
  update_record SysUsers
    (given SysUsers "REAL_NAME" v_opt (up_realName params) ++ given SysUsers "DESCRIPTION" v_opt (up_description params) ++
     given SysUsers "STATE" v_flag (up_active params))
    (UserDoesNotExist_id userId) now userId currentUserId.

Definition updateUserAccessKey_sys (now accessKeyId : Z) (params : UpdateUserAccessKeyParameters) (currentUserId : Z) : DM unit :=
  update_record SysUserAccessKeys
    (given SysUserAccessKeys "STATE" v_flag (kp_active params) ++ given SysUserAccessKeys "DESCRIPTION" v_opt (kp_description params))
    (UserAccessKeyIdDoesNotExist accessKeyId) now accessKeyId currentUserId.

Definition updateUserToken_sys (now tokenId : Z) (params : UpdateUserTokenParameters) (currentUserId : Z) : DM unit :=
  update_record SysUserTokens
    (given SysUserTokens "EXPIRATION_TIMESTAMP" v_time (tkp_expirationTimestamp params) ++ given SysUserTokens "DESCRIPTION" v_opt (tkp_description params))
    (UserTokenIdDoesNotExist tokenId) now tokenId currentUserId.

(** The positions are those of the table of permissions, the table that is
    updated is that of tokens. *)
Definition updateUserPermission (now : Z) (d : UserPermissionDataEx) (currentUserId : Z) : DM unit :=
  update_record SysUserTokens
    [(getCurrentPosition SysUserPermissions "PERMISSIONS", v_u64 (pd_permissions d));
     (getCurrentPosition SysUserPermissions "GRANT_OPTIONS", v_u64 (pd_grantOptions d))]
    (UserPermissionDoesNotExist (pd_id d)) now (pd_id d) currentUserId.

(** *** Reading all records *)

Definition value {A} (c : outcome VariantError A * Variant) : outcome UserError A := map_error BadValue (fst c).
Definition as_u8 (v : Variant) : outcome UserError Z := value (asUInt8 ext_buffer v).
Definition as_u32 (v : Variant) : outcome UserError Z := value (asUInt32 ext_buffer false v).
Definition as_i32 (v : Variant) : outcome UserError Z := value (asInt32 ext_buffer false v).
Definition as_u64 (v : Variant) : outcome UserError Z := value (asUInt64 ext_buffer false v).
Definition as_text (v : Variant) : outcome UserError (list Z) := value (asString ext_buffer ext_print_float ext_date_format v).
Definition as_bytes (v : Variant) : outcome UserError (list Z) := value (asBinary ext_buffer v).
Definition asOptionalString (v : Variant) : outcome UserError (option (list Z)) :=
  match v with VNull => Ok None | _ => s <- as_text v ;; Ok (Some s) end.

(** [RawDateTime::toEpochTimestamp]: the fields of [tm] that the code sets. *)
Definition toEpochTimestamp (d : RawDateTime) : Z :=
  let has := m_hasTimePart (m_datePart d) in
  mktime {| tm_sec := if has then m_seconds (m_timePart d) else 0; tm_min := if has then m_minutes (m_timePart d) else 0;
            tm_hour := if has then m_hours (m_timePart d) else 0; tm_mday := m_dayOfMonth (m_datePart d) + 1;
            tm_mon := m_month (m_datePart d); tm_year := m_year (m_datePart d) - 1900; tm_wday := 0 |}.
Definition as_time (v : Variant) : outcome UserError (option Z) :=
  match v with VNull => Ok None | _ => d <- map_error BadValue (as_datetime v) ;; Ok (Some (toEpochTimestamp d)) end.

(** The loop over the rows of a table in the order of its main index. *)
Fixpoint scan_rows {A} (n : sys_table) (step : Z -> list Variant -> A -> outcome UserError A) (fuel : nat) (trid : Z) (a : A) : DM A :=
  match fuel with
  | O => mlift (Undef NoProgress)
  | S fuel =>
      row <-- table n (rt_readRow trid 2) ;;
      a <-- mlift (step trid row a) ;;
      next <-- table n (rt_findNextKey trid) ;;
      match next with Some trid' => scan_rows n step fuel trid' a | None => mret a end
  end.

Definition scan_table {A} (n : sys_table) (step : Z -> list Variant -> A -> outcome UserError A) (empty : A) : DM A :=
  minKey <-- table n rt_getMinKey ;;
  maxKey <-- (match minKey with Some _ => table n rt_getMaxKey | None => mret None end) ;;
  let '(minTrid, maxTrid) := match minKey, maxKey with Some i, Some j => (i, j) | _, _ => (0, 0) end in
  if minTrid >? maxTrid then mthrow (TableIndexCorrupted 1) else
  if maxTrid =? 0 then mret empty else
  scan_rows n step (Z.to_nat (maxTrid - minTrid + 1)) minTrid empty.

(** [registries[userId].insert(record)]. *)
Definition insert_for {R} {I : Indexed R} (userId : Z) (r : R) (registries : gmap Z (Registry R)) : gmap Z (Registry R) :=
  <[userId := registry_insert r (default ∅ (registries !! userId))]> registries.

Definition read_access_key (trid : Z) (row : list Variant) : outcome UserError UserAccessKeyRecord :=
  match row with
  | userIdValue :: nameValue :: textValue :: stateValue :: descriptionValue :: _ =>
      userId <- as_u32 userIdValue ;;
      name <- as_text nameValue ;;
      text <- as_text textValue ;;
      description <- asOptionalString descriptionValue ;;
      state <- as_u8 stateValue ;;
      Ok {| uak_id := trid; uak_userId := userId; uak_name := name; uak_text := text; uak_description := description; uak_active := negb (state =? 0) |}
  | _ => Throw (SystemTableFailed VectorOutOfRange)
  end.
Definition readAllUserAccessKeys : DM (gmap Z (Registry UserAccessKeyRecord)) :=
  scan_table SysUserAccessKeys (fun trid row m => r <- read_access_key trid row ;; Ok (insert_for (uak_userId r) r m)) ∅.

Definition read_token (trid : Z) (row : list Variant) : outcome UserError UserTokenRecord :=
  match row with
  | userIdValue :: nameValue :: valueValue :: expirationDateValue :: descriptionValue :: _ =>
      userId <- as_u32 userIdValue ;;
      name <- as_text nameValue ;;
      bytes <- as_bytes valueValue ;;
      expiration <- as_time expirationDateValue ;;
      description <- asOptionalString descriptionValue ;;
      Ok {| utk_id := trid; utk_userId := userId; utk_name := name; utk_value := bytes; utk_expirationTimestamp := expiration; utk_description := description |}
  | _ => Throw (SystemTableFailed VectorOutOfRange)
  end.
Definition readAllUserTokens : DM (gmap Z (Registry UserTokenRecord)) :=
  scan_table SysUserTokens (fun trid row m => r <- read_token trid row ;; Ok (insert_for (utk_userId r) r m)) ∅.

Definition read_permission (trid : Z) (row : list Variant) : outcome UserError UserPermissionRecord :=
  match row with
  | userIdValue :: databaseIdValue :: objectTypeValue :: objectIdValue :: permissionsValue :: grantOptionsValue :: _ =>
      objectType <- as_i32 objectTypeValue ;;
      if (objectType <? 0) || (objectType >=? DatabaseObjectType.kMax) then Throw (InvalidDatabaseObjectTypeInUserPermissionRecord trid objectType) else
      userId <- as_u32 userIdValue ;;
      databaseId <- as_u32 databaseIdValue ;;
      objectId <- as_u64 objectIdValue ;;
      permissions <- as_u64 permissionsValue ;;
      grantOptions <- as_u64 grantOptionsValue ;;
      Ok {| upm_id := trid; upm_userId := userId; upm_databaseId := databaseId; upm_objectType := objectType; upm_objectId := objectId;
            upm_permissions := permissions; upm_grantOptions := grantOptions |}
  | _ => Throw (SystemTableFailed VectorOutOfRange)
  end.
Definition readAllUserPermissions : DM (gmap Z (Registry UserPermissionRecord)) :=
  scan_table SysUserPermissions (fun trid row m => r <- read_permission trid row ;; Ok (insert_for (upm_userId r) r m)) ∅.

Definition read_user (keys : gmap Z (Registry UserAccessKeyRecord)) (tokens : gmap Z (Registry UserTokenRecord)) (permissions : gmap Z (Registry UserPermissionRecord))
    (trid : Z) (row : list Variant) : outcome UserError UserRecord :=
  match row with
  | nameValue :: realNameValue :: stateValue :: descriptionValue :: _ =>
      let userId := uw 32 trid in
      name <- as_text nameValue ;;
      realName <- asOptionalString realNameValue ;;
      description <- asOptionalString descriptionValue ;;
      state <- as_u8 stateValue ;;
      Ok {| usr_id := userId; usr_name := name; usr_realName := realName; usr_description := description; usr_active := negb (state =? 0);
            usr_accessKeys := default ∅ (keys !! userId); usr_tokens := default ∅ (tokens !! userId); usr_permissions := default ∅ (permissions !! userId) |}
  | _ => Throw (SystemTableFailed VectorOutOfRange)
  end.
Definition readAllUsers : DM (Registry UserRecord) :=
  keys <-- readAllUserAccessKeys ;;
  tokens <-- readAllUserTokens ;;
  permissions <-- readAllUserPermissions ;;
  scan_table SysUsers (fun trid row m => r <- read_user keys tokens permissions trid row ;; Ok (registry_insert r m)) ∅.
End SystemDatabase.
