(* ===== verification/Instance.v ===== *)
(** * The users of an instance

    The part of the class [Instance] that manages users, access keys, tokens,
    permissions, authentication and sessions.  Users are kept three times: as
    records of the user registry, as [User] objects that are made from the
    records on demand, and as rows of the system tables.  Every operation is a
    computation on the three, so that what happened before an exception stays. *)

From stdpp Require Import base list gmap.
Set Warnings "-clear-no-such-hyp,-notation-incompatible-prefix,-notation-for-abbreviation".
From Stdlib Require Import ZArith Lia.
From S2P Require Import Prelude StateM Bytes CNum VariantType Variant ExprEval RecordReader CatalogRecords MasterColumn Table Users SystemTables.

Local Open Scope Z_scope.

(** ** State *)

Record instance_state {T : Type} : Type := {
  m_userRegistry : Registry UserRecord;
  m_users : gmap Z User;
  m_userAccessKeyIdToUserId : gmap Z Z;
  m_userTokenIdToUserId : gmap Z Z;
  m_systemDatabase : system_tables T;
  m_activeSessions : gset (list Z)
}.
Arguments instance_state T : clear implicits.

(** What a request sees of the world: the time, and what the random generator
    gives; [None], and the end of the list, are its failures. *)
Record request_env : Type := { env_now : Z; env_draws : list (option (list Z)) }.

Definition kAllPermissionsForRevoke : Z := 2 ^ 64 - 1.
Definition kAllObjectsName : list Z := [42].
Definition kSuperUserName : list Z := [82; 79; 79; 84].
Definition kSuperUserInitialAccessKeyId : Z := 1.

(** ** Allowed permissions *)

Definition s_allowedPermissions : list (Z * Z) :=
  let maintenance := buildMultiPermissionMask [kCreate; kDrop; kAlter] in
  [(DatabaseObjectType.kInstance, buildMultiPermissionMask [kShutdown]);
   (DatabaseObjectType.kDatabase, buildMultiPermissionMask [kShow; kCreate; kDrop; kAlter; kAttach; kDetach]);
   (DatabaseObjectType.kTable, buildMultiPermissionMask [kSelect; kSelectSystem; kInsert; kUpdate; kDelete; kShow; kShowSystem; kCreate; kDrop; kAlter]);
   (DatabaseObjectType.kColumn, maintenance);
   (DatabaseObjectType.kIndex, maintenance);
   (DatabaseObjectType.kConstraint, maintenance);
   (DatabaseObjectType.kTrigger, maintenance);
   (DatabaseObjectType.kProcedure, maintenance);
   (DatabaseObjectType.kFunction, maintenance);
   (DatabaseObjectType.kUser, buildMultiPermissionMask [kCreate; kDrop; kAlter; kShowPermissions]);
   (DatabaseObjectType.kUserAccessKey, maintenance);
   (DatabaseObjectType.kUserToken, maintenance)].

Definition getAllObjectTypePermissions (objectType : Z) : option Z := snd <$> List.find (fun p => fst p =? objectType) s_allowedPermissions.

Definition isValidPermissions (objectType permissions : Z) : bool :=
  match getAllObjectTypePermissions objectType with Some allowed => Z.land permissions allowed =? permissions | None => false end.

Definition validatePermissions (objectType permissions : Z) : outcome UserError unit :=
  if isValidPermissions objectType permissions then Ok tt else Throw InvalidPermissionSpecification.

(** Looking up a record by name. *)
Definition registry_by_name {R} (name_of : R -> list Z) (name : list Z) (m : Registry R) : option R :=
  List.find (fun r => bool_decide (name_of r = name)) (snd <$> map_to_list m).
Definition find_user_record (name : list Z) (m : Registry UserRecord) : option UserRecord := registry_by_name usr_name name m.

(** [unordered_map::emplace] of several keys. *)
Definition emplace_ids (ids : list Z) (userId : Z) (m : gmap Z Z) : gmap Z Z :=
  foldl (fun m id => match m !! id with Some _ => m | None => <[id := userId]> m end) m ids.

Definition map_accessKeys (f : Registry UserAccessKeyRecord -> Registry UserAccessKeyRecord) (r : UserRecord) : UserRecord :=
  {| usr_id := usr_id r; usr_name := usr_name r; usr_realName := usr_realName r; usr_description := usr_description r; usr_active := usr_active r;
     usr_accessKeys := f (usr_accessKeys r); usr_tokens := usr_tokens r; usr_permissions := usr_permissions r |}.
Definition map_tokens (f : Registry UserTokenRecord -> Registry UserTokenRecord) (r : UserRecord) : UserRecord :=
  {| usr_id := usr_id r; usr_name := usr_name r; usr_realName := usr_realName r; usr_description := usr_description r; usr_active := usr_active r;
     usr_accessKeys := usr_accessKeys r; usr_tokens := f (usr_tokens r); usr_permissions := usr_permissions r |}.
Definition map_permissions (f : Registry UserPermissionRecord -> Registry UserPermissionRecord) (r : UserRecord) : UserRecord :=
  {| usr_id := usr_id r; usr_name := usr_name r; usr_realName := usr_realName r; usr_description := usr_description r; usr_active := usr_active r;
     usr_accessKeys := usr_accessKeys r; usr_tokens := usr_tokens r; usr_permissions := f (usr_permissions r) |}.
Definition record_setRealName (n : option (list Z)) (r : UserRecord) : UserRecord :=
  {| usr_id := usr_id r; usr_name := usr_name r; usr_realName := n; usr_description := usr_description r; usr_active := usr_active r;
     usr_accessKeys := usr_accessKeys r; usr_tokens := usr_tokens r; usr_permissions := usr_permissions r |}.
Definition record_setDescription (d : option (list Z)) (r : UserRecord) : UserRecord :=
  {| usr_id := usr_id r; usr_name := usr_name r; usr_realName := usr_realName r; usr_description := d; usr_active := usr_active r;
     usr_accessKeys := usr_accessKeys r; usr_tokens := usr_tokens r; usr_permissions := usr_permissions r |}.
Definition record_setActive (a : bool) (r : UserRecord) : UserRecord :=
  {| usr_id := usr_id r; usr_name := usr_name r; usr_realName := usr_realName r; usr_description := usr_description r; usr_active := a;
     usr_accessKeys := usr_accessKeys r; usr_tokens := usr_tokens r; usr_permissions := usr_permissions r |}.

(** A change of the first element that satisfies a test: what a shared pointer
    to it sees. *)
Fixpoint update_first {A} (p : A -> bool) (f : A -> A) (l : list A) : list A :=
  match l with [] => [] | a :: l' => if p a then f a :: l' else a :: update_first p f l' end.
Definition key_setDescription (d : option (list Z)) (k : UserAccessKey) : UserAccessKey :=
  {| ak_id := ak_id k; ak_name := ak_name k; ak_text := ak_text k; ak_description := d; ak_active := ak_active k |}.
Definition key_setActive (a : bool) (k : UserAccessKey) : UserAccessKey :=
  {| ak_id := ak_id k; ak_name := ak_name k; ak_text := ak_text k; ak_description := ak_description k; ak_active := a |}.
Definition token_setDescription (d : option (list Z)) (t : UserToken) : UserToken :=
  {| tk_id := tk_id t; tk_name := tk_name t; tk_value := tk_value t; tk_expirationTimestamp := tk_expirationTimestamp t; tk_description := d |}.
Definition token_setExpirationTimestamp (e : option Z) (t : UserToken) : UserToken :=
  {| tk_id := tk_id t; tk_name := tk_name t; tk_value := tk_value t; tk_expirationTimestamp := e; tk_description := tk_description t |}.
Definition key_record_setDescription (d : option (list Z)) (r : UserAccessKeyRecord) : UserAccessKeyRecord :=
  {| uak_id := uak_id r; uak_userId := uak_userId r; uak_name := uak_name r; uak_text := uak_text r; uak_description := d; uak_active := uak_active r |}.
Definition key_record_setActive (a : bool) (r : UserAccessKeyRecord) : UserAccessKeyRecord :=
  {| uak_id := uak_id r; uak_userId := uak_userId r; uak_name := uak_name r; uak_text := uak_text r; uak_description := uak_description r; uak_active := a |}.
Definition token_record_setDescription (d : option (list Z)) (r : UserTokenRecord) : UserTokenRecord :=
  {| utk_id := utk_id r; utk_userId := utk_userId r; utk_name := utk_name r; utk_value := utk_value r; utk_expirationTimestamp := utk_expirationTimestamp r;
     utk_description := d |}.
Definition permission_record_set (d : UserPermissionDataEx) (r : UserPermissionRecord) : UserPermissionRecord :=
  {| upm_id := upm_id r; upm_userId := upm_userId r; upm_databaseId := upm_databaseId r; upm_objectType := upm_objectType r; upm_objectId := upm_objectId r;
     upm_permissions := pd_permissions d; upm_grantOptions := pd_grantOptions d |}.

Section Instance.
Context {T : Type} {RT : RowTable T} {X : Externals} {CAL : Calendar} {Y : UserCrypto} {TV : Traversal}.
Context (maxUsers : Z).
(** The databases and their tables, by name. *)
Context (databases : list Z -> option (Z * (list Z -> option Z))).
Notation state := (instance_state T).
Definition IM (A : Type) : Type := SM state UserError A.

Definition with_registry (f : Registry UserRecord -> Registry UserRecord) (s : state) : state :=
  {| m_userRegistry := f (m_userRegistry s); m_users := m_users s; m_userAccessKeyIdToUserId := m_userAccessKeyIdToUserId s;
     m_userTokenIdToUserId := m_userTokenIdToUserId s; m_systemDatabase := m_systemDatabase s; m_activeSessions := m_activeSessions s |}.
Definition with_users (f : gmap Z User -> gmap Z User) (s : state) : state :=
  {| m_userRegistry := m_userRegistry s; m_users := f (m_users s); m_userAccessKeyIdToUserId := m_userAccessKeyIdToUserId s;
     m_userTokenIdToUserId := m_userTokenIdToUserId s; m_systemDatabase := m_systemDatabase s; m_activeSessions := m_activeSessions s |}.
Definition with_keyIds (f : gmap Z Z -> gmap Z Z) (s : state) : state :=
  {| m_userRegistry := m_userRegistry s; m_users := m_users s; m_userAccessKeyIdToUserId := f (m_userAccessKeyIdToUserId s);
     m_userTokenIdToUserId := m_userTokenIdToUserId s; m_systemDatabase := m_systemDatabase s; m_activeSessions := m_activeSessions s |}.
Definition with_tokenIds (f : gmap Z Z -> gmap Z Z) (s : state) : state :=
  {| m_userRegistry := m_userRegistry s; m_users := m_users s; m_userAccessKeyIdToUserId := m_userAccessKeyIdToUserId s;
     m_userTokenIdToUserId := f (m_userTokenIdToUserId s); m_systemDatabase := m_systemDatabase s; m_activeSessions := m_activeSessions s |}.
Definition with_database (d : system_tables T) (s : state) : state :=
  {| m_userRegistry := m_userRegistry s; m_users := m_users s; m_userAccessKeyIdToUserId := m_userAccessKeyIdToUserId s;
     m_userTokenIdToUserId := m_userTokenIdToUserId s; m_systemDatabase := d; m_activeSessions := m_activeSessions s |}.
Definition with_sessions (f : gset (list Z) -> gset (list Z)) (s : state) : state :=
  {| m_userRegistry := m_userRegistry s; m_users := m_users s; m_userAccessKeyIdToUserId := m_userAccessKeyIdToUserId s;
     m_userTokenIdToUserId := m_userTokenIdToUserId s; m_systemDatabase := m_systemDatabase s; m_activeSessions := f (m_activeSessions s) |}.

Definition sys {A} (c : SM (system_tables T) UserError A) : IM A := embed m_systemDatabase with_database (fun e => e) c.
Definition change_user (id : Z) (f : User -> User) : IM unit := modify (with_users (alter f id)).
Definition change_record (id : Z) (f : UserRecord -> UserRecord) : IM unit := modify (with_registry (alter f id)).

(** ** Finding users *)

(** The user object of a record, made when it is needed first. *)
Definition findUserUnlocked_record (r : UserRecord) : IM User :=
  users <-- gets m_users ;;
  match users !! usr_id r with
  | Some user => mret user
  | None =>
      user <-- mlift (User_of_record r) ;;
      modify (with_users (fun m => match m !! us_id user with Some _ => m | None => <[us_id user := user]> m end)) ;;'
      modify (with_keyIds (emplace_ids (ak_id <$> us_accessKeys user) (us_id user))) ;;'
      modify (with_keyIds (emplace_ids (tk_id <$> us_tokens user) (us_id user))) ;;'
      mret user
  end.
Definition findUserUnlocked (name : list Z) : IM (option User) :=
  r <-- gets (fun s => find_user_record name (m_userRegistry s)) ;;
  match r with None => mret None | Some r => u <-- findUserUnlocked_record r ;; mret (Some u) end.
Definition findUserUnlocked_id (userId : Z) : IM (option User) :=
  r <-- gets (fun s => m_userRegistry s !! userId) ;;
  match r with None => mret None | Some r => u <-- findUserUnlocked_record r ;; mret (Some u) end.
Definition findUserChecked (name : list Z) : IM User :=
  u <-- findUserUnlocked name ;; match u with Some u => mret u | None => mthrow (UserDoesNotExist name) end.
Definition findUserChecked_id (userId : Z) : IM User :=
  u <-- findUserUnlocked_id userId ;; match u with Some u => mret u | None => mthrow (UserIdDoesNotExist userId) end.

(** The record of a user that must exist. *)
Definition user_record_checked (name : list Z) : IM UserRecord :=
  r <-- gets (fun s => find_user_record name (m_userRegistry s)) ;;
  match r with Some r => mret r | None => mthrow (UserDoesNotExist name) end.

(** The check at the beginning of an operation on users, keys or tokens. *)
Definition require (objectType permissions currentUserId : Z) : IM unit :=
  currentUser <-- findUserChecked_id currentUserId ;;
  if hasPermissions {| pk_databaseId := 0; pk_objectType := objectType; pk_objectId := 0 |} permissions false currentUser
  then mret tt else mthrow PermissionDenied.

(** ** Users *)

Definition createUser (env : request_env) (name : list Z) (realName description : option (list Z)) (active : bool) (currentUserId : Z) : IM Z :=
  require DatabaseObjectType.kUser kCreatePermissionMask currentUserId ;;'
  registry <-- gets m_userRegistry ;;
  if Z.of_nat (size registry) >=? maxUsers then mthrow TooManyUsers else
  match find_user_record name registry with
  | Some _ => mthrow (UserAlreadyExists name)
  | None =>
      if negb (isValidDatabaseObjectName name) then mthrow (InvalidUserName name) else
      id <-- sys generateNextUserId ;;
      user <-- mlift (new_User id name realName description active) ;;
      modify (with_registry (registry_insert (UserRecord_of user))) ;;'
      tp <-- sys (new_transaction (env_now env) currentUserId) ;;
      sys (recordUser user tp) ;;'
      modify (with_users (fun m => match m !! id with Some _ => m | None => <[id := user]> m end)) ;;'
      mret id
  end.

Fixpoint for_each {A} (l : list A) (f : A -> IM unit) : IM unit :=
  match l with [] => mret tt | a :: l' => f a ;;' for_each l' f end.

(** The permission that is asked for is the one to create users. *)
Definition dropUser (env : request_env) (name : list Z) (userMustExist : bool) (currentUserId : Z) : IM unit :=
  require DatabaseObjectType.kUser kCreatePermissionMask currentUserId ;;'
  r <-- gets (fun s => find_user_record name (m_userRegistry s)) ;;
  match r with
  | None => if userMustExist then mthrow (UserDoesNotExist name) else mret tt
  | Some r =>
      let id := usr_id r in
      if id =? kSuperUserId then mthrow CannotDropSuperUser else
      user <-- findUserUnlocked_record r ;;
      modify (with_users (delete id)) ;;'
      modify (with_registry (delete id)) ;;'
      for_each (us_accessKeys user) (fun k => sys (deleteUserAccessKey (env_now env) (ak_id k) currentUserId)) ;;'
      for_each (us_tokens user) (fun t => sys (deleteUserToken (env_now env) (tk_id t) currentUserId)) ;;'
      sys (deleteUser (env_now env) id currentUserId)
  end.

(** A parameter that is given and differs from the record. *)
Definition differs {A} `{EqDecision A} (p : option A) (current : A) : bool :=
  match p with Some a => negb (bool_decide (a = current)) | None => false end.
Definition change_if {A} (b : bool) (p : option A) (f : A -> IM unit) : IM unit :=
  if b then match p with Some a => f a | None => mret tt end else mret tt.

Definition updateUser (env : request_env) (name : list Z) (params : UpdateUserParameters) (currentUserId : Z) : IM unit :=
  require DatabaseObjectType.kUser kAlterPermissionMask currentUserId ;;'
  r <-- user_record_checked name ;;
  user <-- findUserUnlocked_record r ;;
  let id := us_id user in
  let needUpdateRealName := differs (up_realName params) (usr_realName r) in
  let needUpdateDescription := differs (up_description params) (usr_description r) in
  let needUpdateState := differs (up_active params) (usr_active r) in
  if negb needUpdateRealName && negb needUpdateDescription && negb needUpdateState then mret tt else
  change_if needUpdateRealName (up_realName params) (fun n => change_user id (setRealName n) ;;' change_record id (record_setRealName n)) ;;'
  change_if needUpdateDescription (up_description params) (fun d => change_user id (setDescription d) ;;' change_record id (record_setDescription d)) ;;'
  change_if needUpdateState (up_active params) (fun a =>
    if (id =? kSuperUserId) && negb a then mthrow CannotChangeSuperUserState else
    change_user id (setActive a) ;;' change_record id (record_setActive a)) ;;'
  sys (updateUser_sys (env_now env) id params currentUserId).

(** ** Access keys *)

Definition findUserAccessKeyChecked (userName keyName : list Z) : IM (User * UserAccessKey) :=
  user <-- findUserChecked userName ;; k <-- mlift (findAccessKeyChecked keyName user) ;; mret (user, k).
Definition findUserAccessKeyChecked_id (keyId : Z) : IM (User * UserAccessKey) :=
  owner <-- gets (fun s => m_userAccessKeyIdToUserId s !! keyId) ;;
  match owner with
  | Some userId => user <-- findUserChecked_id userId ;; k <-- mlift (findAccessKeyChecked_id keyId user) ;; mret (user, k)
  | None => mthrow (UserAccessKeyIdDoesNotExist keyId)
  end.

Definition emplace_id (id userId : Z) (m : gmap Z Z) : gmap Z Z := emplace_ids [id] userId m.

Definition createUserAccessKey (env : request_env) (userName keyName text : list Z) (description : option (list Z)) (active : bool) (currentUserId : Z) : IM Z :=
  require DatabaseObjectType.kUserAccessKey kCreatePermissionMask currentUserId ;;'
  r <-- user_record_checked userName ;;
  user <-- findUserUnlocked_record r ;;
  id <-- sys generateNextUserAccessKeyId ;;
  '(k, user') <-- mlift (addAccessKey id keyName text description active user) ;;
  change_user (us_id user) (fun _ => user') ;;'
  modify (with_keyIds (emplace_id (ak_id k) (us_id user))) ;;'
  change_record (usr_id r) (map_accessKeys (registry_insert (UserAccessKeyRecord_of (us_id user) k))) ;;'
  tp <-- sys (new_transaction (env_now env) currentUserId) ;;
  sys (recordUserAccessKey (us_id user) k tp) ;;'
  mret id.

Definition dropUserAccessKey (env : request_env) (userName keyName : list Z) (mustExist : bool) (currentUserId : Z) : IM unit :=
  require DatabaseObjectType.kUserAccessKey kDropPermissionMask currentUserId ;;'
  r <-- user_record_checked userName ;;
  match registry_by_name uak_name keyName (usr_accessKeys r) with
  | None => if mustExist then mthrow (UserAccessKeyDoesNotExist userName keyName) else mret tt
  | Some kr =>
      user <-- findUserUnlocked_record r ;;
      let accessKeyId := uak_id kr in
      change_record (usr_id r) (map_accessKeys (delete accessKeyId)) ;;'
      modify (with_keyIds (delete accessKeyId)) ;;'
      user' <-- mlift (deleteAccessKey keyName user) ;;
      change_user (us_id user) (fun _ => user') ;;'
      sys (deleteUserAccessKey (env_now env) accessKeyId currentUserId)
  end.

(** [modify] of a field that is not a key of the registry succeeds. *)
Definition updateUserAccessKey (env : request_env) (userName keyName : list Z) (params : UpdateUserAccessKeyParameters) (currentUserId : Z) : IM unit :=
  require DatabaseObjectType.kUserAccessKey kAlterPermissionMask currentUserId ;;'
  r <-- user_record_checked userName ;;
  match registry_by_name uak_name keyName (usr_accessKeys r) with
  | None => mthrow (UserAccessKeyDoesNotExist userName keyName)
  | Some kr =>
      user <-- findUserUnlocked_record r ;;
      k <-- mlift (findAccessKeyChecked keyName user) ;;
      let named := fun k => bool_decide (ak_name k = keyName) in
      let needUpdateDescription := differs (kp_description params) (uak_description kr) in
      let needUpdateState := differs (kp_active params) (uak_active kr) in
      if negb needUpdateDescription && negb needUpdateState then mret tt else
      change_if needUpdateDescription (kp_description params) (fun d =>
        change_user (us_id user) (fun u => set_accessKeys (update_first named (key_setDescription d) (us_accessKeys u)) u) ;;'
        change_record (usr_id r) (map_accessKeys (alter (key_record_setDescription d) (uak_id kr)))) ;;'
      change_if needUpdateState (kp_active params) (fun a =>
        if isSuperUser user && negb a && (getActiveAccessKeyCount user =? 1) then mthrow (CannotDeactivateLastSuperUserAccessKey keyName) else
        change_record (usr_id r) (map_accessKeys (alter (key_record_setActive a) (uak_id kr))) ;;'
        change_user (us_id user) (fun u => set_accessKeys (update_first named (key_setActive a) (us_accessKeys u)) u)) ;;'
      sys (updateUserAccessKey_sys (env_now env) (ak_id k) params currentUserId)
  end.

(** ** Tokens *)

Definition findUserTokenChecked (userName tokenName : list Z) : IM (User * UserToken) :=
  user <-- findUserChecked userName ;; t <-- mlift (findTokenChecked tokenName user) ;; mret (user, t).
Definition findUserTokenChecked_id (tokenId : Z) : IM (User * UserToken) :=
  owner <-- gets (fun s => m_userTokenIdToUserId s !! tokenId) ;;
  match owner with
  | Some userId => user <-- findUserChecked_id userId ;; t <-- mlift (findTokenChecked_id tokenId user) ;; mret (user, t)
  | None => mthrow (UserTokenIdDoesNotExist tokenId)
  end.

(** The loop that draws a token until the user has none with this value. *)
Fixpoint generate_token (now : Z) (user : User) (draws : list (option (list Z))) : outcome UserError (list Z * list (option (list Z))) :=
  match draws with
  | [] => Throw CannotGenerateUserToken
  | None :: _ => Throw CannotGenerateUserToken
  | Some v :: draws' =>
      again <- checkToken now v true user ;;
      if (again : bool) then generate_token now user draws' else Ok (v, draws')
  end.

(** The second result is the generated token, empty when a value was given. *)
Definition createUserToken (env : request_env) (userName tokenName : list Z) (value : option (list Z)) (description : option (list Z))
    (expirationTimestamp : option Z) (currentUserId : Z) : IM (Z * list Z) :=
  require DatabaseObjectType.kUserToken kCreatePermissionMask currentUserId ;;'
  r <-- user_record_checked userName ;;
  user <-- findUserUnlocked_record r ;;
  id <-- sys generateNextUserTokenId ;;
  '(v, draws) <-- mlift (match value with Some v => Ok (v, env_draws env) | None => generate_token (env_now env) user (env_draws env) end) ;;
  '(t, user') <-- mlift (addToken (env_now env) (mjoin (head draws)) id tokenName v expirationTimestamp description user) ;;
  change_user (us_id user) (fun _ => user') ;;'
  modify (with_tokenIds (emplace_id (tk_id t) (us_id user))) ;;'
  change_record (usr_id r) (map_tokens (registry_insert (UserTokenRecord_of (us_id user) t))) ;;'
  tp <-- sys (new_transaction (env_now env) currentUserId) ;;
  sys (recordUserToken (us_id user) t tp) ;;'
  mret (0, match value with Some _ => [] | None => v end).

Definition dropUserToken (env : request_env) (userName tokenName : list Z) (mustExist : bool) (currentUserId : Z) : IM unit :=
  require DatabaseObjectType.kUserToken kDropPermissionMask currentUserId ;;'
  r <-- user_record_checked userName ;;
  match registry_by_name utk_name tokenName (usr_tokens r) with
  | None => if mustExist then mthrow (UserTokenDoesNotExist userName tokenName) else mret tt
  | Some tr =>
      user <-- findUserUnlocked_record r ;;
      let tokenId := utk_id tr in
      change_record (usr_id r) (map_tokens (delete tokenId)) ;;'
      modify (with_tokenIds (delete tokenId)) ;;'
      user' <-- mlift (deleteToken tokenName user) ;;
      change_user (us_id user) (fun _ => user') ;;'
      sys (deleteUserToken (env_now env) tokenId currentUserId)
  end.

(** The expiration time of the record is not changed. *)
Definition updateUserToken (env : request_env) (userName tokenName : list Z) (params : UpdateUserTokenParameters) (currentUserId : Z) : IM unit :=
  require DatabaseObjectType.kUserToken kAlterPermissionMask currentUserId ;;'
  r <-- user_record_checked userName ;;
  match registry_by_name utk_name tokenName (usr_tokens r) with
  | None => mthrow (UserTokenDoesNotExist userName tokenName)
  | Some tr =>
      user <-- findUserUnlocked_record r ;;
      t <-- mlift (findTokenChecked tokenName user) ;;
      let named := fun t => bool_decide (tk_name t = tokenName) in
      let needUpdateDescription := differs (tkp_description params) (utk_description tr) in
      let needUpdateExpirationTimestamp := differs (tkp_expirationTimestamp params) (utk_expirationTimestamp tr) in
      if negb needUpdateDescription && negb needUpdateExpirationTimestamp then mret tt else
      change_if needUpdateDescription (tkp_description params) (fun d =>
        change_user (us_id user) (fun u => set_tokens (update_first named (token_setDescription d) (us_tokens u)) u) ;;'
        change_record (usr_id r) (map_tokens (alter (token_record_setDescription d) (utk_id tr)))) ;;'
      change_if needUpdateExpirationTimestamp (tkp_expirationTimestamp params) (fun e =>
        change_user (us_id user) (fun u => set_tokens (update_first named (token_setExpirationTimestamp e) (us_tokens u)) u)) ;;'
      sys (updateUserToken_sys (env_now env) (tk_id t) params currentUserId)
  end.

Definition checkUserToken (env : request_env) (userName tokenName tokenValue : list Z) : IM unit :=
  r <-- user_record_checked userName ;;
  match registry_by_name utk_name tokenName (usr_tokens r) with
  | None => mthrow (UserTokenDoesNotExist userName tokenName)
  | Some _ =>
      user <-- findUserUnlocked_record r ;;
      t <-- mlift (findTokenChecked tokenName user) ;;
      ok <-- mlift (checkValue (env_now env) tokenValue false t) ;;
      if (ok : bool) then mret tt else mthrow (UserTokenCheckFailed userName tokenName)
  end.

(** ** Permissions *)

(** The object behind a reference to a user. *)
Definition user_object (userId : Z) : IM User :=
  users <-- gets m_users ;; match users !! userId with Some u => mret u | None => mlift (Undef Dangling) end.

Definition grantObjectPermissionsToUserUnlocked (env : request_env) (userId databaseId objectType objectId permissions : Z) (withGrantOption : bool)
    (currentUserId : Z) : IM unit :=
  mlift (validatePermissions objectType permissions) ;;'
  currentUser <-- findUserChecked_id currentUserId ;;
  let permissionKey := {| pk_databaseId := databaseId; pk_objectType := objectType; pk_objectId := objectId |} in
  if negb (hasPermissions permissionKey permissions true currentUser) then mthrow PermissionDenied else
  registry <-- gets m_userRegistry ;;
  match registry !! userId with
  | None => mthrow (UserDoesNotExist_id userId)
  | Some _ =>
      user <-- user_object userId ;;
      let '(data, user') := grantPermissions permissionKey permissions withGrantOption user in
      change_user userId (fun _ => user') ;;'
      if negb (pd_id data =? 0) then
        sys (updateUserPermission (env_now env) data currentUserId) ;;'
        change_record userId (map_permissions (fun m =>
          match m !! pd_id data with
          | None => registry_insert (UserPermissionRecord_of userId permissionKey data) m
          | Some _ => alter (permission_record_set data) (pd_id data) m
          end))
      else
        tp <-- sys (new_transaction (env_now env) currentUserId) ;;
        permissionId <-- sys (recordUserPermission userId permissionKey data tp) ;;
        change_user userId (fun u => snd (setPermissionRecordId permissionKey permissionId u)) ;;'
        change_record userId (map_permissions (registry_insert (UserPermissionRecord_of userId permissionKey (setId permissionId data))))
  end.

Definition grantObjectPermissionsToUser (env : request_env) (userId databaseId objectType objectId permissions : Z) (withGrantOption : bool)
    (currentUserId : Z) : IM unit :=
  user <-- findUserChecked_id userId ;;
  grantObjectPermissionsToUserUnlocked env (us_id user) databaseId objectType objectId permissions withGrantOption currentUserId.

Definition revokeObjectPermissionsFromUserUnlocked (env : request_env) (userId databaseId objectType objectId permissions currentUserId : Z) : IM unit :=
  (if permissions =? kAllPermissionsForRevoke then mret tt else mlift (validatePermissions objectType permissions)) ;;'
  currentUser <-- findUserChecked_id currentUserId ;;
  let permissionKey := {| pk_databaseId := databaseId; pk_objectType := objectType; pk_objectId := objectId |} in
  if negb (hasPermissions permissionKey permissions true currentUser) then mthrow PermissionDenied else
  registry <-- gets m_userRegistry ;;
  match registry !! userId with
  | None => mthrow (UserDoesNotExist_id userId)
  | Some _ =>
      user <-- user_object userId ;;
      let '(result, user') := revokePermissions permissionKey permissions user in
      change_user userId (fun _ => user') ;;'
      match result with
      | None => mret tt
      | Some (data, true) =>
          sys (deleteUserPermission (env_now env) (pd_id data) currentUserId) ;;'
          change_record userId (map_permissions (delete (pd_id data)))
      | Some (data, false) =>
          sys (updateUserPermission (env_now env) data currentUserId) ;;'
          change_record userId (map_permissions (fun m =>
            match m !! pd_id data with
            | None => registry_insert (UserPermissionRecord_of userId permissionKey data) m
            | Some _ => alter (permission_record_set data) (pd_id data) m
            end))
      end
  end.

(** The loop goes over the user objects that there are. *)
Definition revokeAllObjectPermissionsFromAllUsers (env : request_env) (databaseId objectType objectId currentUserId : Z) : IM unit :=
  users <-- gets m_users ;;
  for_each (byId users) (fun u =>
    revokeObjectPermissionsFromUserUnlocked env (us_id u) databaseId objectType objectId kAllPermissionsForRevoke currentUserId).

(** The object that a request names: [*] is all databases or all tables. *)
Definition find_object (databaseName tableName : list Z) : outcome UserError (Z * Z) :=
  database <- (if bool_decide (databaseName = kAllObjectsName) then Ok None else
               match databases databaseName with Some d => Ok (Some d) | None => Throw (DatabaseDoesNotExist databaseName) end) ;;
  tableId <- (if bool_decide (tableName = kAllObjectsName) then Ok 0 else
              match database with
              | None => Throw (InvalidTableName tableName)
              | Some (_, tables) => match tables tableName with Some id => Ok id | None => Throw (TableDoesNotExist tableName) end
              end) ;;
  Ok (match database with Some (id, _) => id | None => 0 end, tableId).

Definition grantTablePermissionsToUser (env : request_env) (userName databaseName tableName : list Z) (permissions : Z) (withGrantOption : bool)
    (currentUserId : Z) : IM unit :=
  user <-- findUserChecked userName ;;
  '(databaseId, tableId) <-- mlift (find_object databaseName tableName) ;;
  grantObjectPermissionsToUserUnlocked env (us_id user) databaseId DatabaseObjectType.kTable tableId permissions withGrantOption currentUserId.

Definition revokeTablePermissionsFromUser (env : request_env) (userName databaseName tableName : list Z) (permissions currentUserId : Z) : IM unit :=
  user <-- findUserChecked userName ;;
  '(databaseId, tableId) <-- mlift (find_object databaseName tableName) ;;
  revokeObjectPermissionsFromUserUnlocked env (us_id user) databaseId DatabaseObjectType.kTable tableId permissions currentUserId.

(** ** Authentication and sessions *)

Definition beginUserAuthentication (userName : list Z) : IM unit :=
  user <-- findUserChecked userName ;;
  if negb (us_active user) then mthrow (UserAccessDenied userName) else
  if getActiveAccessKeyCount user =? 0 then mthrow (UserAccessDenied userName) else mret tt.

(** [uuids] is what the UUID generator gives. *)
Fixpoint beginSession (uuids : list (list Z)) : IM (list Z) :=
  match uuids with
  | [] => mlift (Undef NoProgress)
  | sessionUuid :: uuids' =>
      active <-- gets (fun s => bool_decide (sessionUuid ∈ m_activeSessions s)) ;;
      if (active : bool) then beginSession uuids' else
      modify (with_sessions (fun m => {[sessionUuid]} ∪ m)) ;;' mret sessionUuid
  end.

Definition endSession (sessionUuid : list Z) : IM unit :=
  active <-- gets (fun s => bool_decide (sessionUuid ∈ m_activeSessions s)) ;;
  if (active : bool) then modify (with_sessions (fun m => m ∖ {[sessionUuid]})) else mthrow (SessionDoesNotExist sessionUuid).

Definition authenticateUser (uuids : list (list Z)) (userName signature challenge : list Z) : IM (Z * list Z) :=
  user <-- findUserChecked userName ;;
  if negb (authenticate signature challenge user) then mthrow (UserAccessDenied userName) else
  session <-- beginSession uuids ;;
  mret (us_id user, session).

Definition authenticateUser_token (env : request_env) (userName token : list Z) : IM Z :=
  user <-- findUserChecked userName ;;
  ok <-- mlift (authenticate_token (env_now env) token user) ;;
  if negb (ok : bool) then mthrow (UserAccessDenied userName) else mret (us_id user).

(** ** Start of an instance *)

(** [createSuperUser], [recordSuperUser]: a new instance, with the access key
    that the administrator gave. *)
Definition super_user (description keyName keyDescription initialAccessKey : list Z) : outcome UserError User :=
  user <- User_of_record {| usr_id := kSuperUserId; usr_name := kSuperUserName; usr_realName := None; usr_description := Some description; usr_active := true;
                            usr_accessKeys := ∅; usr_tokens := ∅; usr_permissions := ∅ |} ;;
  match initialAccessKey with
  | [] => Ok user
  | _ => '(_, user) <- addAccessKey kSuperUserInitialAccessKeyId keyName initialAccessKey (Some keyDescription) true user ;; Ok user
  end.

Definition createSuperUser (description keyName keyDescription initialAccessKey : list Z) : IM User :=
  user <-- mlift (super_user description keyName keyDescription initialAccessKey) ;;
  modify (with_registry (registry_insert (UserRecord_of user))) ;;'
  modify (with_users (fun m => match m !! us_id user with Some _ => m | None => <[us_id user := user]> m end)) ;;'
  mret user.

Definition recordSuperUser (tp : TransactionParameters) (user : User) : IM unit :=
  sys (recordUser user tp) ;;'
  for_each (us_accessKeys user) (fun k => sys (recordUserAccessKey (us_id user) k tp)).

(** An instance that starts on existing system tables. *)
Definition loadUsers : IM User :=
  registry <-- sys readAllUsers ;;
  modify (with_registry (fun _ => registry)) ;;'
  findUserChecked_id kSuperUserId.

Definition new_instance (database : system_tables T) : state :=
  {| m_userRegistry := ∅; m_users := ∅; m_userAccessKeyIdToUserId := ∅; m_userTokenIdToUserId := ∅; m_systemDatabase := database; m_activeSessions := ∅ |}.
Definition restart (s : state) : outcome UserError User * state := loadUsers (new_instance (m_systemDatabase s)).
End Instance.
