(* ===== verification/InstanceSpec.v ===== *)
(** * What the users of an instance may do

    The accounts of an instance as a map from user numbers to users, and the
    steps that a request of one user may take on it, each with the permission it
    needs.  Invariants of the steps, by rule induction: permissions stay within
    those that exist for an object type, no user gets a permission from somebody
    who may not grant it, and the super user is never locked out. *)

From stdpp Require Import base list gmap relations.
Set Warnings "-clear-no-such-hyp,-notation-incompatible-prefix,-notation-for-abbreviation".
From Stdlib Require Import ZArith Lia.
From S2P Require Import Prelude StateM Bytes RecordReader CatalogRecords Table Users SystemTables Instance.

Local Open Scope Z_scope.

Notation accounts := (gmap Z User).

Section Machine.
Context {Y : UserCrypto}.

(** ** Steps *)

(** The changes of one user: the object type and the permission that they need. *)
Inductive user_change : Z -> Z -> User -> User -> Prop :=
| change_realName n u : user_change DatabaseObjectType.kUser kAlterPermissionMask u (setRealName n u)
| change_description d u : user_change DatabaseObjectType.kUser kAlterPermissionMask u (setDescription d u)
| change_active b u : isSuperUser u && negb b = false -> user_change DatabaseObjectType.kUser kAlterPermissionMask u (setActive b u)
| change_add_key id name text d b u k u' : addAccessKey id name text d b u = Ok (k, u') ->
    user_change DatabaseObjectType.kUserAccessKey kCreatePermissionMask u u'
| change_delete_key name u u' : deleteAccessKey name u = Ok u' -> user_change DatabaseObjectType.kUserAccessKey kDropPermissionMask u u'
| change_key_description name d u :
    user_change DatabaseObjectType.kUserAccessKey kAlterPermissionMask u
      (set_accessKeys (update_first (fun k => bool_decide (ak_name k = name)) (key_setDescription d) (us_accessKeys u)) u)
| change_key_active name b u : isSuperUser u && negb b && (getActiveAccessKeyCount u =? 1) = false ->
    user_change DatabaseObjectType.kUserAccessKey kAlterPermissionMask u
      (set_accessKeys (update_first (fun k => bool_decide (ak_name k = name)) (key_setActive b) (us_accessKeys u)) u)
| change_add_token now salt id name value e d u t u' : addToken now salt id name value e d u = Ok (t, u') ->
    user_change DatabaseObjectType.kUserToken kCreatePermissionMask u u'
| change_delete_token name u u' : deleteToken name u = Ok u' -> user_change DatabaseObjectType.kUserToken kDropPermissionMask u u'
| change_token_description name d u :
    user_change DatabaseObjectType.kUserToken kAlterPermissionMask u
      (set_tokens (update_first (fun t => bool_decide (tk_name t = name)) (token_setDescription d) (us_tokens u)) u)
| change_token_expiration name e u :
    user_change DatabaseObjectType.kUserToken kAlterPermissionMask u
      (set_tokens (update_first (fun t => bool_decide (tk_name t = name)) (token_setExpirationTimestamp e) (us_tokens u)) u).

Definition allowed (c objectType mask : Z) (a : accounts) : Prop :=
  exists u, a !! c = Some u /\ hasPermissions {| pk_databaseId := 0; pk_objectType := objectType; pk_objectId := 0 |} mask false u = true.
Definition allowed_to_grant (c : Z) (k : UserPermissionKey) (p : Z) (a : accounts) : Prop :=
  exists u, a !! c = Some u /\ hasPermissions k p true u = true.

(** What one request of user [c] does to the accounts, step by step. *)
Inductive account_step (c : Z) (a : accounts) : accounts -> Prop :=
| step_create id name realName d b u : allowed c DatabaseObjectType.kUser kCreatePermissionMask a -> a !! id = None ->
    new_User id name realName d b = Ok u -> account_step c a (<[id := u]> a)
| step_drop id : allowed c DatabaseObjectType.kUser kCreatePermissionMask a -> id <> kSuperUserId -> account_step c a (delete id a)
| step_change ty mask id u u' : allowed c ty mask a -> a !! id = Some u -> user_change ty mask u u' -> account_step c a (<[id := u']> a)
| step_grant id k p g u : allowed_to_grant c k p a -> isValidPermissions (pk_objectType k) p = true -> a !! id = Some u ->
    account_step c a (<[id := snd (grantPermissions k p g u)]> a)
| step_record id k i u : a !! id = Some u -> account_step c a (<[id := snd (setPermissionRecordId k i u)]> a)
| step_revoke id k p u : allowed_to_grant c k p a -> a !! id = Some u -> account_step c a (<[id := snd (revokePermissions k p u)]> a).

(** ** Users keep their numbers *)

Definition ids_ok (a : accounts) : Prop := map_Forall (fun id u => us_id u = id) a.

Lemma new_User_inv id name realName d b u : new_User id name realName d b = Ok u ->
  u = {| us_id := id; us_name := name; us_realName := realName; us_description := d; us_active := b; us_accessKeys := []; us_tokens := []; us_grantedPermissions := ∅ |}.
Proof. unfold new_User, validate_name. destruct (isValidDatabaseObjectName name); [|done]. cbn. by intros [= <-]. Qed.

(** The changes of keys and tokens in terms of the lists. *)
Lemma addAccessKey_inv id name text d b u k u' : addAccessKey id name text d b u = Ok (k, u') ->
  List.find (fun k => (ak_id k =? id) || bool_decide (ak_name k = name)) (us_accessKeys u) = None /\
  k = {| ak_id := id; ak_name := name; ak_text := text; ak_description := d; ak_active := b |} /\ u' = set_accessKeys (us_accessKeys u ++ [k]) u.
Proof.
  unfold addAccessKey, new_UserAccessKey, validate_name. destruct (List.find _ _) as [k0|]; [by destruct (_ =? _)|]. destruct (_ >? _); [done|].
  destruct (parseFromString text); [|done]. destruct (isValidDatabaseObjectName name); [|done]. cbn. by intros [= <- <-].
Qed.

Lemma deleteAccessKey_inv name u u' : deleteAccessKey name u = Ok u' ->
  exists k, findAccessKey name u = Some k /\ isSuperUser u && (getActiveAccessKeyCount u =? 1) && ak_active k = false /\
    u' = set_accessKeys (erase_first (fun k => bool_decide (ak_name k = name)) (us_accessKeys u)) u.
Proof. unfold deleteAccessKey. destruct (findAccessKey name u) as [k|]; [|done]. destruct (_ && ak_active k) eqn:E; [done|]. intros [= <-]. eauto. Qed.

Lemma addToken_inv now salt id name value e d u t u' : addToken now salt id name value e d u = Ok (t, u') ->
  List.find (fun t => (tk_id t =? id) || bool_decide (tk_name t = name)) (us_tokens u) = None /\ (kMinSize <= len value <= kMaxSize) /\
  exists s, salt = Some s /\ len (s ++ hashValue value s) = kHashSize + kSaltSize /\
  t = {| tk_id := id; tk_name := name; tk_value := s ++ hashValue value s; tk_expirationTimestamp := e; tk_description := d |} /\
  u' = set_tokens (us_tokens u ++ [t]) u.
Proof.
  unfold addToken. destruct (List.find _ _) as [t0|]; [by destruct (_ =? _)|]. destruct ((len value =? 0) || _ || _) eqn:Esize; [done|].
  apply orb_false_iff in Esize as [[_ ?%Z.ltb_ge]%orb_false_iff E3]. rewrite Z.gtb_ltb in E3. apply Z.ltb_ge in E3.
  destruct (checkToken now value true u) as [[|]| |]; [done| |done|done]. cbn. destruct salt as [s|]; [|done]. unfold new_UserToken, validate_name.
  destruct (isValidDatabaseObjectName name); [|done]. cbn. destruct (len (s ++ hashValue value s) =? kHashSize + kSaltSize) eqn:El; [|done]. cbn.
  intros [= <- <-]. apply Z.eqb_eq in El. split; [done|]. split; [lia|]. exists s. by repeat split.
Qed.

Lemma deleteToken_inv name u u' : deleteToken name u = Ok u' -> u' = set_tokens (erase_first (fun t => bool_decide (tk_name t = name)) (us_tokens u)) u.
Proof. unfold deleteToken. destruct (findToken name u); [|done]. by intros [= <-]. Qed.

(** A change of a user leaves its number, name and permissions. *)
Lemma user_change_frame ty mask u u' : user_change ty mask u u' ->
  us_id u' = us_id u /\ us_name u' = us_name u /\ us_grantedPermissions u' = us_grantedPermissions u.
Proof.
  destruct 1 as [| | |???????? H|??? H|?| |?????????? H|??? H| |]; try done.
  - by apply addAccessKey_inv in H as (_ & _ & ->).
  - by apply deleteAccessKey_inv in H as (? & _ & _ & ->).
  - by apply addToken_inv in H as (_ & _ & ? & _ & _ & _ & ->).
  - by apply deleteToken_inv in H as ->.
Qed.

Lemma grant_frame k p g u : us_id (snd (grantPermissions k p g u)) = us_id u /\ us_active (snd (grantPermissions k p g u)) = us_active u /\
  us_accessKeys (snd (grantPermissions k p g u)) = us_accessKeys u /\ us_tokens (snd (grantPermissions k p g u)) = us_tokens u.
Proof. unfold grantPermissions. by destruct (us_grantedPermissions u !! k). Qed.
Lemma record_frame k i u : us_id (snd (setPermissionRecordId k i u)) = us_id u /\ us_active (snd (setPermissionRecordId k i u)) = us_active u /\
  us_accessKeys (snd (setPermissionRecordId k i u)) = us_accessKeys u /\ us_tokens (snd (setPermissionRecordId k i u)) = us_tokens u.
Proof. unfold setPermissionRecordId. destruct (us_grantedPermissions u !! k); [|done]. by destruct (negb _). Qed.
Lemma revoke_frame k p u : us_id (snd (revokePermissions k p u)) = us_id u /\ us_active (snd (revokePermissions k p u)) = us_active u /\
  us_accessKeys (snd (revokePermissions k p u)) = us_accessKeys u /\ us_tokens (snd (revokePermissions k p u)) = us_tokens u.
Proof. unfold revokePermissions. destruct (us_grantedPermissions u !! k); [|done]. destruct (_ =? 0); [done|]. cbv zeta. by destruct (_ =? 0). Qed.

Lemma step_ids_ok c a a' : ids_ok a -> account_step c a a' -> ids_ok a'.
Proof.
  intros Ha. destruct 1 as [id ????? _ _ Hu|id _ _|??? u ? _ Hu Hc|??? g u _ _ Hu|??? u Hu|??? u _ Hu].
  - apply map_Forall_insert_2; [|done]. by apply new_User_inv in Hu as ->.
  - by apply map_Forall_delete.
  - apply map_Forall_insert_2; [|done]. apply user_change_frame in Hc as (-> & _). by apply (Ha _ _ Hu).
  - apply map_Forall_insert_2; [|done]. rewrite (proj1 (grant_frame _ _ _ _)). by apply (Ha _ _ Hu).
  - apply map_Forall_insert_2; [|done]. rewrite (proj1 (record_frame _ _ _)). by apply (Ha _ _ Hu).
  - apply map_Forall_insert_2; [|done]. rewrite (proj1 (revoke_frame _ _ _)). by apply (Ha _ _ Hu).
Qed.

(** ** Permissions exist for their objects *)

Definition permission_ok (k : UserPermissionKey) (d : UserPermissionDataEx) : Prop :=
  isValidPermissions (pk_objectType k) (pd_permissions d) = true /\ Z.land (pd_permissions d) (pd_grantOptions d) = pd_grantOptions d.
Definition permissions_ok (a : accounts) : Prop := map_Forall (fun _ u => map_Forall permission_ok (us_grantedPermissions u)) a.

Lemma valid_subset ty p q : isValidPermissions ty p = true -> (forall b, 0 <= b -> Z.testbit q b = true -> Z.testbit p b = true) -> isValidPermissions ty q = true.
Proof.
  unfold isValidPermissions. destruct (getAllObjectTypePermissions ty) as [m|]; [|done]. rewrite !Z.eqb_eq, !(Z.land_comm _ m), !land_subset. eauto.
Qed.
Lemma valid_lor ty p q : isValidPermissions ty p = true -> isValidPermissions ty q = true -> isValidPermissions ty (Z.lor p q) = true.
Proof.
  unfold isValidPermissions. destruct (getAllObjectTypePermissions ty) as [m|]; [|done]. rewrite !Z.eqb_eq, !(Z.land_comm _ m), !land_subset.
  intros Hp Hq b Hb. rewrite Z.lor_spec. intros [?|?]%orb_true_iff; eauto.
Qed.

Lemma permission_ok_grant k p g d : isValidPermissions (pk_objectType k) p = true -> permission_ok k d -> permission_ok k (addPermissions p g d).
Proof.
  intros Hp [Hv Hg]. split; cbn; [by apply valid_lor|]. rewrite land_subset in Hg. apply land_subset. intros b Hb. destruct g; rewrite ?Z.lor_spec; intros H.
  - apply orb_true_iff in H as [H|H]; [rewrite (Hg b Hb H); done|rewrite H; by rewrite orb_true_r].
  - by rewrite (Hg b Hb H).
Qed.
Lemma permission_ok_remove k p d : permission_ok k d -> permission_ok k (removePermissions p d).
Proof.
  intros [Hv Hg]. split; cbn.
  - apply (valid_subset _ _ _ Hv). intros b Hb. rewrite Z.land_spec. by intros [? _]%andb_true_iff.
  - rewrite land_subset in Hg. apply land_subset. intros b Hb. rewrite !Z.land_spec. intros [H1 H2]%andb_true_iff. by rewrite (Hg b Hb H1), H2.
Qed.

Lemma step_permissions_ok c a a' : permissions_ok a -> account_step c a a' -> permissions_ok a'.
Proof.
  intros Ha. destruct 1 as [id ????? _ _ Hu|id _ _|??? u ? _ Hu Hc|? k p g u _ Hv Hu|? k i u Hu|? k p u _ Hu].
  - apply map_Forall_insert_2; [|done]. apply new_User_inv in Hu as ->. apply map_Forall_empty.
  - by apply map_Forall_delete.
  - apply map_Forall_insert_2; [|done]. apply user_change_frame in Hc as (_ & _ & ->). by apply (Ha _ _ Hu).
  - apply map_Forall_insert_2; [|done]. unfold grantPermissions. destruct (us_grantedPermissions u !! k) as [d|] eqn:E; (apply map_Forall_insert_2; [|by apply (Ha _ _ Hu)]).
    + apply permission_ok_grant; [done|]. by apply (Ha _ _ Hu k).
    + split; [done|]. cbn. destruct g; [apply Z.land_diag|apply Z.land_0_r].
  - apply map_Forall_insert_2; [|done]. unfold setPermissionRecordId. destruct (us_grantedPermissions u !! k) as [d|] eqn:E; [|by apply (Ha _ _ Hu)].
    destruct (negb _); [by apply (Ha _ _ Hu)|]. apply map_Forall_insert_2; [|by apply (Ha _ _ Hu)]. exact (Ha _ _ Hu _ _ E).
  - apply map_Forall_insert_2; [|done]. intros k' d' (d & Hd & [->|[-> ->]])%revoke_lookup; [by apply (Ha _ _ Hu k')|].
    apply permission_ok_remove. by apply (Ha _ _ Hu k).
Qed.

(** ** Permissions come from those who may grant them *)

Definition holds_at (a : accounts) (id : Z) (k : UserPermissionKey) (b : Z) : Prop := exists u, a !! id = Some u /\ holds k b u = true.
Definition grants_at (a : accounts) (id : Z) (k : UserPermissionKey) (b : Z) : Prop := exists u, a !! id = Some u /\ may_grant k b u = true.

Lemma allowed_to_grant_bit c k p a b : ids_ok a -> c <> kSuperUserId -> allowed_to_grant c k p a -> 0 <= b -> Z.testbit p b = true -> grants_at a c k b.
Proof.
  intros Ha Hc (u & Hu & Hp) Hb Hbit. exists u. split; [done|]. apply hasPermissions_spec in Hp.
  - by apply Hp.
  - unfold isSuperUser. rewrite (Ha _ _ Hu). by apply Z.eqb_neq.
Qed.

Lemma step_no_escalation c a a' : ids_ok a -> c <> kSuperUserId -> account_step c a a' -> forall id k b, 0 <= b ->
  (holds_at a' id k b -> holds_at a id k b \/ grants_at a c k b) /\ (grants_at a' id k b -> grants_at a id k b \/ grants_at a c k b).
Proof.
  intros Ha Hc Hs id k b Hb.
  assert (Hins : forall id' u u', a !! id' = Some u ->
    (holds k b u' = true -> holds k b u = true \/ grants_at a c k b) -> (may_grant k b u' = true -> may_grant k b u = true \/ grants_at a c k b) ->
    (holds_at (<[id' := u']> a) id k b -> holds_at a id k b \/ grants_at a c k b) /\ (grants_at (<[id' := u']> a) id k b -> grants_at a id k b \/ grants_at a c k b)).
  { intros id' u u' Hu Hh Hg. split; intros (u0 & Hu0 & Hb0); (destruct (decide (id' = id)) as [<-|Hne];
      [rewrite lookup_insert, decide_True in Hu0 by done; injection Hu0 as ->|rewrite lookup_insert_ne in Hu0 by done; left; by exists u0]).
    - destruct (Hh Hb0); [left; by exists u|by right].
    - destruct (Hg Hb0); [left; by exists u|by right]. }
  destruct Hs as [id' ???? u _ Hn Hu|id' _ _|??? u ? _ Hu Hch|? k0 p g u Hg _ Hu|? k0 i u Hu|? k0 p u _ Hu].
  - apply new_User_inv in Hu as ->. split; intros (u0 & Hu0 & Hb0); (destruct (decide (id' = id)) as [<-|Hne];
      [rewrite lookup_insert, decide_True in Hu0 by done; injection Hu0 as <-; discriminate Hb0|rewrite lookup_insert_ne in Hu0 by done; left; by exists u0]).
  - split; intros (u & [_ Hu]%lookup_delete_Some & Hbit); left; by exists u.
  - apply user_change_frame in Hch as (_ & _ & Hp). apply (Hins _ u); [done| |]; unfold holds, may_grant; rewrite Hp; auto.
  - apply (Hins _ u); [done| |].
    + rewrite holds_grant. intros [?|[->%bool_decide_eq_true ?]%andb_true_iff]%orb_true_iff; [by left|right]. by eapply allowed_to_grant_bit.
    + intros [?|[-> ?]]%may_grant_grant; [by left|right]. by eapply allowed_to_grant_bit.
  - apply (Hins _ u); [done| |]; unfold holds, may_grant, setPermissionRecordId; destruct (us_grantedPermissions u !! k0) as [d|] eqn:E; auto;
      destruct (negb _); auto; cbn [snd]; rewrite lookup_set; (destruct (decide (k = k0)) as [->|Hk];
        [rewrite lookup_insert, decide_True by done; rewrite E; by left|rewrite lookup_insert_ne by done; by left]).
  - apply (Hins _ u); [done| |]; [intros ?%holds_revoke|intros ?%may_grant_revoke]; by left.
Qed.

(** ** The super user is not locked out *)

Definition super_ok (a : accounts) : Prop :=
  exists u, a !! kSuperUserId = Some u /\ us_active u = true /\ 1 <= getActiveAccessKeyCount u.

Lemma active_app l1 l2 : len (List.filter ak_active (l1 ++ l2)) = len (List.filter ak_active l1) + len (List.filter ak_active l2).
Proof. rewrite List.filter_app. apply len_app. Qed.

Lemma erase_first_active name l k : List.find (fun k => bool_decide (ak_name k = name)) l = Some k ->
  len (List.filter ak_active (erase_first (fun k => bool_decide (ak_name k = name)) l)) = len (List.filter ak_active l) - (if ak_active k then 1 else 0).
Proof.
  induction l as [|a l IH]; [done|]. cbn. destruct (bool_decide (ak_name a = name)).
  - intros [= ->]. destruct (ak_active k); rewrite ?len_cons; lia.
  - intros H. specialize (IH H). cbn. destruct (ak_active a); rewrite ?len_cons; lia.
Qed.

Lemma update_first_active p f l : (forall k, ak_active (f k) = ak_active k) ->
  len (List.filter ak_active (update_first p f l)) = len (List.filter ak_active l).
Proof. intros Hf. induction l as [|a l IH]; [done|]. cbn. destruct (p a); cbn; rewrite ?Hf; destruct (ak_active a); rewrite ?len_cons; lia. Qed.
Lemma update_first_state p (b : bool) l : len (List.filter ak_active l) - (if b then 0 else 1) <= len (List.filter ak_active (update_first p (key_setActive b) l)).
Proof.
  induction l as [|a l IH]; [by destruct b|]. cbn. destruct (p a); cbn; destruct b, (ak_active a); rewrite ?len_cons; lia.
Qed.

Lemma user_change_super ty mask u u' : user_change ty mask u u' -> isSuperUser u = true -> us_active u = true -> 1 <= getActiveAccessKeyCount u ->
  us_active u' = true /\ 1 <= getActiveAccessKeyCount u'.
Proof.
  unfold getActiveAccessKeyCount.
  destruct 1 as [| |b ? Hb|???????? H|name ?? H|?|? b ? Hb|?????????? H|??? H| |]; intros Hs Hact Hk; try (by split); cbn.
  - rewrite Hs in Hb. by destruct b.
  - apply addAccessKey_inv in H as (_ & _ & ->). cbn. split; [done|]. rewrite active_app. pose proof (len_nonneg (List.filter ak_active [k])). lia.
  - apply deleteAccessKey_inv in H as (k & Hf & Hg & ->). cbn. split; [done|]. rewrite (erase_first_active _ _ _ Hf). rewrite Hs in Hg. unfold getActiveAccessKeyCount in Hg.
    destruct (ak_active k); [|lia]. rewrite andb_true_r in Hg. cbn in Hg. apply Z.eqb_neq in Hg. lia.
  - rewrite update_first_active by done. done.
  - split; [done|]. pose proof (update_first_state (fun k => bool_decide (ak_name k = name)) b (us_accessKeys u)). destruct b; [lia|].
    rewrite Hs in Hb. unfold getActiveAccessKeyCount in Hb. cbn in Hb. apply Z.eqb_neq in Hb. lia.
  - apply addToken_inv in H as (_ & _ & ? & _ & _ & _ & ->). done.
  - apply deleteToken_inv in H as ->. done.
Qed.

Lemma step_super_ok c a a' : ids_ok a -> super_ok a -> account_step c a a' -> super_ok a'.
Proof.
  intros Ha (su & Hsu & Hact & Hk) Hs.
  assert (Hins : forall id u u', a !! id = Some u -> (us_id u = kSuperUserId -> u = su -> us_active u' = true /\ 1 <= getActiveAccessKeyCount u') -> super_ok (<[id := u']> a)).
  { intros id u u' Hu H. destruct (decide (id = kSuperUserId)) as [->|Hne].
    - rewrite Hsu in Hu. injection Hu as <-. destruct H as [? ?]; [by apply (Ha _ _ Hsu)|done|]. exists u'. by rewrite lookup_insert, decide_True.
    - exists su. by rewrite lookup_insert_ne. }
  destruct Hs as [id ???? u _ Hn Hu|id _ Hne|??? u ? _ Hu Hch|? k0 p g u Hg _ Hu|? k0 i u Hu|? k0 p u _ Hu].
  - exists su. rewrite lookup_insert_ne; [done|]. intros ->. by rewrite Hsu in Hn.
  - exists su. rewrite lookup_delete_ne by done. done.
  - apply (Hins _ u); [done|]. intros Hid ->. eapply user_change_super; [done| |done|done]. unfold isSuperUser. by rewrite Hid.
  - apply (Hins _ u); [done|]. intros _ ->. unfold getActiveAccessKeyCount. by destruct (grant_frame k0 p g su) as (_ & -> & -> & _).
  - apply (Hins _ u); [done|]. intros _ ->. unfold getActiveAccessKeyCount. by destruct (record_frame k0 i su) as (_ & -> & -> & _).
  - apply (Hins _ u); [done|]. intros _ ->. unfold getActiveAccessKeyCount. by destruct (revoke_frame k0 p su) as (_ & -> & -> & _).
Qed.
End Machine.
