(* ===== verification/InstanceRefine.v ===== *)
(** * Requests of users as steps on accounts

    Every request that an instance handles, whether it returns or throws, takes
    steps of the machine of [InstanceSpec] on the accounts, and nothing else.
    The accounts are the user objects there are, and those that the records of
    the other users would give. *)

From stdpp Require Import base list gmap relations.
Set Warnings "-clear-no-such-hyp,-notation-incompatible-prefix,-notation-for-abbreviation".
From Stdlib Require Import ZArith Lia.
From S2P Require Import Prelude StateM Bytes ExprEval RecordReader CatalogRecords Table Users SystemTables Instance InstanceSpec.

Local Open Scope Z_scope.

Section Refinement.
Context {T : Type} {RT : RowTable T} {X : Externals} {CAL : Calendar} {Y : UserCrypto} {TV : Traversal}.
Context (maxUsers : Z) (databases : list Z -> option (Z * (list Z -> option Z))).
Notation state := (instance_state T).
Notation IM := (IM (T := T)).

(** ** Accounts and their invariant *)

Definition load (r : UserRecord) : option User := match User_of_record r with Ok u => Some u | _ => None end.
Definition accounts_of (s : state) : accounts := m_users s ∪ omap load (m_userRegistry s).

Definition inst_ok (s : state) : Prop :=
  map_Forall (fun id u => us_id u = id /\ is_Some (m_userRegistry s !! id)) (m_users s) /\ registry_ok (m_userRegistry s).

(** An instance after steps of user [c] from the accounts [a0]. *)
Definition good (c : Z) (a0 : accounts) (s : state) : Prop := inst_ok s /\ rtc (account_step c) a0 (accounts_of s).

Lemma accounts_lookup (s : state) id : accounts_of s !! id = match m_users s !! id with Some u => Some u | None => m_userRegistry s !! id ≫= load end.
Proof. unfold accounts_of. rewrite lookup_union, lookup_omap. destruct (m_users s !! id); [by rewrite union_Some_l|by rewrite left_id_L by apply _]. Qed.

Lemma User_of_record_inv r u : User_of_record r = Ok u -> us_id u = usr_id r /\ us_name u = usr_name r /\ us_active u = usr_active r.
Proof.
  unfold User_of_record, validate_name. destruct (isValidDatabaseObjectName (usr_name r)); [|done]. cbn.
  destruct (collect (UserAccessKey_of_record (usr_id r)) (byId (usr_accessKeys r))); [|done|done]. cbn.
  destruct (collect (UserToken_of_record (usr_id r)) (byId (usr_tokens r))); [|done|done]. cbn. by intros [= <-].
Qed.

Lemma inst_ids_ok s : inst_ok s -> ids_ok (accounts_of s).
Proof.
  intros [Hu [Hr _]] id u Hl. rewrite accounts_lookup in Hl. destruct (m_users s !! id) as [u'|] eqn:E; [injection Hl as <-; by apply (Hu _ _ E)|].
  destruct (m_userRegistry s !! id) as [r|] eqn:Er; [|done]. cbn in Hl. unfold load in Hl. destruct (User_of_record r) as [u'| |] eqn:E'; [|done|done].
  injection Hl as <-. apply User_of_record_inv in E' as (-> & _). by apply (Hr _ _ Er).
Qed.

Lemma registry_by_name_inv {R} (name_of : R -> list Z) name (m : Registry R) r : registry_by_name name_of name m = Some r ->
  (exists id, m !! id = Some r) /\ name_of r = name.
Proof.
  unfold registry_by_name. intros H. apply List.find_some in H as [Hin Hn]. split; [|by apply bool_decide_eq_true in Hn].
  apply list_elem_of_In in Hin. apply list_elem_of_fmap in Hin as ([id r'] & -> & Hin). exists id. by apply elem_of_map_to_list.
Qed.

Lemma find_user_record_inv (s : state) name r : inst_ok s -> find_user_record name (m_userRegistry s) = Some r -> m_userRegistry s !! usr_id r = Some r /\ usr_name r = name.
Proof. intros [_ [Hr _]] Hf. apply registry_by_name_inv in Hf as [[id Hid] Hn]. split; [|done]. by rewrite (Hr _ _ Hid : usr_id r = id). Qed.

(** ** Running to an end

    [after c s Q R]: [c] ends normally with [Q], otherwise the state is in [R]. *)
Definition after {A} (c : IM A) (s : state) (Q : A -> state -> Prop) (R : state -> Prop) : Prop :=
  match c s with (Ok a, s') => Q a s' | (_, s') => R s' end.

Lemma after_bind {A B} (c : IM A) (k : A -> IM B) s Q R : after c s (fun a s' => after (k a) s' Q R) R -> after (mbind c k) s Q R.
Proof. unfold after, mbind. by destruct (c s) as [[a|e|u] s']. Qed.
Lemma after_gets {A} (f : state -> A) s (Q : A -> state -> Prop) (R : state -> Prop) : Q (f s) s -> after (gets f) s Q R.
Proof. done. Qed.
Lemma after_modify f s (Q : unit -> state -> Prop) (R : state -> Prop) : Q tt (f s) -> after (modify f) s Q R.
Proof. done. Qed.
Lemma after_lift {A} (o : outcome UserError A) s (Q : A -> state -> Prop) (R : state -> Prop) : (forall a, o = Ok a -> Q a s) -> R s -> after (mlift o) s Q R.
Proof. intros HQ HR. unfold after, mlift. destruct o; auto. Qed.
Lemma after_mono {A} (c : IM A) s (Q Q' : A -> state -> Prop) (R : state -> Prop) : after c s Q R -> (forall a s', Q a s' -> Q' a s') -> after c s Q' R.
Proof. unfold after. destruct (c s) as [[a|e|u] s']; auto. Qed.

(** The system tables are not part of the accounts. *)
Lemma after_sys {A} (c : SM (system_tables T) UserError A) s (Q : A -> state -> Prop) (R : state -> Prop) :
  (forall a d, fst (c (m_systemDatabase s)) = Ok a -> Q a (with_database d s)) -> (forall d, R (with_database d s)) -> after (sys c) s Q R.
Proof. intros HQ HR. unfold after, sys, embed. destruct (c (m_systemDatabase s)) as [[a|e|u] d]; auto. Qed.

Lemma good_database c a0 s d : good c a0 s -> good c a0 (with_database d s).
Proof. done. Qed.

Lemma good_sys c a0 {A} (m : SM (system_tables T) UserError A) s (Q : A -> state -> Prop) :
  good c a0 s -> (forall a d, Q a (with_database d s)) -> after (sys m) s Q (good c a0).
Proof. intros Hg HQ. apply after_sys; auto. Qed.

(** ** Loading users *)

(** The state after some users were loaded. *)
Definition loaded (s s' : state) : Prop :=
  m_userRegistry s' = m_userRegistry s /\ m_systemDatabase s' = m_systemDatabase s /\ m_users s ⊆ m_users s' /\ accounts_of s' = accounts_of s.

Lemma loaded_refl s : loaded s s.
Proof. done. Qed.
Lemma loaded_trans s1 s2 s3 : loaded s1 s2 -> loaded s2 s3 -> loaded s1 s3.
Proof. intros (H1 & H2 & H3 & H4) (H5 & H6 & H7 & H8). split; [by rewrite H5|]. split; [by rewrite H6|]. split; [by etrans|by rewrite H8]. Qed.
Lemma loaded_good c a0 s s' : loaded s s' -> inst_ok s' -> good c a0 s -> good c a0 s'.
Proof. intros (_ & _ & _ & H) Hi [_ Hg]. split; [done|]. by rewrite H. Qed.

Lemma after_load r s (Q : User -> state -> Prop) (R : state -> Prop) : inst_ok s -> m_userRegistry s !! usr_id r = Some r -> R s ->
  (forall u s', inst_ok s' -> loaded s s' -> m_users s' !! usr_id r = Some u -> us_id u = usr_id r -> Q u s') -> after (findUserUnlocked_record r) s Q R.
Proof.
  intros Hi Hr HR HQ. unfold findUserUnlocked_record. apply after_bind. apply after_gets.
  destruct (m_users s !! usr_id r) as [u|] eqn:E; [apply HQ; [done|done|done|by apply (proj1 Hi)]|].
  apply after_bind. apply after_lift; [|done]. intros u Hu. pose proof (User_of_record_inv _ _ Hu) as (Hid & _). apply HQ; [| | |done].
  - destruct Hi as [Hus Hreg]. split; [|done]. cbn. rewrite Hid, E. apply map_Forall_insert_2; [by split; [|exists r]|done].
  - split; [done|]. split; [done|]. cbn. rewrite Hid, E. split; [by apply insert_subseteq|]. apply map_eq. intros id. rewrite !accounts_lookup. cbn. rewrite ?Hid, ?E.
    destruct (decide (usr_id r = id)) as [<-|Hne]; [|by rewrite lookup_insert_ne]. rewrite lookup_insert, decide_True by done. rewrite E, Hr. cbn. unfold load. by rewrite Hu.
  - cbn. by rewrite Hid, E, lookup_insert, decide_True.
Qed.

Lemma after_find_id id s (Q : User -> state -> Prop) (R : state -> Prop) : inst_ok s -> R s ->
  (forall u s', inst_ok s' -> loaded s s' -> m_users s' !! id = Some u -> us_id u = id -> Q u s') -> after (findUserChecked_id id) s Q R.
Proof.
  intros Hi HR HQ. apply after_bind. unfold findUserUnlocked_id. apply after_bind. apply after_gets. destruct (m_userRegistry s !! id) as [r|] eqn:E; [|done].
  assert (Hid : usr_id r = id) by (by apply (proj1 (proj2 Hi))). apply after_bind. apply after_load; [done|by rewrite Hid|done|]. intros u s' H1 H2 H3 H4. cbn.
  rewrite Hid in *. by apply HQ.
Qed.

Lemma after_find_name name s (Q : User -> state -> Prop) (R : state -> Prop) : inst_ok s -> R s ->
  (forall u s', inst_ok s' -> loaded s s' -> m_users s' !! us_id u = Some u -> Q u s') -> after (findUserChecked name) s Q R.
Proof.
  intros Hi HR HQ. apply after_bind. unfold findUserUnlocked. apply after_bind. apply after_gets. destruct (find_user_record name (m_userRegistry s)) as [r|] eqn:E; [|done].
  apply find_user_record_inv in E as [E _]; [|done]. apply after_bind. apply after_load; [done|done|done|]. intros u s' H1 H2 H3 H4. cbn. apply HQ; [done|done|by rewrite H4].
Qed.

Lemma after_require c ty mask s (Q : unit -> state -> Prop) (R : state -> Prop) : inst_ok s -> R s -> (forall s', loaded s s' -> inst_ok s' -> R s') ->
  (forall s', inst_ok s' -> loaded s s' -> allowed c ty mask (accounts_of s') -> Q tt s') -> after (require ty mask c) s Q R.
Proof.
  intros Hi HR HR' HQ. apply after_bind. apply after_find_id; [done|done|]. intros u s' H1 H2 H3 H4. destruct (hasPermissions _ mask false u) eqn:E; [|by apply HR'].
  apply HQ; [done|done|]. exists u. split; [|done]. by rewrite accounts_lookup, H3.
Qed.

(** The record and the object of a user that a request names. *)
Lemma after_record name s (Q : UserRecord -> state -> Prop) (R : state -> Prop) : inst_ok s -> R s ->
  (forall r, m_userRegistry s !! usr_id r = Some r -> usr_name r = name -> Q r s) -> after (user_record_checked name) s Q R.
Proof.
  intros Hi HR HQ. unfold user_record_checked. apply after_bind. apply after_gets. destruct (find_user_record name (m_userRegistry s)) as [r|] eqn:E; [|done].
  apply find_user_record_inv in E as [? ?]; [|done]. by apply HQ.
Qed.

(** ** Changes of one user *)

Lemma lookup_loaded s id u : m_users s !! id = Some u -> accounts_of s !! id = Some u.
Proof. intros H. by rewrite accounts_lookup, H. Qed.

Lemma accounts_change (s : state) id f u : m_users s !! id = Some u -> accounts_of (with_users (alter f id) s) = <[id := f u]> (accounts_of s).
Proof.
  intros Hu. apply map_eq. intros j. rewrite accounts_lookup. cbn. destruct (decide (id = j)) as [<-|Hne].
  - by rewrite lookup_alter, decide_True, Hu, lookup_insert, decide_True.
  - rewrite lookup_alter_ne, lookup_insert_ne by done. by rewrite accounts_lookup.
Qed.

Lemma inst_change (s : state) id f u : inst_ok s -> m_users s !! id = Some u -> us_id (f u) = us_id u -> inst_ok (with_users (alter f id) s).
Proof.
  intros [Hu Hr] Hl Hid. split; [|done]. intros j u' Hj. cbn in Hj. destruct (decide (id = j)) as [<-|Hne].
  - rewrite lookup_alter, decide_True, Hl in Hj by done. injection Hj as <-. rewrite Hid. by apply (Hu _ _ Hl).
  - rewrite lookup_alter_ne in Hj by done. by apply (Hu _ _ Hj).
Qed.

(** A step on the object of a loaded user. *)
Lemma good_change c a0 (s : state) id f u : good c a0 s -> m_users s !! id = Some u -> us_id (f u) = us_id u ->
  account_step c (accounts_of s) (<[id := f u]> (accounts_of s)) -> good c a0 (with_users (alter f id) s).
Proof. intros [Hi Hg] Hl Hid Hs. split; [by eapply inst_change|]. rewrite (accounts_change _ _ _ _ Hl). by eapply rtc_r. Qed.

(** Records of loaded users are not part of the accounts. *)
Lemma good_record c a0 (s : state) id f : good c a0 s -> is_Some (m_users s !! id) -> (forall r, usr_id (f r) = usr_id r /\ usr_name (f r) = usr_name r) ->
  good c a0 (with_registry (alter f id) s).
Proof.
  intros [[Hu [Hr Hn]] Hg] [u Hl] Hf. assert (Hlk : forall j r', alter f id (m_userRegistry s) !! j = Some r' -> exists r, m_userRegistry s !! j = Some r /\ usr_id r' = usr_id r /\ usr_name r' = usr_name r).
  { intros j r'. destruct (decide (id = j)) as [<-|Hne]; [|rewrite lookup_alter_ne by done; by eauto]. rewrite lookup_alter, decide_True by done.
    destruct (m_userRegistry s !! id) as [r|]; [|done]. intros [= <-]. exists r. by destruct (Hf r). }
  split; [split; [|split]|].
  - intros j u' Hj. destruct (Hu _ _ Hj) as [? Hs]. split; [done|]. cbn. destruct (decide (id = j)) as [<-|Hne]; [|by rewrite lookup_alter_ne].
    rewrite lookup_alter, decide_True by done. by apply fmap_is_Some.
  - intros j r' Hj. destruct (Hlk _ _ Hj) as (r & Hj' & Hid & _). cbn. rewrite Hid. by apply (Hr _ _ Hj').
  - intros i j r r' Hi Hj Hne. destruct (Hlk _ _ Hi) as (r1 & Hi' & _ & Hn1). destruct (Hlk _ _ Hj) as (r2 & Hj' & _ & Hn2). cbn. rewrite Hn1, Hn2.
    exact (Hn _ _ _ _ Hi' Hj' Hne).
  - replace (accounts_of (with_registry (alter f id) s)) with (accounts_of s); [done|]. apply map_eq. intros j. rewrite !accounts_lookup. cbn.
    destruct (decide (id = j)) as [<-|Hne]; [by rewrite Hl|by rewrite lookup_alter_ne].
Qed.

(** The permission of a request does not depend on what it changes. *)
Lemma allowed_change c ty mask a id u u' : allowed c ty mask a -> a !! id = Some u -> us_id u' = us_id u -> us_grantedPermissions u' = us_grantedPermissions u ->
  allowed c ty mask (<[id := u']> a).
Proof.
  intros (cu & Hcu & Hp) Hu Hid Hperm. destruct (decide (id = c)) as [<-|Hne]; [|exists cu; by rewrite lookup_insert_ne].
  rewrite Hcu in Hu. injection Hu as ->. exists u'. rewrite lookup_insert, decide_True by done. split; [done|]. revert Hp. unfold hasPermissions, isSuperUser. by rewrite Hid, Hperm.
Qed.

(** A computation that takes steps from [a0], however it ends. *)
Definition steps (c : Z) (a0 : accounts) {A} (m : IM A) (s : state) : Prop := after m s (fun _ s' => good c a0 s') (good c a0).

(** The user [id] is loaded and may be changed. *)
Definition ready (c : Z) (a0 : accounts) (ty mask id : Z) (P : User -> Prop) (s : state) : Prop :=
  good c a0 s /\ allowed c ty mask (accounts_of s) /\ exists u, m_users s !! id = Some u /\ us_id u = id /\ P u.

Lemma ready_good c a0 ty mask id P s : ready c a0 ty mask id P s -> good c a0 s.
Proof. by intros [? _]. Qed.

Lemma ready_change c a0 ty mask id (P P' : User -> Prop) f (s : state) : ready c a0 ty mask id P s ->
  (forall u, P u -> us_id u = id -> user_change ty mask u (f u) /\ P' (f u)) -> ready c a0 ty mask id P' (with_users (alter f id) s).
Proof.
  intros (Hg & Hal & u & Hu & Hid & HP) Hf. destruct (Hf u HP Hid) as [Hc HP']. pose proof (user_change_frame _ _ _ _ Hc) as (Hid' & _ & Hperm).
  pose proof (lookup_loaded _ _ _ Hu) as Ha. split; [|split].
  - eapply good_change; [done|done|done|]. by eapply step_change.
  - rewrite (accounts_change _ _ _ _ Hu). by eapply allowed_change.
  - exists (f u). cbn. rewrite lookup_alter, decide_True, Hu by done. split; [done|]. by rewrite Hid'.
Qed.

Lemma ready_record c a0 ty mask id P f (s : state) : ready c a0 ty mask id P s -> (forall r, usr_id (f r) = usr_id r /\ usr_name (f r) = usr_name r) ->
  ready c a0 ty mask id P (with_registry (alter f id) s).
Proof.
  intros (Hg & Hal & u & Hu & Hid & HP) Hf. pose proof (good_record c a0 s id f Hg (ex_intro _ _ Hu) Hf) as Hg'. split; [done|]. split; [|by exists u].
  replace (accounts_of (with_registry (alter f id) s)) with (accounts_of s); [done|]. apply map_eq. intros j. rewrite !accounts_lookup. cbn.
  destruct (decide (id = j)) as [<-|Hne]; [by rewrite Hu|by rewrite lookup_alter_ne].
Qed.

(** A request on a user: the check of the permission, the record and the object. *)
Lemma after_request c a0 ty mask name {A} (k : UserRecord -> User -> IM A) s : good c a0 s ->
  (forall r u s', ready c a0 ty mask (usr_id r) (eq u) s' -> us_id u = usr_id r -> steps c a0 (k r u) s') ->
  steps c a0 (require ty mask c ;;' r <-- user_record_checked name ;; u <-- findUserUnlocked_record r ;; k r u) s.
Proof.
  intros Hg Hk. apply after_bind. apply after_require; [by apply Hg|done|intros; by eapply loaded_good|]. intros s1 Hi1 Hl1 Hal1. pose proof (loaded_good _ _ _ _ Hl1 Hi1 Hg) as Hg1.
  apply after_bind. apply after_record; [done|done|]. intros r Hr _. apply after_bind. apply after_load; [done|done|done|]. intros u s2 Hi2 Hl2 Hu Hid.
  apply Hk; [|done]. split; [by eapply loaded_good|]. split; [by rewrite (proj2 (proj2 (proj2 Hl2)))|]. by exists u.
Qed.

(** The same, where the key or token of the request is looked up first. *)
Lemma after_request_item c a0 ty mask name {A B} (find : UserRecord -> option B) (none : UserRecord -> IM A) (k : UserRecord -> B -> User -> IM A) s : good c a0 s ->
  (forall r s', good c a0 s' -> steps c a0 (none r) s') ->
  (forall r b u s', ready c a0 ty mask (usr_id r) (eq u) s' -> us_id u = usr_id r -> steps c a0 (k r b u) s') ->
  steps c a0 (require ty mask c ;;' r <-- user_record_checked name ;;
              match find r with None => none r | Some b => u <-- findUserUnlocked_record r ;; k r b u end) s.
Proof.
  intros Hg Hn Hk. apply after_bind. apply after_require; [by apply Hg|done|intros; by eapply loaded_good|]. intros s1 Hi1 Hl1 Hal1. pose proof (loaded_good _ _ _ _ Hl1 Hi1 Hg) as Hg1.
  apply after_bind. apply after_record; [done|done|]. intros r Hr _. destruct (find r) as [b|]; [|by apply Hn].
  apply after_bind. apply after_load; [done|done|done|]. intros u s2 Hi2 Hl2 Hu Hid.
  apply Hk; [|done]. split; [by eapply loaded_good|]. split; [by rewrite (proj2 (proj2 (proj2 Hl2)))|]. by exists u.
Qed.

(** Steps of a computation. *)
Lemma steps_bind c a0 {A B} (m : IM A) (k : A -> IM B) (P : state -> Prop) s : after m s (fun _ => P) (good c a0) -> (forall a s', P s' -> steps c a0 (k a) s') -> steps c a0 (mbind m k) s.
Proof. intros Hm Hk. apply after_bind. eapply after_mono; [exact Hm|]. intros a s' HP. by apply Hk. Qed.
Lemma steps_sys c a0 {A} (m : SM (system_tables T) UserError A) s : good c a0 s -> steps c a0 (sys m) s.
Proof. intros Hg. by apply good_sys. Qed.
Lemma after_change_if c a0 {A} (b : bool) (p : option A) (f : A -> IM unit) (P P' : state -> Prop) s : P s -> (forall s', P s' -> P' s') ->
  (forall a, after (f a) s (fun _ => P') (good c a0)) -> after (change_if b p f) s (fun _ => P') (good c a0).
Proof. intros HP HPP Hf. unfold change_if. destruct b; [destruct p; [done|]|]; by apply HPP. Qed.

Lemma steps_for_each c a0 {A} (l : list A) (f : A -> IM unit) s : good c a0 s -> (forall a s', good c a0 s' -> steps c a0 (f a) s') -> steps c a0 (for_each l f) s.
Proof.
  intros Hg Hf. revert s Hg. induction l as [|a l IH]; intros s Hg; [done|]. cbn. eapply steps_bind; [by apply Hf|]. intros _ s' Hg'. by apply IH.
Qed.

(** ** Requests *)

Lemma updateUser_steps c a0 env name params s : good c a0 s -> steps c a0 (updateUser env name params c) s.
Proof.
  intros Hg. apply (after_request c a0 _ _ name (fun r u => _) s Hg). clear s Hg. intros r u s Hr Hid. cbv zeta. rewrite Hid. destruct (_ && _); [by eapply ready_good|].
  set (P := fun u' => isSuperUser u' = isSuperUser u). assert (Hr' : ready c a0 DatabaseObjectType.kUser kAlterPermissionMask (usr_id r) P s).
  { destruct Hr as (? & ? & u' & ? & ? & <-). split; [done|]. split; [done|]. by exists u. }
  eapply (steps_bind _ _ _ _ (ready c a0 DatabaseObjectType.kUser kAlterPermissionMask (usr_id r) P)).
  { apply (after_change_if c a0 _ _ _ _ _ s Hr'); [done|]. intros n. apply (ready_record _ _ _ _ _ P _ (with_users _ s)); [|done].
    apply (ready_change _ _ _ _ _ P); [done|]. intros u' HP _. split; [constructor|done]. }
  clear s Hr Hr'. intros _ s Hr. eapply (steps_bind _ _ _ _ (ready c a0 DatabaseObjectType.kUser kAlterPermissionMask (usr_id r) P)).
  { apply (after_change_if c a0 _ _ _ _ _ s Hr); [done|]. intros n. apply (ready_record _ _ _ _ _ P _ (with_users _ s)); [|done].
    apply (ready_change _ _ _ _ _ P); [done|]. intros u' HP _. split; [constructor|done]. }
  clear s Hr. intros _ s Hr. eapply (steps_bind _ _ _ _ (good c a0)); [|intros _ s' Hg; by apply steps_sys].
  apply (after_change_if c a0 _ _ _ _ _ s Hr); [apply ready_good|]. intros b. destruct ((usr_id r =? kSuperUserId) && negb b) eqn:E; [by eapply ready_good|].
  eapply ready_good. apply (ready_record _ _ _ _ _ (fun _ => True) _ (with_users _ s)); [|done]. apply (ready_change _ _ _ _ _ P); [done|].
  intros u' HP Hid'. split; [|done]. constructor. unfold isSuperUser. by rewrite Hid'.
Qed.

Lemma createUserAccessKey_steps c a0 env name key text d b s : good c a0 s -> steps c a0 (createUserAccessKey env name key text d b c) s.
Proof.
  intros Hg. apply (after_request c a0 _ _ name (fun r u => _) s Hg). clear s Hg. intros r u s Hr Hid. rewrite Hid.
  eapply (steps_bind _ _ _ _ (ready c a0 DatabaseObjectType.kUserAccessKey kCreatePermissionMask (usr_id r) (eq u))); [by apply good_sys; [by eapply ready_good|]|].
  clear s Hr. intros id s Hr. apply after_bind. apply after_lift; [|by eapply ready_good]. intros [k u'] Hk. apply after_bind. apply after_modify.
  assert (Hr' : ready c a0 DatabaseObjectType.kUserAccessKey kCreatePermissionMask (usr_id r) (eq u') (with_users (alter (fun _ => u') (usr_id r)) s)).
  { apply (ready_change _ _ _ _ _ (eq u)); [done|]. intros ? <- _. split; [by econstructor|done]. }
  revert Hr'. generalize (with_users (alter (fun _ => u') (usr_id r)) s). clear s Hr. intros s Hr. apply after_bind. apply after_modify. apply after_bind. apply after_modify.
  eapply (steps_bind _ _ _ _ (good c a0)); [apply steps_sys|].
  - eapply ready_good. by apply (ready_record _ _ _ _ _ _ _ (with_keyIds _ s) Hr).
  - intros tp s' Hg. eapply (steps_bind _ _ _ _ (good c a0)); [by apply steps_sys|]. done.
Qed.

Lemma dropUserAccessKey_steps c a0 env name key m s : good c a0 s -> steps c a0 (dropUserAccessKey env name key m c) s.
Proof.
  intros Hg. apply (after_request_item c a0 _ _ name (fun r => registry_by_name uak_name key (usr_accessKeys r)) _ (fun r kr u => _) s Hg); clear s Hg.
  - intros r s Hg. unfold steps, after. by destruct m.
  - intros r kr u s Hr Hid. rewrite Hid. apply after_bind. apply after_modify. apply after_bind. apply after_modify. apply after_bind.
    pose proof (ready_record _ _ _ _ _ _ (map_accessKeys (delete (uak_id kr))) s Hr (fun _ => conj eq_refl eq_refl)) as Hr1. revert Hr1.
    generalize (with_registry (alter (map_accessKeys (delete (uak_id kr))) (usr_id r)) s). clear s Hr. intros s Hr. apply after_lift; [|by eapply ready_good].
    intros u' Hu'. apply after_bind. apply after_modify. apply steps_sys. eapply ready_good. apply (ready_change _ _ _ _ _ (eq u) (fun _ => True)); [done|]. intros ? <- _. split; [by econstructor|done].
Qed.

Lemma updateUserAccessKey_steps c a0 env name key params s : good c a0 s -> steps c a0 (updateUserAccessKey env name key params c) s.
Proof.
  intros Hg. apply (after_request_item c a0 _ _ name (fun r => registry_by_name uak_name key (usr_accessKeys r)) _ (fun r kr u => _) s Hg); clear s Hg; [done|].
  intros r kr u s Hr Hid. apply after_bind. apply after_lift; [|by eapply ready_good]. intros k Hk. cbv zeta. rewrite Hid. destruct (_ && _); [by eapply ready_good|].
  set (P := fun u' => isSuperUser u' = isSuperUser u /\ getActiveAccessKeyCount u' = getActiveAccessKeyCount u).
  assert (Hr' : ready c a0 DatabaseObjectType.kUserAccessKey kAlterPermissionMask (usr_id r) P s).
  { destruct Hr as (? & ? & u' & ? & ? & <-). split; [done|]. split; [done|]. by exists u. }
  eapply (steps_bind _ _ _ _ (ready c a0 DatabaseObjectType.kUserAccessKey kAlterPermissionMask (usr_id r) P)).
  { apply (after_change_if c a0 _ _ _ _ _ s Hr'); [done|]. intros n. apply (ready_record _ _ _ _ _ P _ (with_users _ s)); [|done].
    apply (ready_change _ _ _ _ _ P); [done|]. intros u' [HP1 HP2] _. split; [constructor|]. split; [done|]. unfold getActiveAccessKeyCount in *. cbn. by rewrite update_first_active. }
  clear s Hr Hr'. intros _ s Hr. eapply (steps_bind _ _ _ _ (good c a0)); [|intros _ s' Hg; by apply steps_sys].
  apply (after_change_if c a0 _ _ _ _ _ s Hr); [apply ready_good|]. intros b. destruct (isSuperUser u && negb b && (getActiveAccessKeyCount u =? 1)) eqn:E; [by eapply ready_good|].
  eapply ready_good. apply (ready_change _ _ _ _ _ P (fun _ => True) _ (with_registry _ s)); [by apply ready_record|].
  intros u' [HP1 HP2] _. split; [|done]. constructor. by rewrite HP1, HP2.
Qed.

Lemma createUserToken_steps c a0 env name token value d e s : good c a0 s -> steps c a0 (createUserToken env name token value d e c) s.
Proof.
  intros Hg. apply (after_request c a0 _ _ name (fun r u => _) s Hg). clear s Hg. intros r u s Hr Hid. rewrite Hid.
  eapply (steps_bind _ _ _ _ (ready c a0 DatabaseObjectType.kUserToken kCreatePermissionMask (usr_id r) (eq u))); [by apply good_sys; [by eapply ready_good|]|].
  clear s Hr. intros id s Hr. apply after_bind. apply after_lift; [|by eapply ready_good]. intros [v draws] _. apply after_bind. apply after_lift; [|by eapply ready_good].
  intros [t u'] Ht. apply after_bind. apply after_modify.
  assert (Hr' : ready c a0 DatabaseObjectType.kUserToken kCreatePermissionMask (usr_id r) (eq u') (with_users (alter (fun _ => u') (usr_id r)) s)).
  { apply (ready_change _ _ _ _ _ (eq u)); [done|]. intros ? <- _. split; [by econstructor|done]. }
  revert Hr'. generalize (with_users (alter (fun _ => u') (usr_id r)) s). clear s Hr. intros s Hr. apply after_bind. apply after_modify. apply after_bind. apply after_modify.
  eapply (steps_bind _ _ _ _ (good c a0)); [apply steps_sys|].
  - eapply ready_good. by apply (ready_record _ _ _ _ _ _ _ (with_tokenIds _ s) Hr).
  - intros tp s' Hg. eapply (steps_bind _ _ _ _ (good c a0)); [by apply steps_sys|]. done.
Qed.

Lemma dropUserToken_steps c a0 env name token m s : good c a0 s -> steps c a0 (dropUserToken env name token m c) s.
Proof.
  intros Hg. apply (after_request_item c a0 _ _ name (fun r => registry_by_name utk_name token (usr_tokens r)) _ (fun r kr u => _) s Hg); clear s Hg.
  - intros r s Hg. unfold steps, after. by destruct m.
  - intros r kr u s Hr Hid. rewrite Hid. apply after_bind. apply after_modify. apply after_bind. apply after_modify. apply after_bind.
    pose proof (ready_record _ _ _ _ _ _ (map_tokens (delete (utk_id kr))) s Hr (fun _ => conj eq_refl eq_refl)) as Hr1. revert Hr1.
    generalize (with_registry (alter (map_tokens (delete (utk_id kr))) (usr_id r)) s). clear s Hr. intros s Hr. apply after_lift; [|by eapply ready_good].
    intros u' Hu'. apply after_bind. apply after_modify. apply steps_sys. eapply ready_good. apply (ready_change _ _ _ _ _ (eq u) (fun _ => True)); [done|]. intros ? <- _. split; [by econstructor|done].
Qed.

Lemma updateUserToken_steps c a0 env name token params s : good c a0 s -> steps c a0 (updateUserToken env name token params c) s.
Proof.
  intros Hg. apply (after_request_item c a0 _ _ name (fun r => registry_by_name utk_name token (usr_tokens r)) _ (fun r kr u => _) s Hg); clear s Hg; [done|].
  intros r kr u s Hr Hid. apply after_bind. apply after_lift; [|by eapply ready_good]. intros k Hk. cbv zeta. rewrite Hid. destruct (_ && _); [by eapply ready_good|].
  set (P := fun _ : User => True). assert (Hr' : ready c a0 DatabaseObjectType.kUserToken kAlterPermissionMask (usr_id r) P s).
  { destruct Hr as (? & ? & u' & ? & ? & <-). split; [done|]. split; [done|]. by exists u. }
  eapply (steps_bind _ _ _ _ (ready c a0 DatabaseObjectType.kUserToken kAlterPermissionMask (usr_id r) P)).
  { apply (after_change_if c a0 _ _ _ _ _ s Hr'); [done|]. intros n. apply (ready_record _ _ _ _ _ P _ (with_users _ s)); [|done].
    apply (ready_change _ _ _ _ _ P); [done|]. intros u' _ _. split; [constructor|done]. }
  clear s Hr Hr'. intros _ s Hr. eapply (steps_bind _ _ _ _ (good c a0)); [|intros _ s' Hg; by apply steps_sys].
  apply (after_change_if c a0 _ _ _ _ _ s Hr); [apply ready_good|]. intros b. eapply ready_good. apply (ready_change _ _ _ _ _ P P _ s); [done|].
  intros u' _ _. split; [constructor|done].
Qed.

(** *** Creation and removal *)

Lemma find_user_record_none name (m : Registry UserRecord) : find_user_record name m = None -> map_Forall (fun _ r => usr_name r <> name) m.
Proof.
  intros Hn id r Hr Hname. unfold find_user_record, registry_by_name in Hn. 
  assert (Hin : List.In r (snd <$> map_to_list m)). { apply list_elem_of_In. apply list_elem_of_fmap. exists (id, r). split; [done|]. by apply elem_of_map_to_list. }
  pose proof (List.find_none _ _ Hn r Hin) as H. cbv beta in H. by rewrite bool_decide_eq_true_2 in H.
Qed.

Lemma new_user_record id name realName d b u : isValidDatabaseObjectName name = true -> new_User id name realName d b = Ok u -> User_of_record (UserRecord_of u) = Ok u.
Proof.
  intros Hv ->%new_User_inv. unfold User_of_record, validate_name. cbn. rewrite Hv. cbn. destruct TV as [byId' byOther Hb Ho]. cbn.
  assert (Hnil : forall R, byId' R ∅ = []). { intros R. apply Permutation_nil_r. rewrite Hb, map_to_list_empty. done. }
  by rewrite !Hnil.
Qed.

(** The next user number is not in use. *)
Definition fresh_user_id (s : state) : Prop :=
  match fst (generateNextUserId (m_systemDatabase s)) with Ok id => m_userRegistry s !! id = None | _ => True end.

Lemma good_create c a0 (s : state) id name realName d b u : good c a0 s -> allowed c DatabaseObjectType.kUser kCreatePermissionMask (accounts_of s) ->
  m_userRegistry s !! id = None -> find_user_record name (m_userRegistry s) = None -> isValidDatabaseObjectName name = true -> new_User id name realName d b = Ok u ->
  good c a0 (with_registry (registry_insert (UserRecord_of u)) s) /\
  (forall db, good c a0 (with_users (fun m => match m !! id with Some _ => m | None => <[id := u]> m end) (with_database db (with_registry (registry_insert (UserRecord_of u)) s)))).
Proof.
  intros [[Hus Hr] Hg] Hal Hfresh Hname Hv Hu. pose proof (new_user_record _ _ _ _ _ _ Hv Hu) as Hload. pose proof (new_User_inv _ _ _ _ _ _ Hu) as Eu.
  assert (Hn : m_users s !! id = None). { destruct (m_users s !! id) eqn:E; [|done]. destruct (Hus _ _ E) as [_ [? ?]]. by rewrite Hfresh in *. }
  assert (Hins : registry_insert (UserRecord_of u) (m_userRegistry s) = <[id := UserRecord_of u]> (m_userRegistry s)).
  { unfold registry_insert. rewrite Eu at 1. cbn. rewrite Hfresh. rewrite bool_decide_eq_true_2; [by rewrite Eu|]. intros j r' Hj. apply bool_decide_eq_false.
    pose proof (find_user_record_none _ _ Hname _ _ Hj) as Hne. rewrite Eu. cbn. congruence. }
  assert (Hok : registry_ok (registry_insert (UserRecord_of u) (m_userRegistry s))).
  { apply registry_insert_ok; [|done]. intros x y. cbn. apply bool_decide_ext. split; congruence. }
  assert (Hacc : accounts_of (with_registry (registry_insert (UserRecord_of u)) s) = <[id := u]> (accounts_of s)).
  { apply map_eq. intros j. rewrite accounts_lookup. cbn. rewrite Hins. destruct (decide (id = j)) as [<-|Hne].
    - rewrite Hn, !lookup_insert, !decide_True by done. cbn. unfold load. by rewrite Hload.
    - rewrite !lookup_insert_ne by done. by rewrite accounts_lookup. }
  assert (Hstep : rtc (account_step c) a0 (<[id := u]> (accounts_of s))).
  { eapply rtc_r; [done|]. eapply step_create; [done| |done]. rewrite accounts_lookup, Hn, Hfresh. done. }
  split; [split; [split; [|done]|by rewrite Hacc]|intros db; split; [split; [|done]|]].
  - intros j u' Hj. destruct (Hus _ _ Hj) as [? Hs]. split; [done|]. cbn. rewrite Hins. apply lookup_insert_is_Some'. by right.
  - cbn. rewrite Hn. apply map_Forall_insert_2.
    + split; [by rewrite Eu|]. rewrite Hins. apply lookup_insert_is_Some'. by left.
    + intros j u' Hj. destruct (Hus _ _ Hj) as [? Hs]. split; [done|]. rewrite Hins. apply lookup_insert_is_Some'. by right.
  - replace (accounts_of _) with (<[id := u]> (accounts_of s)); [done|]. rewrite <- Hacc. apply map_eq. intros j. rewrite !accounts_lookup. cbn. rewrite Hn, Hins.
    destruct (decide (id = j)) as [<-|Hne]; [|by rewrite !lookup_insert_ne]. rewrite Hn, !lookup_insert, !decide_True by done. cbn. unfold load. by rewrite Hload.
Qed.

Lemma createUser_steps c a0 env name realName d b s : good c a0 s -> fresh_user_id s -> steps c a0 (createUser maxUsers env name realName d b c) s.
Proof.
  intros Hg Hf. apply after_bind. apply after_require; [by apply Hg|done|intros; by eapply loaded_good|]. intros s1 Hi1 Hl1 Hal1. pose proof (loaded_good _ _ _ _ Hl1 Hi1 Hg) as Hg1.
  apply after_bind. apply after_gets. destruct (_ >=? maxUsers); [done|]. destruct (find_user_record name (m_userRegistry s1)) eqn:Hname; [done|].
  destruct (isValidDatabaseObjectName name) eqn:Hv; [|done]. cbn [negb]. apply after_bind. apply after_sys; [|intros; done]. intros id db Hid.
  destruct Hl1 as (Hreg & Hdb & _ & _). assert (Hfresh : m_userRegistry s1 !! id = None). { revert Hf. unfold fresh_user_id. rewrite <- Hdb, Hid. by rewrite Hreg. }
  apply after_bind. apply after_lift; [|done]. intros u Hu. apply after_bind. apply after_modify.
  destruct (good_create c a0 (with_database db s1) id name realName d b u) as [Hg2 Hg3]; try done.
  apply after_bind. apply good_sys; [done|]. intros tp db1. apply after_bind. apply good_sys; [done|]. intros _ db2. apply after_bind. apply after_modify. apply Hg3.
Qed.

Lemma dropUser_steps c a0 env name m s : good c a0 s -> steps c a0 (dropUser env name m c) s.
Proof.
  intros Hg. apply after_bind. apply after_require; [by apply Hg|done|intros; by eapply loaded_good|]. intros s1 Hi1 Hl1 Hal1. pose proof (loaded_good _ _ _ _ Hl1 Hi1 Hg) as Hg1.
  apply after_bind. apply after_gets. destruct (find_user_record name (m_userRegistry s1)) as [r|] eqn:Hname; [|unfold after; by destruct m].
  apply find_user_record_inv in Hname as [Hr _]; [|done]. cbv zeta. destruct (usr_id r =? kSuperUserId) eqn:Hsuper; [done|]. apply Z.eqb_neq in Hsuper.
  apply after_bind. apply after_load; [done|done|done|]. intros u s2 Hi2 Hl2 Hu Hid. pose proof (loaded_good _ _ _ _ Hl2 Hi2 Hg1) as Hg2.
  apply after_bind. apply after_modify. apply after_bind. apply after_modify.
  assert (Hg3 : good c a0 (with_registry (delete (usr_id r)) (with_users (delete (usr_id r)) s2))).
  { destruct Hg2 as [[Hus [Hr1 Hr2]] Hg2]. split; [split; [|split]|].
    - cbn. intros j u' [Hne Hj]%lookup_delete_Some. destruct (Hus _ _ Hj) as [? ?]. split; [done|]. by rewrite lookup_delete_ne.
    - cbn. intros j r' [_ Hj]%lookup_delete_Some. by apply (Hr1 _ _ Hj).
    - cbn [m_userRegistry with_registry with_users]. intros i j r1 r2 [_ H1]%lookup_delete_Some [_ H2]%lookup_delete_Some. by apply (Hr2 i j).
    - replace (accounts_of _) with (delete (usr_id r) (accounts_of s2)).
      + eapply rtc_r; [done|]. apply step_drop; [|done]. by rewrite (proj2 (proj2 (proj2 Hl2))).
      + apply map_eq. intros j. rewrite accounts_lookup. cbn. destruct (decide (usr_id r = j)) as [<-|Hne]; [by rewrite !lookup_delete, !decide_True|].
        rewrite !lookup_delete_ne by done. by rewrite accounts_lookup. }
  eapply (steps_bind _ _ _ _ (good c a0)); [apply steps_for_each; [done|]; intros; by apply steps_sys|]. intros _ s3 Hg4.
  eapply (steps_bind _ _ _ _ (good c a0)); [apply steps_for_each; [done|]; intros; by apply steps_sys|]. intros _ s4 Hg5. by apply steps_sys.
Qed.

(** *** Permissions *)

(** The check that the current user may grant, and the object of the user. *)
Lemma after_granter c a0 id k p {A} (f : User -> IM A) s : good c a0 s ->
  (forall u s', good c a0 s' -> allowed_to_grant c k p (accounts_of s') -> m_users s' !! id = Some u -> steps c a0 (f u) s') ->
  steps c a0 (cu <-- findUserChecked_id c ;;
              if negb (hasPermissions k p true cu) then mthrow PermissionDenied else
              registry <-- gets m_userRegistry ;;
              match registry !! id with None => mthrow (UserDoesNotExist_id id) | Some _ => u <-- user_object id ;; f u end) s.
Proof.
  intros Hg Hf. apply after_bind. apply after_find_id; [by apply Hg|done|]. intros cu s1 Hi1 Hl1 Hcu _. pose proof (loaded_good _ _ _ _ Hl1 Hi1 Hg) as Hg1.
  destruct (hasPermissions k p true cu) eqn:Hp; [|done]. cbn [negb]. apply after_bind. apply after_gets. destruct (m_userRegistry s1 !! id) as [r0|]; [|done].
  apply after_bind. unfold user_object. apply after_bind. apply after_gets. destruct (m_users s1 !! id) as [u|] eqn:Hu; [|done]. apply Hf; [done| |done].
  exists cu. split; [by apply lookup_loaded|done].
Qed.

Lemma grant_steps c a0 env id db ty obj p g s : good c a0 s -> steps c a0 (grantObjectPermissionsToUserUnlocked env id db ty obj p g c) s.
Proof.
  intros Hg. unfold grantObjectPermissionsToUserUnlocked. apply after_bind. apply after_lift; [|done]. intros [] Hv. unfold validatePermissions in Hv.
  destruct (isValidPermissions ty p) eqn:Hval; [|done]. clear Hv. cbv zeta. set (k := {| pk_databaseId := db; pk_objectType := ty; pk_objectId := obj |}).
  apply (after_granter c a0 id k p); [done|]. clear s Hg. intros u s Hg Hal Hu. destruct (grantPermissions k p g u) as [data u'] eqn:Eg.
  assert (Eu' : u' = snd (grantPermissions k p g u)) by by rewrite Eg. apply after_bind. apply after_modify.
  assert (Hg1 : good c a0 (with_users (alter (fun _ => u') id) s)).
  { apply (good_change _ _ _ _ _ u); [done|done|rewrite Eu'; apply grant_frame|]. rewrite Eu'. apply step_grant; [done|done|]. by apply lookup_loaded. }
  assert (Hu1 : m_users (with_users (alter (fun _ => u') id) s) !! id = Some u') by (cbn; by rewrite lookup_alter, decide_True, Hu).
  revert Hg1 Hu1. generalize (with_users (alter (fun _ => u') id) s). clear s Hg Hal Hu. intros s Hg Hu. destruct (negb (pd_id data =? 0)).
  - apply after_bind. apply good_sys; [done|]. intros _ d. apply (good_record _ _ (with_database d s)); [done|by exists u'|done].
  - apply after_bind. apply good_sys; [done|]. intros tp d1. apply after_bind. apply good_sys; [done|]. intros pid d2. apply after_bind. apply after_modify.
    apply good_record; [|cbn; rewrite lookup_alter, decide_True, Hu by done; by eexists|done].
    apply (good_change _ _ (with_database d2 (with_database d1 s)) _ _ u'); [done|done|apply record_frame|]. apply step_record. by apply lookup_loaded.
Qed.

Lemma revoke_steps c a0 env id db ty obj p s : good c a0 s -> steps c a0 (revokeObjectPermissionsFromUserUnlocked env id db ty obj p c) s.
Proof.
  intros Hg. unfold revokeObjectPermissionsFromUserUnlocked. apply (steps_bind _ _ _ _ (good c a0)).
  { destruct (p =? kAllPermissionsForRevoke); [done|]. by apply after_lift. }
  clear s Hg. intros _ s Hg. cbv zeta. set (k := {| pk_databaseId := db; pk_objectType := ty; pk_objectId := obj |}).
  apply (after_granter c a0 id k p); [done|]. clear s Hg. intros u s Hg Hal Hu. destruct (revokePermissions k p u) as [result u'] eqn:Eg.
  assert (Eu' : u' = snd (revokePermissions k p u)) by by rewrite Eg. apply after_bind. apply after_modify.
  assert (Hg1 : good c a0 (with_users (alter (fun _ => u') id) s)).
  { apply (good_change _ _ _ _ _ u); [done|done|rewrite Eu'; apply revoke_frame|]. rewrite Eu'. apply step_revoke; [done|]. by apply lookup_loaded. }
  assert (Hu1 : m_users (with_users (alter (fun _ => u') id) s) !! id = Some u') by (cbn; by rewrite lookup_alter, decide_True, Hu).
  revert Hg1 Hu1. generalize (with_users (alter (fun _ => u') id) s). clear s Hg Hal Hu. intros s Hg Hu. destruct result as [[data [|]]|]; [| |done].
  - apply after_bind. apply good_sys; [done|]. intros _ d. apply (good_record _ _ (with_database d s)); [done|by exists u'|done].
  - apply after_bind. apply good_sys; [done|]. intros _ d. apply (good_record _ _ (with_database d s)); [done|by exists u'|done].
Qed.

(** *** All requests *)

Inductive Request : Type :=
| CreateUser (name : list Z) (realName description : option (list Z)) (active : bool)
| DropUser (name : list Z) (userMustExist : bool)
| UpdateUser (name : list Z) (params : UpdateUserParameters)
| CreateUserAccessKey (userName keyName text : list Z) (description : option (list Z)) (active : bool)
| DropUserAccessKey (userName keyName : list Z) (mustExist : bool)
| UpdateUserAccessKey (userName keyName : list Z) (params : UpdateUserAccessKeyParameters)
| CreateUserToken (userName tokenName : list Z) (value description : option (list Z)) (expirationTimestamp : option Z)
| DropUserToken (userName tokenName : list Z) (mustExist : bool)
| UpdateUserToken (userName tokenName : list Z) (params : UpdateUserTokenParameters)
| CheckUserToken (userName tokenName value : list Z)
| GrantObjectPermissions (userId databaseId objectType objectId permissions : Z) (withGrantOption : bool)
| GrantTablePermissions (userName databaseName tableName : list Z) (permissions : Z) (withGrantOption : bool)
| RevokeTablePermissions (userName databaseName tableName : list Z) (permissions : Z)
| RevokeAllObjectPermissions (databaseId objectType objectId : Z)
| Authenticate (userName signature challenge : list Z) (uuids : list (list Z))
| AuthenticateToken (userName token : list Z)
| EndSession (uuid : list Z).

Definition handle (env : request_env) (c : Z) (r : Request) : IM unit :=
  match r with
  | CreateUser name realName description active => createUser maxUsers env name realName description active c ;;' mret tt
  | DropUser name userMustExist => dropUser env name userMustExist c
  | UpdateUser name params => updateUser env name params c
  | CreateUserAccessKey userName keyName text description active => createUserAccessKey env userName keyName text description active c ;;' mret tt
  | DropUserAccessKey userName keyName mustExist => dropUserAccessKey env userName keyName mustExist c
  | UpdateUserAccessKey userName keyName params => updateUserAccessKey env userName keyName params c
  | CreateUserToken userName tokenName value description e => createUserToken env userName tokenName value description e c ;;' mret tt
  | DropUserToken userName tokenName mustExist => dropUserToken env userName tokenName mustExist c
  | UpdateUserToken userName tokenName params => updateUserToken env userName tokenName params c
  | CheckUserToken userName tokenName value => checkUserToken env userName tokenName value
  | GrantObjectPermissions userId databaseId objectType objectId permissions g =>
      grantObjectPermissionsToUser env userId databaseId objectType objectId permissions g c
  | GrantTablePermissions userName databaseName tableName permissions g => grantTablePermissionsToUser databases env userName databaseName tableName permissions g c
  | RevokeTablePermissions userName databaseName tableName permissions => revokeTablePermissionsFromUser databases env userName databaseName tableName permissions c
  | RevokeAllObjectPermissions databaseId objectType objectId => revokeAllObjectPermissionsFromAllUsers env databaseId objectType objectId c
  | Authenticate userName signature challenge uuids => authenticateUser uuids userName signature challenge ;;' mret tt
  | AuthenticateToken userName token => authenticateUser_token env userName token ;;' mret tt
  | EndSession uuid => endSession uuid
  end.

Lemma steps_unit c a0 {A} (m : IM A) s : steps c a0 m s -> steps c a0 (m ;;' mret tt) s.
Proof. intros H. by apply (steps_bind _ _ _ _ (good c a0)). Qed.

Lemma find_name_steps c a0 name {A} (f : User -> IM A) s : good c a0 s -> (forall u s', good c a0 s' -> steps c a0 (f u) s') -> steps c a0 (u <-- findUserChecked name ;; f u) s.
Proof.
  intros Hg Hf. apply after_bind. apply after_find_name; [by apply Hg|done|]. intros u s' Hi Hl _. apply Hf. by eapply loaded_good.
Qed.

Lemma beginSession_steps c a0 uuids s : good c a0 s -> steps c a0 (beginSession uuids) s.
Proof.
  intros Hg. induction uuids as [|uuid uuids IH]; [done|]. cbn. apply after_bind. apply after_gets. by destruct (bool_decide _).
Qed.

Lemma checkUserToken_steps c a0 env name token value s : good c a0 s -> steps c a0 (checkUserToken env name token value) s.
Proof.
  intros Hg. apply after_bind. apply after_record; [by apply Hg|done|]. intros r Hr _. destruct (registry_by_name _ _ _) as [tr|]; [|done].
  apply after_bind. apply after_load; [by apply Hg|done|done|]. intros u s' Hi Hl _ _. pose proof (loaded_good _ _ _ _ Hl Hi Hg) as Hg'.
  apply after_bind. apply after_lift; [|done]. intros t _. apply after_bind. apply after_lift; [|done]. by intros [|] _.
Qed.

Lemma handle_steps c a0 env r s : good c a0 s -> fresh_user_id s -> steps c a0 (handle env c r) s.
Proof.
  intros Hg Hf. destruct r; cbn [handle].
  - apply steps_unit. by apply createUser_steps.
  - by apply dropUser_steps.
  - by apply updateUser_steps.
  - apply steps_unit. by apply createUserAccessKey_steps.
  - by apply dropUserAccessKey_steps.
  - by apply updateUserAccessKey_steps.
  - apply steps_unit. by apply createUserToken_steps.
  - by apply dropUserToken_steps.
  - by apply updateUserToken_steps.
  - by apply checkUserToken_steps.
  - apply after_bind. apply after_find_id; [by apply Hg|done|]. intros u s' Hi Hl _ _. apply grant_steps. by eapply loaded_good.
  - apply find_name_steps; [done|]. intros u s' Hg'. apply after_bind. apply after_lift; [|done]. intros [dbId tableId] _. by apply grant_steps.
  - apply find_name_steps; [done|]. intros u s' Hg'. apply after_bind. apply after_lift; [|done]. intros [dbId tableId] _. by apply revoke_steps.
  - apply after_bind. apply after_gets. apply steps_for_each; [done|]. intros u s' Hg'. by apply revoke_steps.
  - apply steps_unit. apply find_name_steps; [done|]. intros u s' Hg'. destruct (negb _); [done|]. apply (steps_bind _ _ _ _ (good c a0)); [by apply beginSession_steps|done].
  - apply steps_unit. apply find_name_steps; [done|]. intros u s' Hg'. apply after_bind. apply after_lift; [|done]. by intros [|] _.
  - apply after_bind. apply after_gets. by destruct (bool_decide _).
Qed.

Lemma handle_good env c r (s : state) : inst_ok s -> fresh_user_id s -> good c (accounts_of s) (snd (handle env c r s)).
Proof.
  intros Hi Hf. pose proof (handle_steps c (accounts_of s) env r s (conj Hi (rtc_refl _ _)) Hf) as H. unfold steps, after in H.
  by destruct (handle env c r s) as [[a|e|u] s'].
Qed.

(** C18: Whatever a request does and however it ends, the accounts change by steps
    of the abstract machine only, each with the permission it needs: creation and
    removal of users, changes of keys, tokens and profiles, grants of permissions
    that the requesting user may grant. *)
Theorem request_refines_steps env c r (s s' : state) o : inst_ok s -> fresh_user_id s -> handle env c r s = (o, s') ->
  inst_ok s' /\ rtc (account_step c) (accounts_of s) (accounts_of s').
Proof. intros Hi Hf H. pose proof (handle_good env c r s Hi Hf) as Hg. by rewrite H in Hg. Qed.
End Refinement.
