(* ===== verification/MemTable.v ===== *)
(** * Tables in memory

    A model of the table interface: a map from row numbers to rows.  It shows
    that the laws of [RowTableLaws] can hold, and runs the examples. *)

From stdpp Require Import base list gmap.
Set Warnings "-clear-no-such-hyp,-notation-incompatible-prefix,-notation-for-abbreviation".
From Stdlib Require Import ZArith Lia.
From S2P Require Import Prelude StateM Bytes CNum VariantType Variant MasterColumn Table SystemTables.

Local Open Scope Z_scope.

Definition mem_table : Type := row_map.

Definition mem_min (l : list Z) : option Z := foldr (fun k m => Some (match m with Some i => Z.min k i | None => k end)) None l.
Definition mem_max (l : list Z) : option Z := foldr (fun k m => Some (match m with Some i => Z.max k i | None => k end)) None l.
Definition mem_keys (t : mem_table) : list Z := fst <$> map_to_list (rm_rows t).

#[export] Instance mem_RowTable : RowTable mem_table := {
  getColumnCount t := Z.of_nat (rm_width t) + 1;
  rt_generateNextUserTrid t := (Ok (rm_last t + 1), {| rm_rows := rm_rows t; rm_last := rm_last t + 1; rm_width := rm_width t |});
  rt_insertRow values tp customTrid t :=
    let last := if customTrid =? 0 then rm_last t + 1 else rm_last t in
    let trid := if customTrid =? 0 then last else customTrid in
    let t := {| rm_rows := rm_rows t; rm_last := last; rm_width := rm_width t |} in
    if (rm_width t <? length values)%nat then (Throw (TooManyColumnsToInsert (len values) (Z.of_nat (rm_width t))), t) else
    match rm_rows t !! trid with
    | Some _ => (Throw (CannotInsertDuplicateTrid trid), t)
    | None => (Ok trid, set_rows (<[trid := values ++ replicate (rm_width t - length values) VNull]> (rm_rows t)) t)
    end;
  rt_updateRow trid positions values tp t :=
    match rm_rows t !! trid with
    | None => (Ok false, t)
    | Some row =>
        if existsb (fun p => rm_width t <? p)%nat positions then (Throw VectorOutOfRange, t) else
        if negb (length positions =? length values)%nat then (Throw (UpdateValuesDoNotFitToPositions (len values) (len positions)), t) else
        (Ok true, set_rows (<[trid := update_values row positions values]> (rm_rows t)) t)
    end;
  rt_deleteRow trid tp t := (Ok (match rm_rows t !! trid with Some _ => true | None => false end), set_rows (delete trid (rm_rows t)) t);
  rt_getMinKey t := (Ok (mem_min (mem_keys t)), t);
  rt_getMaxKey t := (Ok (mem_max (mem_keys t)), t);
  rt_findNextKey i t := (Ok (mem_min (List.filter (fun k => i <? k) (mem_keys t))), t);
  rt_readRow trid defect t := match rm_rows t !! trid with Some row => (Ok row, t) | None => (Throw (MasterColumnRecordIndexCorrupted defect), t) end
}.

(** ** Its laws *)

Lemma mem_min_spec l : match mem_min l with Some k => k ∈ l /\ (forall i, i ∈ l -> k <= i) | None => l = [] end.
Proof.
  induction l as [|a l IH]; [done|]. change (mem_min (a :: l)) with (Some (match mem_min l with Some i => Z.min a i | None => a end)). destruct (mem_min l) as [k|].
  - destruct IH as [Hk Hm]. split; [destruct (Z.min_spec a k) as [[_ ->]|[_ ->]]; set_solver|].
    intros i [->|Hi]%elem_of_cons; [lia|]. specialize (Hm i Hi). lia.
  - subst l. split; [set_solver|]. intros i [->|Hi]%elem_of_cons; [lia|set_solver].
Qed.
Lemma mem_max_spec l : match mem_max l with Some k => k ∈ l /\ (forall i, i ∈ l -> i <= k) | None => l = [] end.
Proof.
  induction l as [|a l IH]; [done|]. change (mem_max (a :: l)) with (Some (match mem_max l with Some i => Z.max a i | None => a end)). destruct (mem_max l) as [k|].
  - destruct IH as [Hk Hm]. split; [destruct (Z.max_spec a k) as [[_ ->]|[_ ->]]; set_solver|].
    intros i [->|Hi]%elem_of_cons; [lia|]. specialize (Hm i Hi). lia.
  - subst l. split; [set_solver|]. intros i [->|Hi]%elem_of_cons; [lia|set_solver].
Qed.
Lemma mem_keys_spec t i : i ∈ mem_keys t <-> is_Some (rm_rows t !! i).
Proof.
  unfold mem_keys. rewrite list_elem_of_fmap. split.
  - intros ([j row] & -> & Hin). apply elem_of_map_to_list in Hin. by exists row.
  - intros [row Hrow]. exists (i, row). split; [done|]. by apply elem_of_map_to_list.
Qed.
Lemma mem_keys_nil t : mem_keys t = [] -> rm_rows t = ∅.
Proof. intros H%fmap_nil_inv. by apply map_to_list_empty_iff in H. Qed.

Lemma stored_refl v : stored v v.
Proof. unfold stored. destruct v as [| |n| | | | |]; try done. by destruct n. Qed.
Lemma stored_refl_all vs : Forall2 stored vs vs.
Proof. induction vs; constructor; [apply stored_refl|done]. Qed.

Lemma update_values_length row positions values : length (update_values row positions values) = length row.
Proof.
  unfold update_values. generalize (zip positions values). intros l. revert row. induction l as [|[p v] l IH]; intros row; [done|]. cbn. rewrite IH. apply length_insert.
Qed.

Ltac open_row_table :=
  cbn [getColumnCount rt_generateNextUserTrid rt_insertRow rt_updateRow rt_deleteRow rt_getMinKey rt_getMaxKey rt_findNextKey rt_readRow mem_RowTable]; cbv zeta;
  cbn [rm_rows rm_width rm_last Z.eqb].

#[export] Instance mem_RowTableLaws : RowTableLaws mem_table.
Proof.
  refine {| rt_ok t a := t = a /\ map_Forall (fun i row => 0 < i /\ length row = rm_width a) (rm_rows a) |}.
  - intros t a [_ H]. exact H.
  - by intros t a [-> _].
  - intros t a [-> H] _. eexists. split; [done|]. split; [done|exact H].
  - intros t a values tp trid [-> H] Hl Hpos Hn. open_row_table. rewrite (proj2 (Z.eqb_neq trid 0)) by lia. rewrite (proj2 (Nat.ltb_ge _ _)) by lia. rewrite Hn.
    eexists _, values. rewrite Hl, Nat.sub_diag, app_nil_r. split; [by destruct a|]. split; [apply stored_refl_all|]. split; [done|]. by apply map_Forall_insert_2.
  - intros t a values tp [-> H] Hl Hlast Hn. open_row_table. rewrite (proj2 (Nat.ltb_ge _ _)) by lia. rewrite Hn. eexists _, values. rewrite Hl, Nat.sub_diag, app_nil_r.
    split; [done|]. split; [apply stored_refl_all|]. split; [done|]. apply map_Forall_insert_2; [cbn [rm_width]; split; [lia|done]|done].
  - intros t a trid positions values tp [-> H] Hn. open_row_table. rewrite Hn. by exists a.
  - intros t a trid positions values tp row p [-> H] Hr Hp Hw. open_row_table. rewrite Hr.
    assert (existsb (fun p => rm_width a <? p)%nat positions = true) as ->. { apply existsb_exists. exists p. split; [by apply list_elem_of_In|]. by apply Nat.ltb_lt. }
    eexists _, a. done.
  - intros t a trid positions values tp row [-> H] Hr Hl _ Hp. open_row_table. rewrite Hr.
    assert (existsb (fun p => rm_width a <? p)%nat positions = false) as ->.
    { apply not_true_iff_false. intros (p & Hin & Hlt)%existsb_exists. apply list_elem_of_In in Hin. rewrite Forall_forall in Hp. specialize (Hp p Hin). apply Nat.ltb_lt in Hlt. lia. }
    rewrite (proj2 (Nat.eqb_eq _ _) Hl). open_row_table. eexists _, values. split; [done|]. split; [apply stored_refl_all|]. split; [done|].
    apply map_Forall_insert_2; [|done]. rewrite update_values_length. by apply (H _ _ Hr).
  - intros t a trid tp [-> H]. open_row_table. eexists _, _. split; [done|]. split; [done|]. by apply map_Forall_delete.
  - intros t a [-> H]. open_row_table. eexists _, _. split; [done|]. split; [done|]. pose proof (mem_min_spec (mem_keys a)) as Hm. destruct (mem_min (mem_keys a)).
    + destruct Hm as [Hk Hm]. split; [by apply mem_keys_spec|]. intros i Hi. apply Hm. by apply mem_keys_spec.
    + by apply mem_keys_nil.
  - intros t a [-> H]. open_row_table. eexists _, _. split; [done|]. split; [done|]. pose proof (mem_max_spec (mem_keys a)) as Hm. destruct (mem_max (mem_keys a)).
    + destruct Hm as [Hk Hm]. split; [by apply mem_keys_spec|]. intros i Hi. apply Hm. by apply mem_keys_spec.
    + by apply mem_keys_nil.
  - intros t a i [-> H]. open_row_table. eexists _, _. split; [done|]. split; [done|]. set (l := List.filter (fun k => i <? k) (mem_keys a)).
    assert (Hin : forall j, j ∈ l <-> is_Some (rm_rows a !! j) /\ i < j).
    { intros j. rewrite <- mem_keys_spec, <- (Z.ltb_lt i j). rewrite !list_elem_of_In. apply List.filter_In. }
    pose proof (mem_min_spec l) as Hm. destruct (mem_min l) as [k|].
    + destruct Hm as [Hk Hm]. apply Hin in Hk as [? ?]. split; [done|]. split; [done|]. intros j Hj Hlt. apply Hm. by apply Hin.
    + intros j Hj. destruct (Z.le_gt_cases j i) as [?|Hgt]; [done|]. assert (j ∈ l) by (apply Hin; by split). rewrite Hm in *. set_solver.
  - intros t a trid defect row [-> H] Hr. open_row_table. rewrite Hr. by exists a.
Defined.
