(* ===== verification/InstanceCorrect.v ===== *)
(** * Theorems about requests of users

    Sequences of requests, answered or refused, in terms of the accounts; then
    the authentication of users with access keys and with tokens. *)

From stdpp Require Import base list gmap relations.
Set Warnings "-clear-no-such-hyp,-notation-incompatible-prefix,-notation-for-abbreviation".
From Stdlib Require Import ZArith Lia.
From S2P Require Import Prelude StateM Bytes RawDateTime ExprEval ExprTyping RecordReader CatalogRecords Table Users SystemTables Instance InstanceSpec InstanceRefine MemTable.

Local Open Scope Z_scope.

(** Hexadecimal text, as a generated token is shown to its user. *)
Definition hex_lower_digit (z : Z) : Z := if z <? 10 then 48 + z else 87 + z.
Definition hex_lower (b : list Z) : list Z := concat ((fun x => [hex_lower_digit (x / 16); hex_lower_digit (x mod 16)]) <$> b).

Section Requests.
Context {T : Type} {RT : RowTable T} {X : Externals} {CAL : Calendar} {Y : UserCrypto} {TV : Traversal}.
Context (maxUsers : Z) (databases : list Z -> option (Z * (list Z -> option Z))).
Notation state := (instance_state T).
Notation handle := (handle maxUsers databases).

(** Requests with the user who makes each, one after the other. *)
Fixpoint run_requests (l : list (request_env * Z * Request)) (s : state) : state :=
  match l with [] => s | (env, c, r) :: l' => run_requests l' (snd (handle env c r s)) end.

(** The user numbers that are generated on the way are new. *)
Fixpoint fresh_ids (l : list (request_env * Z * Request)) (s : state) : Prop :=
  match l with [] => True | (env, c, r) :: l' => fresh_user_id s /\ fresh_ids l' (snd (handle env c r s)) end.

(** An invariant of the machine is one of the instance. *)
Lemma run_invariant (P : accounts -> Prop) : (forall c a a', ids_ok a -> P a -> account_step c a a' -> P a') ->
  forall l (s : state), inst_ok s -> fresh_ids l s -> P (accounts_of s) -> inst_ok (run_requests l s) /\ P (accounts_of (run_requests l s)).
Proof.
  intros HP l. induction l as [|[[env c] r] l IH]; intros s Hi Hf Hs; [done|]. destruct Hf as [Hf1 Hf2]. cbn.
  destruct (handle_good maxUsers databases env c r s Hi Hf1) as [Hi' Hg]. apply IH; [done|done|]. pose proof (inst_ids_ok _ Hi) as Hids. clear Hi Hi' Hf1 Hf2.
  revert Hids Hs. induction Hg as [a|a a1 a2 Hstep _ IHg]; [done|]. intros Hids Ha. apply IHg; [by eapply step_ids_ok|by eapply HP].
Qed.

(** C19: Permissions cannot be obtained by conspiracy: after any requests of users
    other than the super user, a user holds a permission only if it did before, or
    if one of those users could grant it at the beginning. *)
Theorem no_escalation l (s : state) : inst_ok s -> fresh_ids l s -> Forall (fun x => snd (fst x) <> kSuperUserId) l ->
  forall id k b, 0 <= b -> holds_at (accounts_of (run_requests l s)) id k b ->
  holds_at (accounts_of s) id k b \/ exists c, c ∈ (fun x => snd (fst x)) <$> l /\ grants_at (accounts_of s) c k b.
Proof.
  intros Hi Hf Hc id k b Hb.
  assert (H : (holds_at (accounts_of (run_requests l s)) id k b -> holds_at (accounts_of s) id k b \/ exists c, c ∈ (fun x => snd (fst x)) <$> l /\ grants_at (accounts_of s) c k b)
    /\ forall c, grants_at (accounts_of (run_requests l s)) c k b -> grants_at (accounts_of s) c k b \/ exists c', c' ∈ (fun x => snd (fst x)) <$> l /\ grants_at (accounts_of s) c' k b); [|by apply H].
  revert s Hi Hf. induction l as [|[[env c] r] l IH]; intros s Hi Hf; [split; [by left|intros ?; by left]|]. destruct Hf as [Hf1 Hf2]. cbn.
  inversion_clear Hc as [|? ? Hc1 Hc2]. cbn in Hc1. destruct (handle_good maxUsers databases env c r s Hi Hf1) as [Hi' Hg]. destruct (IH Hc2 _ Hi' Hf2) as [IH1 IH2]. clear IH Hf1 Hf2.
  assert (Hs : forall a a', ids_ok a -> rtc (account_step c) a a' -> forall id, (holds_at a' id k b -> holds_at a id k b \/ grants_at a c k b) /\ (grants_at a' id k b -> grants_at a id k b \/ grants_at a c k b)).
  { intros a a' Hids Hr. induction Hr as [a|a a1 a2 Hstep _ IHr]; [intros ?; split; by left|]. intros i. specialize (IHr (step_ids_ok _ _ _ Hids Hstep)).
    destruct (IHr i) as [I1 I2]. pose proof (step_no_escalation _ _ _ Hids Hc1 Hstep i k b Hb) as [S1 S2]. pose proof (step_no_escalation _ _ _ Hids Hc1 Hstep c k b Hb) as [_ S3].
    split; [intros [?|?]%I1|intros [?|?]%I2]; [by apply S1|right; by destruct S3|by apply S2|right; by destruct S3]. }
  pose proof (fun i => proj1 (Hs _ _ (inst_ids_ok _ Hi) Hg i)) as H1. pose proof (fun i => proj2 (Hs _ _ (inst_ids_ok _ Hi) Hg i)) as H2.
  assert (Hhere : grants_at (accounts_of s) c k b -> exists c', c' ∈ c :: ((fun x => snd (fst x)) <$> l) /\ grants_at (accounts_of s) c' k b) by (intros ?; exists c; split; [set_solver|done]).
  assert (Hlater : forall c', c' ∈ (fun x => snd (fst x)) <$> l -> grants_at (accounts_of (snd (handle env c r s))) c' k b ->
    exists c', c' ∈ c :: ((fun x => snd (fst x)) <$> l) /\ grants_at (accounts_of s) c' k b).
  { intros c' Hc' [?|?]%H2; [exists c'; split; [set_solver|done]|by apply Hhere]. }
  split.
  - intros [[?|?]%H1|(c' & ? & ?)]%IH1; [by left|right; by apply Hhere|right; by eapply Hlater].
  - intros i [[?|?]%H2|(c' & ? & ?)]%IH2; [by left|right; by apply Hhere|right; by eapply Hlater].
Qed.

(** C20: The super user is never locked out: requests of any users leave it active
    and with an active access key. *)
Theorem super_user_kept l (s : state) : inst_ok s -> fresh_ids l s -> super_ok (accounts_of s) -> super_ok (accounts_of (run_requests l s)).
Proof. intros Hi Hf Hs. apply (run_invariant super_ok); [|done|done|done]. intros c a a' Hids Ha Hstep. by eapply step_super_ok. Qed.

(** C30: The permissions that users have are always among those that exist for the
    type of the object, and the right to grant is had only for permissions that
    are held. *)
Theorem permissions_stay_valid l (s : state) : inst_ok s -> fresh_ids l s -> permissions_ok (accounts_of s) -> permissions_ok (accounts_of (run_requests l s)).
Proof. intros Hi Hf Hs. apply (run_invariant permissions_ok); [|done|done|done]. intros c a a' _ Ha Hstep. by eapply step_permissions_ok. Qed.

(** *** A new instance *)

Lemma super_user_inv description keyName keyDescription text u : super_user description keyName keyDescription text = Ok u ->
  us_id u = kSuperUserId /\ us_active u = true /\ us_grantedPermissions u = ∅ /\ (text <> [] -> getActiveAccessKeyCount u = 1).
Proof.
  unfold super_user. destruct (User_of_record _) as [u0| |] eqn:E; [|done|done]. cbn [bind]. pose proof (User_of_record_inv _ _ E) as (Hid & _ & Hact). cbn in Hid, Hact.
  assert (Hp : us_grantedPermissions u0 = ∅ /\ us_accessKeys u0 = []).
  { revert E. unfold User_of_record, validate_name. cbn. assert (Hnil : forall R, byId (∅ : Registry R) = []). { intros R. apply Permutation_nil_r. by rewrite byId_records, map_to_list_empty. }
    rewrite !Hnil. cbn. by intros [= <-]. }
  destruct Hp as [Hp Hk]. destruct text as [|x text]; [by intros [= <-]|]. destruct (addAccessKey _ _ _ _ _ _) as [[k u']| |] eqn:Ek; [|done|done]. cbn. intros [= <-].
  apply addAccessKey_inv in Ek as (_ & -> & ->). cbn. repeat (split; [done|]). intros _. unfold getActiveAccessKeyCount. cbn. by rewrite Hk.
Qed.

(** A new instance satisfies the invariants. *)
Lemma new_instance_ok description keyName keyDescription text db (s : state) u : createSuperUser description keyName keyDescription text (new_instance db) = (Ok u, s) ->
  inst_ok s /\ accounts_of s = {[kSuperUserId := u]} /\ permissions_ok (accounts_of s) /\ (text <> [] -> super_ok (accounts_of s)).
Proof.
  unfold createSuperUser, mbind, mlift, modify, mret. destruct (super_user description keyName keyDescription text) as [u0| |] eqn:E; [|done|done].
  pose proof (super_user_inv _ _ _ _ _ E) as (Hid & Hact & Hp & Hk). intros [= <- <-].
  assert (Hins : registry_insert (UserRecord_of u0) ∅ = {[us_id u0 := UserRecord_of u0]}).
  { unfold registry_insert. rewrite lookup_empty, bool_decide_eq_true_2; [done|]. apply map_Forall_empty. }
  assert (Hacc : forall db' : system_tables T, accounts_of {| m_userRegistry := {[us_id u0 := UserRecord_of u0]}; m_users := {[us_id u0 := u0]}; m_userAccessKeyIdToUserId := ∅;
    m_userTokenIdToUserId := ∅; m_systemDatabase := db'; m_activeSessions := ∅ |} = {[us_id u0 := u0]}).
  { intros db'. apply map_eq. intros i. rewrite accounts_lookup. cbn. destruct (decide (us_id u0 = i)) as [<-|Hne]; [by rewrite !lookup_singleton, decide_True|].
    by rewrite !lookup_singleton_ne. }
  unfold with_users, with_registry, new_instance. cbn [m_userRegistry m_users m_userAccessKeyIdToUserId m_userTokenIdToUserId m_systemDatabase m_activeSessions].
  rewrite lookup_empty, insert_empty. rewrite Hins, Hacc, Hid. split; [split; [|split]|split; [done|split]].
  - cbn [m_users m_userRegistry]. intros i u [<- <-]%lookup_singleton_Some. split; [done|]. rewrite lookup_singleton, decide_True by done. by eexists.
  - cbn [m_userRegistry]. intros i r [<- <-]%lookup_singleton_Some. exact Hid.
  - cbn [m_userRegistry]. intros i j r r' [<- _]%lookup_singleton_Some [<- _]%lookup_singleton_Some. done.
  - intros i u [<- <-]%lookup_singleton_Some. rewrite Hp. apply map_Forall_empty.
  - intros Ht. exists u0. rewrite lookup_singleton, decide_True by done. rewrite (Hk Ht). done.
Qed.

(** Recording it changes the system tables only. *)
Lemma sys_state {A} (m : SM (system_tables T) UserError A) (s : state) : exists d, snd (sys m s) = with_database d s.
Proof. unfold sys, embed. destruct (m (m_systemDatabase s)) as [o d]. by exists d. Qed.
Lemma for_each_sys {A} (l : list A) (f : A -> SM (system_tables T) UserError unit) (s : state) : exists d, snd (for_each l (fun x => sys (f x)) s) = with_database d s.
Proof.
  revert s. induction l as [|a l IH]; intros s; [exists (m_systemDatabase s); by destruct s|]. cbn. unfold mbind. destruct (sys_state (f a) s) as [d Hd].
  destruct (sys (f a) s) as [[x|e|u] s']; cbn in Hd; subst s'; [|by exists d|by exists d]. destruct (IH (with_database d s)) as [d' Hd']. by exists d'.
Qed.
Lemma recordSuperUser_state tp u (s : state) : exists d, snd (recordSuperUser tp u s) = with_database d s.
Proof.
  unfold recordSuperUser, mbind. destruct (sys_state (recordUser u tp) s) as [d Hd]. destruct (sys (recordUser u tp) s) as [[x|e|v] s']; cbn in Hd; subst s'; [|by exists d|by exists d].
  destruct (for_each_sys (us_accessKeys u) (fun k => recordUserAccessKey (us_id u) k tp) (with_database d s)) as [d' Hd']. by exists d'.
Qed.

End Requests.

(** ** Authentication with an access key *)

Section Authentication.
Context {T : Type} {RT : RowTable T} {X : Externals} {CAL : Calendar} {Y : UserCrypto} {TV : Traversal}.
Notation state := (instance_state T).

Lemma beginSession_inv uuids (s s' : state) session : beginSession uuids s = (Ok session, s') ->
  session ∈ uuids /\ (session ∉ m_activeSessions s) /\ s' = with_sessions (fun m => {[session]} ∪ m) s.
Proof.
  revert s. induction uuids as [|uuid uuids IH]; intros s; [done|]. cbn. unfold mbind, gets. destruct (bool_decide _) eqn:E.
  - intros H%IH. destruct H as (? & ? & ?). split; [set_solver|done].
  - intros [= <- <-]. apply bool_decide_eq_false in E. split; [set_solver|done].
Qed.

(** What finding a user gives. *)
Lemma findUserChecked_inv name (s s1 : state) u : inst_ok s -> findUserChecked name s = (Ok u, s1) ->
  inst_ok s1 /\ loaded s s1 /\ m_users s1 !! us_id u = Some u /\ exists r, m_userRegistry s !! us_id u = Some r /\ usr_name r = name.
Proof.
  intros Hi H. assert (Ha : after (findUserChecked name) s (fun u s1 => inst_ok s1 /\ loaded s s1 /\ m_users s1 !! us_id u = Some u /\ exists r, m_userRegistry s !! us_id u = Some r /\ usr_name r = name) (fun _ => True)).
  { apply after_bind. unfold findUserUnlocked. apply after_bind. apply after_gets. destruct (find_user_record name (m_userRegistry s)) as [r|] eqn:E; [|done].
    apply find_user_record_inv in E as [E Hn]; [|done]. apply after_bind. apply after_load; [done|done|done|]. intros u' s' H1 H2 H3 H4. cbn. rewrite H4.
    repeat (split; [done|]). by exists r. }
  unfold after in Ha. by rewrite H in Ha.
Qed.

(** An active user with an active access key that verifies a signature. *)
Definition can_sign (challenge signature : list Z) (u : User) : Prop :=
  us_active u = true /\ exists k key, k ∈ us_accessKeys u /\ ak_active k = true /\
    parseFromString (ak_text k) = Some key /\ verifySignature key challenge signature = Some true.

(** C29: A user who is authenticated with a signature is active and has an active
    access key that verifies the signature of the challenge; the session is a new
    one. *)
Theorem authenticated_by_active_key uuids name signature challenge (s s' : state) id session : inst_ok s ->
  authenticateUser uuids name signature challenge s = (Ok (id, session), s') ->
  (exists u, accounts_of s !! id = Some u /\ can_sign challenge signature u) /\
  (exists r, m_userRegistry s !! id = Some r /\ usr_name r = name) /\
  (session ∉ m_activeSessions s) /\ m_activeSessions s' = {[session]} ∪ m_activeSessions s.
Proof.
  intros Hi H. unfold authenticateUser in H. unfold mbind at 1 in H. destruct (findUserChecked name s) as [[u| |] s1] eqn:Ef; [|done|done].
  assert (Hses : m_activeSessions s1 = m_activeSessions s).
  { revert Ef. unfold findUserChecked, findUserUnlocked, findUserUnlocked_record, mbind, gets, mlift, modify, mret, mthrow.
    destruct (find_user_record name (m_userRegistry s)) as [r|]; [|done]. destruct (m_users s !! usr_id r); [by intros [= _ <-]|]. destruct (User_of_record r); [|done|done]. by intros [= _ <-]. }
  destruct (findUserChecked_inv _ _ _ _ Hi Ef) as (Hi1 & (Hreg & _ & _ & Hacc) & Hu & Hr). destruct (authenticate signature challenge u) eqn:Ea; [|done]. cbn [negb] in H.
  unfold mbind in H. destruct (beginSession uuids s1) as [[ses| |] s2] eqn:Eb; [|done|done]. injection H as <- <- <-.
  apply beginSession_inv in Eb as (_ & Hn & ->). unfold authenticate in Ea. destruct (us_active u) eqn:Eact; [|done]. cbn in Ea.
  apply existsb_exists in Ea as (k & Hk & [Hkact Hver]%andb_true_iff). apply list_elem_of_In in Hk. split; [|split; [done|split; [by rewrite <- Hses|cbn; by rewrite Hses]]].
  destruct (parseFromString (ak_text k)) as [key|] eqn:Ep; [|done]. destruct (verifySignature key challenge signature) as [[|]|] eqn:Ev; [|done|done].
  exists u. split; [rewrite <- Hacc; by apply lookup_loaded|]. split; [done|]. by exists k, key.
Qed.

(** ** Tokens *)

Lemma hex_digit_lower z : 0 <= z < 16 -> hex_digit (hex_lower_digit z) = Some z.
Proof.
  intros Hz. unfold hex_lower_digit, hex_digit. destruct (Z.ltb_spec z 10).
  - rewrite (proj2 (Z.leb_le _ _)), (proj2 (Z.leb_le (48 + z) 57)) by lia. cbn. f_equal. lia.
  - rewrite (proj2 (Z.leb_gt (87 + z) 57)), andb_false_r by lia. rewrite (proj2 (Z.leb_gt (87 + z) 70)), andb_false_r by lia.
    rewrite (proj2 (Z.leb_le 97 _)), (proj2 (Z.leb_le (87 + z) 102)) by lia. cbn. f_equal. lia.
Qed.
Lemma unhex_lower b : Forall (fun x => 0 <= x < 256) b -> unhex (hex_lower b) = Some b.
Proof.
  induction 1 as [|x b Hx _ IH]; [done|]. cbn [hex_lower fmap list_fmap concat app unhex]. change (concat _) with (hex_lower b).
  assert (H1 : 0 <= x / 16 < 16) by (split; [apply Z.div_pos; lia|apply Z.div_lt_upper_bound; lia]). pose proof (Z.mod_pos_bound x 16 eq_refl) as H2.
  rewrite !hex_digit_lower, IH by done. do 2 f_equal. pose proof (Z.div_mod x 16). lia.
Qed.
Lemma hex_lower_len b : len (hex_lower b) = 2 * len b.
Proof. induction b as [|x b IH]; [done|]. change (hex_lower (x :: b)) with ([hex_lower_digit (x / 16); hex_lower_digit (x mod 16)] ++ hex_lower b). rewrite len_app, IH, !len_cons. change (len (@nil Z)) with 0. lia. Qed.

(** A token that was looked at when a new one was added has its full size. *)
Lemma check_tokens_sizes now value l : check_tokens now value true l = Ok false -> Forall (fun t => kSaltSize + kHashSize <= len (tk_value t)) l.
Proof.
  induction l as [|t l IH]; [done|]. cbn. unfold checkValue. cbn [negb andb]. destruct (Z.ltb_spec (len (tk_value t)) (kSaltSize + kHashSize)); [done|]. cbn.
  destruct (bool_decide _); [done|]. intros Hl. constructor; [done|by apply IH].
Qed.
Lemma check_tokens_found now value l t : Forall (fun t => kSaltSize + kHashSize <= len (tk_value t)) l -> t ∈ l -> checkValue now value false t = Ok true ->
  check_tokens now value false l = Ok true.
Proof.
  induction 1 as [|t' l Ht _ IH]; [set_solver|]. intros [->|Hin]%elem_of_cons Hc; cbn; [by rewrite Hc|]. unfold checkValue.
  destruct (negb false && isExpired now t'); [by apply IH|]. rewrite (proj2 (Z.ltb_ge _ _)) by done. cbn. destruct (bool_decide _); [done|by apply IH].
Qed.

(** A new token checks its own value until it expires. *)
Lemma new_token_checks {YL : UserCryptoLaws} now env_now salt id name value e d u t u' : addToken env_now salt id name value e d u = Ok (t, u') ->
  isExpired now t = false -> checkToken now value false u' = Ok true.
Proof.
  intros H Hexp. assert (Hsz : Forall (fun t => kSaltSize + kHashSize <= len (tk_value t)) (us_tokens u)).
  { unfold addToken in H. destruct (List.find _ _) as [t0|]; [by destruct (_ =? _)|]. destruct (_ || _); [done|]. unfold checkToken in H.
    destruct (check_tokens env_now value true (us_tokens u)) as [[|]| |] eqn:E; [done| |done|done]. by apply check_tokens_sizes in E. }
  apply addToken_inv in H as (_ & _ & s & -> & Hlen & -> & ->). unfold checkToken. cbn. pose proof (sha512_size (s ++ value)) as Hh. fold (hashValue value s) in Hh.
  assert (Hs : len s = kSaltSize) by (rewrite len_app in Hlen; lia). apply (check_tokens_found _ _ _ {| tk_id := id; tk_name := name; tk_value := s ++ hashValue value s; tk_expirationTimestamp := e; tk_description := d |}).
  - apply Forall_app. split; [done|]. constructor; [|done]. cbn. lia.
  - set_solver.
  - unfold checkValue. cbn [negb andb]. rewrite Hexp. cbn [tk_value]. rewrite (proj2 (Z.ltb_ge _ _)) by lia. f_equal. apply bool_decide_eq_true.
    assert (Hn : Z.to_nat kSaltSize = length s) by (unfold len in Hs; lia). rewrite Hn, take_app_length, drop_app_length. rewrite take_ge; [done|]. unfold len in Hh. lia.
Qed.

(** What the creation of a token leaves: the user object with the token. *)
Lemma createUserToken_inv env name token value d e c (s s' : state) res : inst_ok s -> createUserToken env name token value d e c s = (Ok res, s') ->
  inst_ok s' /\ exists r u t u' id salt, m_userRegistry s' !! us_id u' = Some r /\ find_user_record name (m_userRegistry s') = Some r /\ m_users s' !! us_id u' = Some u' /\
    addToken (env_now env) salt id token (match value with Some v => v | None => snd res end) e d u = Ok (t, u').
Proof.
  intros Hi H. pose proof (createUserToken_steps c (accounts_of s) env name token value d e s (conj Hi (rtc_refl _ _))) as Hg. unfold steps, after in Hg. rewrite H in Hg. split; [apply Hg|].
  assert (Ha : after (createUserToken env name token value d e c) s (fun res s' => inst_ok s' -> exists r u t u' id salt, m_userRegistry s' !! us_id u' = Some r /\ find_user_record name (m_userRegistry s') = Some r /\ m_users s' !! us_id u' = Some u' /\
    addToken (env_now env) salt id token (match value with Some v => v | None => snd res end) e d u = Ok (t, u')) (fun _ => True)).
  { unfold createUserToken. apply after_bind. apply after_require; [done|done|done|]. intros s1 Hi1 Hl1 _. apply after_bind. apply after_record; [done|done|]. intros r Hr Hn.
    apply after_bind. apply after_load; [done|done|done|]. intros u s2 Hi2 Hl2 Hu Hid. apply after_bind. apply after_sys; [|done]. intros tid db _.
    apply after_bind. apply after_lift; [|done]. intros [v draws] Hv. apply after_bind. apply after_lift; [|done]. intros [t u'] Ht. apply after_bind. apply after_modify.
    apply after_bind. apply after_modify. apply after_bind. apply after_modify. apply after_bind. apply after_sys; [|done]. intros tp db1 _. apply after_bind. apply after_sys; [|done]. intros _ db2 _.
    intros Hi3. cbv beta. pose proof Ht as Hu'. apply addToken_inv in Hu' as (_ & _ & _ & _ & _ & _ & Hu'). assert (Hid' : us_id u' = usr_id r) by (by rewrite Hu').
    exists (map_tokens (registry_insert (UserTokenRecord_of (us_id u) t)) r), u, t, u', tid, (mjoin (head draws)). rewrite Hid'.
    assert (Hreg : m_userRegistry s2 !! usr_id r = Some r) by (by rewrite (proj1 Hl2)).
    assert (Hreg' : alter (map_tokens (registry_insert (UserTokenRecord_of (us_id u) t))) (usr_id r) (m_userRegistry s2) !! usr_id r = Some (map_tokens (registry_insert (UserTokenRecord_of (us_id u) t)) r)).
    { by rewrite lookup_alter, decide_True, Hreg. }
    split; [exact Hreg'|]. split; [|split].
    - destruct (find_user_record name _) as [r'|] eqn:Ef.
      + pose proof (find_user_record_inv _ _ _ Hi3 Ef) as [E1 E2]. f_equal. destruct Hi3 as [_ [_ Huniq]]. destruct (decide (usr_id r' = usr_id r)) as [E|E].
        * rewrite E in E1. cbn in E1. rewrite Hreg' in E1. by injection E1.
        * pose proof (Huniq _ _ _ _ E1 Hreg' E) as Hx. cbn in Hx. apply bool_decide_eq_false in Hx. congruence.
      + exfalso. apply (find_user_record_none _ _ Ef _ _ Hreg'). done.
    - cbn. rewrite Hid, lookup_alter, decide_True by done. by rewrite Hu.
    - rewrite <- Ht. f_equal. destruct value as [v0|]; [by injection Hv as -> _|done]. }
  unfold after in Ha. rewrite H in Ha. apply Ha. apply Hg.
Qed.

(** C28: A token authenticates its user: after a token was created, its value in
    hexadecimal, given by the requester or generated by the instance, is accepted
    for an active user until the token expires. *)
Theorem new_token_authenticates {YL : UserCryptoLaws} env env' name token value d e c (s s' : state) res id u : inst_ok s ->
  createUserToken env name token value d e c s = (Ok res, s') ->
  let v := match value with Some v => v | None => snd res end in
  Forall (fun x => 0 <= x < 256) v ->
  (exists r, find_user_record name (m_userRegistry s') = Some r /\ usr_id r = id) -> m_users s' !! id = Some u -> us_active u = true ->
  match e with Some t => env_now env' < t | None => True end ->
  fst (authenticateUser_token env' name (hex_lower v) s') = Ok id.
Proof.
  intros Hi H v Hv (r & Hr & Hid) Hu Hact Hexp. destruct (createUserToken_inv _ _ _ _ _ _ _ _ _ _ Hi H) as (Hi' & r' & u0 & t & u' & tid & salt & Hreg & Hfind & Hu' & Hadd).
  rewrite Hfind in Hr. injection Hr as ->. assert (Er : usr_id r = us_id u') by (by apply (proj1 (proj2 Hi'))). rewrite <- Hid, Er in Hu. rewrite Hu' in Hu. injection Hu as ->.
  fold v in Hadd. pose proof Hadd as Hinv. apply addToken_inv in Hinv as (_ & Hsize & salt' & _ & _ & Et & Eu). unfold kMinSize, kMaxSize in Hsize.
  unfold authenticateUser_token, findUserChecked, findUserUnlocked, findUserUnlocked_record. unfold mbind, gets. rewrite Hfind, Er, Hu'. unfold mret, mlift.
  unfold authenticate_token. rewrite hex_lower_len. rewrite (proj2 (Z.eqb_neq _ _)) by lia. rewrite Z.mul_comm, Z_mod_mult. cbn [Z.eqb negb orb].
  rewrite Z.gtb_ltb, (proj2 (Z.ltb_ge _ _)) by (unfold kMaxSize; lia). rewrite unhex_lower by done. rewrite Hact. cbn [negb].
  rewrite (new_token_checks (env_now env') _ _ _ _ _ _ _ _ _ _ Hadd); [cbn; by rewrite <- Hid, Er|]. rewrite Et. unfold isExpired. cbn. destruct e as [t0|]; [|done].
  rewrite Z.geb_leb. apply Z.leb_gt. lia.
Qed.
End Authentication.

(** ** An instance with a few users *)

Module Sample.
#[export] Instance sample_crypto : UserCrypto := {
  sha512 b := replicate 64 (foldr (fun x h => (x + 31 * h) mod 251) 7 b);
  SignatureKey := list Z;
  parseFromString text := if bool_decide (text = []) then None else Some text;
  verifySignature key challenge signature := Some (bool_decide (signature = key ++ challenge))
}.
#[export] Instance sample_crypto_laws : UserCryptoLaws.
Proof. constructor. intros b. cbn [sha512 sample_crypto]. unfold len. by rewrite length_replicate. Qed.

(** A calendar that knows the first day of 1970. *)
#[export] Instance sample_calendar : Calendar := {
  gmtime_r t := {| tm_sec := t mod 60; tm_min := t / 60 mod 60; tm_hour := t / 3600; tm_mday := 1; tm_mon := 0; tm_year := 70; tm_wday := 4 |};
  mktime t := tm_sec t + 60 * tm_min t + 3600 * tm_hour t
}.
#[export] Existing Instance list_traversal.

Definition new_mem (width : nat) (last : Z) : mem_table := {| rm_rows := ∅; rm_last := last; rm_width := width |}.
Definition sample_database : system_tables mem_table :=
  {| m_sysUsersTable := new_mem 4 4095; m_sysUserAccessKeysTable := new_mem 5 1; m_sysUserTokensTable := new_mem 5 0; m_sysUserPermissionsTable := new_mem 6 0;
     m_lastTransactionId := 1 |}.
Definition sample_databases (name : list Z) : option (Z * (list Z -> option Z)) := if bool_decide (name = [68]) then Some (7, fun _ => Some 3) else None.
Definition sample_env (now : Z) : request_env := {| env_now := now; env_draws := [Some (replicate 64 5); Some (replicate 64 9)] |}.

Definition root_key : list Z := [107].
Definition created : outcome UserError User * instance_state mem_table := createSuperUser [100] [107; 49] [100] root_key (new_instance sample_database).
Definition started : instance_state mem_table :=
  snd (recordSuperUser {| tp_transactionId := 1; tp_timestamp := 0; tp_userId := 1 |} (match fst created with Ok u => u | _ => {| us_id := 0; us_name := []; us_realName := None;
    us_description := None; us_active := false; us_accessKeys := []; us_tokens := []; us_grantedPermissions := ∅ |} end) (snd created)).

Definition alice : list Z := [65; 76; 73; 67; 69].
Definition bob : list Z := [66; 79; 66].
Definition table_key : UserPermissionKey := {| pk_databaseId := 7; pk_objectType := DatabaseObjectType.kTable; pk_objectId := 3 |}.
Definition select_insert : Z := buildMultiPermissionMask [kSelect; kInsert].
Definition root_requests : list (request_env * Z * Request) :=
  [(sample_env 10, 1, CreateUser alice None None true);
   (sample_env 11, 1, CreateUser bob (Some [66]) None true);
   (sample_env 12, 1, GrantTablePermissions alice [68] [84] select_insert true);
   (sample_env 13, 1, CreateUserAccessKey alice [75] [120] None true);
   (sample_env 14, 1, CreateUserToken bob [84] None None (Some 1000))].
Definition prepared : instance_state mem_table := run_requests 10 sample_databases root_requests started.
(** Alice passes a permission on; Bob tries to take more and to remove users. *)
Definition user_requests : list (request_env * Z * Request) :=
  [(sample_env 20, 4096, GrantTablePermissions bob [68] [84] (getSinglePermissionMask kSelect) false);
   (sample_env 21, 4097, GrantTablePermissions bob [68] [84] (getSinglePermissionMask kInsert) true);
   (sample_env 22, 4097, DropUser alice true);
   (sample_env 23, 4096, CreateUser [67] None None true)].

Lemma started_ok : inst_ok started /\ permissions_ok (accounts_of started) /\ super_ok (accounts_of started).
Proof.
  destruct created as [[u| |] s] eqn:E; [|discriminate E|discriminate E]. destruct (new_instance_ok _ _ _ _ _ _ _ E) as (H1 & _ & H2 & H3).
  unfold started. rewrite E. cbn [fst snd]. destruct (recordSuperUser_state {| tp_transactionId := 1; tp_timestamp := 0; tp_userId := 1 |} u s) as [d ->].
  split; [exact H1|]. split; [exact H2|]. apply H3. done.
Qed.

Lemma prepared_ok : inst_ok prepared /\ super_ok (accounts_of prepared).
Proof.
  apply (run_invariant 10 sample_databases super_ok); [intros c a a' Hids Ha Hstep; by eapply step_super_ok|apply started_ok| |apply started_ok].
  vm_compute. done.
Qed.
Lemma user_requests_fresh : fresh_ids 10 sample_databases user_requests prepared.
Proof. vm_compute. done. Qed.

End Sample.
Import Sample.

Lemma request_refines_steps_witness :
  rtc (account_step 4096) (accounts_of prepared)
    (accounts_of (snd (handle 10 sample_databases (sample_env 20) 4096 (GrantTablePermissions bob [68] [84] (getSinglePermissionMask kSelect) false) prepared))).
Proof.
  apply (request_refines_steps 10 sample_databases (sample_env 20) 4096 (GrantTablePermissions bob [68] [84] (getSinglePermissionMask kSelect) false) prepared _ (Ok tt));
    [apply prepared_ok|vm_compute; done|]. vm_compute. reflexivity.
Defined.

Lemma no_escalation_witness :
  holds_at (accounts_of (run_requests 10 sample_databases user_requests prepared)) 4097 table_key 0 /\
  (holds_at (accounts_of prepared) 4097 table_key 0 \/ exists c, c ∈ (fun x => snd (fst x)) <$> user_requests /\ grants_at (accounts_of prepared) c table_key 0).
Proof.
  assert (H : holds_at (accounts_of (run_requests 10 sample_databases user_requests prepared)) 4097 table_key 0) by (eexists; split; vm_compute; reflexivity).
  split; [exact H|]. apply (no_escalation 10 sample_databases user_requests prepared); [apply prepared_ok|apply user_requests_fresh|repeat constructor; done|lia|exact H].
Defined.

Lemma super_user_kept_witness : super_ok (accounts_of (run_requests 10 sample_databases user_requests prepared)).
Proof. apply super_user_kept; [apply prepared_ok|apply user_requests_fresh|apply prepared_ok]. Defined.

Lemma permissions_stay_valid_witness : permissions_ok (accounts_of (run_requests 10 sample_databases root_requests started)).
Proof. apply permissions_stay_valid; [apply started_ok| |apply started_ok]. vm_compute. done. Defined.

Lemma authenticated_by_active_key_witness :
  fst (authenticateUser [[1]; [2]] alice [120; 3] [3] prepared) = Ok (4096, [1]) /\
  exists u, accounts_of prepared !! 4096 = Some u /\ can_sign [3] [120; 3] u.
Proof.
  split; [vm_compute; reflexivity|].
  apply (authenticated_by_active_key [[1]; [2]] alice [120; 3] [3] prepared (snd (authenticateUser [[1]; [2]] alice [120; 3] [3] prepared)) 4096 [1]);
    [apply prepared_ok|vm_compute; reflexivity].
Defined.

(** A generated token of Bob is accepted before time 1000. *)
Lemma new_token_authenticates_witness :
  let s := run_requests 10 sample_databases [(sample_env 10, 1, CreateUser bob None None true)] started in
  let '(o, s') := createUserToken (sample_env 14) bob [84] None None (Some 1000) 1 s in
  o = Ok (0, replicate 64 5) /\ fst (authenticateUser_token (sample_env 999) bob (hex_lower (replicate 64 5)) s') = Ok 4096.
Proof.
  set (s := run_requests 10 sample_databases [(sample_env 10, 1, CreateUser bob None None true)] started). cbv zeta.
  assert (Hi : inst_ok s). { apply (run_invariant 10 sample_databases super_ok); [intros c a a' Hids Ha Hstep; by eapply step_super_ok|apply started_ok| |apply started_ok]. vm_compute. done. }
  destruct (createUserToken (sample_env 14) bob [84] None None (Some 1000) 1 s) as [o s'] eqn:E.
  assert (Eo : o = Ok (0, replicate 64 5)) by (change o with (fst (o, s')); rewrite <- E; vm_compute; reflexivity).
  assert (Es : s' = snd (createUserToken (sample_env 14) bob [84] None None (Some 1000) 1 s)) by by rewrite E.
  split; [exact Eo|]. subst o.
  eapply (new_token_authenticates (sample_env 14) (sample_env 999) bob [84] None None (Some 1000) 1 s s' (0, replicate 64 5) 4096); [exact Hi|exact E| | | | |].
  - repeat constructor; done.
  - rewrite Es. eexists. split; vm_compute; reflexivity.
  - rewrite Es. vm_compute. reflexivity.
  - reflexivity.
  - done.
Defined.
