(* ===== verification/SystemTablesSpec.v ===== *)
(** * What the system tables keep

    On tables that keep their laws, the operations of [SystemDatabase] on users
    change the rows in the expected way, reading all rows of a table visits each
    of them once, and the row of a user, key, token or permission is read back as
    its record. *)

From stdpp Require Import base list gmap.
Set Warnings "-clear-no-such-hyp,-notation-incompatible-prefix,-notation-for-abbreviation".
From Stdlib Require Import ZArith Lia.
From S2P Require Import Prelude StateM Bytes CNum VariantType Variant RawDateTime VariantConv ExprEval RecordReader CatalogRecords MasterColumn Table Users SystemTables.

Local Open Scope Z_scope.

#[export] Instance sys_table_eq_dec : EqDecision sys_table.
Proof. solve_decision. Defined.

(** ** Rows of the four tables *)

Notation row_view := (sys_table -> row_map).
Definition upd (n : sys_table) (a : row_map) (R : row_view) : row_view := fun m => if decide (m = n) then a else R m.
Lemma upd_same n a R : upd n a R n = a.
Proof. unfold upd. by rewrite decide_True. Qed.
Lemma upd_other n m a R : m <> n -> upd n a R m = R m.
Proof. intros H. unfold upd. by rewrite decide_False. Qed.

(** The inversion of a row whose values are known. *)
Ltac inv_row H := repeat match type of H with Forall2 stored (_ :: _) _ => apply Forall2_cons_inv_l in H as (? & ? & ? & H & ->) end;
  apply Forall2_nil_inv_l in H as ->.

Section Tables.
Context {T : Type} {RT : RowTable T} {RL : RowTableLaws T} {X : Externals} {CAL : Calendar}.
Notation DM := (DM (T := T)).

Definition view_ok (R : row_view) : Prop := forall n, rm_width (R n) = length (sys_columns n).
Definition db_ok (db : system_tables T) (R : row_view) : Prop := view_ok R /\ forall n, rt_ok (get_table n db) (R n).

Lemma get_set n m (t : T) db : get_table m (set_table n t db) = if decide (m = n) then t else get_table m db.
Proof. by destruct n, m. Qed.
Lemma db_ok_set n t db R a : db_ok db R -> rt_ok t a -> rm_width a = rm_width (R n) -> db_ok (set_table n t db) (upd n a R).
Proof.
  intros [Hw Hdb] Ht Ha. split; intros m; [|rewrite get_set]; unfold upd; destruct (decide (m = n)) as [->|Hne]; [by rewrite Ha|apply Hw|done|apply Hdb].
Qed.

(** ** Computations that succeed

    [computes c R Q]: on tables with the rows [R], [c] returns a result and rows
    in [Q]. *)
Definition computes {A} (c : DM A) (R : row_view) (Q : A -> row_view -> Prop) : Prop :=
  forall db, db_ok db R -> exists a db' R', c db = (Ok a, db') /\ db_ok db' R' /\ Q a R'.

Lemma computes_bind {A B} (c : DM A) (k : A -> DM B) R Q : computes c R (fun a R' => computes (k a) R' Q) -> computes (mbind c k) R Q.
Proof.
  intros H db Hdb. destruct (H db Hdb) as (a & db1 & R1 & Hc & Hdb1 & Hk). destruct (Hk db1 Hdb1) as (b & db2 & R2 & Hb & Hdb2 & HQ).
  exists b, db2, R2. split; [|done]. unfold mbind. by rewrite Hc.
Qed.
Lemma computes_ret {A} (a : A) R (Q : A -> row_view -> Prop) : Q a R -> computes (mret a) R Q.
Proof. intros HQ db Hdb. by exists a, db, R. Qed.
Lemma computes_lift {A} (o : outcome UserError A) a R (Q : A -> row_view -> Prop) : o = Ok a -> Q a R -> computes (mlift o) R Q.
Proof. intros -> HQ db Hdb. by exists a, db, R. Qed.

(** One operation of a table. *)
Lemma computes_table {A} n (c : SM T TableError A) R (Q : A -> row_view -> Prop) :
  (forall t, rt_ok t (R n) -> exists x t' a, c t = (Ok x, t') /\ rt_ok t' a /\ rm_width a = rm_width (R n) /\ Q x (upd n a R)) -> computes (table n c) R Q.
Proof.
  intros H db Hdb. destruct (H _ (proj2 Hdb n)) as (x & t' & a & Hc & Ht & Hw & HQ). exists x, (set_table n t' db), (upd n a R). split; [|split; [by apply db_ok_set|done]].
  unfold table, embed. by rewrite Hc.
Qed.

(** An operation that only looks. *)
Lemma computes_look {A} n (c : SM T TableError A) R (P : A -> Prop) (Q : A -> row_view -> Prop) :
  (forall t, rt_ok t (R n) -> exists x t', c t = (Ok x, t') /\ rt_ok t' (R n) /\ P x) -> (forall x, P x -> Q x R) -> computes (table n c) R Q.
Proof.
  intros H HQ db Hdb. destruct (H _ (proj2 Hdb n)) as (x & t' & Hc & Ht & HP). exists x, (set_table n t' db), R.
  split; [unfold table, embed; by rewrite Hc|]. split; [|by apply HQ]. split; [apply Hdb|]. intros m. rewrite get_set. destruct (decide (m = n)) as [->|Hne]; [done|apply Hdb].
Qed.

Lemma computes_transaction now c R (Q : TransactionParameters -> row_view -> Prop) : (forall tp, Q tp R) -> computes (new_transaction now c) R Q.
Proof.
  intros HQ. apply computes_bind. intros db Hdb. eexists _, _, R. split; [done|]. split; [|by apply computes_ret]. split; [apply Hdb|]. intros n. destruct Hdb as [_ Hdb]. specialize (Hdb n). by destruct n.
Qed.

Lemma computes_row_values n values R (Q : list Variant -> row_view -> Prop) : length values = length (sys_columns n) -> Q values R -> computes (row_values n values) R Q.
Proof.
  intros Hl HQ db Hdb. exists values, db, R. split; [|done]. unfold row_values, mbind, gets. destruct Hdb as [Hw Hdb]. rewrite (rt_width _ _ (Hdb n)), Hw.
  unfold len. rewrite Hl. rewrite (proj2 (Z.ltb_ge _ _)) by lia. replace (_ - _ - _) with 0 by lia. cbn [Z.to_nat replicate]. by rewrite app_nil_r.
Qed.

Definition set_last (z : Z) (a : row_map) : row_map := {| rm_rows := rm_rows a; rm_last := z; rm_width := rm_width a |}.

Lemma computes_next n R (Q : Z -> row_view -> Prop) : 0 <= rm_last (R n) < 2 ^ 32 - 1 -> Q (rm_last (R n) + 1) (upd n (set_last (rm_last (R n) + 1) (R n)) R) ->
  computes (table n rt_generateNextUserTrid) R Q.
Proof. intros Hl HQ. apply computes_table. intros t Ht. destruct (rt_next _ _ Ht Hl) as (t' & Hc & Ht'). by eexists _, t', _. Qed.

Lemma computes_insert n values tp trid R (Q : Z -> row_view -> Prop) : view_ok R -> length values = length (sys_columns n) -> 0 < trid -> rm_rows (R n) !! trid = None ->
  (forall ws, Forall2 stored values ws -> Q trid (upd n (set_rows (<[trid := ws]> (rm_rows (R n))) (R n)) R)) -> computes (table n (rt_insertRow values tp trid)) R Q.
Proof.
  intros Hw Hl Ht Hn HQ. apply computes_table. intros t Hok. destruct (rt_insert t (R n) values tp trid Hok) as (t' & ws & Hc & Hs & Ht'); [by rewrite Hw|done|done|].
  eexists _, t', _. split; [done|]. split; [done|]. split; [done|]. by apply HQ.
Qed.

Lemma computes_append n values tp R (Q : Z -> row_view -> Prop) : view_ok R -> length values = length (sys_columns n) -> 0 <= rm_last (R n) < 2 ^ 32 - 1 ->
  rm_rows (R n) !! (rm_last (R n) + 1) = None ->
  (forall ws, Forall2 stored values ws -> Q (rm_last (R n) + 1) (upd n (set_last (rm_last (R n) + 1) (set_rows (<[rm_last (R n) + 1 := ws]> (rm_rows (R n))) (R n))) R)) ->
  computes (table n (rt_insertRow values tp 0)) R Q.
Proof.
  intros Hw Hl Hlast Hn HQ. apply computes_table. intros t Hok. destruct (rt_append t (R n) values tp Hok) as (t' & ws & Hc & Hs & Ht'); [by rewrite Hw|done|done|].
  eexists _, t', _. split; [done|]. split; [done|]. split; [done|]. by apply (HQ ws).
Qed.

Lemma computes_delete n now id c R (Q : unit -> row_view -> Prop) : Q tt (upd n (set_rows (delete id (rm_rows (R n))) (R n)) R) -> computes (delete_record n now id c) R Q.
Proof.
  intros HQ. apply computes_bind. apply computes_transaction. intros tp. apply computes_bind. apply computes_table. intros t Hok.
  destruct (rt_delete t (R n) id tp Hok) as (t' & found & Hc & Ht'). eexists _, t', _. split; [done|]. split; [done|]. split; [done|]. by apply computes_ret.
Qed.

Lemma computes_update n changes missing now id c row R (Q : unit -> row_view -> Prop) : view_ok R -> rm_rows (R n) !! id = Some row -> NoDup (fst <$> changes) ->
  Forall (fun p => (1 <= p <= length (sys_columns n))%nat) (fst <$> changes) -> changes <> [] ->
  (forall ws, Forall2 stored (snd <$> changes) ws -> Q tt (upd n (set_rows (<[id := update_values row (fst <$> changes) ws]> (rm_rows (R n))) (R n)) R)) ->
  computes (update_record n changes missing now id c) R Q.
Proof.
  intros Hw Hr Hd Hp Hne HQ. apply computes_bind. apply computes_transaction. intros tp. destruct changes as [|x changes]; [done|]. apply computes_bind. apply computes_table. intros t Hok.
  destruct (rt_update t (R n) id (fst <$> x :: changes) (snd <$> x :: changes) tp row Hok Hr) as (t' & ws & Hc & Hs & Ht'); [by rewrite !length_fmap|done|by rewrite Hw|].
  eexists _, t', _. split; [done|]. split; [done|]. split; [done|]. apply computes_ret. by apply HQ.
Qed.

Lemma computes_update_nothing n missing now id c R (Q : unit -> row_view -> Prop) : Q tt R -> computes (update_record n [] missing now id c) R Q.
Proof. intros HQ. apply computes_bind. apply computes_transaction. intros tp. by apply computes_ret. Qed.

(** ** Reading all rows *)

(** The rows from some number on, each once. *)
Definition rows_from (i : Z) (m : gmap Z (list Variant)) (l : list (Z * list Variant)) : Prop :=
  NoDup (fst <$> l) /\ forall k row, (k, row) ∈ l <-> m !! k = Some row /\ i <= k.

Lemma computes_rows {A} n (step : Z -> list Variant -> A -> outcome UserError A) (g : Z -> list Variant -> A -> A) R maxTrid :
  (forall k row a, rm_rows (R n) !! k = Some row -> step k row a = Ok (g k row a)) ->
  (forall k, is_Some (rm_rows (R n) !! k) -> k <= maxTrid) ->
  forall fuel trid a, is_Some (rm_rows (R n) !! trid) -> maxTrid - trid + 1 <= Z.of_nat fuel ->
  computes (scan_rows n step fuel trid a) R (fun r R' => R' = R /\ exists l, rows_from trid (rm_rows (R n)) l /\ r = foldl (fun a '(k, row) => g k row a) a l).
Proof.
  intros Hstep Hmax fuel. induction fuel as [|fuel IH]; intros trid a [row Hrow] Hfuel.
  { specialize (Hmax trid (ex_intro _ _ Hrow)). lia. }
  cbn [scan_rows]. apply computes_bind. apply (computes_look n _ R (fun r => r = row)).
  { intros t Ht. destruct (rt_read t (R n) trid 2 row Ht Hrow) as (t' & Hc & Ht'). by exists row, t'. }
  intros _ ->. apply computes_bind. apply (computes_lift _ (g trid row a)); [by apply Hstep|]. apply computes_bind.
  apply (computes_look n _ R (fun k => match k with
    | Some k => is_Some (rm_rows (R n) !! k) /\ trid < k /\ (forall j, is_Some (rm_rows (R n) !! j) -> trid < j -> k <= j)
    | None => forall j, is_Some (rm_rows (R n) !! j) -> j <= trid end)).
  { intros t Ht. destruct (rt_nextkey t (R n) trid Ht) as (t' & k & Hc & Ht' & Hk). by exists k, t'. }
  intros [k|] Hk.
  - destruct Hk as (Hs & Hlt & Hleast). intros db Hdb. destruct (IH k (g trid row a) Hs ltac:(lia) db Hdb) as (r & db' & R' & Hc & Hdb' & -> & l & [Hnd Hl] & Hr).
    exists r, db', R. split; [done|]. split; [done|]. split; [done|]. exists ((trid, row) :: l). split; [|by rewrite Hr]. split.
    + cbn. constructor; [|done]. intros ([k' row'] & Hk' & Hin)%list_elem_of_fmap. apply Hl in Hin as [_ Hin]. cbn in Hk'. lia.
    + intros k' row'. rewrite elem_of_cons, Hl. split.
      * intros [[= -> ->]|[? ?]]; [split; [done|lia]|split; [done|lia]].
      * intros [Hr' Hge]. destruct (Z.eq_dec k' trid) as [->|Hne]; [left; congruence|right]. split; [done|]. apply Hleast; [by exists row'|lia].
  - apply computes_ret. split; [done|]. exists [(trid, row)]. split; [|done]. split; [cbn; apply NoDup_singleton|]. intros k' row'. rewrite list_elem_of_singleton. split.
    + intros [= -> ->]. split; [done|lia].
    + intros [Hr' Hge]. specialize (Hk k' (ex_intro _ _ Hr')). assert (k' = trid) as -> by lia. congruence.
Qed.

Lemma computes_scan {A} n (step : Z -> list Variant -> A -> outcome UserError A) (g : Z -> list Variant -> A -> A) empty R (Q : A -> row_view -> Prop) :
  (forall k row, rm_rows (R n) !! k = Some row -> 0 < k) ->
  (forall k row a, rm_rows (R n) !! k = Some row -> step k row a = Ok (g k row a)) ->
  (forall l, l ≡ₚ map_to_list (rm_rows (R n)) -> Q (foldl (fun a '(k, row) => g k row a) empty l) R) ->
  computes (scan_table n step empty) R Q.
Proof.
  intros Hpos Hstep HQ. unfold scan_table. apply computes_bind.
  apply (computes_look n _ R (fun k => match k with Some k => is_Some (rm_rows (R n) !! k) /\ (forall i, is_Some (rm_rows (R n) !! i) -> k <= i) | None => rm_rows (R n) = ∅ end)).
  { intros t Ht. destruct (rt_min t (R n) Ht) as (t' & k & Hc & Ht' & Hk). by exists k, t'. }
  intros [minTrid|] Hmin; apply computes_bind.
  - apply (computes_look n _ R (fun k => match k with Some k => is_Some (rm_rows (R n) !! k) /\ (forall i, is_Some (rm_rows (R n) !! i) -> i <= k) | None => rm_rows (R n) = ∅ end)).
    { intros t Ht. destruct (rt_max t (R n) Ht) as (t' & k & Hc & Ht' & Hk). by exists k, t'. }
    destruct Hmin as [[row Hrow] Hmin]. intros [maxTrid|] Hmax; [|by rewrite Hmax in Hrow]. destruct Hmax as [Hs Hmax]. specialize (Hmin _ Hs) as Hle. pose proof (Hpos _ _ Hrow).
    rewrite Z.gtb_ltb, (proj2 (Z.ltb_ge _ _)) by lia. rewrite (proj2 (Z.eqb_neq _ _)) by lia. intros db Hdb.
    destruct (computes_rows n step g R maxTrid Hstep Hmax (Z.to_nat (maxTrid - minTrid + 1)) minTrid empty (ex_intro _ _ Hrow) ltac:(lia) db Hdb) as (r & db' & R' & Hc & Hdb' & -> & l & [Hnd Hl] & ->).
    eexists _, db', R. split; [done|]. split; [done|]. apply HQ. apply NoDup_Permutation; [by apply NoDup_fmap_1 in Hnd|apply NoDup_map_to_list|].
    intros [k row']. rewrite Hl, elem_of_map_to_list. split; [by intros [? _]|]. intros Hk. split; [done|]. apply Hmin. by exists row'.
  - apply computes_ret. cbn. apply computes_ret. change empty with (foldl (fun a '(k, row) => g k row a) empty []). apply HQ. by rewrite Hmin, map_to_list_empty.
Qed.

(** ** Rows and records *)

Definition user_row (u : User) : list Variant := [VString (us_name u); v_opt (us_realName u); v_flag (us_active u); v_opt (us_description u)].
Definition key_row (userId : Z) (k : UserAccessKey) : list Variant :=
  [v_u32 userId; VString (ak_name k); VString (ak_text k); v_flag (ak_active k); v_opt (ak_description k)].
Definition token_row (userId : Z) (t : UserToken) : list Variant :=
  [v_u32 userId; VString (tk_name t); VBinary (tk_value t); v_time (tk_expirationTimestamp t); v_opt (tk_description t)].
Definition permission_row (userId : Z) (kd : UserPermissionKey * UserPermissionDataEx) : list Variant :=
  [v_u32 userId; v_u32 (pk_databaseId (fst kd)); v_u8 (uw 8 (pk_objectType (fst kd))); v_u64 (pk_objectId (fst kd)); v_u64 (pd_permissions (snd kd)); v_u64 (pd_grantOptions (snd kd))].

Lemma stored_text v s : stored (VString s) v -> as_text v = Ok s.
Proof. cbn. by intros ->. Qed.
Lemma stored_bytes v b : stored (VBinary b) v -> as_bytes v = Ok b.
Proof. cbn. by intros ->. Qed.
Lemma stored_opt v s : stored (v_opt s) v -> asOptionalString v = Ok s.
Proof. destruct s; cbn; by intros ->. Qed.
Lemma stored_int t z v : signed t = false -> stored (VNum (CI t z)) v -> exists t', v = VNum (CI t' z) /\ signed t' = false.
Proof. intros Ht. destruct v as [| |n| | | | |]; try done. destruct n as [t' z'|]; [|done]. cbn. intros [-> H]. exists t'. by rewrite H. Qed.
Lemma as_unsigned t t' z : signed t' = false -> fst (as_integer ext_buffer t true false (VNum (CI t' z))) = Ok (conv t z).
Proof. by destruct t'. Qed.
Lemma stored_u32 z v : 0 <= z < 2 ^ 32 -> stored (v_u32 z) v -> as_u32 v = Ok z.
Proof.
  intros Hz (t' & -> & Ht')%stored_int; [|done]. unfold as_u32, asUInt32, value. rewrite as_unsigned by done. cbn [map_error]. f_equal. unfold conv. cbn. by rewrite uw_small.
Qed.
Lemma stored_u64 z v : 0 <= z < 2 ^ 64 -> stored (v_u64 z) v -> as_u64 v = Ok z.
Proof.
  intros Hz (t' & -> & Ht')%stored_int; [|done]. unfold as_u64, asUInt64, value. rewrite as_unsigned by done. cbn [map_error]. f_equal. unfold conv. cbn. by rewrite uw_small.
Qed.
Lemma stored_type z v : 0 <= z < 12 -> stored (v_u8 (uw 8 z)) v -> as_i32 v = Ok z.
Proof.
  intros Hz. rewrite uw_small by (unfold u_ok; lia). intros (t' & -> & Ht')%stored_int; [|done]. unfold as_i32, asInt32, value. rewrite as_unsigned by done. cbn [map_error]. f_equal. unfold conv.
  change (signed I32) with true. cbn iota. change (ibits I32) with 32. rewrite sw_small; [done|lia|]. unfold s_ok. lia.
Qed.
Lemma stored_flag b v : stored (v_flag b) v -> exists z, as_u8 v = Ok z /\ negb (z =? 0) = b.
Proof.
  intros (t' & -> & Ht')%stored_int; [|done]. unfold as_u8, asUInt8, value. destruct (as_integer ext_buffer U8 true false (VNum (CI t' (if b then 1 else 0)))) as [r v'] eqn:E.
  pose proof (as_unsigned U8 t' (if b then 1 else 0) Ht') as H. rewrite E in H. cbn in H. subst r. cbn. eexists. split; [done|]. by destruct b.
Qed.

Lemma read_user_row keys tokens permissions u row : 0 <= us_id u < 2 ^ 32 -> Forall2 stored (user_row u) row ->
  read_user keys tokens permissions (us_id u) row =
  Ok {| usr_id := us_id u; usr_name := us_name u; usr_realName := us_realName u; usr_description := us_description u; usr_active := us_active u;
        usr_accessKeys := default ∅ (keys !! us_id u); usr_tokens := default ∅ (tokens !! us_id u); usr_permissions := default ∅ (permissions !! us_id u) |}.
Proof.
  intros Hid H. unfold user_row in H. inv_row H. cbv beta iota zeta delta [read_user]. rewrite uw_small by done.
  erewrite stored_text, stored_opt, stored_opt by done. edestruct stored_flag as (z & -> & Hz); [done|]. cbn. by rewrite Hz.
Qed.
Lemma read_access_key_row id k row : 0 <= id < 2 ^ 32 -> Forall2 stored (key_row id k) row -> read_access_key (ak_id k) row = Ok (UserAccessKeyRecord_of id k).
Proof.
  intros Hid H. unfold key_row in H. inv_row H. cbv beta iota zeta delta [read_access_key]. erewrite stored_u32, stored_text, stored_text, stored_opt by done.
  edestruct stored_flag as (z & -> & Hz); [done|]. cbn. by rewrite Hz.
Qed.
(** The expiration time goes through the calendar twice. *)
Definition stored_token (t : UserToken) : UserToken :=
  {| tk_id := tk_id t; tk_name := tk_name t; tk_value := tk_value t; tk_description := tk_description t;
     tk_expirationTimestamp := (fun e => toEpochTimestamp (RawDateTime_of_time e)) <$> tk_expirationTimestamp t |}.
Lemma read_token_row id t row : 0 <= id < 2 ^ 32 -> Forall2 stored (token_row id t) row -> read_token (tk_id t) row = Ok (UserTokenRecord_of id (stored_token t)).
Proof.
  intros Hid H. unfold token_row in H. inv_row H. cbv beta iota zeta delta [read_token]. erewrite stored_u32, stored_text, stored_bytes by done. cbn [bind].
  unfold UserTokenRecord_of, stored_token. destruct (tk_expirationTimestamp t) as [e|]; cbn in *; subst; cbn; by erewrite stored_opt by done.
Qed.

(** Permissions that the columns can hold. *)
Definition permission_fits (kd : UserPermissionKey * UserPermissionDataEx) : Prop :=
  0 <= pk_databaseId (fst kd) < 2 ^ 32 /\ 0 <= pk_objectType (fst kd) < 12 /\ 0 <= pk_objectId (fst kd) < 2 ^ 64 /\
  0 <= pd_permissions (snd kd) < 2 ^ 64 /\ 0 <= pd_grantOptions (snd kd) < 2 ^ 64.
Lemma read_permission_row id kd row : 0 <= id < 2 ^ 32 -> permission_fits kd -> Forall2 stored (permission_row id kd) row ->
  read_permission (pd_id (snd kd)) row = Ok (UserPermissionRecord_of id (fst kd) (snd kd)).
Proof.
  intros Hid (H1 & H2 & H3 & H4 & H5) H. unfold permission_row in H. inv_row H. cbv beta iota zeta delta [read_permission]. erewrite stored_type by done. cbn [bind].
  rewrite (proj2 (Z.ltb_ge _ _)) by lia. rewrite Z.geb_leb, (proj2 (Z.leb_gt _ _)) by (unfold DatabaseObjectType.kMax; lia). cbn [orb].
  rewrite (stored_u32 id), (stored_u32 (pk_databaseId (fst kd))), (stored_u64 (pk_objectId (fst kd))), (stored_u64 (pd_permissions (snd kd))), (stored_u64 (pd_grantOptions (snd kd))) by done.
  done.
Qed.

(** The owner of a row. *)
Lemma stored_owner id id' l l' row : Forall2 stored (v_u32 id :: l) row -> Forall2 stored (v_u32 id' :: l') row -> id = id'.
Proof.
  intros (w & ws & H & _ & ->)%Forall2_cons_inv_l (w' & ws' & H' & _ & [= <- <-])%Forall2_cons_inv_l.
  apply stored_int in H as (? & -> & _); [|done]. apply stored_int in H' as (? & E & _); [|done]. congruence.
Qed.
End Tables.
