(* ===== verification/InstancePersist.v ===== *)
(** * Requests that are recorded

    An invariant that relates the accounts of an instance, the records of its
    registry and the rows of the system tables, and its preservation by every
    request that ends normally. *)

From stdpp Require Import base list gmap.
Set Warnings "-clear-no-such-hyp,-notation-incompatible-prefix,-notation-for-abbreviation".
From Stdlib Require Import ZArith Lia.
From S2P Require Import Prelude CNum RawDateTime VariantType Variant ExprEval StateM Bytes MasterColumn Table RecordReader CatalogRecords Users SystemTables Instance InstanceSpec InstanceRefine SystemTablesSpec.

(** ** Accounts and the rows of the system tables

    When the rows of the system tables are those of the accounts.  Access keys,
    tokens and permissions are three kinds of items that users have, each with a
    row of its table; the lemmas on items are proved once. *)

Local Open Scope Z_scope.

(** ** Items of users *)

Section Items.
Context {I : Type} (id_of : I -> Z) (row_of : Z -> I -> list Variant) (items : User -> list I).
Hypothesis row_owner : forall id id' i i' row, Forall2 stored (row_of id i) row -> Forall2 stored (row_of id' i') row -> id = id'.

(** Every row is that of an item, or of a user who is no more; every item has its
    row. *)
Definition items_synced (a : accounts) (last : Z) (m : gmap Z (list Variant)) : Prop :=
  (forall i row, m !! i = Some row -> exists id x, id_of x = i /\ Forall2 stored (row_of id x) row /\
     match a !! id with Some u => x ∈ items u | None => 0 <= id <= last end) /\
  (forall id u x, a !! id = Some u -> x ∈ items u -> exists row, m !! id_of x = Some row /\ Forall2 stored (row_of id x) row).

Lemma items_owner a last m id id' u u' x x' : items_synced a last m -> a !! id = Some u -> x ∈ items u -> a !! id' = Some u' -> x' ∈ items u' -> id_of x = id_of x' -> id = id'.
Proof.
  intros [_ H] Hu Hx Hu' Hx' E. destruct (H _ _ _ Hu Hx) as (row & Hr & Hs). destruct (H _ _ _ Hu' Hx') as (row' & Hr' & Hs'). rewrite E, Hr' in Hr. injection Hr as ->. by eapply row_owner.
Qed.

(** The rows of one user change, and its items with them. *)
Lemma items_change a last m m' id u u' : items_synced a last m -> a !! id = Some u ->
  (forall i, i ∉ id_of <$> items u -> i ∉ id_of <$> items u' -> m' !! i = m !! i) ->
  (forall i row, m' !! i = Some row -> i ∈ id_of <$> items u \/ i ∈ id_of <$> items u' -> exists x, x ∈ items u' /\ id_of x = i /\ Forall2 stored (row_of id x) row) ->
  (forall x, x ∈ items u' -> exists row, m' !! id_of x = Some row /\ Forall2 stored (row_of id x) row) ->
  (forall x id2 u2 x2, x ∈ items u' -> a !! id2 = Some u2 -> id2 <> id -> x2 ∈ items u2 -> id_of x <> id_of x2) ->
  items_synced (<[id := u']> a) last m'.
Proof.
  intros Hs Hu Hsame Hrows Hitems Hother. pose proof Hs as [Hs1 Hs2]. split.
  - intros i row Hi. destruct (decide (i ∈ (id_of <$> items u) ++ (id_of <$> items u'))) as [Hin|Hn].
    + apply elem_of_app in Hin. destruct (Hrows i row Hi Hin) as (y & Hy & Hid & Hst). exists id, y. split; [done|]. split; [done|]. by rewrite lookup_insert, decide_True.
    + rewrite not_elem_of_app in Hn. destruct Hn as [Hn1 Hn2]. rewrite Hsame in Hi by done. destruct (Hs1 _ _ Hi) as (id0 & x & Hx & Hst & Hin). exists id0, x. split; [done|]. split; [done|].
      destruct (decide (id = id0)) as [<-|Hne]; [|by rewrite lookup_insert_ne]. rewrite Hu in Hin. destruct Hn1. rewrite <- Hx. by apply list_elem_of_fmap_2.
  - intros id0 u0 x Hu0 Hx. destruct (decide (id = id0)) as [<-|Hne].
    + rewrite lookup_insert, decide_True in Hu0 by done. injection Hu0 as <-. by apply Hitems.
    + rewrite lookup_insert_ne in Hu0 by done. destruct (Hs2 _ _ _ Hu0 Hx) as (row & Hr & Hst). exists row. split; [|done]. rewrite Hsame; [done| |].
      * intros (y & E & Hy)%list_elem_of_fmap. apply Hne. by eapply (items_owner a last m id id0 u u0 y x).
      * intros (y & E & Hy)%list_elem_of_fmap. by apply (Hother y id0 u0 x Hy Hu0 (not_eq_sym Hne) Hx).
Qed.

Lemma items_others a last m id u x : items_synced a last m -> a !! id = Some u -> x ∈ items u ->
  forall id2 u2 x2, a !! id2 = Some u2 -> id2 <> id -> x2 ∈ items u2 -> id_of x <> id_of x2.
Proof. intros Hs Hu Hx id2 u2 x2 Hu2 Hne Hx2 E. apply Hne. symmetry. by eapply (items_owner a last m id id2 u u2 x x2). Qed.

(** Items of other kinds change. *)
Lemma items_frame a last m id u u' : items_synced a last m -> a !! id = Some u -> (forall x, x ∈ items u' <-> x ∈ items u) -> items_synced (<[id := u']> a) last m.
Proof.
  intros Hs Hu Heq. apply (items_change a last m m id u u'); [done|done|done| | |].
  - intros i row Hi Hin. assert (Hin' : i ∈ id_of <$> items u). { destruct Hin as [?|(x & -> & Hx)%list_elem_of_fmap]; [done|]. apply list_elem_of_fmap_2. by apply Heq. }
    apply list_elem_of_fmap in Hin' as (x & -> & Hx). exists x. split; [by apply Heq|]. split; [done|]. destruct (proj2 Hs _ _ _ Hu Hx) as (row' & Hr & Hst). by replace row with row' by congruence.
  - intros x Hx. apply (proj2 Hs id u); [done|]. by apply Heq.
  - intros x id2 u2 x2 Hx Hu2 Hne Hx2. apply Heq in Hx. exact (items_others a last m id u x Hs Hu Hx id2 u2 x2 Hu2 Hne Hx2).
Qed.

(** An item is added or replaced, and its row with it. *)
Lemma items_put a last m id u u' x row : items_synced a last m -> a !! id = Some u -> m !! id_of x = None \/ id_of x ∈ id_of <$> items u ->
  (forall y, y ∈ items u' <-> y ∈ items u /\ id_of y <> id_of x \/ y = x) -> Forall2 stored (row_of id x) row ->
  items_synced (<[id := u']> a) last (<[id_of x := row]> m).
Proof.
  intros Hs Hu Hx Heq Hst.
  assert (Hrow : forall y, y ∈ items u -> id_of y <> id_of x -> exists row', <[id_of x := row]> m !! id_of y = Some row' /\ Forall2 stored (row_of id y) row').
  { intros y Hy Hne. rewrite lookup_insert_ne by done. by apply (proj2 Hs id u). }
  apply (items_change a last m _ id u u'); [done|done| | | |].
  - intros i _ Hn. rewrite lookup_insert_ne; [done|]. intros <-. apply Hn. apply list_elem_of_fmap_2. apply Heq. by right.
  - intros i row' Hi Hin. destruct (Z.eq_dec i (id_of x)) as [->|Hne].
    + rewrite lookup_insert, decide_True in Hi by done. injection Hi as <-. exists x. split; [apply Heq; by right|done].
    + assert (Hex : exists y, y ∈ items u /\ id_of y = i).
      { destruct Hin as [(y & -> & Hy)%list_elem_of_fmap|(y & -> & Hy)%list_elem_of_fmap]; [by exists y|]. apply Heq in Hy as [[Hy _]| ->]; [by exists y|done]. }
      destruct Hex as (y & Hy & <-). exists y. split; [apply Heq; by left|]. split; [done|]. destruct (Hrow y Hy Hne) as (row2 & Hr2 & Hs2). by replace row' with row2 by congruence.
  - intros y [[Hy Hne]| ->]%Heq; [by apply Hrow|]. exists row. by rewrite lookup_insert, decide_True.
  - intros y id2 u2 x2 Hy Hu2 Hne Hx2. apply Heq in Hy as [[Hy _]| ->]; [exact (items_others a last m id u y Hs Hu Hy id2 u2 x2 Hu2 Hne Hx2)|]. destruct Hx as [Hn|(y & E & Hy)%list_elem_of_fmap].
    + intros E. destruct (proj2 Hs _ _ _ Hu2 Hx2) as (row2 & Hr2 & _). congruence.
    + rewrite E. exact (items_others a last m id u y Hs Hu Hy id2 u2 x2 Hu2 Hne Hx2).
Qed.

(** An item is removed, and its row with it. *)
Lemma items_remove a last m id u u' x : items_synced a last m -> a !! id = Some u -> x ∈ items u ->
  (forall y, y ∈ items u' <-> y ∈ items u /\ id_of y <> id_of x) -> items_synced (<[id := u']> a) last (delete (id_of x) m).
Proof.
  intros Hs Hu Hx Heq.
  assert (Hrow : forall y, y ∈ items u -> id_of y <> id_of x -> exists row', delete (id_of x) m !! id_of y = Some row' /\ Forall2 stored (row_of id y) row').
  { intros y Hy Hne. rewrite lookup_delete_ne by done. by apply (proj2 Hs id u). }
  apply (items_change a last m _ id u u'); [done|done| | | |].
  - intros i Hn _. rewrite lookup_delete_ne; [done|]. intros <-. apply Hn. by apply list_elem_of_fmap_2.
  - intros i row' Hi Hin. apply lookup_delete_Some in Hi as [Hne Hi]. assert (Hex : exists y, y ∈ items u /\ id_of y = i).
    { destruct Hin as [(y & -> & Hy)%list_elem_of_fmap|(y & -> & Hy)%list_elem_of_fmap]; [by exists y|]. apply Heq in Hy as [Hy _]. by exists y. }
    destruct Hex as (y & Hy & <-). exists y. split; [apply Heq; by split; [|apply not_eq_sym]|]. split; [done|]. destruct (proj2 Hs _ _ _ Hu Hy) as (row2 & Hr2 & Hs2). by replace row' with row2 by congruence.
  - intros y [Hy Hne]%Heq. by apply Hrow.
  - intros y id2 u2 x2 [Hy _]%Heq Hu2 Hne Hx2. exact (items_others a last m id u y Hs Hu Hy id2 u2 x2 Hu2 Hne Hx2).
Qed.

Lemma items_new_user a last m id u : items_synced a last m -> a !! id = None -> last < id -> items u = [] -> items_synced (<[id := u]> a) id m.
Proof.
  intros [Hs1 Hs2] Hn Hl Hi. split.
  - intros i row Hrow. destruct (Hs1 _ _ Hrow) as (id0 & x & Hx & Hst & Hin). exists id0, x. split; [done|]. split; [done|].
    destruct (decide (id = id0)) as [<-|Hne]; [rewrite Hn in Hin; lia|]. rewrite lookup_insert_ne by done. destruct (a !! id0); [done|lia].
  - intros id0 u0 x Hu0 Hx. destruct (decide (id = id0)) as [<-|Hne]; [|rewrite lookup_insert_ne in Hu0 by done; by eapply Hs2].
    rewrite lookup_insert, decide_True in Hu0 by done. injection Hu0 as <-. rewrite Hi in Hx. set_solver.
Qed.

(** A user is dropped, and some or all of the rows of its items. *)
Lemma items_drop_user a last m m' id u : items_synced a last m -> a !! id = Some u -> 0 <= id <= last ->
  (forall i, i ∉ id_of <$> items u -> m' !! i = m !! i) -> m' ⊆ m -> items_synced (delete id a) last m'.
Proof.
  intros Hs Hu Hl Hsame Hsub. pose proof Hs as [Hs1 Hs2]. split.
  - intros i row Hrow. pose proof (lookup_weaken _ _ _ _ Hrow Hsub) as Hm. destruct (Hs1 _ _ Hm) as (id0 & x & Hx & Hst & Hin). exists id0, x. split; [done|]. split; [done|].
    destruct (decide (id = id0)) as [<-|Hne]; [by rewrite lookup_delete, decide_True|by rewrite lookup_delete_ne].
  - intros id0 u0 x [Hne Hu0]%lookup_delete_Some Hx. destruct (Hs2 _ _ _ Hu0 Hx) as (row & Hr & Hst). exists row. split; [|done]. rewrite Hsame; [done|].
    intros (y & E & Hy)%list_elem_of_fmap. apply Hne. by eapply (items_owner a last m id id0 u u0 y x).
Qed.
End Items.

(** ** Items with numbers and names *)

Section Named.
Context {I : Type} (id_of : I -> Z) (name_of : I -> list Z).

Definition named_ok (l : list I) : Prop := NoDup (id_of <$> l) /\ NoDup (name_of <$> l).

Lemma nodup_inj {A B} (f : A -> B) l x y : NoDup (f <$> l) -> x ∈ l -> y ∈ l -> f x = f y -> x = y.
Proof.
  intros Hnd Hx Hy E. apply list_elem_of_lookup in Hx as [i Hi]. apply list_elem_of_lookup in Hy as [j Hj].
  assert (i = j) as ->; [|congruence]. apply (NoDup_lookup (f <$> l) i j (f x)); [done| |]; rewrite list_lookup_fmap; [by rewrite Hi|by rewrite Hj, E].
Qed.

Lemma find_named l x : named_ok l -> x ∈ l -> List.find (fun y => bool_decide (name_of y = name_of x)) l = Some x.
Proof.
  intros [_ Hn] Hx. destruct (List.find _ l) as [y|] eqn:E.
  - apply List.find_some in E as [Hy%list_elem_of_In Hname%bool_decide_eq_true]. f_equal. by eapply nodup_inj.
  - apply list_elem_of_In in Hx. pose proof (List.find_none _ _ E x Hx) as H. cbv beta in H. by rewrite bool_decide_eq_true_2 in H.
Qed.

Lemma erase_named l x : named_ok l -> x ∈ l ->
  (forall y, y ∈ erase_first (fun y => bool_decide (name_of y = name_of x)) l <-> y ∈ l /\ id_of y <> id_of x) /\
  named_ok (erase_first (fun y => bool_decide (name_of y = name_of x)) l).
Proof.
  intros Hok Hx. assert (Hsub : sublist (erase_first (fun y => bool_decide (name_of y = name_of x)) l) l).
  { clear. induction l as [|a l IH]; [constructor|]. cbn. destruct (bool_decide _); [by constructor|by constructor]. }
  split; [|split; (eapply sublist_NoDup; [apply Hok|by apply fmap_sublist])].
  intros y. split.
  - intros Hy. assert (Hyl : y ∈ l) by (by eapply elem_of_submseteq; [|apply sublist_submseteq]). split; [done|]. intros E. assert (y = x) as -> by (by eapply (nodup_inj id_of); [apply Hok| | |]).
    destruct Hok as [_ Hn]. clear -Hy Hn. induction l as [|a l IH]; cbn in *; [set_solver|]. apply NoDup_cons in Hn as [Ha Hn]. destruct (bool_decide (name_of a = name_of x)) eqn:E.
    + apply bool_decide_eq_true in E. apply Ha. rewrite E. by apply list_elem_of_fmap_2.
    + apply elem_of_cons in Hy as [->|Hy]; [by rewrite bool_decide_eq_true_2 in E|by apply IH].
  - intros [Hy Hne]. destruct Hok as [Hi Hn]. clear -Hy Hne Hn Hx. induction l as [|a l IH]; cbn in *; [set_solver|]. apply NoDup_cons in Hn as [Ha Hn]. destruct (bool_decide (name_of a = name_of x)) eqn:E.
    + apply bool_decide_eq_true in E. apply elem_of_cons in Hy as [->|Hy]; [|done]. apply elem_of_cons in Hx as [->|Hx]; [done|]. destruct Ha. rewrite E. by apply list_elem_of_fmap_2.
    + apply elem_of_cons in Hy as [->|Hy]; [apply elem_of_cons; by left|apply elem_of_cons; right]. apply IH; [done| |done].
      apply elem_of_cons in Hx as [->|Hx]; [by rewrite bool_decide_eq_true_2 in E|done].
Qed.

Lemma update_named f l x : named_ok l -> x ∈ l -> (forall y, id_of (f y) = id_of y /\ name_of (f y) = name_of y) ->
  (forall y, y ∈ update_first (fun y => bool_decide (name_of y = name_of x)) f l <-> y ∈ l /\ id_of y <> id_of x \/ y = f x) /\
  named_ok (update_first (fun y => bool_decide (name_of y = name_of x)) f l).
Proof.
  intros Hok Hx Hf.
  assert (Hids : id_of <$> update_first (fun y => bool_decide (name_of y = name_of x)) f l = id_of <$> l).
  { clear -Hf. induction l as [|a l IH]; [done|]. cbn. destruct (bool_decide _); cbn; [by rewrite (proj1 (Hf a))|by rewrite IH]. }
  assert (Hnames : name_of <$> update_first (fun y => bool_decide (name_of y = name_of x)) f l = name_of <$> l).
  { clear -Hf. induction l as [|a l IH]; [done|]. cbn. destruct (bool_decide _); cbn; [by rewrite (proj2 (Hf a))|by rewrite IH]. }
  split; [|unfold named_ok; by rewrite Hids, Hnames]. destruct Hok as [Hi Hn]. clear Hids Hnames. intros y. induction l as [|a l IH]; [set_solver|].
  cbn in *. apply NoDup_cons in Hi as [Hai Hi]. apply NoDup_cons in Hn as [Han Hn]. destruct (bool_decide (name_of a = name_of x)) eqn:E.
  - apply bool_decide_eq_true in E. assert (a = x) as ->. { apply elem_of_cons in Hx as [->|Hx]; [done|]. destruct Han. rewrite E. by apply list_elem_of_fmap_2. }
    rewrite !elem_of_cons. split; [intros [->|Hy]; [by right|left]|intros [[[->|Hy] Hne]| ->]; [done|by right|by left]]. split; [by right|].
    intros Eid. apply Hai. rewrite <- Eid. by apply list_elem_of_fmap_2.
  - assert (Hxl : x ∈ l). { apply elem_of_cons in Hx as [->|Hx]; [by rewrite bool_decide_eq_true_2 in E|done]. }
    rewrite !elem_of_cons, (IH Hi Hn Hxl). split.
    + intros [->|[[Hy Hne]| ->]]; [left|left|by right]; (split; [by auto|]); [|done]. intros Eid. apply Hai. rewrite Eid. by apply list_elem_of_fmap_2.
    + intros [[[->|Hy] Hne]| ->]; auto.
Qed.

Lemma append_named l x : named_ok l -> List.find (fun y => (id_of y =? id_of x) || bool_decide (name_of y = name_of x)) l = None -> named_ok (l ++ [x]).
Proof.
  intros [Hi Hn] Hf. assert (H : forall y, y ∈ l -> id_of y <> id_of x /\ name_of y <> name_of x).
  { intros y Hy%list_elem_of_In. pose proof (List.find_none _ _ Hf y Hy) as H. cbv beta in H. apply orb_false_iff in H as [?%Z.eqb_neq ?%bool_decide_eq_false]. done. }
  split; rewrite fmap_app; apply NoDup_app; (split; [done|]); (split; [|apply NoDup_singleton]); intros z (y & -> & Hy)%list_elem_of_fmap Hz%list_elem_of_singleton; destruct (H y Hy); congruence.
Qed.

(** A registry with the records of the items. *)
Section Registry.
Context {R : Type} {IX : Indexed R} (rec_of : I -> R).
Hypothesis rec_id : forall x, m_id_of (rec_of x) = id_of x.

Definition reg_matches (l : list I) (reg : Registry R) : Prop := forall i r, reg !! i = Some r <-> exists x, x ∈ l /\ id_of x = i /\ r = rec_of x.

Lemma reg_append l reg x : named_ok (l ++ [x]) -> reg_matches l reg -> (forall y, y ∈ l -> unique (rec_of x) (rec_of y) = false) ->
  reg_matches (l ++ [x]) (registry_insert (rec_of x) reg).
Proof.
  intros [Hi _] Hm Hu. rewrite fmap_app in Hi. apply NoDup_app in Hi as (_ & Hi & _).
  assert (Hn : reg !! id_of x = None).
  { destruct (reg !! id_of x) as [r|] eqn:E; [|done]. apply Hm in E as (y & Hy & Hid & _). destruct (Hi (id_of y)); [by apply list_elem_of_fmap_2|]. rewrite Hid. cbn. set_solver. }
  unfold registry_insert. rewrite rec_id, Hn, bool_decide_eq_true_2.
  - intros i r. destruct (decide (id_of x = i)) as [<-|Hne].
    + rewrite lookup_insert, decide_True by done. split; [intros [= <-]; exists x; split; [set_solver|done]|]. intros (y & Hy & Hid & ->). apply elem_of_app in Hy as [Hy|Hy%list_elem_of_singleton]; [|congruence].
      destruct (Hi (id_of y)); [by apply list_elem_of_fmap_2|]. rewrite Hid. cbn. set_solver.
    + rewrite lookup_insert_ne by done. rewrite (Hm i r). split; intros (y & Hy & Hid & ->); exists y; (split; [|done]); [set_solver|].
      apply elem_of_app in Hy as [Hy|Hy%list_elem_of_singleton]; [done|congruence].
  - intros i r Hr. apply Hm in Hr as (y & Hy & _ & ->). by apply Hu.
Qed.

Lemma reg_erase l l' reg x : reg_matches l reg -> (forall y, y ∈ l' <-> y ∈ l /\ id_of y <> id_of x) -> reg_matches l' (delete (id_of x) reg).
Proof.
  intros Hm Hl i r. rewrite lookup_delete_Some, (Hm i r). split.
  - intros (Hne & y & Hy & <- & ->). exists y. split; [apply Hl; by split; [|apply not_eq_sym]|done].
  - intros (y & [Hy Hne]%Hl & <- & ->). split; [by apply not_eq_sym|]. by exists y.
Qed.

Lemma reg_update f g l l' reg x : reg_matches l reg -> x ∈ l -> named_ok l -> id_of (f x) = id_of x -> rec_of (f x) = g (rec_of x) ->
  (forall y, y ∈ l' <-> y ∈ l /\ id_of y <> id_of x \/ y = f x) -> reg_matches l' (alter g (id_of x) reg).
Proof.
  intros Hm Hx [Hi _] Hid Hg Hl i r. destruct (decide (id_of x = i)) as [<-|Hne].
  - rewrite lookup_alter, decide_True by done. assert (Hr : reg !! id_of x = Some (rec_of x)) by (apply Hm; by exists x). rewrite Hr. cbn. split.
    + intros [= <-]. exists (f x). split; [apply Hl; by right|]. by rewrite Hg.
    + intros (y & Hy & Ey & ->). apply Hl in Hy as [[_ Hne]| ->]; [done|]. by rewrite Hg.
  - rewrite lookup_alter_ne by done. rewrite (Hm i r). split; intros (y & Hy & <- & ->); exists y; (split; [|done]).
    + apply Hl. left. by split; [|apply not_eq_sym].
    + apply Hl in Hy as [[Hy _]| ->]; [done|]. by rewrite Hid in Hne.
Qed.

(** The records of a registry, in any order, are those of the items. *)
Lemma reg_records l reg : named_ok l -> reg_matches l reg -> (map_to_list reg).*2 ≡ₚ rec_of <$> l.
Proof.
  intros [Hi _] Hm. assert (Hreg : reg = list_to_map ((fun x => (id_of x, rec_of x)) <$> l)).
  { apply map_eq. intros i. destruct (reg !! i) as [r|] eqn:E.
    - symmetry. apply elem_of_list_to_map_1; [rewrite <- list_fmap_compose; exact Hi|]. apply Hm in E as (x & Hx & <- & ->). apply list_elem_of_fmap. by exists x.
    - symmetry. apply not_elem_of_list_to_map_1. rewrite <- list_fmap_compose. intros (x & -> & Hx)%list_elem_of_fmap. cbn in E.
      assert (reg !! id_of x = Some (rec_of x)) by (apply Hm; by exists x). congruence. }
  rewrite Hreg, map_to_list_to_map by (rewrite <- list_fmap_compose; exact Hi). by rewrite <- list_fmap_compose.
Qed.
End Registry.
End Named.

(** ** Requests that are recorded

    An invariant that relates the accounts of an instance, the records of its
    registry and the rows of the system tables, and its preservation by every
    request that ends normally. *)

Local Open Scope Z_scope.

(** Times that come back from the tables.  A row keeps the UTC calendar time that
    [gmtime_r] gives and is read with [mktime], which takes local time: these are
    all times when the time zone of the process is UTC. *)
Definition time_ok {CAL : Calendar} (t : Z) : Prop := toEpochTimestamp (RawDateTime_of_time t) = t.

Section Persist.
Context {T : Type} {RT : RowTable T} {RL : RowTableLaws T} {X : Externals} {CAL : Calendar} {Y : UserCrypto} {YL : UserCryptoLaws} {TV : Traversal}.
Notation state := (instance_state T).
Notation IM := (IM (T := T)).

(** ** The invariant *)

Definition token_ok (t : UserToken) : Prop :=
  isValidDatabaseObjectName (tk_name t) = true /\ match tk_expirationTimestamp t with Some e => time_ok e | None => True end.

Record user_ok (u : User) : Prop := {
  uo_id : 0 < us_id u < 2 ^ 32;
  uo_name : isValidDatabaseObjectName (us_name u) = true;
  uo_keys : named_ok ak_id ak_name (us_accessKeys u);
  uo_key_names : Forall (fun k => isValidDatabaseObjectName (ak_name k) = true) (us_accessKeys u);
  uo_tokens : named_ok tk_id tk_name (us_tokens u);
  uo_token_values : NoDup (tk_value <$> us_tokens u);
  uo_tokens_ok : Forall token_ok (us_tokens u)
}.

(** The record of a user in the registry. *)
Record matches (r : UserRecord) (u : User) : Prop := {
  ma_id : usr_id r = us_id u;
  ma_name : usr_name r = us_name u;
  ma_realName : usr_realName r = us_realName u;
  ma_description : usr_description r = us_description u;
  ma_active : usr_active r = us_active u;
  ma_keys : reg_matches ak_id (UserAccessKeyRecord_of (us_id u)) (us_accessKeys u) (usr_accessKeys r);
  ma_tokens : reg_matches tk_id (UserTokenRecord_of (us_id u)) (us_tokens u) (usr_tokens r)
}.

Definition users_synced (a : accounts) (m : gmap Z (list Variant)) : Prop :=
  forall id, match a !! id, m !! id with Some u, Some row => Forall2 stored (user_row u) row | None, None => True | _, _ => False end.
Notation keys_synced := (items_synced ak_id key_row us_accessKeys).
Notation tokens_synced := (items_synced tk_id token_row us_tokens).
Definition perm_items (u : User) : list (UserPermissionKey * UserPermissionDataEx) := map_to_list (us_grantedPermissions u).
Definition perm_id (kd : UserPermissionKey * UserPermissionDataEx) : Z := pd_id (snd kd).
(** Every row of a permission can be read; [b] tells whether they are those of the
    accounts. *)
Record perms_synced (b : bool) (a : accounts) (last : Z) (m : gmap Z (list Variant)) : Prop := {
  ps_items : b = true -> items_synced perm_id permission_row perm_items a last m;
  ps_fit : map_Forall (fun _ u => Forall permission_fits (perm_items u)) a;
  ps_rows : forall i row, m !! i = Some row -> exists id kd, 0 <= id < 2 ^ 32 /\ permission_fits kd /\ pd_id (snd kd) = i /\ Forall2 stored (permission_row id kd) row
}.

(** Room for the numbers of [n] more requests. *)
Definition lasts_ok (n : nat) (R : row_view) : Prop := forall t, 0 <= rm_last (R t) /\ rm_last (R t) + Z.of_nat n < 2 ^ 32 - 1.

Record synced (b : bool) (n : nat) (s : state) (R : row_view) : Prop := {
  sy_inst : inst_ok s;
  sy_db : db_ok (m_systemDatabase s) R;
  sy_lasts : lasts_ok n R;
  sy_rows : forall t i, is_Some (rm_rows (R t) !! i) -> i <= rm_last (R t);
  sy_records : forall id, match m_userRegistry s !! id, accounts_of s !! id with Some r, Some u => matches r u | None, None => True | _, _ => False end;
  sy_ok : map_Forall (fun _ u => user_ok u) (accounts_of s);
  sy_users : users_synced (accounts_of s) (rm_rows (R SysUsers));
  sy_keys : keys_synced (accounts_of s) (rm_last (R SysUsers)) (rm_rows (R SysUserAccessKeys));
  sy_tokens : tokens_synced (accounts_of s) (rm_last (R SysUsers)) (rm_rows (R SysUserTokens));
  sy_perms : perms_synced b (accounts_of s) (rm_last (R SysUsers)) (rm_rows (R SysUserPermissions))
}.

(** ** General facts *)

Lemma key_owner id id' i i' row : Forall2 stored (key_row id i) row -> Forall2 stored (key_row id' i') row -> id = id'.
Proof. apply stored_owner. Qed.
Lemma token_owner id id' i i' row : Forall2 stored (token_row id i) row -> Forall2 stored (token_row id' i') row -> id = id'.
Proof. apply stored_owner. Qed.
Lemma permission_owner id id' i i' row : Forall2 stored (permission_row id i) row -> Forall2 stored (permission_row id' i') row -> id = id'.
Proof. apply stored_owner. Qed.

Lemma items_last {I} (id_of : I -> Z) row_of items a last last' m : last <= last' -> items_synced id_of row_of items a last m -> items_synced id_of row_of items a last' m.
Proof.
  intros Hl [H1 H2]. split; [|done]. intros i row Hi. destruct (H1 _ _ Hi) as (id & x & Hx & Hs & Hin). exists id, x. split; [done|]. split; [done|]. destruct (a !! id); [done|lia].
Qed.

Lemma synced_weaken b n s R : synced b (S n) s R -> synced b n s R.
Proof. intros []. constructor; try done. intros t. destruct (sy_lasts0 t). split; [done|]. lia. Qed.
Lemma synced_loaded b n s s' R : loaded s s' -> inst_ok s' -> synced b n s R -> synced b n s' R.
Proof. intros (Hr & Hd & _ & Ha) Hi []. constructor; rewrite ?Hr, ?Hd, ?Ha; done. Qed.

(** The record and the account of a loaded user. *)
Lemma synced_user b n s R id u : synced b n s R -> m_users s !! id = Some u -> exists r, m_userRegistry s !! id = Some r /\ matches r u /\ user_ok u /\ us_id u = id.
Proof.
  intros H Hu. pose proof (sy_records _ _ _ _ H id) as Hm. pose proof (lookup_loaded _ _ _ Hu) as Ha. rewrite Ha in Hm. destruct (m_userRegistry s !! id) as [r|]; [|done].
  exists r. split; [done|]. split; [done|]. split; [by apply (sy_ok _ _ _ _ H _ _ Ha)|]. by apply (proj1 (sy_inst _ _ _ _ H) _ _ Hu).
Qed.

Lemma alter_known {A} (f : A -> A) (m : gmap Z A) i x : m !! i = Some x -> alter f i m = <[i := f x]> m.
Proof.
  intros H. apply map_eq. intros j. destruct (decide (i = j)) as [<-|Hne]; [by rewrite lookup_alter, lookup_insert, !decide_True, H|by rewrite lookup_alter_ne, lookup_insert_ne].
Qed.

(** A loaded user changes, with its record and its rows. *)
Lemma synced_change b n n' s R s' R' id u r u' r' : synced b n s R -> m_users s !! id = Some u -> m_userRegistry s !! id = Some r ->
  m_users s' = <[id := u']> (m_users s) -> m_userRegistry s' = <[id := r']> (m_userRegistry s) -> us_id u' = us_id u -> us_name u' = us_name u ->
  user_ok u' -> matches r' u' -> db_ok (m_systemDatabase s') R' -> lasts_ok n' R' -> (forall t i, is_Some (rm_rows (R' t) !! i) -> i <= rm_last (R' t)) ->
  users_synced (<[id := u']> (accounts_of s)) (rm_rows (R' SysUsers)) ->
  keys_synced (<[id := u']> (accounts_of s)) (rm_last (R' SysUsers)) (rm_rows (R' SysUserAccessKeys)) ->
  tokens_synced (<[id := u']> (accounts_of s)) (rm_last (R' SysUsers)) (rm_rows (R' SysUserTokens)) ->
  perms_synced b (<[id := u']> (accounts_of s)) (rm_last (R' SysUsers)) (rm_rows (R' SysUserPermissions)) ->
  synced b n' s' R'.
Proof.
  intros H Hu Hr Eu Er Hid Hname Hok Hm Hdb Hlasts Hrows H1 H2 H3 H4.
  assert (Ha : accounts_of s' = <[id := u']> (accounts_of s)).
  { apply map_eq. intros j. rewrite accounts_lookup, Eu, Er. destruct (decide (id = j)) as [<-|Hne]; [by rewrite !lookup_insert, !decide_True|]. rewrite !lookup_insert_ne by done. by rewrite accounts_lookup. }
  destruct (synced_user _ _ _ _ _ _ H Hu) as (r0 & Hr0 & Hm0 & _ & Hid0). rewrite Hr in Hr0. injection Hr0 as <-.
  assert (Hrec : usr_id r' = id /\ usr_name r' = usr_name r) by (rewrite (ma_id _ _ Hm), (ma_name _ _ Hm), (ma_name _ _ Hm0), Hid, Hname; done).
  constructor; rewrite ?Ha; try done.
  - destruct (sy_inst _ _ _ _ H) as [Hus [Hri Hrn]]. split; [|split].
    + rewrite Eu, Er. apply map_Forall_insert_2; [split; [by rewrite Hid|rewrite lookup_insert, decide_True by done; by eexists]|].
      intros j uj Hj. destruct (Hus _ _ Hj) as [? ?]. split; [done|]. apply lookup_insert_is_Some'. by right.
    + rewrite Er. apply map_Forall_insert_2; [apply Hrec|done].
    + rewrite Er. assert (Hlk : forall j rj, <[id := r']> (m_userRegistry s) !! j = Some rj -> exists rj', m_userRegistry s !! j = Some rj' /\ usr_name rj' = usr_name rj).
      { intros j rj. destruct (decide (id = j)) as [<-|Hne]; [rewrite lookup_insert, decide_True by done; intros [= <-]; exists r; split; [done|symmetry; apply Hrec]|rewrite lookup_insert_ne by done; by eauto]. }
      intros i j ri rj Hi Hj Hne. destruct (Hlk _ _ Hi) as (ri' & Hi' & Eri). destruct (Hlk _ _ Hj) as (rj' & Hj' & Erj). pose proof (Hrn _ _ _ _ Hi' Hj' Hne) as Hx. cbn in *. by rewrite <- Eri, <- Erj.
  - intros j. rewrite Er. destruct (decide (id = j)) as [<-|Hne]; [by rewrite !lookup_insert, !decide_True|]. rewrite !lookup_insert_ne by done. apply (sy_records _ _ _ _ H).
  - apply map_Forall_insert_2; [done|apply (sy_ok _ _ _ _ H)].
Qed.

(** ** Running requests *)

Notation ends c s Q := (after c s Q (fun _ => True)).

Lemma ends_sys {A} (c : SM (system_tables T) UserError A) s R (Q0 : A -> row_view -> Prop) (Q : A -> state -> Prop) : db_ok (m_systemDatabase s) R -> computes c R Q0 ->
  (forall x db R', db_ok db R' -> Q0 x R' -> Q x (with_database db s)) -> ends (sys c) s Q.
Proof. intros Hdb Hc HQ. destruct (Hc _ Hdb) as (x & db & R' & E & Hdb' & HQ0). unfold after, sys, embed. rewrite E. by eapply HQ. Qed.

Lemma ends_transaction {A} now c (k : TransactionParameters -> IM A) s R Q : db_ok (m_systemDatabase s) R ->
  (forall tp db, db_ok db R -> ends (k tp) (with_database db s) Q) -> ends (tp <-- sys (new_transaction now c) ;; k tp) s Q.
Proof.
  intros Hdb HQ. apply after_bind. apply (ends_sys _ s R (fun _ R' => R' = R)); [done|by apply computes_transaction|]. intros tp db R' Hdb' ->. by apply HQ.
Qed.

(** A generated number is new. *)
Lemma ends_generate b n t s R (Q : Z -> state -> Prop) : synced b (S n) s R ->
  (forall id db R', synced b n (with_database db s) R' -> id = rm_last (R' t) -> rm_rows (R' t) !! id = None -> 0 < id < 2 ^ 32 -> (t = SysUsers -> accounts_of s !! id = None) -> Q id (with_database db s)) ->
  ends (sys (table t rt_generateNextUserTrid)) s Q.
Proof.
  intros H HQ. pose proof (sy_lasts _ _ _ _ H t) as [Hl1 Hl2].
  apply (ends_sys _ s R (fun id R' => id = rm_last (R t) + 1 /\ R' = upd t (set_last (rm_last (R t) + 1) (R t)) R)); [apply H|apply computes_next; [lia|done]|].
  intros id db R' Hdb [-> ->]. assert (Hn : rm_rows (R t) !! (rm_last (R t) + 1) = None).
  { destruct (rm_rows (R t) !! (rm_last (R t) + 1)) eqn:E; [|done]. pose proof (sy_rows _ _ _ _ H t _ (ex_intro _ _ E)). lia. }
  assert (Hrows : forall t', rm_rows (upd t (set_last (rm_last (R t) + 1) (R t)) R t') = rm_rows (R t')).
  { intros t'. unfold upd. by destruct (decide (t' = t)) as [->|]. }
  assert (Hlast : forall t', rm_last (R t') <= rm_last (upd t (set_last (rm_last (R t) + 1) (R t)) R t')).
  { intros t'. unfold upd. destruct (decide (t' = t)) as [->|]; cbn; lia. }
  apply (HQ _ _ (upd t (set_last (rm_last (R t) + 1) (R t)) R)); [|by rewrite upd_same|by rewrite Hrows|lia|].
  - destruct H. constructor; try done; rewrite ?Hrows.
    + intros t'. unfold upd. destruct (decide (t' = t)) as [->|]; cbn; [lia|]. destruct (sy_lasts0 t'). lia.
    + intros t' i. rewrite Hrows. intros Hi. specialize (sy_rows0 t' i Hi). specialize (Hlast t'). lia.
    + done.
    + by apply (items_last _ _ _ _ (rm_last (R SysUsers))).
    + by apply (items_last _ _ _ _ (rm_last (R SysUsers))).
    + destruct sy_perms0 as [Hp1 Hp2 Hp3]. split; [|done|done]. intros Hb. apply (items_last _ _ _ _ (rm_last (R SysUsers))); [done|by apply Hp1].
  - intros ->. pose proof (sy_users _ _ _ _ H (rm_last (R SysUsers) + 1)) as Hx. rewrite Hn in Hx. by destruct (accounts_of s !! _).
Qed.

(** The beginning of a request on a user. *)
Lemma ends_request b n c ty mask name {A} (k : UserRecord -> User -> IM A) s R Q : synced b n s R ->
  (forall r u s', synced b n s' R -> m_userRegistry s' !! usr_id r = Some r -> m_users s' !! usr_id r = Some u -> us_id u = usr_id r -> ends (k r u) s' Q) ->
  ends (require ty mask c ;;' r <-- user_record_checked name ;; u <-- findUserUnlocked_record r ;; k r u) s Q.
Proof.
  intros H Hk. apply after_bind. apply after_require; [apply H|done|done|]. intros s1 Hi1 Hl1 _. pose proof (synced_loaded _ _ _ _ _ Hl1 Hi1 H) as H1.
  apply after_bind. apply after_record; [done|done|]. intros r Hr _. apply after_bind. apply after_load; [done|done|done|]. intros u s2 Hi2 Hl2 Hu Hid.
  apply Hk; [by eapply synced_loaded|by rewrite (proj1 Hl2)|done|done].
Qed.

Lemma ends_request_item b n c ty mask name {A B} (find : UserRecord -> option B) (none : UserRecord -> IM A) (k : UserRecord -> B -> User -> IM A) s R Q : synced b n s R ->
  (forall r s', synced b n s' R -> ends (none r) s' Q) ->
  (forall r x u s', synced b n s' R -> find r = Some x -> m_userRegistry s' !! usr_id r = Some r -> m_users s' !! usr_id r = Some u -> us_id u = usr_id r -> ends (k r x u) s' Q) ->
  ends (require ty mask c ;;' r <-- user_record_checked name ;;
        match find r with None => none r | Some x => u <-- findUserUnlocked_record r ;; k r x u end) s Q.
Proof.
  intros H Hn Hk. apply after_bind. apply after_require; [apply H|done|done|]. intros s1 Hi1 Hl1 _. pose proof (synced_loaded _ _ _ _ _ Hl1 Hi1 H) as H1.
  apply after_bind. apply after_record; [done|done|]. intros r Hr _. destruct (find r) as [x|] eqn:Ex; [|by apply Hn]. apply after_bind. apply after_load; [done|done|done|].
  intros u s2 Hi2 Hl2 Hu Hid. apply Hk; [by eapply synced_loaded|done|by rewrite (proj1 Hl2)|done|done].
Qed.
End Persist.
