(* ===== verification/InstanceKept.v ===== *)
(** * Requests on access keys and tokens are recorded

    Every request on an access key or a token that ends normally leaves the rows
    of the system tables in step with the accounts. *)

From stdpp Require Import base list gmap.
Set Warnings "-clear-no-such-hyp,-notation-incompatible-prefix,-notation-for-abbreviation".
From Stdlib Require Import ZArith Lia String.
From S2P Require Import Prelude StateM Bytes CNum VariantType Variant RawDateTime ExprEval RecordReader CatalogRecords MasterColumn Table Users SystemTables Instance InstanceSpec InstanceRefine SystemTablesSpec InstancePersist.

Local Open Scope Z_scope.

Section Kept.
Context {T : Type} {RT : RowTable T} {RL : RowTableLaws T} {X : Externals} {CAL : Calendar} {Y : UserCrypto} {YL : UserCryptoLaws} {TV : Traversal}.
Notation state := (instance_state T).
Notation IM := (IM (T := T)).
Notation keys_synced := (items_synced ak_id key_row us_accessKeys).
Notation tokens_synced := (items_synced tk_id token_row us_tokens).
Notation ends c s Q := (after c s Q (fun _ => True)).

(** A computation that leaves what it changes recorded, when it ends normally. *)
Definition kept (b : bool) (n : nat) {A} (c : IM A) (s : state) : Prop := ends c s (fun _ s' => exists R', synced b n s' R').

Lemma kept_done b n {A} (c : IM A) s R : synced b (S n) s R -> (exists o, c s = (o, s)) -> kept b n c s.
Proof. intros H [o E]. unfold kept, after. rewrite E. destruct o; try done. exists R. by apply synced_weaken. Qed.

(** ** What does not change *)

Lemma users_frame a m id u u' : users_synced a m -> a !! id = Some u -> user_row u' = user_row u -> users_synced (<[id := u']> a) m.
Proof.
  intros H Hu E j. specialize (H j). destruct (decide (id = j)) as [<-|Hne]; [|by rewrite lookup_insert_ne]. rewrite lookup_insert, decide_True by done. rewrite Hu in H. by rewrite E.
Qed.
Lemma perms_frame b a last m id u u' : perms_synced b a last m -> a !! id = Some u -> us_grantedPermissions u' = us_grantedPermissions u -> perms_synced b (<[id := u']> a) last m.
Proof.
  intros [H1 H2 H3] Hu E. split; [|..|done].
  - intros Hb. apply (items_frame _ _ _ permission_owner _ _ _ _ u); [by apply H1|done|]. intros x. unfold perm_items. by rewrite E.
  - apply map_Forall_insert_2; [|done]. unfold perm_items. rewrite E. exact (H2 _ _ Hu).
Qed.
Lemma user_keys_frame a last m id u u' : keys_synced a last m -> a !! id = Some u -> us_accessKeys u' = us_accessKeys u -> keys_synced (<[id := u']> a) last m.
Proof. intros H Hu E. apply (items_frame _ _ _ key_owner _ _ _ _ u); [done|done|]. intros x. by rewrite E. Qed.
Lemma user_tokens_frame a last m id u u' : tokens_synced a last m -> a !! id = Some u -> us_tokens u' = us_tokens u -> tokens_synced (<[id := u']> a) last m.
Proof. intros H Hu E. apply (items_frame _ _ _ token_owner _ _ _ _ u); [done|done|]. intros x. by rewrite E. Qed.

(** Rows of one table are replaced. *)
Lemma rows_lasts n t rows R : lasts_ok n R -> lasts_ok n (upd t (set_rows rows (R t)) R).
Proof. intros H t'. specialize (H t'). unfold upd. by destruct (decide (t' = t)) as [->|]. Qed.
Lemma rows_bounded t rows (R : row_view) : (forall t' i, is_Some (rm_rows (R t') !! i) -> i <= rm_last (R t')) -> (forall i, is_Some (rows !! i) -> i <= rm_last (R t)) ->
  forall t' i, is_Some (rm_rows (upd t (set_rows rows (R t)) R t') !! i) -> i <= rm_last (upd t (set_rows rows (R t)) R t').
Proof. intros H Hr t' i. unfold upd. destruct (decide (t' = t)) as [->|]; [apply Hr|apply H]. Qed.

(** The access keys of a loaded user change, with their records and rows. *)
Lemma synced_keys_change b n s R s' id u r l' f rows' : synced b n s R -> m_users s !! id = Some u -> m_userRegistry s !! id = Some r ->
  m_users s' = <[id := set_accessKeys l' u]> (m_users s) -> m_userRegistry s' = <[id := map_accessKeys f r]> (m_userRegistry s) ->
  db_ok (m_systemDatabase s') (upd SysUserAccessKeys (set_rows rows' (R SysUserAccessKeys)) R) ->
  named_ok ak_id ak_name l' -> Forall (fun k => isValidDatabaseObjectName (ak_name k) = true) l' ->
  reg_matches ak_id (UserAccessKeyRecord_of (us_id u)) l' (f (usr_accessKeys r)) -> (forall i, is_Some (rows' !! i) -> i <= rm_last (R SysUserAccessKeys)) ->
  keys_synced (<[id := set_accessKeys l' u]> (accounts_of s)) (rm_last (R SysUsers)) rows' -> synced b n s' (upd SysUserAccessKeys (set_rows rows' (R SysUserAccessKeys)) R).
Proof.
  intros H Hu Hr Eu Er Hdb Hl Hnames Hm Hrows Hk. destruct (synced_user _ _ _ _ _ _ H Hu) as (r0 & Hr0 & Hma & Hok & Hid). rewrite Hr in Hr0. injection Hr0 as <-.
  pose proof (lookup_loaded _ _ _ Hu) as Ha. destruct H. eapply (synced_change b n n s R s' _ id u r); try done.
  - by destruct Hok.
  - by destruct Hma.
  - by apply rows_lasts.
  - by apply rows_bounded.
  - rewrite upd_other by done. by eapply users_frame.
  - rewrite upd_other by done. by eapply user_tokens_frame.
  - rewrite !upd_other by done. eapply perms_frame; eauto.
Qed.

Lemma synced_tokens_change b n s R s' id u r l' f rows' : synced b n s R -> m_users s !! id = Some u -> m_userRegistry s !! id = Some r ->
  m_users s' = <[id := set_tokens l' u]> (m_users s) -> m_userRegistry s' = <[id := map_tokens f r]> (m_userRegistry s) ->
  db_ok (m_systemDatabase s') (upd SysUserTokens (set_rows rows' (R SysUserTokens)) R) ->
  named_ok tk_id tk_name l' -> NoDup (tk_value <$> l') -> Forall token_ok l' ->
  reg_matches tk_id (UserTokenRecord_of (us_id u)) l' (f (usr_tokens r)) -> (forall i, is_Some (rows' !! i) -> i <= rm_last (R SysUserTokens)) ->
  tokens_synced (<[id := set_tokens l' u]> (accounts_of s)) (rm_last (R SysUsers)) rows' -> synced b n s' (upd SysUserTokens (set_rows rows' (R SysUserTokens)) R).
Proof.
  intros H Hu Hr Eu Er Hdb Hl Hvalues Hnames Hm Hrows Hk. destruct (synced_user _ _ _ _ _ _ H Hu) as (r0 & Hr0 & Hma & Hok & Hid). rewrite Hr in Hr0. injection Hr0 as <-.
  pose proof (lookup_loaded _ _ _ Hu) as Ha. destruct H. eapply (synced_change b n n s R s' _ id u r); try done.
  - by destruct Hok.
  - by destruct Hma.
  - by apply rows_lasts.
  - by apply rows_bounded.
  - rewrite upd_other by done. by eapply users_frame.
  - rewrite upd_other by done. by eapply user_keys_frame.
  - rewrite !upd_other by done. eapply perms_frame; eauto.
Qed.

(** ** Changes in several steps *)

(** The state [s'] differs from [s] in one user and its record. *)
Definition changed (s : state) (id : Z) (u : User) (r : UserRecord) (s' : state) : Prop :=
  m_users s' = <[id := u]> (m_users s) /\ m_userRegistry s' = <[id := r]> (m_userRegistry s) /\ m_systemDatabase s' = m_systemDatabase s.

Lemma changed_refl s id u r : m_users s !! id = Some u -> m_userRegistry s !! id = Some r -> changed s id u r s.
Proof. intros Hu Hr. split; [by rewrite insert_id|]. split; [by rewrite insert_id|done]. Qed.
Lemma alter_insert_same {A} (f : A -> A) (m : gmap Z A) i x : alter f i (<[i := x]> m) = <[i := f x]> m.
Proof. rewrite (alter_known _ _ _ x) by (by rewrite lookup_insert, decide_True). by rewrite insert_insert, decide_True. Qed.
Lemma changed_both s id u r s' f g : changed s id u r s' -> changed s id (f u) (g r) (with_registry (alter g id) (with_users (alter f id) s')).
Proof. intros (H1 & H2 & H3). split; [cbn; by rewrite H1, alter_insert_same|]. split; [cbn; by rewrite H2, alter_insert_same|done]. Qed.

Lemma ends_change_if {A} (p : option A) (current : A) `{EqDecision A} (f : A -> IM unit) s (Q : unit -> state -> Prop) :
  (match p with Some a => a = current | None => True end -> Q tt s) -> (forall a, p = Some a -> ends (f a) s Q) -> ends (change_if (differs p current) p f) s Q.
Proof.
  intros HQ Hf. unfold change_if, differs. destruct p as [a|]; [|by apply HQ]. destruct (bool_decide (a = current)) eqn:E; [|by apply Hf]. apply bool_decide_eq_true in E. by apply HQ.
Qed.

(** One item of a user, of any kind, goes from [x] to [x']. *)
Section Stages.
Context {I Rec : Type} {IX : Indexed Rec} (get : User -> list I) (set : list I -> User -> User) (rget : UserRecord -> Registry Rec)
  (rmap : (Registry Rec -> Registry Rec) -> UserRecord -> UserRecord) (id_of : I -> Z) (name_of : I -> list Z) (rec_of : Z -> I -> Rec).
Hypothesis get_set : forall l u, get (set l u) = l.
Hypothesis set_set : forall l l' u, set l (set l' u) = set l u.
Hypothesis set_get : forall u, set (get u) u = u.
Hypothesis rmap_rmap : forall f reg r, rmap f (rmap (fun _ => reg) r) = rmap (fun _ => f reg) r.
Hypothesis rmap_rget : forall r, rmap (fun _ => rget r) r = r.

Definition stage (s : state) (id : Z) (u : User) (r : UserRecord) (x x' : I) (s' : state) : Prop :=
  id_of x' = id_of x /\ name_of x' = name_of x /\
  exists l reg, changed s id (set l u) (rmap (fun _ => reg) r) s' /\ named_ok id_of name_of l /\ reg_matches id_of (rec_of (us_id u)) l reg /\
    forall y, y ∈ l <-> y ∈ get u /\ id_of y <> id_of x \/ y = x'.

Lemma stage_refl s id u r x : m_users s !! id = Some u -> m_userRegistry s !! id = Some r -> named_ok id_of name_of (get u) ->
  reg_matches id_of (rec_of (us_id u)) (get u) (rget r) -> x ∈ get u -> stage s id u r x x s.
Proof.
  intros Hu Hr Hok Hm Hx. split; [done|]. split; [done|]. exists (get u), (rget r). rewrite set_get, rmap_rget. split; [by apply changed_refl|]. split; [done|]. split; [done|].
  intros y. split; [|by intros [[? _]| ->]]. intros Hy. destruct (Z.eq_dec (id_of y) (id_of x)) as [E|]; [right|by left]. by eapply (nodup_inj id_of); [apply Hok| | |].
Qed.

Lemma stage_step s id u r x x' s' f g : stage s id u r x x' s' -> (forall y, id_of (f y) = id_of y /\ name_of (f y) = name_of y) -> rec_of (us_id u) (f x') = g (rec_of (us_id u) x') ->
  stage s id u r x (f x') (with_registry (alter (rmap (alter g (id_of x))) id) (with_users (alter (fun u => set (update_first (fun y => bool_decide (name_of y = name_of x)) f (get u)) u) id) s')).
Proof.
  intros (Hid & Hname & l & reg & Hch & Hok & Hm & Hl) Hf Hg. split; [by rewrite (proj1 (Hf x'))|]. split; [by rewrite (proj2 (Hf x'))|].
  assert (Hx' : x' ∈ l) by (apply Hl; by right). destruct (update_named id_of name_of f l x' Hok Hx' Hf) as [Hup Hok']. rewrite Hname in Hup, Hok'.
  exists (update_first (fun y => bool_decide (name_of y = name_of x)) f l), (alter g (id_of x) reg). split; [|split; [done|split]].
  - pose proof (changed_both _ _ _ _ _ (fun u => set (update_first (fun y => bool_decide (name_of y = name_of x)) f (get u)) u) (rmap (alter g (id_of x))) Hch) as H. cbv beta in H. by rewrite get_set, set_set, rmap_rmap in H.
  - rewrite <- Hid. apply (reg_update id_of name_of (rec_of (us_id u)) f g l); [done|done|done|apply Hf|done|done].
  - intros y. rewrite Hup, Hl. split; [|intros [[Hy Hne]| ->]; [left|by right]].
    + intros [[[[Hy Hne]| ->] Hne']| ->]; [by left|done|by right].
    + split; [by left|]. by rewrite Hid.
Qed.
End Stages.

(** ** Access keys *)

Lemma ends_record t values tp trid s R (Q : unit -> state -> Prop) : db_ok (m_systemDatabase s) R -> List.length values = List.length (sys_columns t) -> 0 < trid -> rm_rows (R t) !! trid = None ->
  (forall ws db, Forall2 stored values ws -> db_ok db (upd t (set_rows (<[trid := ws]> (rm_rows (R t))) (R t)) R) -> Q tt (with_database db s)) ->
  ends (sys (values <-- row_values t values ;; table t (rt_insertRow values tp trid) ;;' mret tt)) s Q.
Proof.
  intros Hdb Hl Ht Hn HQ. apply (ends_sys _ s R (fun _ R' => exists ws, Forall2 stored values ws /\ R' = upd t (set_rows (<[trid := ws]> (rm_rows (R t))) (R t)) R)); [done| |].
  - apply computes_bind. apply computes_row_values; [done|]. apply computes_bind. apply computes_insert; [apply Hdb|done|done|done|]. intros ws Hws. apply computes_ret. by exists ws.
  - intros [] db R' Hdb' (ws & Hws & ->). by apply (HQ ws).
Qed.

Lemma ends_delete t now id c s R (Q : unit -> state -> Prop) : db_ok (m_systemDatabase s) R ->
  (forall db, db_ok db (upd t (set_rows (delete id (rm_rows (R t))) (R t)) R) -> Q tt (with_database db s)) -> ends (sys (delete_record t now id c)) s Q.
Proof.
  intros Hdb HQ. apply (ends_sys _ s R (fun _ R' => R' = upd t (set_rows (delete id (rm_rows (R t))) (R t)) R)); [done|by apply computes_delete|]. intros [] db R' Hdb' ->. by apply HQ.
Qed.

Lemma insert_bounded (m : gmap Z (list Variant)) id row last : (forall i, is_Some (m !! i) -> i <= last) -> id <= last -> forall i, is_Some (<[id := row]> m !! i) -> i <= last.
Proof. intros H Hi i [<-|?]%lookup_insert_is_Some'; auto. Qed.
Lemma delete_bounded (m : gmap Z (list Variant)) id last : (forall i, is_Some (m !! i) -> i <= last) -> forall i, is_Some (delete id m !! i) -> i <= last.
Proof. intros H i [_ ?]%lookup_delete_is_Some. auto. Qed.

Lemma addAccessKey_name id name text d a u k u' : addAccessKey id name text d a u = Ok (k, u') -> isValidDatabaseObjectName name = true.
Proof.
  unfold addAccessKey, new_UserAccessKey, validate_name. destruct (List.find _ _) as [k0|]; [by destruct (_ =? _)|]. destruct (_ >? _); [done|].
  destruct (parseFromString text); [|done]. by destruct (isValidDatabaseObjectName name).
Qed.

(** An item that is found by neither its number nor its name. *)
Lemma find_none_id {I} (id_of : I -> Z) (name_of : I -> list Z) id name l x : List.find (fun y => (id_of y =? id) || bool_decide (name_of y = name)) l = None -> x ∈ l -> id_of x <> id /\ name_of x <> name.
Proof. intros Hf Hx%list_elem_of_In. pose proof (List.find_none _ _ Hf x Hx) as H. cbv beta in H. by apply orb_false_iff in H as [?%Z.eqb_neq ?%bool_decide_eq_false]. Qed.

Lemma createUserAccessKey_kept b n env name key text d a c s R : synced b (S n) s R -> kept b n (createUserAccessKey env name key text d a c) s.
Proof.
  intros H. apply (ends_request b (S n) c _ _ name (fun r u => _) s R); [done|]. clear s H. intros r u s H Hr Hu Hid. apply after_bind. apply (ends_generate b n _ s R); [done|].
  intros id db R' H' Eid Hn Hpos _. apply after_bind. apply after_lift; [|done]. intros [k u'] Hk. pose proof Hk as Hname. apply addAccessKey_inv in Hk as (Hfind & Ek & ->).
  apply addAccessKey_name in Hname. apply after_bind. apply after_modify. apply after_bind. apply after_modify. apply after_bind. apply after_modify.
  apply (ends_transaction _ _ _ _ R'); [apply H'|]. intros tp db1 Hdb1. apply after_bind. apply (ends_record _ (key_row (us_id u) k) _ _ _ R'); [done|done|rewrite Ek; cbn; lia|by rewrite Ek|].
  intros ws db2 Hws Hdb2. destruct (synced_user _ _ _ _ _ _ H Hu) as (r0 & Hr0 & Hma & Hok & _). rewrite Hr in Hr0. injection Hr0 as <-.
  eexists. eapply (synced_keys_change b n (with_database db s) R' _ (usr_id r) u r (us_accessKeys u ++ [k]) (registry_insert (UserAccessKeyRecord_of (us_id u) k)));
    [done|done|done| | |exact Hdb2| | | | |].
  - cbn. rewrite Hid. by rewrite (alter_known _ _ _ u).
  - cbn. by rewrite (alter_known _ _ _ r).
  - apply append_named; [apply Hok|by rewrite Ek].
  - apply Forall_app. split; [apply Hok|]. constructor; [by rewrite Ek|done].
  - apply (reg_append ak_id ak_name); [done|apply append_named; [apply Hok|by rewrite Ek]|apply Hma|]. intros y Hy. cbn. apply bool_decide_eq_false. rewrite Ek.
    apply not_eq_sym. by apply (find_none_id ak_id ak_name id key (us_accessKeys u)).
  - apply insert_bounded; [apply H'|]. rewrite Ek. cbn. lia.
  - rewrite Ek. apply (items_put _ _ _ key_owner _ _ _ _ u); [apply H'|by apply (lookup_loaded s)|by left| |by rewrite <- Ek, <- Hid].
    intros y. cbn. rewrite elem_of_app, list_elem_of_singleton. split; [|intuition]. intros [Hy|Hy]; [left|by right]. split; [done|]. by apply (find_none_id ak_id ak_name id key (us_accessKeys u)).
Qed.

Lemma key_of_record r u key kr : matches r u -> registry_by_name uak_name key (usr_accessKeys r) = Some kr ->
  exists k, k ∈ us_accessKeys u /\ kr = UserAccessKeyRecord_of (us_id u) k /\ key = ak_name k.
Proof.
  intros Hm ([i Hi] & <-)%registry_by_name_inv. apply (ma_keys _ _ Hm) in Hi as (k & Hk & _ & ->). by exists k.
Qed.

Lemma dropUserAccessKey_kept b n env name key m c s R : synced b (S n) s R -> kept b n (dropUserAccessKey env name key m c) s.
Proof.
  intros H. apply (ends_request_item b (S n) c _ _ name (fun r => registry_by_name uak_name key (usr_accessKeys r)) _ (fun r kr u => _) s R); [done| |]; clear s H.
  - intros r s H. destruct m; [done|]. exists R. by apply synced_weaken.
  - intros r kr u s H Hkr Hr Hu Hid. destruct (synced_user _ _ _ _ _ _ H Hu) as (r0 & Hr0 & Hma & Hok & _). rewrite Hr in Hr0. injection Hr0 as <-.
    destruct (key_of_record _ _ _ _ Hma Hkr) as (k & Hk & -> & ->). apply after_bind. apply after_modify. apply after_bind. apply after_modify. apply after_bind. apply after_lift; [|done].
    intros u' Hu'. apply deleteAccessKey_inv in Hu' as (k0 & _ & _ & ->). apply after_bind. apply after_modify. apply (ends_delete _ _ _ _ _ R); [apply H|]. intros db Hdb.
    cbn [uak_id UserAccessKeyRecord_of] in Hdb. destruct (erase_named ak_id ak_name _ k (uo_keys _ Hok) Hk) as [Hin Hok']. eexists. apply synced_weaken.
    eapply (synced_keys_change b (S n) s R _ (usr_id r) u r _ (delete (ak_id k))); [done|done|done| | |exact Hdb|exact Hok'| | | |].
    + cbn. rewrite Hid. by rewrite (alter_known _ _ _ u).
    + cbn. by rewrite (alter_known _ _ _ r).
    + apply Forall_forall. intros y [Hy _]%Hin. by apply (proj1 (Forall_forall _ _) (uo_key_names _ Hok)).
    + by apply (reg_erase ak_id _ (us_accessKeys u)); [apply Hma|].
    + apply delete_bounded. apply H.
    + apply (items_remove _ _ _ key_owner _ _ _ _ u); [apply H|by apply lookup_loaded|done|done].
Qed.

Lemma ends_update t changes missing now id c row s R (Q : unit -> state -> Prop) : db_ok (m_systemDatabase s) R -> rm_rows (R t) !! id = Some row -> NoDup (fst <$> changes) ->
  Forall (fun p => (1 <= p <= List.length (sys_columns t))%nat) (fst <$> changes) -> changes <> [] ->
  (forall ws db, Forall2 stored (snd <$> changes) ws -> db_ok db (upd t (set_rows (<[id := update_values row (fst <$> changes) ws]> (rm_rows (R t))) (R t)) R) -> Q tt (with_database db s)) ->
  ends (sys (update_record t changes missing now id c)) s Q.
Proof.
  intros Hdb Hr Hnd Hp Hne HQ.
  apply (ends_sys _ s R (fun _ R' => exists ws, Forall2 stored (snd <$> changes) ws /\ R' = upd t (set_rows (<[id := update_values row (fst <$> changes) ws]> (rm_rows (R t))) (R t)) R)); [done| |].
  - apply (computes_update _ _ _ _ _ _ row); [apply Hdb|done|done|done|done|]. intros ws Hws. by exists ws.
  - intros [] db R' Hdb' (ws & Hws & ->). by apply (HQ ws).
Qed.

Definition set_given {A B} (set : A -> B -> B) (p : option A) (x : B) : B := match p with Some a => set a x | None => x end.

(** The row of an access key after an update. *)
Lemma key_row_updated id k row params ws :
  let changes := given SysUserAccessKeys "STATE" v_flag (kp_active params) ++ given SysUserAccessKeys "DESCRIPTION" v_opt (kp_description params) in
  Forall2 stored (key_row id k) row -> Forall2 stored (snd <$> changes) ws ->
  Forall2 stored (key_row id (set_given key_setActive (kp_active params) (set_given key_setDescription (kp_description params) k))) (update_values row (fst <$> changes) ws).
Proof.
  cbv zeta. unfold key_row. destruct params as [[d|] [a|]]; cbn; intros H H'; inv_row H; inv_row H'; cbn; by repeat constructor.
Qed.

Lemma differs_none {A} `{EqDecision A} (p : option A) current : p = None -> differs p current = false.
Proof. by intros ->. Qed.

Notation key_stage := (stage us_accessKeys set_accessKeys map_accessKeys ak_id ak_name UserAccessKeyRecord_of).
Notation key_step := (stage_step us_accessKeys set_accessKeys map_accessKeys ak_id ak_name UserAccessKeyRecord_of (fun _ _ => eq_refl) (fun _ _ _ => eq_refl) (fun _ _ _ => eq_refl)).

Lemma key_stage_ends b n env c params s R id u r k s' : synced b (S n) s R -> m_users s !! id = Some u -> m_userRegistry s !! id = Some r -> user_ok u -> k ∈ us_accessKeys u ->
  us_id u = id -> kp_active params <> None \/ kp_description params <> None ->
  key_stage s id u r k (set_given key_setActive (kp_active params) (set_given key_setDescription (kp_description params) k)) s' ->
  kept b n (sys (updateUserAccessKey_sys (env_now env) (ak_id k) params c)) s'.
Proof.
  intros H Hu Hr Hok Hk Hid Hne (Eid & Ename & l & reg & (Eu & Er & Edb) & Hl & Hm & Hin). set (k' := set_given _ _ _) in *.
  destruct (proj2 (sy_keys _ _ _ _ H) _ _ _ (lookup_loaded _ _ _ Hu) Hk) as (row & Hrow & Hst).
  apply (ends_update _ _ _ _ _ _ row _ R); [by rewrite Edb; apply H|done| | | |].
  - destruct params as [[d|] [a|]]; cbn; repeat constructor; set_solver.
  - destruct params as [[d|] [a|]]; cbn; repeat constructor; lia.
  - destruct params as [[d|] [a|]]; cbn in *; try done. by destruct Hne.
  - intros ws db Hws Hdb. eexists. apply synced_weaken. rewrite <- Eid in Hdb.
    eapply (synced_keys_change b (S n) s R _ id u r l (fun _ => reg)); [done|done|done|exact Eu|exact Er|exact Hdb|done| |exact Hm| |].
    + apply Forall_forall. intros y [[Hy _]| ->]%Hin; [by apply (proj1 (Forall_forall _ _) (uo_key_names _ Hok))|]. rewrite Ename. by apply (proj1 (Forall_forall _ _) (uo_key_names _ Hok)).
    + apply insert_bounded; [apply H|]. rewrite Eid. by apply (sy_rows _ _ _ _ H); exists row.
    + apply (items_put _ _ _ key_owner _ _ _ _ u); [apply H|by apply lookup_loaded|right; rewrite Eid; by apply list_elem_of_fmap_2|by rewrite Eid|]. by apply key_row_updated.
Qed.

Lemma updateUserAccessKey_kept b n env name key params c s R : synced b (S n) s R -> kept b n (updateUserAccessKey env name key params c) s.
Proof.
  intros H. apply (ends_request_item b (S n) c _ _ name (fun r => registry_by_name uak_name key (usr_accessKeys r)) _ (fun r kr u => _) s R); [done|done|]; clear s H.
  intros r kr u s H Hkr Hr Hu Hid. destruct (synced_user _ _ _ _ _ _ H Hu) as (r0 & Hr0 & Hma & Hok & _). rewrite Hr in Hr0. injection Hr0 as <-.
  destruct (key_of_record _ _ _ _ Hma Hkr) as (k & Hk & -> & ->). apply after_bind. apply after_lift; [|done]. intros k0. unfold findAccessKeyChecked, findAccessKey.
  rewrite (find_named ak_id ak_name _ k (uo_keys _ Hok) Hk). intros [= <-]. cbv zeta. rewrite Hid. cbn [uak_description uak_active uak_id UserAccessKeyRecord_of].
  destruct (negb (differs (kp_description params) (ak_description k)) && negb (differs (kp_active params) (ak_active k))) eqn:Ediff; [exists R; by apply synced_weaken|].
  assert (Hne : kp_active params <> None \/ kp_description params <> None).
  { destruct (kp_active params); [by left|]. destruct (kp_description params); [by right|]. by rewrite !differs_none in Ediff. }
  assert (H0 : key_stage s (usr_id r) u r k k s) by (apply (stage_refl _ _ usr_accessKeys); [by intros []|by intros []|done|done|apply Hok|apply Hma|done]).
  apply after_bind. eapply after_mono; [apply (ends_change_if _ _ _ s (fun _ s' => key_stage s (usr_id r) u r k (set_given key_setDescription (kp_description params) k) s'))|].
  - destruct (kp_description params) as [d|]; [|done]. intros ->. by replace (set_given _ _ k) with k by by destruct k.
  - intros d Ed. rewrite Ed. apply after_bind. apply after_modify. apply (key_step s _ u r k k s (key_setDescription d) (key_record_setDescription d)); done.
  - intros [] s1 H1. cbv beta in H1. apply after_bind. set (k1 := set_given key_setDescription (kp_description params) k) in *.
    eapply after_mono; [apply (ends_change_if _ _ _ s1 (fun _ s' => key_stage s (usr_id r) u r k (set_given key_setActive (kp_active params) k1) s'))|].
    + destruct (kp_active params) as [a|]; [|done]. intros ->. replace (set_given _ _ k1) with k1; [done|]. unfold k1. destruct (kp_description params), k; done.
    + intros a Ea. rewrite Ea. destruct (isSuperUser u && negb a && (getActiveAccessKeyCount u =? 1)); [done|]. apply after_bind. apply after_modify. apply (key_step s _ u r k k1 s1 (key_setActive a) (key_record_setActive a)); done.
    + intros [] s2 H2. by eapply key_stage_ends.
Qed.

(** ** Tokens *)

Lemma check_tokens_false now value l t : check_tokens now value true l = Ok false -> t ∈ l -> checkValue now value true t = Ok false.
Proof.
  induction l as [|t' l IH]; [set_solver|]. cbn [check_tokens]. destruct (checkValue now value true t') as [[|]| |] eqn:E; cbn [bind]; [done| |done|done]. intros H [->|Hin]%elem_of_cons; [done|by apply IH].
Qed.

(** The stored value of a new token is new, because the value that it was made
    from is not that of another token. *)
Lemma addToken_fresh now salt id name value e d u t u' : addToken now salt id name value e d u = Ok (t, u') ->
  isValidDatabaseObjectName name = true /\ forall t', t' ∈ us_tokens u -> tk_value t' <> tk_value t.
Proof.
  intros H. pose proof H as Hinv. apply addToken_inv in Hinv as (_ & _ & sa & -> & Hlen & -> & _). cbn. revert H. unfold addToken.
  destruct (List.find _ _) as [t0|]; [by destruct (_ =? _)|]. destruct (_ || _); [done|]. destruct (checkToken now value true u) as [[|]| |] eqn:Ec; [done| |done|done]. cbn.
  unfold new_UserToken, validate_name. destruct (isValidDatabaseObjectName name) eqn:Ev; [|done]. intros _. split; [done|]. intros t' Ht' E. pose proof (check_tokens_false _ _ _ _ Ec Ht') as Hf.
  unfold checkValue in Hf. cbn [negb andb] in Hf. rewrite E in Hf. rewrite (proj2 (Z.ltb_ge _ _)) in Hf by (rewrite Hlen; done). pose proof (sha512_size (sa ++ value)) as Hh. fold (hashValue value sa) in Hh.
  assert (Hn : Z.to_nat kSaltSize = List.length sa) by (rewrite len_app in Hlen; unfold len, kSaltSize in *; lia). rewrite Hn, take_app_length, drop_app_length in Hf. rewrite take_ge in Hf by (unfold len in Hh; lia).
  by rewrite bool_decide_eq_true_2 in Hf.
Qed.

Lemma createUserToken_kept b n env name token value d e c s R : match e with Some t => time_ok t | None => True end -> synced b (S n) s R ->
  kept b n (createUserToken env name token value d e c) s.
Proof.
  intros He H. apply (ends_request b (S n) c _ _ name (fun r u => _) s R); [done|]. clear s H. intros r u s H Hr Hu Hid. apply after_bind. apply (ends_generate b n _ s R); [done|].
  intros id db R' H' Eid Hn Hpos _. apply after_bind. apply after_lift; [|done]. intros [v draws] _. apply after_bind. apply after_lift; [|done]. intros [t u'] Ht.
  apply addToken_fresh in Ht as Hfresh. destruct Hfresh as [Hname Hvalue]. apply addToken_inv in Ht as (Hfind & _ & sa & _ & _ & Et & ->).
  apply after_bind. apply after_modify. apply after_bind. apply after_modify. apply after_bind. apply after_modify.
  apply (ends_transaction _ _ _ _ R'); [apply H'|]. intros tp db1 Hdb1. apply after_bind. apply (ends_record _ (token_row (us_id u) t) _ _ _ R'); [done|done|rewrite Et; cbn; lia|by rewrite Et|].
  intros ws db2 Hws Hdb2. destruct (synced_user _ _ _ _ _ _ H Hu) as (r0 & Hr0 & Hma & Hok & _). rewrite Hr in Hr0. injection Hr0 as <-.
  assert (Hold : forall y, y ∈ us_tokens u -> tk_id y <> id /\ tk_name y <> token) by (intros y Hy; by apply (find_none_id tk_id tk_name id token (us_tokens u))).
  eexists. eapply (synced_tokens_change b n (with_database db s) R' _ (usr_id r) u r (us_tokens u ++ [t]) (registry_insert (UserTokenRecord_of (us_id u) t)));
    [done|done|done| | |exact Hdb2| | | | | |].
  - cbn. rewrite Hid. by rewrite (alter_known _ _ _ u).
  - cbn. by rewrite (alter_known _ _ _ r).
  - apply append_named; [apply Hok|by rewrite Et].
  - rewrite fmap_app. apply NoDup_app. split; [apply Hok|]. split; [|apply NoDup_singleton]. intros x (y & -> & Hy)%list_elem_of_fmap Hx%list_elem_of_singleton. by apply (Hvalue y).
  - apply Forall_app. split; [apply Hok|]. constructor; [by rewrite Et|done].
  - apply (reg_append tk_id tk_name); [done|apply append_named; [apply Hok|by rewrite Et]|apply Hma|]. intros y Hy. cbn. apply orb_false_iff. split; apply bool_decide_eq_false.
    + rewrite Et. apply not_eq_sym. by apply Hold.
    + apply not_eq_sym. by apply Hvalue.
  - apply insert_bounded; [apply H'|]. rewrite Et. cbn. lia.
  - assert (Eit : tk_id t = id) by by rewrite Et. apply (items_put _ _ _ token_owner _ _ _ _ u); [apply H'|by apply (lookup_loaded s)|left; by rewrite Eit| |by rewrite <- Hid].
    intros y. cbn. rewrite elem_of_app, list_elem_of_singleton, Eit. split; [|intuition]. intros [Hy|Hy]; [left|by right]. split; [done|]. by apply Hold.
Qed.

Lemma token_of_record r u token tr : matches r u -> registry_by_name utk_name token (usr_tokens r) = Some tr ->
  exists t, t ∈ us_tokens u /\ tr = UserTokenRecord_of (us_id u) t /\ token = tk_name t.
Proof.
  intros Hm ([i Hi] & <-)%registry_by_name_inv. apply (ma_tokens _ _ Hm) in Hi as (t & Ht & _ & ->). by exists t.
Qed.

Lemma nodup_same_ids {A B} (f : A -> Z) (g : A -> B) l l' : NoDup (f <$> l') -> NoDup (g <$> l) -> (forall y, y ∈ l' -> exists x, x ∈ l /\ f x = f y /\ g x = g y) -> NoDup (g <$> l').
Proof.
  intros Hf Hg Hin. apply NoDup_fmap_2_strong; [|by apply NoDup_fmap_1 in Hf]. intros y1 y2 H1 H2 E. destruct (Hin y1 H1) as (x1 & Hx1 & Hid1 & Hv1). destruct (Hin y2 H2) as (x2 & Hx2 & Hid2 & Hv2).
  apply (nodup_inj f l'); [done|done|done|]. rewrite <- Hid1, <- Hid2. f_equal. apply (nodup_inj g l); [done|done|done|congruence].
Qed.

Lemma dropUserToken_kept b n env name token m c s R : synced b (S n) s R -> kept b n (dropUserToken env name token m c) s.
Proof.
  intros H. apply (ends_request_item b (S n) c _ _ name (fun r => registry_by_name utk_name token (usr_tokens r)) _ (fun r tr u => _) s R); [done| |]; clear s H.
  - intros r s H. destruct m; [done|]. exists R. by apply synced_weaken.
  - intros r tr u s H Htr Hr Hu Hid. destruct (synced_user _ _ _ _ _ _ H Hu) as (r0 & Hr0 & Hma & Hok & _). rewrite Hr in Hr0. injection Hr0 as <-.
    destruct (token_of_record _ _ _ _ Hma Htr) as (t & Ht & -> & ->). apply after_bind. apply after_modify. apply after_bind. apply after_modify. apply after_bind. apply after_lift; [|done].
    intros u' Hu'. apply deleteToken_inv in Hu' as ->. apply after_bind. apply after_modify. apply (ends_delete _ _ _ _ _ R); [apply H|]. intros db Hdb. cbn [utk_id UserTokenRecord_of] in Hdb.
    destruct (erase_named tk_id tk_name _ t (uo_tokens _ Hok) Ht) as [Hin Hok']. eexists. apply synced_weaken.
    eapply (synced_tokens_change b (S n) s R _ (usr_id r) u r _ (delete (tk_id t))); [done|done|done| | |exact Hdb|exact Hok'| | | | |].
    + cbn. rewrite Hid. by rewrite (alter_known _ _ _ u).
    + cbn. by rewrite (alter_known _ _ _ r).
    + apply (nodup_same_ids tk_id tk_value (us_tokens u)); [apply Hok'|apply Hok|]. intros y [Hy _]%Hin. by exists y.
    + apply Forall_forall. intros y [Hy _]%Hin. by apply (proj1 (Forall_forall _ _) (uo_tokens_ok _ Hok)).
    + by apply (reg_erase tk_id _ (us_tokens u)); [apply Hma|].
    + apply delete_bounded. apply H.
    + apply (items_remove _ _ _ token_owner _ _ _ _ u); [apply H|by apply lookup_loaded|done|done].
Qed.

Notation token_stage := (stage us_tokens set_tokens map_tokens tk_id tk_name UserTokenRecord_of).
Notation token_step := (stage_step us_tokens set_tokens map_tokens tk_id tk_name UserTokenRecord_of (fun _ _ => eq_refl) (fun _ _ _ => eq_refl) (fun _ _ _ => eq_refl)).

Lemma token_row_updated id t row d ws : Forall2 stored (token_row id t) row -> Forall2 stored [v_opt d] ws ->
  Forall2 stored (token_row id (token_setDescription d t)) (update_values row [getCurrentPosition SysUserTokens "DESCRIPTION"] ws).
Proof. unfold token_row. intros H H'. inv_row H. inv_row H'. cbn. by repeat constructor. Qed.

Lemma token_stage_ends b n env c params d s R id u r t s' : synced b (S n) s R -> m_users s !! id = Some u -> m_userRegistry s !! id = Some r -> user_ok u -> t ∈ us_tokens u ->
  us_id u = id -> tkp_expirationTimestamp params = None -> tkp_description params = Some d -> token_stage s id u r t (token_setDescription d t) s' ->
  kept b n (sys (updateUserToken_sys (env_now env) (tk_id t) params c)) s'.
Proof.
  intros H Hu Hr Hok Ht Hid He Hd (Eid & Ename & l & reg & (Eu & Er & Edb) & Hl & Hm & Hin). destruct (proj2 (sy_tokens _ _ _ _ H) _ _ _ (lookup_loaded _ _ _ Hu) Ht) as (row & Hrow & Hst).
  unfold updateUserToken_sys. rewrite He, Hd. assert (Hold : forall y, y ∈ l -> exists x, x ∈ us_tokens u /\ tk_id x = tk_id y /\ tk_value x = tk_value y /\ (token_ok x -> token_ok y)).
  { intros y [[Hy _]| ->]%Hin; [by exists y|by exists t]. }
  apply (ends_update _ _ _ _ _ _ row _ R); [by rewrite Edb; apply H|done|apply NoDup_singleton|cbn; repeat constructor; lia|done|].
  intros ws db Hws Hdb. eexists. apply synced_weaken. eapply (synced_tokens_change b (S n) s R _ id u r l (fun _ => reg)); [done|done|done|exact Eu|exact Er|exact Hdb|done| | |exact Hm| |].
  - apply (nodup_same_ids tk_id tk_value (us_tokens u)); [apply Hl|apply Hok|]. intros y Hy. destruct (Hold y Hy) as (x & ? & ? & ? & _). by exists x.
  - apply Forall_forall. intros y Hy. destruct (Hold y Hy) as (x & Hx & _ & _ & Hi). apply Hi. by apply (proj1 (Forall_forall _ _) (uo_tokens_ok _ Hok)).
  - apply insert_bounded; [apply H|]. by apply (sy_rows _ _ _ _ H); exists row.
  - apply (items_put tk_id _ _ token_owner _ _ _ _ u _ (token_setDescription d t)); [apply H|by apply lookup_loaded|right; by apply (list_elem_of_fmap_2 tk_id _ t)|done|]. by apply token_row_updated.
Qed.

(** The expiration time of a token is not changed: the registry would keep the old
    one. *)
Lemma updateUserToken_kept b n env name token params c s R : tkp_expirationTimestamp params = None -> synced b (S n) s R -> kept b n (updateUserToken env name token params c) s.
Proof.
  intros Hp H. apply (ends_request_item b (S n) c _ _ name (fun r => registry_by_name utk_name token (usr_tokens r)) _ (fun r tr u => _) s R); [done|done|]; clear s H.
  intros r tr u s H Htr Hr Hu Hid. destruct (synced_user _ _ _ _ _ _ H Hu) as (r0 & Hr0 & Hma & Hok & _). rewrite Hr in Hr0. injection Hr0 as <-.
  destruct (token_of_record _ _ _ _ Hma Htr) as (t & Ht & -> & ->). apply after_bind. apply after_lift; [|done]. intros t0. unfold findTokenChecked, findToken.
  rewrite (find_named tk_id tk_name _ t (uo_tokens _ Hok) Ht). intros [= <-]. cbv zeta. rewrite Hid. cbn [utk_description utk_expirationTimestamp utk_id UserTokenRecord_of]. rewrite Hp.
  cbn [differs negb andb]. rewrite andb_true_r. destruct (differs (tkp_description params) (tk_description t)) eqn:Ediff; cbn [negb]; [|exists R; by apply synced_weaken].
  destruct (tkp_description params) as [d|] eqn:Ed; [|done]. apply after_bind. cbn [change_if]. apply after_bind. apply after_modify. apply after_modify.
  assert (H0 : token_stage s (usr_id r) u r t t s) by (apply (stage_refl _ _ usr_tokens); [by intros []|by intros []|done|done|apply Hok|apply Hma|done]).
  apply (token_step s _ u r t t s (token_setDescription d) (token_record_setDescription d)) in H0; [|done|done].
  by eapply token_stage_ends.
Qed.
End Kept.
