(* ===== verification/InstanceKeptUsers.v ===== *)
(** * Requests on users and permissions are recorded

    The requests on users and permissions leave the rows of the system tables in
    step with the accounts; with those on keys and tokens, every request does. *)

From stdpp Require Import base list gmap.
Set Warnings "-clear-no-such-hyp,-notation-incompatible-prefix,-notation-for-abbreviation".
From Stdlib Require Import ZArith Lia String.
From S2P Require Import Prelude StateM Bytes CNum VariantType Variant RawDateTime ExprEval RecordReader CatalogRecords MasterColumn Table Users SystemTables Instance InstanceSpec InstanceRefine SystemTablesSpec InstancePersist InstanceKept.

Local Open Scope Z_scope.

Section KeptUsers.
Context {T : Type} {RT : RowTable T} {RL : RowTableLaws T} {X : Externals} {CAL : Calendar} {Y : UserCrypto} {YL : UserCryptoLaws} {TV : Traversal}.
Notation state := (instance_state T).
Notation IM := (IM (T := T)).
Notation ends c s Q := (after c s Q (fun _ => True)).

(** ** Profiles *)

Lemma user_row_updated u row params ws :
  let changes := given SysUsers "REAL_NAME" v_opt (up_realName params) ++ given SysUsers "DESCRIPTION" v_opt (up_description params) ++ given SysUsers "STATE" v_flag (up_active params) in
  Forall2 stored (user_row u) row -> Forall2 stored (snd <$> changes) ws ->
  Forall2 stored (user_row (set_given setActive (up_active params) (set_given setDescription (up_description params) (set_given setRealName (up_realName params) u)))) (update_values row (fst <$> changes) ws).
Proof.
  cbv zeta. unfold user_row. destruct params as [[rn|] [d|] [a|]]; cbn; intros H H'; inv_row H; inv_row H'; cbn; by repeat constructor.
Qed.

Definition new_profile (params : UpdateUserParameters) (u : User) : User :=
  set_given setActive (up_active params) (set_given setDescription (up_description params) (set_given setRealName (up_realName params) u)).
Definition new_profile_record (params : UpdateUserParameters) (r : UserRecord) : UserRecord :=
  set_given record_setActive (up_active params) (set_given record_setDescription (up_description params) (set_given record_setRealName (up_realName params) r)).

Lemma new_profile_frame params u : us_id (new_profile params u) = us_id u /\ us_name (new_profile params u) = us_name u /\ us_accessKeys (new_profile params u) = us_accessKeys u /\
  us_tokens (new_profile params u) = us_tokens u /\ us_grantedPermissions (new_profile params u) = us_grantedPermissions u.
Proof. by destruct params as [[rn|] [d|] [a|]]. Qed.
Lemma new_profile_ok params u : user_ok u -> user_ok (new_profile params u).
Proof. destruct (new_profile_frame params u) as (E1 & E2 & E3 & E4 & _). intros []. by constructor; rewrite ?E1, ?E2, ?E3, ?E4. Qed.
Lemma new_profile_matches params r u : matches r u -> matches (new_profile_record params r) (new_profile params u).
Proof. intros []. by destruct params as [[rn|] [d|] [a|]]. Qed.

Lemma profile_ends b n env c params s R id u r s' : synced b (S n) s R -> m_users s !! id = Some u -> m_userRegistry s !! id = Some r -> us_id u = id ->
  up_realName params <> None \/ up_description params <> None \/ up_active params <> None -> changed s id (new_profile params u) (new_profile_record params r) s' ->
  kept b n (sys (updateUser_sys (env_now env) id params c)) s'.
Proof.
  intros H Hu Hr Hid Hne (Eu & Er & Edb). destruct (synced_user _ _ _ _ _ _ H Hu) as (r0 & Hr0 & Hma & Hok & _). rewrite Hr in Hr0. injection Hr0 as <-.
  pose proof (lookup_loaded _ _ _ Hu) as Ha. pose proof (sy_users _ _ _ _ H id) as Hrow. rewrite Ha in Hrow. destruct (rm_rows (R SysUsers) !! id) as [row|] eqn:Erow; [|done].
  destruct (new_profile_frame params u) as (E1 & E2 & E3 & E4 & E5).
  apply (ends_update _ _ _ _ _ _ row _ R); [by rewrite Edb; apply H|done| | | |].
  - destruct params as [[rn|] [d|] [a|]]; cbn; repeat constructor; set_solver.
  - destruct params as [[rn|] [d|] [a|]]; cbn; repeat constructor; lia.
  - destruct params as [[rn|] [d|] [a|]]; cbn in *; try done. by destruct Hne as [?|[?|?]].
  - intros ws db Hws Hdb. eexists. apply synced_weaken. eapply (synced_change b (S n) (S n) s R _ _ id u r); [done|done|done|exact Eu|exact Er|done|done| | |exact Hdb| | | | | |].
    + by apply new_profile_ok.
    + by apply new_profile_matches.
    + apply rows_lasts. apply H.
    + apply rows_bounded; [apply H|]. apply insert_bounded; [apply H|]. by apply (sy_rows _ _ _ _ H); exists row.
    + rewrite upd_same. cbn. intros j. destruct (decide (id = j)) as [<-|Hnj]; [rewrite !lookup_insert, !decide_True by done; by apply user_row_updated|]. rewrite !lookup_insert_ne by done. apply (sy_users _ _ _ _ H).
    + rewrite upd_same, upd_other by done. eapply user_keys_frame; [apply H|done|done].
    + rewrite upd_same, upd_other by done. eapply user_tokens_frame; [apply H|done|done].
    + rewrite upd_same, upd_other by done. eapply perms_frame; [apply H|done|done].
Qed.

Lemma updateUser_kept b n env name params c s R : synced b (S n) s R -> kept b n (updateUser env name params c) s.
Proof.
  intros H. apply (ends_request b (S n) c _ _ name (fun r u => _) s R); [done|]. clear s H. intros r u s H Hr Hu Hid. cbv zeta. rewrite Hid.
  destruct (synced_user _ _ _ _ _ _ H Hu) as (r0 & Hr0 & Hma & Hok & _). rewrite Hr in Hr0. injection Hr0 as <-.
  destruct (negb (differs (up_realName params) (usr_realName r)) && negb (differs (up_description params) (usr_description r)) && negb (differs (up_active params) (usr_active r))) eqn:Ediff;
    [exists R; by apply synced_weaken|].
  assert (Hne : up_realName params <> None \/ up_description params <> None \/ up_active params <> None).
  { destruct (up_realName params); [by left|]. destruct (up_description params); [by right; left|]. destruct (up_active params); [by right; right|]. done. }
  set (u1 := set_given setRealName (up_realName params) u). set (r1 := set_given record_setRealName (up_realName params) r).
  apply after_bind. eapply after_mono; [apply (ends_change_if _ _ _ s (fun _ s' => changed s (usr_id r) u1 r1 s'))|].
  - assert (H0 : changed s (usr_id r) u r s) by by apply changed_refl. unfold u1, r1. destruct (up_realName params) as [x|]; [|done]. cbn. intros ->.
    replace (setRealName _ u) with u by (rewrite (ma_realName _ _ Hma); by destruct u). by replace (record_setRealName _ r) with r by by destruct r.
  - intros x Ex. unfold u1, r1. rewrite Ex. apply (changed_both s _ u r s (setRealName x)). by apply changed_refl.
  - intros [] s1 H1. cbv beta in H1. set (u2 := set_given setDescription (up_description params) u1). set (r2 := set_given record_setDescription (up_description params) r1).
    apply after_bind. eapply after_mono; [apply (ends_change_if _ _ _ s1 (fun _ s' => changed s (usr_id r) u2 r2 s'))|].
    + unfold u2, r2. destruct (up_description params) as [x|]; [|done]. cbn. intros ->. replace (setDescription _ u1) with u1 by (rewrite (ma_description _ _ Hma); unfold u1; destruct (up_realName params), u; done).
      by replace (record_setDescription _ r1) with r1 by (unfold r1; destruct (up_realName params), r; done).
    + intros x Ex. unfold u2, r2. rewrite Ex. by apply (changed_both s _ u1 r1 s1 (setDescription x)).
    + intros [] s2 H2. cbv beta in H2. set (u3 := set_given setActive (up_active params) u2). set (r3 := set_given record_setActive (up_active params) r2).
      apply after_bind. eapply after_mono; [apply (ends_change_if _ _ _ s2 (fun _ s' => changed s (usr_id r) u3 r3 s'))|].
      * unfold u3, r3. destruct (up_active params) as [x|]; [|done]. cbn. intros ->. replace (setActive _ u2) with u2 by (rewrite (ma_active _ _ Hma); unfold u2, u1; destruct (up_description params), (up_realName params), u; done).
        by replace (record_setActive _ r2) with r2 by (unfold r2, r1; destruct (up_description params), (up_realName params), r; done).
      * intros x Ex. unfold u3, r3. rewrite Ex. destruct ((usr_id r =? kSuperUserId) && negb x); [done|]. by apply (changed_both s _ u2 r2 s2 (setActive x)).
      * intros [] s3 H3. by eapply profile_ends.
Qed.

(** ** New users *)

Lemma registry_insert_new {Rc} {IX : Indexed Rc} (r : Rc) (m : Registry Rc) : m !! m_id_of r = None -> (forall i r', m !! i = Some r' -> unique r r' = false) ->
  registry_insert r m = <[m_id_of r := r]> m.
Proof. intros Hn Hu. unfold registry_insert. rewrite Hn, bool_decide_eq_true_2; [done|]. intros i r' Hr'. by apply (Hu i). Qed.

Lemma find_record_none name (m : Registry UserRecord) : find_user_record name m = None -> forall i r, m !! i = Some r -> usr_name r <> name.
Proof.
  intros Hf i r Hr E. unfold find_user_record, registry_by_name in Hf. assert (Hin : In r (snd <$> map_to_list m)).
  { apply list_elem_of_In. apply list_elem_of_fmap. exists (i, r). split; [done|]. by apply elem_of_map_to_list. }
  pose proof (List.find_none _ _ Hf r Hin) as H. cbv beta in H. by rewrite bool_decide_eq_true_2 in H.
Qed.

Lemma new_user_ok id name rn d a u : new_User id name rn d a = Ok u -> 0 < id < 2 ^ 32 -> user_ok u /\ matches (UserRecord_of u) u /\ us_id u = id /\ us_name u = name /\
  us_accessKeys u = [] /\ us_tokens u = [] /\ us_grantedPermissions u = ∅.
Proof.
  unfold new_User, validate_name. destruct (isValidDatabaseObjectName name) eqn:Ev; [|done]. cbn. intros [= <-] Hid. split; [|split; [|done]].
  - constructor; cbn; try done; try (split; constructor); constructor.
  - constructor; cbn; try done; intros i r; rewrite lookup_empty; (split; [done|]); intros (x & Hx & _); set_solver.
Qed.

Lemma synced_create b n s R s' R' id u ws : synced b n s R -> accounts_of s !! id = None -> m_users s' = <[id := u]> (m_users s) -> m_userRegistry s' = <[id := UserRecord_of u]> (m_userRegistry s) ->
  (forall i r, m_userRegistry s !! i = Some r -> usr_name r <> us_name u) -> id = rm_last (R SysUsers) + 1 ->
  user_ok u -> matches (UserRecord_of u) u -> us_id u = id -> us_accessKeys u = [] -> us_tokens u = [] -> us_grantedPermissions u = ∅ ->
  db_ok (m_systemDatabase s') R' -> lasts_ok n R' -> Forall2 stored (user_row u) ws ->
  (forall t, R' t = match t with SysUsers => set_last id (set_rows (<[id := ws]> (rm_rows (R SysUsers))) (R SysUsers)) | _ => R t end) -> synced b n s' R'.
Proof.
  intros H Hn Eu Er Hnames Eid Hok Hm Hid Hk Ht Hp Hdb Hlasts Hws HR.
  assert (Hrn : m_userRegistry s !! id = None). { pose proof (sy_records _ _ _ _ H id) as Hx. rewrite Hn in Hx. by destruct (m_userRegistry s !! id). }
  assert (Ha : accounts_of s' = <[id := u]> (accounts_of s)).
  { apply map_eq. intros j. rewrite accounts_lookup, Eu, Er. destruct (decide (id = j)) as [<-|Hne]; [by rewrite !lookup_insert, !decide_True|]. rewrite !lookup_insert_ne by done. by rewrite accounts_lookup. }
  pose proof (HR SysUsers) as HR1. cbn in HR1. pose proof (HR SysUserAccessKeys) as HR2. pose proof (HR SysUserTokens) as HR3. pose proof (HR SysUserPermissions) as HR4. cbn in HR2, HR3, HR4.
  constructor; rewrite ?Ha; try done.
  - destruct (sy_inst _ _ _ _ H) as [Hus [Hri Hrn']]. split; [|split].
    + rewrite Eu, Er. apply map_Forall_insert_2; [split; [done|rewrite lookup_insert, decide_True by done; by eexists]|]. intros j uj Hj. destruct (Hus _ _ Hj) as [? ?]. split; [done|]. apply lookup_insert_is_Some'. by right.
    + rewrite Er. apply map_Forall_insert_2; [done|done].
    + rewrite Er. intros i j ri rj Hi Hj Hne. destruct (decide (id = i)) as [<-|Hni]; [|destruct (decide (id = j)) as [<-|Hnj]].
      * rewrite lookup_insert, decide_True in Hi by done. injection Hi as <-. rewrite lookup_insert_ne in Hj by done. cbn. apply bool_decide_eq_false. apply not_eq_sym. by apply (Hnames j).
      * rewrite lookup_insert, decide_True in Hj by done. injection Hj as <-. rewrite lookup_insert_ne in Hi by done. cbn. apply bool_decide_eq_false. by apply (Hnames i).
      * rewrite lookup_insert_ne in Hi, Hj by done. by apply (Hrn' i j).
  - intros t i. rewrite HR. destruct t; cbn; try apply H. intros [<-|Hi]%lookup_insert_is_Some'; [lia|]. pose proof (sy_rows _ _ _ _ H SysUsers i Hi). lia.
  - intros j. rewrite Er. destruct (decide (id = j)) as [<-|Hne]; [by rewrite !lookup_insert, !decide_True|]. rewrite !lookup_insert_ne by done. apply (sy_records _ _ _ _ H).
  - apply map_Forall_insert_2; [done|apply (sy_ok _ _ _ _ H)].
  - rewrite HR1. cbn. intros j. destruct (decide (id = j)) as [<-|Hne]; [by rewrite !lookup_insert, !decide_True|]. rewrite !lookup_insert_ne by done. apply (sy_users _ _ _ _ H).
  - rewrite HR1, HR2. cbn. apply (items_new_user _ _ _ key_owner _ (rm_last (R SysUsers))); [apply H|done|lia|done].
  - rewrite HR1, HR3. cbn. apply (items_new_user _ _ _ token_owner _ (rm_last (R SysUsers))); [apply H|done|lia|done].
  - destruct (sy_perms _ _ _ _ H) as [Hp1 Hp2 Hp3]. rewrite HR1, HR4. cbn. split; [|..|done].
    + intros Hb. apply (items_new_user _ _ _ permission_owner _ (rm_last (R SysUsers))); [by apply Hp1|done|lia|]. unfold perm_items. by rewrite Hp, map_to_list_empty.
    + apply map_Forall_insert_2; [|done]. unfold perm_items. rewrite Hp, map_to_list_empty. done.
Qed.

Lemma createUser_kept maxUsers b n env name realName d a c s R : synced b (S n) s R -> kept b n (createUser maxUsers env name realName d a c) s.
Proof.
  intros H. apply after_bind. apply after_require; [apply H|done|done|]. intros s1 Hi1 Hl1 _. pose proof (synced_loaded _ _ _ _ _ Hl1 Hi1 H) as H1. clear s H Hl1.
  apply after_bind. apply after_gets. destruct (_ >=? maxUsers); [done|]. destruct (find_user_record name (m_userRegistry s1)) eqn:Hname; [done|].
  destruct (negb (isValidDatabaseObjectName name)); [done|]. pose proof (sy_lasts _ _ _ _ H1 SysUsers) as [Hl1 Hl2]. set (id := rm_last (R SysUsers) + 1).
  set (R1 := upd SysUsers (set_last id (R SysUsers)) R). assert (Hfree : rm_rows (R SysUsers) !! id = None).
  { destruct (rm_rows (R SysUsers) !! id) eqn:E; [|done]. pose proof (sy_rows _ _ _ _ H1 SysUsers _ (ex_intro _ _ E)). lia. }
  assert (Hnew : accounts_of s1 !! id = None). { pose proof (sy_users _ _ _ _ H1 id) as Hx. rewrite Hfree in Hx. by destruct (accounts_of s1 !! id). }
  apply after_bind. apply (ends_sys _ s1 R (fun i R' => i = id /\ R' = R1)); [apply H1|apply computes_bind; apply computes_next; [lia|]; apply computes_ret; split; [apply uw_small; unfold u_ok; lia|done]|].
  intros i db R' Hdb [-> ->]. apply after_bind. apply after_lift; [|done]. intros u Hu. destruct (new_user_ok _ _ _ _ _ _ Hu ltac:(lia)) as (Hok & Hm & Hid & Hn & Hk & Ht & Hp).
  apply after_bind. apply after_modify. apply (ends_transaction _ _ _ _ R1); [done|]. intros tp db1 Hdb1. apply after_bind.
  apply (ends_record SysUsers (user_row u) _ _ _ R1); [done|done|rewrite Hid; lia|by rewrite Hid|]. intros ws db2 Hws Hdb2. apply after_bind. apply after_modify.
  pose proof (find_record_none _ _ Hname) as Hnames. assert (Hrn : m_userRegistry s1 !! id = None). { pose proof (sy_records _ _ _ _ H1 id) as Hx. rewrite Hnew in Hx. by destruct (m_userRegistry s1 !! id). }
  assert (Hun : m_users s1 !! id = None). { rewrite accounts_lookup in Hnew. by destruct (m_users s1 !! id). }
  eexists. eapply (synced_create b n s1 R _ _ id u ws); [by apply synced_weaken|done| | | |done|done|done|done|done|done|done|exact Hdb2| |done|].
  - cbn. by rewrite Hun.
  - cbn. rewrite registry_insert_new; [by rewrite <- Hid|cbn; by rewrite Hid|]. intros j r Hj. cbn. apply bool_decide_eq_false. apply not_eq_sym. rewrite Hn. by apply (Hnames j).
  - intros j r Hj. rewrite Hn. by apply (Hnames j).
  - apply rows_lasts. intros t. pose proof (sy_lasts _ _ _ _ H1 t) as [? ?]. unfold R1, upd. destruct (decide (t = SysUsers)) as [->|]; cbn; lia.
  - intros t. unfold R1, upd. rewrite Hid. by destruct t.
Qed.

(** ** Removal of users *)

Lemma db_ok_ext (db : system_tables T) R R' : (forall t, R' t = R t) -> db_ok db R -> db_ok db R'.
Proof. intros E [Hw Hr]. split; intros t; [rewrite E; apply Hw|rewrite E; apply Hr]. Qed.

(** The rows of a list of items are deleted one by one. *)
Lemma ends_delete_all {A} t (f : A -> Z) now c l : forall s R (Q : unit -> state -> Prop), db_ok (m_systemDatabase s) R ->
  (forall db rows, db_ok db (upd t (set_rows rows (R t)) R) -> rows ⊆ rm_rows (R t) -> (forall i, i ∉ f <$> l -> rows !! i = rm_rows (R t) !! i) -> Q tt (with_database db s)) ->
  ends (for_each l (fun x => sys (delete_record t now (f x) c))) s Q.
Proof.
  induction l as [|x l IH]; intros s R Q Hdb HQ.
  - replace s with (with_database (m_systemDatabase s) s) by by destruct s. apply (HQ _ (rm_rows (R t))); [|done|done]. apply (db_ok_ext _ R); [|done].
    intros t'. unfold upd. destruct (decide (t' = t)) as [->|]; [by destruct (R t)|done].
  - cbn [for_each]. apply after_bind. apply (ends_delete _ _ _ _ _ R); [done|]. intros db Hdb1. eapply (IH (with_database db s) _ _ Hdb1). intros db' rows Hdb' Hsub Hsame. rewrite upd_same in *. cbn in Hsub, Hsame.
    apply (HQ db' rows).
    + eapply db_ok_ext; [|exact Hdb']. intros t'. unfold upd. by destruct (decide (t' = t)).
    + etrans; [done|]. apply delete_subseteq.
    + intros i [Hne Hi]%not_elem_of_cons. rewrite Hsame by done. by rewrite lookup_delete_ne.
Qed.

Lemma synced_drop b n s R s' R' id u : synced b n s R -> accounts_of s !! id = Some u -> m_users s' = delete id (m_users s) -> m_userRegistry s' = delete id (m_userRegistry s) ->
  db_ok (m_systemDatabase s') R' -> (forall t, rm_last (R' t) = rm_last (R t) /\ rm_rows (R' t) ⊆ rm_rows (R t)) -> rm_rows (R' SysUsers) = delete id (rm_rows (R SysUsers)) ->
  (forall i, i ∉ ak_id <$> us_accessKeys u -> rm_rows (R' SysUserAccessKeys) !! i = rm_rows (R SysUserAccessKeys) !! i) ->
  (forall i, i ∉ tk_id <$> us_tokens u -> rm_rows (R' SysUserTokens) !! i = rm_rows (R SysUserTokens) !! i) ->
  rm_rows (R' SysUserPermissions) = rm_rows (R SysUserPermissions) -> synced b n s' R'.
Proof.
  intros H Hu Eu Er Hdb HR H1 H2 H3 H4. assert (Hlast : 0 <= id <= rm_last (R SysUsers)).
  { split; [pose proof (uo_id _ (sy_ok _ _ _ _ H _ _ Hu)); pose proof (inst_ids_ok _ (sy_inst _ _ _ _ H) _ _ Hu) as Eid; cbv beta in Eid; lia|]. pose proof (sy_users _ _ _ _ H id) as Hx. rewrite Hu in Hx. destruct (rm_rows (R SysUsers) !! id) eqn:E; [|done]. by apply (sy_rows _ _ _ _ H); eexists. }
  assert (Ha : accounts_of s' = delete id (accounts_of s)).
  { apply map_eq. intros j. rewrite accounts_lookup, Eu, Er. destruct (decide (id = j)) as [<-|Hne]; [by rewrite !lookup_delete, !decide_True|]. rewrite !lookup_delete_ne by done. by rewrite accounts_lookup. }
  pose proof (proj1 (HR SysUsers)) as Elast. constructor; rewrite ?Ha, ?Elast; try done.
  - destruct (sy_inst _ _ _ _ H) as [Hus [Hri Hrn]]. split; [|split].
    + rewrite Eu, Er. intros j uj [Hne Hj]%lookup_delete_Some. destruct (Hus _ _ Hj) as [? ?]. split; [done|]. by rewrite lookup_delete_ne.
    + rewrite Er. by apply map_Forall_delete.
    + rewrite Er. intros i j ri rj [_ Hi]%lookup_delete_Some [_ Hj]%lookup_delete_Some. by apply (Hrn i j).
  - intros t. rewrite (proj1 (HR t)). apply (sy_lasts _ _ _ _ H).
  - intros t i [row Hi]. rewrite (proj1 (HR t)). apply (sy_rows _ _ _ _ H). exists row. by apply (lookup_weaken _ _ _ _ Hi), HR.
  - intros j. rewrite Er. destruct (decide (id = j)) as [<-|Hne]; [by rewrite !lookup_delete, !decide_True|]. rewrite !lookup_delete_ne by done. apply (sy_records _ _ _ _ H).
  - apply map_Forall_delete. apply (sy_ok _ _ _ _ H).
  - rewrite H1. intros j. destruct (decide (id = j)) as [<-|Hne]; [by rewrite !lookup_delete, !decide_True|]. rewrite !lookup_delete_ne by done. apply (sy_users _ _ _ _ H).
  - by apply (items_drop_user _ _ _ key_owner _ _ (rm_rows (R SysUserAccessKeys)) _ _ u); [apply H| | | |apply HR].
  - by apply (items_drop_user _ _ _ token_owner _ _ (rm_rows (R SysUserTokens)) _ _ u); [apply H| | | |apply HR].
  - destruct (sy_perms _ _ _ _ H) as [Hp1 Hp2 Hp3]. rewrite H4. split; [|by apply map_Forall_delete|done].
    intros Hb. apply (items_drop_user _ _ _ permission_owner _ _ (rm_rows (R SysUserPermissions)) _ _ u); by auto.
Qed.

Lemma dropUser_kept b n env name m c s R : synced b (S n) s R -> kept b n (dropUser env name m c) s.
Proof.
  intros H. apply after_bind. apply after_require; [apply H|done|done|]. intros s1 Hi1 Hl1 _. pose proof (synced_loaded _ _ _ _ _ Hl1 Hi1 H) as H1. clear s H Hl1.
  apply after_bind. apply after_gets. destruct (find_user_record name (m_userRegistry s1)) as [r|] eqn:Hname; [|destruct m; [done|exists R; by apply synced_weaken]].
  apply find_user_record_inv in Hname as [Hr _]; [|done]. cbv zeta. destruct (usr_id r =? kSuperUserId); [done|].
  apply after_bind. apply after_load; [done|done|done|]. intros u s2 Hi2 Hl2 Hu Hid. pose proof (synced_loaded _ _ _ _ _ Hl2 Hi2 H1) as H2. clear s1 H1 Hi1 Hr Hl2.
  apply after_bind. apply after_modify. apply after_bind. apply after_modify. apply after_bind. apply (ends_delete_all _ ak_id _ _ _ _ R); [apply H2|]. intros db1 rows1 Hdb1 Hsub1 Hsame1.
  apply after_bind. eapply (ends_delete_all _ tk_id); [exact Hdb1|]. intros db2 rows2 Hdb2 Hsub2 Hsame2. eapply ends_delete; [exact Hdb2|]. intros db3 Hdb3.
  eexists. apply synced_weaken. eapply (synced_drop b (S n) s2 R _ _ (usr_id r) u); [done|by apply lookup_loaded|done|done|exact Hdb3| | | | |].
  - intros t. destruct t; unfold upd; cbn; (split; [done|]); try done. apply delete_subseteq.
  - done.
  - done.
  - done.
  - done.
Qed.

(** ** Permissions *)

(** The statement that updates the row of a permission is run on the table of
    tokens: there is no such row, or no column at that position. *)
Lemma update_permission_throws now d c (db : system_tables T) R : db_ok db R -> exists e db', updateUserPermission now d c db = (Throw e, db') /\ db_ok db' R.
Proof.
  intros Hdb. unfold updateUserPermission, update_record. unfold mbind at 1.
  destruct (computes_transaction now c R (fun _ R' => R' = R) (fun _ => eq_refl) db Hdb) as (tp & db1 & R1 & -> & Hdb1 & ->). unfold mbind, table, embed.
  assert (Hset : forall t', rt_ok t' (R SysUserTokens) -> db_ok (set_table SysUserTokens t' db1) R).
  { intros t' Ht'. apply (db_ok_ext _ (upd SysUserTokens (R SysUserTokens) R)); [|by apply db_ok_set]. intros t. unfold upd. by destruct (decide (t = SysUserTokens)) as [->|]. }
  destruct Hdb1 as [Hw Hrt]. destruct (rm_rows (R SysUserTokens) !! pd_id d) as [row|] eqn:Erow.
  - edestruct (rt_update_outside (get_table SysUserTokens db1) (R SysUserTokens) (pd_id d)) as (e & t' & -> & Ht'); [apply Hrt|exact Erow| |rewrite (Hw SysUserTokens)|eexists _, _; split; [done|by apply Hset]].
    + right. left.
    + cbn. lia.
  - edestruct (rt_update_missing (get_table SysUserTokens db1) (R SysUserTokens) (pd_id d)) as (t' & -> & Ht'); [apply Hrt|exact Erow|]. eexists _, _. split; [done|by apply Hset].
Qed.

Lemma ends_update_permission now d c s R {A} (k : unit -> IM A) Q : db_ok (m_systemDatabase s) R -> ends (x <-- sys (updateUserPermission now d c) ;; k x) s Q.
Proof. intros Hdb. destruct (update_permission_throws now d c _ R Hdb) as (e & db' & E & _). unfold after, mbind, sys, embed. by rewrite E. Qed.

(** The check that the current user may grant, and the object of the user. *)
Lemma ends_granter b n c id k p {A} (f : User -> IM A) s R Q : synced b n s R ->
  (forall u r s', synced b n s' R -> m_users s' !! id = Some u -> m_userRegistry s' !! id = Some r -> ends (f u) s' Q) ->
  ends (cu <-- findUserChecked_id c ;;
        if negb (hasPermissions k p true cu) then mthrow PermissionDenied else
        registry <-- gets m_userRegistry ;;
        match registry !! id with None => mthrow (UserDoesNotExist_id id) | Some _ => u <-- user_object id ;; f u end) s Q.
Proof.
  intros H Hf. apply after_bind. apply after_find_id; [apply H|done|]. intros cu s1 Hi1 Hl1 Hcu _. pose proof (synced_loaded _ _ _ _ _ Hl1 Hi1 H) as H1.
  destruct (hasPermissions k p true cu); [|done]. cbn [negb]. apply after_bind. apply after_gets. destruct (m_userRegistry s1 !! id) as [r0|] eqn:Hr; [|done].
  apply after_bind. unfold user_object. apply after_bind. apply after_gets. destruct (m_users s1 !! id) as [u|] eqn:Hu; [|done]. by eapply Hf.
Qed.

(** The permissions of a loaded user change, with their records and rows. *)
Lemma synced_perms_change b n n' s R s' R' id u r m' f : synced b n s R -> m_users s !! id = Some u -> m_userRegistry s !! id = Some r ->
  m_users s' = <[id := set_grantedPermissions m' u]> (m_users s) -> m_userRegistry s' = <[id := map_permissions f r]> (m_userRegistry s) ->
  db_ok (m_systemDatabase s') R' -> lasts_ok n' R' -> (forall t, t <> SysUserPermissions -> R' t = R t) ->
  (forall i, is_Some (rm_rows (R' SysUserPermissions) !! i) -> i <= rm_last (R' SysUserPermissions)) ->
  perms_synced b (<[id := set_grantedPermissions m' u]> (accounts_of s)) (rm_last (R SysUsers)) (rm_rows (R' SysUserPermissions)) -> synced b n' s' R'.
Proof.
  intros H Hu Hr Eu Er Hdb Hlasts HR Hrows Hp. destruct (synced_user _ _ _ _ _ _ H Hu) as (r0 & Hr0 & Hma & Hok & Hid). rewrite Hr in Hr0. injection Hr0 as <-.
  pose proof (lookup_loaded _ _ _ Hu) as Ha. destruct H. eapply (synced_change b n n' s R s' _ id u r); rewrite ?(HR SysUsers), ?(HR SysUserAccessKeys), ?(HR SysUserTokens) by done; try done.
  - by destruct Hok.
  - by destruct Hma.
  - intros t. destruct t; try (rewrite HR by done; apply sy_rows). done.
  - by eapply users_frame.
  - by eapply user_keys_frame.
  - by eapply user_tokens_frame.
Qed.

Lemma perm_items_elem (u : User) k d : (k, d) ∈ perm_items u <-> us_grantedPermissions u !! k = Some d.
Proof. apply elem_of_map_to_list. Qed.

(** Different permissions of a user have different rows. *)
Lemma permission_row_key id kd kd' row : permission_fits kd -> permission_fits kd' -> Forall2 stored (permission_row id kd) row -> Forall2 stored (permission_row id kd') row -> fst kd = fst kd'.
Proof.
  intros (Hd & Ht & Ho & _) (Hd' & Ht' & Ho' & _). unfold permission_row. intros H H'. inv_row H.
  repeat match type of H' with Forall2 stored (_ :: _) _ => apply Forall2_cons_inv_l in H' as (? & ? & ? & H' & [= <- <-]) end.
  repeat match goal with Hx : stored (v_u32 _) _ |- _ => apply stored_int in Hx as (? & -> & _); [|done] | Hx : stored (v_u64 _) _ |- _ => apply stored_int in Hx as (? & -> & _); [|done]
    | Hx : stored (v_u8 _) _ |- _ => apply stored_int in Hx as (? & -> & _); [|done] end.
  destruct H1 as [E1 _], H2 as [E2 _], H3 as [E3 _]. rewrite !uw_small in E2 by (unfold u_ok; lia). destruct (fst kd), (fst kd'). cbn in *. by subst.
Qed.

Lemma perm_ids_distinct a last m id u k d k' d' : perms_synced true a last m -> a !! id = Some u -> us_grantedPermissions u !! k = Some d -> us_grantedPermissions u !! k' = Some d' ->
  pd_id d = pd_id d' -> k = k'.
Proof.
  intros [Hp Hf _] Hu Hk%perm_items_elem Hk'%perm_items_elem E. specialize (Hp eq_refl). destruct (proj2 Hp _ _ _ Hu Hk) as (row & Hr & Hs). destruct (proj2 Hp _ _ _ Hu Hk') as (row' & Hr' & Hs').
  unfold perm_id in *. cbn in Hr, Hr'. rewrite E, Hr' in Hr. injection Hr as ->. pose proof (proj1 (Forall_forall _ _) (Hf _ _ Hu)) as Hfit.
  exact (permission_row_key _ _ _ _ (Hfit _ Hk) (Hfit _ Hk') Hs Hs').
Qed.

Lemma revoke_kept b n env id db ty obj p c s R : synced b n s R -> ends (revokeObjectPermissionsFromUserUnlocked env id db ty obj p c) s (fun _ s' => exists R', synced b n s' R').
Proof.
  intros H. apply after_bind. apply (after_mono _ _ (fun _ s' => s' = s)); [destruct (p =? kAllPermissionsForRevoke); [done|by apply after_lift]|]. intros _ ? ->. cbv zeta.
  set (k := {| pk_databaseId := db; pk_objectType := ty; pk_objectId := obj |}). apply (ends_granter b n c id k p _ s R); [done|]. clear s H. intros u r s H Hu Hr.
  assert (Hback : ends (change_user id (fun _ => u) ;;' mret tt) s (fun _ s' => exists R', synced b n s' R')).
  { apply after_bind. apply after_modify. exists R. apply (synced_loaded b n s); [| |done].
    - split; [done|]. split; [done|]. unfold accounts_of. cbn. by rewrite (alter_known _ _ _ u), insert_id.
    - destruct (sy_inst _ _ _ _ H) as [H1 H2]. split; [|done]. cbn. by rewrite (alter_known _ _ _ u), insert_id. }
  unfold revokePermissions. destruct (us_grantedPermissions u !! k) as [d|] eqn:Ek; [|done]. destruct (Z.land (getEffectiveGrantOptions d) p =? 0); [done|]. cbv zeta.
  destruct (pd_permissions (removePermissions p d) =? 0); apply after_bind; apply after_modify; [|eapply ends_update_permission; apply H].
  apply after_bind. apply (ends_delete _ _ _ _ _ R); [apply H|]. intros db1 Hdb1. cbn [pd_id removePermissions] in Hdb1.
  eexists. eapply (synced_perms_change b n n s R _ _ id u r (delete k (us_grantedPermissions u)) (delete (pd_id d))); [done|done|done| | |exact Hdb1| | | |].
  - cbn. by rewrite (alter_known _ _ _ u).
  - cbn. by rewrite (alter_known _ _ _ r).
  - apply rows_lasts. apply H.
  - intros t Hne. by rewrite upd_other.
  - rewrite upd_same. cbn. apply delete_bounded. apply H.
  - pose proof (sy_perms _ _ _ _ H) as [Hp1 Hp2 Hp3]. rewrite upd_same. cbn. pose proof (lookup_loaded _ _ _ Hu) as Ha. split.
    + intros Hb. apply (items_remove perm_id _ _ permission_owner _ _ _ _ u _ (k, d)); [by apply Hp1|done|by apply perm_items_elem|]. intros [k' d']. rewrite !perm_items_elem. cbn. rewrite lookup_delete_Some. split.
      * intros [Hne Hd']. split; [done|]. unfold perm_id. cbn. intros E. apply Hne. symmetry. subst b. by eapply (perm_ids_distinct _ _ _ id u k' d' k d); [apply H| | | |].
      * intros [Hd' Hne]. split; [|done]. intros <-. rewrite Ek in Hd'. injection Hd' as <-. done.
    + apply map_Forall_insert_2; [|done]. apply Forall_forall. intros [k' d'] Hin. apply perm_items_elem in Hin. cbn in Hin. apply lookup_delete_Some in Hin as [_ Hd']. apply (proj1 (Forall_forall _ _) (Hp2 _ _ Ha)). by apply perm_items_elem.
    + intros i row [_ Hi]%lookup_delete_Some. by apply Hp3.
Qed.

Lemma for_each_kept b n {A} (l : list A) (f : A -> IM unit) : (forall x s R, synced b n s R -> ends (f x) s (fun _ s' => exists R', synced b n s' R')) ->
  forall s R, synced b n s R -> ends (for_each l f) s (fun _ s' => exists R', synced b n s' R').
Proof.
  intros Hf. induction l as [|x l IH]; intros s R H; [by exists R|]. cbn. apply after_bind. eapply after_mono; [by apply (Hf x s R)|]. intros _ s' [R' H']. by apply (IH _ R').
Qed.

(** Valid permissions fit in their columns. *)
Lemma valid_permissions_fit ty p : isValidPermissions ty p = true -> 0 <= ty < 12 /\ 0 <= p < 2 ^ 64.
Proof.
  unfold isValidPermissions, getAllObjectTypePermissions. destruct (List.find (fun p0 => fst p0 =? ty) s_allowedPermissions) as [[t m]|] eqn:E; [|done]. cbn. apply List.find_some in E as [Hin Et%Z.eqb_eq].
  intros Hp%Z.eqb_eq. cbn in Et. subst t. assert (Hm : 0 <= ty < 12 /\ 0 <= m < 2 ^ 64).
  { assert (Hall : forallb (fun '(t, m) => (0 <=? t) && (t <? 12) && (0 <=? m) && (m <? 2 ^ 64)) s_allowedPermissions = true) by done. rewrite forallb_forall in Hall.
    specialize (Hall _ Hin). cbv beta iota in Hall. rewrite !andb_true_iff, !Z.leb_le, !Z.ltb_lt in Hall. lia. }
  assert (Hones : Z.land m (Z.ones 64) = m) by (rewrite Z.land_ones by lia; apply Z.mod_small, Hm).
  split; [apply Hm|]. rewrite <- Hp, <- Hones, Z.land_assoc, Z.land_ones by lia. by apply Z.mod_pos_bound.
Qed.

Lemma ends_append t values tp s R (Q : Z -> state -> Prop) : db_ok (m_systemDatabase s) R -> List.length values = List.length (sys_columns t) -> 0 <= rm_last (R t) < 2 ^ 32 - 1 ->
  rm_rows (R t) !! (rm_last (R t) + 1) = None ->
  (forall ws db, Forall2 stored values ws -> db_ok db (upd t (set_last (rm_last (R t) + 1) (set_rows (<[rm_last (R t) + 1 := ws]> (rm_rows (R t))) (R t))) R) -> Q (rm_last (R t) + 1) (with_database db s)) ->
  ends (sys (values <-- row_values t values ;; table t (rt_insertRow values tp 0))) s Q.
Proof.
  intros Hdb Hl Ht Hn HQ.
  apply (ends_sys _ s R (fun i R' => i = rm_last (R t) + 1 /\ exists ws, Forall2 stored values ws /\ R' = upd t (set_last (rm_last (R t) + 1) (set_rows (<[rm_last (R t) + 1 := ws]> (rm_rows (R t))) (R t))) R)); [done| |].
  - apply computes_bind. apply computes_row_values; [done|]. apply computes_append; [apply Hdb|done|done|done|]. intros ws Hws. split; [done|]. by exists ws.
  - intros i db R' Hdb' (-> & ws & Hws & ->). by apply (HQ ws).
Qed.

(** A permission without a row is that of a new key, when the rows are known. *)
Lemma new_permission_key b n s R id u k d : synced b n s R -> m_users s !! id = Some u -> us_grantedPermissions u !! k = Some d -> pd_id d = 0 -> b = false.
Proof.
  intros H Hu Hk E. destruct b; [|done]. pose proof (ps_items _ _ _ _ (sy_perms _ _ _ _ H) eq_refl) as Hp. apply perm_items_elem in Hk.
  destruct (proj2 Hp _ _ _ (lookup_loaded _ _ _ Hu) Hk) as (row & Hr & _). unfold perm_id in Hr. cbn in Hr. rewrite E in Hr.
  pose proof (rt_positive _ _ (proj2 (sy_db _ _ _ _ H) SysUserPermissions) _ _ Hr) as [? _]. lia.
Qed.

Lemma perms_put b n s R id u k d ws : synced b n s R -> m_users s !! id = Some u -> (b = true -> us_grantedPermissions u !! k = None) -> permission_fits (k, d) -> us_id u = id ->
  rm_rows (R SysUserPermissions) !! pd_id d = None -> Forall2 stored (permission_row id (k, d)) ws ->
  perms_synced b (<[id := set_grantedPermissions (<[k := d]> (us_grantedPermissions u)) u]> (accounts_of s)) (rm_last (R SysUsers)) (<[pd_id d := ws]> (rm_rows (R SysUserPermissions))).
Proof.
  intros H Hu Hk Hfit Hid Hnew Hws. destruct (sy_perms _ _ _ _ H) as [Hp1 Hp2 Hp3]. pose proof (lookup_loaded _ _ _ Hu) as Ha. split.
  - intros Hb. specialize (Hk Hb). specialize (Hp1 Hb). apply (items_put perm_id _ _ permission_owner _ _ _ _ u _ (k, d)); [done|done|by left| |done]. intros [k' d']. rewrite !perm_items_elem. cbn. split.
    + intros [[<- <-]|[Hne Hd']]%lookup_insert_Some; [by right|left]. split; [done|]. unfold perm_id. cbn. intros E. apply perm_items_elem in Hd'.
      destruct (proj2 Hp1 _ _ _ Ha Hd') as (row & Hr & _). unfold perm_id in Hr. cbn in Hr. congruence.
    + intros [[Hd' Hne]|[= -> ->]]; [|by rewrite lookup_insert, decide_True]. rewrite lookup_insert_ne; [done|]. intros ->. congruence.
  - apply map_Forall_insert_2; [|done]. apply Forall_forall. intros [k' d'] Hin. apply perm_items_elem in Hin. cbn in Hin. apply lookup_insert_Some in Hin as [[<- <-]|[_ Hd']]; [done|].
    apply (proj1 (Forall_forall _ _) (Hp2 _ _ Ha)). by apply perm_items_elem.
  - intros i row [[<- <-]|[_ Hi]]%lookup_insert_Some; [|by apply Hp3]. exists id, (k, d). pose proof (uo_id _ (sy_ok _ _ _ _ H _ _ Ha)). split; [lia|done].
Qed.

(** A grant leaves permissions that fit. *)
Lemma lor_64 x y : 0 <= x < 2 ^ 64 -> 0 <= y < 2 ^ 64 -> 0 <= Z.lor x y < 2 ^ 64.
Proof.
  intros Hx Hy. split; [apply Z.lor_nonneg; lia|]. destruct (Z.eq_dec (Z.lor x y) 0) as [->|Hne]; [lia|]. assert (0 <= Z.lor x y) by (apply Z.lor_nonneg; lia).
  apply Z.log2_lt_pow2; [lia|]. rewrite Z.log2_lor by lia. apply Z.max_lub_lt; [destruct (Z.eq_dec x 0) as [->|]|destruct (Z.eq_dec y 0) as [->|]]; try (cbn; lia); apply Z.log2_lt_pow2; lia.
Qed.
Lemma grant_fits k p g u data u' : grantPermissions k p g u = (data, u') -> 0 <= p < 2 ^ 64 -> Forall permission_fits (perm_items u) ->
  u' = set_grantedPermissions (<[k := data]> (us_grantedPermissions u)) u /\ 0 <= pd_permissions data < 2 ^ 64 /\ 0 <= pd_grantOptions data < 2 ^ 64 /\
  match us_grantedPermissions u !! k with Some d => pd_id data = pd_id d | None => pd_id data = 0 end.
Proof.
  intros Eg Hp Hfit. unfold grantPermissions in Eg. destruct (us_grantedPermissions u !! k) as [d|] eqn:Ek; injection Eg as <- <-; (split; [done|]); cbn.
  - apply perm_items_elem in Ek. destruct (proj1 (Forall_forall _ _) Hfit _ Ek) as (_ & _ & _ & H1 & H2). cbn in H1, H2. split; [by apply lor_64|]. split; [|done]. destruct g; [by apply lor_64|done].
  - split; [done|]. split; [|done]. destruct g; lia.
Qed.

Lemma grant_kept b n env id db ty obj p g c s R : 0 <= db < 2 ^ 32 -> 0 <= obj < 2 ^ 64 -> synced b (S n) s R -> kept b n (grantObjectPermissionsToUserUnlocked env id db ty obj p g c) s.
Proof.
  intros Hdbid Hobj H. unfold grantObjectPermissionsToUserUnlocked. apply after_bind. apply after_lift; [|done]. intros [] Hv. unfold validatePermissions in Hv.
  destruct (isValidPermissions ty p) eqn:Hval; [|done]. clear Hv. apply valid_permissions_fit in Hval as [Hty Hp]. cbv zeta. set (k := {| pk_databaseId := db; pk_objectType := ty; pk_objectId := obj |}).
  apply (ends_granter b (S n) c id k p _ s R); [done|]. clear s H. intros u r s H Hu Hr. destruct (grantPermissions k p g u) as [data u'] eqn:Eg. apply after_bind. apply after_modify.
  destruct (Z.eqb_spec (pd_id data) 0) as [Eid|Hne]; cbn [negb]; [|eapply ends_update_permission; apply H].
  pose proof (sy_lasts _ _ _ _ H SysUserPermissions) as [Hl1 Hl2]. assert (Hfree : rm_rows (R SysUserPermissions) !! (rm_last (R SysUserPermissions) + 1) = None).
  { destruct (rm_rows (R SysUserPermissions) !! _) eqn:E; [|done]. pose proof (sy_rows _ _ _ _ H SysUserPermissions _ (ex_intro _ _ E)). lia. }
  destruct (grant_fits _ _ _ _ _ _ Eg Hp (ps_fit _ _ _ _ (sy_perms _ _ _ _ H) _ _ (lookup_loaded _ _ _ Hu))) as (-> & Hpd & Hgo & Hk).
  destruct (synced_user _ _ _ _ _ _ H Hu) as (r0 & Hr0 & _ & Hok & Hid). apply (ends_transaction _ _ _ _ R); [apply H|]. intros tp db1 Hdb1. apply after_bind.
  apply (ends_append SysUserPermissions (permission_row id (k, data)) _ _ R); [done|done|lia|done|]. intros ws db2 Hws Hdb2. set (pid := rm_last (R SysUserPermissions) + 1) in *.
  apply after_bind. apply after_modify. eexists.
  eapply (synced_perms_change b (S n) n s R _ _ id u r (<[k := setId pid data]> (us_grantedPermissions u)) (registry_insert (UserPermissionRecord_of id k (setId pid data)))); [done|done|done| | |exact Hdb2| | | |].
  - cbn. rewrite (alter_known _ (m_users s) _ u) by done. rewrite alter_insert_same. unfold setPermissionRecordId. rewrite lookup_set, lookup_insert, decide_True by done. rewrite Eid. cbn.
    by rewrite insert_insert, decide_True.
  - cbn. by rewrite (alter_known _ _ _ r).
  - intros t. pose proof (sy_lasts _ _ _ _ H t) as [? ?]. unfold upd. destruct (decide (t = SysUserPermissions)) as [->|]; cbn; lia.
  - intros t Hnt. by rewrite upd_other.
  - rewrite upd_same. cbn. apply insert_bounded; [|done]. intros i Hi. pose proof (sy_rows _ _ _ _ H SysUserPermissions i Hi). lia.
  - rewrite upd_same. cbn. apply (perms_put b (S n) s R id u k (setId pid data) ws); [done|done| |repeat split; cbn; tauto|done|done|done].
    intros ->. destruct (us_grantedPermissions u !! k) as [d0|] eqn:Ek; [|done]. rewrite Hk in Eid. by pose proof (new_permission_key true (S n) s R id u k d0 H Hu Ek Eid).
Qed.

(** ** All requests *)

Lemma kept_unit b n {A} (m : IM A) s : kept b n m s -> kept b n (m ;;' mret tt) s.
Proof. intros H. apply after_bind. by eapply after_mono; [exact H|]. Qed.

Lemma find_name_kept b n name {A} (f : User -> IM A) s R Q : synced b n s R -> (forall u s', synced b n s' R -> ends (f u) s' Q) -> ends (u <-- findUserChecked name ;; f u) s Q.
Proof. intros H Hf. apply after_bind. apply after_find_name; [apply H|done|]. intros u s' Hi Hl _. apply Hf. by eapply synced_loaded. Qed.

Lemma synced_sessions b n s R f : synced b n s R -> synced b n (with_sessions f s) R.
Proof. intros []. by constructor. Qed.

Lemma beginSession_kept b n uuids s R : synced b n s R -> ends (beginSession uuids) s (fun _ s' => synced b n s' R).
Proof.
  intros H. induction uuids as [|uuid uuids IH]; [done|]. cbn. apply after_bind. apply after_gets. destruct (bool_decide _); [done|]. by apply (synced_sessions b n s).
Qed.

Lemma checkUserToken_kept b n env name token value s R : synced b (S n) s R -> kept b n (checkUserToken env name token value) s.
Proof.
  intros H. apply after_bind. apply after_record; [apply H|done|]. intros r Hr _. destruct (registry_by_name _ _ _) as [tr|]; [|done].
  apply after_bind. apply after_load; [apply H|done|done|]. intros u s' Hi Hl _ _. pose proof (synced_loaded _ _ _ _ _ Hl Hi H) as H'.
  apply after_bind. apply after_lift; [|done]. intros t _. apply after_bind. apply after_lift; [|done]. intros [|] _; [|done]. exists R. by apply synced_weaken.
Qed.

Context (maxUsers : Z) (databases : list Z -> option (Z * (list Z -> option Z))).

(** The numbers of databases and tables have 32 and 64 bits. *)
Definition databases_fit : Prop := forall name id tables, databases name = Some (id, tables) -> 0 <= id < 2 ^ 32 /\ forall table i, tables table = Some i -> 0 <= i < 2 ^ 64.

(** Arguments that the columns can hold; the expiration time of a token is not
    changed. *)
Definition fitting (r : Request) : Prop :=
  match r with
  | CreateUserToken _ _ _ _ (Some t) => time_ok t
  | UpdateUserToken _ _ params => tkp_expirationTimestamp params = None
  | GrantObjectPermissions _ databaseId _ objectId _ _ => 0 <= databaseId < 2 ^ 32 /\ 0 <= objectId < 2 ^ 64
  | _ => True
  end.

Lemma find_object_fits databaseName tableName id tid : databases_fit -> find_object databases databaseName tableName = Ok (id, tid) -> 0 <= id < 2 ^ 32 /\ 0 <= tid < 2 ^ 64.
Proof.
  intros Hfit. unfold find_object. destruct (bool_decide (databaseName = kAllObjectsName)); cbn.
  - destruct (bool_decide _); cbn; [|done]. intros [= <- <-]. lia.
  - destruct (databases databaseName) as [[i tables]|] eqn:Ed; [|done]. cbn. apply Hfit in Ed as [Hi Ht]. destruct (bool_decide _); cbn; [intros [= <- <-]; split; [done|lia]|].
    destruct (tables tableName) as [j|] eqn:Et; [|done]. cbn. intros [= <- <-]. split; [done|]. by eapply Ht.
Qed.

Lemma handle_kept b n env c r s R : databases_fit -> fitting r -> synced b (S n) s R -> kept b n (handle maxUsers databases env c r) s.
Proof.
  intros Hd Hf H. destruct r; cbn [handle fitting] in *.
  - apply kept_unit. by eapply createUser_kept.
  - by eapply dropUser_kept.
  - by eapply updateUser_kept.
  - apply kept_unit. by eapply createUserAccessKey_kept.
  - by eapply dropUserAccessKey_kept.
  - by eapply updateUserAccessKey_kept.
  - apply kept_unit. eapply createUserToken_kept; [|done]. by destruct expirationTimestamp.
  - by eapply dropUserToken_kept.
  - by eapply updateUserToken_kept.
  - by eapply checkUserToken_kept.
  - apply after_bind. apply after_find_id; [apply H|done|]. intros u s' Hi Hl _ _. eapply grant_kept; [apply Hf|apply Hf|]. by eapply synced_loaded.
  - apply (find_name_kept b (S n) _ _ s R); [done|]. intros u s' H'. apply after_bind. apply after_lift; [|done]. intros [dbId tableId] [? ?]%find_object_fits; [|done]. by eapply grant_kept.
  - apply (find_name_kept b (S n) _ _ s R); [done|]. intros u s' H'. apply after_bind. apply after_lift; [|done]. intros [dbId tableId] _. apply synced_weaken in H'. by eapply revoke_kept.
  - apply after_bind. apply after_gets. apply (for_each_kept b n _ _) with (R := R); [|by apply synced_weaken]. intros u s' R' H'. by eapply revoke_kept.
  - apply kept_unit. apply (find_name_kept b (S n) _ _ s R); [done|]. intros u s' H'. destruct (negb _); [done|]. apply after_bind. eapply after_mono; [by apply (beginSession_kept b (S n) _ _ R)|].
    intros ses s2 H2. exists R. by apply synced_weaken.
  - apply kept_unit. apply (find_name_kept b (S n) _ _ s R); [done|]. intros u s' H'. apply after_bind. apply after_lift; [|done]. intros [|] _; [|done]. exists R. by apply synced_weaken.
  - apply after_bind. apply after_gets. destruct (bool_decide _); [|done]. exists R. apply (synced_sessions b n s). by apply synced_weaken.
Qed.
End KeptUsers.
