(* ===== verification/InstanceRestart.v ===== *)
(** * Users survive a restart

    Reading all rows of the system tables gives the records of the accounts, so
    that an instance that is started on the tables of another one has the same
    users, access keys and tokens; and the same permissions, when none of them was
    read from the tables before. *)

From stdpp Require Import base list gmap.
Set Warnings "-clear-no-such-hyp,-notation-incompatible-prefix,-notation-for-abbreviation".
From Stdlib Require Import ZArith Lia.
From S2P Require Import Prelude StateM Bytes CNum VariantType Variant RawDateTime ExprEval RecordReader CatalogRecords MasterColumn Table Users SystemTables Instance InstanceSpec InstanceRefine SystemTablesSpec InstancePersist InstanceKept InstanceKeptUsers.

Local Open Scope Z_scope.

(** ** Registries from lists of records *)

Section Records.
Context {Rec : Type} {IX : Indexed Rec}.

Lemma read_records (read : Z -> list Variant -> outcome UserError Rec) (l : list (Z * list Variant)) :
  (forall k row, (k, row) ∈ l -> exists r, read k row = Ok r /\ m_id_of r = k) ->
  exists rs, (forall r, r ∈ rs <-> exists k row, (k, row) ∈ l /\ read k row = Ok r) /\ m_id_of <$> rs = fst <$> l /\
    forall A (f : Rec -> A -> A) (a : A), foldl (fun a '(k, row) => match read k row with Ok r => f r a | _ => a end) a l = foldl (fun a r => f r a) a rs.
Proof.
  induction l as [|[k row] l IH]; intros Hl.
  - exists []. split; [|done]. intros r. split; [set_solver|]. intros (? & ? & ? & _). set_solver.
  - destruct IH as (rs & Hrs & Hid & Hf); [intros; apply Hl; by right|]. destruct (Hl k row) as (r & Hr & Hk); [by left|]. exists (r :: rs). split; [|split].
    + intros r'. rewrite elem_of_cons, Hrs. split.
      * intros [->|(k' & row' & Hin & Hr')]; [exists k, row; split; [by left|done]|exists k', row'; split; [by right|done]].
      * intros (k' & row' & [[= -> ->]|Hin]%elem_of_cons & Hr'); [left; congruence|right; eauto].
    + cbn. by rewrite Hid, Hk.
    + intros A f a. cbn. rewrite Hr. apply Hf.
Qed.

Lemma fold_registry_lookup (rs : list Rec) : NoDup (m_id_of <$> rs) -> (forall r r', r ∈ rs -> r' ∈ rs -> m_id_of r <> m_id_of r' -> unique r r' = false) ->
  forall i r, foldl (fun m r => registry_insert r m) ∅ rs !! i = Some r <-> r ∈ rs /\ m_id_of r = i.
Proof.
  induction rs as [|r0 rs IH] using rev_ind; intros Hnd Hu i r; [cbn [foldl]; rewrite lookup_empty; set_solver|]. rewrite fmap_app in Hnd. apply NoDup_app in Hnd as (Hnd & Hn & _).
  assert (IH' := IH Hnd (fun r r' Hr Hr' => Hu r r' (proj2 (elem_of_app _ _ _) (or_introl Hr)) (proj2 (elem_of_app _ _ _) (or_introl Hr')))). clear IH.
  assert (Hr0 : forall r', r' ∈ rs -> m_id_of r' <> m_id_of r0). { intros r' Hr' E. apply (Hn (m_id_of r')); [by apply list_elem_of_fmap_2|]. rewrite E. cbn. set_solver. }
  rewrite foldl_app. cbn [foldl]. rewrite registry_insert_new.
  - rewrite lookup_insert_Some, IH'. rewrite elem_of_app, list_elem_of_singleton. split.
    + intros [[<- <-]|[Hne [Hr <-]]]; [split; [by right|done]|split; [by left|done]].
    + intros [[Hr| ->] <-]; [right|by left]. split; [apply not_eq_sym; by apply Hr0|done].
  - destruct (_ !! m_id_of r0) as [r'|] eqn:E; [|done]. apply IH' in E as [Hr' E]. by destruct (Hr0 r' Hr').
  - intros j r' Hj. apply IH' in Hj as [Hr' _]. apply Hu; [set_solver|set_solver|]. apply not_eq_sym. by apply Hr0.
Qed.

Lemma fold_insert_for (owner : Rec -> Z) id (rs : list Rec) :
  default ∅ (foldl (fun m r => insert_for (owner r) r m) ∅ rs !! id) = foldl (fun m r => registry_insert r m) ∅ (filter (fun r => owner r = id) rs).
Proof.
  induction rs as [|r rs IH] using rev_ind; [done|]. rewrite foldl_app, filter_app, foldl_app. cbn [foldl]. unfold insert_for at 1. rewrite filter_cons, filter_nil. destruct (decide (owner r = id)) as [E|Hne].
  - rewrite E, lookup_insert, decide_True by done. cbn. by rewrite IH.
  - rewrite lookup_insert_ne by done. done.
Qed.
End Records.

(** ** Users up to the order of their keys and tokens *)

Definition grants_of (u : User) : gmap UserPermissionKey (Z * Z) := (fun d => (pd_permissions d, pd_grantOptions d)) <$> us_grantedPermissions u.

(** [b] tells whether the permissions are compared. *)
Record same_user (b : bool) (u u' : User) : Prop := {
  su_id : us_id u' = us_id u;
  su_name : us_name u' = us_name u;
  su_realName : us_realName u' = us_realName u;
  su_description : us_description u' = us_description u;
  su_active : us_active u' = us_active u;
  su_keys : us_accessKeys u' ≡ₚ us_accessKeys u;
  su_tokens : us_tokens u' ≡ₚ us_tokens u;
  su_grants : b = true -> grants_of u' = grants_of u
}.
Definition same_accounts (b : bool) (a a' : accounts) : Prop :=
  forall id, match a !! id, a' !! id with Some u, Some u' => same_user b u u' | None, None => True | _, _ => False end.

Lemma collect_perm {A B} (f : A -> outcome UserError B) (rec : B -> A) l xs : l ≡ₚ rec <$> xs -> (forall x, x ∈ xs -> f (rec x) = Ok x) -> exists ys, collect f l = Ok ys /\ ys ≡ₚ xs.
Proof.
  intros Hl Hf. apply Permutation_map_inv in Hl as (ys & -> & Hp). exists ys. split; [|by symmetry]. assert (Hf' : forall y, y ∈ ys -> f (rec y) = Ok y) by (intros y Hy; apply Hf; by rewrite Hp).
  clear Hp Hf. induction ys as [|y ys IH]; [done|]. cbn. rewrite (Hf' y) by set_solver. cbn. rewrite IH; [done|]. intros z Hz. apply Hf'. by right.
Qed.

Lemma emplace_from l : forall m k d, fold_left emplace_permission l m !! k = Some d ->
  m !! k = Some d \/ exists r, r ∈ l /\ permission_key r = k /\ d = {| pd_permissions := upm_permissions r; pd_grantOptions := upm_grantOptions r; pd_id := 0 |}.
Proof.
  induction l as [|r l IH]; intros m k d Hd; [by left|]. cbn in Hd. apply IH in Hd as [Hd|(r' & Hr' & Hk & ->)]; [|right; exists r'; split; [by right|done]].
  unfold emplace_permission in Hd. destruct (m !! permission_key r) eqn:E; [by left|]. apply lookup_insert_Some in Hd as [[<- <-]|[_ Hd]]; [right; exists r; split; [by left|done]|by left].
Qed.
Lemma emplace_keeps l : forall m k d, m !! k = Some d -> fold_left emplace_permission l m !! k = Some d.
Proof.
  induction l as [|r l IH]; intros m k d Hd; [done|]. cbn. apply IH. unfold emplace_permission. destruct (m !! permission_key r) eqn:E; [done|]. rewrite lookup_insert_ne; [done|]. congruence.
Qed.
Lemma emplace_all l : forall m r, NoDup (permission_key <$> l) -> r ∈ l -> m !! permission_key r = None ->
  fold_left emplace_permission l m !! permission_key r = Some {| pd_permissions := upm_permissions r; pd_grantOptions := upm_grantOptions r; pd_id := 0 |}.
Proof.
  induction l as [|r0 l IH]; intros m r Hnd Hr Hm; [set_solver|]. cbn in *. apply NoDup_cons in Hnd as [Hn Hnd]. apply elem_of_cons in Hr as [->|Hr].
  - apply emplace_keeps. unfold emplace_permission. rewrite Hm. by rewrite lookup_insert, decide_True.
  - apply IH; [done|done|]. unfold emplace_permission. destruct (m !! permission_key r0); [done|]. rewrite lookup_insert_ne; [done|]. intros E. apply Hn. rewrite E. by apply list_elem_of_fmap_2.
Qed.

Section Restart.
Context {T : Type} {RT : RowTable T} {RL : RowTableLaws T} {X : Externals} {CAL : Calendar} {Y : UserCrypto} {YL : UserCryptoLaws} {TV : Traversal}.
Notation state := (instance_state T).

(** ** Reading the items of users *)

(** The scan of a table whose rows are all read. *)
Lemma computes_read {Rec A} {IX : Indexed Rec} t (read : Z -> list Variant -> outcome UserError Rec) (f : Rec -> A -> A) empty (R : row_view) (Q : A -> row_view -> Prop) :
  (forall k row, rm_rows (R t) !! k = Some row -> 0 < k /\ exists r, read k row = Ok r /\ m_id_of r = k) ->
  (forall rs, (forall r, r ∈ rs <-> exists k row, rm_rows (R t) !! k = Some row /\ read k row = Ok r) -> NoDup (m_id_of <$> rs) -> Q (foldl (fun a r => f r a) empty rs) R) ->
  computes (T := T) (scan_table t (fun trid row m => r <- read trid row ;; Ok (f r m)) empty) R Q.
Proof.
  intros Hread HQ. apply (computes_scan _ _ (fun k row a => match read k row with Ok r => f r a | _ => a end)).
  - intros k row Hk. by apply (Hread k row).
  - intros k row a Hk. destruct (Hread k row Hk) as (_ & r & Hr & _). by rewrite Hr.
  - intros l Hl. destruct (read_records read l) as (rs & Hrs & Hid & Hf).
    + intros k row Hin. rewrite Hl in Hin. apply elem_of_map_to_list in Hin. by destruct (Hread k row Hin) as [_ ?].
    + rewrite Hf. apply HQ.
      * intros r. rewrite Hrs. split; intros (k & row & Hin & Hr); exists k, row; (split; [|done]); [rewrite Hl in Hin; by apply elem_of_map_to_list|rewrite Hl; by apply elem_of_map_to_list].
      * rewrite Hid, Hl. apply NoDup_fst_map_to_list.
Qed.

Section Items.
Context {I Rec : Type} {IX : Indexed Rec} (id_of : I -> Z) (row_of : Z -> I -> list Variant) (items : User -> list I) (rec_of : Z -> I -> Rec) (owner : Rec -> Z)
  (read : Z -> list Variant -> outcome UserError Rec) (ok : I -> Prop) (m : gmap Z (list Variant)).
Hypothesis rec_id : forall id x, m_id_of (rec_of id x) = id_of x.
Hypothesis read_row : forall id x row, m !! id_of x = Some row -> 0 <= id < 2 ^ 32 -> Forall2 stored (row_of id x) row ->
  exists r, read (id_of x) row = Ok r /\ m_id_of r = id_of x /\ owner r = id /\ (ok x -> r = rec_of id x).

(** The registries that are read have the records of the items. *)
Lemma registries_match (a : accounts) last rs : items_synced id_of row_of items a last m -> last < 2 ^ 32 -> (forall id u, a !! id = Some u -> 0 <= id < 2 ^ 32) ->
  NoDup (m_id_of <$> rs) -> (forall r, r ∈ rs <-> exists k row, m !! k = Some row /\ read k row = Ok r) ->
  forall id u, a !! id = Some u -> Forall ok (items u) -> (forall x y, x ∈ items u -> y ∈ items u -> id_of x <> id_of y -> unique (rec_of id x) (rec_of id y) = false) ->
  reg_matches id_of (rec_of id) (items u) (default ∅ (foldl (fun m r => insert_for (owner r) r m) ∅ rs !! id)).
Proof.
  intros Hs Hlast Hids Hnd Hrs id u Hu Hok Hun. rewrite Forall_forall in Hok. rewrite fold_insert_for.
  assert (Hel : forall r, r ∈ filter (fun r => owner r = id) rs <-> exists x, x ∈ items u /\ r = rec_of id x).
  { intros r. rewrite list_elem_of_filter, Hrs. split.
    - intros (Ho & k & row & Hk & Hr). destruct (proj1 Hs _ _ Hk) as (id0 & x & <- & Hst & Hin). assert (Hid0 : 0 <= id0 < 2 ^ 32) by (destruct (a !! id0) eqn:E; [by eapply Hids|lia]).
      destruct (read_row id0 x row Hk Hid0 Hst) as (r' & Hr' & _ & Ho' & Hrec). rewrite Hr' in Hr. injection Hr as ->. rewrite Ho' in Ho. subst id0. rewrite Hu in Hin. exists x. split; [done|]. by apply Hrec, Hok.
    - intros (x & Hx & ->). destruct (proj2 Hs _ _ _ Hu Hx) as (row & Hr & Hst). destruct (read_row id x row Hr (Hids _ _ Hu) Hst) as (r' & Hr' & _ & Ho' & Hrec). rewrite <- (Hrec (Hok _ Hx)).
      split; [done|]. by exists (id_of x), row. }
  intros i r. rewrite fold_registry_lookup.
  - rewrite Hel. split; [intros ((x & Hx & ->) & Hi); exists x; by rewrite rec_id in Hi|]. intros (x & Hx & <- & ->). split; [by exists x|apply rec_id].
  - eapply sublist_NoDup; [exact Hnd|]. apply fmap_sublist. apply sublist_filter.
  - intros r1 r2 (x & Hx & ->)%Hel (y & Hy & ->)%Hel. rewrite !rec_id. by apply Hun.
Qed.

(** Every row is read. *)
Lemma items_read (a : accounts) last k row : items_synced id_of row_of items a last m -> last < 2 ^ 32 -> (forall id u, a !! id = Some u -> 0 <= id < 2 ^ 32) -> m !! k = Some row ->
  exists r, read k row = Ok r /\ m_id_of r = k.
Proof.
  intros Hs Hlast Hids Hk. destruct (proj1 Hs _ _ Hk) as (id0 & x & <- & Hst & Hin). assert (Hid0 : 0 <= id0 < 2 ^ 32) by (destruct (a !! id0) eqn:E; [by eapply Hids|lia]).
  destruct (read_row id0 x row Hk Hid0 Hst) as (r & Hr & Hi & _). by exists r.
Qed.
End Items.

Section Tables.
Context (b : bool) (n : nat) (s : state) (R : row_view).
Hypothesis H : synced b n s R.

Lemma synced_ids id u : accounts_of s !! id = Some u -> 0 <= id < 2 ^ 32.
Proof. intros Hu. pose proof (uo_id _ (sy_ok _ _ _ _ H _ _ Hu)) as Hx. rewrite (inst_ids_ok _ (sy_inst _ _ _ _ H) _ _ Hu) in Hx. lia. Qed.
Lemma synced_last : rm_last (R SysUsers) < 2 ^ 32.
Proof. pose proof (sy_lasts _ _ _ _ H SysUsers). lia. Qed.
Lemma synced_positive t k row : rm_rows (R t) !! k = Some row -> 0 < k.
Proof. intros Hk. by apply (rt_positive _ _ (proj2 (sy_db _ _ _ _ H) t) _ _ Hk). Qed.

Lemma read_key_row id k row : 0 <= id < 2 ^ 32 -> Forall2 stored (key_row id k) row ->
  exists r, read_access_key (ak_id k) row = Ok r /\ m_id_of r = ak_id k /\ uak_userId r = id /\ (True -> r = UserAccessKeyRecord_of id k).
Proof. intros Hid Hst. exists (UserAccessKeyRecord_of id k). by rewrite (read_access_key_row id). Qed.

Lemma read_any_token_row id t row : 0 <= id < 2 ^ 32 -> Forall2 stored (token_row id t) row ->
  exists r, read_token (tk_id t) row = Ok r /\ m_id_of r = tk_id t /\ utk_userId r = id /\ (token_ok t -> r = UserTokenRecord_of id t).
Proof.
  intros Hid Hst. exists (UserTokenRecord_of id (stored_token t)). rewrite (read_token_row id) by done. split; [done|]. split; [done|]. split; [done|].
  intros [_ He]. f_equal. destruct t as [i nm v [e|] d]; [|done]. unfold stored_token. cbn in *. unfold time_ok in He. by rewrite He.
Qed.

(** What the registries of items must have. *)
Definition keys_read (M : gmap Z (Registry UserAccessKeyRecord)) : Prop :=
  forall id u, accounts_of s !! id = Some u -> reg_matches ak_id (UserAccessKeyRecord_of id) (us_accessKeys u) (default ∅ (M !! id)).
Definition tokens_read (M : gmap Z (Registry UserTokenRecord)) : Prop :=
  forall id u, accounts_of s !! id = Some u -> reg_matches tk_id (UserTokenRecord_of id) (us_tokens u) (default ∅ (M !! id)).
Definition perms_read (M : gmap Z (Registry UserPermissionRecord)) : Prop :=
  (forall id i r, default ∅ (M !! id) !! i = Some r -> permission_fits (permission_key r, {| pd_permissions := upm_permissions r; pd_grantOptions := upm_grantOptions r; pd_id := 0 |})) /\
  (b = true -> forall id u, accounts_of s !! id = Some u -> reg_matches perm_id (fun kd => UserPermissionRecord_of id (fst kd) (snd kd)) (perm_items u) (default ∅ (M !! id))).

Lemma computes_keys : computes readAllUserAccessKeys R (fun M R' => R' = R /\ keys_read M).
Proof.
  apply computes_read.
  - intros k row Hk. split; [by eapply synced_positive|]. eapply (items_read ak_id key_row us_accessKeys UserAccessKeyRecord_of uak_userId read_access_key (fun _ => True) _ (fun id x row _ => read_key_row id x row));
      [apply H|apply synced_last|apply synced_ids|done].
  - intros rs Hrs Hnd. split; [done|]. intros id u Hu. pose proof (sy_ok _ _ _ _ H _ _ Hu) as Hok.
    eapply (registries_match ak_id key_row us_accessKeys UserAccessKeyRecord_of uak_userId read_access_key (fun _ => True)); [done|intros id0 x row _; apply read_key_row|apply H|apply synced_last|apply synced_ids|done|done|done| |].
    + by apply Forall_forall.
    + intros x y Hx Hy Hne. cbn. apply bool_decide_eq_false. intros E. apply Hne. f_equal. by eapply (nodup_inj ak_name); [apply Hok| | |].
Qed.

Lemma computes_tokens : computes readAllUserTokens R (fun M R' => R' = R /\ tokens_read M).
Proof.
  apply computes_read.
  - intros k row Hk. split; [by eapply synced_positive|]. eapply (items_read tk_id token_row us_tokens UserTokenRecord_of utk_userId read_token token_ok _ (fun id x row _ => read_any_token_row id x row));
      [apply H|apply synced_last|apply synced_ids|done].
  - intros rs Hrs Hnd. split; [done|]. intros id u Hu. pose proof (sy_ok _ _ _ _ H _ _ Hu) as Hok.
    eapply (registries_match tk_id token_row us_tokens UserTokenRecord_of utk_userId read_token token_ok); [done|intros id0 x row _; apply read_any_token_row|apply H|apply synced_last|apply synced_ids|done|done|done| |].
    + apply Hok.
    + intros x y Hx Hy Hne. cbn. apply orb_false_iff. split; apply bool_decide_eq_false; intros E; apply Hne; f_equal; [by eapply (nodup_inj tk_name); [apply Hok| | |]|by eapply (nodup_inj tk_value); [apply Hok| | |]].
Qed.

Lemma fold_insert_for_elem {Rec} {IX : Indexed Rec} (owner : Rec -> Z) rs id i (r : Rec) : default ∅ (foldl (fun m r => insert_for (owner r) r m) ∅ rs !! id) !! i = Some r -> r ∈ rs.
Proof.
  rewrite fold_insert_for. intros Hr. assert (Hsub : forall l : list Rec, foldl (fun m r => registry_insert r m) ∅ l !! i = Some r -> r ∈ l).
  { clear Hr. intros l. induction l as [|r0 l IH] using rev_ind; [cbn; by rewrite lookup_empty|]. rewrite foldl_app. cbn [foldl]. unfold registry_insert at 1.
    destruct (_ !! m_id_of r0); [intros ?; apply elem_of_app; left; by apply IH|]. destruct (bool_decide _); [|intros ?; apply elem_of_app; left; by apply IH].
    intros [[_ <-]|[_ ?]]%lookup_insert_Some; apply elem_of_app; [right; set_solver|left; by apply IH]. }
  apply Hsub in Hr. by apply list_elem_of_filter in Hr as [_ ?].
Qed.

Lemma computes_perms : computes readAllUserPermissions R (fun M R' => R' = R /\ perms_read M).
Proof.
  destruct (sy_perms _ _ _ _ H) as [Hp1 Hp2 Hp3]. apply computes_read.
  - intros k row Hk. split; [by eapply synced_positive|]. destruct (Hp3 _ _ Hk) as (id & kd & Hid & Hfit & <- & Hst). eexists. split; [by apply read_permission_row|done].
  - intros rs Hrs Hnd. split; [done|]. split.
    + intros id i r Hr%fold_insert_for_elem. apply Hrs in Hr as (k & row & Hk & Hr). destruct (Hp3 _ _ Hk) as (id0 & kd & Hid & Hfit & <- & Hst).
      rewrite (read_permission_row id0) in Hr by done. injection Hr as <-. by destruct kd as [[] []].
    + intros Hb id u Hu. eapply (registries_match perm_id permission_row perm_items (fun id kd => UserPermissionRecord_of id (fst kd) (snd kd)) upm_userId read_permission permission_fits);
        [done| |by apply Hp1|apply synced_last|apply synced_ids|done|done|done|by apply (Hp2 _ _ Hu)|done].
      intros id0 x row Hx Hid0 Hst. destruct (Hp3 _ _ Hx) as (id' & kd & Hid' & Hfit & Ek & Hst'). pose proof (read_permission_row _ _ _ Hid' Hfit Hst') as Hread. rewrite Ek in Hread.
      eexists. split; [exact Hread|]. split; [done|]. split; [symmetry; by eapply permission_owner|]. intros Hfx. pose proof (read_permission_row _ _ _ Hid0 Hfx Hst) as Hread'.
      unfold perm_id in *. congruence.
Qed.
End Tables.

(** ** Making user objects from the records *)

Lemma load_matches r u : user_ok u -> matches r u -> exists u', User_of_record r = Ok u' /\ same_user false u u' /\ us_grantedPermissions u' = fold_left emplace_permission (byId (usr_permissions r)) ∅.
Proof.
  intros Hok Hm. unfold User_of_record, validate_name. rewrite (ma_name _ _ Hm), (uo_name _ Hok). cbn [bind].
  destruct (collect_perm (UserAccessKey_of_record (usr_id r)) (UserAccessKeyRecord_of (us_id u)) (byId (usr_accessKeys r)) (us_accessKeys u)) as (ks & Hks & Hpk).
  { rewrite byId_records. apply (reg_records ak_id ak_name); [apply Hok|apply Hm]. }
  { intros k Hk. unfold UserAccessKey_of_record, new_UserAccessKey, validate_name. rewrite (ma_id _ _ Hm). cbn. rewrite Z.eqb_refl. cbn. rewrite (proj1 (Forall_forall _ _) (uo_key_names _ Hok) _ Hk). cbn. by destruct k. }
  destruct (collect_perm (UserToken_of_record (usr_id r)) (UserTokenRecord_of (us_id u)) (byId (usr_tokens r)) (us_tokens u)) as (ts & Hts & Hpt).
  { rewrite byId_records. apply (reg_records tk_id tk_name); [apply Hok|apply Hm]. }
  { intros t Ht. unfold UserToken_of_record, validate_name. rewrite (ma_id _ _ Hm). cbn. rewrite Z.eqb_refl. cbn. rewrite (proj1 (proj1 (Forall_forall _ _) (uo_tokens_ok _ Hok) _ Ht)). cbn. by destruct t. }
  rewrite Hks, Hts. cbn. eexists. split; [done|]. split; [|done]. destruct Hm. by constructor.
Qed.

Lemma reg_matches_perm {I Rec} (id_of : I -> Z) (rec_of : I -> Rec) l l' (reg : Registry Rec) : l' ≡ₚ l -> reg_matches id_of rec_of l reg -> reg_matches id_of rec_of l' reg.
Proof. intros Hp Hm i r. rewrite (Hm i r). split; intros (x & Hx & ?); exists x; (split; [|done]); [by rewrite Hp|by rewrite <- Hp]. Qed.

Lemma same_user_matches b r u u' : same_user b u u' -> matches r u -> matches r u'.
Proof.
  intros [] []. constructor; rewrite ?su_id0, ?su_name0, ?su_realName0, ?su_description0, ?su_active0; try done; by eapply reg_matches_perm.
Qed.
Lemma same_user_ok b u u' : same_user b u u' -> user_ok u -> user_ok u'.
Proof.
  intros [] []. unfold named_ok in *. constructor; rewrite ?su_id0, ?su_name0; try done; unfold named_ok; rewrite ?su_keys0, ?su_tokens0; done.
Qed.
Lemma same_user_trans b u u' u'' : same_user b u u' -> same_user b u' u'' -> same_user b u u''.
Proof. intros [] []. constructor; try congruence; [by etrans|by etrans|]. intros Hb. rewrite su_grants1 by done. by apply su_grants0. Qed.

Section Registry.
Context (b : bool) (n : nat) (s : state) (R : row_view) (K : gmap Z (Registry UserAccessKeyRecord)) (Tk : gmap Z (Registry UserTokenRecord)) (P : gmap Z (Registry UserPermissionRecord)).
Hypothesis H : synced b n s R.
Hypothesis HK : keys_read s K.
Hypothesis HT : tokens_read s Tk.
Hypothesis HP : perms_read b s P.

Lemma NoDup_perm_ids id u : b = true -> accounts_of s !! id = Some u -> NoDup (perm_id <$> perm_items u).
Proof.
  intros Hb Hu. apply NoDup_fmap_2_strong; [|apply NoDup_map_to_list]. intros [k d] [k' d'] Hk Hk' E. apply perm_items_elem in Hk, Hk'. subst b.
  assert (k = k') as <- by (by eapply (perm_ids_distinct _ _ _ id u k d k' d'); [apply H| | | |]). congruence.
Qed.

Definition read_record (u : User) : UserRecord :=
  {| usr_id := us_id u; usr_name := us_name u; usr_realName := us_realName u; usr_description := us_description u; usr_active := us_active u;
     usr_accessKeys := default ∅ (K !! us_id u); usr_tokens := default ∅ (Tk !! us_id u); usr_permissions := default ∅ (P !! us_id u) |}.

Lemma account_id id u : accounts_of s !! id = Some u -> us_id u = id.
Proof. intros Hu. apply (inst_ids_ok _ (sy_inst _ _ _ _ H) _ _ Hu). Qed.
Lemma account_names id id' u u' : accounts_of s !! id = Some u -> accounts_of s !! id' = Some u' -> id <> id' -> us_name u <> us_name u'.
Proof.
  intros Hu Hu' Hne E. pose proof (sy_records _ _ _ _ H id) as Hr. pose proof (sy_records _ _ _ _ H id') as Hr'. rewrite Hu in Hr. rewrite Hu' in Hr'.
  destruct (m_userRegistry s !! id) as [r|] eqn:Er; [|done]. destruct (m_userRegistry s !! id') as [r'|] eqn:Er'; [|done].
  pose proof (proj2 (proj2 (sy_inst _ _ _ _ H)) _ _ _ _ Er Er' Hne) as Hx. cbn in Hx. apply bool_decide_eq_false in Hx. apply Hx. rewrite (ma_name _ _ Hr), (ma_name _ _ Hr'). done.
Qed.

Lemma read_record_matches id u : accounts_of s !! id = Some u -> matches (read_record u) u.
Proof.
  intros Hu. pose proof (account_id _ _ Hu) as Hid. constructor; try done; cbn; rewrite Hid; [by apply HK|by apply HT].
Qed.

(** The object of a record that was read. *)
Lemma read_record_loads id u : accounts_of s !! id = Some u ->
  exists u', User_of_record (read_record u) = Ok u' /\ same_user b u u' /\ matches (read_record u) u' /\ user_ok u' /\ Forall permission_fits (perm_items u').
Proof.
  intros Hu. pose proof (account_id _ _ Hu) as Hid. pose proof (sy_ok _ _ _ _ H _ _ Hu) as Hok. pose proof (read_record_matches _ _ Hu) as Hm.
  destruct (load_matches _ _ Hok Hm) as (u' & Hl & Hs & Hp). exists u'. split; [done|]. cbn [usr_permissions read_record] in Hp. rewrite Hid in Hp. destruct HP as [HP1 HP2]. split; [|split; [|split]].
  - destruct Hs. constructor; try done. intros Hb. specialize (HP2 Hb id u Hu). unfold grants_of. rewrite Hp.
    assert (Hnd : NoDup (fst <$> perm_items u)) by apply NoDup_fst_map_to_list.
    assert (Hrec : byId (default ∅ (P !! id)) ≡ₚ (fun kd => UserPermissionRecord_of id (fst kd) (snd kd)) <$> perm_items u).
    { rewrite byId_records. apply (reg_records perm_id (fun kd => [perm_id kd])); [|done]. pose proof (NoDup_perm_ids _ _ Hb Hu) as Hids. split; [done|].
      apply NoDup_fmap_2_strong; [|by apply NoDup_fmap_1 in Hids]. intros x y Hx Hy [= E]. by eapply (nodup_inj perm_id). }
    assert (Hkeys : NoDup (permission_key <$> byId (default ∅ (P !! id)))).
    { rewrite Hrec, <- list_fmap_compose. erewrite list_fmap_ext; [exact Hnd|]. by intros ? [[] []]. }
    apply map_eq. intros k. rewrite !lookup_fmap. destruct (us_grantedPermissions u !! k) as [d|] eqn:Ek.
    + assert (Hin : UserPermissionRecord_of id k d ∈ byId (default ∅ (P !! id))). { rewrite Hrec. apply list_elem_of_fmap. exists (k, d). split; [done|]. by apply perm_items_elem. }
      pose proof (emplace_all _ ∅ _ Hkeys Hin (lookup_empty _)) as He. replace (permission_key _) with k in He by by destruct k. rewrite He. done.
    + destruct (fold_left _ _ ∅ !! k) as [d|] eqn:Ed; [|done]. apply emplace_from in Ed as [Ed|(r & Hr & Hk & _)]; [by rewrite lookup_empty in Ed|]. rewrite Hrec in Hr.
      apply list_elem_of_fmap in Hr as ([k' d'] & -> & Hin). apply perm_items_elem in Hin. cbn in Hk. assert (k' = k) as -> by (rewrite <- Hk; by destruct k'). congruence.
  - by eapply same_user_matches.
  - by eapply same_user_ok.
  - apply Forall_forall. intros [k d] Hin. apply perm_items_elem in Hin. rewrite Hp in Hin. apply emplace_from in Hin as [Hin|(r & Hr & <- & ->)]; [by rewrite lookup_empty in Hin|].
    rewrite byId_records in Hr. apply list_elem_of_fmap in Hr as ([i r'] & -> & Hin). apply elem_of_map_to_list in Hin. by apply (HP1 id i).
Qed.

Lemma computes_users : computes (scan_table SysUsers (fun trid row m => r <- read_user K Tk P trid row ;; Ok (registry_insert r m)) ∅) R
  (fun Reg R' => R' = R /\ forall id, Reg !! id = read_record <$> accounts_of s !! id).
Proof.
  assert (Hread : forall k row, rm_rows (R SysUsers) !! k = Some row -> exists u, accounts_of s !! k = Some u /\ read_user K Tk P k row = Ok (read_record u)).
  { intros k row Hk. pose proof (sy_users _ _ _ _ H k) as Hx. rewrite Hk in Hx. destruct (accounts_of s !! k) as [u|] eqn:Hu; [|done]. exists u. split; [done|]. pose proof (account_id _ _ Hu) as <-.
    apply read_user_row; [by eapply synced_ids|done]. }
  apply computes_read.
  - intros k row Hk. split; [by eapply synced_positive|]. destruct (Hread k row Hk) as (u & Hu & Hr). exists (read_record u). split; [done|]. cbn. by eapply account_id.
  - intros rs Hrs Hnd. split; [done|].
    assert (Hel : forall r, r ∈ rs <-> exists id u, accounts_of s !! id = Some u /\ r = read_record u).
    { intros r. rewrite Hrs. split.
      - intros (k & row & Hk & Hr). destruct (Hread k row Hk) as (u & Hu & Hr'). exists k, u. split; [done|]. congruence.
      - intros (id & u & Hu & ->). pose proof (sy_users _ _ _ _ H id) as Hx. rewrite Hu in Hx. destruct (rm_rows (R SysUsers) !! id) as [row|] eqn:Er; [|done]. exists id, row. split; [done|].
        destruct (Hread id row Er) as (u' & Hu' & Hr). congruence. }
    assert (Hlk := fold_registry_lookup rs Hnd). specialize (Hlk ltac:(intros r r' (i & u & Hu & ->)%Hel (i' & u' & Hu' & ->)%Hel Hne; cbn; apply bool_decide_eq_false; eapply account_names; [done|done|];
      pose proof (account_id _ _ Hu); pose proof (account_id _ _ Hu'); cbn in Hne; congruence)).
    intros id. apply option_eq. intros r. rewrite Hlk, Hel, fmap_Some. split.
    + intros ((i & u & Hu & ->) & <-). cbn. exists u. split; [|done]. by rewrite (account_id _ _ Hu).
    + intros (u & Hu & ->). split; [by exists id, u|]. cbn. by apply account_id.
Qed.

(** The state after a restart: the records are those that were read, and the super
    user is loaded. *)
Lemma restarted_synced Reg (s' : state) su : (forall id, Reg !! id = read_record <$> accounts_of s !! id) -> accounts_of s !! kSuperUserId = Some su ->
  m_userRegistry s' = Reg -> db_ok (m_systemDatabase s') R -> (exists u, User_of_record (read_record su) = Ok u /\ m_users s' = {[kSuperUserId := u]}) ->
  synced false n s' R /\ same_accounts b (accounts_of s) (accounts_of s').
Proof.
  intros HReg Hsu Er Hdb (lu & Hlu & Eu).
  assert (Ha : forall id, accounts_of s' !! id = (read_record <$> accounts_of s !! id) ≫= load).
  { intros id. rewrite accounts_lookup, Eu, Er, HReg. destruct (decide (kSuperUserId = id)) as [<-|Hne]; [|by rewrite lookup_singleton_ne].
    rewrite lookup_singleton, decide_True by done. rewrite Hsu. cbn. unfold load. by rewrite Hlu. }
  assert (Hacc : forall id, match accounts_of s !! id, accounts_of s' !! id with
    | Some u, Some u' => same_user b u u' /\ matches (read_record u) u' /\ user_ok u' /\ Forall permission_fits (perm_items u') | None, None => True | _, _ => False end).
  { intros id. rewrite Ha. destruct (accounts_of s !! id) as [u|] eqn:Hu; [|done]. cbn. destruct (read_record_loads _ _ Hu) as (u' & Hl & Hrest). unfold load. by rewrite Hl. }
  assert (Hboth : forall id u', accounts_of s' !! id = Some u' -> exists u, accounts_of s !! id = Some u /\ same_user b u u' /\ matches (read_record u) u' /\ user_ok u' /\ Forall permission_fits (perm_items u')).
  { intros id u' Hu'. specialize (Hacc id). rewrite Hu' in Hacc. destruct (accounts_of s !! id) as [u|]; [|done]. by exists u. }
  assert (Hitems : forall {I} (id_of : I -> Z) row_of items last m, (forall u u', same_user b u u' -> forall x, x ∈ items u <-> x ∈ items u') ->
    items_synced id_of row_of items (accounts_of s) last m -> items_synced id_of row_of items (accounts_of s') last m).
  { intros I id_of row_of items last m Hx [H1 H2]. split.
    - intros i row Hi. destruct (H1 _ _ Hi) as (id & x & Hid & Hst & Hin). exists id, x. split; [done|]. split; [done|]. specialize (Hacc id).
      destruct (accounts_of s !! id) as [u|], (accounts_of s' !! id) as [u'|]; try done. destruct Hacc as [Hs _]. by apply (Hx _ _ Hs).
    - intros id u' x Hu' Hin. destruct (Hboth _ _ Hu') as (u & Hu & Hs & _). apply (H2 id u); [done|]. by apply (Hx _ _ Hs). }
  split; [constructor|].
  - split; [|split].
    + rewrite Eu, Er. apply map_Forall_singleton. rewrite HReg, Hsu. split; [|by eexists]. destruct (User_of_record_inv _ _ Hlu) as (-> & _). cbn. by apply (account_id _ _ Hsu).
    + rewrite Er. intros id r. rewrite HReg. intros (u & Hu & ->)%fmap_Some. cbn. by apply account_id.
    + rewrite Er. intros i j r r'. rewrite !HReg. intros (u & Hu & ->)%fmap_Some (u' & Hu' & ->)%fmap_Some Hne. cbn. apply bool_decide_eq_false. by eapply account_names.
  - done.
  - apply H.
  - apply H.
  - intros id. rewrite Er, HReg. specialize (Hacc id). destruct (accounts_of s !! id) as [u|], (accounts_of s' !! id) as [u'|]; try done. by destruct Hacc as (_ & ? & _).
  - intros id u' Hu'. by destruct (Hboth _ _ Hu') as (u & _ & _ & _ & ? & _).
  - intros id. specialize (Hacc id). pose proof (sy_users _ _ _ _ H id) as Hx. destruct (accounts_of s !! id) as [u|], (accounts_of s' !! id) as [u'|]; try done.
    destruct (rm_rows (R SysUsers) !! id); [|done]. destruct Hacc as [[] _]. unfold user_row in *. by rewrite su_name0, su_realName0, su_description0, su_active0.
  - apply Hitems; [|apply H]. intros u u' Hs x. by rewrite (su_keys _ _ _ Hs).
  - apply Hitems; [|apply H]. intros u u' Hs x. by rewrite (su_tokens _ _ _ Hs).
  - constructor; [done| |apply H]. intros id u' Hu'. by destruct (Hboth _ _ Hu') as (u & _ & _ & _ & _ & ?).
  - intros id. specialize (Hacc id). destruct (accounts_of s !! id) as [u|], (accounts_of s' !! id) as [u'|]; try done. by destruct Hacc as [? _].
Qed.
End Registry.

Lemma restart_synced b n (s : state) R su : synced b n s R -> accounts_of s !! kSuperUserId = Some su ->
  exists u s', restart s = (Ok u, s') /\ synced false n s' R /\ same_accounts b (accounts_of s) (accounts_of s').
Proof.
  intros H Hsu. unfold restart, loadUsers. unfold mbind at 1, sys, embed. cbn [m_systemDatabase new_instance].
  assert (Hall : computes readAllUsers R (fun Reg R' => R' = R /\ exists K Tk P, perms_read b s P /\ keys_read s K /\ tokens_read s Tk /\ forall id, Reg !! id = read_record K Tk P <$> accounts_of s !! id)).
  { apply computes_bind. intros db Hdb. destruct (computes_keys b n s R H db Hdb) as (K & db1 & R1 & E1 & Hdb1 & -> & HK). exists K, db1, R. split; [done|]. split; [done|].
    apply computes_bind. clear db Hdb E1 db1 Hdb1. intros db Hdb. destruct (computes_tokens b n s R H db Hdb) as (Tk & db1 & R1 & E1 & Hdb1 & -> & HT). exists Tk, db1, R. split; [done|]. split; [done|].
    apply computes_bind. clear db Hdb E1 db1 Hdb1. intros db Hdb. destruct (computes_perms b n s R H db Hdb) as (P & db1 & R1 & E1 & Hdb1 & -> & HP). exists P, db1, R. split; [done|]. split; [done|].
    clear db Hdb E1 db1 Hdb1. intros db Hdb. destruct (computes_users b n s R K Tk P H db Hdb) as (Reg & db1 & R1 & E1 & Hdb1 & -> & HReg). exists Reg, db1, R. split; [done|]. split; [done|]. split; [done|].
    by exists K, Tk, P. }
  destruct (Hall _ (sy_db _ _ _ _ H)) as (Reg & db & R' & -> & Hdb & -> & K & Tk & P & HP & HK & HT & HReg).
  destruct (read_record_loads b n s R K Tk P H HK HT HP _ _ Hsu) as (u & Hu & _). pose proof (User_of_record_inv _ _ Hu) as (Hid & _). cbn in Hid. rewrite (account_id b n s R H _ _ Hsu) in Hid.
  unfold findUserChecked_id, findUserUnlocked_id, findUserUnlocked_record, mbind, gets, modify, mlift, mret. cbn. rewrite HReg, Hsu. cbn. rewrite lookup_empty, Hu. cbn. eexists _, _. split; [done|].
  eapply (restarted_synced b n s R K Tk P H HK HT HP Reg _ su); [done|done|done|done|]. exists u. split; [done|]. cbn. rewrite lookup_empty, Hid. done.
Qed.
End Restart.
