(* ===== verification/InstanceDurable.v ===== *)
(** * Requests and restarts

    Runs of an instance from its creation, with restarts between the requests:
    the accounts survive each restart.  The exceptions, which the code does not
    intend, are the permissions that are changed a second time. *)

From stdpp Require Import base list gmap relations.
Set Warnings "-clear-no-such-hyp,-notation-incompatible-prefix,-notation-for-abbreviation".
From Stdlib Require Import ZArith Lia.
From S2P Require Import Prelude StateM Bytes CNum VariantType Variant RawDateTime ExprEval ExprTyping RecordReader CatalogRecords MasterColumn Table Users SystemTables Instance InstanceSpec InstanceRefine MemTable InstanceCorrect SystemTablesSpec InstancePersist InstanceKept InstanceKeptUsers InstanceRestart.

Local Open Scope Z_scope.

Section Durable.
Context {T : Type} {RT : RowTable T} {RL : RowTableLaws T} {X : Externals} {CAL : Calendar} {Y : UserCrypto} {YL : UserCryptoLaws} {TV : Traversal}.
Context (maxUsers : Z) (databases : list Z -> option (Z * (list Z -> option Z))).
Notation state := (instance_state T).
Notation IM := (IM (T := T)).
Notation ends c s Q := (after c s Q (fun _ => True)).

(** ** A new instance *)

Definition create_instance (tp : TransactionParameters) (description keyName keyDescription initialAccessKey : list Z) : IM User :=
  user <-- createSuperUser description keyName keyDescription initialAccessKey ;; recordSuperUser tp user ;;' mret user.

Lemma super_user_shape description keyName keyDescription text u : super_user description keyName keyDescription text = Ok u ->
  exists keys, u = {| us_id := kSuperUserId; us_name := kSuperUserName; us_realName := None; us_description := Some description; us_active := true; us_accessKeys := keys; us_tokens := [];
    us_grantedPermissions := ∅ |} /\ (keys = [] \/ exists k, keys = [k] /\ ak_id k = kSuperUserInitialAccessKeyId /\ isValidDatabaseObjectName (ak_name k) = true).
Proof.
  unfold super_user, User_of_record, validate_name. assert (Hnil : forall R, byId (∅ : Registry R) = []). { intros R. apply Permutation_nil_r. by rewrite byId_records, map_to_list_empty. }
  cbn [usr_name usr_id usr_accessKeys usr_tokens usr_permissions usr_realName usr_description usr_active]. rewrite !Hnil. replace (isValidDatabaseObjectName kSuperUserName) with true by done. cbn [bind collect fold_left].
  destruct text as [|x text]; [intros [= <-]; exists []; by split; [|left]|]. destruct (addAccessKey _ _ _ _ _ _) as [[k u']| |] eqn:Ek; [|done|done]. cbn. intros [= <-].
  pose proof (addAccessKey_name _ _ _ _ _ _ _ _ Ek) as Hn. apply addAccessKey_inv in Ek as (_ & -> & ->). eexists. split; [done|]. right. by eexists.
Qed.

Lemma fold_records_match {I Rec} {IX : Indexed Rec} (id_of : I -> Z) (rec_of : I -> Rec) k : m_id_of (rec_of k) = id_of k -> reg_matches id_of rec_of [k] (foldl (fun m x => registry_insert (rec_of x) m) ∅ [k]).
Proof.
  intros Hid. cbn. rewrite registry_insert_new by (try done; intros i r'; by rewrite lookup_empty). intros i r. rewrite lookup_insert_Some, lookup_empty, Hid. split.
  - intros [[<- <-]|[_ ?]]; [|done]. exists k. by split; [left|].
  - intros (x & ->%list_elem_of_singleton & <- & ->). by left.
Qed.

Lemma synced_new n (s : state) R u ws : us_id u = kSuperUserId -> m_users s = {[kSuperUserId := u]} -> m_userRegistry s = {[kSuperUserId := UserRecord_of u]} ->
  user_ok u -> matches (UserRecord_of u) u -> us_tokens u = [] -> us_grantedPermissions u = ∅ -> db_ok (m_systemDatabase s) R -> lasts_ok n R -> 1 <= rm_last (R SysUsers) ->
  rm_rows (R SysUsers) = {[kSuperUserId := ws]} -> Forall2 stored (user_row u) ws -> rm_rows (R SysUserTokens) = ∅ -> rm_rows (R SysUserPermissions) = ∅ ->
  (forall i, is_Some (rm_rows (R SysUserAccessKeys) !! i) -> i <= rm_last (R SysUserAccessKeys)) ->
  items_synced ak_id key_row us_accessKeys {[kSuperUserId := u]} (rm_last (R SysUsers)) (rm_rows (R SysUserAccessKeys)) ->
  synced true n s R /\ accounts_of s = {[kSuperUserId := u]}.
Proof.
  intros Hid Eu Er Hok Hm Ht Hp Hdb Hlasts Hl HR1 Hws HR3 HR4 Hb Hk.
  assert (Ha : accounts_of s = {[kSuperUserId := u]}).
  { apply map_eq. intros j. rewrite accounts_lookup, Eu, Er. destruct (decide (kSuperUserId = j)) as [<-|Hne]; [by rewrite !lookup_singleton, !decide_True|by rewrite !lookup_singleton_ne]. }
  split; [|done]. constructor; rewrite ?Ha, ?HR1, ?HR3, ?HR4; try done.
  - split; [|split].
    + rewrite Eu, Er. apply map_Forall_singleton. split; [done|]. rewrite lookup_singleton, decide_True by done. by eexists.
    + rewrite Er. by apply map_Forall_singleton.
    + rewrite Er. intros i j r r' [<- _]%lookup_singleton_Some [<- _]%lookup_singleton_Some. done.
  - intros t i. destruct t; [rewrite HR1|apply Hb|rewrite HR3|rewrite HR4]; intros [row Hi]; [|by rewrite lookup_empty in Hi|by rewrite lookup_empty in Hi].
    apply lookup_singleton_Some in Hi as [<- _]. done.
  - intros j. rewrite Er. destruct (decide (kSuperUserId = j)) as [<-|Hne]; [by rewrite !lookup_singleton, !decide_True|by rewrite !lookup_singleton_ne].
  - by apply map_Forall_singleton.
  - intros j. destruct (decide (kSuperUserId = j)) as [<-|Hne]; [by rewrite !lookup_singleton, !decide_True|by rewrite !lookup_singleton_ne].
  - split; [intros i row; by rewrite lookup_empty|]. intros j u' x [<- <-]%lookup_singleton_Some. rewrite Ht. set_solver.
  - constructor; [|apply map_Forall_singleton|intros i row; by rewrite lookup_empty].
    + intros _. split; [intros i row; by rewrite lookup_empty|]. intros j u' x [<- <-]%lookup_singleton_Some. unfold perm_items. rewrite Hp, map_to_list_empty. set_solver.
    + unfold perm_items. by rewrite Hp, map_to_list_empty.
Qed.

Lemma created_synced n tp description keyName keyDescription text db (s : state) R u : db_ok db R -> (forall t, rm_rows (R t) = ∅) -> lasts_ok n R ->
  kSuperUserId <= rm_last (R SysUsers) -> kSuperUserInitialAccessKeyId <= rm_last (R SysUserAccessKeys) ->
  create_instance tp description keyName keyDescription text (new_instance db) = (Ok u, s) -> exists R', synced true n s R' /\ accounts_of s = {[kSuperUserId := u]}.
Proof.
  intros Hdb Hempty Hlasts Hl1 Hl2 Hc.
  assert (Ha : ends (create_instance tp description keyName keyDescription text) (new_instance db) (fun u s => exists R', synced true n s R' /\ accounts_of s = {[kSuperUserId := u]})).
  { clear Hc u s. apply after_bind. unfold createSuperUser. apply after_bind. apply after_lift; [|done]. intros u Hu. apply after_bind. apply after_modify. apply after_bind. apply after_modify.
    destruct (super_user_shape _ _ _ _ _ Hu) as (keys & -> & Hkeys). apply after_bind. apply after_bind. eapply (ends_record SysUsers (user_row _) tp _ _ R); [exact Hdb|done|done|by rewrite Hempty|].
    intros ws db1 Hws Hdb1. set (u := Build_User _ _ _ _ _ _ _ _) in *.
    assert (Hreg : registry_insert (UserRecord_of u) ∅ = {[kSuperUserId := UserRecord_of u]}) by (rewrite registry_insert_new by (try done; intros i r'; by rewrite lookup_empty); done).
    assert (Hempty' : forall t, t <> SysUsers -> rm_rows (upd SysUsers (set_rows (<[us_id u := ws]> (rm_rows (R SysUsers))) (R SysUsers)) R t) = ∅) by (intros t Ht; by rewrite upd_other).
    destruct Hkeys as [->|(k & -> & Hkid & Hkname)]; cbn [for_each us_accessKeys u].
    - eexists. eapply (synced_new n _ _ u ws); [done|done|by rewrite <- Hreg| | |done|done|exact Hdb1|by apply rows_lasts|done|by rewrite upd_same; cbn; rewrite Hempty|done|by apply Hempty'|by apply Hempty'| |].
      + constructor; try done; try (split; constructor); constructor.
      + constructor; try done; intros i r; cbn; rewrite lookup_empty; (split; [done|]); intros (x & Hx & _); set_solver.
      + rewrite Hempty' by done. intros i [row Hi]. by rewrite lookup_empty in Hi.
      + rewrite Hempty' by done. split; [intros i row; by rewrite lookup_empty|]. intros j u' x [<- <-]%lookup_singleton_Some Hx. cbn in Hx. set_solver.
    - apply after_bind. eapply (ends_record SysUserAccessKeys (key_row _ k) tp _ _ _); [exact Hdb1|done|by rewrite Hkid|by rewrite Hempty'|]. intros ws' db2 Hws' Hdb2. rewrite Hempty' in Hdb2 by done.
      eexists. eapply (synced_new n _ _ u ws); [done|done|by rewrite <- Hreg| | |done|done|exact Hdb2|by apply rows_lasts, rows_lasts|done|by rewrite upd_other by done; rewrite upd_same; cbn; rewrite Hempty|done|
        by rewrite upd_other by done; apply Hempty'|by rewrite upd_other by done; apply Hempty'| |].
      + constructor; try done; try (split; apply NoDup_singleton); try (split; constructor); try constructor; done.
      + constructor; try done; [|intros i r; cbn; rewrite lookup_empty; (split; [done|]); intros (x & Hx & _); set_solver].
        by apply (fold_records_match ak_id (UserAccessKeyRecord_of kSuperUserId) k).
      + rewrite upd_same. cbn. intros i [row [<- _]%lookup_singleton_Some]. by rewrite Hkid.
      + rewrite upd_same. cbn. split.
        * intros i row [<- <-]%lookup_singleton_Some. exists kSuperUserId, k. split; [done|]. split; [done|]. rewrite lookup_insert, decide_True by done. by left.
        * intros j u' x [<- <-]%lookup_singleton_Some Hx. cbn in Hx. apply list_elem_of_singleton in Hx as ->. exists ws'. by rewrite lookup_insert, decide_True. }
  unfold after in Ha. by rewrite Hc in Ha.
Qed.

(** ** Runs *)

Inductive event : Type := HandleRequest (env : request_env) (userId : Z) (r : Request) | RestartInstance.
Definition is_restart (e : event) : bool := match e with RestartInstance => true | _ => false end.
Definition event_fits (e : event) : Prop := match e with HandleRequest _ _ r => fitting r | RestartInstance => True end.

(** The state after events that all end normally. *)
Fixpoint run_events (l : list event) (s : state) : option state :=
  match l with
  | [] => Some s
  | HandleRequest env userId r :: l' => match handle maxUsers databases env userId r s with (Ok _, s') => run_events l' s' | _ => None end
  | RestartInstance :: l' => match restart s with (Ok _, s') => run_events l' s' | _ => None end
  end.

Definition has_super (a : accounts) : Prop := is_Some (a !! kSuperUserId).

Lemma step_has_super c a a' : has_super a -> account_step c a a' -> has_super a'.
Proof.
  intros Ha. unfold has_super in *. destruct 1; rewrite ?lookup_insert_is_Some'; try (by right). by rewrite lookup_delete_ne.
Qed.
Lemma steps_has_super c a a' : rtc (account_step c) a a' -> has_super a -> has_super a'.
Proof. induction 1; [done|]. intros ?. by eauto using step_has_super. Qed.

Lemma synced_fresh b n s R : synced b (S n) s R -> fresh_user_id s.
Proof.
  intros H. unfold fresh_user_id. pose proof (sy_lasts _ _ _ _ H SysUsers) as [Hl1 Hl2].
  destruct (computes_next SysUsers R (fun i _ => i = rm_last (R SysUsers) + 1) ltac:(lia) eq_refl _ (sy_db _ _ _ _ H)) as (i & db & R' & E & _ & ->).
  unfold generateNextUserId, mbind. rewrite E. cbn. rewrite uw_small by (unfold u_ok; lia). pose proof (sy_records _ _ _ _ H (rm_last (R SysUsers) + 1)) as Hr.
  pose proof (sy_users _ _ _ _ H (rm_last (R SysUsers) + 1)) as Hu. destruct (rm_rows (R SysUsers) !! _) eqn:Er.
  - pose proof (sy_rows _ _ _ _ H SysUsers _ (ex_intro _ _ Er)). lia.
  - destruct (accounts_of s !! _); [done|]. by destruct (m_userRegistry s !! _).
Qed.

Lemma run_synced l : forall b (s s' : state) R, databases_fit databases -> Forall event_fits l -> synced b (length l) s R -> has_super (accounts_of s) -> run_events l s = Some s' ->
  exists R', synced (b && negb (existsb is_restart l)) 0 s' R' /\ has_super (accounts_of s').
Proof.
  induction l as [|e l IH]; intros b s s' R Hd Hf H Hsu Hrun; [injection Hrun as <-; exists R; by rewrite andb_true_r|]. inversion_clear Hf as [|?? He Hl].
  destruct e as [env c r|]; cbn in Hrun.
  - destruct (handle maxUsers databases env c r s) as [[x|?|?] s1] eqn:E; [|done|done]. pose proof (handle_kept maxUsers databases b _ env c r s R Hd He H) as Hk. unfold kept, after in Hk. rewrite E in Hk.
    destruct Hk as [R1 H1]. apply (IH b s1 s' R1); [done|done|done| |done]. pose proof (handle_good maxUsers databases env c r s (sy_inst _ _ _ _ H) (synced_fresh _ _ _ _ H)) as [_ Hsteps]. rewrite E in Hsteps.
    by eapply steps_has_super.
  - destruct Hsu as [su Hsu]. destruct (restart_synced b _ s R su H Hsu) as (u & s1 & E & H1 & Hsame). rewrite E in Hrun. cbn. rewrite andb_false_r. apply synced_weaken in H1.
    eapply (IH false s1 s' R); [done|done|done| |done]. specialize (Hsame kSuperUserId). rewrite Hsu in Hsame. unfold has_super. by destruct (accounts_of s1 !! kSuperUserId).
Qed.


(** ** What is not recorded *)

(** The rows of the system tables are those of [R]. *)
Definition has_rows (s : state) (R : row_view) : Prop := exists R', db_ok (m_systemDatabase s) R' /\ forall t, rm_rows (R' t) = rm_rows (R t).

Lemma find_loaded id u (s : state) : inst_ok s -> m_users s !! id = Some u -> findUserChecked_id id s = (Ok u, s).
Proof.
  intros [Hus [Hri _]] Hu. destruct (Hus _ _ Hu) as [_ [r Hr]]. unfold findUserChecked_id, findUserUnlocked_id, findUserUnlocked_record, mbind, gets. rewrite Hr. rewrite (Hri _ _ Hr : usr_id r = id), Hu. done.
Qed.

Lemma valid_not_all objectType p : isValidPermissions objectType p = true -> (p =? kAllPermissionsForRevoke) = false.
Proof.
  intros Hv. apply Z.eqb_neq. intros ->. revert Hv. unfold isValidPermissions, getAllObjectTypePermissions. destruct (List.find _ _) as [[t m]|] eqn:E; [|done]. apply List.find_some in E as [Hin _]. cbn.
  assert (Hall : forallb (fun '(_, m) => negb (Z.land kAllPermissionsForRevoke m =? kAllPermissionsForRevoke)) s_allowedPermissions = true) by done. rewrite forallb_forall in Hall.
  specialize (Hall _ Hin). cbn in Hall. apply negb_true_iff in Hall. congruence.
Qed.

(** A second grant on the same object fails: the statement for the row is run
    on the table of tokens.  The permissions have been granted in memory by then,
    and the rows do not have them, so that a restart takes them away. *)
Theorem second_grant_not_recorded env id databaseId objectType objectId p g c (s : state) R n u cu d :
  let k := {| pk_databaseId := databaseId; pk_objectType := objectType; pk_objectId := objectId |} in
  synced true n s R -> isValidPermissions objectType p = true -> m_users s !! c = Some cu -> hasPermissions k p true cu = true ->
  m_users s !! id = Some u -> us_grantedPermissions u !! k = Some d ->
  exists e s', grantObjectPermissionsToUserUnlocked env id databaseId objectType objectId p g c s = (Throw e, s') /\
    accounts_of s' = <[id := snd (grantPermissions k p g u)]> (accounts_of s) /\ has_rows s' R.
Proof.
  intros k H Hv Hcu Hp Hu Hk. assert (Hdid : pd_id d <> 0). { intros E. by pose proof (new_permission_key true n s R id u k d H Hu Hk E). }
  destruct (synced_user _ _ _ _ _ _ H Hu) as (r & Hr & _ & _ & _). unfold grantObjectPermissionsToUserUnlocked. unfold mbind at 1, validatePermissions, mlift. rewrite Hv.
  unfold mbind at 1. rewrite (find_loaded _ _ _ (sy_inst _ _ _ _ H) Hcu). cbv zeta. fold k. rewrite Hp. cbn [negb]. unfold mbind at 1, gets. rewrite Hr. unfold mbind at 1, user_object, mbind at 1, gets. rewrite Hu. unfold mret.
  unfold grantPermissions. rewrite Hk. unfold mbind at 1, change_user, modify. cbn [pd_id addPermissions]. rewrite (proj2 (Z.eqb_neq _ _) Hdid). cbn [negb].
  destruct (update_permission_throws (env_now env) (addPermissions p g d) c _ R (sy_db _ _ _ _ H)) as (e & db & E & Hdb). unfold mbind, sys, embed. cbn [m_systemDatabase with_users]. rewrite E.
  eexists _, _. split; [done|]. split; [|by exists R]. apply map_eq. intros j. rewrite accounts_lookup. cbn. rewrite (alter_known _ _ _ u) by done. destruct (decide (id = j)) as [<-|Hne]; [by rewrite !lookup_insert, !decide_True|].
  rewrite !lookup_insert_ne by done. by rewrite accounts_lookup.
Qed.

(** A restart depends on the rows only. *)
Lemma synced_move b n (s s1 : state) R R1 : synced b n s R -> m_users s1 = m_users s -> m_userRegistry s1 = m_userRegistry s -> db_ok (m_systemDatabase s1) R1 ->
  (forall t, R1 t = R t) -> synced b n s1 R1.
Proof.
  intros [H1 H2 H3 H4 H5 H6 H7 H8 H9 H10] Eu Er Hdb HR.
  assert (Ha : accounts_of s1 = accounts_of s) by (apply map_eq; intros j; by rewrite !accounts_lookup, Eu, Er).
  split; rewrite ?Ha, ?HR; try done.
  - destruct H1 as (A & B & C). split; [|split]; rewrite ?Eu, ?Er; done.
  - intros t. rewrite HR. apply H3.
  - intros t. rewrite HR. apply H4.
  - rewrite Er. apply H5.
Qed.

Lemma restart_rows b n (s s1 : state) R R1 su : synced b n s R -> accounts_of s !! kSuperUserId = Some su -> db_ok (m_systemDatabase s1) R1 -> (forall t, R1 t = R t) ->
  exists u s', restart s1 = (Ok u, s') /\ same_accounts b (accounts_of s) (accounts_of s').
Proof.
  intros H Hsu Hdb HR. set (s2 := {| m_userRegistry := m_userRegistry s; m_users := m_users s; m_userAccessKeyIdToUserId := m_userAccessKeyIdToUserId s;
    m_userTokenIdToUserId := m_userTokenIdToUserId s; m_systemDatabase := m_systemDatabase s1; m_activeSessions := m_activeSessions s |}).
  assert (Ha : accounts_of s2 = accounts_of s) by (apply map_eq; intros j; by rewrite !accounts_lookup).
  assert (H2 : synced b n s2 R1) by by apply (synced_move b n s s2 R R1).
  destruct (restart_synced b n s2 R1 su H2) as (u & s' & E & _ & Hsame); [by rewrite Ha|]. rewrite Ha in Hsame. by exists u, s'.
Qed.

End Durable.

(** ** Runs of the sample instance *)

Module DurableSample.
Import Sample.

Definition sample_view (t : sys_table) : row_map := get_table t sample_database.
Lemma sample_view_ok : db_ok sample_database sample_view.
Proof. split; intros []; try done; (split; [done|apply map_Forall_empty]). Qed.
Lemma sample_databases_fit : databases_fit sample_databases.
Proof. intros name id tables. unfold sample_databases. destruct (bool_decide _); [|done]. intros [= <- <-]. split; [lia|]. intros ? ? [= <-]. lia. Qed.

Definition sample_transaction : TransactionParameters := {| tp_transactionId := 1; tp_timestamp := 0; tp_userId := 1 |}.
Definition created_instance : outcome UserError User * instance_state mem_table := create_instance sample_transaction [100] [107; 49] [100] root_key (new_instance sample_database).
Definition request_event (x : request_env * Z * Request) : event := HandleRequest (fst (fst x)) (snd (fst x)) (snd x).
Definition first_run : list event := request_event <$> root_requests.
Definition state_of (o : option (instance_state mem_table)) : instance_state mem_table := default (snd created_instance) o.
Definition served : instance_state mem_table := state_of (run_events 10 sample_databases first_run (snd created_instance)).

Definition nothing : UpdateUserParameters := {| up_realName := None; up_description := None; up_active := None |}.
Definition second_run : list event := first_run ++ [RestartInstance; HandleRequest (sample_env 30) 1 (UpdateUser alice nothing)].
Definition reloaded : instance_state mem_table := state_of (run_events 10 sample_databases second_run (snd created_instance)).

Lemma sample_synced l : lasts_ok (length l) sample_view -> Forall event_fits l -> run_events 10 sample_databases l (snd created_instance) = Some (state_of (run_events 10 sample_databases l (snd created_instance))) ->
  exists R, synced (negb (existsb is_restart l)) 0 (state_of (run_events 10 sample_databases l (snd created_instance))) R.
Proof.
  intros Hl Hf Hrun. destruct created_instance as [[su| |] s0] eqn:E; [|discriminate E|discriminate E]. cbn [snd] in Hrun |- *.
  destruct (created_synced (length l) sample_transaction [100] [107; 49] [100] root_key sample_database s0 sample_view su) as (R0 & H0 & Ha); [apply sample_view_ok|by intros []|done|done|done|exact E|].
  destruct (run_synced 10 sample_databases l true s0 _ R0 sample_databases_fit Hf H0 ltac:(rewrite Ha; by eexists) Hrun) as (R1 & H1 & _). by exists R1.
Qed.
Lemma served_synced : exists R, synced true 0 served R.
Proof. apply (sample_synced first_run); [intros []; cbn; lia|repeat constructor; cbn; lia|vm_compute; reflexivity]. Qed.
Lemma reloaded_synced : exists R, synced false 0 reloaded R.
Proof. apply (sample_synced second_run); [intros []; cbn; lia|repeat constructor; cbn; lia|vm_compute; reflexivity]. Qed.
(** The restart and the request after it have not changed the rows. *)
Lemma reloaded_rows R : synced true 0 served R -> synced false 0 reloaded R.
Proof.
  intros [_ [Hw Hdb] _ _ _ _ _ _ _ _]. destruct reloaded_synced as [R2 H2]. pose proof (sy_db _ _ _ _ H2) as [_ Hdb2].
  assert (HR : forall t, R t = R2 t).
  { intros t. destruct (Hdb t) as [<- _], (Hdb2 t) as [<- _]. destruct t; vm_compute; reflexivity. }
  apply (synced_move false 0 reloaded reloaded R2 R); [done..| |done]. split; [exact Hw|]. intros t. rewrite HR. apply Hdb2.
Qed.
Definition user_of (id : Z) (s : instance_state mem_table) : User :=
  default {| us_id := 0; us_name := []; us_realName := None; us_description := None; us_active := false; us_accessKeys := []; us_tokens := []; us_grantedPermissions := ∅ |} (m_users s !! id).
End DurableSample.
Import Sample DurableSample.


(** Alice gets a permission on a table twice: the second grant fails, and only the
    first one is in the tables. *)
Lemma second_grant_not_recorded_witness :
  exists e s', grantObjectPermissionsToUserUnlocked (sample_env 50) 4096 7 DatabaseObjectType.kTable 3 (getSinglePermissionMask kUpdate) false 1 served = (Throw e, s') /\
    (holds table_key 4 <$> accounts_of s' !! 4096) = Some true /\ (holds table_key 4 <$> accounts_of (state_of (run_events 10 sample_databases [RestartInstance] s')) !! 4096) = Some false.
Proof.
  destruct served_synced as [R H].
  destruct (second_grant_not_recorded (sample_env 50) 4096 7 DatabaseObjectType.kTable 3 (getSinglePermissionMask kUpdate) false 1 served R 0 (user_of 4096 served) (user_of 1 served)
    {| pd_permissions := select_insert; pd_grantOptions := select_insert; pd_id := 1 |}) as (e & s' & Es & Ea & _);
    [exact H|reflexivity|vm_compute; reflexivity|vm_compute; reflexivity|vm_compute; reflexivity|vm_compute; reflexivity|].
  exists e, s'. split; [exact Es|]. split.
  - rewrite Ea, lookup_insert, decide_True by done. vm_compute. reflexivity.
  - replace s' with (snd (grantObjectPermissionsToUserUnlocked (sample_env 50) 4096 7 DatabaseObjectType.kTable 3 (getSinglePermissionMask kUpdate) false 1 served)) by by rewrite Es. vm_compute. reflexivity.
Defined.

