(* ===== verification/DataSet.v ===== *)
(** * Data sets

    Models [DataSet] and [TableDataSet]: the columns a request uses of a table,
    the cursor over its rows and the values of the current row, which are read on
    demand, and [DBExpressionEvaluationContext], which gives the expressions of a
    request the values of its data sets.  The table below a data set is an
    interface: the calls of the main index, of [Table] and of [Column] that
    [TableDataSet] makes. *)

From stdpp Require Import base list gmap.
Set Warnings "-clear-no-such-hyp,-notation-incompatible-prefix,-notation-for-abbreviation".
From Stdlib Require Import ZArith Lia.
From S2P Require Import Prelude PlainBinary CNum VariantType Variant ColumnType Expr ExprEval StateM Bytes ColumnRecords Column MasterColumn Table.

(** ** Bit masks

    Models [stl_ext/bitmask.h]: a vector of bytes whose bits are addressed by
    their number.  A number past the last byte is an exception of [at]; the bits
    of the last byte past the size asked for can be used. *)

Local Open Scope Z_scope.

Notation bitmask := (list Z) (only parsing).

Definition required_size (n : nat) : nat := (n / 8 + (if n mod 8 =? 0 then 0 else 1))%nat.
Definition fill_byte (value : bool) : Z := if value then 0xFF else 0.

Definition new_bitmask (bit_size : nat) (value : bool) : bitmask := replicate (required_size bit_size) (fill_byte value).

(** [None] is the exception [std::out_of_range]. *)
Definition bit_get (pos : nat) (m : bitmask) : option bool :=
  (fun b => negb (Z.land b (Z.shiftl 1 (Z.of_nat (pos mod 8))) =? 0)) <$> m !! (pos / 8)%nat.

Definition bit_set (pos : nat) (value : bool) (m : bitmask) : option bitmask :=
  let bit := Z.shiftl 1 (Z.of_nat (pos mod 8)) in
  (fun b => <[(pos / 8)%nat := if value then Z.lor b bit else Z.ldiff b bit]> m) <$> m !! (pos / 8)%nat.

Definition bit_reset (pos : nat) (m : bitmask) : option bitmask := bit_set pos false m.

Definition bit_resize (bit_size : nat) (value : bool) (m : bitmask) : bitmask :=
  let n := required_size bit_size in take n m ++ replicate (n - length m) (fill_byte value).

Definition bit_fill (value : bool) (m : bitmask) : bitmask := (fun _ => fill_byte value) <$> m.

Arguments required_size : simpl never.
Arguments bit_get : simpl never.
Arguments bit_set : simpl never.
Arguments bit_fill : simpl never.
Arguments bit_resize : simpl never.

(** ** Bits *)

(** The bit of a mask, and false past its end. *)
Definition bit_at (pos : nat) (m : bitmask) : bool := default false (bit_get pos m).

Lemma byte_bit b i : 0 <= i -> negb (Z.land b (Z.shiftl 1 i) =? 0) = Z.testbit b i.
Proof.
  intros Hi. rewrite Z.shiftl_1_l. destruct (Z.testbit b i) eqn:E.
  - destruct (Z.eqb_spec (Z.land b (2 ^ i)) 0) as [H|]; [|done]. apply (f_equal (fun z => Z.testbit z i)) in H.
    rewrite Z.land_spec, Z.pow2_bits_true, Z.testbit_0_l, E in H by done. done.
  - apply negb_false_iff, Z.eqb_eq, Z.bits_inj'. intros j Hj. rewrite Z.land_spec, Z.testbit_0_l.
    destruct (Z.eq_dec i j) as [<-|]; [by rewrite E|]. by rewrite Z.pow2_bits_false, andb_false_r.
Qed.

Lemma bit_get_spec pos m : bit_get pos m = (fun b => Z.testbit b (Z.of_nat (pos mod 8))) <$> m !! (pos / 8)%nat.
Proof. unfold bit_get. destruct (m !! _) as [b|]; cbn; [|done]. by rewrite byte_bit by lia. Qed.

Lemma required_size_le n : (n <= 8 * required_size n)%nat.
Proof. unfold required_size. pose proof (Nat.div_mod_eq n 8). pose proof (Nat.mod_upper_bound n 8 ltac:(lia)). destruct (Nat.eqb_spec (n mod 8) 0); lia. Qed.

Lemma bit_byte pos n : (pos < n)%nat -> (pos / 8 < required_size n)%nat.
Proof. intros H. pose proof (required_size_le n). apply Nat.Div0.div_lt_upper_bound. lia. Qed.

Lemma same_bit pos pos' : pos <> pos' -> (pos / 8)%nat = (pos' / 8)%nat -> Z.of_nat (pos mod 8) <> Z.of_nat (pos' mod 8).
Proof. intros Hne Hq. pose proof (Nat.div_mod_eq pos 8). pose proof (Nat.div_mod_eq pos' 8). rewrite <- Hq in *. lia. Qed.

(** A bit that was set has its new value, and the others are as before. *)
Lemma bit_set_get pos value m m' : bit_set pos value m = Some m' ->
  length m' = length m /\ bit_at pos m' = value /\ forall pos', pos' <> pos -> bit_at pos' m' = bit_at pos' m.
Proof.
  unfold bit_set. destruct (m !! (pos / 8)%nat) as [b|] eqn:Hb; [|done]. cbn [fmap option_fmap option_map]. intros <-%(inj Some). rewrite length_insert. split; [done|]. pose proof (lookup_lt_Some _ _ _ Hb) as Hlt.
  unfold bit_at. split.
  - rewrite bit_get_spec, list_lookup_insert_eq by done. cbn. rewrite Z.shiftl_1_l.
    destruct value; [rewrite Z.lor_spec, Z.pow2_bits_true by lia; apply orb_true_r|rewrite Z.ldiff_spec, Z.pow2_bits_true by lia; apply andb_false_r].
  - intros pos' Hne. rewrite !bit_get_spec. destruct (decide ((pos' / 8)%nat = (pos / 8)%nat)) as [Hq|Hq]; [|by rewrite list_lookup_insert_ne by done].
    rewrite Hq, list_lookup_insert_eq, Hb by done. cbn. rewrite Z.shiftl_1_l. pose proof (same_bit pos' pos Hne Hq) as Hbit.
    destruct value; rewrite ?Z.lor_spec, ?Z.ldiff_spec, Z.pow2_bits_false by done; by rewrite ?orb_false_r, ?andb_true_r.
Qed.

Lemma bit_set_some pos value m n : length m = required_size n -> (pos < n)%nat -> is_Some (bit_set pos value m).
Proof. intros Hl Hp. unfold bit_set. apply fmap_is_Some, lookup_lt_is_Some. rewrite Hl. by apply bit_byte. Qed.

Lemma bit_get_some pos m n : length m = required_size n -> (pos < n)%nat -> bit_get pos m = Some (bit_at pos m).
Proof.
  intros Hl Hp. unfold bit_at. destruct (bit_get pos m) as [b|] eqn:E; [done|]. unfold bit_get in E. apply fmap_None, lookup_ge_None in E. rewrite Hl in E.
  pose proof (bit_byte _ _ Hp). lia.
Qed.

Lemma bit_fill_at pos m : bit_at pos (bit_fill false m) = false.
Proof.
  unfold bit_at. rewrite bit_get_spec. unfold bit_fill. destruct (((fun _ => fill_byte false) <$> m) !! (pos / 8)%nat) as [b|] eqn:E; [|done].
  apply list_elem_of_lookup_2 in E. apply list_elem_of_fmap in E as (? & -> & _). cbn. apply Z.testbit_0_l.
Qed.
Lemma bit_fill_length value m : length (bit_fill value m) = length m.
Proof. unfold bit_fill. apply length_fmap. Qed.

Lemma bit_resize_length n value m : length (bit_resize n value m) = required_size n.
Proof. unfold bit_resize. rewrite length_app, length_take, length_replicate. lia. Qed.

(** ** Data sets

    Models [DataSet] and [TableDataSet]: the columns a request uses of a table,
    the cursor over its rows and the values of the current row, which are read on
    demand, and [DBExpressionEvaluationContext], which gives the expressions of a
    request the values of its data sets.  The table below a data set is an
    interface: the calls of the main index, of [Table] and of [Column] that
    [TableDataSet] makes. *)

Local Open Scope Z_scope.

(** ** Tables, as an interface *)

(** What a data set and a request see of a column; the master column comes first. *)
Record column_info : Type := { col_name : list Z; col_dataType : ColumnDataType; col_notNull : bool }.
Record table_info : Type := { tbl_id : Z; tbl_name : list Z; tbl_columns : list column_info }.

(** [st_find] gives the address that is the value of a key of the main index;
    [st_readRecord] takes the position of a column. *)
Class ScanTable (T : Type) : Type := {
  st_getMinKey : SM T TableError (option Z);
  st_getMaxKey : SM T TableError (option Z);
  st_findNextKey : Z -> SM T TableError (option Z);
  st_find : Z -> SM T TableError (option ColumnDataAddress);
  st_readMasterColumnRecord : ColumnDataAddress -> SM T TableError MasterColumnRecord;
  st_readRecord : nat -> ColumnDataAddress -> SM T TableError Variant;
  st_insertRow : list Variant -> TransactionParameters -> SM T TableError unit;
  st_insertRow_named : list (list Z) -> list Variant -> TransactionParameters -> SM T TableError unit;
  st_updateRow : MasterColumnRecord -> ColumnDataAddress -> list nat -> list Variant -> TransactionParameters -> SM T TableError unit;
  st_deleteRow : MasterColumnRecord -> ColumnDataAddress -> TransactionParameters -> SM T TableError unit
}.

(** ** State *)

Record DataSetColumnInfo : Type := { m_posInTable : nat; ci_name : list Z; ci_alias : list Z }.

(** [m_key] is the current key; it is not meaningful when no next key was found. *)
Record TableDataSet {T : Type} : Type := {
  ds_alias : list Z;
  ds_table : table_info;
  m_table : T;
  m_columnInfos : list DataSetColumnInfo;
  m_values : list Variant;
  m_valueReadMask : bitmask;
  m_hasCurrentRow : bool;
  m_currentKey : option Z;
  m_currentMcr : MasterColumnRecord;
  m_currentMcrAddress : ColumnDataAddress
}.
Arguments TableDataSet T : clear implicits.

Definition new_data_set {T} (info : table_info) (table : T) (alias : list Z) : TableDataSet T :=
  {| ds_alias := alias; ds_table := info; m_table := table; m_columnInfos := []; m_values := []; m_valueReadMask := []; m_hasCurrentRow := false;
     m_currentKey := None; m_currentMcr := no_mcr; m_currentMcrAddress := kNullValueAddress |}.

(** The errors: those of the table, and [std::runtime_error]. *)
Inductive DataSetError : Type := TableFailed (e : TableError) | NoMoreRows.

(** The classes of the exceptions.  The string library has an exception class of
    its own, and [std::invalid_argument] and [std::out_of_range] are logic errors. *)
Definition variant_exception (e : VariantError) : exception_class :=
  match e with
  | VariantTypeCastError _ _ | WrongVariantTypeError _ => VariantLogicException
  | Utf8Error | StdInvalidArgument => OtherException
  | _ => RuntimeException
  end.
Definition expression_exception (e : ExpressionError) : exception_class :=
  match e with
  | Expr.VariantFailed e => variant_exception e
  | InvalidArgumentError | VectorLengthError => OtherException
  | ContextFailed c => c
  | _ => RuntimeException
  end.
Definition table_exception (e : TableError) : exception_class :=
  match e with
  | ColumnFailed (Column.VariantFailed e) => variant_exception e
  | ColumnFailed LogicErrorInvalidDataType | VectorOutOfRange => OtherException
  | DefaultValueFailed e => expression_exception e
  | _ => DatabaseException
  end.
Definition data_set_exception (e : DataSetError) : exception_class :=
  match e with TableFailed e => table_exception e | NoMoreRows => RuntimeException end.

(** [Table::findColumnPosition]. *)
Fixpoint find_position (name : list Z) (columns : list column_info) (position : nat) : option nat :=
  match columns with
  | [] => None
  | c :: columns' => if bool_decide (col_name c = name) then Some position else find_position name columns' (S position)
  end.
Definition findColumnPosition (info : table_info) (name : list Z) : option nat := find_position name (tbl_columns info) 0.

Section DataSets.
Context {T : Type} {ST : ScanTable T}.
Notation data_set := (TableDataSet T).
Definition DSM (A : Type) : Type := SM data_set DataSetError A.

Definition set_table (t : T) (d : data_set) : data_set :=
  {| ds_alias := ds_alias d; ds_table := ds_table d; m_table := t; m_columnInfos := m_columnInfos d; m_values := m_values d; m_valueReadMask := m_valueReadMask d;
     m_hasCurrentRow := m_hasCurrentRow d; m_currentKey := m_currentKey d; m_currentMcr := m_currentMcr d; m_currentMcrAddress := m_currentMcrAddress d |}.
Definition set_columnInfos (l : list DataSetColumnInfo) (d : data_set) : data_set :=
  {| ds_alias := ds_alias d; ds_table := ds_table d; m_table := m_table d; m_columnInfos := l; m_values := m_values d; m_valueReadMask := m_valueReadMask d;
     m_hasCurrentRow := m_hasCurrentRow d; m_currentKey := m_currentKey d; m_currentMcr := m_currentMcr d; m_currentMcrAddress := m_currentMcrAddress d |}.
Definition set_values (values : list Variant) (mask : bitmask) (d : data_set) : data_set :=
  {| ds_alias := ds_alias d; ds_table := ds_table d; m_table := m_table d; m_columnInfos := m_columnInfos d; m_values := values; m_valueReadMask := mask;
     m_hasCurrentRow := m_hasCurrentRow d; m_currentKey := m_currentKey d; m_currentMcr := m_currentMcr d; m_currentMcrAddress := m_currentMcrAddress d |}.
Definition set_cursor (has : bool) (key : option Z) (d : data_set) : data_set :=
  {| ds_alias := ds_alias d; ds_table := ds_table d; m_table := m_table d; m_columnInfos := m_columnInfos d; m_values := m_values d; m_valueReadMask := m_valueReadMask d;
     m_hasCurrentRow := has; m_currentKey := key; m_currentMcr := m_currentMcr d; m_currentMcrAddress := m_currentMcrAddress d |}.
Definition set_mcr (mcr : MasterColumnRecord) (addr : ColumnDataAddress) (d : data_set) : data_set :=
  {| ds_alias := ds_alias d; ds_table := ds_table d; m_table := m_table d; m_columnInfos := m_columnInfos d; m_values := m_values d; m_valueReadMask := m_valueReadMask d;
     m_hasCurrentRow := m_hasCurrentRow d; m_currentKey := m_currentKey d; m_currentMcr := mcr; m_currentMcrAddress := addr |}.

Definition on_table {A} (c : SM T TableError A) : DSM A := embed m_table set_table TableFailed c.
(** [std::vector::at] and [bitmask::get]. *)
Definition at_checked {A} (o : option A) : DSM A := match o with Some a => mret a | None => mthrow (TableFailed VectorOutOfRange) end.

Definition emplaceColumnInfo (info : DataSetColumnInfo) (d : data_set) : data_set := set_columnInfos (m_columnInfos d ++ [info]) d.

Definition fillColumnInfosFromTable (d : data_set) : data_set :=
  set_columnInfos (imap (fun i c => {| m_posInTable := i; ci_name := col_name c; ci_alias := [] |}) (tbl_columns (ds_table d))) d.

(** ** The values of the current row *)

Definition store_value (index : nat) (value : Variant) : DSM unit :=
  modify (fun d => set_values (<[index := value]> (m_values d)) (m_valueReadMask d) d).

Definition readColumnValue (index : nat) : DSM unit :=
  d <-- gets (fun d => d) ;;
  _ <-- at_checked (m_values d !! index) ;;
  info <-- at_checked (m_columnInfos d !! index) ;;
  let pos := m_posInTable info in
  column <-- at_checked (tbl_columns (ds_table d) !! pos) ;;
  (match pos with
   | O => store_value index (row_id (m_tableRowId (m_currentMcr d)))
   | S i =>
       record <-- at_checked (m_columnRecords (m_currentMcr d) !! i) ;;
       value <-- on_table (st_readRecord pos (m_address record)) ;;
       store_value index value ;;'
       if isNull value && col_notNull column then mthrow (TableFailed (UnexpectedNullValue (col_name column) (m_tableRowId (m_currentMcr d))))
       else mret tt
   end) ;;'
  mask <-- at_checked (bit_set index true (m_valueReadMask d)) ;;
  modify (fun d => set_values (m_values d) mask d).

Definition ds_getColumnValue (index : nat) : DSM Variant :=
  d <-- gets (fun d => d) ;;
  hasValue <-- at_checked (bit_get index (m_valueReadMask d)) ;;
  if negb (m_hasCurrentRow d) then mthrow NoMoreRows else
  (if (hasValue : bool) then mret tt else readColumnValue index) ;;'
  values <-- gets m_values ;;
  match values !! index with Some v => mret v | None => mlift (Undef OutOfBounds) end.

(** The loop from column [i] on. *)
Fixpoint read_values (n i : nat) : DSM unit :=
  match n with
  | O => mret tt
  | S n' =>
      mask <-- gets m_valueReadMask ;;
      hasValue <-- at_checked (bit_get i mask) ;;
      (if (hasValue : bool) then mret tt else readColumnValue i) ;;'
      read_values n' (S i)
  end.

Definition readCurrentRow : DSM unit :=
  d <-- gets (fun d => d) ;;
  if negb (m_hasCurrentRow d) then mthrow NoMoreRows else read_values (length (m_columnInfos d)) 0.

Definition ds_getColumnDataType (columnIndex : nat) (d : data_set) : option ColumnDataType :=
  info ← m_columnInfos d !! columnIndex; col_dataType <$> tbl_columns (ds_table d) !! m_posInTable info.

(** ** The cursor *)

(** [readMasterColumnRecord] of the row with the current key. *)
Definition readMasterColumnRecord (currentKey indexSearchFailureDefectCode : Z) : DSM unit :=
  found <-- on_table (st_find currentKey) ;;
  match found with
  | None => mthrow (TableFailed (MasterColumnRecordIndexCorrupted indexSearchFailureDefectCode))
  | Some mcrAddr =>
      mcr <-- on_table (st_readMasterColumnRecord mcrAddr) ;;
      d <-- gets (fun d => d) ;;
      modify (set_mcr mcr (m_currentMcrAddress d)) ;;'
      if negb (len (m_columnRecords mcr) + 1 =? len (tbl_columns (ds_table d)))
      then mthrow (TableFailed (InvalidMasterColumnRecordColumnCount (len (tbl_columns (ds_table d))) (len (m_columnRecords mcr) + 1)))
      else modify (set_mcr mcr mcrAddr)
  end.

Definition clear_mask : DSM unit := modify (fun d => set_values (m_values d) (bit_fill false (m_valueReadMask d)) d).

(** [std::vector::resize] of the values. *)
Definition resize_values (n : nat) (l : list Variant) : list Variant := take n l ++ replicate (n - length l) VNull.

Definition resetCursor : DSM unit :=
  minKey <-- on_table st_getMinKey ;;
  maxKey <-- (match minKey with Some _ => on_table st_getMaxKey | None => mret None end) ;;
  let '(minTrid, maxTrid) := match minKey, maxKey with Some a, Some b => (a, b) | _, _ => (0, 0) end in
  modify (fun d => set_cursor (m_hasCurrentRow d) minKey d) ;;'
  if minTrid >? maxTrid then mthrow (TableFailed (MasterColumnRecordIndexCorrupted 1)) else
  modify (fun d => set_values (resize_values (length (m_columnInfos d)) (m_values d)) (bit_resize (length (m_columnInfos d)) false (m_valueReadMask d)) d) ;;'
  modify (set_cursor (maxTrid >? 0) minKey) ;;'
  if maxTrid >? 0 then readMasterColumnRecord minTrid 2 ;;' clear_mask else mret tt.

Definition moveToNextRow : DSM bool :=
  d <-- gets (fun d => d) ;;
  match m_currentKey d with
  | None => mlift (Undef Uninitialized)
  | Some key =>
      nextKey <-- on_table (st_findNextKey key) ;;
      match nextKey with
      | Some key' =>
          modify (set_cursor true nextKey) ;;'
          readMasterColumnRecord key' 3 ;;'
          clear_mask ;;'
          mret true
      | None => modify (set_cursor false None) ;;' mret false
      end
  end.

(** ** Changing the current row *)

Definition deleteCurrentRow (tp : TransactionParameters) : DSM unit :=
  d <-- gets (fun d => d) ;;
  on_table (st_deleteRow (m_currentMcr d) (m_currentMcrAddress d) tp).

Definition updateCurrentRow (values : list Variant) (columnPositions : list nat) (tp : TransactionParameters) : DSM unit :=
  d <-- gets (fun d => d) ;;
  on_table (st_updateRow (m_currentMcr d) (m_currentMcrAddress d) columnPositions values tp).

(** ** The evaluation context of a request *)

(** The first data set with a name or an alias: [emplace] keeps the first entry
    of a name. *)
Definition emplace_name (name : list Z) (i : nat) (m : gmap (list Z) nat) : gmap (list Z) nat :=
  match m !! name with Some _ => m | None => <[name := i]> m end.
Fixpoint names_from (i : nat) (l : list data_set) (m : gmap (list Z) nat) : gmap (list Z) nat :=
  match l with
  | [] => m
  | d :: l' =>
      let m1 := emplace_name (tbl_name (ds_table d)) i m in
      names_from (S i) l' (match ds_alias d with [] => m1 | alias => emplace_name alias i m1 end)
  end.
Definition makeNameToIndexMapping (l : list data_set) : gmap (list Z) nat := names_from 0 l ∅.
Definition getDataSetIndex (l : list data_set) (name : list Z) : option nat := makeNameToIndexMapping l !! name.

(** A value that is read during an evaluation stays in the data set.  The context
    does not keep it: a value that was read before is the one that is read again
    ([getColumnValue_ok] in [DataSetSpec.v]). *)
Definition DBExpressionEvaluationContext (l : list data_set) : ExpressionEvaluationContext := {|
  getColumnValue tableIndex columnIndex :=
    match l !! Z.to_nat tableIndex with
    | None => Throw (ContextFailed OtherException)
    | Some d => map_error (fun e => ContextFailed (data_set_exception e)) (fst (ds_getColumnValue (Z.to_nat columnIndex) d))
    end;
  context_getColumnDataType tableIndex columnIndex :=
    match d ← l !! Z.to_nat tableIndex; ds_getColumnDataType (Z.to_nat columnIndex) d with
    | None => Throw (ContextFailed OtherException)
    | Some t => Ok t
    end
|}.
End DataSets.
