(* ===== verification/DataSetSpec.v ===== *)
(** * What a data set promises

    The laws of the table below a data set, and the cursor and the values of a
    data set in terms of the rows of that table: the cursor goes over the rows in
    the order of their numbers, and the value of a column is the one of the
    current row, whether it was read before or not. *)

From stdpp Require Import base list gmap sorting.
Set Warnings "-clear-no-such-hyp,-notation-incompatible-prefix,-notation-for-abbreviation".
From Stdlib Require Import ZArith Lia.
From S2P Require Import Prelude ColumnData ColumnSpec StateM Bytes ColumnRecords CNum VariantType Variant ColumnType Expr ExprEval MasterColumn Table SystemTables DataSet.

Local Open Scope Z_scope.

Lemma find_position_lt name columns i p : find_position name columns i = Some p -> (p < i + length columns)%nat.
Proof. revert i. induction columns as [|c columns IH]; intros i; cbn; [done|]. case_bool_decide; [intros [= <-]; lia|]. intros H2%IH. lia. Qed.

(** ** The rows of a table *)

Record stored_row : Type := { sr_trid : Z; sr_address : ColumnDataAddress; sr_mcr : MasterColumnRecord; sr_values : list Variant }.

(** The values by the positions of the columns. *)
Definition full_row (r : stored_row) : list Variant := row_id (sr_trid r) :: sr_values r.

Record row_ok (info : table_info) (r : stored_row) : Prop := {
  row_positive : 0 < sr_trid r;
  row_number : m_tableRowId (sr_mcr r) = sr_trid r;
  row_records : length (m_columnRecords (sr_mcr r)) = length (sr_values r);
  row_width : length (tbl_columns info) = S (length (sr_values r));
  row_not_null : forall i c v, tbl_columns info !! S i = Some c -> sr_values r !! i = Some v -> isNull v && col_notNull c = false
}.

Definition replace_row (r : stored_row) (l : list stored_row) : list stored_row :=
  (fun x => if sr_trid x =? sr_trid r then r else x) <$> l.
Definition remove_row (k : Z) (l : list stored_row) : list stored_row := filter (fun x => sr_trid x <> k) l.
Definition rows_after (k : Z) (l : list stored_row) : list stored_row := filter (fun x => k < sr_trid x) l.

(** The promises of a table to those who read it: it holds rows in the order of
    their numbers, which its main index can go through.  The search for the next
    row is promised for the numbers of [st_key] only. *)
Class ScanTableLaws (T : Type) {ST : ScanTable T} : Type := {
  st_ok : table_info -> T -> list stored_row -> Prop;
  st_key : Z -> Prop;
  st_sorted : forall info t l, st_ok info t l -> StronglySorted Z.lt (sr_trid <$> l);
  st_rows : forall info t l, st_ok info t l -> Forall (row_ok info) l;
  st_keys : forall info t l, st_ok info t l -> Forall (fun r => st_key (sr_trid r)) l;
  st_min_law : forall info t l, st_ok info t l -> exists t', st_getMinKey t = (Ok (sr_trid <$> head l), t') /\ st_ok info t' l;
  st_max_law : forall info t l, st_ok info t l -> exists t', st_getMaxKey t = (Ok (sr_trid <$> last l), t') /\ st_ok info t' l;
  st_next_law : forall info t l k, st_ok info t l -> st_key k -> exists t', st_findNextKey k t = (Ok (sr_trid <$> head (rows_after k l)), t') /\ st_ok info t' l;
  st_find_law : forall info t l r, st_ok info t l -> r ∈ l -> exists t', st_find (sr_trid r) t = (Ok (Some (sr_address r)), t') /\ st_ok info t' l;
  st_mcr_law : forall info t l r, st_ok info t l -> r ∈ l -> exists t', st_readMasterColumnRecord (sr_address r) t = (Ok (sr_mcr r), t') /\ st_ok info t' l;
  st_record_law : forall info t l r i record v, st_ok info t l -> r ∈ l -> m_columnRecords (sr_mcr r) !! i = Some record -> sr_values r !! i = Some v ->
    exists t', st_readRecord (S i) (m_address record) t = (Ok v, t') /\ st_ok info t' l
}.

(** The promises to those who insert rows: an insert either does its work or
    throws and leaves the rows. *)
Class ScanTableInsertLaws (T : Type) {ST : ScanTable T} {SL : ScanTableLaws T} : Type := {
  st_insert_law : forall info t l values tp, st_ok info t l ->
    (exists r t', st_insertRow values tp t = (Ok tt, t') /\ st_ok info t' (l ++ [r]) /\ Forall2 stored values (take (length values) (sr_values r))) \/
    (exists e t', st_insertRow values tp t = (Throw e, t') /\ st_ok info t' l);
  st_insert_named_law : forall info t l names values tp, st_ok info t l ->
    (exists r t', st_insertRow_named names values tp t = (Ok tt, t') /\ st_ok info t' (l ++ [r]) /\
       Forall2 (fun name v => exists p w, findColumnPosition info name = Some (S p) /\ sr_values r !! p = Some w /\ stored v w) names values) \/
    (exists e t', st_insertRow_named names values tp t = (Throw e, t') /\ st_ok info t' l)
}.

(** ** Changes of rows *)

Section Changes.
Context {X : Externals}.

(** The value that a column stores for a value, after the conversion to its
    type. *)
Definition stores (c : column_info) (v w : Variant) : Prop :=
  if isNull v then col_notNull c = false /\ w = VNull
  else exists v', convert_value (col_dataType c) v = Ok (Plain v') /\ w = stored_value (col_dataType c) v'.
Definition refused (c : column_info) (v : Variant) : Prop := forall w, ~ stores c v w.

(** A value whose conversion to the type of the column is well-formed, as the
    types of the program make sure. *)
Definition fits_column (c : column_info) (v : Variant) : Prop := match convert_value (col_dataType c) v with Ok (Plain v') => Variant_ok v' | _ => True end.

(** Values for some positions. *)
Definition at_columns (info : table_info) (P : column_info -> Variant -> Prop) (positions : list nat) (values : list Variant) : Prop :=
  forall i p c v, positions !! i = Some p -> values !! i = Some v -> tbl_columns info !! p = Some c -> P c v.

(** A row with other values at some positions. *)
Definition updated_row (info : table_info) (positions : list nat) (values : list Variant) (r r' : stored_row) : Prop :=
  sr_trid r' = sr_trid r /\ exists ws, Forall3 (fun p v w => exists c, tbl_columns info !! p = Some c /\ stores c v w) positions values ws /\
    sr_values r' = update_values (sr_values r) positions ws.

(** Some value is refused. *)
Definition some_refused (info : table_info) (positions : list nat) (values : list Variant) : Prop :=
  exists i p c v, positions !! i = Some p /\ values !! i = Some v /\ tbl_columns info !! p = Some c /\ refused c v.

(** The promises of a table that can be changed [n] times and read in between.  A
    row that is updated gets the new values if its columns take them; otherwise
    the update throws and leaves the rows, or its behaviour is undefined.  A row
    that is deleted is gone. *)
Class ScanTableChangeLaws (T : Type) {ST : ScanTable T} : Type := {
  sc_reads : nat -> ScanTableLaws T;
  sc_less : forall n info t l, @st_ok T ST (sc_reads (S n)) info t l -> @st_ok T ST (sc_reads n) info t l;
  sc_update_law : forall n info t l r positions values tp, @st_ok T ST (sc_reads (S n)) info t l -> r ∈ l -> tp_ok tp ->
    length positions = length values -> NoDup positions -> Forall (fun p => (1 <= p < length (tbl_columns info))%nat) positions -> at_columns info fits_column positions values ->
    match st_updateRow (sr_mcr r) (sr_address r) positions values tp t with
    | (Ok _, t') => exists r', updated_row info positions values r r' /\ @st_ok T ST (sc_reads n) info t' (replace_row r' l)
    | (Throw _, t') => some_refused info positions values /\ @st_ok T ST (sc_reads n) info t' l
    | (Undef _, _) => some_refused info positions values
    end;
  sc_delete_law : forall n info t l r tp, @st_ok T ST (sc_reads (S n)) info t l -> r ∈ l -> tp_ok tp ->
    exists t', st_deleteRow (sr_mcr r) (sr_address r) tp t = (Ok tt, t') /\ @st_ok T ST (sc_reads n) info t' (remove_row (sr_trid r) l);
  sc_same_keys : forall n k, @st_key T ST (sc_reads (S n)) k -> @st_key T ST (sc_reads n) k
}.
End Changes.

Section DataSetSpec.
Context {T : Type} {ST : ScanTable T} {SL : ScanTableLaws T}.
Notation data_set := (TableDataSet T).

(** ** The state of a data set *)

(** What the cursor does not change. *)
Definition same_shape (d d' : data_set) : Prop :=
  ds_alias d' = ds_alias d /\ ds_table d' = ds_table d /\ m_columnInfos d' = m_columnInfos d.

(** The columns of a data set are columns of its table. *)
Definition infos_ok (d : data_set) : Prop := Forall (fun i => (m_posInTable i < length (tbl_columns (ds_table d)))%nat) (m_columnInfos d).

(** The value of a column of a data set in a row. *)
Definition column_of (d : data_set) (r : stored_row) (index : nat) : option Variant :=
  info ← m_columnInfos d !! index; full_row r !! m_posInTable info.

(** The values that were read are those of the row. *)
Record cached (d : data_set) (r : stored_row) : Prop := {
  ca_values : length (m_values d) = length (m_columnInfos d);
  ca_mask : length (m_valueReadMask d) = required_size (length (m_columnInfos d));
  ca_read : forall i, bit_at i (m_valueReadMask d) = true -> (i < length (m_columnInfos d))%nat /\ m_values d !! i = column_of d r i
}.

(** The data set of a table with the rows [l]. *)
Definition ds_ok (d : data_set) (l : list stored_row) : Prop := infos_ok d /\ st_ok (ds_table d) (m_table d) l.

(** The cursor stands on row [r]. *)
Record on_row (d : data_set) (r : stored_row) : Prop := {
  on_has : m_hasCurrentRow d = true;
  on_key : m_currentKey d = Some (sr_trid r);
  on_mcr : m_currentMcr d = sr_mcr r;
  on_address : m_currentMcrAddress d = sr_address r;
  on_cached : cached d r
}.

Definition ds_at (d : data_set) (l : list stored_row) (i : nat) : Prop :=
  ds_ok d l /\ match l !! i with Some r => on_row d r | None => m_hasCurrentRow d = false end.

Lemma same_shape_refl d : same_shape d d.
Proof. done. Qed.
Lemma same_shape_trans d1 d2 d3 : same_shape d1 d2 -> same_shape d2 d3 -> same_shape d1 d3.
Proof. intros (A & B & C) (D & E & F). repeat split; congruence. Qed.
Lemma shape_column d d' r i : same_shape d d' -> column_of d' r i = column_of d r i.
Proof. intros (_ & _ & H). unfold column_of. by rewrite H. Qed.

Lemma column_some d l r i : ds_ok d l -> r ∈ l -> (i < length (m_columnInfos d))%nat -> is_Some (column_of d r i).
Proof.
  intros [Hi Hs] Hr Hlt. destruct (lookup_lt_is_Some_2 _ _ Hlt) as [info Hinfo]. pose proof (Forall_lookup_1 _ _ _ _ Hi Hinfo) as Hp. pose proof (st_rows _ _ _ Hs) as Hrows.
  rewrite Forall_forall in Hrows. specialize (Hrows r Hr). unfold column_of. rewrite Hinfo. cbn. apply lookup_lt_is_Some. unfold full_row. cbn. rewrite <- (row_width _ _ Hrows). exact Hp.
Qed.

Lemma on_table_ok {A} (c : SM T TableError A) d a t' : c (m_table d) = (Ok a, t') -> on_table c d = (Ok a, set_table t' d).
Proof. unfold on_table, embed. by intros ->. Qed.
Lemma on_table_throw {A} (c : SM T TableError A) d e t' : c (m_table d) = (Throw e, t') -> on_table c d = (Throw (TableFailed e), set_table t' d).
Proof. unfold on_table, embed. by intros ->. Qed.

(** ** Reading values *)

Lemma set_table_at d l r t' : ds_ok d l -> on_row d r -> st_ok (ds_table d) t' l -> ds_ok (set_table t' d) l /\ on_row (set_table t' d) r /\ same_shape d (set_table t' d).
Proof. intros [Hi _] [? ? ? ? []] Ht. split; [by split|]. split; [|done]. split; [done..|]. by split. Qed.

(** One more value was read. *)
Definition reads (d d' : data_set) (i : nat) : Prop := forall j, bit_at j (m_valueReadMask d) = true \/ j = i -> bit_at j (m_valueReadMask d') = true.

(** A value that was read is stored. *)
Lemma store_read d l r i v mask : ds_ok d l -> on_row d r -> (i < length (m_columnInfos d))%nat -> column_of d r i = Some v -> bit_set i true (m_valueReadMask d) = Some mask ->
  let d' := set_values (<[i := v]> (m_values d)) mask d in ds_ok d' l /\ on_row d' r /\ same_shape d d' /\ reads d d' i.
Proof.
  intros Hd [H1 H2 H3 H4 [C1 C2 C3]] Hi Hv Hm. destruct (bit_set_get _ _ _ _ Hm) as (Hl & Hb & Ho). cbv zeta. split; [done|]. split; [|split; [done|]].
  - split; [done..|]. split; cbn; [by rewrite length_insert|by rewrite Hl|]. intros j Hbit. destruct (decide (j = i)) as [->|Hne].
    + split; [done|]. rewrite list_lookup_insert_eq by (rewrite C1; lia). by unfold column_of in *.
    + rewrite list_lookup_insert_ne by done. rewrite Ho in Hbit by done. by apply C3.
  - intros j. cbn. destruct (decide (j = i)) as [->|Hne]; [by rewrite Hb|]. rewrite Ho by done. by intros [?|?].
Qed.

Lemma at_checked_some {A} (o : option A) (d : data_set) a : o = Some a -> at_checked o d = (Ok a, d).
Proof. by intros ->. Qed.

Lemma readColumnValue_ok d l r i : ds_ok d l -> r ∈ l -> on_row d r -> (i < length (m_columnInfos d))%nat ->
  exists d', readColumnValue i d = (Ok tt, d') /\ ds_ok d' l /\ on_row d' r /\ same_shape d d' /\ reads d d' i.
Proof.
  intros Hd Hr Hon Hi. destruct (column_some _ _ _ _ Hd Hr Hi) as [v Hv]. pose proof Hd as [Hinfos Hst]. pose proof (on_cached _ _ Hon) as [C1 C2 C3].
  destruct (lookup_lt_is_Some_2 (m_values d) i ltac:(lia)) as [old Hold]. destruct (bit_set_some i true _ _ C2 Hi) as [mask Hmask].
  unfold readColumnValue. rewrite mbind_gets. run_step (at_checked_some (m_values d !! i) d old Hold).
  unfold column_of in Hv. destruct (m_columnInfos d !! i) as [info|] eqn:Hinfo; [|done]. change (full_row r !! m_posInTable info = Some v) in Hv.
  run_step (at_checked_some (Some info) d info eq_refl). cbv zeta. pose proof (st_rows _ _ _ Hst) as Hrows. rewrite Forall_forall in Hrows. pose proof (Hrows r Hr) as Hrow.
  pose proof (Forall_lookup_1 _ _ _ _ Hinfos Hinfo) as Hpos. destruct (lookup_lt_is_Some_2 _ _ Hpos) as [c Hc]. run_step (at_checked_some _ d c Hc).
  assert (Hcol : column_of d r i = Some v) by (unfold column_of; rewrite Hinfo; exact Hv).
  destruct (m_posInTable info) as [|p] eqn:Hp.
  - injection Hv as <-. rewrite (on_mcr _ _ Hon), (row_number _ _ Hrow). unfold store_value. rewrite mbind_modify. run_step (at_checked_some _ (set_values (<[i := row_id (sr_trid r)]> (m_values d)) (m_valueReadMask d) d) mask Hmask).
    destruct (store_read d l r i (row_id (sr_trid r)) mask Hd Hon Hi Hcol Hmask) as (A & B & C & D). eexists. split; [reflexivity|]. exact (conj A (conj B (conj C D))).
  - rewrite (on_mcr _ _ Hon). change (sr_values r !! p = Some v) in Hv. pose proof (lookup_lt_Some _ _ _ Hv) as Hlt. rewrite <- (row_records _ _ Hrow) in Hlt.
    destruct (lookup_lt_is_Some_2 _ _ Hlt) as [record Hrec].
    destruct (st_record_law _ _ _ _ _ _ _ Hst Hr Hrec Hv) as (t' & Hread & Hst'). destruct (set_table_at d l r t' Hd Hon Hst') as (Hd' & Hon' & Hsh').
    unfold mbind at 1. rewrite (mbind_ok _ _ _ _ _ (at_checked_some _ d record Hrec)). rewrite (mbind_ok _ _ _ _ _ (on_table_ok _ d v t' Hread)).
    unfold store_value at 1. rewrite mbind_modify, (row_not_null _ _ Hrow p c v Hc Hv). cbn [mret].
    run_step (at_checked_some _ (set_values (<[i := v]> (m_values (set_table t' d))) (m_valueReadMask (set_table t' d)) (set_table t' d)) mask Hmask).
    destruct (store_read (set_table t' d) l r i v mask Hd' Hon' Hi Hcol Hmask) as (A & B & C & D). eexists. split; [reflexivity|]. exact (conj A (conj B (conj C D))).
Qed.

Lemma getColumnValue_ok d l r i : ds_ok d l -> r ∈ l -> on_row d r -> (i < length (m_columnInfos d))%nat ->
  exists v d', ds_getColumnValue i d = (Ok v, d') /\ column_of d r i = Some v /\ ds_ok d' l /\ on_row d' r /\ same_shape d d'.
Proof.
  intros Hd Hr Hon Hi. pose proof (on_cached _ _ Hon) as [C1 C2 C3]. destruct (column_some _ _ _ _ Hd Hr Hi) as [v Hv].
  unfold ds_getColumnValue. rewrite mbind_gets. run_step (at_checked_some _ d _ (bit_get_some i _ _ C2 Hi)). rewrite (on_has _ _ Hon). cbn [negb].
  destruct (bit_at i (m_valueReadMask d)) eqn:Hbit.
  - rewrite mbind_ret, mbind_gets, (proj2 (C3 i Hbit)), Hv. exists v, d. by split_and!.
  - destruct (readColumnValue_ok d l r i Hd Hr Hon Hi) as (d' & E & Hd' & Hon' & Hsh & Hrd). run_step E. rewrite mbind_gets.
    pose proof (on_cached _ _ Hon') as [C1' C2' C3']. rewrite (proj2 (C3' i (Hrd i (or_intror eq_refl)))), (shape_column d d' r i Hsh), Hv.
    by exists v, d'.
Qed.

(** A column that the data set does not have. *)
Lemma getColumnValue_out d r i : on_row d r -> ~ (i < length (m_columnInfos d))%nat ->
  exists e, fst (ds_getColumnValue i d) = Throw e /\ data_set_exception e = OtherException.
Proof.
  intros Hon Hi. pose proof (on_cached _ _ Hon) as [C1 C2 C3]. unfold ds_getColumnValue. rewrite mbind_gets. destruct (bit_get i (m_valueReadMask d)) as [b|] eqn:Hb.
  - run_step (at_checked_some (Some b) d b eq_refl). rewrite (on_has _ _ Hon). cbn [negb]. destruct b.
    + destruct (C3 i); [|done]. unfold bit_at. by rewrite Hb.
    + exists (TableFailed VectorOutOfRange). split; [|done]. unfold readColumnValue. unfold mbind at 1. rewrite mbind_gets. by rewrite (lookup_ge_None_2 (m_values d)) by lia.
  - by exists (TableFailed VectorOutOfRange).
Qed.

Lemma read_values_ok l r : r ∈ l -> forall n i d, ds_ok d l -> on_row d r -> (i + n <= length (m_columnInfos d))%nat ->
  exists d', read_values n i d = (Ok tt, d') /\ ds_ok d' l /\ on_row d' r /\ same_shape d d' /\
    forall j, bit_at j (m_valueReadMask d) = true \/ (i <= j < i + n)%nat -> bit_at j (m_valueReadMask d') = true.
Proof.
  intros Hr. induction n as [|n IH]; intros i d Hd Hon Hle; cbn [read_values].
  - exists d. split; [done|]. split; [done|]. split; [done|]. split; [done|]. intros j [?|?]; [done|lia].
  - rewrite mbind_gets. pose proof (on_cached _ _ Hon) as [C1 C2 C3]. run_step (at_checked_some _ d _ (bit_get_some i _ _ C2 ltac:(lia))).
    destruct (bit_at i (m_valueReadMask d)) eqn:Hbit.
    + rewrite mbind_ret. destruct (IH (S i) d Hd Hon ltac:(lia)) as (d' & E & Hd' & Hon' & Hsh & Hb). exists d'. repeat (split; [done|]).
      intros j [?|?]; [apply Hb; by left|]. destruct (decide (j = i)) as [->|]; apply Hb; [by left|right; lia].
    + destruct (readColumnValue_ok d l r i Hd Hr Hon ltac:(lia)) as (d1 & E1 & Hd1 & Hon1 & Hsh1 & Hrd). run_step E1.
      destruct (IH (S i) d1 Hd1 Hon1) as (d' & E & Hd' & Hon' & Hsh & Hb); [destruct Hsh1 as (_ & _ & ->); lia|]. exists d'. repeat (split; [done|]).
      split; [by eapply same_shape_trans|]. intros j [?|?]; [apply Hb; left; apply Hrd; by left|].
      destruct (decide (j = i)) as [->|]; apply Hb; [left; apply Hrd; by right|right; lia].
Qed.

(** All columns of a data set in a row. *)
Definition row_values (d : data_set) (r : stored_row) : list Variant := omap (column_of d r) (seq 0 (length (m_columnInfos d))).

Lemma row_values_lookup d l r i : ds_ok d l -> r ∈ l -> (i < length (m_columnInfos d))%nat -> row_values d r !! i = column_of d r i.
Proof.
  intros Hd Hr. unfold row_values. assert (H : forall n a, (a + n <= length (m_columnInfos d))%nat -> (i < n)%nat -> omap (column_of d r) (seq a n) !! i = column_of d r (a + i)).
  { clear -Hd Hr SL. revert i. induction i as [|i IH]; intros [|n] a Hle Hlt; try lia; cbn [seq]; cbn [omap list_omap]; destruct (column_some d l r a Hd Hr ltac:(lia)) as [v Hv]; rewrite Hv; cbn.
    - by rewrite Nat.add_0_r.
    - rewrite IH by lia. f_equal. lia. }
  intros Hi. by rewrite H.
Qed.
Lemma row_values_length d l r : ds_ok d l -> r ∈ l -> length (row_values d r) = length (m_columnInfos d).
Proof.
  intros Hd Hr. unfold row_values. assert (H : forall n a, (a + n <= length (m_columnInfos d))%nat -> length (omap (column_of d r) (seq a n)) = n); [|by apply H].
  induction n as [|n IH]; intros a Hle; [done|]. cbn [seq]. cbn [omap list_omap]. destruct (column_some d l r a Hd Hr ltac:(lia)) as [v ->]. cbn. rewrite IH; lia.
Qed.

Lemma readCurrentRow_ok d l r : ds_ok d l -> r ∈ l -> on_row d r ->
  exists d', readCurrentRow d = (Ok tt, d') /\ ds_ok d' l /\ on_row d' r /\ same_shape d d' /\ m_values d' = row_values d r.
Proof.
  intros Hd Hr Hon. unfold readCurrentRow. rewrite mbind_gets, (on_has _ _ Hon). cbn [negb].
  destruct (read_values_ok l r Hr (length (m_columnInfos d)) 0 d Hd Hon ltac:(lia)) as (d' & E & Hd' & Hon' & Hsh & Hb). exists d'. repeat (split; [done|]).
  pose proof (on_cached _ _ Hon') as [C1 C2 C3]. assert (Hinf : m_columnInfos d' = m_columnInfos d) by apply Hsh. apply list_eq. intros i.
  destruct (decide (i < length (m_columnInfos d))%nat) as [Hi|Hi].
  - rewrite (proj2 (C3 i (Hb i ltac:(right; lia)))), (row_values_lookup d l r i Hd Hr Hi). apply (shape_column d d' r i Hsh).
  - rewrite !lookup_ge_None_2; [done|rewrite (row_values_length d l r Hd Hr); lia|rewrite C1, Hinf; lia].
Qed.

(** ** The cursor *)

(** The vector of values and the mask have their sizes. *)
Definition sized (d : data_set) : Prop :=
  length (m_values d) = length (m_columnInfos d) /\ length (m_valueReadMask d) = required_size (length (m_columnInfos d)).

Lemma cached_sized d r : cached d r -> sized d.
Proof. by intros []. Qed.

(** The record of a row is read and the mask of the values is cleared. *)
Lemma read_row_ok {A} d l r (key : A) code : ds_ok d l -> r ∈ l -> sized d ->
  let d1 := set_cursor true (Some (sr_trid r)) d in
  exists d', (readMasterColumnRecord (sr_trid r) code ;;' (clear_mask ;;' mret key)) d1 = (Ok key, d') /\ ds_ok d' l /\ on_row d' r /\ same_shape d d'.
Proof.
  intros [Hi Hst] Hr [Hs1 Hs2] d1. pose proof (st_rows _ _ _ Hst) as Hrows. rewrite Forall_forall in Hrows. pose proof (Hrows r Hr) as Hrow.
  destruct (st_find_law _ _ _ _ Hst Hr) as (t1 & E1 & Ht1). destruct (st_mcr_law _ _ _ _ Ht1 Hr) as (t2 & E2 & Ht2).
  assert (Hread : readMasterColumnRecord (sr_trid r) code d1 = (Ok tt, set_mcr (sr_mcr r) (sr_address r) (set_mcr (sr_mcr r) (m_currentMcrAddress d) (set_table t2 (set_table t1 d1))))).
  { unfold readMasterColumnRecord. run_step (on_table_ok _ d1 _ _ E1). run_step (on_table_ok _ (set_table t1 d1) _ _ E2). rewrite mbind_gets, mbind_modify.
    cbn [set_table set_cursor ds_table d1]. assert ((len (m_columnRecords (sr_mcr r)) + 1 =? len (tbl_columns (ds_table d))) = true) as ->; [|done].
    apply Z.eqb_eq. unfold len. rewrite (row_width _ _ Hrow), (row_records _ _ Hrow). lia. }
  run_step Hread. unfold clear_mask. rewrite mbind_modify. eexists. split; [reflexivity|]. split; [by split|]. split; [|done].
  split; [done..|]. split; [done|exact (eq_trans (bit_fill_length false _) Hs2)|]. intros i Hb.
  change (bit_at i (bit_fill false (m_valueReadMask d)) = true) in Hb. by rewrite bit_fill_at in Hb.
Qed.

Lemma mbind_ret_r {S E A} (c : SM S E A) s a s' : (a0 <-- c ;; mret a0) s = (Ok a, s') -> c s = (Ok a, s').
Proof. unfold mbind. by destruct (c s) as [[]]. Qed.

Lemma sorted_head (r : stored_row) l : StronglySorted Z.lt (sr_trid <$> r :: l) -> forall x, x ∈ r :: l -> sr_trid r <= sr_trid x.
Proof.
  intros Hs x [->|Hx]%elem_of_cons; [lia|]. cbn in Hs. apply StronglySorted_inv in Hs as [_ Hf]. rewrite Forall_forall in Hf.
  specialize (Hf (sr_trid x)). apply Z.lt_le_incl, Hf. by apply list_elem_of_fmap_2.
Qed.

Lemma resetCursor_ok d l : ds_ok d l -> exists d', resetCursor d = (Ok tt, d') /\ ds_at d' l 0 /\ same_shape d d'.
Proof.
  intros Hd. pose proof Hd as [Hi Hst]. unfold resetCursor. destruct (st_min_law _ _ _ Hst) as (t1 & E1 & Ht1). run_step (on_table_ok _ d _ _ E1).
  destruct l as [|r l]; cbn [head fmap option_fmap option_map].
  - rewrite mbind_ret, !mbind_modify. cbn. eexists. split; [reflexivity|]. split; [|done]. by repeat split.
  - destruct (st_max_law _ _ _ Ht1) as (t2 & E2 & Ht2). run_step (on_table_ok _ (set_table t1 d) _ _ E2).
    destruct (last (r :: l)) as [b|] eqn:Hb; [|by apply last_None in Hb]. cbn [fmap option_fmap option_map]. rewrite mbind_modify.
    assert (Hin : b ∈ r :: l). { apply last_Some in Hb as [l' ->]. set_solver. }
    pose proof (sorted_head r l (st_sorted _ _ _ Hst) b Hin) as Hle. pose proof (st_rows _ _ _ Hst) as Hrows. rewrite Forall_forall in Hrows. pose proof (row_positive _ _ (Hrows r ltac:(set_solver))) as Hpos.
    rewrite !Z.gtb_ltb, (proj2 (Z.ltb_ge _ _)), (proj2 (Z.ltb_lt 0 _)) by lia. rewrite !mbind_modify.
    set (d1 := set_values _ _ _). destruct (read_row_ok d1 (r :: l) r tt 2) as (d' & E & Hd' & Hon & Hsh); [by split|set_solver| |].
    { split; [|apply bit_resize_length]. cbn. unfold resize_values. rewrite length_app, length_take, length_replicate. lia. }
    exists d'. split; [|split; [by split|exact Hsh]].
    assert (Hc : forall s, clear_mask (T := T) s = (clear_mask ;;' mret tt) s) by done. unfold mbind at 1. unfold mbind at 1 in E.
    destruct (readMasterColumnRecord (sr_trid r) 2 _) as [[[]|e|u] s']; [by rewrite Hc|done..].
Qed.

(** The next row after the current key. *)
Lemma moveToNextRow_any d l k : ds_ok d l -> sized d -> m_currentKey d = Some k -> st_key k ->
  exists d', same_shape d d' /\ ds_ok d' l /\
    match head (rows_after k l) with
    | Some r => moveToNextRow d = (Ok true, d') /\ on_row d' r
    | None => moveToNextRow d = (Ok false, d') /\ m_hasCurrentRow d' = false
    end.
Proof.
  intros [Hi Hst] Hs Hk Hkey. unfold moveToNextRow. rewrite mbind_gets, Hk. destruct (st_next_law _ _ _ k Hst Hkey) as (t1 & E1 & Ht1). rewrite (mbind_ok _ _ _ _ _ (on_table_ok _ d _ _ E1)).
  destruct (head (rows_after k l)) as [r|] eqn:Hh; cbn [fmap option_fmap option_map].
  - rewrite mbind_modify. assert (Hr : r ∈ l). { apply head_Some_elem_of in Hh. by apply list_elem_of_filter in Hh as [_ ?]. }
    destruct (read_row_ok (set_table t1 d) l r true 3) as (d' & E & Hd' & Hon & Hsh); [by split|done|done|]. exists d'. by rewrite E.
  - rewrite mbind_modify. exists (set_cursor false None (set_table t1 d)). split; [done|]. split; [by split|done].
Qed.

Lemma filter_keep {A} (P : A -> Prop) `{forall x, Decision (P x)} (l : list A) : (forall x, x ∈ l -> P x) -> filter P l = l.
Proof. induction l as [|x l IH]; intros Hl; [done|]. rewrite filter_cons, decide_True by (apply Hl; set_solver). f_equal. apply IH. set_solver. Qed.

Lemma rows_after_at l i r : StronglySorted Z.lt (sr_trid <$> l) -> l !! i = Some r -> rows_after (sr_trid r) l = drop (S i) l.
Proof.
  unfold rows_after. revert i. induction l as [|x l IH]; intros i Hs Hi; [done|]. cbn in Hs. apply StronglySorted_inv in Hs as [Hs Hf]. rewrite Forall_forall in Hf. destruct i as [|i].
  - injection Hi as ->. rewrite filter_cons, decide_False by lia. cbn [drop]. apply filter_keep. intros y Hy. apply Hf. by apply list_elem_of_fmap_2.
  - cbn [drop]. rewrite filter_cons, decide_False; [exact (IH i Hs Hi)|]. specialize (Hf (sr_trid r)). assert (sr_trid x < sr_trid r); [|lia].
    apply Hf, list_elem_of_fmap_2. exact (list_elem_of_lookup_2 l i r Hi).
Qed.

Lemma move_next_ok d l i : ds_at d l i -> (i < length l)%nat ->
  exists d', moveToNextRow d = (Ok (bool_decide (S i < length l)%nat), d') /\ ds_at d' l (S i) /\ same_shape d d'.
Proof.
  intros [Hd Hon] Hi. destruct (lookup_lt_is_Some_2 _ _ Hi) as [r Hr]. rewrite Hr in Hon.
  destruct (moveToNextRow_any d l (sr_trid r) Hd (cached_sized _ _ (on_cached _ _ Hon)) (on_key _ _ Hon)) as (d' & Hsh & Hd' & Hm);
    [exact (Forall_lookup_1 _ _ _ _ (st_keys _ _ _ (proj2 Hd)) Hr)|]. exists d'.
  rewrite (rows_after_at l i r (st_sorted _ _ _ (proj2 Hd)) Hr), head_lookup, lookup_drop, Nat.add_0_r in Hm.
  destruct (l !! S i) as [r'|] eqn:Hr'; destruct Hm as [-> Hm].
  - rewrite bool_decide_eq_true_2 by (by apply lookup_lt_is_Some; eexists). split; [done|]. split; [|done]. split; [done|]. by rewrite Hr'.
  - rewrite bool_decide_eq_false_2 by (by apply lookup_ge_None in Hr'; lia). split; [done|]. split; [|done]. split; [done|]. by rewrite Hr'.
Qed.
End DataSetSpec.
