(* ===== verification/MemScan.v ===== *)
(** * Tables of data sets in memory

    A table that keeps its rows in a list.  It shows that the laws of
    [ScanTableLaws] can hold, and runs the examples of the requests. *)

From stdpp Require Import base list gmap sorting.
Set Warnings "-clear-no-such-hyp,-notation-incompatible-prefix,-notation-for-abbreviation".
From Stdlib Require Import ZArith Lia.
From S2P Require Import Prelude StateM Bytes ColumnRecords CNum VariantType Variant ColumnType Expr ExprEval Column MasterColumn Table SystemTables MemTable DataSet DataSetSpec.

Local Open Scope Z_scope.

Record mem_scan : Type := { ms_info : table_info; ms_rows : list (Z * list Variant); ms_last : Z }.
Definition ms_set (rows : list (Z * list Variant)) (t : mem_scan) : mem_scan := {| ms_info := ms_info t; ms_rows := rows; ms_last := ms_last t |}.

Definition mem_width (t : mem_scan) : nat := pred (length (tbl_columns (ms_info t))).
Definition mem_mcr (trid : Z) (n : nat) : MasterColumnRecord :=
  {| m_tableRowId := trid; m_transactionId := 0; m_createTimestamp := 0; m_updateTimestamp := 0; mcr_version := 0; m_operationId := 0;
     m_operationType := 0; m_userId := 0; m_columnSetId := 0; m_privateDataExpirationTimestamp := 0;
     m_columnRecords := (fun i => {| m_address := {| m_blockId := trid; m_offset := Z.of_nat i |}; cdr_createTimestamp := 0; cdr_updateTimestamp := 0 |}) <$> seq 0 n;
     m_previousVersionAddress := kNullValueAddress |}.
Definition mem_row (x : Z * list Variant) : stored_row :=
  {| sr_trid := fst x; sr_address := {| m_blockId := fst x; m_offset := 0 |}; sr_mcr := mem_mcr (fst x) (length (snd x)); sr_values := snd x |}.

(** The number of values, and no null value where there cannot be one. *)
Fixpoint fits (columns : list column_info) (values : list Variant) : bool :=
  match columns, values with
  | [], [] => true
  | c :: columns', v :: values' => negb (isNull v && col_notNull c) && fits columns' values'
  | _, _ => false
  end.
Definition row_fits (info : table_info) (values : list Variant) : bool :=
  match tbl_columns info with [] => false | _ :: columns => fits columns values end.

Definition find_row (k : Z) (t : mem_scan) : option (list Variant) := snd <$> List.find (fun x => fst x =? k) (ms_rows t).

Definition mem_insert (values : list Variant) (t : mem_scan) : outcome TableError unit * mem_scan :=
  if row_fits (ms_info t) values
  then (Ok tt, {| ms_info := ms_info t; ms_rows := ms_rows t ++ [(ms_last t + 1, values)]; ms_last := ms_last t + 1 |})
  else (Throw (ColumnFailed CannotInsertNullValue), t).

Fixpoint positions_of (info : table_info) (names : list (list Z)) : option (list nat) :=
  match names with
  | [] => Some []
  | name :: names' =>
      match findColumnPosition info name, positions_of info names' with
      | Some (S p), Some l => Some (S p :: l)
      | _, _ => None
      end
  end.

#[export] Instance mem_ScanTable : ScanTable mem_scan := {
  st_getMinKey t := (Ok (fst <$> head (ms_rows t)), t);
  st_getMaxKey t := (Ok (fst <$> last (ms_rows t)), t);
  st_findNextKey k t := (Ok (fst <$> head (filter (fun x => k < fst x) (ms_rows t))), t);
  st_find k t := (Ok ((fun _ => {| m_blockId := k; m_offset := 0 |}) <$> find_row k t), t);
  st_readMasterColumnRecord a t :=
    (match find_row (m_blockId a) t with Some values => Ok (mem_mcr (m_blockId a) (length values)) | None => Throw InvalidMcrSerialization end, t);
  st_readRecord pos a t :=
    (match values ← find_row (m_blockId a) t; values !! Z.to_nat (m_offset a) with Some v => Ok v | None => Throw (ColumnFailed (InvalidDataBlockPosition (m_blockId a) (m_offset a))) end, t);
  st_insertRow values tp t :=
    if (mem_width t <? length values)%nat then (Throw (TooManyColumnsToInsert (len values) (Z.of_nat (mem_width t))), t)
    else mem_insert (values ++ replicate (mem_width t - length values) VNull) t;
  st_insertRow_named names values tp t :=
    match positions_of (ms_info t) names with
    | Some positions =>
        if bool_decide (length names = length values /\ NoDup positions)
        then mem_insert (update_values (replicate (mem_width t) VNull) positions values) t
        else (Throw (InvalidColumnNames []), t)
    | None => (Throw (InvalidColumnNames []), t)
    end;
  st_updateRow mcr a positions values tp t :=
    match find_row (m_tableRowId mcr) t with
    | None => (Throw VectorOutOfRange, t)
    | Some row =>
        let row' := update_values row positions values in
        if row_fits (ms_info t) row'
        then (Ok tt, ms_set ((fun x => if fst x =? m_tableRowId mcr then (fst x, row') else x) <$> ms_rows t) t)
        else (Throw (ColumnFailed CannotInsertNullValue), t)
    end;
  st_deleteRow mcr a tp t := (Ok tt, ms_set (filter (fun x => fst x <> m_tableRowId mcr) (ms_rows t)) t)
}.

(** ** Its laws *)

Record mem_ok (info : table_info) (t : mem_scan) (l : list stored_row) : Prop := {
  mo_info : ms_info t = info;
  mo_rows : l = mem_row <$> ms_rows t;
  mo_sorted : StronglySorted Z.lt (fst <$> ms_rows t);
  mo_keys : Forall (fun x => 0 < fst x <= ms_last t /\ row_fits info (snd x) = true) (ms_rows t);
  mo_last : 0 <= ms_last t
}.

Definition mem_check (info : table_info) (t : mem_scan) : bool :=
  bool_decide (StronglySorted Z.lt (fst <$> ms_rows t)) && forallb (fun x => (0 <? fst x) && (fst x <=? ms_last t) && row_fits info (snd x)) (ms_rows t) && (0 <=? ms_last t).

Lemma mem_ok_dec t : mem_check (ms_info t) t = true -> mem_ok (ms_info t) t (mem_row <$> ms_rows t).
Proof.
  intros [[Hs%bool_decide_eq_true H]%andb_prop Hl%Z.leb_le]%andb_prop. split; [done..| |done]. apply Forall_forall. intros x Hx. rewrite forallb_forall in H. apply list_elem_of_In in Hx.
  specialize (H x Hx). apply andb_prop in H as [[H1%Z.ltb_lt H2%Z.leb_le]%andb_prop H3]. done.
Qed.

Lemma fits_spec columns values : fits columns values = true ->
  length columns = length values /\ forall i c v, columns !! i = Some c -> values !! i = Some v -> isNull v && col_notNull c = false.
Proof.
  revert values. induction columns as [|c columns IH]; intros [|v values]; try done. intros [H1%negb_true_iff H2]%andb_prop. destruct (IH _ H2) as [Hl Hn]. split; [cbn; lia|].
  intros [|i] c' v'; [by intros [= <-] [= <-]|]. apply Hn.
Qed.

Lemma mem_row_ok info x : 0 < fst x -> row_fits info (snd x) = true -> row_ok info (mem_row x).
Proof.
  intros Hpos Hf. unfold row_fits in Hf. destruct (tbl_columns info) as [|c columns] eqn:Hc; [done|]. destruct (fits_spec _ _ Hf) as [Hl Hn]. split; cbn; [done|done| | |].
  - by rewrite length_fmap, length_seq.
  - rewrite Hc. cbn. by rewrite Hl.
  - intros i c' v. rewrite Hc. apply Hn.
Qed.

Lemma find_row_in t l r info : mem_ok info t l -> r ∈ l -> find_row (sr_trid r) t = Some (sr_values r) /\ sr_address r = {| m_blockId := sr_trid r; m_offset := 0 |} /\ sr_mcr r = mem_mcr (sr_trid r) (length (sr_values r)).
Proof.
  intros [_ -> Hs _ _] Hr. apply list_elem_of_fmap in Hr as (x & -> & Hx). split; [|done]. unfold find_row. cbn. induction (ms_rows t) as [|y rows IH]; [set_solver|]. cbn in Hs |- *.
  apply StronglySorted_inv in Hs as [Hs Hf]. apply elem_of_cons in Hx as [->|Hx]; [by rewrite Z.eqb_refl|]. rewrite Forall_forall in Hf.
  assert (fst y < fst x) by (apply Hf; by apply list_elem_of_fmap_2). rewrite (proj2 (Z.eqb_neq _ _)) by lia. by apply IH.
Qed.

Lemma fmap_trid (rows : list (Z * list Variant)) : sr_trid <$> (mem_row <$> rows) = fst <$> rows.
Proof. rewrite <- list_fmap_compose. by apply list_fmap_ext. Qed.

Lemma filter_rows (P : Z -> Prop) `{forall k, Decision (P k)} (rows : list (Z * list Variant)) :
  filter (fun r => P (sr_trid r)) (mem_row <$> rows) = mem_row <$> filter (fun x => P (fst x)) rows.
Proof. induction rows as [|x rows IH]; [done|]. rewrite fmap_cons, !filter_cons. change (sr_trid (mem_row x)) with (fst x). destruct (decide (P (fst x))); rewrite ?fmap_cons; by rewrite IH. Qed.

Lemma mem_insert_ok info t l values : mem_ok info t l -> 
  match mem_insert values t with
  | (Ok _, t') => mem_ok info t' (l ++ [mem_row (ms_last t + 1, values)])
  | (Throw _, t') => mem_ok info t' l
  | (Undef _, _) => False
  end.
Proof.
  intros Hm. pose proof Hm as [Hi -> Hs Hk Hl]. unfold mem_insert. destruct (row_fits (ms_info t) values) eqn:Hf; [|done]. split; cbn; [done|by rewrite fmap_app| | |lia].
  - rewrite fmap_app. apply StronglySorted_app_2; [|done|repeat constructor]. intros x y Hx%list_elem_of_fmap_1 Hy. destruct Hx as (z & -> & Hz). rewrite Forall_forall in Hk.
    specialize (Hk z Hz). cbn in Hy. assert (y = ms_last t + 1) as -> by set_solver. lia.
  - apply Forall_app. split; [|repeat constructor; cbn; [lia|lia|by rewrite <- Hi]]. eapply Forall_impl; [exact Hk|]. cbn. intros x [? ?]. split; [lia|done].
Qed.

Lemma update_values_spec row positions values : NoDup positions -> Forall (fun p => (1 <= p <= length row)%nat) positions -> length positions = length values ->
  forall i p v, positions !! i = Some (S p) -> values !! i = Some v -> update_values row positions values !! p = Some v.
Proof.
  unfold update_values. intros Hn Hp Hl i p v Hi Hv. revert row values Hl i Hi Hv Hp. induction positions as [|q positions IH]; intros row [|w values] Hl i Hi Hv Hp; try done.
  apply NoDup_cons in Hn as [Hq Hn]. apply Forall_cons in Hp as [Hq1 Hp]. cbn [zip zip_with foldl]. destruct i as [|i].
  - injection Hi as ->. injection Hv as ->. cbn [pred]. assert (Hin : <[p := v]> row !! p = Some v) by (apply list_lookup_insert_eq; lia).
    revert Hin. generalize (<[p := v]> row). clear -Hq Hp. revert values. induction positions as [|q positions IH]; intros [|w values] row' Hin; try done. cbn.
    apply Forall_cons in Hp as [Hq1 Hp]. apply IH; [set_solver|done|]. rewrite list_lookup_insert_ne; [done|]. destruct q as [|q]; [lia|]. cbn. intros ->. set_solver.
  - cbn in Hl. eapply IH; [done|lia|exact Hi|exact Hv|]. by rewrite length_insert.
Qed.

Lemma positions_of_spec info names positions : positions_of info names = Some positions ->
  Forall2 (fun name p => findColumnPosition info name = Some p /\ (1 <= p)%nat) names positions.
Proof.
  revert positions. induction names as [|name names IH]; intros positions; cbn; [by intros [= <-]|].
  destruct (findColumnPosition info name) as [[|p]|] eqn:Hp; [done| |done]. destruct (positions_of info names) as [l|]; [|done]. intros [= <-]. constructor; [split; [done|lia]|by apply IH].
Qed.

#[export] Instance mem_ScanTableLaws : ScanTableLaws mem_scan.
Proof.
  refine {| st_ok := mem_ok; st_key _ := True |}.
  - intros info t l [_ -> Hs _ _]. by rewrite fmap_trid.
  - intros info t l [_ -> _ Hk _]. rewrite Forall_fmap. eapply Forall_impl; [exact Hk|]. intros x [? ?]. apply mem_row_ok; [lia|done].
  - intros info t l _. by apply Forall_forall.
  - intros info t l Hm. exists t. split; [|done]. destruct Hm as [_ -> _ _ _]. cbn. by destruct (ms_rows t).
  - intros info t l Hm. exists t. split; [|done]. destruct Hm as [_ -> _ _ _]. cbn. rewrite fmap_last. by destruct (last (ms_rows t)).
  - intros info t l k Hm _. exists t. split; [|done]. destruct Hm as [_ -> _ _ _]. cbn. unfold rows_after. rewrite (filter_rows (fun i => k < i)). by destruct (filter _ _).
  - intros info t l r Hm Hr. exists t. split; [|done]. destruct (find_row_in t l r info Hm Hr) as (Hf & -> & _). cbn. by rewrite Hf.
  - intros info t l r Hm Hr. exists t. split; [|done]. destruct (find_row_in t l r info Hm Hr) as (Hf & -> & ->). cbn. by rewrite Hf.
  - intros info t l r i record v Hm Hr Hrec Hv. exists t. split; [|done]. destruct (find_row_in t l r info Hm Hr) as (Hf & _ & Hmcr). rewrite Hmcr in Hrec. cbn in Hrec.
    rewrite list_lookup_fmap in Hrec. apply fmap_Some in Hrec as (j & Hj & ->). apply lookup_seq in Hj as [-> _]. cbn. rewrite Hf. cbn. by rewrite Nat2Z.id, Hv.
Defined.

#[export] Instance mem_ScanTableInsertLaws : ScanTableInsertLaws mem_scan.
Proof.
  split.
  - intros info t l values tp Hm. cbn [st_insertRow mem_ScanTable]. destruct (Nat.ltb_spec (mem_width t) (length values)); [right; by eexists _, t|].
    pose proof (mem_insert_ok info t l (values ++ replicate (mem_width t - length values) VNull) Hm) as Hi.
    destruct (mem_insert _ t) as [[[]|e|u] t']; [left|right; by eexists _, t'|done]. eexists _, t'. split; [done|]. split; [exact Hi|]. cbn. rewrite take_app_length. apply stored_refl_all.
  - intros info t l names values tp Hm. cbn. destruct (positions_of (ms_info t) names) as [positions|] eqn:Hp; [|right; by eexists _, t]. case_bool_decide as Hb; [|right; by eexists _, t].
    destruct Hb as [Hlen Hnd]. pose proof (mem_insert_ok info t l (update_values (replicate (mem_width t) VNull) positions values) Hm) as Hi.
    destruct (mem_insert _ t) as [[[]|e|u] t']; [left|right; by eexists _, t'|done]. eexists _, t'. split; [done|]. split; [exact Hi|]. rewrite (mo_info _ _ _ Hm) in Hp.
    apply positions_of_spec in Hp. pose proof (Forall2_length _ _ _ Hp) as Hlp. apply Forall2_same_length_lookup_2; [done|]. intros i name v Hname Hv.
    destruct (Forall2_lookup_l _ _ _ _ _ Hp Hname) as (p & Hpi & Hpos & Hp1). destruct p as [|p]; [lia|]. exists p, v. split; [done|]. split; [|apply stored_refl]. cbn.
    apply (update_values_spec _ positions values Hnd) with i; [|congruence|done|done]. rewrite length_replicate. apply Forall_lookup. intros j q Hq.
    destruct (Forall2_lookup_r _ _ _ _ _ Hp Hq) as (name' & _ & Hq' & Hq1). apply find_position_lt in Hq'. unfold mem_width. rewrite (mo_info _ _ _ Hm). lia.
Defined.
