(* ===== verification/TableCursor.v ===== *)
(** * The tables of the program under a data set

    The interface that a data set uses, [ScanTable], for the tables of [Table.v]:
    the searches of the main index, the reading of master column records and of
    columns, and the changes of rows.  Tables of fixed-size columns keep the laws
    of a table that is read and changed ([ScanTableLaws], [ScanTableChangeLaws]),
    so that what is proved of requests holds for them.  The theorem on scans says
    which rows a data set goes through after any operations on a new table. *)

From stdpp Require Import base list gmap sorting.
Set Warnings "-clear-no-such-hyp,-notation-incompatible-prefix,-notation-for-abbreviation".
From Stdlib Require Import ZArith Lia.
From S2P Require Import Prelude StateM Bytes PlainBinary ColumnRecords CNum VariantType Variant ColumnType ExprEval ExprTyping IndexKeys LruCache LinearIndex LinearIndexOps LinearIndexNav LinearIndexMap LinearIndexSpec.
From S2P Require Import Column ColumnData ColumnBlocks ColumnSpec MasterColumn Table ColumnLaws MasterSpec TableSpec TableRefine TableUpdate TableCorrect SystemTables DataSet DataSetSpec.

Local Open Scope Z_scope.

(** ** Searches in the main index

    The operations of the class [Index] that a data set calls. *)
Class MainIndexNav (I : Type) : Type := {
  ix_getMinKey : SM I UliError (option (list Z));
  ix_getMaxKey : SM I UliError (option (list Z));
  ix_findNextKey : list Z -> SM I UliError (option (list Z))
}.

(** What they promise; the search for the next key is promised for the keys of
    [ix_inner]. *)
Class MainIndexNavLaws (I : Type) {MI : MainIndex I} {ML : MainIndexLaws I} {MN : MainIndexNav I} : Type := {
  ix_inner : Z -> Prop;
  ix_range : forall s m k, ix_ok s m -> is_Some (m !! k) -> u_ok 64 k /\ ix_key k;
  ix_min_law : forall s m, ix_ok s m -> exists s', ix_getMinKey s = (Ok (pbeEncodeUInt64 <$> above m 0), s') /\ ix_ok s' m;
  ix_max_law : forall s m, ix_ok s m -> exists s', ix_getMaxKey s = (Ok (pbeEncodeUInt64 <$> below m (2 ^ 64)), s') /\ ix_ok s' m;
  ix_next_law : forall s m k, ix_ok s m -> ix_key k -> ix_inner k -> exists s', ix_findNextKey (pbeEncodeUInt64 k) s = (Ok (pbeEncodeUInt64 <$> above m (k + 1)), s') /\ ix_ok s' m
}.

(** The linear index keeps them for keys that are not the last ones of their
    file. *)
Section Index.
Context {D : Type} `{FC : FileCache D} {FL : FileCacheLaws D} (U : uli_params).

#[export] Instance uli_index_nav : MainIndexNav (uli_state D) := {
  ix_getMinKey := getMinKey U;
  ix_getMaxKey := getMaxKey U;
  ix_findNextKey := findNextKey U
}.

Context (Hp : params_ok U) (Ht : m_traits U = UInt64IndexKeyTraits) (Hv : m_valueSize U = 12) (Hasc : m_sortDescending U = false).

Lemma encode_u64 k : pbeEncodeUInt64 k = encodeKey (m_traits U) k.
Proof. by rewrite Ht. Qed.

Lemma encode_u64_option (o : option Z) : encodeKey (m_traits U) <$> o = pbeEncodeUInt64 <$> o.
Proof. destruct o as [k|]; [|done]. change (Some (encodeKey (m_traits U) k) = Some (pbeEncodeUInt64 k)). by rewrite encode_u64. Qed.

Lemma below_all m hi hi' : (forall k, has m k -> k < hi /\ k < hi') -> below m hi = below m hi'.
Proof. intros H. unfold below. rewrite !filter_keep; [done| |]; intros k Hk%map_keys_spec; apply (H k Hk). Qed.

Lemma keys_small (s : uli_state D) m k : uli_ok U s m -> has m k -> 0 <= k <= max_key U /\ max_key U < 2 ^ 64.
Proof. intros [[Hs _] _] Hk. pose proof (max_key_small U Hp) as Hmk. split; [by apply (key_range U Hp s m k Hs)|lia]. Qed.

#[export] Instance uli_index_nav_laws : @MainIndexNavLaws (uli_state D) (uli_main_index U) (uli_main_index_laws U Hp Ht Hv) uli_index_nav.
Proof.
  refine {| ix_inner := fun k => k mod m_numberOfRecordsPerFile U <> m_numberOfRecordsPerFile U - 1 |}.
  - intros s m k Hs Hk. pose proof (keys_small s m k Hs Hk). split; [unfold u_ok; lia|]. split; [lia|]. destruct Hs as [[Hst _] _]. destruct (has_file U Hp _ _ _ (proj2 Hst) Hk) as [_ [c Hc]].
    apply (f_id _ _ _ (fs_files _ _ _ (proj2 Hst) _ _ Hc)).
  - intros s m Hok. pose proof Hok as [Hs Hr]. exists s. split; [|done]. cbn. by rewrite (getMinKey_ok U Hp s m Hs), encode_u64_option.
  - intros s m Hok. pose proof Hok as [Hs Hr]. exists s. split; [|done]. cbn. rewrite (getMaxKey_ok U Hp s m Hs), encode_u64_option. do 3 f_equal.
    apply below_all. intros k Hk. pose proof (keys_small s m k Hok Hk). lia.
  - intros s m k Hok Hk Hin. pose proof Hok as [[Hs Hkeys] Hr]. destruct (uli_key_ok U Hp Ht k Hk) as [Hval Hd]. rewrite <- encode_u64_option. cbn [ix_findNextKey uli_index_nav]. unfold findNextKey. rewrite Hasc.
    apply (uli_ends U (findKeyAfter U (pbeEncodeUInt64 k)) s m m _ (m_fileIds s) Hok). pose proof (encodeKey_ok (m_traits U) (size_ok U Hp)) as Hek. destruct (possible_keys U Hp) as [Hmx Hmn].
    eapply wp_mono; [apply (findKeyAfter_ok U Hp s m (pbeEncodeUInt64 k)); [done|apply Hval| |apply Hval| |rewrite Hd; by left]| |done].
    + destruct Hkeys as [(_ & _ & ->)|(lo & hi & _ & _ & -> & _)]; rewrite ?Hmx, ?Hmn; apply Hek.
    + intros Heq. destruct Hkeys as [(-> & _)|(lo & hi & Hb & _ & E1 & _)]; [intros k' [? Hk']; by rewrite lookup_empty in Hk'|].
      destruct (bounds_range U Hp s m lo hi Hs Hb) as (_ & Hhi & _). rewrite Heq, E1, (decode_encoded U Hp) by done. intros k' Hk'. pose proof (bounds_elim U Hp s m lo hi Hs Hb k' Hk'). lia.
    + rewrite Hd. intros r s' Hf. apply (found_ends U s s' m _ r _ (conj Hs Hkeys) Hf). apply above_spec.
Defined.
End Index.

(** ** The table of a data set *)

(** What the operations of a table use of their surroundings: the hash of blocks,
    the clock and the bytes of new memory. *)
Class TableEnv : Type := { te_sha256 : list Z -> list Z; te_time : nat -> Z; te_uninitialized : Z }.

Record scan_table {C I : Type} : Type := { sct_params : table_params; sct_state : table_state C I }.
Arguments scan_table : clear implicits.

Section Scan.
Context {C I : Type} `{BC : BlockCache C} {MI : MainIndex I} {MN : MainIndexNav I} {X : Externals} {TE : TableEnv}.
Notation state := (table_state C I).
Notation table := (scan_table C I).
Notation uninitialized := te_uninitialized.

Definition with_state (t : table) (s : state) : table := {| sct_params := sct_params t; sct_state := s |}.
Definition on_state {A} (c : table_params -> TM (C := C) (I := I) A) : SM table TableError A := fun t =>
  let '(o, s') := c (sct_params t) (sct_state t) in (o, with_state t s').

(** The number in a key of the main index. *)
Definition key_number (key : option (list Z)) : outcome TableError (option Z) :=
  match key with None => Ok None | Some k => trid <- pbeDecodeUInt64 k ;; Ok (Some trid) end.
Definition search (c : SM I UliError (option (list Z))) : SM table TableError (option Z) :=
  on_state (fun _ => key <-- master (main_index c) ;; mlift (key_number key)).

(** The value of a column that is read; a stream over a column has none here. *)
Definition plain_value (v : ReadValue) : outcome TableError Variant := match v with RValue v => Ok v | _ => Undef Uninitialized end.

#[export] Instance table_ScanTable : ScanTable table := {
  st_getMinKey := search ix_getMinKey;
  st_getMaxKey := search ix_getMaxKey;
  st_findNextKey k := search (ix_findNextKey (pbeEncodeUInt64 k));
  st_find k := on_state (fun _ =>
    indexValue <-- master (main_index (ix_find (pbeEncodeUInt64 k) 1)) ;;
    match indexValue with
    | None => mret None
    | Some data => mcrAddr <-- mlift (address_pbeDeserialize data 12) ;; mret (Some (default kNullValueAddress mcrAddr))
    end);
  st_readMasterColumnRecord a := on_state (fun T => master (master_column (ColumnData.readMasterColumnRecord (t_master T) uninitialized a no_mcr)));
  st_readRecord pos a := on_state (fun T => match pos with
    | O => mlift (Undef OutOfBounds)
    | S i => v <-- column T i (column_read uninitialized a) ;; mlift (plain_value v)
    end);
  st_insertRow values tp := on_state (fun T => insertRow T te_sha256 te_time uninitialized values tp 0 ;;' mret tt);
  st_insertRow_named names values tp := on_state (fun T => insertRow_named T te_sha256 te_time uninitialized names values tp 0 ;;' mret tt);
  st_updateRow mcr a positions values tp := on_state (fun T => updateRow_mcr T te_sha256 te_time uninitialized mcr a positions values tp ;;' mret tt);
  st_deleteRow mcr a tp := on_state (fun T => deleteRow_mcr T te_sha256 te_time uninitialized mcr a tp true ;;' mret tt)
}.

Context {BL : BlockCacheLaws C} {ML : MainIndexLaws I} {NL : MainIndexNavLaws I}.

(** ** What is in the table *)

(** A value at this place can be read: it does not end at the end of its block. *)
Definition readable (tc : table_column) (a : ColumnDataAddress) : bool :=
  isNullValueAddress a || (m_offset a + min_required (tc_dataType tc) <? m_dataBlockDataAreaSize (tc_params tc)).

(** The next [n] values of a column can be read. *)
Fixpoint roomy (tc : table_column) (l : layout) (n : nat) : bool :=
  match n with
  | O => true
  | S n' => let a := next_place tc l in readable tc a && roomy tc (layout_written tc l a) n'
  end.

Definition info_of (tc : table_column) : column_info := {| col_name := tc_name tc; col_dataType := tc_dataType tc; col_notNull := tc_notNull tc |}.
Definition info_ok (info : table_info) (T : table_params) : Prop := exists c0, tbl_columns info = c0 :: (info_of <$> t_columns T).

(** A row of the list is one of the table, and can be read. *)
Record row_held (T : table_params) (t : atable) (dss : list (list (list Z))) (dm : list (list Z)) (idx : gmap Z (list Z)) (r : stored_row) : Prop := {
  rh_row : exists row, at_rows t !! sr_trid r = Some row /\ TableRefine.row_ok T dss (sr_mcr r) row /\ sr_values r = row.*2 /\
    Forall2 (fun tc p => readable tc (fst p) = true /\ isNull (snd p) && tc_notNull tc = false) (t_columns T) row;
  rh_index : idx !! sr_trid r = Some (place_value (sr_address r));
  rh_mcr : mcr_at dm (sr_address r) (sr_mcr r);
  rh_trid : m_tableRowId (sr_mcr r) = sr_trid r;
  rh_positive : 0 < sr_trid r;
  rh_key : ix_key (sr_trid r) /\ ix_inner (sr_trid r)
}.

(** The table holds the rows [l], and can be changed [n] times. *)
Record scan_ok (n : nat) (info : table_info) (t : table) (l : list stored_row) : Prop := {
  so_table : table_ok (sct_params t) te_sha256 uninitialized;
  so_info : info_ok info (sct_params t);
  so_sorted : StronglySorted Z.lt (sr_trid <$> l);
  so_rep : exists a dss dm idx, table_rep (sct_params t) uninitialized (sct_state t) a dss dm idx n /\
    (forall k, is_Some (at_rows a !! k) -> k ∈ sr_trid <$> l) /\ Forall (row_held (sct_params t) a dss dm idx) l /\
    Forall2 (fun tc ly => roomy tc ly n = true) (t_columns (sct_params t)) (at_layouts a)
}.

(** ** Reading *)

Lemma roomy_less tc n : forall l, roomy tc l (S n) = true -> roomy tc l n = true.
Proof. induction n as [|n IH]; intros l H; [done|]. cbn [roomy] in *. apply andb_prop in H as [H1 H2]. rewrite H1. by apply IH. Qed.

Lemma scan_less n info t l : scan_ok (S n) info t l -> scan_ok n info t l.
Proof.
  intros [H1 H2 H3 (a & dss & dm & idx & [R1 R2 R3 R4 R5 R6] & Hk & Hr & Hroom)]. split; [done..|]. exists a, dss, dm, idx. split; [|split; [done|split; [done|]]].
  - split; try done; [eapply cols_rep_le; [|exact R1]; cbv beta; lia|eapply master_rep_le; [|exact R2]; lia].
  - eapply Forall2_impl; [exact Hroom|]. intros tc ly. apply roomy_less.
Qed.

(** The same rows in another state of the table. *)
Lemma scan_same n info t l a dss dm idx s' : scan_ok n info t l ->
  (forall k, is_Some (at_rows a !! k) -> k ∈ sr_trid <$> l) -> Forall (row_held (sct_params t) a dss dm idx) l ->
  Forall2 (fun tc ly => roomy tc ly n = true) (t_columns (sct_params t)) (at_layouts a) ->
  table_rep (sct_params t) uninitialized s' a dss dm idx n -> scan_ok n info (with_state t s') l.
Proof. intros [H1 H2 H3 _] Hk Hr Hroom Hrep. split; [done..|]. by exists a, dss, dm, idx. Qed.

Lemma held_keys T a dss dm idx l s n : table_rep T uninitialized s a dss dm idx n -> (forall k, is_Some (at_rows a !! k) -> k ∈ sr_trid <$> l) -> Forall (row_held T a dss dm idx) l ->
  forall k, has idx k <-> exists r, r ∈ l /\ sr_trid r = k.
Proof.
  intros Hrep Hk Hr k. rewrite Forall_forall in Hr. split.
  - intros Hx. destruct (at_rows a !! k) as [row|] eqn:E.
    + destruct (list_elem_of_fmap_1 _ _ _ (Hk k ltac:(rewrite E; eauto))) as (r & -> & Hin). eauto.
    + unfold has in Hx. rewrite (tr_none _ _ _ _ _ _ _ _ Hrep k E) in Hx. by destruct Hx.
  - intros (r & Hin & <-). unfold has. rewrite (rh_index _ _ _ _ _ _ (Hr r Hin)). eauto.
Qed.

Lemma sorted_filter (P : stored_row -> Prop) `{!forall x, Decision (P x)} l : StronglySorted Z.lt (sr_trid <$> l) -> StronglySorted Z.lt (sr_trid <$> filter P l).
Proof.
  induction l as [|y l IH]; [done|]. rewrite fmap_cons. intros [Hs Hy]%StronglySorted_inv. rewrite filter_cons. destruct (decide _); [|by apply IH]. rewrite fmap_cons. constructor; [by apply IH|].
  rewrite Forall_fmap in *. rewrite Forall_forall in *. intros z [_ Hz]%list_elem_of_filter. by apply Hy.
Qed.

Lemma sorted_above l idx lo : StronglySorted Z.lt (sr_trid <$> l) -> (forall k, has idx k <-> exists r, r ∈ l /\ sr_trid r = k) -> above idx lo = sr_trid <$> head (filter (fun r => lo <= sr_trid r) l).
Proof.
  intros Hs Hk. symmetry. apply above_spec. destruct (filter (fun r => lo <= sr_trid r) l) as [|r l'] eqn:Hf; cbn.
  - intros k (r & Hr & <-)%Hk. destruct (Z.lt_ge_cases (sr_trid r) lo); [done|]. assert (Hin : r ∈ filter (fun r => lo <= sr_trid r) l) by (apply list_elem_of_filter; done). rewrite Hf in Hin. set_solver.
  - assert (Hr : r ∈ filter (fun r => lo <= sr_trid r) l) by (rewrite Hf; left). apply list_elem_of_filter in Hr as [Hlo Hr]. split; [apply Hk; eauto|]. split; [done|].
    intros k (x & Hx & <-)%Hk Hle. assert (Hin : x ∈ filter (fun r => lo <= sr_trid r) l) by (apply list_elem_of_filter; done). rewrite Hf in Hin.
    apply (sorted_head r l'); [|done]. rewrite <- Hf. by apply sorted_filter.
Qed.

Lemma search_ok (c : SM I UliError (option (list Z))) n info t l o : scan_ok n info t l ->
  (forall s m, ix_ok s m -> (forall k, has m k <-> exists r, r ∈ l /\ sr_trid r = k) -> exists s', c s = (Ok (pbeEncodeUInt64 <$> o), s') /\ ix_ok s' m) ->
  (forall k, o = Some k -> exists r, r ∈ l /\ sr_trid r = k) ->
  exists t', search c t = (Ok o, t') /\ scan_ok n info t' l.
Proof.
  intros Hok Hc Ho. pose proof Hok as [H1 H2 H3 (a & dss & dm & idx & Hrep & Hk & Hr & Hroom)]. pose proof (held_keys _ _ _ _ _ _ _ _ Hrep Hk Hr) as Hkeys.
  pose proof Hrep as [R1 R2 R3 R4 R5 R6]. destruct R2 as (M1 & M2 & M3 & M4). destruct (Hc _ _ M2 Hkeys) as (i' & Ei & Hi').
  set (m' := {| mc_column := mc_column (m_masterColumn (sct_state t)); m_mainIndex := i'; m_tridCounters := m_tridCounters (m_masterColumn (sct_state t)) |}).
  exists (with_state t (with_master m' (sct_state t))). split.
  - unfold search, on_state. assert (E : main_index (C := C) c (m_masterColumn (sct_state t)) = (Ok (pbeEncodeUInt64 <$> o), m')) by (unfold main_index, embed; by rewrite Ei).
    rewrite (mbind_ok _ _ _ _ _ (master_run _ (sct_state t) _ _ E)). unfold mlift. destruct o as [k|]; [|done]. cbn [fmap option_fmap option_map key_number].
    destruct (Ho k eq_refl) as (r & Hin & <-). rewrite (proj1 (proj2 (proj2 (@pbe_decode TableError (sr_trid r))))); [done|].
    refine (proj1 (ix_range _ _ _ M2 _)). apply Hkeys. eauto.
  - by apply (scan_same n info t l a dss dm idx).
Qed.

Lemma sorted_last l idx : StronglySorted Z.lt (sr_trid <$> l) -> (forall k, has idx k <-> exists r, r ∈ l /\ sr_trid r = k) -> (forall k, has idx k -> u_ok 64 k) -> below idx (2 ^ 64) = sr_trid <$> last l.
Proof.
  intros Hs Hk Hu. symmetry. apply below_spec. destruct (last l) as [r|] eqn:Hl; cbn.
  - apply last_Some in Hl as [l' ->]. assert (Hr : has idx (sr_trid r)) by (apply Hk; exists r; set_solver). split; [done|]. split; [apply (Hu _ Hr)|].
    intros k (x & [Hx|Hx%list_elem_of_singleton]%elem_of_app & <-)%Hk _; [|subst; lia]. rewrite fmap_app in Hs. apply StronglySorted_app_1_elem_of with (x1 := sr_trid x) (x2 := sr_trid r) in Hs; [lia|by apply list_elem_of_fmap_2|]. cbn. set_solver.
  - apply last_None in Hl as ->. intros k (x & Hx & _)%Hk. set_solver.
Qed.

Lemma rows_after_from k l : rows_after k l = filter (fun r => k + 1 <= sr_trid r) l.
Proof. unfold rows_after. apply list_filter_iff. intros r. lia. Qed.

(** The row of the abstract table. *)
Lemma held_in n info t l r : scan_ok n info t l -> r ∈ l -> exists a dss dm idx row, table_rep (sct_params t) uninitialized (sct_state t) a dss dm idx n /\
  (forall k, is_Some (at_rows a !! k) -> k ∈ sr_trid <$> l) /\ Forall (row_held (sct_params t) a dss dm idx) l /\
  Forall2 (fun tc ly => roomy tc ly n = true) (t_columns (sct_params t)) (at_layouts a) /\ row_held (sct_params t) a dss dm idx r /\
  at_rows a !! sr_trid r = Some row /\ TableRefine.row_ok (sct_params t) dss (sr_mcr r) row /\ sr_values r = row.*2 /\
  Forall2 (fun tc p => readable tc (fst p) = true /\ isNull (snd p) && tc_notNull tc = false) (t_columns (sct_params t)) row.
Proof.
  intros [_ _ _ (a & dss & dm & idx & Hrep & Hk & Hr & Hroom)] Hin. pose proof Hr as Hr'. rewrite Forall_forall in Hr'. pose proof (Hr' r Hin) as Hh. destruct (rh_row _ _ _ _ _ _ Hh) as (row & ?).
  by exists a, dss, dm, idx, row.
Qed.

Lemma held_address n info t l r : scan_ok n info t l -> r ∈ l -> address_ok (sr_address r) /\ mcr_small (sr_mcr r).
Proof.
  intros Hok Hin. destruct (held_in n info t l r Hok Hin) as (a & dss & dm & idx & row & Hrep & _ & _ & _ & Hh & _). destruct (rh_mcr _ _ _ _ _ _ Hh) as [Hst Hsm]. split; [|done].
  destruct (tr_master _ _ _ _ _ _ _ _ Hrep) as (M1 & M2 & M3 & M4).
  split; eapply (stored_address te_sha256 uninitialized (t_master (sct_params t)) _ _ dm _ _ _ (to_master _ _ _ (so_table _ _ _ _ Hok)) (proj1 M1) Hst ltac:(lia) (mcr_bytes_pos _ Hsm)).
Qed.

Lemma scan_rows n info t l : scan_ok n info t l -> Forall (DataSetSpec.row_ok info) l.
Proof.
  intros Hok. apply Forall_forall. intros r Hin. destruct (held_in n info t l r Hok Hin) as (a & dss & dm & idx & row & Hrep & _ & _ & _ & Hh & Hrow & (Hadr & Hlen & _) & Hval & Hread).
  destruct (so_info _ _ _ _ Hok) as [c0 Hinfo]. assert (Hl : length (sr_values r) = length (t_columns (sct_params t))) by (by rewrite Hval, length_fmap). split.
  - apply Hh.
  - apply Hh.
  - by rewrite <- (length_fmap m_address), Hadr, length_fmap, Hl.
  - rewrite Hinfo, Hl. cbn. by rewrite length_fmap.
  - intros i c v Hc Hv. rewrite Hinfo in Hc. change ((info_of <$> t_columns (sct_params t)) !! i = Some c) in Hc. rewrite list_lookup_fmap in Hc. apply fmap_Some in Hc as (tc & Htc & ->). rewrite Hval, list_lookup_fmap in Hv. apply fmap_Some in Hv as (p & Hp & ->).
    by destruct (Forall2_lookup_lr _ _ _ _ _ _ Hread Htc Hp).
Qed.

(** The address of a record is found. *)
Lemma scan_find n info t l r : scan_ok n info t l -> r ∈ l -> exists t', st_find (sr_trid r) t = (Ok (Some (sr_address r)), t') /\ scan_ok n info t' l.
Proof.
  intros Hok Hin. destruct (held_address n info t l r Hok Hin) as [Ha _]. destruct (held_in n info t l r Hok Hin) as (a & dss & dm & idx & row & Hrep & Hk & Hr & Hroom & Hh & _).
  destruct (tr_master _ _ _ _ _ _ _ _ Hrep) as (M1 & M2 & M3 & M4). destruct (ix_find_law _ _ _ M2 (proj1 (rh_key _ _ _ _ _ _ Hh))) as (i' & Ei & Hi').
  set (m' := {| mc_column := mc_column (m_masterColumn (sct_state t)); m_mainIndex := i'; m_tridCounters := m_tridCounters (m_masterColumn (sct_state t)) |}).
  assert (E : main_index (C := C) (ix_find (pbeEncodeUInt64 (sr_trid r)) 1) (m_masterColumn (sct_state t)) = (Ok (Some (place_value (sr_address r))), m'))
    by (unfold main_index, embed; by rewrite Ei, (rh_index _ _ _ _ _ _ Hh)).
  exists (with_state t (with_master m' (sct_state t))). split.
  - cbn [st_find table_ScanTable]. unfold on_state. rewrite (mbind_ok _ _ _ _ _ (master_run _ (sct_state t) _ _ E)). unfold mbind, mlift. by rewrite (place_value_decode _ Ha).
  - apply (scan_same n info t l a dss dm idx); try done. destruct Hrep. by split.
Qed.

Lemma scan_mcr n info t l r : scan_ok n info t l -> r ∈ l -> exists t', st_readMasterColumnRecord (sr_address r) t = (Ok (sr_mcr r), t') /\ scan_ok n info t' l.
Proof.
  intros Hok Hin. destruct (held_in n info t l r Hok Hin) as (a & dss & dm & idx & row & Hrep & Hk & Hr & Hroom & Hh & _). pose proof Hrep as [R1 R2 R3 R4 R5 R6]. destruct R2 as (M1 & M2 & M3 & M4).
  destruct (read_mcr_ok _ te_sha256 uninitialized (to_master _ _ _ (so_table _ _ _ _ Hok)) _ dm _ _ no_mcr M1 (rh_mcr _ _ _ _ _ _ Hh)) as (c' & E & Hs' & Hf').
  exists (with_state t (with_master {| mc_column := c'; m_mainIndex := m_mainIndex (m_masterColumn (sct_state t)); m_tridCounters := m_tridCounters (m_masterColumn (sct_state t)) |} (sct_state t))). split.
  - cbn [st_readMasterColumnRecord table_ScanTable]. unfold on_state. by rewrite (master_run _ (sct_state t) _ _ (master_column_ok _ _ _ _ E)).
  - apply (scan_same n info t l a dss dm idx); try done. split; try done. split; [done|]. split; [done|]. split; [cbn; lia|done].
Qed.

Lemma scan_record n info t l r i record v : scan_ok n info t l -> r ∈ l -> m_columnRecords (sr_mcr r) !! i = Some record -> sr_values r !! i = Some v ->
  exists t', st_readRecord (S i) (m_address record) t = (Ok v, t') /\ scan_ok n info t' l.
Proof.
  intros Hok Hin Hrec Hv. destruct (held_in n info t l r Hok Hin) as (a & dss & dm & idx & row & Hrep & Hk & Hr & Hroom & Hh & Hrow & (Hadr & Hlen & Hat) & Hval & Hread).
  rewrite Hval, list_lookup_fmap in Hv. apply fmap_Some in Hv as (p & Hp & ->). destruct (lookup_lt_is_Some_2 (t_columns (sct_params t)) i) as [tc Htc]; [rewrite <- Hlen; by apply lookup_lt_Some in Hp|].
  assert (Ha : m_address record = fst p). { pose proof (f_equal (fun x => x !! i) Hadr) as E. cbn in E. rewrite !list_lookup_fmap, Hrec, Hp in E. by injection E. }
  pose proof Hrep as [R1 R2 R3 R4 R5 R6]. destruct (cols_at _ te_sha256 uninitialized (so_table _ _ _ _ Hok) _ _ _ _ _ _ R1 Htc) as (cs & ly & ds & Hcs & Hly & Hds & Hc & Hfc).
  destruct (col_read te_sha256 uninitialized tc Hfc cs ly ds n (fst p) (snd p) Hc (Hat _ _ _ _ Htc Hp Hds)) as (cs' & E & Hc'). destruct (Forall2_lookup_lr _ _ _ _ _ _ Hread Htc Hp) as [Hre _].
  assert (Hsr : spec_read (tc_params tc) (tc_dataType tc) (fst p) (snd p) = Ok (RValue (snd p))).
  { unfold spec_read. unfold readable in Hre. destruct (isNullValueAddress (fst p)) eqn:Hn.
    - destruct (Hat _ _ _ _ Htc Hp Hds) as [[_ ->]|(b & Hst & _)]; [done|]. destruct Hst as [Hid _]. unfold isNullValueAddress in Hn. rewrite (proj2 (Z.eqb_neq _ 0)) in Hn by lia. done.
    - apply Z.ltb_lt in Hre. by rewrite Z.geb_leb, (proj2 (Z.leb_gt _ _)). }
  exists (with_state t (with_columns (<[i := cs']> (ts_columns (sct_state t))) (sct_state t))). split.
  - cbn [st_readRecord table_ScanTable]. unfold on_state, mbind. rewrite (column_run _ _ i tc cs _ Htc Hcs), Ha, E, Hsr. done.
  - apply (scan_same n info t l a dss dm idx); try done. split; try done. pose proof (cols_replace _ _ _ _ _ _ i tc cs' ly ds n R1 Htc Hc') as Hrep'. rewrite (list_insert_id (at_layouts a)), (list_insert_id dss) in Hrep' by done.
    eapply cols_rep_le; [|exact Hrep']. intros j. cbv beta. case_decide; lia.
Qed.

(** The program's tables keep the laws of a table that is read. *)
#[export] Instance scan_reads (n : nat) : ScanTableLaws table.
Proof.
  refine {| st_ok := scan_ok n; st_key := fun k => ix_key k /\ ix_inner k |}.
  - intros info t l H. apply H.
  - apply scan_rows.
  - intros info t l [_ _ _ (a & dss & dm & idx & _ & _ & Hr & _)]. eapply Forall_impl; [exact Hr|]. intros r Hh. apply Hh.
  - intros info t l Hok. apply (search_ok _ n info t l); [done| |intros k Hk; destruct l as [|r l']; [done|]; injection Hk as <-; exists r; split; [left|done]].
    intros s m Hm Hkeys. destruct (ix_min_law _ _ Hm) as (s' & E & Hs'). exists s'. split; [|done]. rewrite E, (sorted_above l m 0 (so_sorted _ _ _ _ Hok) Hkeys), filter_keep; [done|].
    intros r Hr. pose proof (scan_rows _ _ _ _ Hok) as Hrows. rewrite Forall_forall in Hrows. pose proof (row_positive _ _ (Hrows r Hr)). cbv beta. lia.
  - intros info t l Hok. apply (search_ok _ n info t l); [done| |intros k Hk; apply fmap_Some in Hk as (r & Hr & ->); exists r; split; [by apply last_Some_elem_of|done]].
    intros s m Hm Hkeys. destruct (ix_max_law _ _ Hm) as (s' & E & Hs'). exists s'. split; [|done]. rewrite E, (sorted_last l m (so_sorted _ _ _ _ Hok) Hkeys); [done|]. intros k Hk. apply (ix_range s m k Hm Hk).
  - intros info t l k Hok [Hk Hi]. apply (search_ok _ n info t l); [done| |intros k' Hk'; apply fmap_Some in Hk' as (r & Hr & ->); exists r; split; [apply head_Some_elem_of, list_elem_of_filter in Hr; apply Hr|done]].
    intros s m Hm Hkeys. destruct (ix_next_law _ _ k Hm Hk Hi) as (s' & E & Hs'). exists s'. split; [|done]. by rewrite E, (sorted_above l m (k + 1) (so_sorted _ _ _ _ Hok) Hkeys), rows_after_from.
  - intros info t l r. apply scan_find.
  - intros info t l r. apply scan_mcr.
  - intros info t l r i record v. apply scan_record.
Defined.

(** ** Changing *)

Lemma next_place_again tc l : fixed_column te_sha256 uninitialized tc -> isNullValueAddress (next_place tc l) = false -> next_place tc (m_blockId (next_place tc l), m_offset (next_place tc l)) = next_place tc l.
Proof.
  intros Hfc Hn. pose proof (fc_area _ _ _ Hfc) as Ha. assert (Hb : m_blockId (next_place tc l) <> 0).
  { revert Hn. unfold next_place, isNullValueAddress. destruct (Z.eqb_spec (fst l) 0); [done|]. destruct (_ >=? _); cbn [m_blockId m_offset]; [done|]. by destruct (Z.eqb_spec (fst l + 1) 0). }
  assert (Ho : required_length (tc_dataType tc) <= m_dataBlockDataAreaSize (tc_params tc) - m_offset (next_place tc l)).
  { clear Hn Hb. unfold next_place. destruct (_ =? 0); [cbn [m_offset]; lia|]. rewrite Z.geb_leb. destruct (Z.leb_spec (required_length (tc_dataType tc)) (m_dataBlockDataAreaSize (tc_params tc) - snd l)); cbn [m_offset]; lia. }
  unfold next_place at 1. cbn [fst snd]. rewrite (proj2 (Z.eqb_neq _ _) Hb), Z.geb_leb, (proj2 (Z.leb_le _ _) Ho). by destruct (next_place tc l).
Qed.

Lemma roomy_place tc l l' n : next_place tc l' = next_place tc l -> isNullValueAddress (next_place tc l) = false -> roomy tc l' n = roomy tc l n.
Proof. intros H Hn. destruct n; [done|]. cbn [roomy]. unfold layout_written. by rewrite H, Hn. Qed.

(** What a write does: the value that is stored, its place, and what is left. *)
Lemma typed_not_null t v : typed t v = true -> isNull (stored_value t v) = false.
Proof. by destruct t, v as [|b|[[] z|[] x]|d| | | |]. Qed.

Lemma spec_write_place tc l v : fixed_column te_sha256 uninitialized tc -> match spec_write tc l v with
  | Ok w => stores (info_of tc) v (snd w) /\ (isNull (snd w) && tc_notNull tc = false) /\ (fst w = kNullValueAddress \/ fst w = next_place tc l)
  | _ => refused (info_of tc) v
  end.
Proof.
  intros Hfc. unfold spec_write, refused, stores. cbn [col_dataType col_notNull info_of]. destruct (isNull v) eqn:Hv.
  - destruct (tc_notNull tc); [intros w [? _]; done|]. split; [done|]. split; [done|]. by left.
  - pose proof (convert_typed (tc_dataType tc) (fc_type _ _ _ Hfc) v) as Hc. destruct (convert_value (tc_dataType tc) v) as [[v'| |]|e|u]; cbn [conversion_error].
    + destruct (Hc _ eq_refl) as (v2 & [= <-] & Ht). split; [by exists v'|]. cbn [fst snd]. split; [|by right]. by rewrite (typed_not_null _ _ Ht).
    + by intros w (? & ? & _).
    + by intros w (? & ? & _).
    + destruct e; by intros w (? & ? & _).
    + by intros w (? & ? & _).
Qed.

Lemma roomy_write tc l v w n : fixed_column te_sha256 uninitialized tc -> roomy tc l (S n) = true -> spec_write tc l v = Ok w ->
  readable tc (fst w) = true /\ roomy tc (layout_written tc l (fst w)) n = true /\ roomy tc (layout_undone l (fst w)) n = true.
Proof.
  intros Hfc Hr Hw. pose proof (spec_write_place tc l v Hfc) as Hp. rewrite Hw in Hp. destruct Hp as (_ & _ & [->|Hp]).
  - split; [done|]. split; by apply roomy_less.
  - pose proof (roomy_less _ _ _ Hr) as Hr'. cbn [roomy] in Hr. apply andb_prop in Hr as [H1 H2]. rewrite Hp. split; [done|]. split; [done|]. unfold layout_undone.
    destruct (isNullValueAddress (next_place tc l)) eqn:Hn; [done|]. rewrite (roomy_place tc l); [done|by apply next_place_again|done].
Qed.

(** The writes of an update. *)
Definition writes_ok (T : table_params) (ls : list layout) (ws : list (nat * (ColumnDataAddress * Variant))) : Prop :=
  forall i w, (i, w) ∈ ws -> exists tc l v, t_columns T !! i = Some tc /\ ls !! i = Some l /\ spec_write tc l v = Ok w.

Lemma spec_updates_ok T info ls columns values : table_ok T te_sha256 uninitialized -> info_ok info T -> length columns = length values -> Forall (fun i => i < length (t_columns T))%nat columns -> length ls = length (t_columns T) ->
  let '(ws, o) := spec_updates T ls columns values in writes_ok T ls ws /\
  match o with
  | Ok _ => ws.*1 = columns /\ Forall3 (fun p v w => exists c, tbl_columns info !! p = Some c /\ stores c v w) (S <$> columns) values (ws.*2).*2
  | _ => some_refused info (S <$> columns) values
  end.
Proof.
  intros Hok [c0 Hinfo] Hlen Hin Hls. revert values Hlen. induction columns as [|i columns IH]; intros [|v values] Hlen; try done; cbn [spec_updates].
  - split; [by intros i w ?%elem_of_nil|]. split; [done|]. constructor.
  - apply Forall_cons in Hin as [Hi Hin]. destruct (lookup_lt_is_Some_2 (t_columns T) i Hi) as [tc Htc]. destruct (lookup_lt_is_Some_2 ls i) as [l Hl]; [lia|]. rewrite Htc, Hl.
    assert (Hc : tbl_columns info !! S i = Some (info_of tc)) by (rewrite Hinfo; change ((info_of <$> t_columns T) !! i = Some (info_of tc)); by rewrite list_lookup_fmap, Htc).
    pose proof (spec_write_place tc l v (Forall_lookup_1 _ _ _ _ (to_columns _ _ _ Hok) Htc)) as Hw. destruct (spec_write tc l v) as [w|e|u] eqn:Esw.
    + specialize (IH Hin values ltac:(cbn in Hlen; lia)). destruct (spec_updates T ls columns values) as [ws o]. destruct IH as [Hws Ho]. split.
      * intros j x [[= -> ->]|Hj]%elem_of_cons; [by exists tc, l, v|by apply Hws].
      * destruct o as [[]|e|u]; [destruct Ho as [<- Ho]; split; [done|]; constructor; [exists (info_of tc); split; [done|apply Hw]|done]| |];
          destruct Ho as (k & p & c & x & ? & ? & ? & ?); by exists (S k), p, c, x.
    + split; [by intros j w ?%elem_of_nil|]. by exists 0%nat, (S i), (info_of tc), v.
    + split; [by intros j w ?%elem_of_nil|]. by exists 0%nat, (S i), (info_of tc), v.
Qed.

Lemma updated_values row ws : (TableSpec.updated_row row ws).*2 = update_values row.*2 (S <$> ws.*1) (ws.*2).*2.
Proof.
  revert row. induction ws as [|[i w] ws IH]; intros row; [done|]. unfold TableSpec.updated_row, update_values. cbn [fold_left fmap list_fmap fst snd zip zip_with foldl Nat.pred].
  fold (TableSpec.updated_row (<[i := w]> row) ws). rewrite IH. unfold update_values. by rewrite list_fmap_insert.
Qed.

(** A row that does not change stays. *)
Lemma row_kept T a dss dm idx a' dss' dm' idx' r : row_held T a dss dm idx r -> at_rows a' !! sr_trid r = at_rows a !! sr_trid r -> dss_extends dss dss' -> extends dm dm' ->
  idx' !! sr_trid r = idx !! sr_trid r -> row_held T a' dss' dm' idx' r.
Proof.
  intros [(row & H1 & H2 & H3) H4 H5 H6 H7 H8] Ha Hd Hm Hi. split; try done; [|by rewrite Hi|by eapply mcr_at_extends].
  exists row. split; [by rewrite Ha|]. split; [by eapply row_extends|done].
Qed.

Lemma kept_rows T a dss dm idx a' dss' dm' idx' (changed : Z -> Prop) l : Forall (row_held T a dss dm idx) l -> (forall k, ~ changed k -> at_rows a' !! k = at_rows a !! k) -> dss_extends dss dss' -> extends dm dm' ->
  (forall k, ~ changed k -> idx' !! k = idx !! k) -> forall r, r ∈ l -> ~ changed (sr_trid r) -> row_held T a' dss' dm' idx' r.
Proof. intros Hl Ha Hd Hm Hi r Hr Hc. rewrite Forall_forall in Hl. apply (row_kept T a dss dm idx); auto. Qed.

Lemma in_replace_row x r' l : x ∈ replace_row r' l -> x = r' \/ (x ∈ l /\ sr_trid x <> sr_trid r').
Proof. unfold replace_row. intros (y & -> & Hy)%list_elem_of_fmap. destruct (Z.eqb_spec (sr_trid y) (sr_trid r')); [by left|by right]. Qed.

Lemma replace_row_keys r' l : sr_trid <$> replace_row r' l = sr_trid <$> l.
Proof. unfold replace_row. rewrite <- list_fmap_compose. apply list_fmap_ext. intros i x _. cbn. by destruct (Z.eqb_spec (sr_trid x) (sr_trid r')). Qed.

Lemma remove_row_keys k l x : x ∈ sr_trid <$> l -> x <> k -> x ∈ sr_trid <$> remove_row k l.
Proof. intros (r & -> & Hr)%list_elem_of_fmap Hne. apply list_elem_of_fmap_2, list_elem_of_filter. done. Qed.

Lemma scan_delete n info t l r tp : scan_ok (S n) info t l -> r ∈ l -> tp_ok tp ->
  exists t', st_deleteRow (sr_mcr r) (sr_address r) tp t = (Ok tt, t') /\ scan_ok n info t' (remove_row (sr_trid r) l).
Proof.
  intros Hok Hin Htp. destruct (held_address _ info t l r Hok Hin) as [Ha Hsm]. destruct (held_in _ info t l r Hok Hin) as (a & dss & dm & idx & row & Hrep & Hk & Hr & Hroom & Hh & _). pose proof Hok as [H1 H2 H3 _].
  destruct (deleteRow_mcr_ok _ te_sha256 te_time uninitialized H1 (sct_state t) a dss dm idx n (sr_trid r) (sr_mcr r) (sr_address r) tp Hrep) as (x & s' & E & dss' & dm' & idx' & Hrep' & Hd & Hm & Hi);
    [apply Hh|done|done|apply Hh|pose proof (rh_positive _ _ _ _ _ _ Hh); lia|done|]. exists (with_state t s'). split; [cbn [st_deleteRow table_ScanTable]; unfold on_state, mbind; by rewrite E|].
  split; [done|done|by apply sorted_filter|]. eexists _, dss', dm', idx'. split; [exact Hrep'|]. cbn [at_rows at_layouts]. split; [|split].
  - intros k [y Hy]. apply lookup_delete_Some in Hy as [Hne Hy]. apply remove_row_keys; [apply Hk; by rewrite Hy|done].
  - apply Forall_forall. intros y [Hne Hy]%list_elem_of_filter. apply (kept_rows _ a dss dm idx _ _ _ _ (eq (sr_trid r)) l Hr); [|done|done|done|done|by intros ?]. intros k Hk'. cbn [at_rows]. by rewrite lookup_delete_ne.
  - eapply Forall2_impl; [exact Hroom|]. intros tc ly. apply roomy_less.
Qed.

Lemma roomy_after T ls ws n : table_ok T te_sha256 uninitialized -> length ls = length (t_columns T) -> NoDup ws.*1 -> Forall (fun i => i < length (t_columns T))%nat ws.*1 -> writes_ok T ls ws ->
  Forall2 (fun tc ly => roomy tc ly (S n) = true) (t_columns T) ls ->
  Forall2 (fun tc ly => roomy tc ly n = true) (t_columns T) (written_at T ls ws) /\ Forall2 (fun tc ly => roomy tc ly n = true) (t_columns T) (undone_at ls ws).
Proof.
  intros Hok Hls Hnd Hin Hws Hroom.
  assert (Hcol : forall i tc l, t_columns T !! i = Some tc -> ls !! i = Some l -> roomy tc l n = true /\
    forall w, at_column i ws = Some w -> roomy tc (layout_written tc l (fst w)) n = true /\ roomy tc (layout_undone l (fst w)) n = true).
  { intros i tc l Htc Hl. pose proof (Forall2_lookup_lr _ _ _ _ _ _ Hroom Htc Hl) as Hr. cbv beta in Hr. split; [by apply roomy_less|]. intros w (tc' & l' & v & Htc' & Hl' & Hw)%at_column_elem%Hws. simplify_eq.
    apply (roomy_write tc l v w n (Forall_lookup_1 _ _ _ _ (to_columns _ _ _ Hok) Htc) Hr Hw). }
  split; apply Forall2_same_length_lookup_2; rewrite ?written_at_length, ?undone_at_length; try done; intros i tc l' Htc Hl'; destruct (lookup_lt_is_Some_2 ls i) as [l Hl]; try (rewrite Hls; by apply lookup_lt_Some in Htc);
    destruct (Hcol i tc l Htc Hl) as [H1 H2].
  - rewrite (written_at_lookup T ls ws i tc Hnd Hin Htc), Hl in Hl'. destruct (at_column i ws) as [w|]; injection Hl' as <-; [by apply H2|done].
  - rewrite (undone_at_lookup ls ws i Hnd), Hl in Hl'. destruct (at_column i ws) as [w|]; injection Hl' as <-; [by apply H2|done].
Qed.

(** The new values can be read. *)
Lemma readable_updated T ls ws row n : table_ok T te_sha256 uninitialized -> length row = length (t_columns T) -> NoDup ws.*1 -> Forall (fun i => i < length (t_columns T))%nat ws.*1 -> writes_ok T ls ws ->
  Forall2 (fun tc ly => roomy tc ly (S n) = true) (t_columns T) ls ->
  Forall2 (fun tc p => readable tc (fst p) = true /\ isNull (snd p) && tc_notNull tc = false) (t_columns T) row ->
  Forall2 (fun tc p => readable tc (fst p) = true /\ isNull (snd p) && tc_notNull tc = false) (t_columns T) (TableSpec.updated_row row ws).
Proof.
  intros Hok Hlen Hnd Hin Hws Hroom Hrow. apply Forall2_same_length_lookup_2; [by rewrite updated_row_length|]. intros i tc p Htc Hp. rewrite updated_row_lookup in Hp; [|done|by rewrite Hlen].
  destruct (at_column i ws) as [w|] eqn:Hw; [injection Hp as <-|by apply (Forall2_lookup_lr _ _ _ _ _ _ Hrow Htc Hp)].
  apply at_column_elem, Hws in Hw as (tc' & l & v & Htc' & Hl & Hw). simplify_eq. pose proof (Forall_lookup_1 _ _ _ _ (to_columns _ _ _ Hok) Htc) as Hfc.
  pose proof (Forall2_lookup_lr _ _ _ _ _ _ Hroom Htc Hl) as Hr. split; [by apply (roomy_write tc l v w n)|]. pose proof (spec_write_place tc l v Hfc) as Hsw. rewrite Hw in Hsw. apply Hsw.
Qed.

Lemma scan_update n info t l r columns values tp : scan_ok (S n) info t l -> r ∈ l -> tp_ok tp -> length columns = length values -> NoDup columns ->
  Forall (fun i => i < length (t_columns (sct_params t)))%nat columns -> at_columns info fits_column (S <$> columns) values ->
  match st_updateRow (sr_mcr r) (sr_address r) (S <$> columns) values tp t with
  | (Ok _, t') => exists r', updated_row info (S <$> columns) values r r' /\ scan_ok n info t' (replace_row r' l)
  | (Throw _, t') => some_refused info (S <$> columns) values /\ scan_ok n info t' l
  | (Undef _, _) => some_refused info (S <$> columns) values
  end.
Proof.
  intros Hok Hin Htp Hlen Hnd Hcol Hfit. destruct (held_address _ info t l r Hok Hin) as [Ha Hsm]. pose proof Hok as [H1 H2 H3 _].
  destruct (held_in _ info t l r Hok Hin) as (a & dss & dm & idx & row & Hrep & Hk & Hr & Hroom & Hh & Hrow & Hrok & Hval & Hread). pose proof (rh_positive _ _ _ _ _ _ Hh) as Hpos.
  assert (Hls : length (at_layouts a) = length (t_columns (sct_params t))) by apply (tr_columns _ _ _ _ _ _ _ _ Hrep). assert (Hrl : length row = length (t_columns (sct_params t))) by apply Hrok.
  assert (Hup : update_ok (sct_params t) columns values).
  { split; [done|]. split; [done|]. intros k i v tc Hi Hv Htc. destruct H2 as [c0 Hinfo]. apply (Hfit k (S i) (info_of tc) v); [by rewrite list_lookup_fmap, Hi|done|].
    rewrite Hinfo. change ((info_of <$> t_columns (sct_params t)) !! i = Some (info_of tc)). by rewrite list_lookup_fmap, Htc. }
  pose proof (updateRow_mcr_ok _ te_sha256 te_time uninitialized H1 (sct_state t) a dss dm idx n (sr_trid r) row (sr_mcr r) (sr_address r) columns values tp Hrep Hrow (proj1 (rh_key _ _ _ _ _ _ Hh)) Ha Hsm (rh_trid _ _ _ _ _ _ Hh) ltac:(lia) Hrok Hup Htp) as Hf.
  pose proof (spec_updates_ok _ info (at_layouts a) columns values H1 H2 Hlen Hcol Hls) as Hsp. destruct (spec_updates_prefix (sct_params t) (at_layouts a) columns values) as [rest Hrest].
  unfold follows_keeping, spec_update in Hf. rewrite Hrow in Hf. replace (len values =? len columns) with true in Hf by (unfold len; rewrite Hlen; symmetry; apply Z.eqb_refl). cbn [negb] in Hf.
  destruct (spec_updates (sct_params t) (at_layouts a) columns values) as [ws o]. destruct Hsp as [Hws Ho]. cbn [fst] in Hrest.
  assert (Hwd : NoDup ws.*1 /\ Forall (fun i => i < length (t_columns (sct_params t)))%nat ws.*1) by (rewrite Hrest in Hnd, Hcol; apply NoDup_app in Hnd as [? _]; by apply Forall_app in Hcol as [? _]). destruct Hwd as [Hwd Hwi].
  destruct (roomy_after _ _ _ n H1 Hls Hwd Hwi Hws Hroom) as [Hrw Hru].
  assert (Hrun : st_updateRow (sr_mcr r) (sr_address r) (S <$> columns) values tp t =
    let '(x, s') := updateRow_mcr (sct_params t) te_sha256 te_time uninitialized (sr_mcr r) (sr_address r) (S <$> columns) values tp (sct_state t) in
    (match x with Ok _ => Ok tt | Throw e => Throw e | Undef u => Undef u end, with_state t s')).
  { cbn [st_updateRow table_ScanTable]. unfold on_state, mbind. by destruct (updateRow_mcr _ _ _ _ _ _ _ _ _ _) as [[] ?]. }
  rewrite Hrun. clear Hrun. destruct o as [[]|e|u]; cbn [fst snd] in Hf.
  - destruct Hf as (x & s' & E & _ & dss' & dm' & idx' & Hrep' & Hd & Hm & Hi). rewrite E. destruct Ho as [<- Hst].
    destruct (tr_rows _ _ _ _ _ _ _ _ Hrep' (sr_trid r) (TableSpec.updated_row row ws)) as (a' & mcr' & Hi' & Hm' & Ht' & _ & Hr'); [apply lookup_insert_eq|].
    exists {| sr_trid := sr_trid r; sr_address := a'; sr_mcr := mcr'; sr_values := (TableSpec.updated_row row ws).*2 |}. split.
    + split; [done|]. exists (ws.*2).*2. split; [done|]. cbn [sr_values]. by rewrite updated_values, Hval.
    + split; [done|done|by rewrite replace_row_keys|]. eexists _, dss', dm', idx'. split; [exact Hrep'|]. cbn [at_rows at_layouts]. split; [|split; [|done]].
      * intros k Hk'. rewrite replace_row_keys. destruct (decide (k = sr_trid r)) as [->|Hne]; [by apply list_elem_of_fmap_2|]. rewrite lookup_insert_ne in Hk' by done. by apply Hk.
      * apply Forall_forall. intros y [->|[Hy Hne]]%in_replace_row.
        -- split; cbn [sr_trid sr_address sr_mcr sr_values]; try done; [|apply Hh]. exists (TableSpec.updated_row row ws). split; [apply lookup_insert_eq|]. split; [done|]. split; [done|]. by apply (readable_updated _ (at_layouts a) _ _ n).
        -- apply (kept_rows _ a dss dm idx _ _ _ _ (eq (sr_trid r)) l Hr); [|done|done|done|done|by intros ?]. intros k Hk'. cbn [at_rows]. by rewrite lookup_insert_ne.
  - destruct ws as [|w ws]; [destruct (updateRow_mcr _ _ _ _ _ _ _ _ _ _) as [x s']; cbn in Hf; by subst x|]. destruct Hf as (s' & E & dss' & dm' & idx' & Hrep' & Hd & Hm & Hi). rewrite E. split; [done|].
    apply (scan_same n info t l {| at_layouts := undone_at (at_layouts a) (w :: ws); at_rows := at_rows a; at_lastTrid := at_lastTrid a |} dss' dm' idx'); [by apply scan_less|done| |done|exact Hrep'].
    apply Forall_forall. intros y Hy. apply (kept_rows _ a dss dm idx _ _ _ _ (fun _ => False) l Hr); [done|done|done|exact Hi|done|by intros ?].
  - destruct (updateRow_mcr _ _ _ _ _ _ _ _ _ _) as [x s']. assert (Hx : x = Undef u) by (destruct ws; exact Hf). by subst x.
Qed.

(** They keep the laws of a table that is changed, as long as there are free
    places in the caches and the columns have room for readable values. *)
#[export] Instance scan_table_changes : ScanTableChangeLaws table.
Proof.
  refine {| sc_reads := scan_reads |}.
  - apply scan_less.
  - intros n info t l r positions values tp Hok Hin Htp Hlen Hnd Hpos Hfit.
    assert (Hp : positions = S <$> (Nat.pred <$> positions)) by (rewrite <- list_fmap_compose, <- (list_fmap_id positions) at 1; apply list_fmap_ext; intros i p Hp; pose proof (Forall_lookup_1 _ _ _ _ Hpos Hp); cbn in *; lia).
    rewrite Hp in Hlen, Hnd, Hfit |- *. rewrite length_fmap in Hlen. apply (scan_update n info t l r (Nat.pred <$> positions) values tp Hok Hin Htp); [done|by apply NoDup_fmap_1 in Hnd| |done].
    apply Forall_fmap. eapply Forall_impl; [exact Hpos|]. intros p Hp'. destruct (so_info _ _ _ _ Hok) as [c0 Hinfo]. rewrite Hinfo in Hp'. cbn in *. rewrite length_fmap in Hp'. lia.
  - apply scan_delete.
  - done.
Defined.

(** ** Scans

    The loop over the rows of a table, as the request for all rows has it. *)
Fixpoint scan_from (fuel : nat) : DSM (T := table) (list (list Variant)) :=
  d <-- gets (fun d => d) ;;
  if m_hasCurrentRow d then
    match fuel with
    | O => mlift (Undef NoProgress)
    | S fuel' =>
        readCurrentRow ;;'
        values <-- gets m_values ;;
        moveToNextRow ;;'
        rows <-- scan_from fuel' ;;
        mret (values :: rows)
    end
  else mret [].
Definition scan (fuel : nat) : DSM (T := table) (list (list Variant)) := resetCursor ;;' scan_from fuel.

Lemma scan_from_ok n l fuel : forall i (d : TableDataSet table), @ds_at _ _ (scan_reads n) d l i -> (length l <= i + fuel)%nat ->
  exists d', scan_from fuel d = (Ok (row_values d <$> drop i l), d').
Proof.
  assert (Hsame : forall d d' : TableDataSet table, same_shape d d' -> row_values d' = row_values d :> (stored_row -> list Variant)).
  { intros d d' (_ & _ & H). unfold row_values, column_of. by rewrite H. }
  induction fuel as [|fuel IH]; intros i d Hat Hf; cbn [scan_from]; rewrite mbind_gets; pose proof Hat as [Hd Hon].
  - rewrite drop_ge by lia. rewrite lookup_ge_None_2 in Hon by lia. rewrite Hon. by exists d.
  - destruct (l !! i) as [r|] eqn:Hr; [|apply lookup_ge_None in Hr; rewrite drop_ge by lia; rewrite Hon; by exists d]. rewrite (on_has _ _ Hon). pose proof (list_elem_of_lookup_2 _ _ _ Hr) as Hin.
    destruct (readCurrentRow_ok (SL := scan_reads n) d l r Hd Hin Hon) as (d1 & E1 & Hd1 & Hon1 & Hsh1 & Hv). rewrite (mbind_ok _ _ _ _ _ E1), mbind_gets, Hv.
    destruct (move_next_ok (SL := scan_reads n) d1 l i) as (d2 & E2 & Hat2 & Hsh2); [split; [done|by rewrite Hr]|by apply lookup_lt_Some in Hr|]. rewrite (mbind_ok _ _ _ _ _ E2).
    destruct (IH (S i) d2 Hat2 ltac:(lia)) as (d3 & E3). rewrite (mbind_ok _ _ _ _ _ E3). exists d3. rewrite (drop_S _ _ _ Hr). by rewrite (Hsame _ _ Hsh2), (Hsame _ _ Hsh1).
Qed.

(** With all columns in the data set, the values are those of the row. *)
Lemma all_columns info (t : table) alias r : length (tbl_columns info) = S (length (sr_values r)) ->
  row_values (fillColumnInfosFromTable (new_data_set info t alias)) r = full_row r.
Proof.
  intros Hl. unfold row_values, column_of, fillColumnInfosFromTable. cbn [m_columnInfos set_columnInfos ds_table new_data_set]. rewrite length_imap.
  assert (H : forall n a, (a + n <= length (full_row r))%nat -> (a + n <= length (tbl_columns info))%nat ->
    omap (fun index => info0 ← imap (fun i c => {| m_posInTable := i; ci_name := col_name c; ci_alias := [] |}) (tbl_columns info) !! index; full_row r !! m_posInTable info0) (seq a n) = take n (drop a (full_row r))).
  { induction n as [|n IH]; intros a H1 H2; [done|]. cbn [seq]. cbn [omap list_omap]. destruct (lookup_lt_is_Some_2 (tbl_columns info) a) as [c Hc]; [lia|]. destruct (lookup_lt_is_Some_2 (full_row r) a) as [v Hv]; [lia|].
    assert (Hi : (info0 ← imap (fun i c => {| m_posInTable := i; ci_name := col_name c; ci_alias := [] |}) (tbl_columns info) !! a; full_row r !! m_posInTable info0) = Some v) by (rewrite list_lookup_imap, Hc; exact Hv).
    rewrite Hi, (drop_S _ _ _ Hv). cbn [take]. f_equal. apply IH; lia. }
  rewrite H; [|unfold full_row; cbn; lia|lia]. rewrite drop_0. apply take_ge. unfold full_row. cbn. lia.
Qed.

(** No row has NULL in a column that does not take it. *)
Definition not_null_row (T : table_params) (row : arow) : Prop := forall i tc p, t_columns T !! i = Some tc -> row !! i = Some p -> isNull (snd p) && tc_notNull tc = false.
Definition not_null_rows (T : table_params) (t : atable) : Prop := forall k row, at_rows t !! k = Some row -> not_null_row T row.

Section NotNull.
Context (T : table_params) (Hok : table_ok T te_sha256 uninitialized).

Lemma write_not_null i tc l v w : t_columns T !! i = Some tc -> spec_write tc l v = Ok w -> isNull (snd w) && tc_notNull tc = false.
Proof. intros Htc Hw. pose proof (spec_write_place tc l v (Forall_lookup_1 _ _ _ _ (to_columns _ _ _ Hok) Htc)) as H. rewrite Hw in H. apply H. Qed.

Lemma writes_not_null k ls values : forall i tc p, t_columns T !! (k + i)%nat = Some tc -> fst (spec_writes (drop k (t_columns T)) ls values) !! i = Some p -> isNull (snd p) && tc_notNull tc = false.
Proof.
  revert k values. induction ls as [|l ls IH]; intros k values i tc p Htc Hp; destruct (drop k (t_columns T)) as [|tc0 columns] eqn:Hd; try done.
  destruct values as [|v values]; [done|]. cbn [spec_writes] in Hp. assert (Htc0 : t_columns T !! k = Some tc0) by (rewrite <- (Nat.add_0_r k), <- lookup_drop, Hd; done).
  destruct (spec_write tc0 l v) as [w|e|u] eqn:Hw; [|done|done]. assert (Hd' : columns = drop (S k) (t_columns T)) by (rewrite (drop_S _ _ _ Htc0) in Hd; by injection Hd). subst columns.
  specialize (IH (S k) values). destruct (spec_writes (drop (S k) (t_columns T)) ls values) as [ws o]. destruct i as [|i]; cbn in Hp.
  - injection Hp as <-. rewrite Nat.add_0_r in Htc. simplify_eq. by apply (write_not_null k tc l v).
  - apply (IH i tc p); [|done]. by rewrite <- Htc, Nat.add_succ_r.
Qed.

Lemma updates_not_null ls columns values row : not_null_row T row -> not_null_row T (TableSpec.updated_row row (fst (spec_updates T ls columns values))).
Proof.
  revert values row. induction columns as [|i columns IH]; intros [|v values] row Hrow; try done. cbn [spec_updates]. destruct (t_columns T !! i) as [tc|] eqn:Htc; [|done]. destruct (ls !! i) as [l|]; [|done].
  destruct (spec_write tc l v) as [w|e|u] eqn:Hw; [|done|done]. specialize (IH values (<[i := w]> row)). destruct (spec_updates T ls columns values) as [ws o]. apply IH.
  intros j tc' p Hj Hp. apply list_lookup_insert_Some in Hp as [(<- & <- & _)|[_ Hp]]; [|by apply (Hrow j)]. by apply (write_not_null i tc' l v); [|simplify_eq].
Qed.

Lemma not_null_insert values c t : not_null_rows T t -> not_null_rows T (snd (spec_insert T values c t)).
Proof.
  assert (H : forall k t, not_null_rows T t -> not_null_rows T (snd (spec_insert_at T values k t))).
  { intros k t0 Ht. unfold spec_insert_at. pose proof (writes_not_null 0 (at_layouts t0) values) as Hw. rewrite drop_0 in Hw.
    destruct (spec_writes _ _ _) as [ws [[]|e|u]]; [|done|done]. destruct (at_rows t0 !! k) eqn:Hk; [done|]. intros j row Hj. cbn [snd at_rows] in Hj.
    apply lookup_insert_Some in Hj as [[_ <-]|[_ Hj]]; [|by apply (Ht j)]. intros i tc p Hi Hp. by apply (Hw i). }
  intros Ht. unfold spec_insert. destruct (c =? 0); by apply H.
Qed.

Lemma not_null_op op t : not_null_rows T t -> not_null_rows T (snd (spec_op T op t)).
Proof.
  intros Ht. destruct op as [values c tp|names values tp|trid columns values tp|trid tp|trid]; cbn [spec_op].
  - destruct (_ >=? _); [done|]. destruct (fill_defaults _ _); [by apply not_null_insert|done|done].
  - destruct (negb _); [done|]. destruct (_ >=? _); [done|]. destruct (order_values _ _ _ _ _) as [o [|? ?]]; [|done]. destruct (fill_defaults _ _); [by apply not_null_insert|done|done].
  - unfold spec_update. destruct (at_rows t !! trid) as [row|] eqn:Hr; [|done]. destruct (negb _); [done|]. pose proof (updates_not_null (at_layouts t) columns values row (Ht _ _ Hr)) as Hu.
    destruct (spec_updates _ _ _ _) as [ws [[]|e|u]]; [|by destruct ws|by destruct ws]. intros k row' Hk. cbn [snd at_rows] in Hk. apply lookup_insert_Some in Hk as [[_ <-]|[_ Hk]]; [done|by apply (Ht k)].
  - unfold spec_delete. destruct (_ >? _); [done|]. destruct (at_rows t !! trid); [|done]. intros k row Hk. cbn [snd at_rows] in Hk. apply lookup_delete_Some in Hk as [_ Hk]. by apply (Ht k).
  - done.
Qed.

Lemma not_null_after ops : forall t t', not_null_rows T t -> atable_after T ops t = Some t' -> not_null_rows T t'.
Proof.
  induction ops as [|op ops IH]; intros t t' Ht Ha; [by injection Ha as <-|]. cbn [atable_after] in Ha. pose proof (not_null_op op t Ht) as Hop.
  destruct (spec_op T op t) as [[r|e|u] t1]; [by apply (IH t1)|by apply (IH t1)|done].
Qed.
End NotNull.

(** The rows of the map in the order of their numbers. *)
Definition row_le (x y : Z * arow) : Prop := fst x <= fst y.
#[export] Instance row_le_dec x y : Decision (row_le x y) := decide (fst x <= fst y).
Definition ordered_rows (t : atable) : list (Z * arow) := merge_sort row_le (map_to_list (at_rows t)).

Lemma ordered_rows_lookup t k row : (k, row) ∈ ordered_rows t <-> at_rows t !! k = Some row.
Proof. unfold ordered_rows. rewrite merge_sort_Permutation. apply elem_of_map_to_list. Qed.

Lemma ordered_rows_sorted t : StronglySorted Z.lt (ordered_rows t).*1.
Proof.
  assert (Hs : StronglySorted row_le (ordered_rows t)) by (apply StronglySorted_merge_sort; [intros x y z; unfold row_le; lia|intros x y; unfold row_le; lia]).
  assert (Hn : NoDup (ordered_rows t).*1) by (unfold ordered_rows; rewrite merge_sort_Permutation; apply NoDup_fst_map_to_list). revert Hs Hn. generalize (ordered_rows t).
  induction l as [|x l IH]; [constructor|]. intros [Hs Hx]%StronglySorted_inv [Hnx Hn]%NoDup_cons. rewrite fmap_cons. constructor; [by apply IH|]. apply Forall_fmap. rewrite Forall_forall in *.
  intros y Hy. specialize (Hx y Hy). unfold row_le in Hx. assert (fst x <> fst y); [|cbn; lia]. intros E. apply Hnx. rewrite E. by apply list_elem_of_fmap_2.
Qed.

(** A row that can be reached and read. *)
Definition row_readable (T : table_params) (k : Z) (row : arow) : Prop := ix_inner k /\ Forall2 (fun tc p => readable tc (fst p) = true) (t_columns T) row.

Section Start.
Context (T : table_params) (info : table_info) (Hok : table_ok T te_sha256 uninitialized) (Hinfo : info_ok info T).

Lemma held_list (s : state) t dss dm idx n : table_rep T uninitialized s t dss dm idx n -> not_null_rows T t -> (forall k row, at_rows t !! k = Some row -> row_readable T k row) ->
  forall l, (forall k row, (k, row) ∈ l -> at_rows t !! k = Some row) -> exists rs, Forall2 (fun p r => sr_trid r = fst p /\ sr_values r = (snd p).*2) l rs /\ Forall (row_held T t dss dm idx) rs.
Proof.
  intros Hrep Hnn Hread. induction l as [|[k row] l IH]; intros Hl; [by exists []|]. destruct IH as (rs & Hrs & Hheld); [intros k' row' H; apply Hl; by right|]. pose proof (Hl k row ltac:(left)) as Hrow.
  destruct (tr_rows _ _ _ _ _ _ _ _ Hrep k row Hrow) as (a & mcr & Hi & Hm & Hid & Hne & Hr). exists ({| sr_trid := k; sr_address := a; sr_mcr := mcr; sr_values := row.*2 |} :: rs). split; [by constructor|].
  constructor; [|done]. destruct (tr_master _ _ _ _ _ _ _ _ Hrep) as (_ & M2 & _ & _). destruct (ix_range _ _ k M2) as [Hk Hkey]; [rewrite Hi; eauto|]. destruct (Hread k row Hrow) as [Hin Hre].
  split; cbn [sr_trid sr_address sr_mcr sr_values]; try done; [|unfold u_ok in Hk; lia]. exists row. split; [done|]. split; [done|]. split; [done|].
  apply Forall2_same_length_lookup_2; [by apply Forall2_length in Hre|]. intros i tc p Htc Hp. split; [apply (Forall2_lookup_lr _ _ _ _ _ _ Hre Htc Hp)|by apply (Hnn k row Hrow i)].
Qed.

(** A table with such rows keeps the laws of a table under a data set. *)
Lemma scan_start (s : state) t n : TableRefine.rep T uninitialized s t n -> not_null_rows T t -> (forall k row, at_rows t !! k = Some row -> row_readable T k row) ->
  Forall2 (fun tc ly => roomy tc ly n = true) (t_columns T) (at_layouts t) ->
  exists l, scan_ok n info {| sct_params := T; sct_state := s |} l /\ full_row <$> l = (fun p => row_id (fst p) :: (snd p).*2) <$> ordered_rows t.
Proof.
  intros (dss & dm & idx & Hrep) Hnn Hread Hroom. destruct (held_list s t dss dm idx n Hrep Hnn Hread (ordered_rows t)) as (l & Hl & Hheld); [intros k row; apply ordered_rows_lookup|].
  assert (Hk : sr_trid <$> l = (ordered_rows t).*1) by (clear -Hl; induction Hl as [|p r ps rs [H1 _] _ IH]; [done|]; rewrite !fmap_cons; by f_equal). exists l. split.
  - split; [done|done|rewrite Hk; apply ordered_rows_sorted|]. exists t, dss, dm, idx. split; [done|]. split; [|done]. intros k [row Hrow]. rewrite Hk. change k with (fst (k, row)). by apply list_elem_of_fmap_2, ordered_rows_lookup.
  - clear -Hl. induction Hl as [|p r ps rs [H1 H2] _ IH]; [done|]. rewrite !fmap_cons, IH. unfold full_row. by rewrite H1, H2.
Qed.
End Start.

Section Runs.
Context (T : table_params) (info : table_info) (caches : list C) (cache : C) (index : I) (ops : list TableOp).
Context (Hok : table_ok T te_sha256 uninitialized) (Hinfo : info_ok info T) (Hlast : 0 <= m_lastUserTrid (new_counters (t_firstUserTrid T)) < 2 ^ 64).
Context (Hlen : length caches = length (t_columns T)) (Hindex : ix_ok index ∅) (Hops : TableCorrect.ops_ok T ops (new_atable T)).

(** What operations on a new table leave. *)
Lemma scan_after n t : Forall (cache_new (length ops + n)) caches -> cache_new (length ops + n) cache -> Z.of_nat (length ops + n) < 2 ^ 57 ->
  atable_after T ops (new_atable T) = Some t -> (forall k row, at_rows t !! k = Some row -> row_readable T k row) -> Forall2 (fun tc ly => roomy tc ly n = true) (t_columns T) (at_layouts t) ->
  let s := state_after T te_sha256 te_time uninitialized ops (new_table T caches cache index) in
  exists l, scan_ok n info {| sct_params := T; sct_state := s |} l /\ full_row <$> l = (fun p => row_id (fst p) :: (snd p).*2) <$> ordered_rows t.
Proof.
  intros H1 H2 H3 Ha Hread Hroom s. apply scan_start; try done.
  - apply (state_after_rep T te_sha256 te_time uninitialized Hok n ops _ (new_atable T)); [by apply new_table_rep|done|done].
  - apply (not_null_after T Hok ops (new_atable T)); [intros k row; cbn; by rewrite lookup_empty|done].
Qed.

(** C32: after any operations on a new table (not more than each block cache has
    free places, so that no block is evicted), the loop of the request for all rows
    over a data set with all columns ends and gives exactly the rows of the map
    that [table_refines] speaks of, in the order of their numbers, each with its
    number first.  This is for tables of which no row is the last one of a file of
    the main index (the search for the row after it is wrong: [scan_skips_row]) and
    no value ends at the end of its block (it cannot be read). *)
Theorem table_scan (fuel : nat) alias t : Forall (cache_new (length ops)) caches -> cache_new (length ops) cache -> Z.of_nat (length ops) < 2 ^ 57 ->
  atable_after T ops (new_atable T) = Some t -> (forall k row, at_rows t !! k = Some row -> row_readable T k row) -> (size (at_rows t) <= fuel)%nat ->
  let s := state_after T te_sha256 te_time uninitialized ops (new_table T caches cache index) in
  fst (scan fuel (fillColumnInfosFromTable (new_data_set info {| sct_params := T; sct_state := s |} alias))) = Ok ((fun p => row_id (fst p) :: (snd p).*2) <$> ordered_rows t).
Proof.
  intros H1 H2 H3 Ha Hread Hf s.
  assert (Hrep : TableRefine.rep T uninitialized s t 0) by (apply (state_after_rep T te_sha256 te_time uninitialized Hok 0 ops _ (new_atable T)); [rewrite Nat.add_0_r; by apply new_table_rep|done|done]).
  assert (Hroom : Forall2 (fun tc ly => roomy tc ly 0 = true) (t_columns T) (at_layouts t)).
  { destruct Hrep as (dss & dm & idx & Hrep). apply Forall2_same_length_lookup_2; [|done]. symmetry. apply (tr_columns _ _ _ _ _ _ _ _ Hrep). }
  destruct (scan_after 0 t) as (l & Hl & Hrows); rewrite ?Nat.add_0_r; try done. fold s in Hl. set (d := fillColumnInfosFromTable _).
  assert (Hd : @ds_ok _ _ (scan_reads 0) d l).
  { split; [|exact Hl]. apply Forall_forall. intros i Hi. apply list_elem_of_lookup in Hi as [j Hj]. unfold d in *. cbn in *. rewrite list_lookup_imap in Hj. apply fmap_Some in Hj as (c & Hc & ->). by apply lookup_lt_Some in Hc. }
  destruct (resetCursor_ok (SL := scan_reads 0) d l Hd) as (d1 & E1 & Hat & Hsh). unfold scan. rewrite (mbind_ok _ _ _ _ _ E1).
  assert (Hlen' : length l = size (at_rows t)). { rewrite <- (length_fmap full_row), Hrows, length_fmap. unfold ordered_rows. by rewrite (Permutation_length (merge_sort_Permutation _ _)), length_map_to_list. }
  destruct (scan_from_ok 0 l fuel 0 d1 Hat ltac:(lia)) as (d2 & ->). cbn [fst]. f_equal. rewrite <- Hrows, drop_0. apply list_fmap_ext. intros i r Hr.
  assert (Hsame : row_values d1 r = row_values d r) by (destruct Hsh as (_ & _ & H); unfold row_values, column_of; by rewrite H). rewrite Hsame. apply all_columns.
  pose proof (scan_rows 0 info _ l Hl) as Hrok. apply (row_width _ _ (Forall_lookup_1 _ _ _ _ Hrok Hr)).
Qed.
End Runs.
End Scan.

(** ** A concrete table

    The columns of [sample_table] with blocks in which every value can be read. *)

Notation sample_state := (lru_cache (K := Z) (T := nat)).
#[export] Instance sample_env : TableEnv := {| te_sha256 := sample_hash; te_time := sample_time; te_uninitialized := 99 |}.
#[export] Instance scan_index : MainIndex (uli_state sample_state) := uli_main_index trid_params.
#[export] Instance scan_index_laws : MainIndexLaws (uli_state sample_state) := uli_main_index_laws trid_params trid_params_ok eq_refl eq_refl.
#[export] Instance scan_index_nav : MainIndexNav (uli_state sample_state) := uli_index_nav trid_params.
#[export] Instance scan_index_nav_laws : MainIndexNavLaws (uli_state sample_state) := uli_index_nav_laws trid_params trid_params_ok eq_refl eq_refl eq_refl.

Definition scanned_column (name : list Z) (type : ColumnDataType) (notNull : bool) : table_column :=
  {| tc_name := name; tc_params := sample_column 22; tc_dataType := type; tc_notNull := notNull; tc_default := None |}.
Definition scanned_table : table_params :=
  {| t_columns := [scanned_column [65] COLUMN_DATA_TYPE_INT32 true; scanned_column [66] COLUMN_DATA_TYPE_INT64 false]; t_master := sample_column 400; t_columnSetId := 1; t_firstUserTrid := 1 |}.
Definition scanned_info : table_info :=
  {| tbl_id := 7; tbl_name := [84]; tbl_columns := {| col_name := kMasterColumnName; col_dataType := COLUMN_DATA_TYPE_UINT64; col_notNull := true |} :: (info_of <$> t_columns scanned_table) |}.
Definition scanned_new : table_state sample_state (uli_state sample_state) := new_table scanned_table [sample_blocks 20; sample_blocks 20] (sample_blocks 20) trid_new.

(** The table after some operations, and a data set over it. *)
Definition scanned_after (ops : list TableOp) : scan_table sample_state (uli_state sample_state) :=
  {| sct_params := scanned_table; sct_state := state_after scanned_table sample_hash sample_time 99 ops scanned_new |}.
Definition scanned_set (ops : list TableOp) : TableDataSet (scan_table sample_state (uli_state sample_state)) :=
  fillColumnInfosFromTable (new_data_set scanned_info (scanned_after ops) []).

Lemma scanned_table_ok : table_ok scanned_table sample_hash 99.
Proof.
  assert (H22 : column_ok (sample_column 22) sample_hash 99) by (apply sample_column_ok; lia).
  split; [constructor; [split; [exact H22|done|vm_compute; done]|constructor; [split; [exact H22|done|vm_compute; done]|constructor]]|apply sample_column_ok; lia|unfold len; vm_compute; done|unfold len; vm_compute; done|unfold u_ok; vm_compute; done].
Qed.

Definition scanned_ops : list TableOp :=
  [TInsert [number 10; number 20] 0 sample_tp; TInsert [number 11; VNull] 0 sample_tp; TInsert [number 12; number 22] 0 sample_tp; TUpdate 1 [1%nat] [number 30] sample_tp; TDelete 2 sample_tp; TInsert [number 13] 40 sample_tp].

Lemma scanned_ops_ok : ops_ok scanned_table scanned_ops (new_atable scanned_table).
Proof. unfold scanned_ops. ops_ok_tac. Qed.

(** The conditions on the rows, decided. *)
Definition readable_row (T : table_params) (p : Z * arow) : bool :=
  negb (fst p mod 163 =? 162) && (length (snd p) =? length (t_columns T))%nat && forallb (fun q => readable (fst q) (fst (snd q))) (zip (t_columns T) (snd p)).

Lemma readable_rows T t : forallb (readable_row T) (map_to_list (at_rows t)) = true -> forall k row, at_rows t !! k = Some row -> row_readable T k row.
Proof.
  intros H k row Hk. rewrite List.forallb_forall in H. specialize (H (k, row)). assert (Hin : List.In (k, row) (map_to_list (at_rows t))) by (apply list_elem_of_In; by apply elem_of_map_to_list).
  specialize (H Hin). unfold readable_row in H. cbn [fst snd] in H. apply andb_prop in H as [H H3]. apply andb_prop in H as [H1 H2]. split.
  - change (k mod 163 <> 163 - 1). apply negb_true_iff, Z.eqb_neq in H1. lia.
  - apply Nat.eqb_eq in H2. apply Forall2_same_length_lookup_2; [done|]. intros i tc q Htc Hq. rewrite List.forallb_forall in H3. apply (H3 (tc, q)). apply list_elem_of_In.
    apply list_elem_of_lookup. exists i. rewrite lookup_zip_with, Htc, Hq. done.
Qed.

Lemma scan_index_ok : ix_ok trid_new ∅.
Proof. exact sample_index_ok. Qed.

(** The rows that these operations leave. *)
Lemma scanned_rows : exists t, atable_after scanned_table scanned_ops (new_atable scanned_table) = Some t /\ forallb (readable_row scanned_table) (map_to_list (at_rows t)) = true /\ (size (at_rows t) <= 4)%nat /\
  (fun p => row_id (fst p) :: (snd p).*2) <$> ordered_rows t =
    [[row_id 1; VNum (CI I32 10); VNum (CI I64 30)]; [row_id 3; VNum (CI I32 12); VNum (CI I64 22)]; [row_id 40; VNum (CI I32 13); VNull]].
Proof. eexists. split; [vm_compute; reflexivity|]. split; [vm_compute; reflexivity|]. split; [vm_compute; lia|vm_compute; reflexivity]. Qed.

Lemma table_scan_witness : fst (scan 4 (scanned_set scanned_ops)) =
  Ok [[row_id 1; VNum (CI I32 10); VNum (CI I64 30)]; [row_id 3; VNum (CI I32 12); VNum (CI I64 22)]; [row_id 40; VNum (CI I32 13); VNull]].
Proof.
  assert (Hc : cache_new (length scanned_ops) (sample_blocks 20)) by (apply sample_cache_new; cbn; lia). destruct scanned_rows as (t & Ha & Hr & Hs & Ht). rewrite <- Ht.
  apply (table_scan (TE := sample_env) scanned_table scanned_info [sample_blocks 20; sample_blocks 20] (sample_blocks 20) trid_new scanned_ops scanned_table_ok (ex_intro _ _ eq_refl)
    ltac:(vm_compute; split; [discriminate|reflexivity]) eq_refl scan_index_ok scanned_ops_ok 4 [] t (Forall_cons_2 _ _ _ Hc (Forall_cons_2 _ _ _ Hc (Forall_nil_2 _))) Hc eq_refl Ha (readable_rows _ _ Hr) Hs).
Defined.

(** With rows on both sides of the end of a file of the main index (163 records in
    a file), the scan goes from the last record of the first file to a wrong row:
    row 163 is skipped when row 164 exists, and without it the scan fails as if the
    index were corrupted. *)
Theorem scan_skips_row :
  let row k := TInsert [number k; VNull] k sample_tp in
  fst (scan 6 (scanned_set [row 1; row 162; row 163; row 164])) = Ok [[row_id 1; VNum (CI I32 1); VNull]; [row_id 162; VNum (CI I32 162); VNull]; [row_id 164; VNum (CI I32 164); VNull]] /\
  fst (scan 6 (scanned_set [row 1; row 162; row 163])) = Throw (TableFailed (MasterColumnRecordIndexCorrupted 3)).
Proof. vm_compute. auto. Qed.
