(* ===== verification/Query.v ===== *)
(** * Requests: what their handlers share

    The databases and tables a request names, the permissions of its user, and
    the parts of [RequestHandler_Common.cpp] that SELECT, UPDATE and DELETE share:
    [updateColumnsFromExpression], [checkWhereExpression], [addColumnToResponse].
    The expressions of a request are objects that the handlers change: the
    functions give the changed expression. *)

From stdpp Require Import base list gmap.
Set Warnings "-clear-no-such-hyp,-notation-incompatible-prefix,-notation-for-abbreviation".
From Stdlib Require Import ZArith Lia String Ascii.
From S2P Require Import Prelude StateM Bytes CNum VariantType Variant VariantCmp VariantConv ColumnType Expr ExprEval MasterColumn Table Users DataSet.

Local Open Scope Z_scope.

(** ** Names *)

Fixpoint chars (s : string) : list Z :=
  match s with EmptyString => [] | String c s' => Z.of_N (N_of_ascii c) :: chars s' end.

Definition m_allSystemTables : list (list Z) :=
  chars <$> ["SYS_TABLES"; "SYS_DUMMY"; "SYS_COLUMN_SETS"; "SYS_COLUMNS"; "SYS_COLUMN_DEFS"; "SYS_COLUMN_SET_COLUMNS"; "SYS_CONSTRAINT_DEFS"; "SYS_CONSTRAINTS";
             "SYS_COLUMN_DEF_CONSTRAINTS"; "SYS_INDICES"; "SYS_INDEX_COLUMNS"; "SYS_USERS"; "SYS_USER_ACCESS_KEYS"; "SYS_DATABASES"; "SYS_USER_PERMISSIONS"; "SYS_USER_TOKENS"]%string.
Definition isSystemTable (tableName : list Z) : bool := bool_decide (tableName ∈ m_allSystemTables).

(** ** Errors *)

(** The messages of the requests that are modelled, with their arguments. *)
Inductive ErrorRecord : Type :=
| ErrorInvalidDatabaseName (name : list Z)
| ErrorDatabaseDoesNotExist (name : list Z)
| ErrorInvalidTableName (name : list Z)
| ErrorInvalidTableAlias (alias : list Z)
| ErrorTableDoesNotExist (database table : list Z)
| ErrorUserDoesNotExist (id : Z)
| ErrorSelectWithoutTables
| ErrorCannotUseAllColumnsAlias (alias : list Z)
| ErrorTableDoesNotExistInContext (database table : list Z)
| ErrorInvalidColumnName (name : list Z)
| ErrorInvalidColumnAlias (alias : list Z)
| ErrorSelectDuplicateColumnName (name : list Z)
| ErrorSelectDuplicateColumnAlias (alias : list Z)
| ErrorColumnDoesNotExist (database table column : list Z)
| ErrorTableNotSpecified (table : list Z)
| ErrorColumnIsUnknown (table column : list Z)
| ErrorInvalidWhereCondition
| ErrorLimitValueTypeNotInteger
| ErrorLimitValueIsNegative
| ErrorOffsetValueTypeNotInteger
| ErrorOffsetValueIsNegative
| ErrorColumnsListIsEmpty (database table : list Z)
| ErrorValuesListIsEmpty
| ErrorCannotUpdateSystemTable (database table : list Z)
| ErrorCannotDeleteFromSystemTable (database table : list Z)
| ErrorCannotInsertToSystemTable (database table : list Z)
| ErrorCannotUpdateMasterColumn (database table : list Z)
| ErrorUpdateTableIsNotEqualToColumnTable (table columnTable column : list Z)
| ErrorUpdateDuplicateColumnName (column : list Z)
| ErrorUpdateInvalidValueExpression
| ErrorTooManyColumnsToInsert (database table : list Z) (values columns : Z)
| ErrorCannotInsertIntoMasterColumn
| ErrorValuesListNotMatchColumns (database table : list Z) (columns row values : Z)
| ErrorValuesListLengthsNotSame (database table : list Z) (columns row values : Z).

Inductive RequestError : Type :=
| DatabaseError (r : ErrorRecord)
| CompoundDatabaseError (errors : list ErrorRecord)
| DataSetFailed (e : DataSetError)
| ExpressionFailed (e : ExpressionError)
| VariantFailed (e : VariantError)
| OutOfRange.

(** [CompoundDatabaseError] is not a [DatabaseError]. *)
Definition request_exception (e : RequestError) : exception_class :=
  match e with
  | DatabaseError _ => DatabaseException
  | CompoundDatabaseError _ => RuntimeException
  | DataSetFailed e => data_set_exception e
  | ExpressionFailed e => expression_exception e
  | VariantFailed e => variant_exception e
  | OutOfRange => OtherException
  end.

Definition expression_result {A} (c : outcome ExpressionError A) : outcome RequestError A := map_error ExpressionFailed c.

(** The handlers of WHERE catch [std::runtime_error] and [VariantLogicError]. *)
Definition where_error {A} (c : outcome RequestError A) : outcome RequestError A :=
  match c with
  | Throw e => Throw (match request_exception e with OtherException => e | _ => DatabaseError ErrorInvalidWhereCondition end)
  | _ => c
  end.

(** ** Databases and users *)

Record database {T : Type} : Type := { db_id : Z; db_name : list Z; db_tables : list (table_info * T) }.
Arguments database T : clear implicits.
Record request_handler {T : Type} : Type := {
  h_databases : list (database T); h_users : gmap Z User; m_currentDatabaseName : list Z; m_currentUserId : Z
}.
Arguments request_handler T : clear implicits.

Section Handler.
Context {T : Type} {ST : ScanTable T} (h : request_handler T).

Definition findDatabaseChecked (name : list Z) : outcome RequestError (database T) :=
  match List.find (fun d => bool_decide (db_name d = name)) (h_databases h) with
  | Some d => Ok d
  | None => Throw (DatabaseError (ErrorDatabaseDoesNotExist name))
  end.

Definition findTableChecked (d : database T) (name : list Z) : outcome RequestError (table_info * T) :=
  match List.find (fun t => bool_decide (tbl_name (fst t) = name)) (db_tables d) with
  | Some t => Ok t
  | None => Throw (DatabaseError (ErrorTableDoesNotExist (db_name d) name))
  end.

(** [Table::isOperationPermitted]. *)
Definition isOperationPermitted (d : database T) (tableId : Z) (p : PermissionType) (user : User) : bool :=
  let has databaseId objectId :=
    hasPermissions {| pk_databaseId := databaseId; pk_objectType := DatabaseObjectType.kTable; pk_objectId := objectId |} (getSinglePermissionMask p) false user in
  has (db_id d) tableId || has (db_id d) 0 || has 0 0.

Definition checkOperationPermitted (d : database T) (info : table_info) (p : PermissionType) : outcome RequestError unit :=
  match h_users h !! m_currentUserId h with
  | None => Throw (DatabaseError (ErrorUserDoesNotExist (m_currentUserId h)))
  | Some user =>
      if isOperationPermitted d (tbl_id info) p user then Ok tt else Throw (DatabaseError (ErrorTableDoesNotExist (db_name d) (tbl_name info)))
  end.

(** The name of the database of a request: given, or the current one. *)
Definition request_database (name : list Z) : list Z := match name with [] => m_currentDatabaseName h | _ => name end.
End Handler.

(** ** Columns of a response *)

Record ColumnDescription : Type := { cd_name : list Z; cd_isNullable : bool; cd_type : ColumnDataType }.

Definition addColumnToResponse (c : column_info) (alias : list Z) (response : list ColumnDescription) : list ColumnDescription :=
  response ++ [{| cd_name := match alias with [] => col_name c | _ => alias end; cd_isNullable := negb (col_notNull c); cd_type := col_dataType c |}].

(** ** Columns of expressions *)

Section Columns.
Context {T : Type} {ST : ScanTable T}.
Notation data_set := (TableDataSet T).

(** The data sets, for each of them the indices of the known columns (-1 for a
    column that does not exist), and the errors. *)
Record column_state : Type := { cs_dataSets : list data_set; cs_columns : list (gmap (list Z) Z); cs_errors : list ErrorRecord }.
Definition CM (A : Type) : Type := SM column_state RequestError A.

Definition add_error (e : ErrorRecord) : CM unit :=
  modify (fun s => {| cs_dataSets := cs_dataSets s; cs_columns := cs_columns s; cs_errors := cs_errors s ++ [e] |}).
Definition set_known (i : nat) (name : list Z) (index : Z) : CM unit :=
  modify (fun s => {| cs_dataSets := cs_dataSets s; cs_columns := alter (insert name index) i (cs_columns s); cs_errors := cs_errors s |}).
Definition add_column (i : nat) (info : DataSetColumnInfo) : CM unit :=
  modify (fun s => {| cs_dataSets := alter (emplaceColumnInfo info) i (cs_dataSets s); cs_columns := cs_columns s; cs_errors := cs_errors s |}).

(** The first data set with a name or an alias. *)
Fixpoint find_data_set (name : list Z) (l : list data_set) (i : nat) : option nat :=
  match l with
  | [] => None
  | d :: l' => if bool_decide (name = tbl_name (ds_table d)) || bool_decide (name = ds_alias d) then Some i else find_data_set name l' (S i)
  end.

(** A reference to a column. *)
Definition update_column (tableName columnName : list Z) (tables : list Z) (column : option Z) : CM Expression :=
  s <-- gets (fun s => s) ;;
  let unchanged := SingleColumnExpression tableName columnName tables column in
  let resolved (i : nat) (index : Z) := SingleColumnExpression tableName columnName [Z.of_nat i] (Some index) in
  match (match tableName with [] => Some O | _ => find_data_set tableName (cs_dataSets s) 0 end) with
  | None => add_error (ErrorTableNotSpecified tableName) ;;' mret unchanged
  | Some i =>
      match cs_columns s !! i, cs_dataSets s !! i with
      | Some known, Some d =>
          match known !! columnName with
          | None =>
              set_known i columnName (-1) ;;'
              match findColumnPosition (ds_table d) columnName with
              | Some columnPos =>
                  let newColumnIndex := len (m_columnInfos d) in
                  set_known i columnName newColumnIndex ;;'
                  add_column i {| m_posInTable := columnPos; ci_name := columnName; ci_alias := [] |} ;;'
                  mret (resolved i newColumnIndex)
              | None => add_error (ErrorColumnIsUnknown tableName columnName) ;;' mret unchanged
              end
          | Some index => mret (if index =? -1 then unchanged else resolved i index)
          end
      | _, _ => mlift (Undef OutOfBounds)
      end
  end.

(** The expressions are visited with a stack: the operands from the last to the
    first.  Lists are not visited. *)
Fixpoint update_columns (e : Expression) : CM Expression :=
  let update_all := fix update_all (l : list Expression) : CM (list Expression) :=
    match l with
    | [] => mret []
    | x :: l' => l1 <-- update_all l' ;; x1 <-- update_columns x ;; mret (x1 :: l1)
    end in
  match e with
  | SingleColumnExpression t c tables column => update_column t c tables column
  | UnaryOperator op a => a1 <-- update_columns a ;; mret (UnaryOperator op a1)
  | BinaryOperator op a b => b1 <-- update_columns b ;; a1 <-- update_columns a ;; mret (BinaryOperator op a1 b1)
  | LikeOperator a b n => b1 <-- update_columns b ;; a1 <-- update_columns a ;; mret (LikeOperator a1 b1 n)
  | IsOperator a b n => b1 <-- update_columns b ;; a1 <-- update_columns a ;; mret (IsOperator a1 b1 n)
  | CastOperator a b => b1 <-- update_columns b ;; a1 <-- update_columns a ;; mret (CastOperator a1 b1)
  | BetweenOperator a b c n =>
      c1 <-- update_columns c ;; b1 <-- update_columns b ;; a1 <-- update_columns a ;; mret (BetweenOperator a1 b1 c1 n)
  | InOperator v l n => l1 <-- update_all l ;; v1 <-- update_columns v ;; mret (InOperator v1 l1 n)
  | ConstantExpression _ | AllColumnsExpression _ _ | ListExpression _ => mret e
  end.

(** [insert] keeps the first column of a name. *)
Fixpoint known_from (i : nat) (l : list DataSetColumnInfo) (m : gmap (list Z) Z) : gmap (list Z) Z :=
  match l with
  | [] => m
  | info :: l' => known_from (S i) l' (match m !! ci_name info with Some _ => m | None => <[ci_name info := Z.of_nat i]> m end)
  end.
Definition known_columns (d : data_set) : gmap (list Z) Z := known_from 0 (m_columnInfos d) ∅.

(** The data sets and the errors are changed. *)
Definition updateColumnsFromExpression (expression : Expression) (dataSets : list data_set) (errors : list ErrorRecord)
    : outcome RequestError (Expression * list data_set * list ErrorRecord) :=
  match update_columns expression {| cs_dataSets := dataSets; cs_columns := known_columns <$> dataSets; cs_errors := errors |} with
  | (Ok e, s) => Ok (e, cs_dataSets s, cs_errors s)
  | (Throw e, _) => Throw e
  | (Undef u, _) => Undef u
  end.

(** ** The condition of a request *)

Context {X : Externals}.

Definition checkWhereExpression (whereExpression : option Expression) (dataSets : list data_set) : outcome RequestError unit :=
  match whereExpression with
  | None => Ok tt
  | Some e =>
      match validate (DBExpressionEvaluationContext dataSets) e with
      | Ok _ =>
          t <- expression_result (getResultValueType (DBExpressionEvaluationContext dataSets) e) ;;
          if isBoolType t then Ok tt else Throw (DatabaseError ErrorInvalidWhereCondition)
      | Throw _ => Throw (DatabaseError ErrorInvalidWhereCondition)
      | Undef u => Undef u
      end
  end.

(** [getBool] does not look at the type: the representation of a null value is a
    null pointer. *)
Definition getBool (v : Variant) : outcome RequestError bool :=
  match v with VBool b => Ok b | VNull => Ok false | _ => Undef Uninitialized end.
End Columns.
Arguments column_state T : clear implicits.
