(* ===== verification/QuerySpec.v ===== *)
(** * Rows, names and values in requests

    The evaluation of an expression depends on the values and types of the
    columns only; the context of the data sets on their current rows is the one of
    these rows.  A column that an expression names is resolved to the column of
    that name. *)

From stdpp Require Import base list gmap.
Set Warnings "-clear-no-such-hyp,-notation-incompatible-prefix,-notation-for-abbreviation".
From Stdlib Require Import ZArith Lia.
From S2P Require Import Prelude StateM Bytes CNum VariantType Variant VariantCmp VariantConv ColumnType Expr ExprEval MasterColumn Table Users DataSet DataSetSpec Query.

Local Open Scope Z_scope.

(** ** Contexts *)

Section Extensional.
Context {X : Externals} (c1 c2 : ExpressionEvaluationContext).

Definition same_values : Prop := forall t c, getColumnValue c1 t c = getColumnValue c2 t c.
Definition same_types : Prop := forall t c, context_getColumnDataType c1 t c = context_getColumnDataType c2 t c.

Lemma evaluate_ext e : same_values -> evaluate c1 e = evaluate c2 e.
Proof.
  intros Hv. induction e as [v|t c i j|t i|l Hl|op a Ha|op a b Ha Hb|a b n Ha Hb|a b c n Ha Hb Hc|v l n Hx Hl|a b n Ha Hb|a b Ha Hb] using Expression_induction; cbn [evaluate]; try done.
  - destruct (column_indices i j) as [[t' c']| |]; cbn [bind]; [|done..]. by rewrite Hv.
  - generalize VNull. induction Hl as [|x l Hx Hl IH]; intros v; [done|]. rewrite Hx. destruct (evaluate c2 x); cbn [bind]; [apply IH|done..].
  - by rewrite Ha.
  - destruct op; by rewrite Ha, Hb.
  - by rewrite Ha, Hb.
  - by rewrite Ha, Hb, Hc.
  - rewrite Hx. destruct (evaluate c2 v) as [w| |]; cbn [bind]; [|done..]. destruct (isNull w); [done|]. f_equal. clear Hx.
    induction Hl as [|x l Hx Hl IH]; [done|]. rewrite Hx. destruct (evaluate c2 x) as [y| |]; cbn [bind]; [|done..].
    destruct (if isNull y then Ok false else eval_equal y w) as [[]| |]; cbn [bind]; [done|apply IH|done..].
  - by rewrite Ha, Hb.
  - by rewrite Ha.
Qed.

Lemma getResultValueType_ext e : same_types -> getResultValueType c1 e = getResultValueType c2 e.
Proof.
  intros Hv. induction e as [v|t c i j|t i|l Hl|op a Ha|op a b Ha Hb|a b n Ha Hb|a b c n Ha Hb Hc|v l n Hx Hl|a b n Ha Hb|a b Ha Hb] using Expression_induction; cbn [getResultValueType]; try done.
  - destruct (column_indices i j) as [[t' c']| |]; cbn [bind]; [|done..]. by rewrite Hv.
  - induction Hl as [|x l Hx Hl IH]; [done|]. destruct l; [done|]. apply IH.
  - by rewrite Ha.
  - by rewrite Ha, Hb.
Qed.
End Extensional.

Section Rows.
Context {T : Type} {ST : ScanTable T} {SL : ScanTableLaws T} {X : Externals}.
Notation data_set := (TableDataSet T).

(** The values of the columns of data sets in given rows. *)
Definition rows_context (shapes : list data_set) (rows : list stored_row) : ExpressionEvaluationContext := {|
  getColumnValue t c :=
    match d ← shapes !! Z.to_nat t; r ← rows !! Z.to_nat t; column_of d r (Z.to_nat c) with
    | Some v => Ok v
    | None => Throw (ContextFailed OtherException)
    end;
  context_getColumnDataType := context_getColumnDataType (DBExpressionEvaluationContext shapes)
|}.

(** The data sets stand on given rows of their tables. *)
Definition standing (l : list data_set) (tables : list (list stored_row)) (rows : list stored_row) : Prop :=
  Forall2 ds_ok l tables /\ Forall2 (fun rs r => r ∈ rs) tables rows /\ Forall2 on_row l rows.

Lemma context_values shapes l tables rows : Forall2 same_shape shapes l -> standing l tables rows ->
  same_values (DBExpressionEvaluationContext l) (rows_context shapes rows).
Proof.
  intros Hsh (Hok & Hin & Hon) t c. cbn [getColumnValue DBExpressionEvaluationContext rows_context]. destruct (shapes !! Z.to_nat t) as [d0|] eqn:H0.
  - destruct (Forall2_lookup_l _ _ _ _ _ Hsh H0) as (d & Hd & Hs). rewrite Hd. destruct (Forall2_lookup_l _ _ _ _ _ Hon Hd) as (r & Hr & Ho).
    destruct (Forall2_lookup_l _ _ _ _ _ Hok Hd) as (rs & Hrs & Hk). rewrite Hr. cbn [base.mbind option_bind]. destruct (Forall2_lookup_r _ _ _ _ _ Hin Hr) as (rs' & Hrs' & Hrin). rewrite Hrs in Hrs'. injection Hrs' as <-.
    rewrite <- (shape_column d0 d r (Z.to_nat c) Hs). destruct (decide (Z.to_nat c < length (m_columnInfos d))%nat) as [Hc|Hc].
    + destruct (getColumnValue_ok d rs r (Z.to_nat c) Hk Hrin Ho Hc) as (v & d' & -> & -> & _). done.
    + destruct (getColumnValue_out d r (Z.to_nat c) Ho Hc) as (e & -> & He). cbn. rewrite He. unfold column_of. by rewrite (lookup_ge_None_2 (m_columnInfos d)) by lia.
  - rewrite (proj2 (lookup_ge_None l (Z.to_nat t))); [done|]. rewrite <- (Forall2_length _ _ _ Hsh). by apply lookup_ge_None.
Qed.

Lemma context_types shapes l : Forall2 same_shape shapes l -> same_types (DBExpressionEvaluationContext l) (DBExpressionEvaluationContext shapes).
Proof.
  intros Hsh t c. cbn. destruct (shapes !! Z.to_nat t) as [d0|] eqn:H0.
  - destruct (Forall2_lookup_l _ _ _ _ _ Hsh H0) as (d & -> & (_ & Ht & Hi)). unfold ds_getColumnDataType. cbn. by rewrite Ht, Hi.
  - rewrite (proj2 (lookup_ge_None l (Z.to_nat t))); [done|]. rewrite <- (Forall2_length _ _ _ Hsh). by apply lookup_ge_None.
Qed.
End Rows.

(** ** Resolved names *)

Section Names.
Context {T : Type} {ST : ScanTable T} {X : Externals}.
Notation data_set := (TableDataSet T).

(** The names of the columns of a table differ, and a column of a data set is
    the column of its table with its name. *)
Definition names_ok (d : data_set) : Prop :=
  NoDup (col_name <$> tbl_columns (ds_table d)) /\
  Forall (fun i => findColumnPosition (ds_table d) (ci_name i) = Some (m_posInTable i)) (m_columnInfos d).

(** A data set with more columns. *)
Definition grows (d d' : data_set) : Prop :=
  ds_alias d' = ds_alias d /\ ds_table d' = ds_table d /\ m_table d' = m_table d /\ exists infos, m_columnInfos d' = m_columnInfos d ++ infos.

Lemma grows_refl d : grows d d.
Proof. repeat split; [done..|]. exists []. by rewrite app_nil_r. Qed.
Lemma grows_trans d1 d2 d3 : grows d1 d2 -> grows d2 d3 -> grows d1 d3.
Proof. intros (A & B & C & i1 & D) (E & F & G & i2 & H). repeat split; [congruence..|]. exists (i1 ++ i2). by rewrite H, D, app_assoc. Qed.
Lemma grows_all_refl l : Forall2 grows l l.
Proof. induction l; constructor; [apply grows_refl|done]. Qed.
Lemma grows_all_trans l1 l2 l3 : Forall2 grows l1 l2 -> Forall2 grows l2 l3 -> Forall2 grows l1 l3.
Proof. intros H. revert l3. induction H as [|d d' l l' Hd H IH]; intros l3 H2; inversion H2; subst; constructor; [by eapply grows_trans|by apply IH]. Qed.

(** The same without the table. *)
Definition wider (d d' : data_set) : Prop := ds_alias d' = ds_alias d /\ ds_table d' = ds_table d /\ exists infos, m_columnInfos d' = m_columnInfos d ++ infos.
Lemma grows_wider l l' : Forall2 grows l l' -> Forall2 wider l l'.
Proof. intros H. eapply Forall2_impl; [exact H|]. intros d d' (A & B & _ & C). by split. Qed.
Lemma shape_wider l l' : Forall2 same_shape l l' -> Forall2 wider l l'.
Proof. intros H. eapply Forall2_impl; [exact H|]. intros d d' (A & B & C). split; [done|]. split; [done|]. exists []. by rewrite app_nil_r. Qed.

(** The data set a name belongs to: the first one without a name. *)
Definition data_set_of (tableName : list Z) (l : list data_set) : option nat :=
  match tableName with [] => Some O | _ => find_data_set tableName l 0 end.

(** A reference has the indices of the column it names. *)
Definition column_resolved (l : list data_set) (tableName columnName tables : list Z) (column : option Z) : Prop :=
  exists i d j info, tables = [Z.of_nat i] /\ column = Some (Z.of_nat j) /\ data_set_of tableName l = Some i /\ l !! i = Some d /\
    m_columnInfos d !! j = Some info /\ findColumnPosition (ds_table d) columnName = Some (m_posInTable info).

(** The references of an expression, except those in lists. *)
Fixpoint resolved (l : list data_set) (e : Expression) : Prop :=
  let all := fix all (es : list Expression) : Prop := match es with [] => True | x :: es' => resolved l x /\ all es' end in
  match e with
  | SingleColumnExpression t c tables column => column_resolved l t c tables column
  | UnaryOperator _ a => resolved l a
  | BinaryOperator _ a b | LikeOperator a b _ | IsOperator a b _ | CastOperator a b => resolved l a /\ resolved l b
  | BetweenOperator a b c _ => resolved l a /\ resolved l b /\ resolved l c
  | InOperator v es _ => resolved l v /\ all es
  | _ => True
  end.

(** An expression without its indices. *)
Fixpoint forget (e : Expression) : Expression :=
  match e with
  | AllColumnsExpression t _ => AllColumnsExpression t []
  | SingleColumnExpression t c _ _ => SingleColumnExpression t c [] None
  | UnaryOperator op a => UnaryOperator op (forget a)
  | BinaryOperator op a b => BinaryOperator op (forget a) (forget b)
  | LikeOperator a b n => LikeOperator (forget a) (forget b) n
  | IsOperator a b n => IsOperator (forget a) (forget b) n
  | CastOperator a b => CastOperator (forget a) (forget b)
  | BetweenOperator a b c n => BetweenOperator (forget a) (forget b) (forget c) n
  | InOperator v l n => InOperator (forget v) (List.map forget l) n
  | _ => e
  end.

Lemma find_data_set_wider name l l' i : Forall2 wider l l' -> find_data_set name l' i = find_data_set name l i.
Proof. intros H. revert i. induction H as [|d d' l l' (Ha & Ht & _) H IH]; intros i; cbn; [done|]. by rewrite Ha, Ht, IH. Qed.

Lemma find_data_set_grows name l l' i : Forall2 grows l l' -> find_data_set name l' i = find_data_set name l i.
Proof. intros H. by apply find_data_set_wider, grows_wider. Qed.

Lemma column_resolved_wider l l' t c tables column : Forall2 wider l l' -> column_resolved l t c tables column -> column_resolved l' t c tables column.
Proof.
  intros Hg (i & d & j & info & -> & -> & Hof & Hd & Hinfo & Hp). destruct (Forall2_lookup_l _ _ _ _ _ Hg Hd) as (d' & Hd' & (Ha & Ht & infos & Hi)).
  exists i, d', j, info. split; [done|]. split; [done|]. split; [unfold data_set_of in *; destruct t; [done|]; by rewrite (find_data_set_wider _ _ _ _ Hg)|].
  split; [done|]. rewrite Ht, Hi. split; [by apply lookup_app_l_Some|done].
Qed.

Lemma resolved_wider l l' e : Forall2 wider l l' -> resolved l e -> resolved l' e.
Proof.
  intros Hg. induction e as [v|t c i j|t i|es Hl|op a Ha|op a b Ha Hb|a b n Ha Hb|a b c n Ha Hb Hc|v es n Hx Hl|a b n Ha Hb|a b Ha Hb] using Expression_induction; cbn [resolved]; try tauto.
  - by apply column_resolved_wider.
  - intros [Hv Hes]. split; [by apply Hx|]. clear Hx Hv. induction Hl as [|x es Hx Hl IH]; [done|]. destruct Hes as [Hex Hes]. split; [by apply Hx|by apply IH].
Qed.

Lemma resolved_grows l l' e : Forall2 grows l l' -> resolved l e -> resolved l' e.
Proof. intros H. by apply resolved_wider, grows_wider. Qed.

Lemma names_infos d : names_ok d -> infos_ok d.
Proof. intros [_ H]. eapply Forall_impl; [exact H|]. intros i Hi%find_position_lt. cbn in Hi. lia. Qed.

(** ** Resolving an expression *)

Record columns_ok (s : column_state T) : Prop := {
  co_length : length (cs_columns s) = length (cs_dataSets s);
  co_names : Forall names_ok (cs_dataSets s);
  co_known : forall i d m name index, cs_dataSets s !! i = Some d -> cs_columns s !! i = Some m -> m !! name = Some index ->
    (index = -1 /\ cs_errors s <> []) \/
    exists j info, index = Z.of_nat j /\ m_columnInfos d !! j = Some info /\ findColumnPosition (ds_table d) name = Some (m_posInTable info)
}.

Definition state_grows (s s' : column_state T) : Prop :=
  Forall2 grows (cs_dataSets s) (cs_dataSets s') /\ exists errors, cs_errors s' = cs_errors s ++ errors.

Lemma state_grows_refl s : state_grows s s.
Proof. split; [apply grows_all_refl|]. exists []. by rewrite app_nil_r. Qed.
Lemma state_grows_trans s1 s2 s3 : state_grows s1 s2 -> state_grows s2 s3 -> state_grows s1 s3.
Proof. intros (A & e1 & B) (C & e2 & D). split; [by eapply grows_all_trans|]. exists (e1 ++ e2). by rewrite D, B, app_assoc. Qed.
Lemma state_grows_clean s s' : state_grows s s' -> cs_errors s' = [] -> cs_errors s = [].
Proof. intros (_ & e & H). rewrite H. by intros [? _]%app_nil. Qed.

Lemma add_error_ok s e : columns_ok s -> exists s', add_error e s = (Ok tt, s') /\ columns_ok s' /\ state_grows s s' /\ cs_errors s' <> [].
Proof.
  intros [H1 H2 H3]. eexists. split; [reflexivity|]. split; [split; cbn; [done|done|]|split].
  - intros i d m name index Hd Hm Hn. destruct (H3 i d m name index Hd Hm Hn) as [[-> _]|?]; [left|by right]. split; [done|]. intros [_ ?]%app_nil. done.
  - split; [apply grows_all_refl|]. by exists [e].
  - cbn. by intros [_ ?]%app_nil.
Qed.

(** A new column of data set [i]. *)
Definition with_column (i : nat) (name : list Z) (pos : nat) (d : data_set) (s : column_state T) : column_state T :=
  {| cs_dataSets := alter (emplaceColumnInfo {| m_posInTable := pos; ci_name := name; ci_alias := [] |}) i (cs_dataSets s);
     cs_columns := alter (insert name (len (m_columnInfos d))) i (alter (insert name (-1)) i (cs_columns s)); cs_errors := cs_errors s |}.

Lemma with_column_ok s i name pos d : columns_ok s -> cs_dataSets s !! i = Some d -> findColumnPosition (ds_table d) name = Some pos ->
  columns_ok (with_column i name pos d s) /\ state_grows s (with_column i name pos d s) /\
  cs_dataSets (with_column i name pos d s) !! i = Some (emplaceColumnInfo {| m_posInTable := pos; ci_name := name; ci_alias := [] |} d).
Proof.
  intros [H1 H2 H3] Hd Hp. set (info := {| m_posInTable := pos; ci_name := name; ci_alias := [] |}). assert (Hi : cs_dataSets (with_column i name pos d s) !! i = Some (emplaceColumnInfo info d)).
  { cbn. by rewrite list_lookup_alter, decide_True, Hd by done. }
  split; [split|split; [|exact Hi]].
  - cbn. by rewrite !length_alter.
  - apply Forall_lookup. intros k d' Hk. destruct (decide (k = i)) as [->|Hne].
    + rewrite Hi in Hk. injection Hk as <-. destruct (Forall_lookup_1 _ _ _ _ H2 Hd) as [Hn Hf]. split; [done|]. cbn. apply Forall_app. split; [done|]. by repeat constructor.
    + cbn in Hk. rewrite list_lookup_alter_ne in Hk by done. by apply (Forall_lookup_1 _ _ _ _ H2 Hk).
  - intros k d' m nm index Hk Hm Hn. destruct (decide (k = i)) as [->|Hne].
    + rewrite Hi in Hk. injection Hk as <-. cbn in Hm. rewrite !list_lookup_alter, !decide_True in Hm by done. destruct (cs_columns s !! i) as [m0|] eqn:Hm0; [|done]. cbn in Hm. injection Hm as <-.
      rewrite lookup_insert in Hn. case_decide as Hnm.
      * subst nm. injection Hn as <-. right. exists (length (m_columnInfos d)), info. split; [done|]. cbn. split; [|done]. by rewrite lookup_app_r, Nat.sub_diag by lia.
      * rewrite lookup_insert_ne in Hn by done. destruct (H3 i d m0 nm index Hd Hm0 Hn) as [[-> ?]|(j & info' & -> & Hj & Hpos)]; [by left|right]. exists j, info'. split; [done|].
        cbn. split; [by apply lookup_app_l_Some|done].
    + cbn in Hk, Hm. rewrite list_lookup_alter_ne in Hk by done. rewrite !list_lookup_alter_ne in Hm by done. by apply (H3 k d' m nm index).
  - split; [|exists []; by rewrite app_nil_r]. apply Forall2_same_length_lookup_2; [cbn; by rewrite length_alter|]. intros k x y Hx Hy. destruct (decide (k = i)) as [->|Hne].
    + rewrite Hi in Hy. injection Hy as <-. rewrite Hd in Hx. injection Hx as <-. repeat split; [done..|]. by exists [info].
    + cbn in Hy. rewrite list_lookup_alter_ne in Hy by done. rewrite Hx in Hy. injection Hy as <-. apply grows_refl.
Qed.

(** A column that data set [i] does not have. *)
Definition with_unknown (i : nat) (name : list Z) (e : ErrorRecord) (s : column_state T) : column_state T :=
  {| cs_dataSets := cs_dataSets s; cs_columns := alter (insert name (-1)) i (cs_columns s); cs_errors := cs_errors s ++ [e] |}.

Lemma with_unknown_ok s i name e : columns_ok s -> columns_ok (with_unknown i name e s) /\ state_grows s (with_unknown i name e s).
Proof.
  intros [H1 H2 H3]. split; [split|]; cbn; [by rewrite length_alter|done| |].
  - assert (He : cs_errors s ++ [e] <> []) by (by intros [_ ?]%app_nil). intros k d m nm index Hk Hm Hn.
    assert (Hold : forall m0, cs_columns s !! k = Some m0 -> m0 !! nm = Some index -> (index = -1 /\ cs_errors s ++ [e] <> []) \/
      exists j info, index = Z.of_nat j /\ m_columnInfos d !! j = Some info /\ findColumnPosition (ds_table d) nm = Some (m_posInTable info)).
    { intros m0 Hm0 Hnm0. destruct (H3 k d m0 nm index Hk Hm0 Hnm0) as [[-> _]|?]; [by left|by right]. }
    destruct (decide (k = i)) as [->|Hne].
    + rewrite list_lookup_alter, decide_True in Hm by done. destruct (cs_columns s !! i) as [m0|]; [|done]. cbn in Hm. injection Hm as <-. rewrite lookup_insert in Hn.
      case_decide as Hnm; [injection Hn as <-; by left|by apply (Hold m0)].
    + rewrite list_lookup_alter_ne in Hm by done. by apply (Hold m).
  - split; [apply grows_all_refl|by exists [e]].
Qed.

Lemma find_data_set_lt name (l : list data_set) i k : find_data_set name l i = Some k -> (i <= k < i + length l)%nat.
Proof. revert i. induction l as [|d l IH]; intros i; cbn; [done|]. destruct (_ || _); [intros [= <-]; lia|]. intros H%IH. lia. Qed.

Lemma update_column_ok t c tables column s : columns_ok s -> cs_dataSets s <> [] ->
  exists e' s', update_column t c tables column s = (Ok e', s') /\ columns_ok s' /\ state_grows s s' /\
    (cs_errors s' = [] -> resolved (cs_dataSets s') e') /\ forget e' = SingleColumnExpression t c [] None.
Proof.
  intros Hs Hne. unfold update_column. rewrite mbind_gets. destruct (match t with [] => Some 0%nat | _ => find_data_set t (cs_dataSets s) 0 end) as [i|] eqn:Hof.
  - assert (Hi : (i < length (cs_dataSets s))%nat).
    { destruct t; [injection Hof as <-; destruct (cs_dataSets s); [done|cbn; lia]|]. apply find_data_set_lt in Hof. lia. }
    destruct (lookup_lt_is_Some_2 _ _ Hi) as [d Hd]. rewrite <- (co_length _ Hs) in Hi. destruct (lookup_lt_is_Some_2 _ _ Hi) as [known Hk]. rewrite Hk, Hd.
    destruct (known !! c) as [index|] eqn:Hc.
    + destruct (co_known _ Hs i d known c index Hd Hk Hc) as [[-> He]|(j & info & -> & Hj & Hp)].
      * rewrite Z.eqb_refl. eexists _, s. split; [reflexivity|]. split; [done|]. split; [apply state_grows_refl|]. split; [by intros ?|done].
      * rewrite (proj2 (Z.eqb_neq _ _)) by lia. eexists _, s. split; [reflexivity|]. split; [done|]. split; [apply state_grows_refl|]. split; [|done].
        intros _. by exists i, d, j, info.
    + destruct (findColumnPosition (ds_table d) c) as [pos|] eqn:Hp.
      * destruct (with_column_ok s i c pos d Hs Hd Hp) as (A & B & C). eexists _, (with_column i c pos d s). split; [reflexivity|]. split; [done|]. split; [done|]. split; [|done].
        intros _. exists i, (emplaceColumnInfo {| m_posInTable := pos; ci_name := c; ci_alias := [] |} d), (length (m_columnInfos d)), {| m_posInTable := pos; ci_name := c; ci_alias := [] |}.
        split; [done|]. split; [done|]. split; [unfold data_set_of; destruct t; [done|]; by rewrite (find_data_set_grows _ _ _ _ (proj1 B))|]. split; [done|]. cbn. split; [|done].
        by rewrite lookup_app_r, Nat.sub_diag by lia.
      * destruct (with_unknown_ok s i c (ErrorColumnIsUnknown t c) Hs) as [A B]. eexists _, (with_unknown i c (ErrorColumnIsUnknown t c) s). split; [reflexivity|]. split; [done|]. split; [done|].
        split; [|done]. cbn. by intros [_ ?]%app_nil.
  - destruct (add_error_ok s (ErrorTableNotSpecified t) Hs) as (s' & E & A & B & C). run_step E. eexists _, s'. split; [reflexivity|]. split; [done|]. split; [done|]. by split.
Qed.

(** Resolving [e] from a state gives [e'] and another one. *)
Definition resolves (e : Expression) : Prop := forall s, columns_ok s -> cs_dataSets s <> [] ->
  exists e' s', update_columns e s = (Ok e', s') /\ columns_ok s' /\ state_grows s s' /\ (cs_errors s' = [] -> resolved (cs_dataSets s') e') /\ forget e' = forget e.

Lemma state_grows_nonempty s s' : state_grows s s' -> cs_dataSets s <> [] -> cs_dataSets s' <> [].
Proof. intros [H _] Hne Hnil. rewrite Hnil in H. apply Hne. by inversion H. Qed.

Lemma resolved_later s s' e : state_grows s s' -> (cs_errors s = [] -> resolved (cs_dataSets s) e) -> cs_errors s' = [] -> resolved (cs_dataSets s') e.
Proof. intros Hg H He. apply (resolved_grows (cs_dataSets s)); [apply Hg|]. apply H. by apply (state_grows_clean s s'). Qed.

(** One operand. *)
Ltac visit H s Hs Hne := let e1 := fresh "e" in let s1 := fresh "s" in let E := fresh "E" in let Hok := fresh "Hok" in let Hg := fresh "Hg" in let Hr := fresh "Hr" in let Hf := fresh "Hf" in
  destruct (H s Hs Hne) as (e1 & s1 & E & Hok & Hg & Hr & Hf); run_step E; pose proof (state_grows_nonempty _ _ Hg Hne).

(** A binary operator resolves its right operand first. *)
Lemma resolves_two a b (mk : Expression -> Expression -> Expression) : resolves a -> resolves b ->
  (forall l x y, resolved l (mk x y) <-> resolved l x /\ resolved l y) -> (forall x y, forget (mk x y) = mk (forget x) (forget y)) ->
  forall s, columns_ok s -> cs_dataSets s <> [] ->
  exists e' s', (b1 <-- update_columns b ;; a1 <-- update_columns a ;; mret (mk a1 b1)) s = (Ok e', s') /\ columns_ok s' /\ state_grows s s' /\
    (cs_errors s' = [] -> resolved (cs_dataSets s') e') /\ forget e' = forget (mk a b).
Proof.
  intros Ha Hb Hres Hfor s Hs Hne. visit Hb s Hs Hne. visit Ha s0 Hok H. eexists _, s1. split; [reflexivity|]. split; [done|]. split; [by eapply state_grows_trans|]. split.
  - intros He. apply Hres. split; [by apply Hr0|]. by apply (resolved_later s0).
  - by rewrite !Hfor, Hf, Hf0.
Qed.

Lemma resolve_columns_ok e : resolves e.
Proof.
  induction e as [v|t c i j|t i|es Hl|op a Ha|op a b Ha Hb|a b n Ha Hb|a b c n Ha Hb Hc|v es n Hx Hl|a b n Ha Hb|a b Ha Hb] using Expression_induction; intros s Hs Hne; cbn [update_columns];
    try (eexists _, s; split; [reflexivity|]; split; [done|]; split; [apply state_grows_refl|done]).
  - by apply update_column_ok.
  - visit Ha s Hs Hne. eexists _, s0. split; [reflexivity|]. split; [done|]. split; [done|]. split; [done|]. cbn. by rewrite Hf.
  - by apply (resolves_two a b (BinaryOperator op)).
  - by apply (resolves_two a b (fun x y => LikeOperator x y n)).
  - visit Hc s Hs Hne. visit Hb s0 Hok H. visit Ha s1 Hok0 H0. eexists _, s2. split; [reflexivity|]. split; [done|].
    split; [exact (state_grows_trans _ _ _ Hg (state_grows_trans _ _ _ Hg0 Hg1))|]. split; [|cbn; by rewrite Hf, Hf0, Hf1]. intros He. cbn. split; [by apply Hr1|]. split; [by apply (resolved_later s1)|].
    apply (resolved_later s0); [by eapply state_grows_trans|done|done].
  - match goal with |- context [mbind (?f es)] => set (all := f) end.
    assert (Hall : exists l' s', all es s = (Ok l', s') /\ columns_ok s' /\ state_grows s s' /\ (cs_errors s' = [] -> resolved (cs_dataSets s') (InOperator (ConstantExpression VNull) l' n)) /\ List.map forget l' = List.map forget es).
    { clear Hx. induction Hl as [|x l Hx Hl IH].
      - eexists _, s. split; [reflexivity|]. split; [done|]. split; [apply state_grows_refl|done].
      - destruct IH as (l1 & s1 & E1 & Hok1 & Hg1 & Hr1 & Hf1). pose proof (state_grows_nonempty _ _ Hg1 Hne) as Hne1. cbn [all]. fold all. run_step E1. visit Hx s1 Hok1 Hne1.
        eexists _, s0. split; [reflexivity|]. split; [done|]. split; [by eapply state_grows_trans|]. split; [|cbn [List.map]; by rewrite Hf, Hf1].
        intros He. pose proof (resolved_later _ _ _ Hg Hr1 He) as Hin. cbn [resolved] in Hin |- *. split; [done|]. split; [by apply Hr|apply Hin]. }
    destruct Hall as (l1 & s1 & E1 & Hok1 & Hg1 & Hr1 & Hf1). run_step E1. pose proof (state_grows_nonempty _ _ Hg1 Hne) as Hne1. visit Hx s1 Hok1 Hne1.
    eexists _, s0. split; [reflexivity|]. split; [done|]. split; [by eapply state_grows_trans|]. split; [|cbn [forget]; by rewrite Hf, Hf1].
    intros He. pose proof (resolved_later _ _ _ Hg Hr1 He) as Hin. cbn [resolved] in Hin |- *. split; [by apply Hr|apply Hin].
  - by apply (resolves_two a b (fun x y => IsOperator x y n)).
  - by apply (resolves_two a b CastOperator).
Qed.

Lemma known_from_ok (infos : list DataSetColumnInfo) (P : list Z -> nat -> Prop) : forall i l m, (forall k info, l !! k = Some info -> P (ci_name info) (i + k)%nat) ->
  (forall name index, m !! name = Some index -> exists j, index = Z.of_nat j /\ P name j) ->
  forall name index, known_from i l m !! name = Some index -> exists j, index = Z.of_nat j /\ P name j.
Proof.
  intros i l. revert i. induction l as [|info l IH]; intros i m Hl Hm name index; cbn; [apply Hm|]. apply IH.
  - intros k info' Hk. replace (S i + k)%nat with (i + S k)%nat by lia. by apply Hl.
  - intros name' index'. destruct (m !! ci_name info) eqn:E; [apply Hm|]. rewrite lookup_insert. case_decide as Hn; [|apply Hm]. subst name'. intros [= <-].
    exists i. split; [done|]. specialize (Hl O info eq_refl). by rewrite Nat.add_0_r in Hl.
Qed.

Lemma start_columns_ok l errors : Forall names_ok l -> columns_ok {| cs_dataSets := l; cs_columns := known_columns <$> l; cs_errors := errors |}.
Proof.
  intros Hn. split; cbn; [by rewrite length_fmap|done|]. intros i d m name index Hd Hm Hname. right. rewrite list_lookup_fmap, Hd in Hm. injection Hm as <-.
  destruct (Forall_lookup_1 _ _ _ _ Hn Hd) as [_ Hf].
  destruct (known_from_ok (m_columnInfos d) (fun name j => exists info, m_columnInfos d !! j = Some info /\ findColumnPosition (ds_table d) name = Some (m_posInTable info)) 0 (m_columnInfos d) ∅) with name index
    as (j & -> & info & Hj & Hp); [|done|done|by exists j, info].
  intros k info Hk. exists info. split; [done|]. by apply (Forall_lookup_1 _ _ _ _ Hf Hk).
Qed.

Lemma updateColumns_ok e l errors : Forall names_ok l -> l <> [] ->
  exists e' l' errors', updateColumnsFromExpression e l errors = Ok (e', l', errors ++ errors') /\ Forall2 grows l l' /\ Forall names_ok l' /\
    (errors ++ errors' = [] -> resolved l' e') /\ forget e' = forget e.
Proof.
  intros Hn Hne. unfold updateColumnsFromExpression. destruct (resolve_columns_ok e _ (start_columns_ok l errors Hn) Hne) as (e' & s' & -> & Hok & [Hg [errs He]] & Hr & Hf). cbn in He.
  exists e', (cs_dataSets s'), errs. rewrite He in *. split; [done|]. split; [done|]. split; [apply (co_names _ Hok)|]. by split.
Qed.

(** ** Values of resolved names *)

Context {SL : ScanTableLaws T}.

(** A reference that is resolved has the value of the column it names. *)
Lemma resolved_value l t c tables column rows i d r pos : column_resolved l t c tables column -> data_set_of t l = Some i -> l !! i = Some d -> rows !! i = Some r ->
  findColumnPosition (ds_table d) c = Some pos ->
  match full_row r !! pos with
  | Some v => evaluate (rows_context l rows) (SingleColumnExpression t c tables column) = Ok (copy v)
  | None => True
  end.
Proof.
  intros (i' & d' & j & info & -> & -> & Hof & Hd' & Hinfo & Hp) Hof2 Hd Hr Hpos. rewrite Hof in Hof2. injection Hof2 as ->. rewrite Hd in Hd'. injection Hd' as ->. rewrite Hp in Hpos. injection Hpos as <-.
  destruct (full_row r !! m_posInTable info) as [v|] eqn:Hv; [|done]. cbn [evaluate column_indices bind getColumnValue rows_context]. rewrite !Nat2Z.id, Hd, Hr. cbn [base.mbind option_bind].
  unfold column_of. rewrite Hinfo. cbn [base.mbind option_bind]. by rewrite Hv.
Qed.
End Names.
