(* ===== verification/Select.v ===== *)
(** * SELECT

    Models [RequestHandler_DQL.cpp]: the loop over the rows of several data sets
    and [executeSelectRequest].  A response is the sequence of what the rowset
    writer is told: the columns, the rows with their null masks, the end. *)

From stdpp Require Import base list gmap.
Set Warnings "-clear-no-such-hyp,-notation-incompatible-prefix,-notation-for-abbreviation".
From Stdlib Require Import ZArith Lia.
From S2P Require Import Prelude StateM Bytes CNum VariantType Variant VariantCmp VariantConv ColumnType Expr ExprEval MasterColumn Table Users DataSet Query.

Local Open Scope Z_scope.

(** ** Requests and responses *)

Record SourceTable : Type := { st_name : list Z; st_alias : list Z }.
Record ResultExpression : Type := { m_expression : Expression; m_alias : list Z }.
Record SelectRequest : Type := {
  m_database : list Z; m_tables : list SourceTable; m_resultExpressions : list ResultExpression;
  m_where : option Expression; m_limit : option Expression; m_offset : option Expression
}.

Inductive rowset_event : Type :=
| BeginRowset (columns : list ColumnDescription)
| WriteRow (values : list Variant) (nullMask : bitmask)
| EndRowset.

Section Select.
Context {T : Type} {ST : ScanTable T} {X : Externals}.
Notation data_set := (TableDataSet T).

(** ** The cursor over all data sets *)

(** A call on one data set. *)
Definition run {A} (c : DSM (T := T) A) (d : data_set) : outcome RequestError A * data_set :=
  let '(o, d') := c d in (map_error DataSetFailed o, d').

(** The loop from the last data set to the first: true when one of them moved.
    The first one is not reset at its end. *)
Fixpoint advance (first : bool) (l : list data_set) : outcome RequestError bool * list data_set :=
  match l with
  | [] => (Ok false, [])
  | d :: l' =>
      match advance false l' with
      | (Ok false, l1) =>
          match run moveToNextRow d with
          | (Ok false, d1) =>
              if first then (Ok false, d1 :: l1) else
              match run resetCursor d1 with
              | (Ok _, d2) => (Ok false, d2 :: l1)
              | (Throw e, d2) => (Throw e, d2 :: l1)
              | (Undef u, d2) => (Undef u, d2 :: l1)
              end
          | (o, d1) => (o, d1 :: l1)
          end
      | (o, l1) => (o, d :: l1)
      end
  end.

Definition select_moveToNextRow (l : list data_set) : outcome RequestError bool * list data_set :=
  match advance true l with
  | (Ok _, l1) => (match l1 with d :: _ => Ok (m_hasCurrentRow d) | [] => Undef OutOfBounds end, l1)
  | (o, l1) => (o, l1)
  end.

(** ** The values of a row *)

(** The vector of values and the null mask, as far as they are filled. *)
Record row_buffer : Type := { rb_values : list Variant; rb_nullMask : bitmask; rb_index : nat }.

(** [values[valueIndex] = v], the bit of the mask and [++valueIndex]. *)
Definition put_value (hasNullableColumns : bool) (v : Variant) (b : row_buffer) : outcome RequestError row_buffer :=
  if negb (rb_index b <? length (rb_values b))%nat then Undef OutOfBounds else
  let values := <[rb_index b := v]> (rb_values b) in
  if hasNullableColumns then
    match bit_set (rb_index b) (isNull v) (rb_nullMask b) with
    | Some mask => Ok {| rb_values := values; rb_nullMask := mask; rb_index := S (rb_index b) |}
    | None => Throw OutOfRange
    end
  else Ok {| rb_values := values; rb_nullMask := rb_nullMask b; rb_index := S (rb_index b) |}.

Fixpoint put_values (hasNullableColumns : bool) (l : list Variant) (b : row_buffer) : outcome RequestError row_buffer :=
  match l with
  | [] => Ok b
  | v :: l' => b1 <- put_value hasNullableColumns (copy v) b ;; put_values hasNullableColumns l' b1
  end.

(** All columns of the data sets with the given indices. *)
Fixpoint put_data_sets (hasNullableColumns : bool) (indices : list Z) (l : list data_set) (b : row_buffer) : outcome RequestError row_buffer * list data_set :=
  match indices with
  | [] => (Ok b, l)
  | i :: indices' =>
      match l !! Z.to_nat i with
      | None => (Undef OutOfBounds, l)
      | Some d =>
          match run readCurrentRow d with
          | (Ok _, d1) =>
              let l1 := <[Z.to_nat i := d1]> l in
              match put_values hasNullableColumns (m_values d1) b with
              | Ok b1 => put_data_sets hasNullableColumns indices' l1 b1
              | Throw e => (Throw e, l1)
              | Undef u => (Undef u, l1)
              end
          | (Throw e, d1) => (Throw e, <[Z.to_nat i := d1]> l)
          | (Undef u, d1) => (Undef u, <[Z.to_nat i := d1]> l)
          end
      end
  end.

Fixpoint put_row (hasNullableColumns : bool) (exprs : list Expression) (l : list data_set) (b : row_buffer) : outcome RequestError row_buffer * list data_set :=
  match exprs with
  | [] => (Ok b, l)
  | AllColumnsExpression _ indices :: exprs' =>
      match put_data_sets hasNullableColumns indices l b with
      | (Ok b1, l1) => put_row hasNullableColumns exprs' l1 b1
      | r => r
      end
  | e :: exprs' =>
      match (v <- expression_result (evaluate (DBExpressionEvaluationContext l) e) ;; put_value hasNullableColumns v b) with
      | Ok b1 => put_row hasNullableColumns exprs' l b1
      | Throw e => (Throw e, l)
      | Undef u => (Undef u, l)
      end
  end.

(** ** The loop over the rows *)

(** A request whose columns are resolved. *)
Record query : Type := { q_exprs : list Expression; q_where : option Expression; q_hasNullableColumns : bool; q_columnCount : nat }.

Definition row_fits_where (where_ : option Expression) (l : list data_set) : outcome RequestError bool :=
  match where_ with
  | None => Ok true
  | Some e =>
      where_error (
        t <- expression_result (getResultValueType (DBExpressionEvaluationContext l) e) ;;
        if isNullType t then Ok false else
        v <- expression_result (evaluate (DBExpressionEvaluationContext l) e) ;;
        getBool v)
  end.

(** The rows that are written, the end of the loop, and the data sets.  A move
    inside the block of WHERE has its exceptions. *)
Fixpoint select_loop (fuel : nat) (q : query) (available : bool) (limit offset : option Z) (b : row_buffer) (l : list data_set)
    : list rowset_event * outcome RequestError unit :=
  if negb (available && match limit with Some n => 0 <? n | None => true end) then ([], Ok tt) else
  match fuel with
  | O => ([], Undef NoProgress)
  | S n =>
      let next (moved : outcome RequestError bool * list data_set) limit' offset' b' :=
        match moved with
        | (Ok available', l') => select_loop n q available' limit' offset' b' l'
        | (Throw e, _) => ([], Throw e)
        | (Undef u, _) => ([], Undef u)
        end in
      match row_fits_where (q_where q) l with
      | Throw e => ([], Throw e)
      | Undef u => ([], Undef u)
      | Ok false => next (let '(o, l') := select_moveToNextRow l in (where_error o, l')) limit offset b
      | Ok true =>
          match offset with
          | Some (Zpos _ as k) => next (select_moveToNextRow l) limit (Some (k - 1)) b
          | _ =>
              match put_row (q_hasNullableColumns q) (q_exprs q) l {| rb_values := rb_values b; rb_nullMask := rb_nullMask b; rb_index := 0 |} with
              | (Ok b', l') =>
                  let '(rows, o) := next (select_moveToNextRow l') ((fun k => k - 1) <$> limit) offset b' in
                  (WriteRow (rb_values b') (rb_nullMask b') :: rows, o)
              | (Throw e, _) => ([], Throw e)
              | (Undef u, _) => ([], Undef u)
              end
          end
      end
  end.

(** The block with the handler of database errors, and the end of the rowset. *)
Definition write_rows (fuel : nat) (q : query) (limit offset : option Z) (l : list data_set) : list rowset_event * outcome RequestError unit :=
  let b := {| rb_values := replicate (q_columnCount q) VNull; rb_nullMask := if q_hasNullableColumns q then bit_resize (q_columnCount q) false [] else []; rb_index := 0 |} in
  let '(rows, o) := select_loop fuel q (forallb m_hasCurrentRow l) limit offset b l in
  match o with
  | Ok _ => (rows ++ [EndRowset], Ok tt)
  | Throw e => match request_exception e with DatabaseException => (rows ++ [EndRowset], Ok tt) | _ => (rows, Throw e) end
  | Undef u => (rows, Undef u)
  end.

(** ** Resolving the result expressions *)

Record select_state : Type := {
  ss_dataSets : list data_set; ss_errors : list ErrorRecord; ss_knownAliases : list (list Z); ss_hasNullableColumns : bool;
  ss_columnCount : nat; ss_response : list ColumnDescription
}.

Definition ss_error (e : ErrorRecord) (s : select_state) : select_state :=
  {| ss_dataSets := ss_dataSets s; ss_errors := ss_errors s ++ [e]; ss_knownAliases := ss_knownAliases s;
     ss_hasNullableColumns := ss_hasNullableColumns s; ss_columnCount := ss_columnCount s; ss_response := ss_response s |}.
Definition ss_error_if (b : bool) (e : ErrorRecord) (s : select_state) : select_state := if b then ss_error e s else s.
(** [knownAliases.insert(name)], with an error for a name that is known. *)
Definition ss_alias (name : list Z) (e : ErrorRecord) (s : select_state) : select_state :=
  if bool_decide (name ∈ ss_knownAliases s) then ss_error e s else
  {| ss_dataSets := ss_dataSets s; ss_errors := ss_errors s; ss_knownAliases := name :: ss_knownAliases s;
     ss_hasNullableColumns := ss_hasNullableColumns s; ss_columnCount := ss_columnCount s; ss_response := ss_response s |}.
(** A column of the response that is a column of data set [i]. *)
Definition ss_column (i position : nat) (c : column_info) (alias : list Z) (s : select_state) : select_state :=
  {| ss_dataSets := alter (emplaceColumnInfo {| m_posInTable := position; ci_name := col_name c; ci_alias := alias |}) i (ss_dataSets s);
     ss_errors := ss_errors s; ss_knownAliases := ss_knownAliases s; ss_hasNullableColumns := ss_hasNullableColumns s || negb (col_notNull c);
     ss_columnCount := S (ss_columnCount s); ss_response := addColumnToResponse c alias (ss_response s) |}.

Definition table_columns (i : nat) (s : select_state) : list column_info :=
  match ss_dataSets s !! i with Some d => tbl_columns (ds_table d) | None => [] end.

(** [*] and [table.*]. *)
Definition resolve_all_columns (databaseName tableName : list Z) (s : select_state) : list Z * select_state :=
  let '(indices, s1) :=
    match tableName with
    | [] => (seq 0 (length (ss_dataSets s)), s)
    | _ =>
        match getDataSetIndex (ss_dataSets s) tableName with
        | Some i => ([i], s)
        | None => ([], ss_error (ErrorTableDoesNotExistInContext databaseName tableName) s)
        end
    end in
  (Z.of_nat <$> indices,
   foldl (fun s i => foldl (fun s '(p, c) => ss_column i p c [] s) s (imap pair (table_columns i s))) s1 indices).

(** A column, with or without the name of its table. *)
Definition resolve_column (databaseName tableName columnName alias : list Z) (tables : list Z) (column : option Z) (s : select_state) : Expression * select_state :=
  let unchanged := SingleColumnExpression tableName columnName tables column in
  let s := ss_error_if (negb (isValidDatabaseObjectName columnName)) (ErrorInvalidColumnName columnName) s in
  let s := match tableName with [] => ss_alias columnName (ErrorSelectDuplicateColumnName columnName) s | _ => s end in
  let s :=
    match alias with
    | [] => s
    | _ => ss_alias alias (ErrorSelectDuplicateColumnAlias alias) (ss_error_if (negb (isValidDatabaseObjectName alias)) (ErrorInvalidColumnAlias alias) s)
    end in
  match (match tableName with [] => Some O | _ => getDataSetIndex (ss_dataSets s) tableName end) with
  | None => (unchanged, ss_error (ErrorTableDoesNotExistInContext databaseName tableName) s)
  | Some i =>
      let position := find_position columnName (table_columns i s) 0 in
      match position, (p ← position; table_columns i s !! p), ss_dataSets s !! i with
      | Some p, Some c, Some d => (SingleColumnExpression tableName columnName [Z.of_nat i] (Some (len (m_columnInfos d))), ss_column i p c alias s)
      | _, _, d =>
          (unchanged, ss_error (ErrorColumnDoesNotExist databaseName (match d with Some d => tbl_name (ds_table d) | None => [] end) columnName) s)
      end
  end.

Definition resolve_expression (databaseName : list Z) (e : ResultExpression) (s : select_state) : outcome RequestError (Expression * select_state) :=
  match m_expression e with
  | AllColumnsExpression tableName tables =>
      match m_alias e with
      | [] => let '(indices, s1) := resolve_all_columns databaseName tableName s in Ok (AllColumnsExpression tableName indices, s1)
      | alias => Ok (AllColumnsExpression tableName tables, ss_error (ErrorCannotUseAllColumnsAlias alias) s)
      end
  | SingleColumnExpression tableName columnName tables column => Ok (resolve_column databaseName tableName columnName (m_alias e) tables column s)
  | x =>
      '(x1, dataSets, errors) <- updateColumnsFromExpression x (ss_dataSets s) (ss_errors s) ;;
      dataType <- expression_result (ExprEval.getColumnDataType (DBExpressionEvaluationContext dataSets) x1) ;;
      Ok (x1, {| ss_dataSets := dataSets; ss_errors := errors; ss_knownAliases := ss_knownAliases s; ss_hasNullableColumns := true;
                 ss_columnCount := S (ss_columnCount s);
                 ss_response := ss_response s ++ [{| cd_name := m_alias e; cd_isNullable := true; cd_type := dataType |}] |})
  end.

Fixpoint resolve_expressions (databaseName : list Z) (l : list ResultExpression) (s : select_state) : outcome RequestError (list Expression * select_state) :=
  match l with
  | [] => Ok ([], s)
  | e :: l' =>
      '(x, s1) <- resolve_expression databaseName e s ;;
      '(xs, s2) <- resolve_expressions databaseName l' s1 ;;
      Ok (x :: xs, s2)
  end.

(** ** The request *)

(** LIMIT and OFFSET. *)
Definition row_count (e : option Expression) (notInteger negative : ErrorRecord) : outcome RequestError (option Z) :=
  match e with
  | None => Ok None
  | Some e =>
      expression_result (validate empty_context e) ;;;
      v <- expression_result (evaluate empty_context e) ;;
      if negb (isInteger v) then Throw (DatabaseError notInteger) else
      n <- map_error VariantFailed (isNegative v) ;;
      if (n : bool) then Throw (DatabaseError negative) else
      k <- map_error VariantFailed (fst (asUInt64 ext_buffer false v)) ;;
      Ok (Some k)
  end.

Fixpoint reset_all (l : list data_set) : outcome RequestError (list data_set) :=
  match l with
  | [] => Ok []
  | d :: l' =>
      match run resetCursor d with
      | (Ok _, d1) => l1 <- reset_all l' ;; Ok (d1 :: l1)
      | (Throw e, _) => Throw e
      | (Undef u, _) => Undef u
      end
  end.

Definition table_errors (t : SourceTable) : list ErrorRecord :=
  (if isValidDatabaseObjectName (st_name t) then [] else [ErrorInvalidTableName (st_name t)]) ++
  (match st_alias t with [] => [] | alias => if isValidDatabaseObjectName alias then [] else [ErrorInvalidTableAlias alias] end).

Fixpoint open_tables (h : request_handler T) (d : database T) (l : list SourceTable) : outcome RequestError (list data_set) :=
  match l with
  | [] => Ok []
  | t :: l' =>
      '(info, table) <- findTableChecked d (st_name t) ;;
      checkOperationPermitted h d info (if isSystemTable (tbl_name info) then kSelectSystem else kSelect) ;;;
      rest <- open_tables h d l' ;;
      Ok (new_data_set info table (st_alias t) :: rest)
  end.

(** Everything before the response begins. *)
Definition prepare_select (h : request_handler T) (r : SelectRequest)
    : outcome RequestError (query * option Z * option Z * list ColumnDescription * list data_set) :=
  let databaseName := request_database h (m_database r) in
  if negb (isValidDatabaseObjectName databaseName) then Throw (DatabaseError (ErrorInvalidDatabaseName (m_database r))) else
  d <- findDatabaseChecked h databaseName ;;
  let errors := (match m_tables r with [] => [ErrorSelectWithoutTables] | _ => [] end) ++ concat (table_errors <$> m_tables r) in
  match errors with
  | _ :: _ => Throw (CompoundDatabaseError errors)
  | [] =>
      dataSets <- open_tables h d (m_tables r) ;;
      '(exprs, s) <- resolve_expressions databaseName (m_resultExpressions r)
        {| ss_dataSets := dataSets; ss_errors := []; ss_knownAliases := []; ss_hasNullableColumns := false; ss_columnCount := 0; ss_response := [] |} ;;
      '(where_, dataSets, errors) <- (match m_where r with
        | None => Ok (None, ss_dataSets s, ss_errors s)
        | Some e => '(e1, l, errs) <- updateColumnsFromExpression e (ss_dataSets s) (ss_errors s) ;; Ok (Some e1, l, errs)
        end) ;;
      match errors with
      | _ :: _ => Throw (CompoundDatabaseError errors)
      | [] =>
          dataSets <- reset_all dataSets ;;
          checkWhereExpression where_ dataSets ;;;
          limit <- row_count (m_limit r) ErrorLimitValueTypeNotInteger ErrorLimitValueIsNegative ;;
          offset <- row_count (m_offset r) ErrorOffsetValueTypeNotInteger ErrorOffsetValueIsNegative ;;
          Ok ({| q_exprs := exprs; q_where := where_; q_hasNullableColumns := ss_hasNullableColumns s; q_columnCount := ss_columnCount s |},
              limit, offset, ss_response s, dataSets)
      end
  end.

(** The response, and how the request ends.  The loop needs one step more than
    there are rows. *)
Definition executeSelectRequest (fuel : nat) (h : request_handler T) (r : SelectRequest) : list rowset_event * outcome RequestError unit :=
  match prepare_select h r with
  | Ok (q, limit, offset, response, dataSets) =>
      let '(rows, o) := write_rows fuel q limit offset dataSets in (BeginRowset response :: rows, o)
  | Throw e => ([], Throw e)
  | Undef u => ([], Undef u)
  end.
End Select.
