(* ===== verification/SelectSpec.v ===== *)
(** * What SELECT promises

    The loop over the data sets visits the cross product of their rows, the last
    data set fastest; the rows of the response are the projections of the rows
    that the condition selects, without the first OFFSET of them and at most LIMIT
    of them. *)

From stdpp Require Import base list gmap.
Set Warnings "-clear-no-such-hyp,-notation-incompatible-prefix,-notation-for-abbreviation".
From Stdlib Require Import ZArith Lia.
From S2P Require Import Prelude StateM Bytes CNum VariantType Variant VariantCmp VariantConv ColumnType Expr ExprEval MasterColumn Table Users DataSet DataSetSpec Query QuerySpec Select.

Local Open Scope Z_scope.

(** ** The cross product *)

Section Product.
Context {A : Type}.

Fixpoint product (ls : list (list A)) : list (list A) :=
  match ls with
  | [] => [[]]
  | l :: ls' => flat_map (fun x => cons x <$> product ls') l
  end.

(** The part of the product from given positions on. *)
Fixpoint rest (ls : list (list A)) (ps : list nat) : list (list A) :=
  match ls, ps with
  | l :: ls', i :: ps' =>
      match l !! i with
      | Some x => (cons x <$> rest ls' ps') ++ flat_map (fun y => cons y <$> product ls') (drop (S i) l)
      | None => []
      end
  | _, _ => [[]]
  end.

(** The next positions; inner positions at the end start again. *)
Fixpoint step (first : bool) (ls : list (list A)) (ps : list nat) : bool * list nat :=
  match ls, ps with
  | l :: ls', i :: ps' =>
      let '(b, ps1) := step false ls' ps' in
      if b then (true, i :: ps1)
      else if (S i <? length l)%nat then (true, S i :: ps1)
      else (false, (if first then S i else O) :: ps1)
  | _, _ => (false, [])
  end.

Definition in_range (ls : list (list A)) (ps : list nat) : Prop := Forall2 (fun l i => (i < length l)%nat) ls ps.
Definition zeros (ls : list (list A)) : list nat := (fun _ => O) <$> ls.

(** The elements at positions. *)
Definition here (ls : list (list A)) (ps : list nat) : list A := omap (fun '(l, i) => l !! i) (zip ls ps).

Lemma zeros_in_range ls : Forall (fun l => l <> []) ls -> in_range ls (zeros ls).
Proof. induction 1 as [|l ls Hl H IH]; constructor; [|done]. destruct l; [done|cbn; lia]. Qed.

Lemma rest_zeros ls : Forall (fun l => l <> []) ls -> rest ls (zeros ls) = product ls.
Proof. induction 1 as [|l ls Hl H IH]; [done|]. destruct l as [|x l]; [done|]. cbn [rest zeros fmap list_fmap product flat_map lookup list_lookup drop]. fold (zeros ls). by rewrite IH. Qed.

Lemma rest_here ls ps : in_range ls ps -> head (rest ls ps) = Some (here ls ps).
Proof.
  induction 1 as [|l i ls ps Hi H IH]; [done|]. cbn. destruct (lookup_lt_is_Some_2 _ _ Hi) as [x ->]. unfold here in IH. destruct (rest ls ps) as [|y r]; [done|]. cbn in IH |- *. by injection IH as ->.
Qed.

(** A step goes to the next element of the product. *)
Lemma step_rest ls : Forall (fun l => l <> []) ls -> forall first ps, in_range ls ps ->
  match step first ls ps with
  | (true, ps1) => in_range ls ps1 /\ rest ls ps = here ls ps :: rest ls ps1
  | (false, ps1) => rest ls ps = [here ls ps] /\ if first then True else ps1 = zeros ls
  end.
Proof.
  induction 1 as [|l ls Hl H IH]; intros first ps Hr; inversion Hr as [|? i ? ps' Hi Hr']; subst; [by destruct first|]. cbn [step]. specialize (IH false ps' Hr').
  destruct (lookup_lt_is_Some_2 _ _ Hi) as [x Hx]. destruct (step false ls ps') as [[|] ps1].
  - destruct IH as [Hr1 He]. split; [by constructor|]. cbn [rest here zip zip_with omap list_omap]. rewrite Hx, He. cbn. unfold here. done.
  - destruct IH as [He ->]. assert (Hrest : rest (l :: ls) (i :: ps') = here (l :: ls) (i :: ps') :: flat_map (fun y => cons y <$> product ls) (drop (S i) l)).
    { cbn [rest here zip zip_with omap list_omap]. by rewrite Hx, He. }
    destruct (Nat.ltb_spec (S i) (length l)) as [Hlt|Hge].
    + split; [constructor; [done|by apply zeros_in_range]|]. rewrite Hrest. f_equal. destruct (lookup_lt_is_Some_2 _ _ Hlt) as [y Hy]. cbn [rest]. rewrite Hy, (drop_S l y (S i) Hy), rest_zeros by done. done.
    + rewrite Hrest, drop_ge by lia. split; [done|]. by destruct first.
Qed.
End Product.

(** ** The data sets on the rows of the product *)

Section Cursor.
Context {T : Type} {ST : ScanTable T} {SL : ScanTableLaws T} {X : Externals}.
Notation data_set := (TableDataSet T).

Definition at_positions (l : list data_set) (ls : list (list stored_row)) (ps : list nat) : Prop := Forall3 ds_at l ls ps.
Definition same_shapes : list data_set -> list data_set -> Prop := Forall2 same_shape.

Lemma same_shapes_refl l : same_shapes l l.
Proof. induction l; constructor; done. Qed.
Lemma same_shapes_trans l1 l2 l3 : same_shapes l1 l2 -> same_shapes l2 l3 -> same_shapes l1 l3.
Proof. intros H. revert l3. induction H; intros l3 H3; inversion H3; subst; constructor; [by eapply same_shape_trans|by apply IHForall2]. Qed.

Lemma run_ok {A} (c : DSM (T := T) A) d a d' : c d = (Ok a, d') -> run c d = (Ok a, d').
Proof. unfold run. by intros ->. Qed.

Lemma advance_step_ok ls : Forall (fun l => l <> []) ls -> forall first l ps, at_positions l ls ps -> in_range ls ps ->
  let '(b, ps1) := step first ls ps in
  exists l1, advance first l = (Ok b, l1) /\ at_positions l1 ls ps1 /\ same_shapes l l1.
Proof.
  induction 1 as [|rows ls Hne H IH]; intros first l ps Hat Hr; inversion Hr as [|? i ? ps' Hi Hr']; subst; inversion Hat as [|d ? ? l' ? ? Hd Hat']; subst; [exists []; split; [done|split; constructor]|]. cbn [step advance].
  specialize (IH false l' ps' Hat' Hr'). destruct (step false ls ps') as [[|] ps1]; destruct IH as (l1 & -> & Hat1 & Hsh1).
  - exists (d :: l1). split; [done|]. split; [by constructor|]. by constructor.
  - destruct (move_next_ok d rows i Hd Hi) as (d1 & E & Hd1 & Hsd1). rewrite (run_ok _ _ _ _ E). case_bool_decide as Hlt.
    + rewrite (proj2 (Nat.ltb_lt _ _)) by done. exists (d1 :: l1). split; [done|]. split; [by constructor|]. by constructor.
    + rewrite (proj2 (Nat.ltb_ge _ _)) by lia. destruct first; [exists (d1 :: l1); split; [done|]; split; by constructor|].
      destruct (resetCursor_ok d1 rows (proj1 Hd1)) as (d2 & E2 & Hd2 & Hsd2). rewrite (run_ok _ _ _ _ E2). exists (d2 :: l1). split; [done|]. split; [by constructor|].
      constructor; [by eapply same_shape_trans|done].
Qed.

Lemma at_range_has l ls ps : at_positions l ls ps -> in_range ls ps -> Forall (fun d => m_hasCurrentRow d = true) l.
Proof.
  induction 1 as [|d rows i l ls ps [_ Hd] H IH]; intros Hr; inversion Hr; subst; constructor; [|by apply IH]. destruct (lookup_lt_is_Some_2 rows i) as [r Hrow]; [done|].
  rewrite Hrow in Hd. apply (on_has _ _ Hd).
Qed.

Lemma select_moveToNextRow_ok l ls ps : l <> [] -> Forall (fun l => l <> []) ls -> at_positions l ls ps -> in_range ls ps ->
  exists l1, same_shapes l l1 /\
    match step true ls ps with
    | (true, ps1) => select_moveToNextRow l = (Ok true, l1) /\ at_positions l1 ls ps1
    | (false, _) => select_moveToNextRow l = (Ok false, l1)
    end.
Proof.
  intros Hl Hne Hat Hr. pose proof (advance_step_ok ls Hne true l ps Hat Hr) as Ha. pose proof (step_rest ls Hne true ps Hr) as Hs. unfold select_moveToNextRow.
  destruct (step true ls ps) as [b ps1] eqn:Hstep. destruct Ha as (l1 & -> & Hat1 & Hsh). exists l1. split; [done|]. destruct l1 as [|d1 l1]; [by inversion Hsh; subst|]. destruct b.
  - split; [|done]. pose proof (at_range_has _ _ _ Hat1 (proj1 Hs)) as Hh. inversion Hh as [|? ? Hd1]; subst. by rewrite Hd1.
  - f_equal. f_equal. inversion Hat1 as [|? rows i ? ls' ps' [_ Hd1]]; subst. inversion Hr as [|? i0 ? ps0 Hi Hr0]; subst. cbn [step] in Hstep.
    destruct (step false ls' ps0) as [[|] ?]; [done|]. destruct (Nat.ltb_spec (S i0) (length rows)) as [|Hge]; [done|]. injection Hstep as <- <-. by rewrite lookup_ge_None_2 in Hd1 by done.
Qed.

Lemma here_standing l ls ps : at_positions l ls ps -> in_range ls ps -> standing l ls (here ls ps).
Proof.
  unfold standing. induction 1 as [|d rows i l ls ps [Hd Hon] H IH]; intros Hr; inversion Hr; subst; [by repeat constructor|]. destruct (lookup_lt_is_Some_2 rows i) as [r Hrow]; [done|]. rewrite Hrow in Hon.
  destruct (IH ltac:(done)) as (A & B & C). unfold here. cbn [zip zip_with omap list_omap]. rewrite Hrow. split; [by constructor|]. split; [|by constructor].
  constructor; [by apply list_elem_of_lookup_2 in Hrow|done].
Qed.
End Cursor.

(** ** The values of a row *)

Section Rows.
Context {T : Type} {ST : ScanTable T} {SL : ScanTableLaws T} {X : Externals}.
Notation data_set := (TableDataSet T).

(** The buffer holds [n] values, the first of them are [vs]; the mask tells the
    null values. *)
Record filled (nullable : bool) (n : nat) (b : row_buffer) (vs : list Variant) : Prop := {
  fi_length : length (rb_values b) = n;
  fi_index : rb_index b = length vs;
  fi_values : take (length vs) (rb_values b) = vs;
  fi_mask : if nullable then length (rb_nullMask b) = required_size n /\ forall j v, vs !! j = Some v -> bit_at j (rb_nullMask b) = isNull v else rb_nullMask b = []
}.

Lemma put_value_ok nullable n b vs v : filled nullable n b vs -> (length vs < n)%nat -> exists b', put_value nullable v b = Ok b' /\ filled nullable n b' (vs ++ [v]).
Proof.
  intros [H1 H2 H3 H4] Hlt. unfold put_value. rewrite H2, H1, (proj2 (Nat.ltb_lt _ _)) by done. cbn [negb].
  assert (Hv : take (length (vs ++ [v])) (<[length vs := v]> (rb_values b)) = vs ++ [v]).
  { rewrite length_app. cbn. rewrite Nat.add_1_r, (take_S_r _ _ v) by (apply list_lookup_insert_eq; lia). f_equal. by rewrite take_insert_ge, H3 by lia. }
  assert (Hi : S (length vs) = length (vs ++ [v])) by (rewrite length_app; cbn; lia).
  destruct nullable.
  - destruct H4 as [Hl Hb]. destruct (bit_set_some (length vs) (isNull v) _ _ Hl Hlt) as [mask Hm]. rewrite Hm. eexists. split; [reflexivity|]. destruct (bit_set_get _ _ _ _ Hm) as (Hl' & Hset & Ho).
    split; cbn; [by rewrite length_insert|done|done|]. split; [congruence|]. intros j w Hw. destruct (decide (j = length vs)) as [->|Hne].
    + rewrite lookup_app_r, Nat.sub_diag in Hw by lia. injection Hw as <-. done.
    + rewrite Ho by done. apply lookup_app_Some in Hw as [Hw|[Hge Hw]]; [by apply Hb|]. apply lookup_lt_Some in Hw. cbn in Hw. lia.
  - eexists. split; [reflexivity|]. split; cbn; [by rewrite length_insert|done..].
Qed.

Lemma put_values_ok nullable n l : forall b vs, filled nullable n b vs -> (length vs + length l <= n)%nat ->
  exists b', put_values nullable l b = Ok b' /\ filled nullable n b' (vs ++ (copy <$> l)).
Proof.
  induction l as [|v l IH]; intros b vs Hb Hle; cbn [put_values]; [exists b; by rewrite app_nil_r|]. cbn in Hle. destruct (put_value_ok nullable n b vs (copy v) Hb ltac:(lia)) as (b1 & -> & Hb1). cbn [bind].
  destruct (IH b1 _ Hb1) as (b2 & -> & Hb2); [rewrite length_app; cbn; lia|]. exists b2. split; [done|]. by rewrite <- app_assoc in Hb2.
Qed.

(** The values of a result expression in given rows. *)
Definition data_set_values (shapes : list data_set) (rows : list stored_row) (i : Z) : list Variant :=
  match shapes !! Z.to_nat i, rows !! Z.to_nat i with Some d, Some r => copy <$> row_values d r | _, _ => [] end.

Definition project_one (shapes : list data_set) (rows : list stored_row) (e : Expression) : outcome RequestError (list Variant) :=
  match e with
  | AllColumnsExpression _ indices => Ok (concat (data_set_values shapes rows <$> indices))
  | _ => v <- expression_result (evaluate (rows_context shapes rows) e) ;; Ok [v]
  end.

Fixpoint project (shapes : list data_set) (rows : list stored_row) (exprs : list Expression) : outcome RequestError (list Variant) :=
  match exprs with
  | [] => Ok []
  | e :: exprs' => vs <- project_one shapes rows e ;; ws <- project shapes rows exprs' ;; Ok (vs ++ ws)
  end.

(** The number of values of a result expression. *)
Definition expr_width (shapes : list data_set) (e : Expression) : nat :=
  match e with
  | AllColumnsExpression _ indices => list_sum ((fun i => match shapes !! Z.to_nat i with Some d => length (m_columnInfos d) | None => O end) <$> indices)
  | _ => 1
  end.
Definition exprs_width (shapes : list data_set) (exprs : list Expression) : nat := list_sum (expr_width shapes <$> exprs).
Definition expr_in_range (shapes : list data_set) (e : Expression) : Prop :=
  match e with AllColumnsExpression _ indices => Forall (fun i => (Z.to_nat i < length shapes)%nat) indices | _ => True end.

Lemma shapes_row_values (d0 d : data_set) r : same_shape d0 d -> row_values d r = row_values d0 r.
Proof. intros (_ & _ & H). unfold row_values, column_of. by rewrite H. Qed.

Lemma width_values shapes l ls rows i : same_shapes shapes l -> standing l ls rows -> (Z.to_nat i < length shapes)%nat ->
  length (data_set_values shapes rows i) = match shapes !! Z.to_nat i with Some d => length (m_columnInfos d) | None => O end.
Proof.
  intros Hsh (Hok & Hin & Hon) Hi. unfold data_set_values. destruct (lookup_lt_is_Some_2 _ _ Hi) as [d0 H0]. rewrite H0. destruct (Forall2_lookup_l _ _ _ _ _ Hsh H0) as (d & Hd & Hs).
  destruct (Forall2_lookup_l _ _ _ _ _ Hon Hd) as (r & Hr & _). destruct (Forall2_lookup_l _ _ _ _ _ Hok Hd) as (rs & Hrs & Hk). destruct (Forall2_lookup_l _ _ _ _ _ Hin Hrs) as (r' & Hr' & Hrin).
  rewrite Hr in *. injection Hr' as <-. rewrite length_fmap, <- (shapes_row_values d0 d r Hs), (row_values_length d rs r Hk Hrin). by destruct Hs as (_ & _ & ->).
Qed.

(** Reading all columns of a data set. *)
Lemma read_at l ls ps i d : at_positions l ls ps -> in_range ls ps -> l !! i = Some d ->
  exists d1 r, run readCurrentRow d = (Ok tt, d1) /\ here ls ps !! i = Some r /\ m_values d1 = row_values d r /\
    at_positions (<[i := d1]> l) ls ps /\ same_shapes l (<[i := d1]> l).
Proof.
  intros H. revert i. unfold here. induction H as [|d0 rows p l ls ps Hd0 H IH]; intros i Hr Hi; [done|]. inversion Hr as [|? ? ? ? Hp Hr']; subst. destruct (lookup_lt_is_Some_2 rows p Hp) as [r Hrow].
  cbn [zip zip_with omap list_omap]. rewrite Hrow. destruct i as [|i].
  - injection Hi as ->. destruct Hd0 as [Hok Hon]. rewrite Hrow in Hon. assert (Hin : r ∈ rows) by (by apply list_elem_of_lookup_2 in Hrow).
    destruct (readCurrentRow_ok d rows r Hok Hin Hon) as (d1 & E & Hok1 & Hon1 & Hs & Hv). exists d1, r. split; [by apply run_ok|]. split; [done|]. split; [done|]. cbn. split.
    + constructor; [|done]. split; [done|]. by rewrite Hrow.
    + constructor; [done|apply same_shapes_refl].
  - destruct (IH i Hr' Hi) as (d1 & r1 & E & Hh & Hv & Hat & Hs). exists d1, r1. split; [done|]. split; [done|]. split; [done|]. split; constructor; done.
Qed.

Lemma put_data_sets_ok nullable n shapes ls ps : in_range ls ps -> forall indices l b vs, same_shapes shapes l -> at_positions l ls ps -> filled nullable n b vs ->
  Forall (fun i => (Z.to_nat i < length shapes)%nat) indices -> (length vs + length (concat (data_set_values shapes (here ls ps) <$> indices)) <= n)%nat ->
  exists b' l', put_data_sets nullable indices l b = (Ok b', l') /\ filled nullable n b' (vs ++ concat (data_set_values shapes (here ls ps) <$> indices)) /\
    at_positions l' ls ps /\ same_shapes shapes l'.
Proof.
  intros Hr. induction indices as [|i indices IH]; intros l b vs Hsh Hat Hb Hi Hle; cbn [put_data_sets].
  - exists b, l. by rewrite app_nil_r.
  - apply Forall_cons in Hi as [Hi Hi']. destruct (lookup_lt_is_Some_2 _ _ Hi) as [d0 H0]. destruct (Forall2_lookup_l _ _ _ _ _ Hsh H0) as (d & Hd & Hs). rewrite Hd.
    destruct (read_at l ls ps _ d Hat Hr Hd) as (d1 & r & E & Hh & Hv & Hat1 & Hs1). rewrite E, Hv.
    assert (Hdv : data_set_values shapes (here ls ps) i = copy <$> row_values d r) by (unfold data_set_values; rewrite H0, Hh; f_equal; symmetry; by apply shapes_row_values).
    cbn [fmap list_fmap concat] in *. rewrite Hdv in *. rewrite length_app, length_fmap in Hle.
    destruct (put_values_ok nullable n (row_values d r) b vs Hb ltac:(lia)) as (b1 & -> & Hb1).
    destruct (IH (<[Z.to_nat i := d1]> l) b1 _ (same_shapes_trans _ _ _ Hsh Hs1) Hat1 Hb1 Hi') as (b2 & l2 & -> & Hb2 & Hat2 & Hs2); [rewrite length_app, length_fmap; lia|].
    exists b2, l2. rewrite <- app_assoc in Hb2. by split_and!.
Qed.

Lemma project_width shapes l ls rows exprs vs : same_shapes shapes l -> standing l ls rows -> Forall (expr_in_range shapes) exprs ->
  project shapes rows exprs = Ok vs -> length vs = exprs_width shapes exprs.
Proof.
  intros Hsh Hst. revert vs. induction exprs as [|e exprs IH]; intros vs Hr; cbn [project]; [by intros [= <-]|]. apply Forall_cons in Hr as [He Hr].
  intros (us & Hus & (ws & Hws & [= <-])%bind_Ok)%bind_Ok. rewrite length_app, (IH _ Hr Hws). unfold exprs_width. cbn [fmap list_fmap list_sum foldr]. f_equal.
  destruct e; cbn [project_one expr_width] in Hus |- *; try (apply bind_Ok in Hus as (v & _ & [= <-]); done). injection Hus as <-. cbn in He. clear -Hsh Hst He SL. induction He as [|i l' Hi He IH]; [done|].
  cbn [fmap list_fmap concat list_sum foldr]. rewrite length_app, (width_values shapes l ls rows i Hsh Hst Hi). f_equal. exact IH.
Qed.

Lemma evaluate_here shapes l ls ps e : same_shapes shapes l -> at_positions l ls ps -> in_range ls ps ->
  evaluate (DBExpressionEvaluationContext l) e = evaluate (rows_context shapes (here ls ps)) e.
Proof. intros Hsh Hat Hr. apply evaluate_ext, (context_values shapes l ls); [done|]. by apply here_standing. Qed.

Lemma put_row_ok nullable n shapes ls ps : in_range ls ps -> forall exprs l b vs, same_shapes shapes l -> at_positions l ls ps -> filled nullable n b vs ->
  Forall (expr_in_range shapes) exprs -> (length vs + exprs_width shapes exprs <= n)%nat ->
  match project shapes (here ls ps) exprs with
  | Ok ws => exists b' l', put_row nullable exprs l b = (Ok b', l') /\ filled nullable n b' (vs ++ ws) /\ at_positions l' ls ps /\ same_shapes shapes l'
  | Throw e => exists l', put_row nullable exprs l b = (Throw e, l')
  | Undef u => exists l', put_row nullable exprs l b = (Undef u, l')
  end.
Proof.
  intros Hr. induction exprs as [|e exprs IH]; intros l b vs Hsh Hat Hb He Hle; cbn [project].
  - exists b, l. by rewrite app_nil_r.
  - apply Forall_cons in He as [He He']. pose proof (here_standing _ _ _ Hat Hr) as Hst.
    assert (Hwidth : forall us, project_one shapes (here ls ps) e = Ok us -> (length vs + length us + exprs_width shapes exprs <= n)%nat).
    { intros us Hus. pose proof (project_width shapes l ls (here ls ps) [e] us Hsh Hst ltac:(by repeat constructor)) as Hw. cbn [project] in Hw. rewrite Hus in Hw. cbn [bind] in Hw. rewrite app_nil_r in Hw.
      specialize (Hw eq_refl).
      change (exprs_width shapes [e]) with (expr_width shapes e + 0)%nat in Hw. change (exprs_width shapes (e :: exprs)) with (expr_width shapes e + exprs_width shapes exprs)%nat in Hle. lia. }
    assert (Hstep : match project_one shapes (here ls ps) e with
      | Ok us => exists b1 l1, put_row nullable (e :: exprs) l b = put_row nullable exprs l1 b1 /\ filled nullable n b1 (vs ++ us) /\ at_positions l1 ls ps /\ same_shapes shapes l1
      | Throw e1 => exists l', put_row nullable (e :: exprs) l b = (Throw e1, l')
      | Undef u => exists l', put_row nullable (e :: exprs) l b = (Undef u, l')
      end).
    { destruct e; cbn [put_row project_one] in *; try (rewrite (evaluate_here shapes l ls ps _ Hsh Hat Hr); destruct (evaluate _ _) as [v|x|u]; cbn [expression_result map_error bind] in *;
        [destruct (put_value_ok nullable n b vs v Hb) as (b1 & -> & Hb1); [specialize (Hwidth _ eq_refl); cbn in Hwidth; lia|]; by exists b1, l|by eexists..]).
      specialize (Hwidth _ eq_refl). destruct (put_data_sets_ok nullable n shapes ls ps Hr _ l b vs Hsh Hat Hb He ltac:(lia)) as (b1 & l1 & -> & Hb1 & Hat1 & Hs1). by exists b1, l1. }
    destruct (project_one shapes (here ls ps) e) as [us|x|u]; cbn [bind]; [|exact Hstep..]. destruct Hstep as (b1 & l1 & -> & Hb1 & Hat1 & Hs1).
    specialize (IH l1 b1 _ Hs1 Hat1 Hb1 He'). rewrite length_app in IH. specialize (IH (Hwidth us eq_refl)).
    destruct (project shapes (here ls ps) exprs) as [ws|x|u]; cbn [bind]; [|exact IH..]. destruct IH as (b2 & l2 & E & Hb2 & Hat2 & Hs2). exists b2, l2. by rewrite app_assoc.
Qed.

(** ** The response *)

Definition spec_fits (shapes : list data_set) (where_ : option Expression) (rows : list stored_row) : outcome RequestError bool :=
  match where_ with
  | None => Ok true
  | Some e =>
      where_error (
        t <- expression_result (getResultValueType (DBExpressionEvaluationContext shapes) e) ;;
        if isNullType t then Ok false else
        v <- expression_result (evaluate (rows_context shapes rows) e) ;;
        getBool v)
  end.

(** The rows of a response, and how it ends. *)
Fixpoint spec_select (fits : list stored_row -> outcome RequestError bool) (values : list stored_row -> outcome RequestError (list Variant))
    (limit offset : option Z) (product : list (list stored_row)) : list (list Variant) * outcome RequestError unit :=
  match product with
  | [] => ([], Ok tt)
  | rows :: product' =>
      if match limit with Some n => n <=? 0 | None => false end then ([], Ok tt) else
      match fits rows with
      | Throw e => ([], Throw e)
      | Undef u => ([], Undef u)
      | Ok false => spec_select fits values limit offset product'
      | Ok true =>
          match offset with
          | Some (Zpos _ as k) => spec_select fits values limit (Some (k - 1)) product'
          | _ =>
              match values rows with
              | Ok vs => let '(l, o) := spec_select fits values ((fun k => k - 1) <$> limit) offset product' in (vs :: l, o)
              | Throw e => ([], Throw e)
              | Undef u => ([], Undef u)
              end
          end
      end
  end.

(** A row with its null mask. *)
Definition row_written (q : query) (vs : list Variant) (ev : rowset_event) : Prop :=
  exists mask, ev = WriteRow vs mask /\
    if q_hasNullableColumns q then length mask = required_size (q_columnCount q) /\ forall j v, vs !! j = Some v -> bit_at j mask = isNull v else mask = [].

Lemma filled_empty nullable n b vs : filled nullable n b vs -> filled nullable n {| rb_values := rb_values b; rb_nullMask := rb_nullMask b; rb_index := 0 |} [].
Proof. intros [H1 H2 H3 H4]. split; [done..|]. cbn. destruct nullable; [|done]. destruct H4. by split. Qed.

Lemma filled_written q b vs : filled (q_hasNullableColumns q) (q_columnCount q) b vs -> length vs = q_columnCount q -> row_written q vs (WriteRow (rb_values b) (rb_nullMask b)).
Proof. intros [H1 H2 H3 H4] Hl. exists (rb_nullMask b). rewrite Hl, <- H1, firstn_all in H3. rewrite H3. by split. Qed.

Lemma row_fits_here shapes l ls ps w : same_shapes shapes l -> at_positions l ls ps -> in_range ls ps -> row_fits_where w l = spec_fits shapes w (here ls ps).
Proof.
  intros Hsh Hat Hr. destruct w as [e|]; [|done]. cbn. f_equal. rewrite (getResultValueType_ext _ (DBExpressionEvaluationContext shapes)) by (by apply context_types).
  by rewrite (evaluate_here shapes l ls ps e Hsh Hat Hr).
Qed.

(** A query whose result expressions give as many values as it has columns. *)
Definition query_ok (shapes : list data_set) (q : query) : Prop := Forall (expr_in_range shapes) (q_exprs q) /\ exprs_width shapes (q_exprs q) = q_columnCount q.

Section Loop.
Context (shapes : list data_set) (q : query) (ls : list (list stored_row)).
Context (Hq : query_ok shapes q) (Hne : Forall (fun l => l <> []) ls) (Hshapes : shapes <> []).
Notation n := (q_columnCount q).
Notation fits := (spec_fits shapes (q_where q)).
Notation values := (fun rows => project shapes rows (q_exprs q)).

(** What the loop gives from given positions on. *)
Definition loop_gives (product : list (list stored_row)) (limit offset : option Z) (r : list rowset_event * outcome RequestError unit) : Prop :=
  let '(vs, o) := spec_select fits values limit offset product in snd r = o /\ Forall2 (row_written q) vs (fst r).

Lemma loop_end fuel limit offset b l : loop_gives [] limit offset (select_loop fuel q false limit offset b l).
Proof. destruct fuel; cbn; by split. Qed.

(** A row is written and the loop goes on. *)
Ltac write_row offset :=
  match goal with
  | Hput : context [project shapes (here ls ?ps) (q_exprs q)], Hnext : context [select_moveToNextRow] |- _ =>
      destruct (project shapes (here ls ps) (q_exprs q)) as [ws|x|u];
        [let b' := fresh "b'" in let l1 := fresh "l1" in let Hb' := fresh "Hb'" in let Hlen := fresh "Hlen" in let Hat1 := fresh "Hat1" in let Hs1 := fresh "Hs1" in
         destruct Hput as (b' & l1 & -> & Hb' & Hlen & Hat1 & Hs1);
         match goal with limit : option Z |- _ =>
           let a := fresh "a" in let l2 := fresh "l2" in let Hl := fresh "Hl" in
           destruct (Hnext l1 ((fun k => k - 1) <$> limit) offset b' ws Hs1 Hat1 Hb') as (a & l2 & -> & Hl); unfold loop_gives in Hl;
           destruct (spec_select _ _ _ _ _) as [rs o]; destruct (select_loop _ _ _ _ _ _ _) as [evs o']; destruct Hl as [Ho Hev]; cbn in Ho, Hev |- *; subst o';
           split; [done|]; constructor; [by apply filled_written|done]
         end
        |let l1 := fresh "l1" in destruct Hput as [l1 ->]; by split..]
  end.

Lemma select_loop_ok : forall fuel l ps limit offset b vs, same_shapes shapes l -> at_positions l ls ps -> in_range ls ps -> filled (q_hasNullableColumns q) n b vs ->
  (length (rest ls ps) <= fuel)%nat -> loop_gives (rest ls ps) limit offset (select_loop fuel q true limit offset b l).
Proof.
  induction fuel as [|fuel IH]; intros l ps limit offset b vs Hsh Hat Hr Hb Hfuel; pose proof (rest_here ls ps Hr) as Hh; destruct (rest ls ps) as [|rows more] eqn:Hrest; try done; [cbn in Hfuel; lia|].
  injection Hh as ->. cbn [select_loop]. unfold loop_gives. cbn [spec_select]. rewrite andb_true_l.
  replace (match limit with Some k => 0 <? k | None => true end) with (negb (match limit with Some k => k <=? 0 | None => false end)) by (destruct limit; [|done]; by rewrite Z.leb_antisym, negb_involutive).
  rewrite negb_involutive. destruct (match limit with Some k => k <=? 0 | None => false end); [by split|]. rewrite (row_fits_here shapes l ls ps (q_where q) Hsh Hat Hr).
  pose proof (step_rest ls Hne true ps Hr) as Hstep.
  assert (Hnext : forall l1 limit' offset' b' vs', same_shapes shapes l1 -> at_positions l1 ls ps -> filled (q_hasNullableColumns q) n b' vs' ->
    exists a l2, select_moveToNextRow l1 = (Ok a, l2) /\ loop_gives more limit' offset' (select_loop fuel q a limit' offset' b' l2)).
  { intros l1 limit' offset' b' vs' Hs1 Hat1 Hb'. destruct (select_moveToNextRow_ok l1 ls ps) as (l2 & Hs2 & Hm); [|done..|].
    { intros ->. inversion Hs1; by subst. }
    destruct (step true ls ps) as [[|] ps1].
    - destruct Hm as [Hm Hat2]. destruct Hstep as [Hr1 He]. rewrite Hrest in He. injection He as ->. exists true, l2. split; [done|].
      apply (IH l2 ps1 limit' offset' b' vs'); [by eapply same_shapes_trans|done|done|done|cbn in Hfuel; lia].
    - destruct Hstep as [He _]. rewrite Hrest in He. injection He as ->. exists false, l2. split; [done|]. apply loop_end. }
  destruct (fits (here ls ps)) as [[|]|x|u]; [| |by split..].
  - assert (Hput : match project shapes (here ls ps) (q_exprs q) with
      | Ok ws => exists b' l1, put_row (q_hasNullableColumns q) (q_exprs q) l {| rb_values := rb_values b; rb_nullMask := rb_nullMask b; rb_index := 0 |} = (Ok b', l1) /\
          filled (q_hasNullableColumns q) n b' ws /\ length ws = n /\ at_positions l1 ls ps /\ same_shapes shapes l1
      | Throw e => exists l1, put_row (q_hasNullableColumns q) (q_exprs q) l {| rb_values := rb_values b; rb_nullMask := rb_nullMask b; rb_index := 0 |} = (Throw e, l1)
      | Undef u => exists l1, put_row (q_hasNullableColumns q) (q_exprs q) l {| rb_values := rb_values b; rb_nullMask := rb_nullMask b; rb_index := 0 |} = (Undef u, l1)
      end).
    { destruct Hq as [Hrange Hwidth]. pose proof (put_row_ok (q_hasNullableColumns q) n shapes ls ps Hr (q_exprs q) l _ [] Hsh Hat (filled_empty _ _ _ _ Hb) Hrange ltac:(cbn; lia)) as Hp.
      destruct (project shapes (here ls ps) (q_exprs q)) as [ws|x|u] eqn:Hpr; [|exact Hp..]. destruct Hp as (b' & l1 & E & Hb' & Hat1 & Hs1). exists b', l1. split; [done|]. split; [done|]. split; [|done].
      rewrite <- Hwidth. by apply (project_width shapes l ls (here ls ps)); [|by apply here_standing|..]. }
    destruct offset as [[|k|k]|]; [write_row (Some 0)| |write_row (Some (Zneg k))|write_row (@None Z)].
    destruct (Hnext l limit (Some (Zpos k - 1)) b vs Hsh Hat Hb) as (a & l2 & -> & Hl). exact Hl.
  - destruct (Hnext l limit offset b vs Hsh Hat Hb) as (a & l2 & -> & Hl). exact Hl.
Qed.

(** How the block over the rows ends: a database error ends the rowset. *)
Definition ended (evs : list rowset_event) (o : outcome RequestError unit) : list rowset_event * outcome RequestError unit :=
  match o with
  | Ok _ => (evs ++ [EndRowset], Ok tt)
  | Throw e => match request_exception e with DatabaseException => (evs ++ [EndRowset], Ok tt) | _ => (evs, Throw e) end
  | Undef u => (evs, Undef u)
  end.
End Loop.

Lemma at_zeros_has l ls : at_positions l ls (zeros ls) -> forallb m_hasCurrentRow l = forallb (fun rows => match rows with [] => false | _ => true end) ls.
Proof.
  revert ls. induction l as [|d l IH]; intros [|rows ls] H; inversion H as [|? ? ? ? ? ? [_ Hd] H']; subst; [done|]. cbn [forallb]. rewrite (IH ls) by done. f_equal.
  destruct rows as [|r rows]; cbn in Hd; [done|apply (on_has _ _ Hd)].
Qed.

Lemma product_empty {A} (ls : list (list A)) : forallb (fun l => match l with [] => false | _ => true end) ls = false -> product ls = [].
Proof.
  induction ls as [|[|x l] ls IH]; cbn [forallb product flat_map]; [done..|]. intros H. specialize (IH H). rewrite IH. cbn. clear. induction l as [|y l IH]; [done|]. cbn. done.
Qed.

Lemma start_filled q : filled (q_hasNullableColumns q) (q_columnCount q)
  {| rb_values := replicate (q_columnCount q) VNull; rb_nullMask := if q_hasNullableColumns q then bit_resize (q_columnCount q) false [] else []; rb_index := 0 |} [].
Proof. split; cbn; [apply length_replicate|done|done|]. destruct (q_hasNullableColumns q); [|done]. split; [apply bit_resize_length|done]. Qed.

Lemma write_rows_ok shapes q ls limit offset l fuel : query_ok shapes q -> shapes <> [] -> same_shapes shapes l -> at_positions l ls (zeros ls) -> (length (product ls) <= fuel)%nat ->
  let '(vs, o) := spec_select (spec_fits shapes (q_where q)) (fun rows => project shapes rows (q_exprs q)) limit offset (product ls) in
  exists evs, Forall2 (row_written q) vs evs /\ write_rows fuel q limit offset l = ended evs o.
Proof.
  intros Hq Hne Hsh Hat Hfuel. unfold write_rows. rewrite (at_zeros_has l ls Hat). destruct (forallb _ ls) eqn:Hall.
  - assert (Hls : Forall (fun l => l <> []) ls). { apply Forall_forall. intros [|] Hx; [|done]. rewrite forallb_forall in Hall. apply list_elem_of_In in Hx. by specialize (Hall _ Hx). }
    pose proof (select_loop_ok shapes q ls Hq Hls Hne fuel l (zeros ls) limit offset _ [] Hsh Hat (zeros_in_range ls Hls) (start_filled q)) as H. rewrite rest_zeros in H by done. specialize (H Hfuel).
    unfold loop_gives in H. destruct (spec_select _ _ _ _ _) as [vs o]. destruct (select_loop _ _ _ _ _ _ _) as [evs o']. cbn in H. destruct H as [-> H]. by exists evs.
  - rewrite (product_empty ls Hall). cbn. exists []. split; [constructor|]. by destruct fuel.
Qed.

(** ** Without errors *)

(** The rows that the condition selects. *)
Definition selected (fits : list stored_row -> outcome RequestError bool) (rows : list stored_row) : bool := match fits rows with Ok b => b | _ => false end.
Definition cut (limit offset : option Z) (l : list (list stored_row)) : list (list stored_row) :=
  let l1 := drop (Z.to_nat (default 0 offset)) l in match limit with Some k => take (Z.to_nat k) l1 | None => l1 end.

(** Rows are left out from the front and the rest is cut off. *)
Lemma spec_select_ok fits values limit offset l : (forall rows, rows ∈ l -> exists b, fits rows = Ok b) -> (forall rows, rows ∈ l -> exists vs, values rows = Ok vs) ->
  (forall k, limit = Some k -> 0 <= k) -> (forall k, offset = Some k -> 0 <= k) ->
  exists vss, spec_select fits values limit offset l = (vss, Ok tt) /\ Forall2 (fun rows vs => values rows = Ok vs) (cut limit offset (List.filter (selected fits) l)) vss.
Proof.
  revert limit offset. induction l as [|rows l IH]; intros limit offset Hf Hv Hl Ho; cbn [spec_select List.filter].
  - exists []. split; [done|]. unfold cut. rewrite drop_nil. destruct limit; [rewrite take_nil|]; constructor.
  - assert (Hf' : forall rows, rows ∈ l -> exists b, fits rows = Ok b) by (intros; apply Hf; set_solver).
    assert (Hv' : forall rows, rows ∈ l -> exists vs, values rows = Ok vs) by (intros; apply Hv; set_solver).
    destruct (match limit with Some n => n <=? 0 | None => false end) eqn:Hlim.
    { destruct limit as [k|]; [|done]. apply Z.leb_le in Hlim. exists []. split; [done|]. unfold cut. replace (Z.to_nat k) with O by lia. constructor. }
    destruct (Hf rows ltac:(set_solver)) as [b Hb]. unfold selected at 1. rewrite Hb. destruct b; [|by apply IH].
    destruct (Hv rows ltac:(set_solver)) as [vs Hvs]. destruct (decide (default 0 offset = 0)) as [Hzero|Hpos].
    + assert (Hoff : match offset with Some (Zpos _) => False | _ => True end) by (destruct offset as [[]|]; cbn in Hzero; done).
      destruct (IH ((fun k => k - 1) <$> limit) offset Hf' Hv') as (vss & E & Hvss).
      { intros k Hk. apply fmap_Some in Hk as (k' & -> & ->). apply Z.leb_gt in Hlim. lia. }
      { done. }
      exists (vs :: vss). split; [destruct offset as [[]|]; by rewrite ?Hvs, ?E|]. unfold cut in *. rewrite Hzero in *. destruct limit as [k|]; cbn in Hvss |- *; [|by constructor].
      apply Z.leb_gt in Hlim. replace (Z.to_nat k) with (S (Z.to_nat (k - 1))) by lia. by constructor.
    + destruct offset as [[|k|k]|]; try done; [|by specialize (Ho _ eq_refl)]. destruct (IH limit (Some (Zpos k - 1)) Hf' Hv' Hl) as (vss & E & Hvss); [intros k' [= <-]; lia|].
      exists vss. split; [done|]. unfold cut in *. cbn [default from_option id] in *. replace (Z.to_nat (Zpos k)) with (S (Z.to_nat (Zpos k - 1))) by lia. done.
Qed.
End Rows.
