(* ===== verification/SelectCorrect.v ===== *)
(** * SELECT is correct

    The response of a request is the one of relational algebra on the rows of its
    tables: product, selection, OFFSET and LIMIT, projection, in the order of the
    row numbers.  A database error in a row ends the response there, without a
    message. *)

From stdpp Require Import base list gmap.
Set Warnings "-clear-no-such-hyp,-notation-incompatible-prefix,-notation-for-abbreviation".
From Stdlib Require Import ZArith Lia.
From Stdlib Require Import (notations) String.
From S2P Require Import Prelude CNum VariantType Variant VariantCmp VariantConv ColumnType Expr ExprEval ExprTyping StateM Bytes MasterColumn Table Users DataSet DataSetSpec MemScan Query QuerySpec Select SelectSpec.

(** ** The preparation of SELECT

    The data sets of a request are those of its tables; the result expressions and
    the condition keep their names and get the indices of the columns they name.
    Without [*], and with [*] alone, the number of columns of the response is the
    number of values that are written for a row. *)

Local Open Scope Z_scope.

Section Prepare.
Context {T : Type} {ST : ScanTable T} {SL : ScanTableLaws T} {X : Externals}.
Notation data_set := (TableDataSet T).

(** ** Names of data sets *)

(** The map of names gives the first data set with a name or an alias. *)
Lemma names_from_find t (l : list data_set) : t <> [] -> forall i m, names_from i l m !! t = match m !! t with Some k => Some k | None => find_data_set t l i end.
Proof.
  intros Ht. induction l as [|d l IH]; intros i m; cbn [names_from find_data_set]; [by destruct (m !! t)|].
  assert (He : forall name m0, emplace_name name i m0 !! t = match m0 !! t with Some k => Some k | None => if bool_decide (t = name) then Some i else None end).
  { intros name m0. unfold emplace_name. destruct (m0 !! name) eqn:Hn.
    - destruct (m0 !! t) eqn:Hm; [done|]. by rewrite bool_decide_eq_false_2 by congruence.
    - rewrite lookup_insert. case_decide as Hd; [subst; by rewrite Hn, bool_decide_eq_true_2|]. rewrite bool_decide_eq_false_2 by congruence. by destruct (m0 !! t). }
  rewrite IH. destruct (ds_alias d) as [|a alias] eqn:Ha.
  - rewrite He. destruct (m !! t); [done|]. rewrite (bool_decide_eq_false_2 (t = [])) by done. rewrite orb_false_r. by case_bool_decide.
  - rewrite !He. destruct (m !! t); [done|]. by repeat case_bool_decide.
Qed.

Lemma getDataSetIndex_find t (l : list data_set) : t <> [] -> getDataSetIndex l t = find_data_set t l 0.
Proof. intros Ht. unfold getDataSetIndex, makeNameToIndexMapping. by rewrite names_from_find. Qed.

(** ** The state of the resolution *)

Definition kept (ds0 : list data_set) (s : select_state (T := T)) : Prop := Forall2 grows ds0 (ss_dataSets s) /\ Forall names_ok (ss_dataSets s).

Lemma find_position_nth columns p (c : column_info) : NoDup (col_name <$> columns) -> columns !! p = Some c -> forall i, find_position (col_name c) columns i = Some (i + p)%nat.
Proof.
  revert p. induction columns as [|x columns IH]; intros p Hn Hp i; [done|]. cbn in Hn. apply NoDup_cons in Hn as [Hx Hn]. cbn [find_position]. destruct p as [|p].
  - injection Hp as ->. rewrite bool_decide_eq_true_2 by done. by rewrite Nat.add_0_r.
  - cbn in Hp. rewrite bool_decide_eq_false_2; [rewrite (IH p Hn Hp); f_equal; lia|]. intros Heq. apply Hx. rewrite Heq. apply list_elem_of_fmap_2. by apply list_elem_of_lookup_2 in Hp.
Qed.

Lemma find_position_some name columns i p : find_position name columns i = Some p -> exists c, columns !! (p - i)%nat = Some c /\ col_name c = name /\ (i <= p)%nat.
Proof.
  revert i. induction columns as [|x columns IH]; intros i; cbn; [done|]. case_bool_decide as Hb; [intros [= <-]; rewrite Nat.sub_diag; by exists x|].
  intros (c & Hc & Hn & Hle)%IH. exists c. replace (p - i)%nat with (S (p - S i)) by lia. split; [done|]. split; [done|lia].
Qed.

(** A column of data set [i] is added. *)
Lemma ss_column_ok ds0 s i p c alias d : kept ds0 s -> ss_dataSets s !! i = Some d -> tbl_columns (ds_table d) !! p = Some c ->
  kept ds0 (ss_column i p c alias s) /\ Forall2 grows (ss_dataSets s) (ss_dataSets (ss_column i p c alias s)) /\
  ss_dataSets (ss_column i p c alias s) !! i = Some (emplaceColumnInfo {| m_posInTable := p; ci_name := col_name c; ci_alias := alias |} d).
Proof.
  intros [Hg Hn] Hd Hc. set (info := {| m_posInTable := p; ci_name := col_name c; ci_alias := alias |}).
  assert (Hi : ss_dataSets (ss_column i p c alias s) !! i = Some (emplaceColumnInfo info d)) by (cbn; by rewrite list_lookup_alter, decide_True, Hd by done).
  assert (Hgrow : Forall2 grows (ss_dataSets s) (ss_dataSets (ss_column i p c alias s))).
  { apply Forall2_same_length_lookup_2; [cbn; by rewrite length_alter|]. intros k x y Hx Hy. destruct (decide (k = i)) as [->|Hne].
    - rewrite Hi in Hy. injection Hy as <-. rewrite Hd in Hx. injection Hx as <-. repeat split; [done..|]. by exists [info].
    - cbn in Hy. rewrite list_lookup_alter_ne in Hy by done. rewrite Hx in Hy. injection Hy as <-. apply grows_refl. }
  split; [|by split]. split; [by eapply grows_all_trans|]. apply Forall_lookup. intros k x Hk. destruct (decide (k = i)) as [->|Hne].
  - rewrite Hi in Hk. injection Hk as <-. destruct (Forall_lookup_1 _ _ _ _ Hn Hd) as [Hnd Hf]. split; [done|]. cbn. apply Forall_app. split; [done|]. repeat constructor. cbn.
    unfold findColumnPosition. by rewrite (find_position_nth _ p c Hnd Hc).
  - cbn in Hk. rewrite list_lookup_alter_ne in Hk by done. by apply (Forall_lookup_1 _ _ _ _ Hn Hk).
Qed.

(** Columns of data set [i]. *)
Definition add_columns (i : nat) (l : list (nat * column_info)) (s : select_state (T := T)) : select_state := foldl (fun s '(p, c) => ss_column i p c [] s) s l.
Definition infos_of (l : list (nat * column_info)) : list DataSetColumnInfo := (fun '(p, c) => {| m_posInTable := p; ci_name := col_name c; ci_alias := [] |}) <$> l.

Lemma add_columns_ok ds0 i d : forall l s, kept ds0 s -> ss_dataSets s !! i = Some d -> Forall (fun '(p, c) => tbl_columns (ds_table d) !! p = Some c) l ->
  let s' := add_columns i l s in
  kept ds0 s' /\ Forall2 grows (ss_dataSets s) (ss_dataSets s') /\ ss_dataSets s' = <[i := set_columnInfos (m_columnInfos d ++ infos_of l) d]> (ss_dataSets s) /\
  ss_errors s' = ss_errors s /\ ss_columnCount s' = (ss_columnCount s + length l)%nat.
Proof.
  intros l. revert d. induction l as [|[p c] l IH]; intros d s Hk Hd Hl; cbv zeta.
  - split; [done|]. split; [apply grows_all_refl|]. cbn. rewrite app_nil_r. split; [|split; [done|lia]]. symmetry. apply list_insert_id. by destruct d.
  - apply Forall_cons in Hl as [Hc Hl]. destruct (ss_column_ok ds0 s i p c [] d Hk Hd Hc) as (Hk1 & Hg1 & Hi1).
    destruct (IH _ (ss_column i p c [] s) Hk1 Hi1 Hl) as (A & B & C & D & E). cbn [add_columns foldl]. fold (add_columns i l (ss_column i p c [] s)).
    split; [done|]. split; [by eapply grows_all_trans|]. rewrite C, D, E. split; [|split; [done|cbn; lia]].
    assert (Hds : ss_dataSets (ss_column i p c [] s) = <[i := emplaceColumnInfo {| m_posInTable := p; ci_name := col_name c; ci_alias := [] |} d]> (ss_dataSets s)).
    { cbn. apply list_eq. intros k. destruct (decide (k = i)) as [->|Hne]; [rewrite list_lookup_alter, decide_True, Hd, list_lookup_insert_eq; [done|by apply lookup_lt_Some in Hd|done]|].
      by rewrite list_lookup_alter_ne, list_lookup_insert_ne by done. }
    rewrite Hds, list_insert_insert_eq. f_equal. cbn. unfold set_columnInfos. cbn. by rewrite <- app_assoc.
Qed.

Definition all_columns (i : nat) (s : select_state (T := T)) : select_state := add_columns i (imap pair (table_columns i s)) s.

Lemma imap_pairs (columns : list column_info) : Forall (fun '(p, c) => columns !! p = Some c) (imap pair columns).
Proof. apply Forall_lookup. intros k [p c] Hk. rewrite list_lookup_imap in Hk. apply fmap_Some in Hk as (x & Hx & [= -> ->]). done. Qed.

Lemma all_columns_ok ds0 i d s : kept ds0 s -> ss_dataSets s !! i = Some d ->
  let s' := all_columns i s in
  kept ds0 s' /\ Forall2 grows (ss_dataSets s) (ss_dataSets s') /\
  ss_dataSets s' = <[i := set_columnInfos (m_columnInfos d ++ infos_of (imap pair (tbl_columns (ds_table d)))) d]> (ss_dataSets s) /\
  ss_errors s' = ss_errors s /\ ss_columnCount s' = (ss_columnCount s + length (tbl_columns (ds_table d)))%nat.
Proof.
  intros Hk Hd. unfold all_columns, table_columns. rewrite Hd. pose proof (add_columns_ok ds0 i d (imap pair (tbl_columns (ds_table d))) s Hk Hd (imap_pairs _)) as H. by rewrite length_imap in H.
Qed.

Lemma resolve_all_kept ds0 indices : forall s, kept ds0 s -> Forall (fun i => (i < length (ss_dataSets s))%nat) indices ->
  let s' := foldl (fun s i => all_columns i s) s indices in kept ds0 s' /\ Forall2 grows (ss_dataSets s) (ss_dataSets s') /\ ss_errors s' = ss_errors s.
Proof.
  induction indices as [|i indices IH]; intros s Hk Hi; cbv zeta; [split; [done|]; split; [apply grows_all_refl|done]|]. apply Forall_cons in Hi as [Hi Hi']. destruct (lookup_lt_is_Some_2 _ _ Hi) as [d Hd].
  destruct (all_columns_ok ds0 i d s Hk Hd) as (A & B & _ & D & _). cbn [foldl]. destruct (IH (all_columns i s) A) as (E & F & G); [by rewrite <- (Forall2_length _ _ _ B)|].
  split; [done|]. split; [by eapply grows_all_trans|]. by rewrite G.
Qed.

(** ** One result expression *)

Definition is_star (e : Expression) : bool := match e with AllColumnsExpression _ _ => true | _ => false end.

Record resolved_step (ds0 : list data_set) (s : select_state (T := T)) (e x : Expression) (s1 : select_state (T := T)) : Prop := {
  rs_kept : kept ds0 s1;
  rs_grows : Forall2 grows (ss_dataSets s) (ss_dataSets s1);
  rs_errors : exists errors, ss_errors s1 = ss_errors s ++ errors;
  rs_resolved : ss_errors s1 = [] -> resolved (ss_dataSets s1) x;
  rs_range : expr_in_range (ss_dataSets s1) x \/ ss_errors s1 <> [];
  rs_forget : forget x = forget e;
  rs_count : ss_errors s1 = [] -> is_star e = false -> ss_columnCount s1 = S (ss_columnCount s)
}.

(** Only errors and aliases change. *)
Definition quiet (s s1 : select_state (T := T)) : Prop :=
  ss_dataSets s1 = ss_dataSets s /\ ss_columnCount s1 = ss_columnCount s /\ exists errors, ss_errors s1 = ss_errors s ++ errors.

Lemma quiet_refl s : quiet s s.
Proof. split; [done|]. split; [done|]. exists []. by rewrite app_nil_r. Qed.
Lemma quiet_trans s1 s2 s3 : quiet s1 s2 -> quiet s2 s3 -> quiet s1 s3.
Proof. intros (A & B & e1 & C) (D & E & e2 & F). split; [congruence|]. split; [congruence|]. exists (e1 ++ e2). by rewrite F, C, app_assoc. Qed.
Lemma quiet_error e s : quiet s (ss_error e s) /\ ss_errors (ss_error e s) <> [].
Proof. split; [split; [done|split; [done|by exists [e]]]|]. cbn. by intros [_ ?]%app_nil. Qed.
Lemma quiet_error_if b e s : quiet s (ss_error_if b e s).
Proof. destruct b; [apply quiet_error|apply quiet_refl]. Qed.
Lemma quiet_alias name e s : quiet s (ss_alias name e s).
Proof. unfold ss_alias. case_bool_decide; [apply quiet_error|]. split; [done|]. split; [done|]. exists []. by rewrite app_nil_r. Qed.

(** A step that ends with an error. *)
Lemma failed_step ds0 s e x s1 err : kept ds0 s -> quiet s s1 -> forget x = forget e -> resolved_step ds0 s e x (ss_error err s1).
Proof.
  intros [Hg Hn] (Hd & Hc & errs & He) Hf. assert (Hne : ss_errors (ss_error err s1) <> []) by apply quiet_error.
  split; [|cbn; rewrite Hd; apply grows_all_refl|exists (errs ++ [err]); cbn; by rewrite He, app_assoc|done|by right|done|done]. split; cbn; by rewrite Hd.
Qed.

Lemma resolve_column_ok ds0 db t c alias tables column s : kept ds0 s -> ss_dataSets s <> [] ->
  let '(x, s1) := resolve_column db t c alias tables column s in resolved_step ds0 s (SingleColumnExpression t c tables column) x s1.
Proof.
  intros Hk Hne. unfold resolve_column. cbv zeta. set (sa := ss_error_if _ _ s). set (sb := match t with [] => _ | _ => sa end). set (sc := match alias with [] => sb | _ => _ end).
  assert (Hq : quiet s sc).
  { apply (quiet_trans _ sa); [apply quiet_error_if|]. apply (quiet_trans _ sb); [subst sb; destruct t; [apply quiet_alias|apply quiet_refl]|].
    subst sc. destruct alias; [apply quiet_refl|]. eapply quiet_trans; [apply quiet_error_if|apply quiet_alias]. }
  pose proof Hq as (Hd & Hcnt & errs & He). rewrite Hd. destruct (match t with [] => Some 0%nat | _ => getDataSetIndex (ss_dataSets s) t end) as [i|] eqn:Hof; [|by apply failed_step].
  assert (Hdo : data_set_of t (ss_dataSets s) = Some i) by (unfold data_set_of; destruct t; [done|]; by rewrite <- getDataSetIndex_find).
  assert (Htc : table_columns i sc = table_columns i s) by (unfold table_columns; by rewrite Hd). rewrite Htc.
  destruct (find_position c (table_columns i s) 0) as [p|] eqn:Hp; [|by apply failed_step]. cbn [base.mbind option_bind]. destruct (find_position_some _ _ _ _ Hp) as (cc & Hcc & Hname & _). rewrite Nat.sub_0_r in Hcc. rewrite Hcc.
  destruct (ss_dataSets s !! i) as [d|] eqn:Hi; [|by apply failed_step]. assert (Hcols : table_columns i s = tbl_columns (ds_table d)) by (unfold table_columns; by rewrite Hi). rewrite Hcols in *.
  assert (Hkc : kept ds0 sc) by (unfold kept; by rewrite Hd). assert (Hic : ss_dataSets sc !! i = Some d) by (by rewrite Hd).
  destruct (ss_column_ok ds0 sc i p cc alias d Hkc Hic Hcc) as (Hk1 & Hg1 & Hi1). rewrite Hd in Hg1. split; [done|done|exists errs; by rewrite <- He| | |done|].
  - intros _. cbn [resolved]. eexists i, _, (length (m_columnInfos d)), _. split; [done|]. split; [done|]. split; [unfold data_set_of in *; destruct t; [done|]; by rewrite (find_data_set_grows _ _ _ _ Hg1)|].
    split; [exact Hi1|]. cbn. split; [by rewrite lookup_app_r, Nat.sub_diag by lia|]. exact Hp.
  - by left.
  - intros _ _. cbn. by rewrite Hcnt.
Qed.

Lemma resolve_star_ok ds0 db t s : kept ds0 s ->
  let '(indices, s1) := resolve_all_columns db t s in forall tables, resolved_step ds0 s (AllColumnsExpression t tables) (AllColumnsExpression t indices) s1.
Proof.
  intros Hk. unfold resolve_all_columns.
  assert (Hok : forall indices s0, kept ds0 s0 -> quiet s s0 -> Forall (fun i => (i < length (ss_dataSets s0))%nat) indices -> forall tables,
    resolved_step ds0 s (AllColumnsExpression t tables) (AllColumnsExpression t (Z.of_nat <$> indices)) (foldl (fun s i => all_columns i s) s0 indices)).
  { intros indices s0 Hk0 (Hd & _ & errs & He) Hi tables. destruct (resolve_all_kept ds0 indices s0 Hk0 Hi) as (A & B & C). split; [done|by rewrite <- Hd|exists errs; by rewrite C|done| |done|done].
    left. cbn. apply Forall_fmap. rewrite <- (Forall2_length _ _ _ B). eapply Forall_impl; [exact Hi|]. intros i. cbn. by rewrite Nat2Z.id. }
  destruct t as [|ch t].
  - apply Hok; [done|apply quiet_refl|]. apply Forall_forall. intros i [_ Hi]%elem_of_seq. done.
  - rewrite getDataSetIndex_find by done. destruct (find_data_set _ _ 0) as [i|] eqn:Hi.
    + apply (Hok [i]); [done|apply quiet_refl|]. repeat constructor. apply find_data_set_lt in Hi. lia.
    + apply (Hok []); [destruct Hk; by split|apply quiet_error|constructor].
Qed.

Lemma resolve_expression_ok ds0 db e s x s1 : kept ds0 s -> ss_dataSets s <> [] -> resolve_expression db e s = Ok (x, s1) -> resolved_step ds0 s (m_expression e) x s1.
Proof.
  intros Hk Hne. assert (Hother : is_star (m_expression e) = false ->
    ('(x1, dataSets, errors) <- updateColumnsFromExpression (m_expression e) (ss_dataSets s) (ss_errors s) ;;
     dataType <- expression_result (ExprEval.getColumnDataType (DBExpressionEvaluationContext dataSets) x1) ;;
     Ok (x1, {| ss_dataSets := dataSets; ss_errors := errors; ss_knownAliases := ss_knownAliases s; ss_hasNullableColumns := true; ss_columnCount := S (ss_columnCount s);
                ss_response := ss_response s ++ [{| cd_name := m_alias e; cd_isNullable := true; cd_type := dataType |}] |})) = Ok (x, s1) ->
    resolved_step ds0 s (m_expression e) x s1).
  { intros Hstar H. destruct (updateColumns_ok (m_expression e) (ss_dataSets s) (ss_errors s) (proj2 Hk) Hne) as (e' & l' & errs & Heq & Hg & Hn & Hr & Hf). rewrite Heq in H. cbn [bind] in H.
    apply bind_Ok in H as (dt & _ & [= <- <-]). split; cbn; [split; [by eapply grows_all_trans; [apply Hk|]|done]|done|by exists errs|done| |done|done].
    left. destruct (m_expression e); destruct e'; cbn in Hf |- *; try done. }
  unfold resolve_expression. destruct (m_expression e) as [v|t c tables column|t tables|l|op a|op a b|a b n|a b c n|v l n|a b n|a b] eqn:Hm; try (by apply Hother).
  - intros [= Hres]. pose proof (resolve_column_ok ds0 db t c (m_alias e) tables column s Hk Hne) as H. by rewrite Hres in H.
  - destruct (m_alias e) as [|ch alias].
    + pose proof (resolve_star_ok ds0 db t s Hk) as H. destruct (resolve_all_columns db t s) as [indices s2]. intros [= <- <-]. apply H.
    + intros [= <- <-]. apply failed_step; [done|apply quiet_refl|done].
Qed.

(** ** All result expressions *)

Lemma resolve_expressions_ok ds0 db : forall l s xs s1, kept ds0 s -> ss_dataSets s <> [] -> resolve_expressions db l s = Ok (xs, s1) ->
  kept ds0 s1 /\ Forall2 grows (ss_dataSets s) (ss_dataSets s1) /\ (exists errors, ss_errors s1 = ss_errors s ++ errors) /\ Forall2 (fun e x => forget x = forget (m_expression e)) l xs /\
  (ss_errors s1 = [] -> Forall (fun x => resolved (ss_dataSets s1) x /\ expr_in_range (ss_dataSets s1) x) xs) /\
  (ss_errors s1 = [] -> Forall (fun e => is_star (m_expression e) = false) l -> ss_columnCount s1 = (ss_columnCount s + length l)%nat).
Proof.
  induction l as [|e l IH]; intros s xs s1 Hk Hne; cbn [resolve_expressions].
  - intros [= <- <-]. split; [done|]. split; [apply grows_all_refl|]. split; [exists []; by rewrite app_nil_r|]. split; [constructor|]. split; [done|]. cbn. lia.
  - intros ([x s2] & Hx & ([xs' s3] & Hxs & [= <- <-])%bind_Ok)%bind_Ok. pose proof (resolve_expression_ok ds0 db e s x s2 Hk Hne Hx) as [A B [errs C] D E F G].
    assert (Hne2 : ss_dataSets s2 <> []). { intros Hnil. rewrite Hnil in B. apply Hne. by inversion B. }
    destruct (IH s2 xs' s3 A Hne2 Hxs) as (A' & B' & [errs' C'] & F' & D' & G'). assert (Hclean : ss_errors s3 = [] -> ss_errors s2 = []) by (rewrite C'; by intros [? _]%app_nil).
    split; [done|]. split; [by eapply grows_all_trans|]. split; [exists (errs ++ errs'); by rewrite C', C, app_assoc|]. split; [by constructor|]. split.
    + intros He. constructor; [|by apply D']. split; [apply (resolved_grows (ss_dataSets s2)); [done|]; by apply D, Hclean|]. destruct E as [E|E]; [|by destruct E; apply Hclean].
      destruct x; try done. cbn in E |- *. by rewrite <- (Forall2_length _ _ _ B').
    + intros He [Hs Hl]%Forall_cons. rewrite (G' He Hl), (G (Hclean He) Hs). cbn. lia.
Qed.

(** ** All columns *)

(** A data set with all columns of its table. *)
Definition full (d : data_set) : data_set := set_columnInfos (infos_of (imap pair (tbl_columns (ds_table d)))) d.

Lemma star_columns ds0 : Forall (fun d => m_columnInfos d = []) ds0 -> forall m a s, (a + m = length ds0)%nat -> kept ds0 s ->
  ss_dataSets s = (full <$> take a ds0) ++ drop a ds0 ->
  let s' := foldl (fun s i => all_columns i s) s (seq a m) in
  ss_dataSets s' = full <$> ds0 /\ ss_columnCount s' = (ss_columnCount s + list_sum ((fun d => length (tbl_columns (ds_table d))) <$> drop a ds0))%nat.
Proof.
  intros H0. induction m as [|m IH]; intros a s Ha Hk Hs; cbv zeta; cbn [seq foldl].
  - rewrite Hs, take_ge, drop_ge, app_nil_r by lia. split; [done|]. cbn. lia.
  - destruct (lookup_lt_is_Some_2 ds0 a ltac:(lia)) as [d Hd]. assert (Hlen : length (full <$> take a ds0) = a) by (rewrite length_fmap, length_take; lia).
    assert (Hsd : ss_dataSets s !! a = Some d) by (rewrite Hs, lookup_app_r, Hlen, Nat.sub_diag, lookup_drop, Nat.add_0_r by lia; done).
    destruct (all_columns_ok ds0 a d s Hk Hsd) as (Hk1 & _ & Hds & _ & Hc). pose proof (Forall_lookup_1 _ _ _ _ H0 Hd) as Hnil. cbn in Hnil. rewrite Hnil, app_nil_l in Hds.
    destruct (IH (S a) (all_columns a s)) as [E1 E2]; [lia|done| |].
    + rewrite Hds, Hs, (take_S_r _ _ d Hd), fmap_app, (drop_S ds0 d a Hd). rewrite <- Hlen at 1. rewrite <- (Nat.add_0_r (length _)), insert_app_r. cbn. by rewrite <- app_assoc.
    + split; [done|]. rewrite E2, Hc, (drop_S ds0 d a Hd). rewrite fmap_cons. unfold list_sum. cbn [foldr]. lia.
Qed.

(** Every column of the table is known. *)
Definition covered (s : column_state T) : Prop := forall i d m, cs_dataSets s !! i = Some d -> cs_columns s !! i = Some m ->
  forall c pos, findColumnPosition (ds_table d) c = Some pos -> is_Some (m !! c).

Lemma mbind_inv {S E A B} (c : SM S E A) (k : A -> SM S E B) s b s' : mbind c k s = (Ok b, s') -> exists a s1, c s = (Ok a, s1) /\ k a s1 = (Ok b, s').
Proof. unfold mbind. destruct (c s) as [[a|e|u] s1]; intros H; try done. by exists a, s1. Qed.

Definition keeps {A} (c : CM (T := T) A) : Prop := forall s a s', covered s -> c s = (Ok a, s') -> cs_dataSets s' = cs_dataSets s /\ covered s'.

Lemma keeps_ret {A} (a : A) : keeps (mret a).
Proof. intros s b s' H [= _ <-]. done. Qed.
Lemma keeps_bind {A B} (c : CM A) (k : A -> CM B) : keeps c -> (forall a, keeps (k a)) -> keeps (mbind c k).
Proof. intros Hc Hk s b s' H (a & s1 & E1 & E2)%mbind_inv. destruct (Hc _ _ _ H E1) as [D1 H1]. destruct (Hk a _ _ _ H1 E2) as [D2 H2]. split; [congruence|done]. Qed.

Lemma keeps_column t c tables column : keeps (update_column t c tables column).
Proof.
  intros s e s' Hs. unfold update_column. rewrite mbind_gets. destruct (match t with [] => Some 0%nat | _ => _ end) as [i|]; [|intros H; injection H as _ <-; done].
  destruct (cs_columns s !! i) as [m|] eqn:Hm; [|done]. destruct (cs_dataSets s !! i) as [d|] eqn:Hd; [|done]. destruct (m !! c) as [index|] eqn:Hc; [intros H; injection H as _ <-; done|].
  destruct (findColumnPosition (ds_table d) c) as [pos|] eqn:Hp; [by destruct (Hs i d m Hd Hm c pos Hp); congruence|]. intros H. injection H as _ <-. cbn. split; [done|].
  intros k d' m' Hk Hm' c' pos Hp'. cbn in Hk, Hm'. destruct (decide (k = i)) as [->|Hne].
  - rewrite list_lookup_alter, decide_True, Hm in Hm' by done. injection Hm' as <-. rewrite lookup_insert. case_decide; [done|]. by apply (Hs i d' m Hk Hm c' pos).
  - rewrite list_lookup_alter_ne in Hm' by done. by apply (Hs k d' m' Hk Hm' c' pos).
Qed.

Lemma keeps_columns e : keeps (update_columns e).
Proof.
  induction e as [v|t c i j|t i|es Hl|op a Ha|op a b Ha Hb|a b n Ha Hb|a b c n Ha Hb Hc|v es n Hx Hl|a b n Ha Hb|a b Ha Hb] using Expression_induction; cbn [update_columns];
    try (repeat (apply keeps_bind; [assumption|intros ?]); apply keeps_ret); [apply keeps_column|].
  apply keeps_bind; [|intros ?; apply keeps_bind; [done|intros ?; apply keeps_ret]]. clear Hx. induction Hl as [|x l Hx Hl IH]; [apply keeps_ret|].
  apply keeps_bind; [exact IH|intros ?]. apply keeps_bind; [done|intros ?; apply keeps_ret].
Qed.

(** ** The whole preparation *)

(** The rows of the tables of a request. *)
Definition request_tables (h : request_handler T) (r : SelectRequest) (ls : list (list stored_row)) : Prop :=
  exists d, findDatabaseChecked h (request_database h (m_database r)) = Ok d /\
    Forall2 (fun t rows => exists info table, findTableChecked d (st_name t) = Ok (info, table) /\ NoDup (col_name <$> tbl_columns info) /\ st_ok info table rows) (m_tables r) ls.

Lemma open_tables_ok h d ts ls : Forall2 (fun t rows => exists info table, findTableChecked d (st_name t) = Ok (info, table) /\ NoDup (col_name <$> tbl_columns info) /\ st_ok info table rows) ts ls ->
  forall l, open_tables h d ts = Ok l -> Forall2 ds_ok l ls /\ Forall names_ok l /\ Forall (fun d => m_columnInfos d = []) l /\ length l = length ts.
Proof.
  induction 1 as [|t rows ts ls (info & table & Hf & Hn & Ht) H IH]; intros l; cbn [open_tables]; [intros [= <-]; repeat split; constructor|]. rewrite Hf. cbn [bind].
  intros ([] & _ & (l' & Hl' & [= <-])%bind_Ok)%bind_Ok. destruct (IH _ Hl') as (A & B & C & D). split; [constructor; [split; [constructor|done]|done]|]. split; [constructor; [split; [done|constructor]|done]|]. split; [by constructor|]. cbn. by rewrite D.
Qed.

Lemma reset_all_ok l ls : Forall2 ds_ok l ls -> exists l1, reset_all l = Ok l1 /\ at_positions l1 ls (zeros ls) /\ same_shapes l l1.
Proof.
  induction 1 as [|d rows l ls Hd H IH]; [exists []; repeat split; constructor|]. destruct IH as (l1 & E & A & B). destruct (resetCursor_ok d rows Hd) as (d1 & E1 & A1 & B1). cbn [reset_all].
  rewrite (run_ok _ _ _ _ E1), E. exists (d1 :: l1). split; [done|]. split; by constructor.
Qed.

Lemma grows_ok l l' ls : Forall2 grows l l' -> Forall names_ok l' -> Forall2 ds_ok l ls -> Forall2 ds_ok l' ls.
Proof.
  intros H. revert ls. induction H as [|d d' l l' (_ & Ht & Hm & _) H IH]; intros ls Hn Hl; inversion Hl as [|? rows ? ? [_ Hs]]; subst; constructor.
  - apply Forall_cons in Hn as [Hn _]. split; [by apply names_infos|]. by rewrite Ht, Hm.
  - apply Forall_cons in Hn as [_ Hn]. by apply IH.
Qed.

(** Only one [*], or none. *)
Definition plain_results (r : SelectRequest) : Prop :=
  Forall (fun e => is_star (m_expression e) = false) (m_resultExpressions r) \/
  exists tables, m_resultExpressions r = [{| m_expression := AllColumnsExpression [] tables; m_alias := [] |}].

(** The expression of a request with the indices of the columns it names. *)
Definition resolves_to (l : list data_set) (e x : Expression) : Prop := forget x = forget e /\ resolved l x.

Record prepared (r : SelectRequest) (ls : list (list stored_row)) (q : query) (l : list data_set) : Prop := {
  pr_nonempty : l <> [];
  pr_at : at_positions l ls (zeros ls);
  pr_results : Forall2 (fun e x => resolves_to l (m_expression e) x) (m_resultExpressions r) (q_exprs q);
  pr_where : option_Forall2 (resolves_to l) (m_where r) (q_where q);
  pr_query : plain_results r -> query_ok l q
}.

Lemma width_no_star (l : list data_set) xs : Forall (fun x => is_star x = false) xs -> exprs_width l xs = length xs.
Proof. induction 1 as [|x xs Hx H IH]; [done|]. change (exprs_width l (x :: xs)) with (expr_width l x + exprs_width l xs)%nat. rewrite IH. by destruct x. Qed.

Lemma forget_star x e : forget x = forget e -> is_star x = is_star e.
Proof. by destruct x, e. Qed.

Lemma width_shapes (l l1 : list data_set) xs : same_shapes l l1 -> exprs_width l1 xs = exprs_width l xs.
Proof.
  intros Hs. unfold exprs_width. f_equal. apply list_fmap_ext. intros _ x _. destruct x; try done. cbn. f_equal. apply list_fmap_ext. intros _ i _.
  destruct (l !! Z.to_nat i) as [d|] eqn:Hd.
  - destruct (Forall2_lookup_l _ _ _ _ _ Hs Hd) as (d1 & -> & (_ & _ & ->)). done.
  - rewrite (proj2 (lookup_ge_None l1 (Z.to_nat i))); [done|]. rewrite <- (Forall2_length _ _ _ Hs). by apply lookup_ge_None.
Qed.

(** [*] alone gives all columns of all data sets. *)
Lemma width_full (l : list data_set) t : exprs_width (full <$> l) [AllColumnsExpression t (Z.of_nat <$> seq 0 (length l))] = list_sum ((fun d => length (tbl_columns (ds_table d))) <$> l).
Proof.
  unfold exprs_width. cbn [fmap list_fmap list_sum foldr expr_width]. rewrite Nat.add_0_r.
  assert (H : forall (l1 l2 : list data_set), (fun i => match (full <$> (l1 ++ l2)) !! Z.to_nat i with Some d => length (m_columnInfos d) | None => O end) <$> (Z.of_nat <$> seq (length l1) (length l2)) =
    (fun d => length (tbl_columns (ds_table d))) <$> l2).
  { intros l1 l2. revert l1. induction l2 as [|d l2 IH]; intros l1; [done|]. cbn [length seq fmap list_fmap]. f_equal.
    - rewrite Nat2Z.id, list_lookup_fmap, lookup_app_r, Nat.sub_diag by lia. cbn. unfold infos_of. by rewrite length_fmap, length_imap.
    - specialize (IH (l1 ++ [d])). rewrite <- app_assoc, length_app, Nat.add_1_r in IH. exact IH. }
  exact (f_equal list_sum (H [] l)).
Qed.

Lemma full_covered (l : list data_set) errors : covered {| cs_dataSets := full <$> l; cs_columns := known_columns <$> (full <$> l); cs_errors := errors |}.
Proof.
  intros i d m Hd Hm c pos Hp. cbn in Hd, Hm. rewrite list_lookup_fmap in Hm. rewrite Hd in Hm. injection Hm as <-. rewrite list_lookup_fmap in Hd. apply fmap_Some in Hd as (d0 & _ & ->).
  destruct (find_position_some _ _ _ _ Hp) as (cc & Hcc & Hname & _). unfold known_columns. cbn in *.
  assert (Hk : forall infos k m, (exists info, info ∈ infos /\ ci_name info = c) \/ is_Some (m !! c) -> is_Some (known_from k infos m !! c)).
  { induction infos as [|info infos IH]; intros k m H; cbn; [destruct H as [(info & Hin & _)|]; [by apply not_elem_of_nil in Hin|done]|]. apply IH.
    assert (Hkeep : is_Some (m !! c) -> is_Some ((match m !! ci_name info with Some _ => m | None => <[ci_name info := Z.of_nat k]> m end) !! c)).
    { intros Hs. destruct (m !! ci_name info); [done|]. rewrite lookup_insert. by case_decide. }
    destruct H as [(info' & [->|Hin]%elem_of_cons & Hn)|H]; [right|left; by exists info'|right; by apply Hkeep]. destruct (m !! ci_name info) eqn:E; [by rewrite <- Hn, E|].
    rewrite lookup_insert, decide_True by done. done. }
  apply Hk. left. exists {| m_posInTable := (pos - 0)%nat; ci_name := col_name cc; ci_alias := [] |}. split; [|done]. unfold infos_of. apply list_elem_of_fmap. exists ((pos - 0)%nat, cc). split; [done|]. apply (list_elem_of_lookup_2 _ (pos - 0)%nat).
  by rewrite list_lookup_imap, Hcc.
Qed.

(** The condition. *)
Definition resolve_where (w : option Expression) (s : select_state (T := T)) : outcome RequestError (option Expression * list data_set * list ErrorRecord) :=
  match w with
  | None => Ok (None, ss_dataSets s, ss_errors s)
  | Some e => '(e1, l, errs) <- updateColumnsFromExpression e (ss_dataSets s) (ss_errors s) ;; Ok (Some e1, l, errs)
  end.

Lemma resolve_where_ok w s : Forall names_ok (ss_dataSets s) -> ss_dataSets s <> [] ->
  exists w' l' errors, resolve_where w s = Ok (w', l', ss_errors s ++ errors) /\ Forall2 grows (ss_dataSets s) l' /\ Forall names_ok l' /\
    (ss_errors s ++ errors = [] -> option_Forall2 (resolves_to l') w w') /\ (forall l, ss_dataSets s = full <$> l -> l' = ss_dataSets s).
Proof.
  intros Hn Hne. destruct w as [e|]; cbn [resolve_where].
  - destruct (updateColumns_ok e (ss_dataSets s) (ss_errors s) Hn Hne) as (e' & l' & errs & Heq & Hg & Hn' & Hr & Hf). rewrite Heq. exists (Some e'), l', errs. split; [done|]. split; [done|]. split; [done|].
    split; [intros He; constructor; split; [done|by apply Hr]|]. intros l Hl. unfold updateColumnsFromExpression in Heq. rewrite Hl in *.
    destruct (update_columns e _) as [[x|x|u] s'] eqn:Hu; [|done..]. injection Heq as -> <- _. exact (proj1 (keeps_columns e _ _ _ (full_covered l (ss_errors s)) Hu)).
  - exists None, (ss_dataSets s), []. rewrite app_nil_r. split; [done|]. split; [apply grows_all_refl|]. split; [done|]. split; [constructor|done].
Qed.

Lemma prepare_ok h r ls q limit offset response l : request_tables h r ls -> prepare_select h r = Ok (q, limit, offset, response, l) -> prepared r ls q l.
Proof.
  intros (d & Hdb & Htab) H. unfold prepare_select in H. destruct (negb _); [done|]. rewrite Hdb in H. cbn [bind] in H. set (errs0 := _ ++ _) in H. destruct errs0 eqn:Herr0; [|done].
  apply bind_Ok in H as (l0 & Hopen & ([xs s] & Hxs & H)%bind_Ok). destruct (open_tables_ok h d _ _ Htab l0 Hopen) as (Hok0 & Hn0 & Hnil0 & Hlen0).
  assert (Hne0 : l0 <> []). { subst errs0. intros ->. by destruct (m_tables r). }
  set (s0 := {| ss_dataSets := l0; ss_errors := []; ss_knownAliases := []; ss_hasNullableColumns := false; ss_columnCount := 0; ss_response := [] |}) in Hxs.
  destruct (resolve_expressions_ok l0 _ _ s0 xs s (conj (grows_all_refl l0) Hn0) Hne0 Hxs) as ([Hg Hn] & _ & _ & Hfor & Hres & Hcnt).
  assert (Hne : ss_dataSets s <> []). { intros Hnil. rewrite Hnil in Hg. apply Hne0. by inversion Hg. }
  destruct (resolve_where_ok (m_where r) s Hn Hne) as (w & l1 & errs & Hw & Hg1 & Hn1 & Hrw & Hkeep). unfold resolve_where in Hw. rewrite Hw in H. cbn [bind] in H.
  destruct (ss_errors s ++ errs) eqn:Herr; [|done]. apply app_nil in Herr as [Hes ->]. 
  destruct (reset_all_ok l1 ls) as (l2 & Hreset & Hat & Hsh); [by apply (grows_ok l0); [eapply grows_all_trans|..]|]. rewrite Hreset in H. cbn [bind] in H.
  apply bind_Ok in H as ([] & _ & (lim & _ & (off & _ & [= <- <- <- <- <-])%bind_Ok)%bind_Ok). pose proof (shape_wider _ _ Hsh) as Hwide.
  specialize (Hres Hes). assert (Hwide2 : Forall2 wider (ss_dataSets s) l1) by (by apply grows_wider). split; cbn.
  - intros ->. inversion Hsh; subst. by inversion Hg1; subst.
  - done.
  - apply Forall2_same_length_lookup_2; [by apply Forall2_length in Hfor|]. intros i e x He Hx. destruct (Forall2_lookup_l _ _ _ _ _ Hfor He) as (x' & Hx' & Hf). rewrite Hx in Hx'. injection Hx' as <-.
    split; [done|]. apply (resolved_wider l1); [done|]. apply (resolved_wider (ss_dataSets s)); [done|]. by apply (Forall_lookup_1 _ _ _ _ Hres Hx).
  - specialize (Hrw eq_refl). destruct Hrw as [e x [Hf Hr]|]; constructor. split; [done|]. by apply (resolved_wider l1).
  - intros Hplain. assert (Hlen : length l2 = length (ss_dataSets s)) by (rewrite <- (Forall2_length _ _ _ Hsh); symmetry; by apply Forall2_length in Hg1). split.
    + eapply Forall_impl; [exact Hres|]. intros x [_ Hx]. destruct x; try done. cbn in Hx |- *. by rewrite Hlen.
    + destruct Hplain as [Hns|[tables Hstar]].
      * rewrite (Hcnt Hes Hns), width_no_star; [cbn; symmetry; by apply Forall2_length in Hfor|]. apply Forall_lookup. intros i x Hx. destruct (Forall2_lookup_r _ _ _ _ _ Hfor Hx) as (e & He & Hf).
        rewrite (forget_star _ _ Hf). by apply (Forall_lookup_1 _ _ _ _ Hns He).
      * rewrite Hstar in Hxs. injection Hxs as <- <-. destruct (star_columns l0 Hnil0 (length l0) 0 s0) as [Hds Hc]; [done|split; [apply grows_all_refl|done]|by rewrite take_0, drop_0|].
        change (seq 0 (length l0)) with (seq 0 (length (ss_dataSets s0))) in Hds, Hc. 
        rewrite (width_shapes l1 l2 _ Hsh). rewrite (Hkeep l0 Hds). etransitivity; [|symmetry; exact Hc]. etransitivity; [|apply (width_full l0 [])]. f_equal. exact Hds.
Qed.
End Prepare.

(** ** SELECT is correct

    The response of a request is the one of relational algebra on the rows of its
    tables: product, selection, OFFSET and LIMIT, projection, in the order of the
    row numbers.  A database error in a row ends the response there, without a
    message. *)

Local Open Scope Z_scope.

Section Correct.
Context {T : Type} {ST : ScanTable T} {SL : ScanTableLaws T} {X : Externals}.

Lemma row_count_positive e e1 e2 k : row_count e e1 e2 = Ok (Some k) -> 0 <= k.
Proof.
  destruct e as [e|]; [|done]. cbn [row_count]. intros ([] & _ & (v & _ & H)%bind_Ok)%bind_Ok. destruct (negb _); [done|]. apply bind_Ok in H as ([] & _ & H); [done|].
  apply bind_Ok in H as (z & Hz & [= <-]). unfold map_error in Hz. destruct (fst (asUInt64 ext_buffer false v)) as [z'| |] eqn:E; [|done..]. injection Hz as <-.
  apply as_integer_in in E. unfold in_ity in E. apply andb_prop in E as [E _]. by apply Z.leb_le in E.
Qed.

Lemma prepare_counts h r q limit offset response (l : list (TableDataSet T)) : prepare_select h r = Ok (q, limit, offset, response, l) ->
  (forall k, limit = Some k -> 0 <= k) /\ (forall k, offset = Some k -> 0 <= k).
Proof.
  unfold prepare_select. destruct (negb _); [done|]. intros (d & _ & H)%bind_Ok. destruct (_ ++ _); [|done]. apply bind_Ok in H as (l0 & _ & ([xs s] & _ & ([[w l1] errs] & _ & H)%bind_Ok)%bind_Ok).
  destruct errs; [|done]. apply bind_Ok in H as (l2 & _ & ([] & _ & (lim & Hlim & (off & Hoff & [= _ <- <- _ _])%bind_Ok)%bind_Ok)%bind_Ok).
  split; intros k ->; by eapply row_count_positive.
Qed.

(** C2: the response to a SELECT whose result list has no [*], or only [*], is that
    of its specification on the cross product of the rows of its tables: the rows
    that fulfil WHERE, after the first OFFSET of them and at most LIMIT, with the
    values of the result expressions and a mask of the null values.  The expressions
    are those of the request, with each name resolved to the column of that name.
    This includes errors: the response ends where a row fails, and ends normally if
    the error is a database error.  With [*] beside other columns the behaviour is
    undefined ([star_and_column]) and nothing is said.  The tables keep the laws of
    [ScanTableLaws]: the tables of the program do ([scan_reads]) as long as no row
    is the last one of a file of the main index, where the search for the next row
    is wrong, no value ends at the end of its block and no block was evicted. *)
Theorem select_refines (h : request_handler T) r ls fuel q limit offset response l :
  request_tables h r ls -> plain_results r -> prepare_select h r = Ok (q, limit, offset, response, l) -> (List.length (product ls) <= fuel)%nat ->
  Forall2 (fun e x => resolves_to l (m_expression e) x) (m_resultExpressions r) (q_exprs q) /\ option_Forall2 (resolves_to l) (m_where r) (q_where q) /\
  let '(rows, o) := spec_select (spec_fits l (q_where q)) (fun rows => project l rows (q_exprs q)) limit offset (product ls) in
  exists evs, Forall2 (row_written q) rows evs /\ executeSelectRequest fuel h r = (BeginRowset response :: fst (ended evs o), snd (ended evs o)).
Proof.
  intros Ht Hp Hprep Hf. destruct (prepare_ok h r ls q limit offset response l Ht Hprep) as [Hne Hat Hres Hw Hq]. split; [done|]. split; [done|].
  pose proof (write_rows_ok l q ls limit offset l fuel (Hq Hp) Hne (same_shapes_refl l) Hat Hf) as H. destruct (spec_select _ _ _ _ _) as [rows o]. destruct H as (evs & Hev & Hwr). exists evs.
  split; [done|]. unfold executeSelectRequest. rewrite Hprep, Hwr. by destruct (ended evs o).
Qed.

(** when WHERE and the result expressions can be evaluated on all rows of the
    product, SELECT answers with the projections of the rows that fulfil WHERE,
    without the first OFFSET of them and at most LIMIT of them, in the order of
    the product, and ends the rowset: no row is lost, repeated or out of order,
    and the loop ends. *)
Theorem select_complete (h : request_handler T) r ls fuel q limit offset response l :
  request_tables h r ls -> plain_results r -> prepare_select h r = Ok (q, limit, offset, response, l) -> (List.length (product ls) <= fuel)%nat ->
  (forall rows, rows ∈ product ls -> exists b, spec_fits l (q_where q) rows = Ok b) -> (forall rows, rows ∈ product ls -> exists vs, project l rows (q_exprs q) = Ok vs) ->
  exists vss evs, Forall2 (fun rows vs => project l rows (q_exprs q) = Ok vs) (cut limit offset (List.filter (selected (spec_fits l (q_where q))) (product ls))) vss /\
    Forall2 (row_written q) vss evs /\ executeSelectRequest fuel h r = (BeginRowset response :: evs ++ [EndRowset], Ok tt).
Proof.
  intros Ht Hp Hprep Hf Hfits Hproj. destruct (prepare_ok h r ls q limit offset response l Ht Hprep) as [Hne Hat _ _ Hq]. destruct (prepare_counts h r q limit offset response l Hprep) as [Hl Ho].
  pose proof (write_rows_ok l q ls limit offset l fuel (Hq Hp) Hne (same_shapes_refl l) Hat Hf) as H.
  destruct (spec_select_ok _ _ limit offset (product ls) Hfits Hproj Hl Ho) as (vss & E & Hvss). rewrite E in H. destruct H as (evs & Hev & Hwr). exists vss, evs. split; [done|]. split; [done|].
  unfold executeSelectRequest. by rewrite Hprep, Hwr.
Qed.
End Correct.

(** ** Examples *)

Module SelectSample.
Local Open Scope string_scope.
Local Open Scope Z_scope.
Definition column (name : String.string) (t : ColumnDataType) (notNull : bool) : column_info := {| col_name := chars name; col_dataType := t; col_notNull := notNull |}.
Definition trid_column : column_info := column "TRID" COLUMN_DATA_TYPE_UINT64 true.
Definition text (s : String.string) : Variant := VString (chars s).
Definition int (z : Z) : Variant := VNum (CI I32 z).

(** Two tables: [T1(A)] with three rows and [T2(B)] with two. *)
Definition t1_info : table_info := {| tbl_id := 10; tbl_name := chars "T1"; tbl_columns := [trid_column; column "A" COLUMN_DATA_TYPE_INT32 false] |}.
Definition t2_info : table_info := {| tbl_id := 11; tbl_name := chars "T2"; tbl_columns := [trid_column; column "B" COLUMN_DATA_TYPE_TEXT true] |}.
Definition t1 : mem_scan := {| ms_info := t1_info; ms_rows := [(1, [int 5]); (2, [VNull]); (4, [int 9])]; ms_last := 4 |}.
Definition t2 : mem_scan := {| ms_info := t2_info; ms_rows := [(1, [text "x"]); (2, [text "12"])]; ms_last := 2 |}.
Definition root : User :=
  {| us_id := 1; us_name := chars "ROOT"; us_realName := None; us_description := None; us_active := true; us_accessKeys := []; us_tokens := []; us_grantedPermissions := ∅ |}.
Definition handler : request_handler mem_scan :=
  {| h_databases := [{| db_id := 2; db_name := chars "DB"; db_tables := [(t1_info, t1); (t2_info, t2)] |}]; h_users := {[1 := root]};
     m_currentDatabaseName := chars "DB"; m_currentUserId := 1 |}.

Definition named (t c : String.string) : Expression := SingleColumnExpression (chars t) (chars c) [] None.
Definition result (e : Expression) : ResultExpression := {| m_expression := e; m_alias := [] |}.
Definition table (t : String.string) : SourceTable := {| st_name := chars t; st_alias := [] |}.

(** [SELECT B, A + 1 FROM T1, T2 WHERE T1.A > 4 LIMIT 2 OFFSET 1] *)
Definition query1 : SelectRequest :=
  {| m_database := []; m_tables := [table "T1"; table "T2"];
     m_resultExpressions := [result (named "T2" "B"); result (BinaryOperator AddOperator (named "" "A") (ConstantExpression (int 1)))];
     m_where := Some (BinaryOperator GreaterOperator (named "T1" "A") (ConstantExpression (int 4)));
     m_limit := Some (ConstantExpression (int 2)); m_offset := Some (ConstantExpression (int 1)) |}.

Example run1 : executeSelectRequest 6 handler query1 =
  ([BeginRowset [{| cd_name := chars "B"; cd_isNullable := false; cd_type := COLUMN_DATA_TYPE_TEXT |}; {| cd_name := []; cd_isNullable := true; cd_type := COLUMN_DATA_TYPE_INT32 |}];
    WriteRow [text "12"; int 6] [0]; WriteRow [text "x"; int 10] [0]; EndRowset], Ok tt).
Proof. vm_compute. reflexivity. Qed.

(** [SELECT B FROM T2 WHERE CAST(B AS INT32) > 0]: the first row fails, and the
    response ends normally without the second one, which fulfils the condition. *)
Definition failing_query : SelectRequest :=
  {| m_database := []; m_tables := [table "T2"]; m_resultExpressions := [result (named "" "B")];
     m_where := Some (BinaryOperator GreaterOperator (CastOperator (named "" "B") (ConstantExpression (text "INT32"))) (ConstantExpression (int 0)));
     m_limit := None; m_offset := None |}.

Example error_ends_rowset : executeSelectRequest 6 handler failing_query =
  ([BeginRowset [{| cd_name := chars "B"; cd_isNullable := false; cd_type := COLUMN_DATA_TYPE_TEXT |}]; EndRowset], Ok tt).
Proof. vm_compute. reflexivity. Qed.

(** [SELECT *, A FROM T1]: the row of [*] has all columns of the data set, also the
    one that is selected by its name, and does not fit into the vector of values. *)
Example star_and_column : executeSelectRequest 6 handler
  {| m_database := []; m_tables := [table "T1"]; m_resultExpressions := [result (AllColumnsExpression [] []); result (named "" "A")];
     m_where := None; m_limit := None; m_offset := None |} =
  ([BeginRowset [{| cd_name := chars "TRID"; cd_isNullable := false; cd_type := COLUMN_DATA_TYPE_UINT64 |};
                 {| cd_name := chars "A"; cd_isNullable := true; cd_type := COLUMN_DATA_TYPE_INT32 |};
                 {| cd_name := chars "A"; cd_isNullable := true; cd_type := COLUMN_DATA_TYPE_INT32 |}]], Undef OutOfBounds).
Proof. vm_compute. reflexivity. Qed.

(** [SELECT C + 1 FROM T1]: the type of the expression is asked for before the
    errors are looked at, so that the unknown column is not reported. *)
Example unknown_column : snd (executeSelectRequest 6 handler
  {| m_database := []; m_tables := [table "T1"]; m_resultExpressions := [result (BinaryOperator AddOperator (named "" "C") (ConstantExpression (int 1)))];
     m_where := None; m_limit := None; m_offset := None |}) = Throw (ExpressionFailed RuntimeError).
Proof. vm_compute. reflexivity. Qed.

Definition rows1 : list (list stored_row) := [mem_row <$> ms_rows t1; mem_row <$> ms_rows t2].

Lemma tables1 : request_tables handler query1 rows1.
Proof.
  eexists. split; [reflexivity|]. repeat constructor; eexists _, _; (split; [reflexivity|]); (split; [apply (bool_decide_unpack _); vm_compute; exact I|]).
  - exact (mem_ok_dec t1 eq_refl).
  - exact (mem_ok_dec t2 eq_refl).
Qed.

Lemma plain1 : plain_results query1.
Proof. left. repeat constructor. Qed.

Lemma prepared1 : exists q limit offset response l, prepare_select handler query1 = Ok (q, limit, offset, response, l).
Proof. eexists _, _, _, _, _. vm_compute. reflexivity. Qed.

Lemma select_complete_witness : exists q response vss evs, List.length vss = 2%nat /\ Forall2 (row_written q) vss evs /\
  executeSelectRequest 6 handler query1 = (BeginRowset response :: evs ++ [EndRowset], Ok tt).
Proof.
  destruct prepared1 as (q & limit & offset & response & l & H). exists q, response.
  destruct (select_complete handler query1 rows1 6 q limit offset response l tables1 plain1 H) as (vss & evs & Hv & Hw & Hx).
  - vm_compute. lia.
  - vm_compute in H. injection H as <- <- <- <- <-. intros rows Hr. repeat (apply elem_of_cons in Hr as [->|Hr]; [eexists; vm_compute; reflexivity|]). now apply not_elem_of_nil in Hr.
  - vm_compute in H. injection H as <- <- <- <- <-. intros rows Hr. repeat (apply elem_of_cons in Hr as [->|Hr]; [eexists; vm_compute; reflexivity|]). now apply not_elem_of_nil in Hr.
  - exists vss, evs. split; [|split; [exact Hw|exact Hx]]. rewrite <- (Forall2_length _ _ _ Hv). vm_compute in H. injection H as <- <- <- <- <-. vm_compute. reflexivity.
Defined.
End SelectSample.

(** ** An example with a table of the program *)

From S2P Require Import ColumnRecords LruCache LinearIndex LinearIndexOps LinearIndexSpec Column ColumnBlocks ColumnSpec ColumnLaws MasterSpec TableSpec TableRefine TableCorrect TableCursor.

Module TableSample.
Import SelectSample.
Local Open Scope string_scope.
Local Open Scope Z_scope.

(** The table [T(A, B)] of [scanned_ops], with the rows 1, 3 and 40. *)
Notation real_table := (scan_table sample_state (uli_state sample_state)).
Definition real_handler : request_handler real_table :=
  {| h_databases := [{| db_id := 2; db_name := chars "DB"; db_tables := [(scanned_info, scanned_after scanned_ops)] |}]; h_users := {[1 := root]};
     m_currentDatabaseName := chars "DB"; m_currentUserId := 1 |}.
(** The rows, with records and addresses left open. *)
Definition real_row (k : Z) (a : ColumnDataAddress) (m : MasterColumnRecord) (v w : Variant) : stored_row := {| sr_trid := k; sr_address := a; sr_mcr := m; sr_values := [v; w] |}.
Definition real_list (a : list (ColumnDataAddress * MasterColumnRecord)) : list stored_row :=
  match a with
  | [(a1, m1); (a2, m2); (a3, m3)] => [real_row 1 a1 m1 (int 10) (VNum (CI I64 30)); real_row 3 a2 m2 (int 12) (VNum (CI I64 22)); real_row 40 a3 m3 (int 13) VNull]
  | _ => []
  end.

(** The table holds these rows, and can be changed three times. *)
Lemma real_rows : exists a1 m1 a2 m2 a3 m3, scan_ok 3 scanned_info (scanned_after scanned_ops) (real_list [(a1, m1); (a2, m2); (a3, m3)]).
Proof.
  assert (Hc : cache_new (length scanned_ops + 3) (sample_blocks 20)) by (apply sample_cache_new; vm_compute; lia). destruct scanned_rows as (t & Ha & Hr & _ & Ht).
  destruct (scan_after (TE := sample_env) scanned_table scanned_info [sample_blocks 20; sample_blocks 20] (sample_blocks 20) trid_new scanned_ops scanned_table_ok (ex_intro _ _ eq_refl)
    ltac:(vm_compute; split; [discriminate|reflexivity]) eq_refl scan_index_ok scanned_ops_ok 3 t (Forall_cons_2 _ _ _ Hc (Forall_cons_2 _ _ _ Hc (Forall_nil_2 _))) Hc eq_refl Ha (readable_rows _ _ Hr)) as (l & Hl & Hrows).
  - vm_compute in Ha. injection Ha as <-. repeat (constructor; [vm_compute; reflexivity|]). constructor.
  - rewrite Ht in Hrows. destruct l as [|[k1 a1 m1 v1] [|[k2 a2 m2 v2] [|[k3 a3 m3 v3] [|]]]]; try discriminate Hrows. injection Hrows as -> -> -> -> -> ->. exists a1, m1, a2, m2, a3, m3. exact Hl.
Qed.

(** [SELECT B, A + 1 FROM T WHERE A > 10 LIMIT 1 OFFSET 1] *)
Definition query2 : SelectRequest :=
  {| m_database := []; m_tables := [table "T"]; m_resultExpressions := [result (named "" "B"); result (BinaryOperator AddOperator (named "" "A") (ConstantExpression (int 1)))];
     m_where := Some (BinaryOperator GreaterOperator (named "T" "A") (ConstantExpression (int 10)));
     m_limit := Some (ConstantExpression (int 1)); Select.m_offset := Some (ConstantExpression (int 1)) |}.

Lemma prepared2 : exists q limit offset response l, prepare_select real_handler query2 = Ok (q, limit, offset, response, l).
Proof. eexists _, _, _, _, _. vm_compute. reflexivity. Qed.
Lemma selected2 q limit offset response l : prepare_select real_handler query2 = Ok (q, limit, offset, response, l) -> forall a1 m1 a2 m2 a3 m3,
  fst (spec_select (spec_fits l (q_where q)) (fun rows => project l rows (q_exprs q)) limit offset (product [real_list [(a1, m1); (a2, m2); (a3, m3)]])) = [[VNull; int 14]].
Proof. intros H. vm_compute in H. injection H as <- <- <- <- <-. intros. vm_compute. reflexivity. Qed.

(** What [select_refines] says of this request. *)
Lemma select_refines_witness : exists q limit offset response l ls, prepare_select real_handler query2 = Ok (q, limit, offset, response, l) /\
  let '(rows, o) := spec_select (spec_fits l (q_where q)) (fun rows => project l rows (q_exprs q)) limit offset (product ls) in
  rows = [[VNull; int 14]] /\ exists evs, Forall2 (row_written q) rows evs /\ executeSelectRequest 3 real_handler query2 = (BeginRowset response :: fst (ended evs o), snd (ended evs o)).
Proof.
  destruct real_rows as (a1 & m1 & a2 & m2 & a3 & m3 & Hl). destruct prepared2 as (q & limit & offset & response & l & H). exists q, limit, offset, response, l, [real_list [(a1, m1); (a2, m2); (a3, m3)]]. split; [exact H|].
  destruct (select_refines (SL := scan_reads 3) real_handler query2 [real_list [(a1, m1); (a2, m2); (a3, m3)]] 3 q limit offset response l) as (_ & _ & Hs); [|left; repeat constructor|exact H|cbn; lia|].
  - eexists. split; [reflexivity|]. constructor; [|constructor]. eexists _, _. split; [reflexivity|]. split; [apply (bool_decide_unpack _); vm_compute; exact I|]. exact Hl.
  - pose proof (selected2 q limit offset response l H a1 m1 a2 m2 a3 m3) as E. destruct (spec_select _ _ _ _ _) as [rows o]. split; [exact E|exact Hs].
Defined.
End TableSample.
