(* ===== verification/Dml.v ===== *)
(** * UPDATE, DELETE and INSERT

    Models [RequestHandler_DML.cpp].  A request gives how it ends, the affected
    row count of the response, and the handler with the changed table: also a
    request that fails may have changed rows before. *)

From stdpp Require Import base list gmap.
Set Warnings "-clear-no-such-hyp,-notation-incompatible-prefix,-notation-for-abbreviation".
From Stdlib Require Import ZArith Lia.
From S2P Require Import Prelude StateM Bytes CNum VariantType Variant VariantCmp VariantConv ColumnType Expr ExprEval MasterColumn Table Users DataSet Query Select.

Local Open Scope Z_scope.

(** ** Requests *)

Record ColumnReference : Type := { cr_table : list Z; cr_column : list Z }.
Record InsertRequest : Type := { ir_database : list Z; ir_table : list Z; ir_columns : list (list Z); ir_values : list (list Expression) }.
Record UpdateRequest : Type := {
  ur_database : list Z; ur_table : SourceTable; ur_columns : list ColumnReference; ur_values : list Expression; ur_where : option Expression
}.
Record DeleteRequest : Type := { dr_database : list Z; dr_table : SourceTable; dr_where : option Expression }.

Section Dml.
Context {T : Type} {ST : ScanTable T} {X : Externals}.
Notation data_set := (TableDataSet T).

(** ** The table of a request *)

(** The [n]th transaction of the request: the numbers of the database, the time
    of the system, and the user. *)
Record transaction_source : Type := { m_lastTransactionId : Z; current_time : nat -> Z }.
Definition next_transaction (h : request_handler T) (s : transaction_source) (n : nat) : TransactionParameters :=
  {| tp_transactionId := uw 64 (m_lastTransactionId s + Z.of_nat (S n)); tp_timestamp := current_time s n; tp_userId := m_currentUserId h |}.

(** A table is one object: the handler sees its changes. *)
Fixpoint store_in {A} (p : A -> bool) (f : A -> A) (l : list A) : list A :=
  match l with
  | [] => []
  | x :: l' => if p x then f x :: l' else x :: store_in p f l'
  end.
Definition store_table (databaseName tableName : list Z) (t : T) (h : request_handler T) : request_handler T :=
  {| h_databases :=
       store_in (fun d => bool_decide (db_name d = databaseName))
         (fun d => {| db_id := db_id d; db_name := db_name d;
                      db_tables := store_in (fun x => bool_decide (tbl_name (fst x) = tableName)) (fun x => (fst x, t)) (db_tables d) |})
         (h_databases h);
     h_users := h_users h; m_currentDatabaseName := m_currentDatabaseName h; m_currentUserId := m_currentUserId h |}.

(** The checks that the three requests have in common: the table, and the right
    to change it. *)
Definition open_table (h : request_handler T) (databaseName tableName : list Z) (isSystem : ErrorRecord) (p : PermissionType)
    : outcome RequestError (database T * table_info * T) :=
  d <- findDatabaseChecked h databaseName ;;
  if negb (isValidDatabaseObjectName tableName) then Throw (DatabaseError (ErrorInvalidTableName tableName)) else
  if isSystemTable tableName then Throw (DatabaseError isSystem) else
  '(info, table) <- findTableChecked d tableName ;;
  checkOperationPermitted h d info p ;;;
  Ok (d, info, table).

(** ** Changing rows *)

Definition fits_where (where_ : option Expression) (d : data_set) : outcome RequestError bool :=
  match where_ with
  | None => Ok true
  | Some e => where_error (v <- expression_result (evaluate (DBExpressionEvaluationContext [d]) e) ;; getBool v)
  end.

(** The loop over the rows: the end, the number of changed rows, the data set. *)
Fixpoint change_rows (fuel : nat) (where_ : option Expression) (change : nat -> data_set -> outcome RequestError unit * data_set) (count : nat) (d : data_set)
    : outcome RequestError unit * nat * data_set :=
  if negb (m_hasCurrentRow d) then (Ok tt, count, d) else
  match fuel with
  | O => (Undef NoProgress, count, d)
  | S n =>
      let next count' d' :=
        match run moveToNextRow d' with
        | (Ok _, d1) => change_rows n where_ change count' d1
        | (Throw e, d1) => (Throw e, count', d1)
        | (Undef u, d1) => (Undef u, count', d1)
        end in
      match fits_where where_ d with
      | Ok false => next count d
      | Ok true =>
          match change count d with
          | (Ok _, d1) => next (S count) d1
          | (Throw e, d1) => (Throw e, count, d1)
          | (Undef u, d1) => (Undef u, count, d1)
          end
      | Throw e => (Throw e, count, d)
      | Undef u => (Undef u, count, d)
      end
  end.

Definition change_table (fuel : nat) (where_ : option Expression) (change : nat -> data_set -> outcome RequestError unit * data_set) (d : data_set)
    : outcome RequestError unit * nat * data_set :=
  match run resetCursor d with
  | (Ok _, d1) => change_rows fuel where_ change 0 d1
  | (Throw e, d1) => (Throw e, O, d1)
  | (Undef u, d1) => (Undef u, O, d1)
  end.

(** ** DELETE *)

Definition delete_row (tps : nat -> TransactionParameters) (n : nat) (d : data_set) : outcome RequestError unit * data_set := run (deleteCurrentRow (tps n)) d.

Definition prepare_delete (h : request_handler T) (r : DeleteRequest) : outcome RequestError (option Expression * data_set) :=
  let databaseName := request_database h (dr_database r) in
  if negb (isValidDatabaseObjectName databaseName) then Throw (DatabaseError (ErrorInvalidDatabaseName databaseName)) else
  '(d, info, table) <- open_table h databaseName (st_name (dr_table r)) (ErrorCannotDeleteFromSystemTable databaseName (st_name (dr_table r))) kDelete ;;
  '(where_, dataSets, errors) <- (match dr_where r with
    | None => Ok (None, [new_data_set info table (st_alias (dr_table r))], [])
    | Some e => '(e1, l, errs) <- updateColumnsFromExpression e [new_data_set info table (st_alias (dr_table r))] [] ;; Ok (Some e1, l, errs)
    end) ;;
  match errors, dataSets with
  | _ :: _, _ => Throw (CompoundDatabaseError errors)
  | [], ds :: _ => checkWhereExpression where_ dataSets ;;; Ok (where_, ds)
  | [], [] => Undef OutOfBounds
  end.

Definition executeDeleteRequest (fuel : nat) (s : transaction_source) (h : request_handler T) (r : DeleteRequest) : outcome RequestError unit * nat * request_handler T :=
  match prepare_delete h r with
  | Ok (where_, d) =>
      let '(o, count, d1) := change_table fuel where_ (delete_row (next_transaction h s)) d in
      (o, count, store_table (request_database h (dr_database r)) (st_name (dr_table r)) (m_table d1) h)
  | Throw e => (Throw e, O, h)
  | Undef u => (Undef u, O, h)
  end.

(** ** UPDATE *)

(** The columns of SET.  [columnPresent] is never written: its entries are zero. *)
Fixpoint set_columns (databaseName : list Z) (r : UpdateRequest) (columnPresent : list bool) (columns : list ColumnReference) (d : data_set)
    : outcome RequestError (list nat * data_set * list ErrorRecord) :=
  match columns with
  | [] => Ok ([], d, [])
  | c :: columns' =>
      let error e d1 := '(positions, d2, errors) <- set_columns databaseName r columnPresent columns' d1 ;; Ok (positions, d2, e :: errors) in
      if bool_decide (cr_column c = kMasterColumnName) then error (ErrorCannotUpdateMasterColumn databaseName (tbl_name (ds_table d))) d else
      if negb (bool_decide (cr_table c = [])) && negb (bool_decide (cr_table c = st_name (ur_table r))) && negb (bool_decide (cr_table c = st_alias (ur_table r)))
      then error (ErrorUpdateTableIsNotEqualToColumnTable (st_name (ur_table r)) (cr_table c) (cr_column c)) d else
      match findColumnPosition (ds_table d) (cr_column c) with
      | None => error (ErrorColumnDoesNotExist databaseName (st_name (ur_table r)) (cr_column c)) d
      | Some p =>
          let d1 := emplaceColumnInfo {| m_posInTable := p; ci_name := cr_column c; ci_alias := [] |} d in
          match columnPresent !! p with
          | None => Throw OutOfRange
          | Some true => error (ErrorUpdateDuplicateColumnName (cr_column c)) d1
          | Some false => '(positions, d2, errors) <- set_columns databaseName r columnPresent columns' d1 ;; Ok (p :: positions, d2, errors)
          end
      end
  end.

(** The values of SET, from the first to the last. *)
Fixpoint update_values_columns (values : list Expression) (dataSets : list data_set) (errors : list ErrorRecord)
    : outcome RequestError (list Expression * list data_set * list ErrorRecord) :=
  match values with
  | [] => Ok ([], dataSets, errors)
  | e :: values' =>
      '(e1, l1, errs1) <- updateColumnsFromExpression e dataSets errors ;;
      '(es, l2, errs2) <- update_values_columns values' l1 errs1 ;;
      Ok (e1 :: es, l2, errs2)
  end.

Fixpoint validate_values (context : ExpressionEvaluationContext) (values : list Expression) : outcome RequestError unit :=
  match values with
  | [] => Ok tt
  | e :: values' =>
      match validate context e with
      | Ok _ => validate_values context values'
      | Throw _ => Throw (DatabaseError ErrorUpdateInvalidValueExpression)
      | Undef u => Undef u
      end
  end.

Fixpoint evaluate_values (context : ExpressionEvaluationContext) (values : list Expression) : outcome RequestError (list Variant) :=
  match values with
  | [] => Ok []
  | e :: values' => v <- expression_result (evaluate context e) ;; vs <- evaluate_values context values' ;; Ok (v :: vs)
  end.

Definition update_row (values : list Expression) (positions : list nat) (tps : nat -> TransactionParameters) (n : nat) (d : data_set) : outcome RequestError unit * data_set :=
  match evaluate_values (DBExpressionEvaluationContext [d]) values with
  | Ok vs => run (updateCurrentRow vs positions (tps n)) d
  | Throw e => (Throw e, d)
  | Undef u => (Undef u, d)
  end.

Definition prepare_update (h : request_handler T) (r : UpdateRequest) : outcome RequestError (option Expression * list Expression * list nat * data_set) :=
  let databaseName := request_database h (ur_database r) in
  let tableName := st_name (ur_table r) in
  if negb (isValidDatabaseObjectName databaseName) then Throw (DatabaseError (ErrorInvalidDatabaseName databaseName)) else
  if negb (isValidDatabaseObjectName tableName) then Throw (DatabaseError (ErrorInvalidTableName tableName)) else
  match ur_columns r, ur_values r with
  | [], _ => Throw (DatabaseError (ErrorColumnsListIsEmpty (ur_database r) tableName))
  | _, [] => Throw (DatabaseError ErrorValuesListIsEmpty)
  | columns, values =>
      '(d, info, table) <- open_table h databaseName tableName (ErrorCannotUpdateSystemTable databaseName tableName) kUpdate ;;
      '(positions, ds, errors) <- set_columns (db_name d) r (replicate (length (tbl_columns info)) false) columns (new_data_set info table (st_alias (ur_table r))) ;;
      '(where_, dataSets, errors) <- (match ur_where r with
        | None => Ok (None, [ds], errors)
        | Some e => '(e1, l, errs) <- updateColumnsFromExpression e [ds] errors ;; Ok (Some e1, l, errs)
        end) ;;
      '(values, dataSets, errors) <- update_values_columns values dataSets errors ;;
      match errors, dataSets with
      | _ :: _, _ => Throw (CompoundDatabaseError errors)
      | [], ds :: _ =>
          checkWhereExpression where_ dataSets ;;;
          validate_values (DBExpressionEvaluationContext dataSets) values ;;;
          Ok (where_, values, positions, ds)
      | [], [] => Undef OutOfBounds
      end
  end.

Definition executeUpdateRequest (fuel : nat) (s : transaction_source) (h : request_handler T) (r : UpdateRequest) : outcome RequestError unit * nat * request_handler T :=
  match prepare_update h r with
  | Ok (where_, values, positions, d) =>
      let '(o, count, d1) := change_table fuel where_ (update_row values positions (next_transaction h s)) d in
      (o, count, store_table (request_database h (ur_database r)) (st_name (ur_table r)) (m_table d1) h)
  | Throw e => (Throw e, O, h)
  | Undef u => (Undef u, O, h)
  end.

(** ** INSERT *)

(** The columns of the request; a name that is not known is an error. *)
Fixpoint insert_columns (databaseName : list Z) (r : InsertRequest) (info : table_info) (columns : list (list Z)) : list (list Z) * list ErrorRecord :=
  match columns with
  | [] => ([], [])
  | name :: columns' =>
      let '(names, errors) := insert_columns databaseName r info columns' in
      if bool_decide (name = kMasterColumnName) then (names, ErrorCannotInsertIntoMasterColumn :: errors) else
      if bool_decide (name ∈ (col_name <$> tbl_columns info)) then (name :: names, errors)
      else (names, ErrorColumnDoesNotExist databaseName (ir_table r) name :: errors)
  end.

(** The rows whose number of values is not the expected one; [i] is the index of
    the first row. *)
Fixpoint check_lengths (r : InsertRequest) (filledColumnsCount : Z) (i : Z) (rows : list (list Expression)) : list ErrorRecord :=
  match rows with
  | [] => []
  | row :: rows' =>
      (if len row =? filledColumnsCount then [] else
       [(match ir_columns r with [] => ErrorValuesListLengthsNotSame | _ => ErrorValuesListNotMatchColumns end) (ir_database r) (ir_table r) filledColumnsCount (i + 1) (len row)]) ++
      check_lengths r filledColumnsCount (i + 1) rows'
  end.

Definition prepare_insert (h : request_handler T) (r : InsertRequest) : outcome RequestError (list (list Z) * T) :=
  let databaseName := request_database h (ir_database r) in
  if negb (isValidDatabaseObjectName databaseName) then Throw (DatabaseError (ErrorInvalidDatabaseName databaseName)) else
  '(d, info, table) <- open_table h databaseName (ir_table r) (ErrorCannotInsertToSystemTable databaseName (ir_table r)) kInsert ;;
  match ir_values r with
  | [] => Throw (DatabaseError ErrorValuesListIsEmpty)
  | row :: _ =>
      let filledColumnsCount := match ir_columns r with [] => len row | columns => len columns end in
      if bool_decide (ir_columns r = []) && (len (tbl_columns info) <=? filledColumnsCount)
      then Throw (DatabaseError (ErrorTooManyColumnsToInsert databaseName (ir_table r) filledColumnsCount (len (tbl_columns info) - 1))) else
      let '(columnNames, errors1) := insert_columns databaseName r info (ir_columns r) in
      match errors1 ++ check_lengths r filledColumnsCount 0 (ir_values r) with
      | [] => Ok (columnNames, table)
      | errors => Throw (CompoundDatabaseError errors)
      end
  end.

Definition insert_row (columnNames : list (list Z)) (tp : TransactionParameters) (row : list Expression) (t : T) : outcome RequestError unit * T :=
  match evaluate_values empty_context row with
  | Ok rowValues =>
      let '(o, t1) := match columnNames with [] => st_insertRow rowValues tp t | _ => st_insertRow_named columnNames rowValues tp t end in
      (map_error (fun e => DataSetFailed (TableFailed e)) o, t1)
  | Throw e => (Throw e, t)
  | Undef u => (Undef u, t)
  end.

Fixpoint insert_request_rows (columnNames : list (list Z)) (tp : TransactionParameters) (rows : list (list Expression)) (count : nat) (t : T)
    : outcome RequestError unit * nat * T :=
  match rows with
  | [] => (Ok tt, count, t)
  | row :: rows' =>
      match insert_row columnNames tp row t with
      | (Ok _, t1) => insert_request_rows columnNames tp rows' (S count) t1
      | (Throw e, t1) => (Throw e, count, t1)
      | (Undef u, t1) => (Undef u, count, t1)
      end
  end.

(** All rows of a request are inserted in one transaction. *)
Definition executeInsertRequest (s : transaction_source) (h : request_handler T) (r : InsertRequest) : outcome RequestError unit * nat * request_handler T :=
  match prepare_insert h r with
  | Ok (columnNames, t) =>
      let '(o, count, t1) := insert_request_rows columnNames (next_transaction h s 0) (ir_values r) 0 t in
      (o, count, store_table (request_database h (ir_database r)) (ir_table r) t1 h)
  | Throw e => (Throw e, O, h)
  | Undef u => (Undef u, O, h)
  end.
End Dml.
