(* ===== verification/DmlCorrect.v ===== *)
(** * UPDATE, DELETE and INSERT are correct

    A request changes the rows of its table that fulfil its condition, or adds its
    rows, and nothing else: no other row and no other table.  A request that fails
    keeps what it did before the row that failed. *)

From stdpp Require Import base list gmap sorting.
Set Warnings "-clear-no-such-hyp,-notation-incompatible-prefix,-notation-for-abbreviation".
From Stdlib Require Import ZArith Lia.
From Stdlib Require Import (notations) String.
From S2P Require Import Prelude CNum VariantType Variant VariantCmp VariantConv ColumnType Expr ExprEval ExprTyping StateM Bytes MasterColumn Table Users SystemTables DataSet DataSetSpec MemScan Query QuerySpec Select SelectSpec SelectCorrect Dml.

(** ** What a change of rows gives

    The loop of UPDATE and DELETE goes over the rows in the order of their
    numbers, while it changes the table below its cursor: every row is looked at
    once.  The specification is a relation on the rows before and after. *)

Local Open Scope Z_scope.

Section Spec.
Context {T : Type} {ST : ScanTable T} {SL : ScanTableLaws T} {X : Externals}.
Notation data_set := (TableDataSet T).

(** WHERE on a row. *)
Definition row_fits_spec (shape : data_set) (where_ : option Expression) (r : stored_row) : outcome RequestError bool :=
  match where_ with
  | None => Ok true
  | Some e => where_error (v <- expression_result (evaluate (rows_context [shape] [r]) e) ;; getBool v)
  end.

(** [scanned fits change fails rows rows' n o]: the rows [rows] are looked at one
    after the other.  A row that fits becomes the rows [change] allows and counts; the
    first row where WHERE or the change fails ends the scan, which leaves it and
    the rows after it. *)
Inductive scanned (fits : stored_row -> outcome RequestError bool) (change : stored_row -> list stored_row -> Prop) (fails : stored_row -> outcome RequestError unit -> Prop)
    : list stored_row -> list stored_row -> nat -> outcome RequestError unit -> Prop :=
| scanned_end : scanned fits change fails [] [] 0 (Ok tt)
| scanned_skip r rs rs' n o : fits r = Ok false -> scanned fits change fails rs rs' n o -> scanned fits change fails (r :: rs) (r :: rs') n o
| scanned_change r new rs rs' n o : fits r = Ok true -> change r new -> scanned fits change fails rs rs' n o -> scanned fits change fails (r :: rs) (new ++ rs') (S n) o
| scanned_where r rs o : fits r = o -> (forall b, o <> Ok b) -> scanned fits change fails (r :: rs) (r :: rs) 0 (_ <- o ;; Ok tt)
| scanned_fails r rs o : fits r = Ok true -> fails r o -> scanned fits change fails (r :: rs) (r :: rs) 0 o.

Lemma evaluate_row shape d rows r e : ds_ok d rows -> r ∈ rows -> on_row d r -> same_shape shape d ->
  evaluate (DBExpressionEvaluationContext [d]) e = evaluate (rows_context [shape] [r]) e.
Proof. intros Hd Hr Hon Hsh. apply evaluate_ext, (context_values [shape] [d] [rows]); [constructor; [done|constructor]|]. split; [|split]; (constructor; [done|constructor]). Qed.

Lemma fits_where_row shape d rows r w : ds_ok d rows -> r ∈ rows -> on_row d r -> same_shape shape d -> fits_where w d = row_fits_spec shape w r.
Proof. intros Hd Hr Hon Hsh. destruct w as [e|]; [|done]. cbn. by rewrite (evaluate_row shape d rows r e). Qed.

Lemma rows_after_middle before new after k :
  Forall (fun x => sr_trid x = k) new -> Forall (fun x => sr_trid x < k) before -> Forall (fun x => k < sr_trid x) after -> rows_after k (before ++ new ++ after) = after.
Proof.
  intros Hn Hb Ha. unfold rows_after. rewrite !filter_app. rewrite (filter_keep _ after) by (intros x Hx; by rewrite Forall_forall in Ha; apply Ha).
  assert (Hnone : forall l : list stored_row, Forall (fun x => sr_trid x <= k) l -> filter (fun x => k < sr_trid x) l = []).
  { induction 1 as [|x l Hx Hl IH]; [done|]. rewrite filter_cons, decide_False by lia. done. }
  rewrite !Hnone; [done| |]; (eapply Forall_impl; [eassumption|]); cbn; intros; lia.
Qed.

Lemma sorted_middle before (r : stored_row) after : StronglySorted Z.lt (sr_trid <$> before ++ r :: after) ->
  Forall (fun x => sr_trid x < sr_trid r) before /\ Forall (fun x => sr_trid r < sr_trid x) after.
Proof.
  induction before as [|x before IH]; cbn [app fmap list_fmap]; intros [Hs Hf]%StronglySorted_inv.
  - split; [constructor|]. by rewrite Forall_fmap in Hf.
  - destruct (IH Hs) as [H1 H2]. split; [|done]. constructor; [|done]. rewrite Forall_fmap, Forall_app in Hf. destruct Hf as [_ Hf]. by inversion Hf.
Qed.

Lemma next_row shape d before new after k : ds_ok d (before ++ new ++ after) -> Forall (fun x => sr_trid x = k) new -> Forall (fun x => sr_trid x < k) before -> Forall (fun x => k < sr_trid x) after ->
  m_currentKey d = Some k -> st_key k -> sized d -> same_shape shape d ->
  exists d1 b, run moveToNextRow d = (Ok b, d1) /\ ds_ok d1 (before ++ new ++ after) /\ same_shape shape d1 /\
    match after with [] => m_hasCurrentRow d1 = false | r :: _ => on_row d1 r end.
Proof.
  intros Hd Hn Hb Ha Hk Hkey Hs Hsh. destruct (moveToNextRow_any d _ k Hd Hs Hk Hkey) as (d1 & Hsh1 & Hd1 & Hm). exists d1.
  rewrite (rows_after_middle before new after k Hn Hb Ha) in Hm. pose proof (same_shape_trans _ _ _ Hsh Hsh1) as Hsh2.
  destruct after as [|r after]; destruct Hm as [Hm Hc]; [exists false|exists true]; rewrite (run_ok _ _ _ _ Hm); done.
Qed.

Lemma evaluate_values_row shape d rows r es : ds_ok d rows -> r ∈ rows -> on_row d r -> same_shape shape d ->
  evaluate_values (DBExpressionEvaluationContext [d]) es = evaluate_values (rows_context [shape] [r]) es.
Proof. intros Hd Hr Hon Hsh. induction es as [|e es IH]; [done|]. cbn. by rewrite (evaluate_row shape d rows r e), IH. Qed.
End Spec.

(** ** The loop *)

Section Changes.
Context {T : Type} {ST : ScanTable T} {X : Externals} {SC : ScanTableChangeLaws T}.
Notation data_set := (TableDataSet T).

(** A data set of a table that can still be changed [m] times. *)
Definition ds_left (m : nat) (d : data_set) (rows : list stored_row) : Prop := ds_ok (SL := sc_reads m) d rows.

Lemma ds_left_le m m' d rows : (m' <= m)%nat -> ds_left m d rows -> ds_left m' d rows.
Proof. induction 1 as [|m Hle IH]; [done|]. intros [Hi Hst]. apply IH. split; [done|]. by apply sc_less. Qed.

Section Scan.
Context (shape : data_set) (where_ : option Expression) (change : nat -> data_set -> outcome RequestError unit * data_set) (good : stored_row -> Prop).
Context (changes : stored_row -> list stored_row -> Prop) (fails : stored_row -> outcome RequestError unit -> Prop).

(** What the change of a row does: new rows of the same number instead of it, an
    exception and no change, or undefined behaviour. *)
Definition change_law : Prop := forall m n d before r after, ds_left (S m) d (before ++ r :: after) -> on_row d r -> same_shape shape d -> good r ->
  (exists d' new, change n d = (Ok tt, d') /\ changes r new /\ ds_left m d' (before ++ new ++ after) /\ Forall (fun x => sr_trid x = sr_trid r) new /\
     m_currentKey d' = Some (sr_trid r) /\ sized d' /\ same_shape shape d') \/
  (exists e d', change n d = (Throw e, d') /\ fails r (Throw e) /\ ds_left m d' (before ++ r :: after) /\ same_shape shape d') \/
  (exists u, fst (change n d) = Undef u /\ fails r (Undef u)).
Context (Hchange : change_law).

(** What is left when the loop ends in a defined way. *)
Definition leaves (m : nat) (o : outcome RequestError unit) (d : data_set) (rows : list stored_row) : Prop :=
  (forall u, o <> Undef u) -> ds_left m d rows /\ same_shape shape d.

Lemma change_rows_ok fuel : forall count m d before after, ds_left (length after + m) d (before ++ after) -> same_shape shape d -> Forall good after ->
  match after with [] => m_hasCurrentRow d = false | r :: _ => on_row d r end -> (length after <= fuel)%nat ->
  exists o n d' after', change_rows fuel where_ change count d = (o, (count + n)%nat, d') /\ leaves m o d' (before ++ after') /\
    scanned (row_fits_spec shape where_) changes fails after after' n o.
Proof.
  induction fuel as [|fuel IH]; intros count m d before [|r after] Hd Hsh Hgood Hcur Hf; cbn [length] in Hf; try lia; cbn [change_rows].
  - rewrite Hcur. cbn. exists (Ok tt), 0%nat, d, []. rewrite Nat.add_0_r. split; [done|]. split; [done|constructor].
  - rewrite Hcur. cbn. exists (Ok tt), 0%nat, d, []. rewrite Nat.add_0_r. split; [done|]. split; [done|constructor].
  - apply Forall_cons in Hgood as [Hg Hgood]. rewrite (on_has _ _ Hcur). cbn [negb]. assert (Hr : r ∈ before ++ r :: after) by set_solver. rewrite (fits_where_row shape d _ r where_ Hd Hr Hcur Hsh).
    cbn [length Nat.add] in Hd. pose proof (st_sorted _ _ _ (proj2 Hd)) as Hsort. destruct (sorted_middle _ _ _ Hsort) as [Hbefore Hafter].
    pose proof (st_keys _ _ _ (proj2 Hd)) as Hkeys. rewrite Forall_forall in Hkeys. specialize (Hkeys r Hr). apply sc_same_keys in Hkeys.
    assert (Hnext : forall n d1 new, ds_left (length after + m) d1 (before ++ new ++ after) -> Forall (fun x => sr_trid x = sr_trid r) new -> m_currentKey d1 = Some (sr_trid r) -> sized d1 -> same_shape shape d1 ->
      exists o k d' after', match run moveToNextRow d1 with
        | (Ok _, d2) => change_rows fuel where_ change n d2
        | (Throw e, d2) => (Throw e, n, d2)
        | (Undef u, d2) => (Undef u, n, d2)
        end = (o, (n + k)%nat, d') /\ leaves m o d' (before ++ new ++ after') /\ scanned (row_fits_spec shape where_) changes fails after after' k o).
    { intros n d1 new H1 Hnew Hk Hs Hsh1. destruct (next_row shape d1 before new after _ H1 Hnew Hbefore Hafter Hk Hkeys Hs Hsh1) as (d2 & b & -> & H2 & Hsh2 & Hcur2).
      rewrite app_assoc in H2. destruct (IH n m d2 (before ++ new) after H2 Hsh2 Hgood Hcur2 ltac:(lia)) as (o & k & d' & after' & E & Hd' & Hsc).
      exists o, k, d', after'. rewrite app_assoc. done. }
    destruct (row_fits_spec shape where_ r) as [[|]|e|u] eqn:Hfit.
    + destruct (Hchange _ count d before r after Hd Hcur Hsh Hg) as [(d1 & new & -> & Hch & H1 & Hnew & Hk & Hs & Hsh1)|[(e & d1 & -> & Hfl & H1 & Hsh1)|(u & Hu & Hfl)]].
      * destruct (Hnext (S count) d1 new H1 Hnew Hk Hs Hsh1) as (o & k & d' & after' & -> & Hd' & Hsc). exists o, (S k), d', (new ++ after').
        split; [by rewrite Nat.add_succ_comm|]. split; [done|]. by apply scanned_change.
      * exists (Throw e), 0%nat, d1, (r :: after). rewrite Nat.add_0_r. split; [done|]. split; [intros _; split; [|done]; eapply ds_left_le; [|exact H1]; lia|]. by apply scanned_fails.
      * destruct (change count d) as [o d1]. cbn in Hu. subst o. exists (Undef u), 0%nat, d1, (r :: after). rewrite Nat.add_0_r. split; [done|]. split; [intros Hn; by destruct (Hn u)|]. by apply scanned_fails.
    + destruct (Hnext count d [r]) as (o & k & d' & after' & -> & Hd' & Hsc); [eapply ds_left_le; [|exact Hd]; lia|by repeat constructor|apply Hcur|exact (cached_sized _ _ (on_cached _ _ Hcur))|done|].
      exists o, k, d', (r :: after'). split; [done|]. split; [done|]. by apply scanned_skip.
    + exists (Throw e), 0%nat, d, (r :: after). rewrite Nat.add_0_r. split; [done|]. split; [intros _; split; [|done]; eapply ds_left_le; [|exact Hd]; lia|]. by apply (scanned_where _ _ _ r after (Throw e)).
    + exists (Undef u), 0%nat, d, (r :: after). rewrite Nat.add_0_r. split; [done|]. split; [intros Hn; by destruct (Hn u)|]. by apply (scanned_where _ _ _ r after (Undef u)).
Qed.

Lemma change_table_ok fuel m d rows : ds_left (length rows + m) d rows -> same_shape shape d -> Forall good rows -> (length rows <= fuel)%nat ->
  exists o n d' rows', change_table fuel where_ change d = (o, n, d') /\ leaves m o d' rows' /\ scanned (row_fits_spec shape where_) changes fails rows rows' n o.
Proof.
  intros Hd Hsh Hg Hf. unfold change_table. destruct (resetCursor_ok d rows Hd) as (d1 & E & [Hd1 Hcur] & Hsh1). rewrite (run_ok _ _ _ _ E).
  pose proof (same_shape_trans _ _ _ Hsh Hsh1). destruct (change_rows_ok fuel 0 m d1 [] rows Hd1) as (o & n & d' & rows' & -> & Hd' & Hsc); [done|done|by destruct rows|done|]. by exists o, n, d', rows'.
Qed.
End Scan.

(** ** The changes *)

Lemma delete_row_ok shape tps : (forall n, tp_ok (tps n)) -> change_law shape (delete_row tps) (fun _ => True) (fun _ new => new = []) (fun _ _ => False).
Proof.
  intros Htp m n d before r after [Hi Hst] Hon Hsh _. left. unfold delete_row, deleteCurrentRow.
  destruct (sc_delete_law _ _ _ _ r (tps n) Hst ltac:(set_solver) (Htp n)) as (t' & E & Ht'). rewrite <- (on_mcr _ _ Hon), <- (on_address _ _ Hon) in E.
  exists (set_table t' d), []. split; [apply run_ok; rewrite mbind_gets; exact (on_table_ok _ d _ _ E)|]. split; [done|]. split; [split; [done|]|].
  - cbn [app]. assert (before ++ after = remove_row (sr_trid r) (before ++ r :: after)) as ->; [|done]. destruct (sorted_middle before r after (st_sorted _ _ _ Hst)) as [Hb Ha].
    rewrite Forall_forall in Hb, Ha. unfold remove_row. rewrite filter_app, filter_cons, decide_False by (by intros H). f_equal; symmetry; apply filter_keep.
    + intros x Hx. specialize (Hb x Hx). lia.
    + intros x Hx. specialize (Ha x Hx). lia.
  - split; [constructor|]. split; [by rewrite <- (on_key _ _ Hon)|]. split; [|done]. exact (cached_sized _ _ (on_cached _ _ Hon)).
Qed.

Definition row_updated (shape : data_set) (values : list Expression) (positions : list nat) (r : stored_row) (new : list stored_row) : Prop :=
  exists vs r', evaluate_values (rows_context [shape] [r]) values = Ok vs /\ updated_row (ds_table shape) positions vs r r' /\ new = [r'].
(** A value cannot be evaluated, or a column refuses its new value; the behaviour
    can be undefined in the second case too. *)
Definition update_fails (shape : data_set) (values : list Expression) (positions : list nat) (r : stored_row) (o : outcome RequestError unit) : Prop :=
  match evaluate_values (rows_context [shape] [r]) values with
  | Ok vs => some_refused (ds_table shape) positions vs /\ ((exists e, o = Throw (DataSetFailed (TableFailed e))) \/ exists u, o = Undef u)
  | Throw e => o = Throw e
  | Undef u => o = Undef u
  end.
(** The values of SET on a row are such as columns can be given. *)
Definition values_fit (shape : data_set) (values : list Expression) (positions : list nat) (r : stored_row) : Prop :=
  forall vs, evaluate_values (rows_context [shape] [r]) values = Ok vs -> at_columns (ds_table shape) fits_column positions vs.

Lemma evaluate_values_length c es vs : evaluate_values c es = Ok vs -> length vs = length es.
Proof. revert vs. induction es as [|e es IH]; intros vs; cbn; [by intros [= <-]|]. intros (v & _ & (ws & Hw & [= <-])%bind_Ok)%bind_Ok. cbn. by rewrite (IH ws Hw). Qed.

Lemma replace_other (r : stored_row) (l : list stored_row) : (forall x, x ∈ l -> sr_trid x <> sr_trid r) -> replace_row r l = l.
Proof.
  unfold replace_row. induction l as [|x l IH]; intros Hl; [done|]. rewrite fmap_cons, (proj2 (Z.eqb_neq _ _)) by (apply Hl; set_solver). f_equal. apply IH. set_solver.
Qed.

Lemma replace_middle before (r r' : stored_row) after : sr_trid r' = sr_trid r -> StronglySorted Z.lt (sr_trid <$> before ++ r :: after) -> replace_row r' (before ++ r :: after) = before ++ [r'] ++ after.
Proof.
  intros Hid [Hb Ha]%sorted_middle. rewrite Forall_forall in Hb, Ha. unfold replace_row. rewrite fmap_app, fmap_cons, Hid, Z.eqb_refl. rewrite <- Hid.
  fold (replace_row r' before) (replace_row r' after). rewrite !replace_other; [done| |]; intros x Hx; [specialize (Ha x Hx)|specialize (Hb x Hx)]; lia.
Qed.

Lemma update_row_ok shape values positions tps : (forall n, tp_ok (tps n)) -> length positions = length values -> NoDup positions ->
  Forall (fun p => (1 <= p < length (tbl_columns (ds_table shape)))%nat) positions ->
  change_law shape (update_row values positions tps) (values_fit shape values positions) (row_updated shape values positions) (update_fails shape values positions).
Proof.
  intros Htp Hlen Hnd Hpos m n d before r after [Hi Hst] Hon Hsh Hfit. assert (Hr : r ∈ before ++ r :: after) by set_solver.
  unfold update_row. rewrite (evaluate_values_row shape d _ r values (conj Hi Hst) Hr Hon Hsh). unfold row_updated, update_fails, values_fit in *.
  destruct (evaluate_values (rows_context [shape] [r]) values) as [vs|e|u] eqn:Hev; cbn [bind].
  2:{ right. left. exists e, d. split; [done|]. split; [done|]. split; [|done]. eapply ds_left_le; [|by split]. lia. }
  2:{ right. right. by exists u. }
  destruct Hsh as (Ha & Htab & Hinfos). rewrite <- Htab in Hpos, Hfit |- *. unfold updateCurrentRow.
  pose proof (sc_update_law _ _ _ _ r positions vs (tps n) Hst Hr (Htp n)) as Hlaw. rewrite <- (on_mcr _ _ Hon), <- (on_address _ _ Hon) in Hlaw.
  specialize (Hlaw ltac:(by rewrite (evaluate_values_length _ _ _ Hev)) Hnd Hpos (Hfit vs eq_refl)). destruct (st_updateRow _ _ _ _ _ _) as [[[]|e|u] t'] eqn:E.
  - destruct Hlaw as (r' & Hup & Ht'). left. exists (set_table t' d), [r']. split; [apply run_ok; rewrite mbind_gets; exact (on_table_ok _ d _ _ E)|]. split; [by exists vs, r'|]. split; [split; [done|]|].
    + assert (before ++ [r'] ++ after = replace_row r' (before ++ r :: after)) as ->; [|done].
      symmetry. apply replace_middle; [apply Hup|apply (st_sorted _ _ _ Hst)].
    + destruct Hup as [Hid _]. split; [by repeat constructor|]. split; [by rewrite <- (on_key _ _ Hon)|]. split; [|done]. exact (cached_sized _ _ (on_cached _ _ Hon)).
  - destruct Hlaw as [Href Ht']. right. left. eexists _, (set_table t' d). split; [unfold run; rewrite mbind_gets, (on_table_throw _ d _ _ E); reflexivity|]. split; [split; [done|left; by exists e]|]. by repeat split.
  - right. right. exists u. split; [|split; [done|right; by exists u]]. unfold run. rewrite mbind_gets. unfold on_table, embed. by rewrite E.
Qed.
End Changes.

(** ** UPDATE, DELETE and INSERT are correct

    A request changes the rows of its table that fulfil its condition, or adds its
    rows, and nothing else: no other row and no other table.  A request that fails
    keeps what it did before the row that failed. *)

Local Open Scope Z_scope.

(** ** The table of a request *)

Lemma find_store_same {A} (p : A -> bool) (f : A -> A) l x : (forall y, p y = true -> p (f y) = true) -> List.find p l = Some x -> List.find p (store_in p f l) = Some (f x).
Proof. intros Hf. induction l as [|y l IH]; cbn; [done|]. destruct (p y) eqn:Hy; cbn; [intros [= ->]; by rewrite Hf|]. by rewrite Hy. Qed.

Lemma find_store_other {A} (p q : A -> bool) (f : A -> A) l : (forall y, p y = true -> q y = false /\ q (f y) = false) -> List.find q (store_in p f l) = List.find q l.
Proof. intros Hf. induction l as [|y l IH]; cbn; [done|]. destruct (p y) eqn:Hy; cbn; [by destruct (Hf y Hy) as [-> ->]|]. by rewrite IH. Qed.

Lemma find_store_none {A} (p : A -> bool) (f : A -> A) l : List.find p l = None -> store_in p f l = l.
Proof. induction l as [|y l IH]; cbn; [done|]. destruct (p y); [done|]. intros H. by rewrite IH. Qed.

Section Tables.
Context {T : Type} {ST : ScanTable T}.

Definition table_of (h : request_handler T) (databaseName tableName : list Z) : outcome RequestError (table_info * T) :=
  d <- findDatabaseChecked h databaseName ;; findTableChecked d tableName.

Lemma store_table_same db tbl h info t0 (t : T) : table_of h db tbl = Ok (info, t0) -> table_of (store_table db tbl t h) db tbl = Ok (info, t).
Proof.
  unfold table_of. intros (d & Hd & Ht)%bind_Ok. unfold findDatabaseChecked in *. destruct (List.find _ (h_databases h)) as [d0|] eqn:Hfind; [|done]. injection Hd as ->.
  cbn [h_databases store_table]. rewrite (find_store_same _ _ _ d) by done. cbn [bind]. unfold findTableChecked in *. destruct (List.find _ (db_tables d)) as [x|] eqn:Hx; [|done].
  injection Ht as ->. cbn [db_tables]. by rewrite (find_store_same _ _ _ (info, t0)).
Qed.

Lemma store_table_other db tbl db' tbl' h (t : T) : (db', tbl') <> (db, tbl) -> table_of (store_table db tbl t h) db' tbl' = table_of h db' tbl'.
Proof.
  intros Hne. unfold table_of, findDatabaseChecked. cbn [h_databases store_table]. destruct (decide (db' = db)) as [->|Hdb].
  - destruct (List.find _ (h_databases h)) as [d|] eqn:Hfind; [|by rewrite find_store_none, Hfind]. rewrite (find_store_same _ _ _ d) by done. cbn [bind]. unfold findTableChecked. cbn [db_tables db_name].
    rewrite find_store_other; [done|]. intros x Hx%bool_decide_eq_true. cbn. assert (tbl <> tbl') by congruence. rewrite !bool_decide_eq_false_2 by congruence. done.
  - rewrite find_store_other; [done|]. intros x Hx%bool_decide_eq_true. cbn. by rewrite !bool_decide_eq_false_2 by congruence.
Qed.

(** What a request leaves: the rows of its table, and the other tables. *)
Definition left_with {SL : ScanTableLaws T} (h h' : request_handler T) (db tbl : list Z) (info : table_info) (rows : list stored_row) : Prop :=
  (exists t, table_of h' db tbl = Ok (info, t) /\ st_ok info t rows) /\ forall db' tbl', (db', tbl') <> (db, tbl) -> table_of h' db' tbl' = table_of h db' tbl'.

Lemma store_left {SL : ScanTableLaws T} db tbl h info t0 (t : T) rows : table_of h db tbl = Ok (info, t0) -> st_ok info t rows -> left_with h (store_table db tbl t h) db tbl info rows.
Proof. intros Ht Hst. split; [exists t; split; [by eapply store_table_same|done]|]. intros db' tbl' Hne. by apply store_table_other. Qed.

Lemma open_table_ok h db tbl e p d info (t : T) : open_table h db tbl e p = Ok (d, info, t) -> table_of h db tbl = Ok (info, t).
Proof.
  unfold open_table, table_of. intros (d0 & -> & H)%bind_Ok. cbn [bind]. destruct (negb _); [done|]. destruct (isSystemTable tbl); [done|].
  apply bind_Ok in H as ([i0 t0] & -> & ([] & _ & [= _ -> ->])%bind_Ok). done.
Qed.
End Tables.

(** ** DELETE *)

Section Correct.
Context {T : Type} {ST : ScanTable T} {SL : ScanTableLaws T} {X : Externals}.
Notation data_set := (TableDataSet T).

(** The table of a request: its columns have different names, and it holds rows. *)
Definition request_table (h : request_handler T) (db tbl : list Z) (info : table_info) (rows : list stored_row) : Prop :=
  exists t, table_of h db tbl = Ok (info, t) /\ NoDup (col_name <$> tbl_columns info) /\ st_ok info t rows.

Lemma new_data_set_ok info (t : T) alias rows : NoDup (col_name <$> tbl_columns info) -> st_ok info t rows -> ds_ok (new_data_set info t alias) rows /\ names_ok (new_data_set info t alias).
Proof. intros Hn Hst. split; split; [constructor|done|done|constructor]. Qed.

(** WHERE of a request on its data set. *)
Lemma where_columns_ok w (d : data_set) rows errors0 w' l errors : ds_ok d rows -> names_ok d ->
  match w with
  | None => Ok (None, [d], errors0)
  | Some e => '(e1, l, errs) <- updateColumnsFromExpression e [d] errors0 ;; Ok (Some e1, l, errs)
  end = Ok (w', l, errors) ->
  exists d' errs, l = [d'] /\ errors = errors0 ++ errs /\ grows d d' /\ ds_ok d' rows /\ names_ok d' /\ (errors = [] -> option_Forall2 (resolves_to [d']) w w').
Proof.
  intros Hd Hn. destruct w as [e|].
  - destruct (updateColumns_ok e [d] errors0) as (e' & l' & errs & -> & Hg & Hn' & Hres & Hf); [by constructor|done|]. cbn [bind]. intros [= <- <- <-].
    inversion Hg as [|? d' ? ? Hg1 Hnil]; subst. inversion Hnil; subst. exists d', errs. split; [done|]. split; [done|]. split; [done|]. apply Forall_cons in Hn' as [Hn' _].
    split; [|split; [done|]; intros He; constructor; split; [done|by apply Hres]]. destruct Hd as [_ Hst]. destruct Hg1 as (_ & Ht & Hm & _). split; [by apply names_infos|]. by rewrite Ht, Hm.
  - intros [= <- <- <-]. exists d, []. rewrite app_nil_r. split; [done|]. split; [done|]. split; [apply grows_refl|]. split; [done|]. split; [done|]. intros _. constructor.
Qed.

Lemma prepare_delete_ok h r info rows w d : request_table h (request_database h (dr_database r)) (st_name (dr_table r)) info rows -> prepare_delete h r = Ok (w, d) ->
  ds_ok d rows /\ ds_table d = info /\ option_Forall2 (resolves_to [d]) (dr_where r) w.
Proof.
  intros (t & Ht & Hnames & Hst) H. unfold prepare_delete in H. destruct (negb _); [done|]. apply bind_Ok in H as ([[d0 info0] t0] & Hopen & H).
  apply open_table_ok in Hopen. rewrite Ht in Hopen. injection Hopen as <- <-. apply bind_Ok in H as ([[w' l] errors] & Hw & H).
  destruct (new_data_set_ok info t (st_alias (dr_table r)) rows Hnames Hst) as [Hd Hn]. destruct (where_columns_ok _ _ rows _ _ _ _ Hd Hn Hw) as (d' & errs & -> & -> & Hg & Hd' & _ & Hres).
  cbn [app] in *. destruct errs; [|done]. apply bind_Ok in H as ([] & _ & [= <- <-]). split; [done|]. split; [by destruct Hg as (_ & -> & _)|by apply Hres].
Qed.

(** The rows that DELETE leaves when WHERE can be evaluated on all of them. *)
Definition row_selected (d : data_set) (w : option Expression) (r : stored_row) : bool := match row_fits_spec d w r with Ok b => b | _ => false end.

Lemma scanned_delete (d : data_set) w rows rows' n o : (forall r, r ∈ rows -> exists b, row_fits_spec d w r = Ok b) ->
  scanned (row_fits_spec d w) (fun _ new => new = []) (fun _ _ => False) rows rows' n o ->
  o = Ok tt /\ rows' = List.filter (fun r => negb (row_selected d w r)) rows /\ n = length (List.filter (row_selected d w) rows).
Proof.
  intros Hall H. induction H as [|r rs rs' n o Hf H IH|r new rs rs' n o Hf -> H IH|r rs o Hf Ho|r rs o Hf []]; [done| | |].
  - destruct IH as (-> & -> & ->); [set_solver|]. cbn [List.filter]. assert (row_selected d w r = false) as -> by (unfold row_selected; by rewrite Hf). done.
  - destruct IH as (-> & -> & ->); [set_solver|]. cbn [List.filter]. assert (row_selected d w r = true) as -> by (unfold row_selected; by rewrite Hf). done.
  - destruct (Hall r) as [b Hb]; [set_solver|]. rewrite Hf in Hb. by destruct (Ho b).
Qed.

(** ** UPDATE *)

(** The positions of the columns of SET. *)
Lemma set_columns_ok db r present columns : forall (d : data_set) rows positions d' errors, ds_ok d rows -> names_ok d ->
  set_columns db r present columns d = Ok (positions, d', errors) ->
  grows d d' /\ ds_ok d' rows /\ names_ok d' /\
  (errors = [] -> Forall2 (fun c p => findColumnPosition (ds_table d) (cr_column c) = Some p /\ cr_column c <> kMasterColumnName) columns positions).
Proof.
  induction columns as [|c columns IH]; intros d rows positions d' errors Hd Hn; cbn [set_columns].
  { intros [= <- <- <-]. split; [apply grows_refl|]. split; [done|]. split; [done|]. intros _. constructor. }
  assert (Hskip : forall e, ('(positions, d2, errors) <- set_columns db r present columns d ;; Ok (positions, d2, e :: errors)) = Ok (positions, d', errors) ->
    grows d d' /\ ds_ok d' rows /\ names_ok d' /\ (errors = [] -> Forall2 (fun c p => findColumnPosition (ds_table d) (cr_column c) = Some p /\ cr_column c <> kMasterColumnName) (c :: columns) positions)).
  { intros e ([[ps d2] es] & E & [= <- <- <-])%bind_Ok. destruct (IH d rows ps d2 es Hd Hn E) as (A & B & C & _). by split. }
  case_bool_decide as Hm; [by apply Hskip|]. destruct (_ && _); [by apply Hskip|]. destruct (findColumnPosition (ds_table d) (cr_column c)) as [p|] eqn:Hp; [|by apply Hskip]. clear Hskip.
  set (d1 := emplaceColumnInfo _ d). assert (Hg1 : grows d d1) by (repeat split; by eexists).
  assert (Hn1 : names_ok d1). { destruct Hn as [Hn1 Hn2]. split; [done|]. apply Forall_app. split; [done|]. by repeat constructor. }
  assert (Hd1 : ds_ok d1 rows) by (split; [by apply names_infos|apply Hd]). destruct (present !! p) as [[|]|]; [| |done].
  - intros ([[ps d2] es] & E & [= <- <- <-])%bind_Ok. destruct (IH d1 rows ps d2 es Hd1 Hn1 E) as (A & B & C & _). split; [by eapply grows_trans|done].
  - intros ([[ps d2] es] & E & [= <- <- <-])%bind_Ok. destruct (IH d1 rows ps d2 es Hd1 Hn1 E) as (A & B & C & D). split; [by eapply grows_trans|]. split; [done|]. split; [done|].
    intros He. constructor; [done|by apply D].
Qed.

Lemma values_columns_ok values : forall (d : data_set) rows errors0 values' l errors, ds_ok d rows -> names_ok d ->
  update_values_columns values [d] errors0 = Ok (values', l, errors) ->
  exists d' errs, l = [d'] /\ errors = errors0 ++ errs /\ grows d d' /\ ds_ok d' rows /\ names_ok d' /\ length values' = length values /\ (errors = [] -> Forall2 (resolves_to [d']) values values').
Proof.
  induction values as [|e values IH]; intros d rows errors0 values' l errors Hd Hn; cbn [update_values_columns].
  - intros [= <- <- <-]. exists d, []. rewrite app_nil_r. split; [done|]. split; [done|]. split; [apply grows_refl|]. split; [done|]. split; [done|]. split; [done|]. constructor.
  - destruct (where_columns_ok (Some e) d rows errors0) with (w' := match updateColumnsFromExpression e [d] errors0 with Ok (e1, _, _) => Some e1 | _ => None end)
      (l := match updateColumnsFromExpression e [d] errors0 with Ok (_, l1, _) => l1 | _ => [] end) (errors := match updateColumnsFromExpression e [d] errors0 with Ok (_, _, x) => x | _ => [] end)
      as (d1 & errs1 & Hl1 & He1 & Hg1 & Hd1 & Hn1 & Hr1); [done|done| |].
    { destruct (updateColumns_ok e [d] errors0) as (? & ? & ? & -> & _); [by constructor|done|]. done. }
    intros ([[e1 l1] x] & E & ([[es l2] y] & E2 & [= <- <- <-])%bind_Ok)%bind_Ok. rewrite E in *. subst l1 x.
    destruct (IH d1 rows _ es l2 y Hd1 Hn1 E2) as (d2 & errs2 & -> & -> & Hg2 & Hd2 & Hn2 & Hlen & Hr2). exists d2, (errs1 ++ errs2). rewrite <- app_assoc.
    split; [done|]. split; [done|]. split; [by eapply grows_trans|]. split; [done|]. split; [done|]. split; [cbn; by rewrite Hlen|]. intros Hnil. constructor; [|apply Hr2; by rewrite <- app_assoc].
    rewrite app_assoc in Hnil. apply app_nil in Hnil as [Hnil _]. specialize (Hr1 Hnil). inversion Hr1 as [? ? [Hf1 Hres1]|]; subst. split; [done|]. apply (resolved_grows [d1]); [|done]. constructor; [done|constructor].
Qed.

(** What is prepared for an UPDATE. *)
Record update_ready (r : UpdateRequest) (info : table_info) (rows : list stored_row) (w : option Expression) (values : list Expression) (positions : list nat) (d : data_set) : Prop := {
  ud_ok : ds_ok d rows;
  ud_table : ds_table d = info;
  ud_where : option_Forall2 (resolves_to [d]) (ur_where r) w;
  ud_values : Forall2 (resolves_to [d]) (ur_values r) values;
  ud_positions : Forall2 (fun c p => findColumnPosition info (cr_column c) = Some p /\ cr_column c <> kMasterColumnName) (ur_columns r) positions
}.

Lemma prepare_update_ok h r info rows w values positions d : request_table h (request_database h (ur_database r)) (st_name (ur_table r)) info rows ->
  prepare_update h r = Ok (w, values, positions, d) -> update_ready r info rows w values positions d.
Proof.
  intros (t & Ht & Hnames & Hst) H. unfold prepare_update in H. destruct (negb _); [done|]. destruct (negb _); [done|]. destruct (ur_columns r) as [|c0 cs] eqn:Hcs; [done|]. destruct (ur_values r) as [|v0 vs] eqn:Hvs; [done|].
  apply bind_Ok in H as ([[d0 info0] t0] & Hopen & H). apply open_table_ok in Hopen. rewrite Ht in Hopen. injection Hopen as <- <-.
  apply bind_Ok in H as ([[ps d1] errs1] & Hset & H). destruct (new_data_set_ok info t (st_alias (ur_table r)) rows Hnames Hst) as [Hd Hn].
  destruct (set_columns_ok _ _ _ _ _ rows _ _ _ Hd Hn Hset) as (Hg1 & Hd1 & Hn1 & Hps). apply bind_Ok in H as ([[w' l] errs2] & Hw & H).
  destruct (where_columns_ok _ _ rows _ _ _ _ Hd1 Hn1 Hw) as (d2 & e2 & -> & -> & Hg2 & Hd2 & Hn2 & Hres2). apply bind_Ok in H as ([[values' l] errs3] & Hv & H).
  destruct (values_columns_ok _ _ rows _ _ _ _ Hd2 Hn2 Hv) as (d3 & e3 & -> & -> & Hg3 & Hd3 & _ & Hlen & Hres3). destruct ((errs1 ++ e2) ++ e3) eqn:Herr; [|done].
  apply bind_Ok in H as ([] & _ & ([] & _ & [= <- <- <- <-])%bind_Ok). apply app_nil in Herr as [Herr _]. pose proof Herr as [-> _]%app_nil. split.
  - done.
  - destruct Hg1 as (_ & H1 & _), Hg2 as (_ & H2 & _), Hg3 as (_ & H3 & _). by rewrite H3, H2, H1.
  - specialize (Hres2 Herr). inversion Hres2 as [x y [Hf Hr] Hx Hy|Hx Hy]; constructor. split; [done|]. apply (resolved_grows [d2]); [|done]. constructor; [done|constructor].
  - rewrite Hvs. by apply Hres3.
  - rewrite Hcs. by apply Hps.
Qed.

Lemma position_name info name name' p : findColumnPosition info name = Some p -> findColumnPosition info name' = Some p -> name = name'.
Proof. intros (c & Hc & <- & _)%find_position_some (c' & Hc' & <- & _)%find_position_some. rewrite Hc in Hc'. by injection Hc' as ->. Qed.

Lemma positions_distinct info (columns : list ColumnReference) positions : NoDup (cr_column <$> columns) ->
  Forall2 (fun c p => findColumnPosition info (cr_column c) = Some p /\ cr_column c <> kMasterColumnName) columns positions -> NoDup positions.
Proof.
  intros Hnd H. induction H as [|c p columns positions [Hp _] H IH]; [constructor|]. cbn in Hnd. apply NoDup_cons in Hnd as [Hni Hnd]. constructor; [|by apply IH].
  intros (i & Hi)%list_elem_of_lookup. destruct (Forall2_lookup_r _ _ _ _ _ H Hi) as (c' & Hc' & Hp' & _). apply Hni. rewrite (position_name info _ _ p Hp Hp').
  apply list_elem_of_fmap_2. by eapply list_elem_of_lookup_2.
Qed.

Lemma positions_in_range info (columns : list ColumnReference) positions : col_name <$> head (tbl_columns info) = Some kMasterColumnName ->
  Forall2 (fun c p => findColumnPosition info (cr_column c) = Some p /\ cr_column c <> kMasterColumnName) columns positions -> Forall (fun p => (1 <= p < length (tbl_columns info))%nat) positions.
Proof.
  intros Hhead H. induction H as [|c p columns positions [Hp Hne] H IH]; constructor; [|done]. pose proof (find_position_lt _ _ _ _ Hp) as Hlt. cbn in Hlt. split; [|done].
  destruct p; [|lia]. destruct Hne. apply find_position_some in Hp as (c' & Hc' & <- & _). destruct (tbl_columns info) as [|c1 cs]; [done|]. injection Hc' as ->. by injection Hhead.
Qed.

End Correct.

(** ** DELETE and UPDATE *)

Section Change.
Context {T : Type} {ST : ScanTable T} {X : Externals} {SC : ScanTableChangeLaws T}.
Notation data_set := (TableDataSet T).

(** The table of a request with its rows, which can be changed [m] times. *)
Definition change_request (m : nat) (h : request_handler T) (db tbl : list Z) (info : table_info) (rows : list stored_row) : Prop := request_table (SL := sc_reads m) h db tbl info rows.
Definition left_rows (m : nat) (h h' : request_handler T) (db tbl : list Z) (info : table_info) (rows : list stored_row) : Prop := left_with (SL := sc_reads m) h h' db tbl info rows.

(** C11: DELETE removes exactly the rows that fulfil WHERE and counts them, when
    WHERE can be evaluated on all rows: the other rows stay as they are, although
    the table changes below the cursor, and no other table changes.  WHERE is the
    condition of the request with each name resolved to the column of that name.
    The table keeps the laws of [ScanTableChangeLaws], as the tables of the program
    do for rows that are not the last ones of their index file
    ([scan_table_changes]), and has room for a change of every row; the numbers of
    the transactions fit their types. *)
Theorem delete_removes (h : request_handler T) r info rows w d fuel s m :
  change_request (length rows + m) h (request_database h (dr_database r)) (st_name (dr_table r)) info rows -> prepare_delete h r = Ok (w, d) -> (length rows <= fuel)%nat ->
  (forall n, tp_ok (next_transaction h s n)) -> (forall x, x ∈ rows -> exists b, row_fits_spec d w x = Ok b) ->
  option_Forall2 (resolves_to [d]) (dr_where r) w /\
  exists h', executeDeleteRequest fuel s h r = (Ok tt, length (List.filter (row_selected d w) rows), h') /\
    left_rows m h h' (request_database h (dr_database r)) (st_name (dr_table r)) info (List.filter (fun x => negb (row_selected d w x)) rows).
Proof.
  intros Ht Hp Hf Htp Hall. destruct (prepare_delete_ok h r info rows w d Ht Hp) as (Hd & Hinfo & Hres). split; [done|]. unfold executeDeleteRequest. rewrite Hp.
  destruct (change_table_ok d w _ _ _ _ (delete_row_ok d (next_transaction h s) Htp) fuel m d rows Hd (same_shape_refl d)) as (o & n & d' & rows' & -> & Hleft & Hsc); [by apply Forall_forall|done|].
  destruct (scanned_delete d w rows rows' n o Hall Hsc) as (-> & -> & ->). destruct Hleft as [[_ Hst'] (_ & Htab & _)]; [done|]. destruct Ht as (t & Ht & _). eexists. split; [reflexivity|].
  apply (store_left _ _ _ _ t); [done|]. by rewrite Htab, Hinfo in Hst'.
Qed.

(** C4: UPDATE looks at the rows of its table in the order of their numbers.  A row that
    fulfils WHERE gets the values of SET, evaluated on the old row and converted to
    the types of the columns, in the columns of SET and keeps its other values and
    its number; the other rows stay.  The count is the number of updated rows.  If
    WHERE or a value fails at a row, or a column refuses its value, the request ends
    there: with an exception, after which that row and the rows after it stay and
    the rows before it are updated, or with undefined behaviour, after which nothing
    is known.  No other table changes.  The columns of SET are different and as many
    as the values; the table keeps the laws of [ScanTableChangeLaws], as the tables
    of the program do for rows that are not the last ones of their index file
    ([scan_table_changes]), and has room for a change of every row; the numbers of
    the transactions and the values of SET fit their types. *)
Theorem update_refines (h : request_handler T) r info rows w values positions d fuel s m :
  change_request (length rows + m) h (request_database h (ur_database r)) (st_name (ur_table r)) info rows -> prepare_update h r = Ok (w, values, positions, d) -> (length rows <= fuel)%nat ->
  col_name <$> head (tbl_columns info) = Some kMasterColumnName -> length (ur_columns r) = length (ur_values r) -> NoDup (cr_column <$> ur_columns r) ->
  (forall n, tp_ok (next_transaction h s n)) -> Forall (values_fit d values positions) rows ->
  update_ready (SL := sc_reads (length rows + m)) r info rows w values positions d /\
  exists o n h' rows', executeUpdateRequest fuel s h r = (o, n, h') /\
    scanned (row_fits_spec d w) (row_updated d values positions) (update_fails d values positions) rows rows' n o /\
    ((forall u, o <> Undef u) -> left_rows m h h' (request_database h (ur_database r)) (st_name (ur_table r)) info rows').
Proof.
  intros Ht Hp Hf Hhead Hlen Hnd Htp Hfit. pose proof (prepare_update_ok h r info rows w values positions d Ht Hp) as Hready. split; [done|]. destruct Hready as [Hd Hinfo _ Hvals Hpos].
  assert (Hlaw : change_law d (update_row values positions (next_transaction h s)) (values_fit d values positions) (row_updated d values positions) (update_fails d values positions)).
  { apply update_row_ok; [done| |by eapply positions_distinct|rewrite Hinfo; by eapply positions_in_range]. by rewrite <- (Forall2_length _ _ _ Hpos), <- (Forall2_length _ _ _ Hvals). }
  destruct (change_table_ok d w _ _ _ _ Hlaw fuel m d rows Hd (same_shape_refl d) Hfit Hf) as (o & n & d' & rows' & E & Hleft & Hsc).
  unfold executeUpdateRequest. rewrite Hp, E. destruct Ht as (t & Ht & _). eexists o, n, _, rows'. split; [reflexivity|]. split; [done|].
  intros Ho. destruct (Hleft Ho) as [[_ Hst'] (_ & Htab & _)]. apply (store_left _ _ _ _ t); [done|]. by rewrite Htab, Hinfo in Hst'.
Qed.
End Change.

(** ** INSERT *)

Section Insert.
Context {T : Type} {ST : ScanTable T} {SL : ScanTableLaws T} {IL : ScanTableInsertLaws T} {X : Externals}.

(** A row of a request in the table. *)
Definition row_inserted (info : table_info) (names : list (list Z)) (es : list Expression) (x : stored_row) : Prop :=
  exists vs, evaluate_values empty_context es = Ok vs /\
    match names with
    | [] => Forall2 stored vs (take (length vs) (sr_values x))
    | _ => Forall2 (fun name v => exists p v', findColumnPosition info name = Some (S p) /\ sr_values x !! p = Some v' /\ stored v v') names vs
    end.

(** [inserted info names rows new o]: the rows of a request are added one after
    the other; the first one that cannot be evaluated or that the table refuses
    ends the request. *)
Inductive inserted (info : table_info) (names : list (list Z)) : list (list Expression) -> list stored_row -> outcome RequestError unit -> Prop :=
| inserted_end : inserted info names [] [] (Ok tt)
| inserted_row es rows x new o : row_inserted info names es x -> inserted info names rows new o -> inserted info names (es :: rows) (x :: new) o
| inserted_fails es rows o : (_ <- evaluate_values empty_context es ;; Ok tt) = o -> o <> Ok tt -> inserted info names (es :: rows) [] o
| inserted_refused es rows vs e : evaluate_values empty_context es = Ok vs -> inserted info names (es :: rows) [] (Throw (DataSetFailed (TableFailed e))).

Lemma insert_row_ok info names tp es (t : T) rows : st_ok info t rows ->
  (exists x t', insert_row names tp es t = (Ok tt, t') /\ st_ok info t' (rows ++ [x]) /\ row_inserted info names es x) \/
  (exists o t', insert_row names tp es t = (o, t') /\ o <> Ok tt /\ st_ok info t' rows /\ forall rest, inserted info names (es :: rest) [] o).
Proof.
  intros Hst. unfold insert_row, row_inserted. destruct (evaluate_values empty_context es) as [vs|e|u] eqn:Hev.
  - destruct names as [|name names].
    + destruct (st_insert_law _ _ _ vs tp Hst) as [(x & t' & -> & Ht' & Hx)|(e & t' & -> & Ht')]; [left; exists x, t'; split; [done|]; split; [done|]; by exists vs|].
      right. eexists _, t'. split; [reflexivity|]. split; [done|]. split; [done|]. intros rest. by eapply inserted_refused.
    + destruct (st_insert_named_law _ _ _ (name :: names) vs tp Hst) as [(x & t' & -> & Ht' & Hx)|(e & t' & -> & Ht')]; [left; exists x, t'; split; [done|]; split; [done|]; by exists vs|].
      right. eexists _, t'. split; [reflexivity|]. split; [done|]. split; [done|]. intros rest. by eapply inserted_refused.
  - right. exists (Throw e), t. split; [done|]. split; [done|]. split; [done|]. intros rest. apply inserted_fails; [by rewrite Hev|done].
  - right. exists (Undef u), t. split; [done|]. split; [done|]. split; [done|]. intros rest. apply inserted_fails; [by rewrite Hev|done].
Qed.

Lemma request_rows_ok info names tp : forall es count (t : T) rows, st_ok info t rows ->
  exists o t' new, insert_request_rows names tp es count t = (o, (count + length new)%nat, t') /\ st_ok info t' (rows ++ new) /\ inserted info names es new o.
Proof.
  induction es as [|e es IH]; intros count t rows Hst; cbn [insert_request_rows].
  - exists (Ok tt), t, []. rewrite Nat.add_0_r, app_nil_r. split; [done|]. split; [done|constructor].
  - destruct (insert_row_ok info names tp e t rows Hst) as [(x & t1 & -> & Ht1 & Hx)|(o & t1 & -> & Ho & Ht1 & Hins)].
    + destruct (IH (S count) t1 _ Ht1) as (o & t' & new & -> & Ht' & Hnew). exists o, t', (x :: new). cbn [length]. rewrite Nat.add_succ_comm. rewrite <- app_assoc in Ht'. split; [done|]. split; [done|]. by constructor.
    + exists o, t1, []. cbn [length]. rewrite Nat.add_0_r, app_nil_r. split; [destruct o as [[]|?|?]; done|]. by split.
Qed.

Lemma insert_columns_all db r info columns names : insert_columns db r info columns = (names, []) -> names = columns.
Proof.
  revert names. induction columns as [|c columns IH]; intros names; cbn; [by intros [= <-]|]. destruct (insert_columns db r info columns) as [ns es]. case_bool_decide; [done|]. case_bool_decide; [|done].
  intros [= <- ->]. f_equal. by apply IH.
Qed.

Lemma prepare_insert_ok h r names (t : T) : prepare_insert h r = Ok (names, t) ->
  names = ir_columns r /\ exists info, table_of h (request_database h (ir_database r)) (ir_table r) = Ok (info, t).
Proof.
  unfold prepare_insert. destruct (negb _); [done|]. intros ([[d0 info0] t0] & Hopen%open_table_ok & H)%bind_Ok. destruct (ir_values r) as [|row rows]; [done|]. destruct (_ && _); [done|].
  destruct (insert_columns _ _ _ _) as [ns es] eqn:Hcols. destruct (es ++ _) eqn:Hes; [|done]. injection H as <- <-. apply app_nil in Hes as [-> _]. split; [by eapply insert_columns_all|by exists info0].
Qed.

End Insert.

(** ** Examples *)

Module DmlSample.
Import SelectSample.
Local Open Scope string_scope.
Local Open Scope Z_scope.

Definition transactions : transaction_source := {| m_lastTransactionId := 7; current_time := fun n => 1000 + Z.of_nat n |}.
Definition t1_rows : list stored_row := mem_row <$> ms_rows t1.

Lemma t1_table : request_table handler (chars "DB") (chars "T1") t1_info t1_rows.
Proof. exists t1. split; [reflexivity|]. split; [apply (bool_decide_unpack _); vm_compute; exact I|]. exact (mem_ok_dec t1 eq_refl). Qed.

Definition rows_of (name : String.string) (h : request_handler mem_scan) : list (Z * list Variant) :=
  match table_of h (chars "DB") (chars name) with Ok (_, t) => ms_rows t | _ => [] end.
Definition summary (name : String.string) (x : outcome RequestError unit * nat * request_handler mem_scan) : outcome RequestError unit * nat * list (Z * list Variant) :=
  let '(o, n, h) := x in (o, n, rows_of name h).

Definition greater (k : Z) : Expression := BinaryOperator GreaterOperator (named "" "A") (ConstantExpression (int k)).

(** [DELETE FROM T1 WHERE A > 6]: the row with a null value stays. *)
Definition delete1 : DeleteRequest := {| dr_database := []; dr_table := table "T1"; dr_where := Some (greater 6) |}.
Example run_delete1 : summary "T1" (executeDeleteRequest 3 transactions handler delete1) = (Ok tt, 1%nat, [(1, [int 5]); (2, [VNull])]).
Proof. vm_compute. reflexivity. Qed.

(** [UPDATE T1 SET A = A + 1 WHERE A > 4] *)
Definition update1 : UpdateRequest :=
  {| ur_database := []; ur_table := table "T1"; ur_columns := [{| cr_table := []; cr_column := chars "A" |}];
     ur_values := [BinaryOperator AddOperator (named "" "A") (ConstantExpression (int 1))]; ur_where := Some (greater 4) |}.
Example run_update1 : summary "T1" (executeUpdateRequest 3 transactions handler update1) = (Ok tt, 2%nat, [(1, [int 6]); (2, [VNull]); (4, [int 10])]).
Proof. vm_compute. reflexivity. Qed.

(** [INSERT INTO T1 (A) VALUES (7), (1 + 1)] *)
Definition insert1 : InsertRequest :=
  {| ir_database := []; ir_table := chars "T1"; ir_columns := [chars "A"];
     ir_values := [[ConstantExpression (int 7)]; [BinaryOperator AddOperator (ConstantExpression (int 1)) (ConstantExpression (int 1))]] |}.
Example run_insert1 : summary "T1" (executeInsertRequest transactions handler insert1) = (Ok tt, 2%nat, [(1, [int 5]); (2, [VNull]); (4, [int 9]); (5, [int 7]); (6, [int 2])]).
Proof. vm_compute. reflexivity. Qed.

(** [INSERT INTO T1 VALUES (7), (CAST('x' AS INT32))]: the request fails, and its
    first row stays in the table. *)
Example insert_fails_late : summary "T1" (executeInsertRequest transactions handler
    {| ir_database := []; ir_table := chars "T1"; ir_columns := [];
       ir_values := [[ConstantExpression (int 7)]; [CastOperator (ConstantExpression (text "x")) (ConstantExpression (text "INT32"))]] |}) =
  (Throw (ExpressionFailed (Expr.VariantFailed (VariantTypeCastError kString kInt32))), 1%nat, [(1, [int 5]); (2, [VNull]); (4, [int 9]); (5, [int 7])]).
Proof. vm_compute. reflexivity. Qed.

(** [UPDATE T1 SET A = 1, A = 2]: the column that is there twice is not refused. *)
Example update_duplicate_column : summary "T1" (executeUpdateRequest 3 transactions handler
    {| ur_database := []; ur_table := table "T1"; ur_columns := [{| cr_table := []; cr_column := chars "A" |}; {| cr_table := []; cr_column := chars "A" |}];
       ur_values := [ConstantExpression (int 1); ConstantExpression (int 2)]; ur_where := None |}) =
  (Ok tt, 3%nat, [(1, [int 2]); (2, [int 2]); (4, [int 2])]).
Proof. vm_compute. reflexivity. Qed.

End DmlSample.

(** ** Examples with the tables of the program *)

From S2P Require Import ColumnRecords LruCache LinearIndex LinearIndexOps LinearIndexSpec Column ColumnBlocks ColumnSpec ColumnLaws MasterSpec TableSpec TableRefine TableCorrect TableCursor.

Module DmlTableSample.
Import SelectSample TableSample.
Local Open Scope string_scope.
Local Open Scope Z_scope.

Definition clock : transaction_source := {| m_lastTransactionId := 7; current_time := fun _ => 1000 |}.

Lemma clock_ok n : tp_ok (next_transaction real_handler clock n).
Proof. split; [apply uw_range; lia|]. split; unfold u_ok; cbn; lia. Qed.

(** The rows of the table after a request. *)
Definition real_rows_after (h : request_handler real_table) : outcome DataSetError (list (list Variant)) :=
  match table_of h (chars "DB") (chars "T") with Ok (info, t) => fst (scan 4 (fillColumnInfosFromTable (new_data_set info t []))) | _ => Ok [] end.

(** The condition [A > k]. *)
Definition above_value (k : Z) : Expression := BinaryOperator GreaterOperator (named "" "A") (ConstantExpression (int k)).

(** [DELETE FROM T WHERE A > 11] *)
Definition delete2 : DeleteRequest := {| dr_database := []; dr_table := table "T"; dr_where := Some (above_value 11) |}.
Example run_delete2 : let '(o, n, h) := executeDeleteRequest 3 clock real_handler delete2 in (o, n, real_rows_after h) = (Ok tt, 2%nat, Ok [[row_id 1; int 10; VNum (CI I64 30)]]).
Proof. vm_compute. reflexivity. Qed.

(** [UPDATE T SET B = A + 1 WHERE A > 10] *)
Definition update2 : UpdateRequest :=
  {| ur_database := []; ur_table := table "T"; ur_columns := [{| cr_table := []; cr_column := chars "B" |}];
     ur_values := [BinaryOperator AddOperator (named "" "A") (ConstantExpression (int 1))]; ur_where := Some (above_value 10) |}.
Example run_update2 : let '(o, n, h) := executeUpdateRequest 3 clock real_handler update2 in
  (o, n, real_rows_after h) = (Ok tt, 2%nat, Ok [[row_id 1; int 10; VNum (CI I64 30)]; [row_id 3; int 12; VNum (CI I64 13)]; [row_id 40; int 13; VNum (CI I64 14)]]).
Proof. vm_compute. reflexivity. Qed.

(** [UPDATE T SET A = NULL]: the column is NOT NULL. *)
Example update_null_undefined :
  fst (fst (executeUpdateRequest 3 clock real_handler
    {| ur_database := []; ur_table := table "T"; ur_columns := [{| cr_table := []; cr_column := chars "A" |}]; ur_values := [ConstantExpression VNull]; ur_where := None |})) = Undef OutOfBounds.
Proof. vm_compute. reflexivity. Qed.

(** There is room for a change of every row. *)
Lemma real_request : exists a1 m1 a2 m2 a3 m3, change_request 3 real_handler (chars "DB") (chars "T") scanned_info (real_list [(a1, m1); (a2, m2); (a3, m3)]).
Proof.
  destruct real_rows as (a1 & m1 & a2 & m2 & a3 & m3 & Hl). exists a1, m1, a2, m2, a3, m3. exists (scanned_after scanned_ops). split; [reflexivity|]. split; [apply (bool_decide_unpack _); vm_compute; exact I|]. exact Hl.
Qed.

Lemma delete2_rows w d : prepare_delete real_handler delete2 = Ok (w, d) ->
  forall a1 m1 a2 m2 a3 m3, row_fits_spec d w <$> real_list [(a1, m1); (a2, m2); (a3, m3)] = [Ok false; Ok true; Ok true].
Proof. intros H. vm_compute in H. injection H as <- <-. intros. vm_compute. reflexivity. Qed.
Lemma delete2_prepared : exists w d, prepare_delete real_handler delete2 = Ok (w, d).
Proof. eexists _, _. vm_compute. reflexivity. Qed.

Lemma delete_removes_witness : exists h' left, executeDeleteRequest 3 clock real_handler delete2 = (Ok tt, 2%nat, h') /\
  left_rows 0 real_handler h' (chars "DB") (chars "T") scanned_info left /\ full_row <$> left = [[row_id 1; int 10; VNum (CI I64 30)]].
Proof.
  destruct real_request as (a1 & m1 & a2 & m2 & a3 & m3 & Hl). destruct delete2_prepared as (w & d & H). pose proof (delete2_rows w d H a1 m1 a2 m2 a3 m3) as Hfit. injection Hfit as F1 F2 F3.
  destruct (delete_removes real_handler delete2 scanned_info (real_list [(a1, m1); (a2, m2); (a3, m3)]) w d 3 clock 0 Hl H (le_n 3) clock_ok) as (_ & h' & E & Hleft).
  - intros x Hr. repeat (apply elem_of_cons in Hr as [->|Hr]; [eexists; eassumption|]). now apply not_elem_of_nil in Hr.
  - cbn [real_list List.filter] in E, Hleft. unfold row_selected in E, Hleft. rewrite F1, F2, F3 in E, Hleft. exists h', [real_row 1 a1 m1 (int 10) (VNum (CI I64 30))]. split; [exact E|]. split; [exact Hleft|reflexivity].
Defined.

Lemma update2_prepared : exists w values positions d, prepare_update real_handler update2 = Ok (w, values, positions, d).
Proof. eexists _, _, _, _. vm_compute. reflexivity. Qed.
Lemma update2_fits w values positions d : prepare_update real_handler update2 = Ok (w, values, positions, d) ->
  forall a1 m1 a2 m2 a3 m3, Forall (values_fit d values positions) (real_list [(a1, m1); (a2, m2); (a3, m3)]).
Proof.
  intros H. vm_compute in H. injection H as <- <- <- <-. intros. repeat constructor; intros vs Hvs; vm_compute in Hvs; injection Hvs as <-; intros [|i] p c v Hp Hv Hc; try discriminate Hp; injection Hp as <-; injection Hv as <-; injection Hc as <-; vm_compute; repeat split; discriminate.
Qed.
Lemma update2_result : fst (executeUpdateRequest 3 clock real_handler update2) = (Ok tt, 2%nat).
Proof. vm_compute. reflexivity. Qed.

Lemma update_refines_witness : exists h' rows', executeUpdateRequest 3 clock real_handler update2 = (Ok tt, 2%nat, h') /\ left_rows 0 real_handler h' (chars "DB") (chars "T") scanned_info rows'.
Proof.
  destruct real_request as (a1 & m1 & a2 & m2 & a3 & m3 & Hl). destruct update2_prepared as (w & values & positions & d & H).
  destruct (update_refines real_handler update2 scanned_info (real_list [(a1, m1); (a2, m2); (a3, m3)]) w values positions d 3 clock 0 Hl H (le_n 3) eq_refl eq_refl) as (_ & o & n & h' & rows' & E & _ & Hleft).
  - apply (bool_decide_unpack _). vm_compute. exact I.
  - exact clock_ok.
  - apply (update2_fits w values positions d H).
  - pose proof update2_result as R. rewrite E in R. injection R as -> ->. exists h', rows'. split; [exact E|]. apply Hleft. discriminate.
Defined.
End DmlTableSample.
