(* ===== verification/RowCodec.v ===== *)
(** * Rows on the wire

    Models how rows get from the server to a client: [VariantOutput.cpp] and
    [SqlClientProtocolRowsetWriter.cpp] write them, [forwardRowData] of the
    connection worker passes them on, [RowDecoder.cpp] reads them, with the typed
    reads and writes of [ExtendedCodedInputStream] and [ExtendedCodedOutputStream].
    The streams of the protocol buffer library are an interface. *)

From stdpp Require Import base list gmap.
Set Warnings "-clear-no-such-hyp,-notation-incompatible-prefix,-notation-for-abbreviation".
From Stdlib Require Import ZArith Lia SpecFloat.
From S2P Require Import Prelude VarInt PlainBinary CNum RawDateTime VariantType Lob Variant ColumnType Expr ExprEval StateM Bytes ColumnRecords MasterColumn Table Users DataSet Query Select.

Local Open Scope Z_scope.

(** ** The protocol buffer library *)

(** What a write appends to a stream, and what a read takes from it; [None] is the
    result [false].  [ReadRaw] and [WriteRaw] take a size of type [int].
    [GetDirectBufferPointer] gives the number of bytes that can be taken at once. *)
Class CodedStreams : Type := {
  WriteVarint32 : Z -> list Z;
  WriteVarint64 : Z -> list Z;
  WriteLittleEndian32 : Z -> list Z;
  WriteLittleEndian64 : Z -> list Z;
  WriteRaw : Z -> list Z -> list Z;
  VarintSize32 : Z -> Z;
  VarintSize64 : Z -> Z;
  ReadVarint32 : list Z -> option (Z * list Z);
  ReadVarint64 : list Z -> option (Z * list Z);
  ReadLittleEndian32 : list Z -> option (Z * list Z);
  ReadLittleEndian64 : list Z -> option (Z * list Z);
  ReadRaw : Z -> list Z -> option (list Z * list Z);
  GetDirectBufferPointer : list Z -> Z
}.

(** The documented format: base-128 groups and little-endian words. *)
Class CodedStreamsLaws (CS : CodedStreams) : Prop := {
  write_varint32 : forall v, u_ok 32 v -> WriteVarint32 v = encodeVarInt false W32 v;
  write_varint64 : forall v, u_ok 64 v -> WriteVarint64 v = encodeVarInt false W64 v;
  write_little32 : forall v, WriteLittleEndian32 v = le_store 4 v;
  write_little64 : forall v, WriteLittleEndian64 v = le_store 8 v;
  varint_size32 : forall v, VarintSize32 v = len (WriteVarint32 v);
  varint_size64 : forall v, VarintSize64 v = len (WriteVarint64 v);
  read_varint32 : forall v rest, u_ok 32 v -> ReadVarint32 (WriteVarint32 v ++ rest) = Some (v, rest);
  read_varint64 : forall v rest, u_ok 64 v -> ReadVarint64 (WriteVarint64 v ++ rest) = Some (v, rest);
  read_little32 : forall v rest, u_ok 32 v -> ReadLittleEndian32 (WriteLittleEndian32 v ++ rest) = Some (v, rest);
  read_little64 : forall v rest, u_ok 64 v -> ReadLittleEndian64 (WriteLittleEndian64 v ++ rest) = Some (v, rest);
  write_raw : forall bs, len bs < 2 ^ 31 -> WriteRaw (len bs) bs = bs;
  read_raw : forall bs rest, len bs < 2 ^ 31 -> ReadRaw (len bs) (bs ++ rest) = Some (bs, rest);
  direct_buffer : forall bs, bs <> [] -> 0 < GetDirectBufferPointer bs <= len bs
}.

Inductive RowError : Type :=
| NotEnoughNullBitmask
| InvalidRowDataType (index : nat) (t : ColumnDataType)
| RowNotEnoughData (index : nat) (t : ColumnDataType)
| RowDataCorruption (index : nat) (t : ColumnDataType)
| UnsupportedDataType (index : nat) (t : ColumnDataType)
| StreamReadError
| TooLong.

Definition kNoMoreRows : Z := 0.
Definition kLobChunkSize : Z := 4096.

Section Codec.
Context {CS : CodedStreams}.

(** ** The server *)

Definition getVariantSerializedSize (value : Variant) : Z :=
  match value with
  | VNull => 0
  | VBool _ | VNum (CI I8 _) | VNum (CI U8 _) => 1
  | VNum (CI I16 _) | VNum (CI U16 _) => 2
  | VNum (CI I32 z) | VNum (CI U32 z) => VarintSize32 (uw 32 z)
  | VNum (CI I64 z) | VNum (CI U64 z) => VarintSize64 (uw 64 z)
  | VNum (CF F32 _) => 4
  | VNum (CF F64 _) => 8
  | VDateTime dt => RawDateTime.getSerializedSize dt
  | VString s | VBinary s => VarintSize32 (uw 32 (len s)) + len s
  | VClob l | VBlob l => VarintSize32 (getSize l) + getSize l
  end.

(** [Write(const char*, std::size_t)] and [Write(const BinaryValue&)]. *)
Definition write_bytes (s : list Z) : outcome RowError (list Z) :=
  if len s >? 2 ^ 32 - 1 then Throw TooLong else
  Ok (WriteVarint32 (uw 32 (len s)) ++ if len s >? 0 then WriteRaw (sw 32 (len s)) s else []).

(** The loop over the chunks of a LOB; [mem] is the buffer. *)
Fixpoint write_lob_loop (fuel : nat) (l : MemLob) (mem : list Z) (size : Z) : outcome RowError (list Z) :=
  if size >? 0 then
    match fuel with
    | O => Undef NoProgress
    | S k =>
        '(mem', chunkSize, l') <- read l mem (Z.min size kLobChunkSize) ;;
        rest <- write_lob_loop k l' mem' (uw 32 (size - chunkSize)) ;;
        Ok (firstn (Z.to_nat chunkSize) mem' ++ rest)
    end
  else Ok [].

Definition write_lob (l : MemLob) : outcome RowError (list Z) :=
  let lob := MemLob_clone l in
  let size := getRemainingSize lob in
  content <- write_lob_loop (Z.to_nat size) lob (repeat 0 (Z.to_nat (Z.min size kLobChunkSize))) size ;;
  Ok (WriteVarint32 size ++ content).

(** [writeVariant] with the overloads of [Write]. *)
Definition writeVariant (value : Variant) : outcome RowError (list Z) :=
  match value with
  | VNull => Ok []
  | VBool b => Ok [if b then 1 else 0]
  | VNum (CI I8 z) | VNum (CI U8 z) => Ok [uw 8 z]
  | VNum (CI I16 z) | VNum (CI U16 z) => Ok (le_store 2 z)
  | VNum (CI I32 z) | VNum (CI U32 z) => Ok (WriteVarint32 (uw 32 z))
  | VNum (CI I64 z) | VNum (CI U64 z) => Ok (WriteVarint64 (uw 64 z))
  | VNum (CF F32 x) => Ok (WriteLittleEndian32 (float_bits F32 x))
  | VNum (CF F64 x) => Ok (WriteLittleEndian64 (float_bits F64 x))
  | VDateTime dt => Ok (RawDateTime.serialize dt)
  | VString s | VBinary s => write_bytes s
  | VClob l | VBlob l => write_lob l
  end.

Fixpoint write_variants (values : list Variant) : outcome RowError (list Z) :=
  match values with
  | [] => Ok []
  | v :: values' => bs <- writeVariant v ;; rest <- write_variants values' ;; Ok (bs ++ rest)
  end.

Definition rowLength (values : list Variant) (nullMask : bitmask) : Z :=
  uw 64 (fold_left (fun left right => uw 64 (left + getVariantSerializedSize right)) values 0 + len nullMask).

Definition writeRow (values : list Variant) (nullMask : bitmask) : outcome RowError (list Z) :=
  body <- write_variants values ;;
  Ok (WriteVarint64 (rowLength values nullMask) ++ (if len nullMask =? 0 then [] else WriteRaw (sw 32 (len nullMask)) nullMask) ++ body).

Definition endRowset : list Z := WriteVarint64 kNoMoreRows.

(** What follows the response message of a rowset. *)
Fixpoint write_events (l : list rowset_event) : outcome RowError (list Z) :=
  match l with
  | [] => Ok []
  | BeginRowset _ :: l' => write_events l'
  | WriteRow values nullMask :: l' => row <- writeRow values nullMask ;; rest <- write_events l' ;; Ok (row ++ rest)
  | EndRowset :: l' => rest <- write_events l' ;; Ok (endRowset ++ rest)
  end.

(** ** The connection worker *)

(** The bytes of a row, in the pieces that the input stream has. *)
Fixpoint forward_row (fuel : nat) (remaining : Z) (input : list Z) : outcome RowError (list Z * list Z) :=
  if 0 <? remaining then
    match fuel with
    | O => Undef NoProgress
    | S k =>
        let dataSize := Z.min (GetDirectBufferPointer input) remaining in
        '(output, input') <- forward_row k (remaining - dataSize) (skipn (Z.to_nat dataSize) input) ;;
        Ok (firstn (Z.to_nat dataSize) input ++ output, input')
    end
  else Ok ([], input).

(** The array of the row length has nine bytes. *)
Fixpoint forwardRowData (fuel : nat) (input : list Z) : outcome RowError (list Z * list Z) :=
  match fuel with
  | O => Undef NoProgress
  | S k =>
      match ReadVarint64 input with
      | None => Throw StreamReadError
      | Some (length, input1) =>
          let codedRowLength := WriteVarint64 length in
          if len codedRowLength >? 9 then Undef OutOfBounds else
          if length =? 0 then Ok (codedRowLength, input1) else
          '(row, input2) <- forward_row (Z.to_nat length) length input1 ;;
          '(output, input3) <- forwardRowData k input2 ;;
          Ok (codedRowLength ++ row ++ output, input3)
      end
  end.

(** ** The client *)

Definition known_type (t : ColumnDataType) : bool := negb (ColumnDataType_eqb t COLUMN_DATA_TYPE_UNKNOWN).

(** The value that is made from what was read. *)
Definition got {A B} (f : A -> B) (r : option (A * list Z)) : option (B * list Z) :=
  match r with Some (a, rest) => Some (f a, rest) | None => None end.

(** [ExtendedCodedInputStream::Read] of strings and binary values. *)
Definition read_bytes (input : list Z) : option (list Z * list Z) :=
  match ReadVarint32 input with
  | Some (length, input1) => if 0 <? length then ReadRaw (sw 32 length) input1 else Some ([], input1)
  | None => None
  end.

Definition readRawDateTime (fresh : RawDateTime) (input : list Z) : outcome RowError (option (RawDateTime * list Z)) :=
  match ReadRaw 4 input with
  | None => Ok None
  | Some (date, input1) =>
      x <- deserializeDatePart fresh date ;;
      if m_hasTimePart (m_datePart x) then
        match ReadRaw 6 input1 with
        | None => Ok None
        | Some (time, input2) => '(y, _) <- RawDateTime.deserialize x (date ++ time) 10 ;; Ok (Some (y, input2))
        end
      else Ok (Some (x, input1))
  end.

Definition read_num (t : ity) (r : option (Z * list Z)) : outcome RowError (option (Variant * list Z)) :=
  Ok (got (fun z => VNum (CI t (conv t z))) r).
Definition raw_word (n : Z) (input : list Z) : option (Z * list Z) := got le_load (ReadRaw n input).

(** A value of a type; [None] when the stream ends. *)
Definition read_value (fresh : RawDateTime) (index : nat) (t : ColumnDataType) (input : list Z) : outcome RowError (option (Variant * list Z)) :=
  match t with
  | COLUMN_DATA_TYPE_BOOL => Ok (got (fun z => VBool (negb (z =? 0))) (raw_word 1 input))
  | COLUMN_DATA_TYPE_INT8 => read_num I8 (raw_word 1 input)
  | COLUMN_DATA_TYPE_UINT8 => read_num U8 (raw_word 1 input)
  | COLUMN_DATA_TYPE_INT16 => read_num I16 (raw_word 2 input)
  | COLUMN_DATA_TYPE_UINT16 => read_num U16 (raw_word 2 input)
  | COLUMN_DATA_TYPE_INT32 => read_num I32 (ReadVarint32 input)
  | COLUMN_DATA_TYPE_UINT32 => read_num U32 (ReadVarint32 input)
  | COLUMN_DATA_TYPE_INT64 => read_num I64 (ReadVarint64 input)
  | COLUMN_DATA_TYPE_UINT64 => read_num U64 (ReadVarint64 input)
  | COLUMN_DATA_TYPE_FLOAT => Ok (got (fun b => VNum (CF F32 (bits_float F32 b))) (ReadLittleEndian32 input))
  | COLUMN_DATA_TYPE_DOUBLE => Ok (got (fun b => VNum (CF F64 (bits_float F64 b))) (ReadLittleEndian64 input))
  | COLUMN_DATA_TYPE_TEXT => Ok (got VString (read_bytes input))
  | COLUMN_DATA_TYPE_BINARY => Ok (got VBinary (read_bytes input))
  | COLUMN_DATA_TYPE_TIMESTAMP => r <- readRawDateTime fresh input ;; Ok (got VDateTime r)
  | _ => Throw (UnsupportedDataType index t)
  end.

(** The columns from [index] on. *)
Fixpoint decode_columns (fresh : RawDateTime) (nullBitmask : option bitmask) (index : nat) (types : list ColumnDataType) (input : list Z)
    : outcome RowError (list Variant * list Z) :=
  match types with
  | [] => Ok ([], input)
  | t :: types' =>
      if negb (known_type t) then Throw (InvalidRowDataType index t) else
      if (match nullBitmask with Some m => bit_at index m | None => false end)
      then '(values, rest) <- decode_columns fresh nullBitmask (S index) types' input ;; Ok (VNull :: values, rest)
      else
        r <- read_value fresh index t input ;;
        match r with
        | None => Throw StreamReadError
        | Some (v, input1) => '(values, rest) <- decode_columns fresh nullBitmask (S index) types' input1 ;; Ok (v :: values, rest)
        end
  end.

(** [decodeRow] from a stream: no values when there are no more rows. *)
Definition decodeRow_stream (fresh : RawDateTime) (types : list ColumnDataType) (hasNullableColumns : bool) (input : list Z) : outcome RowError (list Variant * list Z) :=
  match ReadVarint64 input with
  | None => Throw StreamReadError
  | Some (length, input1) =>
      if length =? 0 then Ok ([], input1) else
      if hasNullableColumns then
        match ReadRaw (sw 32 (Z.of_nat (required_size (List.length types)))) input1 with
        | None => Throw StreamReadError
        | Some (m, input2) => decode_columns fresh (Some m) 0 types input2
        end
      else decode_columns fresh None 0 types input1
  end.

(** ** Decoding from a buffer *)

Definition buffer_varint (w : width) (index : nat) (t : ColumnDataType) (buffer : list Z) : outcome RowError (Z * list Z) :=
  match decodeVarInt false w buffer (len buffer) with
  | Ok (Consumed n v) => Ok (v, skipn (Z.to_nat n) buffer)
  | Ok NotEnoughData => Throw (RowNotEnoughData index t)
  | Ok Corrupt => Throw (RowDataCorruption index t)
  | Throw e => match e with end
  | Undef u => Undef u
  end.
Definition buffer_word (n : Z) (index : nat) (t : ColumnDataType) (buffer : list Z) : outcome RowError (Z * list Z) :=
  if len buffer <? n then Throw (RowNotEnoughData index t) else
  bs <- memrd buffer 0 n ;; Ok (le_load bs, skipn (Z.to_nat n) buffer).
Definition buffer_bytes (index : nat) (t : ColumnDataType) (buffer : list Z) : outcome RowError (list Z * list Z) :=
  '(length, buffer1) <- buffer_varint W32 index t buffer ;;
  if length =? 0 then Ok ([], buffer1) else
  if length >? len buffer1 then Throw (RowNotEnoughData index t) else
  bs <- memrd buffer1 0 length ;; Ok (bs, skipn (Z.to_nat length) buffer1).
Definition buffer_num (t : ity) (r : outcome RowError (Z * list Z)) : outcome RowError (Variant * list Z) :=
  '(z, buffer) <- r ;; Ok (VNum (CI t (conv t z)), buffer).
Definition buffer_datetime (fresh : RawDateTime) (index : nat) (t : ColumnDataType) (buffer : list Z) : outcome RowError (RawDateTime * list Z) :=
  if len buffer <? 4 then Throw (RowNotEnoughData index t) else
  x <- deserializeDatePart fresh buffer ;;
  if m_hasTimePart (m_datePart x) then
    if len buffer - 4 <? 6 then Throw (RowNotEnoughData index t) else
    '(y, _) <- RawDateTime.deserialize x buffer 10 ;; Ok (y, skipn 10 buffer)
  else Ok (x, skipn 4 buffer).

Definition buffer_value (fresh : RawDateTime) (index : nat) (t : ColumnDataType) (buffer : list Z) : outcome RowError (Variant * list Z) :=
  match t with
  | COLUMN_DATA_TYPE_BOOL => '(z, b) <- buffer_word 1 index t buffer ;; Ok (VBool (negb (z =? 0)), b)
  | COLUMN_DATA_TYPE_INT8 => buffer_num I8 (buffer_word 1 index t buffer)
  | COLUMN_DATA_TYPE_UINT8 => buffer_num U8 (buffer_word 1 index t buffer)
  | COLUMN_DATA_TYPE_INT16 => buffer_num I16 (buffer_word 2 index t buffer)
  | COLUMN_DATA_TYPE_UINT16 => buffer_num U16 (buffer_word 2 index t buffer)
  | COLUMN_DATA_TYPE_INT32 => buffer_num I32 (buffer_varint W32 index t buffer)
  | COLUMN_DATA_TYPE_UINT32 => buffer_num U32 (buffer_varint W32 index t buffer)
  | COLUMN_DATA_TYPE_INT64 => buffer_num I64 (buffer_varint W64 index t buffer)
  | COLUMN_DATA_TYPE_UINT64 => buffer_num U64 (buffer_varint W64 index t buffer)
  | COLUMN_DATA_TYPE_FLOAT => '(z, b) <- buffer_word 4 index t buffer ;; Ok (VNum (CF F32 (bits_float F32 z)), b)
  | COLUMN_DATA_TYPE_DOUBLE => '(z, b) <- buffer_word 8 index t buffer ;; Ok (VNum (CF F64 (bits_float F64 z)), b)
  | COLUMN_DATA_TYPE_TEXT => '(s, b) <- buffer_bytes index t buffer ;; Ok (VString s, b)
  | COLUMN_DATA_TYPE_BINARY => '(s, b) <- buffer_bytes index t buffer ;; Ok (VBinary s, b)
  | COLUMN_DATA_TYPE_TIMESTAMP => '(x, b) <- buffer_datetime fresh index t buffer ;; Ok (VDateTime x, b)
  | _ => Throw (UnsupportedDataType index t)
  end.

(** The next [count] columns; [dataTypes] must have their types. *)
Fixpoint buffer_columns (fresh : RawDateTime) (nullBitmask : option bitmask) (index count : nat) (types : list ColumnDataType) (buffer : list Z) : outcome RowError (list Variant) :=
  match count, types with
  | O, _ => Ok []
  | S _, [] => Undef OutOfBounds
  | S count', t :: types' =>
      if negb (known_type t) then Throw (InvalidRowDataType index t) else
      if (match nullBitmask with Some m => bit_at index m | None => false end)
      then values <- buffer_columns fresh nullBitmask (S index) count' types' buffer ;; Ok (VNull :: values)
      else
        '(v, buffer1) <- buffer_value fresh index t buffer ;;
        values <- buffer_columns fresh nullBitmask (S index) count' types' buffer1 ;; Ok (v :: values)
  end.

(** The first [columnsToDecodeCount] of the columns; the statement for no columns
    lacks its [return]. *)
Definition decodeRow (fresh : RawDateTime) (buffer : list Z) (columnsToDecodeCount : nat) (types : list ColumnDataType) (hasNullableColumns : bool) : outcome RowError (list Variant) :=
  if hasNullableColumns then
    let n := required_size (List.length types) in
    if len buffer <? Z.of_nat n then Throw NotEnoughNullBitmask else
    m <- memrd buffer 0 (Z.of_nat n) ;;
    buffer_columns fresh (Some m) 0 columnsToDecodeCount types (skipn n buffer)
  else buffer_columns fresh None 0 columnsToDecodeCount types buffer.
End Codec.

(** ** What a client reads *)

(** LOBs arrive as strings and binary values. *)
Definition wire (v : Variant) : Variant :=
  match v with VClob l => VString (m_content l) | VBlob l => VBinary (m_content l) | v => v end.

Definition wire_ok (v : Variant) : Prop :=
  Variant_ok v /\ match v with VString s | VBinary s => len s < 2 ^ 31 | VClob l | VBlob l => len (m_content l) < 2 ^ 31 | VDateTime dt => normal dt | _ => True end.

(** A value that a column of a type may have. *)
Definition sent_as (t : ColumnDataType) (v : Variant) : Prop := v <> VNull /\ convertColumnDataTypeToVariantType t = Some (getValueType (wire v)).

Section Laws.
Context {CS : CodedStreams} {CL : CodedStreamsLaws CS}.

Lemma write32 v : WriteVarint32 (uw 32 v) = encodeVarInt false W32 (uw 32 v).
Proof. apply write_varint32, uw_range. lia. Qed.
Lemma write64 v : WriteVarint64 (uw 64 v) = encodeVarInt false W64 (uw 64 v).
Proof. apply write_varint64, uw_range. lia. Qed.

Lemma varint_written w v : 1 <= len (encodeVarInt false w (uw (bits w) v)) /\ bytes_ok (encodeVarInt false w (uw (bits w) v)).
Proof. split; [apply encodeVarInt_len|]. apply encodeVarInt_bytes. destruct w; apply uw_range; cbn; lia. Qed.

Lemma write_lob_loop_ok fuel : forall l mem size, MemLob_ok l -> size = len (unread l) -> Z.min size kLobChunkSize <= len mem -> size <= Z.of_nat fuel ->
  write_lob_loop fuel l mem size = Ok (unread l).
Proof.
  induction fuel as [|fuel IH]; intros l mem size Hl Hs Hm Hf; pose proof (len_nonneg (unread l)) as Hn; cbn [write_lob_loop]; rewrite Z.gtb_ltb.
  - rewrite (proj2 (Z.ltb_ge 0 size)) by lia. destruct (unread l); [done|]. rewrite len_cons in *. pose proof (len_nonneg l0). lia.
  - destruct (Z.ltb_spec 0 size) as [Hpos|Hz]; [|destruct (unread l); [done|]; rewrite len_cons in *; pose proof (len_nonneg l0); lia].
    set (c := Z.min size kLobChunkSize) in *. assert (Hc : 0 < c <= size) by (unfold c, kLobChunkSize; lia).
    destruct (split_at (unread l) c) as (chunk & rest & Hu & Hlc); [lia|]. destruct (split_at mem c) as (old & post & -> & Hlo); [lia|].
    cbn [read MemLob_stream]. rewrite (MemLob_read_ok l chunk rest old post c Hl Hu); [|lia..]. cbn [bind].
    assert (Hadv : unread (Lob.advance l (len chunk)) = rest). { rewrite unread_advance by (done || lia). rewrite Hu. apply skipn_len_app'. by rewrite Hlc. }
    assert (Hr : len rest = size - c) by (rewrite Hs, Hu, len_app; lia).
    pose proof Hl as (_ & Hlen & _). pose proof (unread_len l Hl) as Hul. assert (Hsmall : u_ok 32 (size - len chunk)) by (unfold u_ok; destruct Hl as (_ & _ & Hp); lia).
    rewrite uw_small by done. rewrite IH; [|apply advance_ok; (done || lia)|rewrite Hadv; lia|rewrite len_app; pose proof (len_nonneg post); unfold c, kLobChunkSize in *; lia|lia]. cbn [bind]. rewrite Hadv. rewrite firstn_len_app by lia. by rewrite Hu.
Qed.

Lemma write_lob_ok l : MemLob_ok l -> write_lob l = Ok (WriteVarint32 (len (m_content l)) ++ m_content l).
Proof.
  intros Hl. unfold write_lob. pose proof Hl as (Hsz & Hlen & Hpos). pose proof (newMemLob_ok (m_content l) Hlen) as Hn.
  change (MemLob_clone l) with (newMemLob (m_content l)). rewrite (remaining_unread _ Hn). change (unread (newMemLob (m_content l))) with (m_content l).
  pose proof (len_nonneg (m_content l)). rewrite write_lob_loop_ok; [done|done|done| |lia]. unfold len at 2. rewrite repeat_length. unfold kLobChunkSize. lia.
Qed.

Lemma int_size (s : list Z) : len s < 2 ^ 31 -> sw 32 (len s) = len s.
Proof. intros Hs. pose proof (len_nonneg s). apply sw_small; [done|]. unfold s_ok. lia. Qed.

Lemma empty_bytes (s : list Z) : len s <= 0 -> s = [].
Proof. destruct s as [|x s]; [done|]. rewrite len_cons. pose proof (len_nonneg s). lia. Qed.

Lemma write_bytes_ok s : len s < 2 ^ 31 -> write_bytes s = Ok (WriteVarint32 (uw 32 (len s)) ++ s).
Proof.
  intros Hs. unfold write_bytes. rewrite !Z.gtb_ltb, (proj2 (Z.ltb_ge _ _)) by lia. rewrite int_size, write_raw by done.
  destruct (Z.ltb_spec 0 (len s)) as [_|Hz]; [done|by rewrite (empty_bytes s Hz)].
Qed.

Lemma lob_size l : MemLob_ok l -> getSize l = uw 32 (len (m_content l)) /\ getSize l = len (m_content l) /\ len (m_content l) = uw 32 (len (m_content l)).
Proof. intros (Hsz & Hlen & _). pose proof (len_nonneg (m_content l)). rewrite uw_small by (unfold u_ok; lia). done. Qed.

(** The bytes of a value, and their announced number. *)
Definition written (v : Variant) (bs : list Z) : Prop :=
  writeVariant v = Ok bs /\ len bs = getVariantSerializedSize v /\ bytes_ok bs /\ (v <> VNull -> 0 < len bs).

Lemma counted_written s : bytes_ok s -> len s < 2 ^ 31 ->
  len (WriteVarint32 (uw 32 (len s)) ++ s) = VarintSize32 (uw 32 (len s)) + len s /\ bytes_ok (WriteVarint32 (uw 32 (len s)) ++ s) /\ 0 < len (WriteVarint32 (uw 32 (len s)) ++ s).
Proof.
  intros Hb Hs. destruct (varint_written W32 (len s)) as [H1 H2]. pose proof (len_nonneg s). rewrite varint_size32, len_app, write32. cbn [bits] in *. split; [done|]. split; [by apply Forall_app|lia].
Qed.

Lemma write_variant_ok v : wire_ok v -> exists bs, written v bs.
Proof.
  intros [Hv Hw]. destruct v as [|b|[t z|f x]|dt|s|s|l|l]; unfold written; cbn [writeVariant getVariantSerializedSize Variant_ok cnum_ok] in *.
  - exists []. split; [done|]. split; [done|]. split; [constructor|done].
  - eexists. split; [reflexivity|]. split; [done|]. split; [|done]. repeat constructor; by destruct b.
  - destruct (varint_written W32 z) as [H1 H2], (varint_written W64 z) as [H3 H4]. cbn [bits] in *.
    assert (H8 : byte_ok (uw 8 z)) by (apply uw_range; lia).
    destruct t; eexists; (split; [reflexivity|]); rewrite ?varint_size32, ?varint_size64, ?write32, ?write64, ?len_le_store; (split; [done|]);
      (split; [|intros _; (done || lia)]); try done; try (by constructor); apply le_store_bytes.
  - destruct f; eexists; (split; [reflexivity|]); rewrite ?write_little32, ?write_little64, ?len_le_store; (split; [done|]); (split; [apply le_store_bytes|done]).
  - eexists. split; [reflexivity|]. rewrite serialize_len, (canonical_normal _ Hw). split; [done|]. split; [apply serialize_bytes|]. intros _. unfold RawDateTime.getSerializedSize. by destruct (m_hasTimePart _).
  - destruct Hv as [Hb _]. eexists. split; [by apply write_bytes_ok|]. destruct (counted_written s Hb Hw) as (H1 & H2 & H3). done.
  - destruct Hv as [Hb _]. eexists. split; [by apply write_bytes_ok|]. destruct (counted_written s Hb Hw) as (H1 & H2 & H3). done.
  - destruct Hv as [Hl Hb]. destruct (lob_size l Hl) as (_ & E2 & E3). eexists. split; [by apply write_lob_ok|]. pose proof Hl as (_ & Hlen & _). rewrite E2.
    destruct (counted_written _ Hb Hw) as (H1 & H2 & H3). rewrite <- E3 in H1, H2, H3. done.
  - destruct Hv as [Hl Hb]. destruct (lob_size l Hl) as (_ & E2 & E3). eexists. split; [by apply write_lob_ok|]. pose proof Hl as (_ & Hlen & _). rewrite E2.
    destruct (counted_written _ Hb Hw) as (H1 & H2 & H3). rewrite <- E3 in H1, H2, H3. done.
Qed.

(** ** Reading a value *)

Lemma Ok_inj {E A} (a b : A) : @Ok E A a = Ok b -> a = b.
Proof. congruence. Qed.

Lemma raw_word_ok n z rest : (n <= 8)%nat -> raw_word (Z.of_nat n) (le_store n z ++ rest) = Some (z mod 2 ^ (8 * Z.of_nat n), rest).
Proof. intros Hn. unfold raw_word. rewrite <- (len_le_store n z) at 1. rewrite read_raw by (rewrite len_le_store; lia). cbn. by rewrite le_load_store. Qed.

Lemma raw_byte_ok b rest : raw_word 1 ([b] ++ rest) = Some (b, rest).
Proof. unfold raw_word. rewrite (read_raw [b] rest eq_refl : ReadRaw 1 _ = _). cbn [got le_load]. by rewrite Z.mul_0_r, Z.add_0_r. Qed.

Lemma conv_word t n z : in_ity t z = true -> ibits t = 8 * Z.of_nat n -> conv t (z mod 2 ^ (8 * Z.of_nat n)) = z.
Proof.
  intros Hz%in_ity_spec Hn. rewrite <- Hn. unfold conv. destruct (signed t).
  - apply sw_of_uw_small; [destruct t; done|done].
  - change (z mod 2 ^ ibits t) with (uw (ibits t) z). by rewrite !uw_small by (rewrite ?uw_small; done).
Qed.

Lemma conv_uw t z : in_ity t z = true -> conv t (uw (ibits t) z) = z.
Proof.
  intros Hz%in_ity_spec. unfold conv. destruct (signed t); [apply sw_of_uw_small; [destruct t; done|done]|by rewrite !uw_small by (rewrite ?uw_small; done)].
Qed.

Lemma read_bytes_ok s rest : len s < 2 ^ 31 -> read_bytes ((WriteVarint32 (uw 32 (len s)) ++ s) ++ rest) = Some (s, rest).
Proof.
  intros Hs. pose proof (len_nonneg s). unfold read_bytes. rewrite <- app_assoc, read_varint32 by (apply uw_range; lia). rewrite uw_small by (unfold u_ok; lia).
  rewrite int_size by done. destruct (Z.ltb_spec 0 (len s)) as [_|Hz]; [by apply read_raw|by rewrite (empty_bytes s Hz)].
Qed.

(** The date and the time of a serialized date-time. *)
Lemma datetime_parts dt : RawDateTime_ok dt -> normal dt -> exists d t, serialize dt = d ++ t /\ len d = 4 /\
  if m_hasTimePart (word_date (le_load d)) then len t = 6 /\ forall (E : Type) old rest, @RawDateTime.deserialize E old (d ++ t ++ rest) 10 = Ok (dt, 10)
  else t = [] /\ dt = {| m_timePart := word_time 0; m_datePart := word_date (le_load d) |}.
Proof.
  intros Hok Hn. assert (Hlen : len (serialize dt) = 4 \/ len (serialize dt) = 10). { rewrite serialize_len. unfold RawDateTime.getSerializedSize. destruct (m_hasTimePart _); [by right|by left]. }
  destruct (split_at (serialize dt) 4) as (d & t & Hs & Hd); [lia|]. exists d, t. split; [done|]. split; [done|].
  assert (Hdes : forall E old rest, @RawDateTime.deserialize E old (serialize dt ++ rest) (len (serialize dt ++ rest)) = Ok (dt, len (serialize dt))).
  { intros E old rest. rewrite (deserialize_canonical dt old rest Hok). by rewrite (canonical_normal _ Hn). }
  assert (Ht : len (serialize dt) = 4 + len t) by (rewrite Hs, len_app; lia). destruct (m_hasTimePart (word_date (le_load d))) eqn:Hf.
  - assert (Hten : len (serialize dt) = 10).
    { destruct Hlen as [H4|]; [|done]. specialize (Hdes unit dt []). rewrite app_nil_r, H4, Hs in Hdes. destruct t; [|rewrite len_cons in Ht; pose proof (len_nonneg t); lia].
      unfold RawDateTime.deserialize in Hdes. cbn [Z.ltb] in Hdes. rewrite memrd_head in Hdes by lia. cbn [bind] in Hdes. rewrite Hf in Hdes. done. }
    split; [lia|]. intros E old rest. specialize (Hdes E old rest). rewrite Hten in Hdes. rewrite app_assoc, <- Hs. rewrite <- Hdes.
    unfold RawDateTime.deserialize. rewrite len_app, Hten. pose proof (len_nonneg rest). rewrite !(proj2 (Z.ltb_ge _ 4)), !(proj2 (Z.ltb_ge _ 10)) by lia. done.
  - specialize (Hdes unit dt []). unfold RawDateTime.deserialize in Hdes. rewrite (proj2 (Z.ltb_ge _ 4)) in Hdes by (rewrite app_nil_r; lia).
    rewrite app_nil_r, Hs, memrd_head in Hdes by lia. cbn [bind] in Hdes. rewrite Hf in Hdes. cbn [negb] in Hdes. injection Hdes as Hdt Hl. rewrite <- Hs in Hl. split; [|done].
    destruct t; [done|]. rewrite len_cons in Ht. pose proof (len_nonneg t). lia.
Qed.

Lemma read_datetime_ok fresh dt rest : RawDateTime_ok dt -> normal dt -> readRawDateTime fresh (serialize dt ++ rest) = Ok (Some (dt, rest)).
Proof.
  intros Hok Hn. destruct (datetime_parts dt Hok Hn) as (d & t & -> & Hd & H). unfold readRawDateTime. rewrite <- app_assoc, <- Hd, read_raw by lia. unfold deserializeDatePart.
  rewrite <- (app_nil_r d) at 1. rewrite memrd_head by lia. cbn [bind]. destruct (m_hasTimePart (word_date (le_load d))) eqn:Hf; cbn [bind m_datePart]; rewrite Hf.
  - destruct H as [Ht H]. rewrite <- Ht, read_raw by lia. specialize (H RowError {| m_timePart := m_timePart fresh; m_datePart := word_date (le_load d) |} []). rewrite app_nil_r in H. by rewrite H.
  - destruct H as [-> ->]. done.
Qed.

Lemma read_value_ok fresh i t v rest bs : wire_ok v -> sent_as t v -> written v bs -> read_value fresh i t (bs ++ rest) = Ok (Some (wire v, rest)).
Proof.
  intros [Hv Hw] [Hnn Ht] [Hbs _]. destruct v as [|b|[u z|f x]|dt|s|s|l|l]; cbn [writeVariant wire getValueType Variant_ok cnum_ok] in *; [done|..].
  - injection Hbs as <-. destruct t; try done. cbn [read_value]. rewrite raw_byte_ok. by destruct b.
  - destruct u; cbn in Ht; destruct t; try done; cbn [read_value]; unfold read_num; apply Ok_inj in Hbs as <-.
    + rewrite raw_byte_ok. cbn [got]. by rewrite (conv_uw I8 z Hv : conv I8 (uw 8 z) = z).
    + rewrite raw_byte_ok. cbn [got]. by rewrite (conv_uw U8 z Hv : conv U8 (uw 8 z) = z).
    + rewrite (raw_word_ok 2 z rest ltac:(lia) : raw_word 2 _ = _). cbn [got]. by rewrite (conv_word I16 2 z Hv eq_refl).
    + rewrite (raw_word_ok 2 z rest ltac:(lia) : raw_word 2 _ = _). cbn [got]. by rewrite (conv_word U16 2 z Hv eq_refl).
    + rewrite read_varint32 by (apply uw_range; lia). cbn [got]. by rewrite (conv_uw I32 z Hv : conv I32 (uw 32 z) = z).
    + rewrite read_varint32 by (apply uw_range; lia). cbn [got]. by rewrite (conv_uw U32 z Hv : conv U32 (uw 32 z) = z).
    + rewrite read_varint64 by (apply uw_range; lia). cbn [got]. by rewrite (conv_uw I64 z Hv : conv I64 (uw 64 z) = z).
    + rewrite read_varint64 by (apply uw_range; lia). cbn [got]. by rewrite (conv_uw U64 z Hv : conv U64 (uw 64 z) = z).
  - destruct (float_bits_roundtrip f x Hv) as [Hb Hx]. destruct f; cbn in Ht; destruct t; try done; cbn [read_value]; injection Hbs as <-.
    + rewrite read_little32 by done. cbn [got]. by rewrite Hx.
    + rewrite read_little64 by done. cbn [got]. by rewrite Hx.
  - injection Hbs as <-. cbn in Ht; destruct t; try done. cbn [read_value]. by rewrite read_datetime_ok.
  - rewrite write_bytes_ok in Hbs by done. injection Hbs as <-. cbn in Ht; destruct t; try done. cbn [read_value]. by rewrite read_bytes_ok.
  - rewrite write_bytes_ok in Hbs by done. injection Hbs as <-. cbn in Ht; destruct t; try done. cbn [read_value]. by rewrite read_bytes_ok.
  - destruct Hv as [Hl _]. rewrite write_lob_ok in Hbs by done. injection Hbs as <-. cbn in Ht; destruct t; try done. cbn [read_value]. destruct (lob_size l Hl) as (_ & _ & E3).
    rewrite E3, read_bytes_ok by done. done.
  - destruct Hv as [Hl _]. rewrite write_lob_ok in Hbs by done. injection Hbs as <-. cbn in Ht; destruct t; try done. cbn [read_value]. destruct (lob_size l Hl) as (_ & _ & E3).
    rewrite E3, read_bytes_ok by done. done.
Qed.

(** ** Reading a value from a buffer *)

(** The decoder of integers rejects a short buffer that ends with a byte from 128. *)
Definition ends_low (l : list Z) : Prop := List.last l 0 < 128.

Lemma buffer_varint_ok w i t v rest : u_ok (bits w) v -> bytes_ok rest -> ends_low (encodeVarInt false w v ++ rest) ->
  buffer_varint w i t (encodeVarInt false w v ++ rest) = Ok (v, rest).
Proof.
  intros Hv Hr Hl. unfold buffer_varint. rewrite decodeVarUInt_roundtrip by (try done; right; by right). by rewrite skipn_len_app'.
Qed.

Lemma buffer_word_ok n i t z rest : buffer_word (Z.of_nat n) i t (le_store n z ++ rest) = Ok (z mod 2 ^ (8 * Z.of_nat n), rest).
Proof.
  unfold buffer_word. pose proof (len_nonneg rest). rewrite len_app, len_le_store, (proj2 (Z.ltb_ge _ _)) by lia. rewrite memrd_le_store. cbn [bind]. rewrite le_load_store.
  by rewrite skipn_len_app' by (by rewrite len_le_store).
Qed.

Lemma buffer_byte_ok i t b rest : buffer_word 1 i t ([b] ++ rest) = Ok (b, rest).
Proof.
  unfold buffer_word. pose proof (len_nonneg rest). rewrite len_app, (proj2 (Z.ltb_ge _ _)) by (change (len [b]) with 1; lia). rewrite memrd_head by done. cbn [bind le_load]. by rewrite Z.mul_0_r, Z.add_0_r.
Qed.

Lemma buffer_bytes_ok i t s rest : len s < 2 ^ 31 -> bytes_ok s -> bytes_ok rest -> ends_low ((WriteVarint32 (uw 32 (len s)) ++ s) ++ rest) ->
  buffer_bytes i t ((WriteVarint32 (uw 32 (len s)) ++ s) ++ rest) = Ok (s, rest).
Proof.
  intros Hs Hb Hr Hl. pose proof (len_nonneg s). pose proof (len_nonneg rest). unfold buffer_bytes. rewrite write32 in *. rewrite <- app_assoc in *.
  rewrite buffer_varint_ok by (first [done|by apply Forall_app|apply uw_range; cbn; lia]). cbn [bind]. rewrite uw_small by (unfold u_ok; lia).
  destruct (Z.eqb_spec (len s) 0) as [Hz|Hz]; [by rewrite (empty_bytes s) by lia|].
  rewrite len_app, Z.gtb_ltb, (proj2 (Z.ltb_ge _ _)) by lia. rewrite memrd_head by done. cbn [bind]. by rewrite skipn_len_app'.
Qed.

Lemma buffer_datetime_ok fresh i t dt rest : RawDateTime_ok dt -> normal dt -> buffer_datetime fresh i t (serialize dt ++ rest) = Ok (dt, rest).
Proof.
  intros Hok Hn. destruct (datetime_parts dt Hok Hn) as (d & u & -> & Hd & H). pose proof (len_nonneg rest). pose proof (len_nonneg u). unfold buffer_datetime. rewrite <- app_assoc, !len_app, (proj2 (Z.ltb_ge _ 4)) by lia.
  unfold deserializeDatePart. rewrite memrd_head by lia. cbn [bind]. destruct (m_hasTimePart (word_date (le_load d))) eqn:Hf; cbn [bind m_datePart]; rewrite Hf.
  - destruct H as [Hu H]. rewrite (proj2 (Z.ltb_ge _ 6)) by lia. rewrite H. cbn [bind]. rewrite app_assoc. change 10%nat with (Z.to_nat 10). by rewrite (skipn_len_app' (d ++ u) rest 10) by (rewrite len_app; lia).
  - destruct H as [-> ->]. cbn [app]. change 4%nat with (Z.to_nat 4). by rewrite (skipn_len_app' d rest 4).
Qed.

Lemma buffer_value_ok fresh i t v rest bs : wire_ok v -> sent_as t v -> written v bs -> bytes_ok rest -> ends_low (bs ++ rest) -> buffer_value fresh i t (bs ++ rest) = Ok (wire v, rest).
Proof.
  intros [Hv Hw] [Hnn Ht] [Hbs _] Hr Hl. destruct v as [|b|[u z|f x]|dt|s|s|l|l]; cbn [writeVariant wire getValueType Variant_ok cnum_ok] in *; [done|..].
  - apply Ok_inj in Hbs as <-. destruct t; try done. cbn [buffer_value]. rewrite buffer_byte_ok. by destruct b.
  - destruct u; cbn in Ht; destruct t; try done; cbn [buffer_value]; unfold buffer_num; apply Ok_inj in Hbs as <-; rewrite ?write32, ?write64 in *.
    + rewrite buffer_byte_ok. cbn [bind]. by rewrite (conv_uw I8 z Hv : conv I8 (uw 8 z) = z).
    + rewrite buffer_byte_ok. cbn [bind]. by rewrite (conv_uw U8 z Hv : conv U8 (uw 8 z) = z).
    + rewrite (buffer_word_ok 2 _ _ z rest : buffer_word 2 _ _ _ = _). cbn [bind]. by rewrite (conv_word I16 2 z Hv eq_refl).
    + rewrite (buffer_word_ok 2 _ _ z rest : buffer_word 2 _ _ _ = _). cbn [bind]. by rewrite (conv_word U16 2 z Hv eq_refl).
    + rewrite buffer_varint_ok by (first [done|apply uw_range; cbn; lia]). cbn [bind]. by rewrite (conv_uw I32 z Hv : conv I32 (uw 32 z) = z).
    + rewrite buffer_varint_ok by (first [done|apply uw_range; cbn; lia]). cbn [bind]. by rewrite (conv_uw U32 z Hv : conv U32 (uw 32 z) = z).
    + rewrite buffer_varint_ok by (first [done|apply uw_range; cbn; lia]). cbn [bind]. by rewrite (conv_uw I64 z Hv : conv I64 (uw 64 z) = z).
    + rewrite buffer_varint_ok by (first [done|apply uw_range; cbn; lia]). cbn [bind]. by rewrite (conv_uw U64 z Hv : conv U64 (uw 64 z) = z).
  - destruct (float_bits_roundtrip f x Hv) as [Hb Hx]. destruct f; cbn in Ht; destruct t; try done; cbn [buffer_value]; apply Ok_inj in Hbs as <-; rewrite ?write_little32, ?write_little64 in *.
    + rewrite (buffer_word_ok 4 _ _ _ rest : buffer_word 4 _ _ _ = _). cbn [bind]. rewrite Z.mod_small by (exact Hb). by rewrite Hx.
    + rewrite (buffer_word_ok 8 _ _ _ rest : buffer_word 8 _ _ _ = _). cbn [bind]. rewrite Z.mod_small by (exact Hb). by rewrite Hx.
  - apply Ok_inj in Hbs as <-. cbn in Ht; destruct t; try done. cbn [buffer_value]. by rewrite buffer_datetime_ok.
  - destruct Hv as [Hb _]. rewrite write_bytes_ok in Hbs by done. apply Ok_inj in Hbs as <-. cbn in Ht; destruct t; try done. cbn [buffer_value]. by rewrite buffer_bytes_ok.
  - destruct Hv as [Hb _]. rewrite write_bytes_ok in Hbs by done. apply Ok_inj in Hbs as <-. cbn in Ht; destruct t; try done. cbn [buffer_value]. by rewrite buffer_bytes_ok.
  - destruct Hv as [Hm Hb]. rewrite write_lob_ok in Hbs by done. apply Ok_inj in Hbs as <-. cbn in Ht; destruct t; try done. cbn [buffer_value]. destruct (lob_size l Hm) as (_ & _ & E3).
    rewrite E3 in Hl |- *. rewrite buffer_bytes_ok by (done || apply Hm). done.
  - destruct Hv as [Hm Hb]. rewrite write_lob_ok in Hbs by done. apply Ok_inj in Hbs as <-. cbn in Ht; destruct t; try done. cbn [buffer_value]. destruct (lob_size l Hm) as (_ & _ & E3).
    rewrite E3 in Hl |- *. rewrite buffer_bytes_ok by (done || apply Hm). done.
Qed.

(** ** Rows *)

(** The values of a row and their mask fit the types of the columns. *)
Definition value_sent (t : ColumnDataType) (v : Variant) : Prop := known_type t = true /\ wire_ok v /\ (v = VNull \/ sent_as t v).
Definition null_bit (mask : option bitmask) (index : nat) : bool := match mask with Some m => bit_at index m | None => false end.
Definition mask_says (mask : option bitmask) (index : nat) (values : list Variant) : Prop := forall j v, values !! j = Some v -> null_bit mask (index + j) = isNull v.

Lemma mask_says_cons mask index v values : mask_says mask index (v :: values) -> null_bit mask index = isNull v /\ mask_says mask (S index) values.
Proof. intros H. split; [rewrite <- (Nat.add_0_r index); exact (H 0%nat v eq_refl)|]. intros j w Hw. rewrite Nat.add_succ_comm. exact (H (S j) w Hw). Qed.

Definition sizes (values : list Variant) : Z := fold_right (fun v n => getVariantSerializedSize v + n) 0 values.

Lemma write_variants_ok values : Forall wire_ok values -> exists bs, write_variants values = Ok bs /\ len bs = sizes values /\ bytes_ok bs.
Proof.
  induction 1 as [|v values Hv H (bs & E & Hl & Hb)]; [exists []; split; [done|]; split; [done|constructor]|]. destruct (write_variant_ok v Hv) as (b & Eb & Hlb & Hbb & _).
  exists (b ++ bs). cbn [write_variants sizes fold_right]. rewrite Eb, E. split; [done|]. split; [rewrite len_app; fold (sizes values); lia|by apply Forall_app].
Qed.

Lemma sent_not_null t v : value_sent t v -> isNull v = false -> wire_ok v /\ sent_as t v.
Proof. intros (_ & Hw & [->|Hs]) Hn; [done|by split]. Qed.
Lemma is_null v : isNull v = true -> v = VNull.
Proof. destruct v as [| |[[] ?|[] ?]| | | | |]; done. Qed.

Lemma decode_columns_ok fresh mask types values : Forall2 value_sent types values -> forall index bs rest, mask_says mask index values -> write_variants values = Ok bs ->
  decode_columns fresh mask index types (bs ++ rest) = Ok (wire <$> values, rest).
Proof.
  induction 1 as [|t v types values Hv H IH]; intros index bs rest Hm Hw; cbn [write_variants decode_columns] in *; [by apply Ok_inj in Hw as <-|].
  apply bind_Ok in Hw as (b & Hb & (bs' & Hbs & <-%Ok_inj)%bind_Ok). apply mask_says_cons in Hm as [Hm1 Hm]. pose proof Hv as (-> & _). cbn [negb]. unfold null_bit in Hm1. rewrite Hm1.
  destruct (isNull v) eqn:Hn.
  - apply is_null in Hn as ->. cbn in Hb. apply Ok_inj in Hb as <-. cbn [app]. by rewrite (IH _ _ _ Hm Hbs).
  - destruct (sent_not_null t v Hv Hn) as [Hok Hs]. destruct (write_variant_ok v Hok) as (b' & Hw'). pose proof Hw' as [Hb' _]. rewrite Hb in Hb'. apply Ok_inj in Hb' as <-.
    rewrite <- app_assoc, (read_value_ok fresh index t v _ b Hok Hs Hw'). cbn [bind]. by rewrite (IH _ _ _ Hm Hbs).
Qed.

Lemma ends_low_app a b : ends_low (a ++ b) -> b = [] \/ ends_low b.
Proof. intros H. destruct b as [|x b]; [by left|right]. unfold ends_low in *. by rewrite last_app_ne in H. Qed.

Lemma buffer_columns_ok fresh mask types values : Forall2 value_sent types values -> forall index bs more, mask_says mask index values -> write_variants values = Ok bs ->
  bytes_ok more -> (bs ++ more = [] \/ ends_low (bs ++ more)) -> buffer_columns fresh mask index (length types) types (bs ++ more) = Ok (wire <$> values).
Proof.
  induction 1 as [|t v types values Hv H IH]; intros index bs more Hm Hw Hmore Hl; cbn [write_variants buffer_columns length] in *; [done|].
  apply bind_Ok in Hw as (b & Hb & (bs' & Hbs & <-%Ok_inj)%bind_Ok). apply mask_says_cons in Hm as [Hm1 Hm]. pose proof Hv as (-> & _). cbn [negb]. unfold null_bit in Hm1. rewrite Hm1.
  destruct (isNull v) eqn:Hn.
  - apply is_null in Hn as ->. cbn in Hb. apply Ok_inj in Hb as <-. cbn [app] in *. by rewrite (IH _ _ _ Hm Hbs Hmore Hl).
  - destruct (sent_not_null t v Hv Hn) as [Hok Hs]. destruct (write_variant_ok v Hok) as (b' & Hw'). pose proof Hw' as (Hb' & _ & _ & Hpos). rewrite Hb in Hb'. apply Ok_inj in Hb' as <-.
    assert (Hlow : ends_low ((b ++ bs') ++ more)). { destruct Hl as [Hl|]; [|done]. apply app_nil in Hl as [[-> _]%app_nil _]. assert (v <> VNull) by (by intros ->). by specialize (Hpos H0). }
    rewrite <- app_assoc in *. destruct (write_variants_ok values) as (bs2 & E2 & _ & Hb2). { clear -H. induction H as [|? ? ? ? (_ & ? & _)]; by constructor. }
    rewrite Hbs in E2. apply Ok_inj in E2 as <-. rewrite (buffer_value_ok fresh index t v _ b Hok Hs Hw') by (first [done|by apply Forall_app]). cbn [bind].
    rewrite (IH _ _ _ Hm Hbs Hmore); [done|]. by apply ends_low_app in Hlow.
Qed.

Lemma buffer_columns_take fresh mask k : forall types index buffer, (k <= length types)%nat ->
  buffer_columns fresh mask index k types buffer = buffer_columns fresh mask index (length (take k types)) (take k types) buffer.
Proof.
  induction k as [|k IH]; intros [|t types] index buffer Hk; cbn [length take buffer_columns] in *; [done|done|lia|].
  destruct (negb _); [done|]. destruct (match mask with Some _ => _ | None => _ end); [rewrite IH by lia; done|].
  destruct (buffer_value _ _ _ _) as [[v b]| |]; cbn [bind]; [|done..]. rewrite IH by lia. done.
Qed.

Lemma sizes_nonneg values : Forall wire_ok values -> 0 <= sizes values.
Proof. intros H. destruct (write_variants_ok values H) as (bs & _ & <- & _). apply len_nonneg. Qed.

Lemma row_length values mask : Forall wire_ok values -> sizes values + len mask < 2 ^ 64 -> rowLength values mask = sizes values + len mask.
Proof.
  intros Hw Hs. pose proof (sizes_nonneg values Hw). pose proof (len_nonneg mask). unfold rowLength.
  assert (E : forall a, 0 <= a -> a + sizes values < 2 ^ 64 -> fold_left (fun left right => uw 64 (left + getVariantSerializedSize right)) values a = a + sizes values).
  { clear -CL Hw. induction Hw as [|v values Hv Hw IH]; intros a Ha Hlt; cbn [fold_left sizes fold_right] in *; [lia|]. fold (sizes values) in *. pose proof (sizes_nonneg values Hw).
    destruct (write_variant_ok v Hv) as (bs & _ & Hl & _). pose proof (len_nonneg bs). rewrite uw_small by (unfold u_ok; lia). rewrite IH by lia. lia. }
  rewrite E by lia. rewrite Z.add_0_l. apply uw_small. unfold u_ok. lia.
Qed.

(** The rows of a rowset: each value is null or of the type of its column, the mask
    says which ones are null; without a mask there are none. *)
Record row_sent (types : list ColumnDataType) (nullable : bool) (values : list Variant) (mask : bitmask) : Prop := {
  rs_columns : types <> [];
  rs_values : Forall2 value_sent types values;
  rs_mask : if nullable then length mask = required_size (length types) /\ mask_says (Some mask) 0 values else mask = [] /\ Forall (fun v => isNull v = false) values;
  rs_mask_size : len mask < 2 ^ 31;
  rs_size : sizes values + len mask < 2 ^ 63
}.

Definition row_mask (nullable : bool) (mask : bitmask) : option bitmask := if nullable then Some mask else None.

Lemma row_mask_says types nullable values mask : row_sent types nullable values mask -> mask_says (row_mask nullable mask) 0 values.
Proof. intros [_ _ H _ _]. destruct nullable; [apply H|]. destruct H as [_ H]. intros j v Hj. cbn. by rewrite (Forall_lookup_1 _ _ _ _ H Hj). Qed.

Lemma sent_wire_ok types values : Forall2 value_sent types values -> Forall wire_ok values.
Proof. induction 1 as [|? ? ? ? (_ & ? & _)]; by constructor. Qed.

(** A row and its length. *)
Lemma write_row_ok types nullable values mask : row_sent types nullable values mask ->
  exists bs, write_variants values = Ok bs /\ bytes_ok bs /\ writeRow values mask = Ok (WriteVarint64 (len (mask ++ bs)) ++ mask ++ bs) /\ 0 < len (mask ++ bs) < 2 ^ 63.
Proof.
  intros Hrow. pose proof Hrow as [Hne Hv Hm Hms Hs]. pose proof (sent_wire_ok _ _ Hv) as Hw. destruct (write_variants_ok values Hw) as (bs & E & Hl & Hb). exists bs. split; [done|]. split; [done|].
  unfold writeRow. rewrite E, int_size, write_raw by done. assert (Hmask : (if len mask =? 0 then [] else mask) = mask) by (destruct (Z.eqb_spec (len mask) 0); [by rewrite (empty_bytes mask) by lia|done]).
  rewrite Hmask. cbn [bind]. rewrite row_length by (first [done|lia]). rewrite len_app, Hl. split; [by rewrite Z.add_comm|]. split; [|lia]. pose proof (len_nonneg mask). pose proof (len_nonneg bs).
  destruct Hv as [|t v types values Hv Hvs]; [done|]. destruct nullable.
  - destruct Hm as [Hm _]. unfold len in *. rewrite Hm. pose proof (required_size_le (length (t :: types))). cbn [length] in *. lia.
  - destruct Hm as [-> Hn]. apply Forall_cons in Hn as [Hn _]. destruct (sent_not_null t v Hv Hn) as [Hok [Hnn _]]. destruct (write_variant_ok v Hok) as (b & _ & Hlb & _ & Hp). specialize (Hp Hnn).
    apply Forall_cons in Hw as [_ Hw]. cbn [sizes fold_right] in *. fold (sizes values) in *. pose proof (sizes_nonneg values Hw). lia.
Qed.

Lemma decode_row_ok fresh types nullable values mask bs rest : row_sent types nullable values mask -> write_variants values = Ok bs -> 0 < len (mask ++ bs) < 2 ^ 63 ->
  decodeRow_stream fresh types nullable ((WriteVarint64 (len (mask ++ bs)) ++ mask ++ bs) ++ rest) = Ok (wire <$> values, rest).
Proof.
  intros Hrow Hw Hlen. unfold decodeRow_stream. rewrite <- app_assoc, read_varint64 by (unfold u_ok; lia). rewrite (proj2 (Z.eqb_neq _ 0)) by lia. rewrite <- app_assoc.
  pose proof (row_mask_says _ _ _ _ Hrow) as Hm. destruct Hrow as [_ Hv Hmask Hms _]. destruct nullable.
  - destruct Hmask as [Hl _]. rewrite <- Hl. change (Z.of_nat (length mask)) with (len mask). rewrite int_size, read_raw by done. by apply decode_columns_ok.
  - destruct Hmask as [-> _]. cbn [app]. by apply decode_columns_ok.
Qed.

Lemma write_variants_take k values bs : write_variants values = Ok bs -> exists b1 b2, bs = b1 ++ b2 /\ write_variants (take k values) = Ok b1 /\ write_variants (drop k values) = Ok b2.
Proof.
  revert k bs. induction values as [|v values IH]; intros [|k] bs Hw; cbn [write_variants take drop] in *.
  - exists [], bs. done.
  - apply Ok_inj in Hw as <-. by exists [], [].
  - by exists [], bs.
  - apply bind_Ok in Hw as (b & -> & (bs' & Hbs & <-%Ok_inj)%bind_Ok). destruct (IH k bs' Hbs) as (b1 & b2 & -> & -> & ->). exists (b ++ b1), b2. by rewrite app_assoc.
Qed.

Lemma decode_buffer_ok fresh types nullable values mask bs k : row_sent types nullable values mask -> write_variants values = Ok bs -> ends_low (mask ++ bs) -> (k <= length types)%nat ->
  decodeRow fresh (mask ++ bs) k types nullable = Ok (wire <$> take k values).
Proof.
  intros Hrow Hw Hlow Hle. pose proof (row_mask_says _ _ _ _ Hrow) as Hm. destruct Hrow as [_ Hv Hmask _ _]. destruct (write_variants_take k values bs Hw) as (b1 & b2 & -> & H1 & H2).
  assert (Hk : Forall2 value_sent (take k types) (take k values)) by (by apply Forall2_take).
  assert (Hmk : mask_says (row_mask nullable mask) 0 (take k values)). { intros j v Hj. apply Hm. by apply lookup_take_Some in Hj as [Hj _]. }
  assert (Hb2 : bytes_ok b2). { destruct (write_variants_ok (drop k values)) as (b & E & _ & Hb); [apply (sent_wire_ok (drop k types)); by apply Forall2_drop|]. rewrite H2 in E. by apply Ok_inj in E as <-. }
  apply ends_low_app in Hlow. unfold decodeRow. destruct nullable.
  - destruct Hmask as [Hl _]. rewrite <- Hl. rewrite len_app. pose proof (len_nonneg (b1 ++ b2)). change (Z.of_nat (length mask)) with (len mask). rewrite (proj2 (Z.ltb_ge _ _)) by lia.
    rewrite memrd_head by done. cbn [bind]. rewrite <- (Nat2Z.id (length mask)), (skipn_len_app' mask (b1 ++ b2)) by done. rewrite buffer_columns_take by done. by apply buffer_columns_ok.
  - destruct Hmask as [-> _]. cbn [app]. rewrite buffer_columns_take by done. by apply buffer_columns_ok.
Qed.

(** C14: a row that the server writes arrives at the client as it is, LOBs as strings
    and binary values: the announced length is the number of bytes that follow and
    is never the mark of the end of the rows, reading the row from the stream gives
    the values and leaves what follows the row, and reading the first columns from
    the bytes of the row gives the first values, if the last byte is below 128.  The
    values have the types of the columns and are shorter than 2 GiB, and their
    date-times are not midnight with a flag for a time part ([row_sent]; the length
    of such a row is announced wrongly, see [midnight_row]). *)
Theorem row_roundtrip fresh types nullable values mask rest : row_sent types nullable values mask ->
  exists body, writeRow values mask = Ok (WriteVarint64 (len body) ++ body) /\ 0 < len body /\
    decodeRow_stream fresh types nullable ((WriteVarint64 (len body) ++ body) ++ rest) = Ok (wire <$> values, rest) /\
    (ends_low body -> forall k, (k <= length types)%nat -> decodeRow fresh body k types nullable = Ok (wire <$> take k values)).
Proof.
  intros Hrow. destruct (write_row_ok _ _ _ _ Hrow) as (bs & Hw & _ & Hwr & Hlen). exists (mask ++ bs). split; [done|]. split; [lia|].
  split; [by apply decode_row_ok|]. intros Hl k Hk. by apply (decode_buffer_ok fresh types nullable values mask bs k).
Qed.

(** ** The connection worker *)

Lemma forward_row_ok fuel : forall body rest, (length body <= fuel)%nat -> forward_row fuel (len body) (body ++ rest) = Ok (body, rest).
Proof.
  induction fuel as [|fuel IH]; intros body rest Hf; cbn [forward_row].
  - destruct body; [done|cbn in Hf; lia].
  - pose proof (len_nonneg body). pose proof (len_nonneg rest). destruct (Z.ltb_spec 0 (len body)) as [Hpos|Hz]; [|destruct body as [|x body]; [done|]; rewrite len_cons in Hz; pose proof (len_nonneg body); lia].
    pose proof (direct_buffer (body ++ rest)) as Hd. rewrite len_app in Hd. set (n := Z.min _ _).
    assert (Hn : 0 < n <= len body). { destruct body; [done|]. specialize (Hd ltac:(done)). unfold n. lia. }
    destruct (split_at body n) as (a & b & -> & Ha); [lia|]. rewrite <- app_assoc, firstn_len_app, skipn_len_app' by done.
    assert (Hlb : len (a ++ b) - n = len b) by (rewrite len_app; lia). rewrite Hlb, IH; [done|]. rewrite length_app in Hf. unfold len in Ha. lia.
Qed.

(** A rowset: the rows with their lengths, and its end. *)
Fixpoint rowset_bytes (bodies : list (list Z)) : list Z :=
  match bodies with [] => endRowset | body :: l => (WriteVarint64 (len body) ++ body) ++ rowset_bytes l end.
Definition body_ok (body : list Z) : Prop := 0 < len body < 2 ^ 63.

Lemma length_nine n : 0 <= n < 2 ^ 63 -> len (WriteVarint64 n) <= 9.
Proof.
  intros Hn. rewrite write_varint64 by (unfold u_ok; lia). rewrite encodeVarUInt_eq. rewrite (encode_loop_fuel 8); [pose proof (encode_loop_len 8 n); lia| |cbn; lia]. unfold fits. cbn. lia.
Qed.

Lemma forward_ok bodies rest : Forall body_ok bodies -> forwardRowData (S (length bodies)) (rowset_bytes bodies ++ rest) = Ok (rowset_bytes bodies, rest).
Proof.
  induction 1 as [|body bodies Hb H IH]; cbn [rowset_bytes length].
  - cbn [forwardRowData]. unfold endRowset. rewrite read_varint64 by done. pose proof (length_nine kNoMoreRows ltac:(done)). rewrite Z.gtb_ltb, (proj2 (Z.ltb_ge _ _)) by lia. done.
  - unfold body_ok in Hb. cbn [forwardRowData] in *. rewrite <- !app_assoc, read_varint64 by (unfold u_ok; lia). pose proof (length_nine (len body) ltac:(lia)).
    rewrite Z.gtb_ltb, (proj2 (Z.ltb_ge _ _)) by lia. rewrite (proj2 (Z.eqb_neq _ 0)) by lia. rewrite forward_row_ok by (unfold len; lia). cbn [bind].
    rewrite IH. cbn [bind]. by rewrite !app_assoc.
Qed.

(** ** A client that reads a rowset *)

Fixpoint read_rows (fuel : nat) (fresh : RawDateTime) (types : list ColumnDataType) (nullable : bool) (input : list Z) : outcome RowError (list (list Variant) * list Z) :=
  match fuel with
  | O => Undef NoProgress
  | S k =>
      '(row, input1) <- decodeRow_stream fresh types nullable input ;;
      match row with
      | [] => Ok ([], input1)
      | _ => '(rows, input2) <- read_rows k fresh types nullable input1 ;; Ok (row :: rows, input2)
      end
  end.

Definition row_event (r : list Variant * bitmask) : rowset_event := WriteRow (fst r) (snd r).
Definition client_row (r : list Variant * bitmask) : list Variant := wire <$> fst r.

Lemma rows_written types nullable (rows : list (list Variant * bitmask)) : Forall (fun r => row_sent types nullable (fst r) (snd r)) rows ->
  exists bodies, write_events ((row_event <$> rows) ++ [EndRowset]) = Ok (rowset_bytes bodies) /\ length bodies = length rows /\ Forall body_ok bodies /\
    forall fresh rest, read_rows (S (length rows)) fresh types nullable (rowset_bytes bodies ++ rest) = Ok (client_row <$> rows, rest).
Proof.
  induction 1 as [|[values mask] rows Hrow H (bodies & Hw & Hl & Hb & Hr)].
  - exists []. cbn [write_events app fmap list_fmap bind rowset_bytes]. rewrite app_nil_r. split; [done|]. split; [done|]. split; [constructor|]. intros fresh rest.
    cbn [read_rows length]. unfold decodeRow_stream, endRowset. by rewrite read_varint64.
  - cbn [fst snd] in Hrow. destruct (write_row_ok _ _ _ _ Hrow) as (bs & Hbs & _ & Hwr & Hlen). exists ((mask ++ bs) :: bodies). cbn [fmap list_fmap app row_event write_events fst snd].
    rewrite Hwr. cbn [bind].  rewrite Hw. cbn [bind]. split; [done|]. split; [cbn; by rewrite Hl|]. split; [by constructor|]. intros fresh rest. cbn [rowset_bytes length].
    rewrite <- app_assoc. cbn [read_rows]. rewrite (decode_row_ok fresh types nullable values mask bs _ Hrow Hbs Hlen). cbn [bind].
    assert (Hne : wire <$> values <> []). { destruct Hrow as [Hne Hv _ _ _]. destruct Hv; done. }
    specialize (Hr fresh rest). cbn [read_rows] in Hr |- *. destruct (wire <$> values) as [|w ws] eqn:Hws; [done|]. rewrite Hr. cbn [bind]. unfold client_row at 2. cbn [fst]. by rewrite Hws.
Qed.

(** C13: the rows of a rowset go through: the connection worker passes on exactly the
    bytes that the server wrote, up to the end of the rowset and not further,
    whatever pieces the stream delivers, and the client reads all rows, in their
    order, with the values that the server wrote.  The rows are such as in the
    theorem on one row: values of the types of the columns, shorter than 2 GiB, no
    date-time that is midnight with a flag for a time part ([row_sent]). *)
Theorem rowset_delivered types nullable (rows : list (list Variant * bitmask)) rest : Forall (fun r => row_sent types nullable (fst r) (snd r)) rows ->
  exists bytes, write_events ((row_event <$> rows) ++ [EndRowset]) = Ok bytes /\ forwardRowData (S (length rows)) (bytes ++ rest) = Ok (bytes, rest) /\
    forall fresh rest', read_rows (S (length rows)) fresh types nullable (bytes ++ rest') = Ok (client_row <$> rows, rest').
Proof.
  intros H. destruct (rows_written types nullable rows H) as (bodies & Hw & Hl & Hb & Hr). exists (rowset_bytes bodies). split; [done|]. split; [|done].
  rewrite <- Hl. by apply forward_ok.
Qed.
End Laws.

(** ** An instance, and examples *)

Module WireSample.
Definition read_group (n : nat) (w : Z) (l : list Z) : option (Z * list Z) :=
  match take_group n l with Some g => Some (uw w (varint_value g), skipn (length g) l) | None => None end.
Definition take_raw (n : Z) (l : list Z) : option (list Z * list Z) := if n <=? len l then Some (firstn (Z.to_nat n) l, skipn (Z.to_nat n) l) else None.

(** Streams as the documentation describes them; the input comes in pieces of up
    to three bytes. *)
#[export] Instance base128 : CodedStreams := {
  WriteVarint32 v := encodeVarInt false W32 v;
  WriteVarint64 v := encodeVarInt false W64 v;
  WriteLittleEndian32 v := le_store 4 v;
  WriteLittleEndian64 v := le_store 8 v;
  WriteRaw n l := firstn (Z.to_nat n) l;
  VarintSize32 v := len (encodeVarInt false W32 v);
  VarintSize64 v := len (encodeVarInt false W64 v);
  ReadVarint32 l := read_group 10 32 l;
  ReadVarint64 l := read_group 10 64 l;
  ReadLittleEndian32 l := got le_load (take_raw 4 l);
  ReadLittleEndian64 l := got le_load (take_raw 8 l);
  ReadRaw n l := take_raw n l;
  GetDirectBufferPointer l := Z.min 3 (len l)
}.

Lemma take_raw_ok bs rest : take_raw (len bs) (bs ++ rest) = Some (bs, rest).
Proof. unfold take_raw. pose proof (len_nonneg rest). rewrite len_app, (proj2 (Z.leb_le _ _)) by lia. by rewrite firstn_len_app, skipn_len_app'. Qed.

Lemma read_group_ok w v rest : u_ok (bits w) v -> read_group 10 (bits w) (encodeVarInt false w v ++ rest) = Some (v, rest).
Proof.
  intros Hv. unfold read_group. pose proof (fits_max_iter w v Hv) as Hf. rewrite encodeVarUInt_eq, take_group_encode by (first [done|destruct w; cbn; lia]).
  rewrite varint_value_encode, uw_small by done. do 2 f_equal. rewrite <- (Nat2Z.id (length _)). by apply skipn_len_app'.
Qed.

#[export] Instance base128_laws : CodedStreamsLaws base128.
Proof.
  split; try done.
  - intros v rest Hv. exact (read_group_ok W32 v rest Hv).
  - intros v rest Hv. exact (read_group_ok W64 v rest Hv).
  - intros v rest Hv. cbn [ReadLittleEndian32 WriteLittleEndian32 base128]. rewrite (take_raw_ok (le_store 4 v) rest : take_raw 4 _ = _). cbn [got]. rewrite le_load_store. by rewrite Z.mod_small.
  - intros v rest Hv. cbn [ReadLittleEndian64 WriteLittleEndian64 base128]. rewrite (take_raw_ok (le_store 8 v) rest : take_raw 8 _ = _). cbn [got]. rewrite le_load_store. by rewrite Z.mod_small.
  - intros bs _. cbn. unfold len. rewrite Nat2Z.id. apply firstn_all.
  - intros bs rest _. exact (take_raw_ok bs rest).
  - intros bs Hne. cbn. destruct bs as [|b bs]; [done|]. rewrite len_cons. pose proof (len_nonneg bs). lia.
Qed.

Definition fresh : RawDateTime := {| m_timePart := kZeroRawTime; m_datePart := mkRawDate 0 0 0 6 false |}.
Definition some_time : RawDateTime := {| m_timePart := mkRawTime 23 59 59 5; m_datePart := mkRawDate 2020 1 28 6 true |}.
Definition sample_types : list ColumnDataType := [COLUMN_DATA_TYPE_INT32; COLUMN_DATA_TYPE_TEXT; COLUMN_DATA_TYPE_DOUBLE; COLUMN_DATA_TYPE_TIMESTAMP; COLUMN_DATA_TYPE_BOOL].
Definition sample_values : list Variant := [VNum (CI I32 (-2)); VClob (newMemLob [97; 98]); VNull; VDateTime some_time; VBool true].

Lemma sample_sent : row_sent sample_types true sample_values [4].
Proof.
  split; [done| | |vm_compute; reflexivity|vm_compute; reflexivity].
  - unfold sample_types, sample_values, value_sent, sent_as, wire_ok.
    repeat (constructor; [split; [reflexivity|]; split; [split; [|try exact I]|first [left; reflexivity|right; split; [discriminate|reflexivity]]]|]); try constructor; try exact I; try reflexivity.
    + exact (newMemLob_ok [97; 98] ltac:(vm_compute; reflexivity)).
    + repeat constructor; vm_compute; discriminate.
    + repeat split; vm_compute; discriminate.
    + repeat split; vm_compute; discriminate.
  - split; [reflexivity|]. intros j v Hj. do 5 (destruct j as [|j]; [injection Hj as <-; vm_compute; reflexivity|]). discriminate Hj.
Qed.

Example sample_row : writeRow sample_values [4] =
  Ok [20; 4; 254; 255; 255; 255; 15; 2; 97; 98; 205; 131; 252; 0; 10; 0; 0; 128; 125; 191; 1].
Proof. vm_compute. reflexivity. Qed.

Lemma row_roundtrip_witness : exists body, writeRow sample_values [4] = Ok (WriteVarint64 (len body) ++ body) /\
  decodeRow_stream fresh sample_types true ((WriteVarint64 (len body) ++ body) ++ [7]) = Ok ([VNum (CI I32 (-2)); VString [97; 98]; VNull; VDateTime some_time; VBool true], [7]).
Proof. destruct (row_roundtrip fresh sample_types true sample_values [4] [7] sample_sent) as (body & Hw & _ & Hd & _). exists body. split; [exact Hw|exact Hd]. Defined.

Definition two_rows : list (list Variant * bitmask) := [(sample_values, [4]); (sample_values, [4])].
Lemma rowset_delivered_witness : exists bytes, write_events ((row_event <$> two_rows) ++ [EndRowset]) = Ok bytes /\ forwardRowData 3 (bytes ++ [9]) = Ok (bytes, [9]) /\
  exists rows, read_rows 3 fresh sample_types true bytes = Ok (rows, []) /\ length rows = 2%nat.
Proof.
  destruct (rowset_delivered sample_types true two_rows [9]) as (bytes & Hw & Hf & Hr); [constructor; [exact sample_sent|constructor; [exact sample_sent|constructor]]|].
  exists bytes. split; [exact Hw|]. split; [exact Hf|]. exists (client_row <$> two_rows). split; [|reflexivity]. specialize (Hr fresh []). rewrite app_nil_r in Hr. exact Hr.
Defined.

(** A date-time that has a time part at midnight is written without it, but counted
    with it: the connection worker waits for bytes that never come. *)
Definition midnight : RawDateTime := {| m_timePart := kZeroRawTime; m_datePart := mkRawDate 2020 1 28 6 true |}.
Example midnight_row : exists bytes, write_events [WriteRow [VDateTime midnight] []; EndRowset] = Ok bytes /\ len bytes = 6 /\ hd 0 bytes = 10 /\ forwardRowData 10 bytes = Undef NoProgress.
Proof. eexists. split; [vm_compute; reflexivity|]. repeat split; vm_compute; reflexivity. Qed.

(** A column without a type, as in [SELECT NULL], is refused by the decoder although
    its value is null. *)
Example null_column : exists bytes, write_events [WriteRow [VNull] [1]; EndRowset] = Ok bytes /\
  decodeRow_stream fresh [COLUMN_DATA_TYPE_UNKNOWN] true bytes = Throw (InvalidRowDataType 0 COLUMN_DATA_TYPE_UNKNOWN).
Proof. eexists. split; [vm_compute; reflexivity|]. vm_compute. reflexivity. Qed.
End WireSample.
