(* ===== verification/SelectWire.v ===== *)
(** * From a SELECT to its client

    Composes [SelectCorrect] and [RowCodec]: the columns that a response announces
    describe the values of its rows, so that the rows that SELECT selects arrive at
    the client. *)

From stdpp Require Import base list gmap.
Set Warnings "-clear-no-such-hyp,-notation-incompatible-prefix,-notation-for-abbreviation".
From Stdlib Require Import ZArith Lia.
From S2P Require Import Prelude VarInt PlainBinary StateM Bytes CNum VariantType Lob Variant VariantCmp VariantConv ColumnType Expr ExprEval ExprTyping MasterColumn Table Users DataSet DataSetSpec MemScan Query QuerySpec Select SelectSpec SelectCorrect RowCodec.

Local Open Scope Z_scope.

(** ** Contexts with more columns *)

Section Monotone.
Context (c1 c2 : ExpressionEvaluationContext).
Hypothesis more : forall t c d, context_getColumnDataType c1 t c = Ok d -> context_getColumnDataType c2 t c = Ok d.

Lemma result_type_more e t : getResultValueType c1 e = Ok t -> getResultValueType c2 e = Ok t.
Proof.
  revert t. induction e as [v|t c i j|t i|l Hl|op a Ha|op a b Ha Hb|a b n Ha Hb|a b c n Ha Hb Hc|v l n Hx Hl|a b n Ha Hb|a b Ha Hb] using Expression_induction; intros ty; cbn [getResultValueType]; try done.
  - destruct (column_indices i j) as [[t' c']| |]; cbn [bind]; [|done..]. intros (d & Hd & H)%bind_Ok. by rewrite (more _ _ _ Hd).
  - induction Hl as [|x l Hx Hl IH]; [done|]. destruct l; [by apply Hx|apply IH].
  - intros (ta & Hta & H)%bind_Ok. by rewrite (Ha _ Hta).
  - destruct (ignores_operands op); [done|]. intros (ta & Hta & H)%bind_Ok. rewrite (Ha _ Hta). cbn [bind].
    assert (Hright : forall f, (r <- getResultValueType c1 b ;; Ok (f r)) = Ok ty -> (r <- getResultValueType c2 b ;; Ok (f r)) = Ok ty) by (intros f (tb & Htb & E)%bind_Ok; by rewrite (Hb _ Htb)).
    destruct op; try (by apply Hright). destruct (isNullType ta); [done|by apply Hright].
Qed.

Lemma column_type_more e d : getColumnDataType c1 e = Ok d -> getColumnDataType c2 e = Ok d.
Proof.
  revert d. induction e as [v|t c i j|t i|l Hl|op a Ha|op a b Ha Hb|a b n Ha Hb|a b c n Ha Hb Hc|v l n Hx Hl|a b n Ha Hb|a b Ha Hb] using Expression_induction; intros ty; cbn [getColumnDataType]; try done.
  - destruct (column_indices i j) as [[t' c']| |]; cbn [bind]; [|done..]. apply more.
  - induction Hl as [|x l Hx Hl IH]; [done|]. destruct l; [by apply Hx|apply IH].
  - intros (ta & Hta & H)%bind_Ok. by rewrite (Ha _ Hta).
  - destruct (ignores_operands op); [done|].
    assert (Hother : (l <- getColumnDataType c1 a ;; r <- getColumnDataType c1 b ;; Ok (column_binary op l r)) = Ok ty -> (l <- getColumnDataType c2 a ;; r <- getColumnDataType c2 b ;; Ok (column_binary op l r)) = Ok ty).
    { intros (ta & Hta & (tb & Htb & H)%bind_Ok)%bind_Ok. by rewrite (Ha _ Hta), (Hb _ Htb). }
    destruct op; try exact Hother. intros (ta & Hta & H)%bind_Ok. rewrite (result_type_more _ _ Hta). cbn [bind]. destruct (isNullType ta); [done|].
    apply bind_Ok in H as (tb & Htb & H). by rewrite (result_type_more _ _ Htb).
Qed.
End Monotone.

(** ** What a response announces *)

Section Announce.
Context {T : Type} {ST : ScanTable T} {SL : ScanTableLaws T} {X : Externals}.
Notation data_set := (TableDataSet T).

Lemma context_more (l l' : list data_set) t c d : Forall2 wider l l' -> context_getColumnDataType (DBExpressionEvaluationContext l) t c = Ok d ->
  context_getColumnDataType (DBExpressionEvaluationContext l') t c = Ok d.
Proof.
  intros Hw. cbn. destruct (l !! Z.to_nat t) as [x|] eqn:Hx; [|done]. destruct (Forall2_lookup_l _ _ _ _ _ Hw Hx) as (x' & -> & (_ & Ht & infos & Hi)). cbn [base.mbind option_bind].
  unfold ds_getColumnDataType. rewrite Ht, Hi. destruct (m_columnInfos x !! Z.to_nat c) as [info|] eqn:Hinfo; [|done]. by rewrite (lookup_app_l_Some _ _ _ _ Hinfo).
Qed.

(** The column of its table that a column of a data set is. *)
Definition column_at (l : list data_set) (i j : nat) : option column_info :=
  d ← l !! i; info ← m_columnInfos d !! j; tbl_columns (ds_table d) !! m_posInTable info.
Definition columns_of (l : list data_set) (i : Z) : list column_info :=
  match l !! Z.to_nat i with Some d => tbl_columns (ds_table d) | None => [] end.

Definition of_column (c : column_info) (cd : ColumnDescription) : Prop := cd_isNullable cd = negb (col_notNull c) /\ cd_type cd = col_dataType c.

(** The descriptions for a result expression. *)
Definition announces (l : list data_set) (x : Expression) (cds : list ColumnDescription) : Prop :=
  match x with
  | SingleColumnExpression _ _ tables column =>
      exists i j c cd, tables = [Z.of_nat i] /\ column = Some (Z.of_nat j) /\ column_at l i j = Some c /\ cds = [cd] /\ of_column c cd
  | AllColumnsExpression _ indices => Forall2 of_column (concat (columns_of l <$> indices)) cds
  | x => exists cd, cds = [cd] /\ cd_isNullable cd = true /\ getColumnDataType (DBExpressionEvaluationContext l) x = Ok (cd_type cd)
  end.

Lemma columns_of_wider l l' i : Forall2 wider l l' -> columns_of l' i = columns_of l i.
Proof.
  intros Hw. unfold columns_of. destruct (l !! Z.to_nat i) as [d|] eqn:Hd.
  - by destruct (Forall2_lookup_l _ _ _ _ _ Hw Hd) as (d' & -> & (_ & -> & _)).
  - rewrite (proj2 (lookup_ge_None l' (Z.to_nat i))); [done|]. rewrite <- (Forall2_length _ _ _ Hw). by apply lookup_ge_None.
Qed.

Lemma announces_wider l l' x cds : Forall2 wider l l' -> announces l x cds -> announces l' x cds.
Proof.
  intros Hw. assert (Hcomputed : (exists cd, cds = [cd] /\ cd_isNullable cd = true /\ getColumnDataType (DBExpressionEvaluationContext l) x = Ok (cd_type cd)) ->
    exists cd, cds = [cd] /\ cd_isNullable cd = true /\ getColumnDataType (DBExpressionEvaluationContext l') x = Ok (cd_type cd)).
  { intros (cd & E & N & H). exists cd. split; [done|]. split; [done|]. eapply column_type_more; [|exact H]. intros t c d. by apply context_more. }
  destruct x; try exact Hcomputed; cbn [announces].
  - intros (i & j & c & cd & E1 & E2 & Hc & H). exists i, j, c, cd. split; [done|]. split; [done|]. split; [|done]. unfold column_at in *. destruct (l !! i) as [d|] eqn:Hd; [|done].
    destruct (Forall2_lookup_l _ _ _ _ _ Hw Hd) as (d' & -> & (_ & Ht & infos & Hi)). cbn [base.mbind option_bind] in *. rewrite Ht, Hi. destruct (m_columnInfos d !! j) as [info|] eqn:Hinfo; [|done].
    by rewrite (lookup_app_l_Some _ _ _ _ Hinfo).
  - intros H. erewrite list_fmap_ext; [exact H|]. intros _ i _. by apply columns_of_wider.
Qed.

(** A step adds descriptions. *)
Record response_step (s s1 : select_state (T := T)) (cds : list ColumnDescription) : Prop := {
  rp_response : ss_response s1 = ss_response s ++ cds;
  rp_nullable : ss_hasNullableColumns s1 = ss_hasNullableColumns s || existsb cd_isNullable cds;
  rp_count : ss_columnCount s1 = (ss_columnCount s + length cds)%nat
}.

Lemma step_refl s : response_step s s [].
Proof. split; cbn; [by rewrite app_nil_r|by rewrite orb_false_r|lia]. Qed.
Lemma step_trans s1 s2 s3 a b : response_step s1 s2 a -> response_step s2 s3 b -> response_step s1 s3 (a ++ b).
Proof. intros [A B C] [D E F]. split; [by rewrite D, A, app_assoc|by rewrite E, B, existsb_app, orb_assoc|rewrite F, C, length_app; lia]. Qed.
Lemma step_quiet s s1 s2 cds : response_step s s1 [] -> response_step s1 s2 cds -> response_step s s2 cds.
Proof. apply (step_trans _ _ _ []). Qed.
Lemma step_error e s : response_step s (ss_error e s) [].
Proof. split; cbn; [by rewrite app_nil_r|by rewrite orb_false_r|lia]. Qed.
Lemma step_error_if b e s : response_step s (ss_error_if b e s) [].
Proof. destruct b; [apply step_error|apply step_refl]. Qed.
Lemma step_alias name e s : response_step s (ss_alias name e s) [].
Proof. unfold ss_alias. case_bool_decide; [apply step_error|]. split; cbn; [by rewrite app_nil_r|by rewrite orb_false_r|lia]. Qed.

Definition describe (c : column_info) (alias : list Z) : ColumnDescription :=
  {| cd_name := match alias with [] => col_name c | _ => alias end; cd_isNullable := negb (col_notNull c); cd_type := col_dataType c |}.
Lemma step_column i p c alias s : response_step s (ss_column i p c alias s) [describe c alias].
Proof. split; cbn; [done|by rewrite orb_false_r|lia]. Qed.

Lemma add_columns_step i l : forall s, response_step s (add_columns i l s) ((fun pc => describe (snd pc) []) <$> l).
Proof. induction l as [|[p c] l IH]; intros s; [apply step_refl|]. apply (step_trans _ (ss_column i p c [] s) _ [_]); [apply step_column|apply IH]. Qed.

Lemma describe_columns (columns : list column_info) : Forall2 of_column columns ((fun pc => describe (snd pc) []) <$> imap pair columns).
Proof.
  apply Forall2_same_length_lookup_2; [by rewrite length_fmap, length_imap|]. intros k c cd Hc Hcd. rewrite list_lookup_fmap, list_lookup_imap, Hc in Hcd. by injection Hcd as <-.
Qed.

(** A result expression: the descriptions that it adds describe it, unless there is
    an error. *)
Definition described_step (s s1 : select_state (T := T)) (x : Expression) : Prop :=
  exists cds, response_step s s1 cds /\ (ss_errors s1 = [] -> announces (ss_dataSets s1) x cds).

Lemma described_error s s1 e x : response_step s s1 [] -> described_step s (ss_error e s1) x.
Proof. intros H. exists []. split; [by eapply step_quiet, step_error|]. by intros [_ ?]%app_nil. Qed.

Lemma resolve_column_described db t c alias tables column s :
  let '(x, s1) := resolve_column db t c alias tables column s in described_step s s1 x.
Proof.
  unfold resolve_column. cbv zeta. set (sa := ss_error_if _ _ s). set (sb := match t with [] => _ | _ => sa end). set (sc := match alias with [] => sb | _ => _ end).
  assert (Hq : response_step s sc []).
  { apply (step_quiet _ sa); [apply step_error_if|]. apply (step_quiet _ sb); [subst sb; destruct t; [apply step_alias|apply step_refl]|].
    subst sc. destruct alias; [apply step_refl|]. eapply step_quiet; [apply step_error_if|apply step_alias]. }
  destruct (match t with [] => Some 0%nat | _ => getDataSetIndex _ t end) as [i|]; [|by apply described_error].
  destruct (find_position c (table_columns i sc) 0) as [p|]; [|by apply described_error]. cbn [base.mbind option_bind]. destruct (table_columns i sc !! p) as [cc|] eqn:Hcc; [|by apply described_error].
  destruct (ss_dataSets sc !! i) as [d|] eqn:Hd; [|by apply described_error]. exists [describe cc alias]. split; [by eapply step_quiet, step_column|]. intros _. cbn [announces].
  exists i, (length (m_columnInfos d)), cc, (describe cc alias). split; [done|]. split; [done|]. split; [|done]. unfold column_at. cbn [ss_column ss_dataSets].
  rewrite list_lookup_alter, decide_True, Hd by done. cbn. rewrite lookup_app_r, Nat.sub_diag by lia. cbn. unfold table_columns in Hcc. by rewrite Hd in Hcc.
Qed.

Lemma all_columns_described ds0 indices : forall s, kept ds0 s -> Forall (fun i => (i < length (ss_dataSets s))%nat) indices ->
  exists cds, response_step s (foldl (fun s i => all_columns i s) s indices) cds /\ Forall2 of_column (concat (columns_of (ss_dataSets s) <$> (Z.of_nat <$> indices))) cds.
Proof.
  induction indices as [|i indices IH]; intros s Hk Hi; cbn [foldl fmap list_fmap concat]; [exists []; split; [apply step_refl|constructor]|]. apply Forall_cons in Hi as [Hi Hi']. destruct (lookup_lt_is_Some_2 _ _ Hi) as [d Hd].
  destruct (all_columns_ok ds0 i d s Hk Hd) as (Hk1 & Hg1 & _). destruct (IH (all_columns i s) Hk1) as (cds & Hs & Hc); [by rewrite <- (Forall2_length _ _ _ Hg1)|].
  eexists. split; [eapply step_trans; [apply add_columns_step|exact Hs]|]. unfold columns_of at 1. rewrite Nat2Z.id, Hd. apply Forall2_app; [unfold table_columns; rewrite Hd; apply describe_columns|].
  erewrite list_fmap_ext; [exact Hc|]. intros _ k _. symmetry. by apply columns_of_wider, grows_wider.
Qed.

Lemma resolve_star_described ds0 db t s : kept ds0 s -> let '(indices, s1) := resolve_all_columns db t s in described_step s s1 (AllColumnsExpression t indices).
Proof.
  intros Hk. unfold resolve_all_columns.
  assert (Hok : forall indices, Forall (fun i => (i < length (ss_dataSets s))%nat) indices ->
    described_step s (foldl (fun s i => all_columns i s) s indices) (AllColumnsExpression t (Z.of_nat <$> indices))).
  { intros indices Hi. destruct (all_columns_described ds0 indices s Hk Hi) as (cds & Hs & Hc). exists cds. split; [done|]. intros _. destruct (resolve_all_kept ds0 indices s Hk Hi) as (_ & Hg & _).
    apply (announces_wider (ss_dataSets s)); [by apply grows_wider|done]. }
  destruct t as [|ch t].
  - apply Hok. apply Forall_forall. intros i [_ Hi]%elem_of_seq. done.
  - rewrite getDataSetIndex_find by done. destruct (find_data_set _ _ 0) as [i|] eqn:Hi.
    + apply (Hok [i]). repeat constructor. apply find_data_set_lt in Hi. lia.
    + apply described_error, step_refl.
Qed.

Lemma resolve_expression_described ds0 db e s x s1 : kept ds0 s -> ss_dataSets s <> [] -> resolve_expression db e s = Ok (x, s1) -> described_step s s1 x.
Proof.
  intros Hk Hne Hres. pose proof (resolve_expression_ok ds0 db e s x s1 Hk Hne Hres) as Hstep.
  assert (Hother : is_star (m_expression e) = false -> (forall t c i j, m_expression e <> SingleColumnExpression t c i j) ->
    ('(x1, dataSets, errors) <- updateColumnsFromExpression (m_expression e) (ss_dataSets s) (ss_errors s) ;;
     dataType <- expression_result (ExprEval.getColumnDataType (DBExpressionEvaluationContext dataSets) x1) ;;
     Ok (x1, {| ss_dataSets := dataSets; ss_errors := errors; ss_knownAliases := ss_knownAliases s; ss_hasNullableColumns := true; ss_columnCount := S (ss_columnCount s);
                ss_response := ss_response s ++ [{| cd_name := m_alias e; cd_isNullable := true; cd_type := dataType |}] |})) = Ok (x, s1) -> described_step s s1 x).
  { intros Hns Hnc (((x1 & l1) & errs) & _ & (dt & Hdt & [= <- <-])%bind_Ok)%bind_Ok. exists [{| cd_name := m_alias e; cd_isNullable := true; cd_type := dt |}]. split; [split; cbn; [reflexivity|by rewrite orb_true_r|lia]|]. intros _. cbn [ss_dataSets].
    assert (Hty : getColumnDataType (DBExpressionEvaluationContext l1) x1 = Ok dt). { unfold expression_result, map_error in Hdt. destruct (getColumnDataType _ _); [by injection Hdt as ->|done..]. }
    pose proof (rs_forget _ _ _ _ _ Hstep) as Hf. destruct (m_expression e), x1; cbn in Hf; try done; try (by eexists; split; [reflexivity|]; split; [reflexivity|]; exact Hty).
    by destruct (Hnc _ _ _ _ eq_refl). }
  unfold resolve_expression in Hres. destruct (m_expression e) as [v|t c tables column|t tables|l|op a|op a b|a b n|a b c n|v l n|a b n|a b] eqn:Hm; try (by apply Hother).
  - injection Hres as Hres. pose proof (resolve_column_described db t c (m_alias e) tables column s) as H. by rewrite Hres in H.
  - destruct (m_alias e) as [|ch alias].
    + pose proof (resolve_star_described ds0 db t s Hk) as H. destruct (resolve_all_columns db t s) as [indices s2]. by injection Hres as <- <-.
    + injection Hres as <- <-. apply described_error, step_refl.
Qed.

Lemma resolve_expressions_described ds0 db : forall l s xs s1, kept ds0 s -> ss_dataSets s <> [] -> resolve_expressions db l s = Ok (xs, s1) ->
  exists cdss, response_step s s1 (concat cdss) /\ (ss_errors s1 = [] -> Forall2 (announces (ss_dataSets s1)) xs cdss).
Proof.
  induction l as [|e l IH]; intros s xs s1 Hk Hne; cbn [resolve_expressions].
  - intros [= <- <-]. exists []. split; [apply step_refl|constructor].
  - intros ([x s2] & Hx & ([xs' s3] & Hxs & [= <- <-])%bind_Ok)%bind_Ok. pose proof (resolve_expression_ok ds0 db e s x s2 Hk Hne Hx) as Hstep. destruct Hstep as [Hk2 Hg _ _ _ _ _].
    assert (Hne2 : ss_dataSets s2 <> []) by (intros Hnil; rewrite Hnil in Hg; apply Hne; by inversion Hg).
    destruct (resolve_expression_described ds0 db e s x s2 Hk Hne Hx) as (cds & Hs & Ha). destruct (IH s2 xs' s3 Hk2 Hne2 Hxs) as (cdss & Hs' & Ha').
    destruct (resolve_expressions_ok ds0 db l s2 xs' s3 Hk2 Hne2 Hxs) as (_ & Hg' & [errs He] & _). exists (cds :: cdss). split; [by eapply step_trans|]. intros Hclean. constructor; [|by apply Ha'].
    apply (announces_wider (ss_dataSets s2)); [by apply grows_wider|]. apply Ha. rewrite He in Hclean. by apply app_nil in Hclean as [? _].
Qed.

(** A data set with all columns, in their order. *)
Definition all_infos (d : data_set) : Prop := m_posInTable <$> m_columnInfos d = seq 0 (length (tbl_columns (ds_table d))).
Definition star_full (l : list data_set) (x : Expression) : Prop := is_star x = true -> Forall all_infos l.

Lemma full_infos d : all_infos (full d).
Proof.
  unfold all_infos, full, infos_of. cbn. rewrite <- list_fmap_compose. apply list_eq. intros i. rewrite list_lookup_fmap, list_lookup_imap.
  destruct (tbl_columns (ds_table d) !! i) as [c|] eqn:Hc; cbn.
  - rewrite lookup_seq_lt; [done|by apply lookup_lt_Some in Hc].
  - rewrite lookup_seq_ge; [done|by apply lookup_ge_None in Hc].
Qed.

Record announced (r : SelectRequest) (q : query) (response : list ColumnDescription) (l : list data_set) : Prop := {
  an_exprs : exists cdss, response = concat cdss /\ Forall2 (announces l) (q_exprs q) cdss;
  an_nullable : q_hasNullableColumns q = existsb cd_isNullable response;
  an_count : q_columnCount q = length response;
  an_star : plain_results r -> Forall (star_full l) (q_exprs q)
}.

Lemma prepare_announced h r ls q limit offset response l : request_tables h r ls -> prepare_select h r = Ok (q, limit, offset, response, l) -> announced r q response l.
Proof.
  intros (d & Hdb & Htab) H. unfold prepare_select in H. destruct (negb _); [done|]. rewrite Hdb in H. cbn [bind] in H. set (errs0 := _ ++ _) in H. destruct errs0 eqn:Herr0; [|done].
  apply bind_Ok in H as (l0 & Hopen & ([xs s] & Hxs & H)%bind_Ok). destruct (open_tables_ok h d _ _ Htab l0 Hopen) as (Hok0 & Hn0 & Hnil0 & Hlen0).
  assert (Hne0 : l0 <> []). { subst errs0. intros ->. by destruct (m_tables r). }
  set (s0 := {| ss_dataSets := l0; ss_errors := []; ss_knownAliases := []; ss_hasNullableColumns := false; ss_columnCount := 0; ss_response := [] |}) in Hxs.
  pose proof (conj (grows_all_refl l0) Hn0 : kept l0 s0) as Hk0.
  destruct (resolve_expressions_ok l0 _ _ s0 xs s Hk0 Hne0 Hxs) as ([Hg Hn] & _ & _ & Hfor & _). destruct (resolve_expressions_described l0 _ _ s0 xs s Hk0 Hne0 Hxs) as (cdss & [Hr Hnull Hcount] & Hann).
  assert (Hne : ss_dataSets s <> []). { intros Hnil. rewrite Hnil in Hg. apply Hne0. by inversion Hg. }
  destruct (resolve_where_ok (m_where r) s Hn Hne) as (w & l1 & errs & Hw & Hg1 & Hn1 & Hrw & Hkeep). unfold resolve_where in Hw. rewrite Hw in H. cbn [bind] in H.
  destruct (ss_errors s ++ errs) eqn:Herr; [|done]. apply app_nil in Herr as [Hes ->].
  destruct (reset_all_ok l1 ls) as (l2 & Hreset & _ & Hsh); [by apply (grows_ok l0); [eapply grows_all_trans|..]|]. rewrite Hreset in H. cbn [bind] in H.
  apply bind_Ok in H as ([] & _ & (lim & _ & (off & _ & [= <- <- <- <- <-])%bind_Ok)%bind_Ok). cbn in Hr, Hnull, Hcount. split; cbn.
  - exists cdss. split; [done|]. eapply Forall2_impl; [by apply Hann|]. intros x cds Hx. apply (announces_wider l1); [by apply shape_wider|]. by apply (announces_wider (ss_dataSets s)); [apply grows_wider|].
  - by rewrite Hnull, Hr.
  - by rewrite Hcount, Hr.
  - intros [Hns|[tables Hstar]].
    + apply Forall_lookup. intros i x Hx Hs. destruct (Forall2_lookup_r _ _ _ _ _ Hfor Hx) as (e & He & Hf). rewrite (forget_star _ _ Hf) in Hs. by rewrite (Forall_lookup_1 _ _ _ _ Hns He) in Hs.
    + rewrite Hstar in Hxs. injection Hxs as <- <-. destruct (star_columns l0 Hnil0 (length l0) 0 s0) as [Hds _]; [done|done|by rewrite take_0, drop_0|].
      repeat constructor. intros _. apply Forall_lookup. intros i d2 Hd2. destruct (Forall2_lookup_r _ _ _ _ _ Hsh Hd2) as (d1 & Hd1 & (_ & Ht & Hi)). unfold all_infos. rewrite Ht, Hi.
      rewrite (Hkeep l0 Hds) in Hd1. assert (Hfull : (full <$> l0) !! i = Some d1) by (etransitivity; [|exact Hd1]; f_equal; symmetry; exact Hds). rewrite list_lookup_fmap in Hfull. apply fmap_Some in Hfull as (d0 & _ & ->). apply full_infos.
Qed.
End Announce.

(** ** The values of a row fit what is announced *)

Section Values.
Context {T : Type} {ST : ScanTable T} {SL : ScanTableLaws T} {X : Externals}.
Notation data_set := (TableDataSet T).

(** The values of a stored row have the types of their columns. *)
Definition row_typed (info : table_info) (r : stored_row) : Prop := Forall2 (fun c v => value_sent (col_dataType c) v) (tbl_columns info) (full_row r).
Definition tables_typed (l : list data_set) (ls : list (list stored_row)) : Prop := Forall2 (fun d rs => ds_ok d rs /\ Forall (row_typed (ds_table d)) rs) l ls.

Definition fits (cd : ColumnDescription) (v : Variant) : Prop := value_sent (cd_type cd) v /\ (cd_isNullable cd = false -> isNull v = false).

Lemma value_sent_copy t v : value_sent t v -> value_sent t (copy v).
Proof.
  intros (Hk & [Hv Hw] & Hs). split; [done|]. destruct v; cbn [copy] in *; try done.
  - destruct Hv as [Hl Hb]. split; [split; [split; [apply newMemLob_ok; cbn; lia|done]|done]|]. right. by destruct Hs as [|[_ Hs]].
  - destruct Hv as [Hl Hb]. split; [split; [split; [apply newMemLob_ok; cbn; lia|done]|done]|]. right. by destruct Hs as [|[_ Hs]].
Qed.
Lemma isNull_copy v : isNull (copy v) = isNull v.
Proof. by destruct v. Qed.

Lemma column_fits info r p c v cd : row_ok info r -> row_typed info r -> tbl_columns info !! p = Some c -> full_row r !! p = Some v -> of_column c cd -> fits cd (copy v).
Proof.
  intros Hr Ht Hc Hv [Hn Hty]. split.
  - rewrite Hty. apply value_sent_copy. exact (Forall2_lookup_lr _ _ _ _ _ _ Ht Hc Hv).
  - rewrite Hn, isNull_copy. intros Hnn%negb_false_iff. destruct p as [|p]; [by injection Hv as <-|]. cbn in Hv. pose proof (row_not_null _ _ Hr p c v Hc Hv) as H. rewrite Hnn, andb_true_r in H. done.
Qed.

Lemma product_in {A} (ls : list (list A)) rows : rows ∈ product ls -> Forall2 (fun rs r => r ∈ rs) ls rows.
Proof.
  revert rows. induction ls as [|rs ls IH]; intros rows; cbn [product].
  - intros ->%list_elem_of_singleton. constructor.
  - intros (r & Hr & Hin)%list_elem_of_In%in_flat_map. apply list_elem_of_In, list_elem_of_fmap in Hin as (rows' & -> & Hrows). constructor; [by apply list_elem_of_In|by apply IH].
Qed.

(** The table, the data set and the row at an index. *)
Lemma typed_at l ls rows i d : tables_typed l ls -> rows ∈ product ls -> l !! i = Some d ->
  exists rs r, rows !! i = Some r /\ r ∈ rs /\ ds_ok d rs /\ row_ok (ds_table d) r /\ row_typed (ds_table d) r.
Proof.
  intros Ht Hrows Hd. destruct (Forall2_lookup_l _ _ _ _ _ Ht Hd) as (rs & Hrs & Hok & Hty). destruct (Forall2_lookup_l _ _ _ _ _ (product_in _ _ Hrows) Hrs) as (r & Hr & Hin).
  exists rs, r. split; [done|]. split; [done|]. split; [done|]. pose proof (st_rows _ _ _ (proj2 Hok)) as Hro. rewrite Forall_forall in Hro, Hty. split; [by apply Hro|by apply Hty].
Qed.

Lemma full_values d rs r : ds_ok d rs -> r ∈ rs -> row_ok (ds_table d) r -> all_infos d -> row_values d r = full_row r.
Proof.
  intros Hok Hin Hr Hall. assert (Hlen : length (m_columnInfos d) = length (full_row r)). { apply (f_equal length) in Hall. rewrite length_fmap, length_seq in Hall. cbn. rewrite Hall. exact (row_width _ _ Hr). }
  apply list_eq. intros i. destruct (decide (i < length (m_columnInfos d))%nat) as [Hi|Hi].
  - rewrite (row_values_lookup d rs r i Hok Hin Hi). unfold column_of. destruct (lookup_lt_is_Some_2 _ _ Hi) as [info Hinfo]. rewrite Hinfo. cbn. f_equal.
    assert (H : (m_posInTable <$> m_columnInfos d) !! i = Some (m_posInTable info)) by (by rewrite list_lookup_fmap, Hinfo). rewrite Hall in H. by apply lookup_seq in H as [-> _].
  - rewrite !lookup_ge_None_2; [done|lia|]. rewrite (row_values_length d rs r Hok Hin). lia.
Qed.

Lemma row_fits info r cds : row_ok info r -> row_typed info r -> Forall2 of_column (tbl_columns info) cds -> Forall2 fits cds (copy <$> full_row r).
Proof.
  intros Hr Ht Hc. apply Forall2_same_length_lookup_2; [rewrite length_fmap, <- (Forall2_length _ _ _ Hc); by apply Forall2_length in Ht|]. intros p cd v Hcd Hv. rewrite list_lookup_fmap in Hv. apply fmap_Some in Hv as (w & Hw & ->).
  destruct (Forall2_lookup_r _ _ _ _ _ Hc Hcd) as (c & Hcc & Hof). by apply (column_fits info r p c w).
Qed.

Section Row.
Context (l : list data_set) (ls : list (list stored_row)) (rows : list stored_row).
Context (Htab : tables_typed l ls) (Hin : rows ∈ product ls).

Lemma star_fits indices : Forall all_infos l -> forall cds, Forall2 of_column (concat (columns_of l <$> indices)) cds -> Forall2 fits cds (concat (data_set_values l rows <$> indices)).
Proof.
  intros Hall. induction indices as [|i indices IH]; intros cds; cbn [fmap list_fmap concat]; [intros H; inversion H; constructor|].
  intros (cds1 & cds2 & H1 & H2 & ->)%Forall2_app_inv_l. apply Forall2_app; [|by apply IH]. unfold columns_of, data_set_values in *. destruct (l !! Z.to_nat i) as [d|] eqn:Hd; [|inversion H1; constructor].
  destruct (typed_at l ls rows _ d Htab Hin Hd) as (rs & r & -> & Hr & Hok & Hro & Hty). rewrite (full_values d rs r Hok Hr Hro) by (by apply (Forall_lookup_1 _ _ _ _ Hall Hd)). by apply (row_fits (ds_table d)).
Qed.

(** A value that is computed fits the type that is announced for it. *)
Definition is_column (x : Expression) : bool := match x with SingleColumnExpression _ _ _ _ | AllColumnsExpression _ _ => true | _ => false end.
Definition computed_fits (x : Expression) : Prop := is_column x = false -> forall d v,
  getColumnDataType (DBExpressionEvaluationContext l) x = Ok d -> evaluate (rows_context l rows) x = Ok v -> value_sent d v.

(** Computed values fit when the expression is regular in the sense of [ExprTyping],
    its type is known, and the value can be sent. *)
Lemma regular_fits x t : context_typed (rows_context l rows) -> regular (rows_context l rows) x -> column_regular (rows_context l rows) x -> getResultValueType (rows_context l rows) x = Ok t ->
  known_type (convertVariantTypeToColumnDataType t) = true -> (forall v, evaluate (rows_context l rows) x = Ok v -> wire_ok v) -> computed_fits x.
Proof.
  intros Hctx Hreg Hcreg Ht Hk Hw _ d v Hd Hv. assert (Hd' : getColumnDataType (rows_context l rows) x = Ok d) by (by apply (column_type_more (DBExpressionEvaluationContext l))).
  pose proof (column_type_agrees _ x d t Hcreg Hd' Ht) as Hconv. split; [destruct d; try done; injection Hconv as <-; done|]. split; [by apply Hw|].
  destruct (evaluate_sound _ x Hctx t v Hreg Ht Hv) as [->|[Hty _]]; [by left|]. destruct (isNull v) eqn:Hn; [apply is_null in Hn as ->; by left|]. right. split; [by intros ->|]. rewrite Hconv. f_equal. rewrite <- Hty.
  destruct v; try done; cbn in Hty; subst t; by destruct d.
Qed.

Lemma project_one_fits x cds vs : announces l x cds -> star_full l x -> computed_fits x -> project_one l rows x = Ok vs -> Forall2 fits cds vs.
Proof.
  intros Ha Hstar Hcomp. assert (Hvalue : is_star x = false -> project_one l rows x = Ok vs -> exists v, evaluate (rows_context l rows) x = Ok v /\ vs = [v]).
  { intros Hns Hp. assert (H : (v <- expression_result (evaluate (rows_context l rows) x) ;; Ok [v]) = Ok vs) by (by destruct x). apply bind_Ok in H as (v & Hv & [= <-]). exists v. split; [|done].
    unfold expression_result, map_error in Hv. destruct (evaluate _ _); [by injection Hv as ->|done..]. }
  assert (Hcomputed : is_column x = false -> (exists cd, cds = [cd] /\ cd_isNullable cd = true /\ getColumnDataType (DBExpressionEvaluationContext l) x = Ok (cd_type cd)) -> project_one l rows x = Ok vs -> Forall2 fits cds vs).
  { intros Hc (cd & -> & Hn & Ht) Hp. destruct (Hvalue ltac:(by destruct x) Hp) as (v & Hv & ->). constructor; [|constructor]. split; [by apply Hcomp|by rewrite Hn]. }
  destruct x; try (by apply Hcomputed); cbn [announces] in Ha.
  - intros Hp. destruct (Hvalue eq_refl Hp) as (v & Hv & ->). destruct Ha as (i & j & c & cd & -> & -> & Hc & -> & Hof). cbn [evaluate column_indices bind] in Hv.
    apply bind_Ok in Hv as (w & Hw & [= <-]). cbn in Hw. rewrite !Nat2Z.id in Hw. unfold column_at in Hc. destruct (l !! i) as [d|] eqn:Hd; [|done]. cbn in Hc, Hw. destruct (typed_at l ls rows i d Htab Hin Hd) as (rs & r & Hr & _ & _ & Hro & Hty).
    rewrite Hr in Hw. cbn in Hw. unfold column_of in Hw. destruct (m_columnInfos d !! j) as [info|]; [|done]. cbn in Hc, Hw. destruct (full_row r !! m_posInTable info) as [u|] eqn:Hu; [|done]. injection Hw as <-.
    constructor; [|constructor]. by apply (column_fits (ds_table d) r (m_posInTable info) c u).
  - intros [= <-]. apply star_fits; [by apply Hstar|done].
Qed.

Lemma project_fits xs cdss : Forall2 (announces l) xs cdss -> Forall (star_full l) xs -> Forall computed_fits xs -> forall vs, project l rows xs = Ok vs -> Forall2 fits (concat cdss) vs.
Proof.
  induction 1 as [|x cds xs cdss Hx H IH]; intros Hs Hc vs; cbn [project concat]; [intros [= <-]; constructor|]. apply Forall_cons in Hs as [Hsx Hs], Hc as [Hcx Hc].
  intros (v1 & H1 & (v2 & H2 & [= <-])%bind_Ok)%bind_Ok. apply Forall2_app; [by apply (project_one_fits x)|by apply IH].
Qed.
End Row.
End Values.

(** ** The answer arrives *)

Section Answer.
Context {T : Type} {ST : ScanTable T} {SL : ScanTableLaws T} {X : Externals} {CS : CodedStreams} {CL : CodedStreamsLaws CS}.

Lemma value_size v : wire_ok v -> 0 <= getVariantSerializedSize v < 2 ^ 31 + 10.
Proof.
  intros [Hv Hw]. assert (H32 : forall z, 1 <= VarintSize32 (uw 32 z) <= 5) by (intros z; rewrite varint_size32, write32; apply (encodeVarInt_len false W32)).
  assert (H64 : forall z, 1 <= VarintSize64 (uw 64 z) <= 10) by (intros z; rewrite varint_size64, write64; apply (encodeVarInt_len false W64)).
  destruct v as [|b|[[] z|[] x]|dt|s|s|m|m]; cbn [getVariantSerializedSize] in *; try (specialize (H32 z)); try (specialize (H64 z)); try lia.
  - unfold RawDateTime.getSerializedSize. destruct (RawDateTime.m_hasTimePart _); lia.
  - specialize (H32 (len s)). pose proof (len_nonneg s). lia.
  - specialize (H32 (len s)). pose proof (len_nonneg s). lia.
  - destruct Hv as [Hm _]. destruct (lob_size m Hm) as (E1 & E2 & _). specialize (H32 (len (m_content m))). rewrite <- E1, E2 in H32. rewrite E2. pose proof (len_nonneg (m_content m)). lia.
  - destruct Hv as [Hm _]. destruct (lob_size m Hm) as (E1 & E2 & _). specialize (H32 (len (m_content m))). rewrite <- E1, E2 in H32. rewrite E2. pose proof (len_nonneg (m_content m)). lia.
Qed.

Lemma sizes_bound values : Forall wire_ok values -> sizes values <= Z.of_nat (length values) * (2 ^ 31 + 10).
Proof. induction 1 as [|v values Hv H IH]; cbn [sizes fold_right length]; [lia|]. fold (sizes values). pose proof (value_size v Hv). lia. Qed.

Lemma required_size_small n : (required_size n <= S n)%nat.
Proof. unfold required_size. pose proof (Nat.Div0.div_le_upper_bound n 8 n ltac:(lia)). destruct (n mod 8 =? 0)%nat; lia. Qed.

(** A row that is written fits what the client expects. *)
Lemma written_sent q response vs mask : response <> [] -> Z.of_nat (length response) < 2 ^ 31 - 1 -> q_hasNullableColumns q = existsb cd_isNullable response -> q_columnCount q = length response ->
  Forall2 fits response vs -> row_written q vs (WriteRow vs mask) -> row_sent (cd_type <$> response) (existsb cd_isNullable response) vs mask.
Proof.
  intros Hne Hlen Hn Hc Hf (mask' & [= <-] & Hm). rewrite Hn, Hc in Hm.
  assert (Hs : Forall2 value_sent (cd_type <$> response) vs). { apply Forall2_fmap_l. eapply Forall2_impl; [exact Hf|]. by intros cd v [H _]. }
  assert (Hmask : len mask < 2 ^ 31). { destruct (existsb _ _); [|by subst mask]. destruct Hm as [Hm _]. unfold len. rewrite Hm. pose proof (required_size_small (length response)). lia. }
  split; [by destruct response|done| |done|].
  - destruct (existsb cd_isNullable response) eqn:He; [by rewrite length_fmap|]. split; [done|]. apply Forall_lookup. intros j v Hv. destruct (Forall2_lookup_r _ _ _ _ _ Hf Hv) as (cd & Hcd & [_ H]). apply H.
    destruct (cd_isNullable cd) eqn:E; [|done]. assert (Ht : existsb cd_isNullable response = true); [|congruence]. apply existsb_exists. exists cd. split; [|done]. by apply list_elem_of_In, (list_elem_of_lookup_2 _ j).
  - pose proof (sizes_bound vs (sent_wire_ok _ _ Hs)) as Hb. apply Forall2_length in Hf. rewrite <- Hf in Hb. nia.
Qed.

(** The events of the rows. *)
Lemma written_rows q response vss evs : response <> [] -> Z.of_nat (length response) < 2 ^ 31 - 1 -> q_hasNullableColumns q = existsb cd_isNullable response -> q_columnCount q = length response ->
  Forall (Forall2 fits response) vss -> Forall2 (row_written q) vss evs ->
  exists rows, evs = row_event <$> rows /\ fst <$> rows = vss /\ Forall (fun r => row_sent (cd_type <$> response) (existsb cd_isNullable response) (fst r) (snd r)) rows.
Proof.
  intros Hne Hlen Hn Hc Hf H. induction H as [|vs ev vss evs Hw H IH]; [by exists []|]. apply Forall_cons in Hf as [Hf Hfs]. destruct (IH Hfs) as (rows & -> & <- & Hrows). pose proof Hw as (mask & -> & _).
  exists ((vs, mask) :: rows). split; [done|]. split; [done|]. constructor; [|done]. by apply (written_sent q).
Qed.

Definition client_values (vs : list Variant) : list Variant := wire <$> vs.

(** C3: what a client of SELECT gets, for a result list without [*] or with [*]
    alone and tables that keep the laws of [ScanTableLaws] (see [select_refines]):
    when WHERE and the result expressions can be evaluated on all rows, the values
    of the tables have the types of their columns, computed values have those that
    are announced for them, and date-times with the time 00:00:00 are not marked as
    having a time part, the response of fewer than 2^31 - 1 columns is written,
    passes the connection worker unchanged, and the client, who knows the types of
    the announced columns and whether one of them is nullable, reads exactly the
    projections of the rows that fulfil WHERE, after OFFSET and up to LIMIT, in
    their order, LOBs as strings and binary values. *)
Theorem select_reaches_client (h : request_handler T) r ls fuel q limit offset response l rest :
  request_tables h r ls -> plain_results r -> prepare_select h r = Ok (q, limit, offset, response, l) -> (List.length (product ls) <= fuel)%nat ->
  (forall rows, rows ∈ product ls -> exists b, spec_fits l (q_where q) rows = Ok b) -> (forall rows, rows ∈ product ls -> exists vs, project l rows (q_exprs q) = Ok vs) ->
  response <> [] -> Z.of_nat (length response) < 2 ^ 31 - 1 ->
  Forall2 (fun d rs => Forall (row_typed (ds_table d)) rs) l ls -> (forall rows x, rows ∈ product ls -> x ∈ q_exprs q -> computed_fits l rows x) ->
  exists vss evs bytes, Forall2 (fun rows vs => project l rows (q_exprs q) = Ok vs) (cut limit offset (List.filter (selected (spec_fits l (q_where q))) (product ls))) vss /\
    executeSelectRequest fuel h r = (BeginRowset response :: evs, Ok tt) /\ write_events evs = Ok bytes /\
    forwardRowData (S (length vss)) (bytes ++ rest) = Ok (bytes, rest) /\
    forall fresh rest', read_rows (S (length vss)) fresh (cd_type <$> response) (existsb cd_isNullable response) (bytes ++ rest') = Ok (client_values <$> vss, rest').
Proof.
  intros Ht Hp Hprep Hf Hfits Hproj Hne Hlen Htyped Hcomp. destruct (prepare_ok h r ls q limit offset response l Ht Hprep) as [Hnl Hat _ _ Hq]. destruct (prepare_counts h r q limit offset response l Hprep) as [Hl Ho].
  destruct (prepare_announced h r ls q limit offset response l Ht Hprep) as [(cdss & Hresp & Hann) Hnull Hcount Hstar].
  pose proof (write_rows_ok l q ls limit offset l fuel (Hq Hp) Hnl (same_shapes_refl l) Hat Hf) as H.
  destruct (spec_select_ok _ _ limit offset (product ls) Hfits Hproj Hl Ho) as (vss & E & Hvss). rewrite E in H. destruct H as (evs & Hev & Hwr).
  assert (Htab : tables_typed l ls). { apply Forall2_same_length_lookup_2; [by apply Forall2_length in Htyped|]. intros i d rs Hd Hrs. split; [|exact (Forall2_lookup_lr _ _ _ _ _ _ Htyped Hd Hrs)].
    destruct (Forall3_lookup_l _ _ _ _ _ _ Hat Hd) as (rs' & p & Hrs' & _ & [Hok _]). by simplify_eq. }
  assert (Hall : Forall (Forall2 fits response) vss).
  { apply Forall_lookup. intros i vs Hvs. destruct (Forall2_lookup_r _ _ _ _ _ Hvss Hvs) as (rows & Hrows & Hpr). apply list_elem_of_lookup_2 in Hrows. assert (Hin : rows ∈ product ls).
    { apply list_elem_of_In. apply (proj1 (filter_In (selected (spec_fits l (q_where q))) rows _)). apply list_elem_of_In. unfold cut in Hrows. destruct limit; [eapply subseteq_take in Hrows|]; by eapply subseteq_drop. }
    rewrite Hresp. apply (project_fits l ls rows Htab Hin (q_exprs q)); [done|by apply Hstar| |done]. apply Forall_forall. intros x Hx. by apply Hcomp. }
  destruct (written_rows q response vss evs Hne Hlen Hnull Hcount Hall Hev) as (rows & -> & <- & Hsent). destruct (rows_written _ _ rows Hsent) as (bodies & Hw & Hbl & Hb & Hr).
  exists (fst <$> rows), ((row_event <$> rows) ++ [EndRowset]), (rowset_bytes bodies). split; [done|]. split; [unfold executeSelectRequest; by rewrite Hprep, Hwr|]. split; [done|]. rewrite length_fmap.
  split; [rewrite <- Hbl; by apply forward_ok|]. intros fresh rest'. rewrite Hr, <- list_fmap_compose. done.
Qed.
End Answer.

(** ** An example *)

Module SelectWireSample.
Import SelectSample WireSample.

Lemma sample_int z : in_ity I32 z = true -> value_sent COLUMN_DATA_TYPE_INT32 (int z).
Proof. intros Hz. split; [reflexivity|]. split; [split; [exact Hz|exact I]|]. right. split; [discriminate|reflexivity]. Qed.
Lemma sample_null t : known_type t = true -> value_sent t VNull.
Proof. intros Ht. split; [exact Ht|]. split; [split; exact I|]. left. reflexivity. Qed.
Lemma sample_id z : in_ity U64 z = true -> value_sent COLUMN_DATA_TYPE_UINT64 (row_id z).
Proof. intros Hz. split; [reflexivity|]. split; [split; [exact Hz|exact I]|]. right. split; [discriminate|reflexivity]. Qed.
Lemma sample_text s : bytes_ok s -> len s < 2 ^ 31 -> value_sent COLUMN_DATA_TYPE_TEXT (VString s).
Proof. intros Hb Hl. split; [reflexivity|]. split; [split; [split; [exact Hb|lia]|exact Hl]|]. right. split; [discriminate|reflexivity]. Qed.

Lemma typed1 : Forall (row_typed t1_info) (mem_row <$> ms_rows t1).
Proof.
  repeat (apply List.Forall_cons; [apply List.Forall2_cons; [apply sample_id; reflexivity|]; apply List.Forall2_cons; [|apply List.Forall2_nil]|]); [..|apply List.Forall_nil];
    first [apply sample_int; reflexivity|apply sample_null; reflexivity].
Qed.
Lemma typed2 : Forall (row_typed t2_info) (mem_row <$> ms_rows t2).
Proof.
  repeat (apply List.Forall_cons; [apply List.Forall2_cons; [apply sample_id; reflexivity|]; apply List.Forall2_cons; [|apply List.Forall2_nil]|]); [..|apply List.Forall_nil];
    (apply sample_text; [|reflexivity]); repeat (apply List.Forall_cons; [split; vm_compute; [intros [=]|reflexivity]|]); apply List.Forall_nil.
Qed.

(** The columns of the request [query1] and their data sets. *)
Lemma prepared_parts : exists q response l, prepare_select handler query1 = Ok (q, Some 2, Some 1, response, l) /\
  cd_type <$> response = [COLUMN_DATA_TYPE_TEXT; COLUMN_DATA_TYPE_INT32] /\ existsb cd_isNullable response = true /\
  Forall2 (fun d rs => Forall (row_typed (ds_table d)) rs) l rows1 /\ (forall rows x, rows ∈ product rows1 -> x ∈ q_exprs q -> computed_fits l rows x) /\
  (forall rows, rows ∈ product rows1 -> exists b, spec_fits l (q_where q) rows = Ok b) /\ (forall rows, rows ∈ product rows1 -> exists vs, project l rows (q_exprs q) = Ok vs).
Proof.
  eexists _, _, _. split; [vm_compute; reflexivity|]. split; [reflexivity|]. split; [reflexivity|]. split; [apply List.Forall2_cons; [exact typed1|]; apply List.Forall2_cons; [exact typed2|]; apply List.Forall2_nil|].
  split; [|split; intros rows Hr; repeat (apply elem_of_cons in Hr as [->|Hr]; [eexists; vm_compute; reflexivity|]); now apply not_elem_of_nil in Hr].
  intros rows x Hr Hx. apply elem_of_cons in Hx as [->|Hx]; [intros H; discriminate H|]. apply elem_of_cons in Hx as [->|Hx]; [|now apply not_elem_of_nil in Hx].
  repeat (apply elem_of_cons in Hr as [->|Hr]; [intros _ d v Hd Hv; vm_compute in Hd, Hv; injection Hd as <-; injection Hv as <-; first [apply sample_int; reflexivity|apply sample_null; reflexivity]|]). now apply not_elem_of_nil in Hr.
Qed.

Lemma select_reaches_client_witness : exists evs bytes rows, fst (executeSelectRequest 6 handler query1) = evs /\ write_events evs = Ok bytes /\ forwardRowData 3 (bytes ++ [9]) = Ok (bytes, [9]) /\
  read_rows 3 fresh [COLUMN_DATA_TYPE_TEXT; COLUMN_DATA_TYPE_INT32] true bytes = Ok (rows, []) /\ length rows = 2%nat.
Proof.
  destruct prepared_parts as (q & response & l & Hp & Ht & Hn & Htyped & Hcomp & Hfits & Hproj).
  destruct (select_reaches_client handler query1 rows1 6 q (Some 2) (Some 1) response l [9] tables1 plain1 Hp) as (vss & evs & bytes & Hv & Hx & Hw & Hf & Hr).
  - vm_compute. lia.
  - exact Hfits.
  - exact Hproj.
  - intros ->. discriminate Ht.
  - apply (f_equal length) in Ht. rewrite length_fmap in Ht. rewrite Ht. reflexivity.
  - exact Htyped.
  - exact Hcomp.
  - assert (Hlen : length vss = 2%nat). { rewrite <- (Forall2_length _ _ _ Hv). vm_compute in Hp. injection Hp as <- <- <-. vm_compute. reflexivity. }
    rewrite Hlen in Hf, Hr. specialize (Hr fresh []). rewrite app_nil_r, Ht, Hn in Hr.
    exists (BeginRowset response :: evs), bytes, (client_values <$> vss). rewrite Hx, length_fmap, Hlen. auto.
Defined.
End SelectWireSample.
